(* ===== verification/_CoqProject ===== *)
-Q . S2P
Prelude.v
Text.v
StdMap.v
DeclinedAddresses.v
AllowedList.v
ClientName.v
DnsWire.v
DhcpMessage.v
DhcpState.v
DhcpLeases.v
DhcpServer.v
DhcpSafety.v
DhcpLifecycle.v
DnsPool.v
InternalDnsCache.v
CacheSpec.v
CacheFile.v
AtomicFile.v
CachePersist.v
CacheView.v
TimeMath.v
Subnet.v
AuthManager.v
JobRegistry.v
DnsCodec.v
DnsCache.v
DnsServer.v
RestartSave.v
StatStore.v
Md5.v
RestartJobs.v
CacheJob.v
Autosave.v
CacheAutoUpdate.v
Json.v
ConfigBlobs.v
HostsApi.v
PathUtil.v
Uploads.v
FileUpload.v
FileShell.v
PosixFiles.v
NtpWire.v
TimeServer.v
TimeSync.v
TransferEngine.v
TransferSafety.v
FileManager.v
VolumeCheck.v
FileJobs.v
LogFile.v
LogTask.v
FileBrowser.v
Settings.v
Certificates.v
HttpsServer.v
CertificateApi.v
JsonScan.v
SettingsApi.v
Backup.v
BackupScan.v
BackupSafety.v
