(* ===== verification/Prelude.v ===== *)
(** * Verification of the DHCPServer firmware

    The program is the C++ firmware of an ESP32 board that serves DHCP and DNS
    on a small network and is administered over HTTP.  This library models the
    parts of it that decide something - who is given an address, what the DNS
    cache answers, who is let in, what survives a power cut - as executable
    definitions, and proves what they promise.

    ** Conventions

    An unsigned integer of width [w] is a [Z] with its wrap-around written out
    ([u8], [u16], [u32], [u64]); a byte is a [Z]; a [std::string] and a buffer
    are lists of bytes; a C array is a list whose accesses out of range are the
    result [OutOfBounds] of the monad [run]; a loop that is not structural takes
    fuel and ends in [OutOfFuel].  The theorems say [Done]: the code reads and
    writes only inside its buffers and its loops end.  Code that is not in the
    repository is a parameter: [inet_pton] and [inet_ntop] (with the round trip
    they are documented to have, where one is used), the Base64 decoder,
    [std::sort], the clock, lwIP's probes and sockets, the outcome of each file
    operation; larger outside interfaces are classes with their documented laws:
    the NVS partition ([Settings.Nvs]), the cryptography ([Certificates.Crypto]),
    the HTTP server of the SDK ([HttpsServer.Httpd]), the C library's files
    ([PosixFiles]).  The laws of these files say what ISO C and POSIX promise and
    no more: a call may fail for any reason, only ENOENT says that a file is absent, a
    listing may break off with what it gave so far, and what a stream has taken is on
    the volume for certain only when its flush or its close has succeeded
    ([PosixFiles.kept]).  A mutex makes an operation one step; what two tasks do without
    one is in steps where it matters ([JobRegistry], the format of [FileJobs], the retry
    of [HttpsServer]); log wording and progress callbacks are left out.

    ** Files

    - [Prelude] (this file): words, bytes, byte order, the monad [run] with its
      lemmas and tactics, lists and options; [StdMap]: [std::map] as a sorted
      association list over the class [KeyOrder].
    - [DeclinedAddresses] (src/dhcp/DeclinedAddresses.h): the addresses refused
      with DHCPDECLINE and held down for an hour.
    - [AllowedList] (src/dhcp/DhcpAllowedList.cpp, src/core/StorageText.h): the
      text the list is stored as, the double-buffered hash table, the policy.
    - [ClientName] (src/dhcp/DhcpClientName.cpp): the name in options 12 and 81.
    - [DnsWire] (src/dhcp/DnsMessage.cpp, PtrProbe.cpp, NbstatProbe.cpp): the
      DNS envelope, the PTR probe and the NetBIOS node-status probe.
    - [DhcpMessage], [DhcpState], [DhcpLeases], [DhcpServer], [DhcpLifecycle]
      (src/dhcp/DhcpServer.cpp and its header): option walk and replies byte for
      byte; the members of the class, its surroundings ([Env]) and the monad its
      methods run in; the lease table, the probe and the choice of an address;
      the packet handler, the task loop and the lookups; start, stop and the
      reloads.  [handleDhcpMessage] calls [AllowedList], [ClientName] and
      [DeclinedAddresses]; [lookupClientName] calls [DnsWire] through [Env].
    - [DhcpSafety]: what the server promises its clients.
    - [DnsPool], [InternalDnsCache] (src/dns/InternalDnsCache.cpp): the arena of
      nodes chained by index and the free stack; the operations on it.
    - [CacheSpec]: the cache as a finite map from name and type to records, and
      the refinement of every operation to it ([Refines]).
    - [CacheFile] (src/dns/CacheFileReader.cpp, and the check of
      RestartSaveVerify): the file format in its three versions.
    - [AtomicFile] (src/core/AtomicFile.cpp): file operations as programs of calls
      ([prog]), publishing and recovering as two of them, their runs ([exec]), the
      volumes a power cut in any call leaves ([crash]), and the specifications that
      hold in all of these ([spec]).
    - [CachePersist] ([saveToFile] and [loadFromFile] of InternalDnsCache.cpp):
      a client of [DnsPool], [CacheSpec] and [CacheFile], and the save a program over
      [AtomicFile], whose runs and crashes are both taken from the same calls.
    - [CacheView] (src/dns/CacheEntryView.h, [entries]): the viewer's pages.
    - [TimeMath] (src/time/TimeMath.cpp): the calendar.
    - [Subnet] (src/core/Subnet.cpp, SubnetFilter.cpp, IpText.h and
      src/web/PeerAddress.h): masks, the fail-open filter, address text.
    - [AuthManager] (src/web/AuthManager.cpp): HTTP Basic authentication with
      counted attempts and a lockout.
    - [JobRegistry] (src/core/JobRegistry.cpp): the eight job slots.
    - [Text]: splitting, joining, searching and decimal text, shared by the
      files below.
    - [DnsCodec] (the encoders and parsers of src/dns/DnsServer.cpp): names,
      questions, answers; [DnsCache] (src/dns/DnsCache.cpp): the lookups in the
      external cache, the names in flight, the breaker; [DnsServer]: the loop
      with its forward slots - receive, local answer, internal cache, external
      cache, forward, relay, expiry - over [DnsCodec], [DnsCache] and the
      lookups of [InternalDnsCache].
    - [StatStore] (src/dns/DnsStatStore.cpp), [RestartSave]
      (RestartSaveVerify, RestartSaveJobState), [RestartJobs], [CacheJob] (the
      statistics job and the cache job of DnsServer.cpp), [Md5]
      (src/core/Md5.cpp): what is saved before a restart and what a start
      restores.  [CacheJob] is a client of [CachePersist], [Md5] and
      [RestartSave]; [RestartJobs] of [StatStore].
    - [Autosave] (src/dns/CacheAutosave.cpp, src/core/AutosavePeriod.h,
      AutoUpdatePlan.h), [CacheAutoUpdate]: the timers and the sweep.
    - [Json] (src/web/JsonWriter.cpp, the readers of RestApi.cpp,
      SettingsImportScan.h), [ConfigBlobs] (the text blobs of
      src/core/Config.cpp), [HostsApi] (the local-hosts handlers): from a
      request body to the settings and to what the DNS server answers.
    - [PathUtil] (src/storage/PathUtil.cpp): names and paths of a volume.
    - [Uploads] (src/web/MultipartExtractor.cpp), [FileUpload]
      (src/files/UploadRange.cpp, FileSink.cpp, the uploads of FileManager.cpp
      and RestApi.cpp): a file that arrives in pieces; [FileUpload] publishes
      over the volume of [AtomicFile].
    - [FileShell] (src/net/FileShellPath.cpp, FileShell.cpp): the commands of
      the SSH shell, over the class [FileOperations]; [PosixFiles]
      (src/net/PosixFileOperations.cpp) implements the class over the C library
      and discharges its laws.
    - [NtpWire] (src/time/NtpMessage.h, NtpProbe.cpp, NtpProbeFormat.h,
      PosixTimezone.h, src/core/NtpServers.h, NtpLogFormat.h): the packets and
      the texts of the time side; [TimeServer] (src/time/TimeServer.cpp): the
      server that answers; [TimeSync]: the client of the same class, with its
      timer, its probe tasks, and the settings that drive both.
    - [TransferEngine] (src/files/TransferEngine.cpp): copying and moving between
      volumes, over the class [FileOps]; [TransferSafety]: what it promises, from
      the laws [FileOpsLaws]; [FileManager] (src/files/FileManager.cpp, FileSink.cpp,
      FileSource.cpp): the volumes behind the file pages, an instance of [FileOps]
      over the C library of [PosixFiles] that keeps these laws; [VolumeCheck]: its
      check and its repair; [FileJobs]: its tasks, their reports and switches, over
      [JobRegistry], and the filter of its clients, over [Subnet].
    - [LogFile] (src/core/LogFileWriter.cpp and the names of its archives): a log
      with its rotation; [LogTask] (ErrorLogCore, FreeRtosErrorQueue, ServiceLog,
      SweepFileLogTarget): the queue of lines and the task that drains it into a
      [LogFile].
    - [FileBrowser] (src/net/FileBrowser.cpp, TuiKey.cpp): the screens of the
      browser of the SSH session, over the same class [FileOperations] as the
      shell; its keys are read from the bytes of a terminal.
    - [Settings] (src/core/Config.cpp): every setter, getter and the start, over
      the class [Nvs]; the blobs it stores are those of [ConfigBlobs].
    - [Certificates] (src/security/): the names and dates of a certificate, the
      pair in its store over [PosixFiles] and [Crypto]; [HttpsServer]
      (src/web/WebServer.cpp, RedirectPolicy.h, RouteTable.cpp): which port serves
      what, over [Httpd], [Settings] and [Certificates]; [CertificateApi]
      (handlers of src/web/RestApi.cpp): the security page, its uploads and the
      task that generates a pair.
    - [JsonScan]: the documents the pages write, as tokens and the text between
      them, and what the readers of [Json] find in one; [SettingsApi] (handlers of
      src/web/RestApi.cpp, src/core/TimeDefaults.h): the pages of the settings, over
      [Settings] and [ConfigBlobs].  A handler is a function from a request and a
      device to a reply and a device; the device keeps its store, which services run,
      and what was asked of them.
    - [Backup] (src/core/Version.cpp, the export and the import of RestApi.cpp): all
      the settings as one document, and the document taken section by section;
      [BackupScan]: what the import finds in a document of the export; [BackupSafety]:
      what a restore writes and leaves, over stores that keep [NvsBlobLaws].

    ** Theorems

    - The DHCP server survives every sequence of datagrams ([serverLoop_safe]);
      every DISCOVER and REQUEST ends in one of the stated ways
      ([offer_outcome], [request_outcome]); entries change hands only for the
      listed causes ([lease_kept]); renewals succeed, the scan finds the first
      free address, refused addresses stay refused, the replies read back.
    - The allow-list: its text round-trips, the table answers exactly for the
      list, a rebuild is invisible to lookups, strangers are ignored.
    - The cache: [cache_runs] (termination and bounds of every sequence of
      operations), the refinements of store, lookup and erase, and their
      consequences; the pages of the view; save, crash, recover and load.
    - The decoders of untrusted bytes ([DnsWire], [ClientName]) end and stay in
      bounds.
    - The calendar agrees with one that counts days; masks are contiguous bits;
      the filter decides exactly on valid settings; authentication is decided by
      credentials and lockout; a job ends once.
    - The DNS server: every turn of its loop ends inside its buffers with the
      slots in shape ([server_safe]); a query is counted and answered once or
      waits no longer than its timeout ([turn_accounts], [turn_deadlines]); the
      answer comes from the place the code names ([local_answer],
      [internal_hit], [miss_forwarded], [reply_relayed]); answers read back.
    - Saving: whatever call of a save is cut or fails, the file is the old or a
      complete new one ([save_crash_safe]); a save that says ok is restored at the next
      start ([save_kept], [counters_survive]), MD5 is RFC 1321's, jobs are
      single-flight, a sweep ends and leaves no row.
    - The web side: what the JSON writer writes the readers read, stored hosts
      fit the response buffer, the multipart extractor gives the payload
      however it is cut, an upload of one content is never torn and can always be
      finished.
    - The shell stays inside the volumes ([shell_sandbox], [resolve_inside]),
      loses nothing unasked ([nothing_lost]), and a copy that says Ok is one
      ([copy_outcome]).
    - The time server answers every request it admits with this moment and the state
      of its clock ([ntp_request_served]) and each client at a bounded rate ([rate_bounded]); the
      client is never left without its next line or with a dangling name
      ([sync_sound]); a saved setting is in force ([settings_applied]).
    - Where directories are read to their end, a transfer loses no file, whatever else
      fails and whenever it is stopped ([transfer_loses_nothing],
      [instant_move_keeps]), and one without an error is complete
      ([clean_report_means_done]); what a check names could not be read, and what it
      passes can be ([check_verdict]), a repair removes only what could not be read
      ([repair_removes_unread]), and each kind of task runs once at a time
      ([tasks_single_flight]).
    - A log keeps its lines, or its last ones where there is no card
      ([append_keeps]), and its newest archives ([newest_kept]); what is queued is written or counted as dropped
      ([drain_accounts]).  The browser stays inside the volumes
      ([browser_sandbox]), its screen has its rows ([screen_shape]), its keys read
      back ([keys_readback]).
    - A setting that was saved is what the getter returns, now and after a restart,
      whatever else is set ([settings_kept]).  A page that is sent back as it was
      shown changes nothing ([page_saved_back]), but for the checksum that a save of
      the DNS page forgets ([dns_page_forgets_checksum]); a page that answers ok has
      the server in the state it shows ([ok_means_running]).  A backup of complete
      sections and plain texts restores every section and every list, on a device that
      serves HTTPS as the backup has it, and touches nothing else ([backup_restores]).
    - The certificate and the key in the store belong together or neither is taken
      ([pair_whole]); what the device generates it can serve ([generated_ready]).  A
      redirect leads to this device over HTTPS, to the host that was named and its page
      ([redirect_honest], [targetFrom_spec], [target_safe]),
      the device is not left without its pages ([https_returns],
      [plain_request_answered], [page_whole]), one key is generated at a time
      ([one_generation]), and an upload ends in one of the stated answers
      ([certificates_post_outcome]).
    - Where the code does less than it means to, a theorem or an [Example]
      exhibits the case: [wide_pool_never_offered], [offer_of_leased_address],
      [offer_hold_taken_over], [oldest_entries_youngest],
      [refused_address_served], [lost_seek_publishes], [first_save_torn],
      [long_header_overread], [lockout_is_short], [paused_record_reused],
      [prefix_lengths], [late_result], [leaked_name], [dotted_label_split],
      [autosave_not_restored], [crashed_publish_not_loaded],
      [stop_never_heard], [sweep_repeats_itself], [reset_undone_by_part],
      [posted_hosts_overflow], [next_entry_read], [quoted_text_is_a_key],
      [bracket_loses_paths], [failed_rename_loses_both],
      [failed_open_drops_part], [zero_total_replaces], [forced_move_refused],
      [copy_onto_itself_empties], [unanswered_target_overwritten],
      [window_does_not_slide],
      [ninth_client_forgotten], [failed_bind_reported_running],
      [reference_is_now], [off_not_logged], [copy_into_itself_nests],
      [move_drops_part_files], [unlisted_file_lost], [ask_replaces],
      [unopened_root_erased], [broken_listing_unnoticed], [format_meets_check],
      [transfer_announced_too_late], [registry_cancel_unheard],
      [format_during_transfer], [full_log_archived], [no_card_carries],
      [restart_forgets_range], [failed_archive_erases_earlier],
      [unread_log_emptied], [up_skips_levels],
      [suggested_copy_empties], [reload_loses_the_last], [copy_replaces],
      [letters_are_cut], [refused_value_dropped], [negative_leases_are_many],
      [first_start], [leap_day_ends_early], [new_pair_not_served], [second_retry],
      [redirect_before_the_pair],
      [answer_of_another], [signal_drained], [wish_not_cancelled],
      [save_refused_while_waiting], [query_hides_the_page], [bare_address_cut],
      [absent_is_not_kept], [long_page_cut], [dns_failure_reported_ok],
      [quote_in_a_name], [refused_name_stored], [name_taken_for_section],
      [missing_member_borrowed], [backup_too_large].

    ** Fuel

    A walk of the cache's arena has one unit per node and one to see the end
    ([DnsPool.walkFuel]): the chains are disjoint and acyclic ([wf]).  The
    option walks have one unit per byte of the area, of which every step
    consumes at least one.  The pool scan of [selectIp] has 256: it increments
    the most significant byte of a 32-bit word, and ends for every pool that
    does not end in 255 ([pool24] where the theorems need more).  Name decoding
    carries the source's own limit of jumps.  A loop that reads
    a file to its end has its rounds from [px_capacity], a bound on the size of any file
    of the volume that belongs to the model and not to the library: a round per chunk
    and two more for a copy, one per byte and one more for the others;
    [PosixFiles.readRounds] has one for every chunk below the limit of a text.  A tree of
    directories is removed to a depth of 255, which no FAT path exceeds.  A
    transfer takes one unit per directory of the source volume, each walked once,
    and [TransferEngine.copyRounds] a round per byte of a file; a check takes one per
    directory, the mount point apart.  A drain of the log's queue takes one unit
    per line queued, the decoder of keys one per byte.  The entries of a list are read
    with a unit per byte of the text they stand in.  The
    waits of [RestartJobs] and [CacheJob] have one unit per step of their
    deadline.

    ** Not modelled

    The statistics autosave (a twin of [Autosave.Timer] with no logic of its own), the
    loggers of the servers' tasks (wording), the SSH server (calls of its library), network
    discovery.  Of the REST handlers, those of the files, jobs, logs, statistics and
    status: they read a request as the modelled ones do, call a modelled component and
    print what it returns.  Drivers, sockets, the boot sequence, mbedTLS and the SSH library are
    outside the repository's own logic.  Inside the modelled parts: a
    directory changing while it is read, [stop]
    racing the DHCP task, what the mutexes exclude, progress reports, and two
    uploads of one file at a time. *)
From stdpp Require Export base tactics list option numbers strings sets.
From Stdlib Require Export ZArith Lia ZifyNat.

#[global] Open Scope Z_scope.

(** ** Machine words

    An unsigned C++ integer of width [w] is a [Z] in [[0, 2^w)]; the functions
    below are the conversions the language inserts ([static_cast], arithmetic
    on unsigned operands). *)

Definition u8 (z : Z) : Z := z mod 2 ^ 8.
Definition u16 (z : Z) : Z := z mod 2 ^ 16.
Definition u32 (z : Z) : Z := z mod 2 ^ 32.
Definition u64 (z : Z) : Z := z mod 2 ^ 64.

Definition is_u8 (z : Z) : Prop := 0 <= z < 256.
Definition is_u16 (z : Z) : Prop := 0 <= z < 2 ^ 16.
Definition is_u32 (z : Z) : Prop := 0 <= z < 2 ^ 32.
Definition is_u64 (z : Z) : Prop := 0 <= z < 2 ^ 64.

Definition UINT32_MAX : Z := 4294967295.

Ltac word_unfold :=
  unfold is_u8, is_u16, is_u32, is_u64, u8, u16, u32, u64, UINT32_MAX in *.

(** [lia] after replacing every quotient and remainder by its defining
    equations; the workhorse for machine-width arithmetic. *)
Ltac zdm := Z.div_mod_to_equations; lia.
Ltac word_lia := word_unfold; change (2 ^ 8) with 256 in *; change (2 ^ 16) with 65536 in *;
  change (2 ^ 32) with 4294967296 in *; change (2 ^ 64) with 18446744073709551616 in *;
  Z.div_mod_to_equations; lia.

Lemma u8_range z : is_u8 (u8 z).
Proof. word_lia. Qed.
Lemma u16_range z : is_u16 (u16 z).
Proof. word_lia. Qed.
Lemma u32_range z : is_u32 (u32 z).
Proof. word_lia. Qed.
Lemma u64_range z : is_u64 (u64 z).
Proof. word_lia. Qed.
Lemma u8_small z : is_u8 z → u8 z = z.
Proof. intros. apply Z.mod_small. word_lia. Qed.
Lemma u16_small z : is_u16 z → u16 z = z.
Proof. intros. apply Z.mod_small. word_lia. Qed.
Lemma u32_small z : is_u32 z → u32 z = z.
Proof. intros. apply Z.mod_small. word_lia. Qed.
Lemma u64_small z : is_u64 z → u64 z = z.
Proof. intros. apply Z.mod_small. word_lia. Qed.

Create HintDb words.
#[export] Hint Resolve u8_range u16_range u32_range u64_range : words.

(** ** Bytes and strings

    A byte is a [Z]; a [std::string] or a byte buffer is a list of them. *)

Abbreviation bytes := (list Z).

Definition wf_bytes (s : bytes) : Prop := Forall is_u8 s.

(** The bytes of a C++ string literal. *)
Definition lit (s : string) : bytes :=
  (λ a, Z.of_N (Ascii.N_of_ascii a)) <$> String.list_ascii_of_string s.

Lemma lit_wf s : wf_bytes (lit s).
Proof.
  unfold wf_bytes, lit. apply Forall_fmap, Forall_true. intros a. unfold compose, is_u8.
  pose proof (Ascii.N_ascii_bounded a). lia.
Qed.

Lemma wf_bytes_app s t : wf_bytes (s ++ t) ↔ wf_bytes s ∧ wf_bytes t.
Proof. apply Forall_app. Qed.

#[export] Hint Resolve lit_wf : words.

(** [std::string::find(c)]: index of the first [c]. *)
Fixpoint find_char (c : Z) (s : bytes) : option nat :=
  match s with
  | [] => None
  | x :: s' => if x =? c then Some 0%nat else S <$> find_char c s'
  end.

(** [s.compare(0, p.size(), p) == 0]. *)
Fixpoint is_prefix (p s : bytes) : bool :=
  match p, s with
  | [], _ => true
  | _ :: _, [] => false
  | x :: p', y :: s' => (x =? y) && is_prefix p' s'
  end.

(** [std::string::find(p)]: index of the first occurrence of [p]. *)
Fixpoint find_sub (p s : bytes) : option nat :=
  if is_prefix p s then Some 0%nat
  else match s with
       | [] => None
       | _ :: s' => S <$> find_sub p s'
       end.

(** [isspace] of the "C" locale. *)
Definition isspace (c : Z) : bool := (c =? 32) || ((9 <=? c) && (c <=? 13)).

(** [tolower] of the "C" locale. *)
Definition tolower (c : Z) : Z := if (65 <=? c) && (c <=? 90) then c + 32 else c.

Fixpoint drop_while (p : Z → bool) (s : bytes) : bytes :=
  match s with
  | [] => []
  | c :: s' => if p c then drop_while p s' else s
  end.

(** Drop the trailing bytes that satisfy [p]. *)
Definition drop_while_end (p : Z → bool) (s : bytes) : bytes :=
  reverse (drop_while p (reverse s)).

(** The two-index trimming loop of the sources. *)
Definition trim_by (p : Z → bool) (s : bytes) : bytes :=
  drop_while_end p (drop_while p s).

(** ** Integers in memory

    Both targets of the firmware are little-endian, so a [uint32_t] kept "in
    network byte order" is the little-endian reading of the four wire bytes. *)

Definition le4 (v : Z) : bytes :=
  [v mod 256; v / 256 mod 256; v / 65536 mod 256; v / 16777216 mod 256].
Definition of_le4 (a b c d : Z) : Z := a + 256 * b + 65536 * c + 16777216 * d.
Definition of_be4 (a b c d : Z) : Z := of_le4 d c b a.
Definition be4 (v : Z) : bytes := reverse (le4 v).
Definition be2 (v : Z) : bytes := [v / 256 mod 256; v mod 256].

(** [ntohl] and [htonl] on a little-endian target: the four bytes reversed. *)
Definition ntohl (v : Z) : Z :=
  of_be4 (v mod 256) (v / 256 mod 256) (v / 65536 mod 256) (v / 16777216 mod 256).
Definition htonl (v : Z) : Z := ntohl v.

Lemma ntohl_range v : is_u32 (ntohl v).
Proof. unfold ntohl, of_be4, of_le4. word_lia. Qed.

Lemma of_le4_digits a b c d : is_u8 a → is_u8 b → is_u8 c → is_u8 d →
  of_le4 a b c d mod 256 = a ∧ of_le4 a b c d / 256 mod 256 = b ∧
  of_le4 a b c d / 65536 mod 256 = c ∧ of_le4 a b c d / 16777216 mod 256 = d.
Proof. unfold of_le4, is_u8. intros. zdm. Qed.

Lemma le4_of_le4 a b c d : is_u8 a → is_u8 b → is_u8 c → is_u8 d →
  le4 (of_le4 a b c d) = [a; b; c; d].
Proof.
  intros Ha Hb Hc Hd. destruct (of_le4_digits a b c d Ha Hb Hc Hd) as (E1&E2&E3&E4).
  unfold le4. by rewrite E1, E2, E3, E4.
Qed.

Lemma of_le4_le4 v : is_u32 v →
  of_le4 (v mod 256) (v / 256 mod 256) (v / 65536 mod 256) (v / 16777216 mod 256) = v.
Proof. unfold of_le4. intros. word_lia. Qed.

Lemma digit_u8 v : is_u8 (v mod 256).
Proof. word_lia. Qed.
#[export] Hint Resolve digit_u8 ntohl_range : words.

Lemma ntohl_involutive v : is_u32 v → ntohl (ntohl v) = v.
Proof.
  intros Hv. unfold ntohl at 1. unfold ntohl, of_be4.
  destruct (of_le4_digits (v / 16777216 mod 256) (v / 65536 mod 256) (v / 256 mod 256)
    (v mod 256)) as (E1&E2&E3&E4); [auto with words..|].
  rewrite E1, E2, E3, E4. by apply of_le4_le4.
Qed.

Lemma ntohl_inj v w : is_u32 v → is_u32 w → ntohl v = ntohl w → v = w.
Proof.
  intros Hv Hw E. rewrite <- (ntohl_involutive v), <- (ntohl_involutive w) by done.
  by rewrite E.
Qed.

Lemma le4_length v : length (le4 v) = 4%nat.
Proof. done. Qed.

Lemma le4_wf v : wf_bytes (le4 v).
Proof. repeat constructor; word_lia. Qed.
#[export] Hint Resolve le4_wf : words.

(** ** Runs of C++ code

    A routine that reads raw memory either completes with a value, reads
    outside the object it was given, or (for a model whose loop carries fuel)
    runs out of fuel.  Totality theorems say the last two never happen. *)

Inductive run (A : Type) : Type :=
  | Done (a : A)
  | OutOfBounds
  | OutOfFuel.
Arguments Done {A} a.
Arguments OutOfBounds {A}.
Arguments OutOfFuel {A}.

#[export] Instance run_ret : MRet run := λ A a, Done a.
#[export] Instance run_bind : MBind run := λ A B f m,
  match m with
  | Done a => f a
  | OutOfBounds => OutOfBounds
  | OutOfFuel => OutOfFuel
  end.

Lemma run_bind_done {A B} (a : A) (f : A → run B) : (Done a ≫= f) = f a.
Proof. done. Qed.

(** Read one byte of a buffer. *)
Definition rd (buf : bytes) (i : nat) : run Z :=
  match buf !! i with
  | Some b => Done b
  | None => OutOfBounds
  end.

Lemma rd_in buf i : (i < length buf)%nat → ∃ b, buf !! i = Some b ∧ rd buf i = Done b.
Proof.
  intros H. destruct (lookup_lt_is_Some_2 buf i H) as [b Hb].
  exists b. unfold rd. by rewrite Hb.
Qed.

Lemma rd_wf buf i b : wf_bytes buf → rd buf i = Done b → is_u8 b.
Proof.
  unfold rd. intros Hwf. destruct (buf !! i) eqn:E; [|done]. intros [= ->].
  by eapply Forall_lookup_1.
Qed.

(** ** Generic list lemmas *)

Lemma find_char_Some c s i : find_char c s = Some i →
  s !! i = Some c ∧ c ∉ take i s.
Proof.
  revert i. induction s as [|x s IH]; intros i; simpl; [done|].
  destruct (Z.eqb_spec x c) as [->|Hne].
  - intros [= <-]. split; [done|]. apply not_elem_of_nil.
  - destruct (find_char c s) as [j|] eqn:E; simpl; [|done]. intros [= <-].
    destruct (IH j eq_refl) as [H1 H2]. split; [done|]. simpl.
    apply not_elem_of_cons. split; congruence.
Qed.

Lemma find_char_None c s : find_char c s = None ↔ c ∉ s.
Proof.
  induction s as [|x s IH]; simpl.
  - split; [intros _; apply not_elem_of_nil|done].
  - destruct (Z.eqb_spec x c) as [->|Hne].
    + split; [done|]. rewrite not_elem_of_cons. naive_solver.
    + rewrite fmap_None, IH, not_elem_of_cons. naive_solver.
Qed.

Lemma is_prefix_spec p s : is_prefix p s = true ↔ ∃ t, s = p ++ t.
Proof.
  revert s. induction p as [|x p IH]; intros s; simpl.
  - split; [by exists s|done].
  - destruct s as [|y s]; [naive_solver|].
    rewrite andb_true_iff, Z.eqb_eq, IH. naive_solver.
Qed.

Lemma drop_while_suffix p s : ∃ t, s = t ++ drop_while p s ∧ Forall (λ c, p c = true) t.
Proof.
  induction s as [|c s IH]; simpl; [by exists []|].
  destruct (p c) eqn:E; [|by exists []].
  destruct IH as (t & Ht & HF). exists (c :: t). simpl. split; [by f_equal|by constructor].
Qed.

Lemma drop_while_hd p s c t : drop_while p s = c :: t → p c = false.
Proof.
  induction s as [|x s IH]; simpl; [done|]. destruct (p x) eqn:E; [done|].
  by intros [= <- <-].
Qed.

Lemma drop_while_Forall p (P : Z → Prop) s : Forall P s → Forall P (drop_while p s).
Proof.
  intros H. destruct (drop_while_suffix p s) as (t & E & _).
  rewrite E in H. by apply Forall_app in H as [_ ?].
Qed.

Lemma trim_by_Forall p (P : Z → Prop) s : Forall P s → Forall P (trim_by p s).
Proof.
  intros H. unfold trim_by, drop_while_end.
  by apply Forall_reverse, drop_while_Forall, Forall_reverse, drop_while_Forall.
Qed.

(** The [for (i = 0; i < n; ++i) if (p(a[i])) return i;] loop over an array. *)
Fixpoint index_of {A} (p : A → bool) (l : list A) : option nat :=
  match l with
  | [] => None
  | x :: l' => if p x then Some 0%nat else S <$> index_of p l'
  end.

Lemma index_of_Some {A} (p : A → bool) l i : index_of p l = Some i ↔
  (∃ x, l !! i = Some x ∧ p x = true) ∧ ∀ j y, (j < i)%nat → l !! j = Some y → p y = false.
Proof.
  revert i. induction l as [|x l IH]; intros i; simpl.
  - split; [done|]. by intros [(? & ? & _) _].
  - destruct (p x) eqn:E.
    + split.
      * intros [= <-]. split; [by exists x|]. intros; lia.
      * intros [_ Hmin]. destruct i as [|i]; [done|].
        rewrite (Hmin 0%nat x) in E; [done|lia|done].
    + destruct i as [|i]; simpl.
      * split; [by destruct (index_of p l)|]. intros [(y & [= ->] & ?) _]. congruence.
      * rewrite fmap_Some. split.
        -- intros (j & Hj & [= ->]). apply IH in Hj as [Hx Hmin]. split; [done|].
           intros [|k] y Hk; simpl; [by intros [= <-]|]. apply Hmin. lia.
        -- intros [Hx Hmin]. exists i. split; [|done]. apply IH. split; [done|].
           intros j y Hj Hy. apply (Hmin (S j)); [lia|done].
Qed.

Lemma index_of_None {A} (p : A → bool) l :
  index_of p l = None ↔ ∀ i x, l !! i = Some x → p x = false.
Proof.
  induction l as [|x l IH]; simpl; [done|]. destruct (p x) eqn:E.
  - split; [done|]. intros H. specialize (H 0%nat x eq_refl). congruence.
  - rewrite fmap_None, IH. split.
    + intros H [|i] y; simpl; [by intros [= <-]|apply H].
    + intros H i y Hy. by apply (H (S i)).
Qed.

Lemma index_of_lt {A} (p : A → bool) l i : index_of p l = Some i → (i < length l)%nat.
Proof. intros [(x & Hx & _) _]%index_of_Some. by eapply lookup_lt_Some. Qed.

(** [memcmp(a, b, n) == 0] on two objects of [n] bytes; [==] on strings. *)
Definition bytes_eqb (s t : bytes) : bool := bool_decide (s = t).

Lemma bytes_eqb_eq s t : bytes_eqb s t = true ↔ s = t.
Proof. apply bool_decide_eq_true. Qed.
Lemma bytes_eqb_refl s : bytes_eqb s s = true.
Proof. by apply bytes_eqb_eq. Qed.
Lemma bytes_eqb_neq s t : bytes_eqb s t = false ↔ s ≠ t.
Proof. apply bool_decide_eq_false. Qed.

(** The pieces between the separators [c], as a [find(c, pos)] loop visits
    them: [n] separators make [n + 1] pieces. *)
Fixpoint split_on (c : Z) (s : bytes) : list bytes :=
  match s with
  | [] => [[]]
  | x :: s' =>
      if x =? c then [] :: split_on c s'
      else match split_on c s' with
           | p :: ps => (x :: p) :: ps
           | [] => [[x]]
           end
  end.

Lemma split_on_nonnil c s : split_on c s ≠ [].
Proof. destruct s as [|x s]; simpl; [done|]. by destruct (x =? c), (split_on c s). Qed.

Lemma split_on_app c s t : c ∉ s → split_on c (s ++ c :: t) = s :: split_on c t.
Proof.
  induction s as [|x s IH]; simpl; intros Hn; [by rewrite Z.eqb_refl|].
  apply not_elem_of_cons in Hn as [Hne Hn]. rewrite IH by done.
  by destruct (Z.eqb_spec x c).
Qed.

Lemma split_on_none c s : c ∉ s → split_on c s = [s].
Proof.
  induction s as [|x s IH]; simpl; intros Hn; [done|].
  apply not_elem_of_cons in Hn as [Hne Hn]. rewrite IH by done.
  by destruct (Z.eqb_spec x c).
Qed.

Lemma find_char_app c s t : c ∉ s → find_char c (s ++ c :: t) = Some (length s).
Proof.
  induction s as [|x s IH]; simpl; intros Hn; [by rewrite Z.eqb_refl|].
  apply not_elem_of_cons in Hn as [Hne Hn]. rewrite IH by done.
  by destruct (Z.eqb_spec x c).
Qed.

Lemma drop_while_id p s : (∀ c t, s = c :: t → p c = false) → drop_while p s = s.
Proof. destruct s as [|c s]; simpl; [done|]. intros H. by rewrite (H c s). Qed.

(** Trimming is the identity on a string whose ends are already clean. *)
Lemma trim_by_id p s :
  (∀ c t, s = c :: t → p c = false) → (∀ c t, s = t ++ [c] → p c = false) →
  trim_by p s = s.
Proof.
  intros H1 H2. unfold trim_by, drop_while_end. rewrite (drop_while_id p s) by done.
  rewrite drop_while_id; [apply reverse_involutive|].
  intros c t Hr. apply (H2 c (reverse t)). rewrite <- (reverse_involutive s), Hr.
  by rewrite reverse_cons.
Qed.

Lemma trim_by_hd p s c t : trim_by p s = c :: t → p c = false.
Proof.
  unfold trim_by, drop_while_end. intros H.
  apply (f_equal reverse) in H. rewrite reverse_involutive, reverse_cons in H.
  destruct (drop_while_suffix p (reverse (drop_while p s))) as (u & Hu & _).
  rewrite H in Hu. apply (f_equal reverse) in Hu.
  rewrite reverse_involutive, app_assoc, reverse_app in Hu. simpl in Hu.
  by eapply drop_while_hd.
Qed.

Lemma trim_by_last p s c t : trim_by p s = t ++ [c] → p c = false.
Proof.
  unfold trim_by, drop_while_end. intros H.
  apply (f_equal reverse) in H. rewrite reverse_involutive, reverse_app in H. simpl in H.
  by eapply drop_while_hd.
Qed.

Lemma trim_by_idem p s : trim_by p (trim_by p s) = trim_by p s.
Proof. apply trim_by_id; eauto using trim_by_hd, trim_by_last. Qed.

Lemma drop_while_length p s : (length (drop_while p s) ≤ length s)%nat.
Proof.
  destruct (drop_while_suffix p s) as (t & E & _). rewrite E at 2. rewrite length_app. lia.
Qed.

Lemma trim_by_length p s : (length (trim_by p s) ≤ length s)%nat.
Proof.
  unfold trim_by, drop_while_end. rewrite length_reverse.
  etrans; [apply drop_while_length|]. rewrite length_reverse. apply drop_while_length.
Qed.

Lemma drop_S_app {A} (s t : list A) c : drop (S (length s)) (s ++ c :: t) = t.
Proof. by induction s. Qed.

(** Linear arithmetic with [mod] and [/] over [nat]. *)
Ltac nat_mod := zify; Z.div_mod_to_equations; lia.

(** Decimal text of a non-negative integer: ["%u"], [std::to_string]. *)
Fixpoint dec_loop (fuel : nat) (z : Z) (acc : bytes) : bytes :=
  match fuel with
  | O => acc
  | S f => let acc := (48 + z mod 10) :: acc in
           if z / 10 =? 0 then acc else dec_loop f (z / 10) acc
  end.
Definition dec (z : Z) : bytes := dec_loop (S (Z.to_nat (Z.log2 z))) z [].

(** A property of every byte, checked on all 256. *)
Lemma u8_forallb (p : Z → bool) :
  forallb p (seqZ 0 256) = true → ∀ z, is_u8 z → p z = true.
Proof.
  intros H z Hz. rewrite List.forallb_forall in H. apply H, list_elem_of_In, elem_of_seqZ.
  unfold is_u8 in Hz. lia.
Qed.

(** [n] bytes of a buffer from [off]. *)
Fixpoint rdn (n : nat) (buf : bytes) (off : nat) : run bytes :=
  match n with
  | O => mret []
  | S n' => c ← rd buf off; s ← rdn n' buf (off + 1); mret (c :: s)
  end.

Lemma rdn_total n buf off : (off + n ≤ length buf)%nat →
  rdn n buf off = Done (take n (drop off buf)).
Proof.
  revert off. induction n as [|n IH]; intros off Hl; cbn [rdn].
  { by rewrite take_0. }
  destruct (rd_in buf off ltac:(lia)) as (c & Hc & ->). rewrite run_bind_done.
  rewrite IH by lia. by rewrite run_bind_done, (drop_S _ _ _ Hc), Nat.add_1_r.
Qed.

(** The big-endian 16-bit value at [off]. *)
Definition rd16be (buf : bytes) (off : nat) : run Z :=
  a ← rd buf off; b ← rd buf (off + 1); mret (u16 (Z.lor (Z.shiftl a 8) b)).

Lemma rd16be_total buf off : (off + 1 < length buf)%nat →
  ∃ v, rd16be buf off = Done v ∧ is_u16 v.
Proof.
  intros H. unfold rd16be.
  destruct (rd_in buf off ltac:(lia)) as (a & _ & ->). rewrite run_bind_done.
  destruct (rd_in buf (off + 1) ltac:(lia)) as (b & _ & ->). rewrite run_bind_done.
  eexists. split; [done|apply u16_range].
Qed.
