(* ===== verification/Text.v ===== *)
(** * Separated text

    Joining and splitting at a separator, searching from a position, and the
    hexadecimal digits: what the text formats of the firmware share. *)
From S2P Require Import Prelude.
#[local] Open Scope Z_scope.

Definition join (c : Z) (ls : list bytes) : bytes :=
  match ls with
  | [] => []
  | l :: ls' => l ++ concat (cons c <$> ls')
  end.

Lemma split_on_concat c s : ∃ p ps, split_on c s = p :: ps ∧ s = p ++ concat (cons c <$> ps).
Proof.
  induction s as [|x s (p & ps & E & IH)]; [by exists [], []|].
  cbn [split_on]. rewrite E. destruct (Z.eqb_spec x c) as [->|].
  - exists [], (p :: ps). split; [done|]. cbn. by rewrite <- IH.
  - exists (x :: p), ps. split; [done|]. cbn. by rewrite <- IH.
Qed.

Lemma join_split c s : join c (split_on c s) = s.
Proof. destruct (split_on_concat c s) as (p & ps & E & Hs). by rewrite E. Qed.

Lemma split_join c ls : ls ≠ [] → Forall (λ l, c ∉ l) ls → split_on c (join c ls) = ls.
Proof.
  intros Hne H. destruct ls as [|l ls]; [done|]. clear Hne. revert l H.
  induction ls as [|l' ls IH]; intros l [Hl H]%Forall_cons.
  - cbn. by rewrite app_nil_r, split_on_none.
  - change (join c (l :: l' :: ls)) with (l ++ c :: join c (l' :: ls)).
    rewrite split_on_app by done. by rewrite IH.
Qed.

(** Joining as the loops do it: a separator before every element but the first. *)
Lemma join_snoc c ls l : join c (ls ++ [l]) = if bool_decide (ls = []) then l else join c ls ++ c :: l.
Proof.
  destruct ls as [|p ls]; cbn; [by rewrite app_nil_r|].
  rewrite fmap_app, concat_app, app_assoc. cbn. by rewrite app_nil_r.
Qed.

Lemma split_on_pieces c s : Forall (λ l, c ∉ l) (split_on c s).
Proof.
  induction s as [|x s IH]; cbn [split_on]; [by repeat constructor; apply not_elem_of_nil|].
  destruct (Z.eqb_spec x c) as [->|Hne]; [constructor; [apply not_elem_of_nil|done]|].
  destruct (split_on c s) as [|p ps]; [repeat constructor; set_solver|].
  apply Forall_cons in IH as [Hp Hps]. constructor; [|done]. set_solver.
Qed.

(** [s.find(c, pos)]. *)
Definition find_from (c : Z) (s : bytes) (pos : nat) : option nat :=
  Nat.add pos <$> find_char c (drop pos s).

(** The non-empty pieces of a comma-separated list. *)
Definition commaList (s : bytes) : list bytes := filter (λ p, p ≠ []) (split_on 44 s).

Lemma commaList_join ls : Forall (λ l, l ≠ [] ∧ 44 ∉ l) ls → commaList (join 44 ls) = ls.
Proof.
  intros H. unfold commaList. destruct ls as [|l ls]; [done|].
  rewrite split_join; [|done|by eapply Forall_impl; [exact H|intros ? []]].
  generalize dependent (l :: ls). clear l ls. intros ls H.
  induction H as [|l ls [Hl _] _ IH]; [done|]. by rewrite filter_cons_True, IH.
Qed.

(** ["0123456789ABCDEF"[d]] and its inverse. *)
Definition hexUpper (d : Z) : Z := if d <? 10 then 48 + d else 55 + d.
Definition unhex (c : Z) : option Z :=
  if (48 <=? c) && (c <=? 57) then Some (c - 48)
  else if (65 <=? c) && (c <=? 70) then Some (c - 55)
  else if (97 <=? c) && (c <=? 102) then Some (c - 87) else None.

Lemma unhex_hexUpper d : 0 <= d < 16 → unhex (hexUpper d) = Some d.
Proof.
  intros Hd. unfold unhex, hexUpper. destruct (Z.ltb_spec d 10).
  - destruct (Z.leb_spec 48 (48 + d)), (Z.leb_spec (48 + d) 57); try lia. cbn. f_equal. lia.
  - destruct (Z.leb_spec 48 (55 + d)), (Z.leb_spec (55 + d) 57); try lia.
    destruct (Z.leb_spec 65 (55 + d)), (Z.leb_spec (55 + d) 70); try lia. cbn. f_equal. lia.
Qed.

(** [isalnum] of the "C" locale. *)
Definition isalnum (c : Z) : bool :=
  ((48 <=? c) && (c <=? 57)) || ((65 <=? c) && (c <=? 90)) || ((97 <=? c) && (c <=? 122)).

Lemma join_notin c d (fs : list bytes) : c ≠ d → Forall (λ f, c ∉ f) fs → c ∉ join d fs.
Proof.
  intros Hne Hf. destruct Hf as [|f fs Hf Hfs]; cbn; [apply not_elem_of_nil|].
  rewrite not_elem_of_app. split; [done|]. induction Hfs as [|g fs Hg Hfs IH]; cbn; [apply not_elem_of_nil|].
  rewrite not_elem_of_cons, not_elem_of_app. done.
Qed.

(** [find] of a text: the first place it stands at, or it stands nowhere. *)
Definition stands (p s : bytes) (i : nat) : Prop := is_prefix p (drop i s) = true ∧ (i <= length s)%nat.

Lemma stands_length p s i : stands p s i → (i + length p <= length s)%nat.
Proof.
  intros [H Hi]. apply is_prefix_spec in H as [t Ht]. apply (f_equal length) in Ht.
  rewrite length_drop, length_app in Ht. lia.
Qed.

Lemma stands_cons p x s i : stands p (x :: s) (S i) ↔ stands p s i.
Proof. unfold stands. cbn [drop length]. split; intros []; split; done || lia. Qed.

Lemma find_sub_Some p s i : find_sub p s = Some i ↔ stands p s i ∧ ∀ j, (j < i)%nat → ¬ stands p s j.
Proof.
  revert i. induction s as [|x s IH]; intros i; cbn [find_sub].
  - destruct (is_prefix p []) eqn:E.
    + split; [intros [= <-]; split; [by split|lia]|]. intros [[_ Hi] _]. cbn in Hi. f_equal. lia.
    + split; [done|]. intros [[H Hi] _]. rewrite drop_nil in H. congruence.
  - destruct (is_prefix p (x :: s)) eqn:E.
    + split; [intros [= <-]; split; [split; [done|cbn; lia]|lia]|].
      intros [_ H]. destruct i as [|i]; [done|]. destruct (H 0%nat); [lia|]. split; [done|cbn; lia].
    + destruct i as [|i].
      * split; [by destruct (find_sub p s)|]. intros [[H _] _]. cbn in H. congruence.
      * transitivity (find_sub p s = Some i); [destruct (find_sub p s); cbn; split; congruence|].
        rewrite IH, stands_cons. split; intros [H1 H2]; (split; [done|]); intros j Hj.
        -- destruct j as [|j]; [intros [H _]; cbn in H; congruence|]. rewrite stands_cons. apply H2. lia.
        -- rewrite <- (stands_cons p x). apply H2. lia.
Qed.

Lemma find_sub_None p s : find_sub p s = None ↔ ∀ j, ¬ stands p s j.
Proof.
  split.
  - intros H j Hj. induction j as [j IH] using lt_wf_ind.
    enough (find_sub p s = Some j) by congruence. apply find_sub_Some. split; [done|]. exact IH.
  - intros H. destruct (find_sub p s) as [i|] eqn:E; [|done]. apply find_sub_Some in E as [E _]. by destruct (H i).
Qed.

(** Where a text stands is not moved by what follows. *)
Lemma stands_app p s t i : (i + length p <= length s)%nat → stands p (s ++ t) i ↔ stands p s i.
Proof.
  intros Hi. unfold stands. rewrite drop_app_le, length_app by lia.
  assert (Hl : (length p <= length (drop i s))%nat) by (rewrite length_drop; lia).
  revert Hl. generalize (drop i s). intros u Hl.
  assert (E : is_prefix p (u ++ t) = is_prefix p u).
  { revert u Hl. induction p as [|x p IH]; intros [|y u] Hl; cbn in *; try done; try lia. rewrite IH by lia. done. }
  rewrite E. split; intros []; split; done || lia.
Qed.
