(* ===== verification/StdMap.v ===== *)
(** * [std::map]: a sorted association list

    The firmware keeps its lease table and its failed-login table in
    [std::map], and walks them in key order; an association list sorted by
    the key's order is that container, iteration order included. *)
From S2P Require Import Prelude.

(** The strict order of a key type, as a boolean, with the laws [std::less]
    must satisfy. *)
Class KeyOrder (K : Type) := {
  key_ltb : K → K → bool;
  key_ltb_irrefl k : key_ltb k k = false;
  key_ltb_trans a b c : key_ltb a b = true → key_ltb b c = true → key_ltb a c = true;
  key_ltb_total a b : key_ltb a b = false → key_ltb b a = false → a = b;
}.

#[export] Program Instance Z_order : KeyOrder Z := {| key_ltb := Z.ltb |}.
Next Obligation. intros. apply Z.ltb_irrefl. Qed.
Next Obligation. intros a b c. rewrite !Z.ltb_lt. lia. Qed.
Next Obligation. intros a b. rewrite !Z.ltb_ge. lia. Qed.

(** [std::string]'s order: lexicographic. *)
Fixpoint bytes_ltb (s t : bytes) : bool :=
  match s, t with
  | _, [] => false
  | [], _ :: _ => true
  | x :: s', y :: t' => (x <? y) || ((x =? y) && bytes_ltb s' t')
  end.

#[export] Program Instance bytes_order : KeyOrder bytes := {| key_ltb := bytes_ltb |}.
Next Obligation.
  induction k as [|x k IH]; simpl; [done|]. by rewrite Z.ltb_irrefl, Z.eqb_refl, IH.
Qed.
Next Obligation.
  induction a as [|x a IH]; intros [|y b] [|z c]; simpl; try done.
  rewrite !orb_true_iff, !andb_true_iff, !Z.ltb_lt, !Z.eqb_eq.
  intros [?|[-> ?]] [?|[-> ?]]; [left; lia..|right; eauto].
Qed.
Next Obligation.
  induction a as [|x a IH]; intros [|y b]; simpl; try done.
  rewrite !orb_false_iff, !andb_false_iff, !Z.ltb_ge, !Z.eqb_neq.
  intros [? [?|?]] [? [?|?]]; try lia. f_equal; [lia|auto].
Qed.

Section StdMap.
Context {K V : Type} `{KeyOrder K}.
Implicit Types (m : list (K * V)) (k : K) (v : V).

(** [m.find(k)]. *)
Fixpoint map_find (k : K) m : option V :=
  match m with
  | [] => None
  | (k', v) :: m' =>
      if key_ltb k' k then map_find k m'
      else if key_ltb k k' then None else Some v
  end.

(** [m[k] = v]. *)
Fixpoint map_insert (k : K) (v : V) m : list (K * V) :=
  match m with
  | [] => [(k, v)]
  | (k', v') :: m' =>
      if key_ltb k' k then (k', v') :: map_insert k v m'
      else if key_ltb k k' then (k, v) :: m
      else (k, v) :: m'
  end.

(** [m.erase(m.find(k))]. *)
Fixpoint map_erase (k : K) m : list (K * V) :=
  match m with
  | [] => []
  | (k', v') :: m' =>
      if key_ltb k' k then (k', v') :: map_erase k m'
      else if key_ltb k k' then m else m'
  end.

(** Every key of [m] is above [k]. *)
Definition map_above (k : K) m : Prop := Forall (λ kv, key_ltb k kv.1 = true) m.

(** The container's own invariant: keys strictly increasing. *)
Fixpoint map_sorted m : Prop :=
  match m with
  | [] => True
  | (k, _) :: m' => map_above k m' ∧ map_sorted m'
  end.

Lemma map_above_trans k k' m : key_ltb k k' = true → map_above k' m → map_above k m.
Proof.
  intros Hk Ha. eapply Forall_impl; [exact Ha|]. intros kv. by apply key_ltb_trans.
Qed.

Lemma map_find_above k m : map_above k m → map_find k m = None.
Proof.
  intros Ha. destruct Ha as [|[k' v] m Hlt _]; simpl in *; [done|].
  destruct (key_ltb k' k) eqn:E; [|by rewrite Hlt].
  pose proof (key_ltb_trans _ _ _ E Hlt) as Hc. by rewrite key_ltb_irrefl in Hc.
Qed.

Lemma map_above_insert k k' v m :
  key_ltb k k' = true → map_above k m → map_above k (map_insert k' v m).
Proof.
  intros Hk. induction 1 as [|[k2 v2] m Hlt Hm IH]; simpl; [by repeat constructor|].
  destruct (key_ltb k2 k'); [by constructor|].
  destruct (key_ltb k' k2); by repeat constructor.
Qed.

Lemma map_insert_sorted k v m : map_sorted m → map_sorted (map_insert k v m).
Proof.
  induction m as [|[k' v'] m IH]; simpl; [by repeat constructor|].
  intros [Ha Hs]. destruct (key_ltb k' k) eqn:E1; simpl.
  { split; [by apply map_above_insert|auto]. }
  destruct (key_ltb k k') eqn:E2; simpl.
  - repeat split; auto. constructor; [done|]. by eapply map_above_trans.
  - rewrite (key_ltb_total k k' E2 E1). auto.
Qed.

Lemma map_erase_Forall (P : K * V → Prop) k m : Forall P m → Forall P (map_erase k m).
Proof.
  induction m as [|[k' v'] m IH]; simpl; [done|]. intros Hf.
  pose proof (Forall_inv Hf) as Hx. pose proof (Forall_inv_tail Hf) as Hm.
  destruct (key_ltb k' k); [constructor; auto|].
  destruct (key_ltb k k'); [constructor; auto|done].
Qed.

Lemma map_above_erase k k' m : map_above k m → map_above k (map_erase k' m).
Proof. apply map_erase_Forall. Qed.

Lemma map_erase_sorted k m : map_sorted m → map_sorted (map_erase k m).
Proof.
  induction m as [|[k' v'] m IH]; simpl; [done|]. intros [Ha Hs].
  repeat case_match; simpl; auto using map_above_erase.
Qed.

Lemma map_above_filter (P : K * V → bool) k m :
  map_above k m → map_above k (List.filter P m).
Proof.
  unfold map_above. rewrite !Forall_forall. intros Hm x Hx. apply Hm.
  rewrite list_elem_of_In in *. by apply filter_In in Hx as [? _].
Qed.

Lemma map_filter_sorted (P : K * V → bool) m :
  map_sorted m → map_sorted (List.filter P m).
Proof.
  induction m as [|[k' v'] m IH]; simpl; [done|]. intros [Ha Hs].
  destruct (P (k', v')); simpl; auto using map_above_filter.
Qed.

Lemma map_find_insert_eq k v m : map_find k (map_insert k v m) = Some v.
Proof.
  induction m as [|[k' v'] m IH]; simpl.
  - by rewrite key_ltb_irrefl.
  - destruct (key_ltb k' k) eqn:E1; simpl; [by rewrite E1|].
    destruct (key_ltb k k') eqn:E2; simpl; by rewrite !key_ltb_irrefl.
Qed.

Lemma map_find_insert_ne k k' v m :
  k ≠ k' → map_find k' (map_insert k v m) = map_find k' m.
Proof.
  intros Hne. induction m as [|[k2 v2] m IH]; simpl.
  - destruct (key_ltb k k') eqn:E1; [done|]. destruct (key_ltb k' k) eqn:E2; [done|].
    destruct Hne. by apply key_ltb_total.
  - destruct (key_ltb k2 k) eqn:E1; simpl.
    { by rewrite IH. }
    destruct (key_ltb k k2) eqn:E2; simpl.
    + destruct (key_ltb k k') eqn:E3; [done|].
      destruct (key_ltb k' k) eqn:E4.
      * assert (key_ltb k' k2 = true) as E5 by (by eapply key_ltb_trans).
        destruct (key_ltb k2 k') eqn:E6; [|by rewrite E5].
        pose proof (key_ltb_trans _ _ _ E5 E6) as Hc. by rewrite key_ltb_irrefl in Hc.
      * destruct Hne. by apply key_ltb_total.
    + assert (k = k2) as -> by (by apply key_ltb_total).
      destruct (key_ltb k2 k') eqn:E3; [done|]. destruct (key_ltb k' k2) eqn:E4; [done|].
      destruct Hne. by apply key_ltb_total.
Qed.

Lemma map_find_erase_eq k m : map_sorted m → map_find k (map_erase k m) = None.
Proof.
  induction m as [|[k' v'] m IH]; simpl; [done|]. intros [Ha Hs].
  destruct (key_ltb k' k) eqn:E1; simpl; [rewrite E1; auto|].
  destruct (key_ltb k k') eqn:E2; simpl; [by rewrite E1, E2|].
  rewrite (key_ltb_total k k' E2 E1). by apply map_find_above.
Qed.

Lemma map_find_erase_ne k k' m :
  map_sorted m → k ≠ k' → map_find k' (map_erase k m) = map_find k' m.
Proof.
  intros Hs Hne. induction m as [|[k2 v2] m IH]; simpl in *; [done|].
  destruct Hs as [Ha Hs].
  destruct (key_ltb k2 k) eqn:E1; simpl; [by rewrite IH|].
  destruct (key_ltb k k2) eqn:E2; simpl; [done|].
  assert (k = k2) as -> by (by apply key_ltb_total).
  destruct (key_ltb k2 k') eqn:E3; [done|]. destruct (key_ltb k' k2) eqn:E4.
  - apply map_find_above. by eapply map_above_trans.
  - destruct Hne. by apply key_ltb_total.
Qed.

Lemma map_find_elem k v m : map_sorted m → map_find k m = Some v ↔ (k, v) ∈ m.
Proof.
  induction m as [|[k' v'] m IH]; simpl; [by rewrite elem_of_nil|].
  intros [Ha Hs]. rewrite elem_of_cons.
  destruct (key_ltb k' k) eqn:E1.
  - rewrite IH by done. split; [by right|]. intros [[= -> ->]|?]; [|done].
    by rewrite key_ltb_irrefl in E1.
  - assert (Hnot : (k, v) ∉ m).
    { intros Hin. unfold map_above in Ha. rewrite Forall_forall in Ha.
      specialize (Ha _ Hin). simpl in Ha. congruence. }
    destruct (key_ltb k k') eqn:E2.
    + split; [done|]. intros [[= -> ->]|?]; [|done]. by rewrite key_ltb_irrefl in E2.
    + assert (k = k') as -> by (by apply key_ltb_total).
      split; [intros [= ->]; by left|]. by intros [[= ->]|?].
Qed.

Lemma map_insert_length k v m :
  length (map_insert k v m) =
    match map_find k m with Some _ => length m | None => S (length m) end.
Proof.
  induction m as [|[k' v'] m IH]; simpl; [done|].
  destruct (key_ltb k' k) eqn:E1; simpl.
  - rewrite IH. by destruct (map_find k m).
  - by destruct (key_ltb k k') eqn:E2.
Qed.

Lemma map_erase_length k m : (length (map_erase k m) ≤ length m)%nat.
Proof.
  induction m as [|[k' v'] m IH]; simpl; [done|]. repeat case_match; simpl; lia.
Qed.

Lemma map_find_filter (P : K * V → bool) k m : map_sorted m →
  map_find k (List.filter P m) =
    match map_find k m with
    | Some v => if P (k, v) then Some v else None
    | None => None
    end.
Proof.
  intros Hs. pose proof (map_filter_sorted P m Hs) as Hs'.
  apply option_eq. intros v. rewrite (map_find_elem k v _ Hs'), list_elem_of_In, filter_In,
    <- list_elem_of_In, <- map_find_elem by done.
  destruct (map_find k m) as [v'|]; [|split; [by intros [? _]|done]].
  destruct (P (k, v')) eqn:E; split; [by intros [[= ->] _]|by intros [= ->]| |done].
  intros [[= ->] ?]. congruence.
Qed.

(** Entries satisfying a predicate: how [Forall] follows the operations. *)
Lemma map_insert_Forall (P : K * V → Prop) k v m :
  P (k, v) → Forall P m → Forall P (map_insert k v m).
Proof.
  intros Hk. induction 1 as [|[k' v'] m Hx Hm IH]; simpl; [by constructor|].
  repeat case_match; by repeat constructor.
Qed.

Lemma map_filter_Forall (P : K * V → Prop) (f : K * V → bool) m :
  Forall P m → Forall P (List.filter f m).
Proof. induction 1 as [|x m Hx Hm IH]; simpl; [done|]. destruct (f x); by try constructor. Qed.
End StdMap.

Create HintDb stdmap.
#[export] Hint Resolve map_insert_sorted map_erase_sorted map_filter_sorted
  map_insert_Forall map_erase_Forall map_filter_Forall : stdmap.
