(* ===== verification/DeclinedAddresses.v ===== *)
(** * The DHCPDECLINE hold-down table ([src/dhcp/DeclinedAddresses.h])

    A fixed array of 32 refusals.  The table's contract: a refused address is
    held down for exactly one hour from its latest refusal, whatever else was
    refused in between, until 32 other refusals displace it. *)
From S2P Require Import Prelude.

Module Declined.

Definition kDeclineHoldMs : Z := 60 * 60 * 1000.
Definition kCapacity : nat := 32.

Record Entry := mkEntry { ip : Z; sinceMs : Z; used : bool }.

Definition emptyEntry : Entry := mkEntry 0 0 false.

Abbreviation table := (list Entry).

Definition empty : table := replicate kCapacity emptyEntry.

(** [(nowMs - sinceMs) >= kDeclineHoldMs], on [uint64_t]. *)
Definition expired (nowMs : Z) (e : Entry) : bool :=
  kDeclineHoldMs <=? u64 (nowMs - sinceMs e).

Definition expire (nowMs : Z) (t : table) : table :=
  (λ e, if used e && expired nowMs e then mkEntry (ip e) (sinceMs e) false else e) <$> t.

(** The third loop of [add]: index of the smallest [sinceMs], first one wins. *)
Fixpoint oldest_from (t : table) (i best : nat) (bestMs : Z) : nat :=
  match t with
  | [] => best
  | e :: t' =>
      if sinceMs e <? bestMs then oldest_from t' (S i) i (sinceMs e)
      else oldest_from t' (S i) best bestMs
  end.

Definition oldest (t : table) : nat :=
  match t with
  | [] => 0%nat
  | e :: t' => oldest_from t' 1 0 (sinceMs e)
  end.

Definition add (ip0 nowMs : Z) (t : table) : bool * table :=
  let t := expire nowMs t in
  match index_of (λ e, used e && (ip e =? ip0)) t with
  | Some i => (true, <[i := mkEntry ip0 nowMs true]> t)
  | None =>
      match index_of (λ e, negb (used e)) t with
      | Some i => (true, <[i := mkEntry ip0 nowMs true]> t)
      | None => (false, <[oldest t := mkEntry ip0 nowMs true]> t)
      end
  end.

Definition isDeclined (ip0 nowMs : Z) (t : table) : bool :=
  match index_of (λ e, used e && (ip e =? ip0)) t with
  | Some i =>
      match t !! i with
      | Some e => u64 (nowMs - sinceMs e) <? kDeclineHoldMs
      | None => false
      end
  | None => false
  end.

Definition count (nowMs : Z) (t : table) : nat :=
  length (List.filter (λ e, used e && (u64 (nowMs - sinceMs e) <? kDeclineHoldMs)) t).

Definition clear (t : table) : table := (λ e, mkEntry (ip e) (sinceMs e) false) <$> t.

(** ** The invariant

    One entry per refused address, and no refusal from the future. *)
Record wf (now : Z) (t : table) : Prop := {
  wf_length : length t = kCapacity;
  wf_unique i j e f : t !! i = Some e → t !! j = Some f →
    used e = true → used f = true → ip e = ip f → i = j;
  wf_past i e : t !! i = Some e → used e = true → 0 <= sinceMs e <= now;
}.

Lemma wf_later now now' t : now <= now' → wf now t → wf now' t.
Proof.
  intros Hle [H1 H2 H3]. split; [done..|]. intros i e He Hu.
  specialize (H3 i e He Hu). lia.
Qed.

Lemma empty_wf now : wf now empty.
Proof.
  unfold empty. split; [by rewrite length_replicate|..].
  - by intros i j e f [-> _]%lookup_replicate.
  - by intros i e [-> _]%lookup_replicate.
Qed.

Lemma expire_lookup now t i e : expire now t !! i = Some e → used e = true →
  t !! i = Some e ∧ expired now e = false.
Proof.
  unfold expire. rewrite list_lookup_fmap, fmap_Some. intros (e0 & He0 & ->) Hu.
  destruct (used e0) eqn:E1, (expired now e0) eqn:E2; simpl in *; try congruence; by split.
Qed.

Lemma expire_wf now t : wf now t → wf now (expire now t).
Proof.
  intros [H1 H2 H3]. split.
  - unfold expire. by rewrite length_fmap.
  - intros i j e f He Hf Hue Huf. apply expire_lookup in He as [He _]; [|done].
    apply expire_lookup in Hf as [Hf _]; [|done]. eauto.
  - intros i e He Hu. apply expire_lookup in He as [He _]; eauto.
Qed.

Lemma clear_wf now t : wf now t → wf now (clear t).
Proof.
  intros [H1 _ _]. split.
  - unfold clear. by rewrite length_fmap.
  - unfold clear. intros i j e f. rewrite list_lookup_fmap, fmap_Some.
    by intros (? & _ & ->).
  - unfold clear. intros i e. rewrite list_lookup_fmap, fmap_Some. by intros (? & _ & ->).
Qed.

(** Writing a slot keeps the invariant as long as no other slot holds the
    address. *)
Lemma insert_wf now t i ip0 : wf now t → 0 <= now → (i < kCapacity)%nat →
  (∀ j e, t !! j = Some e → used e = true → ip e = ip0 → j = i) →
  wf now (<[i := mkEntry ip0 now true]> t).
Proof.
  intros [H1 H2 H3] Hnow Hi Hother. split.
  - by rewrite length_insert.
  - intros j k e f Hj Hk Hue Huf Heq.
    apply list_lookup_insert_Some in Hj as [(-> & <- & _)|[? Hj]];
      apply list_lookup_insert_Some in Hk as [(-> & <- & _)|[? Hk]]; simpl in *; eauto.
    + symmetry. by eapply Hother.
  - intros j e Hj Hu.
    apply list_lookup_insert_Some in Hj as [(-> & <- & _)|[? Hj]]; simpl; [lia|eauto].
Qed.

Lemma oldest_from_lt t i best b : (best < i)%nat →
  (oldest_from t i best b < i + length t)%nat.
Proof.
  revert i best b. induction t as [|e t IH]; intros i best b Hb; simpl; [lia|].
  destruct (_ <? _).
  - specialize (IH (S i) i (sinceMs e) ltac:(lia)). lia.
  - specialize (IH (S i) best b ltac:(lia)). lia.
Qed.

Lemma oldest_lt t : length t = kCapacity → (oldest t < kCapacity)%nat.
Proof.
  intros Hl. rewrite <- Hl. destruct t as [|e t]; simpl in *; [done|].
  pose proof (oldest_from_lt t 1 0 (sinceMs e) ltac:(lia)). lia.
Qed.

(** The slot [add] writes. *)
Lemma add_slot ip0 now t : wf now t →
  ∃ i, (i < kCapacity)%nat ∧
    snd (add ip0 now t) = <[i := mkEntry ip0 now true]> (expire now t) ∧
    (∀ j e, expire now t !! j = Some e → used e = true → ip e = ip0 → j = i) ∧
    (fst (add ip0 now t) = true →
       ∀ e, expire now t !! i = Some e → used e = true → ip e = ip0).
Proof.
  intros Hwf. pose proof (expire_wf _ _ Hwf) as Hwf'.
  pose proof (wf_length _ _ Hwf') as Hlen. unfold add.
  destruct (index_of (λ e, used e && (ip e =? ip0)) _) as [i|] eqn:E1.
  - pose proof (index_of_lt _ _ _ E1) as Hi.
    apply index_of_Some in E1 as [(e & He & Hp) _].
    apply andb_true_iff in Hp as [Hu Hip%Z.eqb_eq].
    exists i. split; [lia|]. split; [done|]. split.
    + intros j f Hf Huf Hipf. eapply (wf_unique _ _ Hwf'); eauto. congruence.
    + intros _ e' He'. by simplify_eq.
  - assert (Hno : ∀ j e, expire now t !! j = Some e → used e = true → ip e = ip0 → False).
    { intros j e He Hu Hip. rewrite index_of_None in E1. specialize (E1 j e He).
      simpl in E1. by rewrite Hu, Hip, Z.eqb_refl in E1. }
    destruct (index_of (λ e, negb (used e)) _) as [i|] eqn:E2.
    + pose proof (index_of_lt _ _ _ E2) as Hi.
      apply index_of_Some in E2 as [(e & He & Hp) _].
      exists i. split; [lia|]. split; [done|]. split; [by intros; exfalso; eauto|].
      intros _ e' He' Hu. simplify_eq. by rewrite Hu in Hp.
    + exists (oldest (expire now t)). split; [by apply oldest_lt|].
      split; [done|]. split; [by intros; exfalso; eauto|done].
Qed.

Lemma add_wf ip0 now t : wf now t → 0 <= now → wf now (snd (add ip0 now t)).
Proof.
  intros Hwf Hnow. destruct (add_slot ip0 now t Hwf) as (i & Hi & -> & Hu & _).
  apply insert_wf; auto using expire_wf.
Qed.

(** [isDeclined] in a well-formed table: is there a live entry? *)
Lemma isDeclined_spec now t ip0 now' : wf now t →
  isDeclined ip0 now' t = true ↔
  ∃ i e, t !! i = Some e ∧ used e = true ∧ ip e = ip0 ∧
    u64 (now' - sinceMs e) < kDeclineHoldMs.
Proof.
  intros Hwf. unfold isDeclined.
  destruct (index_of (λ e, used e && (ip e =? ip0)) t) as [i|] eqn:E1.
  - apply index_of_Some in E1 as [(e & He & Hp) _].
    apply andb_true_iff in Hp as [Hu Hip%Z.eqb_eq]. rewrite He, Z.ltb_lt. split.
    + intros Hlt. by exists i, e.
    + intros (j & f & Hf & Huf & Hipf & Hlt).
      assert (i = j) as <- by (eapply (wf_unique _ _ Hwf); eauto; congruence).
      by simplify_eq.
  - split; [done|]. intros (j & f & Hf & Huf & Hipf & _).
    rewrite index_of_None in E1. specialize (E1 j f Hf). simpl in E1.
    by rewrite Huf, Hipf, Z.eqb_refl in E1.
Qed.

(** An unexpired entry stays unexpired at an earlier time. *)
Lemma expired_later now now' e : 0 <= sinceMs e <= now → now <= now' → now' < 2 ^ 64 →
  expired now e = true → u64 (now' - sinceMs e) < kDeclineHoldMs → False.
Proof.
  unfold expired. rewrite Z.leb_le. intros H1 H2 H3.
  rewrite !u64_small by (unfold is_u64; lia). lia.
Qed.

(** A fresh refusal is in force for the hold time. *)
Lemma add_live ip0 now now' t : wf now t → 0 <= now → now <= now' → now' < 2 ^ 64 →
  now' - now < kDeclineHoldMs → isDeclined ip0 now' (snd (add ip0 now t)) = true.
Proof.
  intros Hwf H0 Hle H64 Hlt. apply (isDeclined_spec now); [by apply add_wf|].
  destruct (add_slot ip0 now t Hwf) as (i & Hi & Heq & _ & _).
  exists i, (mkEntry ip0 now true). rewrite Heq, list_lookup_insert_eq.
  - cbn [used ip sinceMs]. rewrite u64_small; [done|unfold is_u64; lia].
  - unfold expire. rewrite length_fmap, (wf_length _ _ Hwf). done.
Qed.

Lemma isDeclined_clear ip0 nowMs t : isDeclined ip0 nowMs (clear t) = false.
Proof.
  unfold isDeclined. destruct (index_of _ (clear t)) as [i|] eqn:E; [|done].
  apply index_of_Some in E as [(e & He & Hp) _]. exfalso. revert He Hp.
  unfold clear. rewrite list_lookup_fmap, fmap_Some. by intros (x & _ & ->).
Qed.

(** ** Theorems *)

(** A refusal holds the address down for exactly the hold
    time, counted from that refusal, whether or not the table was full. *)
Theorem add_holds_down ip0 now now' t : wf now t → 0 <= now → now <= now' → now' < 2 ^ 64 →
  isDeclined ip0 now' (snd (add ip0 now t)) = (now' - now <? kDeclineHoldMs).
Proof.
  intros Hwf H0 Hle H64. pose proof (add_wf ip0 now t Hwf H0) as Hwf'.
  destruct (add_slot ip0 now t Hwf) as (i & Hi & Heq & Huniq & _).
  apply eq_true_iff_eq. rewrite (isDeclined_spec now) by done. rewrite Heq, Z.ltb_lt.
  assert (Hlen : length (expire now t) = kCapacity) by apply expire_wf, Hwf.
  split.
  - intros (j & e & He & Hu & Hip & Hlt).
    apply list_lookup_insert_Some in He as [(-> & <- & _)|[Hne He]]; simpl in *.
    + rewrite u64_small in Hlt; [lia|unfold is_u64; lia].
    + by destruct Hne; rewrite (Huniq j e).
  - intros Hlt. exists i, (mkEntry ip0 now true).
    rewrite list_lookup_insert_eq by lia. simpl.
    rewrite u64_small; [done|unfold is_u64; lia].
Qed.

Example add_holds_down_witness :
  isDeclined 7 3599999 (snd (add 7 0 empty)) = true ∧
  isDeclined 7 3600000 (snd (add 7 0 empty)) = false.
Proof.
  split; [rewrite (add_holds_down 7 0 3599999 empty (empty_wf 0)) by lia
         |rewrite (add_holds_down 7 0 3600000 empty (empty_wf 0)) by lia]; reflexivity.
Defined.

(** As long as [add] did not report a full table, no other
    address changes its answer, now or later. *)
Theorem add_frame ip0 ip1 now now' t : wf now t → 0 <= now → now <= now' → now' < 2 ^ 64 →
  ip0 ≠ ip1 → fst (add ip0 now t) = true →
  isDeclined ip1 now' (snd (add ip0 now t)) = isDeclined ip1 now' t.
Proof.
  intros Hwf H0 Hle H64 Hne Hok. pose proof (add_wf ip0 now t Hwf H0) as Hwf'.
  destruct (add_slot ip0 now t Hwf) as (i & Hi & Heq & Huniq & Hfree).
  specialize (Hfree Hok). apply eq_true_iff_eq. rewrite !(isDeclined_spec now) by done.
  rewrite Heq. split; intros (j & e & He & Hu & Hip & Hlt).
  - apply list_lookup_insert_Some in He as [(-> & <- & _)|[_ He]]; simpl in *; [done|].
    apply expire_lookup in He as [He _]; [|done]. by exists j, e.
  - pose proof (wf_past _ _ Hwf j e He Hu) as Hpast.
    assert (He' : expire now t !! j = Some e).
    { unfold expire. rewrite list_lookup_fmap, He. simpl. rewrite Hu. simpl.
      destruct (expired now e) eqn:E; [|done]. exfalso. by eapply expired_later. }
    exists j, e. split; [|done]. rewrite list_lookup_insert_ne; [done|].
    intros ->. apply Hne. rewrite <- Hip. symmetry. by apply Hfree.
Qed.

Example add_frame_witness :
  isDeclined 9 5 (snd (add 7 4 (snd (add 9 0 empty)))) = isDeclined 9 5 (snd (add 9 0 empty)).
Proof.
  apply (add_frame 7 9 4 5); [|lia|lia|lia|lia|reflexivity].
  apply (wf_later 0 4); [lia|]. apply add_wf; [apply empty_wf|lia].
Defined.

(** The scan returns a slot whose refusal no other is older than. *)
Lemma oldest_from_min t pre i best b :
  length pre = i → (∃ e, pre !! best = Some e ∧ sinceMs e = b) →
  (∀ j e, pre !! j = Some e → b <= sinceMs e) →
  ∃ e, (pre ++ t) !! oldest_from t i best b = Some e ∧
    ∀ j f, (pre ++ t) !! j = Some f → sinceMs e <= sinceMs f.
Proof.
  revert pre i best b. induction t as [|x t IH]; intros pre i best b Hl (e & He & <-) Hmin; simpl.
  { exists e. by rewrite app_nil_r. }
  rewrite cons_middle, app_assoc.
  destruct (Z.ltb_spec (sinceMs x) (sinceMs e)) as [Hlt|Hge]; apply IH.
  - rewrite length_app. simpl. lia.
  - exists x. split; [|done]. by rewrite lookup_app_r, Hl, Nat.sub_diag by lia.
  - intros j f [Hj|[? Hj]]%lookup_app_Some; [specialize (Hmin j f Hj); lia|].
    apply list_lookup_singleton_Some in Hj as [_ ->]. lia.
  - rewrite length_app. simpl. lia.
  - exists e. split; [|done]. by apply lookup_app_l_Some.
  - intros j f [Hj|[? Hj]]%lookup_app_Some; [eauto|].
    apply list_lookup_singleton_Some in Hj as [_ ->]. lia.
Qed.

Lemma oldest_min t : length t = kCapacity →
  ∃ e, t !! oldest t = Some e ∧ ∀ j f, t !! j = Some f → sinceMs e <= sinceMs f.
Proof.
  destruct t as [|e t]; [done|]. intros _.
  apply (oldest_from_min t [e] 1 0 (sinceMs e)); [done|by exists e|].
  intros j f [_ ->]%list_lookup_singleton_Some. lia.
Qed.

Lemma expire_full now t : length t = kCapacity →
  index_of (λ e, negb (used e)) (expire now t) = None → expire now t = t.
Proof.
  intros Hl Hfull. apply list_eq. intros i. unfold expire. rewrite list_lookup_fmap.
  destruct (t !! i) as [e|] eqn:He; [|done]. simpl. f_equal.
  rewrite index_of_None in Hfull. specialize (Hfull i (if used e && expired now e
    then mkEntry (ip e) (sinceMs e) false else e)).
  unfold expire in Hfull. rewrite list_lookup_fmap, He in Hfull. specialize (Hfull eq_refl).
  by destruct (used e && expired now e).
Qed.

(** A full table forgets exactly one refusal, and no
    remembered refusal is older than the forgotten one. *)
Theorem add_full_displaces_oldest ip0 now t : wf now t → 0 <= now →
  fst (add ip0 now t) = false →
  ∃ e, e ∈ t ∧ used e = true ∧ (∀ f, f ∈ t → sinceMs e <= sinceMs f) ∧
    ∀ ip1 now', ip1 ≠ ip0 → ip1 ≠ ip e →
      isDeclined ip1 now' (snd (add ip0 now t)) = isDeclined ip1 now' t.
Proof.
  intros Hwf H0 Hfull. pose proof (add_wf ip0 now t Hwf H0) as Hwf'.
  pose proof (wf_length _ _ Hwf) as Hlen. revert Hfull Hwf'. unfold add.
  destruct (index_of (λ e, used e && (ip e =? ip0)) _) as [i|] eqn:E1; [done|].
  destruct (index_of (λ e, negb (used e)) _) as [i|] eqn:E2; [done|].
  rewrite (expire_full now t) in * by done. cbn [fst snd]. intros _ Hwf'.
  destruct (oldest_min t Hlen) as (e & He & Hmin).
  exists e. split; [by eapply list_elem_of_lookup_2|]. split.
  { rewrite index_of_None in E2. specialize (E2 _ _ He). by destruct (used e). }
  split; [intros f [j Hj]%list_elem_of_lookup; eauto|].
  intros ip1 now' Hne Hne'. apply eq_true_iff_eq. rewrite !(isDeclined_spec now) by done.
  split; intros (j & f & Hf & Hu & Hip & Hlt).
  - apply list_lookup_insert_Some in Hf as [(<- & <- & _)|[_ Hf]]; [done|]. by exists j, f.
  - exists j, f. split; [|done]. rewrite list_lookup_insert_ne; [done|].
    intros <-. congruence.
Qed.

(** Thirty-two refusals in consecutive milliseconds. *)
Definition fullTable : table :=
  foldl (λ t n, snd (add (100 + n) n t)) empty (seqZ 0 32).

Lemma fullTable_wf : wf 32 fullTable.
Proof.
  unfold fullTable.
  assert (Hg : ∀ n t k, 0 <= k → k + Z.of_nat n <= 32 → wf k t →
    wf 32 (foldl (λ t i, snd (add (100 + i) i t)) t (seqZ k (Z.of_nat n)))).
  { induction n as [|n IH]; intros t k Hk Hle Hwf.
    - by apply (wf_later k); [lia|].
    - rewrite seqZ_cons, Nat2Z.inj_succ, Z.pred_succ by lia. simpl.
      apply IH; [lia..|]. apply (wf_later k); [lia|]. by apply add_wf. }
  apply (Hg 32%nat empty 0); [lia..|apply empty_wf].
Qed.

Example add_full_displaces_oldest_witness :
  ∃ e, e ∈ fullTable ∧ used e = true ∧ (∀ f, f ∈ fullTable → sinceMs e <= sinceMs f) ∧
    ∀ ip1 now', ip1 ≠ 7 → ip1 ≠ ip e →
      isDeclined ip1 now' (snd (add 7 40 fullTable)) = isDeclined ip1 now' fullTable.
Proof.
  apply (add_full_displaces_oldest 7 40 fullTable); [|lia|by vm_compute].
  apply (wf_later 32); [lia|apply fullTable_wf].
Defined.

End Declined.
