(* ===== verification/AllowedList.v ===== *)
(** * The DHCP allow-list ([src/dhcp/DhcpAllowedList.{h,cpp}], [src/core/StorageText.h])

    Three layers: the text codec of the settings blob, the open-addressing
    MAC table with its double buffer, and the admission policy. *)
From S2P Require Import Prelude.

Module AllowedList.

Record AllowedComputer := mkComputer { mac : bytes; name : bytes; enabled : bool }.

Definition kMaxEntries : nat := 25.
Definition kMaxNameLen : nat := 20.
Definition kMaxBytes : nat := 1024.
Definition kSlots : nat := 64.

(** ** MAC text *)

Definition trim (s : bytes) : bytes := trim_by isspace s.

Definition hexNibble (c : Z) : Z :=
  if (48 <=? c) && (c <=? 57) then c - 48
  else if (97 <=? c) && (c <=? 102) then c - 97 + 10
  else if (65 <=? c) && (c <=? 70) then c - 65 + 10
  else -1.

(** The digit-collecting loop; [digits] so far, at most 12. *)
Fixpoint macDigits (s digits : bytes) : option bytes :=
  match s with
  | [] => Some digits
  | c :: s' =>
      if (c =? 58) || (c =? 45) || (c =? 46) then macDigits s' digits
      else if isspace c then macDigits s' digits
      else
        let v := hexNibble c in
        if (v <? 0) || (12 <=? length digits)%nat then None
        else macDigits s' (digits ++ [v])
  end.

Fixpoint pairUp (ds : bytes) : bytes :=
  match ds with
  | a :: b :: ds' => u8 (Z.lor (Z.shiftl a 4) b) :: pairUp ds'
  | _ => []
  end.

Definition parseMac (s : bytes) : option bytes :=
  match macDigits s [] with
  | Some ds => if (length ds =? 12)%nat then Some (pairUp ds) else None
  | None => None
  end.

Definition hexDigit (v : Z) : Z := if v <? 10 then 48 + v else 87 + v.
(** ["%02x"] of a byte. *)
Definition hex2 (b : Z) : bytes := [hexDigit (b / 16); hexDigit (b mod 16)].

(** ["%02x:%02x:%02x:%02x:%02x:%02x"]. *)
Fixpoint joinMac (m : bytes) : bytes :=
  match m with
  | [] => []
  | [b] => hex2 b
  | b :: m' => hex2 b ++ 58 :: joinMac m'
  end.
Definition formatMac (m : bytes) : bytes := joinMac m.

Definition normalizeMac (s : bytes) : bytes :=
  match parseMac s with
  | Some m => formatMac m
  | None => []
  end.

(** ** The blob codec *)

(** [core::storageFieldText]: trim, then separators become spaces. *)
Definition storageFieldText (value : bytes) : bytes :=
  (λ c, if (c =? 124) || (c =? 10) || (c =? 13) then 32 else c) <$> trim_by isspace value.

Definition sanitizeName (n : bytes) : bytes := take kMaxNameLen (storageFieldText n).

Definition entryText (m : bytes) (e : AllowedComputer) : bytes :=
  formatMac m ++ [124] ++ sanitizeName (name e) ++ [124] ++
  (if enabled e then lit "1" else lit "0").

Fixpoint serialize_loop (l : list AllowedComputer) (out : bytes) (written : nat) : bytes :=
  match l with
  | [] => out
  | e :: l' =>
      if (kMaxEntries <=? written)%nat then out
      else match parseMac (mac e) with
           | None => serialize_loop l' out written
           | Some m =>
               serialize_loop l'
                 ((if bool_decide (out = []) then out else out ++ [10]) ++ entryText m e)
                 (S written)
           end
  end.

Definition serialize (l : list AllowedComputer) : bytes := serialize_loop l [] 0.

(** One line of the blob; [None] when the line is skipped. *)
Definition parseLine (line : bytes) : option AllowedComputer :=
  let line := trim line in
  if bool_decide (line = []) then None
  else
    let entry :=
      match find_char 124 line with
      | None => mkComputer (normalizeMac line) [] true
      | Some sep =>
          let rest := drop (S sep) line in
          match find_char 124 rest with
          | None => mkComputer (normalizeMac (take sep line)) (sanitizeName rest) true
          | Some sep2 =>
              mkComputer (normalizeMac (take sep line)) (sanitizeName (take sep2 rest))
                (negb (bytes_eqb (trim (drop (S sep2) rest)) (lit "0")))
          end
      end in
    if bool_decide (mac entry = []) then None else Some entry.

Fixpoint parse_loop (lines : list bytes) (out : list AllowedComputer) : list AllowedComputer :=
  match lines with
  | [] => out
  | line :: lines' =>
      if (length out <? kMaxEntries)%nat then
        match parseLine line with
        | None => parse_loop lines' out
        | Some e => parse_loop lines' (out ++ [e])
        end
      else out
  end.

Definition parse (text : bytes) : list AllowedComputer := parse_loop (split_on 10 text) [].

(** ** The MAC table *)

Record Slot := mkSlot { slotMac : bytes; slotUsed : bool }.

Definition kFnvOffsetBasis : Z := 2166136261.
Definition kFnvPrime : Z := 16777619.

Definition hashMac (m : bytes) : Z :=
  fold_left (λ h b, u32 (Z.lxor h b * kFnvPrime)) m kFnvOffsetBasis.

(** A zeroed slot, as [memset] leaves it. *)
Definition zeroSlot : Slot := mkSlot [0; 0; 0; 0; 0; 0] false.
Definition clearTable : list Slot := replicate kSlots zeroSlot.

(** [(x) & (kSlots - 1)]. *)
Definition wrap (x : nat) : nat := (x mod kSlots)%nat.
Definition home (m : bytes) : nat := Z.to_nat (Z.land (hashMac m) (Z.of_nat kSlots - 1)).

Definition slotAt (t : list Slot) (i : nat) : Slot := default zeroSlot (t !! i).

Fixpoint freeSlot_loop (probes : nat) (t : list Slot) (m : bytes) (idx : nat) : option nat :=
  match probes with
  | O => None
  | S p =>
      if negb (slotUsed (slotAt t idx)) then Some idx
      else if bytes_eqb (slotMac (slotAt t idx)) m then None
      else freeSlot_loop p t m (wrap (idx + 1))
  end.
Definition freeSlot (t : list Slot) (m : bytes) : option nat :=
  freeSlot_loop kSlots t m (home m).

Fixpoint contains_loop (probes : nat) (t : list Slot) (m : bytes) (idx : nat) : bool :=
  match probes with
  | O => false
  | S p =>
      if negb (slotUsed (slotAt t idx)) then false
      else if bytes_eqb (slotMac (slotAt t idx)) m then true
      else contains_loop p t m (wrap (idx + 1))
  end.

(** The object: two buffers once the storage is bound, which one is live. *)
Record state := mkState {
  slots : option (list Slot * list Slot);
  active : bool;              (** [false] is buffer 0, [true] buffer 1 *)
  count : nat;
}.

Definition init0 : state := mkState None false 0.

Definition available (s : state) : bool := bool_decide (is_Some (slots s)).

(** [init(storage)]; [storage = false] is the null pointer. *)
Definition init (storage : bool) (s : state) : bool * state :=
  if storage then (true, mkState (Some (clearTable, clearTable)) false 0) else (false, s).

Definition activeTable (s : state) : option (list Slot) :=
  match slots s with
  | None => None
  | Some (t0, t1) => Some (if active s then t1 else t0)
  end.

Definition contains (m : bytes) (s : state) : bool :=
  match activeTable s with
  | None => false
  | Some t => contains_loop kSlots t m (home m)
  end.

(** The insertion loop: destination table, [inserted], [dropped]. *)
Fixpoint rebuild_loop (l : list AllowedComputer) (t : list Slot) (inserted dropped : nat)
    : list Slot * nat * nat :=
  match l with
  | [] => (t, inserted, dropped)
  | e :: l' =>
      if negb (enabled e) then rebuild_loop l' t inserted dropped
      else match parseMac (mac e) with
           | None => rebuild_loop l' t inserted (S dropped)
           | Some m =>
               if (kMaxEntries <=? inserted)%nat then rebuild_loop l' t inserted (S dropped)
               else match freeSlot t m with
                    | None => rebuild_loop l' t inserted (S dropped)
                    | Some i => rebuild_loop l' (<[i := mkSlot m true]> t) (S inserted) dropped
                    end
           end
  end.

(** Write one buffer, leaving the other alone. *)
Definition setBuffer (which : bool) (t : list Slot) (b : list Slot * list Slot) :=
  if which then (b.1, t) else (t, b.2).

(** [rebuild]: result, entries skipped, new state.  [rebuild_fill] is the part
    before the flip: the inactive half is filled, [active_] is untouched. *)
Definition rebuild_fill (l : list AllowedComputer) (s : state) : state :=
  match slots s with
  | None => s
  | Some b =>
      let '(t, _, _) := rebuild_loop l clearTable 0 0 in
      mkState (Some (setBuffer (negb (active s)) t b)) (active s) (count s)
  end.

Definition rebuild (l : list AllowedComputer) (s : state) : bool * nat * state :=
  match slots s with
  | None => (false, length l, s)
  | Some b =>
      let '(t, inserted, dropped) := rebuild_loop l clearTable 0 0 in
      (true, dropped,
       mkState (Some (setBuffer (negb (active s)) t b)) (negb (active s)) inserted)
  end.

(** ** The policy *)

Record StaticRef := mkRef { refMac : bytes; refEnabled : bool }.

Definition isClientAllowed (m : bytes) (allowOnly : bool) (s : state)
    (bindings : list StaticRef) : bool :=
  if negb allowOnly then true
  else if negb (available s) then true
  else if contains m s then true
  else existsb (λ r, refEnabled r && bytes_eqb (refMac r) m) bindings.

Definition isAddressAllowed (allowOnly haveOwner : bool) (m : bytes) (s : state)
    (bindings : list StaticRef) : bool :=
  if negb allowOnly then true
  else if negb haveOwner then false
  else isClientAllowed m true s bindings.

(** ** MAC text: the canonical form is read back *)

Lemma hexNibble_hexDigit v : 0 <= v < 16 → hexNibble (hexDigit v) = v.
Proof.
  intros Hv. unfold hexDigit, hexNibble. destruct (Z.ltb_spec v 10).
  - replace (_ && _) with true by lia. lia.
  - replace ((48 <=? _) && _) with false by lia.
    replace (_ && _) with true by lia. lia.
Qed.

Lemma hexDigit_plain v : 0 <= v < 16 →
  ((hexDigit v =? 58) || (hexDigit v =? 45) || (hexDigit v =? 46)) = false ∧
  isspace (hexDigit v) = false.
Proof. unfold hexDigit, isspace. destruct (Z.ltb_spec v 10); lia. Qed.

Lemma macDigits_digit v s ds : 0 <= v < 16 → (length ds < 12)%nat →
  macDigits (hexDigit v :: s) ds = macDigits s (ds ++ [v]).
Proof.
  intros Hv Hl. cbn [macDigits]. destruct (hexDigit_plain v Hv) as [-> ->].
  rewrite hexNibble_hexDigit by done. cbv zeta.
  replace ((v <? 0) || (12 <=? length ds)%nat) with false; [done|].
  symmetry. apply orb_false_iff. rewrite Z.ltb_ge, Nat.leb_gt. lia.
Qed.

Lemma macDigits_hex2 b s ds : is_u8 b → (length ds < 11)%nat →
  macDigits (hex2 b ++ s) ds = macDigits s (ds ++ [b / 16; b mod 16]).
Proof.
  intros Hb Hl. assert (0 <= b / 16 < 16 ∧ 0 <= b mod 16 < 16) as [? ?].
  { unfold is_u8 in Hb. zdm. }
  unfold hex2. cbn [app].
  rewrite macDigits_digit by lia.
  rewrite macDigits_digit by (rewrite ?length_app; simpl; lia).
  by rewrite <- app_assoc.
Qed.

Lemma nibbles_join b : is_u8 b → u8 (Z.lor (Z.shiftl (b / 16) 4) (b mod 16)) = b.
Proof.
  intros Hb. assert (E : Z.lor (Z.shiftl (b / 16) 4) (b mod 16) = b).
  { change 16 with (2 ^ 4). rewrite <- Z.land_ones, <- Z.shiftr_div_pow2 by lia.
    apply Z.bits_inj'. intros n Hn. rewrite Z.lor_spec, Z.land_spec.
    destruct (Z.ltb_spec n 4).
    - rewrite Z.shiftl_spec_low, Z.ones_spec_low by lia. by rewrite andb_true_r.
    - rewrite Z.shiftl_spec, Z.shiftr_spec, Z.ones_spec_high by lia.
      rewrite andb_false_r, orb_false_r. f_equal. lia. }
  rewrite E. by apply u8_small.
Qed.

(** A MAC address: six bytes. *)
Definition is_mac (m : bytes) : Prop := length m = 6%nat ∧ wf_bytes m.

Lemma parseMac_formatMac m : is_mac m → parseMac (formatMac m) = Some m.
Proof.
  intros [Hl Hwf]. destruct m as [|a [|b [|c [|d [|e [|f [|]]]]]]]; try done.
  unfold wf_bytes in Hwf. rewrite !Forall_cons in Hwf.
  destruct Hwf as (Ha & Hb & Hc & Hd & He & Hf & _).
  unfold parseMac, formatMac. cbn [joinMac].
  assert (E : ∀ x s ds, is_u8 x → (length ds < 11)%nat →
    macDigits (hex2 x ++ 58 :: s) ds = macDigits s (ds ++ [x / 16; x mod 16])).
  { intros x s ds Hx Hd'. exact (macDigits_hex2 x (58 :: s) ds Hx Hd'). }
  rewrite !E by (done || (cbn [length app]; lia)).
  rewrite <- (app_nil_r (hex2 f)), macDigits_hex2 by (done || (cbn [length app]; lia)).
  cbn -[u8 Z.lor Z.shiftl Z.div Z.modulo]. by rewrite !nibbles_join.
Qed.

Lemma macDigits_nibbles s ds ds' : Forall (λ v, 0 <= v < 16) ds →
  macDigits s ds = Some ds' → Forall (λ v, 0 <= v < 16) ds'.
Proof.
  revert ds. induction s as [|c s IH]; intros ds Hds; cbn [macDigits]; [by intros [= <-]|].
  destruct (_ || _ || _); [by apply IH|]. destruct (isspace c); [by apply IH|]. cbv zeta.
  destruct ((hexNibble c <? 0) || _) eqn:E; [done|].
  apply orb_false_iff in E as [Hc%Z.ltb_ge _]. apply IH, Forall_app. split; [done|].
  constructor; [|done]. revert Hc. unfold hexNibble. repeat case_match; lia.
Qed.

Lemma pairUp_wf ds : wf_bytes (pairUp ds).
Proof.
  unfold wf_bytes. revert ds. fix IH 1. intros [|a [|b ds]]; simpl; [constructor..|].
  constructor; [apply u8_range|apply IH].
Qed.

Lemma parseMac_is_mac s m : parseMac s = Some m → is_mac m.
Proof.
  unfold parseMac. destruct (macDigits s []) as [ds|]; [|done].
  destruct (Nat.eqb_spec (length ds) 12) as [E|]; [|done]. intros [= <-].
  split; [|apply pairUp_wf].
  do 13 (destruct ds as [|? ds]; [done|]; try (by destruct ds)).
Qed.

(** The characters of a formatted MAC: never a separator, never a space. *)
Definition plain (c : Z) : Prop := c ≠ 124 ∧ c ≠ 10 ∧ c ≠ 13 ∧ isspace c = false.

Lemma hex2_plain b : is_u8 b → Forall plain (hex2 b).
Proof.
  intros Hb. assert (0 <= b / 16 < 16 ∧ 0 <= b mod 16 < 16) as [H1 H2].
  { unfold is_u8 in Hb. zdm. }
  unfold hex2, hexDigit, plain, isspace. repeat constructor; repeat case_match; lia.
Qed.

Lemma formatMac_plain m : wf_bytes m → Forall plain (formatMac m).
Proof.
  unfold formatMac. induction 1 as [|b m Hb Hm IH]; [constructor|].
  destruct m as [|b' m]; [by apply hex2_plain|].
  change (joinMac (b :: b' :: m)) with (hex2 b ++ 58 :: joinMac (b' :: m)).
  apply Forall_app. split; [by apply hex2_plain|].
  constructor; [|done]. by repeat split.
Qed.

Lemma plain_notin c s : Forall plain s → c ∈ [124; 10; 13] → c ∉ s.
Proof.
  intros Hs Hc Hin. rewrite Forall_forall in Hs. specialize (Hs _ Hin).
  unfold plain in Hs. rewrite !elem_of_cons, elem_of_nil in Hc.
  destruct Hs as (?&?&?&_). by destruct Hc as [->|[->|[->|]]].
Qed.

Lemma sanitizeName_notin c n : c ∈ [124; 10; 13] → c ∉ sanitizeName n.
Proof.
  intros Hc Hin. unfold sanitizeName, storageFieldText in Hin.
  apply elem_of_take in Hin as (i & Hi & _).
  rewrite list_lookup_fmap, fmap_Some in Hi. destruct Hi as (x & _ & ->).
  rewrite !elem_of_cons, elem_of_nil in Hc. revert Hc.
  destruct (x =? 124) eqn:E1, (x =? 10) eqn:E2, (x =? 13) eqn:E3; simpl; lia.
Qed.

Lemma sanitizeName_length n : (length (sanitizeName n) ≤ kMaxNameLen)%nat.
Proof. unfold sanitizeName. rewrite length_take. lia. Qed.

Lemma formatMac_length m : is_mac m → length (formatMac m) = 17%nat.
Proof.
  intros [Hl _]. by destruct m as [|a [|b [|c [|d [|e [|f [|]]]]]]].
Qed.

Definition flag (b : bool) : Z := if b then 49 else 48.

Lemma entryText_eq m e : entryText m e =
  formatMac m ++ 124 :: sanitizeName (name e) ++ 124 :: [flag (enabled e)].
Proof. unfold entryText. by destruct (enabled e). Qed.

(** What a stored entry reads back as. *)
Definition canon (e : AllowedComputer) : option AllowedComputer :=
  m ← parseMac (mac e);
  Some (mkComputer (formatMac m) (sanitizeName (sanitizeName (name e))) (enabled e)).

Lemma formatMac_hd m : is_mac m → ∃ c s, formatMac m = c :: s ∧ isspace c = false.
Proof.
  intros Hm. pose proof (formatMac_length m Hm) as Hl.
  pose proof (formatMac_plain m (proj2 Hm)) as Hp.
  destruct (formatMac m) as [|c s]; [done|]. exists c, s. split; [done|].
  apply (Forall_inv Hp).
Qed.

Lemma parseLine_entryText e m : parseMac (mac e) = Some m →
  parseLine (entryText m e) = canon e.
Proof.
  intros Hm. pose proof (parseMac_is_mac _ _ Hm) as Hmac.
  unfold canon. rewrite Hm. simpl. rewrite entryText_eq. unfold parseLine.
  destruct (formatMac_hd m Hmac) as (c & s & Hcs & Hsp).
  assert (Ht : trim (formatMac m ++ 124 :: sanitizeName (name e) ++ 124 :: [flag (enabled e)])
    = formatMac m ++ 124 :: sanitizeName (name e) ++ 124 :: [flag (enabled e)]).
  { apply trim_by_id.
    - rewrite Hcs. by intros c' t [= <- _].
    - intros c' t Heq. change (124 :: [flag (enabled e)]) with ([124] ++ [flag (enabled e)]) in Heq.
      rewrite app_assoc, app_comm_cons, app_assoc in Heq.
      apply app_inj_tail in Heq as [_ <-]. by destruct (enabled e). }
  rewrite Ht. rewrite bool_decide_eq_false_2 by (rewrite Hcs; done).
  rewrite find_char_app by (apply plain_notin; [apply formatMac_plain, Hmac|set_solver]).
  rewrite drop_S_app. cbv zeta.
  rewrite find_char_app by (apply sanitizeName_notin; set_solver).
  rewrite !take_app_length, drop_S_app.
  unfold normalizeMac. rewrite parseMac_formatMac by done. simpl.
  rewrite bool_decide_eq_false_2 by (rewrite Hcs; done). by destruct (enabled e).
Qed.

Definition entryTextOf (e : AllowedComputer) : option bytes :=
  m ← parseMac (mac e); Some (entryText m e).

Definition joinLines (ls : list bytes) : bytes :=
  match ls with
  | [] => []
  | l :: ls' => l ++ concat (cons 10 <$> ls')
  end.

Lemma entryText_nonnil m e : entryText m e ≠ [].
Proof. rewrite entryText_eq. by destruct (formatMac m). Qed.

Lemma serialize_loop_cont l out w : out ≠ [] →
  serialize_loop l out w = out ++ concat (cons 10 <$> take (kMaxEntries - w) (omap entryTextOf l)).
Proof.
  revert out w. induction l as [|e l IH]; intros out w Hout; cbn [serialize_loop].
  { simpl. by rewrite take_nil, app_nil_r. }
  destruct (Nat.leb_spec kMaxEntries w) as [Hle|Hlt].
  { replace (kMaxEntries - w)%nat with 0%nat by lia. by rewrite app_nil_r. }
  unfold entryTextOf at 1. simpl. destruct (parseMac (mac e)) as [m|]; simpl; [|by apply IH].
  rewrite (bool_decide_eq_false_2 (out = [])) by done.
  rewrite IH by (destruct out; done).
  replace (kMaxEntries - w)%nat with (S (kMaxEntries - S w)) by lia. simpl.
  by rewrite <- !app_assoc.
Qed.

Lemma serialize_eq l : serialize l = joinLines (take kMaxEntries (omap entryTextOf l)).
Proof.
  unfold serialize. induction l as [|e l IH]; [done|]. cbn [serialize_loop].
  unfold entryTextOf at 1. simpl. destruct (parseMac (mac e)) as [m|]; simpl; [|done].
  rewrite serialize_loop_cont by apply entryText_nonnil. done.
Qed.

Lemma entryText_no_newline e t : entryTextOf e = Some t → 10 ∉ t.
Proof.
  unfold entryTextOf. destruct (parseMac (mac e)) as [m|] eqn:Hm; simpl; [|done].
  intros [= <-]. rewrite entryText_eq.
  pose proof (parseMac_is_mac _ _ Hm) as [_ Hwf].
  rewrite not_elem_of_app, not_elem_of_cons, not_elem_of_app, not_elem_of_cons.
  split; [apply plain_notin; [by apply formatMac_plain|set_solver]|].
  split; [done|]. split; [apply sanitizeName_notin; set_solver|]. split; [done|].
  destruct (enabled e); set_solver.
Qed.

Lemma split_on_joinLines ls : Forall (λ l, 10 ∉ l) ls → ls ≠ [] →
  split_on 10 (joinLines ls) = ls.
Proof.
  destruct ls as [|l ls]; [done|]. intros Hf _. simpl.
  revert l Hf. induction ls as [|l' ls IH]; intros l Hf; simpl.
  - rewrite app_nil_r. apply split_on_none. by inversion Hf.
  - inversion Hf as [|? ? Hl Hf']; subst. rewrite split_on_app by done. f_equal. by apply IH.
Qed.

Lemma parse_loop_all lines es out :
  Forall2 (λ l e, parseLine l = Some e) lines es →
  (length out + length lines ≤ kMaxEntries)%nat → parse_loop lines out = out ++ es.
Proof.
  intros H2. revert out. induction H2 as [|l e lines es Hl H2 IH]; intros out Hlen; simpl.
  - by rewrite app_nil_r.
  - simpl in Hlen. rewrite Hl. destruct (Nat.ltb_spec (length out) kMaxEntries); [|lia].
    rewrite IH by (rewrite length_app; simpl; lia). by rewrite <- app_assoc.
Qed.

(** The texts written for a list, and what each is read back as. *)
Lemma texts_readback l :
  Forall2 (λ t e, parseLine t = Some e) (omap entryTextOf l) (omap canon l).
Proof.
  induction l as [|e l IH]; simpl; [constructor|].
  unfold entryTextOf at 1, canon at 1.
  destruct (parseMac (mac e)) as [m|] eqn:Hm; simpl; [|done].
  constructor; [|done]. rewrite (parseLine_entryText e m Hm). unfold canon. by rewrite Hm.
Qed.

(** Reading back a saved allow-list returns its first 25
    entries with a valid MAC, in order, in canonical spelling. *)
Theorem parse_serialize l : parse (serialize l) = take kMaxEntries (omap canon l).
Proof.
  unfold parse. rewrite serialize_eq.
  destruct (decide (take kMaxEntries (omap entryTextOf l) = [])) as [E|E].
  - pose proof (texts_readback l) as H2. rewrite E. simpl.
    destruct (omap entryTextOf l); [|done]. by inversion H2.
  - rewrite split_on_joinLines; [|apply Forall_take|done].
    + rewrite (parse_loop_all _ (take kMaxEntries (omap canon l)) []); [done| |].
      * apply Forall2_take, texts_readback.
      * rewrite length_take. cbn [length]. lia.
    + apply Forall_forall. intros t Ht. apply list_elem_of_omap in Ht as (e & _ & He).
      by eapply entryText_no_newline.
Qed.

Lemma entryTextOf_length e t : entryTextOf e = Some t → (length t ≤ 40)%nat.
Proof.
  unfold entryTextOf. destruct (parseMac (mac e)) as [m|] eqn:Hm; simpl; [|done].
  intros [= <-]. rewrite entryText_eq, length_app. cbn [length].
  rewrite length_app. cbn [length].
  rewrite (formatMac_length m) by (by eapply parseMac_is_mac).
  pose proof (sanitizeName_length (name e)). unfold kMaxNameLen in *. lia.
Qed.

Lemma concat_length_bound (ls : list bytes) k :
  Forall (λ l, (length l ≤ k)%nat) ls → (length (concat (cons 10%Z <$> ls)) ≤ length ls * S k)%nat.
Proof.
  induction 1 as [|l ls Hl Hls IH]; [simpl; lia|].
  rewrite fmap_cons. cbn [concat length]. rewrite length_app. cbn [length]. nia.
Qed.

(** Whatever the operator enters, the blob fits its NVS
    budget of 1024 bytes. *)
Theorem serialize_budget l : (length (serialize l) ≤ kMaxBytes)%nat.
Proof.
  rewrite serialize_eq.
  assert (Hf : Forall (λ t, (length t ≤ 40)%nat) (take kMaxEntries (omap entryTextOf l))).
  { apply Forall_take, Forall_forall. intros t Ht.
    apply list_elem_of_omap in Ht as (e & _ & He). by eapply entryTextOf_length. }
  assert (Hn : (length (take kMaxEntries (omap entryTextOf l)) ≤ kMaxEntries)%nat).
  { rewrite length_take. lia. }
  unfold kMaxEntries, kMaxBytes in *.
  destruct (take 25 (omap entryTextOf l)) as [|t ts]; simpl in *; [lia|].
  inversion Hf as [|? ? Ht Hts]; subst. apply concat_length_bound in Hts.
  rewrite length_app. lia.
Qed.

(** ** The open-addressing table *)

(** The [k]-th slot a probe for [m] visits. *)
Definition probe (m : bytes) (k : nat) : nat := wrap (home m + k).

Lemma home_lt m : (home m < kSlots)%nat.
Proof.
  unfold home. change (Z.of_nat kSlots - 1) with (Z.ones 6). rewrite Z.land_ones by lia.
  change (2 ^ 6) with 64. unfold kSlots. zdm.
Qed.

Lemma probe_0 m : probe m 0 = home m.
Proof.
  unfold probe, wrap. rewrite Nat.add_0_r. apply Nat.mod_small, home_lt.
Qed.

Lemma probe_S m k : wrap (probe m k + 1) = probe m (S k).
Proof. unfold probe, wrap, kSlots. nat_mod. Qed.

Lemma probe_lt m k : (probe m k < kSlots)%nat.
Proof. unfold probe, wrap. apply Nat.mod_upper_bound. done. Qed.

Lemma probe_onto m i : (i < kSlots)%nat → ∃ k, (k < kSlots)%nat ∧ probe m k = i.
Proof.
  intros Hi. pose proof (home_lt m) as Hh. exists (wrap (i + kSlots - home m)).
  unfold probe, wrap, kSlots in *. split; nat_mod.
Qed.

Definition usedAt (t : list Slot) (i : nat) : bool := slotUsed (slotAt t i).
Definition macAt (t : list Slot) (i : nat) : bytes := slotMac (slotAt t i).

(** [m] is reachable at probe distance [k]. *)
Definition at_probe (t : list Slot) (m : bytes) (k : nat) : Prop :=
  usedAt t (probe m k) = true ∧ macAt t (probe m k) = m ∧
  ∀ k', (k' < k)%nat → usedAt t (probe m k') = true ∧ macAt t (probe m k') ≠ m.

Definition stored (t : list Slot) (m : bytes) : Prop :=
  ∃ i, (i < kSlots)%nat ∧ usedAt t i = true ∧ macAt t i = m.

Definition usedCount (t : list Slot) : nat := length (List.filter slotUsed t).

(** The table invariant: every occupied slot lies on an unbroken probe chain
    of its own address. *)
Record table_ok (t : list Slot) : Prop := {
  ok_length : length t = kSlots;
  ok_chain m : stored t m → ∃ k, (k < kSlots)%nat ∧ at_probe t m k;
}.

Lemma contains_loop_spec p t m k0 : (k0 + p = kSlots)%nat →
  contains_loop p t m (probe m k0) = true ↔
  ∃ k, (k0 ≤ k < kSlots)%nat ∧ usedAt t (probe m k) = true ∧ macAt t (probe m k) = m ∧
    ∀ k', (k0 ≤ k' < k)%nat → usedAt t (probe m k') = true.
Proof.
  revert k0. induction p as [|p IH]; intros k0 Hp; cbn [contains_loop].
  { split; [done|]. intros (k & Hk & _). lia. }
  fold (usedAt t (probe m k0)). fold (macAt t (probe m k0)).
  destruct (usedAt t (probe m k0)) eqn:Hu; cbn [negb].
  - destruct (bytes_eqb (macAt t (probe m k0)) m) eqn:He.
    + apply bytes_eqb_eq in He. split; [|done]. intros _. exists k0.
      repeat split; [lia..|done|done|]. intros. lia.
    + apply bytes_eqb_neq in He. rewrite probe_S, IH by lia. split.
      * intros (k & Hk & Huk & Hm & Hall). exists k. repeat split; [lia..|done|done|].
        intros k' Hk'. destruct (decide (k' = k0)) as [->|]; [done|]. apply Hall. lia.
      * intros (k & Hk & Huk & Hm & Hall). exists k.
        assert (k ≠ k0) by (by intros ->). repeat split; [lia..|done|done|].
        intros k' Hk'. apply Hall. lia.
  - split; [done|]. intros (k & Hk & Huk & _ & Hall).
    destruct (decide (k = k0)) as [->|]; [congruence|].
    rewrite Hall in Hu; [done|lia].
Qed.

Lemma contains_loop_stored t m : table_ok t →
  contains_loop kSlots t m (home m) = true ↔ stored t m.
Proof.
  intros Hok. rewrite <- probe_0, contains_loop_spec by lia. split.
  - intros (k & Hk & Hu & Hm & _). exists (probe m k). auto using probe_lt.
  - intros Hs. destruct (ok_chain t Hok m Hs) as (k & Hk & Hu & Hm & Hall).
    exists k. repeat split; [lia..|done|done|]. intros k' Hk'. apply Hall. lia.
Qed.

Lemma freeSlot_loop_spec p t m k0 : (k0 + p = kSlots)%nat →
  match freeSlot_loop p t m (probe m k0) with
  | Some i => ∃ k, (k0 ≤ k < kSlots)%nat ∧ i = probe m k ∧ usedAt t i = false ∧
      ∀ k', (k0 ≤ k' < k)%nat → usedAt t (probe m k') = true ∧ macAt t (probe m k') ≠ m
  | None => stored t m ∨ ∀ k, (k0 ≤ k < kSlots)%nat → usedAt t (probe m k) = true
  end.
Proof.
  revert k0. induction p as [|p IH]; intros k0 Hp; cbn [freeSlot_loop].
  { right. intros k Hk. lia. }
  fold (usedAt t (probe m k0)). fold (macAt t (probe m k0)).
  destruct (usedAt t (probe m k0)) eqn:Hu; cbn [negb].
  2:{ exists k0. split; [lia|]. split; [done|]. split; [done|]. intros. lia. }
  destruct (bytes_eqb (macAt t (probe m k0)) m) eqn:He.
  { apply bytes_eqb_eq in He. left. exists (probe m k0). auto using probe_lt. }
  apply bytes_eqb_neq in He. rewrite probe_S. specialize (IH (S k0) ltac:(lia)).
  destruct (freeSlot_loop p t m (probe m (S k0))) as [i|].
  - destruct IH as (k & Hk & -> & Huk & Hall). exists k. split; [lia|]. split; [done|].
    split; [done|]. intros k' Hk'.
    destruct (decide (k' = k0)) as [->|]; [done|]. apply Hall. lia.
  - destruct IH as [?|Hall]; [by left|right]. intros k Hk.
    destruct (decide (k = k0)) as [->|]; [done|]. apply Hall. lia.
Qed.

Lemma slotAt_lookup t i s : t !! i = Some s → slotAt t i = s.
Proof. unfold slotAt. by intros ->. Qed.

Lemma usedCount_all t : (∀ i, (i < length t)%nat → usedAt t i = true) →
  usedCount t = length t.
Proof.
  intros Hall. unfold usedCount. f_equal. apply List.forallb_filter_id, List.forallb_forall.
  intros s [i Hi]%list_elem_of_In%list_elem_of_lookup.
  rewrite <- (slotAt_lookup t i s Hi). apply Hall. by eapply lookup_lt_Some.
Qed.

Lemma usedCount_insert t i s : (i < length t)%nat → usedAt t i = false → slotUsed s = true →
  usedCount (<[i := s]> t) = S (usedCount t).
Proof.
  unfold usedCount, usedAt. revert i. induction t as [|x t IH]; intros i Hi Hu Hs; simpl in Hi; [lia|].
  destruct i as [|i]; simpl.
  - unfold slotAt in Hu. simpl in Hu. by rewrite Hu, Hs.
  - pose proof (IH i ltac:(lia) Hu Hs) as E.
    destruct (slotUsed x); simpl; rewrite E; done.
Qed.

Lemma insert_usedAt t i s j : (i < length t)%nat →
  slotAt (<[i := s]> t) j = if decide (i = j) then s else slotAt t j.
Proof.
  intros Hi. unfold slotAt. destruct (decide (i = j)) as [->|Hne].
  - by rewrite list_lookup_insert_eq.
  - by rewrite list_lookup_insert_ne.
Qed.

(** Inserting at the slot the probe found keeps the invariant and adds exactly
    that address. *)
Lemma insert_ok t m i : table_ok t → freeSlot t m = Some i →
  table_ok (<[i := mkSlot m true]> t) ∧
  usedCount (<[i := mkSlot m true]> t) = S (usedCount t) ∧
  ∀ m', stored (<[i := mkSlot m true]> t) m' ↔ stored t m' ∨ m' = m.
Proof.
  intros [Hlen Hchain] Hfree. pose proof (freeSlot_loop_spec kSlots t m 0 ltac:(lia)) as Hspec.
  rewrite probe_0 in Hspec. unfold freeSlot in Hfree. rewrite Hfree in Hspec.
  destruct Hspec as (k & Hk & Hi & Hu & Hall).
  assert (Hlt : (i < length t)%nat) by (rewrite Hlen, Hi; apply probe_lt).
  set (t' := <[i := mkSlot m true]> t).
  assert (Hat : ∀ j, slotAt t' j = if decide (i = j) then mkSlot m true else slotAt t j)
    by (intros; by apply insert_usedAt).
  assert (Hst : ∀ m', stored t' m' ↔ stored t m' ∨ m' = m).
  { intros m'. unfold stored, usedAt, macAt. split.
    - intros (j & Hj & Hu' & Hm'). rewrite Hat in Hu', Hm'. destruct (decide (i = j)).
      + right. by rewrite <- Hm'.
      + left. by exists j.
    - intros [(j & Hj & Hu' & Hm')| ->].
      + exists j. rewrite Hat. destruct (decide (i = j)) as [<-|]; [|done].
        unfold usedAt in Hu. congruence.
      + exists i. rewrite Hat, decide_True by done. split; [lia|done]. }
  split; [|split; [by apply usedCount_insert|done]].
  split; [unfold t'; by rewrite length_insert|].
  intros m' Hm'. apply Hst in Hm' as [Hm'| ->].
  - destruct (Hchain m' Hm') as (k' & Hk' & Hu' & Hm2 & Hall').
    exists k'. split; [done|].
    assert (Hne : ∀ k2, (k2 ≤ k')%nat → i ≠ probe m' k2).
    { intros k2 Hk2 Heq. unfold usedAt in *. rewrite Heq in Hu.
      destruct (decide (k2 = k')) as [->|]; [congruence|].
      destruct (Hall' k2 ltac:(lia)) as [Hx _]. congruence. }
    unfold at_probe, usedAt, macAt. rewrite !Hat, !decide_False by (apply Hne; lia).
    split; [done|]. split; [done|]. intros k2 Hk2.
    rewrite !Hat, !decide_False by (apply Hne; lia). apply Hall'. lia.
  - exists k. split; [lia|]. unfold at_probe, usedAt, macAt.
    rewrite !Hat, decide_True by done. split; [done|]. split; [done|].
    intros k' Hk'. destruct (Hall k' ltac:(lia)) as [Hu' Hm'].
    rewrite Hat, decide_False; [done|]. intros ->. unfold usedAt in *. congruence.
Qed.

Lemma freeSlot_None t m : table_ok t → (usedCount t < kSlots)%nat →
  freeSlot t m = None → stored t m.
Proof.
  intros [Hlen Hchain] Hc Hn. pose proof (freeSlot_loop_spec kSlots t m 0 ltac:(lia)) as Hspec.
  rewrite probe_0 in Hspec. unfold freeSlot in Hn. rewrite Hn in Hspec.
  destruct Hspec as [?|Hall]; [done|].
  rewrite usedCount_all in Hc; [lia|]. intros i Hi. rewrite Hlen in Hi.
  destruct (probe_onto m i Hi) as (k & Hk & <-). apply Hall. lia.
Qed.

Lemma clear_ok : table_ok clearTable ∧ usedCount clearTable = 0%nat ∧
  ∀ m, ¬ stored clearTable m.
Proof.
  assert (Hs : ∀ m, ¬ stored clearTable m).
  { intros m (i & Hi & Hu & _). unfold usedAt, slotAt, clearTable in Hu.
    rewrite lookup_replicate_2 in Hu by done. done. }
  split; [|split; [done|exact Hs]].
  split; [done|]. intros m Hm. by destruct (Hs m).
Qed.

Definition wanted (l : list AllowedComputer) (m : bytes) : Prop :=
  ∃ e, e ∈ l ∧ enabled e = true ∧ parseMac (mac e) = Some m.

Lemma wanted_cons e l m : wanted (e :: l) m ↔
  (enabled e = true ∧ parseMac (mac e) = Some m) ∨ wanted l m.
Proof.
  unfold wanted. setoid_rewrite elem_of_cons. split.
  - intros (x & [->|Hx] & He); [by left|]. right. by exists x.
  - intros [?|(x & Hx & He)]; [by exists e; auto|]. by exists x; auto.
Qed.

Lemma rebuild_loop_spec l t ins drp t' ins' drp' :
  table_ok t → usedCount t = ins → (ins + length l ≤ kMaxEntries)%nat →
  rebuild_loop l t ins drp = (t', ins', drp') →
  table_ok t' ∧ usedCount t' = ins' ∧ ∀ m, stored t' m ↔ stored t m ∨ wanted l m.
Proof.
  revert t ins drp. induction l as [|e l IH]; intros t ins drp Hok Hc Hn; cbn [rebuild_loop].
  { intros [= <- <- <-]. repeat split; try apply Hok; [done|by left|].
    intros [?|(x & Hx & _)]; [done|]. by apply elem_of_nil in Hx. }
  cbn [length] in Hn. destruct (enabled e) eqn:He; cbn [negb].
  2:{ intros Hr. destruct (IH _ _ _ Hok Hc ltac:(lia) Hr) as (H1 & H2 & H3).
      split; [done|]. split; [done|]. intros m. rewrite H3, wanted_cons, He. naive_solver. }
  destruct (parseMac (mac e)) as [m|] eqn:Hm.
  2:{ intros Hr. destruct (IH _ _ _ Hok Hc ltac:(lia) Hr) as (H1 & H2 & H3).
      split; [done|]. split; [done|]. intros m'. rewrite H3, wanted_cons, Hm. naive_solver. }
  destruct (Nat.leb_spec kMaxEntries ins); [lia|].
  destruct (freeSlot t m) as [i|] eqn:Hf; intros Hr.
  - destruct (insert_ok t m i Hok Hf) as (Hok' & Hc' & Hst).
    destruct (IH _ _ _ Hok' ltac:(by rewrite Hc', Hc) ltac:(lia) Hr) as (H1 & H2 & H3).
    split; [done|]. split; [done|]. intros m'. rewrite H3, Hst, wanted_cons, Hm. naive_solver.
  - assert (Hs : stored t m).
    { apply freeSlot_None; [done| |done]. unfold kMaxEntries, kSlots in *. lia. }
    destruct (IH _ _ _ Hok Hc ltac:(lia) Hr) as (H1 & H2 & H3).
    split; [done|]. split; [done|]. intros m'. rewrite H3, wanted_cons, Hm. naive_solver.
Qed.

Lemma parse_loop_length lines out : (length out ≤ kMaxEntries)%nat →
  (length (parse_loop lines out) ≤ kMaxEntries)%nat.
Proof.
  revert out. induction lines as [|line lines IH]; intros out Hl; cbn [parse_loop]; [done|].
  destruct (Nat.ltb_spec (length out) kMaxEntries); [|done].
  destruct (parseLine line); apply IH; [|done]. rewrite length_app. cbn [length]. lia.
Qed.

Lemma parse_length text : (length (parse text) ≤ kMaxEntries)%nat.
Proof. apply parse_loop_length. cbn [length]. lia. Qed.

Lemma rebuild_stored l s m : is_Some (slots s) → (length l ≤ kMaxEntries)%nat →
  contains m (snd (rebuild l s)) = true ↔ wanted l m.
Proof.
  intros [[t0 t1] Hb] Hl. unfold rebuild. rewrite Hb.
  destruct clear_ok as (Hok & Hc & Hno).
  destruct (rebuild_loop l clearTable 0 0) as [[t ins] drp] eqn:Hr.
  destruct (rebuild_loop_spec _ _ _ _ _ _ _ Hok Hc Hl Hr) as (Hok' & _ & Hst).
  assert (Hact : activeTable (mkState (Some (setBuffer (negb (active s)) t (t0, t1)))
    (negb (active s)) ins) = Some t) by (unfold activeTable; by destruct (active s)).
  cbn [snd]. unfold contains. rewrite Hact, contains_loop_stored, Hst by done.
  split; [|by right]. intros [Hs|?]; [by destruct (Hno m)|done].
Qed.

(** After a rebuild from a stored list, the table answers
    exactly for the enabled entries of that list: none lost to a collision, no
    stranger admitted. *)
Theorem rebuild_contains text s m : is_Some (slots s) →
  contains m (snd (rebuild (parse text) s)) = true ↔ wanted (parse text) m.
Proof. intros Hs. apply rebuild_stored; [done|apply parse_length]. Qed.

(** Whatever a rebuild in progress has written to the
    inactive half, the reader still sees the old table; the flip then publishes
    the new one in a single step. *)
Theorem rebuild_isolated l s b t m : slots s = Some b →
  contains m (mkState (Some (setBuffer (negb (active s)) t b)) (active s) (count s)) =
    contains m s ∧
  slots (snd (rebuild l s)) = slots (rebuild_fill l s) ∧
  active (snd (rebuild l s)) = negb (active (rebuild_fill l s)).
Proof.
  intros Hb. destruct b as [t0 t1]. split.
  - unfold contains, activeTable. rewrite Hb. by destruct (active s).
  - unfold rebuild, rebuild_fill. rewrite Hb.
    by destruct (rebuild_loop l clearTable 0 0) as [[? ?] ?].
Qed.

(** The admission decision of the DHCP path, in full. *)
Lemma policy_spec text s bindings m allowOnly :
  let s' := snd (rebuild (parse text) s) in
  isClientAllowed m allowOnly s' bindings = true ↔
    allowOnly = false ∨ slots s = None ∨ wanted (parse text) m ∨
    ∃ r, r ∈ bindings ∧ refEnabled r = true ∧ refMac r = m.
Proof.
  intros s'. unfold isClientAllowed. destruct allowOnly; cbn [negb]; [|naive_solver].
  destruct (slots s) as [b|] eqn:Hb.
  2:{ assert (available s' = false) as ->; [|naive_solver].
      unfold available, s', rebuild. rewrite Hb. cbn [snd]. by rewrite Hb. }
  assert (available s' = true) as ->.
  { unfold available, s', rebuild. rewrite Hb.
    destruct (rebuild_loop _ _ _ _) as [[? ?] ?]. by apply bool_decide_eq_true. }
  cbn [negb]. pose proof (rebuild_stored (parse text) s m ltac:(by rewrite Hb) (parse_length text)) as Hc.
  fold s' in Hc. assert (He : existsb (λ r, refEnabled r && bytes_eqb (refMac r) m) bindings = true
    ↔ ∃ r, r ∈ bindings ∧ refEnabled r = true ∧ refMac r = m).
  { rewrite List.existsb_exists. setoid_rewrite list_elem_of_In.
    setoid_rewrite andb_true_iff. by setoid_rewrite bytes_eqb_eq. }
  destruct (contains m s') eqn:Ec; [naive_solver|]. rewrite He. split; [naive_solver|].
  intros [?|[?|[Hw|?]]]; [done..| |done]. by apply Hc in Hw.
Qed.

(** ** Concrete runs *)

Definition demoText : bytes :=
  lit "24:0a:c4:01:23:45|printer|1" ++ [10] ++ lit "24-0A-C4-01-23-46|old|0" ++ [10] ++
  lit "nonsense" ++ [10] ++ lit "240ac4012347".

Example demo_parse :
  parse demoText =
    [mkComputer (lit "24:0a:c4:01:23:45") (lit "printer") true;
     mkComputer (lit "24:0a:c4:01:23:46") (lit "old") false;
     mkComputer (lit "24:0a:c4:01:23:47") [] true].
Proof. by vm_compute. Qed.

Definition demoState : state := snd (init true init0).

Example rebuild_contains_witness :
  contains [36; 10; 196; 1; 35; 69] (snd (rebuild (parse demoText) demoState)) = true ∧
  contains [36; 10; 196; 1; 35; 70] (snd (rebuild (parse demoText) demoState)) = false.
Proof.
  split.
  - apply rebuild_contains; [by eexists|]. exists (mkComputer (lit "24:0a:c4:01:23:45") (lit "printer") true).
    rewrite demo_parse. split; [left|by vm_compute].
  - by vm_compute.
Defined.

Example rebuild_isolated_witness :
  contains [36; 10; 196; 1; 35; 69]
    (mkState (Some (setBuffer (negb (active demoState)) [] (clearTable, clearTable)))
       (active demoState) (count demoState)) = contains [36; 10; 196; 1; 35; 69] demoState ∧
  slots (snd (rebuild (parse demoText) demoState)) = slots (rebuild_fill (parse demoText) demoState) ∧
  active (snd (rebuild (parse demoText) demoState)) =
    negb (active (rebuild_fill (parse demoText) demoState)).
Proof.
  exact (rebuild_isolated (parse demoText) demoState (clearTable, clearTable) []
    [36; 10; 196; 1; 35; 69] eq_refl).
Defined.

(** A name whose last character is a separator does not survive its own round
    trip: the trimming of [storageFieldText] runs before the replacement, so
    the stored field ends in a space the reader then drops. *)
Example name_ending_in_separator :
  let e := mkComputer (lit "240ac4012347") (lit "pc|") true in
  serialize [e] = lit "24:0a:c4:01:23:47|pc |1" ∧
  serialize (parse (serialize [e])) = lit "24:0a:c4:01:23:47|pc|1".
Proof. by vm_compute. Qed.

End AllowedList.
