(* ===== verification/ClientName.v ===== *)
(** * The name a DHCP client reports ([src/dhcp/DhcpClientName.cpp])

    Options 12 and 81 of an untrusted packet become a name that is safe to
    store and to print.  Reads of the packet go through [rd], so the theorems
    state that no read leaves the options area, whatever the bytes are. *)
From S2P Require Import Prelude.

Module ClientName.

Definition kMaxLen : nat := 32.
Definition kOptPad : Z := 0.
Definition kOptEnd : Z := 255.
Definition kOptHostName : Z := 12.
Definition kOptFqdn : Z := 81.
Definition kFqdnFlagE : Z := 4.

(** ** The option walk

    The result is the offset and the length of the value. *)
Fixpoint findOption_loop (fuel : nat) (options : bytes) (len : nat) (code : Z) (i : nat)
    : run (option (nat * nat)) :=
  match fuel with
  | O => OutOfFuel
  | S fuel' =>
      if (i <? len)%nat then
        opt ← rd options i;
        if opt =? kOptPad then findOption_loop fuel' options len code (i + 1)
        else if opt =? kOptEnd then mret None
        else if (len <=? i + 1)%nat then mret None
        else
          optLen ← rd options (i + 1);
          if (len <? i + 2 + Z.to_nat optLen)%nat then mret None
          else if opt =? code then mret (Some (i + 2, Z.to_nat optLen)%nat)
          else findOption_loop fuel' options len code (i + 2 + Z.to_nat optLen)
      else mret None
  end.

Definition findOption (options : bytes) (len : nat) (code : Z) : run (option (nat * nat)) :=
  findOption_loop (S len) options len code 0.

(** [data[0 .. n)] up to its first NUL. *)
Fixpoint untilNul (fuel : nat) (buf : bytes) (off : nat) : run bytes :=
  match fuel with
  | O => mret []
  | S fuel' =>
      c ← rd buf off;
      if c =? 0 then mret [] else
        s ← untilNul fuel' buf (off + 1);
        mret (c :: s)
  end.

Fixpoint decodeDnsName_loop (fuel : nat) (buf : bytes) (base len i : nat) (out : bytes)
    : run bytes :=
  match fuel with
  | O => OutOfFuel
  | S fuel' =>
      if (i <? len)%nat then
        labelLen ← rd buf (base + i);
        if labelLen =? 0 then mret out
        else if (63 <? labelLen) || (len <? i + 1 + Z.to_nat labelLen)%nat then mret []
        else
          label ← rdn (Z.to_nat labelLen) buf (base + i + 1);
          decodeDnsName_loop fuel' buf base len (i + 1 + Z.to_nat labelLen)
            ((if bool_decide (out = []) then [] else out ++ [46]) ++ label)
      else mret out
  end.

Definition decodeDnsName (buf : bytes) (base len : nat) : run bytes :=
  decodeDnsName_loop (S len) buf base len 0 [].

(** ** The text filter *)

Definition isCont (c : Z) : bool := Z.land c 192 =? 128.

(** The [n] bytes after the lead are all there and are continuation bytes. *)
Definition contBytes (n : nat) (s : bytes) : bool :=
  (n <=? length s)%nat && forallb isCont (take n s).

(** [charLen] and [keep] for the character that starts with [c]. *)
Definition classify (c : Z) (rest : bytes) : nat * bool :=
  if (32 <=? c) && (c <? 127) then (1%nat, negb (c =? 124))
  else if (194 <=? c) && (c <=? 223) then (2%nat, contBytes 1 rest)
  else if (224 <=? c) && (c <=? 239) then (3%nat, contBytes 2 rest)
  else if (240 <=? c) && (c <=? 244) then (4%nat, contBytes 3 rest)
  else (1%nat, false).

(** The filtering loop; [skip] counts the bytes of the current character that
    the index has already stepped over. *)
Fixpoint sanitize_loop (s : bytes) (skip : nat) (out : bytes) : bytes :=
  match s with
  | [] => out
  | c :: s' =>
      match skip with
      | S skip' => sanitize_loop s' skip' out
      | O =>
          let '(charLen, keep) := classify c s' in
          if keep then
            if (kMaxLen <? length out + charLen)%nat then out
            else sanitize_loop s' (charLen - 1) (out ++ take charLen (c :: s'))
          else sanitize_loop s' 0 out
      end
  end.

Definition isBlank (c : Z) : bool := c =? 32.

Definition sanitize (name : bytes) : bytes := trim_by isBlank (sanitize_loop name 0 []).

Definition shortLabel (name : bytes) : bytes :=
  match find_char 46 name with
  | None => name
  | Some dot => take dot name
  end.

Definition isDot (c : Z) : bool := c =? 46.

Definition hostNameOption (options : bytes) (len : nat) : run bytes :=
  o ← findOption options len kOptHostName;
  match o with
  | None => mret []
  | Some (off, optLen) =>
      if (optLen =? 0)%nat then mret []
      else s ← untilNul optLen options off; mret (sanitize s)
  end.

Definition fqdnOption (options : bytes) (len : nat) : run bytes :=
  o ← findOption options len kOptFqdn;
  match o with
  | None => mret []
  | Some (off, optLen) =>
      if (optLen <? 3)%nat then mret []
      else
        flags ← rd options off;
        value ← (if negb (Z.land flags kFqdnFlagE =? 0)
                 then decodeDnsName options (off + 3) (optLen - 3)
                 else untilNul (optLen - 3) options (off + 3));
        mret (drop_while_end isDot (sanitize value))
  end.

Definition fromOptions (options : bytes) (len : nat) : run bytes :=
  host ← hostNameOption options len;
  if negb (bool_decide (host = [])) then mret host
  else f ← fqdnOption options len; mret (shortLabel f).

(** ** Reads stay inside the packet *)

Lemma findOption_loop_total fuel options len code i :
  (len ≤ length options)%nat → wf_bytes options → (len - i < fuel)%nat →
  ∃ r, findOption_loop fuel options len code i = Done r ∧
    ∀ off n, r = Some (off, n) → (off + n ≤ len)%nat.
Proof.
  intros Hlen Hwf. revert i. induction fuel as [|fuel IH]; intros i Hf; [lia|].
  cbn [findOption_loop].
  destruct (Nat.ltb_spec i len) as [Hi|]; [|by exists None].
  destruct (rd_in options i ltac:(lia)) as (opt & _ & Ho). rewrite Ho, run_bind_done.
  destruct (opt =? kOptPad); [apply IH; lia|].
  destruct (opt =? kOptEnd); [by exists None|].
  destruct (Nat.leb_spec len (i + 1)) as [|Hi1]; [by exists None|].
  destruct (rd_in options (i + 1) ltac:(lia)) as (ol & _ & Hol). rewrite Hol, run_bind_done.
  destruct (Nat.ltb_spec len (i + 2 + Z.to_nat ol)); [by exists None|].
  destruct (opt =? code).
  - eexists. split; [done|]. intros off n [= <- <-]. lia.
  - apply IH. lia.
Qed.

Lemma findOption_total options len code :
  (len ≤ length options)%nat → wf_bytes options →
  ∃ r, findOption options len code = Done r ∧
    ∀ off n, r = Some (off, n) → (off + n ≤ len)%nat.
Proof. intros. apply findOption_loop_total; [done..|lia]. Qed.

Lemma untilNul_total n buf off : (off + n ≤ length buf)%nat →
  ∃ s, untilNul n buf off = Done s.
Proof.
  revert off. induction n as [|n IH]; intros off Hl; cbn [untilNul]; [by eexists|].
  destruct (rd_in buf off ltac:(lia)) as (c & _ & ->). rewrite run_bind_done.
  destruct (c =? 0); [by eexists|].
  destruct (IH (off + 1)%nat ltac:(lia)) as [s ->]. rewrite run_bind_done. by eexists.
Qed.

Lemma decodeDnsName_loop_total fuel buf base len i out :
  (base + len ≤ length buf)%nat → wf_bytes buf → (len - i < fuel)%nat →
  ∃ s, decodeDnsName_loop fuel buf base len i out = Done s.
Proof.
  intros Hlen Hwf. revert i out. induction fuel as [|fuel IH]; intros i out Hf; [lia|].
  cbn [decodeDnsName_loop]. destruct (Nat.ltb_spec i len) as [Hi|]; [|by eexists].
  destruct (rd_in buf (base + i) ltac:(lia)) as (l & _ & Hl). rewrite Hl, run_bind_done.
  destruct (l =? 0); [by eexists|].
  destruct (_ || _) eqn:E; [by eexists|]. apply orb_false_iff in E as [_ E%Nat.ltb_ge].
  rewrite rdn_total by lia. rewrite run_bind_done. apply IH. lia.
Qed.

(** For every packet, extracting the name terminates and reads only bytes of
    the options area. *)
Lemma fromOptions_ends options len :
  wf_bytes options → (len ≤ length options)%nat → ∃ s, fromOptions options len = Done s.
Proof.
  intros Hwf Hlen. unfold fromOptions, hostNameOption, fqdnOption.
  destruct (findOption_total options len kOptHostName Hlen Hwf) as (r & -> & Hr).
  rewrite run_bind_done.
  assert (Hh : ∃ s, match r with
    | None => mret []
    | Some (off, optLen) => if (optLen =? 0)%nat then mret []
        else s ← untilNul optLen options off; mret (sanitize s) end = Done s).
  { destruct r as [[off n]|]; [|by eexists]. specialize (Hr off n eq_refl).
    destruct (n =? 0)%nat; [by eexists|].
    destruct (untilNul_total n options off ltac:(lia)) as [s ->]. by eexists. }
  destruct Hh as [h ->]. rewrite run_bind_done.
  destruct (negb _); [by eexists|].
  destruct (findOption_total options len kOptFqdn Hlen Hwf) as (r2 & -> & Hr2).
  rewrite run_bind_done. destruct r2 as [[off n]|]; [|by eexists].
  specialize (Hr2 off n eq_refl). destruct (Nat.ltb_spec n 3); [by eexists|].
  destruct (rd_in options off ltac:(lia)) as (fl & _ & ->). rewrite run_bind_done.
  destruct (negb _).
  - unfold decodeDnsName.
    destruct (decodeDnsName_loop_total (S (n - 3)) options (off + 3) (n - 3) 0 []) as [s ->];
      [lia|done|lia|]. by eexists.
  - destruct (untilNul_total (n - 3) options (off + 3) ltac:(lia)) as [s ->]. by eexists.
Qed.

(** ** What the filter lets through *)

(** A character the filter keeps: printable ASCII other than the separator, or
    a complete UTF-8 sequence of two to four bytes. *)
Inductive kept_char : bytes → Prop :=
  | kept_ascii c : 32 <= c < 127 → c ≠ 124 → kept_char [c]
  | kept_2 a b : 194 <= a <= 223 → isCont b = true → kept_char [a; b]
  | kept_3 a b c : 224 <= a <= 239 → isCont b = true → isCont c = true → kept_char [a; b; c]
  | kept_4 a b c d : 240 <= a <= 244 → isCont b = true → isCont c = true → isCont d = true →
      kept_char [a; b; c; d].

(** A sequence of such characters. *)
Inductive clean : bytes → Prop :=
  | clean_nil : clean []
  | clean_app ch s : kept_char ch → clean s → clean (ch ++ s).

Lemma clean_snoc s ch : clean s → kept_char ch → clean (s ++ ch).
Proof.
  induction 1 as [|ch' s Hk Hs IH]; intros Hc.
  - simpl. rewrite <- (app_nil_r ch). apply clean_app; [done|constructor].
  - rewrite <- app_assoc. apply clean_app; auto.
Qed.

Lemma classify_kept c s n : classify c s = (n, true) →
  kept_char (take n (c :: s)) ∧ length (take n (c :: s)) = n ∧ (1 ≤ n)%nat.
Proof.
  unfold classify, contBytes.
  destruct ((32 <=? c) && _) eqn:E1.
  { intros [= <- Hc%negb_true_iff%Z.eqb_neq]. simpl. rewrite take_0.
    split; [constructor; lia|]. simpl. lia. }
  destruct ((194 <=? c) && _) eqn:E2.
  { destruct s as [|a s]; simpl; [by intros [= _]|].
    intros [= <- H]. rewrite !andb_true_iff in *. simpl. rewrite take_0. simpl.
    split; [constructor; naive_solver lia|lia]. }
  destruct ((224 <=? c) && _) eqn:E3.
  { destruct s as [|a [|b s]]; simpl; [by intros [= _]..|].
    intros [= <- H]. rewrite !andb_true_iff in *. simpl. rewrite take_0. simpl.
    split; [constructor; naive_solver lia|lia]. }
  destruct ((240 <=? c) && _) eqn:E4; [|by intros [= _]].
  destruct s as [|a [|b [|d s]]]; simpl; [by intros [= _]..|].
  intros [= <- H]. rewrite !andb_true_iff in *. simpl. rewrite take_0. simpl.
  split; [constructor; naive_solver lia|lia].
Qed.

Lemma sanitize_loop_clean s skip out : clean out → (length out ≤ kMaxLen)%nat →
  clean (sanitize_loop s skip out) ∧ (length (sanitize_loop s skip out) ≤ kMaxLen)%nat.
Proof.
  revert skip out. induction s as [|c s IH]; intros skip out Hc Hl; cbn [sanitize_loop]; [done|].
  destruct skip as [|skip]; [|by apply IH].
  destruct (classify c s) as [n [|]] eqn:E; [|by apply IH].
  destruct (classify_kept _ _ _ E) as (Hk & Hn & Hpos).
  destruct (Nat.ltb_spec kMaxLen (length out + n)); [done|].
  apply IH; [by apply clean_snoc|]. rewrite length_app, Hn. lia.
Qed.

Lemma isCont_bounds c : isCont c = true → is_u8 c → 128 <= c < 192.
Proof.
  unfold isCont, is_u8. intros H Hc. apply Z.eqb_eq in H.
  assert (Hd : c = Z.lor (Z.land c 192) (Z.land c 63)).
  { rewrite <- Z.land_lor_distr_r. change (Z.lor 192 63) with (Z.ones 8).
    rewrite Z.land_ones by lia. symmetry. apply Z.mod_small. lia. }
  rewrite H in Hd. change 63 with (Z.ones 6) in Hd. rewrite Z.land_ones in Hd by lia.
  assert (Hz : Z.land 128 (c mod 2 ^ 6) = 0).
  { rewrite <- Z.land_ones by lia. rewrite (Z.land_comm c), Z.land_assoc. done. }
  rewrite <- Z.add_nocarry_lor in Hd by done. change (2 ^ 6) with 64 in Hd. zdm.
Qed.

(** Dropping a leading or a trailing blank leaves a clean text clean: a blank
    is never part of a longer character. *)
Lemma clean_drop_blank s : clean s → clean (drop_while isBlank s).
Proof.
  induction 1 as [|ch s Hk Hs IH]; [constructor|].
  destruct Hk as [c Hc Hn|a b Ha Hb|a b c Ha Hb Hd|a b c d Ha Hb Hd He]; simpl.
  - unfold isBlank. destruct (Z.eqb_spec c 32); [done|].
    change (c :: s) with ([c] ++ s). apply clean_app; [by constructor|done].
  - unfold isBlank. destruct (Z.eqb_spec a 32); [lia|].
    change (a :: b :: s) with ([a; b] ++ s). apply clean_app; [by constructor|done].
  - unfold isBlank. destruct (Z.eqb_spec a 32); [lia|].
    change (a :: b :: c :: s) with ([a; b; c] ++ s). apply clean_app; [by constructor|done].
  - unfold isBlank. destruct (Z.eqb_spec a 32); [lia|].
    change (a :: b :: c :: d :: s) with ([a; b; c; d] ++ s). apply clean_app; [by constructor|done].
Qed.

Inductive clean_rev : bytes → Prop :=
  | clean_rev_nil : clean_rev []
  | clean_rev_app ch s : kept_char ch → clean_rev s → clean_rev (reverse ch ++ s).

Lemma clean_rev_iff s : clean s ↔ clean_rev (reverse s).
Proof.
  split.
  - intros H. assert (Hg : ∀ t, clean_rev t → clean_rev (reverse s ++ t)).
    { induction H as [|ch s Hk Hs IH]; intros t Ht; [done|].
      rewrite reverse_app, <- app_assoc. apply IH. by constructor. }
    rewrite <- (app_nil_r (reverse s)). apply Hg. constructor.
  - intros H. rewrite <- (reverse_involutive s). induction H as [|ch t Hk Ht IH]; [constructor|].
    rewrite reverse_app, reverse_involutive. by apply clean_snoc.
Qed.

Lemma isCont_not_blank c : isCont c = true → isBlank c = false.
Proof. unfold isBlank. intros H. destruct (Z.eqb_spec c 32) as [->|]; done. Qed.

Lemma clean_rev_drop_blank s : clean_rev s → clean_rev (drop_while isBlank s).
Proof.
  induction 1 as [|ch s Hk Hs IH]; [constructor|].
  destruct (reverse ch) as [|x t] eqn:E.
  { apply (f_equal reverse) in E. rewrite reverse_involutive in E. subst. inversion Hk. }
  assert (Hx : isBlank x = false ∨ ch = [32]).
  { destruct Hk; cbn in E; simplify_eq; rewrite ?isCont_not_blank by done; auto.
    unfold isBlank. destruct (Z.eqb_spec x 32) as [->|]; auto. }
  destruct Hx as [Hx| ->].
  - cbn [app drop_while]. rewrite Hx.
    change (x :: t ++ s) with ((x :: t) ++ s). rewrite <- E. by constructor.
  - cbn in E. injection E as <- <-. simpl. done.
Qed.

Lemma clean_trim s : clean s → clean (trim_by isBlank s).
Proof.
  intros H. unfold trim_by, drop_while_end. apply clean_rev_iff.
  rewrite reverse_involutive. apply clean_rev_drop_blank, clean_rev_iff.
  by apply clean_drop_blank.
Qed.

(** Whatever a client sends, the stored name is at most 32 bytes
    of complete printable characters, holds no field separator, and has no
    blank at either end. *)
Theorem sanitize_clean name : 
  clean (sanitize name) ∧ (length (sanitize name) ≤ kMaxLen)%nat ∧
  (∀ c t, sanitize name = c :: t → c ≠ 32) ∧ (∀ c t, sanitize name = t ++ [c] → c ≠ 32).
Proof.
  destruct (sanitize_loop_clean name 0 []) as [Hc Hl]; [constructor|cbn; lia|].
  split; [by apply clean_trim|]. split.
  { etrans; [apply trim_by_length|done]. }
  split; intros c t H; [apply trim_by_hd in H|apply trim_by_last in H];
    unfold isBlank in H; lia.
Qed.

(** The filter is the identity on clean text that fits. *)
Lemma sanitize_loop_skip ch s out : sanitize_loop (ch ++ s) (length ch) out = sanitize_loop s 0 out.
Proof. induction ch as [|c ch IH]; simpl; [by destruct s|done]. Qed.

Lemma kept_classify ch s : kept_char ch → ∃ c t, ch = c :: t ∧ classify c (t ++ s) = (length ch, true).
Proof.
  intros Hk. destruct Hk as [c Hc Hn|a b Ha Hb|a b c Ha Hb Hd|a b c d Ha Hb Hd He].
  - exists c, []. split; [done|]. unfold classify. simpl.
    replace ((32 <=? c) && (c <? 127)) with true by lia. f_equal. lia.
  - exists a, [b]. split; [done|]. unfold classify, contBytes. simpl. rewrite Hb.
    replace ((32 <=? a) && (a <? 127)) with false by lia.
    by replace ((194 <=? a) && (a <=? 223)) with true by lia.
  - exists a, [b; c]. split; [done|]. unfold classify, contBytes. simpl. rewrite Hb, Hd.
    replace ((32 <=? a) && (a <? 127)) with false by lia.
    replace ((194 <=? a) && (a <=? 223)) with false by lia.
    by replace ((224 <=? a) && (a <=? 239)) with true by lia.
  - exists a, [b; c; d]. split; [done|]. unfold classify, contBytes. simpl. rewrite Hb, Hd, He.
    replace ((32 <=? a) && (a <? 127)) with false by lia.
    replace ((194 <=? a) && (a <=? 223)) with false by lia.
    replace ((224 <=? a) && (a <=? 239)) with false by lia.
    by replace ((240 <=? a) && (a <=? 244)) with true by lia.
Qed.

Lemma sanitize_loop_id s out : clean s → (length out + length s ≤ kMaxLen)%nat →
  sanitize_loop s 0 out = out ++ s.
Proof.
  intros H. revert out. induction H as [|ch s Hk Hs IH]; intros out Hl; [by rewrite app_nil_r|].
  rewrite length_app in Hl.
  destruct (kept_classify ch s Hk) as (c & t & -> & Hcl). cbn [app sanitize_loop length] in *.
  rewrite Hcl. destruct (Nat.ltb_spec kMaxLen (length out + S (length t))); [lia|].
  replace (S (length t) - 1)%nat with (length t) by lia.
  change (c :: t ++ s) with ((c :: t) ++ s).
  rewrite (take_app_length' (c :: t) s (S (length t))) by done.
  rewrite sanitize_loop_skip, IH by (rewrite length_app; simpl; lia). by rewrite <- app_assoc.
Qed.

(** Sanitising a stored name again changes nothing, so a
    name copied into the settings reads back unchanged. *)
Theorem sanitize_idempotent name : sanitize (sanitize name) = sanitize name.
Proof.
  destruct (sanitize_clean name) as (Hc & Hl & H1 & H2).
  unfold sanitize at 1. rewrite sanitize_loop_id by (done || (cbn [length]; lia)). cbn [app].
  apply trim_by_id; intros c t H; unfold isBlank; apply Z.eqb_neq; eauto.
Qed.

(** ** Concrete packets *)

Definition demoOptions : bytes :=
  [53; 1; 1; 12; 5] ++ lit "pc|-7" ++ [81; 7; 4; 0; 0; 3] ++ lit "lan" ++ [255].

Example fromOptions_demo : fromOptions demoOptions (length demoOptions) = Done (lit "pc-7").
Proof. by vm_compute. Qed.

(** The filter checks lead and continuation bytes only: an overlong three-byte
    encoding and a surrogate pass, although neither is UTF-8. *)
Example sanitize_keeps_overlong :
  sanitize [224; 128; 128] = [224; 128; 128] ∧ sanitize [237; 160; 128] = [237; 160; 128].
Proof. by vm_compute. Qed.

End ClientName.
