(* ===== verification/DnsWire.v ===== *)
(** * The DNS envelope and the two name probes
    ([src/dhcp/DnsMessage.cpp], [src/dhcp/PtrProbe.cpp], [src/dhcp/NbstatProbe.cpp])

    Decoders of untrusted datagrams.  The totality theorems say that for every
    datagram the decoders stop and never read past its end; the round-trip
    theorem says that the question the PTR probe sends names the address asked
    about. *)
From S2P Require Import Prelude.

Module DnsMessage.

Definition kHeaderBytes : nat := 12.
Definition kMaxNameJumps : nat := 8.
Definition kMaxLabelBytes : Z := 63.
Definition kQuestionTailBytes : nat := 4.
Definition kRecordFixedBytes : nat := 10.
Definition kRdLengthOffset : nat := 8.

(** [readHeader]: the question and answer counts, [None] for [false]. *)
Definition readHeader (buf : bytes) (len : nat) (id : Z) : run (option (Z * Z)) :=
  if (len <? kHeaderBytes)%nat then mret None
  else
    answerId ← rd16be buf 0;
    if negb (answerId =? id) then mret None
    else
      flags1 ← rd buf 2;
      if Z.land flags1 128 =? 0 then mret None
      else
        flags2 ← rd buf 3;
        if negb (Z.land flags2 15 =? 0) then mret None
        else qd ← rd16be buf 4; an ← rd16be buf 6; mret (Some (qd, an)).

Definition pointerTarget (label next : Z) : nat :=
  Z.to_nat (Z.lor (Z.shiftl (Z.land label 63) 8) next).

Definition isPointer (label : Z) : bool := Z.land label 192 =? 192.

(** The walk of [skipName]; a pointer ends it, so [jumps] never passes 1. *)
Fixpoint skipName_loop (fuel : nat) (buf : bytes) (len off jumps : nat) : run nat :=
  match fuel with
  | O => OutOfFuel
  | S fuel' =>
      if (off <? len)%nat then
        label ← rd buf off;
        if label =? 0 then mret (off + 1)%nat
        else if isPointer label then
          if (len <=? off + 1)%nat then mret (len + 1)%nat
          else if (kMaxNameJumps <? jumps + 1)%nat then mret (len + 1)%nat
          else
            next ← rd buf (off + 1);
            if (off <=? pointerTarget label next)%nat then mret (len + 1)%nat
            else mret (off + 2)%nat
        else if (kMaxLabelBytes <? label) || (len <? off + 1 + Z.to_nat label)%nat
        then mret (len + 1)%nat
        else skipName_loop fuel' buf len (off + 1 + Z.to_nat label) jumps
      else mret (len + 1)%nat
  end.

Definition skipName (buf : bytes) (len off : nat) : run nat :=
  skipName_loop (S len) buf len off 0.

Fixpoint decodeName_loop (fuel : nat) (buf : bytes) (len off jumps : nat) (out : bytes)
    : run bytes :=
  match fuel with
  | O => OutOfFuel
  | S fuel' =>
      if (off <? len)%nat then
        label ← rd buf off;
        if label =? 0 then mret out
        else if isPointer label then
          if (len <=? off + 1)%nat then mret []
          else if (kMaxNameJumps <? jumps + 1)%nat then mret []
          else
            next ← rd buf (off + 1);
            if (off <=? pointerTarget label next)%nat then mret []
            else decodeName_loop fuel' buf len (pointerTarget label next) (jumps + 1) out
        else if (kMaxLabelBytes <? label) || (len <? off + 1 + Z.to_nat label)%nat then mret []
        else
          text ← rdn (Z.to_nat label) buf (off + 1);
          decodeName_loop fuel' buf len (off + 1 + Z.to_nat label) jumps
            ((if bool_decide (out = []) then [] else out ++ [46]) ++ text)
      else mret out
  end.

(** Eight jumps and at most one full pass between two of them. *)
Definition decodeName (buf : bytes) (len off : nat) : run bytes :=
  decodeName_loop ((kMaxNameJumps + 1) * (len + 1)) buf len off 0 [].

(** The question loop both probes run before the answers; [None] when a
    question runs past the end. *)
Fixpoint skipQuestions (questions : nat) (buf : bytes) (len off : nat) : run (option nat) :=
  match questions with
  | O => mret (Some off)
  | S q =>
      off ← skipName buf len off;
      if (len <? off + kQuestionTailBytes)%nat then mret None
      else skipQuestions q buf len (off + kQuestionTailBytes)
  end.

Lemma readHeader_total buf len id : (len ≤ length buf)%nat →
  ∃ r, readHeader buf len id = Done r ∧ (is_Some r → (kHeaderBytes ≤ len)%nat).
Proof.
  intros Hl. unfold readHeader, kHeaderBytes.
  destruct (Nat.ltb_spec len 12); [exists None; split; [done|by intros []]|].
  destruct (rd16be_total buf 0 ltac:(lia)) as (a & -> & _). rewrite run_bind_done.
  destruct (negb _); [by eexists|].
  destruct (rd_in buf 2 ltac:(lia)) as (f1 & _ & ->). rewrite run_bind_done.
  destruct (_ =? 0); [by eexists|].
  destruct (rd_in buf 3 ltac:(lia)) as (f2 & _ & ->). rewrite run_bind_done.
  destruct (negb _); [by eexists|].
  destruct (rd16be_total buf 4 ltac:(lia)) as (b & -> & _). rewrite run_bind_done.
  destruct (rd16be_total buf 6 ltac:(lia)) as (c & -> & _). rewrite run_bind_done.
  by eexists.
Qed.

Lemma skipName_loop_total fuel buf len off jumps : (len ≤ length buf)%nat →
  (len - off < fuel)%nat → ∃ r, skipName_loop fuel buf len off jumps = Done r.
Proof.
  intros Hl. revert off. induction fuel as [|fuel IH]; intros off Hf; [lia|].
  cbn [skipName_loop]. destruct (Nat.ltb_spec off len) as [Ho|]; [|by eexists].
  destruct (rd_in buf off ltac:(lia)) as (label & _ & ->). rewrite run_bind_done.
  destruct (label =? 0); [by eexists|]. destruct (isPointer label).
  - destruct (Nat.leb_spec len (off + 1)); [by eexists|].
    destruct (Nat.ltb_spec kMaxNameJumps (jumps + 1)); [by eexists|].
    destruct (rd_in buf (off + 1) ltac:(lia)) as (next & _ & ->). rewrite run_bind_done.
    destruct (_ <=? _)%nat; by eexists.
  - destruct (_ || _); [by eexists|]. apply IH. lia.
Qed.

Lemma skipName_total buf len off : (len ≤ length buf)%nat →
  ∃ r, skipName buf len off = Done r.
Proof. intros. apply skipName_loop_total; [done|lia]. Qed.

Lemma decodeName_loop_total fuel buf len off jumps out : (len ≤ length buf)%nat →
  (jumps ≤ kMaxNameJumps)%nat →
  ((kMaxNameJumps - jumps) * (len + 1) + (len - off) < fuel)%nat →
  ∃ s, decodeName_loop fuel buf len off jumps out = Done s.
Proof.
  intros Hl. revert off jumps out. induction fuel as [|fuel IH]; intros off jumps out Hj Hf;
    [by apply Nat.nlt_0_r in Hf|].
  cbn [decodeName_loop]. destruct (Nat.ltb_spec off len) as [Ho|]; [|by eexists].
  destruct (rd_in buf off ltac:(lia)) as (label & _ & ->). rewrite run_bind_done.
  destruct (label =? 0); [by eexists|]. destruct (isPointer label).
  - destruct (Nat.leb_spec len (off + 1)); [by eexists|].
    destruct (Nat.ltb_spec kMaxNameJumps (jumps + 1)); [by eexists|].
    destruct (rd_in buf (off + 1) ltac:(lia)) as (next & _ & ->). rewrite run_bind_done.
    destruct (Nat.leb_spec off (pointerTarget label next)); [by eexists|].
    apply IH; [lia|]. nia.
  - destruct (_ || _) eqn:E; [by eexists|]. apply orb_false_iff in E as [_ E%Nat.ltb_ge].
    rewrite rdn_total by lia. rewrite run_bind_done. apply IH; [done|lia].
Qed.

Lemma decodeName_total buf len off : (len ≤ length buf)%nat →
  ∃ s, decodeName buf len off = Done s.
Proof.
  intros Hl. apply decodeName_loop_total; [done|unfold kMaxNameJumps; lia|].
  unfold kMaxNameJumps. lia.
Qed.

Lemma skipQuestions_total q buf len off : (len ≤ length buf)%nat →
  ∃ r, skipQuestions q buf len off = Done r.
Proof.
  intros Hl. revert off. induction q as [|q IH]; intros off; cbn [skipQuestions]; [by eexists|].
  destruct (skipName_total buf len off Hl) as [r ->]. rewrite run_bind_done.
  destruct (_ <? _)%nat; [by eexists|apply IH].
Qed.

(** *** Names without pointers *)

(** Wire form of a list of labels. *)
Definition encodeLabels (ls : list bytes) : bytes :=
  concat ((λ l, Z.of_nat (length l) :: l) <$> ls).

Definition joinDots (ls : list bytes) : bytes :=
  match ls with
  | [] => []
  | l :: ls' => l ++ concat (cons 46 <$> ls')
  end.

Definition label_ok (l : bytes) : Prop := (1 ≤ length l ≤ 63)%nat.

Lemma small_not_pointer n : (n ≤ 63)%nat → isPointer (Z.of_nat n) = false.
Proof.
  intros Hn.
  pose proof (u8_forallb (λ z, (63 <? z) || negb (isPointer z)) ltac:(by vm_compute)
    (Z.of_nat n) ltac:(unfold is_u8; lia)) as H.
  apply orb_true_iff in H as [H|H]; [lia|]. by apply negb_true_iff.
Qed.

Lemma rd_app_here (pre post : bytes) (c : Z) : rd (pre ++ c :: post) (length pre) = Done c.
Proof. unfold rd. by rewrite list_lookup_middle. Qed.

Lemma decodeName_loop_labels ls pre post fuel jumps out :
  Forall label_ok ls → (length ls < fuel)%nat →
  decodeName_loop fuel (pre ++ encodeLabels ls ++ 0 :: post)
    (length (pre ++ encodeLabels ls ++ 0 :: post)) (length pre) jumps out =
  Done (if bool_decide (out = []) then joinDots ls else out ++ concat (cons 46 <$> ls)).
Proof.
  intros Hok. revert pre fuel out. induction Hok as [|l ls [Hl1 Hl2] Hok IH];
    intros pre fuel out Hf; (destruct fuel as [|fuel]; [cbn [length] in Hf; lia|]); cbn [decodeName_loop].
  - cbn [encodeLabels fmap list_fmap concat app].
    destruct (Nat.ltb_spec (length pre) (length (pre ++ 0 :: post))) as [|H];
      [|rewrite length_app in H; cbn [length] in H; lia].
    rewrite rd_app_here, run_bind_done. cbn.
    case_bool_decide; subst; [done|by rewrite app_nil_r].
  - change (encodeLabels (l :: ls)) with ((Z.of_nat (length l) :: l) ++ encodeLabels ls).
    set (buf := pre ++ ((Z.of_nat (length l) :: l) ++ encodeLabels ls) ++ 0 :: post).
    assert (Hbuf : buf = pre ++ Z.of_nat (length l) :: (l ++ encodeLabels ls ++ 0 :: post)).
    { unfold buf. by rewrite <- !app_assoc. }
    assert (Hbuf2 : buf = (pre ++ Z.of_nat (length l) :: l) ++ encodeLabels ls ++ 0 :: post).
    { unfold buf. by rewrite <- !app_assoc. }
    assert (Hlen : (length pre + 1 + length l < length buf)%nat).
    { rewrite Hbuf2, !length_app. cbn [length]. rewrite ?length_app. cbn [length]. lia. }
    destruct (Nat.ltb_spec (length pre) (length buf)); [|lia].
    assert (Hrd : rd buf (length pre) = Done (Z.of_nat (length l)))
      by (rewrite Hbuf; apply rd_app_here).
    rewrite Hrd, run_bind_done.
    destruct (Z.eqb_spec (Z.of_nat (length l)) 0); [lia|].
    rewrite small_not_pointer by lia.
    rewrite Nat2Z.id, orb_false_intro
      by (rewrite ?Z.ltb_ge, ?Nat.ltb_ge; unfold kMaxLabelBytes; lia).
    rewrite rdn_total by lia. rewrite run_bind_done.
    assert (Ht : take (length l) (drop (length pre + 1) buf) = l).
    { by rewrite Hbuf, Nat.add_1_r, drop_S_app, take_app_length. }
    rewrite Ht. replace (length pre + 1 + length l)%nat with (length (pre ++ Z.of_nat (length l) :: l))
      by (rewrite length_app; cbn [length]; lia).
    rewrite Hbuf2. rewrite IH by (cbn [length] in Hf; lia).
    assert (Hl : l ≠ []) by (intros ->; cbn in Hl1; lia).
    f_equal. destruct (decide (out = [])) as [->|Hne].
    + rewrite (bool_decide_eq_true_2 ([] = [])) by done. cbn [app].
      by rewrite bool_decide_eq_false_2.
    + rewrite (bool_decide_eq_false_2 (out = [])) by done.
      rewrite bool_decide_eq_false_2; cycle 1.
      { intros E. by apply app_eq_nil in E as [_ ->]. }
      rewrite fmap_cons. cbn [concat]. by rewrite <- !app_assoc.
Qed.

End DnsMessage.

Module PtrProbe.
Import DnsMessage.

Definition kTypePtr : Z := 12.
Definition kClassIn : Z := 1.
Definition kMaxQueryBytes : nat := 64.

Definition kMaxOctetDigits : nat := 3.

(** One label of the question, or [None] when the query would not fit. *)
Definition pushLabel (l : bytes) (q : bytes) : option bytes :=
  if (kMaxQueryBytes <=? length q + 1 + length l)%nat then None
  else Some (q ++ Z.of_nat (length l) :: l).

Definition pushOctet (o : Z) (q : bytes) : option bytes :=
  let label := dec o in
  if (kMaxOctetDigits <? length label)%nat then None else pushLabel label q.

(** [buildQuery]; the empty vector is the refusal. *)
Definition buildQuery (ipNet id : Z) : bytes :=
  if (ipNet =? 0) || (ipNet =? 4294967295) then []
  else
    let header := [u8 (Z.shiftr id 8); u8 (Z.land id 255); 1; 0; 0; 1; 0; 0; 0; 0; 0; 0] in
    let octets := le4 ipNet in
    default [] (
      q ← pushOctet (nth 3 octets 0) header;
      q ← pushOctet (nth 2 octets 0) q;
      q ← pushOctet (nth 1 octets 0) q;
      q ← pushOctet (nth 0 octets 0) q;
      q ← pushLabel (lit "in-addr") q;
      q ← pushLabel (lit "arpa") q;
      Some (q ++ [0; u8 (Z.shiftr kTypePtr 8); u8 (Z.land kTypePtr 255);
                  u8 (Z.shiftr kClassIn 8); u8 (Z.land kClassIn 255)])).

(** The answer loop of [parseResponse]. *)
Fixpoint answerLoop (answers : nat) (buf : bytes) (len off : nat) : run bytes :=
  match answers with
  | O => mret []
  | S a =>
      off ← skipName buf len off;
      if (len <? off + kRecordFixedBytes)%nat then mret []
      else
        type ← rd16be buf off;
        rdLength ← rd16be buf (off + kRdLengthOffset);
        if (len <? off + kRecordFixedBytes + Z.to_nat rdLength)%nat then mret []
        else if type =? kTypePtr then decodeName buf len (off + kRecordFixedBytes)
        else answerLoop a buf len (off + kRecordFixedBytes + Z.to_nat rdLength)
  end.

Definition parseResponse (buf : bytes) (len : nat) (id : Z) : run bytes :=
  h ← readHeader buf len id;
  match h with
  | None => mret []
  | Some (questions, answers) =>
      if answers =? 0 then mret []
      else
        o ← skipQuestions (Z.to_nat questions) buf len kHeaderBytes;
        match o with
        | None => mret []
        | Some off => answerLoop (Z.to_nat answers) buf len off
        end
  end.

Lemma ptr_answerLoop_total a buf len off : (len ≤ length buf)%nat →
  ∃ s, answerLoop a buf len off = Done s.
Proof.
  intros Hl. revert off. induction a as [|a IH]; intros off; cbn [answerLoop]; [by eexists|].
  destruct (skipName_total buf len off Hl) as [r ->]. rewrite run_bind_done.
  unfold kRecordFixedBytes, kRdLengthOffset.
  destruct (Nat.ltb_spec len (r + 10)); [by eexists|].
  destruct (rd16be_total buf r ltac:(lia)) as (ty & -> & _). rewrite run_bind_done.
  destruct (rd16be_total buf (r + 8) ltac:(lia)) as (rl & -> & _). rewrite run_bind_done.
  destruct (_ <? _)%nat; [by eexists|].
  destruct (ty =? kTypePtr); [by apply decodeName_total|apply IH].
Qed.

(** For every datagram received, the PTR answer parser ends and
    reads only bytes that were received. *)
Theorem parseResponse_total buf len id : (len ≤ length buf)%nat →
  ∃ s, parseResponse buf len id = Done s.
Proof.
  intros Hl. unfold parseResponse.
  destruct (readHeader_total buf len id Hl) as (h & -> & _). rewrite run_bind_done.
  destruct h as [[qd an]|]; [|by eexists]. destruct (an =? 0); [by eexists|].
  destruct (skipQuestions_total (Z.to_nat qd) buf len kHeaderBytes Hl) as [[off|] ->];
    rewrite run_bind_done; [by apply ptr_answerLoop_total|by eexists].
Qed.

(** A name made of pointers that chase each other: refused, not followed for
    ever. *)
Definition pointerLoop : bytes :=
  [0; 7; 129; 128; 0; 0; 0; 1; 0; 0; 0; 0; 1; 97; 192; 12; 192; 14; 0; 12; 0; 1; 0; 0; 0; 0; 0; 2; 192; 16].

Example parseResponse_total_witness : ∃ s, parseResponse pointerLoop 30 7 = Done s.
Proof. apply (parseResponse_total pointerLoop 30 7). vm_compute; lia. Defined.

Lemma dec_u8_length o : is_u8 o → (1 ≤ length (dec o) ≤ 3)%nat.
Proof.
  intros Ho. pose proof (u8_forallb (λ z, (1 <=? length (dec z))%nat && (length (dec z) <=? 3)%nat)
    ltac:(by vm_compute) o Ho) as H. cbv beta in H. rewrite andb_true_iff, !Nat.leb_le in H. lia.
Qed.

Lemma pushLabel_ok l q : (length q + 1 + length l < kMaxQueryBytes)%nat →
  pushLabel l q = Some (q ++ encodeLabels [l]).
Proof.
  intros H. unfold pushLabel. destruct (Nat.leb_spec kMaxQueryBytes (length q + 1 + length l)); [lia|].
  unfold encodeLabels. simpl. by rewrite app_nil_r.
Qed.

Lemma pushOctet_ok o q : is_u8 o → (length q + 4 < kMaxQueryBytes)%nat →
  pushOctet o q = Some (q ++ encodeLabels [dec o]).
Proof.
  intros Ho H. pose proof (dec_u8_length o Ho). unfold pushOctet.
  destruct (Nat.ltb_spec kMaxOctetDigits (length (dec o))) as [Hc|_];
    [unfold kMaxOctetDigits in Hc; lia|]. apply pushLabel_ok. lia.
Qed.

Lemma encodeLabels_app a b : encodeLabels (a ++ b) = encodeLabels a ++ encodeLabels b.
Proof. unfold encodeLabels. by rewrite fmap_app, concat_app. Qed.

Lemma encodeLabels_one_length l : length (encodeLabels [l]) = S (length l).
Proof. unfold encodeLabels. simpl. by rewrite app_nil_r. Qed.

(** The labels of the question about the address with octets [a.b.c.d]. *)
Definition ptrLabels (a b c d : Z) : list bytes :=
  [dec d; dec c; dec b; dec a; lit "in-addr"; lit "arpa"].

Definition ptrHeader (id : Z) : bytes :=
  [u8 (Z.shiftr id 8); u8 (Z.land id 255); 1; 0; 0; 1; 0; 0; 0; 0; 0; 0].

Lemma buildQuery_eq a b c d id : is_u8 a → is_u8 b → is_u8 c → is_u8 d →
  of_le4 a b c d ≠ 0 → of_le4 a b c d ≠ 4294967295 →
  buildQuery (of_le4 a b c d) id =
    ptrHeader id ++ encodeLabels (ptrLabels a b c d) ++ 0 :: [0; 12; 0; 1].
Proof.
  intros Ha Hb Hc Hd Hz Hbc. unfold buildQuery. rewrite le4_of_le4 by done.
  destruct (Z.eqb_spec (of_le4 a b c d) 0); [done|].
  destruct (Z.eqb_spec (of_le4 a b c d) 4294967295); [done|]. cbn [orb nth].
  fold (ptrHeader id). assert (Hh : length (ptrHeader id) = 12%nat) by done.
  pose proof (dec_u8_length a Ha). pose proof (dec_u8_length b Hb).
  pose proof (dec_u8_length c Hc). pose proof (dec_u8_length d Hd).
  assert (Hbnd : ∀ n, (n <= 50)%nat → (n + 4 < kMaxQueryBytes)%nat) by (unfold kMaxQueryBytes; intros; lia).
  rewrite (pushOctet_ok d) by (done || (rewrite Hh; unfold kMaxQueryBytes; lia)). cbn [mbind option_bind].
  rewrite (pushOctet_ok c) by
    (done || (rewrite !length_app, !encodeLabels_one_length; apply Hbnd; lia)). cbn [mbind option_bind].
  rewrite (pushOctet_ok b) by
    (done || (rewrite !length_app, !encodeLabels_one_length; apply Hbnd; lia)). cbn [mbind option_bind].
  rewrite (pushOctet_ok a) by
    (done || (rewrite !length_app, !encodeLabels_one_length; apply Hbnd; lia)). cbn [mbind option_bind].
  rewrite pushLabel_ok by
    (rewrite !length_app, !encodeLabels_one_length; unfold kMaxQueryBytes; cbn [length lit]; simpl; lia).
  cbn [mbind option_bind].
  rewrite pushLabel_ok by
    (rewrite !length_app, !encodeLabels_one_length; unfold kMaxQueryBytes; cbn [length lit]; simpl; lia).
  cbn [mbind option_bind default]. unfold ptrLabels.
  change [dec d; dec c; dec b; dec a; lit "in-addr"; lit "arpa"] with
    ([dec d] ++ [dec c] ++ [dec b] ++ [dec a] ++ [lit "in-addr"] ++ [lit "arpa"]).
  rewrite !encodeLabels_app, <- !app_assoc. done.
Qed.

(** The question sent for an address is about that address: it
    decodes to [d.c.b.a.in-addr.arpa], and it carries the id the answer will be
    matched against. *)
Theorem ptr_query_names a b c d id : is_u8 a → is_u8 b → is_u8 c → is_u8 d → is_u16 id →
  of_le4 a b c d ≠ 0 → of_le4 a b c d ≠ 4294967295 →
  let q := buildQuery (of_le4 a b c d) id in
  decodeName q (length q) 12 = Done (joinDots (ptrLabels a b c d)) ∧
  rd16be q 0 = Done id ∧ (length q ≤ kMaxQueryBytes)%nat.
Proof.
  intros Ha Hb Hc Hd Hid Hz Hbc q. unfold q. rewrite buildQuery_eq by done.
  pose proof (dec_u8_length a Ha). pose proof (dec_u8_length b Hb).
  pose proof (dec_u8_length c Hc). pose proof (dec_u8_length d Hd).
  assert (Hok : Forall label_ok (ptrLabels a b c d)).
  { unfold ptrLabels, label_ok. rewrite !Forall_cons. split_and!; simpl; (lia || done). }
  split; [|split].
  - unfold decodeName. change 12%nat with (length (ptrHeader id)).
    rewrite decodeName_loop_labels; [done|done|]. unfold kMaxNameJumps.
    rewrite !length_app. cbn [length ptrLabels ptrHeader]. lia.
  - unfold rd16be, ptrHeader. cbn [app]. unfold rd. cbn [lookup list_lookup Nat.add].
    rewrite !run_bind_done. unfold mret, run_ret. f_equal.
    assert (E1 : u8 (Z.shiftr id 8) = id / 256).
    { rewrite Z.shiftr_div_pow2 by lia. change (2 ^ 8) with 256. apply u8_small. word_lia. }
    assert (E2 : u8 (Z.land id 255) = id mod 256).
    { change 255 with (Z.ones 8). rewrite Z.land_ones by lia. apply u8_small.
      change (2 ^ 8) with 256. word_lia. }
    rewrite E1, E2, Z.shiftl_mul_pow2 by lia.
    rewrite <- Z.add_nocarry_lor.
    + change (2 ^ 8) with 256. rewrite u16_small; word_lia.
    + rewrite <- Z.shiftl_mul_pow2 by lia. apply Z.bits_inj'. intros n Hn.
      rewrite Z.land_spec, Z.bits_0. change 256 with (2 ^ 8).
      destruct (Z.ltb_spec n 8).
      * by rewrite Z.shiftl_spec_low.
      * by rewrite Z.mod_pow2_bits_high, andb_false_r by lia.
  - rewrite !length_app. unfold ptrLabels, encodeLabels. cbn [fmap list_fmap concat].
    rewrite !length_app. cbn [length ptrHeader lit]. unfold kMaxQueryBytes. simpl. lia.
Qed.

Example ptr_query_names_witness :
  let q := buildQuery (of_le4 192 168 1 42) 4660 in
  decodeName q (length q) 12 = Done (joinDots (ptrLabels 192 168 1 42)) ∧
  rd16be q 0 = Done 4660 ∧ (length q ≤ kMaxQueryBytes)%nat.
Proof.
  apply (ptr_query_names 192 168 1 42 4660); unfold is_u8, is_u16; (lia || done).
Defined.

Example ptr_question_text :
  joinDots (ptrLabels 192 168 1 42) = lit "42.1.168.192.in-addr.arpa".
Proof. by vm_compute. Qed.

End PtrProbe.

Module NbstatProbe.
Import DnsMessage.

Definition kTypeNbstat : Z := 33.
Definition kEntryNameBytes : nat := 15.
Definition kEntryBytes : nat := 18.
Definition kEntrySuffixOffset : nat := 15.
Definition kEntryFlagsOffset : nat := 16.
Definition kNameBytes : nat := 16.
Definition kTableCountBytes : nat := 1.
Definition kFlagGroup : Z := 32768.
Definition kSuffixWorkstation : Z := 0.

Record NameEntry := mkName { ename : bytes; suffix : Z; flags : Z }.

Definition isPad (c : Z) : bool := (c =? 32) || (c =? 0).

(** One 18-byte entry. *)
Definition readEntry (buf : bytes) (off : nat) : run NameEntry :=
  raw ← rdn kEntryNameBytes buf off;
  suffix ← rd buf (off + kEntrySuffixOffset);
  flags ← rd16be buf (off + kEntryFlagsOffset);
  mret (mkName (drop_while_end isPad raw) suffix flags).

Fixpoint readEntries (count : nat) (buf : bytes) (off : nat) : run (list NameEntry) :=
  match count with
  | O => mret []
  | S c =>
      e ← readEntry buf off;
      es ← readEntries c buf (off + kEntryBytes);
      mret (e :: es)
  end.

Definition readTable (buf : bytes) (len off : nat) (count : nat) : run (option (list NameEntry)) :=
  if (len <? off + count * kEntryBytes)%nat then mret None
  else es ← readEntries count buf off; mret (Some es).

(** The selection loop of [parseResponse]. *)
Fixpoint pickName (es : list NameEntry) (firstUnique : bytes) : bytes :=
  match es with
  | [] => firstUnique
  | e :: es' =>
      if negb (Z.land (flags e) kFlagGroup =? 0) then pickName es' firstUnique
      else if bool_decide (ename e = []) then pickName es' firstUnique
      else if suffix e =? kSuffixWorkstation then ename e
      else pickName es' (if bool_decide (firstUnique = []) then ename e else firstUnique)
  end.

Definition buildQuery (id : Z) : bytes :=
  let raw := 42 :: replicate 15 0 in
  [u8 (Z.shiftr id 8); u8 (Z.land id 255); 0; 0; 0; 1; 0; 0; 0; 0; 0; 0] ++
  [Z.of_nat kNameBytes * 2] ++
  concat ((λ b, [u8 (65 + Z.shiftr b 4); u8 (65 + Z.land b 15)]) <$> raw) ++
  [0; u8 (Z.shiftr kTypeNbstat 8); u8 (Z.land kTypeNbstat 255); 0; 1].

Fixpoint answerLoop (answers : nat) (buf : bytes) (len off : nat) : run bytes :=
  match answers with
  | O => mret []
  | S a =>
      off ← skipName buf len off;
      if (len <? off + kRecordFixedBytes)%nat then mret []
      else
        type ← rd16be buf off;
        rdLength ← rd16be buf (off + kRdLengthOffset);
        if (len <? off + kRecordFixedBytes + Z.to_nat rdLength)%nat then mret []
        else if negb (type =? kTypeNbstat)
        then answerLoop a buf len (off + kRecordFixedBytes + Z.to_nat rdLength)
        else
          let table := (off + kRecordFixedBytes)%nat in
          if (Z.to_nat rdLength <? kTableCountBytes)%nat || (len <? table + Z.to_nat rdLength)%nat
          then mret []
          else
            count ← rd buf table;
            o ← readTable buf (table + Z.to_nat rdLength) (table + kTableCountBytes) (Z.to_nat count);
            match o with
            | None => mret []
            | Some entries => mret (pickName entries [])
            end
  end.

Definition parseResponse (buf : bytes) (len : nat) (id : Z) : run bytes :=
  h ← readHeader buf len id;
  match h with
  | None => mret []
  | Some (questions, answers) =>
      if answers =? 0 then mret []
      else
        o ← skipQuestions (Z.to_nat questions) buf len kHeaderBytes;
        match o with
        | None => mret []
        | Some off => answerLoop (Z.to_nat answers) buf len off
        end
  end.

Lemma readEntries_total count buf off : (off + count * kEntryBytes ≤ length buf)%nat →
  ∃ es, readEntries count buf off = Done es.
Proof.
  unfold kEntryBytes. revert off. induction count as [|c IH]; intros off H; cbn [readEntries];
    [by eexists|]. unfold readEntry, kEntryNameBytes, kEntrySuffixOffset, kEntryFlagsOffset, kEntryBytes.
  rewrite rdn_total by lia. rewrite run_bind_done.
  destruct (rd_in buf (off + 15) ltac:(lia)) as (sf & _ & ->). rewrite run_bind_done.
  destruct (rd16be_total buf (off + 16) ltac:(lia)) as (fl & -> & _). rewrite run_bind_done.
  destruct (IH (off + 18)%nat ltac:(lia)) as [es Hes]. unfold mret, run_ret. rewrite run_bind_done, Hes.
  by eexists.
Qed.

Lemma nbstat_answerLoop_total a buf len off : (len ≤ length buf)%nat →
  ∃ s, answerLoop a buf len off = Done s.
Proof.
  intros Hl. revert off. induction a as [|a IH]; intros off; cbn [answerLoop]; [by eexists|].
  destruct (skipName_total buf len off Hl) as [r ->]. rewrite run_bind_done.
  unfold kRecordFixedBytes, kRdLengthOffset, kTableCountBytes.
  destruct (Nat.ltb_spec len (r + 10)); [by eexists|].
  destruct (rd16be_total buf r ltac:(lia)) as (ty & -> & _). rewrite run_bind_done.
  destruct (rd16be_total buf (r + 8) ltac:(lia)) as (rl & -> & _). rewrite run_bind_done.
  destruct (Nat.ltb_spec len (r + 10 + Z.to_nat rl)); [by eexists|].
  destruct (negb _); [apply IH|]. cbv zeta.
  destruct (_ || _) eqn:E; [by eexists|]. apply orb_false_iff in E as [E%Nat.ltb_ge _].
  destruct (rd_in buf (r + 10) ltac:(lia)) as (count & _ & ->). rewrite run_bind_done.
  unfold readTable. destruct (Nat.ltb_spec (r + 10 + Z.to_nat rl) (r + 10 + 1 + Z.to_nat count * kEntryBytes));
    [by eexists|].
  destruct (readEntries_total (Z.to_nat count) buf (r + 10 + 1) ltac:(lia)) as [es ->]. by eexists.
Qed.

(** The node-status parser ends on every datagram and reads
    only bytes that were received, whatever counts and lengths it claims. *)
Theorem nbstat_parse_total buf len id : (len ≤ length buf)%nat →
  ∃ s, parseResponse buf len id = Done s.
Proof.
  intros Hl. unfold parseResponse.
  destruct (readHeader_total buf len id Hl) as (h & -> & _). rewrite run_bind_done.
  destruct h as [[qd an]|]; [|by eexists]. destruct (an =? 0); [by eexists|].
  destruct (skipQuestions_total (Z.to_nat qd) buf len kHeaderBytes Hl) as [[off|] ->];
    rewrite run_bind_done; [by apply nbstat_answerLoop_total|by eexists].
Qed.

Definition demoAnswer : bytes :=
  [0; 7; 132; 0; 0; 0; 0; 1; 0; 0; 0; 0] ++ [0; 0; 33; 0; 1; 0; 0; 0; 0; 0; 37; 2] ++
  lit "GROUPNAME      " ++ [0; 128; 0] ++ lit "DESKTOP        " ++ [0; 4; 0].

Example nbstat_demo : parseResponse demoAnswer (length demoAnswer) 7 = Done (lit "DESKTOP").
Proof. by vm_compute. Qed.

Example nbstat_parse_total_witness : ∃ s, parseResponse demoAnswer 40 7 = Done s.
Proof. apply (nbstat_parse_total demoAnswer 40 7). vm_compute; lia. Defined.

End NbstatProbe.
