(* ===== verification/DhcpMessage.v ===== *)
(** * DHCP messages: the option walk and the replies

    The wire half of [src/dhcp/DhcpServer.cpp]: the fixed 240-byte header, the
    option loop of [handleDhcpMessage] over the receive buffer, and the bytes
    [sendDhcpOffer], [sendDhcpAck] and [sendDhcpNak] put on the network. *)
From S2P Require Import Prelude.

Module DhcpMessage.

Definition DHCP_MAGIC_COOKIE : Z := 1669485411.
Definition DHCP_DISCOVER : Z := 1.
Definition DHCP_OFFER : Z := 2.
Definition DHCP_REQUEST : Z := 3.
Definition DHCP_DECLINE : Z := 4.
Definition DHCP_ACK : Z := 5.
Definition DHCP_NAK : Z := 6.
Definition DHCP_RELEASE : Z := 7.

Definition DHCP_OPT_PAD : Z := 0.
Definition DHCP_OPT_SUBNET_MASK : Z := 1.
Definition DHCP_OPT_ROUTER : Z := 3.
Definition DHCP_OPT_DNS_SERVER : Z := 6.
Definition DHCP_OPT_LEASE_TIME : Z := 51.
Definition DHCP_OPT_MSG_TYPE : Z := 53.
Definition DHCP_OPT_SERVER_ID : Z := 54.
Definition DHCP_OPT_REQ_ADDR : Z := 50.
Definition DHCP_OPT_END : Z := 255.

Definition DHCP_BOOTREPLY : Z := 2.
Definition DHCP_HWADDR_LEN : Z := 6.
Definition DHCP_OPTIONS_BYTES : nat := 308.
Definition DHCP_MIN_MSGSIZE : nat := 240.

(** Offsets of the fields of the packed [struct DhcpMessage]. *)
Definition offXid : nat := 4.
Definition offCiaddr : nat := 12.
Definition offGiaddr : nat := 24.
Definition offChaddr : nat := 28.
Definition offCookie : nat := 236.
Definition offOptions : nat := 240.

(** A [uint32_t] field of the message, as the target's memory holds it. *)
Definition rd32le (buf : bytes) (off : nat) : run Z :=
  a ← rd buf off; b ← rd buf (off + 1); c ← rd buf (off + 2); d ← rd buf (off + 3);
  mret (of_le4 a b c d).

(** What the option loop collects. *)
Record Options := mkOptions { msgType : Z; requestedIp : Z; serverId : Z }.

Definition noOptions : Options := mkOptions 0 0 0.

(** One turn of the loop body on the option at [off]. *)
Definition takeOption (buf : bytes) (off : nat) (code optLen : Z) (o : Options) : run Options :=
  if (code =? DHCP_OPT_MSG_TYPE) && (optLen =? 1) then
    t ← rd buf (off + 2); mret (mkOptions t (requestedIp o) (serverId o))
  else if (code =? DHCP_OPT_REQ_ADDR) && (optLen =? 4) then
    v ← rd32le buf (off + 2); mret (mkOptions (msgType o) v (serverId o))
  else if (code =? DHCP_OPT_SERVER_ID) && (optLen =? 4) then
    v ← rd32le buf (off + 2); mret (mkOptions (msgType o) (requestedIp o) v)
  else mret o.

(** The loop; [off] is [opt - msg->options].  The bound is the size of the
    structure's array, not the length received: the loop reads on into
    whatever the receive buffer holds. *)
Fixpoint parseOptions_loop (fuel : nat) (buf : bytes) (off : nat) (o : Options) : run Options :=
  match fuel with
  | O => OutOfFuel
  | S f =>
      code ← rd buf (offOptions + off);
      if code =? DHCP_OPT_END then mret o
      else if negb (off <? DHCP_OPTIONS_BYTES)%nat then mret o
      else if code =? DHCP_OPT_PAD then parseOptions_loop f buf (off + 1) o
      else
        optLen ← rd buf (offOptions + off + 1);
        o ← takeOption buf (offOptions + off) code optLen o;
        parseOptions_loop f buf (off + Z.to_nat optLen + 2) o
  end.

Definition parseOptions (buf : bytes) : run Options :=
  parseOptions_loop (S DHCP_OPTIONS_BYTES) buf 0 noOptions.

(** ** Replies *)

(** The 240 bytes of a reply before its options, as the three senders fill the
    zeroed structure. *)
Definition replyHeader (xid yiaddr siaddr giaddr : Z) (clientMac : bytes) : bytes :=
  [DHCP_BOOTREPLY; 1; DHCP_HWADDR_LEN; 0] ++ le4 xid ++ [0; 0] ++ [128; 0] ++
  le4 0 ++ le4 yiaddr ++ le4 siaddr ++ le4 giaddr ++
  clientMac ++ replicate 10 0 ++ replicate 64 0 ++ replicate 128 0 ++
  le4 (htonl DHCP_MAGIC_COOKIE).

(** An option as it is laid out: code, length, value. *)
Definition tlv (code : Z) (value : bytes) : bytes :=
  code :: Z.of_nat (length value) :: value.

(** The options of an OFFER or an ACK. *)
Definition leaseOptions (type serverIp netmask : Z) (sendRouter : bool)
    (routerIp dnsIp leaseTimeSec : Z) : bytes :=
  tlv DHCP_OPT_MSG_TYPE [type] ++
  tlv DHCP_OPT_SERVER_ID (le4 serverIp) ++
  tlv DHCP_OPT_SUBNET_MASK (le4 netmask) ++
  (if sendRouter then tlv DHCP_OPT_ROUTER (le4 routerIp) else []) ++
  tlv DHCP_OPT_DNS_SERVER (le4 dnsIp) ++
  tlv DHCP_OPT_LEASE_TIME (le4 (htonl leaseTimeSec)) ++
  [DHCP_OPT_END].

(** The options of a NAK. *)
Definition nakOptions (serverIp : Z) : bytes :=
  tlv DHCP_OPT_MSG_TYPE [DHCP_NAK] ++ tlv DHCP_OPT_SERVER_ID (le4 serverIp) ++
  [DHCP_OPT_END].

(** ** The option walk never leaves the receive buffer *)

Lemma rd32le_total buf off : (off + 3 < length buf)%nat → ∃ v, rd32le buf off = Done v.
Proof.
  intros H. unfold rd32le.
  destruct (rd_in buf off ltac:(lia)) as (a & _ & ->). rewrite run_bind_done.
  destruct (rd_in buf (off + 1) ltac:(lia)) as (b & _ & ->). rewrite run_bind_done.
  destruct (rd_in buf (off + 2) ltac:(lia)) as (c & _ & ->). rewrite run_bind_done.
  destruct (rd_in buf (off + 3) ltac:(lia)) as (d & _ & ->). by eexists.
Qed.

Lemma takeOption_total buf off code optLen o : (off + 5 < length buf)%nat →
  ∃ o', takeOption buf off code optLen o = Done o'.
Proof.
  intros H. unfold takeOption. destruct (_ && _).
  { destruct (rd_in buf (off + 2) ltac:(lia)) as (t & _ & ->). by eexists. }
  destruct (_ && _); [|destruct (_ && _); [|by eexists]];
    destruct (rd32le_total buf (off + 2) ltac:(lia)) as [v ->]; by eexists.
Qed.

(** The widest buffer position the walk can read: the last option may start at
    [307] and be 255 bytes long. *)
Definition kWalkBytes : nat := 240 + 308 + 257.

Lemma parseOptions_loop_total fuel buf off o : wf_bytes buf → (kWalkBytes <= length buf)%nat →
  (off < DHCP_OPTIONS_BYTES + 257)%nat → (DHCP_OPTIONS_BYTES < off + fuel)%nat → (0 < fuel)%nat →
  ∃ o', parseOptions_loop fuel buf off o = Done o'.
Proof.
  unfold kWalkBytes, DHCP_OPTIONS_BYTES. intros Hwf Hl. revert off o.
  induction fuel as [|f IH]; intros off o Ho Hf Hp; [lia|]. cbn [parseOptions_loop].
  unfold offOptions.
  destruct (rd_in buf (240 + off) ltac:(lia)) as (code & _ & ->). rewrite run_bind_done.
  destruct (code =? DHCP_OPT_END); [by eexists|].
  destruct (Nat.ltb_spec off DHCP_OPTIONS_BYTES) as [Hlt|]; cbn [negb]; [|by eexists].
  unfold DHCP_OPTIONS_BYTES in Hlt.
  destruct (code =? DHCP_OPT_PAD); [apply IH; lia|].
  destruct (rd_in buf (240 + off + 1) ltac:(lia)) as (len & Hlen & ->). rewrite run_bind_done.
  destruct (takeOption_total buf (240 + off) code len o ltac:(lia)) as [o' ->].
  rewrite run_bind_done.
  assert (is_u8 len) by (by eapply Forall_lookup_1). unfold is_u8 in *. apply IH; lia.
Qed.

Lemma parseOptions_total buf : wf_bytes buf → (kWalkBytes <= length buf)%nat →
  ∃ o, parseOptions buf = Done o.
Proof.
  intros Hwf Hl. apply parseOptions_loop_total; [done|done|..];
    unfold DHCP_OPTIONS_BYTES; lia.
Qed.

(** ** What the walk collects from well-formed options *)

(** The effect of one option, on its value. *)
Definition applyOption (o : Options) (cv : Z * bytes) : Options :=
  match cv with
  | (code, [t]) => if code =? DHCP_OPT_MSG_TYPE then mkOptions t (requestedIp o) (serverId o) else o
  | (code, [a; b; c; d]) =>
      if code =? DHCP_OPT_REQ_ADDR then mkOptions (msgType o) (of_le4 a b c d) (serverId o)
      else if code =? DHCP_OPT_SERVER_ID then mkOptions (msgType o) (requestedIp o) (of_le4 a b c d)
      else o
  | _ => o
  end.

Definition option_ok (cv : Z * bytes) : Prop :=
  cv.1 ≠ DHCP_OPT_PAD ∧ cv.1 ≠ DHCP_OPT_END ∧ (length cv.2 <= 255)%nat.

Definition encodeOptions (l : list (Z * bytes)) : bytes :=
  concat ((λ cv, tlv cv.1 cv.2) <$> l).

Lemma encodeOptions_cons c v l : encodeOptions ((c, v) :: l) = tlv c v ++ encodeOptions l.
Proof. done. Qed.

Lemma rd_app_r pre s i : rd (pre ++ s) (length pre + i) = rd s i.
Proof.
  unfold rd. rewrite lookup_app_r by lia.
  by replace (length pre + i - length pre)%nat with i by lia.
Qed.

Lemma rd32le_app_r pre s i : rd32le (pre ++ s) (length pre + i) = rd32le s i.
Proof. unfold rd32le. by rewrite <- !Nat.add_assoc, !rd_app_r. Qed.

Lemma takeOption_apply pre code v post o :
  takeOption (pre ++ tlv code v ++ post) (length pre) code (Z.of_nat (length v)) o =
  Done (applyOption o (code, v)).
Proof.
  unfold takeOption, tlv. rewrite rd_app_r, rd32le_app_r.
  destruct v as [|a [|b [|c [|d [|e v]]]]]; cbn [length app applyOption];
    repeat match goal with |- context [Z.of_nat ?n =? ?m] =>
      first [replace (Z.of_nat n =? m) with true by (symmetry; apply Z.eqb_eq; lia)
            |replace (Z.of_nat n =? m) with false by (symmetry; apply Z.eqb_neq; lia)] end;
    rewrite ?andb_true_r, ?andb_false_r; try done.
  - by destruct (code =? DHCP_OPT_MSG_TYPE).
  - unfold rd32le, rd. cbn [lookup list_lookup Nat.add].
    destruct (code =? DHCP_OPT_REQ_ADDR), (code =? DHCP_OPT_SERVER_ID); done.
Qed.

Lemma parseOptions_loop_encoded l : Forall option_ok l → ∀ pre post fuel off o,
  length pre = (offOptions + off)%nat →
  (off + length (encodeOptions l) <= DHCP_OPTIONS_BYTES)%nat → (length l < fuel)%nat →
  parseOptions_loop fuel (pre ++ encodeOptions l ++ DHCP_OPT_END :: post) off o =
  Done (foldl applyOption o l).
Proof.
  induction 1 as [|[code v] l (Hp & He & Hl) Hok IH]; intros pre post fuel off o Hpre Hlen Hf;
    (destruct fuel as [|f]; [cbn [length] in Hf; lia|]); cbn [parseOptions_loop].
  - rewrite <- Hpre, <- (Nat.add_0_r (length pre)), rd_app_r. done.
  - rewrite encodeOptions_cons in *. rewrite <- (app_assoc (tlv code v)).
    cbn [fst snd] in *. rewrite <- Hpre.
    rewrite <- (Nat.add_0_r (length pre)) at 1. rewrite !rd_app_r. cbn [tlv rd app].
    change (rd _ 0) with (Done code). rewrite run_bind_done.
    destruct (Z.eqb_spec code DHCP_OPT_END); [done|].
    rewrite length_app in Hlen. cbn [tlv length] in Hlen.
    destruct (Nat.ltb_spec off DHCP_OPTIONS_BYTES); [cbn [negb]|lia].
    destruct (Z.eqb_spec code DHCP_OPT_PAD); [done|].
    change (rd _ 1) with (Done (Z.of_nat (length v))). rewrite run_bind_done.
    change (code :: Z.of_nat (length v) :: v ++ ?x) with (tlv code v ++ x).
    rewrite takeOption_apply, run_bind_done, (app_assoc pre). apply IH.
    + rewrite length_app, Hpre. cbn [tlv length]. lia.
    + lia.
    + cbn [length] in Hf. lia.
Qed.

End DhcpMessage.
