(* ===== verification/DhcpState.v ===== *)
(** * The DHCP server's state and its surroundings

    The members of [DhcpServer] (src/dhcp/DhcpServer.h), what the server asks
    of the network stack and the clock, and the monad its methods run in: every
    external answer is indexed by the number of the call, so two readings of
    the clock in one handler may differ. *)
From S2P Require Import Prelude StdMap DeclinedAddresses AllowedList.

Module DhcpState.

Inductive DhcpServerState := STOPPED | RUNNING | ERROR.

Record DhcpLease := mkLease { mac : bytes; ip : Z; expiry : Z; hostname : bytes }.

Record StaticEntry := mkStatic {
  sMac : bytes;
  sIp : Z;
  gatewayIp : Z;
  useGateway : bool;
  sEnabled : bool;
  useDns : bool;
}.

(** The members cached by [start] and changed only by the settings pages. *)
Record Config := mkConfig {
  serverIp : Z;
  serverNetmask : Z;
  serverGateway : Z;
  rangeStart : Z;
  rangeEnd : Z;
  leaseTimeSec : Z;
  dnsMode : bytes;
  dnsManualIp : Z;
  dnsServerRunning : bool;
  maxLeaseEntries : Z;
  maxLeaseEntriesEffective : Z;
  staticBindings : list StaticEntry;
  allowOnly : bool;
  allowedList : AllowedList.state;
  allowedStaticRefs : list AllowedList.StaticRef;
  allowedStorage : bool;
}.

(** What the server puts into the world: a datagram, or an event for the REST
    logger with the fields it passes. *)
Inductive Effect :=
  | Sent (destIp destPort : Z) (data : bytes)
  | RestEvent (event macText ipText maskText gatewayText dnsText : bytes) (leaseTime : Z).

Record Server := mkServer {
  cfg : Config;
  status : DhcpServerState;
  leases : list (Z * DhcpLease);
  declined : Declined.table;
  leaseLimitRejects : Z;
  tick : nat;           (** external calls made so far *)
  out : list Effect;    (** effects, latest last *)
}.

(** The network stack and the clock, as parameters: the answer to the [n]-th
    external call. *)
Record Env := mkEnv {
  timer_us : nat → Z;                     (** [esp_timer_get_time] *)
  arpProbeIp : nat → Z → option bytes;    (** the owner that answered *)
  icmpProbeIp : nat → Z → bool;
  arpTable : nat → list (Z * bytes);      (** the entries of lwIP's ARP cache *)
  ptrQuery : nat → Z → Z → bytes;         (** [PtrProbe::query] *)
  nbstatQuery : nat → Z → bytes;          (** [NbstatProbe::query] *)
}.

(** ** The monad *)

Definition M (A : Type) : Type := Server → run (A * Server).

#[export] Instance M_ret : MRet M := λ A a s, Done (a, s).
#[export] Instance M_bind : MBind M := λ A B f m s,
  match m s with
  | Done (a, s') => f a s'
  | OutOfBounds => OutOfBounds
  | OutOfFuel => OutOfFuel
  end.

Definition gets {A} (f : Server → A) : M A := λ s, Done (f s, s).
Definition modify (f : Server → Server) : M unit := λ s, Done (tt, f s).
Definition lift {A} (r : run A) : M A := λ s,
  match r with
  | Done a => Done (a, s)
  | OutOfBounds => OutOfBounds
  | OutOfFuel => OutOfFuel
  end.

(** One external call: the answer is the environment's for this call. *)
Definition external {A} (f : nat → A) : M A := λ s,
  Done (f (tick s), mkServer (cfg s) (status s) (leases s) (declined s)
                      (leaseLimitRejects s) (S (tick s)) (out s)).

Definition set_leases (l : list (Z * DhcpLease)) (s : Server) : Server :=
  mkServer (cfg s) (status s) l (declined s) (leaseLimitRejects s) (tick s) (out s).
Definition set_declined (t : Declined.table) (s : Server) : Server :=
  mkServer (cfg s) (status s) (leases s) t (leaseLimitRejects s) (tick s) (out s).
Definition set_rejects (n : Z) (s : Server) : Server :=
  mkServer (cfg s) (status s) (leases s) (declined s) n (tick s) (out s).
Definition set_cfg (c : Config) (s : Server) : Server :=
  mkServer c (status s) (leases s) (declined s) (leaseLimitRejects s) (tick s) (out s).
Definition set_status (x : DhcpServerState) (s : Server) : Server :=
  mkServer (cfg s) x (leases s) (declined s) (leaseLimitRejects s) (tick s) (out s).
Definition emit (e : Effect) (s : Server) : Server :=
  mkServer (cfg s) (status s) (leases s) (declined s) (leaseLimitRejects s) (tick s)
    (out s ++ [e]).

(** ** Runs with a postcondition

    [spec m s Q]: run from [s], [m] completes, and its result and final state
    satisfy [Q].  Total correctness: out of bounds and out of fuel are false. *)
Definition spec {A} (m : M A) (s : Server) (Q : A → Server → Prop) : Prop :=
  ∃ a s', m s = Done (a, s') ∧ Q a s'.

Lemma spec_ret {A} (a : A) s (Q : A → Server → Prop) : Q a s → spec (mret a) s Q.
Proof. intros. by exists a, s. Qed.

Lemma spec_bind {A B} (m : M A) (f : A → M B) s (Q : B → Server → Prop) :
  spec m s (λ a s', spec (f a) s' Q) → spec (m ≫= f) s Q.
Proof.
  intros (a & s1 & E & b & s2 & E2 & HQ). exists b, s2. split; [|done].
  unfold mbind, M_bind. by rewrite E.
Qed.

Lemma spec_gets {A} (f : Server → A) s (Q : A → Server → Prop) :
  Q (f s) s → spec (gets f) s Q.
Proof. intros. by exists (f s), s. Qed.

Lemma spec_modify (f : Server → Server) s (Q : unit → Server → Prop) :
  Q tt (f s) → spec (modify f) s Q.
Proof. intros. by exists tt, (f s). Qed.

Lemma spec_lift {A} (r : run A) a s (Q : A → Server → Prop) :
  r = Done a → Q a s → spec (lift r) s Q.
Proof. intros -> ?. by exists a, s. Qed.

Lemma spec_external {A} (f : nat → A) s (Q : A → Server → Prop) :
  (let s' := mkServer (cfg s) (status s) (leases s) (declined s)
               (leaseLimitRejects s) (S (tick s)) (out s) in Q (f (tick s)) s') →
  spec (external f) s Q.
Proof. intros. by eexists _, _. Qed.

Lemma spec_mono {A} (m : M A) s (Q Q' : A → Server → Prop) :
  (∀ a s', Q a s' → Q' a s') → spec m s Q → spec m s Q'.
Proof. intros HQ (a & s' & E & H). exists a, s'. eauto. Qed.

Lemma spec_eq {A} (m m' : M A) s (Q : A → Server → Prop) :
  m s = m' s → spec m' s Q → spec m s Q.
Proof. unfold spec. by intros ->. Qed.

(** From a completed run to its postcondition. *)
Lemma spec_run {A} (m : M A) s (Q : A → Server → Prop) a s' :
  spec m s Q → m s = Done (a, s') → Q a s'.
Proof. intros (b & s2 & E & HQ) E2. rewrite E in E2. by simplify_eq. Qed.

Lemma bind_lift_done {A B} (a : A) (f : A → M B) s : (lift (Done a) ≫= f) s = f a s.
Proof. done. Qed.
Lemma bind_gets {A B} (g : Server → A) (f : A → M B) s : (gets g ≫= f) s = f (g s) s.
Proof. done. Qed.
Lemma bind_const {A B} (a : A) (f : A → M B) s : ((λ s, Done (a, s)) ≫= f) s = f a s.
Proof. done. Qed.

(** ** How operations move the state *)

(** [moved s s']: nothing but the lease table, the refusal counter and the
    number of external calls may differ. *)
Record moved (s s' : Server) : Prop := {
  moved_cfg : cfg s' = cfg s;
  moved_status : status s' = status s;
  moved_declined : declined s' = declined s;
  moved_out : out s' = out s;
  moved_tick : (tick s <= tick s')%nat;
}.

(** [ticked s s']: only questions were asked. *)
Definition ticked (s s' : Server) : Prop :=
  moved s s' ∧ leases s' = leases s ∧ leaseLimitRejects s' = leaseLimitRejects s.

#[export] Instance moved_preorder : PreOrder moved.
Proof.
  split; [by split|]. intros s1 s2 s3 [] []. split; congruence || lia.
Qed.

#[export] Instance ticked_preorder : PreOrder ticked.
Proof.
  split; [by split|]. intros s1 s2 s3 (Hm & Hl & Hr) (Hm' & Hl' & Hr').
  split; [by etrans|]. split; congruence.
Qed.

Lemma ticked_moved s s' : ticked s s' → moved s s'.
Proof. by intros []. Qed.
Lemma ticked_leases s s' : ticked s s' → leases s' = leases s.
Proof. by intros (_ & ? & _). Qed.
Lemma ticked_cfg s s' : ticked s s' → cfg s' = cfg s.
Proof. by intros ([] & _). Qed.
Lemma ticked_declined s s' : ticked s s' → declined s' = declined s.
Proof. by intros ([] & _). Qed.

Create HintDb dhcp.
#[export] Hint Resolve ticked_moved : dhcp.

Lemma spec_external_ticked {A} (f : nat → A) s (Q : A → Server → Prop) :
  (∀ s', ticked s s' → (tick s < tick s')%nat → Q (f (tick s)) s') → spec (external f) s Q.
Proof.
  intros H. apply spec_external. apply H; [|cbn; lia].
  split; [split|]; cbn; (done || lia).
Qed.

End DhcpState.

#[global] Typeclasses Opaque DhcpState.M.

(** One step of a monadic program. *)
Ltac mstep :=
  match goal with
  | |- DhcpState.spec (mbind _ _) _ _ => apply DhcpState.spec_bind
  | |- DhcpState.spec (mret _) _ _ => apply DhcpState.spec_ret
  | |- DhcpState.spec (DhcpState.gets _) _ _ => apply DhcpState.spec_gets
  | |- DhcpState.spec (DhcpState.modify _) _ _ => apply DhcpState.spec_modify
  end.
