(* ===== verification/DhcpLeases.v ===== *)
(** * The lease table and the choice of an address

    The part of [DhcpServer] (src/dhcp/DhcpServer.cpp) that owns the table:
    probing, the range and binding tests, the choice of an address for an
    OFFER, the cap, leases, offers and their expiry. *)
From S2P Require Import Prelude StdMap DeclinedAddresses AllowedList DhcpMessage DhcpState.
Import DhcpState.

Module DhcpLeases.

Definition kOfferHoldSec : Z := 60.
Definition DHCP_MIN_LEASE_ENTRIES : Z := 8.
Definition DHCP_MAX_LEASE_ENTRIES : Z := 512.

(** ** Pure decisions *)

Definition isIpInRange (c : Config) (ip : Z) : bool :=
  if ip =? serverIp c then false
  else (ntohl (rangeStart c) <=? ntohl ip) && (ntohl ip <=? ntohl (rangeEnd c)).

Definition isStaticBindingForMac (c : Config) (m : bytes) (ip : Z) : bool :=
  existsb (λ e, sEnabled e && ((sIp e =? ip) && bytes_eqb (sMac e) m)) (staticBindings c).

(** The first enabled binding of a MAC: the loop of both resolvers. *)
Definition bindingOf (c : Config) (m : bytes) : option StaticEntry :=
  List.find (λ e, sEnabled e && bytes_eqb (sMac e) m) (staticBindings c).

Definition resolveDnsServer (c : Config) (m : bytes) : Z :=
  let tail :=
    if bytes_eqb (dnsMode c) (lit "manual") then
      if negb (dnsManualIp c =? 0) && negb (dnsManualIp c =? serverIp c)
      then dnsManualIp c else serverGateway c
    else if dnsServerRunning c then serverIp c else serverGateway c in
  match bindingOf c m with
  | Some e =>
      if negb (useDns e) then
        if negb (dnsManualIp c =? 0) then dnsManualIp c else serverGateway c
      else tail
  | None => tail
  end.

(** The router and whether to send it. *)
Definition resolveRouter (c : Config) (m : bytes) : Z * bool :=
  match bindingOf c m with
  | Some e => if negb (useGateway e) then (0, false) else (serverGateway c, true)
  | None => (serverGateway c, true)
  end.

(** The effective cap for a configured value and a range. *)
Definition leaseLimit (configured start end_ : Z) : Z :=
  let limit :=
    if configured =? 0 then
      let pool := if start <? end_ then u32 (ntohl end_ - ntohl start + 1) else 0 in
      u32 (pool * 2)
    else configured in
  let limit := if limit <? DHCP_MIN_LEASE_ENTRIES then DHCP_MIN_LEASE_ENTRIES else limit in
  if DHCP_MAX_LEASE_ENTRIES <? limit then DHCP_MAX_LEASE_ENTRIES else limit.

(** Step 1 of [selectIp]: an enabled binding of this MAC whose address is not
    in the table. *)
Fixpoint staticChoice (bs : list StaticEntry) (m : bytes) (ls : list (Z * DhcpLease))
  : option Z :=
  match bs with
  | [] => None
  | e :: bs' =>
      if negb (sEnabled e) then staticChoice bs' m ls
      else if bytes_eqb (sMac e) m then
        match map_find (sIp e) ls with
        | None => Some (sIp e)
        | Some _ => staticChoice bs' m ls
        end
      else staticChoice bs' m ls
  end.

(** Step 2: the first address, in table order, this MAC already holds. *)
Definition leaseOf (m : bytes) (ls : list (Z * DhcpLease)) : option Z :=
  fst <$> List.find (λ kv, bytes_eqb (mac kv.2) m) ls.

(** [ip = htonl(ntohl(ip) + 1)]. *)
Definition nextIp (ip : Z) : Z := htonl (u32 (ntohl ip + 1)).

(** Rounds of the scan the model allows: enough for every range whose last
    address does not end in [.255] (see [scan_total]). *)
Definition kScanFuel : nat := 256.

(** The table without the entries that have expired. *)
Definition purge (now : Z) (ls : list (Z * DhcpLease)) : list (Z * DhcpLease) :=
  List.filter (λ kv, negb (expiry kv.2 <=? now)) ls.

Section WithEnv.
Context (env : Env).

Definition getCurrentTimeSec : M Z := external (λ n, u32 (u64 (timer_us env n) / 1000000)).
Definition getCurrentTimeMs : M Z := external (λ n, u64 (timer_us env n) / 1000).

Definition addressDeclined (ip : Z) : M bool :=
  nowMs ← getCurrentTimeMs;
  t ← gets declined;
  mret (Declined.isDeclined ip nowMs t).

(** [None] is "free"; an owner is the MAC the code stores in [ownerMac]. *)
Definition probeIp (ip : Z) : M (option bytes) :=
  a ← external (λ n, arpProbeIp env n ip);
  match a with
  | Some owner => mret (Some owner)
  | None =>
      p ← external (λ n, icmpProbeIp env n ip);
      if (p : bool) then
        a ← external (λ n, arpProbeIp env n ip);
        mret (Some (default (replicate 6 0) a))
      else mret None
  end.

(** Step 3 of [selectIp]. *)
Fixpoint scan (fuel : nat) (ip : Z) : M Z :=
  match fuel with
  | O => λ _, OutOfFuel
  | S f =>
      c ← gets cfg;
      if negb (ip <=? rangeEnd c) then mret 0
      else if ip =? serverIp c then scan f (nextIp ip)
      else
        ls ← gets leases;
        match map_find ip ls with
        | Some _ => scan f (nextIp ip)
        | None =>
            refused ← addressDeclined ip;
            if (refused : bool) then scan f (nextIp ip)
            else
              p ← probeIp ip;
              match p with
              | Some _ => scan f (nextIp ip)
              | None => mret ip
              end
        end
  end.

Definition selectIp (clientMac : bytes) : M Z :=
  c ← gets cfg;
  ls ← gets leases;
  match staticChoice (staticBindings c) clientMac ls with
  | Some ip => mret ip
  | None =>
      match leaseOf clientMac ls with
      | Some ip => mret ip
      | None => scan kScanFuel (rangeStart c)
      end
  end.

Definition removeExpiredLeases : M unit :=
  now ← getCurrentTimeSec;
  modify (λ s, set_leases (purge now (leases s)) s).

Definition tableSize (s : Server) : Z := Z.of_nat (length (leases s)).

Definition canAddLeaseEntry (ip : Z) : M bool :=
  ls ← gets leases;
  match map_find ip ls with
  | Some _ => mret true
  | None =>
      c ← gets cfg;
      n ← gets tableSize;
      _ ← (if maxLeaseEntriesEffective c <=? n then removeExpiredLeases else mret tt);
      n ← gets tableSize;
      if n <? maxLeaseEntriesEffective c then mret true
      else
        _ ← modify (λ s, set_rejects (u32 (leaseLimitRejects s + 1)) s);
        mret false
  end.

Definition addLease (m : bytes) (ip : Z) (hostname : bytes) : M unit :=
  now ← getCurrentTimeSec;
  c ← gets cfg;
  modify (λ s, set_leases
    (map_insert ip (mkLease m ip (u32 (now + leaseTimeSec c)) hostname) (leases s)) s).

Definition reserveOffer (m : bytes) (ip : Z) (hostname : bytes) : M bool :=
  ls ← gets leases;
  let fresh :=
    ok ← canAddLeaseEntry ip;
    if negb ok then mret false
    else
      now ← getCurrentTimeSec;
      _ ← modify (λ s, set_leases
            (map_insert ip (mkLease m ip (u32 (now + kOfferHoldSec)) hostname) (leases s)) s);
      mret true in
  match map_find ip ls with
  | Some l =>
      now ← getCurrentTimeSec;
      if u32 (now + kOfferHoldSec) <? expiry l then
        _ ← (if bool_decide (hostname = []) then mret tt
             else modify (λ s, set_leases
               (map_insert ip (mkLease (mac l) (DhcpState.ip l) (expiry l) hostname) (leases s)) s));
        mret true
      else fresh
  | None => fresh
  end.

(** ** Questions other parts of the firmware ask *)

Definition clientHostnameByMac (m : bytes) : M bytes :=
  now ← getCurrentTimeSec;
  ls ← gets leases;
  mret match List.find (λ kv, negb (expiry kv.2 <=? now) && bytes_eqb (mac kv.2) m &&
                              negb (bool_decide (hostname kv.2 = []))) ls with
       | Some kv => hostname kv.2
       | None => []
       end.

Definition arpFindIp (m : bytes) (t : list (Z * bytes)) : option Z :=
  fst <$> List.find (λ e, bytes_eqb e.2 m) t.
Definition arpFindMac (ip : Z) (t : list (Z * bytes)) : option bytes :=
  snd <$> List.find (λ e, e.1 =? ip) t.

Definition clientIpByMac (m : bytes) : M (option Z) :=
  now ← getCurrentTimeSec;
  ls ← gets leases;
  match List.find (λ kv, negb (expiry kv.2 <=? now) && bytes_eqb (mac kv.2) m) ls with
  | Some kv => mret (Some kv.1)
  | None => t ← external (arpTable env); mret (arpFindIp m t)
  end.

Definition getMacByIp (ip : Z) : M (option bytes) :=
  ls ← gets leases; mret (mac <$> map_find ip ls).

Definition macByIpArp (ip : Z) : M (option bytes) :=
  t ← external (arpTable env); mret (arpFindMac ip t).

Definition getLeases : M (list DhcpLease) := ls ← gets leases; mret (snd <$> ls).

End WithEnv.

Definition nameServerIp (c : Config) : Z :=
  if bytes_eqb (dnsMode c) (lit "manual") && negb (dnsManualIp c =? 0)
  then dnsManualIp c else serverGateway c.

(** ** What the questions answer *)

Definition secAt (env : Env) (n : nat) : Z := u32 (u64 (timer_us env n) / 1000000).
Definition msAt (env : Env) (n : nat) : Z := u64 (timer_us env n) / 1000.

Lemma time_sec_spec env s (Q : Z → Server → Prop) :
  (∀ s', ticked s s' → Q (secAt env (tick s)) s') → spec (getCurrentTimeSec env) s Q.
Proof. intros H. apply spec_external_ticked. intros. by apply H. Qed.

Lemma time_ms_spec env s (Q : Z → Server → Prop) :
  (∀ s', ticked s s' → Q (msAt env (tick s)) s') → spec (getCurrentTimeMs env) s Q.
Proof. intros H. apply spec_external_ticked. intros. by apply H. Qed.

Lemma addressDeclined_spec env ip0 s (Q : bool → Server → Prop) :
  (∀ s', ticked s s' → Q (Declined.isDeclined ip0 (msAt env (tick s)) (declined s)) s') →
  spec (addressDeclined env ip0) s Q.
Proof.
  intros H. unfold addressDeclined. mstep. apply time_ms_spec. intros s1 H1.
  mstep. mstep. mstep. rewrite (ticked_declined _ _ H1). by apply H.
Qed.

(** What a probe found out, and when. *)
Definition probeSays (env : Env) (from : nat) (ip0 : Z) (r : option bytes) : Prop :=
  ∃ n, (from <= n)%nat ∧
    match r with
    | None => arpProbeIp env n ip0 = None ∧ icmpProbeIp env (S n) ip0 = false
    | Some owner => arpProbeIp env n ip0 = Some owner ∨
        (icmpProbeIp env (S n) ip0 = true ∧
         owner = default (replicate 6 0) (arpProbeIp env (S (S n)) ip0))
    end.

Lemma probeIp_spec env ip0 s (Q : option bytes → Server → Prop) :
  (∀ r s', ticked s s' → probeSays env (tick s) ip0 r → Q r s') →
  spec (probeIp env ip0) s Q.
Proof.
  intros H. unfold probeIp. mstep. apply spec_external. cbn.
  destruct (arpProbeIp env (tick s) ip0) as [owner|] eqn:E1.
  - mstep. apply H; [split; [split|]; cbn; (done || lia)|].
    exists (tick s). split; [done|]. by left.
  - mstep. apply spec_external. cbn.
    destruct (icmpProbeIp env (S (tick s)) ip0) eqn:E2.
    + mstep. apply spec_external. cbn. mstep.
      apply H; [split; [split|]; cbn; (done || lia)|].
      exists (tick s). split; [done|]. by right.
    + mstep. apply H; [split; [split|]; cbn; (done || lia)|].
      exists (tick s). done.
Qed.

(** ** The scan of the dynamic range *)

(** On the target, [htonl(ntohl(ip) + 1)] of an address not ending in [.255]
    adds one to the most significant byte of the word. *)
Lemma nextIp_step ip0 : is_u32 ip0 → ip0 / 16777216 < 255 → nextIp ip0 = ip0 + 16777216.
Proof.
  intros Hu Hd.
  assert (Hn : ntohl (ip0 + 16777216) = ntohl ip0 + 1).
  { unfold ntohl, of_be4, of_le4. word_unfold.
    change (2 ^ 32) with 4294967296 in *.
    replace ((ip0 + 16777216) mod 256) with (ip0 mod 256) by zdm.
    replace ((ip0 + 16777216) / 256 mod 256) with (ip0 / 256 mod 256) by zdm.
    replace ((ip0 + 16777216) / 65536 mod 256) with (ip0 / 65536 mod 256) by zdm.
    replace ((ip0 + 16777216) / 16777216 mod 256) with (ip0 / 16777216 mod 256 + 1) by zdm.
    lia. }
  unfold nextIp, htonl. rewrite u32_small.
  - rewrite <- Hn. apply ntohl_involutive. word_lia.
  - rewrite <- Hn. apply ntohl_range.
Qed.

(** An address the scan may return. *)
Definition scanAccepts (env : Env) (s : Server) (ip0 : Z) : Prop :=
  ip0 <= rangeEnd (cfg s) ∧ ip0 ≠ serverIp (cfg s) ∧ map_find ip0 (leases s) = None ∧
  (∃ n, (tick s <= n)%nat ∧ Declined.isDeclined ip0 (msAt env n) (declined s) = false) ∧
  probeSays env (tick s) ip0 None.

Lemma probeSays_mono env n m ip0 r : (n <= m)%nat → probeSays env m ip0 r → probeSays env n ip0 r.
Proof. intros Hle (k & Hk & H). exists k. split; [lia|done]. Qed.

Lemma scanAccepts_ticked env s s' ip0 : ticked s s' → scanAccepts env s' ip0 → scanAccepts env s ip0.
Proof.
  intros Ht (H1 & H2 & H3 & (n & Hn & H4) & H5).
  pose proof (moved_tick _ _ (ticked_moved _ _ Ht)).
  rewrite (ticked_cfg _ _ Ht), (ticked_leases _ _ Ht), (ticked_declined _ _ Ht) in *.
  split_and!; try done.
  - exists n. split; [lia|done].
  - by eapply probeSays_mono.
Qed.

Lemma scan_spec env fuel ip0 s : is_u32 ip0 →
  rangeEnd (cfg s) / 16777216 < 255 → (255 - ip0 / 16777216 < Z.of_nat fuel) →
  spec (scan env fuel ip0) s (λ r s', ticked s s' ∧ (r = 0 ∨
    (scanAccepts env s r ∧ ∃ k, 0 <= k ∧ r = ip0 + k * 16777216))).
Proof.
  revert ip0 s. induction fuel as [|f IH]; intros ip0 s Hu He Hf; [word_lia|]. cbn [scan].
  mstep. mstep. destruct (Z.leb_spec ip0 (rangeEnd (cfg s))) as [Hle|]; cbn [negb].
  2: { mstep. split; [done|]. by left. }
  assert (Hd : ip0 / 16777216 < 255) by (word_unfold; zdm).
  assert (Hnext : ∀ s1, ticked s s1 → spec (scan env f (nextIp ip0)) s1
    (λ r s', ticked s s' ∧ (r = 0 ∨ (scanAccepts env s r ∧ ∃ k, 0 <= k ∧ r = ip0 + k * 16777216)))).
  { intros s1 H1. rewrite nextIp_step by done.
    eapply spec_mono; [|apply IH; [word_lia|by rewrite (ticked_cfg _ _ H1)|zdm]].
    intros r s' (H2 & Hr). split; [by etrans|]. destruct Hr as [|[Ha (k & Hk & ->)]]; [by left|right].
    split; [by eapply scanAccepts_ticked|]. exists (k + 1). lia. }
  destruct (Z.eqb_spec ip0 (serverIp (cfg s))) as [|Hns]; [by apply Hnext|].
  mstep. mstep. destruct (map_find ip0 (leases s)) eqn:Hfind; [by apply Hnext|].
  mstep. apply addressDeclined_spec. intros s1 H1.
  destruct (Declined.isDeclined ip0 _ _) eqn:Hdec; [by apply Hnext|].
  mstep. apply probeIp_spec. intros p s2 H2 Hp.
  destruct p as [owner|]; [apply Hnext; by etrans|]. mstep. split; [by etrans|]. right.
  split; [|exists 0; lia]. split_and!; try done.
  - by exists (tick s).
  - eapply probeSays_mono; [|done]. apply (moved_tick _ _ (ticked_moved _ _ H1)).
Qed.

(** ** Choosing an address *)

Lemma staticChoice_Some bs m ls ip0 : staticChoice bs m ls = Some ip0 →
  map_find ip0 ls = None ∧ ∃ e, e ∈ bs ∧ sEnabled e = true ∧ sMac e = m ∧ sIp e = ip0.
Proof.
  induction bs as [|e bs IH]; cbn [staticChoice]; [done|].
  assert (Hcont : staticChoice bs m ls = Some ip0 → map_find ip0 ls = None ∧
    ∃ e', e' ∈ e :: bs ∧ sEnabled e' = true ∧ sMac e' = m ∧ sIp e' = ip0).
  { intros (H & e' & ? & ?)%IH. split; [done|]. exists e'. split; [by right|done]. }
  destruct (sEnabled e) eqn:Een; cbn [negb]; [|done].
  destruct (bytes_eqb (sMac e) m) eqn:Em; [|done].
  destruct (map_find (sIp e) ls) eqn:Ef; [done|]. intros [= <-]. split; [done|].
  exists e. split; [by left|]. split; [done|]. split; [by apply bytes_eqb_eq|done].
Qed.

Lemma find_Some_elem {A} (p : A → bool) l x : List.find p l = Some x → x ∈ l ∧ p x = true.
Proof. intros [? ?]%List.find_some. by rewrite list_elem_of_In. Qed.

Lemma leaseOf_Some m ls ip0 : map_sorted ls → leaseOf m ls = Some ip0 →
  ∃ l, map_find ip0 ls = Some l ∧ mac l = m.
Proof.
  unfold leaseOf. rewrite fmap_Some. intros Hs ([k l] & [Hin Hm]%find_Some_elem & ->).
  exists l. split; [by apply map_find_elem|by apply bytes_eqb_eq].
Qed.

Lemma isStaticBinding_elem c m ip0 : isStaticBindingForMac c m ip0 = true ↔
  ∃ e, e ∈ staticBindings c ∧ sEnabled e = true ∧ sMac e = m ∧ sIp e = ip0.
Proof.
  unfold isStaticBindingForMac. rewrite existsb_exists. setoid_rewrite <- list_elem_of_In.
  setoid_rewrite andb_true_iff. setoid_rewrite andb_true_iff. setoid_rewrite Z.eqb_eq.
  setoid_rewrite bytes_eqb_eq. naive_solver.
Qed.

(** Where the address chosen for a client comes from. *)
Inductive choice (env : Env) (s : Server) (m : bytes) : Z → Prop :=
  | choose_none : choice env s m 0
  | choose_static ip0 : isStaticBindingForMac (cfg s) m ip0 = true →
      map_find ip0 (leases s) = None → choice env s m ip0
  | choose_lease ip0 l : map_find ip0 (leases s) = Some l → mac l = m → choice env s m ip0
  | choose_scan k : 0 <= k → scanAccepts env s (rangeStart (cfg s) + k * 16777216) →
      choice env s m (rangeStart (cfg s) + k * 16777216).

Lemma selectIp_spec env m s : is_u32 (rangeStart (cfg s)) →
  rangeEnd (cfg s) / 16777216 < 255 → map_sorted (leases s) →
  spec (selectIp env m) s (λ r s', ticked s s' ∧ choice env s m r).
Proof.
  intros Hu He Hs. unfold selectIp. mstep. mstep. mstep. mstep.
  destruct (staticChoice _ _ _) as [ip0|] eqn:E1.
  { mstep. split; [done|]. apply staticChoice_Some in E1 as [? ?].
    apply choose_static; [by apply isStaticBinding_elem|done]. }
  destruct (leaseOf _ _) as [ip0|] eqn:E2.
  { mstep. split; [done|]. apply leaseOf_Some in E2 as (l & ? & ?); [|done].
    by eapply choose_lease. }
  eapply spec_mono; [|apply scan_spec; [done|done|]].
  - intros r s' (Ht & [->|[Ha (k & Hk & ->)]]); (split; [done|]); by constructor.
  - unfold kScanFuel. word_unfold. zdm.
Qed.

(** ** The table's invariant *)

(** One entry per address, filed under it, and never more than the cap. *)
Record inv (s : Server) : Prop := {
  inv_sorted : map_sorted (leases s);
  inv_keyed : Forall (λ kv, ip kv.2 = kv.1) (leases s);
  inv_cap : tableSize s <= maxLeaseEntriesEffective (cfg s);
}.

Lemma purge_length now ls : (length (purge now ls) <= length ls)%nat.
Proof. apply List.filter_length_le. Qed.

Lemma purge_find now ls ip0 : map_sorted ls → map_find ip0 (purge now ls) =
  match map_find ip0 ls with
  | Some l => if expiry l <=? now then None else Some l
  | None => None
  end.
Proof.
  intros Hs. unfold purge. rewrite map_find_filter by done.
  destruct (map_find ip0 ls) as [l|]; [|done]. cbn [snd]. by destruct (expiry l <=? now).
Qed.

Lemma inv_purge now s s' : inv s → leases s' = purge now (leases s) → cfg s' = cfg s → inv s'.
Proof.
  intros [H1 H2 H3] Hl Hc. pose proof (purge_length now (leases s)).
  split; rewrite ?Hc; unfold tableSize in *; rewrite Hl; unfold purge; auto with stdmap.
  unfold purge in *. lia.
Qed.

Lemma inv_same s s' : inv s → leases s' = leases s → cfg s' = cfg s → inv s'.
Proof. intros [H1 H2 H3] Hl Hc. split; unfold tableSize in *; by rewrite ?Hl, ?Hc. Qed.

Lemma inv_insert s s' ip0 l : inv s → ip l = ip0 →
  leases s' = map_insert ip0 l (leases s) → cfg s' = cfg s →
  (map_find ip0 (leases s) = None → tableSize s < maxLeaseEntriesEffective (cfg s)) → inv s'.
Proof.
  intros [H1 H2 H3] Hip Hl Hc Hroom. split; rewrite ?Hc, ?Hl; auto with stdmap.
  unfold tableSize in *. rewrite Hl, map_insert_length.
  destruct (map_find ip0 (leases s)); [done|]. specialize (Hroom eq_refl). lia.
Qed.

Lemma inv_erase s s' ip0 : inv s → leases s' = map_erase ip0 (leases s) → cfg s' = cfg s → inv s'.
Proof.
  intros [H1 H2 H3] Hl Hc. split; rewrite ?Hc, ?Hl; auto with stdmap.
  unfold tableSize in *. rewrite Hl. pose proof (map_erase_length ip0 (leases s)). lia.
Qed.

(** ** The operations on the table *)

Lemma removeExpired_spec env s (Q : unit → Server → Prop) :
  (∀ s', moved s s' → leases s' = purge (secAt env (tick s)) (leases s) → Q tt s') →
  spec (removeExpiredLeases env) s Q.
Proof.
  intros H. unfold removeExpiredLeases. mstep. apply time_sec_spec. intros s1 H1. mstep.
  apply H.
  - etrans; [by apply ticked_moved|]. by split.
  - cbn. by rewrite (ticked_leases _ _ H1).
Qed.

(** The table is as it was, or the expired entries are gone. *)
Definition maybePurged (env : Env) (s s' : Server) : Prop :=
  leases s' = leases s ∨
  ∃ n, (tick s <= n)%nat ∧ leases s' = purge (secAt env n) (leases s).

Lemma maybePurged_inv env s s' : inv s → moved s s' → maybePurged env s s' → inv s'.
Proof.
  intros Hi Hm [Hl|(n & _ & Hl)]; pose proof (moved_cfg _ _ Hm);
    eauto using inv_same, inv_purge.
Qed.

Lemma maybePurged_None env s s' ip0 : map_sorted (leases s) → maybePurged env s s' →
  map_find ip0 (leases s) = None → map_find ip0 (leases s') = None.
Proof. intros Hs [->|(n & _ & ->)] Hn; [done|]. by rewrite purge_find, Hn. Qed.

Lemma canAdd_spec env ip0 s (Q : bool → Server → Prop) :
  (∀ b s', moved s s' → maybePurged env s s' →
     (map_find ip0 (leases s) ≠ None → b = true ∧ leases s' = leases s) →
     (b = true → map_find ip0 (leases s) = None →
        tableSize s' < maxLeaseEntriesEffective (cfg s)) →
     (b = false → maxLeaseEntriesEffective (cfg s) <= tableSize s') → Q b s') →
  spec (canAddLeaseEntry env ip0) s Q.
Proof.
  intros H. unfold canAddLeaseEntry. mstep. mstep.
  destruct (map_find ip0 (leases s)) as [l|] eqn:Hf.
  { mstep. apply H; [done|by left|done|done|done]. }
  mstep. mstep. mstep. mstep. mstep.
  assert (Hend : ∀ s1, moved s s1 → maybePurged env s s1 → spec
    (n ← gets tableSize; if n <? maxLeaseEntriesEffective (cfg s) then mret true
       else _ ← modify (λ s, set_rejects (u32 (leaseLimitRejects s + 1)) s); mret false) s1 Q).
  { intros s1 Hm Hp. mstep. mstep.
    destruct (Z.ltb_spec (tableSize s1) (maxLeaseEntriesEffective (cfg s))).
    - mstep. by apply H.
    - mstep. mstep. mstep. apply H; [|done|done|done|done]. etrans; [exact Hm|]. by split. }
  destruct (_ <=? _).
  - apply removeExpired_spec. intros s1 Hm Hl. apply Hend; [done|]. right. by exists (tick s).
  - mstep. apply Hend; [done|by left].
Qed.

Lemma addLease_spec env m ip0 h s (Q : unit → Server → Prop) :
  (∀ s', moved s s' → leases s' = map_insert ip0
     (mkLease m ip0 (u32 (secAt env (tick s) + leaseTimeSec (cfg s))) h) (leases s) → Q tt s') →
  spec (addLease env m ip0 h) s Q.
Proof.
  intros H. unfold addLease. mstep. apply time_sec_spec. intros s1 H1. mstep. mstep. mstep.
  apply H.
  - etrans; [by apply ticked_moved|]. by split.
  - cbn. by rewrite (ticked_leases _ _ H1), (ticked_cfg _ _ H1).
Qed.

(** What a reservation leaves in the table. *)
Inductive reserved (env : Env) (m : bytes) (ip0 : Z) (s : Server) : bool → Server → Prop :=
  | reserve_refused s' : moved s s' → maybePurged env s s' → map_find ip0 (leases s) = None →
      reserved env m ip0 s false s'
  | reserve_kept l h s' : moved s s' → map_find ip0 (leases s) = Some l →
      u32 (secAt env (tick s) + kOfferHoldSec) < expiry l →
      leases s' = leases s ∨ leases s' = map_insert ip0 (mkLease (mac l) (ip l) (expiry l) h) (leases s) →
      reserved env m ip0 s true s'
  | reserve_fresh n h s1 s' : moved s s1 → moved s1 s' → maybePurged env s s1 →
      (∀ l, map_find ip0 (leases s) = Some l → leases s1 = leases s ∧
         expiry l <= u32 (secAt env (tick s) + kOfferHoldSec)) →
      (map_find ip0 (leases s) = None → tableSize s1 < maxLeaseEntriesEffective (cfg s)) →
      leases s' = map_insert ip0 (mkLease m ip0 (u32 (secAt env n + kOfferHoldSec)) h) (leases s1) →
      reserved env m ip0 s true s'.

Lemma reserveOffer_spec env m ip0 h s : spec (reserveOffer env m ip0 h) s (reserved env m ip0 s).
Proof.
  unfold reserveOffer. mstep. mstep. cbv zeta.
  assert (Hfresh : ∀ s0, ticked s s0 →
    (∀ l, map_find ip0 (leases s) = Some l → expiry l <= u32 (secAt env (tick s) + kOfferHoldSec)) →
    spec (ok ← canAddLeaseEntry env ip0;
          if negb ok then mret false
          else now ← getCurrentTimeSec env;
               _ ← modify (λ s, set_leases (map_insert ip0
                     (mkLease m ip0 (u32 (now + kOfferHoldSec)) h) (leases s)) s);
               mret true) s0 (reserved env m ip0 s)).
  { intros s0 H0 Hexp. mstep. apply canAdd_spec. intros b s1 Hm Hp Hsome Hnone _.
    rewrite (ticked_leases _ _ H0), (ticked_cfg _ _ H0) in *.
    assert (Hm' : moved s s1) by (etrans; [by apply ticked_moved|done]).
    assert (Hp' : maybePurged env s s1).
    { unfold maybePurged in *. rewrite (ticked_leases _ _ H0) in Hp.
      pose proof (moved_tick _ _ (ticked_moved _ _ H0)).
      destruct Hp as [|(n & ? & ?)]; [by left|right]. exists n. split; [lia|done]. }
    destruct b; cbn [negb].
    - mstep. apply time_sec_spec. intros s2 H2. mstep. mstep. mstep.
      eapply (reserve_fresh _ _ _ _ (tick s1) h s1); [done| |done| |auto|].
      + etrans; [by apply ticked_moved|]. by split.
      + intros l Hl. split; [|auto]. apply Hsome. congruence.
      + cbn. by rewrite (ticked_leases _ _ H2).
    - mstep. apply reserve_refused; [done|done|].
      destruct (map_find ip0 (leases s)); [|done]. by destruct Hsome. }
  destruct (map_find ip0 (leases s)) as [l|] eqn:Hf.
  - mstep. apply time_sec_spec. intros s1 H1.
    destruct (Z.ltb_spec (u32 (secAt env (tick s) + kOfferHoldSec)) (expiry l)).
    + mstep. case_bool_decide; mstep; mstep; eapply (reserve_kept _ _ _ _ l h); try done.
      * by apply ticked_moved.
      * left. by apply ticked_leases.
      * etrans; [by apply ticked_moved|]. by split.
      * right. cbn. by rewrite (ticked_leases _ _ H1).
    + apply Hfresh; [done|]. by intros ? [= <-].
  - apply Hfresh; [done|done].
Qed.

Lemma reserved_inv env m ip0 s b s' : inv s → reserved env m ip0 s b s' → inv s' ∧ moved s s'.
Proof.
  intros Hi [? Hm Hp Hn|l h ? Hm Hf He Hl|n h s1 ? Hm Hm' Hp Hsome Hnone Hl].
  - eauto using maybePurged_inv.
  - split; [|done]. pose proof (moved_cfg _ _ Hm). destruct Hl as [Hl|Hl].
    + by eapply inv_same.
    + eapply inv_insert; [exact Hi| |exact Hl|done|congruence]. cbn.
      pose proof (inv_keyed _ Hi) as Hk. rewrite Forall_forall in Hk.
      apply (Hk (ip0, l)). apply map_find_elem; [apply Hi|done].
  - split; [|by etrans]. assert (Hi1 : inv s1) by eauto using maybePurged_inv.
    eapply inv_insert; [exact Hi1| |exact Hl|by apply moved_cfg|]; [done|].
    intros Hn. rewrite (moved_cfg _ _ Hm). apply Hnone.
    destruct (map_find ip0 (leases s)) as [l|] eqn:Hf; [|done].
    destruct (Hsome l eq_refl) as [Heq _]. congruence.
Qed.

End DhcpLeases.
