(* ===== verification/DhcpServer.v ===== *)
(** * The DHCP server: packet handler, task loop, name lookup

    [handleDhcpMessage] of src/dhcp/DhcpServer.cpp and everything it calls, the
    task loop that feeds it, [findNameByIp] and [isAddressAllowed]; the server
    survives every sequence of datagrams. *)
From S2P Require Import Prelude StdMap DeclinedAddresses AllowedList.
From S2P Require Import ClientName DhcpMessage DhcpState DhcpLeases.
Import DhcpMessage DhcpState DhcpLeases.

Module DhcpServer.

Definition DHCP_CLIENT_PORT : Z := 68.
Definition DHCP_BROADCAST_IP : Z := 4294967295.

(** ** Text for the REST log *)

Definition macToStr (m : bytes) : bytes := AllowedList.formatMac m.

Definition ipToStr (ipNet : Z) : bytes :=
  match le4 ipNet with
  | [a; b; c; d] => dec a ++ 46 :: dec b ++ 46 :: dec c ++ 46 :: dec d
  | _ => []
  end.

(** [static_cast<int32_t>] of a [uint32_t]. *)
Definition i32 (z : Z) : Z := if z <? 2 ^ 31 then z else z - 2 ^ 32.

Definition logDhcpRest (event m : bytes) (ipNet maskNet gatewayNet : Z) (gatewaySent : bool)
    (dnsNet leaseTime : Z) : M unit :=
  modify (emit (RestEvent event (macToStr m)
    (if ipNet =? 0 then [] else ipToStr ipNet)
    (if maskNet =? 0 then [] else ipToStr maskNet)
    (if gatewaySent then ipToStr gatewayNet else [])
    (if dnsNet =? 0 then [] else ipToStr dnsNet)
    leaseTime)).

(** ** Replies *)

Definition replyDest (relayIp : Z) : Z :=
  if negb (relayIp =? 0) then relayIp else htonl DHCP_BROADCAST_IP.

Definition sendUdp (destIp destPort : Z) (data : bytes) : M unit :=
  modify (emit (Sent destIp destPort data)).

(** The datagram of an OFFER or an ACK. *)
Definition leaseReply (c : Config) (type : Z) (clientMac : bytes) (xid yiaddr relayIp : Z) : bytes :=
  replyHeader xid yiaddr (serverIp c) relayIp clientMac ++
  leaseOptions type (serverIp c) (serverNetmask c) (resolveRouter c clientMac).2
    (resolveRouter c clientMac).1 (resolveDnsServer c clientMac) (leaseTimeSec c).

Definition nakReply (c : Config) (clientMac : bytes) (xid relayIp : Z) : bytes :=
  replyHeader xid 0 0 relayIp clientMac ++ nakOptions (serverIp c).

(** The tail shared by the two lease replies: the datagram and its REST event. *)
Definition sendLeaseReply (event : bytes) (type : Z) (clientMac : bytes) (xid yiaddr relayIp : Z)
  : M unit :=
  c ← gets cfg;
  _ ← sendUdp (replyDest relayIp) DHCP_CLIENT_PORT (leaseReply c type clientMac xid yiaddr relayIp);
  logDhcpRest event clientMac yiaddr (serverNetmask c) (resolveRouter c clientMac).1
    (resolveRouter c clientMac).2 (resolveDnsServer c clientMac) (i32 (leaseTimeSec c)).

Definition sendDhcpAck (clientMac : bytes) (xid assignedIp relayIp : Z) : M unit :=
  sendLeaseReply (lit "ACK") DHCP_ACK clientMac xid assignedIp relayIp.

Definition sendDhcpNak (clientMac : bytes) (xid relayIp : Z) : M unit :=
  c ← gets cfg;
  _ ← sendUdp (replyDest relayIp) DHCP_CLIENT_PORT (nakReply c clientMac xid relayIp);
  logDhcpRest (lit "NAK") clientMac 0 0 0 false 0 0.

Section WithEnv.
Context (env : Env).

(** The address of an OFFER: the requested one when it may be honoured,
    otherwise a choice of the server's; [0] is "none". *)
Definition honourRequested (clientMac : bytes) (requested : Z) : M Z :=
  c ← gets cfg;
  if negb (requested =? 0) &&
     (isIpInRange c requested || isStaticBindingForMac c clientMac requested) then
    if isStaticBindingForMac c clientMac requested then mret requested
    else
      refused ← addressDeclined env requested;
      if (refused : bool) then mret 0
      else
        p ← probeIp env requested;
        match p with
        | None => mret requested
        | Some _ => mret 0
        end
  else mret 0.

Definition sendDhcpOffer (clientMac : bytes) (xid requested relayIp : Z) (clientName : bytes)
  : M unit :=
  offerIp ← honourRequested clientMac requested;
  offerIp ← (if offerIp =? 0 then selectIp env clientMac else mret offerIp);
  if offerIp =? 0 then mret tt
  else
    ok ← reserveOffer env clientMac offerIp clientName;
    if negb ok then mret tt
    else sendLeaseReply (lit "OFFER") DHCP_OFFER clientMac xid offerIp relayIp.

(** ** The packet handler *)

(** May the address of a REQUEST be confirmed to this client? *)
Definition decideAck (chaddr : bytes) (assignIp : Z) : M bool :=
  c ← gets cfg;
  if isStaticBindingForMac c chaddr assignIp then mret true
  else
    ls ← gets leases;
    match map_find assignIp ls with
    | Some l => mret (bytes_eqb (mac l) chaddr)
    | None =>
        refused ← addressDeclined env assignIp;
        if (refused : bool) then mret false
        else
          p ← probeIp env assignIp;
          match p with
          | None => mret true
          | Some owner => mret (bytes_eqb owner chaddr)
          end
    end.

Definition onRequest (chaddr : bytes) (xid ciaddr giaddr : Z) (o : Options) (clientName : bytes)
  : M unit :=
  c ← gets cfg;
  if (serverId o =? 0) || (serverId o =? serverIp c) then
    let assignIp := if negb (requestedIp o =? 0) then requestedIp o else ciaddr in
    if negb (assignIp =? 0) && negb (assignIp =? serverIp c) &&
       (isIpInRange c assignIp || isStaticBindingForMac c chaddr assignIp) then
      ack ← decideAck chaddr assignIp;
      if (ack : bool) then
        room ← canAddLeaseEntry env assignIp;
        if negb room then sendDhcpNak chaddr xid giaddr
        else
          _ ← sendDhcpAck chaddr xid assignIp giaddr;
          addLease env chaddr assignIp clientName
      else sendDhcpNak chaddr xid giaddr
    else sendDhcpNak chaddr xid giaddr
  else mret tt.

Definition onRelease (ciaddr : Z) : M unit :=
  ls ← gets leases;
  match map_find ciaddr ls with
  | None => mret tt
  | Some l =>
      _ ← logDhcpRest (lit "RELEASE") (mac l) ciaddr 0 0 false 0 0;
      modify (λ s, set_leases (map_erase ciaddr (leases s)) s)
  end.

Definition onDecline (chaddr : bytes) (requested : Z) : M unit :=
  ls ← gets leases;
  _ ← (match map_find requested ls with
       | Some l =>
           if bytes_eqb (mac l) chaddr
           then modify (λ s, set_leases (map_erase requested (leases s)) s) else mret tt
       | None => mret tt
       end);
  nowMs ← getCurrentTimeMs env;
  _ ← modify (λ s, set_declined (snd (Declined.add requested nowMs (declined s))) s);
  _ ← getCurrentTimeMs env;
  logDhcpRest (lit "DECLINE") chaddr requested 0 0 false 0 0.

(** The [switch] on the message type. *)
Definition dispatch (chaddr : bytes) (xid ciaddr giaddr : Z) (o : Options) (clientName : bytes)
  : M unit :=
  if msgType o =? DHCP_DISCOVER then
    sendDhcpOffer chaddr xid (requestedIp o) giaddr clientName
  else if msgType o =? DHCP_REQUEST then onRequest chaddr xid ciaddr giaddr o clientName
  else if msgType o =? DHCP_RELEASE then onRelease ciaddr
  else if msgType o =? DHCP_DECLINE then onDecline chaddr (requestedIp o)
  else mret tt.

Definition handleDhcpMessage (buf : bytes) (len : nat) : M bool :=
  if (len <? DHCP_MIN_MSGSIZE)%nat then mret false
  else
    cookie ← lift (rd32le buf offCookie);
    if negb (ntohl cookie =? DHCP_MAGIC_COOKIE) then mret false
    else
      o ← lift (parseOptions buf);
      if msgType o =? 0 then mret false
      else
        clientName ← (if (offOptions <? len)%nat
                      then lift (ClientName.fromOptions (drop offOptions buf) (len - offOptions))
                      else mret []);
        chaddr ← lift (rdn 6 buf offChaddr);
        c ← gets cfg;
        if negb (AllowedList.isClientAllowed chaddr (allowOnly c) (allowedList c)
                   (allowedStaticRefs c)) then mret false
        else
          xid ← lift (rd32le buf offXid);
          ciaddr ← lift (rd32le buf offCiaddr);
          giaddr ← lift (rd32le buf offGiaddr);
          _ ← dispatch chaddr xid ciaddr giaddr o clientName;
          mret true.

(** ** The task loop

    [recvfrom] either times out or writes a datagram, cut at the buffer's
    size, over the head of the buffer; the rest keeps what it held. *)

Definition kBufBytes : nat := 1024.

Definition receive (data buf : bytes) : bytes :=
  let data := take kBufBytes data in data ++ drop (length data) buf.

(** The turns of the loop for the outcomes of its [recvfrom] calls; it ends
    when [stopRequested_] is seen, which is the end of the list. *)
Fixpoint serverLoop (events : list (option bytes)) (buf : bytes) : M unit :=
  match events with
  | [] => mret tt
  | None :: es =>
      _ ← removeExpiredLeases env; serverLoop es buf
  | Some data :: es =>
      _ ← removeExpiredLeases env;
      let buf := receive data buf in
      _ ← handleDhcpMessage buf (length (take kBufBytes data));
      serverLoop es buf
  end.

(** ** The name lookup of the settings page *)

Record ClientNameResult := mkNameResult { name : bytes; source : bytes; ipNet : Z }.

Definition dropDots (s : bytes) : bytes := drop_while_end (λ c, c =? 46) s.

Definition lookupClientName (m : bytes) : M ClientNameResult :=
  found ← clientIpByMac env m;
  let ip := default 0 found in
  host ← clientHostnameByMac env m;
  if negb (bool_decide (host = [])) then mret (mkNameResult host (lit "lease") ip)
  else
    c ← gets cfg;
    ptr ← (match found with
           | Some a =>
               if negb (nameServerIp c =? 0) then
                 raw ← external (λ n, ptrQuery env n a (nameServerIp c));
                 mret (if bool_decide (raw = []) then []
                       else ClientName.shortLabel (dropDots (ClientName.sanitize raw)))
               else mret []
           | None => mret []
           end);
    if negb (bool_decide (ptr = [])) then mret (mkNameResult ptr (lit "ptr") ip)
    else
      nb ← (match found with
            | Some a =>
                raw ← external (λ n, nbstatQuery env n a);
                mret (if bool_decide (raw = []) then [] else ClientName.sanitize raw)
            | None => mret []
            end);
      if negb (bool_decide (nb = [])) then mret (mkNameResult nb (lit "netbios") ip)
      else mret (mkNameResult [] (lit "none") ip).

(** ** The address filter of the NTP and file servers *)

Definition bindingByIp (c : Config) (ip : Z) : option StaticEntry :=
  List.find (λ e, sEnabled e && (sIp e =? ip)) (staticBindings c).

Definition isClientAddressAllowed (ip : Z) (allowOnly : bool) : M bool :=
  if negb allowOnly then mret true
  else
    c ← gets cfg;
    let ask haveOwner m :=
      AllowedList.isAddressAllowed allowOnly haveOwner m (allowedList c) (allowedStaticRefs c) in
    m ← getMacByIp ip;
    match m with
    | Some m => mret (ask true m)
    | None =>
        m ← macByIpArp env ip;
        match m with
        | Some m => mret (ask true m)
        | None =>
            match bindingByIp c ip with
            | Some e => mret (ask true (sMac e))
            | None => mret (ask false [])
            end
        end
    end.

End WithEnv.

(** ** Reading the packet *)

(** The fields the handler reads from a packet it accepts. *)
Record packet (buf : bytes) (len : nat) (o : Options) (clientName chaddr : bytes)
    (xid ciaddr giaddr : Z) : Prop := {
  packet_long : (DHCP_MIN_MSGSIZE <= len)%nat;
  packet_options : parseOptions buf = Done o;
  packet_typed : msgType o ≠ 0;
  packet_chaddr : rdn 6 buf offChaddr = Done chaddr;
  packet_ciaddr : rd32le buf offCiaddr = Done ciaddr;
}.

(** The handler drops the packet, or decodes it without leaving the buffer and
    runs the admission check and the switch. *)
Lemma handle_cases env buf len : wf_bytes buf → length buf = kBufBytes → (len <= kBufBytes)%nat →
  (∀ s, handleDhcpMessage env buf len s = Done (false, s)) ∨
  ∃ o clientName chaddr xid ciaddr giaddr, packet buf len o clientName chaddr xid ciaddr giaddr ∧
    ∀ s, handleDhcpMessage env buf len s =
      if AllowedList.isClientAllowed chaddr (allowOnly (cfg s)) (allowedList (cfg s))
           (allowedStaticRefs (cfg s))
      then (_ ← dispatch env chaddr xid ciaddr giaddr o clientName; mret true) s
      else Done (false, s).
Proof.
  unfold kBufBytes. intros Hwf Hl Hlen. unfold handleDhcpMessage.
  destruct (Nat.ltb_spec len DHCP_MIN_MSGSIZE) as [|Hmin]; [by left|].
  destruct (rd32le_total buf offCookie) as [cookie ->]; [unfold offCookie; lia|].
  destruct (ntohl cookie =? DHCP_MAGIC_COOKIE) eqn:Hc.
  2: { left. intros s. by rewrite bind_lift_done, Hc. }
  destruct (parseOptions_total buf Hwf) as [o Ho]; [unfold kWalkBytes; lia|]. rewrite Ho.
  destruct (msgType o =? 0) eqn:Ht.
  { left. intros s. rewrite bind_lift_done, Hc. cbn [negb]. by rewrite bind_lift_done, Ht. }
  assert (∃ nm, (if (offOptions <? len)%nat
    then lift (ClientName.fromOptions (drop offOptions buf) (len - offOptions))
    else mret []) = λ s, Done (nm, s)) as [nm Hnm].
  { destruct (Nat.ltb_spec offOptions len); [|by exists []].
    destruct (ClientName.fromOptions_ends (drop offOptions buf) (len - offOptions)) as [nm ->].
    - by apply Forall_drop.
    - rewrite length_drop. unfold offOptions in *. lia.
    - by exists nm. }
  rewrite Hnm.
  pose proof (rdn_total 6 buf offChaddr ltac:(unfold offChaddr; lia)) as Hch.
  destruct (rd32le_total buf offXid) as [xid Hx]; [unfold offXid; lia|].
  destruct (rd32le_total buf offCiaddr) as [ci Hci]; [unfold offCiaddr; lia|].
  destruct (rd32le_total buf offGiaddr) as [gi Hgi]; [unfold offGiaddr; lia|].
  right. exists o, nm, (take 6 (drop offChaddr buf)), xid, ci, gi. split.
  { split; [done|done|by apply Z.eqb_neq|done|done]. }
  intros s. rewrite Hch, Hx, Hci, Hgi. rewrite bind_lift_done, Hc. cbn [negb].
  rewrite bind_lift_done, Ht, bind_const, bind_lift_done, bind_gets.
  destruct (AllowedList.isClientAllowed _ _ _ _); cbn [negb]; [|done].
  by rewrite !bind_lift_done.
Qed.

(** ** What an OFFER and a REQUEST come to *)

(** The settings the scan is proved for: the range does not end in [.255]. *)
Definition conf_ok (c : Config) : Prop :=
  is_u32 (rangeStart c) ∧ rangeEnd c / 16777216 < 255.

(** A requested address that may be honoured. *)
Definition honoured (env : Env) (s : Server) (m : bytes) (ip0 : Z) : Prop :=
  ip0 ≠ 0 ∧
  (isStaticBindingForMac (cfg s) m ip0 = true ∨
   (isIpInRange (cfg s) ip0 = true ∧
    (∃ n, (tick s <= n)%nat ∧ Declined.isDeclined ip0 (msAt env n) (declined s) = false) ∧
    probeSays env (tick s) ip0 None)).

Definition offerable (env : Env) (s : Server) (m : bytes) (requested ip0 : Z) : Prop :=
  (ip0 = requested ∧ honoured env s m ip0) ∨ choice env s m ip0.

Lemma choice_ticked env s s' m ip0 : ticked s s' → choice env s' m ip0 → choice env s m ip0.
Proof.
  intros Ht Hc. pose proof (ticked_cfg _ _ Ht) as Ec. pose proof (ticked_leases _ _ Ht) as El.
  destruct Hc as [|? H1 H2|? l H1 H2|k Hk H]; rewrite ?Ec, ?El in *.
  - constructor.
  - by apply choose_static.
  - by eapply choose_lease.
  - apply choose_scan; [done|]. by eapply scanAccepts_ticked.
Qed.

Lemma honour_spec env m requested s :
  spec (honourRequested env m requested) s (λ r s', ticked s s' ∧
    (r = 0 ∨ (r = requested ∧ honoured env s m r))).
Proof.
  unfold honourRequested. mstep. mstep. unfold honoured.
  destruct (Z.eqb_spec requested 0) as [|Hne]; cbn [negb andb]; [mstep; split; [done|auto]|].
  destruct (isIpInRange (cfg s) requested) eqn:Hr, (isStaticBindingForMac (cfg s) m requested) eqn:Hs;
    cbn [orb]; try (mstep; split; [done|by auto 8]).
  mstep. apply addressDeclined_spec. intros s1 H1.
  destruct (Declined.isDeclined _ _ _) eqn:Hd; [mstep; split; [done|auto]|].
  mstep. apply probeIp_spec. intros p s2 H2 Hp.
  destruct p; mstep; (split; [by etrans|]); [by left|right].
  split; [done|]. split; [done|]. right. split; [done|]. split; [by exists (tick s)|].
  eapply probeSays_mono; [|done]. apply (moved_tick _ _ (ticked_moved _ _ H1)).
Qed.

(** The state after a reply: two effects more. *)
Definition replied (d : bytes) (relayIp : Z) (e : Effect) (s : Server) : Server :=
  emit e (emit (Sent (replyDest relayIp) DHCP_CLIENT_PORT d) s).

Definition leaseEvent (c : Config) (event m : bytes) (yiaddr : Z) : Effect :=
  RestEvent event (macToStr m)
    (if yiaddr =? 0 then [] else ipToStr yiaddr)
    (if serverNetmask c =? 0 then [] else ipToStr (serverNetmask c))
    (if (resolveRouter c m).2 then ipToStr (resolveRouter c m).1 else [])
    (if resolveDnsServer c m =? 0 then [] else ipToStr (resolveDnsServer c m))
    (i32 (leaseTimeSec c)).

Definition nakEvent (m : bytes) : Effect := RestEvent (lit "NAK") (macToStr m) [] [] [] [] 0.

Lemma sendLeaseReply_eq event type m xid y relay s :
  sendLeaseReply event type m xid y relay s =
  Done (tt, replied (leaseReply (cfg s) type m xid y relay) relay (leaseEvent (cfg s) event m y) s).
Proof. done. Qed.

Lemma sendDhcpNak_eq m xid relay s :
  sendDhcpNak m xid relay s = Done (tt, replied (nakReply (cfg s) m xid relay) relay (nakEvent m) s).
Proof. done. Qed.

Lemma spec_done {A} (m : M A) a s s' (Q : A → Server → Prop) :
  m s = Done (a, s') → Q a s' → spec m s Q.
Proof. intros. by exists a, s'. Qed.

(** The outcome of a DISCOVER. *)
Inductive offered (env : Env) (s : Server) (m : bytes) (xid requested relay : Z) : Server → Prop :=
  | offer_none s' : ticked s s' → offered env s m xid requested relay s'
  | offer_full ip0 s0 s' : ticked s s0 → offerable env s m requested ip0 →
      reserved env m ip0 s0 false s' → offered env s m xid requested relay s'
  | offer_made ip0 s0 s1 : ip0 ≠ 0 → ticked s s0 → offerable env s m requested ip0 →
      reserved env m ip0 s0 true s1 →
      offered env s m xid requested relay
        (replied (leaseReply (cfg s) DHCP_OFFER m xid ip0 relay) relay
           (leaseEvent (cfg s) (lit "OFFER") m ip0) s1).

Lemma offer_spec env m xid requested relay h s : conf_ok (cfg s) → inv s →
  spec (sendDhcpOffer env m xid requested relay h) s (λ _ s', offered env s m xid requested relay s').
Proof.
  intros [Hu He] Hi. unfold sendDhcpOffer. mstep. eapply spec_mono; [|apply honour_spec].
  cbv beta. intros r s1 [H1 Hr].
  assert (Hgo : ∀ ip0 s2, ticked s s2 → offerable env s m requested ip0 → spec
    (if ip0 =? 0 then mret tt
     else ok ← reserveOffer env m ip0 h;
          if negb ok then mret tt
          else sendLeaseReply (lit "OFFER") DHCP_OFFER m xid ip0 relay) s2
    (λ _ s', offered env s m xid requested relay s')).
  { intros ip0 s2 H2 Hoff. destruct (Z.eqb_spec ip0 0); [mstep; by apply offer_none|].
    mstep. eapply spec_mono; [|apply reserveOffer_spec]. cbv beta. intros b s3 H3.
    destruct (reserved_inv _ _ _ _ _ _ (inv_same _ _ Hi (ticked_leases _ _ H2) (ticked_cfg _ _ H2)) H3)
      as [_ Hm3].
    destruct b; cbn [negb].
    - eapply spec_done; [apply sendLeaseReply_eq|]. rewrite (moved_cfg _ _ Hm3), (ticked_cfg _ _ H2).
      by eapply offer_made.
    - mstep. by eapply offer_full. }
  mstep. destruct (Z.eqb_spec r 0) as [->|Hne].
  - eapply spec_mono; [|apply selectIp_spec; rewrite ?(ticked_cfg _ _ H1), ?(ticked_leases _ _ H1);
      [done|done|apply Hi]].
    cbv beta. intros ip0 s2 [H2 Hc]. apply Hgo; [by etrans|]. right. by eapply choice_ticked.
  - mstep. apply Hgo; [done|]. left. naive_solver.
Qed.

(** The decision on a REQUEST, with the evidence it rests on. *)
Inductive verdict (env : Env) (s : Server) (m : bytes) (ip0 : Z) : bool → Prop :=
  | verdict_static : isStaticBindingForMac (cfg s) m ip0 = true → verdict env s m ip0 true
  | verdict_lease l : isStaticBindingForMac (cfg s) m ip0 = false →
      map_find ip0 (leases s) = Some l → verdict env s m ip0 (bytes_eqb (mac l) m)
  | verdict_declined : isStaticBindingForMac (cfg s) m ip0 = false →
      map_find ip0 (leases s) = None →
      Declined.isDeclined ip0 (msAt env (tick s)) (declined s) = true → verdict env s m ip0 false
  | verdict_probe r : isStaticBindingForMac (cfg s) m ip0 = false →
      map_find ip0 (leases s) = None →
      Declined.isDeclined ip0 (msAt env (tick s)) (declined s) = false →
      probeSays env (tick s) ip0 r →
      verdict env s m ip0 (match r with None => true | Some owner => bytes_eqb owner m end).

Lemma decideAck_spec env m ip0 s :
  spec (decideAck env m ip0) s (λ b s', ticked s s' ∧ verdict env s m ip0 b).
Proof.
  unfold decideAck. mstep. mstep. destruct (isStaticBindingForMac (cfg s) m ip0) eqn:Hs.
  { mstep. split; [done|by constructor]. }
  mstep. mstep. destruct (map_find ip0 (leases s)) as [l|] eqn:Hf.
  { mstep. split; [done|by constructor]. }
  mstep. apply addressDeclined_spec. intros s1 H1.
  destruct (Declined.isDeclined _ _ _) eqn:Hd; [mstep; split; [done|by constructor]|].
  mstep. apply probeIp_spec. intros p s2 H2 Hp.
  assert (verdict env s m ip0 (match p with None => true | Some owner => bytes_eqb owner m end)).
  { constructor; try done. eapply probeSays_mono; [|done].
    apply (moved_tick _ _ (ticked_moved _ _ H1)). }
  destruct p; mstep; split; (by etrans) || done.
Qed.

(** The address a REQUEST is about, and whether the server may grant it at all. *)
Definition wantedIp (o : Options) (ciaddr : Z) : Z :=
  if negb (requestedIp o =? 0) then requestedIp o else ciaddr.

Definition grantable (c : Config) (m : bytes) (ip0 : Z) : bool :=
  negb (ip0 =? 0) && negb (ip0 =? serverIp c) &&
  (isIpInRange c ip0 || isStaticBindingForMac c m ip0).

(** The outcome of a REQUEST. *)
Inductive answered (env : Env) (s : Server) (m : bytes) (xid ciaddr relay : Z) (o : Options)
  : Server → Prop :=
  | answer_other : serverId o ≠ 0 → serverId o ≠ serverIp (cfg s) →
      answered env s m xid ciaddr relay o s
  | answer_nak s1 : moved s s1 → maybePurged env s s1 →
      (grantable (cfg s) m (wantedIp o ciaddr) = false ∧ leases s1 = leases s) ∨
      (verdict env s m (wantedIp o ciaddr) false ∧ leases s1 = leases s) ∨
      (map_find (wantedIp o ciaddr) (leases s) = None ∧
         maxLeaseEntriesEffective (cfg s) <= tableSize s1) →
      answered env s m xid ciaddr relay o (replied (nakReply (cfg s) m xid relay) relay (nakEvent m) s1)
  | answer_ack s1 n h s' : moved s s1 → maybePurged env s s1 →
      grantable (cfg s) m (wantedIp o ciaddr) = true → verdict env s m (wantedIp o ciaddr) true →
      (map_find (wantedIp o ciaddr) (leases s) ≠ None → leases s1 = leases s) →
      (map_find (wantedIp o ciaddr) (leases s) = None →
         tableSize s1 < maxLeaseEntriesEffective (cfg s)) →
      moved (replied (leaseReply (cfg s) DHCP_ACK m xid (wantedIp o ciaddr) relay) relay
               (leaseEvent (cfg s) (lit "ACK") m (wantedIp o ciaddr)) s1) s' →
      leases s' = map_insert (wantedIp o ciaddr) (mkLease m (wantedIp o ciaddr)
        (u32 (secAt env n + leaseTimeSec (cfg s))) h) (leases s1) →
      answered env s m xid ciaddr relay o s'.

Lemma request_spec env m xid ciaddr relay o h s :
  spec (onRequest env m xid ciaddr relay o h) s (λ _ s', answered env s m xid ciaddr relay o s').
Proof.
  unfold onRequest. mstep. mstep.
  destruct (_ || _) eqn:Hid.
  2: { apply orb_false_iff in Hid as [?%Z.eqb_neq ?%Z.eqb_neq]. mstep. by apply answer_other. }
  clear Hid. cbv zeta. fold (wantedIp o ciaddr). fold (grantable (cfg s) m (wantedIp o ciaddr)).
  destruct (grantable (cfg s) m (wantedIp o ciaddr)) eqn:Hg.
  2: { eapply spec_done; [apply sendDhcpNak_eq|]. apply answer_nak; [done|by left|by left]. }
  mstep. eapply spec_mono; [|apply decideAck_spec]. cbv beta. intros b s1 [H1 Hv].
  destruct b.
  2: { eapply spec_done; [apply sendDhcpNak_eq|]. rewrite (ticked_cfg _ _ H1).
    pose proof (ticked_leases _ _ H1).
    apply answer_nak; [by apply ticked_moved|by left|auto]. }
  mstep. apply canAdd_spec. intros room s2 Hm Hp Hsome Hnone Hfull.
  rewrite (ticked_leases _ _ H1), (ticked_cfg _ _ H1) in *.
  assert (Hm2 : moved s s2) by (etrans; [by apply ticked_moved|done]).
  assert (Hp2 : maybePurged env s s2).
  { unfold maybePurged in *. rewrite (ticked_leases _ _ H1) in Hp.
    pose proof (moved_tick _ _ (ticked_moved _ _ H1)).
    destruct Hp as [|(n & ? & ?)]; [by left|right]. exists n. split; [lia|done]. }
  destruct room; cbn [negb].
  2: { eapply spec_done; [apply sendDhcpNak_eq|]. rewrite (moved_cfg _ _ Hm2).
    apply answer_nak; [done|done|]. right. right. split; [|auto].
    destruct (map_find _ (leases s)); [|done]. by destruct Hsome. }
  mstep. eapply spec_done; [apply sendLeaseReply_eq|]. rewrite (moved_cfg _ _ Hm2).
  apply addLease_spec. intros s3 Hm3 Hl3. eapply answer_ack; try done.
  - intros Hs. by apply Hsome.
  - intros Hn. by apply Hnone.
  - rewrite Hl3. cbn. rewrite (moved_cfg _ _ Hm2). done.
Qed.

(** ** The table under every message *)

Lemma answered_inv env s m xid ciaddr relay o s' : inv s → answered env s m xid ciaddr relay o s' →
  inv s' ∧ cfg s' = cfg s.
Proof.
  intros Hi [|s1 Hm Hp _|s1 n h ? Hm Hp _ _ Hsome Hnone Hm' Hl]; [done|..];
    assert (Hi1 : inv s1) by eauto using maybePurged_inv; pose proof (moved_cfg _ _ Hm) as Hc.
  - split; [|done]. by apply (inv_same s1).
  - pose proof (moved_cfg _ _ Hm') as Hc'. cbn in Hc'. split; [|congruence].
    eapply inv_insert; [exact Hi1| |exact Hl|done|]; [done|]. rewrite Hc. intros Hn. apply Hnone.
    destruct (map_find _ (leases s)) eqn:Hf; [|done]. rewrite Hsome in Hn by done. congruence.
Qed.

Lemma offered_inv env s m xid req relay s' : inv s → offered env s m xid req relay s' →
  inv s' ∧ cfg s' = cfg s.
Proof.
  intros Hi [? Ht|? s0 ? Ht _ Hr|? s0 s1 _ Ht _ Hr].
  - split; [|by apply ticked_cfg]. by eapply inv_same; [|apply ticked_leases|apply ticked_cfg].
  - apply reserved_inv in Hr as [Hr Hm];
      [|by eapply inv_same; [|apply ticked_leases|apply ticked_cfg]].
    split; [done|]. by rewrite (moved_cfg _ _ Hm), (ticked_cfg _ _ Ht).
  - apply reserved_inv in Hr as [Hr Hm];
      [|by eapply inv_same; [|apply ticked_leases|apply ticked_cfg]].
    split; [by apply (inv_same s1)|]. cbn. by rewrite (moved_cfg _ _ Hm), (ticked_cfg _ _ Ht).
Qed.

Lemma release_spec ciaddr s (Q : unit → Server → Prop) :
  (map_find ciaddr (leases s) = None → Q tt s) →
  (∀ l, map_find ciaddr (leases s) = Some l →
     Q tt (set_leases (map_erase ciaddr (leases s))
             (emit (RestEvent (lit "RELEASE") (macToStr (mac l))
                (if ciaddr =? 0 then [] else ipToStr ciaddr) [] [] [] 0) s))) →
  spec (onRelease ciaddr) s Q.
Proof.
  intros Hn Hs. unfold onRelease. mstep. mstep.
  destruct (map_find ciaddr (leases s)) as [l|]; [|mstep; auto].
  mstep. unfold logDhcpRest. mstep. mstep. by apply Hs.
Qed.

(** The lease table after a DECLINE. *)
Definition declineLeases (m : bytes) (ip0 : Z) (ls : list (Z * DhcpLease)) : list (Z * DhcpLease) :=
  match map_find ip0 ls with
  | Some l => if bytes_eqb (mac l) m then map_erase ip0 ls else ls
  | None => ls
  end.

Lemma decline_spec env m ip0 s (Q : unit → Server → Prop) :
  (∀ s', cfg s' = cfg s → leases s' = declineLeases m ip0 (leases s) →
     declined s' = snd (Declined.add ip0 (msAt env (tick s)) (declined s)) →
     out s' = out s ++ [RestEvent (lit "DECLINE") (macToStr m)
                          (if ip0 =? 0 then [] else ipToStr ip0) [] [] [] 0] →
     (tick s <= tick s')%nat → Q tt s') →
  spec (onDecline env m ip0) s Q.
Proof.
  intros H. unfold onDecline. mstep. mstep.
  assert (Hrest : ∀ s0, leases s0 = declineLeases m ip0 (leases s) → cfg s0 = cfg s →
    declined s0 = declined s → tick s0 = tick s → out s0 = out s → spec
    (nowMs ← getCurrentTimeMs env;
     _ ← modify (λ s, set_declined (snd (Declined.add ip0 nowMs (declined s))) s);
     _ ← getCurrentTimeMs env;
     logDhcpRest (lit "DECLINE") m ip0 0 0 false 0 0) s0 Q).
  { intros s0 Hl Hc Hd Ht Ho. mstep. apply spec_external. cbv zeta. mstep. mstep.
    mstep. apply spec_external. cbv zeta. unfold logDhcpRest. mstep.
    apply H; cbn [cfg leases declined out tick emit set_declined]; try done.
    - by rewrite Ht, Hd.
    - by rewrite Ho.
    - lia. }
  mstep. unfold declineLeases in *. destruct (map_find ip0 (leases s)) as [l|].
  - destruct (bytes_eqb (mac l) m); mstep; by apply Hrest.
  - mstep. by apply Hrest.
Qed.

Lemma declineLeases_inv m ip0 s s' : inv s → leases s' = declineLeases m ip0 (leases s) →
  cfg s' = cfg s → inv s'.
Proof.
  unfold declineLeases. intros Hi. destruct (map_find ip0 (leases s)) as [l|];
    [destruct (bytes_eqb (mac l) m)|]; eauto using inv_same, inv_erase.
Qed.

Lemma dispatch_inv env m xid ciaddr relay o h s : conf_ok (cfg s) → inv s →
  spec (dispatch env m xid ciaddr relay o h) s (λ _ s', inv s' ∧ cfg s' = cfg s).
Proof.
  intros Hc Hi. unfold dispatch. destruct (msgType o =? DHCP_DISCOVER).
  { eapply spec_mono; [|by apply offer_spec]. cbv beta. intros _ s' H. by eapply offered_inv. }
  destruct (msgType o =? DHCP_REQUEST).
  { eapply spec_mono; [|apply request_spec]. cbv beta. intros _ s' H. by eapply answered_inv. }
  destruct (msgType o =? DHCP_RELEASE).
  { apply release_spec; [done|]. intros l _. split; [|done]. by eapply (inv_erase s). }
  destruct (msgType o =? DHCP_DECLINE); [|by mstep].
  apply decline_spec. intros s' Hc' Hl _ _ _. split; [|done]. by eapply declineLeases_inv.
Qed.

Lemma handle_inv env buf len s : wf_bytes buf → length buf = kBufBytes → (len <= kBufBytes)%nat →
  conf_ok (cfg s) → inv s →
  spec (handleDhcpMessage env buf len) s (λ _ s', inv s' ∧ cfg s' = cfg s).
Proof.
  intros Hwf Hl Hlen Hc Hi.
  destruct (handle_cases env buf len Hwf Hl Hlen) as [H|(o&h&m&xid&ci&gi&_&H)].
  { by eapply spec_done. }
  specialize (H s). destruct (AllowedList.isClientAllowed _ _ _ _); [|by eapply spec_done].
  eapply spec_eq; [exact H|]. mstep. eapply spec_mono; [|by apply dispatch_inv]. cbv beta. intros _ s' ?. by mstep.
Qed.

Lemma receive_ok data buf : wf_bytes data → wf_bytes buf → length buf = kBufBytes →
  wf_bytes (receive data buf) ∧ length (receive data buf) = kBufBytes ∧
  (length (take kBufBytes data) <= kBufBytes)%nat.
Proof.
  intros Hd Hb Hl. unfold receive.
  pose proof (length_take data kBufBytes).
  split_and!; [|rewrite length_app, length_drop; lia|lia].
  apply wf_bytes_app. split; [by apply Forall_take|by apply Forall_drop].
Qed.

(** C1: the server task survives every sequence of datagrams: it reads
    only its receive buffer, every handler returns, and the lease table keeps
    one entry per address, filed under that address, within the cap. *)
Theorem serverLoop_safe env events buf s :
  Forall (λ e, match e with Some d => wf_bytes d | None => True end) events →
  wf_bytes buf → length buf = kBufBytes → conf_ok (cfg s) → inv s →
  ∃ s', serverLoop env events buf s = Done (tt, s') ∧ inv s' ∧ cfg s' = cfg s.
Proof.
  intros Hev. revert buf s. induction Hev as [|e es He Hes IH]; intros buf s Hb Hl Hc Hi.
  { by exists s. }
  assert (Hgo : spec (serverLoop env (e :: es) buf) s (λ _ s', inv s' ∧ cfg s' = cfg s)).
  2: { destruct Hgo as ([] & s' & ? & ?). by exists s'. }
  cbn [serverLoop].
  destruct e as [data|]; mstep; apply removeExpired_spec; intros s1 Hm1 Hl1;
    assert (Hi1 : inv s1) by (by eapply inv_purge; [|exact Hl1|apply moved_cfg]);
    pose proof (moved_cfg _ _ Hm1) as Hc1.
  - destruct (receive_ok data buf He Hb Hl) as (Hw & Hlr & Hlen). cbv zeta. mstep.
    eapply spec_mono; [|apply handle_inv; [done|done|done|by rewrite Hc1|done]].
    cbv beta. intros _ s2 [Hi2 Hc2].
    destruct (IH (receive data buf) s2) as (s3 & E & Hi3 & Hc3); [done|done|by rewrite Hc2, Hc1|done|].
    exists tt, s3. split_and!; [done|done|congruence].
  - destruct (IH buf s1) as (s3 & E & Hi3 & Hc3); [done|done|by rewrite Hc1|done|].
    exists tt, s3. split_and!; [done|done|congruence].
Qed.

End DhcpServer.
