(* ===== verification/DhcpSafety.v ===== *)
(** * What the DHCP server promises its clients

    The theorems about src/dhcp/DhcpServer.cpp that a network relies on: who is
    given an address, who keeps one, what a refusal does, and what the replies
    say; with the two places where the code does less than it means to. *)
From S2P Require Import Prelude StdMap DeclinedAddresses AllowedList.
From S2P Require Import ClientName DhcpMessage DhcpState DhcpLeases DhcpServer.
Import DhcpMessage DhcpState DhcpLeases DhcpServer.

Module DhcpSafety.

(** A quiet network at second 100: nobody answers a probe. *)
Definition quietEnv : Env := mkEnv (λ _, 100000000) (λ _ _, None) (λ _ _, false) (λ _, [])
  (λ _ _ _, []) (λ _ _, []).

(** 192.168.1.1 with the pool 192.168.1.100 - 192.168.1.200. *)
Definition demoConfig : Config :=
  mkConfig (of_le4 192 168 1 1) (of_le4 255 255 255 0) (of_le4 192 168 1 1)
    (of_le4 192 168 1 100) (of_le4 192 168 1 200) 86400 (lit "auto") 0 true 0 202
    [] false AllowedList.init0 [] false.

Definition demoServer (ls : list (Z * DhcpLease)) : Server :=
  mkServer demoConfig RUNNING ls Declined.empty 0 0 [].

Definition macA : bytes := [2; 0; 0; 0; 0; 10].
Definition macB : bytes := [2; 0; 0; 0; 0; 11].
Definition ip120 : Z := of_le4 192 168 1 120.

Lemma demo_inv : inv (demoServer [(ip120, mkLease macA ip120 5000 [])]).
Proof. split; [split; [by apply Forall_nil|done]|by apply Forall_singleton|by vm_compute]. Qed.

Lemma demo_conf : conf_ok demoConfig.
Proof. by vm_compute. Qed.

(** ** Who is given an address *)

(** The evidence an ACK of [a] to [m] needs. *)
Definition justified (env : Env) (s : Server) (m : bytes) (a : Z) : Prop :=
  isStaticBindingForMac (cfg s) m a = true ∨
  (isIpInRange (cfg s) a = true ∧
   ((∃ l, map_find a (leases s) = Some l ∧ mac l = m) ∨
    (map_find a (leases s) = None ∧
     Declined.isDeclined a (msAt env (tick s)) (declined s) = false ∧
     ∃ r, probeSays env (tick s) a r ∧ (r = None ∨ r = Some m)))).

Lemma verdict_justified env s m a b : grantable (cfg s) m a = true → verdict env s m a b →
  b = true → justified env s m a.
Proof.
  unfold grantable, justified. intros [[_ _]%andb_true_iff Hr]%andb_true_iff Hv E.
  destruct Hv as [Hs|l Hs Hl|Hs|r Hs Hn Hd Hp]; [by left|right|done|right];
    rewrite Hs, orb_false_r in Hr; (split; [done|]).
  - left. exists l. split; [done|by apply bytes_eqb_eq].
  - right. split_and!; [done..|]. exists r. split; [done|].
    destruct r as [owner|]; [right|by left]. f_equal. by apply bytes_eqb_eq.
Qed.

Lemma maybePurged_find env s s' ip0 l : map_sorted (leases s) → maybePurged env s s' →
  map_find ip0 (leases s') = Some l → map_find ip0 (leases s) = Some l.
Proof.
  intros Hs [->|(n & _ & ->)]; [done|]. rewrite purge_find by done.
  destruct (map_find ip0 (leases s)) as [l'|]; [|done]. by destruct (expiry l' <=? _).
Qed.

(** C2: every REQUEST ends in exactly one way.  Addressed to another
    server it changes nothing; otherwise the client gets one NAK and no entry
    of the table changes hands, or it gets one ACK, the ACK is justified by a
    binding, by the client's own lease or by a free address of the pool, and
    the table then holds the address for that client with a full lease. *)
Theorem request_outcome env m xid ciaddr relay o h s : inv s →
  let a := wantedIp o ciaddr in
  ∃ s', onRequest env m xid ciaddr relay o h s = Done (tt, s') ∧
   ((serverId o ≠ 0 ∧ serverId o ≠ serverIp (cfg s) ∧ s' = s) ∨
    (out s' = out s ++ [Sent (replyDest relay) DHCP_CLIENT_PORT (nakReply (cfg s) m xid relay);
                        nakEvent m] ∧
     ∀ ip0 l, map_find ip0 (leases s') = Some l → map_find ip0 (leases s) = Some l) ∨
    (out s' = out s ++ [Sent (replyDest relay) DHCP_CLIENT_PORT
                          (leaseReply (cfg s) DHCP_ACK m xid a relay);
                        leaseEvent (cfg s) (lit "ACK") m a] ∧
     a ≠ 0 ∧ a ≠ serverIp (cfg s) ∧ justified env s m a ∧
     (∃ n h', map_find a (leases s') =
        Some (mkLease m a (u32 (secAt env n + leaseTimeSec (cfg s))) h')) ∧
     ∀ ip0 l, ip0 ≠ a → map_find ip0 (leases s') = Some l → map_find ip0 (leases s) = Some l)).
Proof.
  intros Hi a. destruct (request_spec env m xid ciaddr relay o h s) as ([] & s' & E & Ha).
  exists s'. split; [done|]. destruct Ha as [|s1 Hm Hp _|s1 n h' ? Hm Hp Hg Hv _ _ Hm' Hl].
  - by left.
  - right. left. cbn [replied out emit]. rewrite (moved_out _ _ Hm), <- app_assoc.
    split; [done|]. intros ip0 l. apply (maybePurged_find env); [apply Hi|done].
  - right. right. fold a in Hg, Hv, Hm', Hl. rewrite (moved_out _ _ Hm').
    cbn [replied out emit]. rewrite (moved_out _ _ Hm), <- app_assoc. split; [done|].
    pose proof Hg as [[Hz%negb_true_iff%Z.eqb_neq Hs%negb_true_iff%Z.eqb_neq]%andb_true_iff _]%andb_true_iff.
    split_and!; [done|done|by eapply verdict_justified| |].
    + exists n, h'. by rewrite Hl, map_find_insert_eq.
    + intros ip0 l Hne. rewrite Hl, map_find_insert_ne by done.
      apply (maybePurged_find env); [apply Hi|done].
Qed.

Definition demoRequest : Options := mkOptions DHCP_REQUEST ip120 0.

Definition demoTable : list (Z * DhcpLease) := [(ip120, mkLease macA ip120 5000 [])].

Example request_outcome_witness :
  let s := demoServer demoTable in
  ∃ s', onRequest quietEnv macB 7 0 0 demoRequest [] s = Done (tt, s') ∧
   ((serverId demoRequest ≠ 0 ∧ serverId demoRequest ≠ serverIp (cfg s) ∧ s' = s) ∨
    (out s' = out s ++ [Sent (replyDest 0) DHCP_CLIENT_PORT (nakReply (cfg s) macB 7 0);
                        nakEvent macB] ∧
     ∀ ip0 l, map_find ip0 (leases s') = Some l → map_find ip0 (leases s) = Some l) ∨
    (out s' = out s ++ [Sent (replyDest 0) DHCP_CLIENT_PORT
                          (leaseReply (cfg s) DHCP_ACK macB 7 ip120 0);
                        leaseEvent (cfg s) (lit "ACK") macB ip120] ∧
     ip120 ≠ 0 ∧ ip120 ≠ serverIp (cfg s) ∧ justified quietEnv s macB ip120 ∧
     (∃ n h', map_find ip120 (leases s') =
        Some (mkLease macB ip120 (u32 (secAt quietEnv n + leaseTimeSec (cfg s))) h')) ∧
     ∀ ip0 l, ip0 ≠ ip120 → map_find ip0 (leases s') = Some l → map_find ip0 (leases s) = Some l)).
Proof. exact (request_outcome quietEnv macB 7 0 0 demoRequest [] (demoServer demoTable) demo_inv). Defined.

Lemma verdict_own env s m a l b : verdict env s m a b → map_find a (leases s) = Some l →
  mac l = m → b = true.
Proof.
  intros [Hs|l' Hs Hl'|Hs Hn|r Hs Hn] Hl Hm; [done| |congruence..].
  apply bytes_eqb_eq. congruence.
Qed.

Lemma verdict_true env s m a b : verdict env s m a b → b = true →
  isStaticBindingForMac (cfg s) m a = true ∨ map_find a (leases s) = None ∨
  ∃ l, map_find a (leases s) = Some l ∧ mac l = m.
Proof.
  intros [Hs|l Hs Hl|Hs|r Hs Hn Hd Hp] E; [auto| |done|auto].
  right. right. exists l. split; [done|by apply bytes_eqb_eq].
Qed.

Lemma verdict_refused env s m a b : verdict env s m a b →
  isStaticBindingForMac (cfg s) m a = false → map_find a (leases s) = None →
  Declined.isDeclined a (msAt env (tick s)) (declined s) = true → b = false.
Proof. intros [] ? ? ?; congruence. Qed.

(** C9: the holder of a lease who asks for its own address, in or out of a full table,
    always gets its ACK - as long as the REQUEST names this server or none, and the address
    is still one the configuration hands out to it. *)
Theorem renewal_acked env m xid ciaddr relay o h s l : inv s →
  (serverId o = 0 ∨ serverId o = serverIp (cfg s)) →
  let a := wantedIp o ciaddr in
  map_find a (leases s) = Some l → mac l = m → grantable (cfg s) m a = true →
  ∃ s', onRequest env m xid ciaddr relay o h s = Done (tt, s') ∧
    out s' = out s ++ [Sent (replyDest relay) DHCP_CLIENT_PORT
                         (leaseReply (cfg s) DHCP_ACK m xid a relay);
                       leaseEvent (cfg s) (lit "ACK") m a].
Proof.
  intros Hi Hid a Hl Hm Hg. destruct (request_spec env m xid ciaddr relay o h s) as ([] & s' & E & Ha).
  exists s'. split; [done|]. destruct Ha as [|s1 Hm1 Hp [[Hn _]|[[Hv _]|[Hn _]]]|s1 n h' ? Hm1 _ _ _ _ _ Hm' _].
  - by destruct Hid.
  - fold a in Hn. congruence.
  - fold a in Hv. by pose proof (verdict_own _ _ _ _ _ _ Hv Hl Hm).
  - fold a in Hn. congruence.
  - rewrite (moved_out _ _ Hm'). cbn [replied out emit]. by rewrite (moved_out _ _ Hm1), <- app_assoc.
Qed.

Example renewal_acked_witness :
  ∃ s', onRequest quietEnv macA 7 0 0 demoRequest [] (demoServer demoTable) = Done (tt, s') ∧
    out s' = [Sent (replyDest 0) DHCP_CLIENT_PORT (leaseReply demoConfig DHCP_ACK macA 7 ip120 0);
              leaseEvent demoConfig (lit "ACK") macA ip120].
Proof.
  apply (renewal_acked quietEnv macA 7 0 0 demoRequest [] (demoServer demoTable)
    (mkLease macA ip120 5000 [])); [apply demo_inv|by left|by vm_compute..].
Defined.

(** ** Who keeps an address *)

(** The ways an entry [l] for [ip0] may leave its holder while one message of
    client [m] is handled. *)
Definition lossCause (env : Env) (s : Server) (m : bytes) (ciaddr : Z) (o : Options)
    (ip0 : Z) (l : DhcpLease) : Prop :=
  (∃ n, expiry l <= secAt env n) ∨
  (msgType o = DHCP_RELEASE ∧ ip0 = ciaddr) ∨
  (msgType o = DHCP_DECLINE ∧ ip0 = requestedIp o ∧ mac l = m) ∨
  (msgType o = DHCP_REQUEST ∧ ip0 = wantedIp o ciaddr ∧
     isStaticBindingForMac (cfg s) m ip0 = true) ∨
  (msgType o = DHCP_DISCOVER ∧ ∃ n, expiry l <= u32 (secAt env n + kOfferHoldSec)).

Definition keeps (ls' : list (Z * DhcpLease)) (ip0 : Z) (l : DhcpLease) : Prop :=
  ∃ l', map_find ip0 ls' = Some l' ∧ mac l' = mac l.

Lemma maybePurged_keeps env s s' ip0 l : map_sorted (leases s) → maybePurged env s s' →
  map_find ip0 (leases s) = Some l → map_find ip0 (leases s') = Some l ∨ ∃ n, expiry l <= secAt env n.
Proof.
  intros Hs [->|(n & _ & ->)] Hf; [by left|]. rewrite purge_find, Hf by done.
  destruct (Z.leb_spec (expiry l) (secAt env n)); [right; by exists n|by left].
Qed.

Lemma reserved_keeps env m ip1 s b s' ip0 l : inv s → reserved env m ip1 s b s' →
  map_find ip0 (leases s) = Some l → keeps (leases s') ip0 l ∨
  (∃ n, expiry l <= secAt env n) ∨ ∃ n, expiry l <= u32 (secAt env n + kOfferHoldSec).
Proof.
  intros Hi Hr Hf. unfold keeps.
  destruct Hr as [? _ Hp _|l1 h ? _ Hf1 _ Hl|n h s1 ? _ _ Hp Hsome _ Hl].
  - destruct (maybePurged_keeps _ _ _ _ _ (inv_sorted _ Hi) Hp Hf); eauto.
  - left. destruct Hl as [->| ->]; [by exists l|]. destruct (decide (ip1 = ip0)) as [->|Hne].
    + rewrite map_find_insert_eq. eexists. split; [done|]. cbn. congruence.
    + rewrite map_find_insert_ne by done. by exists l.
  - rewrite Hl. destruct (decide (ip1 = ip0)) as [->|Hne].
    + destruct (Hsome l Hf). eauto.
    + rewrite map_find_insert_ne by done.
      destruct (maybePurged_keeps _ _ _ _ _ (inv_sorted _ Hi) Hp Hf); eauto.
Qed.

(** C3: a client's entry survives every message of every other client.  It
    goes only when it has expired, when its address is released, when its own
    holder declines it, when the operator bound the address to the requester,
    or when it is in its last minute and a DISCOVER is offered the address. *)
Theorem lease_kept env m xid ciaddr relay o h s : conf_ok (cfg s) → inv s →
  ∃ s', dispatch env m xid ciaddr relay o h s = Done (tt, s') ∧
    ∀ ip0 l, map_find ip0 (leases s) = Some l →
      (∃ l', map_find ip0 (leases s') = Some l' ∧ mac l' = mac l) ∨
      lossCause env s m ciaddr o ip0 l.
Proof.
  intros Hc Hi. unfold lossCause.
  assert (Hgo : spec (dispatch env m xid ciaddr relay o h) s (λ _ s', ∀ ip0 l,
    map_find ip0 (leases s) = Some l → keeps (leases s') ip0 l ∨ lossCause env s m ciaddr o ip0 l)).
  2: { destruct Hgo as ([] & s' & E & H). by exists s'. }
  unfold lossCause, dispatch.
  destruct (Z.eqb_spec (msgType o) DHCP_DISCOVER) as [E1|_].
  { eapply spec_mono; [|by apply offer_spec]. cbv beta. intros _ s' Ho ip0 l Hf.
    destruct Ho as [? Ht|ip1 s0 ? Ht _ Hr|ip1 s0 s1 _ Ht _ Hr].
    - left. exists l. by rewrite (ticked_leases _ _ Ht).
    - apply (reserved_keeps _ _ _ _ _ _ ip0 l) in Hr; [naive_solver| |].
      + by eapply inv_same; [|apply ticked_leases|apply ticked_cfg].
      + by rewrite (ticked_leases _ _ Ht).
    - apply (reserved_keeps _ _ _ _ _ _ ip0 l) in Hr; [naive_solver| |].
      + by eapply inv_same; [|apply ticked_leases|apply ticked_cfg].
      + by rewrite (ticked_leases _ _ Ht). }
  destruct (Z.eqb_spec (msgType o) DHCP_REQUEST) as [E2|_].
  { eapply spec_mono; [|apply request_spec]. cbv beta. intros _ s' Ha ip0 l Hf. unfold keeps.
    destruct Ha as [|s1 _ Hp _|s1 n h' ? _ Hp _ Hv Hsame _ _ Hl]; [left; by exists l|..].
    - destruct (maybePurged_keeps _ _ _ _ _ (inv_sorted _ Hi) Hp Hf); [left; by exists l|auto].
    - rewrite Hl. destruct (decide (wantedIp o ciaddr = ip0)) as [<-|Hne].
      + destruct (verdict_true _ _ _ _ _ Hv eq_refl) as [Hs|[Hn|(l' & Hf' & Hb)]];
          [by auto 8|congruence|].
        left. rewrite map_find_insert_eq. eexists. split; [done|]. cbn. congruence.
      + rewrite map_find_insert_ne by done.
        destruct (maybePurged_keeps _ _ _ _ _ (inv_sorted _ Hi) Hp Hf); [left; by exists l|auto]. }
  unfold keeps. destruct (Z.eqb_spec (msgType o) DHCP_RELEASE) as [E3|_].
  { apply release_spec; [intros _ ip0 l Hf; left; by exists l|]. intros l1 _ ip0 l Hf.
    cbn [leases set_leases]. destruct (decide (ciaddr = ip0)) as [<-|Hne]; [auto|left].
    rewrite map_find_erase_ne by (apply Hi || done). by exists l. }
  destruct (Z.eqb_spec (msgType o) DHCP_DECLINE) as [E4|_].
  { apply decline_spec. intros s' _ -> _ _ _ ip0 l Hf. unfold declineLeases.
    destruct (map_find (requestedIp o) (leases s)) as [l1|] eqn:Hf1; [|left; by exists l].
    destruct (bytes_eqb (mac l1) m) eqn:Hb; [apply bytes_eqb_eq in Hb|left; by exists l].
    destruct (decide (requestedIp o = ip0)) as [Heq|Hne].
    - right. right. right. left. split_and!; congruence.
    - left. rewrite map_find_erase_ne by (apply Hi || done). by exists l. }
  mstep. intros ip0 l Hf. left. by exists l.
Qed.

Example lease_kept_witness :
  ∃ s', dispatch quietEnv macB 7 0 0 demoRequest [] (demoServer demoTable) = Done (tt, s') ∧
    ∀ ip0 l, map_find ip0 demoTable = Some l →
      (∃ l', map_find ip0 (leases s') = Some l' ∧ mac l' = mac l) ∨
      lossCause quietEnv (demoServer demoTable) macB 0 demoRequest ip0 l.
Proof.
  apply (lease_kept quietEnv macB 7 0 0 demoRequest [] (demoServer demoTable));
    [apply demo_conf|apply demo_inv].
Defined.

(** ** Which address is offered *)

(** A pool inside one /24, not ending in [.255]: the configuration the settings
    page is meant for. *)
Record pool24 (c : Config) : Prop := {
  pool_start : is_u32 (rangeStart c);
  pool_end : is_u32 (rangeEnd c);
  pool_order : rangeStart c <= rangeEnd c;
  pool_net : rangeStart c mod 16777216 = rangeEnd c mod 16777216;
  pool_last : rangeEnd c / 16777216 < 255;
}.





Lemma demo_pool : pool24 demoConfig.
Proof. split; by vm_compute. Qed.


(** On a network that answers the same question the same way during one scan,
    the scan is a search of the pool in order. *)
Record steady (env : Env) : Prop := {
  steady_time n : timer_us env n = timer_us env 0;
  steady_arp n ip0 : arpProbeIp env n ip0 = arpProbeIp env 0 ip0;
  steady_icmp n ip0 : icmpProbeIp env n ip0 = icmpProbeIp env 0 ip0;
}.

Definition available (env : Env) (s : Server) (a : Z) : bool :=
  negb (a =? serverIp (cfg s)) && bool_decide (map_find a (leases s) = None) &&
  negb (Declined.isDeclined a (msAt env 0) (declined s)) &&
  bool_decide (arpProbeIp env 0 a = None) && negb (icmpProbeIp env 0 a).

(** The addresses of the pool, in order. *)
Fixpoint poolFrom (n : nat) (a : Z) : list Z :=
  match n with
  | O => []
  | S n' => a :: poolFrom n' (a + 16777216)
  end.

Definition pool (c : Config) : list Z :=
  poolFrom (Z.to_nat (rangeEnd c / 16777216 - rangeStart c / 16777216 + 1)) (rangeStart c).

Lemma probe_steady env a s : steady env →
  ∃ s', ticked s s' ∧ probeIp env a s =
    Done (match arpProbeIp env 0 a with
          | Some o => Some o
          | None => if icmpProbeIp env 0 a then Some (replicate 6 0) else None end, s').
Proof.
  intros Hst.
  assert (spec (probeIp env a) s (λ r s', ticked s s' ∧ r =
    match arpProbeIp env 0 a with
    | Some o => Some o
    | None => if icmpProbeIp env 0 a then Some (replicate 6 0) else None end)) as (r & s' & E & Ht & ->).
  { apply probeIp_spec. intros r s' Ht (n & _ & Hr). split; [done|].
    destruct r as [o|]; rewrite (steady_arp _ Hst n), (steady_icmp _ Hst) in Hr;
      rewrite ?(steady_arp _ Hst (S (S n))) in Hr.
    - destruct Hr as [->|[Hi Ho]]; [done|]. rewrite Hi. by destruct (arpProbeIp env 0 a); subst.
    - destruct Hr as [-> ->]. done. }
  exists s'. done.
Qed.

Lemma msAt_steady env n : steady env → msAt env n = msAt env 0.
Proof. intros Hst. unfold msAt. by rewrite (steady_time _ Hst). Qed.

Lemma available_ticked env s s' a : ticked s s' → available env s' a = available env s a.
Proof.
  intros Ht. unfold available.
  by rewrite (ticked_cfg _ _ Ht), (ticked_leases _ _ Ht), (ticked_declined _ _ Ht).
Qed.

Lemma scan_step env ip0 f s : steady env → ip0 <= rangeEnd (cfg s) →
  ∃ s1, ticked s s1 ∧ scan env (S f) ip0 s =
    if available env s ip0 then Done (ip0, s1) else scan env f (nextIp ip0) s1.
Proof.
  intros Hst Hle. cbn [scan]. rewrite bind_gets. unfold available.
  destruct (Z.leb_spec ip0 (rangeEnd (cfg s))); [cbn [negb]|lia].
  destruct (Z.eqb_spec ip0 (serverIp (cfg s))); [by exists s|].
  rewrite bind_gets. destruct (map_find ip0 (leases s)) eqn:Hfind.
  { rewrite bool_decide_false by done. by exists s. }
  rewrite bool_decide_true by done. cbn [negb andb].
  assert (∃ s1, ticked s s1 ∧ addressDeclined env ip0 s =
    Done (Declined.isDeclined ip0 (msAt env 0) (declined s), s1)) as (s1 & H1 & E1).
  { assert (spec (addressDeclined env ip0) s (λ b s', ticked s s' ∧
      b = Declined.isDeclined ip0 (msAt env 0) (declined s))) as (b & s1 & E & Ht & ->).
    { apply addressDeclined_spec. intros s' Ht. by rewrite msAt_steady. }
    by exists s1. }
  destruct (probe_steady env ip0 s1 Hst) as (s2 & H2 & E2).
  unfold mbind at 1, M_bind at 1. rewrite E1.
  destruct (Declined.isDeclined ip0 (msAt env 0) (declined s)); cbn [negb andb]; [by exists s1|].
  unfold mbind at 1, M_bind at 1. rewrite E2. exists s2. split; [by etrans|].
  destruct (arpProbeIp env 0 ip0); [done|]. rewrite bool_decide_true by done.
  by destruct (icmpProbeIp env 0 ip0).
Qed.

Lemma find_ticked env s s' l : ticked s s' →
  List.find (available env s') l = List.find (available env s) l.
Proof.
  intros Ht. induction l as [|x l IH]; [done|]. cbn [List.find].
  by rewrite (available_ticked _ _ _ _ Ht), IH.
Qed.

Lemma scan_steady env n ip0 fuel s : steady env → is_u32 ip0 → is_u32 (rangeEnd (cfg s)) →
  rangeEnd (cfg s) / 16777216 < 255 → ip0 mod 16777216 = rangeEnd (cfg s) mod 16777216 →
  Z.of_nat n = Z.max 0 (rangeEnd (cfg s) / 16777216 - ip0 / 16777216 + 1) → (n < fuel)%nat →
  ∃ s', scan env fuel ip0 s = Done (default 0 (List.find (available env s) (poolFrom n ip0)), s').
Proof.
  intros Hst. revert ip0 fuel s. induction n as [|n IH]; intros ip0 fuel s Hu HuE He Hnet Hn Hf;
    (destruct fuel as [|f]; [lia|]).
  { exists s. cbn [scan]. rewrite bind_gets. by destruct (Z.leb_spec ip0 (rangeEnd (cfg s))); [zdm|]. }
  destruct (scan_step env ip0 f s Hst) as (s1 & H1 & ->); [word_unfold; zdm|].
  cbn [poolFrom List.find]. destruct (available env s ip0); [by exists s1|].
  assert (ip0 / 16777216 < 255) by zdm. rewrite nextIp_step by done.
  rewrite <- (find_ticked _ _ _ _ H1). apply IH; rewrite ?(ticked_cfg _ _ H1); (done || word_lia).
Qed.

(** For a client with no binding and no lease, the address chosen on a
    network that answers consistently is the first one of the pool that is not
    the server's, not leased, not refused and not in use; and there is none
    only when the whole pool is taken. *)
Theorem select_first_free env m s : steady env → pool24 (cfg s) →
  staticChoice (staticBindings (cfg s)) m (leases s) = None → leaseOf m (leases s) = None →
  ∃ s', selectIp env m s =
    Done (default 0 (List.find (available env s) (pool (cfg s))), s').
Proof.
  intros Hst [Hs He Ho Hn Hl] Hsc Hlo. unfold selectIp. rewrite !bind_gets, Hsc, Hlo.
  apply scan_steady; try done.
  - word_unfold. zdm.
  - unfold kScanFuel. word_unfold. zdm.
Qed.

Example select_first_free_witness :
  ∃ s', selectIp quietEnv macB (demoServer [(of_le4 192 168 1 100, mkLease macA (of_le4 192 168 1 100) 5000 [])]) =
    Done (of_le4 192 168 1 101, s').
Proof.
  apply (select_first_free quietEnv macB
    (demoServer [(of_le4 192 168 1 100, mkLease macA (of_le4 192 168 1 100) 5000 [])]));
    [by split|apply demo_pool|by vm_compute..].
Defined.

(** An address a client refused stays refused.  For an hour after a
    DECLINE, in any later state whose hold-down table and settings are
    unchanged, a REQUEST for the address by a client without a static binding
    is answered with NAK and leaves the address without a lease. *)
Theorem decline_blocks env m a s : Declined.wf (msAt env (tick s)) (declined s) →
  ∃ s1, onDecline env m a s = Done (tt, s1) ∧
    ∀ m' xid ciaddr relay o h s2, inv s2 → cfg s2 = cfg s1 → declined s2 = declined s1 →
      map_find a (leases s2) = None → wantedIp o ciaddr = a →
      (serverId o = 0 ∨ serverId o = serverIp (cfg s2)) →
      isStaticBindingForMac (cfg s2) m' a = false →
      msAt env (tick s) <= msAt env (tick s2) →
      msAt env (tick s2) - msAt env (tick s) < Declined.kDeclineHoldMs →
      ∃ s3, onRequest env m' xid ciaddr relay o h s2 = Done (tt, s3) ∧
        out s3 = out s2 ++ [Sent (replyDest relay) DHCP_CLIENT_PORT (nakReply (cfg s2) m' xid relay);
                            nakEvent m'] ∧
        map_find a (leases s3) = None.
Proof.
  intros Hwf.
  assert (spec (onDecline env m a) s (λ _ s1, declined s1 =
    snd (Declined.add a (msAt env (tick s)) (declined s)))) as ([] & s1 & E & Hd).
  { by apply decline_spec. }
  exists s1. split; [done|]. intros m' xid ciaddr relay o h s2 Hi Hc Hd2 Hf Hw Hid Hns Hle Hlt.
  destruct (request_spec env m' xid ciaddr relay o h s2) as ([] & s3 & E3 & Ha).
  exists s3. split; [done|].
  assert (Hdec : Declined.isDeclined a (msAt env (tick s2)) (declined s2) = true).
  { rewrite Hd2, Hd. apply Declined.add_live; try done; unfold msAt; word_lia. }
  destruct Ha as [|s4 Hm Hp _|s4 n h' ? Hm Hp Hg Hv _ _ _ _]; [by destruct Hid|..].
  - cbn [replied out emit leases]. rewrite (moved_out _ _ Hm), <- app_assoc. split; [done|].
    by apply (maybePurged_None env s2); [apply Hi|..].
  - rewrite Hw in Hv. by pose proof (verdict_refused _ _ _ _ _ Hv Hns Hf Hdec).
Qed.

(** The state [demoServer []] reaches when client A declines .120. *)
Definition declinedServer : Server :=
  match onDecline quietEnv macA ip120 (demoServer []) with
  | Done (_, s1) => s1
  | _ => demoServer []
  end.

Lemma declined_inv : inv declinedServer.
Proof. split; [done|by apply Forall_nil|by vm_compute]. Qed.

Example decline_blocks_witness :
  ∃ s3, onRequest quietEnv macB 7 0 0 demoRequest [] declinedServer = Done (tt, s3) ∧
    map_find ip120 (leases s3) = None.
Proof.
  destruct (decline_blocks quietEnv macA ip120 (demoServer []) (Declined.empty_wf _))
    as (s1 & E & H).
  assert (Hs1 : s1 = declinedServer).
  { unfold declinedServer. by rewrite E. }
  rewrite Hs1 in H.
  destruct (H macB 7 0 0 demoRequest [] declinedServer declined_inv eq_refl eq_refl)
    as (s3 & E3 & _ & Hf); [by vm_compute|done|by left|by vm_compute|by vm_compute|by vm_compute|].
  by exists s3.
Defined.

(** ** What the replies say *)

Lemma header_length xid y si gi m : length m = 6%nat → length (replyHeader xid y si gi m) = 240%nat.
Proof. intros Hm. unfold replyHeader. rewrite !length_app, Hm. done. Qed.

(** The options of the replies, as a list. *)
Definition leaseOptionList (type serverIp netmask : Z) (sendRouter : bool)
    (routerIp dnsIp leaseTimeSec : Z) : list (Z * bytes) :=
  [(DHCP_OPT_MSG_TYPE, [type]); (DHCP_OPT_SERVER_ID, le4 serverIp);
   (DHCP_OPT_SUBNET_MASK, le4 netmask)] ++
  (if sendRouter then [(DHCP_OPT_ROUTER, le4 routerIp)] else []) ++
  [(DHCP_OPT_DNS_SERVER, le4 dnsIp); (DHCP_OPT_LEASE_TIME, le4 (htonl leaseTimeSec))].

Lemma leaseOptions_encode t si nm sr r d lt :
  leaseOptions t si nm sr r d lt = encodeOptions (leaseOptionList t si nm sr r d lt) ++ [DHCP_OPT_END].
Proof. by destruct sr. Qed.

Lemma leaseOptionList_ok t si nm sr r d lt : Forall option_ok (leaseOptionList t si nm sr r d lt).
Proof.
  unfold leaseOptionList, option_ok.
  destruct sr; cbn [app]; rewrite !Forall_cons; split_and!; cbn; (done || lia).
Qed.

Lemma replyHeader_fields xid y si gi m rest : length m = 6%nat →
  is_u32 xid → is_u32 y → is_u32 gi →
  let buf := replyHeader xid y si gi m ++ rest in
  rd32le buf offXid = Done xid ∧ rd32le buf 16 = Done y ∧ rd32le buf offGiaddr = Done gi ∧
  rdn 6 buf offChaddr = Done m ∧
  rd32le buf offCookie = Done (htonl DHCP_MAGIC_COOKIE).
Proof.
  intros Hm Hx Hy Hg. destruct m as [|a [|b [|c [|d [|e [|f [|]]]]]]]; try done. clear Hm.
  cbv zeta. unfold replyHeader, rd32le, rd, offXid, offGiaddr, offChaddr, offCookie, le4.
  cbn [app lookup list_lookup Nat.add rdn replicate mbind run_bind mret run_ret rd].
  rewrite !of_le4_le4 by done. done.
Qed.

(** What a client reads in an OFFER or an ACK.  The datagram fits the
    message structure, carries the client's own transaction id and MAC and the
    assigned address, and its options decode to the message type and to this
    server's identifier. *)
Theorem reply_readback c type m xid y relay rest : length m = 6%nat →
  is_u32 xid → is_u32 y → is_u32 relay → is_u32 (serverIp c) →
  let d := leaseReply c type m xid y relay in
  (length d <= 548)%nat ∧
  parseOptions (d ++ rest) = Done (mkOptions type 0 (serverIp c)) ∧
  rd32le (d ++ rest) offXid = Done xid ∧ rd32le (d ++ rest) 16 = Done y ∧
  rd32le (d ++ rest) offGiaddr = Done relay ∧ rdn 6 (d ++ rest) offChaddr = Done m ∧
  rd32le (d ++ rest) offCookie = Done (htonl DHCP_MAGIC_COOKIE).
Proof.
  intros Hm Hx Hy Hr Hs d.
  assert (Hd : d ++ rest = replyHeader xid y (serverIp c) relay m ++
    encodeOptions (leaseOptionList type (serverIp c) (serverNetmask c) (resolveRouter c m).2
      (resolveRouter c m).1 (resolveDnsServer c m) (leaseTimeSec c)) ++ DHCP_OPT_END :: rest).
  { unfold d, leaseReply. by rewrite leaseOptions_encode, <- !app_assoc. }
  assert (Hlen : (length (encodeOptions (leaseOptionList type (serverIp c) (serverNetmask c)
    (resolveRouter c m).2 (resolveRouter c m).1 (resolveDnsServer c m) (leaseTimeSec c))) <= 39)%nat).
  { unfold leaseOptionList. destruct (resolveRouter c m).2; cbn; lia. }
  split.
  { apply (f_equal length) in Hd. rewrite !length_app, header_length in Hd by done.
    cbn [length] in Hd. lia. }
  rewrite Hd. split.
  - unfold parseOptions. rewrite parseOptions_loop_encoded.
    + unfold leaseOptionList. destruct (resolveRouter c m).2; cbn; by rewrite of_le4_le4.
    + apply leaseOptionList_ok.
    + by apply header_length.
    + unfold DHCP_OPTIONS_BYTES. lia.
    + unfold leaseOptionList, DHCP_OPTIONS_BYTES. destruct (resolveRouter c m).2; cbn; lia.
  - by apply replyHeader_fields.
Qed.

Example reply_readback_witness :
  let d := leaseReply demoConfig DHCP_ACK macA 305419896 ip120 0 in
  (length d <= 548)%nat ∧
  parseOptions (d ++ []) = Done (mkOptions DHCP_ACK 0 (of_le4 192 168 1 1)) ∧
  rd32le (d ++ []) offXid = Done 305419896 ∧ rd32le (d ++ []) 16 = Done ip120 ∧
  rd32le (d ++ []) offGiaddr = Done 0 ∧ rdn 6 (d ++ []) offChaddr = Done macA ∧
  rd32le (d ++ []) offCookie = Done (htonl DHCP_MAGIC_COOKIE).
Proof.
  apply (reply_readback demoConfig DHCP_ACK macA 305419896 ip120 0 []);
    [done|by vm_compute..].
Defined.

(** ** Where the code does less than it means to *)

(** A DISCOVER that asks for an address by name is offered it
    even while another client holds a lease on it, as long as that client is
    not answering probes at the moment; the lease itself stays where it is, so
    the REQUEST that follows is refused. *)
Theorem offer_of_leased_address :
  ∃ s', sendDhcpOffer quietEnv macB 7 ip120 0 [] (demoServer demoTable) = Done (tt, s') ∧
    out s' = [Sent (replyDest 0) DHCP_CLIENT_PORT (leaseReply demoConfig DHCP_OFFER macB 7 ip120 0);
              leaseEvent demoConfig (lit "OFFER") macB ip120] ∧
    leases s' = demoTable.
Proof. eexists. split; [reflexivity|]. by split. Qed.

(** An offer held for client A for another 50 seconds goes to client B, who
    asked for the address by name. *)
Theorem offer_hold_taken_over :
  let held := [(ip120, mkLease macA ip120 150 [])] in
  ∃ s', sendDhcpOffer quietEnv macB 7 ip120 0 [] (demoServer held) = Done (tt, s') ∧
    leases s' = [(ip120, mkLease macB ip120 160 [])].
Proof. eexists. split; by vm_compute. Qed.

(** The same server with the pool 192.168.1.200 - 192.168.2.50. *)
Definition wideConfig : Config :=
  mkConfig (of_le4 192 168 1 1) (of_le4 255 255 254 0) (of_le4 192 168 1 1)
    (of_le4 192 168 1 200) (of_le4 192 168 2 50) 86400 (lit "auto") 0 true 0 202
    [] false AllowedList.init0 [] false.

Definition wideServer : Server := mkServer wideConfig RUNNING [] Declined.empty 0 0 [].

(** A pool that crosses a /24 boundary is never scanned: with
    every address free the server finds none, although the same address is in
    range for a REQUEST.  The loop compares addresses in network byte order. *)
Theorem wide_pool_never_offered :
  (∃ s', selectIp quietEnv macA wideServer = Done (0, s')) ∧
  isIpInRange wideConfig (of_le4 192 168 2 10) = true.
Proof. split; [by eexists|by vm_compute]. Qed.

End DhcpSafety.
