(* ===== verification/DhcpLifecycle.v ===== *)
(** * Starting, stopping and reloading the DHCP server

    [start], [stop], [reloadStaticBindings], [refreshAllowedStaticRefs],
    [reloadAllowedComputers] and [applyLeaseLimit] of src/dhcp/DhcpServer.cpp.
    The settings are read from [Config] as text; [inet_pton], the network
    interface and the allocators are parameters. *)
From S2P Require Import Prelude StdMap DeclinedAddresses AllowedList.
From S2P Require Import ClientName DhcpMessage DhcpState DhcpLeases DhcpServer DhcpSafety.
Import DhcpMessage DhcpState DhcpLeases DhcpServer DhcpSafety.

Module DhcpLifecycle.

(** ** The settings *)

(** [StaticBinding] of src/core/Config.h. *)
Record StaticBinding := mkBinding {
  bMac : bytes;
  bIp : bytes;
  bGateway : bytes;
  bUseGateway : bool;
  bEnabled : bool;
  bUseDns : bool;
}.

(** [DhcpConfig] of src/core/Config.h, the fields the server reads, with the
    two lists kept next to it. *)
Record Settings := mkSettings {
  setServerIp : bytes;
  setStartIp : bytes;
  setEndIp : bytes;
  setSubnet : bytes;
  setGateway : bytes;
  setLeaseTimeSec : Z;
  setMaxLeaseEntries : Z;
  setAllowOnly : bool;
  setDnsMode : bytes;
  setDnsAddress : bytes;
  setBindings : list StaticBinding;
  setAllowedComputers : bytes;
}.

(** What the platform answers.  [junk] is the value of the uninitialised
    local of [ipStrToU32] when [inet_pton] refuses the text, [junkMac] the
    bytes an uninitialised MAC holds. *)
Record Platform := mkPlatform {
  inet_pton : bytes → option Z;
  junk : bytes → Z;
  junkMac : bytes;
  netif : option (Z * Z * Z);
  taskCreated : bool;
  psram : bool;
}.

Definition ipStrToU32 (p : Platform) (s : bytes) : Z := default (junk p s) (inet_pton p s).

(** ** [sscanf("%hhx:%hhx:%hhx:%hhx:%hhx:%hhx")] *)

Definition isHex (c : Z) : bool := 0 <=? AllowedList.hexNibble c.

Fixpoint takeHex (s : bytes) (acc : Z) (seen : bool) : option (Z * bytes) :=
  match s with
  | c :: s' =>
      if isHex c then takeHex s' (acc * 16 + AllowedList.hexNibble c) true
      else if seen then Some (acc, s) else None
  | [] => if seen then Some (acc, []) else None
  end.

(** One [%hhx]: blanks, a sign, a [0x] prefix, digits; the value as
    [strtoul] computes it, stored in a byte. *)
Definition scanHex (s : bytes) : option (Z * bytes) :=
  let s := drop_while isspace s in
  let '(neg, s) := match s with
                   | 45 :: s' => (true, s')
                   | 43 :: s' => (false, s')
                   | _ => (false, s)
                   end in
  let s := match s with
           | 48 :: x :: h :: s' => if (tolower x =? 120) && isHex h then h :: s' else s
           | _ => s
           end in
  match takeHex s 0 false with
  | None => None
  | Some (v, rest) =>
      let v := if UINT32_MAX <? v then UINT32_MAX else if (neg : bool) then u32 (- v) else v in
      Some (u8 v, rest)
  end.

(** [n] bytes separated by colons, as far as the text goes. *)
Fixpoint scanBytes (n : nat) (s : bytes) : bytes :=
  match n with
  | O => []
  | S n' =>
      match scanHex s with
      | None => []
      | Some (b, rest) =>
          match rest with
          | 58 :: rest' => b :: scanBytes n' rest'
          | _ => [b]
          end
      end
  end.

Definition scanMac (p : Platform) (text : bytes) : bytes :=
  let got := scanBytes 6 text in got ++ drop (length got) (junkMac p).

(** ** Reloading *)

Definition bindingEntry (p : Platform) (b : StaticBinding) : StaticEntry :=
  mkStatic (scanMac p (bMac b)) (ipStrToU32 p (bIp b)) (ipStrToU32 p (bGateway b))
    (bUseGateway b) (bEnabled b) (bUseDns b).

Definition refreshAllowedStaticRefs (c : Config) : Config :=
  mkConfig (serverIp c) (serverNetmask c) (serverGateway c) (rangeStart c) (rangeEnd c)
    (leaseTimeSec c) (dnsMode c) (dnsManualIp c) (dnsServerRunning c) (maxLeaseEntries c)
    (maxLeaseEntriesEffective c) (staticBindings c) (allowOnly c) (allowedList c)
    ((λ e, AllowedList.mkRef (sMac e) (sEnabled e)) <$> staticBindings c) (allowedStorage c).

Definition reloadStaticBindings (p : Platform) (st : Settings) (c : Config) : Config :=
  refreshAllowedStaticRefs
    (mkConfig (serverIp c) (serverNetmask c) (serverGateway c) (rangeStart c) (rangeEnd c)
      (leaseTimeSec c) (dnsMode c) (dnsManualIp c) (dnsServerRunning c) (maxLeaseEntries c)
      (maxLeaseEntriesEffective c) (bindingEntry p <$> setBindings st) (allowOnly c)
      (allowedList c) (allowedStaticRefs c) (allowedStorage c)).

(** The table is allocated on first use; [rebuild] fills it from the text. *)
Definition reloadAllowedComputers (p : Platform) (st : Settings) (c : Config) : Config :=
  let storage := if AllowedList.available (allowedList c) then allowedStorage c
                 else allowedStorage c || psram p in
  let al := if AllowedList.available (allowedList c) then allowedList c
            else if storage then snd (AllowedList.init true (allowedList c)) else allowedList c in
  let '(_, _, al) := AllowedList.rebuild (AllowedList.parse (setAllowedComputers st)) al in
  mkConfig (serverIp c) (serverNetmask c) (serverGateway c) (rangeStart c) (rangeEnd c)
    (leaseTimeSec c) (dnsMode c) (dnsManualIp c) (dnsServerRunning c) (maxLeaseEntries c)
    (maxLeaseEntriesEffective c) (staticBindings c) (setAllowOnly st) al
    (allowedStaticRefs c) storage.

Definition applyLeaseLimit (p : Platform) (st : Settings) (c : Config) : Config :=
  mkConfig (serverIp c) (serverNetmask c) (serverGateway c) (rangeStart c) (rangeEnd c)
    (leaseTimeSec c) (dnsMode c) (dnsManualIp c) (dnsServerRunning c) (setMaxLeaseEntries st)
    (leaseLimit (setMaxLeaseEntries st) (ipStrToU32 p (setStartIp st)) (ipStrToU32 p (setEndIp st)))
    (staticBindings c) (allowOnly c) (allowedList c) (allowedStaticRefs c) (allowedStorage c).

(** ** [start] and [stop] *)

(** The settings [start] caches, and the server's own address: the interface's,
    or the configured one while the interface has none. *)
Definition cacheConfig (p : Platform) (st : Settings) (c : Config) : Config :=
  let own := default (serverIp c, serverNetmask c, serverGateway c) (netif p) in
  let own := if own.1.1 =? 0
             then (ipStrToU32 p (setServerIp st), ipStrToU32 p (setSubnet st),
                   ipStrToU32 p (setGateway st))
             else own in
  mkConfig own.1.1 own.1.2 own.2 (ipStrToU32 p (setStartIp st)) (ipStrToU32 p (setEndIp st))
    (setLeaseTimeSec st) (setDnsMode st) (ipStrToU32 p (setDnsAddress st)) (dnsServerRunning c)
    (maxLeaseEntries c) (maxLeaseEntriesEffective c) (staticBindings c) (allowOnly c)
    (allowedList c) (allowedStaticRefs c) (allowedStorage c).

Definition isRunning (x : DhcpServerState) : bool :=
  match x with RUNNING => true | _ => false end.

Definition start (p : Platform) (st : Settings) (s : Server) : bool * Server :=
  if isRunning (status s) then (true, s)
  else
    let c := cacheConfig p st (cfg s) in
    if serverIp c =? 0 then (false, set_status ERROR (set_cfg c s))
    else
      let c := reloadStaticBindings p st c in
      let c := reloadAllowedComputers p st c in
      let c := applyLeaseLimit p st c in
      let s := set_declined (Declined.clear (declined s)) (set_status RUNNING (set_cfg c s)) in
      if negb (taskCreated p) then (false, set_status ERROR s) else (true, s).

Definition stop (s : Server) : Server :=
  match status s with
  | STOPPED => s
  | _ => set_leases [] (set_status STOPPED s)
  end.

(** ** The cap *)

(** Whatever is configured and however large the pool, the table's cap
    is between 8 and 512 entries; a configured value in that range is kept. *)
Theorem leaseLimit_bounds configured start_ end_ : is_u32 configured →
  DHCP_MIN_LEASE_ENTRIES <= leaseLimit configured start_ end_ <= DHCP_MAX_LEASE_ENTRIES ∧
  (DHCP_MIN_LEASE_ENTRIES <= configured <= DHCP_MAX_LEASE_ENTRIES →
     leaseLimit configured start_ end_ = configured).
Proof.
  intros Hc. unfold leaseLimit. cbv zeta. set (v := if configured =? 0 then _ else _).
  assert (Hv : configured ≠ 0 → v = configured).
  { intros Hne. unfold v. by destruct (Z.eqb_spec configured 0). }
  clearbody v. unfold DHCP_MIN_LEASE_ENTRIES, DHCP_MAX_LEASE_ENTRIES.
  destruct (Z.ltb_spec v 8); [split; [by vm_compute|lia]|].
  destruct (Z.ltb_spec 512 v); lia.
Qed.

Example leaseLimit_bounds_witness :
  leaseLimit 0 (of_le4 192 168 1 100) (of_le4 192 168 1 200) = 202 ∧
  leaseLimit 100 0 0 = 100.
Proof.
  split; [by vm_compute|]. apply (leaseLimit_bounds 100 0 0); vm_compute; split; congruence.
Defined.

(** ** Admission, from the operator's text to the packet *)

(** An enabled entry of the allow-list text for this MAC. *)
Definition listed (st : Settings) (m : bytes) : Prop :=
  ∃ e, e ∈ AllowedList.parse (setAllowedComputers st) ∧ AllowedList.enabled e = true ∧
       AllowedList.parseMac (AllowedList.mac e) = Some m.

Definition bound (p : Platform) (st : Settings) (m : bytes) : Prop :=
  ∃ b, b ∈ setBindings st ∧ bEnabled b = true ∧ scanMac p (bMac b) = m.

(** What the packet path sees of a configuration loaded from the settings. *)
Record loaded (p : Platform) (st : Settings) (c : Config) : Prop := {
  loaded_bindings : staticBindings c = bindingEntry p <$> setBindings st;
  loaded_refs : allowedStaticRefs c =
    (λ e, AllowedList.mkRef (sMac e) (sEnabled e)) <$> staticBindings c;
  loaded_switch : allowOnly c = setAllowOnly st;
  loaded_list : ∃ al, is_Some (AllowedList.slots al) ∧
    allowedList c = snd (AllowedList.rebuild (AllowedList.parse (setAllowedComputers st)) al);
}.

Lemma reload_list p st c : psram p = true ∨ AllowedList.available (allowedList c) = true →
  ∃ al, is_Some (AllowedList.slots al) ∧
    allowedList (reloadAllowedComputers p st c) =
      snd (AllowedList.rebuild (AllowedList.parse (setAllowedComputers st)) al).
Proof.
  intros H. unfold reloadAllowedComputers.
  destruct (AllowedList.available (allowedList c)) eqn:Ha.
  - exists (allowedList c). split; [by apply bool_decide_eq_true in Ha|].
    by destruct (AllowedList.rebuild _ _) as [[? ?] ?].
  - destruct H as [Hp|]; [|done]. rewrite Hp, orb_true_r.
    exists (snd (AllowedList.init true (allowedList c))). split; [by eexists|].
    by destruct (AllowedList.rebuild _ _) as [[? ?] ?].
Qed.

(** A successful [start] leaves the server running with the settings as
    they are stored: its address is not zero, the pool is the configured one, the
    allow-list table answers for the stored list; no refusal is remembered from
    before, and the leases of an earlier run are kept. *)
Theorem start_ready p st s s' : start p st s = (true, s') → status s ≠ RUNNING → psram p = true →
  status s' = RUNNING ∧ serverIp (cfg s') ≠ 0 ∧ leases s' = leases s ∧
  loaded p st (cfg s') ∧
  rangeStart (cfg s') = ipStrToU32 p (setStartIp st) ∧
  rangeEnd (cfg s') = ipStrToU32 p (setEndIp st) ∧
  (∀ ip0 nowMs, Declined.isDeclined ip0 nowMs (declined s') = false).
Proof.
  unfold start. intros H Hr Hp.
  assert (Hnr : isRunning (status s) = false) by (by destruct (status s)). rewrite Hnr in H.
  destruct (Z.eqb_spec (serverIp (cacheConfig p st (cfg s))) 0) as [|Hne]; [done|].
  destruct (taskCreated p); cbn [negb] in H; [|done].
  apply (f_equal snd) in H. cbn [snd] in H. rewrite <- H. clear H s'.
  set (c0 := reloadStaticBindings p st (cacheConfig p st (cfg s))).
  destruct (reload_list p st c0 (or_introl Hp)) as (al & Hal & Heq).
  assert (Hc : ∃ n storage, reloadAllowedComputers p st c0 =
    mkConfig (serverIp c0) (serverNetmask c0) (serverGateway c0) (rangeStart c0) (rangeEnd c0)
      (leaseTimeSec c0) (dnsMode c0) (dnsManualIp c0) (dnsServerRunning c0) (maxLeaseEntries c0)
      n (staticBindings c0) (setAllowOnly st)
      (snd (AllowedList.rebuild (AllowedList.parse (setAllowedComputers st)) al))
      (allowedStaticRefs c0) storage).
  { rewrite <- Heq. unfold reloadAllowedComputers.
    match goal with |- context [AllowedList.rebuild ?l ?x] =>
      lazymatch x with context [AllowedList.rebuild] => fail | _ =>
        destruct (AllowedList.rebuild l x) as [[? ?] ?] end end.
    by eexists _, _. }
  destruct Hc as (n & storage & ->). cbn [set_declined set_status set_cfg status cfg leases declined
    applyLeaseLimit serverIp rangeStart rangeEnd].
  split_and!; try done.
  - split; [done|done|done|]. by exists al.
  - intros ip0 nowMs. apply Declined.isDeclined_clear.
Qed.

Lemma loaded_allowed p st c m : loaded p st c → setAllowOnly st = true →
  AllowedList.isClientAllowed m (allowOnly c) (allowedList c) (allowedStaticRefs c) = true ↔
  listed st m ∨ bound p st m.
Proof.
  intros [Hb Hr Hs (al & Hal & Hl)] Hon. rewrite Hl, AllowedList.policy_spec, Hs, Hon, Hr, Hb.
  destruct Hal as [b Eb]. unfold listed, AllowedList.wanted, bound.
  split; [|intros [Hw|(x & Hx & He & Hm)]].
  - intros [?|[?|[Hw|(r & Hin & He & Hm)]]]; [done|congruence|by left|right].
    rewrite <- list_fmap_compose in Hin. apply list_elem_of_fmap in Hin as (x & -> & Hx). by exists x.
  - right. right. by left.
  - right. right. right. exists (AllowedList.mkRef (scanMac p (bMac x)) (bEnabled x)).
    split; [|done]. rewrite <- list_fmap_compose. apply list_elem_of_fmap. by exists x.
Qed.

(** With "only allowed computers" on, a packet from a MAC that is
    neither an enabled line of the operator's list nor the MAC of an enabled
    static binding is dropped without a trace: no reply, no lease, no hold-down,
    not even a log event.  Every listed or bound client passes the check. *)
Theorem stranger_ignored env p st buf len s m : loaded p st (cfg s) → setAllowOnly st = true →
  wf_bytes buf → length buf = kBufBytes → (len <= kBufBytes)%nat →
  rdn 6 buf offChaddr = Done m →
  (¬ listed st m → ¬ bound p st m → handleDhcpMessage env buf len s = Done (false, s)) ∧
  (listed st m ∨ bound p st m →
     AllowedList.isClientAllowed m (allowOnly (cfg s)) (allowedList (cfg s))
       (allowedStaticRefs (cfg s)) = true).
Proof.
  intros Hld Hon Hwf Hl Hlen Hm. pose proof (loaded_allowed p st (cfg s) m Hld Hon) as Hiff.
  split; [|by intros ?%Hiff]. intros Hnl Hnb.
  destruct (handle_cases env buf len Hwf Hl Hlen) as [H|(o&h&m'&xid&ci&gi&Hp&H)]; [done|].
  rewrite H. assert (m' = m) as -> by (pose proof (packet_chaddr _ _ _ _ _ _ _ _ Hp); congruence).
  destruct (AllowedList.isClientAllowed _ _ _ _); [|done].
  destruct Hiff as [Hiff _]. by destruct (Hiff eq_refl).
Qed.

(** A device with one allowed computer and one binding, started. *)
Definition demoPlatform : Platform :=
  mkPlatform (λ t, if bytes_eqb t (lit "192.168.1.100") then Some (of_le4 192 168 1 100)
                   else if bytes_eqb t (lit "192.168.1.200") then Some (of_le4 192 168 1 200)
                   else None)
    (λ _, 0) (replicate 6 255)
    (Some (of_le4 192 168 1 1, of_le4 255 255 255 0, of_le4 192 168 1 1)) true true.

Definition demoSettings : Settings :=
  mkSettings [] (lit "192.168.1.100") (lit "192.168.1.200") [] [] 86400 0 true (lit "auto") []
    [mkBinding (lit "02:00:00:00:00:0B") (lit "192.168.1.50") [] true true true]
    (lit "02-00-00-00-00-0a|laptop|1").

Definition demoStarted : Server :=
  snd (start demoPlatform demoSettings
         (mkServer (mkConfig 0 0 0 0 0 0 [] 0 false 0 64 [] false AllowedList.init0 [] false)
            STOPPED [] Declined.empty 0 0 [])).

Lemma demo_loaded : loaded demoPlatform demoSettings (cfg demoStarted).
Proof.
  split; [by vm_compute..|].
  exists (snd (AllowedList.init true AllowedList.init0)). split; [by eexists|by vm_compute].
Qed.

Example demo_parse_mac : scanMac demoPlatform (lit "02:00:00:00:00:0B") = macB.
Proof. by vm_compute. Qed.

Example demo_junk_mac : scanMac demoPlatform (lit "02-00-00-00-00-0B") = [2; 255; 255; 255; 255; 255].
Proof. by vm_compute. Qed.

(** A DISCOVER of a stranger in the receive buffer. *)
Definition strangerBuf : bytes :=
  replyHeader 7 0 0 0 [2; 0; 0; 0; 0; 99] ++ tlv DHCP_OPT_MSG_TYPE [DHCP_DISCOVER] ++
  [DHCP_OPT_END] ++ replicate 780 0.

Lemma strangerBuf_wf : wf_bytes strangerBuf.
Proof.
  unfold strangerBuf, replyHeader, tlv. rewrite !wf_bytes_app.
  split_and!; try apply le4_wf; try apply Forall_replicate; repeat constructor; by vm_compute.
Qed.

Example stranger_ignored_witness :
  handleDhcpMessage quietEnv strangerBuf 244 demoStarted = Done (false, demoStarted).
Proof.
  apply (stranger_ignored quietEnv demoPlatform demoSettings strangerBuf 244 demoStarted
    [2; 0; 0; 0; 0; 99]);
    [apply demo_loaded|done|apply strangerBuf_wf|by vm_compute|unfold kBufBytes; lia|by vm_compute| |].
  - intros (e & He & _ & Hm). revert He Hm. vm_compute.
    intros [->|[]%elem_of_nil]%elem_of_cons. done.
  - intros (b & Hb & _ & Hm). revert Hm. apply list_elem_of_singleton in Hb as ->. by vm_compute.
Defined.

(** The task loop on that datagram and two timeouts. *)
Lemma demo_loop_ok : conf_ok (cfg demoStarted) ∧ inv demoStarted.
Proof. split; [by vm_compute|]. split; [done|by apply Forall_nil|by vm_compute]. Qed.

Example serverLoop_safe_witness :
  ∃ s', serverLoop quietEnv [None; Some (take 244 strangerBuf); None] (replicate 1024 170) demoStarted =
    Done (tt, s') ∧ inv s' ∧ cfg s' = cfg demoStarted.
Proof.
  apply (serverLoop_safe quietEnv [None; Some (take 244 strangerBuf); None] (replicate 1024 170)
    demoStarted); [|apply Forall_replicate; by vm_compute|by vm_compute|apply demo_loop_ok..].
  constructor; [done|]. constructor; [apply Forall_take, strangerBuf_wf|by constructor].
Defined.

Example start_ready_witness :
  status demoStarted = RUNNING ∧ rangeEnd (cfg demoStarted) = of_le4 192 168 1 200.
Proof.
  destruct (start_ready demoPlatform demoSettings
    (mkServer (mkConfig 0 0 0 0 0 0 [] 0 false 0 64 [] false AllowedList.init0 [] false)
       STOPPED [] Declined.empty 0 0 []) demoStarted) as (H1 & _ & _ & _ & _ & H6 & _);
    [by vm_compute|done|done|]. split; [exact H1|exact H6].
Defined.

End DhcpLifecycle.
