(* ===== verification/DnsPool.v ===== *)
(** * The node pool of the internal DNS cache

    The arena of src/dns/InternalDnsCache.cpp: bucket heads, nodes chained by
    index, the free-node stack; walking, allocating, freeing and unlinking.
    Indices are the [int32_t]s of the source, [-1] ends a chain. *)
From S2P Require Import Prelude.
From stdpp Require Import gmap.
#[local] Open Scope Z_scope.

Module DnsPool.

Definition kMaxNameLen : nat := 127.
Definition kMaxA : nat := 16.
Definition kMaxAAAA : nat := 8.
Definition kTypeA : Z := 1.
Definition kTypeAaaa : Z := 28.
Definition kFnvOffsetBasis : Z := 2166136261.
Definition kFnvPrime : Z := 16777619.

(** One record slot; [name] is the C string, [a4] and [a6] the two address
    arrays. *)
Record Node := mkNode {
  next : Z;
  hash : Z;
  qtype : Z;
  nA : nat;
  nAAAA : nat;
  storedMs : Z;
  ttl : Z;
  uses : Z;
  name : bytes;
  a4 : list Z;
  a6 : list bytes;
}.

Definition zeroNode : Node := mkNode 0 0 0 0 0 0 0 0 [] (replicate kMaxA 0)
  (replicate kMaxAAAA (replicate 16 0)).

Definition set_next (z : Z) (n : Node) : Node :=
  mkNode z (hash n) (qtype n) (nA n) (nAAAA n) (storedMs n) (ttl n) (uses n) (name n) (a4 n) (a6 n).

Record Pool := mkPool {
  buckets : list Z;
  nodes : list Node;
  freeHead : Z;
  entries : Z;
}.

(** FNV-1a over the bytes of the C string. *)
Definition hashName (s : bytes) : Z :=
  foldl (λ h c, u32 (Z.lxor h c * kFnvPrime)) kFnvOffsetBasis s.

Definition lower (s : bytes) : bytes := tolower <$> s.

(** What [c_str()] of a [std::string] shows to the C functions. *)
Fixpoint c_str (s : bytes) : bytes :=
  match s with
  | [] => []
  | c :: s' => if c =? 0 then [] else c :: c_str s'
  end.

Definition bucketOf (p : Pool) (h : Z) : nat := Z.to_nat (h mod Z.of_nat (length (buckets p))).

Definition elapsedMs (now stored : Z) : Z := u32 (now - stored).

(** Reading the two arrays of the arena. *)
Definition rdNode (ns : list Node) (idx : Z) : run Node :=
  if idx <? 0 then OutOfBounds
  else match ns !! Z.to_nat idx with Some n => Done n | None => OutOfBounds end.

Definition rdBucket (p : Pool) (b : nat) : run Z :=
  match buckets p !! b with Some h => Done h | None => OutOfBounds end.

Definition setNode (idx : Z) (n : Node) (p : Pool) : Pool :=
  mkPool (buckets p) (<[Z.to_nat idx := n]> (nodes p)) (freeHead p) (entries p).
Definition setBucket (b : nat) (h : Z) (p : Pool) : Pool :=
  mkPool (<[b := h]> (buckets p)) (nodes p) (freeHead p) (entries p).
Definition setFree (h : Z) (p : Pool) : Pool :=
  mkPool (buckets p) (nodes p) h (entries p).
Definition setEntries (n : Z) (p : Pool) : Pool :=
  mkPool (buckets p) (nodes p) (freeHead p) n.

(** Walks carry one unit of fuel per node of the pool, and one to see the end. *)
Definition walkFuel (p : Pool) : nat := S (length (nodes p)).

(** ** The operations *)

Definition matchesKey (h : Z) (nm : bytes) (q : Z) (n : Node) : bool :=
  (hash n =? h) && (qtype n =? q) && bytes_eqb (name n) nm.

(** The walk of [findNode]: the index found (or [-1]) and the nodes seen. *)
Fixpoint find_walk (fuel : nat) (ns : list Node) (idx : Z) (h : Z) (nm : bytes) (q seen : Z)
  : run (Z * Z) :=
  match fuel with
  | O => OutOfFuel
  | S f =>
      if idx <? 0 then mret (-1, seen)
      else
        n ← rdNode ns idx;
        if matchesKey h nm q n then mret (idx, seen + 1)
        else find_walk f ns (next n) h nm q (seen + 1)
  end.

Definition findNode (p : Pool) (b : nat) (h : Z) (nm : bytes) (q : Z) : run (Z * Z) :=
  head ← rdBucket p b;
  find_walk (walkFuel p) (nodes p) head h nm q 0.

Definition allocNode (p : Pool) : run (Z * Pool) :=
  if freeHead p <? 0 then mret (-1, p)
  else
    n ← rdNode (nodes p) (freeHead p);
    mret (freeHead p, setFree (next n) (setNode (freeHead p) (set_next (-1) n) p)).

Definition freeNode (idx : Z) (p : Pool) : run Pool :=
  n ← rdNode (nodes p) idx;
  mret (setFree idx (setNode idx (set_next (freeHead p) n) p)).

(** The walk of [unlinkNode]. *)
Fixpoint unlink_walk (fuel : nat) (b : nat) (idx prev cur : Z) (p : Pool) : run Pool :=
  match fuel with
  | O => OutOfFuel
  | S f =>
      if cur <? 0 then mret p
      else
        n ← rdNode (nodes p) cur;
        if cur =? idx then
          p ← (if prev <? 0 then mret (setBucket b (next n) p)
               else m ← rdNode (nodes p) prev; mret (setNode prev (set_next (next n) m) p));
          p ← freeNode idx p;
          mret (setEntries (entries p - 1) p)
        else unlink_walk f b idx cur (next n) p
  end.

Definition unlinkNode (b : nat) (idx : Z) (p : Pool) : run Pool :=
  head ← rdBucket p b;
  unlink_walk (walkFuel p) b idx (-1) head p.

(** The state of the victim scan. *)
Record Scan := mkScan { best : Z; bestUses : Z; bestAge : Z; bestBucket : nat; seen : Z }.

Definition scanNode (now : Z) (b : nat) (idx : Z) (n : Node) (s : Scan) : Scan :=
  let s := mkScan (best s) (bestUses s) (bestAge s) (bestBucket s) (seen s + 1) in
  if (0 <=? best s) && (bestUses s <? uses n) then s
  else
    let age := elapsedMs now (storedMs n) in
    if (0 <=? best s) && (uses n =? bestUses s) && (age <=? bestAge s) then s
    else mkScan idx (uses n) age b (seen s).

Fixpoint scan_chain (fuel : nat) (ns : list Node) (now : Z) (b : nat) (idx : Z) (s : Scan)
  : run Scan :=
  match fuel with
  | O => OutOfFuel
  | S f =>
      if idx <? 0 then mret s
      else n ← rdNode ns idx; scan_chain f ns now b (next n) (scanNode now b idx n s)
  end.

Fixpoint scan_buckets (bs : list Z) (p : Pool) (now : Z) (b : nat) (s : Scan) : run Scan :=
  match bs with
  | [] => mret s
  | h :: bs' =>
      s ← scan_chain (walkFuel p) (nodes p) now b h s;
      scan_buckets bs' p now (S b) s
  end.

Definition findEvictVictim (p : Pool) (now : Z) : run Scan :=
  scan_buckets (buckets p) p now 0 (mkScan (-1) UINT32_MAX 0 0 0).

(** The free-node stack and the empty buckets [enable] and [clear] build. *)
Fixpoint pushFree (ns : list Node) (i : nat) (head : Z) : list Node * Z :=
  match ns with
  | [] => ([], head)
  | n :: ns' =>
      let '(rest, h) := pushFree ns' (S i) (Z.of_nat i) in (set_next head n :: rest, h)
  end.

Definition emptyPool (numBuckets : nat) (ns : list Node) : Pool :=
  let '(ns, head) := pushFree ns 0 (-1) in
  mkPool (replicate numBuckets (-1)) ns head 0.

(** ** Chains *)

Definition nodeAt (ns : list Node) (i : nat) : Node := default zeroNode (ns !! i).

(** [chain ns h l]: following [next] from [h] visits exactly [l]. *)
Fixpoint chain (ns : list Node) (h : Z) (l : list nat) : Prop :=
  match l with
  | [] => h = -1
  | i :: l' => h = Z.of_nat i ∧ (i < length ns)%nat ∧ chain ns (next (nodeAt ns i)) l'
  end.

Lemma rdNode_in ns i : (i < length ns)%nat → rdNode ns (Z.of_nat i) = Done (nodeAt ns i).
Proof.
  intros H. unfold rdNode, nodeAt. destruct (Z.ltb_spec (Z.of_nat i) 0); [lia|].
  rewrite Nat2Z.id. by destruct (lookup_lt_is_Some_2 ns i H) as [n ->].
Qed.

Lemma nodeAt_insert ns i n : (i < length ns)%nat → nodeAt (<[i := n]> ns) i = n.
Proof. intros H. unfold nodeAt. by rewrite list_lookup_insert_eq. Qed.

Lemma nodeAt_insert_ne ns i j n : i ≠ j → nodeAt (<[i := n]> ns) j = nodeAt ns j.
Proof. intros H. unfold nodeAt. by rewrite list_lookup_insert_ne. Qed.

Lemma chain_bound ns h l : chain ns h l → Forall (λ i, (i < length ns)%nat) l.
Proof. revert h. induction l as [|i l IH]; intros h; cbn; [done|]. intros (_ & ? & ?%IH). by constructor. Qed.

(** A chain depends only on its own links. *)
Lemma chain_frame ns ns' h l : length ns' = length ns →
  (∀ i, i ∈ l → next (nodeAt ns' i) = next (nodeAt ns i)) → chain ns h l → chain ns' h l.
Proof.
  intros Hl. revert h. induction l as [|i l IH]; intros h Hn; cbn; [done|].
  intros (-> & Hi & Hc). split_and!; [done|lia|]. rewrite Hn by by left.
  apply IH; [|done]. intros j Hj. apply Hn. by right.
Qed.

Lemma chain_insert_notin ns h l i n : i ∉ l → chain ns h l → chain (<[i := n]> ns) h l.
Proof.
  intros Hi. apply chain_frame; [apply length_insert|]. intros j Hj.
  rewrite nodeAt_insert_ne; [done|]. by intros ->.
Qed.

Lemma chain_insert_same ns h l i n : next n = next (nodeAt ns i) → (i < length ns)%nat →
  chain ns h l → chain (<[i := n]> ns) h l.
Proof.
  intros Hn Hi. apply chain_frame; [apply length_insert|]. intros j Hj.
  destruct (decide (i = j)) as [->|]; [by rewrite nodeAt_insert|by rewrite nodeAt_insert_ne].
Qed.

Lemma chain_app_inv ns h l1 i l2 : chain ns h (l1 ++ i :: l2) →
  (i < length ns)%nat ∧ chain ns (next (nodeAt ns i)) l2.
Proof.
  revert h. induction l1 as [|j l1 IH]; intros h; cbn.
  - by intros (_ & ? & ?).
  - intros (_ & _ & H). by eapply IH.
Qed.

(** ** The walks on a chain *)

Lemma find_walk_spec ns l : ∀ h fuel hs nm q s, chain ns h l → (length l < fuel)%nat →
  find_walk fuel ns h hs nm q s =
    Done (match List.find (λ i, matchesKey hs nm q (nodeAt ns i)) l with
          | Some i => Z.of_nat i | None => -1 end,
          s + Z.of_nat (match index_of (λ i, matchesKey hs nm q (nodeAt ns i)) l with
                        | Some k => S k | None => length l end)).
Proof.
  induction l as [|i l IH]; intros h fuel hs nm q s; cbn [chain length];
    (destruct fuel as [|f]; [lia|]); cbn [find_walk].
  - intros -> _. cbn. by rewrite Z.add_0_r.
  - intros (-> & Hi & Hc) Hf. destruct (Z.ltb_spec (Z.of_nat i) 0); [lia|].
    rewrite rdNode_in, run_bind_done by done. cbn [List.find index_of].
    destruct (matchesKey hs nm q (nodeAt ns i)) eqn:E; [done|].
    rewrite (IH _ f) by (done || lia).
    destruct (index_of _ l); cbn [fmap option_fmap option_map]; do 2 f_equal; lia.
Qed.

(** The links after [idx] has been taken out between [l1] and [l2]. *)
Definition bypass (l1 : list nat) (after : Z) (ns : list Node) : list Node :=
  match last l1 with
  | None => ns
  | Some j => <[j := set_next after (nodeAt ns j)]> ns
  end.

Lemma chain_bypass ns l1 i l2 h : NoDup (l1 ++ i :: l2) → chain ns h (l1 ++ i :: l2) →
  chain (bypass l1 (next (nodeAt ns i)) ns) (if decide (l1 = []) then next (nodeAt ns i) else h) (l1 ++ l2).
Proof.
  revert h. induction l1 as [|j l1 IH]; intros h Hnd Hc; cbn [app] in *.
  { by destruct Hc as (_ & _ & Hc). }
  destruct (decide (j :: l1 = [])) as [?|_]; [done|].
  destruct Hc as (-> & Hj & Hc). apply NoDup_cons in Hnd as [Hni Hnd].
  pose proof (chain_app_inv _ _ _ _ _ Hc) as [Hi Hc2]. cbn [chain].
  destruct l1 as [|k l1].
  - unfold bypass. cbn [last app] in *. rewrite length_insert. split_and!; [done|done|].
    rewrite nodeAt_insert by done. cbn [next set_next].
    apply chain_insert_notin; [|done]. intros Hin. apply Hni. by right.
  - specialize (IH _ Hnd Hc). destruct (decide (k :: l1 = [])) as [?|_]; [done|].
    unfold bypass in *. change (last (j :: k :: l1)) with (last (k :: l1)).
    destruct (last (k :: l1)) as [x|] eqn:Hx; [|by apply last_None in Hx].
    rewrite length_insert. split_and!; [done|done|].
    assert (x ≠ j).
    { intros ->. apply Hni. apply elem_of_app. left. apply last_Some in Hx as [l' ->].
      apply elem_of_app. right. by left. }
    by rewrite nodeAt_insert_ne.
Qed.

Lemma setNode_nat i n p : setNode (Z.of_nat i) n p =
  mkPool (buckets p) (<[i := n]> (nodes p)) (freeHead p) (entries p).
Proof. unfold setNode. by rewrite Nat2Z.id. Qed.

Lemma freeNode_eq i p : (i < length (nodes p))%nat → freeNode (Z.of_nat i) p =
  Done (mkPool (buckets p) (<[i := set_next (freeHead p) (nodeAt (nodes p) i)]> (nodes p))
          (Z.of_nat i) (entries p)).
Proof. intros H. unfold freeNode. by rewrite rdNode_in, run_bind_done, setNode_nat. Qed.

Lemma unlink_walk_spec p b idx l1 l2 : ∀ pre cur fuel, (length (l1 ++ idx :: l2) < fuel)%nat →
  NoDup (pre ++ l1 ++ idx :: l2) → chain (nodes p) cur (l1 ++ idx :: l2) →
  Forall (λ i, (i < length (nodes p))%nat) pre →
  unlink_walk fuel b (Z.of_nat idx) (match last pre with Some j => Z.of_nat j | None => -1 end) cur p =
  Done (let after := next (nodeAt (nodes p) idx) in
        let ns := bypass (pre ++ l1) after (nodes p) in
        mkPool (if decide (pre ++ l1 = []) then <[b := after]> (buckets p) else buckets p)
          (<[idx := set_next (freeHead p) (nodeAt ns idx)]> ns) (Z.of_nat idx) (entries p - 1)).
Proof.
  induction l1 as [|i l1 IH]; intros pre cur fuel Hf Hnd Hc Hpre;
    (destruct fuel as [|f]; [cbn [app length] in Hf; lia|]); cbn [unlink_walk app] in *;
    destruct Hc as (-> & Hi & Hc);
    (match goal with |- context [Z.of_nat ?k <? 0] => destruct (Z.ltb_spec (Z.of_nat k) 0); [lia|] end);
    rewrite rdNode_in, run_bind_done by done.
  - rewrite Z.eqb_refl, app_nil_r. unfold bypass.
    destruct (last pre) as [j|] eqn:Hl.
    + destruct (Z.ltb_spec (Z.of_nat j) 0); [lia|].
      assert (Hj : (j < length (nodes p))%nat).
      { apply last_Some in Hl as [l' ->]. rewrite Forall_app, Forall_singleton in Hpre. naive_solver. }
      assert (j ≠ idx).
      { intros ->. apply last_Some in Hl as [l' ->]. rewrite <- app_assoc in Hnd.
        apply NoDup_app in Hnd as (_ & _ & Hnd). apply NoDup_cons in Hnd as [Hnd _].
        apply Hnd. by left. }
      rewrite rdNode_in, run_bind_done, setNode_nat by done.
      unfold mret at 1, run_ret at 1. rewrite run_bind_done.
      rewrite freeNode_eq by (cbn [nodes]; by rewrite length_insert). rewrite run_bind_done.
      unfold setEntries. cbn [buckets nodes freeHead entries].
      destruct (decide (pre = [])) as [->|]; done.
    + apply last_None in Hl as ->. change (-1 <? 0) with true. cbn [decide].
      unfold mret at 1, run_ret at 1. rewrite run_bind_done.
      by rewrite freeNode_eq, run_bind_done.
  - destruct (Z.eqb_spec (Z.of_nat i) (Z.of_nat idx)) as [Heq|_].
    { apply Nat2Z.inj in Heq as ->. apply NoDup_app in Hnd as (_ & _ & Hnd).
      apply NoDup_cons in Hnd as [Hn _]. destruct Hn. apply elem_of_app. right. by left. }
    specialize (IH (pre ++ [i]) (next (nodeAt (nodes p) i)) f).
    rewrite last_snoc in IH. rewrite IH.
    + by rewrite <- !app_assoc.
    + cbn [length] in Hf. lia.
    + by rewrite <- app_assoc.
    + done.
    + apply Forall_app. split; [done|]. by apply Forall_singleton.
Qed.

(** ** The invariant

    Every node is in exactly one chain, on the free stack, or in the hands of
    the operation in progress ([loose]); a record sits in the bucket its name
    hashes to; no two records share a name and a type. *)

Abbreviation key := (bytes * Z)%type.

Definition keyOf (n : Node) : key := (name n, qtype n).

Definition keys (ns : list Node) (l : list nat) : list key := (λ i, keyOf (nodeAt ns i)) <$> l.

Record wf (p : Pool) (chains : list (list nat)) (free loose : list nat) : Prop := {
  wf_len : length chains = length (buckets p);
  wf_some : (0 < length (buckets p))%nat;
  wf_chain b h l : buckets p !! b = Some h → chains !! b = Some l → chain (nodes p) h l;
  wf_free : chain (nodes p) (freeHead p) free;
  wf_perm : concat chains ++ free ++ loose ≡ₚ seq 0 (length (nodes p));
  wf_entries : entries p = Z.of_nat (length (concat chains));
  wf_home b l i : chains !! b = Some l → i ∈ l →
    hash (nodeAt (nodes p) i) = hashName (name (nodeAt (nodes p) i)) ∧
    bucketOf p (hash (nodeAt (nodes p) i)) = b;
  wf_keys : NoDup (keys (nodes p) (concat chains));
}.

Lemma bucketOf_len p p' h : length (buckets p') = length (buckets p) → bucketOf p' h = bucketOf p h.
Proof. unfold bucketOf. by intros ->. Qed.

Lemma concat_insert {A} (ls : list (list A)) b l : ls !! b = Some l →
  ∃ rest, concat ls ≡ₚ l ++ rest ∧ ∀ l', concat (<[b := l']> ls) ≡ₚ l' ++ rest.
Proof.
  intros Hb. exists (concat (take b ls) ++ concat (drop (S b) ls)). split.
  - rewrite <- (take_drop_middle ls b l Hb) at 1. rewrite concat_app, concat_cons.
    rewrite !app_assoc. apply Permutation_app_tail, Permutation_app_comm.
  - intros l'. apply lookup_lt_Some in Hb. rewrite insert_take_drop by done.
    rewrite concat_app, concat_cons, !app_assoc. apply Permutation_app_tail, Permutation_app_comm.
Qed.

Lemma elem_concat {A} (ls : list (list A)) x : x ∈ concat ls ↔ ∃ b l, ls !! b = Some l ∧ x ∈ l.
Proof.
  induction ls as [|l ls IH]; cbn.
  - split; [by intros ?%elem_of_nil|]. by intros (? & ? & ? & _).
  - rewrite elem_of_app, IH. split.
    + intros [?|(b & l' & ? & ?)]; [by exists 0%nat, l|by exists (S b), l'].
    + intros ([|b] & l' & Hb & Hx); cbn in Hb; [simplify_eq; by left|right; by exists b, l'].
Qed.

Section Wf.
Context (p : Pool) (chains : list (list nat)) (free loose : list nat) (Hwf : wf p chains free loose).

Lemma wf_nodup : NoDup (concat chains ++ free ++ loose).
Proof. rewrite (wf_perm _ _ _ _ Hwf). apply NoDup_seq. Qed.

Lemma wf_bound i : i ∈ concat chains ++ free ++ loose → (i < length (nodes p))%nat.
Proof. rewrite (wf_perm _ _ _ _ Hwf), elem_of_seq. lia. Qed.

Lemma bucketOf_lt h : (bucketOf p h < length (buckets p))%nat.
Proof. unfold bucketOf. pose proof (wf_some _ _ _ _ Hwf). zify. Z.div_mod_to_equations. lia. Qed.

Lemma wf_bucket b : (b < length (buckets p))%nat → ∃ h l, buckets p !! b = Some h ∧
  chains !! b = Some l ∧ chain (nodes p) h l ∧ (length l <= length (nodes p))%nat.
Proof.
  intros Hb. destruct (lookup_lt_is_Some_2 (buckets p) b Hb) as [h Hh].
  destruct (lookup_lt_is_Some_2 chains b) as [l Hl]; [by rewrite (wf_len _ _ _ _ Hwf)|].
  exists h, l. split_and!; [done|done|by eapply wf_chain|].
  destruct (concat_insert chains b l Hl) as (rest & Hp & _).
  pose proof (wf_perm _ _ _ _ Hwf) as Hseq. rewrite Hp in Hseq.
  apply Permutation_length in Hseq. rewrite !length_app, length_seq in Hseq. lia.
Qed.

Lemma chain_nodup b l : chains !! b = Some l → NoDup l.
Proof.
  intros Hl. destruct (concat_insert chains b l Hl) as (rest & Hp & _).
  pose proof wf_nodup as Hnd. rewrite Hp, <- app_assoc in Hnd. by apply NoDup_app in Hnd as [? _].
Qed.

Lemma keys_inj i j : i ∈ concat chains → j ∈ concat chains →
  keyOf (nodeAt (nodes p) i) = keyOf (nodeAt (nodes p) j) → i = j.
Proof.
  intros [a Ha]%list_elem_of_lookup [b Hb]%list_elem_of_lookup Heq.
  assert (a = b); [|congruence]. eapply (NoDup_lookup _ a b (keyOf (nodeAt (nodes p) i)));
    [apply (wf_keys _ _ _ _ Hwf)|..]; unfold keys; rewrite list_lookup_fmap.
  - by rewrite Ha.
  - by rewrite Hb, Heq.
Qed.

(** What [findNode] finds in the bucket a name hashes to. *)
Lemma findNode_spec nm q : let b := bucketOf p (hashName nm) in
  ∃ z w, findNode p b (hashName nm) nm q = Done (z, w) ∧
   ((z = -1 ∧ ∀ i, i ∈ concat chains → keyOf (nodeAt (nodes p) i) ≠ (nm, q)) ∨
    ∃ i l, z = Z.of_nat i ∧ chains !! b = Some l ∧ i ∈ l ∧ keyOf (nodeAt (nodes p) i) = (nm, q)).
Proof.
  intros b. destruct (wf_bucket b (bucketOf_lt _)) as (h & l & Hh & Hl & Hc & Hlen).
  unfold findNode, rdBucket. rewrite Hh, run_bind_done.
  erewrite find_walk_spec by (done || (unfold walkFuel; lia)).
  eexists _, _. split; [done|].
  destruct (List.find _ l) as [i|] eqn:Hf.
  - right. apply List.find_some in Hf as [Hin Hm]. rewrite <- list_elem_of_In in Hin.
    exists i, l. split_and!; try done. unfold matchesKey in Hm.
    apply andb_true_iff in Hm as [[_ Hq%Z.eqb_eq]%andb_true_iff Hn%bytes_eqb_eq].
    unfold keyOf. by rewrite Hn, Hq.
  - left. split; [done|]. intros i (b' & l' & Hl' & Hi)%elem_concat Hk.
    destruct (wf_home _ _ _ _ Hwf b' l' i Hl' Hi) as [Hh1 Hh2].
    unfold keyOf in Hk. injection Hk as Hn Hq.
    rewrite Hh1, Hn in Hh2. fold b in Hh2. subst b'.
    simplify_eq. pose proof (List.find_none _ _ Hf i ltac:(by apply list_elem_of_In)) as Hm.
    cbn beta in Hm. unfold matchesKey in Hm. by rewrite Hh1, !Z.eqb_refl, bytes_eqb_refl in Hm.
Qed.

End Wf.

(** Changing a record without touching its links or its key. *)
Lemma wf_update p chains free loose i n : wf p chains free loose → (i < length (nodes p))%nat →
  next n = next (nodeAt (nodes p) i) → hash n = hash (nodeAt (nodes p) i) →
  keyOf n = keyOf (nodeAt (nodes p) i) → wf (setNode (Z.of_nat i) n p) chains free loose.
Proof.
  intros Hwf Hi Hn Hh Hk. rewrite setNode_nat. destruct Hwf as [H1 H2 H3 H4 H5 H6 H7 H8].
  assert (Hkey : ∀ j, keyOf (nodeAt (<[i:=n]> (nodes p)) j) = keyOf (nodeAt (nodes p) j)).
  { intros j. destruct (decide (i = j)) as [<-|]; [by rewrite nodeAt_insert|by rewrite nodeAt_insert_ne]. }
  assert (Hhash : ∀ j, hash (nodeAt (<[i:=n]> (nodes p)) j) = hash (nodeAt (nodes p) j)).
  { intros j. destruct (decide (i = j)) as [<-|]; [by rewrite nodeAt_insert|by rewrite nodeAt_insert_ne]. }
  split; cbn [buckets nodes freeHead entries]; try done.
  - intros b h l Hb Hl. apply chain_insert_same; [done|done|by eapply H3].
  - by apply chain_insert_same.
  - by rewrite length_insert.
  - intros b l j Hb Hj. rewrite Hhash. pose proof (Hkey j) as E. unfold keyOf in E.
    injection E as -> _. by apply (H7 b l).
  - unfold keys. erewrite list_fmap_ext; [exact H8|]. intros. apply Hkey.
Qed.

Lemma wf_alloc p chains i free : wf p chains (i :: free) [] →
  ∃ p', allocNode p = Done (Z.of_nat i, p') ∧ wf p' chains free [i] ∧
    (∀ j, j ≠ i → nodeAt (nodes p') j = nodeAt (nodes p) j) ∧
    buckets p' = buckets p ∧ length (nodes p') = length (nodes p).
Proof.
  intros Hwf. pose proof (wf_nodup _ _ _ _ Hwf) as Hnd. destruct Hwf as [H1 H2 H3 H4 H5 H6 H7 H8].
  destruct H4 as (Hh & Hi & Hf). unfold allocNode. rewrite Hh.
  destruct (Z.ltb_spec (Z.of_nat i) 0); [lia|]. rewrite rdNode_in, run_bind_done, setNode_nat by done.
  eexists. split; [done|]. cbn [setFree buckets nodes freeHead entries].
  apply NoDup_app in Hnd as (_ & Hdis & Hnd). apply NoDup_cons in Hnd as [Hni _].
  assert (Hnc : ∀ j, j ∈ concat chains → j ≠ i).
  { intros j Hj ->. apply (Hdis i Hj). by left. }
  split; [|split_and!; [|done|apply length_insert]].
  2: { intros j Hj. by apply nodeAt_insert_ne. }
  split; cbn [setFree buckets nodes freeHead entries]; try done.
  - intros b h l Hb Hl. apply chain_insert_notin; [|by eapply H3].
    intros Hin. eapply Hnc; [|done]. apply elem_concat. by exists b, l.
  - apply chain_insert_notin; [|done]. intros Hin. apply Hni. apply elem_of_app. by left.
  - rewrite length_insert, <- H5. apply Permutation_app_head. rewrite app_nil_r.
    symmetry. apply Permutation_cons_append.
  - intros b l j Hb Hj. assert (j ≠ i) by (apply Hnc, elem_concat; by exists b, l).
    rewrite nodeAt_insert_ne by done. by apply (H7 b l).
  - unfold keys. erewrite list_fmap_ext; [exact H8|]. intros k j Hk. cbn.
    rewrite nodeAt_insert_ne; [done|]. intros <-. eapply Hnc; [|done]. by eapply list_elem_of_lookup_2.
Qed.

(** A loose node becomes the head of its bucket's chain. *)
Lemma wf_link p chains i free n b h l : wf p chains free [i] →
  buckets p !! b = Some h → chains !! b = Some l →
  next n = h → hash n = hashName (name n) → bucketOf p (hash n) = b →
  keyOf n ∉ keys (nodes p) (concat chains) →
  wf (setEntries (entries p + 1) (setBucket b (Z.of_nat i) (setNode (Z.of_nat i) n p)))
    (<[b := i :: l]> chains) free [].
Proof.
  intros Hwf Hb Hl Hn Hh Hbk Hk. pose proof (wf_nodup _ _ _ _ Hwf) as Hnd.
  pose proof (wf_bound _ _ _ _ Hwf i ltac:(rewrite !elem_of_app; right; right; by left)) as Hi.
  destruct Hwf as [H1 H2 H3 H4 H5 H6 H7 H8]. rewrite setNode_nat.
  destruct (concat_insert chains b l Hl) as (rest & Hp & Hp').
  assert (Hni : i ∉ concat chains ++ free).
  { rewrite app_assoc in Hnd. apply NoDup_app in Hnd as (_ & Hdis & _).
    intros Hin. apply (Hdis i Hin). by left. }
  rewrite not_elem_of_app in Hni. destruct Hni as [Hnc Hnf].
  pose proof (lookup_lt_Some _ _ _ Hb) as Hlt.
  split; cbn [setEntries setBucket buckets nodes freeHead entries].
  - by rewrite !length_insert.
  - by rewrite length_insert.
  - intros b' h' l' Hb' Hl'. destruct (decide (b = b')) as [<-|Hne].
    + rewrite list_lookup_insert_eq in Hb' by done. rewrite list_lookup_insert_eq in Hl' by (rewrite H1; done).
      injection Hb' as <-. injection Hl' as <-. cbn [chain]. rewrite length_insert, nodeAt_insert by done.
      split_and!; [done|done|]. rewrite Hn. apply chain_insert_notin; [|by eapply H3].
      intros Hin. apply Hnc, elem_concat. by exists b, l.
    + rewrite list_lookup_insert_ne in Hb' by done. rewrite list_lookup_insert_ne in Hl' by done. apply chain_insert_notin; [|by eapply H3].
      intros Hin. apply Hnc, elem_concat. by exists b', l'.
  - by apply chain_insert_notin.
  - rewrite length_insert, <- H5, Hp', Hp, app_nil_r.
    cbn. rewrite !(Permutation_app_comm free), <- !app_assoc.
    rewrite (Permutation_app_comm [i]). rewrite !app_assoc.
    rewrite <- (Permutation_cons_append _ i). cbn. by rewrite <- !app_assoc.
  - rewrite H6, Hp', Hp. cbn [app length]. lia.
  - intros b' l' j Hl' Hj. rewrite (bucketOf_len p) by (cbn; apply length_insert).
    destruct (decide (b = b')) as [<-|Hne].
    + rewrite list_lookup_insert_eq in Hl' by (rewrite H1; done). injection Hl' as <-.
      apply elem_of_cons in Hj as [->|Hj]; [by rewrite nodeAt_insert|].
      rewrite nodeAt_insert_ne; [by apply (H7 b l)|]. intros ->. apply Hnc, elem_concat. by exists b, l.
    + rewrite list_lookup_insert_ne in Hl' by done.
      rewrite nodeAt_insert_ne; [by apply (H7 b' l')|]. intros ->. apply Hnc, elem_concat. by exists b', l'.
  - unfold keys. rewrite Hp'. cbn [app]. rewrite fmap_cons, nodeAt_insert by done.
    unfold keys in Hk, H8. rewrite Hp in Hk, H8, Hnc.
    erewrite (list_fmap_ext _ (λ i, keyOf (nodeAt (nodes p) i))).
    + by apply NoDup_cons.
    + intros k j Hj. cbn. rewrite nodeAt_insert_ne; [done|]. intros <-. apply Hnc.
      by eapply list_elem_of_lookup_2.
Qed.

Lemma set_next_same n : set_next (next n) n = n.
Proof. by destruct n. Qed.

(** Only links differ: the records are the same. *)
Definition relinked (ns ns' : list Node) : Prop :=
  ∀ j, nodeAt ns' j = set_next (next (nodeAt ns' j)) (nodeAt ns j).

Lemma relinked_insert ns ns' i z : relinked ns ns' →
  relinked ns (<[i := set_next z (nodeAt ns' i)]> ns').
Proof.
  intros H j. destruct (decide (i = j)) as [<-|]; [|by rewrite nodeAt_insert_ne].
  destruct (decide (i < length ns')%nat) as [Hi|Hi].
  - rewrite nodeAt_insert by done. rewrite (H i). by destruct (nodeAt ns i).
  - rewrite list_insert_ge by lia. apply H.
Qed.

Lemma relinked_refl ns : relinked ns ns.
Proof. intros j. by rewrite set_next_same. Qed.

Lemma relinked_bypass l1 z ns : relinked ns (bypass l1 z ns).
Proof. unfold bypass. destruct (last l1); [apply relinked_insert|]; apply relinked_refl. Qed.

Lemma bypass_length l1 z ns : length (bypass l1 z ns) = length ns.
Proof. unfold bypass. destruct (last l1); [apply length_insert|done]. Qed.

Lemma bypass_other l1 z ns h l : (∀ j, j ∈ l1 → j ∉ l) → chain ns h l → chain (bypass l1 z ns) h l.
Proof.
  intros Hd. unfold bypass. destruct (last l1) as [j|] eqn:Hj; [|done].
  apply chain_insert_notin, Hd. apply last_Some in Hj as [l' ->]. apply elem_of_app. right. by left.
Qed.

Lemma relinked_keys ns ns' l : relinked ns ns' → keys ns' l = keys ns l.
Proof. intros H. apply list_fmap_ext. intros k j _. by rewrite (H j). Qed.

(** Two chains of the pool share no node. *)
Lemma chains_disjoint (chains : list (list nat)) b b' l l' : NoDup (concat chains) → b ≠ b' →
  chains !! b = Some l → chains !! b' = Some l' → ∀ j, j ∈ l → j ∉ l'.
Proof.
  intros Hnd Hne Hl Hl' j Hj Hj'. destruct (concat_insert chains b l Hl) as (rest & Hp & Hp').
  rewrite Hp in Hnd. apply NoDup_app in Hnd as (_ & Hd & _). apply (Hd j Hj).
  assert (Hin : j ∈ concat (<[b := []]> chains)).
  { apply elem_concat. exists b', l'. by rewrite list_lookup_insert_ne. }
  by rewrite Hp' in Hin.
Qed.

(** Unlinking: the node leaves its chain for the free stack. *)
Lemma unlink_spec p chains free b l i : wf p chains free [] → chains !! b = Some l → i ∈ l →
  ∃ p' l', unlinkNode b (Z.of_nat i) p = Done p' ∧ l ≡ₚ i :: l' ∧
    wf p' (<[b := l']> chains) (i :: free) [] ∧ relinked (nodes p) (nodes p') ∧
    length (buckets p') = length (buckets p) ∧ length (nodes p') = length (nodes p).
Proof.
  intros Hwf Hl Hi. pose proof (chain_nodup _ _ _ _ Hwf b l Hl) as Hnd.
  pose proof (wf_nodup _ _ _ _ Hwf) as Hnda. rewrite app_nil_r in Hnda.
  pose proof (lookup_lt_Some _ _ _ Hl) as Hlt. rewrite (wf_len _ _ _ _ Hwf) in Hlt.
  destruct (wf_bucket _ _ _ _ Hwf b Hlt) as (h & l0 & Hh & Hl0 & Hc & Hlen).
  assert (l0 = l) as -> by congruence. clear Hl0.
  apply list_elem_of_split in Hi as (l1 & l2 & ->).
  set (after := next (nodeAt (nodes p) i)). set (ns := bypass l1 after (nodes p)).
  exists (mkPool (if decide (l1 = []) then <[b := after]> (buckets p) else buckets p)
          (<[i := set_next (freeHead p) (nodeAt ns i)]> ns) (Z.of_nat i) (entries p - 1)), (l1 ++ l2).
  assert (Hrel : relinked (nodes p) (<[i := set_next (freeHead p) (nodeAt ns i)]> ns)).
  { apply relinked_insert, relinked_bypass. }
  pose proof (chain_app_inv _ _ _ _ _ Hc) as [Hib _].
  assert (Hlns : length ns = length (nodes p)) by apply bypass_length.
  assert (Hni : i ∉ l1 ++ l2).
  { rewrite <- Permutation_middle in Hnd. by apply NoDup_cons in Hnd as [? _]. }
  destruct (concat_insert chains b _ Hl) as (rest & Hp & Hp').
  destruct Hwf as [H1 H2 H3 H4 H5 H6 H7 H8].
  split; [|split; [by rewrite Permutation_middle|split; [|split; [done|]]]].
  - unfold unlinkNode, rdBucket. rewrite Hh, run_bind_done.
    apply (unlink_walk_spec p b i l1 l2 [] h); [unfold walkFuel; lia|done|done|done].
  - apply NoDup_app in Hnda as (Hndc & Hdf & _).
    split; cbn [buckets nodes freeHead entries].
    + rewrite length_insert. destruct (decide _); [by rewrite length_insert|done].
    + destruct (decide _); [by rewrite length_insert|done].
    + intros b' h' l' Hb' Hl'. destruct (decide (b = b')) as [<-|Hne].
      * rewrite list_lookup_insert_eq in Hl' by (rewrite H1; done). injection Hl' as <-.
        assert (h' = if decide (l1 = []) then after else h) as ->.
        { destruct (decide (l1 = [])); [|congruence].
          rewrite list_lookup_insert_eq in Hb' by done. by injection Hb'. }
        apply chain_insert_notin; [done|]. by apply chain_bypass.
      * rewrite list_lookup_insert_ne in Hl' by done.
        assert (Hb2 : buckets p !! b' = Some h').
        { destruct (decide (l1 = [])); [|done]. by rewrite list_lookup_insert_ne in Hb'. }
        assert (Hd : ∀ j, j ∈ l1 ++ i :: l2 → j ∉ l') by (by eapply chains_disjoint).
        apply chain_insert_notin; [apply Hd, elem_of_app; right; by left|].
        apply bypass_other; [|by eapply H3]. intros j Hj. apply Hd, elem_of_app. by left.
    + cbn [chain]. rewrite length_insert, nodeAt_insert by lia. split_and!; [done|lia|].
      assert (Hd : ∀ j, j ∈ l1 ++ i :: l2 → j ∉ free).
      { intros j Hj. apply Hdf, elem_concat. by exists b, (l1 ++ i :: l2). }
      apply chain_insert_notin; [apply Hd, elem_of_app; right; by left|].
      apply bypass_other; [|done]. intros j Hj. apply Hd, elem_of_app. by left.
    + rewrite length_insert, Hlns, <- H5, Hp', Hp, !app_nil_r.
      rewrite <- !Permutation_middle. cbn. rewrite <- !app_assoc. cbn.
      rewrite !Permutation_middle. done.
    + rewrite H6, Hp', Hp, !length_app. cbn [length]. lia.
    + intros b' l' j Hl' Hj. rewrite (bucketOf_len p).
      2: { cbn. destruct (decide _); [by rewrite length_insert|done]. }
      rewrite (Hrel j). cbn [set_next hash name].
      destruct (decide (b = b')) as [<-|Hne].
      * rewrite list_lookup_insert_eq in Hl' by (rewrite H1; done). injection Hl' as <-.
        apply (H7 b (l1 ++ i :: l2)); [done|]. rewrite elem_of_app in *. set_solver.
      * rewrite list_lookup_insert_ne in Hl' by done. by apply (H7 b' l').
    + rewrite (relinked_keys _ _ _ Hrel). unfold keys in *. rewrite Hp'. rewrite Hp in H8.
      rewrite <- Permutation_middle, <- app_comm_cons, fmap_cons in H8.
      by apply NoDup_cons in H8 as [_ ?].
  - cbn. split; [destruct (decide _); [by rewrite length_insert|done]|]. by rewrite length_insert.
Qed.

(** ** An empty pool *)

Lemma pushFree_spec ns : ∀ pre l i head ns' h, length pre = i → pushFree ns i head = (ns', h) →
  (∀ post, chain (pre ++ post) head l) →
  length ns' = length ns ∧ ∀ post, chain (pre ++ ns' ++ post) h (reverse (seq i (length ns)) ++ l).
Proof.
  induction ns as [|n ns IH]; intros pre l i head ns' h Hi; cbn [pushFree].
  { intros [= <- <-] Hc. split; [done|]. apply Hc. }
  destruct (pushFree ns (S i) (Z.of_nat i)) as [rest h0] eqn:E. intros [= <- <-] Hc.
  destruct (IH (pre ++ [set_next head n]) (i :: l) (S i) (Z.of_nat i) rest h0) as [Hl Hch]; [|done| |].
  - rewrite length_app. cbn. lia.
  - intros post. rewrite <- app_assoc. cbn [chain app]. split; [done|].
    split; [rewrite length_app; cbn; lia|].
    unfold nodeAt. rewrite lookup_app_r, Hi, Nat.sub_diag by lia. cbn. apply Hc.
  - split; [cbn; by rewrite Hl|]. intros post. specialize (Hch post).
    rewrite <- app_assoc in Hch. cbn [app] in Hch. cbn [seq length].
    by rewrite reverse_cons, <- app_assoc.
Qed.

Lemma emptyPool_wf n ns : (0 < n)%nat →
  wf (emptyPool n ns) (replicate n []) (reverse (seq 0 (length ns))) [].
Proof.
  intros Hn. unfold emptyPool. destruct (pushFree ns 0 (-1)) as [ns' h] eqn:E.
  destruct (pushFree_spec ns [] [] 0 (-1) ns' h eq_refl E) as [Hl Hc]; [done|].
  assert (Hcat : concat (replicate n (@nil nat)) = []).
  { clear. by induction n. }
  split; cbn [buckets nodes freeHead entries].
  - by rewrite !length_replicate.
  - by rewrite length_replicate.
  - by intros b h' l [-> _]%lookup_replicate [-> _]%lookup_replicate.
  - specialize (Hc []). by rewrite !app_nil_r in Hc.
  - rewrite Hcat, app_nil_r, Hl. cbn. apply reverse_Permutation.
  - by rewrite Hcat.
  - intros b l i [-> _]%lookup_replicate Hi. by apply elem_of_nil in Hi.
  - unfold keys. rewrite Hcat. apply NoDup_nil_2.
Qed.

(** ** The eviction victim *)

Section Victim.
Context (ns : list Node) (now : Z).

Definition ageOf (i : nat) : Z := elapsedMs now (storedMs (nodeAt ns i)).

(** [v] may go before [j]: used less, or as much and not younger. *)
Definition goesBefore (v j : nat) : Prop :=
  uses (nodeAt ns v) < uses (nodeAt ns j) ∨
  (uses (nodeAt ns v) = uses (nodeAt ns j) ∧ ageOf j <= ageOf v).

(** What the scan knows after visiting [vis]; [home v] is [v]'s bucket. *)
Definition scanned (home : nat → nat → Prop) (vis : list nat) (s : Scan) : Prop :=
  (vis = [] ∧ best s = -1) ∨
  ∃ v, v ∈ vis ∧ best s = Z.of_nat v ∧ bestUses s = uses (nodeAt ns v) ∧ bestAge s = ageOf v ∧
    home (bestBucket s) v ∧ ∀ j, j ∈ vis → goesBefore v j.

Lemma scanNode_spec home vis s b i : scanned home vis s → home b i →
  scanned home (i :: vis) (scanNode now b (Z.of_nat i) (nodeAt ns i) s).
Proof.
  intros Hs Hb. right. unfold scanNode. cbn [best bestUses bestAge bestBucket seen].
  fold (ageOf i).
  destruct Hs as [[-> Hbest]|(v & Hv & Hbest & Hu & Ha & Hh & Hmin)]; rewrite Hbest.
  { change (0 <=? -1) with false. cbn [andb best bestUses bestAge bestBucket].
    exists i. split_and!; try done; [by left|]. intros j [->|?%elem_of_nil]%elem_of_cons; [|done].
    right. lia. }
  destruct (Z.leb_spec 0 (Z.of_nat v)); [|lia]. cbn [andb].
  rewrite Hu, Ha.
  destruct (Z.ltb_spec (uses (nodeAt ns v)) (uses (nodeAt ns i))).
  { exists v. cbn [best bestUses bestAge bestBucket]. split_and!; try done; [by right|].
    intros j [->|Hj]%elem_of_cons; [by left|auto]. }
  destruct (Z.eqb_spec (uses (nodeAt ns i)) (uses (nodeAt ns v))), (Z.leb_spec (ageOf i) (ageOf v));
    cbn [andb best bestUses bestAge bestBucket].
  1: { exists v. split_and!; try done; [by right|].
       intros j [->|Hj]%elem_of_cons; [right; lia|auto]. }
  all: exists i; split_and!; try done; [by left|];
    intros j [->|Hj]%elem_of_cons; [right; lia|];
    destruct (Hmin j Hj) as [?|[? ?]]; unfold goesBefore; lia.
Qed.

Lemma scan_chain_spec home b l : ∀ h fuel vis s, chain ns h l → (length l < fuel)%nat →
  (∀ i, i ∈ l → home b i) → scanned home vis s →
  ∃ s', scan_chain fuel ns now b h s = Done s' ∧ ∃ vis', vis' ≡ₚ vis ++ l ∧ scanned home vis' s'.
Proof.
  induction l as [|i l IH]; intros h fuel vis s Hc Hf Hb Hs;
    (destruct fuel as [|f]; [cbn in Hf; lia|]); cbn [scan_chain chain] in *.
  - subst h. eexists. split; [done|]. exists vis. by rewrite app_nil_r.
  - destruct Hc as (-> & Hi & Hc). destruct (Z.ltb_spec (Z.of_nat i) 0); [lia|].
    rewrite rdNode_in, run_bind_done by done.
    destruct (IH _ f (i :: vis) (scanNode now b (Z.of_nat i) (nodeAt ns i) s) Hc) as (s' & E & vis' & Hp & Hs').
    + cbn in Hf. lia.
    + intros j Hj. apply Hb. by right.
    + apply scanNode_spec; [done|]. apply Hb. by left.
    + exists s'. split; [done|]. exists vis'. split; [|done]. rewrite Hp. cbn.
      by rewrite Permutation_middle.
Qed.

End Victim.

Lemma scan_buckets_spec p now home bs ls : ∀ b vis s,
  length ls = length bs →
  (∀ k h l, bs !! k = Some h → ls !! k = Some l → chain (nodes p) h l ∧
     (length l <= length (nodes p))%nat ∧ ∀ i, i ∈ l → home (b + k)%nat i) →
  scanned (nodes p) now home vis s →
  ∃ s', scan_buckets bs p now b s = Done s' ∧
    ∃ vis', vis' ≡ₚ vis ++ concat ls ∧ scanned (nodes p) now home vis' s'.
Proof.
  revert ls. induction bs as [|h bs IH]; intros [|l ls] b vis s Hlen Hch Hs; try done; cbn [scan_buckets].
  - eexists. split; [done|]. exists vis. by rewrite app_nil_r.
  - destruct (Hch 0%nat h l eq_refl eq_refl) as (Hc & Hl & Hb). rewrite Nat.add_0_r in Hb.
    destruct (scan_chain_spec (nodes p) now home b l h (walkFuel p) vis s Hc ltac:(unfold walkFuel; lia) Hb Hs)
      as (s1 & -> & vis1 & Hp1 & Hs1). rewrite run_bind_done.
    destruct (IH ls (S b) vis1 s1) as (s2 & E & vis2 & Hp2 & Hs2); [by injection Hlen| |done|].
    + intros k h' l' Hk Hk'. destruct (Hch (S k) h' l' Hk Hk') as (? & ? & Hb').
      split_and!; [done|done|]. intros i Hi. replace (S b + k)%nat with (b + S k)%nat by lia. auto.
    + exists s2. split; [done|]. exists vis2. split; [|done]. rewrite Hp2, Hp1. cbn.
      by rewrite app_assoc.
Qed.

(** The victim of a pool that holds records: no record goes before it. *)
Lemma victim_spec p chains free now : wf p chains free [] → concat chains ≠ [] →
  ∃ s v b l, findEvictVictim p now = Done s ∧ best s = Z.of_nat v ∧ bestBucket s = b ∧
    chains !! b = Some l ∧ v ∈ l ∧ ∀ j, j ∈ concat chains → goesBefore (nodes p) now v j.
Proof.
  intros Hwf Hne. unfold findEvictVictim.
  destruct (scan_buckets_spec p now (λ b i, ∃ l, chains !! b = Some l ∧ i ∈ l) (buckets p) chains 0 []
    (mkScan (-1) UINT32_MAX 0 0 0)) as (s & E & vis & Hp & Hs).
  - apply (wf_len _ _ _ _ Hwf).
  - intros k h l Hk Hk'. pose proof (lookup_lt_Some _ _ _ Hk) as Hlt.
    destruct (wf_bucket _ _ _ _ Hwf k Hlt) as (h0 & l0 & Hh0 & Hl0 & Hc & Hlen).
    assert (h0 = h) as -> by congruence. assert (l0 = l) as -> by congruence.
    split_and!; [done|done|]. intros i Hi. by exists l.
  - by left.
  - cbn in Hp. destruct Hs as [[-> _]|(v & Hv & Hb & _ & _ & (l & Hl & Hvl) & Hmin)].
    { by apply Permutation_nil_l in Hp. }
    exists s, v, (bestBucket s), l. split_and!; try done.
    intros j Hj. apply Hmin. by rewrite Hp.
Qed.

End DnsPool.
