(* ===== verification/InternalDnsCache.v ===== *)
(** * The internal DNS cache

    The operations of src/dns/InternalDnsCache.cpp on the node pool of
    [DnsPool]: enabling, storing with eviction, lookup with expiry, erasing,
    clearing, the usage mark, the statistics, the views.  What they amount to is
    stated in [CacheSpec]. *)
From S2P Require Import Prelude DnsPool.
From stdpp Require Import gmap.
#[local] Open Scope Z_scope.
Import DnsPool.

Module InternalDnsCache.

Definition kMinCacheSizeMb : Z := 1.
Definition kMaxCacheSizeMb : Z := 20.
Definition kBucketGranularityBytes : Z := 4096.
Definition kMinBuckets : Z := 1024.

(** [sizeof(Node)]: 28 bytes of fields, the name, the addresses, 8-aligned. *)
Definition sizeofNode : Z := 352.

(** The counters the statistics page shows. *)
Record Meter := mkMeter {
  hits : Z;
  misses : Z;
  evicted : Z;
  lookupWaitUs : Z;
  walkedNodes : Z;
  stores : Z;
  evictScans : Z;
  evictScanUs : Z;
  evictScanNodes : Z;
}.

Definition zeroMeter : Meter := mkMeter 0 0 0 0 0 0 0 0 0.

(** The usage total and the "hottest name" mark. *)
Record Mark := mkMark {
  usesTotal : Z;
  topUses : Z;
  topIdx : Z;
  topQtype : Z;
  topName : bytes;
  topValid : bool;
}.

Record Cache := mkCache {
  arena : option Pool;
  sizeMb : Z;
  meter : Meter;
  mark : Mark;
  ignoreTtl : bool;
}.

Definition resetTop (m : Mark) : Mark := mkMark (usesTotal m) 0 (-1) 0 [] false.

Definition set_arena (a : option Pool) (c : Cache) : Cache :=
  mkCache a (sizeMb c) (meter c) (mark c) (ignoreTtl c).
Definition set_meter (m : Meter) (c : Cache) : Cache :=
  mkCache (arena c) (sizeMb c) m (mark c) (ignoreTtl c).
Definition set_mark (m : Mark) (c : Cache) : Cache :=
  mkCache (arena c) (sizeMb c) (meter c) m (ignoreTtl c).

Definition addMiss (m : Meter) : Meter :=
  mkMeter (hits m) (u64 (misses m + 1)) (evicted m) (lookupWaitUs m) (walkedNodes m) (stores m)
    (evictScans m) (evictScanUs m) (evictScanNodes m).
Definition addEvicted (m : Meter) : Meter :=
  mkMeter (hits m) (misses m) (u64 (evicted m + 1)) (lookupWaitUs m) (walkedNodes m) (stores m)
    (evictScans m) (evictScanUs m) (evictScanNodes m).
Definition addHit (waitUs walked : Z) (m : Meter) : Meter :=
  mkMeter (u64 (hits m + 1)) (misses m) (evicted m) (u64 (lookupWaitUs m + waitUs))
    (u64 (walkedNodes m + walked)) (stores m) (evictScans m) (evictScanUs m) (evictScanNodes m).
Definition addStore (m : Meter) : Meter :=
  mkMeter (hits m) (misses m) (evicted m) (lookupWaitUs m) (walkedNodes m) (u64 (stores m + 1))
    (evictScans m) (evictScanUs m) (evictScanNodes m).
Definition addScan (us scanned : Z) (m : Meter) : Meter :=
  mkMeter (hits m) (misses m) (evicted m) (lookupWaitUs m) (walkedNodes m) (stores m)
    (u64 (evictScans m + 1)) (u64 (evictScanUs m + us)) (u64 (evictScanNodes m + scanned)).

(** ** Enabling and disabling *)

(** The bucket and node counts of an arena of [mb] megabytes. *)
Definition arenaShape (mb : Z) : Z * Z :=
  let arenaBytes := mb * 1024 * 1024 in
  let numBuckets := Z.max (arenaBytes / kBucketGranularityBytes) kMinBuckets in
  (numBuckets, (arenaBytes - numBuckets * 4) / sizeofNode).

(** [psram] is whether the allocation succeeds. *)
Definition enable (psram : bool) (mb : Z) (c : Cache) : bool * Cache :=
  match arena c with
  | Some _ => (true, mkCache (arena c) mb (meter c) (mark c) (ignoreTtl c))
  | None =>
      let mb := if mb <? kMinCacheSizeMb then kMinCacheSizeMb else mb in
      let mb := if kMaxCacheSizeMb <? mb then kMaxCacheSizeMb else mb in
      let '(numBuckets, nodeCount) := arenaShape mb in
      if mb * 1024 * 1024 <=? numBuckets * 4 then (false, c)
      else if nodeCount <? 1 then (false, c)
      else if negb psram then (false, c)
      else (true, mkCache (Some (emptyPool (Z.to_nat numBuckets) (replicate (Z.to_nat nodeCount) zeroNode)))
                    mb zeroMeter
                    (resetTop (mkMark 0 (topUses (mark c)) (topIdx (mark c)) (topQtype (mark c))
                                 (topName (mark c)) (topValid (mark c))))
                    (ignoreTtl c))
  end.

Definition disable (c : Cache) : Cache :=
  mkCache None 0 (meter c) (resetTop (mark c)) (ignoreTtl c).

Definition setIgnoreTtl (on : bool) (c : Cache) : Cache :=
  mkCache (arena c) (sizeMb c) (meter c) (mark c) on.

Definition clear (c : Cache) : Cache :=
  match arena c with
  | None => c
  | Some p => set_mark (resetTop (mark c))
                (set_arena (Some (emptyPool (length (buckets p)) (nodes p))) c)
  end.

(** ** The usage mark *)

Definition noteMark (n : Node) (idx : Z) (m : Mark) : Mark :=
  if uses n =? 0 then m
  else if topValid m && (uses n <? topUses m) then m
  else mkMark (usesTotal m) (uses n) idx (qtype n) (topName m) true.

Definition set_uses (u : Z) (n : Node) : Node :=
  mkNode (next n) (hash n) (qtype n) (nA n) (nAAAA n) (storedMs n) (ttl n) u (name n) (a4 n) (a6 n).

(** Both counters saturate. *)
Definition sat1 (z : Z) : Z := if z =? UINT32_MAX then z else z + 1.

Definition bumpUse (n : Node) (idx : Z) (m : Mark) : Node * Mark :=
  let n := set_uses (sat1 (uses n)) n in
  let m := mkMark (sat1 (usesTotal m)) (topUses m) (topIdx m) (topQtype m) (topName m) (topValid m) in
  (n, noteMark n idx m).

(** The name of the mark, materialised when the status is read. *)
Definition noteTop (p : Pool) (m : Mark) : Mark :=
  if negb (topValid m) then
    mkMark (usesTotal m) (topUses m) (topIdx m) (topQtype m) [] (topValid m)
  else if (topIdx m <? 0) || (Z.of_nat (length (nodes p)) <=? topIdx m) then m
  else
    let n := nodeAt (nodes p) (Z.to_nat (topIdx m)) in
    if negb (uses n =? topUses m) then m
    else mkMark (usesTotal m) (topUses m) (topIdx m) (topQtype m) (take 127 (name n)) (topValid m).

Section WithInet.
(** [inet_pton] and [inet_ntop] for the two families; a refused text leaves
    the destination as it is. *)
Context (pton4 : bytes → option Z) (pton6 : bytes → option bytes).
Context (ntop4 : Z → option bytes) (ntop6 : bytes → option bytes).

(** ** Storing *)

Fixpoint fill {A} (pton : bytes → option A) (ips : list bytes) (i max : nat) (arr : list A)
  : nat * list A :=
  match ips with
  | [] => (i, arr)
  | ip :: ips' =>
      if (max <=? i)%nat then (i, arr)
      else fill pton ips' (S i) max (match pton ip with Some v => <[i := v]> arr | None => arr end)
  end.

(** The fields [storeInternal] writes into the record, old or new. *)
Definition writeRecord (q now t : Z) (ips : list bytes) (n : Node) : Node :=
  let '(k4, v4) := if q =? kTypeA then fill pton4 ips 0 kMaxA (a4 n) else (0%nat, a4 n) in
  let '(k6, v6) := if q =? kTypeA then (0%nat, a6 n)
                   else if q =? kTypeAaaa then fill pton6 ips 0 kMaxAAAA (a6 n) else (0%nat, a6 n) in
  mkNode (next n) (hash n) (qtype n) k4 k6 now t (uses n) (name n) v4 v6.

(** A slot taken for a new record, before its fields are written. *)
Definition claimNode (h q now head : Z) (nm : bytes) (n : Node) : Node :=
  mkNode head h q (nA n) (nAAAA n) now (ttl n) 0 nm (a4 n) (a6 n).

(** A free node, evicting the least used record of a full pool; [-1] when there
    is neither. *)
Definition obtainNode (now scanUs : Z) (p : Pool) (m : Meter) : run (Z * Pool * Meter) :=
  r ← allocNode p;
  let '(idx, p) := r in
  if negb (idx <? 0) then mret (idx, p, m)
  else
    s ← findEvictVictim p now;
    let m := addScan scanUs (seen s) m in
    if best s <? 0 then mret (-1, p, m)
    else
      p ← unlinkNode (bestBucket s) (best s) p;
      r ← allocNode p;
      mret (r.1, r.2, addEvicted m).

(** The upsert: the index of the record for this key, and the pool with it. *)
Definition upsert (h : Z) (nm : bytes) (q now scanUs : Z) (p : Pool) (m : Meter)
  : run (Z * Pool * Meter) :=
  let b := bucketOf p h in
  r ← findNode p b h nm q;
  if negb (r.1 <? 0) then mret (r.1, p, m)
  else
    r ← obtainNode now scanUs p m;
    let '(idx, p, m) := r in
    if idx <? 0 then mret (-1, p, m)
    else
      n ← rdNode (nodes p) idx;
      head ← rdBucket p b;
      mret (idx, setEntries (entries p + 1)
                   (setBucket b idx (setNode idx (claimNode h q now head nm n) p)), m).

(** [countUse = None] is a use; [Some k] restores the counter [k]. *)
Definition storeInternal (domain : bytes) (q : Z) (ips : list bytes) (t : Z) (restore : option Z)
    (now scanUs : Z) (c : Cache) : run Cache :=
  match arena c with
  | None => mret c
  | Some p =>
      if bool_decide (domain = []) || bool_decide (ips = []) then mret c
      else if negb (q =? kTypeA) && negb (q =? kTypeAaaa) then mret c
      else
        let lname := lower domain in
        if (kMaxNameLen <=? length lname)%nat then mret c
        else
          let nm := c_str lname in
          r ← upsert (hashName nm) nm q now scanUs p (meter c);
          let '(idx, p, m) := r in
          if idx <? 0 then mret (set_meter m (set_arena (Some p) c))
          else
            n ← rdNode (nodes p) idx;
            let n := writeRecord q now t ips n in
            let m := addStore m in
            let '(n, k) :=
              match restore with
              | None => bumpUse n idx (mark c)
              | Some u =>
                  let n := set_uses (if UINT32_MAX <? u then UINT32_MAX else u) n in
                  (n, noteMark n idx (mark c))
              end in
            mret (mkCache (Some (setNode idx n p)) (sizeMb c) m k (ignoreTtl c))
  end.

Definition store (domain : bytes) (q : Z) (ips : list bytes) (t now scanUs : Z) (c : Cache)
  : run Cache := storeInternal domain q ips t None now scanUs c.

(** ** Looking up *)

Definition expired (ignore : bool) (now : Z) (n : Node) : bool :=
  negb ignore && negb (ttl n =? 0) && (ttl n <=? elapsedMs now (storedMs n) / 1000).

Definition addresses (q : Z) (n : Node) : list bytes :=
  if q =? kTypeA then omap ntop4 (take (nA n) (a4 n))
  else if q =? kTypeAaaa then omap ntop6 (take (nAAAA n) (a6 n)) else [].

Definition remainingTtl (ignore : bool) (now : Z) (n : Node) : Z :=
  if ignore || (ttl n =? 0) then ttl n
  else u32 (u32 (u32 (ttl n * 1000) - elapsedMs now (storedMs n)) + 999) / 1000.

(** [None] is a miss. *)
Definition lookup (domain : bytes) (q now waitUs : Z) (c : Cache)
  : run (option (list bytes * Z) * Cache) :=
  match arena c with
  | None => mret (None, c)
  | Some p =>
      if bool_decide (domain = []) then mret (None, c)
      else
        let lname := lower domain in
        if (kMaxNameLen <=? length lname)%nat then mret (None, c)
        else
          let nm := c_str lname in
          let b := bucketOf p (hashName nm) in
          r ← findNode p b (hashName nm) nm q;
          let '(idx, walked) := r in
          if idx <? 0 then mret (None, set_meter (addMiss (meter c)) c)
          else
            n ← rdNode (nodes p) idx;
            if expired (ignoreTtl c) now n then
              p ← unlinkNode b idx p;
              mret (None, set_meter (addMiss (addEvicted (meter c))) (set_arena (Some p) c))
            else if bool_decide (addresses q n = []) then
              mret (None, set_meter (addMiss (meter c)) c)
            else
              let '(n', k) := bumpUse n idx (mark c) in
              mret (Some (addresses q n, remainingTtl (ignoreTtl c) now n),
                    mkCache (Some (setNode idx n' p)) (sizeMb c) (addHit waitUs walked (meter c)) k
                      (ignoreTtl c))
  end.

End WithInet.

Definition erase (domain : bytes) (q : Z) (c : Cache) : run (bool * Cache) :=
  match arena c with
  | None => mret (false, c)
  | Some p =>
      if bool_decide (domain = []) then mret (false, c)
      else
        let nm := c_str (lower domain) in
        let b := bucketOf p (hashName nm) in
        r ← findNode p b (hashName nm) nm q;
        if r.1 <? 0 then mret (false, c)
        else p ← unlinkNode b r.1 p; mret (true, set_arena (Some p) c)
  end.

Definition contains (domain : bytes) (q : Z) (c : Cache) : run bool :=
  match arena c with
  | None => mret false
  | Some p =>
      if bool_decide (domain = []) then mret false
      else
        let nm := c_str (lower domain) in
        r ← findNode p (bucketOf p (hashName nm)) (hashName nm) nm q;
        mret (negb (r.1 <? 0))
  end.

Definition restoreMeasurement (h wait walked st es esu esn : Z) (c : Cache) : Cache :=
  set_meter (mkMeter h (misses (meter c)) (evicted (meter c)) wait walked st es esu esn) c.

(** ** Walking the whole cache *)

(** The nodes of one chain, then of all buckets, in the order of the walks. *)
Fixpoint walk_chain (fuel : nat) (ns : list Node) (idx : Z) : run (list Z) :=
  match fuel with
  | O => OutOfFuel
  | S f =>
      if idx <? 0 then mret []
      else n ← rdNode ns idx; l ← walk_chain f ns (next n); mret (idx :: l)
  end.

Fixpoint walk_buckets (bs : list Z) (p : Pool) : run (list Z) :=
  match bs with
  | [] => mret []
  | h :: bs' => l ← walk_chain (walkFuel p) (nodes p) h; r ← walk_buckets bs' p; mret (l ++ r)
  end.

Definition walkAll (p : Pool) : run (list Z) := walk_buckets (buckets p) p.

(** [std::priority_queue<pair<uint32_t, int>>]: a max-heap of (age, index) as a
    list in descending order. *)
Definition pairGe (x y : Z * Z) : bool := (y.1 <? x.1) || ((x.1 =? y.1) && (y.2 <=? x.2)).

Fixpoint heapPush (x : Z * Z) (h : list (Z * Z)) : list (Z * Z) :=
  match h with
  | [] => [x]
  | y :: h' => if pairGe x y then x :: h else y :: heapPush x h'
  end.

Definition oldestEntries (max : nat) (skip : bytes → Z → bool) (now : Z) (c : Cache)
  : run (list key) :=
  match arena c with
  | None => mret []
  | Some p =>
      if (max =? 0)%nat then mret []
      else
        all ← walkAll p;
        let heap := foldl (λ h idx,
          let n := nodeAt (nodes p) (Z.to_nat idx) in
          if skip (name n) (qtype n) then h
          else let h := heapPush (elapsedMs now (storedMs n), idx) h in
               if (max <? length h)%nat then tail h else h) [] all in
        mret ((λ e, keyOf (nodeAt (nodes p) (Z.to_nat e.2))) <$> heap)
  end.

(** ** The statistics *)

Record Stats := mkStats {
  sAvailable : bool;
  sSizeMb : Z;
  sCapacity : Z;
  sEntries : Z;
  sMeter : Meter;
  sUsesTotal : Z;
  sUsesMax : Z;
  sTopName : bytes;
  sTopQtype : Z;
  sUsedBytes : Z;
  sFreeBytes : Z;
}.

Definition stats (c : Cache) : Stats * Cache :=
  let p := default (mkPool [] [] (-1) 0) (arena c) in
  let m := noteTop p (mark c) in
  let n := Z.of_nat (length (nodes p)) in
  (mkStats (bool_decide (is_Some (arena c))) (sizeMb c) n (entries p) (meter c)
     (usesTotal m) (topUses m) (if topValid m then topName m else [])
     (if topValid m then topQtype m else 0)
     (entries p * sizeofNode) (if entries p <? n then (n - entries p) * sizeofNode else 0),
   set_mark m c).

(** ** The abstract cache *)

(** What a record means, free of where it sits. *)
Record Rec := mkRec { rA4 : list Z; rA6 : list bytes; rTtl : Z; rStored : Z; rUses : Z }.

Definition recOf (n : Node) : Rec :=
  mkRec (take (nA n) (a4 n)) (take (nAAAA n) (a6 n)) (ttl n) (storedMs n) (uses n).

Definition recs (ns : list Node) (l : list nat) : list (key * Rec) :=
  (λ i, (keyOf (nodeAt ns i), recOf (nodeAt ns i))) <$> l.

(** The address arrays have their full length, the counts stay inside them. *)
Definition okArrays (n : Node) : Prop :=
  length (a4 n) = kMaxA ∧ length (a6 n) = kMaxAAAA ∧ (nA n <= kMaxA)%nat ∧ (nAAAA n <= kMaxAAAA)%nat.

Definition sized (ns : list Node) : Prop := ∀ i, okArrays (nodeAt ns i).

(** The pool [p], chained as [chains] and [free], holds the map [M]. *)
Record holds (p : Pool) (chains : list (list nat)) (free : list nat) (M : gmap key Rec) : Prop := {
  holds_wf : wf p chains free [];
  holds_sized : sized (nodes p);
  holds_map : M = list_to_map (recs (nodes p) (concat chains));
}.

(** The abstraction relation. *)
Definition Rep (p : Pool) (M : gmap key Rec) : Prop := ∃ chains free, holds p chains free M.

Lemma recs_keys ns l : (recs ns l).*1 = keys ns l.
Proof. unfold recs, keys. by rewrite <- list_fmap_compose. Qed.

Lemma recs_ext ns ns' l : (∀ i, i ∈ l → keyOf (nodeAt ns' i) = keyOf (nodeAt ns i) ∧
  recOf (nodeAt ns' i) = recOf (nodeAt ns i)) → recs ns' l = recs ns l.
Proof.
  intros H. apply list_fmap_ext. intros k i Hi. cbn.
  destruct (H i) as [-> ->]; [by eapply list_elem_of_lookup_2|done].
Qed.

Lemma relinked_recs ns ns' l : relinked ns ns' → recs ns' l = recs ns l.
Proof. intros H. apply recs_ext. intros i _. by rewrite (H i). Qed.

Lemma relinked_sized ns ns' : relinked ns ns' → sized ns → sized ns'.
Proof. intros H Hs i. rewrite (H i). cbn. apply Hs. Qed.

Section Holds.
Context (p : Pool) (chains : list (list nat)) (free : list nat) (M : gmap key Rec).
Context (Hh : holds p chains free M).

Lemma holds_nodup : NoDup (recs (nodes p) (concat chains)).*1.
Proof. rewrite recs_keys. apply (wf_keys _ _ _ _ (holds_wf _ _ _ _ Hh)). Qed.

Lemma holds_lookup k r : M !! k = Some r ↔
  ∃ i, i ∈ concat chains ∧ keyOf (nodeAt (nodes p) i) = k ∧ recOf (nodeAt (nodes p) i) = r.
Proof.
  rewrite (holds_map _ _ _ _ Hh), <- elem_of_list_to_map by apply holds_nodup.
  unfold recs. rewrite list_elem_of_fmap. naive_solver.
Qed.

Lemma holds_in i : i ∈ concat chains → M !! keyOf (nodeAt (nodes p) i) = Some (recOf (nodeAt (nodes p) i)).
Proof. intros Hi. apply holds_lookup. by exists i. Qed.

Lemma holds_none k : (∀ i, i ∈ concat chains → keyOf (nodeAt (nodes p) i) ≠ k) → M !! k = None.
Proof.
  intros H. destruct (M !! k) as [r|] eqn:E; [|done].
  apply holds_lookup in E as (i & Hi & Hk & _). by destruct (H i).
Qed.

Lemma holds_size : Z.of_nat (size M) = entries p.
Proof.
  rewrite (holds_map _ _ _ _ Hh), (wf_entries _ _ _ _ (holds_wf _ _ _ _ Hh)).
  rewrite <- length_map_to_list.
  rewrite (Permutation_length (map_to_list_to_map _ holds_nodup)).
  unfold recs. by rewrite length_fmap.
Qed.

(** A full pool is one without free nodes. *)
Lemma holds_full : free = [] ↔ (length (nodes p) <= size M)%nat.
Proof.
  pose proof (Permutation_length (wf_perm _ _ _ _ (holds_wf _ _ _ _ Hh))) as Hl.
  pose proof holds_size as Hs. rewrite (wf_entries _ _ _ _ (holds_wf _ _ _ _ Hh)) in Hs.
  rewrite !length_app, length_seq in Hl. cbn in Hl. split.
  - intros ->. cbn in Hl. lia.
  - intros Hle. apply length_zero_iff_nil. lia.
Qed.

End Holds.

Lemma holds_insert_map (l rest : list nat) (ns ns' : list Node) (i : nat) (k : key) (r : Rec)
    (M : gmap key Rec) :
  l ≡ₚ i :: rest → NoDup (recs ns' l).*1 → M = list_to_map (recs ns rest) →
  recs ns' rest = recs ns rest → keyOf (nodeAt ns' i) = k → recOf (nodeAt ns' i) = r →
  list_to_map (recs ns' l) = <[k := r]> M.
Proof.
  intros Hp Hnd -> Hrest <- <-.
  rewrite (list_to_map_proper (recs ns' l) (recs ns' (i :: rest))); [|done|].
  - change (recs ns' (i :: rest)) with ((keyOf (nodeAt ns' i), recOf (nodeAt ns' i)) :: recs ns' rest).
    rewrite list_to_map_cons. cbn [fst snd]. by rewrite Hrest.
  - unfold recs. by rewrite Hp.
Qed.

(** Taking a record out of the pool deletes its key. *)
Lemma holds_unlink p chains free M b l i : holds p chains free M → chains !! b = Some l → i ∈ l →
  ∃ p' chains', unlinkNode b (Z.of_nat i) p = Done p' ∧
    holds p' chains' (i :: free) (delete (keyOf (nodeAt (nodes p) i)) M) ∧
    length (buckets p') = length (buckets p) ∧ length (nodes p') = length (nodes p).
Proof.
  intros Hh Hl Hi. destruct (unlink_spec p chains free b l i (holds_wf _ _ _ _ Hh) Hl Hi)
    as (p' & l' & E & Hp & Hwf' & Hrel & Hb & Hn).
  exists p', (<[b := l']> chains). split; [done|]. split; [|done].
  destruct (concat_insert chains b l Hl) as (rest & Hc & Hc').
  split; [done|by eapply relinked_sized; [|apply Hh]|].
  rewrite (relinked_recs _ _ _ Hrel).
  pose proof (holds_nodup _ _ _ _ Hh) as Hnd.
  assert (Hperm : recs (nodes p) (concat chains) ≡ₚ
    (keyOf (nodeAt (nodes p) i), recOf (nodeAt (nodes p) i)) :: recs (nodes p) (concat (<[b:=l']> chains))).
  { unfold recs. rewrite Hc, Hc', Hp. cbn. done. }
  rewrite (holds_map _ _ _ _ Hh), (list_to_map_proper _ _ Hnd Hperm). cbn.
  rewrite delete_insert_eq, delete_id; [done|].
  apply not_elem_of_list_to_map_1. rewrite Hperm in Hnd. cbn in Hnd. by apply NoDup_cons in Hnd as [? _].
Qed.

(** Rewriting a record's fields in place. *)
Lemma holds_update p chains free M i n : holds p chains free M → i ∈ concat chains →
  next n = next (nodeAt (nodes p) i) → hash n = hash (nodeAt (nodes p) i) →
  keyOf n = keyOf (nodeAt (nodes p) i) → okArrays n →
  holds (setNode (Z.of_nat i) n p) chains free (<[keyOf n := recOf n]> M).
Proof.
  intros Hh Hi Hn Hha Hk Hok.
  assert (Hib : (i < length (nodes p))%nat).
  { apply (wf_bound _ _ _ _ (holds_wf _ _ _ _ Hh)). apply elem_of_app. by left. }
  pose proof (wf_update _ _ _ _ i n (holds_wf _ _ _ _ Hh) Hib Hn Hha Hk) as Hwf'.
  split; [done|..].
  - rewrite setNode_nat. cbn [nodes]. intros j.
    destruct (decide (i = j)) as [<-|]; [by rewrite nodeAt_insert|].
    rewrite nodeAt_insert_ne by done. apply Hh.
  - symmetry. apply list_elem_of_split in Hi as (l1 & l2 & Hc). rewrite Hc.
    pose proof (wf_nodup _ _ _ _ (holds_wf _ _ _ _ Hh)) as Hnd.
    apply NoDup_app in Hnd as (Hnd & _ & _). rewrite Hc, <- Permutation_middle in Hnd.
    apply NoDup_cons in Hnd as [Hni _].
    assert (Hkeys : NoDup (recs (nodes (setNode (Z.of_nat i) n p)) (concat chains)).*1).
    { rewrite recs_keys. apply (wf_keys _ _ _ _ Hwf'). }
    rewrite Hc in Hkeys. rewrite setNode_nat in *. cbn [nodes] in *.
    rewrite (holds_insert_map (l1 ++ i :: l2) (l1 ++ l2) (nodes p) (<[i := n]> (nodes p)) i (keyOf n) (recOf n)
      (list_to_map (recs (nodes p) (l1 ++ l2)))); [| |done|done| | |].
    + rewrite (holds_map _ _ _ _ Hh), Hc.
      rewrite (holds_insert_map (l1 ++ i :: l2) (l1 ++ l2) (nodes p) (nodes p) i (keyOf n)
        (recOf (nodeAt (nodes p) i)) (list_to_map (recs (nodes p) (l1 ++ l2))));
        [by rewrite insert_insert_eq|by rewrite Permutation_middle| |done..].
      rewrite recs_keys, <- Hc. apply (wf_keys _ _ _ _ (holds_wf _ _ _ _ Hh)).
    + by rewrite Permutation_middle.
    + apply recs_ext. intros j Hj. rewrite nodeAt_insert_ne; [done|]. by intros ->.
    + by rewrite nodeAt_insert.
    + by rewrite nodeAt_insert.
Qed.

End InternalDnsCache.
