(* ===== verification/CacheSpec.v ===== *)
(** * What the internal DNS cache promises

    The refinement of [InternalDnsCache] to a finite map: each operation on the
    arena is a total run whose effect is the abstract operation on the map, and
    any sequence of operations keeps the arena well formed. *)
From S2P Require Import Prelude DnsPool InternalDnsCache.
From stdpp Require Import gmap.
#[local] Open Scope Z_scope.
Import DnsPool InternalDnsCache.

Module CacheSpec.

(** ** The abstract operations *)

(** [r] may be evicted before [r']. *)
Definition before (now : Z) (r r' : Rec) : Prop :=
  rUses r < rUses r' ∨
  (rUses r = rUses r' ∧ elapsedMs now (rStored r') <= elapsedMs now (rStored r)).

(** Making room for [k] in a map of capacity [n]: nothing to do when the key is
    there or a slot is free, otherwise a least-used record goes. *)
Inductive room (now : Z) (n : nat) (k : key) (M : gmap key Rec) : gmap key Rec → Prop :=
  | room_known : is_Some (M !! k) → room now n k M M
  | room_free : M !! k = None → (size M < n)%nat → room now n k M M
  | room_evict v r : M !! k = None → size M = n → M !! v = Some r →
      (∀ v' r', M !! v' = Some r' → before now r r') → room now n k M (delete v M).

Definition keyFor (domain : bytes) (q : Z) : key := (c_str (lower domain), q).

Definition okName (domain : bytes) : Prop := domain ≠ [] ∧ (length domain < kMaxNameLen)%nat.

Definition set_rUses (u : Z) (r : Rec) : Rec := mkRec (rA4 r) (rA6 r) (rTtl r) (rStored r) u.

Definition specExpired (ignore : bool) (now : Z) (r : Rec) : bool :=
  negb ignore && negb (rTtl r =? 0) && (rTtl r <=? elapsedMs now (rStored r) / 1000).

Definition specTtl (ignore : bool) (now : Z) (r : Rec) : Z :=
  if ignore || (rTtl r =? 0) then rTtl r
  else u32 (u32 (u32 (rTtl r * 1000) - elapsedMs now (rStored r)) + 999) / 1000.

Section Spec.
Context (pton4 : bytes → option Z) (pton6 : bytes → option bytes).
Context (ntop4 : Z → option bytes) (ntop6 : bytes → option bytes).

(** The record a store leaves, for addresses that parse. *)
Definition specRec (q now t : Z) (ips : list bytes) (u : Z) : Rec :=
  mkRec (if q =? kTypeA then take kMaxA (omap pton4 ips) else [])
        (if q =? kTypeA then [] else take kMaxAAAA (omap pton6 ips)) t now u.

Definition parses (q : Z) (ips : list bytes) : Prop :=
  Forall (λ ip, if q =? kTypeA then is_Some (pton4 ip) else is_Some (pton6 ip)) ips.

Definition specUses (restore : option Z) (old : option Rec) : Z :=
  match restore with
  | None => sat1 (default 0 (rUses <$> old))
  | Some u => Z.min u UINT32_MAX
  end.

Definition specAddresses (q : Z) (r : Rec) : list bytes :=
  if q =? kTypeA then omap ntop4 (rA4 r) else if q =? kTypeAaaa then omap ntop6 (rA6 r) else [].

Definition specLookup (ignore : bool) (now : Z) (k : key) (M : gmap key Rec)
  : option (list bytes * Z) * gmap key Rec :=
  match M !! k with
  | None => (None, M)
  | Some r =>
      if specExpired ignore now r then (None, delete k M)
      else if bool_decide (specAddresses k.2 r = []) then (None, M)
      else (Some (specAddresses k.2 r, specTtl ignore now r), <[k := set_rUses (sat1 (rUses r)) r]> M)
  end.

End Spec.

(** The cache [c], enabled with [cap] slots, stands for the map [M]. *)
Definition Refines (c : Cache) (cap : nat) (M : gmap key Rec) : Prop :=
  ∃ p, arena c = Some p ∧ Rep p M ∧ length (nodes p) = cap ∧ (0 < cap)%nat.

(** A request the cache serves, with the clock readings it makes. *)
Inductive Op :=
  | OpStore (domain : bytes) (q : Z) (ips : list bytes) (t now us : Z)
  | OpRestore (domain : bytes) (q : Z) (ips : list bytes) (t u now us : Z)
  | OpLookup (domain : bytes) (q now us : Z)
  | OpErase (domain : bytes) (q : Z)
  | OpClear.

Section Runs.
Context (pton4 : bytes → option Z) (pton6 : bytes → option bytes).
Context (ntop4 : Z → option bytes) (ntop6 : bytes → option bytes).

Definition runOp (o : Op) (c : Cache) : run Cache :=
  match o with
  | OpStore domain q ips t now us => store pton4 pton6 domain q ips t now us c
  | OpRestore domain q ips t u now us => storeInternal pton4 pton6 domain q ips t (Some u) now us c
  | OpLookup domain q now us => r ← lookup ntop4 ntop6 domain q now us c; mret r.2
  | OpErase domain q => r ← erase domain q c; mret r.2
  | OpClear => mret (clear c)
  end.

Fixpoint runOps (os : list Op) (c : Cache) : run Cache :=
  match os with
  | [] => mret c
  | o :: os' => c ← runOp o c; runOps os' c
  end.

End Runs.

(** ** Finding a node for a new record *)

Lemma alloc_relinked p z p' : allocNode p = Done (z, p') → relinked (nodes p) (nodes p').
Proof.
  unfold allocNode. destruct (Z.ltb_spec (freeHead p) 0); [by intros [= _ <-]; apply relinked_refl|].
  unfold rdNode. destruct (Z.ltb_spec (freeHead p) 0); [lia|].
  destruct (nodes p !! Z.to_nat (freeHead p)) as [n|] eqn:E; [|done].
  rewrite run_bind_done. intros [= _ <-]. cbn.
  replace n with (nodeAt (nodes p) (Z.to_nat (freeHead p))) by (unfold nodeAt; by rewrite E).
  apply relinked_insert, relinked_refl.
Qed.

(** The pool holds [M] and lends the node [i]. *)
Record lends (p : Pool) (chains : list (list nat)) (free : list nat) (i : nat) (M : gmap key Rec)
  : Prop := {
  lends_wf : wf p chains free [i];
  lends_sized : sized (nodes p);
  lends_map : M = list_to_map (recs (nodes p) (concat chains));
}.

Lemma alloc_spec p chains i free M : holds p chains (i :: free) M →
  ∃ p', allocNode p = Done (Z.of_nat i, p') ∧ lends p' chains free i M ∧
    length (buckets p') = length (buckets p) ∧ length (nodes p') = length (nodes p).
Proof.
  intros [Hwf Hs Hm]. destruct (wf_alloc _ _ _ _ Hwf) as (p' & E & Hwf' & _ & Hb & Hn).
  pose proof (alloc_relinked _ _ _ E) as Hrel.
  exists p'. split; [done|]. split; [|by rewrite Hb].
  split; [done|by eapply relinked_sized|]. by rewrite (relinked_recs _ _ _ Hrel).
Qed.

Lemma alloc_empty p chains M : holds p chains [] M → allocNode p = Done (-1, p).
Proof.
  intros [Hwf _ _]. pose proof (wf_free _ _ _ _ Hwf) as Hf. cbn in Hf.
  unfold allocNode. by rewrite Hf.
Qed.

Lemma obtain_spec p chains free M k now us m : holds p chains free M →
  (0 < length (nodes p))%nat → M !! k = None →
  ∃ i p' m' chains' free' M', obtainNode now us p m = Done (Z.of_nat i, p', m') ∧
    lends p' chains' free' i M' ∧ room now (length (nodes p)) k M M' ∧
    length (buckets p') = length (buckets p) ∧ length (nodes p') = length (nodes p).
Proof.
  intros Hh Hpos Hk. unfold obtainNode.
  pose proof (holds_full _ _ _ _ Hh) as Hfull. destruct free as [|i free].
  - rewrite (alloc_empty _ _ _ Hh), run_bind_done. change (negb (-1 <? 0)) with false. cbv iota zeta beta.
    destruct Hfull as [Hfull _]. specialize (Hfull eq_refl).
    pose proof (holds_size _ _ _ _ Hh) as Hsz. rewrite (wf_entries _ _ _ _ (holds_wf _ _ _ _ Hh)) in Hsz.
    pose proof (Permutation_length (wf_perm _ _ _ _ (holds_wf _ _ _ _ Hh))) as Hl.
    cbn in Hl. rewrite app_nil_r, length_seq in Hl.
    destruct (victim_spec p chains [] now (holds_wf _ _ _ _ Hh)) as (s & v & b & l & -> & Hv & Hb & Hl' & Hvl & Hmin).
    { intros E. rewrite E in Hl. cbn in Hl. lia. }
    rewrite run_bind_done, Hv, Hb. destruct (Z.ltb_spec (Z.of_nat v) 0); [lia|].
    destruct (holds_unlink _ _ _ _ b l v Hh Hl' Hvl) as (p1 & chains1 & -> & Hh1 & Hb1 & Hn1).
    rewrite run_bind_done.
    destruct (alloc_spec _ _ _ _ _ Hh1) as (p2 & -> & Hl2 & Hb2 & Hn2). rewrite run_bind_done.
    assert (Hvc : v ∈ concat chains) by (apply elem_concat; by exists b, l).
    eexists v, p2, _, chains1, [], _. split; [done|]. split; [done|]. split; [|split; congruence].
    eapply room_evict; [done|lia|by apply (holds_in _ _ _ _ Hh)|].
    intros v' r' (j & Hj & _ & <-)%(holds_lookup _ _ _ _ Hh). apply Hmin, Hj.
  - destruct (alloc_spec _ _ _ _ _ Hh) as (p' & -> & Hl & Hb & Hn). rewrite run_bind_done.
    destruct (Z.ltb_spec (Z.of_nat i) 0); [lia|]. cbn [negb].
    exists i, p', m, chains, free, M. split; [done|]. split; [done|]. split; [|done].
    apply room_free; [done|]. destruct (decide (length (nodes p) <= size M)%nat) as [Hle|]; [|lia].
    by apply Hfull in Hle.
Qed.

(** Linking the lent node in as a new record. *)
Lemma link_spec p chains free i M q now nm : lends p chains free i M → M !! (nm, q) = None →
  let b := bucketOf p (hashName nm) in
  ∃ n head p' chains', rdNode (nodes p) (Z.of_nat i) = Done n ∧ rdBucket p b = Done head ∧
    p' = setEntries (entries p + 1) (setBucket b (Z.of_nat i)
           (setNode (Z.of_nat i) (claimNode (hashName nm) q now head nm n) p)) ∧
    i ∈ concat chains' ∧ nodeAt (nodes p') i = claimNode (hashName nm) q now head nm n ∧
    holds p' chains' free (<[(nm, q) := recOf (nodeAt (nodes p') i)]> M) ∧
    length (nodes p') = length (nodes p).
Proof.
  intros [Hwf Hs Hm] Hk b.
  destruct (wf_bucket _ _ _ _ Hwf b (bucketOf_lt _ _ _ _ Hwf _)) as (h & l & Hh & Hl & _).
  assert (Hi : (i < length (nodes p))%nat).
  { apply (wf_bound _ _ _ _ Hwf). rewrite !elem_of_app. right. right. by left. }
  set (n := nodeAt (nodes p) i). set (n' := claimNode (hashName nm) q now h nm n).
  assert (Hnk : keyOf n' ∉ keys (nodes p) (concat chains)).
  { rewrite <- recs_keys. apply not_elem_of_list_to_map. rewrite <- Hm. exact Hk. }
  pose proof (wf_link p chains i free n' b h l Hwf Hh Hl eq_refl eq_refl eq_refl Hnk) as Hwf'.
  exists n, h, (setEntries (entries p + 1) (setBucket b (Z.of_nat i) (setNode (Z.of_nat i) n' p))),
    (<[b := i :: l]> chains).
  split; [by apply rdNode_in|]. split; [unfold rdBucket; by rewrite Hh|]. split; [done|].
  destruct (concat_insert chains b l Hl) as (rest & Hp & Hp').
  assert (Hat : nodeAt (nodes (setEntries (entries p + 1) (setBucket b (Z.of_nat i)
    (setNode (Z.of_nat i) n' p)))) i = n').
  { rewrite setNode_nat. cbn. by apply nodeAt_insert. }
  split; [rewrite Hp'; by left|]. split; [done|].
  split; [|rewrite setNode_nat; cbn; apply length_insert].
  split; [done|..].
  - intros j. rewrite setNode_nat. cbn [setEntries setBucket nodes].
    destruct (decide (i = j)) as [<-|]; [rewrite nodeAt_insert by done; apply Hs|].
    rewrite nodeAt_insert_ne by done. apply Hs.
  - symmetry. eapply (holds_insert_map _ (concat chains) (nodes p) _ i); [rewrite Hp', Hp; done| |done| | |done].
    + rewrite recs_keys. apply (wf_keys _ _ _ _ Hwf').
    + apply recs_ext. intros j Hj. rewrite setNode_nat. cbn [setEntries setBucket nodes].
      rewrite nodeAt_insert_ne; [done|]. intros <-.
      pose proof (wf_nodup _ _ _ _ Hwf) as Hnd. apply NoDup_app in Hnd as (_ & Hd & _).
      apply (Hd i Hj). apply elem_of_app. right. by left.
    + by rewrite Hat.
Qed.

(** The upsert leaves a record for the key, old or new. *)
Lemma upsert_spec p chains free M nm q now us m : holds p chains free M →
  (0 < length (nodes p))%nat →
  ∃ i p' m' chains' free' M' r, upsert (hashName nm) nm q now us p m = Done (Z.of_nat i, p', m') ∧
    i ∈ concat chains' ∧ keyOf (nodeAt (nodes p') i) = (nm, q) ∧ recOf (nodeAt (nodes p') i) = r ∧
    holds p' chains' free' (<[(nm, q) := r]> M') ∧ room now (length (nodes p)) (nm, q) M M' ∧
    rUses r = default 0 (rUses <$> M !! (nm, q)) ∧ length (nodes p') = length (nodes p).
Proof.
  intros Hh Hpos. unfold upsert.
  destruct (findNode_spec _ _ _ _ (holds_wf _ _ _ _ Hh) nm q) as (z & w & -> & Hz).
  rewrite run_bind_done. cbn [fst].
  destruct Hz as [[-> Hnone]|(i & l & -> & Hl & Hi & Hk)].
  - change (negb (-1 <? 0)) with false. cbv iota.
    pose proof (holds_none _ _ _ _ Hh _ Hnone) as HM.
    destruct (obtain_spec _ _ _ _ (nm, q) now us m Hh Hpos HM)
      as (i & p1 & m1 & chains1 & free1 & M1 & -> & Hl & Hroom & Hb1 & Hn1).
    rewrite run_bind_done. cbv beta iota zeta. destruct (Z.ltb_spec (Z.of_nat i) 0); [lia|].
    assert (HM1 : M1 !! (nm, q) = None).
    { destruct Hroom as [[? ?]|?|]; [congruence|done|]. rewrite lookup_delete_None. by right. }
    destruct (link_spec _ _ _ _ _ q now nm Hl HM1) as (n & h & p2 & chains2 & E1 & E2 & Ep & Hi & Hat & Hh2 & Hn2).
    rewrite (bucketOf_len p1 p) in * by congruence.
    rewrite E1, run_bind_done, E2, run_bind_done, <- Ep.
    exists i, p2, m1, chains2, free1, M1, (recOf (nodeAt (nodes p2) i)).
    split; [done|]. split; [done|]. split; [by rewrite Hat|]. split; [done|]. split; [done|].
    split; [done|]. split; [by rewrite HM, Hat|congruence].
  - destruct (Z.ltb_spec (Z.of_nat i) 0); [lia|]. cbn [negb].
    assert (Hic : i ∈ concat chains) by (apply elem_concat; by exists (bucketOf p (hashName nm)), l).
    pose proof (holds_in _ _ _ _ Hh i Hic) as HM. rewrite Hk in HM.
    exists i, p, m, chains, free, M, (recOf (nodeAt (nodes p) i)). split; [done|]. split; [done|].
    split; [done|]. split; [done|]. split; [by rewrite insert_id|]. split; [apply room_known; by rewrite HM|].
    by rewrite HM.
Qed.

(** ** Writing the record *)

Lemma fill_spec {A} (pton : bytes → option A) (ips : list bytes) (max : nat) : ∀ (i : nat) (arr : list A),
  length arr = max → (i <= max)%nat →
  ∃ arr', fill pton ips i max arr = (Nat.min max (i + length ips), arr') ∧ length arr' = max ∧
    (Forall (λ ip, is_Some (pton ip)) ips →
     take (Nat.min max (i + length ips)) arr' = take i arr ++ take (max - i) (omap pton ips)).
Proof.
  induction ips as [|ip ips IH]; intros i arr Hl Hi; cbn [fill length].
  - exists arr. split; [f_equal; lia|]. split; [done|]. intros _. cbn. rewrite take_nil, app_nil_r.
    f_equal. lia.
  - destruct (Nat.leb_spec max i).
    { exists arr. split; [f_equal; lia|]. split; [done|]. intros _.
      replace (max - i)%nat with 0%nat by lia. rewrite take_0, app_nil_r. f_equal. lia. }
    set (arr1 := match pton ip with Some v => <[i:=v]> arr | None => arr end).
    destruct (IH (S i) arr1) as (arr' & E & Hl' & Hc).
    { unfold arr1. destruct (pton ip); [by rewrite length_insert|done]. }
    { lia. }
    exists arr'. rewrite E. split; [f_equal; lia|]. split; [done|].
    intros [[v Hv] Hf]%Forall_cons. rewrite Nat.add_succ_r, <- Nat.add_succ_l, (Hc Hf).
    cbn. unfold arr1. rewrite Hv. replace (max - i)%nat with (S (max - S i)) by lia.
    cbn [take]. rewrite (take_S_r _ _ v) by (rewrite list_lookup_insert_eq; [done|lia]).
    rewrite take_insert_ge by lia. by rewrite <- app_assoc.
Qed.

(** The record after the fields of a store have been written. *)
Lemma writeRecord_spec pton4 pton6 q now t ips n : q = kTypeA ∨ q = kTypeAaaa →
  okArrays n →
  let n' := writeRecord pton4 pton6 q now t ips n in
  next n' = next n ∧ hash n' = hash n ∧ keyOf n' = keyOf n ∧ uses n' = uses n ∧
  okArrays n' ∧
  (parses pton4 pton6 q ips → recOf n' = specRec pton4 pton6 q now t ips (uses n)).
Proof.
  intros Hq (H4 & H6 & N4 & N6). unfold writeRecord, okArrays, recOf, specRec, parses in *.
  destruct (fill_spec pton4 ips kMaxA 0 (a4 n) H4 ltac:(lia)) as (v4 & E4 & L4 & C4).
  destruct (fill_spec pton6 ips kMaxAAAA 0 (a6 n) H6 ltac:(lia)) as (v6 & E6 & L6 & C6).
  cbn [take app] in C4, C6. rewrite Nat.add_0_l, Nat.sub_0_r in C4, C6. rewrite Nat.add_0_l in E4, E6.
  rewrite E4, E6. destruct Hq as [-> | ->].
  - change (kTypeA =? kTypeA) with true in *. cbn -[Nat.min kMaxA kMaxAAAA].
    do 4 (split; [done|]). split; [unfold kMaxA, kMaxAAAA in *; split_and!; cbn [length]; (done || lia)|].
    intros Hp. by rewrite (C4 Hp).
  - change (kTypeAaaa =? kTypeA) with false in *. change (kTypeAaaa =? kTypeAaaa) with true.
    cbn -[Nat.min kMaxA kMaxAAAA].
    do 4 (split; [done|]). split; [unfold kMaxA, kMaxAAAA in *; split_and!; cbn [length]; (done || lia)|].
    intros Hp. by rewrite (C6 Hp).
Qed.

(** Rewriting the record of a key: the whole record changes, or its counter. *)
Lemma rewrite_record p chains free M k r i n : holds p chains free (<[k := r]> M) →
  i ∈ concat chains → keyOf (nodeAt (nodes p) i) = k →
  next n = next (nodeAt (nodes p) i) → hash n = hash (nodeAt (nodes p) i) →
  keyOf n = k → okArrays n →
  Rep (setNode (Z.of_nat i) n p) (<[k := recOf n]> M) ∧
  length (nodes (setNode (Z.of_nat i) n p)) = length (nodes p).
Proof.
  intros Hh Hi Hk Hn Hha Hkn Hok. split; [|unfold setNode; cbn; apply length_insert].
  exists chains, free. rewrite <- Hk in Hkn.
  pose proof (holds_update _ _ _ _ _ _ Hh Hi Hn Hha Hkn Hok) as H.
  rewrite Hkn, Hk, insert_insert_eq in H. exact H.
Qed.

(** ** The operations refine the map *)

Section Refinement.
Context (c : Cache) (cap : nat) (M : gmap key Rec) (Hc : Refines c cap M).

Lemma lower_length s : length (lower s) = length s.
Proof. apply length_fmap. Qed.

Lemma short_name domain : okName domain →
  bool_decide (domain = []) = false ∧ (kMaxNameLen <=? length (lower domain))%nat = false.
Proof.
  intros [Hn Hl]. split; [by apply bool_decide_eq_false|]. apply Nat.leb_gt. by rewrite lower_length.
Qed.

Lemma store_total (pton4 : bytes → option Z) (pton6 : bytes → option bytes) domain q ips t restore now us : okName domain → ips ≠ [] →
  q = kTypeA ∨ q = kTypeAaaa →
  ∃ c' M' r, storeInternal pton4 pton6 domain q ips t restore now us c = Done c' ∧
    room now cap (keyFor domain q) M M' ∧ ignoreTtl c' = ignoreTtl c ∧
    Refines c' cap (<[keyFor domain q := r]> M') ∧
    (parses pton4 pton6 q ips →
     r = specRec pton4 pton6 q now t ips (specUses restore (M !! keyFor domain q))).
Proof.
  intros Hname Hips Hq. destruct Hc as (p & Ha & (chains & free & Hh) & Hlen & Hpos).
  destruct (short_name _ Hname) as [Hd Hl]. unfold storeInternal. rewrite Ha, Hd, Hl.
  rewrite (bool_decide_eq_false_2 (ips = [])) by done. cbn [orb].
  assert (negb (q =? kTypeA) && negb (q =? kTypeAaaa) = false) as -> by (by destruct Hq as [-> | ->]).
  rewrite <- Hlen in *.
  destruct (upsert_spec p chains free M (c_str (lower domain)) q now us (meter c) Hh Hpos)
    as (i & p' & m' & chains' & free' & M' & r & -> & Hi & Hk & Hr & Hh' & Hroom & Hu & Hn).
  rewrite run_bind_done. cbv beta iota zeta. destruct (Z.ltb_spec (Z.of_nat i) 0); [lia|].
  assert (Hib : (i < length (nodes p'))%nat).
  { apply (wf_bound _ _ _ _ (holds_wf _ _ _ _ Hh')), elem_of_app. by left. }
  rewrite rdNode_in, run_bind_done by done. set (n := nodeAt (nodes p') i) in *.
  pose proof (holds_sized _ _ _ _ Hh' i) as Hok. fold n in Hok.
  destruct (writeRecord_spec pton4 pton6 q now t ips n Hq Hok) as (W1 & W2 & W3 & W4 & W5 & W7).
  set (w := writeRecord pton4 pton6 q now t ips n) in *.
  assert (Hun : uses n = default 0 (rUses <$> M !! (c_str (lower domain), q))).
  { rewrite <- Hu, <- Hr. done. }
  change (keyFor domain q) with (c_str (lower domain), q).
  destruct restore as [u|]; cbn [specUses].
  - pose proof (rewrite_record p' chains' free' M' _ r i (set_uses (if UINT32_MAX <? u then UINT32_MAX else u) w)
      Hh' Hi Hk W1 W2 ltac:(etrans; [exact W3|done]) W5) as [HR HL].
    eexists _, M', _. split; [done|]. split; [done|]. split; [done|]. split.
    { eexists. split; [done|]. split; [exact HR|split; [congruence|lia]]. }
    intros Hp. specialize (W7 Hp).
    replace (Z.min u UINT32_MAX) with (if UINT32_MAX <? u then UINT32_MAX else u)
      by (destruct (Z.ltb_spec UINT32_MAX u); lia).
    unfold recOf in W7 |- *. unfold specRec in W7 |- *. cbn in W7 |- *. congruence.
  - unfold bumpUse.
    pose proof (rewrite_record p' chains' free' M' _ r i (set_uses (sat1 (uses w)) w)
      Hh' Hi Hk W1 W2 ltac:(etrans; [exact W3|done]) W5) as [HR HL].
    eexists _, M', _. split; [done|]. split; [done|]. split; [done|]. split.
    { eexists. split; [done|]. split; [exact HR|split; [congruence|lia]]. }
    intros Hp. specialize (W7 Hp). rewrite <- Hun.
    unfold recOf in W7 |- *. unfold specRec in W7 |- *. cbn in W7 |- *. congruence.
Qed.

Lemma found_at p chains free i nm q : holds p chains free M → i ∈ concat chains →
  keyOf (nodeAt (nodes p) i) = (nm, q) → M !! (nm, q) = Some (recOf (nodeAt (nodes p) i)) ∧
  rdNode (nodes p) (Z.of_nat i) = Done (nodeAt (nodes p) i) ∧ (Z.of_nat i <? 0) = false.
Proof.
  intros Hh Hi Hk. split; [rewrite <- Hk; by apply (holds_in _ _ _ _ Hh)|].
  split; [|apply Z.ltb_ge; lia].
  apply rdNode_in, (wf_bound _ _ _ _ (holds_wf _ _ _ _ Hh)), elem_of_app. by left.
Qed.

Lemma lookup_total (ntop4 : Z → option bytes) (ntop6 : bytes → option bytes) domain q now us : okName domain →
  ∃ c', lookup ntop4 ntop6 domain q now us c =
    Done ((specLookup ntop4 ntop6 (ignoreTtl c) now (keyFor domain q) M).1, c') ∧
    ignoreTtl c' = ignoreTtl c ∧
    Refines c' cap (specLookup ntop4 ntop6 (ignoreTtl c) now (keyFor domain q) M).2.
Proof.
  intros Hname. destruct Hc as (p & Ha & (chains & free & Hh) & Hlen & Hpos).
  destruct (short_name _ Hname) as [Hd Hl]. unfold lookup. rewrite Ha, Hd, Hl. cbv zeta.
  unfold specLookup, keyFor. set (nm := c_str (lower domain)).
  destruct (findNode_spec _ _ _ _ (holds_wf _ _ _ _ Hh) nm q) as (z & w & -> & Hz).
  rewrite run_bind_done. cbv beta iota.
  destruct Hz as [[-> Hnone]|(i & l & -> & Hcl & Hi & Hk)].
  { change (-1 <? 0) with true. cbv iota. rewrite (holds_none _ _ _ _ Hh _ Hnone).
    eexists. split; [done|]. split; [done|]. exists p. split; [done|]. split; [by exists chains, free|done]. }
  assert (Hic : i ∈ concat chains) by (apply elem_concat; by exists (bucketOf p (hashName nm)), l).
  destruct (found_at p chains free i nm q Hh Hic Hk) as (-> & -> & ->).
  rewrite run_bind_done. cbv beta iota. set (n := nodeAt (nodes p) i) in *.
  change (specExpired (ignoreTtl c) now (recOf n)) with (expired (ignoreTtl c) now n).
  change (specAddresses ntop4 ntop6 (nm, q).2 (recOf n)) with (addresses ntop4 ntop6 q n).
  destruct (expired (ignoreTtl c) now n).
  { destruct (holds_unlink _ _ _ _ _ l i Hh Hcl Hi) as (p' & chains' & -> & Hh' & _ & Hn').
    rewrite run_bind_done. fold n in Hh'. rewrite Hk in Hh'.
    eexists. split; [done|]. split; [done|]. exists p'. split; [done|].
    split; [by exists chains', (i :: free)|]. split; [congruence|done]. }
  destruct (bool_decide (addresses ntop4 ntop6 q n = [])).
  { eexists. split; [done|]. split; [done|]. exists p. split; [done|]. split; [by exists chains, free|done]. }
  unfold bumpUse. cbv beta iota zeta. eexists. split; [done|]. split; [done|].
  pose proof (holds_sized _ _ _ _ Hh i) as Hok. fold n in Hok.
  pose proof (holds_in _ _ _ _ Hh i Hic) as HM. fold n in HM. rewrite Hk in HM.
  rewrite <- (insert_id M _ _ HM) in Hh.
  destruct (rewrite_record p chains free M _ _ i (set_uses (sat1 (uses n)) n) Hh Hic Hk) as [HR HL]; [done..|].
  eexists. split; [done|]. split; [exact HR|]. split; [congruence|done].
Qed.

Lemma erase_total domain q : domain ≠ [] →
  ∃ c', erase domain q c = Done (bool_decide (is_Some (M !! keyFor domain q)), c') ∧
    ignoreTtl c' = ignoreTtl c ∧ meter c' = meter c ∧ Refines c' cap (delete (keyFor domain q) M).
Proof.
  intros Hd. destruct Hc as (p & Ha & (chains & free & Hh) & Hlen & Hpos).
  unfold erase. rewrite Ha, bool_decide_eq_false_2 by done. cbv zeta.
  unfold keyFor. set (nm := c_str (lower domain)).
  destruct (findNode_spec _ _ _ _ (holds_wf _ _ _ _ Hh) nm q) as (z & w & -> & Hz).
  rewrite run_bind_done. cbn [fst].
  destruct Hz as [[-> Hnone]|(i & l & -> & Hcl & Hi & Hk)].
  { change (-1 <? 0) with true. cbv iota. rewrite (holds_none _ _ _ _ Hh _ Hnone).
    eexists. split; [done|]. split; [done|]. split; [done|]. exists p. split; [done|].
    rewrite delete_id by apply (holds_none _ _ _ _ Hh _ Hnone). split; [by exists chains, free|done]. }
  assert (Hic : i ∈ concat chains) by (apply elem_concat; by exists (bucketOf p (hashName nm)), l).
  destruct (found_at p chains free i nm q Hh Hic Hk) as (-> & _ & ->).
  destruct (holds_unlink _ _ _ _ _ l i Hh Hcl Hi) as (p' & chains' & -> & Hh' & _ & Hn').
  rewrite run_bind_done, Hk in *. rewrite bool_decide_eq_true_2 by done.
  eexists. split; [done|]. split; [done|]. split; [done|]. exists p'. split; [done|].
  split; [by exists chains', (i :: free)|]. split; [congruence|done].
Qed.

Lemma contains_total domain q : domain ≠ [] →
  contains domain q c = Done (bool_decide (is_Some (M !! keyFor domain q))).
Proof.
  intros Hd. destruct Hc as (p & Ha & (chains & free & Hh) & Hlen & Hpos).
  unfold contains. rewrite Ha, bool_decide_eq_false_2 by done. cbv zeta.
  unfold keyFor. set (nm := c_str (lower domain)).
  destruct (findNode_spec _ _ _ _ (holds_wf _ _ _ _ Hh) nm q) as (z & w & -> & Hz).
  rewrite run_bind_done. cbn [fst].
  destruct Hz as [[-> Hnone]|(i & l & -> & Hcl & Hi & Hk)].
  { by rewrite (holds_none _ _ _ _ Hh _ Hnone). }
  assert (Hic : i ∈ concat chains) by (apply elem_concat; by exists (bucketOf p (hashName nm)), l).
  destruct (found_at p chains free i nm q Hh Hic Hk) as (-> & _ & ->). done.
Qed.

Lemma entries_bound : ∃ p, arena c = Some p ∧ entries p = Z.of_nat (size M) ∧ (size M <= cap)%nat.
Proof.
  destruct Hc as (p & Ha & (chains & free & Hh) & Hlen & Hpos). exists p. split; [done|].
  pose proof (holds_size _ _ _ _ Hh) as Hs. split; [done|].
  rewrite (wf_entries _ _ _ _ (holds_wf _ _ _ _ Hh)) in Hs.
  pose proof (Permutation_length (wf_perm _ _ _ _ (holds_wf _ _ _ _ Hh))) as Hl.
  rewrite !length_app, length_seq in Hl. lia.
Qed.

End Refinement.

(** Input the cache refuses leaves it as it was. *)
Lemma store_refused pton4 pton6 domain q ips t restore now us c :
  domain = [] ∨ ips = [] ∨ (q ≠ kTypeA ∧ q ≠ kTypeAaaa) ∨ (kMaxNameLen <= length domain)%nat →
  storeInternal pton4 pton6 domain q ips t restore now us c = Done c.
Proof.
  intros H. unfold storeInternal. destruct (arena c); [|done].
  destruct (bool_decide _) eqn:E1; [done|]. destruct (bool_decide (ips = [])) eqn:E2; [done|].
  apply bool_decide_eq_false in E1, E2. cbn [orb].
  destruct (Z.eqb_spec q kTypeA), (Z.eqb_spec q kTypeAaaa); cbn [negb andb]; try done.
  all: cbv zeta; rewrite lower_length; destruct (Nat.leb_spec kMaxNameLen (length domain)); [done|].
  all: destruct H as [?|[?|[[? ?]|?]]]; done || lia.
Qed.

Lemma lookup_refused ntop4 ntop6 domain q now us c :
  ¬ okName domain → lookup ntop4 ntop6 domain q now us c = Done (None, c).
Proof.
  intros H. unfold lookup. destruct (arena c); [|done].
  destruct (bool_decide _) eqn:E; [done|]. apply bool_decide_eq_false in E.
  cbv zeta. rewrite lower_length. destruct (Nat.leb_spec kMaxNameLen (length domain)); [done|].
  by destruct H.
Qed.

(** ** Enabling and clearing *)

Lemma zeroNode_ok : okArrays zeroNode.
Proof. unfold okArrays, kMaxA, kMaxAAAA. cbn. lia. Qed.

Lemma sized_forall ns : sized ns ↔ Forall okArrays ns.
Proof.
  rewrite Forall_lookup. split.
  - intros H i n Hi. specialize (H i). unfold nodeAt in H. by rewrite Hi in H.
  - intros H i. unfold nodeAt. destruct (ns !! i) eqn:E; [by eapply H|apply zeroNode_ok].
Qed.

Lemma pushFree_sized ns i h : sized ns → sized (pushFree ns i h).1.
Proof.
  rewrite !sized_forall. intros H. revert i h. induction H as [|n ns Hn _ IH]; intros i h; [constructor|].
  cbn. specialize (IH (S i) (Z.of_nat i)). destruct (pushFree ns (S i) (Z.of_nat i)). by constructor.
Qed.

Lemma emptyPool_rep n ns : (0 < n)%nat → sized ns →
  Rep (emptyPool n ns) ∅ ∧ length (nodes (emptyPool n ns)) = length ns ∧
  length (buckets (emptyPool n ns)) = n.
Proof.
  intros Hn Hs. pose proof (emptyPool_wf n ns Hn) as Hwf.
  pose proof (wf_len _ _ _ _ Hwf) as Hlb. rewrite length_replicate in Hlb.
  pose proof (Permutation_length (wf_perm _ _ _ _ Hwf)) as Hl.
  assert (Hcat : concat (replicate n (@nil nat)) = []) by (clear; by induction n).
  rewrite Hcat, app_nil_r, length_seq in Hl. cbn [app] in Hl. rewrite length_reverse, length_seq in Hl.
  split; [|done]. exists (replicate n []), (reverse (seq 0 (length ns))). split; [done|..].
  - unfold emptyPool. pose proof (pushFree_sized ns 0 (-1) Hs) as H.
    destruct (pushFree ns 0 (-1)) as [ns' h]. exact H.
  - by rewrite Hcat.
Qed.

Lemma enable_refines mb c : arena c = None → ∃ c' cap, enable true mb c = (true, c') ∧
  Refines c' cap ∅ ∧ ignoreTtl c' = ignoreTtl c ∧ usesTotal (mark c') = 0 ∧ meter c' = zeroMeter ∧
  (2966 <= cap)%nat.
Proof.
  intros Ha. unfold enable. rewrite Ha.
  set (m1 := if mb <? kMinCacheSizeMb then kMinCacheSizeMb else mb). cbv zeta.
  set (m2 := if kMaxCacheSizeMb <? m1 then kMaxCacheSizeMb else m1).
  assert (Hm : 1 <= m2 <= 20).
  { unfold m2, m1, kMinCacheSizeMb, kMaxCacheSizeMb. repeat case_match; lia. }
  unfold arenaShape, kBucketGranularityBytes, kMinBuckets, sizeofNode.
  set (nb := Z.max (m2 * 1024 * 1024 / 4096) 1024).
  set (nc := (m2 * 1024 * 1024 - nb * 4) / 352).
  assert (Hnb : 1024 <= nb /\ nb * 4 < m2 * 1024 * 1024 /\ 2966 <= nc) by (unfold nc, nb; zdm).
  destruct (Z.leb_spec (m2 * 1024 * 1024) (nb * 4)); [lia|].
  destruct (Z.ltb_spec nc 1); [lia|]. cbn [negb].
  destruct (emptyPool_rep (Z.to_nat nb) (replicate (Z.to_nat nc) zeroNode)) as (HR & HL & _); [lia| |].
  { apply sized_forall, Forall_replicate, zeroNode_ok. }
  rewrite length_replicate in HL.
  eexists _, (Z.to_nat nc). split; [done|]. split; [|split; [done|split; [done|split; [done|lia]]]].
  eexists. split; [done|]. split; [done|]. split; [done|lia].
Qed.

Lemma clear_refines c cap M : Refines c cap M →
  Refines (clear c) cap ∅ ∧ ignoreTtl (clear c) = ignoreTtl c ∧
  usesTotal (mark (clear c)) = usesTotal (mark c) ∧ topValid (mark (clear c)) = false.
Proof.
  intros (p & Ha & (chains & free & Hh) & Hlen & Hpos). unfold clear. rewrite Ha.
  destruct (emptyPool_rep (length (buckets p)) (nodes p)) as (HR & HL & _).
  { apply (wf_some _ _ _ _ (holds_wf _ _ _ _ Hh)). }
  { apply (holds_sized _ _ _ _ Hh). }
  split; [|done]. eexists. split; [done|]. split; [done|]. split; [congruence|done].
Qed.

(** ** Properties *)

Section Properties.
Context (pton4 : bytes → option Z) (pton6 : bytes → option bytes).
Context (ntop4 : Z → option bytes) (ntop6 : bytes → option bytes).

Lemma runOp_refines o c cap M : Refines c cap M →
  ∃ c' M', runOp pton4 pton6 ntop4 ntop6 o c = Done c' ∧ Refines c' cap M'.
Proof.
  intros H. assert (Hst : ∀ domain q ips t restore now us, ∃ c' M',
    storeInternal pton4 pton6 domain q ips t restore now us c = Done c' ∧ Refines c' cap M').
  { intros. destruct (decide (okName domain ∧ ips ≠ [] ∧ (q = kTypeA ∨ q = kTypeAaaa))) as [(Hn & Hi & Hq)|Hno].
    - destruct (store_total c cap M H pton4 pton6 domain q ips t restore now us Hn Hi Hq)
        as (c' & M' & r & E & _ & _ & HR & _). by eauto.
    - exists c, M. split; [|done]. apply store_refused. unfold okName in Hno.
      destruct (decide (domain = [])), (decide (ips = [])); auto.
      destruct (decide (q = kTypeA)), (decide (q = kTypeAaaa)); auto; right; right; right;
        apply not_gt; intros ?; apply Hno; auto. }
  destruct o as [| |domain q now us|domain q|]; cbn [runOp]; [by apply Hst..| | |].
  - destruct (decide (okName domain)) as [Hn|Hn].
    + destruct (lookup_total c cap M H ntop4 ntop6 domain q now us Hn) as (c' & -> & _ & HR).
      rewrite run_bind_done. by eauto.
    + rewrite lookup_refused, run_bind_done by done. by eauto.
  - destruct (decide (domain = [])) as [->|Hn].
    + exists c, M. split; [|done]. destruct H as (p & Ha & _). unfold erase. by rewrite Ha.
    + destruct (erase_total c cap M H domain q Hn) as (c' & -> & _ & _ & HR).
      rewrite run_bind_done. by eauto.
  - exists (clear c), ∅. split; [done|]. by apply (clear_refines c cap M).
Qed.

Lemma runOps_refines os : ∀ c cap M, Refines c cap M →
  ∃ c' M', runOps pton4 pton6 ntop4 ntop6 os c = Done c' ∧ Refines c' cap M'.
Proof.
  induction os as [|o os IH]; intros c cap M H; cbn [runOps]; [by eauto|].
  destruct (runOp_refines o c cap M H) as (c1 & M1 & -> & H1). rewrite run_bind_done. by eapply IH.
Qed.

(** C7: from the moment the cache is enabled, whatever is stored,
    restored, looked up, erased or cleared, in any order and with any arguments:
    no chain walk runs past the pool or goes round for ever, and the number of
    records never exceeds the number of slots. *)
Theorem cache_runs mb os c : arena c = None →
  ∃ c0 c' p, enable true mb c = (true, c0) ∧ runOps pton4 pton6 ntop4 ntop6 os c0 = Done c' ∧
    arena c' = Some p ∧ 0 <= entries p <= Z.of_nat (length (nodes p)).
Proof.
  intros Ha. destruct (enable_refines mb c Ha) as (c0 & cap & E & H & _).
  destruct (runOps_refines os c0 cap ∅ H) as (c' & M' & E' & H').
  destruct (entries_bound c' cap M' H') as (p & Hp & He & Hs).
  exists c0, c', p. split_and!; try done; [lia|].
  destruct H' as (p' & Hp' & _ & Hl & _). assert (p' = p) as -> by congruence. lia.
Qed.

(** C5: a store of addresses that parse makes the key's record the
    one described by [specRec] - the first sixteen (or eight) addresses, the TTL,
    the time of the call, the old use count plus one - and touches no other
    record, except that with every slot taken a record that is used least, and
    among those is the oldest, goes. *)
Theorem store_refines c cap M domain q ips t now us : Refines c cap M →
  okName domain → ips ≠ [] → q = kTypeA ∨ q = kTypeAaaa → parses pton4 pton6 q ips →
  ∃ c' M', store pton4 pton6 domain q ips t now us c = Done c' ∧
    room now cap (keyFor domain q) M M' ∧
    Refines c' cap (<[keyFor domain q :=
      specRec pton4 pton6 q now t ips (sat1 (default 0 (rUses <$> M !! keyFor domain q)))]> M').
Proof.
  intros H Hn Hi Hq Hp.
  destruct (store_total c cap M H pton4 pton6 domain q ips t None now us Hn Hi Hq)
    as (c' & M' & r & E & Hroom & _ & HR & Hr).
  exists c', M'. rewrite (Hr Hp) in HR. by split_and!.
Qed.

(** C6: a lookup answers what the map says: a miss for an unknown
    name, a miss that purges an expired record, otherwise the record's addresses
    with the remaining TTL and one more use. *)
Theorem lookup_refines c cap M domain q now us : Refines c cap M → okName domain →
  ∃ c', lookup ntop4 ntop6 domain q now us c =
      Done ((specLookup ntop4 ntop6 (ignoreTtl c) now (keyFor domain q) M).1, c') ∧
    Refines c' cap (specLookup ntop4 ntop6 (ignoreTtl c) now (keyFor domain q) M).2.
Proof.
  intros H Hn. destruct (lookup_total c cap M H ntop4 ntop6 domain q now us Hn) as (c' & E & _ & HR).
  by exists c'.
Qed.

(** Erasing removes exactly the record of that name and type,
    whatever the case the name is written in, and reports whether there was one;
    afterwards the cache does not contain it. *)
Theorem erase_refines c cap M domain q : Refines c cap M → domain ≠ [] →
  ∃ c', erase domain q c = Done (bool_decide (is_Some (M !! keyFor domain q)), c') ∧
    Refines c' cap (delete (keyFor domain q) M) ∧ contains domain q c' = Done false.
Proof.
  intros H Hd. destruct (erase_total c cap M H domain q Hd) as (c' & E & _ & _ & HR).
  exists c'. split; [done|]. split; [done|].
  rewrite (contains_total c' cap _ HR domain q Hd), lookup_delete_eq. done.
Qed.

Lemma omap_canonical {A} (pton : bytes → option A) (ntop : A → option bytes) k ips :
  Forall (λ ip, ∃ v, pton ip = Some v ∧ ntop v = Some ip) ips →
  omap ntop (take k (omap pton ips)) = take k ips.
Proof.
  intros H. revert k. induction H as [|ip ips (v & Hp & Hn) _ IH]; intros k; [by destruct k|].
  cbn. rewrite Hp. destruct k as [|k]; [done|]. cbn. rewrite Hn. f_equal. apply IH.
Qed.

(** What has been stored is answered: as long as the record
    has not expired, a lookup of the same name in any case gives back the same
    address texts (the first sixteen for A, eight for AAAA). *)
Theorem store_then_lookup c cap M domain domain' q ips t now us now' us' :
  Refines c cap M → okName domain → okName domain' → lower domain' = lower domain →
  ips ≠ [] → q = kTypeA ∨ q = kTypeAaaa →
  Forall (λ ip, if q =? kTypeA then ∃ v, pton4 ip = Some v ∧ ntop4 v = Some ip
                else ∃ v, pton6 ip = Some v ∧ ntop6 v = Some ip) ips →
  ignoreTtl c = true ∨ t = 0 ∨ elapsedMs now' now / 1000 < t →
  ∃ c1 c2 t', store pton4 pton6 domain q ips t now us c = Done c1 ∧
    lookup ntop4 ntop6 domain' q now' us' c1 =
      Done (Some (take (if q =? kTypeA then kMaxA else kMaxAAAA) ips, t'), c2).
Proof.
  intros H Hn Hn' Hlow Hips Hq Hcan Hlive.
  assert (Hp : parses pton4 pton6 q ips).
  { eapply Forall_impl; [exact Hcan|]. intros ip. cbn. destruct (q =? kTypeA); intros (v & -> & _); done. }
  destruct (store_total c cap M H pton4 pton6 domain q ips t None now us Hn Hips Hq)
    as (c1 & M1 & r & E & _ & Hig & HR & Hr).
  destruct (lookup_total c1 cap _ HR ntop4 ntop6 domain' q now' us' Hn') as (c2 & E2 & _ & _).
  exists c1, c2. eexists. split; [done|]. rewrite E2. do 2 f_equal.
  unfold specLookup, keyFor. rewrite Hlow. fold (keyFor domain q). rewrite lookup_insert_eq, (Hr Hp), Hig.
  assert (specExpired (ignoreTtl c) now' (specRec pton4 pton6 q now t ips
    (specUses None (M !! keyFor domain q))) = false) as ->.
  { unfold specExpired. cbn. destruct (ignoreTtl c); [done|]. cbn.
    destruct (Z.eqb_spec t 0); [done|]. cbn. apply Z.leb_gt.
    destruct Hlive as [?|[?|?]]; done. }
  assert (Had : specAddresses ntop4 ntop6 (keyFor domain q).2 (specRec pton4 pton6 q now t ips
    (specUses None (M !! keyFor domain q))) = take (if q =? kTypeA then kMaxA else kMaxAAAA) ips).
  { unfold specAddresses, specRec, keyFor. cbn [snd rA4 rA6].
    destruct Hq as [-> | ->].
    - change (kTypeA =? kTypeA) with true in *. cbv iota in *. by apply omap_canonical.
    - change (kTypeAaaa =? kTypeA) with false in *. change (kTypeAaaa =? kTypeAaaa) with true.
      cbv iota in *. by apply omap_canonical. }
  rewrite Had, bool_decide_eq_false_2; [done|].
  destruct ips; [done|]. by destruct (q =? kTypeA).
Qed.

End Properties.

(** The TTL of an answer counts down: below 49.7 days it is the
    record's TTL less the time it has been kept, in whole seconds rounded up -
    never zero, never above the TTL that was stored, and across the turnover of
    the millisecond clock. *)
Theorem ttl_countdown n stored now : 0 < ttl n <= 4294966 → storedMs n = stored →
  expired false now n = false →
  remainingTtl false now n = (1000 * ttl n - (now - stored) mod 2 ^ 32 + 999) / 1000 ∧
  1 <= remainingTtl false now n <= ttl n.
Proof.
  intros Ht Hs. unfold expired, remainingTtl, elapsedMs. rewrite Hs. cbn [negb andb orb].
  destruct (Z.eqb_spec (ttl n) 0); [lia|]. cbn [negb andb]. intros He%Z.leb_gt.
  pose proof (u32_range (now - stored)) as Hr.
  assert (Hlt : u32 (now - stored) < 1000 * ttl n) by (word_unfold; zdm).
  rewrite (u32_small (ttl n * 1000)) by word_lia.
  rewrite (u32_small (ttl n * 1000 - _)) by (revert Hlt Hr; generalize (u32 (now - stored)); word_lia).
  rewrite u32_small by (revert Hlt Hr; generalize (u32 (now - stored)); word_lia).
  unfold u32 in *. split; [f_equal; lia|]. revert Hlt Hr. unfold is_u32.
  generalize ((now - stored) mod 2 ^ 32). intros. zdm.
Qed.

(** ** Concrete caches *)

(** Two toy address families for the witnesses: an address text is one byte, and
    [33] is not an address. *)
Definition toy4 (s : bytes) : option Z :=
  match s with [b] => if b =? 33 then None else Some b | _ => None end.
Definition toy6 (s : bytes) : option bytes := Some s.
Definition show4 (z : Z) : option bytes := Some [z].
Definition show6 (s : bytes) : option bytes := Some s.

Definition off : Cache := mkCache None 0 zeroMeter (mkMark 0 0 (-1) 0 [] false) false.

(** An arena of two slots under three buckets, empty. *)
Definition small : Cache :=
  mkCache (Some (emptyPool 3 (replicate 2 zeroNode))) 1 zeroMeter (mkMark 0 0 (-1) 0 [] false) false.

Lemma small_refines : Refines small 2 ∅.
Proof.
  destruct (emptyPool_rep 3 (replicate 2 zeroNode)) as (HR & HL & _); [lia|apply sized_forall, Forall_replicate, zeroNode_ok|].
  exists (emptyPool 3 (replicate 2 zeroNode)). split; [done|]. split; [done|]. split; [exact HL|lia].
Qed.

Lemma cache_runs_witness : ∃ c0 c' p, enable true 4 off = (true, c0) ∧
  runOps toy4 toy6 show4 show6 [OpStore (lit "a.b") 1 [[7]] 60 0 0; OpClear] c0 = Done c' ∧
  arena c' = Some p ∧ 0 <= entries p <= Z.of_nat (length (nodes p)).
Proof. apply (cache_runs toy4 toy6 show4 show6 4). reflexivity. Defined.

Lemma store_refines_witness : ∃ c' M', store toy4 toy6 (lit "A.b") 1 [[7]; [8]] 60 1000 0 small = Done c' ∧
  room 1000 2 (keyFor (lit "A.b") 1) ∅ M' ∧
  Refines c' 2 (<[keyFor (lit "A.b") 1 := specRec toy4 toy6 1 1000 60 [[7]; [8]]
    (sat1 (default 0 (rUses <$> (∅ : gmap key Rec) !! keyFor (lit "A.b") 1)))]> M').
Proof.
  apply (store_refines toy4 toy6); [exact small_refines|split; [done|cbn; unfold kMaxNameLen; lia]|done|by left|].
  repeat constructor; by eexists.
Defined.

Lemma lookup_refines_witness : ∃ c', lookup show4 show6 (lit "a.b") 1 5 0 small =
    Done ((specLookup show4 show6 (ignoreTtl small) 5 (keyFor (lit "a.b") 1) ∅).1, c') ∧
  Refines c' 2 (specLookup show4 show6 (ignoreTtl small) 5 (keyFor (lit "a.b") 1) ∅).2.
Proof. apply lookup_refines; [exact small_refines|split; [done|cbn; unfold kMaxNameLen; lia]]. Defined.

Lemma erase_refines_witness : ∃ c',
  erase (lit "a.b") 1 small = Done (bool_decide (is_Some ((∅ : gmap key Rec) !! keyFor (lit "a.b") 1)), c') ∧
  Refines c' 2 (delete (keyFor (lit "a.b") 1) ∅) ∧ contains (lit "a.b") 1 c' = Done false.
Proof. apply erase_refines; [exact small_refines|done]. Defined.

Lemma store_then_lookup_witness : ∃ c1 c2 t',
  store toy4 toy6 (lit "Host.lan") 1 [[7]; [8]] 60 1000 0 small = Done c1 ∧
  lookup show4 show6 (lit "hOST.lan") 1 31000 0 c1 = Done (Some ([[7]; [8]], t'), c2).
Proof.
  apply (store_then_lookup toy4 toy6 show4 show6 small 2 ∅ (lit "Host.lan") (lit "hOST.lan") 1 [[7]; [8]]
    60 1000 0 31000 0); [exact small_refines|split; [done|cbn; unfold kMaxNameLen; lia]..|done|done|by left| |].
  - repeat constructor; by eexists.
  - right. right. vm_compute. reflexivity.
Defined.

Lemma ttl_countdown_witness : let n := mkNode 0 0 1 0 0 (2 ^ 32 - 1000) 60 0 [] [] [] in
  remainingTtl false 29500 n = (1000 * 60 - (29500 - (2 ^ 32 - 1000)) mod 2 ^ 32 + 999) / 1000 ∧
  1 <= remainingTtl false 29500 n <= 60.
Proof. intros n. apply (ttl_countdown n (2 ^ 32 - 1000) 29500); [cbn; lia|done|vm_compute; done]. Defined.

(** Asked for the one oldest record of two, [oldestEntries]
    answers the younger one: the heap keeps the records with the smallest age. *)
Example oldest_entries_youngest :
  (c ← runOps toy4 toy6 show4 show6
     [OpStore (lit "old.lan") 1 [[7]] 60 1000 0; OpStore (lit "new.lan") 1 [[8]] 60 4000 0] small;
   oldestEntries 1 (λ _ _, false) 5000 c) = Done [(lit "new.lan", 1)].
Proof. vm_compute. reflexivity. Qed.

(** A text that is not an address is counted all the same: storing
    it over a record leaves the previous answer's address in the record, and the
    next lookup gives it out. *)
Example refused_address_served :
  (c ← runOps toy4 toy6 show4 show6
     [OpStore (lit "a.lan") 1 [[7]] 60 1000 0; OpStore (lit "a.lan") 1 [[33]] 60 4000 0] small;
   r ← lookup show4 show6 (lit "a.lan") 1 5000 0 c; mret r.1) = Done (Some ([[7]], 59)).
Proof. vm_compute. reflexivity. Qed.

End CacheSpec.
