(* ===== verification/CacheFile.v ===== *)
(** * The cache file format

    The reader of src/dns/CacheFileReader.cpp on the bytes of a file: header,
    versions, records, the status it ends with and the reason it gives; and the
    check a planned restart makes with it. *)
From S2P Require Import Prelude.
#[local] Open Scope Z_scope.

Module CacheFileReader.

Definition kHeaderBytes : nat := 16.
Definition kMagic : bytes := lit "DCC1".
Definition kMagicBytes : nat := 4.
Definition kVersionOffset : nat := 4.
Definition kCountOffset : nat := 8.
Definition kTailBytes : nat := 8.
Definition kVersion : Z := 3.
Definition kVersionMin : Z := 1.
Definition kVersionUses64 : Z := 2.
Definition kMaxNameBytes : Z := 127.
Definition kMaxPlausibleRecords : Z := 2000000.
Definition kMaxA : Z := 16.
Definition kMaxAaaa : Z := 8.
Definition kTypeA : Z := 1.
Definition kTypeAaaa : Z := 28.
Definition kBytesPerIpv4 : nat := 4.
Definition kBytesPerIpv6 : nat := 16.

Record CacheFileRecord := mkRecord {
  name : bytes;
  qtype : Z;
  ttlRemaining : Z;
  uses : Z;
  addrs : list bytes;
}.

Inductive CacheFileStatus :=
  | Ok | NotFound | BadHeader | UnsupportedVersion | ImplausibleCount | Truncated | BadRecord
  | TrailingBytes.

#[export] Instance CacheFileStatus_eq_dec : EqDecision CacheFileStatus.
Proof. solve_decision. Defined.

Record CacheFileRead := mkRead {
  status : CacheFileStatus;
  version : Z;
  headerCount : Z;
  sizeBytes : Z;
  records : Z;
  why : bytes;
}.

Record CacheFileCheck := mkCheck { ok : bool; checked : Z; reason : bytes }.

(** Little-endian values; a byte that is not there reads as 0, but every caller
    hands over as many bytes as it reads. *)
Fixpoint getLe (s : bytes) : Z :=
  match s with [] => 0 | b :: s' => b + 256 * getLe s' end.
Definition getU32 (s : bytes) : Z := getLe (take 4 s).
Definition getU64 (s : bytes) : Z := getLe (take 8 s).

(** [fread] of exactly [n] bytes from what is left of the file. *)
Definition readExact (n : nat) (f : bytes) : option (bytes * bytes) :=
  if (n <=? length f)%nat then Some (take n f, drop n f) else None.

Definition statusName (s : CacheFileStatus) : bytes :=
  match s with
  | Ok => lit "ok"
  | NotFound => lit "not found"
  | BadHeader => lit "bad header"
  | UnsupportedVersion => lit "unsupported version"
  | ImplausibleCount => lit "implausible record count"
  | Truncated => lit "truncated"
  | BadRecord => lit "bad record"
  | TrailingBytes => lit "trailing bytes"
  end.

(** A record, or why the reading stops at it. *)
Abbreviation parsed A := (CacheFileStatus * bytes + A)%type.

Definition need {A} (n : nat) (f msg : bytes) (k : bytes → bytes → parsed A) : parsed A :=
  match readExact n f with
  | None => inl (Truncated, msg)
  | Some (s, f) => k s f
  end.

Fixpoint readAddrs (n : nat) (size : nat) (f msg : bytes) : parsed (list bytes * bytes) :=
  match n with
  | O => inr ([], f)
  | S n' =>
      need size f msg (λ raw f,
        match readAddrs n' size f msg with
        | inl e => inl e
        | inr (l, f) => inr (raw :: l, f)
        end)
  end.

(** The usage counter: none in version 1, eight bytes in version 2, four since. *)
Definition readUses (ver : Z) (f msg : bytes) : parsed (Z * bytes) :=
  if kVersionUses64 <=? ver then
    if ver =? kVersionUses64 then need 8 f msg (λ s f, inr (getU64 s, f))
    else need 4 f msg (λ s f, inr (getU32 s, f))
  else inr (0, f).

(** One turn of the loop. *)
Definition readRecord (ver i count : Z) (f : bytes) : parsed (CacheFileRecord * bytes) :=
  let at_ := lit "record " ++ dec (i + 1) ++ lit " of " ++ dec count in
  need 1 f (lit "the file ends before " ++ at_) (λ l f,
  let nameLen := nth 0 l 0 in
  if (nameLen =? 0) || (kMaxNameBytes <? nameLen) then
    inl (BadRecord, at_ ++ lit " has an impossible name length (" ++ dec nameLen ++ lit ")")
  else
    need (Z.to_nat nameLen) f (lit "the file ends inside the name of " ++ at_) (λ nm f,
    need kTailBytes f (lit "the file ends inside the fields of " ++ at_) (λ tail f,
    let q := Z.lor (nth 0 tail 0) (Z.shiftl (nth 1 tail 0) 8) in
    let countA := nth 2 tail 0 in
    let countAaaa := nth 3 tail 0 in
    let ttl := getU32 (drop 4 tail) in
    if (kMaxA <? countA) || (kMaxAaaa <? countAaaa) then
      inl (BadRecord, at_ ++ lit " claims more addresses than a record holds")
    else
      let isA := q =? kTypeA in
      if negb isA && negb (q =? kTypeAaaa) then
        inl (BadRecord, at_ ++ lit " has query type " ++ dec q ++ lit ", which is neither A nor AAAA")
      else
        match readUses ver f (lit "the file ends inside the usage counter of " ++ at_) with
        | inl e => inl e
        | inr (u, f) =>
            let addrCount := if isA then countA else countAaaa in
            let addrBytes := if isA then kBytesPerIpv4 else kBytesPerIpv6 in
            if addrCount =? 0 then inl (BadRecord, at_ ++ lit " holds no address")
            else
              match readAddrs (Z.to_nat addrCount) addrBytes f
                      (lit "the file ends inside the addresses of " ++ at_) with
              | inl e => inl e
              | inr (l, f) => inr (mkRecord nm q ttl u l, f)
              end
        end))).

(** The records in file order, as the handler sees them, and how the loop ended:
    the error, or what is left of the file. *)
Fixpoint readRecords (n : nat) (ver i count : Z) (f : bytes)
  : list CacheFileRecord * parsed bytes :=
  match n with
  | O => ([], inr f)
  | S n' =>
      match readRecord ver i count f with
      | inl e => ([], inl e)
      | inr (r, f) => let '(l, e) := readRecords n' ver (i + 1) count f in (r :: l, e)
      end
  end.

(** [read]: [path] is the name handed over, [file] what [fopen] finds there. *)
Definition read (path : bytes) (file : option bytes) : CacheFileRead * list CacheFileRecord :=
  if bool_decide (path = []) then (mkRead NotFound 0 0 0 0 (lit "no file name was given"), [])
  else match file with
  | None => (mkRead NotFound 0 0 0 0 (lit "the file is not there"), [])
  | Some f =>
      let size := Z.of_nat (length f) in
      match readExact kHeaderBytes f with
      | None =>
          (mkRead BadHeader 0 0 size 0
             (lit "the file is shorter than the " ++ dec (Z.of_nat kHeaderBytes) ++
              lit "-byte header (" ++ dec size ++ lit " bytes)"), [])
      | Some (header, body) =>
          if negb (bytes_eqb (take kMagicBytes header) kMagic) then
            (mkRead BadHeader 0 0 size 0 (lit "the file does not start with the cache magic"), [])
          else
            let ver := getU32 (drop kVersionOffset header) in
            if (ver <? kVersionMin) || (kVersion <? ver) then
              (mkRead UnsupportedVersion ver 0 size 0
                 (lit "format version " ++ dec ver ++ lit " is not one this build knows"), [])
            else
              let count := getU32 (drop kCountOffset header) in
              if kMaxPlausibleRecords <? count then
                (mkRead ImplausibleCount ver count size 0
                   (lit "the header claims " ++ dec count ++ lit " records"), [])
              else
                let '(l, e) := readRecords (Z.to_nat count) ver 0 count body in
                let n := Z.of_nat (length l) in
                match e with
                | inl (s, w) => (mkRead s ver count size n w, l)
                | inr [] => (mkRead Ok ver count size n [], l)
                | inr (_ :: _) =>
                    (mkRead TrailingBytes ver count size n
                       (lit "the file holds more bytes than its " ++ dec count ++ lit " records"), l)
                end
      end
  end.

Definition check (path : bytes) (file : option bytes) (expectedRecords : Z) : CacheFileCheck :=
  let r := (read path file).1 in
  if negb (bool_decide (status r = Ok)) then
    mkCheck false (records r) (if bool_decide (why r = []) then statusName (status r) else why r)
  else if negb (records r =? expectedRecords) then
    mkCheck false (records r) (lit "the file holds " ++ dec (records r) ++ lit " records, " ++
                               dec expectedRecords ++ lit " were written")
  else mkCheck true (records r) [].

(** ** What a file that reads as [Ok] is *)

(** A little-endian value of [n] bytes. *)
Fixpoint putLe (n : nat) (v : Z) : bytes :=
  match n with O => [] | S n' => v mod 256 :: putLe n' (v / 256) end.

Definition addrsOf (r : CacheFileRecord) : bytes := concat (addrs r).

(** The bytes of a record in format [ver]; [other] is the count of the addresses
    of the other family, which the reader only bounds. *)
Definition encode (ver other : Z) (r : CacheFileRecord) : bytes :=
  Z.of_nat (length (name r)) :: name r ++
  putLe 2 (qtype r) ++
  (if qtype r =? kTypeA then [Z.of_nat (length (addrs r)); other] else [other; Z.of_nat (length (addrs r))]) ++
  putLe 4 (ttlRemaining r) ++
  (if ver =? 1 then [] else if ver =? 2 then putLe 8 (uses r) else putLe 4 (uses r)) ++
  addrsOf r.

Definition header (ver count : Z) : bytes := kMagic ++ putLe 4 ver ++ putLe 4 count ++ putLe 4 0.

(** A record the format can hold. *)
Record storable (ver : Z) (r : CacheFileRecord) : Prop := {
  st_name : (0 < length (name r) <= 127)%nat;
  st_type : qtype r = kTypeA ∨ qtype r = kTypeAaaa;
  st_ttl : is_u32 (ttlRemaining r);
  st_uses : if ver =? 1 then uses r = 0 else if ver =? 2 then is_u64 (uses r) else is_u32 (uses r);
  st_some : addrs r ≠ [];
  st_count : Z.of_nat (length (addrs r)) <= if qtype r =? kTypeA then kMaxA else kMaxAaaa;
  st_addrs : Forall (λ a, length a = if qtype r =? kTypeA then kBytesPerIpv4 else kBytesPerIpv6) (addrs r);
}.

Lemma getLe_putLe n v : 0 <= v < 256 ^ Z.of_nat n → getLe (putLe n v) = v.
Proof.
  revert v. induction n as [|n IH]; intros v Hv; cbn [putLe getLe].
  - cbn in Hv. lia.
  - rewrite IH; [zdm|]. rewrite Nat2Z.inj_succ, Z.pow_succ_r in Hv by lia.
    split; [zdm|]. apply Z.div_lt_upper_bound; lia.
Qed.

Lemma putLe_length n v : length (putLe n v) = n.
Proof. revert v. induction n as [|n IH]; intros v; cbn; [done|]. by rewrite IH. Qed.

Lemma readExact_app s f n : length s = n → readExact n (s ++ f) = Some (s, f).
Proof.
  intros <-. unfold readExact. rewrite length_app.
  destruct (Nat.leb_spec (length s) (length s + length f)); [|lia].
  by rewrite take_app_length, drop_app_length.
Qed.

Lemma need_app {A} s f n msg (k : bytes → bytes → parsed A) :
  length s = n → need n (s ++ f) msg k = k s f.
Proof. intros H. unfold need. by rewrite (readExact_app s f n H). Qed.

Lemma readAddrs_app size l f msg : Forall (λ a, length a = size) l →
  readAddrs (length l) size (concat l ++ f) msg = inr (l, f).
Proof.
  induction 1 as [|a l Ha _ IH]; cbn [readAddrs length concat]; [done|].
  rewrite <- app_assoc, need_app by done. by rewrite IH.
Qed.

Lemma readUses_app ver r f msg : 1 <= ver <= 3 → storable ver r →
  readUses ver ((if ver =? 1 then [] else if ver =? 2 then putLe 8 (uses r) else putLe 4 (uses r)) ++ f) msg
  = inr (uses r, f).
Proof.
  intros Hv [_ _ _ Hu _ _ _]. unfold readUses, kVersionUses64.
  assert (ver = 1 ∨ ver = 2 ∨ ver = 3) as [-> | [-> | ->]] by lia;
    cbn -[need getU64 getU32 putLe] in Hu |- *.
  - by rewrite Hu.
  - rewrite need_app by apply (putLe_length 8). unfold getU64. change (take 8 (putLe 8 (uses r))) with (putLe 8 (uses r)).
    by rewrite getLe_putLe by exact Hu.
  - rewrite need_app by apply (putLe_length 4). unfold getU32. change (take 4 (putLe 4 (uses r))) with (putLe 4 (uses r)).
    by rewrite getLe_putLe by exact Hu.
Qed.

(** The eight bytes between the name and the counter. *)
Lemma tail_fields q c4 c6 t : q = kTypeA ∨ q = kTypeAaaa → is_u32 t →
  let tail := putLe 2 q ++ [c4; c6] ++ putLe 4 t in
  Z.lor (nth 0 tail 0) (Z.shiftl (nth 1 tail 0) 8) = q ∧ nth 2 tail 0 = c4 ∧ nth 3 tail 0 = c6 ∧
  getU32 (drop 4 tail) = t.
Proof.
  intros Hq Ht tail. split; [by destruct Hq as [-> | ->]|]. split; [done|]. split; [done|].
  unfold getU32. change (take 4 (drop 4 tail)) with (putLe 4 t). by apply getLe_putLe.
Qed.

Lemma readRecord_encode ver other r i count f : 1 <= ver <= 3 → storable ver r →
  0 <= other <= (if qtype r =? kTypeA then kMaxAaaa else kMaxA) →
  readRecord ver i count (encode ver other r ++ f) = inr (r, f).
Proof.
  intros Hv Hst Ho. pose proof Hst as [Hn Hq Ht _ Hs Hc Ha]. unfold readRecord, encode, kMaxNameBytes.
  rewrite <- app_comm_cons. cbv zeta.
  change (?x :: ?l) with ([x] ++ l). rewrite need_app by done. cbn [nth].
  destruct (Z.eqb_spec (Z.of_nat (length (name r))) 0); [lia|].
  destruct (Z.ltb_spec 127 (Z.of_nat (length (name r)))); [lia|]. cbn [orb].
  rewrite Nat2Z.id, <- !app_assoc, need_app by done.
  set (c4 := if qtype r =? kTypeA then Z.of_nat (length (addrs r)) else other).
  set (c6 := if qtype r =? kTypeA then other else Z.of_nat (length (addrs r))).
  assert (Hcs : (if qtype r =? kTypeA then [Z.of_nat (length (addrs r)); other]
    else [other; Z.of_nat (length (addrs r))]) = [c4; c6]) by (unfold c4, c6; by destruct (qtype r =? kTypeA)).
  rewrite Hcs. set (U := if ver =? 1 then _ else _).
  rewrite (app_assoc [c4; c6]), (app_assoc (putLe 2 _)), need_app
    by (rewrite !length_app, !putLe_length; done).
  destruct (tail_fields (qtype r) c4 c6 (ttlRemaining r) Hq Ht) as (-> & -> & -> & ->).
  assert (Hlen : (0 < length (addrs r))%nat) by (destruct (addrs r); [done|cbn; lia]).
  assert ((kMaxA <? c4) || (kMaxAaaa <? c6) = false) as ->.
  { unfold c4, c6, kMaxA, kMaxAaaa in *. destruct (qtype r =? kTypeA);
      apply orb_false_iff; rewrite !Z.ltb_ge; lia. }
  assert (negb (qtype r =? kTypeA) && negb (qtype r =? kTypeAaaa) = false) as ->
    by (by destruct Hq as [-> | ->]).
  unfold U. rewrite readUses_app by done. unfold addrsOf.
  replace (if qtype r =? kTypeA then c4 else c6) with (Z.of_nat (length (addrs r)))
    by (unfold c4, c6; by destruct (qtype r =? kTypeA)).
  destruct (Z.eqb_spec (Z.of_nat (length (addrs r))) 0); [lia|].
  rewrite Nat2Z.id, readAddrs_app by exact Ha. by destruct r.
Qed.

(** A written record: the record, and the count of its other family. *)
Definition encodable (ver : Z) (x : CacheFileRecord * Z) : Prop :=
  storable ver x.1 ∧ 0 <= x.2 <= (if qtype x.1 =? kTypeA then kMaxAaaa else kMaxA).

Definition body (ver : Z) (l : list (CacheFileRecord * Z)) : bytes :=
  concat ((λ x, encode ver x.2 x.1) <$> l).

Lemma readRecords_encode ver l count : 1 <= ver <= 3 → Forall (encodable ver) l →
  ∀ i f, readRecords (length l) ver i count (body ver l ++ f) = (l.*1, inr f).
Proof.
  intros Hv. induction 1 as [|[r o] l [Hr Ho] _ IH]; intros i f; cbn [length readRecords]; [done|].
  unfold body. cbn [fmap list_fmap concat fst snd]. rewrite <- app_assoc, readRecord_encode by done.
  by rewrite IH.
Qed.

Lemma header_fields ver count : 1 <= ver <= 3 → is_u32 count →
  length (header ver count) = kHeaderBytes ∧
  bytes_eqb (take kMagicBytes (header ver count)) kMagic = true ∧
  getU32 (drop kVersionOffset (header ver count)) = ver ∧
  getU32 (drop kCountOffset (header ver count)) = count.
Proof.
  intros Hv Hc. split; [done|]. split; [done|]. unfold getU32. split.
  - change (take 4 (drop kVersionOffset (header ver count))) with (putLe 4 ver).
    apply getLe_putLe. cbn. lia.
  - change (take 4 (drop kCountOffset (header ver count))) with (putLe 4 count).
    apply getLe_putLe. exact Hc.
Qed.

Lemma read_encoded path ver l : path ≠ [] → 1 <= ver <= 3 → Forall (encodable ver) l →
  Z.of_nat (length l) <= kMaxPlausibleRecords →
  let n := Z.of_nat (length l) in
  let file := header ver n ++ body ver l in
  read path (Some file) = (mkRead Ok ver n (Z.of_nat (length file)) n [], l.*1) ∧
  ∀ expected, ok (check path (Some file) expected) = (n =? expected).
Proof.
  intros Hp Hv Hl Hmax n file. assert (Hn : is_u32 n) by (unfold kMaxPlausibleRecords in *; word_lia).
  destruct (header_fields ver n Hv Hn) as (H1 & H2 & H3 & H4).
  assert (Hread : read path (Some file) = (mkRead Ok ver n (Z.of_nat (length file)) n [], l.*1)).
  { unfold read, file. rewrite bool_decide_eq_false_2 by done. cbv zeta.
    rewrite (readExact_app _ _ _ H1), H2, H3, H4. cbn [negb].
    unfold kVersionMin, kVersion. destruct (Z.ltb_spec ver 1); [lia|]. destruct (Z.ltb_spec 3 ver); [lia|].
    cbn [orb]. destruct (Z.ltb_spec kMaxPlausibleRecords n); [lia|].
    pose proof (readRecords_encode ver l n Hv Hl 0 []) as E. rewrite app_nil_r in E.
    replace (Z.to_nat n) with (length l) by (unfold n; lia). rewrite E, length_fmap. done. }
  split; [exact Hread|]. intros e. unfold check. rewrite Hread. cbn. by destruct (n =? e).
Qed.

(** The reader accepts what the format describes, in each of the
    three versions: a header and records written one after another are read back
    as those records, in order, with status [Ok]; and the restart check passes
    exactly when the expected count is theirs. *)
Theorem read_written path ver l : path ≠ [] → 1 <= ver <= 3 → Forall (encodable ver) l →
  Z.of_nat (length l) <= kMaxPlausibleRecords →
  let n := Z.of_nat (length l) in
  let file := header ver n ++ body ver l in
  read path (Some file) = (mkRead Ok ver n (Z.of_nat (length file)) n [], l.*1) ∧
  ∀ expected, ok (check path (Some file) expected) = (n =? expected).
Proof. apply read_encoded. Qed.

(** ** Torn files *)

(** A step of the reader that succeeds on some bytes does the same with more
    bytes behind them. *)
Lemma need_more {A} n f g msg (k : bytes → bytes → parsed A) x : need n f msg k = inr x →
  ∃ s f', f = s ++ f' ∧ k s f' = inr x ∧ need n (f ++ g) msg k = k s (f' ++ g).
Proof.
  unfold need, readExact. destruct (Nat.leb_spec n (length f)) as [Hle|]; [|done]. intros E.
  exists (take n f), (drop n f). split; [by rewrite take_drop|]. split; [done|].
  rewrite length_app. destruct (Nat.leb_spec n (length f + length g)); [|lia].
  by rewrite take_app_le, drop_app_le.
Qed.

Lemma readAddrs_more n size msg g : ∀ f l r, readAddrs n size f msg = inr (l, r) →
  readAddrs n size (f ++ g) msg = inr (l, r ++ g).
Proof.
  induction n as [|n IH]; intros f l r; cbn [readAddrs]; [by intros [= <- <-]|].
  intros (s & f' & _ & E & ->)%(need_more _ _ g). destruct (readAddrs n size f' msg) as [|[l' r']] eqn:E'; [done|].
  injection E as <- <-. by rewrite (IH _ _ _ E').
Qed.

Lemma readUses_more ver f msg u r g : readUses ver f msg = inr (u, r) →
  readUses ver (f ++ g) msg = inr (u, r ++ g).
Proof.
  unfold readUses. destruct (kVersionUses64 <=? ver); [|by intros [= -> ->]].
  destruct (ver =? kVersionUses64); intros (s & f' & _ & E & ->)%(need_more _ _ g);
    by injection E as <- <-.
Qed.

Lemma readRecord_more ver i count f x r g : readRecord ver i count f = inr (x, r) →
  readRecord ver i count (f ++ g) = inr (x, r ++ g).
Proof.
  unfold readRecord. cbv zeta.
  intros (s & f1 & _ & E & ->)%(need_more _ _ g). revert E.
  destruct ((nth 0 s 0 =? 0) || (kMaxNameBytes <? nth 0 s 0)); [done|].
  intros (s1 & f2 & _ & E & ->)%(need_more _ _ g).
  revert E. intros (s2 & f3 & _ & E & ->)%(need_more _ _ g). revert E.
  destruct ((kMaxA <? nth 2 s2 0) || (kMaxAaaa <? nth 3 s2 0)); [done|].
  destruct (negb _ && negb _); [done|].
  destruct (readUses ver f3 _) as [|[u f4]] eqn:Eu; [done|]. rewrite (readUses_more _ _ _ _ _ _ Eu).
  destruct (_ =? 0); [done|].
  destruct (readAddrs _ _ f4 _) as [|[l f5]] eqn:Ea; [done|]. rewrite (readAddrs_more _ _ _ _ _ _ _ Ea).
  by intros [= <- <-].
Qed.

Lemma readRecords_more n ver count g : ∀ i f l r, readRecords n ver i count f = (l, inr r) →
  readRecords n ver i count (f ++ g) = (l, inr (r ++ g)).
Proof.
  induction n as [|n IH]; intros i f l r; cbn [readRecords]; [by intros [= <- <-]|].
  destruct (readRecord ver i count f) as [|[x f1]] eqn:E; [done|].
  rewrite (readRecord_more _ _ _ _ _ _ _ E).
  destruct (readRecords n ver (i + 1) count f1) as [l' e'] eqn:E'. intros [= <- ->].
  by rewrite (IH _ _ _ _ E').
Qed.

(** An error is never [Ok]. *)
Lemma need_err {A} n f msg (k : bytes → bytes → parsed A) w : need n f msg k = inl (Ok, w) →
  ∃ s f', k s f' = inl (Ok, w).
Proof. unfold need. destruct (readExact n f) as [[s f']|]; [by eauto|done]. Qed.

Lemma readAddrs_err n size msg w : ∀ f, readAddrs n size f msg ≠ inl (Ok, w).
Proof.
  induction n as [|n IH]; intros f; cbn [readAddrs]; [done|]. intros (s & f' & E)%need_err.
  destruct (readAddrs n size f' msg) as [e|[l r]] eqn:E'; [|done]. injection E as ->. by eapply IH.
Qed.

Lemma readUses_err ver f msg w : readUses ver f msg ≠ inl (Ok, w).
Proof.
  unfold readUses. destruct (kVersionUses64 <=? ver); [|done].
  destruct (ver =? kVersionUses64); by intros (s & f' & E)%need_err.
Qed.

Lemma readRecord_err ver i count f w : readRecord ver i count f ≠ inl (Ok, w).
Proof.
  unfold readRecord. cbv zeta. intros (s & f1 & E)%need_err. revert E.
  destruct (_ || _); [done|]. intros (s1 & f2 & E)%need_err. revert E.
  intros (s2 & f3 & E)%need_err. revert E. destruct (_ || _); [done|].
  destruct (negb _ && negb _); [done|].
  destruct (readUses ver f3 _) as [e|[u f4]] eqn:Eu; [intros [= ->]; by eapply readUses_err|].
  destruct (_ =? 0); [done|].
  destruct (readAddrs _ _ f4 _) as [e|[l f5]] eqn:Ea; [intros [= ->]; by eapply readAddrs_err|done].
Qed.

Lemma readRecords_err n ver count w l : ∀ i f, readRecords n ver i count f ≠ (l, inl (Ok, w)).
Proof.
  revert l. induction n as [|n IH]; intros l i f; cbn [readRecords]; [done|].
  destruct (readRecord ver i count f) as [e|[x f1]] eqn:E; [intros [= _ ->]; by eapply readRecord_err|].
  destruct (readRecords n ver (i + 1) count f1) as [l' e'] eqn:E'. intros [= _ ->]. by eapply IH.
Qed.

(** A file that reads as [Ok] stops doing so when bytes are cut off
    its end or appended to it: of a file and a proper prefix of it, at most one is
    [Ok]. *)
Theorem torn_file_detected path f g : g ≠ [] → status (read path (Some f)).1 = Ok →
  status (read path (Some (f ++ g))).1 = TrailingBytes.
Proof.
  intros Hg. unfold read. destruct (bool_decide (path = [])); [done|]. cbv zeta.
  unfold readExact at 1. destruct (Nat.leb_spec kHeaderBytes (length f)) as [Hle|]; [|done].
  unfold readExact. rewrite length_app. destruct (Nat.leb_spec kHeaderBytes (length f + length g)); [|lia].
  rewrite take_app_le, drop_app_le by done.
  destruct (negb _); [done|]. destruct ((_ <? kVersionMin) || _); [done|].
  destruct (kMaxPlausibleRecords <? _); [done|].
  destruct (readRecords _ _ 0 _ (drop kHeaderBytes f)) as [l [[s w]|[|b rest]]] eqn:E;
    cbn [fst status]; [|intros _|done].
  - intros ->. by apply readRecords_err in E.
  - rewrite (readRecords_more _ _ _ g _ _ _ _ E). by destruct g.
Qed.

Definition sample : CacheFileRecord := mkRecord (lit "a.lan") 1 60 3 [[192; 168; 1; 9]].

Lemma sample_encodable : Forall (encodable 3) [(sample, 0)].
Proof.
  constructor; [|constructor]. split; [|cbn; unfold kMaxAaaa; lia].
  split; cbn; unfold kMaxA; try done; [lia|by left|by constructor].
Qed.

Lemma read_written_witness :
  let file := header 3 1 ++ body 3 [(sample, 0)] in
  read (lit "/fat/cache.dat") (Some file) = (mkRead Ok 3 1 (Z.of_nat (length file)) 1 [], [sample]) ∧
  ∀ expected, ok (check (lit "/fat/cache.dat") (Some file) expected) = (1 =? expected).
Proof.
  apply (read_written (lit "/fat/cache.dat") 3 [(sample, 0)]); [done|lia|exact sample_encodable|].
  cbn. unfold kMaxPlausibleRecords. lia.
Defined.

Lemma torn_file_detected_witness :
  status (read (lit "c") (Some ((header 3 1 ++ body 3 [(sample, 0)]) ++ [0]))).1 = TrailingBytes.
Proof. apply torn_file_detected; [done|vm_compute; reflexivity]. Defined.

End CacheFileReader.
