(* ===== verification/AtomicFile.v ===== *)
(** * Publishing a file so that a crash cannot empty it

    src/core/AtomicFile.cpp: the part file, publishing it and recovering it, as
    programs of calls on the volume; what such a program returns and the volumes a
    power cut can leave of it, and a logic for the latter. *)
From S2P Require Import Prelude.
From stdpp Require Import gmap.
#[local] Open Scope Z_scope.

Module AtomicFile.

(** The files of the volume: their contents by path. *)
Abbreviation Vol := (gmap bytes bytes).

Definition partPath (path : bytes) : bytes := path ++ lit ".part".

Definition readable (path : bytes) (v : Vol) : bool := bool_decide (is_Some (v !! path)).

(** [::remove]: [works] is whether the volume lets an existing file go; the
    result is whether the call succeeded or found nothing ([ENOENT]). *)
Definition remove (works : bool) (path : bytes) (v : Vol) : bool * Vol :=
  if readable path v then (if works then (true, delete path v) else (false, v)) else (true, v).

(** [::rename]: FatFS refuses an existing destination. *)
Definition rename (works : bool) (src dst : bytes) (v : Vol) : bool * Vol :=
  match v !! src with
  | Some f => if works && negb (readable dst v) then (true, <[dst := f]> (delete src v)) else (false, v)
  | None => (false, v)
  end.

(** ** The calls, as programs

    A save is a sequence of calls of the C library; a power cut ends it before, in
    or after any of them. So the routines are programs over the calls, and one
    semantics of a call gives both what a run returns and what a crash leaves. *)

(** The volume and the stream a save writes: its path and position.  What was
    written through a stream that is not closed yet is not safe. *)
Record Disk := mkDisk { dVol : Vol; dOpen : option (bytes * nat) }.

Definition disk (v : Vol) : Disk := mkDisk v None.

Inductive Call :=
  | CReadable (path : bytes)
  | COpenWrite (path : bytes)
  | CWrite (b : bytes)
  | CSeek (pos : nat)
  | CClose
  | CRemove (path : bytes)
  | CRename (src dst : bytes).

Definition overwrite (pos : nat) (b f : bytes) : bytes := take pos f ++ b ++ drop (pos + length b) f.

(** One call: [works] is whether it succeeds where it can, [torn] what the file
    of the stream holds after a write or a close that failed. *)
Definition call (works : bool) (torn : bytes) (c : Call) (d : Disk) : bool * Disk :=
  match c with
  | CReadable p => (works && readable p (dVol d), d)
  | COpenWrite p => if works then (true, mkDisk (<[p := []]> (dVol d)) (Some (p, 0%nat))) else (false, d)
  | CWrite b =>
      match dOpen d with
      | Some (p, pos) =>
          if works then
            (true, mkDisk (<[p := overwrite pos b (default [] (dVol d !! p))]> (dVol d)) (Some (p, pos + length b)%nat))
          else (false, mkDisk (<[p := torn]> (dVol d)) (Some (p, pos)))
      | None => (false, d)
      end
  | CSeek pos =>
      match dOpen d with
      | Some (p, _) => if works then (true, mkDisk (dVol d) (Some (p, pos))) else (false, d)
      | None => (false, d)
      end
  | CClose =>
      match dOpen d with
      | Some (p, _) => if works then (true, disk (dVol d)) else (false, disk (<[p := torn]> (dVol d)))
      | None => (false, d)
      end
  | CRemove p => let '(gone, v) := remove works p (dVol d) in (gone, mkDisk v (dOpen d))
  | CRename src dst => let '(moved, v) := rename works src dst (dVol d) in (moved, mkDisk v (dOpen d))
  end.

Inductive prog (A : Type) :=
  | Ret (a : A)
  | Ask (c : Call) (k : bool → prog A).
#[global] Arguments Ret {A} a.
#[global] Arguments Ask {A} c k.

Fixpoint bind {A B : Type} (p : prog A) (f : A → prog B) : prog B :=
  match p with
  | Ret a => f a
  | Ask c k => Ask c (λ r, bind (k r) f)
  end.

#[global] Instance prog_ret : MRet prog := @Ret.
#[global] Instance prog_bind : MBind prog := λ A B f p, bind p f.

Definition ask (c : Call) : prog bool := Ask c Ret.

Definition publishCalls (path : bytes) : prog bool :=
  let part := partPath path in
  there ← ask (CReadable part);
  if negb there then mret false
  else
    gone ← ask (CRemove path);
    if negb gone then mret false
    else
      moved ← ask (CRename part path);
      if negb moved then mret false else mret true.

Definition recoverCalls (path : bytes) : prog unit :=
  there ← ask (CReadable path);
  if there : bool then mret tt
  else
    let part := partPath path in
    torn ← ask (CReadable part);
    if negb torn then mret tt else (_ ← ask (CRename part path); mret tt).

(** A run: [io] says of each call, after so many writes, how it turns out. *)
Definition Oracle := nat → Call → bool * bytes.

Definition writes (c : Call) : nat := match c with CWrite _ => 1 | _ => 0 end.

Fixpoint exec {A : Type} (io : Oracle) (n : nat) (p : prog A) (d : Disk) : A * nat * Disk :=
  match p with
  | Ret a => (a, n, d)
  | Ask c k => let '(r, d) := call (io n c).1 (io n c).2 c d in exec io (n + writes c) (k r) d
  end.

(** The outcomes of the two directory calls, everything else working. *)
Definition dirIo (removes renames : bool) : Oracle := λ _ c,
  (match c with CRemove _ => removes | CRename _ _ => renames | _ => true end, []).

Definition publish (removes renames : bool) (path : bytes) (v : Vol) : bool * Vol :=
  let '(done_, _, d) := exec (dirIo removes renames) 0 (publishCalls path) (disk v) in (done_, dVol d).

Definition recover (renames : bool) (path : bytes) (v : Vol) : Vol :=
  dVol (exec (dirIo true renames) 0 (recoverCalls path) (disk v)).2.

(** What a power cut leaves of a disk: the file of an open stream may hold anything. *)
Definition left_ (d : Disk) (s : Vol) : Prop :=
  match dOpen d with
  | Some (p, _) => ∃ b, s = <[p := b]> (dVol d)
  | None => s = dVol d
  end.

(** The volumes a power cut can leave of a program: one where it stands, one inside a
    rename - both names are there -, or one after a call, however that turned out. *)
Inductive crash {A : Type} : prog A → Disk → Vol → Prop :=
  | crash_here p d s : left_ d s → crash p d s
  | crash_rename src dst k d f s : dVol d !! src = Some f → dVol d !! dst = None →
      left_ (mkDisk (<[dst := f]> (dVol d)) (dOpen d)) s → crash (Ask (CRename src dst) k) d s
  | crash_later c k d works torn r d' s : call works torn c d = (r, d') → crash (k r) d' s →
      crash (Ask c k) d s.

(** What a program that is not cut returns, however its calls turn out. *)
Inductive result {A : Type} : prog A → Disk → A → Disk → Prop :=
  | result_ret a d : result (Ret a) d a d
  | result_ask c k d works torn r d' a d'' : call works torn c d = (r, d') → result (k r) d' a d'' →
      result (Ask c k) d a d''.

Lemma exec_result {A : Type} io (p : prog A) : ∀ n d a n' d', exec io n p d = (a, n', d') → result p d a d'.
Proof.
  induction p as [a|c k IH]; intros n d x n' d'; cbn [exec]; [intros [= <- <- <-]; constructor|].
  destruct (call _ _ c d) as [r d1] eqn:E. intros H. econstructor; [exact E|]. by eapply IH.
Qed.

(** What a run that ends leaves is among what a cut leaves. *)
Lemma result_crash {A : Type} (p : prog A) d a d' s : result p d a d' → left_ d' s → crash p d s.
Proof. induction 1 as [a d|c k d w t r d1 a d2 Hc _ IH]; intros Hs; [by constructor|]. eapply crash_later; [exact Hc|auto]. Qed.

Lemma exec_bind {A B : Type} io (p : prog A) (f : A → prog B) : ∀ n d,
  exec io n (p ≫= f) d = let '(a, n', d') := exec io n p d in exec io n' (f a) d'.
Proof.
  induction p as [a|c k IH]; intros n d; [done|].
  change (Ask c k ≫= f) with (Ask c (λ r, k r ≫= f)). cbn [exec].
  destruct (call _ _ c d) as [r d1]. apply IH.
Qed.

Lemma exec_ask io c n d : exec io n (ask c) d =
  let '(r, d') := call (io n c).1 (io n c).2 c d in (r, (n + writes c)%nat, d').
Proof. cbn. by destruct (call _ _ c d). Qed.

(** ** A logic of crashes: from [P], a cut leaves [I] and a return leaves [Q]. *)
Definition spec {A : Type} (P : Disk → Prop) (I : Vol → Prop) (p : prog A) (Q : A → Disk → Prop) : Prop :=
  ∀ d, P d → (∀ s, crash p d s → I s) ∧ (∀ a d', result p d a d' → Q a d').

Lemma safe_ret {A : Type} (P : Disk → Prop) (I : Vol → Prop) (a : A) (Q : A → Disk → Prop) :
  (∀ d s, P d → left_ d s → I s) → (∀ d, P d → Q a d) → spec P I (mret a) Q.
Proof.
  intros HI HQ d Hd. split.
  - intros s Hs. inversion Hs; subst; by eapply HI.
  - intros a' d' Hr. inversion Hr; subst. by apply HQ.
Qed.

Lemma crash_bind {A B : Type} (p : prog A) (f : A → prog B) : ∀ d s, crash (p ≫= f) d s →
  crash p d s ∨ ∃ a d', result p d a d' ∧ crash (f a) d' s.
Proof.
  induction p as [a|c k IH]; intros d s.
  - intros H. right. exists a, d. split; [constructor|exact H].
  - change (Ask c k ≫= f) with (Ask c (λ r, k r ≫= f)). intros H. inversion H; subst.
    + left. by constructor.
    + left. by eapply crash_rename.
    + edestruct IH as [Hc|(a & d2 & Hr & Hc)]; [eassumption|left; by eapply crash_later|].
      right. exists a, d2. split; [by eapply result_ask|exact Hc].
Qed.

Lemma result_bind {A B : Type} (p : prog A) (f : A → prog B) : ∀ d b d'', result (p ≫= f) d b d'' →
  ∃ a d', result p d a d' ∧ result (f a) d' b d''.
Proof.
  induction p as [a|c k IH]; intros d b d''.
  - intros H. exists a, d. split; [constructor|exact H].
  - change (Ask c k ≫= f) with (Ask c (λ r, k r ≫= f)). intros H. inversion H; subst.
    edestruct IH as (a & d2 & Hr & Hc); [eassumption|]. exists a, d2. split; [by eapply result_ask|exact Hc].
Qed.

Lemma safe_bind {A B : Type} (P : Disk → Prop) (I : Vol → Prop) (p : prog A) Q (f : A → prog B) R :
  spec P I p Q → (∀ a, spec (Q a) I (f a) R) → spec P I (p ≫= f) R.
Proof.
  intros Hp Hf d Hd. destruct (Hp d Hd) as [Hc Hr]. split.
  - intros s [H|(a & d' & H1 & H2)]%crash_bind; [by apply Hc|]. apply (Hf a d' (Hr _ _ H1)), H2.
  - intros b d'' (a & d' & H1 & H2)%result_bind. apply (Hf a d' (Hr _ _ H1)), H2.
Qed.

Lemma safe_ask (P : Disk → Prop) (I : Vol → Prop) c (Q : bool → Disk → Prop) :
  (∀ d s, P d → left_ d s → I s) →
  (∀ d src dst f s, c = CRename src dst → P d → dVol d !! src = Some f → dVol d !! dst = None →
     left_ (mkDisk (<[dst := f]> (dVol d)) (dOpen d)) s → I s) →
  (∀ d works torn r d', P d → call works torn c d = (r, d') → Q r d') →
  (∀ r d s, Q r d → left_ d s → I s) →
  spec P I (ask c) Q.
Proof.
  intros HP HR HQ HQI d Hd. split.
  - intros s H. inversion H; subst; [by eapply HP|by eapply HR|].
    match goal with H : crash (Ret _) _ _ |- _ => inversion H; subst end. eapply HQI; [by eapply HQ|done].
  - intros a d' H. inversion H; subst.
    match goal with H : result (Ret _) _ _ _ |- _ => inversion H; subst end. by eapply HQ.
Qed.

Lemma safe_weaken {A : Type} (P P' : Disk → Prop) I (p : prog A) (Q Q' : A → Disk → Prop) :
  spec P I p Q → (∀ d, P' d → P d) → (∀ a d, Q a d → Q' a d) → spec P' I p Q'.
Proof.
  intros H HP HQ d Hd. destruct (H d (HP _ Hd)) as [Hc Hr]. split; [exact Hc|]. intros a d' Ha. by apply HQ, Hr.
Qed.

Lemma part_ne path : partPath path ≠ path.
Proof.
  intros E. apply (f_equal length) in E. unfold partPath in E. rewrite length_app in E.
  vm_compute (length (lit ".part")) in E. lia.
Qed.

Lemma readable_some path v f : v !! path = Some f → readable path v = true.
Proof. intros H. unfold readable. rewrite H. by apply bool_decide_eq_true. Qed.

Lemma readable_none path v : v !! path = None → readable path v = false.
Proof. intros H. unfold readable. rewrite H. apply bool_decide_eq_false. by intros []. Qed.

(** The routines, call by call. *)
Lemma publish_eq rm rn path v : publish rm rn path v =
  if negb (readable (partPath path) v) then (false, v)
  else
    let '(gone, v) := remove rm path v in
    if negb gone then (false, v) else rename rn (partPath path) path v.
Proof.
  unfold publish, publishCalls. rewrite exec_bind, exec_ask. cbn [call dirIo fst snd disk dVol dOpen andb].
  destruct (readable (partPath path) v); cbn [negb]; [|done].
  rewrite exec_bind, exec_ask. cbn [call dirIo fst snd disk dVol dOpen].
  destruct (remove rm path v) as [[] v1]; cbn [negb]; [|done].
  rewrite exec_bind, exec_ask. cbn [call dirIo fst snd disk dVol dOpen].
  by destruct (rename rn (partPath path) path v1) as [[] v2].
Qed.

Lemma publish_exec io n rm rn path v :
  (∀ n p, (io n (CReadable p)).1 = true ∧ (io n (CRemove p)).1 = rm ∧ ∀ q, (io n (CRename p q)).1 = rn) →
  ∃ n', exec io n (publishCalls path) (disk v) = ((publish rm rn path v).1, n', disk (publish rm rn path v).2).
Proof.
  intros Hio. rewrite publish_eq. unfold publishCalls. rewrite exec_bind, exec_ask.
  cbn [call disk dVol dOpen]. rewrite (proj1 (Hio n _)). cbn [andb].
  destruct (readable (partPath path) v); cbn [negb]; [|by eexists].
  rewrite exec_bind, exec_ask. cbn [call disk dVol dOpen writes]. rewrite Nat.add_0_r, (proj1 (proj2 (Hio n _))).
  destruct (remove rm path v) as [[] v1]; cbn [negb]; [|by eexists].
  rewrite exec_bind, exec_ask. cbn [call disk dVol dOpen]. rewrite (proj2 (proj2 (Hio _ _))).
  destruct (rename rn (partPath path) path v1) as [[] v2]; by eexists.
Qed.

Lemma recover_eq rn path v : recover rn path v =
  if readable path v then v
  else if negb (readable (partPath path) v) then v else (rename rn (partPath path) path v).2.
Proof.
  unfold recover, recoverCalls. rewrite exec_bind, exec_ask. cbn [call dirIo fst snd disk dVol dOpen andb].
  destruct (readable path v); [done|].
  rewrite exec_bind, exec_ask. cbn [call dirIo fst snd disk dVol dOpen andb].
  destruct (readable (partPath path) v); cbn [negb]; [|done].
  rewrite exec_bind, exec_ask. cbn [call dirIo fst snd disk dVol dOpen].
  by destruct (rename rn (partPath path) path v) as [r v2].
Qed.

Lemma recover_there path v f r : v !! path = Some f → recover r path v = v.
Proof. intros H. rewrite recover_eq. by rewrite (readable_some _ _ _ H). Qed.

Lemma recover_part path v f : v !! path = None → v !! partPath path = Some f →
  recover true path v = <[path := f]> (delete (partPath path) v).
Proof.
  intros H Hp. rewrite recover_eq, (readable_none _ _ H), (readable_some _ _ _ Hp).
  unfold rename. by rewrite Hp, (readable_none _ _ H).
Qed.

(** Publishing: what it leaves when every call works, and that a failing one
    loses nothing. *)
Lemma publish_works path v f : v !! partPath path = Some f →
  publish true true path v = (true, <[path := f]> (delete (partPath path) (delete path v))).
Proof.
  intros H. pose proof (part_ne path) as Hne. rewrite publish_eq. unfold remove, rename.
  rewrite (readable_some _ _ _ H). cbn [negb].
  destruct (v !! path) as [old|] eqn:E.
  - rewrite (readable_some _ _ _ E). cbv iota beta. cbn [negb].
    rewrite lookup_delete_ne, H, readable_none by (done || apply lookup_delete_eq). done.
  - rewrite (readable_none _ _ E). cbv iota beta. cbn [negb].
    rewrite H, (readable_none _ _ E). cbn. by rewrite (delete_id v path E).
Qed.

Lemma publish_true rm rn path v v' f : v !! partPath path = Some f → publish rm rn path v = (true, v') →
  v' !! path = Some f.
Proof.
  intros H. rewrite publish_eq, (readable_some _ _ _ H). cbn [negb]. pose proof (part_ne path) as Hne.
  unfold remove, rename. destruct (readable path v), rm; cbn [negb]; cbv iota beta; try done.
  all: rewrite ?lookup_delete_ne, H by done; destruct (_ && _); intros [= <-]; apply lookup_insert_eq.
Qed.

(** ** A power cut while a file is being replaced *)

Section Replacing.
Context (path : bytes) (old : bytes) (whole : bytes → Prop) (base : Vol).

Definition elsewhere (s : Vol) : Prop :=
  ∀ other, other ≠ path → other ≠ partPath path → s !! other = base !! other.

(** The file is the old version or a complete one, or it is gone and the part is complete. *)
Definition whole_or_old (s : Vol) : Prop :=
  elsewhere s ∧
  ((∃ f, s !! path = Some f ∧ (f = old ∨ whole f)) ∨
   (s !! path = None ∧ ∃ f, s !! partPath path = Some f ∧ whole f)).

(** A save that is writing: the old file stands, the stream - if one is open - is the part's. *)
Definition writing (d : Disk) : Prop :=
  elsewhere (dVol d) ∧ dVol d !! path = Some old ∧ (∀ p n, dOpen d = Some (p, n) → p = partPath path).

Lemma writing_left d s : writing d → left_ d s → whole_or_old s.
Proof.
  intros (He & Hp & Ho). unfold left_. destruct (dOpen d) as [[p n]|] eqn:E.
  - intros [b ->]. rewrite (Ho _ _ eq_refl). split.
    + intros other H1 H2. rewrite lookup_insert_ne by congruence. by apply He.
    + left. exists old. rewrite lookup_insert_ne by apply part_ne. auto.
  - intros ->. split; [exact He|]. left. exists old. auto.
Qed.

Lemma elsewhere_insert_part b s : elsewhere s → elsewhere (<[partPath path := b]> s).
Proof. intros H other H1 H2. rewrite lookup_insert_ne by congruence. by apply H. Qed.

Lemma elsewhere_rename f s : elsewhere s → elsewhere (<[path := f]> (delete (partPath path) s)).
Proof. intros H other H1 H2. rewrite lookup_insert_ne, lookup_delete_ne by congruence. by apply H. Qed.

(** No call on the part loses the old file. *)
Lemma writing_call c d works torn r d' : writing d → call works torn c d = (r, d') →
  match c with COpenWrite p | CRemove p => p = partPath path | CRename _ _ => False | _ => True end →
  writing d'.
Proof.
  intros (He & Hp & Ho) Hc Hm. pose proof (part_ne path) as Hne.
  assert (Hw : ∀ b o, (∀ p n, o = Some (p, n) → p = partPath path) →
    writing (mkDisk (<[partPath path := b]> (dVol d)) o)).
  { intros b o Hb. split_and!; cbn [dVol dOpen]; [by apply elsewhere_insert_part|by rewrite lookup_insert_ne|done]. }
  destruct c; cbn [call] in Hc.
  - injection Hc as <- <-. by split_and!.
  - subst path0. destruct works; injection Hc as <- <-; [|by split_and!]. apply Hw. by intros ?? [= <- _].
  - destruct (dOpen d) as [[p n]|] eqn:E; [|injection Hc as <- <-; split_and!; [done..|by rewrite E]].
    rewrite (Ho _ _ eq_refl) in Hc. destruct works; injection Hc as <- <-; apply Hw; by intros ?? [= <- _].
  - destruct (dOpen d) as [[p n]|] eqn:E; [|injection Hc as <- <-; split_and!; [done..|by rewrite E]].
    rewrite (Ho _ _ eq_refl) in Hc. destruct works; injection Hc as <- <-; split_and!; cbn [dVol dOpen]; try done.
    + by intros ?? [= <- _].
    + rewrite E. exact Ho.
  - destruct (dOpen d) as [[p n]|] eqn:E; [|injection Hc as <- <-; split_and!; [done..|by rewrite E]].
    rewrite (Ho _ _ eq_refl) in Hc. destruct works; injection Hc as <- <-; [by split_and!|]. by apply Hw.
  - subst path0. unfold remove in Hc. destruct (readable _ _), works; injection Hc as <- <-; try by split_and!.
    all: split_and!; cbn [dVol dOpen]; [|by rewrite lookup_delete_ne|done].
    all: intros other H1 H2; rewrite lookup_delete_ne by congruence; by apply He.
  - done.
Qed.

Lemma writing_ask c :
  match c with COpenWrite p | CRemove p => p = partPath path | CRename _ _ => False | _ => True end →
  spec writing whole_or_old (ask c) (λ _, writing).
Proof.
  intros Hm. apply safe_ask; intros.
  - by eapply writing_left.
  - by subst c.
  - by eapply writing_call.
  - by eapply writing_left.
Qed.

(** The part is closed and complete. *)
Definition written (d : Disk) : Prop :=
  elsewhere (dVol d) ∧ dVol d !! path = Some old ∧ dOpen d = None ∧
  ∃ f, dVol d !! partPath path = Some f ∧ whole f.

Lemma publish_spec : spec written whole_or_old (publishCalls path)
  (λ _ d, dOpen d = None ∧ whole_or_old (dVol d)).
Proof.
  assert (Hw : ∀ d s, written d → left_ d s → whole_or_old s).
  { intros d s (He & Hp & Ho & _). unfold left_. rewrite Ho. intros ->. split; [exact He|]. left. eauto. }
  set (Q := λ (r : bool) (d : Disk), if r then
    elsewhere (dVol d) ∧ dVol d !! path = None ∧ dOpen d = None ∧ ∃ f, dVol d !! partPath path = Some f ∧ whole f
    else written d).
  assert (HQ : ∀ r d s, Q r d → left_ d s → whole_or_old s).
  { intros [] d s; [|apply Hw]. intros (He & Hp & Ho & Hf). unfold left_. rewrite Ho. intros ->. split; [exact He|by right]. }
  assert (Hend : ∀ d, written d → dOpen d = None ∧ whole_or_old (dVol d)).
  { intros d (He & Hp & Ho & _). split; [exact Ho|]. split; [exact He|]. left. eauto. }
  unfold publishCalls.
  apply (safe_bind _ _ _ (λ _, written)).
  { apply safe_ask; [exact Hw|done| |intros _; exact Hw]. intros d w t r d' Hd [= _ <-]. exact Hd. }
  intros []; cbn [negb]; [|by apply safe_ret].
  apply (safe_bind _ _ _ Q).
  { apply safe_ask; [exact Hw|done| |exact HQ]. intros d w t r d' Hd. cbn [call]. unfold remove.
    pose proof Hd as (He & Hp & Ho & f & Hf & Hwh). rewrite (readable_some _ _ _ Hp).
    destruct w; intros [= <- <-]; [|by destruct d]. cbn. split_and!.
    - intros other H1 H2. rewrite lookup_delete_ne by congruence. by apply He.
    - apply lookup_delete_eq.
    - exact Ho.
    - exists f. rewrite lookup_delete_ne by (apply not_eq_sym, part_ne). auto. }
  intros []; cbn [negb]; [|by apply safe_ret].
  apply (safe_bind _ _ _ (λ _ d, dOpen d = None ∧ whole_or_old (dVol d))).
  { apply safe_ask; [exact (HQ true)| | |].
    - intros d src dst f s [= <- <-] (He & Hp & Ho & f' & Hf & Hwh) Hsrc Hdst. unfold left_. cbn [dVol dOpen].
      rewrite Ho. intros ->. rewrite Hf in Hsrc. injection Hsrc as <-. split.
      + intros other H1 H2. rewrite lookup_insert_ne by congruence. by apply He.
      + left. exists f'. rewrite lookup_insert_eq. auto.
    - intros d w t r d' (He & Hp & Ho & f & Hf & Hwh). cbn [call]. unfold rename. rewrite Hf, (readable_none _ _ Hp).
      destruct w; intros [= <- <-]; cbn [dVol dOpen]; (split; [exact Ho|]).
      + split; [by apply elsewhere_rename|]. left. exists f. rewrite lookup_insert_eq. auto.
      + split; [exact He|]. right. eauto.
    - intros r d s [Ho H]. unfold left_. rewrite Ho. by intros ->. }
  intros []; cbn [negb]; (apply safe_ret; [|done]); intros d s [Ho H]; unfold left_; rewrite Ho; by intros ->.
Qed.

(** A start that recovers may be cut as well. *)
Lemma recover_spec : spec (λ d, dOpen d = None ∧ whole_or_old (dVol d)) whole_or_old (recoverCalls path)
  (λ _ d, whole_or_old (dVol d)).
Proof.
  assert (Hl : ∀ d s, dOpen d = None ∧ whole_or_old (dVol d) → left_ d s → whole_or_old s).
  { intros d s [Ho H]. unfold left_. rewrite Ho. by intros ->. }
  assert (Hk : ∀ c, match c with CReadable _ => True | _ => False end →
    spec (λ d, dOpen d = None ∧ whole_or_old (dVol d)) whole_or_old (ask c)
      (λ _ d, dOpen d = None ∧ whole_or_old (dVol d))).
  { intros c Hc. apply safe_ask; [exact Hl|by intros; subst c| |intros _; exact Hl].
    intros d w t r d' Hd. destruct c; try done. cbn [call]. by intros [= _ <-]. }
  unfold recoverCalls. eapply safe_bind; [by apply Hk|]. cbv beta.
  intros []; [apply safe_ret; [exact Hl|by intros ? []]|].
  eapply safe_bind; [by apply Hk|]. cbv beta.
  intros []; cbn [negb]; [|apply safe_ret; [exact Hl|by intros ? []]].
  apply (safe_bind _ _ _ (λ _ d, dOpen d = None ∧ whole_or_old (dVol d)));
    [|intros _; apply safe_ret; [exact Hl|by intros ? []]].
  apply safe_ask; [exact Hl| | |intros _; exact Hl].
  - intros d src dst f s [= <- <-] (Ho & He & Hc) Hsrc Hdst. unfold left_. cbn [dVol dOpen]. rewrite Ho. intros ->.
    destruct Hc as [(f' & Hf & _)|(Hn & f' & Hf & Hwh)]; [congruence|]. rewrite Hf in Hsrc. injection Hsrc as <-. split.
    + intros other H1 H2. rewrite lookup_insert_ne by congruence. by apply He.
    + left. exists f'. rewrite lookup_insert_eq. auto.
  - intros d w t r d' (Ho & He & Hc). assert (Hsame : dOpen d = None ∧ whole_or_old (dVol d)) by exact (conj Ho (conj He Hc)). cbn [call]. unfold rename.
    destruct (dVol d !! partPath path) as [f|] eqn:Hf; [|intros [= <- <-]; exact Hsame].
    destruct (w && negb (readable path (dVol d))) eqn:Ew; intros [= <- <-]; cbn [dVol dOpen]; [|exact Hsame].
    split; [exact Ho|]. split; [by apply elsewhere_rename|].
    destruct Hc as [(f' & Hp & _)|(Hn & f' & Hf' & Hwh)].
    { rewrite (readable_some _ _ _ Hp), andb_false_r in Ew. done. }
    left. exists f. rewrite lookup_insert_eq. split; [done|]. right. congruence.
Qed.

(** Starts that are cut in the recovery, one after the other. *)
Definition restarts : Vol → Vol → Prop := rtc (λ s s', crash (recoverCalls path) (disk s) s').

Lemma restarts_kept s s' : restarts s s' → whole_or_old s → whole_or_old s'.
Proof.
  induction 1 as [|s s1 s' Hc _ IH]; [done|]. intros H. apply IH. by apply (recover_spec (disk s)).
Qed.

Lemma recovered s : whole_or_old s → elsewhere (recover true path s) ∧
  ∃ f, recover true path s !! path = Some f ∧ (f = old ∨ whole f).
Proof.
  intros [He [(f & Hf & Hg)|(Hn & f & Hf & Hwh)]].
  - rewrite (recover_there _ _ _ _ Hf). eauto.
  - rewrite (recover_part _ _ _ Hn Hf). split; [by apply elsewhere_rename|]. exists f. rewrite lookup_insert_eq. auto.
Qed.

End Replacing.

End AtomicFile.
