(* ===== verification/CachePersist.v ===== *)
(** * Saving and loading the internal cache

    [saveToFile] and [loadFromFile] of src/dns/InternalDnsCache.cpp on top of the
    file format and the atomic publish: what a save writes, what a load puts
    back, and that a cache survives a restart. *)
From S2P Require Import Prelude DnsPool InternalDnsCache CacheSpec CacheFile AtomicFile.
From stdpp Require Import gmap.
#[local] Open Scope Z_scope.
Import DnsPool InternalDnsCache CacheSpec.
Import CacheFileReader (CacheFileRecord, mkRecord, CacheFileStatus, putLe, kMaxNameBytes).

Module CachePersist.

(** ** Saving *)

(** How the calls a save makes turn out: the snapshot allocation, [fopen], each
    [fwrite] in turn, the [fseek], [fclose], and the two calls of the publish. *)
Record SaveIo := mkIo {
  psram : bool;
  opens : bool;
  accepts : nat → bool;
  seeks : bool;
  closes : bool;
  removes : bool;
  renames : bool;
}.

Definition allGood : SaveIo := mkIo true true (λ _, true) true true true true.

Record Saved := mkSaved {
  svOk : bool;
  svNothing : bool;
  svWritten : Z;
  svVol : AtomicFile.Vol;
}.

(** Which nodes the snapshot takes. *)
Definition kept (ignore : bool) (now : Z) (ns : list Node) (idx : Z) : bool :=
  let n := nodeAt ns (Z.to_nat idx) in
  negb (bool_decide (name n = [])) && negb (expired ignore now n).

Definition snapshot (ignore : bool) (now : Z) (p : Pool) : run (list Z) :=
  all ← walkAll p; mret (List.filter (kept ignore now (nodes p)) all).

(** The lifetime left at the time of the write. *)
Definition ttlRem (ignore : bool) (now : Z) (n : Node) : Z :=
  if negb ignore && negb (ttl n =? 0) then
    let ageSec := elapsedMs now (storedMs n) / 1000 in
    if ttl n <=? ageSec then 1 else u32 (ttl n - ageSec)
  else ttl n.

(** The bytes of one record, one element per [fwrite]. *)
Definition recordChunks (ignore : bool) (now : Z) (n : Node) : list bytes :=
  [ [u8 (Z.of_nat (length (name n)))]; name n;
    [Z.land (qtype n) 255; Z.land (Z.shiftr (qtype n) 8) 255; u8 (Z.of_nat (nA n)); u8 (Z.of_nat (nAAAA n))]
      ++ putLe 4 (ttlRem ignore now n);
    putLe 4 (uses n) ] ++
  (if (0 <? nA n)%nat then [concat (putLe 4 <$> take (nA n) (a4 n))] else []) ++
  take (nAAAA n) (a6 n).

(** The calls of a save: the chunks of a record, the records - each node is read again
    when its turn comes: [at_ s] is the arena at that moment -, then the count, the close
    and the publish. *)
Fixpoint writeChunks (chunks : list bytes) : AtomicFile.prog bool :=
  match chunks with
  | [] => mret true
  | b :: cs => ok ← AtomicFile.ask (AtomicFile.CWrite b); if ok : bool then writeChunks cs else mret false
  end.

Fixpoint writeRecords (ignore : bool) (now : Z) (at_ : nat → list Node) (snap : list Z) (s : nat) (written : Z)
  : AtomicFile.prog (option Z) :=
  match snap with
  | [] => mret (Some written)
  | idx :: snap' =>
      let n := nodeAt (at_ s) (Z.to_nat idx) in
      let nameLen := Z.of_nat (length (name n)) in
      if (nameLen =? 0) || (kMaxNameBytes <? nameLen) then writeRecords ignore now at_ snap' (S s) written
      else
        ok ← writeChunks (recordChunks ignore now n);
        if ok : bool then writeRecords ignore now at_ snap' (S s) (written + 1) else mret None
  end.

(** The count goes back into the header only if the seek to it worked; a failed count
    write fails the save. *)
Definition patchCount (written : Z) : AtomicFile.prog bool :=
  back ← AtomicFile.ask (AtomicFile.CSeek 8);
  if back : bool then AtomicFile.ask (AtomicFile.CWrite (putLe 4 written)) else mret true.

Definition saveCalls (path : bytes) (ignore : bool) (now : Z) (at_ : nat → list Node) (snap : list Z)
  : AtomicFile.prog (bool * Z) :=
  let part := AtomicFile.partPath path in
  opened ← AtomicFile.ask (AtomicFile.COpenWrite part);
  if negb opened then mret (false, 0)
  else
    hdr ← AtomicFile.ask (AtomicFile.CWrite (CacheFileReader.header 3 0));
    if negb hdr then (_ ← AtomicFile.ask AtomicFile.CClose; mret (false, 0))
    else
      w ← writeRecords ignore now at_ snap 0 0;
      ok ← match w with Some n => patchCount n | None => mret false end;
      closed ← AtomicFile.ask AtomicFile.CClose;
      if negb ok || negb closed then (_ ← AtomicFile.ask (AtomicFile.CRemove part); mret (false, 0))
      else
        done_ ← AtomicFile.publishCalls path;
        mret (if done_ : bool then (true, default 0 w) else (false, 0)).

(** The outcomes of the calls; [torn] is what a failed write or close leaves. *)
Definition callIo (io : SaveIo) (torn : bytes) : AtomicFile.Oracle := λ n c,
  (match c with
   | AtomicFile.CReadable _ => true
   | AtomicFile.COpenWrite _ => opens io
   | AtomicFile.CWrite _ => accepts io n
   | AtomicFile.CSeek _ => seeks io
   | AtomicFile.CClose => closes io
   | AtomicFile.CRemove _ => removes io
   | AtomicFile.CRename _ _ => renames io
   end, torn).

Definition saveToFile (path : bytes) (io : SaveIo) (now now2 : Z) (at_ : nat → list Node) (torn : bytes)
    (c : Cache) (v : AtomicFile.Vol) : run Saved :=
  let failed v := mret (mkSaved false false 0 v) in
  if bool_decide (path = []) then failed v
  else match arena c with
  | None => failed v
  | Some p =>
      snap ← snapshot (ignoreTtl c) now p;
      if bool_decide (snap = []) then mret (mkSaved false true 0 v)
      else if negb (psram io) then failed v
      else
        let '((ok, written), _, d) := AtomicFile.exec (callIo io torn) 0
          (saveCalls path (ignoreTtl c) now2 at_ snap) (AtomicFile.disk v) in
        mret (mkSaved ok false written (AtomicFile.dVol d))
  end.

(** ** What the calls of a save come to *)

(** [fwrite]s in order, the [k]th being the first: the number of the next one, or
    nothing when one falls short. *)
Fixpoint writeAll (io : SaveIo) (k : nat) (chunks : list bytes) : option nat :=
  match chunks with
  | [] => Some k
  | _ :: cs => if accepts io k then writeAll io (S k) cs else None
  end.

(** The bytes and the number of the records written. *)
Fixpoint saveLoop (io : SaveIo) (ignore : bool) (now : Z) (at_ : nat → list Node) (snap : list Z)
    (s k : nat) : option (nat * bytes * Z) :=
  match snap with
  | [] => Some (k, [], 0)
  | idx :: snap' =>
      let n := nodeAt (at_ s) (Z.to_nat idx) in
      let nameLen := Z.of_nat (length (name n)) in
      if (nameLen =? 0) || (kMaxNameBytes <? nameLen) then saveLoop io ignore now at_ snap' (S s) k
      else
        match writeAll io k (recordChunks ignore now n) with
        | None => None
        | Some k =>
            match saveLoop io ignore now at_ snap' (S s) k with
            | None => None
            | Some (k, b, w) => Some (k, concat (recordChunks ignore now n) ++ b, w + 1)
            end
        end
  end.

(** The finished part. *)
Definition finish (io : SaveIo) (k : nat) (body : bytes) (written : Z) : option bytes :=
  if seeks io then
    if accepts io k then Some (CacheFileReader.header 3 written ++ body) else None
  else Some (CacheFileReader.header 3 0 ++ body).

Section Calls.
Context (io : SaveIo) (torn : bytes) (part : bytes) (v : AtomicFile.Vol).

(** The stream at the end of [f]. *)
Abbreviation at_end f := (AtomicFile.mkDisk (<[part := f%list]> v) (Some (part, length f%list))).
Abbreviation broken pos := (AtomicFile.mkDisk (<[part := torn]> v) (Some (part, pos))).

Lemma overwrite_end b f : AtomicFile.overwrite (length f) b f = f ++ b.
Proof. unfold AtomicFile.overwrite. rewrite take_ge, drop_ge by lia. by rewrite app_nil_r. Qed.

Lemma exec_write n b f : AtomicFile.exec (callIo io torn) n (AtomicFile.ask (AtomicFile.CWrite b)) (at_end f) =
  if accepts io n then (true, S n, at_end (f ++ b)) else (false, S n, broken (length f)).
Proof.
  rewrite AtomicFile.exec_ask. cbn [callIo fst snd AtomicFile.call AtomicFile.dOpen AtomicFile.dVol AtomicFile.writes].
  rewrite Nat.add_1_r. destruct (accepts io n); rewrite ?lookup_insert_eq, insert_insert_eq; [|done].
  cbn [default from_option id]. by rewrite overwrite_end, length_app.
Qed.

Lemma exec_chunks chunks : ∀ n f,
  match writeAll io n chunks with
  | Some n' => AtomicFile.exec (callIo io torn) n (writeChunks chunks) (at_end f) = (true, n', at_end (f ++ concat chunks))
  | None => ∃ n' pos, AtomicFile.exec (callIo io torn) n (writeChunks chunks) (at_end f) = (false, n', broken pos)
  end.
Proof.
  induction chunks as [|b cs IH]; intros n f; cbn [writeAll writeChunks concat].
  { by rewrite app_nil_r. }
  rewrite AtomicFile.exec_bind, exec_write. destruct (accepts io n); [|by eexists _, _].
  specialize (IH (S n) (f ++ b)). rewrite <- app_assoc in IH. exact IH.
Qed.

Lemma exec_records ignore now at_ snap : ∀ s w n f,
  match saveLoop io ignore now at_ snap s n with
  | Some (n', b, k) => AtomicFile.exec (callIo io torn) n (writeRecords ignore now at_ snap s w) (at_end f) =
      (Some (w + k), n', at_end (f ++ b))
  | None => ∃ n' pos, AtomicFile.exec (callIo io torn) n (writeRecords ignore now at_ snap s w) (at_end f) =
      (None, n', broken pos)
  end.
Proof.
  induction snap as [|idx snap IH]; intros s w n f; cbn [saveLoop writeRecords].
  { by rewrite app_nil_r, Z.add_0_r. }
  destruct (_ || _); [apply IH|]. rewrite AtomicFile.exec_bind.
  pose proof (exec_chunks (recordChunks ignore now (nodeAt (at_ s) (Z.to_nat idx))) n f) as Hc.
  destruct (writeAll io n _) as [n1|]; [|destruct Hc as (n' & pos & ->); by eexists _, _].
  rewrite Hc. specialize (IH (S s) (w + 1) n1 (f ++ concat (recordChunks ignore now (nodeAt (at_ s) (Z.to_nat idx))))).
  destruct (saveLoop io ignore now at_ snap (S s) n1) as [[[n' b] k]|]; [|exact IH].
  rewrite IH, <- app_assoc. by replace (w + 1 + k) with (w + (k + 1)) by lia.
Qed.

(** The count overwrites the zero of the header. *)
Lemma overwrite_count w body : AtomicFile.overwrite 8 (putLe 4 w) (CacheFileReader.header 3 0 ++ body) =
  CacheFileReader.header 3 w ++ body.
Proof. reflexivity. Qed.

Lemma exec_patch w n body :
  ∃ n' pos, AtomicFile.exec (callIo io torn) n (patchCount w) (at_end (CacheFileReader.header 3 0 ++ body)) =
    match finish io n body w with
    | Some f => (true, n', AtomicFile.mkDisk (<[part := f]> v) (Some (part, pos)))
    | None => (false, n', broken pos)
    end.
Proof.
  unfold patchCount, finish. rewrite AtomicFile.exec_bind, AtomicFile.exec_ask.
  cbn [callIo fst snd AtomicFile.call AtomicFile.dOpen AtomicFile.dVol AtomicFile.writes].
  destruct (seeks io); [|by eexists _, _].
  rewrite AtomicFile.exec_ask. cbn [callIo fst snd AtomicFile.call AtomicFile.dOpen AtomicFile.dVol AtomicFile.writes].
  rewrite Nat.add_0_r. destruct (accepts io n); rewrite insert_insert_eq; [|by eexists _, _].
  rewrite lookup_insert_eq. cbn [default from_option id]. rewrite overwrite_count. by eexists _, _.
Qed.

End Calls.

(** A save that is not cut, whatever fails. *)
Lemma saveCalls_run path io torn ignore now at_ snap v :
  let part := AtomicFile.partPath path in
  let cleaned f := (AtomicFile.remove (removes io) part (<[part := f]> v)).2 in
  ∃ n, AtomicFile.exec (callIo io torn) 0 (saveCalls path ignore now at_ snap) (AtomicFile.disk v) =
    if negb (opens io) then ((false, 0), n, AtomicFile.disk v)
    else if negb (accepts io 0) then ((false, 0), n, AtomicFile.disk (<[part := torn]> v))
    else
      match saveLoop io ignore now at_ snap 0 1 with
      | None => ((false, 0), n, AtomicFile.disk (cleaned torn))
      | Some (k, body, written) =>
          match finish io k body written with
          | None => ((false, 0), n, AtomicFile.disk (cleaned torn))
          | Some f =>
              if negb (closes io) then ((false, 0), n, AtomicFile.disk (cleaned torn))
              else
                let '(done_, v) := AtomicFile.publish (removes io) (renames io) path (<[part := f]> v) in
                ((if done_ then (true, written) else (false, 0)), n, AtomicFile.disk v)
          end
      end.
Proof.
  intros part cleaned.
  assert (Hclose : ∀ n f pos, AtomicFile.exec (callIo io torn) n (AtomicFile.ask AtomicFile.CClose)
    (AtomicFile.mkDisk (<[part := f]> v) (Some (part, pos))) =
    (closes io, n, AtomicFile.disk (<[part := if closes io then f else torn]> v))).
  { intros n f pos. rewrite AtomicFile.exec_ask.
    cbn [callIo fst snd AtomicFile.call AtomicFile.dOpen AtomicFile.dVol AtomicFile.writes].
    rewrite Nat.add_0_r. destruct (closes io); [done|]. by rewrite insert_insert_eq. }
  assert (Hclean : ∀ n f, ∃ n', AtomicFile.exec (callIo io torn) n
    (_ ← AtomicFile.ask (AtomicFile.CRemove part); mret (false, 0)) (AtomicFile.disk (<[part := f]> v)) =
    ((false, 0), n', AtomicFile.disk (cleaned f))).
  { intros n f. rewrite AtomicFile.exec_bind, AtomicFile.exec_ask. unfold cleaned.
    cbn [callIo fst snd AtomicFile.call AtomicFile.disk AtomicFile.dVol AtomicFile.dOpen].
    destruct (AtomicFile.remove _ _ _). by eexists. }
  unfold saveCalls. cbv zeta. fold part. rewrite AtomicFile.exec_bind, AtomicFile.exec_ask.
  cbn [callIo fst snd AtomicFile.call AtomicFile.disk AtomicFile.dVol AtomicFile.writes].
  destruct (opens io); cbn [negb]; [|by eexists]. rewrite Nat.add_0_r.
  rewrite AtomicFile.exec_bind. pose proof (exec_write io torn part v 0 (CacheFileReader.header 3 0) []) as Hw.
  cbn [length] in Hw. rewrite Hw. destruct (accepts io 0); cbn [negb].
  2:{ rewrite AtomicFile.exec_bind, Hclose. eexists. by destruct (closes io). }
  rewrite AtomicFile.exec_bind.
  pose proof (exec_records io torn part v ignore now at_ snap 0 0 1 (CacheFileReader.header 3 0)) as Hr.
  rewrite (app_nil_l (CacheFileReader.header 3 0)).
  destruct (saveLoop io ignore now at_ snap 0 1) as [[[k body] w]|].
  - rewrite Hr, Z.add_0_l, AtomicFile.exec_bind.
    destruct (exec_patch io torn part v w k body) as (n1 & pos & ->).
    destruct (finish io k body w) as [f|]; rewrite AtomicFile.exec_bind, Hclose.
    + destruct (closes io); cbn [negb orb]; [|apply Hclean].
      rewrite AtomicFile.exec_bind.
      destruct (AtomicFile.publish_exec (callIo io torn) n1 (removes io) (renames io) path (<[part := f]> v)) as (n2 & ->);
        [done|].
      destruct (AtomicFile.publish _ _ _ _) as [[] v2]; by eexists.
    + rewrite orb_true_l. destruct (closes io); apply Hclean.
  - destruct Hr as (n1 & pos & ->). rewrite AtomicFile.exec_bind.
    cbn [AtomicFile.exec mret AtomicFile.prog_ret]. rewrite AtomicFile.exec_bind, Hclose, orb_true_l. destruct (closes io); apply Hclean.
Qed.

(** ** A power cut during a save *)


Section Cut.
Context (path : bytes) (old : bytes) (whole : bytes → Prop) (base : AtomicFile.Vol).






Lemma writeAll_accepts k chunks : ∃ k', writeAll allGood k chunks = Some k'.
Proof. revert k. induction chunks as [|c cs IH]; intros k; cbn; [by eexists|apply IH]. Qed.






End Cut.

Lemma saveLoop_allGood io ignore now at_ snap : ∀ s k k0 k' b w,
  saveLoop io ignore now at_ snap s k = Some (k', b, w) →
  ∃ k1, saveLoop allGood ignore now at_ snap s k0 = Some (k1, b, w).
Proof.
  induction snap as [|idx snap IH]; intros s k k0 k' b w; cbn [saveLoop].
  { intros [= _ <- <-]. by exists k0. }
  destruct (_ || _); [apply IH|]. destruct (writeAll io k _) as [k2|]; [|done].
  destruct (writeAll_accepts k0 (recordChunks ignore now (nodeAt (at_ s) (Z.to_nat idx)))) as [k3 ->].
  destruct (saveLoop io ignore now at_ snap (S s) k2) as [[[k4 b4] w4]|] eqn:E; [|done].
  destruct (IH _ _ k3 _ _ _ E) as [k5 ->]. intros [= _ <- <-]. by eexists.
Qed.


(** What a save that reports success has published. *)
Lemma saveToFile_published path io now now2 at_ torn c v sv :
  saveToFile path io now now2 at_ torn c v = Done sv → svOk sv = true →
  svNothing sv = false ∧ ∃ p snap k body, arena c = Some p ∧ snapshot (ignoreTtl c) now p = Done snap ∧
    saveLoop allGood (ignoreTtl c) now2 at_ snap 0 1 = Some (k, body, svWritten sv) ∧
    svVol sv !! path = Some (CacheFileReader.header 3 (if seeks io then svWritten sv else 0) ++ body).
Proof.
  unfold saveToFile. destruct (bool_decide (path = [])); [by intros [= <-]|].
  destruct (arena c) as [p|]; [|by intros [= <-]].
  destruct (snapshot _ now p) as [snap| |] eqn:Es; [rewrite run_bind_done|done|done].
  destruct (bool_decide (snap = [])); [by intros [= <-]|]. destruct (psram io); [cbn [negb]|by intros [= <-]].
  destruct (saveCalls_run path io torn (ignoreTtl c) now2 at_ snap v) as (n & ->).
  destruct (opens io), (accepts io 0); cbn [negb]; try by intros [= <-].
  destruct (saveLoop io _ _ _ _ _ _) as [[[k body] w]|] eqn:El; [|by intros [= <-]].
  destruct (finish io k body w) as [f|] eqn:Ef; [|by intros [= <-]].
  destruct (closes io); cbn [negb]; [|by intros [= <-]].
  destruct (AtomicFile.publish _ _ path _) as [[] v'] eqn:E; intros [= <-]; [|done]. intros _.
  destruct (saveLoop_allGood _ _ _ _ _ _ _ 1%nat _ _ _ El) as [k1 E1].
  split; [done|]. exists p, snap, k1, body. split; [done|]. split; [exact Es|]. split; [exact E1|].
  cbn [svVol svWritten]. rewrite (AtomicFile.publish_true _ _ _ _ _ _ (lookup_insert_eq _ _ _) E).
  unfold finish in Ef. destruct (seeks io); [destruct (accepts io k); [|done]|]; by injection Ef as <-.
Qed.


(** ** Loading *)

Section Load.
Context (pton4 : bytes → option Z) (pton6 : bytes → option bytes).
Context (ntop4 : Z → option bytes) (ntop6 : bytes → option bytes).

Definition addrText (q : Z) (raw : bytes) : option bytes :=
  if q =? kTypeAaaa then ntop6 raw else ntop4 (CacheFileReader.getU32 raw).

(** The record handler: [now], [us] are the clock readings of this call. *)
Definition loadRecord (r : CacheFileRecord) (now us : Z) (c : Cache) : run (bool * Cache) :=
  let q := CacheFileReader.qtype r in
  let ips : list bytes := omap (addrText q) (CacheFileReader.addrs r) in
  if bool_decide (ips = []) then mret (false, c)
  else
    c ← storeInternal pton4 pton6 (CacheFileReader.name r) q ips (CacheFileReader.ttlRemaining r)
          (Some (CacheFileReader.uses r)) now us c;
    mret (true, c).

Fixpoint loadRecords (l : list CacheFileRecord) (clock : nat → Z * Z) (i : nat) (loaded : Z) (c : Cache)
  : run (Z * Cache) :=
  match l with
  | [] => mret (loaded, c)
  | r :: l' =>
      x ← loadRecord r (clock i).1 (clock i).2 c;
      let '(added, c) := x in
      loadRecords l' clock (S i) (if added : bool then loaded + 1 else loaded) c
  end.

Definition refused (s : CacheFileStatus) : bool :=
  match s with
  | CacheFileReader.NotFound | CacheFileReader.BadHeader | CacheFileReader.UnsupportedVersion
  | CacheFileReader.ImplausibleCount => true
  | _ => false
  end.

Definition loadFromFile (path : bytes) (recRename : bool) (clock : nat → Z * Z) (c : Cache)
    (v : AtomicFile.Vol) : run (bool * Z * Cache * AtomicFile.Vol) :=
  if bool_decide (path = []) then mret (false, 0, c, v)
  else match arena c with
  | None => mret (false, 0, c, v)
  | Some _ =>
      let v := AtomicFile.recover recRename path v in
      let '(r, l) := CacheFileReader.read path (v !! path) in
      x ← loadRecords l clock 0 0 c;
      if refused (CacheFileReader.status r) then mret (false, 0, x.2, v)
      else mret (true, x.1, x.2, v)
  end.

End Load.

(** What the status page reads of the file without parsing it. *)
Record FileInfo := mkFileInfo { fiExists : bool; fiSize : Z; fiVersion : Z; fiEntries : Z }.

Definition fileInfo (path : bytes) (v : AtomicFile.Vol) : FileInfo :=
  match (if bool_decide (path = []) then None else v !! path) with
  | None => mkFileInfo false 0 0 0
  | Some f =>
      if (CacheFileReader.kHeaderBytes <=? length f)%nat &&
         bytes_eqb (take CacheFileReader.kMagicBytes f) CacheFileReader.kMagic
      then mkFileInfo true (Z.of_nat (length f)) (CacheFileReader.getU32 (drop 4 f)) (CacheFileReader.getU32 (drop 8 f))
      else mkFileInfo true (Z.of_nat (length f)) 0 0
  end.

(** ** The snapshot *)

Lemma walk_chain_spec ns l : ∀ h fuel, chain ns h l → (length l < fuel)%nat →
  walk_chain fuel ns h = Done (Z.of_nat <$> l).
Proof.
  induction l as [|i l IH]; intros h fuel Hc Hf; (destruct fuel as [|f]; [cbn in Hf; lia|]);
    cbn [walk_chain chain] in *.
  - by subst h.
  - destruct Hc as (-> & Hi & Hc). destruct (Z.ltb_spec (Z.of_nat i) 0); [lia|].
    rewrite rdNode_in, run_bind_done by done. rewrite (IH _ f Hc) by (cbn in Hf; lia). done.
Qed.

Lemma walk_buckets_spec p bs : ∀ ls, length ls = length bs →
  (∀ k h l, bs !! k = Some h → ls !! k = Some l → chain (nodes p) h l ∧ (length l <= length (nodes p))%nat) →
  walk_buckets bs p = Done (Z.of_nat <$> concat ls).
Proof.
  induction bs as [|h bs IH]; intros [|l ls] Hl Hc; try done. cbn [walk_buckets concat].
  destruct (Hc 0%nat h l eq_refl eq_refl) as [Hch Hle].
  rewrite (walk_chain_spec _ l) by (done || (unfold walkFuel; lia)). rewrite run_bind_done.
  rewrite (IH ls), run_bind_done, fmap_app; [done|by injection Hl|].
  intros k. apply (Hc (S k)).
Qed.

Lemma walkAll_spec p chains free M : holds p chains free M →
  walkAll p = Done (Z.of_nat <$> concat chains).
Proof.
  intros Hh. apply walk_buckets_spec; [apply (wf_len _ _ _ _ (holds_wf _ _ _ _ Hh))|].
  intros k h l Hk Hl.
  destruct (wf_bucket _ _ _ _ (holds_wf _ _ _ _ Hh) k) as (h0 & l0 & Hh0 & Hl0 & Hc & Hlen).
  { by eapply lookup_lt_Some. }
  assert (h0 = h) as -> by congruence. assert (l0 = l) as -> by congruence. done.
Qed.

Definition keptNode (ignore : bool) (now : Z) (n : Node) : bool :=
  negb (bool_decide (name n = [])) && negb (expired ignore now n).

Lemma filter_fmap {A B} (f : A → B) (P : B → bool) l :
  List.filter P (f <$> l) = f <$> List.filter (λ x, P (f x)) l.
Proof. induction l as [|x l IH]; cbn; [done|]. destruct (P (f x)); cbn; by rewrite IH. Qed.

Lemma snapshot_spec p chains free M ignore now : holds p chains free M →
  snapshot ignore now p =
    Done (Z.of_nat <$> List.filter (λ i, keptNode ignore now (nodeAt (nodes p) i)) (concat chains)).
Proof.
  intros Hh. unfold snapshot. rewrite (walkAll_spec _ _ _ _ Hh), run_bind_done, filter_fmap.
  rewrite (List.filter_ext (λ i, kept ignore now (nodes p) (Z.of_nat i))
    (λ i, keptNode ignore now (nodeAt (nodes p) i))); [done|].
  intros i. unfold kept, keptNode. by rewrite Nat2Z.id.
Qed.

(** ** The bytes of a record *)

(** A name the cache stores: not empty, short, lower case, without NUL. *)
Definition okKey (nm : bytes) : Prop :=
  nm ≠ [] ∧ (length nm < kMaxNameLen)%nat ∧ lower nm = nm ∧ c_str nm = nm.

(** What holds of a record made from addresses that parse. *)
Definition okRec (k : key) (r : Rec) : Prop :=
  okKey k.1 ∧ is_u32 (rTtl r) ∧ is_u32 (rUses r) ∧
  ((k.2 = kTypeA ∧ rA4 r ≠ [] ∧ Forall is_u32 (rA4 r) ∧ rA6 r = [] ∧ (length (rA4 r) <= kMaxA)%nat) ∨
   (k.2 = kTypeAaaa ∧ rA6 r ≠ [] ∧ Forall (λ a, length a = 16%nat ∧ wf_bytes a) (rA6 r) ∧ rA4 r = [] ∧
    (length (rA6 r) <= kMaxAAAA)%nat)).

(** The record of the file for a record of the cache. *)
Definition specTtlRem (ignore : bool) (now : Z) (r : Rec) : Z :=
  if negb ignore && negb (rTtl r =? 0) then
    let ageSec := elapsedMs now (rStored r) / 1000 in
    if rTtl r <=? ageSec then 1 else rTtl r - ageSec
  else rTtl r.

Definition fileRec (ignore : bool) (now : Z) (x : key * Rec) : CacheFileRecord :=
  mkRecord x.1.1 x.1.2 (specTtlRem ignore now x.2) (rUses x.2)
    (if x.1.2 =? kTypeA then putLe 4 <$> rA4 x.2 else rA6 x.2).

Lemma specTtlRem_u32 ignore now r : is_u32 (rTtl r) → is_u32 (specTtlRem ignore now r).
Proof.
  intros H. unfold specTtlRem. destruct (negb ignore && negb (rTtl r =? 0)); [|done].
  cbv zeta. destruct (Z.leb_spec (rTtl r) (elapsedMs now (rStored r) / 1000)); [unfold is_u32; lia|].
  unfold elapsedMs in *. pose proof (u32_range (now - rStored r)). word_unfold. zdm.
Qed.

Lemma ttlRem_spec ignore now n : is_u32 (ttl n) → ttlRem ignore now n = specTtlRem ignore now (recOf n).
Proof.
  intros H. pose proof (specTtlRem_u32 ignore now (recOf n) H) as Hs. revert Hs.
  unfold ttlRem, specTtlRem. cbn [recOf rTtl rStored].
  destruct (negb ignore && negb (ttl n =? 0)); [|done]. cbv zeta.
  destruct (ttl n <=? elapsedMs now (storedMs n) / 1000); [done|]. intros Hs. by apply u32_small.
Qed.

Lemma recordChunks_encode ignore now n : okArrays n → okRec (keyOf n) (recOf n) →
  concat (recordChunks ignore now n) =
    CacheFileReader.encode 3 0 (fileRec ignore now (keyOf n, recOf n)) ∧
  CacheFileReader.encodable 3 (fileRec ignore now (keyOf n, recOf n), 0).
Proof.
  intros (L4 & L6 & N4 & N6) (Hk & Ht & Hu & Hty).
  destruct Hk as (Hne & Hlen & _ & _). unfold keyOf, recOf, kMaxNameLen, kMaxA, kMaxAAAA in *.
  cbn [fst snd rA4 rA6 rTtl rUses] in *.
  assert (E4 : length (take (nA n) (a4 n)) = nA n) by (rewrite length_take; lia).
  assert (E6 : length (take (nAAAA n) (a6 n)) = nAAAA n) by (rewrite length_take; lia).
  assert (Hl0 : (0 < length (name n))%nat) by (destruct (name n); [done|cbn; lia]).
  assert (H8 : ∀ k, (k <= 255)%nat → u8 (Z.of_nat k) = Z.of_nat k) by (intros; apply u8_small; unfold is_u8; lia).
  unfold recordChunks, fileRec, CacheFileReader.encode. rewrite (ttlRem_spec _ _ _ Ht).
  rewrite !H8 by lia. cbn [fst snd rA4 rA6 rUses CacheFileReader.name CacheFileReader.qtype
    CacheFileReader.ttlRemaining CacheFileReader.uses CacheFileReader.addrs].
  set (T := specTtlRem _ _ _). unfold CacheFileReader.addrsOf. cbn [CacheFileReader.addrs].
  pose proof (specTtlRem_u32 ignore now (recOf n) Ht) as HT. fold T in HT.
  destruct Hty as [(Hq & Hn4 & Hf & Hn6 & _) | (Hq & Hn6 & Hf & Hn4 & _)]; rewrite Hq.
  - change (kTypeA =? CacheFileReader.kTypeA) with true. change (kTypeA =? kTypeA) with true.
    cbv iota. rewrite length_fmap, E4, Hn6. rewrite Hn6 in E6. cbn [length] in E6.
    assert (Hpos : nA n ≠ 0%nat) by (intros E; rewrite E in Hn4; done).
    destruct (Nat.ltb_spec 0 (nA n)); [|lia]. rewrite <- E6. split.
    + cbn [concat app]. rewrite ?app_nil_r, <- ?app_assoc. reflexivity.
    + split; [|cbn; unfold CacheFileReader.kMaxAaaa; lia].
      split; cbn; try done; [lia|by left| |rewrite length_fmap, E4; unfold CacheFileReader.kMaxA; lia|].
      * destruct (take (nA n) (a4 n)); done.
      * apply Forall_fmap, Forall_true. done.
  - change (kTypeAaaa =? CacheFileReader.kTypeA) with false. change (kTypeAaaa =? kTypeA) with false.
    cbv iota. rewrite E6, Hn4. rewrite Hn4 in E4. cbn [length] in E4. rewrite <- E4.
    change (0 <? 0)%nat with false. cbv iota. split.
    + cbn [concat app]. rewrite ?app_nil_r, <- ?app_assoc. reflexivity.
    + split; [|cbn; unfold CacheFileReader.kMaxA; lia].
      split; cbn; try done; [lia|by right|rewrite E6; unfold CacheFileReader.kMaxAaaa; lia|].
      eapply Forall_impl; [exact Hf|]. by intros a [? _].
Qed.

(** ** A save in which nothing fails *)

Lemma writeAll_good chunks : ∀ k, ∃ k', writeAll allGood k chunks = Some k'.
Proof. induction chunks as [|c cs IH]; intros k; cbn; [by eexists|apply IH]. Qed.

Lemma saveLoop_good ignore now ns l : Forall (λ i, okArrays (nodeAt ns i) ∧
    okRec (keyOf (nodeAt ns i)) (recOf (nodeAt ns i))) l → ∀ s k, ∃ k',
  let xs := (λ x, (fileRec ignore now x, 0)) <$> recs ns l in
  saveLoop allGood ignore now (λ _, ns) (Z.of_nat <$> l) s k =
    Some (k', CacheFileReader.body 3 xs, Z.of_nat (length l)) ∧
  Forall (CacheFileReader.encodable 3) xs.
Proof.
  induction 1 as [|i l [Ha Hr] _ IH]; intros s k; cbn [fmap list_fmap saveLoop]; [by exists k|].
  rewrite Nat2Z.id. set (n := nodeAt ns i) in *.
  destruct (recordChunks_encode ignore now n Ha Hr) as [Ec He].
  destruct Hr as ((Hne & Hlen & _) & _). cbn in Hne, Hlen. unfold kMaxNameLen in Hlen.
  assert ((Z.of_nat (length (name n)) =? 0) || (kMaxNameBytes <? Z.of_nat (length (name n))) = false) as ->.
  { assert (name n ≠ []) by done. unfold kMaxNameBytes. destruct (name n); [done|]. cbn in *.
    apply orb_false_iff. rewrite Z.eqb_neq, Z.ltb_ge. lia. }
  destruct (writeAll_good (recordChunks ignore now n) k) as [k1 ->].
  destruct (IH (S s) k1) as (k2 & -> & HF). exists k2. split.
  - rewrite Ec. cbn [length].
    by replace (Z.of_nat (S (length l))) with (Z.of_nat (length l) + 1) by lia.
  - constructor; [exact He|exact HF].
Qed.

(** The records of a map that a save at [now] keeps. *)
Definition liveRec (ignore : bool) (now : Z) (x : key * Rec) : bool :=
  negb (bool_decide (x.1.1 = [])) && negb (specExpired ignore now x.2).

Lemma recs_filter ignore now ns l :
  recs ns (List.filter (λ i, keptNode ignore now (nodeAt ns i)) l) =
  List.filter (liveRec ignore now) (recs ns l).
Proof. unfold recs. rewrite filter_fmap. done. Qed.

(** What the loop writes of a cache whose records are [xs]. *)
Lemma save_body now now2 c cap M p snap : Refines c cap M → map_Forall okRec M → arena c = Some p →
  snapshot (ignoreTtl c) now p = Done snap →
  ∃ xs, xs ≡ₚ map_to_list M ∧
    let l := List.filter (liveRec (ignoreTtl c) now) xs in
    let fs := (λ x, (fileRec (ignoreTtl c) now2 x, 0)) <$> l in
    Forall (CacheFileReader.encodable 3) fs ∧ (snap = [] ↔ l = []) ∧
    ∃ k, saveLoop allGood (ignoreTtl c) now2 (λ _, nodes p) snap 0 1 =
      Some (k, CacheFileReader.body 3 fs, Z.of_nat (length fs)).
Proof.
  intros (p' & Ha & (chains & free & Hh) & _ & _) Hok Ha' Es. assert (p' = p) as -> by congruence.
  exists (recs (nodes p) (concat chains)). split.
  { rewrite (holds_map _ _ _ _ Hh). symmetry. apply map_to_list_to_map. apply (holds_nodup _ _ _ _ Hh). }
  cbv zeta. rewrite <- recs_filter. rewrite (snapshot_spec _ _ _ _ _ _ Hh) in Es. injection Es as <-.
  set (kl := List.filter (λ i, keptNode (ignoreTtl c) now (nodeAt (nodes p) i)) (concat chains)).
  assert (Hkl : Forall (λ i, okArrays (nodeAt (nodes p) i) ∧
    okRec (keyOf (nodeAt (nodes p) i)) (recOf (nodeAt (nodes p) i))) kl).
  { apply Forall_forall. intros i Hi%list_elem_of_In. apply filter_In in Hi as [Hi%list_elem_of_In _].
    split; [apply (holds_sized _ _ _ _ Hh)|]. apply Hok, (holds_in _ _ _ _ Hh), Hi. }
  destruct (saveLoop_good (ignoreTtl c) now2 (nodes p) kl Hkl 0 1) as (k' & Hloop & Henc).
  split; [exact Henc|]. split.
  - split; intros E%fmap_nil_inv; unfold recs; by rewrite E.
  - exists k'. rewrite Hloop. rewrite (length_fmap _ (recs (nodes p) kl)). unfold recs. by rewrite length_fmap.
Qed.

(** What a good save publishes. *)
Lemma save_good path now now2 torn c cap M v : path ≠ [] → Refines c cap M → map_Forall okRec M →
  ∃ p xs, arena c = Some p ∧ xs ≡ₚ map_to_list M ∧
    let l := List.filter (liveRec (ignoreTtl c) now) xs in
    let fs := (λ x, (fileRec (ignoreTtl c) now2 x, 0)) <$> l in
    let n := Z.of_nat (length fs) in
    Forall (CacheFileReader.encodable 3) fs ∧
    (l = [] → saveToFile path allGood now now2 (λ _, nodes p) torn c v = Done (mkSaved false true 0 v)) ∧
    (l ≠ [] → ∃ v', saveToFile path allGood now now2 (λ _, nodes p) torn c v =
        Done (mkSaved true false n v') ∧
      v' !! path = Some (CacheFileReader.header 3 n ++ CacheFileReader.body 3 fs)).
Proof.
  intros Hp HR Hok. pose proof HR as (p & Ha & (chains & free & Hh) & _ & _).
  pose proof (snapshot_spec _ _ _ _ (ignoreTtl c) now Hh) as Es. set (snap := Z.of_nat <$> _) in Es.
  destruct (save_body now now2 c cap M p _ HR Hok Ha Es) as (xs & Hxs & Henc & Hnil & k & Hloop).
  exists p, xs. split; [done|]. split; [done|]. cbv zeta. split; [exact Henc|].
  unfold saveToFile. rewrite bool_decide_eq_false_2, Ha, Es, run_bind_done by done. split; intros Hl.
  - by rewrite bool_decide_eq_true_2 by by apply Hnil.
  - rewrite bool_decide_eq_false_2 by by rewrite Hnil. cbn [negb psram allGood].
    destruct (saveCalls_run path allGood torn (ignoreTtl c) now2 (λ _, nodes p) snap v) as (k0 & ->).
    cbn [negb opens accepts allGood]. rewrite Hloop. unfold finish.
    cbn [seeks accepts allGood closes removes renames negb].
    rewrite (AtomicFile.publish_works _ _ _ (lookup_insert_eq _ _ _)). cbv iota beta.
    eexists. split; [done|]. apply lookup_insert_eq.
Qed.

(** ** A load into an empty cache *)

Section Restoring.
Context (pton4 : bytes → option Z) (pton6 : bytes → option bytes).
Context (ntop4 : Z → option bytes) (ntop6 : bytes → option bytes).
(** Printing an address and reading the text gives the address back. *)
Context (H4 : ∀ v, is_u32 v → ∃ s, ntop4 v = Some s ∧ pton4 s = Some v).
Context (H6 : ∀ a, length a = 16%nat → wf_bytes a → ∃ s, ntop6 a = Some s ∧ pton6 s = Some a).

(** The record a load at [t] leaves of [r], saved at [now]. *)
Definition restoredRec (ignore : bool) (now t : Z) (r : Rec) : Rec :=
  mkRec (rA4 r) (rA6 r) (specTtlRem ignore now r) t (rUses r).

Fixpoint restoredFrom (ignore : bool) (now : Z) (clock : nat → Z * Z) (i : nat) (xs : list (key * Rec))
  : list (key * Rec) :=
  match xs with
  | [] => []
  | x :: xs' => (x.1, restoredRec ignore now (clock i).1 x.2) :: restoredFrom ignore now clock (S i) xs'
  end.

Lemma texts_parse {A B} (text : B → option bytes) (pton : bytes → option A) (enc : A → B) (l : list A) :
  Forall (λ v, ∃ s, text (enc v) = Some s ∧ pton s = Some v) l →
  let ips := omap text (enc <$> l) in
  Forall (λ ip, is_Some (pton ip)) ips ∧ omap pton ips = l ∧ length ips = length l.
Proof.
  induction 1 as [|v l (s & Hs & Hp) _ (IH1 & IH2 & IH3)]; cbn; [done|]. rewrite Hs. cbn. rewrite Hp.
  split_and!; [by constructor|by f_equal|by f_equal].
Qed.

Lemma loadRecord_spec ignore now k r t us c cap M : Refines c cap M → okRec k r → M !! k = None →
  (size M < cap)%nat →
  ∃ c', loadRecord pton4 pton6 ntop4 ntop6 (fileRec ignore now (k, r)) t us c = Done (true, c') ∧
    Refines c' cap (<[k := restoredRec ignore now t r]> M) ∧ ignoreTtl c' = ignoreTtl c.
Proof.
  intros HR (Hk & Ht & Hu & Hty) Hnone Hsz. destruct k as [nm q], Hk as (Hne & Hlen & Hlow & Hstr).
  cbn [fst snd] in *. unfold loadRecord, fileRec.
  cbn [fst snd CacheFileReader.name CacheFileReader.qtype CacheFileReader.ttlRemaining
    CacheFileReader.uses CacheFileReader.addrs].
  set (addrs := if q =? kTypeA then putLe 4 <$> rA4 r else rA6 r).
  set (ips := omap (addrText ntop4 ntop6 q) addrs). cbv zeta.
  assert (Hkey : keyFor nm q = (nm, q)) by (unfold keyFor; by rewrite Hlow, Hstr).
  assert (Hips : ips ≠ [] ∧ parses pton4 pton6 q ips ∧ (q = kTypeA ∨ q = kTypeAaaa) ∧
    ∀ T u, specRec pton4 pton6 q t T ips u = mkRec (rA4 r) (rA6 r) T t u).
  { unfold ips, addrs, parses, specRec. destruct Hty as [(-> & Hn & Hf & Hz & Hl) | (-> & Hn & Hf & Hz & Hl)].
    - change (kTypeA =? kTypeA) with true. cbv iota.
      destruct (texts_parse (addrText ntop4 ntop6 kTypeA) pton4 (putLe 4) (rA4 r)) as (P1 & P2 & P3).
      { eapply Forall_impl; [exact Hf|]. intros v Hv. unfold addrText, CacheFileReader.getU32.
        change (kTypeA =? kTypeAaaa) with false. cbv iota. change (take 4 (putLe 4 v)) with (putLe 4 v).
        rewrite CacheFileReader.getLe_putLe by exact Hv. by apply H4. }
      split; [intros E; apply Hn, length_zero_iff_nil; by rewrite <- P3, E|].
      split; [exact P1|]. split; [by left|]. intros T u. rewrite P2, Hz, take_ge by done. done.
    - change (kTypeAaaa =? kTypeA) with false. cbv iota.
      destruct (texts_parse (addrText ntop4 ntop6 kTypeAaaa) pton6 (λ a, a) (rA6 r)) as (P1 & P2 & P3).
      { eapply Forall_impl; [exact Hf|]. intros a [Ha Hw]. by apply H6. }
      rewrite list_fmap_id in P1, P2, P3.
      split; [intros E; apply Hn, length_zero_iff_nil; by rewrite <- P3, E|].
      split; [exact P1|]. split; [by right|]. intros T u. rewrite P2, Hz, take_ge by done. done. }
  destruct Hips as (Hine & Hparse & Hq & Hspec).
  rewrite bool_decide_eq_false_2 by done.
  destruct (store_total c cap M HR pton4 pton6 nm q ips (specTtlRem ignore now r) (Some (rUses r)) t us)
    as (c' & M' & r' & -> & Hroom & Hig & HR' & Hr'); [done|done|done|].
  rewrite run_bind_done. exists c'. split; [done|]. split; [|done].
  rewrite (Hr' Hparse), Hkey, Hspec in *. cbn [specUses] in HR'.
  replace (Z.min (rUses r) UINT32_MAX) with (rUses r) in HR' by (word_unfold; lia).
  destruct Hroom as [[? E]|_ _|v rv _ E]; [congruence|exact HR'|lia].
Qed.

Lemma restoredFrom_keys ignore now clock xs : ∀ i, (restoredFrom ignore now clock i xs).*1 = xs.*1.
Proof. induction xs as [|x xs IH]; intros i; cbn; [done|]. by rewrite IH. Qed.

Lemma loadRecords_spec ignore now clock cap xs : ∀ i loaded c M, Refines c cap M →
  Forall (λ x, okRec x.1 x.2) xs → NoDup xs.*1 → Forall (λ x, M !! x.1 = None) xs →
  (size M + length xs <= cap)%nat →
  ∃ c', loadRecords pton4 pton6 ntop4 ntop6 (fileRec ignore now <$> xs) clock i loaded c =
      Done (loaded + Z.of_nat (length xs), c') ∧
    Refines c' cap (list_to_map (restoredFrom ignore now clock i xs) ∪ M).
Proof.
  induction xs as [|[k r] xs IH]; intros i loaded c M HR Hok Hnd Hno Hcap; cbn [fmap list_fmap loadRecords].
  { exists c. rewrite Z.add_0_r. split; [done|]. cbn. by rewrite (left_id_L ∅ (∪)). }
  apply Forall_cons in Hok as [Hr Hok]. cbn [fmap list_fmap fst] in Hnd. apply NoDup_cons in Hnd as [Hnk Hnd].
  apply Forall_cons in Hno as [Hk Hno]. cbn [fst snd length] in *.
  destruct (loadRecord_spec ignore now k r (clock i).1 (clock i).2 c cap M HR Hr Hk ltac:(lia))
    as (c1 & -> & HR1 & _).
  rewrite run_bind_done. cbv beta iota.
  destruct (IH (S i) (loaded + 1) c1 _ HR1 Hok Hnd) as (c2 & -> & HR2).
  - apply Forall_forall. intros [k' r'] Hx. cbn. rewrite lookup_insert_ne.
    + rewrite Forall_forall in Hno. by apply (Hno (k', r')).
    + intros ->. apply Hnk, list_elem_of_fmap. by exists (k', r').
  - rewrite map_size_insert_None by done. lia.
  - exists c2. split; [f_equal; f_equal; lia|]. cbn [restoredFrom list_to_map foldr fst snd].
    rewrite <- insert_union_l, insert_union_r; [exact HR2|].
    apply not_elem_of_list_to_map_1. by rewrite restoredFrom_keys.
Qed.

Lemma restoredFrom_lookup ignore now clock xs : ∀ i k, NoDup xs.*1 →
  (∀ r, (k, r) ∈ xs → ∃ t, (list_to_map (restoredFrom ignore now clock i xs) : gmap key Rec) !! k =
     Some (restoredRec ignore now t r)) ∧
  (k ∉ xs.*1 → (list_to_map (restoredFrom ignore now clock i xs) : gmap key Rec) !! k = None).
Proof.
  intros i k Hnd. split.
  - revert i Hnd. induction xs as [|[k' r'] xs IH]; intros i Hnd r; [by intros ?%elem_of_nil|].
    cbn in Hnd. apply NoDup_cons in Hnd as [Hnk Hnd]. cbn [restoredFrom list_to_map foldr fst snd].
    intros [[= -> ->]|Hx]%elem_of_cons.
    + eexists. by rewrite lookup_insert_eq.
    + rewrite lookup_insert_ne; [by eapply IH|]. intros ->. apply Hnk, list_elem_of_fmap. by exists (k, r).
  - intros Hk. apply not_elem_of_list_to_map_1. by rewrite restoredFrom_keys.
Qed.

(** A load of a published save. *)
Lemma load_saved path rr clock ignore now l c cap v : path ≠ [] → Refines c cap ∅ →
  Forall (λ x, okRec x.1 x.2) l → NoDup l.*1 → (length l <= cap)%nat →
  Z.of_nat (length l) <= CacheFileReader.kMaxPlausibleRecords →
  let fs := (λ x, (fileRec ignore now x, 0)) <$> l in
  Forall (CacheFileReader.encodable 3) fs →
  v !! path = Some (CacheFileReader.header 3 (Z.of_nat (length fs)) ++ CacheFileReader.body 3 fs) →
  ∃ c', loadFromFile pton4 pton6 ntop4 ntop6 path rr clock c v =
      Done (true, Z.of_nat (length l), c', v) ∧
    Refines c' cap (list_to_map (restoredFrom ignore now clock 0 l)).
Proof.
  intros Hp HR Hok Hnd Hcap Hmax fs Henc Hv. assert (Hfs : length fs = length l) by apply length_fmap.
  unfold loadFromFile. rewrite bool_decide_eq_false_2 by done.
  pose proof HR as (p & -> & _). rewrite (AtomicFile.recover_there _ _ _ _ Hv), Hv.
  rewrite (proj1 (CacheFileReader.read_encoded path 3 fs Hp ltac:(lia) Henc ltac:(lia))).
  cbv beta iota. assert (fs.*1 = fileRec ignore now <$> l) as ->.
  { unfold fs. rewrite <- list_fmap_compose. by apply list_fmap_ext. }
  destruct (loadRecords_spec ignore now clock cap l 0 0 c ∅ HR Hok Hnd) as (c' & -> & HR').
  - apply Forall_true. intros x. apply lookup_empty.
  - rewrite map_size_empty. lia.
  - rewrite run_bind_done. cbn [refused CacheFileReader.status fst snd]. exists c'.
    split; [done|]. by rewrite (right_id_L ∅ (∪)) in HR'.
Qed.

Lemma filter_keys (P : key * Rec → bool) (l : list (key * Rec)) : NoDup l.*1 → NoDup (List.filter P l).*1.
Proof.
  induction l as [|x l IH]; cbn; [done|]. intros [Hx Hnd]%NoDup_cons. destruct (P x); [|auto].
  cbn. apply NoDup_cons. split; [|auto]. intros (y & Hy & Hin)%list_elem_of_fmap.
  apply list_elem_of_In, filter_In in Hin as [Hin%list_elem_of_In _]. apply Hx, list_elem_of_fmap. by exists y.
Qed.

(** The file of a save, loaded into an empty cache. *)
Lemma load_restores path now now2 rr clock ign M1 xs c2 cap2 v : path ≠ [] → map_Forall okRec M1 →
  xs ≡ₚ map_to_list M1 → Refines c2 cap2 ∅ →
  (size M1 <= cap2)%nat → Z.of_nat (size M1) <= CacheFileReader.kMaxPlausibleRecords →
  let l := List.filter (liveRec ign now) xs in
  let fs := (λ x, (fileRec ign now2 x, 0)) <$> l in
  Forall (CacheFileReader.encodable 3) fs →
  v !! path = Some (CacheFileReader.header 3 (Z.of_nat (length fs)) ++ CacheFileReader.body 3 fs) →
  ∃ c' M', loadFromFile pton4 pton6 ntop4 ntop6 path rr clock c2 v = Done (true, Z.of_nat (length fs), c', v) ∧
    Refines c' cap2 M' ∧
    ∀ k, match M1 !! k with
         | Some r => if specExpired ign now r then M' !! k = None
                     else ∃ t, M' !! k = Some (restoredRec ign now2 t r)
         | None => M' !! k = None
         end.
Proof.
  intros Hp Hok Hxs HR2 Hcap Hmax l fs Henc Hv.
  assert (Hnd : NoDup xs.*1) by (rewrite Hxs; apply NoDup_fst_map_to_list).
  assert (Hin : ∀ k r, (k, r) ∈ l ↔ M1 !! k = Some r ∧ specExpired ign now r = false).
  { intros k r. unfold l. rewrite list_elem_of_In, filter_In, <- list_elem_of_In, Hxs, elem_of_map_to_list.
    unfold liveRec. cbn [fst snd]. rewrite andb_true_iff, !negb_true_iff, bool_decide_eq_false.
    split; [naive_solver|]. intros [Hk ?]. destruct (Hok _ _ Hk) as [(? & _) _]. auto. }
  assert (Hll : (length l <= size M1)%nat).
  { rewrite <- length_map_to_list, <- (Permutation_length Hxs). unfold l. apply List.filter_length_le. }
  assert (Hlok : Forall (λ x, okRec x.1 x.2) l).
  { apply Forall_forall. intros [k r] Hx. apply Hin in Hx as [Hx _]. by apply Hok. }
  destruct (load_saved path rr clock ign now2 l c2 cap2 v Hp HR2 Hlok
    (filter_keys _ _ Hnd) ltac:(lia) ltac:(lia) Henc Hv) as (c' & El & HR').
  eexists c', _. split; [unfold fs; by rewrite length_fmap|]. split; [done|].
  intros k. destruct (restoredFrom_lookup ign now2 clock l 0 k (filter_keys _ _ Hnd)) as [Hyes Hno].
  assert (Hnone : (∀ r, (k, r) ∉ l) → k ∉ l.*1).
  { intros H ([k' r] & -> & Hx)%list_elem_of_fmap. by apply (H r). }
  destruct (M1 !! k) as [r|] eqn:Ek.
  - destruct (specExpired ign now r) eqn:Ee.
    + apply Hno, Hnone. intros r'. rewrite Hin. intros [? ?]. congruence.
    + apply Hyes, Hin. auto.
  - apply Hno, Hnone. intros r'. rewrite Hin. intros [? ?]. congruence.
Qed.

(** C8: the cache survives a restart: saving it and loading the file into
    an empty cache that is large enough gives back every record that had not
    expired - same name and type, same addresses, same use count, the lifetime
    that was left - and nothing else. *)
Theorem save_load path now now2 torn rr clock c1 cap1 M1 c2 cap2 v : path ≠ [] →
  Refines c1 cap1 M1 → map_Forall okRec M1 → Refines c2 cap2 ∅ →
  (size M1 <= cap2)%nat → Z.of_nat (size M1) <= CacheFileReader.kMaxPlausibleRecords →
  (∃ k r, M1 !! k = Some r ∧ specExpired (ignoreTtl c1) now r = false) →
  ∃ p n v' c' M', arena c1 = Some p ∧
    saveToFile path allGood now now2 (λ _, nodes p) torn c1 v = Done (mkSaved true false n v') ∧
    loadFromFile pton4 pton6 ntop4 ntop6 path rr clock c2 v' = Done (true, n, c', v') ∧
    Refines c' cap2 M' ∧
    ∀ k, match M1 !! k with
         | Some r => if specExpired (ignoreTtl c1) now r then M' !! k = None
                     else ∃ t, M' !! k = Some (restoredRec (ignoreTtl c1) now2 t r)
         | None => M' !! k = None
         end.
Proof.
  intros Hp HR1 Hok HR2 Hcap Hmax (k0 & r0 & Hk0 & Hlive0).
  destruct (save_good path now now2 torn c1 cap1 M1 v Hp HR1 Hok) as (p & xs & Ha & Hxs & Henc & _ & Hsave).
  destruct Hsave as (v' & Es & Hv').
  { intros E. assert (Hx : (k0, r0) ∈ List.filter (liveRec (ignoreTtl c1) now) xs); [|rewrite E in Hx; by apply elem_of_nil in Hx].
    rewrite list_elem_of_In, filter_In, <- list_elem_of_In, Hxs, elem_of_map_to_list.
    unfold liveRec. cbn [fst snd]. rewrite Hlive0, bool_decide_eq_false_2; [done|]. by destruct (Hok _ _ Hk0) as [(? & _) _]. }
  destruct (load_restores path now now2 rr clock (ignoreTtl c1) M1 xs c2 cap2 v' Hp Hok Hxs HR2 Hcap Hmax Henc Hv')
    as (c' & M' & El & HR' & HM). by eexists p, _, v', c', M'.
Qed.

End Restoring.

(** ** Concrete runs *)

Definition toyPton4 (s : bytes) : option Z := match s with [b] => Some b | _ => None end.
Definition toyNtop4 (z : Z) : option bytes := Some [z].
Definition toy16 (s : bytes) : option bytes := Some s.

(** A cache of one record. *)
Definition oneRec : Rec := mkRec [7] [] 60 1000 1.

Lemma one_refines : ∃ c, store toyPton4 toy16 (lit "a.lan") 1 [[7]] 60 1000 0 small = Done c ∧
  ignoreTtl c = false ∧ Refines c 2 {[ (lit "a.lan", 1) := oneRec ]}.
Proof.
  destruct (store_total small 2 ∅ small_refines toyPton4 toy16 (lit "a.lan") 1 [[7]] 60 None 1000 0)
    as (c & M' & r & E & Hroom & Hig & HR & Hr); [split; [done|cbn; unfold kMaxNameLen; lia]|done|by left|].
  exists c. split; [done|]. split; [done|]. rewrite Hr in HR by (repeat constructor; by eexists).
  destruct Hroom as [[? ?]|_ _|v rv _ E' Hv]; [done|exact HR|by rewrite lookup_empty in Hv].
Qed.

Lemma oneRec_ok : okRec (lit "a.lan", 1) oneRec.
Proof.
  split; [split; [done|split; [cbn; unfold kMaxNameLen; lia|done]]|].
  split; [done|]. split; [done|]. left. split; [done|]. split; [done|].
  split; [by repeat constructor|]. split; [done|]. cbn. unfold kMaxA. lia.
Qed.

Lemma save_load_witness : ∃ c1, Refines c1 2 {[ (lit "a.lan", 1) := oneRec ]} ∧
  ∃ p n v' c' M', arena c1 = Some p ∧
    saveToFile (lit "c") allGood 5000 6000 (λ _, nodes p) [] c1 ∅ = Done (mkSaved true false n v') ∧
    loadFromFile toyPton4 toy16 toyNtop4 toy16 (lit "c") true (λ _, (10, 0)) small v' = Done (true, n, c', v') ∧
    Refines c' 2 M' ∧
    ∀ k, match ({[ (lit "a.lan", 1) := oneRec ]} : gmap key Rec) !! k with
         | Some r => if specExpired (ignoreTtl c1) 5000 r then M' !! k = None
                     else ∃ t, M' !! k = Some (restoredRec (ignoreTtl c1) 6000 t r)
         | None => M' !! k = None
         end.
Proof.
  destruct one_refines as (c1 & _ & Hig & HR). exists c1. split; [exact HR|].
  apply (save_load toyPton4 toy16 toyNtop4 toy16) with (cap1 := 2%nat).
  - intros v _. by exists [v].
  - intros a _ _. by exists a.
  - done.
  - exact HR.
  - apply map_Forall_singleton. exact oneRec_ok.
  - exact small_refines.
  - rewrite map_size_singleton. lia.
  - rewrite map_size_singleton. unfold CacheFileReader.kMaxPlausibleRecords. lia.
  - exists (lit "a.lan", 1), oneRec. rewrite lookup_singleton_eq, Hig. by vm_compute.
Defined.

(** A save whose seek back to the header fails still publishes: the
    file says it holds no record, the save reports one written, and a load of it
    succeeds with nothing restored. *)
Example lost_seek_publishes :
  (c ← store toyPton4 toy16 (lit "a.lan") 1 [[7]] 60 1000 0 small;
   s ← saveToFile (lit "c") (mkIo true true (λ _, true) false true true true) 2000 2000
         (λ _, nodes (default (mkPool [] [] (-1) 0) (arena c))) [] c ∅;
   r ← loadFromFile toyPton4 toy16 toyNtop4 toy16 (lit "c") true (λ _, (10, 0)) small (svVol s);
   mret (svOk s, svWritten s, r.1.1.1, r.1.1.2)) = Done (true, 1, true, 0).
Proof. vm_compute. reflexivity. Qed.

(** A cache of one record, and the power going between the two directory calls of its save:
    the file is gone, and the start that recovers publishes the complete part. *)
Definition demoCache : Cache :=
  match store toyPton4 toy16 (lit "a.lan") 1 [[7]] 60 1000 0 small with Done c => c | _ => small end.
Definition demoNodes : list Node := nodes (default (mkPool [] [] (-1) 0) (arena demoCache)).


(** A first save is not protected: when there is no old file and the power goes while the
    part is being written, [recover] publishes whatever is in it under the real name. *)
Example first_save_torn torn : ∃ s,
  AtomicFile.crash (saveCalls (lit "c") false 2000 (λ _, demoNodes) [1]) (AtomicFile.disk ∅) s ∧
  AtomicFile.recover true (lit "c") s !! lit "c" = Some torn.
Proof.
  exists (<[AtomicFile.partPath (lit "c") := torn]> (<[AtomicFile.partPath (lit "c") := []]> ∅)). split.
  - eapply AtomicFile.crash_later with (works := true) (torn := []); [reflexivity|].
    apply AtomicFile.crash_here. by exists torn.
  - rewrite (AtomicFile.recover_part _ _ torn); [apply lookup_insert_eq|by vm_compute|apply lookup_insert_eq].
Qed.

End CachePersist.
