(* ===== verification/CacheView.v ===== *)
(** * The cache view

    The filter, the page size and the walk of the viewer
    (src/dns/CacheEntryView.h, [entries] and [fillEntryView] of
    src/dns/InternalDnsCache.cpp): a page is a slice of the matching records. *)
From S2P Require Import Prelude DnsPool InternalDnsCache CacheSpec CachePersist.
From stdpp Require Import gmap.
#[local] Open Scope Z_scope.
Import DnsPool InternalDnsCache CacheSpec.

Module CacheView.

Definition kCacheViewPageSize : nat := 100.
Definition kCacheViewMaxPageSize : nat := 200.

Record CacheEntryView := mkView {
  vName : bytes;
  vQtype : Z;
  vA4 : list Z;
  vA6 : list bytes;
  vTtl : Z;
  vRemaining : Z;
  vAge : Z;
  vUses : Z;
  vExpired : bool;
}.

Record CacheEntryQuery := mkQuery { qName : bytes; qQtype : Z; qOffset : nat; qLimit : nat }.

Record CacheEntryPage := mkPage {
  available : bool;
  total : nat;
  offset : nat;
  limit : nat;
  scanned : nat;
  items : list CacheEntryView;
}.

Definition cacheViewLowerName (s : bytes) : bytes := tolower <$> s.

Definition isBlank (c : Z) : bool := (c =? 32) || (c =? 9).

Definition cacheEntryTypeFromText (text : bytes) : option Z :=
  let trimmed := trim_by isBlank text in
  if bool_decide (trimmed = []) then None
  else
    let lower := cacheViewLowerName trimmed in
    if bytes_eqb lower (lit "a") then Some kTypeA
    else if bytes_eqb lower (lit "aaaa") then Some kTypeAaaa else None.

Definition cacheEntryTypeText (q : Z) : bytes :=
  if q =? kTypeA then lit "A" else if q =? kTypeAaaa then lit "AAAA" else lit "type " ++ dec q.

(** [strstr] looks at what [c_str] shows of the filter. *)
Definition cacheEntryMatches (name : option bytes) (q : Z) (query : CacheEntryQuery) : bool :=
  if negb (qQtype query =? 0) && negb (q =? qQtype query) then false
  else if bool_decide (qName query = []) then true
  else match name with
       | None => false
       | Some nm => bool_decide (is_Some (find_sub (c_str (qName query)) nm))
       end.

Definition cacheViewClampLimit (limit : nat) : nat :=
  if (limit =? 0)%nat then kCacheViewPageSize
  else if (kCacheViewMaxPageSize <? limit)%nat then kCacheViewMaxPageSize else limit.

Definition cacheViewPageCount (total limit : nat) : nat :=
  if (limit =? 0)%nat then 1%nat
  else let pages := ((total + limit - 1) / limit)%nat in if (pages =? 0)%nat then 1%nat else pages.

Definition cacheViewPageNumber (offset limit : nat) : nat :=
  if (limit =? 0)%nat then 1%nat else (offset / limit + 1)%nat.

Definition fillEntryView (ignore : bool) (now : Z) (n : Node) : CacheEntryView :=
  let age := elapsedMs now (storedMs n) / 1000 in
  mkView (name n) (qtype n) (take (Nat.min (nA n) kMaxA) (a4 n)) (take (Nat.min (nAAAA n) kMaxAAAA) (a6 n))
    (ttl n) (if ttl n <=? age then 0 else ttl n - age) age (uses n)
    (negb ignore && negb (ttl n =? 0) && (ttl n <=? age)).

(** One turn of the walk: matched so far, scanned so far, the page. *)
Definition viewStep (ignore : bool) (now : Z) (query : CacheEntryQuery) (off lim : nat)
    (acc : nat * nat * list CacheEntryView) (n : Node) : nat * nat * list CacheEntryView :=
  let '(matched, seen, page) := acc in
  if bool_decide (name n = []) then acc
  else if negb (cacheEntryMatches (Some (name n)) (qtype n) query) then (matched, S seen, page)
  else (S matched, S seen,
        if (off <=? matched)%nat && (length page <? lim)%nat then page ++ [fillEntryView ignore now n] else page).

Definition entriesView (query : CacheEntryQuery) (now : Z) (c : Cache) : run CacheEntryPage :=
  match arena c with
  | None => mret (mkPage false 0 0 0 0 [])
  | Some p =>
      let lim := cacheViewClampLimit (qLimit query) in
      let off := qOffset query in
      all ← walkAll p;
      let '(matched, seen, page) :=
        foldl (λ acc idx, viewStep (ignoreTtl c) now query off lim acc (nodeAt (nodes p) (Z.to_nat idx)))
          (0%nat, 0%nat, []) all in
      mret (mkPage true matched off lim seen page)
  end.

(** ** A page is a slice *)

Definition shown (query : CacheEntryQuery) (n : Node) : bool :=
  negb (bool_decide (name n = [])) && cacheEntryMatches (Some (name n)) (qtype n) query.

Lemma slice_snoc {A} (l : list A) x off lim :
  take lim (drop off (l ++ [x])) =
    (if (off <=? length l)%nat && (length (take lim (drop off l)) <? lim)%nat
     then take lim (drop off l) ++ [x] else take lim (drop off l)).
Proof.
  rewrite length_take, length_drop. destruct (Nat.leb_spec off (length l)) as [Ho|Ho]; cbn [andb].
  - rewrite drop_app_le by done. destruct (Nat.ltb_spec (Nat.min lim (length l - off)) lim).
    + rewrite !take_ge; [done|rewrite length_drop; lia|rewrite length_app, length_drop; cbn; lia].
    + rewrite take_app_le; [done|]. rewrite length_drop. lia.
  - rewrite (drop_ge l), drop_ge; [done|rewrite length_app; cbn; lia|lia].
Qed.

Lemma foldl_fmap_step {B} (f : B → Node → B) ns l : ∀ acc,
  foldl (λ acc idx, f acc (nodeAt ns (Z.to_nat idx))) acc (Z.of_nat <$> l) =
  foldl f acc (nodeAt ns <$> l).
Proof. induction l as [|i l IH]; intros acc; cbn; [done|]. by rewrite Nat2Z.id, IH. Qed.

Lemma view_fold ignore now query off lim ns done_ : 
  let step := viewStep ignore now query off lim in
  let slice l := take lim (drop off (fillEntryView ignore now <$> l)) in
  let ok := List.filter (shown query) in
  foldl step (length (ok done_), length (List.filter (λ n, negb (bool_decide (name n = []))) done_), slice (ok done_)) ns =
    (length (ok (done_ ++ ns)), length (List.filter (λ n, negb (bool_decide (name n = []))) (done_ ++ ns)),
     slice (ok (done_ ++ ns))).
Proof.
  cbv zeta. revert done_. induction ns as [|n ns IH]; intros done_; cbn [foldl]; [by rewrite app_nil_r|].
  specialize (IH (done_ ++ [n])). rewrite <- (app_assoc done_ [n] ns) in IH. cbn [app] in IH.
  rewrite <- IH. f_equal. unfold viewStep. rewrite !List.filter_app. cbn [List.filter].
  change (shown query n) with (negb (bool_decide (name n = [])) &&
    cacheEntryMatches (Some (name n)) (qtype n) query).
  destruct (bool_decide (name n = [])) eqn:En; cbn [negb andb].
  { by rewrite !app_nil_r. }
  destruct (cacheEntryMatches (Some (name n)) (qtype n) query); cbn [negb].
  - rewrite !length_app. cbn [length]. rewrite !Nat.add_1_r. f_equal.
    rewrite fmap_app. cbn [fmap list_fmap]. rewrite slice_snoc, length_fmap. done.
  - rewrite !app_nil_r, length_app. cbn [length]. by rewrite Nat.add_1_r.
Qed.

(** The pages of the cache view are slices of one list: there is an order
    of the cache's records such that every query, at every offset and page size,
    is answered with the matching records of that order from the offset on, at
    most two hundred of them, together with how many match in all; so paging
    through shows each matching record exactly once. *)
Theorem view_pages c cap M now : Refines c cap M →
  ∃ ns, (λ n, (keyOf n, recOf n)) <$> ns ≡ₚ map_to_list M ∧ ∀ query, 
    let ok := List.filter (shown query) ns in
    let lim := cacheViewClampLimit (qLimit query) in
    entriesView query now c = Done (mkPage true (length ok) (qOffset query) lim
      (length (List.filter (λ n, negb (bool_decide (name n = []))) ns))
      (take lim (drop (qOffset query) (fillEntryView (ignoreTtl c) now <$> ok)))) ∧
    (1 <= lim <= 200)%nat.
Proof.
  intros (p & Ha & (chains & free & Hh) & _ & _).
  exists (nodeAt (nodes p) <$> concat chains). split.
  { rewrite (holds_map _ _ _ _ Hh), <- list_fmap_compose.
    symmetry. apply map_to_list_to_map. apply (holds_nodup _ _ _ _ Hh). }
  intros query. cbv zeta. split.
  - unfold entriesView. rewrite Ha, (CachePersist.walkAll_spec _ _ _ _ Hh), run_bind_done.
    pose proof (view_fold (ignoreTtl c) now query (qOffset query) (cacheViewClampLimit (qLimit query))
      (nodeAt (nodes p) <$> concat chains) []) as E. cbv zeta in E. cbn [List.filter length app fmap list_fmap] in E.
    rewrite drop_nil, take_nil in E.
    rewrite (foldl_fmap_step (viewStep (ignoreTtl c) now query (qOffset query)
      (cacheViewClampLimit (qLimit query))) (nodes p)), E. done.
  - unfold cacheViewClampLimit, kCacheViewPageSize, kCacheViewMaxPageSize.
    destruct (Nat.eqb_spec (qLimit query) 0); [lia|]. destruct (Nat.ltb_spec 200 (qLimit query)); lia.
Qed.

Lemma view_pages_witness : ∃ ns, (λ n, (keyOf n, recOf n)) <$> ns ≡ₚ map_to_list (∅ : gmap key Rec) ∧ ∀ query,
    let ok := List.filter (shown query) ns in
    let lim := cacheViewClampLimit (qLimit query) in
    entriesView query 5 small = Done (mkPage true (length ok) (qOffset query) lim
      (length (List.filter (λ n, negb (bool_decide (name n = []))) ns))
      (take lim (drop (qOffset query) (fillEntryView (ignoreTtl small) 5 <$> ok)))) ∧
    (1 <= lim <= 200)%nat.
Proof. apply (view_pages small 2 ∅ 5 small_refines). Defined.

End CacheView.
