(* ===== verification/TimeMath.v ===== *)
(** * Calendar arithmetic

    src/time/TimeMath.cpp: the days-from-civil algorithm in both directions, the
    validation, the text form, the countdown; against a calendar that counts days
    one year and one month at a time. *)
From S2P Require Import Prelude.
#[local] Open Scope Z_scope.

Module TimeMath.

Definition kMinYear : Z := 1970.
Definition kMaxYear : Z := 2100.
Definition kMonthsPerYear : Z := 12.
Definition kMaxHour : Z := 23.
Definition kMaxMinute : Z := 59.
Definition kMaxSecond : Z := 59.
Definition kSecondsPerMinute : Z := 60.
Definition kSecondsPerHour : Z := 3600.
Definition kSecondsPerDay : Z := 86400.

Record DateTime := mkDate { year : Z; month : Z; day : Z; hour : Z; minute : Z; second : Z }.

#[export] Instance DateTime_eq_dec : EqDecision DateTime.
Proof. solve_decision. Defined.

(** [int] division truncates; [unsigned] arithmetic wraps. *)
Definition daysFromCivil (year month day : Z) : Z :=
  let year := year - (if month <=? 2 then 1 else 0) in
  let era := Z.quot (if 0 <=? year then year else year - 399) 400 in
  let yoe := u32 (year - era * 400) in
  let doy := u32 (u32 (153 * u32 (month + (if 2 <? month then -3 else kMonthsPerYear - 3)) + 2) / 5 + day - 1) in
  let doe := u32 (yoe * 365 + yoe / 4 - yoe / 100 + doy) in
  era * 146097 + doe - 719468.

Definition civilFromDays (days : Z) : Z * Z * Z :=
  let days := days + 719468 in
  let era := Z.quot (if 0 <=? days then days else days - 146096) 146097 in
  let doe := u32 (days - era * 146097) in
  let yoe := u32 (doe - doe / 1460 + doe / 36524 - doe / 146096) / 365 in
  let y := yoe + era * 400 in
  let doy := u32 (doe - u32 (365 * yoe + yoe / 4 - yoe / 100)) in
  let mp := u32 (5 * doy + 2) / 153 in
  let day := u32 (doy - u32 (153 * mp + 2) / 5 + 1) in
  let month := u32 (mp + (if mp <? 10 then 3 else -9)) in
  (y + (if month <=? 2 then 1 else 0), month, day).

Definition isLeapYear (y : Z) : bool :=
  ((Z.rem y 4 =? 0) && negb (Z.rem y 100 =? 0)) || (Z.rem y 400 =? 0).

Definition kDays : list Z := [31; 28; 31; 30; 31; 30; 31; 31; 30; 31; 30; 31].

Definition daysInMonth (y m : Z) : Z :=
  if (m <? 1) || (kMonthsPerYear <? m) then 0
  else if (m =? 2) && isLeapYear y then 29
  else nth (Z.to_nat (m - 1)) kDays 0.

Definition isValidDate (y m d : Z) : bool :=
  if (y <? kMinYear) || (kMaxYear <? y) then false
  else let dim := daysInMonth y m in negb (dim =? 0) && (1 <=? d) && (d <=? dim).

Definition isValidTime (h mi s : Z) : bool :=
  (0 <=? h) && (h <=? kMaxHour) && (0 <=? mi) && (mi <=? kMaxMinute) && (0 <=? s) && (s <=? kMaxSecond).

(** [parseDigits] on the characters from a position on. *)
Fixpoint parseDigits (text : bytes) (count : nat) (value : Z) : option Z :=
  match count, text with
  | O, _ => Some value
  | S n, ch :: text' => if (ch <? 48) || (57 <? ch) then None else parseDigits text' n (value * 10 + (ch - 48))
  | S _, [] => None
  end.

Definition at_ (i : nat) (text : bytes) : Z := nth i text 0.

Definition digitsAt (i count : nat) (text : bytes) : option Z := parseDigits (drop i text) count 0.

Definition parseDateTime (text : bytes) : option DateTime :=
  let len := length text in
  if negb (len =? 16)%nat && negb (len =? 19)%nat then None
  else if negb (at_ 4 text =? 45) || negb (at_ 7 text =? 45) then None
  else if negb (at_ 10 text =? 32) && negb (at_ 10 text =? 84) then None
  else if negb (at_ 13 text =? 58) then None
  else if (len =? 19)%nat && negb (at_ 16 text =? 58) then None
  else
    y ← digitsAt 0 4 text;
    mo ← digitsAt 5 2 text;
    d ← digitsAt 8 2 text;
    h ← digitsAt 11 2 text;
    mi ← digitsAt 14 2 text;
    s ← (if (len =? 19)%nat then digitsAt 17 2 text else Some 0);
    if isValidDate y mo d && isValidTime h mi s then Some (mkDate y mo d h mi s) else None.

Definition toUnixSec (dt : DateTime) : Z :=
  u32 (daysFromCivil (year dt) (month dt) (day dt) * kSecondsPerDay + hour dt * kSecondsPerHour +
       minute dt * kSecondsPerMinute + second dt).

(** The argument is unsigned, so the correction for a negative remainder of the
    source is never taken; it is kept. *)
Definition fromUnixSec (unixSec : Z) : DateTime :=
  let days := Z.quot unixSec kSecondsPerDay in
  let rem := Z.rem unixSec kSecondsPerDay in
  let '(days, rem) := if rem <? 0 then (days - 1, rem + kSecondsPerDay) else (days, rem) in
  let '(y, m, d) := civilFromDays days in
  mkDate y m d (Z.quot rem kSecondsPerHour) (Z.quot (Z.rem rem kSecondsPerHour) kSecondsPerMinute)
    (Z.rem rem kSecondsPerMinute).

(** ["%0<w>d"]. *)
Definition padded (w : nat) (z : Z) : bytes :=
  let digits := dec (Z.abs z) in
  let sign := if z <? 0 then [45] else [] in
  sign ++ replicate (w - length sign - length digits) 48 ++ digits.

Definition kIsoTextBytes : nat := 32.

Definition format (dt : DateTime) : bytes :=
  take (kIsoTextBytes - 1)
    (padded 4 (year dt) ++ [45] ++ padded 2 (month dt) ++ [45] ++ padded 2 (day dt) ++ [32] ++
     padded 2 (hour dt) ++ [58] ++ padded 2 (minute dt) ++ [58] ++ padded 2 (second dt)).

Definition remainingSec (nowSec startSec periodSec : Z) : Z :=
  if periodSec =? 0 then 0
  else
    let elapsedSec := u32 (nowSec - startSec) in
    if periodSec <=? elapsedSec then 0 else u32 (periodSec - elapsedSec).

(** ** The calendar, counted *)

Definition yearDays (y : Z) : Z := if isLeapYear y then 366 else 365.

(** Days from 1970-01-01: whole years, whole months, days. *)
Fixpoint daysOfYears (k : nat) : Z :=
  match k with O => 0 | S k' => daysOfYears k' + yearDays (kMinYear + Z.of_nat k') end.
Fixpoint daysOfMonths (y : Z) (k : nat) : Z :=
  match k with O => 0 | S k' => daysOfMonths y k' + daysInMonth y (Z.of_nat k' + 1) end.
Definition calendarDays (y m d : Z) : Z :=
  daysOfYears (Z.to_nat (y - kMinYear)) + daysOfMonths y (Z.to_nat (m - 1)) + (d - 1).

Definition isValid (dt : DateTime) : bool :=
  isValidDate (year dt) (month dt) (day dt) && isValidTime (hour dt) (minute dt) (second dt).

(** [P] of [a], [a + 1], ... for [n] values. *)
Fixpoint all_from (P : Z → bool) (n : nat) (a : Z) : bool :=
  match n with O => true | S n' => P a && all_from P n' (a + 1) end.

Lemma all_from_spec P n a : all_from P n a = true → ∀ z, a <= z < a + Z.of_nat n → P z = true.
Proof.
  revert a. induction n as [|n IH]; intros a; cbn [all_from]; [lia|].
  intros [Ha Hr]%andb_true_iff z Hz. destruct (decide (z = a)) as [->|]; [done|].
  apply (IH _ Hr). lia.
Qed.

(** ** The algorithm without machine words *)

(** The first day of a year of the era, the length of that year (it ends with
    February, so it is long when the next calendar year is a leap year), and the
    first day of a month of the year. *)
Definition firstDay (yoe : Z) : Z := 365 * yoe + yoe / 4 - yoe / 100.
Definition lengthOf (yoe : Z) : Z := if isLeapYear (yoe + 1) then 366 else 365.
Definition startOf (mp : Z) : Z := (153 * mp + 2) / 5.
Definition monthLen (mp : Z) : Z := nth (Z.to_nat mp) [31; 30; 31; 30; 31; 31; 30; 31; 30; 31; 31; 29] 0.

(** The year count of [civilFromDays] before its division by 365. *)
Definition leapless (doe : Z) : Z := doe - doe / 1460 + doe / 36524 - doe / 146096.

Lemma leapless_step z : 0 <= z < 146096 → leapless z <= leapless (z + 1).
Proof. unfold leapless. intros. zdm. Qed.

Lemma leapless_mono a b : 0 <= a <= b → b <= 146096 → leapless a <= leapless b.
Proof.
  intros Ha Hb. assert (H : ∀ k : nat, a + Z.of_nat k <= 146096 → leapless a <= leapless (a + Z.of_nat k)).
  { induction k as [|k IH]; intros Hk; [by rewrite Z.add_0_r|].
    replace (a + Z.of_nat (S k)) with (a + Z.of_nat k + 1) by lia.
    etrans; [apply IH; lia|]. apply leapless_step. lia. }
  specialize (H (Z.to_nat (b - a))). replace (a + Z.of_nat (Z.to_nat (b - a))) with b in H by lia. auto.
Qed.

Lemma years_ok : all_from (λ yoe, (leapless (firstDay yoe) / 365 =? yoe) &&
  (leapless (firstDay yoe + lengthOf yoe - 1) / 365 =? yoe) &&
  (firstDay yoe + lengthOf yoe =? if yoe =? 399 then 146097 else firstDay (yoe + 1))) 400 0 = true.
Proof. vm_compute. reflexivity. Qed.

Lemma month_of_day : all_from (λ doy, let mp := (5 * doy + 2) / 153 in
  (0 <=? mp) && (mp <=? 11) && (startOf mp <=? doy) && (doy - startOf mp <? monthLen mp)) 366 0 = true.
Proof. vm_compute. reflexivity. Qed.

Lemma day_of_month : all_from (λ mp, all_from (λ d, (5 * (startOf mp + d) + 2) / 153 =? mp)
  (Z.to_nat (monthLen mp)) 0) 12 0 = true.
Proof. vm_compute. reflexivity. Qed.

Lemma year_spec yoe : 0 <= yoe < 400 →
  leapless (firstDay yoe) / 365 = yoe ∧ leapless (firstDay yoe + lengthOf yoe - 1) / 365 = yoe ∧
  firstDay yoe + lengthOf yoe = (if yoe =? 399 then 146097 else firstDay (yoe + 1)) ∧
  0 <= firstDay yoe ∧ firstDay yoe + lengthOf yoe <= 146097 ∧ (lengthOf yoe = 365 ∨ lengthOf yoe = 366).
Proof.
  intros H. pose proof (all_from_spec _ _ _ years_ok yoe ltac:(lia)) as Hy. cbv beta in Hy.
  apply andb_true_iff in Hy as [[H1%Z.eqb_eq H2%Z.eqb_eq]%andb_true_iff H3%Z.eqb_eq].
  split; [done|]. split; [done|]. split; [done|].
  assert (lengthOf yoe = 365 ∨ lengthOf yoe = 366) by (unfold lengthOf; destruct (isLeapYear _); auto).
  clear H1 H2. split; [unfold firstDay; clear -H; zdm|]. split; [|done]. rewrite H3.
  destruct (Z.eqb_spec yoe 399) as [|Hne]; [lia|]. unfold firstDay. clear -H Hne. zdm.
Qed.

Lemma year_found yoe doy : 0 <= yoe < 400 → 0 <= doy < lengthOf yoe →
  leapless (firstDay yoe + doy) / 365 = yoe.
Proof.
  intros Hy Hd. destruct (year_spec yoe Hy) as (H1 & H2 & _ & H0 & H4 & _).
  pose proof (leapless_mono (firstDay yoe) (firstDay yoe + doy) ltac:(lia) ltac:(lia)).
  pose proof (leapless_mono (firstDay yoe + doy) (firstDay yoe + lengthOf yoe - 1) ltac:(lia) ltac:(lia)).
  apply Z.le_antisymm; [rewrite <- H2 at 2|rewrite <- H1 at 1]; apply Z.div_le_mono; lia.
Qed.

(** Every day of an era belongs to a year of it. *)
Lemma year_exists doe : 0 <= doe < 146097 → ∃ yoe, 0 <= yoe < 400 ∧ 0 <= doe - firstDay yoe < lengthOf yoe.
Proof.
  intros H. assert (Hk : ∀ k : nat, (k <= 400)%nat → doe < (if (k =? 400)%nat then 146097 else firstDay (Z.of_nat k)) →
    ∃ yoe, 0 <= yoe < 400 ∧ 0 <= doe - firstDay yoe < lengthOf yoe).
  { induction k as [|k IH]; intros Hk Hlt; [change (doe < 0) in Hlt; lia|].
    destruct (year_spec (Z.of_nat k) ltac:(lia)) as (_ & _ & H3 & _).
    destruct (Z_lt_le_dec doe (firstDay (Z.of_nat k))) as [Hl|Hl].
    - apply IH; [lia|]. destruct (Nat.eqb_spec k 400); lia.
    - exists (Z.of_nat k). split; [lia|].
      destruct (Nat.eqb_spec (S k) 400), (Z.eqb_spec (Z.of_nat k) 399); try lia.
      rewrite Nat2Z.inj_succ in Hlt. unfold Z.succ in Hlt. lia. }
  apply (Hk 400%nat); [lia|]. cbn. lia.
Qed.

Lemma month_spec doy : 0 <= doy < 366 → let mp := (5 * doy + 2) / 153 in
  0 <= mp <= 11 ∧ 0 <= doy - startOf mp < monthLen mp.
Proof.
  intros H mp. pose proof (all_from_spec _ _ _ month_of_day doy ltac:(lia)) as Hm. cbv beta zeta in Hm.
  fold mp in Hm. apply andb_true_iff in Hm as [[[H1 H2]%andb_true_iff H3]%andb_true_iff H4].
  apply Z.leb_le in H1, H2, H3. apply Z.ltb_lt in H4. lia.
Qed.

Lemma month_found mp d : 0 <= mp <= 11 → 0 <= d < monthLen mp → (5 * (startOf mp + d) + 2) / 153 = mp.
Proof.
  intros Hm Hd. pose proof (all_from_spec _ _ _ day_of_month mp ltac:(lia)) as H. cbv beta in H.
  pose proof (all_from_spec _ _ _ H d ltac:(lia)) as H'. by apply Z.eqb_eq in H'.
Qed.

(** [civilFromDays] of a day given by its era, year and day of the year. *)
Lemma civil_spec era yoe doy : 0 <= era → 0 <= yoe < 400 → 0 <= doy < lengthOf yoe →
  let mp := (5 * doy + 2) / 153 in
  civilFromDays (era * 146097 + firstDay yoe + doy - 719468) =
    (yoe + era * 400 + (if mp <? 10 then 0 else 1), (if mp <? 10 then mp + 3 else mp - 9),
     doy - startOf mp + 1).
Proof.
  intros He Hy Hd mp. destruct (year_spec yoe Hy) as (_ & _ & _ & H0 & H4 & Hlen).
  destruct (month_spec doy ltac:(lia)) as [Hm Hday]. fold mp in Hm, Hday.
  unfold civilFromDays. cbv zeta. replace (_ - 719468 + 719468) with (era * 146097 + (firstDay yoe + doy)) by lia.
  set (doe := firstDay yoe + doy) in *.
  destruct (Z.leb_spec 0 (era * 146097 + doe)); [|lia]. rewrite Z.quot_div_nonneg by lia.
  replace ((era * 146097 + doe) / 146097) with era by zdm.
  replace (era * 146097 + doe - era * 146097) with doe by lia.
  rewrite (u32_small doe) by (word_unfold; lia). fold (leapless doe).
  assert (Hll : 0 <= leapless doe <= 146096) by (unfold leapless; zdm).
  rewrite (u32_small (leapless doe)) by (word_unfold; lia).
  unfold doe. rewrite year_found by done. fold (firstDay yoe).
  rewrite (u32_small (firstDay yoe)) by (word_unfold; lia).
  replace (firstDay yoe + doy - firstDay yoe) with doy by lia.
  rewrite (u32_small doy), (u32_small (5 * doy + 2)) by (word_unfold; lia). fold mp.
  rewrite (u32_small (153 * mp + 2)) by (word_unfold; lia). fold (startOf mp).
  assert (Hml : monthLen mp <= 31).
  { assert (Hc : mp = 0 ∨ mp = 1 ∨ mp = 2 ∨ mp = 3 ∨ mp = 4 ∨ mp = 5 ∨ mp = 6 ∨ mp = 7 ∨ mp = 8 ∨ mp = 9 ∨
      mp = 10 ∨ mp = 11) by lia. repeat destruct Hc as [-> | Hc]; try (vm_compute; congruence).
    rewrite Hc. vm_compute. congruence. }
  rewrite (u32_small (doy - startOf mp + 1)) by (word_unfold; lia).
  destruct (Z.ltb_spec mp 10).
  - rewrite u32_small by (word_unfold; lia). destruct (Z.leb_spec (mp + 3) 2); [lia|]. done.
  - rewrite u32_small by (word_unfold; lia). destruct (Z.leb_spec (mp + -9) 2); [|lia]. done.
Qed.

Lemma valid_date_spec y m d : isValidDate y m d = true →
  1970 <= y <= 2100 ∧ 1 <= m <= 12 ∧ 1 <= d <= daysInMonth y m.
Proof.
  unfold isValidDate, kMinYear, kMaxYear.
  destruct (Z.ltb_spec y 1970); [done|]. destruct (Z.ltb_spec 2100 y); [done|]. cbn [orb].
  intros [[Hne H1]%andb_true_iff H2]%andb_true_iff. apply Z.leb_le in H1, H2.
  split; [lia|]. split; [|lia]. unfold daysInMonth, kMonthsPerYear in *.
  destruct (Z.ltb_spec m 1); [done|]. destruct (Z.ltb_spec 12 m); [done|]. lia.
Qed.

(** [daysFromCivil] in the same terms. *)
Lemma days_spec y m d : 1 <= m <= 12 → 1 <= d <= 31 → 1 <= y < 2 ^ 31 →
  let y' := if m <=? 2 then y - 1 else y in
  let mp := if 2 <? m then m - 3 else m + 9 in
  daysFromCivil y m d = (y' / 400) * 146097 + firstDay (y' mod 400) + (startOf mp + d - 1) - 719468.
Proof.
  intros Hm Hd Hy y' mp. unfold daysFromCivil. cbv zeta.
  replace (y - (if m <=? 2 then 1 else 0)) with y' by (unfold y'; destruct (m <=? 2); lia).
  assert (Hy' : 0 <= y' < 2 ^ 31) by (unfold y'; destruct (m <=? 2); lia).
  assert (Hmp : 0 <= mp <= 11) by (unfold mp; destruct (Z.ltb_spec 2 m); lia).
  destruct (Z.leb_spec 0 y'); [|lia]. rewrite Z.quot_div_nonneg by lia.
  replace (y' - y' / 400 * 400) with (y' mod 400) by zdm.
  assert (Hyoe : 0 <= y' mod 400 < 400) by zdm. set (yoe := y' mod 400) in *.
  replace (m + (if 2 <? m then -3 else kMonthsPerYear - 3)) with mp
    by (unfold mp, kMonthsPerYear; destruct (2 <? m); lia).
  rewrite (u32_small yoe), (u32_small mp), (u32_small (153 * mp + 2)) by (word_unfold; lia).
  fold (startOf mp). assert (Hs : 0 <= startOf mp <= 337) by (unfold startOf; clear -Hmp; zdm).
  rewrite (u32_small (startOf mp + d - 1)) by (word_unfold; lia).
  destruct (year_spec yoe Hyoe) as (_ & _ & _ & H0 & H4 & Hlen).
  replace (yoe * 365 + yoe / 4 - yoe / 100 + (startOf mp + d - 1)) with (firstDay yoe + (startOf mp + d - 1))
    by (unfold firstDay; lia).
  rewrite u32_small by (word_unfold; lia). lia.
Qed.

Lemma leap_periodic y k : 0 <= y → 0 <= k → isLeapYear (y + 400 * k) = isLeapYear y.
Proof.
  intros Hy Hk. unfold isLeapYear. rewrite !Z.rem_mod_nonneg by lia.
  replace ((y + 400 * k) mod 4) with (y mod 4) by zdm.
  replace ((y + 400 * k) mod 100) with (y mod 100) by zdm.
  by replace ((y + 400 * k) mod 400) with (y mod 400) by zdm.
Qed.

Lemma month_cases m (P : Z → Prop) : P 1 → P 2 → P 3 → P 4 → P 5 → P 6 → P 7 → P 8 → P 9 → P 10 → P 11 →
  P 12 → 1 <= m <= 12 → P m.
Proof.
  intros. assert (Hc : m = 1 ∨ m = 2 ∨ m = 3 ∨ m = 4 ∨ m = 5 ∨ m = 6 ∨ m = 7 ∨ m = 8 ∨ m = 9 ∨ m = 10 ∨
    m = 11 ∨ m = 12) by lia. repeat destruct Hc as [-> | Hc]; try done. by rewrite Hc.
Qed.

(** The months of a year, in the order of the calendar and of the era. *)
Lemma daysInMonth_bound y m : 1 <= m <= 12 → let mp := if 2 <? m then m - 3 else m + 9 in
  0 < daysInMonth y m <= monthLen mp ∧
  (daysInMonth y m = monthLen mp ∨ (m = 2 ∧ isLeapYear y = false ∧ daysInMonth y m = 28)).
Proof.
  intros Hm. unfold daysInMonth. destruct (isLeapYear y);
    apply (month_cases m); try exact Hm; vm_compute; intuition congruence.
Qed.

Lemma startOf_bound k : 0 <= k <= 9 → 0 <= startOf k <= 275.
Proof. unfold startOf. intros. zdm. Qed.

(** Both directions on a valid date. *)
Lemma civil_days y m d : isValidDate y m d = true → civilFromDays (daysFromCivil y m d) = (y, m, d).
Proof.
  intros (Hy & Hm & Hd)%valid_date_spec. pose proof (daysInMonth_bound y m Hm) as [Hb Hl]. cbv zeta in Hb, Hl.
  set (mp := if 2 <? m then m - 3 else m + 9) in *.
  set (y' := if m <=? 2 then y - 1 else y).
  assert (Hmp : 0 <= mp <= 11) by (unfold mp; destruct (Z.ltb_spec 2 m); lia).
  assert (Hy' : 0 <= y') by (unfold y'; destruct (m <=? 2); lia).
  assert (Hml : monthLen mp <= 31).
  { unfold mp. apply (month_cases m); try exact Hm; vm_compute; congruence. }
  rewrite days_spec by lia. fold mp y'.
  assert (Hyoe : 0 <= y' mod 400 < 400) by (clear -Hy'; zdm).
  assert (Hdoy : 0 <= startOf mp + d - 1 < lengthOf (y' mod 400)).
  { destruct (year_spec _ Hyoe) as (_ & _ & _ & _ & _ & Hlen).
    unfold mp in *. destruct (Z.ltb_spec 2 m).
    - pose proof (startOf_bound (m - 3) ltac:(lia)). lia.
    - assert (Hm12 : m = 1 ∨ m = 2) by lia. destruct Hm12 as [-> | ->].
      + change (startOf (1 + 9)) with 306. lia.
      + change (startOf (2 + 9)) with 337. change (monthLen (2 + 9)) with 29 in *.
        destruct Hl as [Hl|(_ & Hleap & Hl)]; [|lia].
        assert (Hleap : isLeapYear y = true).
        { unfold daysInMonth in Hl. cbn in Hl. by destruct (isLeapYear y). }
        unfold lengthOf. unfold y' in *. cbn in Hyoe |- *.
        rewrite <- (leap_periodic ((y - 1) mod 400 + 1) ((y - 1) / 400)) by zdm.
        replace ((y - 1) mod 400 + 1 + 400 * ((y - 1) / 400)) with y by zdm. rewrite Hleap. lia. }
  rewrite (civil_spec (y' / 400) (y' mod 400)) by (done || (clear -Hy'; zdm)).
  replace (startOf mp + d - 1) with (startOf mp + (d - 1)) by lia. rewrite month_found by lia.
  assert (Hsum : y' mod 400 + y' / 400 * 400 = y') by (clear -Hy'; zdm). rewrite Hsum.
  unfold mp, y'. destruct (Z.ltb_spec 2 m), (Z.leb_spec m 2); try lia.
  - destruct (Z.ltb_spec (m - 3) 10); [|lia]. repeat f_equal; lia.
  - destruct (Z.ltb_spec (m + 9) 10); [lia|]. repeat f_equal; lia.
Qed.

(** The algorithm's months follow each other as the calendar's do. *)
Lemma steps_ok : all_from (λ y, all_from (λ m, daysFromCivil y (m + 1) 1 =? daysFromCivil y m 1 + daysInMonth y m) 11 1 &&
  (daysFromCivil (y + 1) 1 1 =? daysFromCivil y 1 1 + yearDays y)) 131 1970 = true.
Proof. vm_compute. reflexivity. Qed.

Lemma days_calendar y m d : isValidDate y m d = true → daysFromCivil y m d = calendarDays y m d.
Proof.
  intros (Hy & Hm & Hd)%valid_date_spec. pose proof (daysInMonth_bound y m Hm) as [Hb _]. cbv zeta in Hb.
  assert (Hd31 : 1 <= d <= 31).
  { assert (monthLen (if 2 <? m then m - 3 else m + 9) <= 31); [|lia].
    apply (month_cases m); try exact Hm; vm_compute; congruence. }
  assert (HY : ∀ k : nat, (k <= 131)%nat → daysFromCivil (1970 + Z.of_nat k) 1 1 = daysOfYears k).
  { induction k as [|k IH]; intros Hk; [done|]. cbn [daysOfYears]. rewrite <- IH by lia.
    pose proof (all_from_spec _ _ _ steps_ok (1970 + Z.of_nat k) ltac:(lia)) as H. cbv beta in H.
    apply andb_true_iff in H as [_ H%Z.eqb_eq]. unfold kMinYear. rewrite <- H. f_equal. lia. }
  assert (HM : ∀ k : nat, (k <= 11)%nat → daysFromCivil y (Z.of_nat k + 1) 1 =
    daysFromCivil y 1 1 + daysOfMonths y k).
  { induction k as [|k IH]; intros Hk; [cbn [daysOfMonths]; change (Z.of_nat 0 + 1) with 1; lia|].
    cbn [daysOfMonths]. rewrite Z.add_assoc, <- IH by lia.
    pose proof (all_from_spec _ _ _ steps_ok y ltac:(lia)) as H. cbv beta in H.
    apply andb_true_iff in H as [H _].
    pose proof (all_from_spec _ _ _ H (Z.of_nat k + 1) ltac:(lia)) as H'. cbv beta in H'.
    apply Z.eqb_eq in H'. rewrite <- H'. f_equal. lia. }
  specialize (HY (Z.to_nat (y - 1970)) ltac:(lia)). specialize (HM (Z.to_nat (m - 1)) ltac:(lia)).
  replace (1970 + Z.of_nat (Z.to_nat (y - 1970))) with y in HY by lia.
  replace (Z.of_nat (Z.to_nat (m - 1)) + 1) with m in HM by lia.
  unfold calendarDays, kMinYear. rewrite <- HY, <- HM. rewrite !days_spec by lia. lia.
Qed.

Lemma valid_date_range y m d : isValidDate y m d = true → 0 <= daysFromCivil y m d <= 47847.
Proof.
  intros H. pose proof H as (Hy & Hm & Hd)%valid_date_spec.
  pose proof (daysInMonth_bound y m Hm) as [Hb _]. cbv zeta in Hb.
  set (mp := if 2 <? m then m - 3 else m + 9) in *.
  assert (Hml : monthLen mp <= 31) by (unfold mp; apply (month_cases m); try exact Hm; vm_compute; congruence).
  rewrite days_spec by lia. fold mp. set (y' := if m <=? 2 then y - 1 else y).
  assert (Hy' : 1969 <= y' <= 2100 ∧ (y' = 1969 → 10 <= mp) ∧ (y' = 2100 → mp <= 9)).
  { unfold y', mp. destruct (Z.leb_spec m 2), (Z.ltb_spec 2 m); lia. }
  assert (Hmp : 0 <= mp <= 11) by (unfold mp; destruct (Z.ltb_spec 2 m); lia).
  unfold firstDay, startOf. clearbody y' mp. clear -Hy' Hmp Hd Hb Hml. zdm.
Qed.

Lemma valid_time_spec h mi s : isValidTime h mi s = true → 0 <= h <= 23 ∧ 0 <= mi <= 59 ∧ 0 <= s <= 59.
Proof.
  unfold isValidTime, kMaxHour, kMaxMinute, kMaxSecond. intros H.
  repeat (apply andb_true_iff in H as [H ?]). lia.
Qed.

(** [toUnixSec] counts the calendar: for every valid date and time it
    is the number of days of all whole years since 1970 and all whole months of
    the year, and the seconds of the day, without overflow; and [fromUnixSec] takes
    it back to the same date and time. *)
Theorem unix_roundtrip dt : isValid dt = true →
  toUnixSec dt = calendarDays (year dt) (month dt) (day dt) * 86400 + hour dt * 3600 + minute dt * 60 + second dt ∧
  toUnixSec dt < 2 ^ 32 ∧ fromUnixSec (toUnixSec dt) = dt.
Proof.
  unfold isValid. intros [Hd Ht]%andb_true_iff.
  pose proof (days_calendar _ _ _ Hd) as E1. pose proof (civil_days _ _ _ Hd) as E2.
  pose proof (valid_date_range _ _ _ Hd) as Hr. apply valid_time_spec in Ht as (Hh & Hm & Hs).
  destruct dt as [y mo d h mi s]. cbn [year month day hour minute second] in *.
  unfold toUnixSec, kSecondsPerDay, kSecondsPerHour, kSecondsPerMinute. cbn [year month day hour minute second].
  rewrite E1 in *. set (n := calendarDays y mo d) in *. clearbody n. clear E1 Hd.
  rewrite u32_small by (word_unfold; lia). split; [done|]. split; [lia|].
  unfold fromUnixSec, kSecondsPerDay, kSecondsPerHour, kSecondsPerMinute.
  rewrite Z.quot_div_nonneg, Z.rem_mod_nonneg by lia.
  replace ((n * 86400 + h * 3600 + mi * 60 + s) / 86400) with n by zdm.
  replace ((n * 86400 + h * 3600 + mi * 60 + s) mod 86400) with (h * 3600 + mi * 60 + s) by zdm.
  destruct (Z.ltb_spec (h * 3600 + mi * 60 + s) 0); [lia|]. rewrite E2.
  rewrite !Z.rem_mod_nonneg, !Z.quot_div_nonneg by zdm. f_equal; zdm.
Qed.

(** Every 32-bit timestamp is a real date and time and is recovered
    from it, [toUnixSec (fromUnixSec s) = s], over the whole [uint32_t] range, six
    years past the last supported one. *)
Theorem seconds_roundtrip s : is_u32 s →
  toUnixSec (fromUnixSec s) = s ∧ 1 <= month (fromUnixSec s) <= 12 ∧
  1 <= day (fromUnixSec s) <= 31 ∧
  isValidTime (hour (fromUnixSec s)) (minute (fromUnixSec s)) (second (fromUnixSec s)) = true.
Proof.
  intros Hs. unfold is_u32 in Hs. unfold fromUnixSec, kSecondsPerDay, kSecondsPerHour, kSecondsPerMinute.
  rewrite Z.quot_div_nonneg, Z.rem_mod_nonneg by lia.
  assert (Hr : 0 <= s mod 86400 < 86400) by zdm. destruct (Z.ltb_spec (s mod 86400) 0); [lia|].
  set (z := s / 86400 + 719468). assert (Hz : 719468 <= z <= 769179) by (unfold z; clear -Hs; zdm).
  replace (s / 86400) with (z - 719468) by (unfold z; lia).
  destruct (year_exists (z mod 146097) ltac:(clear; zdm)) as (yoe & Hy & Hdoy).
  set (doy := z mod 146097 - firstDay yoe) in *. set (era := z / 146097).
  assert (Hera : 4 <= era <= 5) by (unfold era; clear -Hz; zdm).
  replace (z - 719468) with (era * 146097 + firstDay yoe + doy - 719468) by (unfold doy, era; clear; zdm).
  rewrite (civil_spec era yoe doy) by lia.
  destruct (year_spec yoe Hy) as (_ & _ & _ & _ & _ & Hlen).
  destruct (month_spec doy ltac:(lia)) as [Hmp Hd]. cbv zeta in *. set (mp := (5 * doy + 2) / 153) in *.
  assert (Hml : monthLen mp <= 31).
  { replace mp with (mp + 1 - 1) by lia. apply (month_cases (mp + 1) (λ k, monthLen (k - 1) <= 31));
      try lia; vm_compute; congruence. }
  cbn [year month day hour minute second].
  split; [|split; [destruct (Z.ltb_spec mp 10); lia|split; [lia|]]].
  - unfold toUnixSec, kSecondsPerDay, kSecondsPerHour, kSecondsPerMinute. cbn [year month day hour minute second].
    assert (E : daysFromCivil (yoe + era * 400 + (if mp <? 10 then 0 else 1)) (if mp <? 10 then mp + 3 else mp - 9)
      (doy - startOf mp + 1) = z - 719468).
    { rewrite days_spec by (destruct (Z.ltb_spec mp 10); lia).
      replace (z - 719468) with (era * 146097 + firstDay yoe + doy - 719468) by (unfold doy, era; clear; zdm).
      destruct (Z.ltb_spec mp 10).
      - destruct (Z.leb_spec (mp + 3) 2), (Z.ltb_spec 2 (mp + 3)); try lia.
        replace ((yoe + era * 400 + 0) / 400) with era by (clear -Hy; zdm).
        replace ((yoe + era * 400 + 0) mod 400) with yoe by (clear -Hy; zdm).
        replace (mp + 3 - 3) with mp by lia. lia.
      - destruct (Z.leb_spec (mp - 9) 2), (Z.ltb_spec 2 (mp - 9)); try lia.
        replace ((yoe + era * 400 + 1 - 1) / 400) with era by (clear -Hy; zdm).
        replace ((yoe + era * 400 + 1 - 1) mod 400) with yoe by (clear -Hy; zdm).
        replace (mp - 9 + 9) with mp by lia. lia. }
    rewrite E. unfold z. clear -Hs Hr. rewrite !Z.rem_mod_nonneg, !Z.quot_div_nonneg by zdm.
    rewrite u32_small; [zdm|]. word_unfold. zdm.
  - clear -Hr. rewrite !Z.rem_mod_nonneg, !Z.quot_div_nonneg by zdm.
    unfold isValidTime, kMaxHour, kMaxMinute, kMaxSecond. rewrite !andb_true_iff, !Z.leb_le. zdm.
Qed.

Lemma unix_roundtrip_witness :
  let dt := mkDate 2024 2 29 23 59 59 in
  toUnixSec dt = calendarDays 2024 2 29 * 86400 + 23 * 3600 + 59 * 60 + 59 ∧
  toUnixSec dt < 2 ^ 32 ∧ fromUnixSec (toUnixSec dt) = dt.
Proof. intros dt. apply (unix_roundtrip dt). reflexivity. Defined.

Lemma seconds_roundtrip_witness :
  toUnixSec (fromUnixSec 4294967295) = 4294967295 ∧ 1 <= month (fromUnixSec 4294967295) <= 12 ∧
  1 <= day (fromUnixSec 4294967295) <= 31 ∧
  isValidTime (hour (fromUnixSec 4294967295)) (minute (fromUnixSec 4294967295))
    (second (fromUnixSec 4294967295)) = true.
Proof. apply seconds_roundtrip. word_unfold. lia. Defined.

(** ** The text form *)

Lemma parseDigits_app s : ∀ t v, parseDigits (s ++ t) (length s) v = parseDigits s (length s) v.
Proof.
  induction s as [|c s IH]; intros t v; cbn [parseDigits length app]; [by destruct t|].
  destruct ((c <? 48) || (57 <? c)); [done|apply IH].
Qed.

Lemma two_digits z : 0 <= z < 60 → ∃ a b, padded 2 z = [a; b] ∧
  ∀ t, parseDigits (a :: b :: t) 2 0 = Some z.
Proof.
  intros Hz. assert (H : all_from (λ z, match padded 2 z with
    [a; b] => bool_decide (parseDigits [a; b] 2 0 = Some z) | _ => false end) 60 0 = true)
    by (vm_compute; reflexivity).
  pose proof (all_from_spec _ _ _ H z ltac:(lia)) as Hp. cbv beta in Hp. clear H.
  destruct (padded 2 z) as [|a [|b [|]]]; try done. exists a, b. split; [done|]. intros t.
  apply bool_decide_eq_true in Hp. rewrite <- Hp. apply (parseDigits_app [a; b]).
Qed.

Lemma four_digits y : 1970 <= y <= 2100 → ∃ a b c d, padded 4 y = [a; b; c; d] ∧
  ∀ t, parseDigits (a :: b :: c :: d :: t) 4 0 = Some y.
Proof.
  intros Hy. assert (H : all_from (λ z, match padded 4 z with
    [a; b; c; d] => bool_decide (parseDigits [a; b; c; d] 4 0 = Some z) | _ => false end) 131 1970 = true)
    by (vm_compute; reflexivity).
  pose proof (all_from_spec _ _ _ H y ltac:(lia)) as Hp. cbv beta in Hp. clear H.
  destruct (padded 4 y) as [|a [|b [|c [|d [|]]]]]; try done. exists a, b, c, d. split; [done|]. intros t.
  apply bool_decide_eq_true in Hp. rewrite <- Hp. apply (parseDigits_app [a; b; c; d]).
Qed.

(** The text form is faithful: a valid date and time is read back from
    its text, and whatever text is accepted is a valid date and time. *)
Theorem parse_format :
  (∀ dt, isValid dt = true → parseDateTime (format dt) = Some dt) ∧
  ∀ text dt, parseDateTime text = Some dt → isValid dt = true ∧ (length text = 16 ∨ length text = 19)%nat.
Proof.
  split.
  - intros [y mo d h mi s]. unfold isValid. cbn [year month day hour minute second]. intros Hv.
    pose proof Hv as [Hd Ht]%andb_true_iff.
    pose proof Hd as (Hy & Hm & Hdd)%valid_date_spec. apply valid_time_spec in Ht as (Hh & Hmi & Hs).
    pose proof (daysInMonth_bound y mo Hm) as [Hb _]. cbv zeta in Hb.
    assert (monthLen (if 2 <? mo then mo - 3 else mo + 9) <= 31)
      by (apply (month_cases mo); try exact Hm; vm_compute; congruence).
    destruct (four_digits y Hy) as (y1 & y2 & y3 & y4 & Ey & Py).
    destruct (two_digits mo ltac:(lia)) as (m1 & m2 & Em & Pm).
    destruct (two_digits d ltac:(lia)) as (d1 & d2 & Ed & Pd).
    destruct (two_digits h ltac:(lia)) as (h1 & h2 & Eh & Ph).
    destruct (two_digits mi ltac:(lia)) as (i1 & i2 & Ei & Pi).
    destruct (two_digits s ltac:(lia)) as (s1 & s2 & Es & Ps).
    unfold format. cbn [year month day hour minute second]. rewrite Ey, Em, Ed, Eh, Ei, Es.
    cbn [app take kIsoTextBytes Nat.sub]. unfold parseDateTime, digitsAt, at_. cbn [length nth drop].
    cbn [Nat.eqb negb andb orb]. change (45 =? 45) with true. change (32 =? 32) with true.
    change (58 =? 58) with true. cbn [negb andb orb].
    rewrite Py, Pm, Pd, Ph, Pi, Ps. cbn [mbind option_bind]. by rewrite Hv.
  - intros text dt. unfold parseDateTime. cbv zeta.
    destruct (Nat.eqb_spec (length text) 16), (Nat.eqb_spec (length text) 19); cbn [negb andb]; try done.
    all: repeat (match goal with |- context [if ?b then None else _] => destruct b; [done|] end).
    all: intros H; repeat (apply bind_Some in H as (? & _ & H)).
    all: match type of H with (if ?b then _ else _) = _ => destruct b eqn:E end; [|done].
    all: injection H as <-; unfold isValid; cbn; split; [done|lia].
Qed.

(** The countdown is the time left and survives the turnover of the
    seconds counter: [e] seconds after the start it is [periodSec - e], and zero
    from the end of the period on. *)
Theorem countdown start e period : 0 <= e < 2 ^ 32 → is_u32 period →
  remainingSec (u32 (start + e)) start period = Z.max 0 (period - e).
Proof.
  intros He Hp. unfold remainingSec. destruct (Z.eqb_spec period 0); [lia|].
  replace (u32 (u32 (start + e) - start)) with e by (unfold u32; clear -He; zdm).
  destruct (Z.leb_spec period e); [lia|]. rewrite u32_small; [lia|]. word_unfold. lia.
Qed.

Lemma countdown_witness : remainingSec (u32 (4294967290 + 10)) 4294967290 60 = Z.max 0 (60 - 10).
Proof. apply countdown; word_unfold; lia. Defined.

End TimeMath.
