(* ===== verification/Subnet.v ===== *)
(** * Subnets, the own-subnet filter and the text of an address

    src/core/Subnet.cpp, src/core/SubnetFilter.cpp, src/core/IpText.h and
    src/web/PeerAddress.h: masks as contiguous bits, the fail-open filter, and
    the two readings of a peer's bytes. *)
From S2P Require Import Prelude.
#[local] Open Scope Z_scope.

Module Subnet.

Definition kIpv4Octets : Z := 4.
Definition kOctetMax : Z := 255.
Definition kMaxOctetDigits : Z := 3.

Definition isSpace (c : Z) : bool := (c =? 32) || (c =? 9).

Definition isDigit (c : Z) : bool := (48 <=? c) && (c <=? 57).

(** The digits of one part: its value, how many digits, and what follows;
    nothing when the part is refused half way. *)
Fixpoint octet (s : bytes) (value digits : Z) : option (Z * Z * bytes) :=
  match s with
  | c :: s' =>
      if isDigit c then
        let value := value * 10 + (c - 48) in
        let digits := digits + 1 in
        if (kMaxOctetDigits <? digits) || (kOctetMax <? value) then None else octet s' value digits
      else Some (value, digits, s)
  | [] => Some (value, digits, [])
  end.

(** The loop over the parts; every turn consumes a digit, so the length of the
    text bounds the turns. *)
Fixpoint parts (fuel : nat) (s : bytes) (part addr : Z) : option Z :=
  match fuel with
  | O => None
  | S f =>
      o ← octet s 0 0;
      let '(value, digits, rest) := o in
      if digits =? 0 then None
      else if kIpv4Octets <=? part then None
      else
        let addr := Z.lor addr (u32 (Z.shiftl value (8 * (kIpv4Octets - 1 - part)))) in
        let part := part + 1 in
        match rest with
        | [] => if part =? kIpv4Octets then Some addr else None
        | c :: rest' =>
            if negb (c =? 46) then None
            else match rest' with [] => None | _ :: _ => parts f rest' part addr end
        end
  end.

Definition parseIp4 (text : bytes) : option Z :=
  let s := trim_by isSpace text in
  if bool_decide (s = []) then None else parts (length s) s 0 0.

Definition isValidMask (mask : Z) : bool :=
  let inv := u32 (Z.lnot mask) in Z.land inv (u32 (inv + 1)) =? 0.

Definition network (addr mask : Z) : Z := Z.land addr mask.

Definition contains (net mask addr : Z) : bool :=
  if (mask =? 0) || negb (isValidMask mask) then false
  else Z.land addr mask =? Z.land net mask.

(** A 32-bit word has at most 32 trailing zeros. *)
Fixpoint hostBits_loop (fuel : nat) (m bits : Z) : Z :=
  match fuel with
  | O => bits
  | S f => if negb (m =? 0) && (Z.land m 1 =? 0) then hostBits_loop f (Z.shiftr m 1) (bits + 1) else bits
  end.
Definition hostBits (mask : Z) : Z := hostBits_loop 32 mask 0.

Definition maskFromPrefix (prefixLen : Z) : Z :=
  if (prefixLen <? 0) || (32 <? prefixLen) then 0
  else if prefixLen =? 0 then 0 else u32 (Z.shiftl 4294967295 (32 - prefixLen)).

Definition prefixLength (mask : Z) : Z := if isValidMask mask then 32 - hostBits mask else -1.

Definition octetOf (addr k : Z) : Z := Z.land (Z.shiftr addr (8 * k)) 255.

Definition toString (addr : Z) : bytes :=
  dec (octetOf addr 3) ++ [46] ++ dec (octetOf addr 2) ++ [46] ++ dec (octetOf addr 1) ++ [46] ++ dec (octetOf addr 0).

(** ** The filter *)

Record Settings := mkSettings { enabled : bool; deviceIp : bytes; netmask : bytes }.

Record Filter := mkFilter {
  enabled_ : bool; valid_ : bool; network_ : Z; mask_ : Z; deviceIp_ : bytes; netmask_ : bytes
}.

Definition apply (cfg : Settings) : Filter :=
  let off := mkFilter (enabled cfg) false 0 0 (deviceIp cfg) (netmask cfg) in
  if negb (enabled cfg) then off
  else
    match parseIp4 (deviceIp cfg), parseIp4 (netmask cfg) with
    | Some addr, Some mask =>
        if negb (addr =? 0) && (negb (mask =? 0) && isValidMask mask)
        then mkFilter (enabled cfg) true (network addr mask) mask (deviceIp cfg) (netmask cfg)
        else off
    | _, _ => off
    end.

Definition active (f : Filter) : bool := enabled_ f && valid_ f.

Definition allows (f : Filter) (client : Z) : bool :=
  if negb (active f) then true else contains (network_ f) (mask_ f) client.

Definition enabledText (f : Filter) : bytes :=
  lit "Own-subnet filter enabled: " ++ toString (network_ f) ++ lit "/" ++ dec (prefixLength (mask_ f)).

(** ** The peer of a connection *)

Definition ip4HostOrder (b : bytes) : Z :=
  Z.lor (Z.lor (Z.lor (Z.shiftl (nth 0 b 0) 24) (Z.shiftl (nth 1 b 0) 16)) (Z.shiftl (nth 2 b 0) 8)) (nth 3 b 0).

Definition ip4Text (b : bytes) : bytes :=
  dec (nth 0 b 0) ++ [46] ++ dec (nth 1 b 0) ++ [46] ++ dec (nth 2 b 0) ++ [46] ++ dec (nth 3 b 0).

(** The eight groups of an IPv6 address. *)
Definition groupsOf (b : bytes) : list Z :=
  (λ i, u16 (Z.lor (u16 (Z.shiftl (nth (2 * i) b 0) 8)) (nth (2 * i + 1) b 0))) <$> seq 0 8.

(** The search for the longest run of zero groups: (best start, best length, run
    start), [-1] for none; the turn after the last group closes a run. *)
Definition zeroRun_step (groups : list Z) (acc : Z * Z * Z) (i : nat) : Z * Z * Z :=
  let '(bestStart, bestLen, runStart) := acc in
  if (i <? 8)%nat && (nth i groups 0 =? 0) then
    (bestStart, bestLen, if runStart <? 0 then Z.of_nat i else runStart)
  else if 0 <=? runStart then
    let len := Z.of_nat i - runStart in
    if bestLen <? len then (runStart, len, -1) else (bestStart, bestLen, -1)
  else acc.

Definition zeroRun (groups : list Z) : Z * Z :=
  let '(bestStart, bestLen, _) := foldl (zeroRun_step groups) (-1, 0, -1) (seq 0 9) in
  (if bestLen <? 2 then -1 else bestStart, bestLen).

Definition hexDigit (d : Z) : Z := if d <? 10 then 48 + d else 87 + d.

(** ["%x"] of a 16-bit value. *)
Definition hexText (v : Z) : bytes :=
  let d3 := v / 4096 mod 16 in let d2 := v / 256 mod 16 in
  let d1 := v / 16 mod 16 in let d0 := v mod 16 in
  drop (if 0 <? d3 then 0 else if 0 <? d2 then 1 else if 0 <? d1 then 2 else 3)
    (hexDigit <$> [d3; d2; d1; d0]).

(** The writing loop; [i] jumps over the compressed run. *)
Fixpoint ip6_loop (fuel : nat) (groups : list Z) (bestStart bestLen i : Z) (out : bytes) : bytes :=
  match fuel with
  | O => out
  | S f =>
      if 8 <=? i then out
      else if i =? bestStart then ip6_loop f groups bestStart bestLen (i + (bestLen - 1) + 1) (out ++ lit "::")
      else
        let out := if negb (bool_decide (out = [])) && negb (bool_decide (last out = Some 58))
                   then out ++ [58] else out in
        ip6_loop f groups bestStart bestLen (i + 1) (out ++ hexText (nth (Z.to_nat i) groups 0))
  end.

Definition ip6Text (b : bytes) : bytes :=
  let groups := groupsOf b in
  let '(bestStart, bestLen) := zeroRun groups in
  ip6_loop 9 groups bestStart bestLen 0 [].

Record PeerAddress := mkPeer { ipv4 : bool; ipv4HostOrder : Z; text : bytes }.

Definition isV4Mapped (b : bytes) : bool :=
  forallb (λ c, c =? 0) (take 10 b) && (nth 10 b 0 =? 255) && (nth 11 b 0 =? 255).

Definition unknownPeer : PeerAddress := mkPeer false 0 (lit "unknown").

Definition fromIp4 (b : bytes) : PeerAddress :=
  if ip4HostOrder b =? 0 then unknownPeer else mkPeer true (ip4HostOrder b) (ip4Text b).

(** [bytes] is null ([None]) or the address as the socket reported it. *)
Definition peerAddressFromBytes (addr : option bytes) : PeerAddress :=
  match addr with
  | None => unknownPeer
  | Some b =>
      if (length b =? 4)%nat then fromIp4 b
      else if (length b =? 16)%nat then
        if isV4Mapped b then fromIp4 (drop 12 b) else mkPeer false 0 (ip6Text b)
      else unknownPeer
  end.

Example ip6_loopback : ip6Text (replicate 15 0 ++ [1]) = lit "::1".
Proof. vm_compute. reflexivity. Qed.

Example ip6_gap : ip6Text [32; 1; 13; 184; 0; 0; 0; 0; 0; 1; 0; 0; 0; 0; 0; 1] = lit "2001:db8::1:0:0:1".
Proof. vm_compute. reflexivity. Qed.

(** ** Masks *)

(** A number shares no bit with its successor only when it is [2^k - 1]. *)
Lemma ones_of_land (n : nat) i : 0 <= i < 2 ^ Z.of_nat n → Z.land i (i + 1) = 0 →
  ∃ k, 0 <= k <= Z.of_nat n ∧ i = 2 ^ k - 1.
Proof.
  revert i. induction n as [|n IH]; intros i Hi Hl.
  { exists 0. cbn in Hi. lia. }
  rewrite Nat2Z.inj_succ, Z.pow_succ_r in Hi by lia.
  apply (f_equal (λ z, Z.shiftr z 1)) in Hl. rewrite Z.shiftr_land, !Z.shiftr_div_pow2 in Hl by lia.
  change (2 ^ 1) with 2 in Hl. change (0 / 2) with 0 in Hl.
  destruct (Zeven_odd_dec i) as [He|Ho].
  - apply Zeven_div2 in He. rewrite Z.div2_div in He.
    replace ((i + 1) / 2) with (i / 2) in Hl by zdm. rewrite Z.land_diag in Hl. exists 0. cbn. lia.
  - apply Zodd_div2 in Ho. rewrite Z.div2_div in Ho.
    replace ((i + 1) / 2) with (i / 2 + 1) in Hl by zdm.
    destruct (IH (i / 2)) as (k & Hk & E); [zdm|done|]. exists (k + 1).
    rewrite Z.pow_add_r by lia. change (2 ^ 1) with 2. lia.
Qed.

Lemma mask_shape m : is_u32 m → isValidMask m = true ↔ ∃ k, 0 <= k <= 32 ∧ m = 2 ^ 32 - 2 ^ k.
Proof.
  intros Hm. unfold isValidMask. cbv zeta. rewrite Z.eqb_eq.
  assert (Hinv : u32 (Z.lnot m) = 2 ^ 32 - 1 - m) by (unfold Z.lnot; word_lia).
  rewrite Hinv. set (inv := 2 ^ 32 - 1 - m). assert (Hi : 0 <= inv < 2 ^ 32) by (unfold inv; word_lia).
  destruct (decide (inv = 2 ^ 32 - 1)) as [E|E].
  { split; [|intros _; by rewrite E]. intros _. exists 32. unfold inv in E. lia. }
  rewrite (u32_small (inv + 1)) by (word_unfold; lia). split.
  - intros H. destruct (ones_of_land 32 inv Hi H) as (k & Hk & Ek). exists k. unfold inv in Ek. lia.
  - intros (k & Hk & Ek). replace inv with (2 ^ k - 1) by (unfold inv; lia).
    replace (2 ^ k - 1 + 1) with (2 ^ k) by lia.
    replace (2 ^ k - 1) with (Z.ones k) by (rewrite Z.ones_equiv; lia).
    rewrite Z.land_comm, Z.land_ones by lia. apply Z_mod_same_full.
Qed.

(** Masking clears the host bits. *)
Lemma land_mask a k : is_u32 a → 0 <= k <= 32 → Z.land a (2 ^ 32 - 2 ^ k) = 2 ^ k * (a / 2 ^ k).
Proof.
  intros Ha Hk. replace (2 ^ 32 - 2 ^ k) with (Z.shiftl (Z.ones (32 - k)) k).
  2: { rewrite Z.shiftl_mul_pow2, Z.ones_equiv by lia. unfold Z.pred.
       rewrite Z.mul_add_distr_r, <- Z.pow_add_r by lia. replace (32 - k + k) with 32 by lia. lia. }
  rewrite Z.mul_comm, <- Z.shiftr_div_pow2, <- Z.shiftl_mul_pow2 by lia.
  apply Z.bits_inj'. intros n Hn. rewrite Z.land_spec, !Z.shiftl_spec by lia.
  destruct (Z_lt_le_dec n k); [rewrite !(Z.testbit_neg_r _ (n - k)) by lia; apply andb_false_r|].
  rewrite Z.shiftr_spec by lia. replace (n - k + k) with n by lia.
  rewrite Z.testbit_ones by lia. destruct (Z_lt_le_dec n 32) as [H|H].
  - destruct (Z.leb_spec 0 (n - k)), (Z.ltb_spec (n - k) (32 - k)); try lia. apply andb_true_r.
  - assert (Z.testbit a n = false) as ->; [|done]. unfold is_u32 in Ha.
    destruct (decide (a = 0)) as [->|]; [apply Z.testbit_0_l|].
    apply Z.bits_above_log2; [lia|]. apply Z.log2_lt_pow2; [lia|].
    eapply Z.lt_le_trans; [apply Ha|]. apply Z.pow_le_mono_r; lia.
Qed.

(** A mask is accepted exactly when its set bits are contiguous from the
    top, [/0] and [/32] included. *)
Theorem mask_contiguous m : is_u32 m →
  isValidMask m = true ↔ ∃ prefix, 0 <= prefix <= 32 ∧ m = 2 ^ 32 - 2 ^ (32 - prefix).
Proof.
  intros Hm. rewrite mask_shape by done. split; intros (k & Hk & E); exists (32 - k); split; try lia.
  by replace (32 - (32 - k)) with k by lia.
Qed.

Lemma contains_spec net m a k : 0 <= k < 32 → m = 2 ^ 32 - 2 ^ k → is_u32 net → is_u32 a →
  contains net m a = true ↔ a / 2 ^ k = net / 2 ^ k.
Proof.
  intros Hk -> Hn Ha. unfold contains.
  assert (Hpow : 0 < 2 ^ k < 2 ^ 32) by (split; [lia|apply Z.pow_lt_mono_r; lia]).
  rewrite (proj2 (mask_shape (2 ^ 32 - 2 ^ k) ltac:(unfold is_u32; lia))) by (exists k; split; [lia|done]).
  destruct (Z.eqb_spec (2 ^ 32 - 2 ^ k) 0); [lia|]. cbn [orb negb].
  rewrite Z.eqb_eq, !land_mask by (done || lia). split; [|by intros ->]. intros H. nia.
Qed.

(** ** Reading an address *)

Lemma octet_u32 s v d : 0 <= v <= 255 → ∀ v' d' r, octet s v d = Some (v', d', r) → 0 <= v' <= 255.
Proof.
  revert v d. induction s as [|c s IH]; intros v d Hv v' d' r; cbn [octet]; [by intros [= <- _ _]|].
  destruct (isDigit c) eqn:Ec; [|by intros [= <- _ _]]. cbv zeta.
  destruct (_ || _) eqn:E; [done|]. apply orb_false_iff in E as [_ E%Z.ltb_ge].
  unfold isDigit in Ec. apply andb_true_iff in Ec as [? ?]. unfold kOctetMax in E. apply IH. lia.
Qed.

Lemma log2_u32 a : is_u32 a → Z.log2 a < 32.
Proof.
  intros Ha. destruct (decide (a = 0)) as [->|]; [by cbn|]. apply Z.log2_lt_pow2; unfold is_u32 in Ha; lia.
Qed.

Lemma lor_u32 a b : is_u32 a → is_u32 b → is_u32 (Z.lor a b).
Proof.
  intros Ha Hb. assert (H0 : 0 <= Z.lor a b) by (apply Z.lor_nonneg; unfold is_u32 in *; lia).
  split; [done|]. destruct (decide (Z.lor a b = 0)) as [->|]; [lia|]. apply Z.log2_lt_pow2; [lia|].
  rewrite Z.log2_lor by (unfold is_u32 in *; lia). apply Z.max_lub_lt; by apply log2_u32.
Qed.

Lemma parts_u32 f : ∀ s part addr a, is_u32 addr → parts f s part addr = Some a → is_u32 a.
Proof.
  induction f as [|f IH]; intros s part addr a Ha; cbn [parts]; [done|].
  destruct (octet s 0 0) as [[[v d] r]|] eqn:Eo; [|done]. cbn [mbind option_bind].
  destruct (d =? 0); [done|]. destruct (kIpv4Octets <=? part); [done|].
  assert (Hl : is_u32 (Z.lor addr (u32 (Z.shiftl v (8 * (kIpv4Octets - 1 - part)))))).
  { apply lor_u32; [done|apply u32_range]. }
  destruct r as [|c [|c' r]].
  - destruct (_ =? _); [by intros [= <-]|done].
  - by destruct (negb _).
  - destruct (negb _); [done|]. by apply IH.
Qed.

Lemma parseIp4_u32 t a : parseIp4 t = Some a → is_u32 a.
Proof. unfold parseIp4. cbv zeta. destruct (bool_decide _); [done|]. apply parts_u32. word_unfold. lia. Qed.

(** The own-subnet filter either decides or lets everybody in. It
    decides exactly when it is switched on, the device address is a non-zero
    address and the mask a non-zero contiguous one, and then allows a client
    exactly when its network bits are the device's; in every other case it is
    inactive and allows every client. *)
Theorem filter_decides cfg :
  (∃ addr k, 0 <= k < 32 ∧ enabled cfg = true ∧ parseIp4 (deviceIp cfg) = Some addr ∧ addr ≠ 0 ∧
     parseIp4 (netmask cfg) = Some (2 ^ 32 - 2 ^ k) ∧ active (apply cfg) = true ∧
     ∀ client, is_u32 client → allows (apply cfg) client = true ↔ client / 2 ^ k = addr / 2 ^ k) ∨
  (active (apply cfg) = false ∧ (∀ client, allows (apply cfg) client = true) ∧
   (enabled cfg = false ∨ parseIp4 (deviceIp cfg) = None ∨ parseIp4 (deviceIp cfg) = Some 0 ∨
    ∀ k, 0 <= k < 32 → parseIp4 (netmask cfg) ≠ Some (2 ^ 32 - 2 ^ k))).
Proof.
  unfold apply. destruct (enabled cfg) eqn:Een; cbn [negb]; [|right; split; [done|split; [done|]]; by auto].
  destruct (parseIp4 (deviceIp cfg)) as [addr|] eqn:Ea; [|right; split; [done|split; [done|]]; by auto].
  destruct (parseIp4 (netmask cfg)) as [m|] eqn:Em.
  2: { right. split; [done|]. split; [done|]. right. right. right. by intros. }
  pose proof (parseIp4_u32 _ _ Ea) as Ha. pose proof (parseIp4_u32 _ _ Em) as Hm.
  destruct (Z.eqb_spec addr 0) as [->|Hne]; cbn [negb andb]; [right; split; [done|split; [done|]]; by auto|].
  destruct (Z.eqb_spec m 0) as [->|Hmne]; cbn [negb andb].
  { right. split; [done|]. split; [done|]. right. right. right. intros k Hk [= E].
    pose proof (Z.pow_lt_mono_r 2 k 32). lia. }
  destruct (isValidMask m) eqn:Ev.
  - left. destruct (proj1 (mask_shape m Hm) Ev) as (k & Hk & ->).
    assert (k ≠ 32) by (intros ->; lia). exists addr, k. do 5 (split; [done || lia|]). split; [done|].
    intros client Hc. unfold allows. cbn [active enabled_ valid_ andb negb network_ mask_]. unfold network.
    assert (Hp : 0 < 2 ^ k) by lia.
    assert (Hdiv : Z.land addr (2 ^ 32 - 2 ^ k) / 2 ^ k = addr / 2 ^ k).
    { rewrite land_mask by done. rewrite Z.mul_comm. apply Z.div_mul. lia. }
    rewrite (contains_spec _ _ _ k); [by rewrite Hdiv|lia|done| |done].
    rewrite land_mask by done. unfold is_u32 in *.
    split; [apply Z.mul_nonneg_nonneg; [lia|apply Z.div_pos; lia]|].
    pose proof (Z.mul_div_le addr (2 ^ k) Hp). lia.
  - right. split; [done|]. split; [done|]. right. right. right. intros k Hk [= E].
    rewrite (proj2 (mask_shape m Hm)) in Ev; [done|]. exists k. split; [lia|done].
Qed.

(** ** Printing an address *)

Lemma octet_dec_all : forallb (λ v, bool_decide (octet (dec v ++ [46]) 0 0 =
    Some (v, Z.of_nat (length (dec v)), [46])) &&
  bool_decide (octet (dec v) 0 0 = Some (v, Z.of_nat (length (dec v)), [])) &&
  (0 <? Z.of_nat (length (dec v))) && negb (existsb isSpace (dec v))) (seqZ 0 256) = true.
Proof. vm_compute. reflexivity. Qed.

Lemma octet_stop s : ∀ v d v' d' t, octet (s ++ [46]) v d = Some (v', d', [46]) →
  octet (s ++ 46 :: t) v d = Some (v', d', 46 :: t).
Proof.
  induction s as [|c s IH]; intros v d v' d' t; cbn [octet app].
  { change (isDigit 46) with false. cbv iota. by intros [= <- <-]. }
  destruct (isDigit c); [|by intros [= <- <- E]; destruct s].
  cbv zeta. destruct (_ || _); [done|]. apply IH.
Qed.

Lemma octet_dec v t : is_u8 v →
  octet (dec v ++ 46 :: t) 0 0 = Some (v, Z.of_nat (length (dec v)), 46 :: t) ∧
  octet (dec v) 0 0 = Some (v, Z.of_nat (length (dec v)), []) ∧ 0 < Z.of_nat (length (dec v)) ∧
  Forall (λ c, isSpace c = false) (dec v).
Proof.
  intros Hv. pose proof (u8_forallb _ octet_dec_all v Hv) as H. cbv beta in H.
  apply andb_true_iff in H as [[[H1%bool_decide_eq_true H2%bool_decide_eq_true]%andb_true_iff
    H3%Z.ltb_lt]%andb_true_iff H4%negb_true_iff].
  split; [by apply octet_stop|]. split; [done|]. split; [done|].
  apply Forall_forall. intros c Hc. destruct (isSpace c) eqn:E; [|done].
  assert (existsb isSpace (dec v) = true); [|congruence].
  apply existsb_exists. exists c. by rewrite <- list_elem_of_In.
Qed.

Lemma octetOf_u8 a k : is_u8 (octetOf a k).
Proof.
  unfold octetOf. change 255 with (Z.ones 8). rewrite Z.land_ones by lia. unfold is_u8.
  change (2 ^ 8) with 256. zdm.
Qed.

(** One turn of the loop on a printed part. *)
Lemma parts_dec f v t part addr : is_u8 v → 0 <= part < 4 → t ≠ [] →
  parts (S f) (dec v ++ 46 :: t) part addr =
    parts f t (part + 1) (Z.lor addr (u32 (Z.shiftl v (8 * (3 - part))))).
Proof.
  intros Hv Hp Ht. cbn [parts]. destruct (octet_dec v t Hv) as (-> & _ & H3 & _).
  cbn [mbind option_bind]. destruct (Z.eqb_spec (Z.of_nat (length (dec v))) 0); [lia|].
  unfold kIpv4Octets. destruct (Z.leb_spec 4 part); [lia|]. change (46 =? 46) with true. cbn [negb].
  destruct t; [done|]. by change (4 - 1) with 3.
Qed.

Lemma parts_last f v addr : is_u8 v → parts (S f) (dec v) 3 addr = Some (Z.lor addr v).
Proof.
  intros Hv. cbn [parts]. destruct (octet_dec v [] Hv) as (_ & -> & H3 & _).
  cbn [mbind option_bind]. destruct (Z.eqb_spec (Z.of_nat (length (dec v))) 0); [lia|].
  unfold kIpv4Octets. change (4 <=? 3) with false. change (8 * (4 - 1 - 3)) with 0.
  change (3 + 1 =? 4) with true. rewrite Z.shiftl_0_r, u32_small; [done|]. unfold is_u8, is_u32 in *. lia.
Qed.

Lemma dec_nonempty v : is_u8 v → dec v ≠ [].
Proof. intros Hv. destruct (octet_dec v [] Hv) as (_ & _ & H & _). by destruct (dec v). Qed.

Lemma octet_bit a k n : 0 <= k → 0 <= n →
  Z.testbit (Z.shiftl (octetOf a k) (8 * k)) n = if (8 * k <=? n) && (n <? 8 * k + 8) then Z.testbit a n else false.
Proof.
  intros Hk Hn. unfold octetOf. rewrite Z.shiftl_spec by lia.
  destruct (Z.leb_spec (8 * k) n); cbn [andb]; [|apply Z.testbit_neg_r; lia].
  rewrite Z.land_spec, Z.shiftr_spec by lia. replace (n - 8 * k + 8 * k) with n by lia.
  change 255 with (Z.ones 8). rewrite Z.testbit_ones by lia.
  destruct (Z.leb_spec 0 (n - 8 * k)), (Z.ltb_spec (n - 8 * k) 8), (Z.ltb_spec n (8 * k + 8)); try lia;
    cbn [andb]; by rewrite ?andb_true_r, ?andb_false_r.
Qed.

(** The four octets put back together. *)
Lemma octets_join a : is_u32 a →
  Z.lor (Z.lor (Z.lor (Z.lor 0 (u32 (Z.shiftl (octetOf a 3) (8 * 3)))) (u32 (Z.shiftl (octetOf a 2) (8 * 2))))
    (u32 (Z.shiftl (octetOf a 1) (8 * 1)))) (octetOf a 0) = a.
Proof.
  intros Ha. assert (Hs : ∀ k, 0 <= k <= 3 → u32 (Z.shiftl (octetOf a k) (8 * k)) = Z.shiftl (octetOf a k) (8 * k)).
  { intros k Hk. apply u32_small. pose proof (octetOf_u8 a k) as Ho. unfold is_u8, is_u32 in *.
    rewrite Z.shiftl_mul_pow2 by lia.
    pose proof (Z.pow_le_mono_r 2 (8 * k) 24 ltac:(lia) ltac:(lia)) as Hle.
    change (2 ^ 24) with 16777216 in Hle. assert (0 < 2 ^ (8 * k)) by (apply Z.pow_pos_nonneg; lia).
    change (2 ^ 32) with 4294967296. nia. }
  rewrite (Hs 3), (Hs 2), (Hs 1) by lia.
  replace (octetOf a 0) with (Z.shiftl (octetOf a 0) (8 * 0)) by apply Z.shiftl_0_r.
  apply Z.bits_inj'. intros n Hn. rewrite Z.lor_0_l, !Z.lor_spec, !octet_bit by lia.
  assert (Hhigh : 32 <= n → Z.testbit a n = false).
  { intros H. destruct (decide (a = 0)) as [->|]; [apply Z.testbit_0_l|].
    apply Z.bits_above_log2; [unfold is_u32 in Ha; lia|]. pose proof (log2_u32 a Ha). lia. }
  destruct (Z_lt_le_dec n 32) as [Hn32|Hn32]; [clear Hhigh|rewrite Hhigh by done];
  repeat match goal with |- context [?x <=? ?y] => destruct (Z.leb_spec x y) end;
    repeat match goal with |- context [?x <? ?y] => destruct (Z.ltb_spec x y) end; cbn [andb orb];
    try lia; by rewrite ?orb_false_r.
Qed.

(** The text of an address is read back as the address. *)
Theorem parse_toString a : is_u32 a → parseIp4 (toString a) = Some a.
Proof.
  intros Ha. unfold parseIp4, toString. cbn [app].
  set (s := dec (octetOf a 3) ++ 46 :: dec (octetOf a 2) ++ 46 :: dec (octetOf a 1) ++ 46 :: dec (octetOf a 0)).
  assert (Hall : Forall (λ c, isSpace c = false) s).
  { unfold s. rewrite !Forall_app, !Forall_cons, !Forall_app, !Forall_cons, !Forall_app, !Forall_cons.
    pose proof (λ k, proj2 (proj2 (proj2 (octet_dec (octetOf a k) [] (octetOf_u8 a k))))) as H. auto 10. }
  rewrite trim_by_id.
  2: { intros c t E. rewrite Forall_forall in Hall. apply Hall. rewrite E. by left. }
  2: { intros c t E. rewrite Forall_forall in Hall. apply Hall. rewrite E. apply elem_of_app. right. by left. }
  assert (Hl : (4 <= length s)%nat).
  { unfold s. rewrite !length_app. cbn [length]. rewrite !length_app. cbn [length]. rewrite !length_app. cbn [length].
    pose proof (λ k, dec_nonempty (octetOf a k) (octetOf_u8 a k)) as H.
    pose proof (H 3). pose proof (H 2). pose proof (H 1). pose proof (H 0).
    destruct (dec (octetOf a 3)), (dec (octetOf a 2)), (dec (octetOf a 1)), (dec (octetOf a 0)); cbn; try done; lia. }
  rewrite bool_decide_eq_false_2 by (destruct s; [cbn in Hl; lia|done]).
  destruct (length s) as [|[|[|[|f]]]]; try lia. unfold s. clear Hall Hl s.
  assert (Hd : ∀ k, dec (octetOf a k) ≠ []) by (intros k; apply dec_nonempty, octetOf_u8).
  rewrite parts_dec by (apply octetOf_u8 || lia || (intros [? _]%app_nil; by eapply Hd)).
  rewrite parts_dec by (apply octetOf_u8 || lia || (intros [? _]%app_nil; by eapply Hd)).
  rewrite parts_dec by (apply octetOf_u8 || lia || (by apply Hd)).
  change (0 + 1 + 1 + 1) with 3. rewrite parts_last by apply octetOf_u8. f_equal.
  by apply octets_join.
Qed.

(** A prefix length from 1 to 32 is recovered from its mask, but the
    mask of the empty prefix is reported as [/32]. *)
Theorem prefix_lengths : (∀ n, 1 <= n <= 32 → prefixLength (maskFromPrefix n) = n) ∧
  maskFromPrefix 0 = 0 ∧ prefixLength 0 = 32.
Proof.
  split; [|done]. intros n Hn.
  assert (H : forallb (λ n, prefixLength (maskFromPrefix n) =? n) (seqZ 1 32) = true) by (vm_compute; reflexivity).
  rewrite List.forallb_forall in H. apply Z.eqb_eq, H, list_elem_of_In, elem_of_seqZ. lia.
Qed.

Lemma mask_contiguous_witness : isValidMask 4294967040 = true ↔
  ∃ prefix, 0 <= prefix <= 32 ∧ 4294967040 = 2 ^ 32 - 2 ^ (32 - prefix).
Proof. apply mask_contiguous. word_unfold. lia. Defined.

Lemma parse_toString_witness : parseIp4 (toString 3232235777) = Some 3232235777.
Proof. apply parse_toString. word_unfold. lia. Defined.

End Subnet.
