(* ===== verification/AuthManager.v ===== *)
(** * HTTP Basic authentication with an attempt budget

    src/web/AuthManager.cpp: verification of an Authorization header, the failed
    attempts kept per client address, the lockout. *)
From S2P Require Import Prelude.
From stdpp Require Import gmap.
#[local] Open Scope Z_scope.

Module AuthManager.

Record SecurityConfig := mkSec { cfgUser : bytes; cfgPass : bytes; cfgMax : Z; cfgLockout : Z }.

Record FailedEntry := mkFailed { count : Z; firstAttemptTime : Z }.

Record Manager := mkManager {
  username_ : bytes;
  password_ : bytes;
  maxAttempts_ : Z;
  lockoutPeriodSec_ : Z;
  configLoaded_ : bool;
  failedAttempts_ : gmap bytes FailedEntry;
}.

(** The lines that reach the authorisation log. *)
Inductive Event :=
  | Login (ip : bytes) (failedBefore : Z)
  | FailedAttempt (ip : bytes) (attempt max : Z)
  | Lockout (ip : bytes) (seconds : Z).

Definition initial : Manager := mkManager (lit "admin") (lit "admin") 5 300 false ∅.

Definition set_failed (f : gmap bytes FailedEntry) (m : Manager) : Manager :=
  mkManager (username_ m) (password_ m) (maxAttempts_ m) (lockoutPeriodSec_ m) (configLoaded_ m) f.

Definition reloadConfig (sec : SecurityConfig) (m : Manager) : Manager :=
  mkManager (cfgUser sec) (cfgPass sec) (cfgMax sec) (cfgLockout sec) true (failedAttempts_ m).

Definition ensureConfigLoaded (sec : SecurityConfig) (m : Manager) : Manager :=
  if configLoaded_ m then m else reloadConfig sec m.

Definition kBasicPrefix : bytes := lit "Basic ".

Definition countsAsFailedAttempt (authHeader : bytes) : bool :=
  if (length authHeader <=? length kBasicPrefix)%nat then false else is_prefix kBasicPrefix authHeader.

Definition authLogWritesSuccess (fromLoginForm : bool) (failedBefore : Z) : bool :=
  fromLoginForm || (0 <? failedBefore).

Definition expiredEntry (now period : Z) (e : FailedEntry) : bool := period <? u32 (now - firstAttemptTime e).

Definition cleanupExpired (now : Z) (m : Manager) : Manager :=
  set_failed (filter (λ x, expiredEntry now (lockoutPeriodSec_ m) x.2 = false) (failedAttempts_ m)) m.

(** [const] in the source, but an expired entry is erased ([mutable]). *)
Definition isLockedOut (now : Z) (ip : bytes) (m : Manager) : bool * Manager :=
  match failedAttempts_ m !! ip with
  | None => (false, m)
  | Some e =>
      if expiredEntry now (lockoutPeriodSec_ m) e then (false, set_failed (delete ip (failedAttempts_ m)) m)
      else (maxAttempts_ m <=? count e, m)
  end.

Definition recordFailure (now : Z) (ip : bytes) (m : Manager) : Manager * list Event :=
  let e := default (mkFailed 0 0) (failedAttempts_ m !! ip) in
  let e := if count e =? 0 then mkFailed (count e) now else e in
  let e := mkFailed (u32 (count e + 1)) (firstAttemptTime e) in
  (set_failed (<[ip := e]> (failedAttempts_ m)) m,
   FailedAttempt ip (count e) (maxAttempts_ m) ::
   (if maxAttempts_ m <=? count e then [Lockout ip (lockoutPeriodSec_ m)] else [])).

Definition kDecodedBytes : nat := 256.

Section Verify.
(** [mbedtls_base64_decode] into the 256-byte buffer: the length it reports and
    what the buffer holds afterwards. *)
Context (decode : bytes → nat * bytes).

(** The string built from the buffer reads [decodedLen] bytes of it. *)
Definition bufferString (decodedLen : nat) (buffer : bytes) : run bytes :=
  if (kDecodedBytes <? decodedLen)%nat then OutOfBounds else mret (take decodedLen buffer).

(** [now] is the second the request is handled in: the three readings of the
    clock on the way through [verify] are taken to agree. *)
Definition verify (authHeader ip : bytes) (fromLoginForm : bool) (now : Z) (m : Manager)
  : run (bool * Manager * list Event) :=
  let m := cleanupExpired now m in
  let '(locked, m) := isLockedOut now ip m in
  if locked then mret (false, m, [])
  else if negb (countsAsFailedAttempt authHeader) then mret (false, m, [])
  else
    let failed := let '(m, ev) := recordFailure now ip m in mret (false, m, ev) in
    let '(decodedLen, buffer) := decode (drop (length kBasicPrefix) authHeader) in
    if (decodedLen =? 0)%nat then failed
    else
      credentials ← bufferString decodedLen buffer;
      match find_char 58 credentials with
      | None => failed
      | Some colonPos =>
          if bytes_eqb (take colonPos credentials) (username_ m) &&
             bytes_eqb (drop (S colonPos) credentials) (password_ m)
          then
            let failedBefore := match failedAttempts_ m !! ip with Some e => count e | None => 0 end in
            mret (true, set_failed (delete ip (failedAttempts_ m)) m,
                  if authLogWritesSuccess fromLoginForm failedBefore then [Login ip failedBefore] else [])
          else failed
      end.

Definition authenticate (authHeader ip : bytes) (now : Z) (m : Manager) := verify authHeader ip false now m.
Definition authenticateLogin (authHeader ip : bytes) (now : Z) (m : Manager) := verify authHeader ip true now m.

(** A sequence of requests: (header, address, login form, time). *)
Fixpoint session (rs : list (bytes * bytes * bool * Z)) (m : Manager) : run (list bool * Manager * list Event) :=
  match rs with
  | [] => mret ([], m, [])
  | (h, ip, form, now) :: rs' =>
      r ← verify h ip form now m;
      let '(ok, m, ev) := r in
      s ← session rs' m;
      let '(oks, m, evs) := s in
      mret (ok :: oks, m, ev ++ evs)
  end.

(** Whether a request is a guess with the right credentials. *)
Definition correct (m : Manager) (h : bytes) : Prop :=
  let '(n, buffer) := decode (drop (length kBasicPrefix) h) in
  ∃ pos, find_char 58 (take n buffer) = Some pos ∧ take pos (take n buffer) = username_ m ∧
    drop (S pos) (take n buffer) = password_ m.

Definition fits (h : bytes) : Prop := ((decode (drop (length kBasicPrefix) h)).1 <= kDecodedBytes)%nat.

(** The entry of an address as the next request sees it. *)
Definition entryAt (now : Z) (ip : bytes) (m : Manager) : option FailedEntry :=
  match failedAttempts_ m !! ip with
  | Some e => if expiredEntry now (lockoutPeriodSec_ m) e then None else Some e
  | None => None
  end.

Lemma cleanup_lookup now ip m : failedAttempts_ (cleanupExpired now m) !! ip = entryAt now ip m.
Proof.
  unfold cleanupExpired, entryAt. cbn. destruct (failedAttempts_ m !! ip) as [e|] eqn:E.
  - destruct (expiredEntry now (lockoutPeriodSec_ m) e) eqn:Ex.
    + apply map_lookup_filter_None. right. intros e' He'. rewrite E in He'. injection He' as <-. cbn. by rewrite Ex.
    + apply map_lookup_filter_Some. split; [done|]. cbn. exact Ex.
  - apply map_lookup_filter_None. by left.
Qed.

Lemma locked_after_cleanup now ip m : isLockedOut now ip (cleanupExpired now m) =
  (match entryAt now ip m with Some e => maxAttempts_ m <=? count e | None => false end, cleanupExpired now m).
Proof.
  unfold isLockedOut. rewrite cleanup_lookup. unfold entryAt.
  destruct (failedAttempts_ m !! ip) as [e|]; [|done].
  destruct (expiredEntry now (lockoutPeriodSec_ m) e) eqn:Ex; [done|].
  unfold cleanupExpired at 1. cbn [lockoutPeriodSec_ set_failed]. by rewrite Ex.
Qed.

(** What one request does, in terms of the client's entry. *)
Definition afterFailure (now : Z) (ip : bytes) (m : Manager) : FailedEntry :=
  let e := default (mkFailed 0 0) (entryAt now ip m) in
  mkFailed (u32 (count e + 1)) (if count e =? 0 then now else firstAttemptTime e).

Lemma verify_spec h ip form now m : fits h →
  verify h ip form now m =
    let c := cleanupExpired now m in
    if match entryAt now ip m with Some e => maxAttempts_ m <=? count e | None => false end
    then Done (false, c, [])
    else if negb (countsAsFailedAttempt h) then Done (false, c, [])
    else
      let n := (decode (drop (length kBasicPrefix) h)).1 in
      let credentials := take n (decode (drop (length kBasicPrefix) h)).2 in
      let good := negb (n =? 0)%nat && match find_char 58 credentials with
        | Some pos => bytes_eqb (take pos credentials) (username_ m) && bytes_eqb (drop (S pos) credentials) (password_ m)
        | None => false end in
      let before_ := match entryAt now ip m with Some e => count e | None => 0 end in
      if good then Done (true, set_failed (delete ip (failedAttempts_ c)) c,
                         if authLogWritesSuccess form before_ then [Login ip before_] else [])
      else let '(m, ev) := recordFailure now ip c in Done (false, m, ev).
Proof.
  intros Hf. unfold verify. rewrite locked_after_cleanup. cbv zeta. unfold fits in Hf.
  destruct (match entryAt now ip m with Some e => _ | None => _ end); [done|].
  destruct (negb (countsAsFailedAttempt h)); [done|].
  destruct (decode (drop (length kBasicPrefix) h)) as [n buffer]. cbn [fst snd] in *.
  destruct (Nat.eqb_spec n 0); cbn [negb andb]; [by destruct (recordFailure now ip (cleanupExpired now m))|].
  unfold bufferString. destruct (Nat.ltb_spec kDecodedBytes n); [lia|].
  unfold mret at 1, run_ret at 1. rewrite run_bind_done.
  destruct (find_char 58 (take n buffer)) as [pos|]; [|by destruct (recordFailure now ip (cleanupExpired now m))].
  change (username_ (cleanupExpired now m)) with (username_ m).
  change (password_ (cleanupExpired now m)) with (password_ m).
  destruct (bytes_eqb _ _ && bytes_eqb _ _).
  - by rewrite cleanup_lookup.
  - by destruct (recordFailure now ip (cleanupExpired now m)).
Qed.

Lemma entryAt_cleanup now ip m : entryAt now ip (cleanupExpired now m) = entryAt now ip m.
Proof.
  unfold entryAt at 1. rewrite cleanup_lookup. change (lockoutPeriodSec_ (cleanupExpired now m)) with (lockoutPeriodSec_ m).
  unfold entryAt. destruct (failedAttempts_ m !! ip) as [e|]; [|done].
  destruct (expiredEntry now (lockoutPeriodSec_ m) e) eqn:E; [done|]. by rewrite E.
Qed.

Lemma entryAt_insert now ip e ip' m : entryAt now ip' (set_failed (<[ip := e]> (failedAttempts_ m)) m) =
  if decide (ip = ip') then (if expiredEntry now (lockoutPeriodSec_ m) e then None else Some e)
  else entryAt now ip' m.
Proof.
  unfold entryAt. cbn. destruct (decide (ip = ip')) as [->|Hne].
  - by rewrite lookup_insert_eq.
  - by rewrite lookup_insert_ne.
Qed.

Lemma entryAt_delete now ip ip' m : entryAt now ip' (set_failed (delete ip (failedAttempts_ m)) m) =
  if decide (ip = ip') then None else entryAt now ip' m.
Proof.
  unfold entryAt. cbn. destruct (decide (ip = ip')) as [->|Hne].
  - by rewrite lookup_delete_eq.
  - by rewrite lookup_delete_ne.
Qed.

(** [recordFailure] on a manager without expired entries. *)
Lemma recordFailure_spec now ip m : let c := cleanupExpired now m in
  recordFailure now ip c =
    (set_failed (<[ip := afterFailure now ip m]> (failedAttempts_ c)) c,
     FailedAttempt ip (count (afterFailure now ip m)) (maxAttempts_ m) ::
     (if maxAttempts_ m <=? count (afterFailure now ip m) then [Lockout ip (lockoutPeriodSec_ m)] else [])).
Proof.
  cbv zeta. unfold recordFailure, afterFailure. rewrite cleanup_lookup.
  generalize (default (mkFailed 0 0) (entryAt now ip m)). intros e. cbv zeta.
  by destruct (count e =? 0).
Qed.

Lemma afterFailure_live now ip m : 0 <= lockoutPeriodSec_ m →
  expiredEntry now (lockoutPeriodSec_ m) (afterFailure now ip m) = false.
Proof.
  intros Hp. unfold afterFailure, expiredEntry. cbn [firstAttemptTime].
  assert (Hz : u32 (now - now) = 0) by (by rewrite Z.sub_diag).
  destruct (entryAt now ip m) as [e|] eqn:E; cbn [from_option id count].
  - destruct (count e =? 0); [apply Z.ltb_ge; lia|]. unfold entryAt in E.
    destruct (failedAttempts_ m !! ip) as [e'|]; [|done].
    destruct (expiredEntry now (lockoutPeriodSec_ m) e') eqn:Ex; [done|]. injection E as <-. exact Ex.
  - apply Z.ltb_ge. cbn. lia.
Qed.

Definition lockedAt (now : Z) (ip : bytes) (m : Manager) : bool :=
  match entryAt now ip m with Some e => maxAttempts_ m <=? count e | None => false end.

Definition rightCredentials (m : Manager) (h : bytes) : bool :=
  let n := (decode (drop (length kBasicPrefix) h)).1 in
  let credentials := take n (decode (drop (length kBasicPrefix) h)).2 in
  match find_char 58 credentials with
  | Some pos => bytes_eqb (take pos credentials) (username_ m) && bytes_eqb (drop (S pos) credentials) (password_ m)
  | None => false
  end.

Lemma verify_cases h ip form now m : fits h → 0 <= lockoutPeriodSec_ m →
  ∃ ok m' ev, verify h ip form now m = Done (ok, m', ev) ∧
    ok = negb (lockedAt now ip m) && countsAsFailedAttempt h && rightCredentials m h ∧
    (∀ ip', entryAt now ip' m' =
       if decide (ip = ip') then
         if lockedAt now ip m || negb (countsAsFailedAttempt h) then entryAt now ip m
         else if ok then None else Some (afterFailure now ip m)
       else entryAt now ip' m) ∧
    maxAttempts_ m' = maxAttempts_ m ∧ lockoutPeriodSec_ m' = lockoutPeriodSec_ m ∧
    username_ m' = username_ m ∧ password_ m' = password_ m.
Proof.
  intros Hf Hp. rewrite (verify_spec _ _ _ _ _ Hf). cbv zeta. fold (lockedAt now ip m).
  assert (Hkeep : ∀ ip', entryAt now ip' (cleanupExpired now m) =
    if decide (ip = ip') then entryAt now ip m else entryAt now ip' m).
  { intros ip'. rewrite entryAt_cleanup. by destruct (decide (ip = ip')) as [->|]. }
  destruct (lockedAt now ip m); cbn [negb andb orb].
  { eexists _, _, _; split; [done|]; split; [done|]; split; [exact Hkeep|done]. }
  destruct (countsAsFailedAttempt h); cbn [negb andb orb].
  2: { eexists _, _, _; split; [done|]; split; [done|]; split; [exact Hkeep|done]. }
  unfold rightCredentials. set (n := (decode (drop (length kBasicPrefix) h)).1).
  set (cr := take n (decode (drop (length kBasicPrefix) h)).2).
  assert (Hgood : negb (n =? 0)%nat && match find_char 58 cr with
      | Some pos => bytes_eqb (take pos cr) (username_ m) && bytes_eqb (drop (S pos) cr) (password_ m)
      | None => false end =
    match find_char 58 cr with
      | Some pos => bytes_eqb (take pos cr) (username_ m) && bytes_eqb (drop (S pos) cr) (password_ m)
      | None => false end).
  { destruct (Nat.eqb_spec n 0) as [E|]; [|done]. unfold cr. by rewrite E. }
  rewrite Hgood. destruct (match find_char 58 cr with Some pos => _ | None => false end).
  - eexists _, _, _. split; [done|]. split; [done|]. split; [|done]. intros ip'.
    rewrite entryAt_delete, entryAt_cleanup. done.
  - rewrite recordFailure_spec. eexists _, _, _. split; [done|]. split; [done|]. split; [|done]. intros ip'.
    rewrite entryAt_insert, entryAt_cleanup.
    change (lockoutPeriodSec_ (cleanupExpired now m)) with (lockoutPeriodSec_ m).
    by rewrite afterFailure_live.
Qed.


(** ** The attempt budget *)

(** The entry of [ip] while its window, opened at [first], lasts. *)
Lemma entryAt_window now ip m e : failedAttempts_ m !! ip = Some e →
  u32 (now - firstAttemptTime e) <= lockoutPeriodSec_ m → entryAt now ip m = Some e.
Proof. intros H Hw. unfold entryAt, expiredEntry. rewrite H. by rewrite (proj2 (Z.ltb_ge _ _) Hw). Qed.

(** A wrong guess, inside the window, of a client that has spent [j] attempts. *)
Lemma wrong_guess h ip form now m first j : fits h → 0 <= lockoutPeriodSec_ m → countsAsFailedAttempt h = true →
  rightCredentials m h = false → is_u32 (maxAttempts_ m) → 0 <= j <= maxAttempts_ m →
  u32 (now - first) <= lockoutPeriodSec_ m →
  entryAt now ip m = (if j =? 0 then None else Some (mkFailed j first)) → (j = 0 → first = now) →
  ∃ m' ev, verify h ip form now m = Done (false, m', ev) ∧
    maxAttempts_ m' = maxAttempts_ m ∧ lockoutPeriodSec_ m' = lockoutPeriodSec_ m ∧
    username_ m' = username_ m ∧ password_ m' = password_ m ∧
    (0 < maxAttempts_ m → failedAttempts_ m' !! ip = Some (mkFailed (Z.min (j + 1) (maxAttempts_ m)) first)).
Proof.
  intros Hf Hp Hc Hr Hmax Hj Hw He H0.
  destruct (verify_cases h ip form now m Hf Hp) as (ok & m' & ev & E & Hok & Hent & H1 & H2 & H3 & H4).
  rewrite Hr, andb_false_r in Hok. subst ok. exists m', ev. split; [done|]. do 4 (split; [done|]).
  intros Hpos. specialize (Hent ip). rewrite decide_True in Hent by done. rewrite Hc in Hent. cbn [negb] in Hent.
  rewrite orb_false_r in Hent.
  assert (Hsome : ∀ e, entryAt now ip m' = Some e → failedAttempts_ m' !! ip = Some e).
  { unfold entryAt. intros e. destruct (failedAttempts_ m' !! ip) as [e'|]; [|done]. by destruct (expiredEntry _ _ _). }
  apply Hsome. rewrite Hent. unfold lockedAt, afterFailure. rewrite He.
  destruct (Z.eqb_spec j 0) as [->|Hne].
  - cbn. rewrite H0 by done. do 2 f_equal. rewrite u32_small; word_unfold; lia.
  - cbn [from_option id count firstAttemptTime]. destruct (Z.leb_spec (maxAttempts_ m) j).
    + do 2 f_equal. lia.
    + destruct (Z.eqb_spec j 0); [done|]. do 2 f_equal. rewrite u32_small; word_unfold; lia.
Qed.

Lemma session_wrong ip first : ∀ rs m j, 0 <= lockoutPeriodSec_ m → is_u32 (maxAttempts_ m) → 0 < maxAttempts_ m →
  0 < j <= maxAttempts_ m → failedAttempts_ m !! ip = Some (mkFailed j first) →
  Forall (λ r : bytes * bytes * bool * Z, r.1.1.2 = ip ∧ fits r.1.1.1 ∧ countsAsFailedAttempt r.1.1.1 = true ∧
    rightCredentials m r.1.1.1 = false ∧ u32 (r.2 - first) <= lockoutPeriodSec_ m) rs →
  ∃ m' evs, session rs m = Done (replicate (length rs) false, m', evs) ∧
    maxAttempts_ m' = maxAttempts_ m ∧ lockoutPeriodSec_ m' = lockoutPeriodSec_ m ∧
    failedAttempts_ m' !! ip = Some (mkFailed (Z.min (j + Z.of_nat (length rs)) (maxAttempts_ m)) first).
Proof.
  induction rs as [|[[[h ip'] form] now] rs IH]; intros m j Hp Hmax Hpos Hj He Hall; cbn [session length].
  { exists m, []. rewrite Z.add_0_r, Z.min_l by lia. done. }
  apply Forall_cons in Hall as [(Hip & Hf & Hc & Hr & Hw) Hall]. cbn [fst snd] in *. subst ip'.
  destruct (wrong_guess h ip form now m first j Hf Hp Hc Hr Hmax ltac:(lia) Hw) as (m1 & ev & -> & H1 & H2 & H3 & H4 & He1).
  { rewrite (entryAt_window now ip m _ He Hw). destruct (Z.eqb_spec j 0); [lia|done]. }
  { lia. }
  rewrite run_bind_done. cbv beta iota.
  destruct (IH m1 (Z.min (j + 1) (maxAttempts_ m))) as (m2 & evs & -> & H5 & H6 & He2); try (rewrite ?H1, ?H2; done || lia).
  - by apply He1.
  - eapply Forall_impl; [exact Hall|]. intros r (R1 & R2 & R3 & R4 & R5). rewrite H2.
    split_and!; try done. unfold rightCredentials in *. by rewrite H3, H4.
  - rewrite run_bind_done. exists m2, (ev ++ evs). split; [done|]. split; [congruence|]. split; [congruence|].
    rewrite He2, H1. do 2 f_equal. lia.
Qed.

(** Guessing is limited: when a client with a clean record sends wrong
    guesses, all within the lockout period of the first, the device counts no more
    than [maxAttempts] of them; and once that many have been counted, every
    further request of that client in the period is refused - the one with the
    right password too. *)
Theorem guess_budget ip h form now rs m : 0 <= lockoutPeriodSec_ m → is_u32 (maxAttempts_ m) → 0 < maxAttempts_ m →
  entryAt now ip m = None →
  Forall (λ r : bytes * bytes * bool * Z, r.1.1.2 = ip ∧ fits r.1.1.1 ∧ countsAsFailedAttempt r.1.1.1 = true ∧
    rightCredentials m r.1.1.1 = false ∧ u32 (r.2 - now) <= lockoutPeriodSec_ m) ((h, ip, form, now) :: rs) →
  ∃ m' evs, session ((h, ip, form, now) :: rs) m = Done (replicate (S (length rs)) false, m', evs) ∧
    failedAttempts_ m' !! ip = Some (mkFailed (Z.min (Z.of_nat (S (length rs))) (maxAttempts_ m)) now) ∧
    (maxAttempts_ m <= Z.of_nat (S (length rs)) → ∀ h' form' now', u32 (now' - now) <= lockoutPeriodSec_ m →
       verify h' ip form' now' m' = Done (false, cleanupExpired now' m', [])).
Proof.
  intros Hp Hmax Hpos He [(Hip & Hf & Hc & Hr & Hw) Hall]%Forall_cons. cbn [fst snd] in *. cbn [session].
  destruct (wrong_guess h ip form now m now 0 Hf Hp Hc Hr Hmax ltac:(lia) Hw He ltac:(done))
    as (m1 & ev & -> & H1 & H2 & H3 & H4 & He1).
  rewrite run_bind_done. cbv beta iota.
  destruct (session_wrong ip now rs m1 (Z.min (0 + 1) (maxAttempts_ m))) as (m2 & evs & -> & H5 & H6 & He2);
    try (rewrite ?H1, ?H2; done || lia).
  - by apply He1.
  - eapply Forall_impl; [exact Hall|]. intros r (R1 & R2 & R3 & R4 & R5). rewrite H2.
    split_and!; try done. unfold rightCredentials in *. by rewrite H3, H4.
  - rewrite run_bind_done. exists m2, (ev ++ evs). split; [done|].
    assert (Hcount : failedAttempts_ m2 !! ip =
      Some (mkFailed (Z.min (Z.of_nat (S (length rs))) (maxAttempts_ m)) now)).
    { rewrite He2, H1. do 2 f_equal. lia. }
    split; [done|]. intros Hfull h' form' now' Hw'. unfold verify. rewrite locked_after_cleanup.
    rewrite (entryAt_window now' ip m2 _ Hcount) by (cbn; rewrite H6, H2; exact Hw'). cbn [count].
    rewrite H5, H1. by rewrite Z.min_r, Z.leb_refl by lia.
Qed.

(** A header whose credential decodes to more than 256 bytes makes the
    device read past the buffer it decoded into: the decoder reports the length it
    would have needed, and its failure is not checked. *)
Theorem long_header_overread h ip form now m : lockedAt now ip m = false → countsAsFailedAttempt h = true →
  (kDecodedBytes < (decode (drop (length kBasicPrefix) h)).1)%nat →
  verify h ip form now m = OutOfBounds.
Proof.
  intros Hl Hc Hn. unfold verify. rewrite locked_after_cleanup. unfold lockedAt in Hl. rewrite Hl, Hc. cbn [negb].
  destruct (decode (drop (length kBasicPrefix) h)) as [n buffer]. cbn [fst] in Hn.
  destruct (Nat.eqb_spec n 0); [lia|]. unfold bufferString. destruct (Nat.ltb_spec kDecodedBytes n); [done|lia].
Qed.

End Verify.

(** ** Concrete requests *)

(** A decoder for the witnesses: the credential as it stands, into a buffer of 256
    bytes, and the length it would need. *)
Definition plain (s : bytes) : nat * bytes := (length s, take kDecodedBytes (s ++ replicate kDecodedBytes 0)).

Definition two : Manager := mkManager (lit "admin") (lit "secret") 2 300 true ∅.
Definition guess (s : string) : bytes := kBasicPrefix ++ lit s.


Lemma guess_budget_witness : ∃ m' evs,
  session plain [(guess "admin:a", lit "ip", true, 10); (guess "admin:b", lit "ip", true, 11)] two =
    Done (replicate 2 false, m', evs) ∧
  failedAttempts_ m' !! lit "ip" = Some (mkFailed (Z.min (Z.of_nat 2) 2) 10) ∧
  (2 <= Z.of_nat 2 → ∀ h' form' now', u32 (now' - 10) <= 300 →
     verify plain h' (lit "ip") form' now' m' = Done (false, cleanupExpired now' m', [])).
Proof.
  apply (guess_budget plain (lit "ip") (guess "admin:a") true 10 [(guess "admin:b", lit "ip", true, 11)] two);
    [done|word_unfold; done|done|done|].
  repeat constructor; unfold fits; try (apply Nat.leb_le); vm_compute; congruence.
Defined.

Lemma long_header_overread_witness :
  verify plain (kBasicPrefix ++ replicate 300 65) (lit "ip") false 10 two = OutOfBounds.
Proof. apply long_header_overread; [done|vm_compute; reflexivity|apply Nat.ltb_lt; vm_compute; reflexivity]. Defined.

(** The lockout is not the full period it is announced for: it ends one
    period after the first failed attempt, so a client whose last attempt comes
    late is announced as locked out for 300 seconds and let in one second later. *)
Example lockout_is_short :
  session plain [(guess "admin:a", lit "ip", true, 0); (guess "admin:b", lit "ip", true, 300);
                 (guess "admin:secret", lit "ip", true, 301)] two =
    Done ([false; false; true], two,
      [FailedAttempt (lit "ip") 1 2; FailedAttempt (lit "ip") 2 2; Lockout (lit "ip") 300; Login (lit "ip") 0]).
Proof. vm_compute. reflexivity. Qed.

End AuthManager.
