(* ===== verification/JobRegistry.v ===== *)
(** * The registry of long-running operations

    src/core/JobRegistry.cpp: eight slots, single flight per id, one-off records
    that go when they end, repeating ones that stay. *)
From S2P Require Import Prelude.
#[local] Open Scope Z_scope.

Module JobRegistry.

Definition kMaxJobs : nat := 8.
Definition kPercentScale : Z := 100.

Inductive JobState := Running | Paused | Done_ | Failed | Cancelled.
Inductive JobUnit := UnitNone | UnitBytes | UnitRecords.

#[export] Instance JobState_eq_dec : EqDecision JobState.
Proof. solve_decision. Defined.

Definition jobStateText (s : JobState) : bytes :=
  match s with
  | Running => lit "running" | Paused => lit "paused" | Done_ => lit "done"
  | Failed => lit "failed" | Cancelled => lit "cancelled"
  end.

Definition jobUnitText (u : JobUnit) : bytes :=
  match u with UnitNone => lit "none" | UnitBytes => lit "bytes" | UnitRecords => lit "records" end.

Record JobInfo := mkJob {
  id : bytes;
  titleKey : bytes;
  arg : bytes;
  detail : bytes;
  jstate : JobState;
  done_ : Z;
  total : Z;
  unit_ : JobUnit;
  durationMs : Z;
  cancelRequested_ : bool;
  repeatSec : Z;
  pauseSec : Z;
}.

Definition noJob : JobInfo := mkJob [] [] [] [] Running 0 0 UnitNone 0 false 0 0.

(** A slot: in use, its record, its start and end on the monotonic clock. *)
Record Slot := mkSlot { used : bool; job : JobInfo; started : Z; finished : Z }.

Definition emptySlot : Slot := mkSlot false noJob 0 0.

(** The observer is told of the two ends of an operation. *)
Inductive Told := JobStarted (j : JobInfo) | JobFinished (j : JobInfo).

Record Registry := mkRegistry { slots : list Slot; observed : bool }.

Definition initial : Registry := mkRegistry (replicate kMaxJobs emptySlot) false.

Definition setObserver (present : bool) (r : Registry) : Registry := mkRegistry (slots r) present.

Definition percent (j : JobInfo) : Z :=
  if total j =? 0 then -1
  else if total j <=? done_ j then kPercentScale
  else u64 (done_ j * kPercentScale) / total j.

(** [used_[i] && jobs_[i].id == id]. *)
Definition holdsId (i : bytes) (s : Slot) : bool := used s && bytes_eqb (id (job s)) i.

(** The scan for the slot to reuse: the last of the oldest records that do not
    run; [kMaxJobs] for none. *)
Fixpoint oldest_scan (l : list Slot) (k : nat) (oldest : nat) (oldestTime : Z) : nat :=
  match l with
  | [] => oldest
  | s :: l' =>
      if bool_decide (jstate (job s) = Running) then oldest_scan l' (S k) oldest oldestTime
      else if started s <=? oldestTime then oldest_scan l' (S k) k (started s)
      else oldest_scan l' (S k) oldest oldestTime
  end.

Definition slotFor (i : bytes) (now : Z) (l : list Slot) : nat :=
  match index_of (holdsId i) l with
  | Some k => k
  | None =>
      match index_of (λ s, negb (used s)) l with
      | Some k => k
      | None => oldest_scan l 0 kMaxJobs now
      end
  end.

(** [begin]: [now] is read when the slot is chosen, [now2] when it is stamped. *)
Definition begin_ (i title argument : bytes) (tot : Z) (u : JobUnit) (repeat : Z) (now now2 : Z) (r : Registry)
  : bool * Registry * list Told :=
  if bool_decide (i = []) then (false, r, [])
  else
    let slot := slotFor i now (slots r) in
    if (kMaxJobs <=? slot)%nat then (false, r, [])
    else
      let j := mkJob i title argument [] Running 0 tot u 0 false repeat 0 in
      (true, mkRegistry (<[slot := mkSlot true j now2 0]> (slots r)) (observed r),
       if observed r then [JobStarted j] else []).

(** An update of the first record with that id. *)
Definition onJob (i : bytes) (f : Slot → Slot) (r : Registry) : Registry :=
  match index_of (holdsId i) (slots r) with
  | Some k => mkRegistry (<[k := f (nth k (slots r) emptySlot)]> (slots r)) (observed r)
  | None => r
  end.

Definition orKeep (new old : bytes) : bytes := if bool_decide (new = []) then old else new.

Definition progress (i : bytes) (d tot : Z) (step : bytes) (r : Registry) : Registry :=
  onJob i (λ s, let j := job s in
    mkSlot (used s) (mkJob (id j) (titleKey j) (arg j) (orKeep step (detail j)) Running d
      (if 0 <? tot then tot else total j) (unit_ j) (durationMs j) (cancelRequested_ j) (repeatSec j) 0)
      (started s) (finished s)) r.

Definition pause (i : bytes) (step : bytes) (seconds : Z) (r : Registry) : Registry :=
  onJob i (λ s, let j := job s in
    mkSlot (used s) (mkJob (id j) (titleKey j) (arg j) (orKeep step (detail j)) Paused (done_ j)
      (total j) (unit_ j) (durationMs j) (cancelRequested_ j) (repeatSec j) seconds)
      (started s) (finished s)) r.

(** A measured time as the 32-bit duration of a record. *)
Definition duration (ms : Z) : Z := if 0 <? ms then u32 ms else 0.

Definition set_duration (d : Z) (j : JobInfo) : JobInfo :=
  mkJob (id j) (titleKey j) (arg j) (detail j) (jstate j) (done_ j) (total j) (unit_ j) d
    (cancelRequested_ j) (repeatSec j) (pauseSec j).

Definition endJob (st : JobState) (step : bytes) (j : JobInfo) : JobInfo :=
  mkJob (id j) (titleKey j) (arg j) (orKeep step (detail j)) st
    (if (0 <? total j) && bool_decide (st = Done_) then total j else done_ j)
    (total j) (unit_ j) (durationMs j) (cancelRequested_ j) (repeatSec j) 0.

Definition finish (i : bytes) (st : JobState) (step : bytes) (now : Z) (r : Registry) : Registry * list Told :=
  match index_of (holdsId i) (slots r) with
  | None => (r, [])
  | Some k =>
      let s := nth k (slots r) emptySlot in
      let j := endJob st step (job s) in
      let s' := if repeatSec j =? 0 then emptySlot else mkSlot (used s) j (started s) now in
      (mkRegistry (<[k := s']> (slots r)) (observed r),
       if observed r then [JobFinished (set_duration (duration (now - started s)) j)] else [])
  end.

Definition requestCancel (i : bytes) (r : Registry) : bool * Registry :=
  match index_of (holdsId i) (slots r) with
  | None => (false, r)
  | Some k =>
      let s := nth k (slots r) emptySlot in
      let j := job s in
      match jstate j with
      | Running | Paused =>
          (true, mkRegistry (<[k := mkSlot (used s) (mkJob (id j) (titleKey j) (arg j) (detail j) (jstate j)
             (done_ j) (total j) (unit_ j) (durationMs j) true (repeatSec j) (pauseSec j))
             (started s) (finished s)]> (slots r)) (observed r))
      | _ => (false, r)
      end
  end.

Definition cancelRequested (i : bytes) (r : Registry) : bool :=
  match index_of (holdsId i) (slots r) with
  | Some k => cancelRequested_ (job (nth k (slots r) emptySlot))
  | None => false
  end.

Definition contains (i : bytes) (r : Registry) : bool :=
  bool_decide (is_Some (index_of (holdsId i) (slots r))).

Definition shownJob (current : Z) (s : Slot) : JobInfo :=
  let end_ := match jstate (job s) with Running | Paused => current | _ => finished s end in
  set_duration (duration (end_ - started s)) (job s).

(** [std::sort] by duration is the argument [sort]. *)
Definition snapshot (sort : list JobInfo → list JobInfo) (current : Z) (r : Registry) : list JobInfo :=
  sort (shownJob current <$> List.filter used (slots r)).

Definition clear (r : Registry) : Registry := mkRegistry (replicate (length (slots r)) emptySlot) (observed r).

(** A call of the registry. *)
Inductive Call :=
  | CBegin (i title argument : bytes) (tot : Z) (u : JobUnit) (repeat now now2 : Z)
  | CProgress (i : bytes) (d tot : Z) (step : bytes)
  | CPause (i step : bytes) (seconds : Z)
  | CFinish (i : bytes) (st : JobState) (step : bytes) (now : Z)
  | CCancel (i : bytes)
  | CObserver (present : bool)
  | CClear.

Definition call (c : Call) (r : Registry) : Registry * list Told :=
  match c with
  | CBegin i title argument tot u repeat now now2 =>
      let '(_, r, told) := begin_ i title argument tot u repeat now now2 r in (r, told)
  | CProgress i d tot step => (progress i d tot step r, [])
  | CPause i step seconds => (pause i step seconds r, [])
  | CFinish i st step now => finish i st step now r
  | CCancel i => ((requestCancel i r).2, [])
  | CObserver present => (setObserver present r, [])
  | CClear => (clear r, [])
  end.

(** ** The registry as a table of records by id *)

Definition lookupJob (i : bytes) (l : list Slot) : option Slot := List.find (holdsId i) l.

(** At most one record per id; eight slots. *)
Definition wf (r : Registry) : Prop :=
  length (slots r) = kMaxJobs ∧
  ∀ a b sa sb, slots r !! a = Some sa → slots r !! b = Some sb → used sa = true → used sb = true →
    id (job sa) = id (job sb) → a = b.

Lemma holdsId_true i s : holdsId i s = true ↔ used s = true ∧ id (job s) = i.
Proof. unfold holdsId. by rewrite andb_true_iff, bytes_eqb_eq. Qed.

Lemma index_find i l : lookupJob i l =
  match index_of (holdsId i) l with Some k => l !! k | None => None end.
Proof.
  unfold lookupJob. induction l as [|s l IH]; cbn; [done|]. destruct (holdsId i s); [done|].
  rewrite IH. by destruct (index_of (holdsId i) l).
Qed.

Lemma lookupJob_some r i s : wf r → lookupJob i (slots r) = Some s ↔
  ∃ k, slots r !! k = Some s ∧ used s = true ∧ id (job s) = i.
Proof.
  intros [_ Hu]. rewrite index_find. split.
  - destruct (index_of (holdsId i) (slots r)) as [k|] eqn:E; [|done]. intros Hs.
    apply index_of_Some in E as [(x & Hx & Hh) _]. assert (x = s) as -> by congruence.
    exists k. by apply holdsId_true in Hh.
  - intros (k & Hs & Hus & Hid). destruct (index_of (holdsId i) (slots r)) as [k'|] eqn:E.
    + apply index_of_Some in E as [(x & Hx & [Hux Hidx]%holdsId_true) _].
      assert (k = k') as -> by (eapply Hu; eauto; congruence). congruence.
    + pose proof (proj1 (index_of_None _ _) E k s Hs) as Hf.
      rewrite (proj2 (holdsId_true i s)) in Hf by done. done.
Qed.

Lemma lookupJob_none r i : lookupJob i (slots r) = None ↔
  ∀ k s, slots r !! k = Some s → used s = true → id (job s) ≠ i.
Proof.
  rewrite index_find. destruct (index_of (holdsId i) (slots r)) as [k|] eqn:E.
  - apply index_of_Some in E as [(x & Hx & [Hux Hidx]%holdsId_true) _]. rewrite Hx. split; [done|].
    intros H. by destruct (H k x Hx Hux).
  - split; [|done]. intros _ k s Hs Hus Hid. pose proof (proj1 (index_of_None _ _) E k s Hs) as Hf.
    rewrite (proj2 (holdsId_true i s)) in Hf by done. done.
Qed.

(** Replacing slot [k] by one that is unused or whose id is nowhere else. *)
Lemma wf_insert r k s : wf r → (k < kMaxJobs)%nat →
  (used s = true → ∀ k' s', k' ≠ k → slots r !! k' = Some s' → used s' = true → id (job s') ≠ id (job s)) →
  wf (mkRegistry (<[k := s]> (slots r)) (observed r)).
Proof.
  intros [Hl Hu] Hk Hs. split; cbn [slots]; [by rewrite length_insert|].
  intros a b sa sb Ha Hb Hua Hub Hid. destruct (decide (a = k)) as [->|Hak], (decide (b = k)) as [->|Hbk]; try done.
  - rewrite list_lookup_insert_eq in Ha by lia. rewrite list_lookup_insert_ne in Hb by done. injection Ha as <-.
    destruct (Hs Hua b sb Hbk Hb Hub). done.
  - rewrite list_lookup_insert_eq in Hb by lia. rewrite list_lookup_insert_ne in Ha by done. injection Hb as <-.
    destruct (Hs Hub a sa Hak Ha Hua). done.
  - rewrite list_lookup_insert_ne in Ha, Hb by done. by eapply Hu.
Qed.

(** What a replaced slot does to the table. *)
Lemma lookup_insert_slot r k s0 s i : wf r → slots r !! k = Some s0 →
  wf (mkRegistry (<[k := s]> (slots r)) (observed r)) →
  lookupJob i (<[k := s]> (slots r)) =
    if holdsId i s then Some s else if holdsId i s0 then None else lookupJob i (slots r).
Proof.
  intros Hw Hk Hw'. pose proof (lookup_lt_Some _ _ _ Hk) as Hlt.
  change (<[k := s]> (slots r)) with (slots (mkRegistry (<[k := s]> (slots r)) (observed r))).
  destruct (holdsId i s) eqn:Es.
  { apply (lookupJob_some _ _ _ Hw'). apply holdsId_true in Es as [Hu Hid]. exists k. cbn.
    by rewrite list_lookup_insert_eq. }
  destruct (holdsId i s0) eqn:E0.
  { apply lookupJob_none. intros k' s' Hk' Hu' Hid'. cbn in Hk'. destruct (decide (k = k')) as [<-|Hne].
    - rewrite list_lookup_insert_eq in Hk' by done. injection Hk' as <-.
      by rewrite (proj2 (holdsId_true i s)) in Es.
    - rewrite list_lookup_insert_ne in Hk' by done. apply holdsId_true in E0 as [Hu0 Hid0].
      destruct Hw as [_ Hw]. destruct (Hne (Hw k k' s0 s' Hk Hk' Hu0 Hu' ltac:(congruence))). }
  destruct (lookupJob i (slots r)) as [x|] eqn:Ex.
  - apply (lookupJob_some _ _ _ Hw) in Ex as (k' & Hk' & Hu' & Hid'). apply (lookupJob_some _ _ _ Hw').
    exists k'. split; [|done]. cbn. rewrite list_lookup_insert_ne; [done|]. intros <-.
    rewrite Hk in Hk'. injection Hk' as <-. by rewrite (proj2 (holdsId_true i s0)) in E0.
  - apply lookupJob_none. intros k' s' Hk' Hu' Hid'. cbn in Hk'. destruct (decide (k = k')) as [<-|Hne].
    + rewrite list_lookup_insert_eq in Hk' by done. injection Hk' as <-.
      by rewrite (proj2 (holdsId_true i s)) in Es.
    + rewrite list_lookup_insert_ne in Hk' by done. by eapply (proj1 (lookupJob_none r i) Ex).
Qed.

Lemma oldest_scan_spec l : ∀ k oldest t, (oldest_scan l k oldest t = oldest) ∨
  ∃ j s, l !! j = Some s ∧ oldest_scan l k oldest t = (k + j)%nat ∧ jstate (job s) ≠ Running.
Proof.
  induction l as [|s l IH]; intros k oldest t; cbn [oldest_scan]; [by left|].
  destruct (bool_decide (jstate (job s) = Running)) eqn:E.
  { destruct (IH (S k) oldest t) as [->|(j & s' & Hj & -> & Hs)]; [by left|].
    right. exists (S j), s'. split; [done|]. split; [lia|done]. }
  apply bool_decide_eq_false in E. destruct (started s <=? t).
  - right. destruct (IH (S k) k (started s)) as [->|(j & s' & Hj & -> & Hs)].
    + exists 0%nat, s. split; [done|]. split; [lia|done].
    + exists (S j), s'. split; [done|]. split; [lia|done].
  - destruct (IH (S k) oldest t) as [->|(j & s' & Hj & -> & Hs)]; [by left|].
    right. exists (S j), s'. split; [done|]. split; [lia|done].
Qed.

Lemma oldest_scan_none l : ∀ k oldest t, (oldest < k)%nat ∨ (kMaxJobs <= oldest)%nat →
  Forall (λ s, started s <= t) l → (k + length l <= kMaxJobs)%nat →
  (kMaxJobs <= oldest_scan l k oldest t)%nat → (kMaxJobs <= oldest)%nat ∧ Forall (λ s, jstate (job s) = Running) l.
Proof.
  induction l as [|s l IH]; intros k oldest t Ho Hst Hlen; cbn [oldest_scan]; [by auto|].
  apply Forall_cons in Hst as [Hs Hst]. cbn in Hlen.
  destruct (bool_decide (jstate (job s) = Running)) eqn:E.
  - apply bool_decide_eq_true in E. intros H. destruct (IH (S k) oldest t ltac:(lia) Hst ltac:(lia) H) as [? ?]. auto.
  - rewrite (proj2 (Z.leb_le _ _) Hs). intros H. exfalso.
    clear -H Hlen. revert H. generalize (started s). intros z.
    destruct (oldest_scan_spec l (S k) k z) as [->|(j & s' & Hj & -> & _)]; [lia|].
    apply lookup_lt_Some in Hj. lia.
Qed.

(** The slot [begin] takes. *)
Lemma slotFor_spec i now r : wf r → (slotFor i now (slots r) < kMaxJobs)%nat →
  ∃ s, slots r !! slotFor i now (slots r) = Some s ∧
    (lookupJob i (slots r) = Some s ∨
     (lookupJob i (slots r) = None ∧ (used s = false ∨ (Forall (λ s, used s = true) (slots r) ∧ jstate (job s) ≠ Running)))).
Proof.
  intros [Hl _] Hlt. unfold slotFor in *. rewrite index_find.
  destruct (index_of (holdsId i) (slots r)) as [k|] eqn:E1.
  { apply index_of_Some in E1 as [(s & Hs & _) _]. exists s. auto. }
  destruct (index_of (λ s, negb (used s)) (slots r)) as [k|] eqn:E2.
  { apply index_of_Some in E2 as [(s & Hs & Hu) _]. exists s. split; [done|]. right. split; [done|]. left.
    by destruct (used s). }
  destruct (oldest_scan_spec (slots r) 0 kMaxJobs now) as [E|(j & s & Hj & E & Hs)]; [rewrite E in Hlt; lia|].
  rewrite E in *. exists s. split; [done|]. right. split; [done|]. right. split; [|done].
  apply Forall_lookup. intros k x Hx. pose proof (proj1 (index_of_None _ _) E2 k x Hx) as H. cbn in H.
  by destruct (used x).
Qed.

(** Starting an operation gives it a fresh running record under its id,
    in place of the one that id had; every other record stays, unless all eight
    slots were taken: then one record that was not running is given up for it. It
    is refused only without an id or when all eight slots hold running operations
    of other ids. *)
Theorem begin_outcome i title argument tot u repeat now now2 r : wf r → i ≠ [] →
  Forall (λ s, started s <= now) (slots r) →
  let '(ok, r', told) := begin_ i title argument tot u repeat now now2 r in
  wf r' ∧
  (if ok then
     let j := mkJob i title argument [] Running 0 tot u 0 false repeat 0 in
     told = (if observed r then [JobStarted j] else []) ∧
     lookupJob i (slots r') = Some (mkSlot true j now2 0) ∧
     (∀ i', i' ≠ i → lookupJob i' (slots r') = lookupJob i' (slots r) ∨
        (lookupJob i' (slots r') = None ∧ lookupJob i (slots r) = None ∧ Forall (λ s, used s = true) (slots r) ∧
         ∃ s, lookupJob i' (slots r) = Some s ∧ jstate (job s) ≠ Running))
   else r' = r ∧ told = [] ∧ lookupJob i (slots r) = None ∧
        Forall (λ s, used s = true ∧ jstate (job s) = Running) (slots r)).
Proof.
  intros Hw Hi Hst. unfold begin_. rewrite bool_decide_eq_false_2 by done. cbv zeta.
  destruct (Nat.leb_spec kMaxJobs (slotFor i now (slots r))) as [Hfull|Hlt].
  - split; [done|]. split; [done|]. split; [done|]. pose proof Hw as [Hl _]. rewrite index_find.
    unfold slotFor in Hfull. destruct (index_of (holdsId i) (slots r)) as [k|] eqn:E1.
    { apply index_of_lt in E1. lia. }
    destruct (index_of (λ s, negb (used s)) (slots r)) as [k|] eqn:E2.
    { apply index_of_lt in E2. lia. }
    split; [done|]. destruct (oldest_scan_none (slots r) 0 kMaxJobs now ltac:(lia) Hst ltac:(lia) Hfull) as [_ HF].
    apply Forall_lookup. intros k s Hs. split; [|by eapply Forall_lookup_1 in HF].
    pose proof (proj1 (index_of_None _ _) E2 k s Hs) as H. cbn in H. by destruct (used s).
  - destruct (slotFor_spec i now r Hw Hlt) as (s0 & Hs0 & Hcase). set (k := slotFor i now (slots r)) in *.
    set (s := mkSlot true _ now2 0).
    assert (Hw' : wf (mkRegistry (<[k := s]> (slots r)) (observed r))).
    { apply wf_insert; [done|done|]. intros _ k' s' Hne Hs' Hu' Hid. cbn in Hid. destruct Hcase as [H|[H _]].
      - apply (lookupJob_some _ _ _ Hw) in H as (k0 & Hk0 & Hu0 & Hid0). pose proof Hw as [_ Huniq].
        apply Hne, (Huniq k' k s' s0 Hs' Hs0 Hu' Hu0). congruence.
      - by eapply (proj1 (lookupJob_none r i) H k' s'). }
    split; [done|]. split; [done|]. cbn [slots].
    assert (Hself : holdsId i s = true) by (apply holdsId_true; done).
    split; [by rewrite (lookup_insert_slot r k s0) by done; rewrite Hself|].
    intros i' Hne. rewrite (lookup_insert_slot r k s0) by done.
    assert (holdsId i' s = false) as -> by (apply not_true_is_false; rewrite holdsId_true; cbn; naive_solver).
    destruct (holdsId i' s0) eqn:E0; [|by left]. apply holdsId_true in E0 as [Hu0 Hid0].
    destruct Hcase as [H|[H [H'|[HF Hr]]]].
    + apply (lookupJob_some _ _ _ Hw) in H as (_ & _ & _ & H). congruence.
    + congruence.
    + right. split; [done|]. split; [done|]. split; [done|]. exists s0. split; [|done].
      apply (lookupJob_some _ _ _ Hw). by exists k.
Qed.

(** A record that keeps its slot and id keeps the table well formed. *)
Lemma same_id_wf r k s0 s : wf r → slots r !! k = Some s0 → used s0 = true → id (job s) = id (job s0) →
  wf (mkRegistry (<[k := s]> (slots r)) (observed r)).
Proof.
  intros Hw Hk Hu0 Hid. pose proof Hw as [Hl Hu]. apply wf_insert; [done| |].
  - rewrite <- Hl. by eapply lookup_lt_Some.
  - intros _ k' s' Hne Hs' Hu' E. apply Hne. eapply Hu; eauto. congruence.
Qed.

Lemma wf_clear_slot r k : wf r → (k < kMaxJobs)%nat → wf (mkRegistry (<[k := emptySlot]> (slots r)) (observed r)).
Proof. intros Hw Hk. by apply wf_insert. Qed.

Lemma index_lookup i l k : index_of (holdsId i) l = Some k →
  ∃ s, l !! k = Some s ∧ used s = true ∧ id (job s) = i ∧ nth k l emptySlot = s.
Proof.
  intros ((s & Hs & [Hu Hid]%holdsId_true) & _)%index_of_Some. exists s. split_and!; try done.
  by apply nth_lookup_Some.
Qed.

Lemma onJob_wf i f r : wf r → (∀ s, id (job (f s)) = id (job s)) → wf (onJob i f r).
Proof.
  intros Hw Hf. unfold onJob. destruct (index_of (holdsId i) (slots r)) as [k|] eqn:E; [|done].
  apply index_lookup in E as (s & Hs & Hu & _ & ->).
  by eapply same_id_wf.
Qed.

Lemma begin_wf i title argument tot u repeat now now2 r : wf r →
  wf (begin_ i title argument tot u repeat now now2 r).1.2.
Proof.
  intros Hw. unfold begin_. destruct (bool_decide (i = [])); [done|]. cbv zeta.
  destruct (Nat.leb_spec kMaxJobs (slotFor i now (slots r))) as [Hfull|Hlt]; [done|]. cbn [fst snd].
  destruct (slotFor_spec i now r Hw Hlt) as (s0 & Hs0 & [H|[H _]]).
  - apply (lookupJob_some _ _ _ Hw) in H as (k0 & _ & Hu0 & Hid0). by eapply same_id_wf.
  - apply wf_insert; [done|done|]. intros _ k' s' _ Hs' Hu'. cbn.
    by apply (proj1 (lookupJob_none r i) H k' s').
Qed.

Lemma finish_wf i st step now r : wf r → wf (finish i st step now r).1.
Proof.
  intros Hw. unfold finish. destruct (index_of (holdsId i) (slots r)) as [k|] eqn:E; [|done].
  pose proof (index_of_lt _ _ _ E) as Hlt. apply index_lookup in E as (s & Hs & Hu & Hid & ->). cbn [fst].
  destruct (repeatSec (endJob st step (job s)) =? 0).
  - apply wf_clear_slot; [done|]. by destruct Hw as [<- _].
  - by eapply same_id_wf.
Qed.

Lemma cancel_wf i r : wf r → wf (requestCancel i r).2.
Proof.
  intros Hw. unfold requestCancel. destruct (index_of (holdsId i) (slots r)) as [k|] eqn:E; [|done].
  apply index_lookup in E as (s & Hs & Hu & Hid & ->).
  destruct (jstate (job s)); cbn [snd]; try done; by eapply same_id_wf.
Qed.

Lemma noJobs_wf o n : n = kMaxJobs → wf (mkRegistry (replicate n emptySlot) o).
Proof.
  intros ->. split; [apply length_replicate|]. cbn [slots].
  intros a b sa sb [-> _]%lookup_replicate _ Hu. done.
Qed.

(** Whatever is called, in whatever order, the registry has eight
    slots and at most one record per id. *)
Theorem registry_wf cs : wf (foldl (λ r c, (call c r).1) initial cs).
Proof.
  assert (Hs : ∀ c r, wf r → wf (call c r).1).
  { intros c r Hw. destruct c; cbn [call].
    - pose proof (begin_wf i title argument tot u repeat now now2 r Hw).
      by destruct (begin_ i title argument tot u repeat now now2 r) as [[? ?] ?].
    - by apply onJob_wf.
    - by apply onJob_wf.
    - by apply finish_wf.
    - by apply cancel_wf.
    - exact Hw.
    - apply noJobs_wf. by destruct Hw. }
  generalize (noJobs_wf false kMaxJobs eq_refl). fold initial. generalize initial.
  induction cs as [|c cs IH]; intros r Hw; cbn [foldl]; [done|]. apply IH, Hs, Hw.
Qed.

(** Ending an operation removes a one-off record and keeps a repeating
    one with the state it ended in (and full progress when it is done); it tells
    the observer once, with the measured duration; it leaves the other records
    alone, and does nothing at all for an id that has no record. *)
Theorem finish_outcome i st step now r : wf r →
  let '(r', told) := finish i st step now r in
  (∀ i', i' ≠ i → lookupJob i' (slots r') = lookupJob i' (slots r)) ∧
  match lookupJob i (slots r) with
  | None => r' = r ∧ told = []
  | Some s =>
      let j := endJob st step (job s) in
      lookupJob i (slots r') = (if repeatSec (job s) =? 0 then None else Some (mkSlot true j (started s) now)) ∧
      told = (if observed r then [JobFinished (set_duration (duration (now - started s)) j)] else [])
  end.
Proof.
  intros Hw. pose proof (finish_wf i st step now r Hw) as Hw'. revert Hw'. unfold finish. rewrite index_find.
  destruct (index_of (holdsId i) (slots r)) as [k|] eqn:E; [|done].
  apply index_lookup in E as (s & Hs & Hu & Hid & ->). rewrite Hs. cbn [fst]. cbv zeta. intros Hw'.
  change (repeatSec (endJob st step (job s))) with (repeatSec (job s)) in *.
  set (s' := if repeatSec (job s) =? 0 then emptySlot else _) in *.
  assert (Hh : ∀ i', holdsId i' s' = negb (repeatSec (job s) =? 0) && bytes_eqb i i').
  { intros i'. unfold s'. destruct (repeatSec (job s) =? 0); [done|]. unfold holdsId. cbn. by rewrite Hu, Hid. }
  assert (Hh0 : ∀ i', holdsId i' s = bytes_eqb i i') by (intros; unfold holdsId; by rewrite Hu, Hid).
  split; [|split; [|done]].
  - intros i' Hne. cbn [slots]. rewrite (lookup_insert_slot r k s) by done. rewrite Hh, Hh0.
    assert (bytes_eqb i i' = false) as -> by (apply bytes_eqb_neq; congruence). by rewrite andb_false_r.
  - cbn [slots]. rewrite (lookup_insert_slot r k s) by done. rewrite Hh, Hh0, bytes_eqb_refl. unfold s'.
    destruct (repeatSec (job s) =? 0); [done|]. cbn [negb andb]. by rewrite Hu.
Qed.

(** ** The row of a one-off operation *)

(** Whatever row [i] has is one that goes when the operation ends. *)
Definition oneOff (i : bytes) (r : Registry) : Prop :=
  wf r ∧ ∀ k s, slots r !! k = Some s → holdsId i s = true → repeatSec (job s) = 0.

Lemma oneOff_insert i r k s0 s : oneOff i r → slots r !! k = Some s0 →
  wf (mkRegistry (<[k := s]> (slots r)) (observed r)) → (holdsId i s = true → repeatSec (job s) = 0) →
  oneOff i (mkRegistry (<[k := s]> (slots r)) (observed r)).
Proof.
  intros [Hw Ho] Hk Hw' Hs. split; [exact Hw'|]. cbn [slots]. intros k' s' Hk' Hh. destruct (decide (k = k')) as [<-|Hne].
  - rewrite list_lookup_insert_eq in Hk' by (by eapply lookup_lt_Some). injection Hk' as <-. by apply Hs.
  - rewrite list_lookup_insert_ne in Hk' by done. by eapply Ho.
Qed.

Lemma oneOff_onJob i i' f r : oneOff i r →
  (∀ s, used (f s) = used s ∧ id (job (f s)) = id (job s) ∧ repeatSec (job (f s)) = repeatSec (job s)) →
  oneOff i (onJob i' f r).
Proof.
  intros H Hf. pose proof H as [Hw Ho]. pose proof (onJob_wf i' f r Hw (λ s, proj1 (proj2 (Hf s)))) as Hw'.
  revert Hw'. unfold onJob. destruct (index_of _ _) as [k|] eqn:E; [|done]. intros Hw'.
  apply index_lookup in E as (s & Hs & Hu & _ & E). rewrite E in *. destruct (Hf s) as (H1 & H2 & H3).
  eapply oneOff_insert; [done|exact Hs|exact Hw'|]. rewrite H3. unfold holdsId. rewrite H1, H2. by apply (Ho k).
Qed.

Lemma oneOff_cancel i i' r : oneOff i r → oneOff i (requestCancel i' r).2.
Proof.
  intros H. pose proof H as [Hw Ho]. pose proof (cancel_wf i' r Hw) as Hw'. revert Hw'. unfold requestCancel.
  destruct (index_of _ _) as [k|] eqn:E; [|done].
  apply index_lookup in E as (s & Hs & Hu & _ & ->). destruct (jstate (job s)); cbn [snd]; try done; intros Hw'.
  all: eapply oneOff_insert; [done|exact Hs|exact Hw'|]; apply (Ho k s Hs).
Qed.

Lemma oneOff_begin i title argument tot u now now2 r : wf r → lookupJob i (slots r) = None →
  oneOff i (begin_ i title argument tot u 0 now now2 r).1.2.
Proof.
  intros Hw Hno. assert (H : oneOff i r).
  { split; [done|]. intros k s Hk [Hu Hid]%holdsId_true. by destruct (proj1 (lookupJob_none r i) Hno k s Hk Hu). }
  pose proof (begin_wf i title argument tot u 0 now now2 r Hw) as Hw'. revert Hw'. unfold begin_.
  destruct (bool_decide _); [done|]. cbv zeta. destruct (Nat.leb_spec kMaxJobs (slotFor i now (slots r))) as [|Hlt]; [done|].
  cbn [fst snd]. intros Hw'. destruct (slotFor_spec i now r Hw Hlt) as (s0 & Hs0 & _). by eapply oneOff_insert.
Qed.

Lemma finish_frees i st step now r : oneOff i r → lookupJob i (slots (finish i st step now r).1) = None.
Proof.
  intros [Hw Ho]. pose proof (finish_outcome i st step now r Hw) as H.
  destruct (finish i st step now r) as [r' told]. cbn [fst]. destruct H as [_ H].
  destruct (lookupJob i (slots r)) as [s|] eqn:E; [|by destruct H as [-> _]].
  destruct H as [-> _]. apply (lookupJob_some _ _ _ Hw) in E as (k & Hk & Hu & Hid).
  by rewrite (Ho k s Hk) by by apply holdsId_true.
Qed.

Lemma finish_oneOff i st step now r : oneOff i r → wf (finish i st step now r).1.
Proof. intros [Hw _]. by apply finish_wf. Qed.

(** ** Concrete registries *)

Definition busy : Registry := mkRegistry
  ((λ k, mkSlot true (mkJob [Z.of_nat k] [] [] [] (if (k =? 3)%nat then Paused else Running) 1 10 UnitBytes 0 false 0 0)
     (Z.of_nat k) 0) <$> seq 0 8) true.

Lemma busy_wf : wf busy.
Proof.
  split; [done|]. intros a b sa sb Ha Hb _ _ Hid. unfold busy in Ha, Hb. cbn [slots] in Ha, Hb.
  rewrite list_lookup_fmap_Some in Ha, Hb. destruct Ha as (x & -> & Hx), Hb as (y & -> & Hy).
  apply lookup_seq in Hx as [-> _], Hy as [-> _]. cbn in Hid. injection Hid as Hid. lia.
Qed.

Lemma begin_outcome_witness :
  let '(ok, r', told) := begin_ [9] (lit "t") [] 0 UnitNone 0 100 101 busy in
  wf r' ∧
  (if ok then
     let j := mkJob [9] (lit "t") [] [] Running 0 0 UnitNone 0 false 0 0 in
     told = (if observed busy then [JobStarted j] else []) ∧
     lookupJob [9] (slots r') = Some (mkSlot true j 101 0) ∧
     (∀ i', i' ≠ [9] → lookupJob i' (slots r') = lookupJob i' (slots busy) ∨
        (lookupJob i' (slots r') = None ∧ lookupJob [9] (slots busy) = None ∧
         Forall (λ s, used s = true) (slots busy) ∧
         ∃ s, lookupJob i' (slots busy) = Some s ∧ jstate (job s) ≠ Running))
   else r' = busy ∧ told = [] ∧ lookupJob [9] (slots busy) = None ∧
        Forall (λ s, used s = true ∧ jstate (job s) = Running) (slots busy)).
Proof.
  apply (begin_outcome [9] (lit "t") [] 0 UnitNone 0 100 101 busy); [exact busy_wf|done|].
  repeat (constructor; [cbn; lia|]). constructor.
Defined.

Lemma finish_outcome_witness :
  let '(r', told) := finish [2] Done_ [] 50 busy in
  (∀ i', i' ≠ [2] → lookupJob i' (slots r') = lookupJob i' (slots busy)) ∧
  match lookupJob [2] (slots busy) with
  | None => r' = busy ∧ told = []
  | Some s =>
      let j := endJob Done_ [] (job s) in
      lookupJob [2] (slots r') = (if repeatSec (job s) =? 0 then None else Some (mkSlot true j (started s) 50)) ∧
      told = (if observed busy then [JobFinished (set_duration (duration (50 - started s)) j)] else [])
  end.
Proof. apply (finish_outcome [2] Done_ [] 50 busy busy_wf). Defined.

(** A paused operation does not keep its record: when the eight slots
    are taken, a new operation is given the slot of the paused one. *)
Example paused_record_reused :
  let '(ok, r', _) := begin_ [9] [] [] 0 UnitNone 0 100 101 busy in
  ok = true ∧ contains [3] busy = true ∧ contains [3] r' = false.
Proof. vm_compute. auto. Qed.

End JobRegistry.
