(* ===== verification/DnsCodec.v ===== *)
(** * DNS messages of the server ([src/dns/DnsServer.cpp])

    The wire half of [DnsServer]: decoding a query and an upstream answer,
    encoding a name, building an answer and an NXDOMAIN.  The server has a name
    decoder of its own, with other limits than the one of the probes
    ([DnsWire]). *)
From S2P Require Import Prelude Text DnsWire.
#[local] Open Scope Z_scope.

Module DnsCodec.
Import DnsMessage.

Definition DNS_TYPE_A : Z := 1.
Definition DNS_TYPE_AAAA : Z := 28.
Definition DNS_FLAG_QR : Z := 32768.
Definition DNS_FLAG_RD : Z := 256.
Definition DNS_FLAG_RA : Z := 128.
Definition DNS_RCODE_NXDOMAIN : Z := 3.
Definition DNS_MAX_MSG_SIZE : nat := 4096.
Definition kMaxNameLen : nat := 255.
Definition kMaxPointers : nat := 32.

(** How a query ended ([src/dns/DnsLogFormat.h]). *)
Inductive DnsQueryOutcome :=
  | Answered | Nxdomain | Timeout | NoSlot | NoSocket | NoData | Blocked.

#[export] Instance DnsQueryOutcome_eq_dec : EqDecision DnsQueryOutcome.
Proof. solve_decision. Defined.

Definition forwardingOutcome (reply : bytes) (len : nat) : run DnsQueryOutcome :=
  if (len <? 4)%nat then mret Answered
  else
    flags2 ← rd reply 3;
    mret (if Z.land flags2 15 =? DNS_RCODE_NXDOMAIN then Nxdomain else Answered).

(** ** Decoding *)

(** [decodeDomainName]: the name (empty when it is refused) and what [offset]
    is left at.  [offset] is set when the name ends or at the first pointer. *)
Fixpoint decode_loop (fuel : nat) (data : bytes) (len pos jumps : nat) (domain : bytes)
    (offset : nat) (offsetSet : bool) : run (bytes * nat) :=
  match fuel with
  | O => OutOfFuel
  | S fuel' =>
      if (len <=? pos)%nat then mret ([], offset)
      else
        b ← rd data pos;
        if b =? 0 then mret (domain, if offsetSet then offset else (pos + 1)%nat)
        else if isPointer b then
          if (len <=? pos + 1)%nat then mret ([], offset)
          else
            let offset := if offsetSet then offset else (pos + 2)%nat in
            next ← rd data (pos + 1);
            if (kMaxPointers <? jumps + 1)%nat then mret ([], offset)
            else decode_loop fuel' data len (pointerTarget b next) (jumps + 1) domain offset true
        else if negb (Z.land b 192 =? 0) then mret ([], offset)
        else
          let pos := (pos + 1)%nat in
          let labelLen := Z.to_nat b in
          if (len - pos <? labelLen)%nat then mret ([], offset)
          else if (kMaxNameLen <? length domain + labelLen)%nat then mret ([], offset)
          else
            text ← rdn labelLen data pos;
            decode_loop fuel' data len (pos + labelLen) jumps
              ((if bool_decide (domain = []) then [] else domain ++ [46]) ++ text) offset offsetSet
  end.

Definition decodeDomainName (data : bytes) (len offset : nat) : run (bytes * nat) :=
  decode_loop ((kMaxPointers + 1) * (len + 1)) data len offset 0 [] offset false.

Record Query := mkQuery { qName : bytes; qType : Z; qClass : Z; qId : Z }.

(** [parseQuery]; [None] is [false]. *)
Definition parseQuery (buf : bytes) (len : nat) : run (option Query) :=
  if (len <? kHeaderBytes)%nat then mret None
  else
    id ← rd16be buf 0;
    flags ← rd16be buf 2;
    if negb (Z.land flags DNS_FLAG_QR =? 0) then mret None
    else
      qdcount ← rd16be buf 4;
      if qdcount =? 0 then mret None
      else
        d ← decodeDomainName buf len kHeaderBytes;
        let '(domain, offset) := d in
        if bool_decide (domain = []) then mret None
        else if (len <? offset + kQuestionTailBytes)%nat then mret None
        else
          t ← rd16be buf offset;
          c ← rd16be buf (offset + 2);
          mret (Some (mkQuery domain t c id)).

(** [snprintf("%u.%u.%u.%u")] of four bytes. *)
Definition dotted (b : bytes) : bytes :=
  dec (nth 0 b 0) ++ 46 :: dec (nth 1 b 0) ++ 46 :: dec (nth 2 b 0) ++ 46 :: dec (nth 3 b 0).

Fixpoint skip_questions (qd : nat) (buf : bytes) (len offset : nat) : run nat :=
  match qd with
  | O => mret offset
  | S qd' =>
      if (offset <? len)%nat then
        d ← decodeDomainName buf len offset;
        skip_questions qd' buf len (d.2 + kQuestionTailBytes)
      else mret offset
  end.

Definition minTtl (ttlSec ttlN : Z) : Z :=
  if (ttlSec =? 0) || (ttlN <? ttlSec) then ttlN else ttlSec.

Section Inet.
Context (pton4 : bytes → option Z) (pton6 : bytes → option bytes).
Context (ntop6 : bytes → option bytes).

(** The text of one answer record's data, when it is an address. *)
Definition recordText (type rdlen : Z) (data : bytes) : option bytes :=
  if (type =? DNS_TYPE_A) && (rdlen =? 4) then Some (dotted data)
  else if (type =? DNS_TYPE_AAAA) && (rdlen =? 16) then ntop6 data
  else None.

Fixpoint answer_loop (an : nat) (buf : bytes) (len offset : nat) (ips : list bytes) (ttlSec : Z)
  : run (list bytes * Z) :=
  match an with
  | O => mret (ips, ttlSec)
  | S an' =>
      if (len <? offset + kRecordFixedBytes)%nat then mret (ips, ttlSec)
      else
        d ← decodeDomainName buf len offset;
        let offset := d.2 in
        if (len <? offset + kRecordFixedBytes)%nat then mret (ips, ttlSec)
        else
          type ← rd16be buf offset;
          t ← rdn 4 buf (offset + 4);
          let ttlN := of_be4 (nth 0 t 0) (nth 1 t 0) (nth 2 t 0) (nth 3 t 0) in
          rdlen ← rd16be buf (offset + 8);
          let offset := (offset + kRecordFixedBytes)%nat in
          let n := Z.to_nat rdlen in
          if (len <? offset + n)%nat then mret (ips, ttlSec)
          else
            data ← rdn n buf offset;
            match recordText type rdlen data with
            | Some ip => answer_loop an' buf len (offset + n) (ips ++ [ip]) (minTtl ttlSec ttlN)
            | None => answer_loop an' buf len (offset + n) ips ttlSec
            end
  end.

(** [parseForwardAnswer]: the addresses and the lowest TTL of their records. *)
Definition parseForwardAnswer (buf : bytes) (len : nat) : run (list bytes * Z) :=
  if (len <? kHeaderBytes)%nat then mret ([], 0)
  else
    qd ← rd16be buf 4;
    an ← rd16be buf 6;
    offset ← skip_questions (Z.to_nat qd) buf len kHeaderBytes;
    answer_loop (Z.to_nat an) buf len offset [] 0.

(** ** Encoding

    Stores into a buffer: out of bounds unless all of them are inside it. *)

Definition wr (pos : nat) (bs buf : bytes) : run bytes :=
  if (pos + length bs <=? length buf)%nat
  then Done (take pos buf ++ bs ++ drop (pos + length bs) buf) else OutOfBounds.

(** [encodeDomainName] at [pos]: the position after the name, and the buffer.
    A piece longer than 63 bytes is cut; an empty last piece is not written. *)
Fixpoint encode_labels (pieces : list bytes) (pos : nat) (buf : bytes) : run (nat * bytes) :=
  match pieces with
  | [] => mret (pos, buf)
  | [p] =>
      if bool_decide (p = []) then mret (pos, buf)
      else
        let l := take 63 p in
        buf ← wr pos (Z.of_nat (length l) :: l) buf;
        mret ((pos + 1 + length l)%nat, buf)
  | p :: ps =>
      let l := take 63 p in
      buf ← wr pos (Z.of_nat (length l) :: l) buf;
      encode_labels ps (pos + 1 + length l)%nat buf
  end.

Definition encodeDomainName (domain : bytes) (pos : nat) (buf : bytes) : run (nat * bytes) :=
  r ← encode_labels (split_on 46 domain) pos buf;
  let '(pos, buf) := r in
  buf ← wr pos [0] buf;
  mret ((pos + 1)%nat, buf).

Definition header (id flags ancount : Z) : bytes :=
  be2 id ++ be2 flags ++ be2 1 ++ be2 ancount ++ be2 0 ++ be2 0.

(** The header, the name and the rest of the question; [0] when it does not fit. *)
Definition buildQuestion (id flags ancount : Z) (domain : bytes) (type cls : Z) (buf : bytes)
  : run (nat * bytes) :=
  if (length buf <? kHeaderBytes)%nat then mret (0%nat, buf)
  else
    buf ← wr 0 (header id flags ancount) buf;
    r ← encodeDomainName domain kHeaderBytes buf;
    let '(pos, buf) := r in
    if (length buf <? pos + 4)%nat then mret (0%nat, buf)
    else
      buf ← wr pos (be2 type ++ be2 cls) buf;
      mret ((pos + 4)%nat, buf).

(** One record; [uninit] is what the four bytes of [ipAddr] hold when the text
    is refused (the sixteen bytes of the buffer keep what they held). *)
Definition putRecord (uninit : bytes) (cls ttl : Z) (ip : bytes) (pos : nat) (buf : bytes)
  : run (nat * bytes) :=
  let isV6 := bool_decide (is_Some (find_char 58 ip)) in
  let rrType := if isV6 then DNS_TYPE_AAAA else DNS_TYPE_A in
  buf ← wr pos ([192; 12] ++ be2 rrType ++ be2 cls ++ be4 ttl) buf;
  let pos := (pos + 10)%nat in
  if isV6 then
    buf ← wr pos (be2 16) buf;
    buf ← match pton6 ip with
          | Some a => wr (pos + 2) a buf
          | None => mret buf
          end;
    mret ((pos + 18)%nat, buf)
  else
    buf ← wr pos (be2 4 ++ match pton4 ip with Some v => le4 v | None => uninit end) buf;
    mret ((pos + 6)%nat, buf).

Fixpoint putRecords (uninit : bytes) (cls ttl : Z) (ips : list bytes) (pos : nat) (buf : bytes)
  : run (nat * bytes) :=
  match ips with
  | [] => mret (pos, buf)
  | ip :: ips' =>
      if (length buf <? pos + (kHeaderBytes + kQuestionTailBytes))%nat then mret (pos, buf)
      else
        r ← putRecord uninit cls ttl ip pos buf;
        putRecords uninit cls ttl ips' r.1 r.2
  end.

Definition buildAnswer (uninit : bytes) (id : Z) (domain : bytes) (type cls : Z)
    (ips : list bytes) (ttl : Z) (buf : bytes) : run (nat * bytes) :=
  r ← buildQuestion id (Z.lor (Z.lor DNS_FLAG_QR DNS_FLAG_RD) DNS_FLAG_RA)
        (u16 (Z.of_nat (length ips))) domain type cls buf;
  if (r.1 =? 0)%nat then mret r
  else putRecords uninit cls ttl ips r.1 r.2.

Definition buildNxdomain (id : Z) (domain : bytes) (type cls : Z) (buf : bytes)
  : run (nat * bytes) :=
  buildQuestion id
    (Z.lor (Z.lor (Z.lor DNS_FLAG_QR DNS_FLAG_RD) DNS_FLAG_RA) DNS_RCODE_NXDOMAIN) 0
    domain type cls buf.

End Inet.

(** ** Reading: every datagram is decoded, inside its bounds *)

Ltac two_results := do 2 eexists; split; [done|cbn [length]; lia].

Lemma decode_loop_total fuel data len pos jumps domain offset b :
  (len <= length data)%nat → (jumps <= kMaxPointers)%nat →
  ((kMaxPointers - jumps) * (len + 1) + (len - pos) < fuel)%nat →
  (length domain <= 256)%nat → (offset <= len)%nat →
  ∃ d o, decode_loop fuel data len pos jumps domain offset b = Done (d, o) ∧
    (length d <= 256)%nat ∧ (o <= len)%nat.
Proof.
  intros Hl. revert pos jumps domain offset b.
  induction fuel as [|fuel IH]; intros pos jumps domain offset b Hj Hf Hd Ho; [by apply Nat.nlt_0_r in Hf|].
  cbn [decode_loop]. destruct (Nat.leb_spec len pos) as [|Hp]; [by two_results|].
  destruct (rd_in data pos ltac:(lia)) as (c & _ & ->). rewrite run_bind_done.
  destruct (c =? 0). { do 2 eexists. split; [done|]. destruct b; lia. }
  destruct (isPointer c).
  - destruct (Nat.leb_spec len (pos + 1)); [by two_results|].
    destruct (rd_in data (pos + 1) ltac:(lia)) as (n & _ & ->). rewrite run_bind_done.
    destruct (Nat.ltb_spec kMaxPointers (jumps + 1)) as [|Hk].
    { do 2 eexists. split; [done|]. cbn [length]. destruct b; lia. }
    apply IH; [done| |done|destruct b; lia].
    replace (kMaxPointers - jumps)%nat with (S (kMaxPointers - (jumps + 1))) in Hf by lia.
    cbn [Nat.mul] in Hf. lia.
  - destruct (negb _); [by two_results|].
    destruct (Nat.ltb_spec (len - (pos + 1)) (Z.to_nat c)) as [|Hc]; [by two_results|].
    destruct (Nat.ltb_spec kMaxNameLen (length domain + Z.to_nat c)) as [|Hk];
      [by two_results|].
    rewrite rdn_total by lia. rewrite run_bind_done.
    apply IH; [done|lia| |done]. unfold kMaxNameLen in Hk.
    rewrite length_app, length_take, length_drop.
    destruct (bool_decide _); rewrite ?length_app; cbn [length]; lia.
Qed.

Lemma decodeDomainName_total data len offset : (len <= length data)%nat → (offset <= len)%nat →
  ∃ d o, decodeDomainName data len offset = Done (d, o) ∧ (length d <= 256)%nat ∧ (o <= len)%nat.
Proof.
  intros. unfold decodeDomainName. apply decode_loop_total; cbn [length]; try lia.
Qed.

Lemma parseQuery_total buf len : (len <= length buf)%nat →
  ∃ r, parseQuery buf len = Done r ∧
    ∀ q, r = Some q → qName q ≠ [] ∧ (length (qName q) <= 256)%nat ∧
      is_u16 (qType q) ∧ is_u16 (qClass q) ∧ is_u16 (qId q).
Proof.
  intros Hl. unfold parseQuery, kHeaderBytes.
  destruct (Nat.ltb_spec len 12); [by eexists|].
  destruct (rd16be_total buf 0 ltac:(lia)) as (id & -> & Hid). rewrite run_bind_done.
  destruct (rd16be_total buf 2 ltac:(lia)) as (fl & -> & _). rewrite run_bind_done.
  destruct (negb _); [by eexists|].
  destruct (rd16be_total buf 4 ltac:(lia)) as (qd & -> & _). rewrite run_bind_done.
  destruct (_ =? 0); [by eexists|].
  destruct (decodeDomainName_total buf len 12 Hl ltac:(lia)) as (d & o & -> & Hd & Ho). rewrite run_bind_done.
  destruct (bool_decide_reflect (d = [])) as [|Hne]; [by eexists|].
  destruct (Nat.ltb_spec len (o + kQuestionTailBytes)) as [|Ht]; [by eexists|]. unfold kQuestionTailBytes in Ht.
  destruct (rd16be_total buf o ltac:(lia)) as (t & -> & Htt). rewrite run_bind_done.
  destruct (rd16be_total buf (o + 2) ltac:(lia)) as (c & -> & Hcc). rewrite run_bind_done.
  eexists. split; [done|]. by intros q [= <-].
Qed.

Lemma skip_questions_total qd buf len offset : (len <= length buf)%nat →
  ∃ o, skip_questions qd buf len offset = Done o.
Proof.
  intros Hl. revert offset. induction qd as [|qd IH]; intros offset; cbn [skip_questions]; [by eexists|].
  destruct (Nat.ltb_spec offset len); [|by eexists].
  destruct (decodeDomainName_total buf len offset Hl ltac:(lia)) as (d & o & -> & _). apply IH.
Qed.

Lemma answer_loop_total ntop6 an buf len offset ips t : (len <= length buf)%nat →
  ∃ r, answer_loop ntop6 an buf len offset ips t = Done r.
Proof.
  intros Hl. revert offset ips t. induction an as [|an IH]; intros offset ips t; cbn [answer_loop]; [by eexists|].
  destruct (Nat.ltb_spec len (offset + kRecordFixedBytes)) as [|H1]; [by eexists|].
  destruct (decodeDomainName_total buf len offset Hl ltac:(unfold kRecordFixedBytes in *; lia)) as (d & o & -> & _).
  rewrite run_bind_done. cbn [snd].
  destruct (Nat.ltb_spec len (o + kRecordFixedBytes)) as [|H2]; [by eexists|]. unfold kRecordFixedBytes in *.
  destruct (rd16be_total buf o ltac:(lia)) as (ty & -> & _). rewrite run_bind_done.
  rewrite rdn_total by lia. rewrite run_bind_done.
  destruct (rd16be_total buf (o + 8) ltac:(lia)) as (n & -> & _). rewrite run_bind_done.
  destruct (Nat.ltb_spec len (o + 10 + Z.to_nat n)) as [|H3]; [by eexists|].
  rewrite rdn_total by lia. rewrite run_bind_done. destruct (recordText _ _ _ _); apply IH.
Qed.

Lemma parseForwardAnswer_total ntop6 buf len : (len <= length buf)%nat →
  ∃ r, parseForwardAnswer ntop6 buf len = Done r.
Proof.
  intros Hl. unfold parseForwardAnswer, kHeaderBytes. destruct (Nat.ltb_spec len 12); [by eexists|].
  destruct (rd16be_total buf 4 ltac:(lia)) as (qd & -> & _). rewrite run_bind_done.
  destruct (rd16be_total buf 6 ltac:(lia)) as (an & -> & _). rewrite run_bind_done.
  destruct (skip_questions_total (Z.to_nat qd) buf len 12 Hl) as (o & ->). rewrite run_bind_done.
  by apply answer_loop_total.
Qed.

Lemma forwardingOutcome_total reply len : (len <= length reply)%nat →
  ∃ o, forwardingOutcome reply len = Done o ∧ (o = Answered ∨ o = Nxdomain).
Proof.
  intros Hl. unfold forwardingOutcome. destruct (Nat.ltb_spec len 4); [eexists; auto|].
  destruct (rd_in reply 3 ltac:(lia)) as (f & _ & ->). rewrite run_bind_done.
  eexists. split; [done|]. destruct (_ =? _); auto.
Qed.

(** ** Writing *)

Lemma wr_app pre rest bs : (length bs <= length rest)%nat →
  wr (length pre) bs (pre ++ rest) = Done (pre ++ bs ++ drop (length bs) rest).
Proof.
  intros H. unfold wr. rewrite length_app.
  destruct (Nat.leb_spec (length pre + length bs) (length pre + length rest)); [|lia].
  by rewrite take_app_length, drop_app_ge, Nat.add_comm, Nat.add_sub by lia.
Qed.

(** The labels [encodeDomainName] writes, and their bytes. *)
Definition cutLabel (p : bytes) : bytes := let l := take 63 p in Z.of_nat (length l) :: l.

Fixpoint pieceBytes (pieces : list bytes) : bytes :=
  match pieces with
  | [] => []
  | [p] => if bool_decide (p = []) then [] else cutLabel p
  | p :: ps => cutLabel p ++ pieceBytes ps
  end.

Definition nameBytes (domain : bytes) : bytes := pieceBytes (split_on 46 domain) ++ [0].

Lemma cutLabel_length p : (length (cutLabel p) <= 1 + length p)%nat.
Proof. unfold cutLabel. cbn. rewrite length_take. lia. Qed.

(** Storing [bs] after [pre] when [rest] has room. *)
Ltac wr_step :=
  match goal with
  | |- context [wr (length ?pre) ?bs (?pre ++ ?rest)] => rewrite (wr_app pre rest bs)
  end.

Lemma encode_labels_eq pieces pre rest : (length (pieceBytes pieces) <= length rest)%nat →
  encode_labels pieces (length pre) (pre ++ rest) =
  Done ((length pre + length (pieceBytes pieces))%nat,
        pre ++ pieceBytes pieces ++ drop (length (pieceBytes pieces)) rest).
Proof.
  revert pre rest. induction pieces as [|p ps IH]; intros pre rest H.
  { cbn. by rewrite Nat.add_0_r. }
  destruct ps as [|p' ps].
  - cbn [encode_labels pieceBytes] in *. destruct (bool_decide (p = [])).
    { cbn [length app drop]. by rewrite Nat.add_0_r. }
    fold (cutLabel p). rewrite wr_app by done. rewrite run_bind_done. unfold cutLabel at 3.
    cbn [length]. by rewrite <- Nat.add_assoc.
  - change (encode_labels (p :: p' :: ps) (length pre) (pre ++ rest)) with
      (buf ← wr (length pre) (cutLabel p) (pre ++ rest);
       encode_labels (p' :: ps) (length pre + 1 + length (take 63 p))%nat buf).
    change (pieceBytes (p :: p' :: ps)) with (cutLabel p ++ pieceBytes (p' :: ps)) in *.
    rewrite length_app in H. rewrite wr_app by lia. rewrite run_bind_done.
    replace (length pre + 1 + length (take 63 p))%nat with (length (pre ++ cutLabel p))
      by (rewrite length_app; unfold cutLabel; cbn [length]; lia).
    rewrite (app_assoc pre), IH by (rewrite length_drop; lia).
    rewrite !length_app, drop_drop, <- !app_assoc. do 2 f_equal. lia.
Qed.

Lemma pieceBytes_length pieces : (length (pieceBytes pieces) <= sum_list_with (λ p, S (length p)) pieces)%nat.
Proof.
  induction pieces as [|p ps IH]; [done|]. destruct ps as [|p' ps].
  - cbn [pieceBytes sum_list_with]. pose proof (cutLabel_length p).
    destruct (bool_decide _); cbn [length]; lia.
  - change (pieceBytes (p :: p' :: ps)) with (cutLabel p ++ pieceBytes (p' :: ps)).
    rewrite length_app. cbn [sum_list_with] in *. pose proof (cutLabel_length p). lia.
Qed.

Lemma split_on_sum c s : sum_list_with (λ p, S (length p)) (split_on c s) = S (length s).
Proof.
  induction s as [|x s IH]; [done|]. cbn [split_on]. destruct (x =? c).
  - cbn in *. by rewrite IH.
  - destruct (split_on c s) as [|p ps] eqn:E; [by apply split_on_nonnil in E|]. cbn in *. lia.
Qed.

Lemma nameBytes_length domain : (length (nameBytes domain) <= length domain + 2)%nat.
Proof.
  unfold nameBytes. rewrite length_app. cbn [length].
  pose proof (pieceBytes_length (split_on 46 domain)) as H. rewrite split_on_sum in H. lia.
Qed.

Lemma encodeDomainName_eq domain pre rest : (length (nameBytes domain) <= length rest)%nat →
  encodeDomainName domain (length pre) (pre ++ rest) =
  Done ((length pre + length (nameBytes domain))%nat,
        pre ++ nameBytes domain ++ drop (length (nameBytes domain)) rest).
Proof.
  unfold nameBytes, encodeDomainName. rewrite !length_app. cbn [length]. intros H.
  rewrite encode_labels_eq by lia. rewrite run_bind_done.
  rewrite <- length_app, (app_assoc pre), wr_app by (rewrite length_drop; cbn; lia). rewrite run_bind_done.
  rewrite length_app, drop_drop, <- !app_assoc. cbn [length]. do 2 f_equal. lia.
Qed.

(** ** What is built *)

Definition questionBytes (id flags ancount : Z) (domain : bytes) (type cls : Z) : bytes :=
  header id flags ancount ++ nameBytes domain ++ be2 type ++ be2 cls.

Lemma buildQuestion_eq id flags an domain type cls buf :
  (length domain + 18 <= length buf)%nat →
  let q := questionBytes id flags an domain type cls in
  buildQuestion id flags an domain type cls buf = Done (length q, q ++ drop (length q) buf) ∧
  (length q <= length domain + 18)%nat ∧ (length q ≠ 0)%nat.
Proof.
  intros H q. pose proof (nameBytes_length domain) as Hn.
  assert (Hq : length q = (16 + length (nameBytes domain))%nat).
  { unfold q, questionBytes. rewrite !length_app. cbn [length header be2 app]. lia. }
  split; [|lia]. unfold buildQuestion, kHeaderBytes. destruct (Nat.ltb_spec (length buf) 12); [lia|].
  rewrite (wr_app [] buf) by (cbn; lia). rewrite run_bind_done. cbn [app].
  change 12%nat with (length (header id flags an)) at 1.
  rewrite encodeDomainName_eq by (rewrite length_drop; cbn; lia). rewrite run_bind_done. cbv beta iota.
  rewrite <- length_app, (app_assoc (header _ _ _)).
  match goal with |- context [(length ?b <? ?n)%nat] => destruct (Nat.ltb_spec (length b) n) as [Hlt|_] end.
  { rewrite !length_app, !length_drop in Hlt. cbn [length header be2 app] in Hlt. lia. }
  rewrite wr_app by (rewrite !length_drop; cbn [length header be2 app]; lia). rewrite run_bind_done.
  f_equal. f_equal.
  - rewrite Hq, length_app. cbn [length header be2 app]. lia.
  - unfold q, questionBytes. rewrite !drop_drop, <- !app_assoc. do 4 f_equal.
    rewrite !length_app. cbn [length header be2 app]. f_equal.
Qed.

Section Answers.
Context (pton4 : bytes → option Z) (pton6 : bytes → option bytes).
Context (Hp6 : ∀ ip a, pton6 ip = Some a → length a = 16%nat).

Definition isV6 (ip : bytes) : bool := bool_decide (is_Some (find_char 58 ip)).

(** The record of an address whose text is accepted. *)
Definition recordBytes (cls ttl : Z) (ip : bytes) : bytes :=
  if isV6 ip
  then [192; 12] ++ be2 DNS_TYPE_AAAA ++ be2 cls ++ be4 ttl ++ be2 16 ++ default [] (pton6 ip)
  else [192; 12] ++ be2 DNS_TYPE_A ++ be2 cls ++ be4 ttl ++ be2 4 ++ le4 (default 0 (pton4 ip)).

Definition accepted (ip : bytes) : Prop :=
  if isV6 ip then is_Some (pton6 ip) else is_Some (pton4 ip).

Lemma putRecord_spec uninit cls ttl ip pre rest : length uninit = 4%nat → (28 <= length rest)%nat →
  ∃ r, putRecord pton4 pton6 uninit cls ttl ip (length pre) (pre ++ rest) =
      Done ((length pre + length r)%nat, pre ++ r ++ drop (length r) rest) ∧
    (length r <= 28)%nat ∧ (accepted ip → r = recordBytes cls ttl ip).
Proof.
  intros Hu Hr. unfold putRecord, accepted, recordBytes. fold (isV6 ip).
  rewrite wr_app by (destruct (isV6 ip); cbn; lia). rewrite run_bind_done.
  set (h := [192; 12] ++ be2 (if isV6 ip then DNS_TYPE_AAAA else DNS_TYPE_A) ++ be2 cls ++ be4 ttl).
  assert (Hh : length h = 10%nat) by done. rewrite Hh.
  replace (length pre + 10)%nat with (length (pre ++ h)) by (rewrite length_app, Hh; done).
  rewrite (app_assoc pre). destruct (isV6 ip) eqn:E6.
  - rewrite wr_app by (rewrite length_drop; cbn; lia). rewrite run_bind_done.
    rewrite drop_drop. cbn [length be2 Nat.add]. destruct (pton6 ip) as [a|] eqn:Ea.
    + pose proof (Hp6 _ _ Ea) as Hla.
      replace (length (pre ++ h) + 2)%nat with (length ((pre ++ h) ++ be2 16))
        by (rewrite !length_app, Hh; cbn; lia).
      rewrite (app_assoc (pre ++ h)), wr_app by (rewrite length_drop; lia). rewrite run_bind_done.
      exists (h ++ be2 16 ++ a). rewrite !length_app, Hh, Hla. cbn [length be2].
      rewrite drop_drop, <- !app_assoc. split; [do 2 f_equal; lia|]. split; [lia|].
      intros _. unfold h. by rewrite <- !app_assoc.
    + rewrite run_bind_done. exists (h ++ be2 16 ++ take 16 (drop 12 rest)).
      rewrite !length_app, Hh, length_take, length_drop. cbn [length be2].
      replace (16 `min` (length rest - 12))%nat with 16%nat by lia.
      split; [|split; [lia|by intros []]]. f_equal. f_equal; [lia|].
      rewrite <- !app_assoc. do 3 f_equal.
      rewrite <- (take_drop 16 (drop 12 rest)) at 1. by rewrite drop_drop.
  - set (w := match pton4 ip with Some v => le4 v | None => uninit end).
    assert (Hw : length w = 4%nat) by (unfold w; by destruct (pton4 ip)).
    rewrite wr_app by (rewrite length_app, length_drop, Hw; cbn; lia). rewrite run_bind_done.
    exists (h ++ be2 4 ++ w). rewrite !length_app, Hh, Hw. cbn [length be2].
    rewrite drop_drop, <- !app_assoc. split; [do 2 f_equal; lia|]. split; [lia|].
    intros [v Hv]. unfold w, h. rewrite Hv. by rewrite <- !app_assoc.
Qed.

Lemma putRecords_spec uninit cls ttl ips pre rest : length uninit = 4%nat →
  (28 * length ips <= length rest)%nat →
  ∃ r, putRecords pton4 pton6 uninit cls ttl ips (length pre) (pre ++ rest) =
      Done ((length pre + length r)%nat, pre ++ r ++ drop (length r) rest) ∧
    (length r <= 28 * length ips)%nat ∧
    (Forall accepted ips → r = concat (recordBytes cls ttl <$> ips)).
Proof.
  intros Hu. revert pre rest. induction ips as [|ip ips IH]; intros pre rest Hr.
  { exists []. cbn. by rewrite Nat.add_0_r. }
  cbn [putRecords length] in *.
  match goal with |- context [(?a <? ?b)%nat] => destruct (Nat.ltb_spec a b) as [Hlt|_] end.
  { rewrite length_app in Hlt. unfold kHeaderBytes, kQuestionTailBytes in Hlt. lia. }
  destruct (putRecord_spec uninit cls ttl ip pre rest Hu ltac:(lia)) as (r & -> & Hl & Hacc).
  rewrite run_bind_done. cbn [fst snd]. rewrite <- length_app, (app_assoc pre).
  destruct (IH (pre ++ r) (drop (length r) rest)) as (r' & -> & Hl' & Hacc');
    [rewrite length_drop; lia|].
  exists (r ++ r'). rewrite !length_app, drop_drop, <- !app_assoc. split; [do 2 f_equal; lia|].
  split; [lia|]. intros [H1 H2]%Forall_cons. by rewrite Hacc, Hacc' by done.
Qed.

Definition kAnswerFlags : Z := 33152.

Definition answerBytes (id : Z) (domain : bytes) (type cls : Z) (ips : list bytes) (ttl : Z) : bytes :=
  questionBytes id kAnswerFlags (u16 (Z.of_nat (length ips))) domain type cls ++
  concat (recordBytes cls ttl <$> ips).

Lemma buildAnswer_spec uninit id domain type cls ips ttl buf : length uninit = 4%nat →
  (length domain + 18 + 28 * length ips <= length buf)%nat →
  ∃ m, buildAnswer pton4 pton6 uninit id domain type cls ips ttl buf =
      Done (length m, m ++ drop (length m) buf) ∧
    (length m <= length domain + 18 + 28 * length ips)%nat ∧ (length m ≠ 0)%nat ∧
    (Forall accepted ips → m = answerBytes id domain type cls ips ttl).
Proof.
  intros Hu Hb. unfold buildAnswer.
  change (Z.lor (Z.lor DNS_FLAG_QR DNS_FLAG_RD) DNS_FLAG_RA) with kAnswerFlags.
  destruct (buildQuestion_eq id kAnswerFlags (u16 (Z.of_nat (length ips))) domain type cls buf
    ltac:(lia)) as (E & Hq & Hne). revert E Hq Hne.
  set (q := questionBytes _ _ _ _ _ _). intros -> Hq Hne. rewrite run_bind_done. cbn [fst snd].
  destruct (Nat.eqb_spec (length q) 0); [done|].
  destruct (putRecords_spec uninit cls ttl ips q (drop (length q) buf) Hu) as (r & -> & Hl & Hacc);
    [rewrite length_drop; lia|].
  exists (q ++ r). rewrite !length_app, drop_drop, <- !app_assoc. split; [done|].
  split; [lia|]. split; [lia|]. intros H. unfold answerBytes, q. by rewrite Hacc.
Qed.

Lemma buildNxdomain_spec id domain type cls buf : (length domain + 18 <= length buf)%nat →
  ∃ m, buildNxdomain id domain type cls buf = Done (length m, m ++ drop (length m) buf) ∧
    (length m ≠ 0)%nat ∧ m = questionBytes id 33155 0 domain type cls.
Proof.
  intros Hb. destruct (buildQuestion_eq id 33155 0 domain type cls buf Hb) as (E & _ & Hne).
  by exists (questionBytes id 33155 0 domain type cls).
Qed.

End Answers.

(** ** Reading back what was written *)

Definition goodLabel (l : bytes) : Prop := l ≠ [] ∧ (length l <= 63)%nat.

(** A name whose labels fit the encoding. *)
Definition goodName (domain : bytes) : Prop :=
  Forall goodLabel (split_on 46 domain) ∧ (length domain <= kMaxNameLen)%nat.

Definition joinLabels (acc : bytes) (ls : list bytes) : bytes :=
  foldl (λ d l, (if bool_decide (d = []) then [] else d ++ [46]) ++ l) acc ls.

Lemma joinLabels_app acc ls : acc ≠ [] → joinLabels acc ls = acc ++ concat (cons 46 <$> ls).
Proof.
  revert acc. induction ls as [|l ls IH]; intros acc Ha; cbn; [by rewrite app_nil_r|].
  rewrite bool_decide_eq_false_2 by done. rewrite IH by (by destruct acc).
  by rewrite <- !app_assoc.
Qed.

Lemma joinLabels_split domain : goodName domain → joinLabels [] (split_on 46 domain) = domain.
Proof.
  intros [H _]. destruct (split_on_concat 46 domain) as (p & ps & E & Hd). rewrite E in *.
  apply Forall_cons in H as [[Hp _] _]. cbn [joinLabels foldl]. rewrite bool_decide_eq_true_2 by done.
  cbn [app]. fold (joinLabels p ps). rewrite joinLabels_app by done. done.
Qed.

Lemma pieceBytes_good ls : Forall goodLabel ls → pieceBytes ls = concat (cutLabel <$> ls).
Proof.
  induction 1 as [|l ls [Hne Hl] Hls IH]; [done|]. destruct ls as [|l' ls].
  - cbn [pieceBytes fmap list_fmap concat]. rewrite bool_decide_eq_false_2 by done.
    by rewrite app_nil_r.
  - change (pieceBytes (l :: l' :: ls)) with (cutLabel l ++ pieceBytes (l' :: ls)). by rewrite IH.
Qed.

Lemma cutLabel_good l : goodLabel l → cutLabel l = Z.of_nat (length l) :: l.
Proof. intros [_ H]. unfold cutLabel. by rewrite take_ge by lia. Qed.

Lemma rd_drop data pos c t : drop pos data = c :: t → rd data pos = Done c ∧ (pos < length data)%nat.
Proof.
  intros H. assert (E : data !! pos = Some c).
  { rewrite <- (Nat.add_0_r pos), <- lookup_drop, H. done. }
  split; [unfold rd; by rewrite E|by eapply lookup_lt_Some].
Qed.

Lemma drop_more {A} n (s a t : list A) : drop n s = a ++ t → drop (n + length a) s = t.
Proof. intros H. by rewrite <- drop_drop, H, drop_app_length. Qed.

Lemma small_label_bits n : (n <= 63)%nat → Z.land (Z.of_nat n) 192 = 0.
Proof.
  intros Hn.
  pose proof (u8_forallb (λ z, (63 <? z) || (Z.land z 192 =? 0)) ltac:(by vm_compute)
    (Z.of_nat n) ltac:(unfold is_u8; lia)) as H.
  apply orb_true_iff in H as [H%Z.ltb_lt|H%Z.eqb_eq]; [lia|done].
Qed.

Lemma decode_labels data len jumps post ls fuel pos acc offset b :
  Forall goodLabel ls → drop pos data = concat (cutLabel <$> ls) ++ 0 :: post →
  (pos + length (concat (cutLabel <$> ls)) < len)%nat → (len <= length data)%nat →
  (length (joinLabels acc ls) <= kMaxNameLen)%nat → (length ls < fuel)%nat →
  decode_loop fuel data len pos jumps acc offset b =
  Done (joinLabels acc ls,
        if b then offset else (pos + length (concat (cutLabel <$> ls)) + 1)%nat).
Proof.
  intros Hls. revert fuel pos acc. induction Hls as [|l ls Hl Hls IH]; intros fuel pos acc Hd Hp Hlen Hj Hf;
    (destruct fuel as [|fuel]; [cbn in Hf; lia|]); cbn [decode_loop].
  - destruct (rd_drop _ _ _ _ Hd) as [-> _]. destruct (Nat.leb_spec len pos); [cbn in Hp; lia|].
    rewrite run_bind_done. cbn. by rewrite Nat.add_0_r.
  - assert (Hcut := cutLabel_good l Hl). cbn [fmap list_fmap concat] in *. rewrite Hcut in *.
    rewrite length_app in Hp. cbn [length] in *.
    destruct (rd_drop data pos (Z.of_nat (length l)) (l ++ concat (cutLabel <$> ls) ++ 0 :: post)) as [-> _].
    { by rewrite Hd, <- !app_assoc. }
    destruct (Nat.leb_spec len pos); [lia|]. rewrite run_bind_done.
    destruct Hl as [Hne Hl63]. assert (0 < length l)%nat by (destruct l; [done|cbn; lia]).
    destruct (Z.eqb_spec (Z.of_nat (length l)) 0); [lia|].
    rewrite (small_not_pointer (length l)) by lia.
    rewrite small_label_bits by lia. cbn [Z.eqb negb]. rewrite Nat2Z.id.
    destruct (Nat.ltb_spec (len - (pos + 1)) (length l)); [lia|].
    assert (Hacc : (length acc + length l <= kMaxNameLen)%nat).
    { unfold joinLabels in Hj. cbn [foldl] in Hj. revert Hj. fold (joinLabels).
      match goal with |- (length (foldl _ ?a ls) <= _)%nat → _ => change (foldl _ a ls) with (joinLabels a ls);
        assert (Ha : a ≠ []) by (intros [_ ?]%app_eq_nil; done); rewrite (joinLabels_app a ls Ha) end.
      rewrite !length_app. destruct (bool_decide_reflect (acc = [])) as [->|]; rewrite ?length_app; cbn [length]; lia. }
    destruct (Nat.ltb_spec kMaxNameLen (length acc + length l)); [lia|].
    assert (Hd1 : drop (pos + 1) data = l ++ concat (cutLabel <$> ls) ++ 0 :: post).
    { change 1%nat with (length [Z.of_nat (length l)]). apply drop_more. by rewrite Hd, <- !app_assoc. }
    rewrite rdn_total by lia. rewrite run_bind_done, Hd1, take_app_length.
    rewrite IH; [ |by apply drop_more|lia|done|done|lia].
    cbn [joinLabels foldl]. f_equal. f_equal. destruct b; [done|]. rewrite length_app. cbn [length]. lia.
Qed.

Lemma decode_name data len offset domain post : goodName domain →
  drop offset data = nameBytes domain ++ post → (offset + length (nameBytes domain) <= len)%nat →
  (len <= length data)%nat →
  decodeDomainName data len offset = Done (domain, (offset + length (nameBytes domain))%nat).
Proof.
  intros Hg Hd Ho Hlen. pose proof Hg as [Hls Hl]. unfold nameBytes in *. rewrite pieceBytes_good in * by done.
  rewrite length_app in *. cbn [length] in *. rewrite <- app_assoc in Hd. cbn [app] in Hd.
  unfold decodeDomainName. rewrite (decode_labels _ _ _ post (split_on 46 domain)); try done.
  - rewrite joinLabels_split by done. do 2 f_equal. lia.
  - lia.
  - by rewrite joinLabels_split.
  - pose proof (pieceBytes_length (split_on 46 domain)) as Hp. rewrite split_on_sum in Hp.
    assert (length (split_on 46 domain) <= S (length domain))%nat.
    { rewrite <- (split_on_sum 46). clear. generalize (split_on 46 domain). intros l.
      induction l; cbn [length sum_list_with]; lia. }
    assert (length domain + 1 <= len)%nat.
    { assert (length (concat (cutLabel <$> split_on 46 domain)) = S (length domain)) as HH; [|lia].
      rewrite <- (split_on_sum 46). clear -Hls. induction Hls as [|l ls Hl Hls IH]; [done|].
      cbn [fmap list_fmap concat sum_list_with]. rewrite length_app, (cutLabel_good _ Hl).
      cbn [length]. lia. }
    cbn [Nat.mul kMaxPointers Nat.add]. lia.
Qed.

Lemma rd_at data pos i c : drop pos data !! i = Some c → rd data (pos + i) = Done c.
Proof. rewrite lookup_drop. unfold rd. by intros ->. Qed.

Lemma lor_byte a b : 0 <= b < 256 → Z.lor (Z.shiftl a 8) b = 256 * a + b.
Proof.
  intros Hb.
  assert (Hand : Z.land (Z.shiftl a 8) b = 0).
  { apply Z.bits_inj'. intros n Hn. rewrite Z.land_spec, Z.bits_0. destruct (Z.ltb_spec n 8).
    - by rewrite Z.shiftl_spec_low.
    - rewrite <- (Z.mod_small b (2 ^ 8)) by lia. rewrite Z.mod_pow2_bits_high by lia. apply andb_false_r. }
  rewrite <- Z.lxor_lor, <- Z.add_nocarry_lxor, Z.shiftl_mul_pow2 by (done || lia). lia.
Qed.

Lemma rd16be_be2 data pos v post : is_u16 v → drop pos data = be2 v ++ post → rd16be data pos = Done v.
Proof.
  intros Hv Hd. unfold rd16be.
  rewrite <- (Nat.add_0_r pos) at 1. rewrite (rd_at data pos 0 (v / 256 mod 256)) by by rewrite Hd.
  rewrite run_bind_done, (rd_at data pos 1 (v mod 256)) by by rewrite Hd.
  rewrite run_bind_done. unfold mret, run_ret. f_equal.
  rewrite lor_byte by (word_unfold; zdm). rewrite u16_small by (word_unfold; zdm). word_unfold; zdm.
Qed.

Lemma decode_pointer data len offset domain post post' : goodName domain →
  drop 12 data = nameBytes domain ++ post → (12 + length (nameBytes domain) <= len)%nat →
  (len <= length data)%nat → drop offset data = [192; 12] ++ post' → (offset + 1 < len)%nat →
  decodeDomainName data len offset = Done (domain, (offset + 2)%nat).
Proof.
  intros Hg Hd Ho Hlen Hp Hoff. pose proof (decode_name data len 12 domain post Hg Hd Ho Hlen) as E.
  unfold decodeDomainName in *. revert E.
  assert (∃ f, ((kMaxPointers + 1) * (len + 1))%nat = S f) as [f Hf] by (exists (pred ((kMaxPointers + 1) * (len + 1)))%nat; unfold kMaxPointers; lia).
  rewrite Hf. intros E. cbn [decode_loop].
  destruct (Nat.leb_spec len offset); [lia|].
  rewrite <- (Nat.add_0_r offset) at 1. rewrite (rd_at data offset 0 192) by by rewrite Hp.
  rewrite run_bind_done. cbn [Z.eqb]. change (isPointer 192) with true. cbv beta iota.
  destruct (Nat.leb_spec len (offset + 1)); [lia|].
  rewrite (rd_at data offset 1 12) by by rewrite Hp. rewrite run_bind_done.
  cbn [Nat.ltb]. change (kMaxPointers <? 0 + 1)%nat with false. cbv beta iota.
  change (pointerTarget 192 12) with 12%nat.
  clear E. pose proof Hg as [Hls Hl]. unfold nameBytes in *. rewrite pieceBytes_good in * by done.
  rewrite length_app in *. cbn [length] in *. rewrite <- app_assoc in Hd. cbn [app] in Hd.
  rewrite (decode_labels _ _ _ post (split_on 46 domain)); try done.
  - by rewrite joinLabels_split.
  - lia.
  - by rewrite joinLabels_split.
  - assert (length (split_on 46 domain) <= length (concat (cutLabel <$> split_on 46 domain)))%nat.
    { clear. induction (split_on 46 domain); cbn [length fmap list_fmap concat]; [lia|].
      rewrite length_app. unfold cutLabel at 1. cbn [length]. unfold fmap in *. lia. }
    unfold kMaxPointers in Hf. lia.
Qed.

Section Readback.
Context (pton4 : bytes → option Z) (pton6 : bytes → option bytes).
Context (ntop6 : bytes → option bytes).
Context (Hp6 : ∀ ip a, pton6 ip = Some a → length a = 16%nat).

(** The text [inet_ntop] (or the dotted form) gives back. *)
Definition canonical (ip : bytes) : Prop :=
  if isV6 ip then ∃ a, pton6 ip = Some a ∧ ntop6 a = Some ip
  else ∃ v, pton4 ip = Some v ∧ dotted (le4 v) = ip.

Lemma canonical_accepted ips : Forall canonical ips → Forall (accepted pton4 pton6) ips.
Proof.
  intros H. eapply Forall_impl; [exact H|]. intros ip. unfold canonical, accepted.
  destruct (isV6 ip); intros (? & -> & _); by eexists.
Qed.

Lemma recordBytes_length cls ttl ip : canonical ip →
  length (recordBytes pton4 pton6 cls ttl ip) = if isV6 ip then 28%nat else 16%nat.
Proof.
  unfold canonical, recordBytes. destruct (isV6 ip); [|done]. intros (a & Ha & _). rewrite Ha.
  change (default [] (Some a)) with a. by rewrite !length_app, (Hp6 _ _ Ha).
Qed.

Lemma answer_loop_records data len domain cls ttl post0 post ips offset acc t :
  goodName domain → is_u32 ttl → Forall canonical ips →
  drop 12 data = nameBytes domain ++ post0 → (12 + length (nameBytes domain) <= len)%nat →
  (len <= length data)%nat →
  drop offset data = concat (recordBytes pton4 pton6 cls ttl <$> ips) ++ post →
  (offset + length (concat (recordBytes pton4 pton6 cls ttl <$> ips)) <= len)%nat →
  (t = 0 ∧ acc = [] ∨ t = ttl) →
  answer_loop ntop6 (length ips) data len offset acc t =
  Done (acc ++ ips, if bool_decide (ips = []) then t else ttl).
Proof.
  intros Hg Httl Hc Hd Hn Hlen. revert offset acc t.
  induction Hc as [|ip ips Hip Hips IH]; intros offset acc t Ho Hb Ht; cbn [length answer_loop].
  { by rewrite app_nil_r. }
  cbn [fmap list_fmap concat] in Ho, Hb. rewrite length_app, (recordBytes_length cls ttl ip Hip) in Hb.
  rewrite <- app_assoc in Ho.
  set (tail := concat _ ++ post) in Ho.
  destruct (Nat.ltb_spec len (offset + kRecordFixedBytes)) as [Hlt|_];
    [unfold kRecordFixedBytes in Hlt; destruct (isV6 ip); lia|].
  assert (Hrec : ∃ rr n d, recordBytes pton4 pton6 cls ttl ip =
      [192; 12] ++ be2 rr ++ be2 cls ++ be4 ttl ++ be2 n ++ d ∧ is_u16 rr ∧ is_u16 n ∧
      length d = Z.to_nat n ∧ (2 + 2 + 2 + 4 + 2 + length d = if isV6 ip then 28 else 16)%nat ∧
      recordText ntop6 rr n d = Some ip).
  { revert Hip. unfold canonical, recordBytes. destruct (isV6 ip).
    - intros (a & Ha & Hna). rewrite Ha. exists DNS_TYPE_AAAA, 16, a. change (default [] (Some a)) with a.
      rewrite (Hp6 _ _ Ha). repeat split; (done || unfold is_u16; cbn; lia || exact Hna).
    - intros (v & Hv & Hdv). rewrite Hv. exists DNS_TYPE_A, 4, (le4 v). change (default 0 (Some v)) with v.
      repeat split; try done.
      change (recordText ntop6 DNS_TYPE_A 4 (le4 v)) with (Some (dotted (le4 v))). by rewrite Hdv. }
  destruct Hrec as (rr & n & d & E & Hrr & Hnn & Hld & Hlr & Htext). rewrite E in Ho.
  rewrite <- !app_assoc in Ho.
  rewrite (decode_pointer data len offset domain post0 _ Hg Hd Hn Hlen Ho) by (destruct (isV6 ip); lia).
  rewrite run_bind_done. cbn [snd]. apply (drop_more offset) in Ho. cbn [length] in Ho.
  unfold kRecordFixedBytes. destruct (Nat.ltb_spec len (offset + 2 + 10)); [destruct (isV6 ip); lia|].
  rewrite (rd16be_be2 data (offset + 2) rr _ Hrr Ho). rewrite run_bind_done.
  assert (Ho4 : drop (offset + 2 + 4) data = be4 ttl ++ be2 n ++ d ++ tail).
  { change 4%nat with (length (be2 rr ++ be2 cls)). apply drop_more. by rewrite Ho, <- app_assoc. }
  assert (Ho8 : drop (offset + 2 + 8) data = be2 n ++ d ++ tail).
  { replace (offset + 2 + 8)%nat with (offset + 2 + 4 + length (be4 ttl))%nat by (cbn; lia). by apply drop_more. }
  assert (Ho10 : drop (offset + 2 + 10) data = d ++ tail).
  { replace (offset + 2 + 10)%nat with (offset + 2 + 8 + length (be2 n))%nat by (cbn; lia). by apply drop_more. }
  rewrite rdn_total by (destruct (isV6 ip); lia). rewrite run_bind_done, Ho4.
  rewrite (take_app_length' (be4 ttl)) by done.
  rewrite (rd16be_be2 data (offset + 2 + 8) n _ Hnn Ho8). rewrite run_bind_done.
  destruct (Nat.ltb_spec len (offset + 2 + 10 + Z.to_nat n)); [destruct (isV6 ip); lia|].
  rewrite rdn_total by (destruct (isV6 ip); lia). rewrite run_bind_done, Ho10, <- Hld, take_app_length, Htext.
  rewrite IH; [ |by apply drop_more| |].
  - rewrite <- app_assoc. cbn [app]. f_equal. f_equal.
    assert (Et : minTtl t (of_be4 (nth 0 (be4 ttl) 0) (nth 1 (be4 ttl) 0) (nth 2 (be4 ttl) 0) (nth 3 (be4 ttl) 0)) = ttl).
    { unfold of_be4, be4, le4. cbn [reverse rev_append nth]. rewrite of_le4_le4 by done.
      unfold minTtl. destruct Ht as [[-> _]| ->]; [done|]. by destruct (_ || _). }
    rewrite Et. by destruct (bool_decide (ips = [])).
  - unfold fmap in *. destruct (isV6 ip); lia.
  - right. unfold of_be4, be4, le4. cbn [reverse rev_append nth]. rewrite of_le4_le4 by done.
    unfold minTtl. destruct Ht as [[-> _]| ->]; [done|]. by destruct (_ || _).
Qed.

End Readback.

(** ** The query of the auto-update *)

Definition DNS_DEFAULT_TTL_SEC : Z := 300.
Definition DNS_REFRESH_QUERY_BYTES : nat := 512.

(** The query [refreshCacheEntry] builds in its 512-byte buffer; nothing is
    checked against the buffer's size. *)
Definition refreshQuery (id : Z) (name : bytes) (qtype : Z) (query : bytes) : run (nat * bytes) :=
  query ← wr 0 (be2 id ++ be2 DNS_FLAG_RD ++ be2 1 ++ be2 0 ++ be2 0 ++ be2 0) query;
  r ← encodeDomainName name kHeaderBytes query;
  let '(pos, query) := r in
  query ← wr pos (be2 qtype ++ be2 1) query;
  mret ((pos + 4)%nat, query).

(** [upstream] is the network: what [recvfrom] returns for the datagram sent,
    nothing when a socket call fails or the wait runs out. *)
Definition refreshCacheEntry (ntop6 : bytes → option bytes) (externalDnsIp id : Z)
    (query : bytes) (upstream : bytes → option bytes) (name : bytes) (qtype : Z)
  : run (option (list bytes * Z)) :=
  if (externalDnsIp =? 0) || bool_decide (name = []) then mret None
  else if negb (qtype =? DNS_TYPE_A) && negb (qtype =? DNS_TYPE_AAAA) then mret None
  else
    q ← refreshQuery id name qtype query;
    match upstream (take q.1 q.2) with
    | None => mret None
    | Some response =>
        if (length response <? kHeaderBytes)%nat then mret None
        else
          replyId ← rd16be response 0;
          if negb (replyId =? id) then mret None
          else
            r ← parseForwardAnswer ntop6 response (length response);
            let '(ips, ttl) := r in
            if bool_decide (ips = []) then mret None
            else mret (Some (ips, if ttl =? 0 then DNS_DEFAULT_TTL_SEC else ttl))
    end.

(** ** The theorems *)

Lemma header_drop {A} (h rest : list A) n : length h = n → drop n (h ++ rest) = rest.
Proof. intros <-. apply drop_app_length. Qed.

(** The fixed fields of a message that starts with a question. *)
Lemma question_fields id flags an domain type cls rest : is_u16 id → is_u16 flags → is_u16 an →
  is_u16 type → is_u16 cls → goodName domain →
  let q := questionBytes id flags an domain type cls in
  let data := q ++ rest in
  ∀ len, (length q <= len)%nat → (len <= length data)%nat →
  rd16be data 0 = Done id ∧ rd16be data 2 = Done flags ∧ rd16be data 4 = Done 1 ∧ rd16be data 6 = Done an ∧
  decodeDomainName data len 12 = Done (domain, (12 + length (nameBytes domain))%nat) ∧
  rd16be data (12 + length (nameBytes domain)) = Done type ∧
  rd16be data (12 + length (nameBytes domain) + 2) = Done cls.
Proof.
  intros Hid Hfl Han Hty Hcl Hg q data len Hq Hlen.
  assert (Hlq : length q = (16 + length (nameBytes domain))%nat).
  { unfold q, questionBytes. rewrite !length_app. cbn [length header be2 app]. lia. }
  assert (H12 : drop 12 data = nameBytes domain ++ be2 type ++ be2 cls ++ rest).
  { unfold data, q, questionBytes. rewrite <- !app_assoc. by apply header_drop. }
  assert (Hn : drop (12 + length (nameBytes domain)) data = be2 type ++ be2 cls ++ rest) by by apply drop_more.
  assert (Hn2 : drop (12 + length (nameBytes domain) + 2) data = be2 cls ++ rest)
    by (apply (drop_more _ _ (be2 type)); done).
  split_and!.
  - by apply (rd16be_be2 _ 0 id (drop 2 data)).
  - by apply (rd16be_be2 _ 2 flags (drop 4 data)).
  - by apply (rd16be_be2 _ 4 1 (drop 6 data)).
  - by apply (rd16be_be2 _ 6 an (drop 8 data)).
  - by eapply decode_name; [..|lia|].
  - by eapply rd16be_be2.
  - by eapply rd16be_be2.
Qed.

(** C15: an answer the server builds says what it was built from.  It fits
    the buffer; whoever reads it finds the transaction id, the question name, type
    and class, no error, and - with the code's own reader - exactly the addresses
    and the TTL. *)
Theorem answer_readback pton4 pton6 ntop6 uninit id domain type cls ips ttl buf :
  (∀ ip a, pton6 ip = Some a → length a = 16%nat) → length uninit = 4%nat →
  is_u16 id → is_u16 type → is_u16 cls → is_u32 ttl → goodName domain →
  Forall (canonical pton4 pton6 ntop6) ips →
  (length domain + 18 + 28 * length ips <= length buf)%nat → Z.of_nat (length ips) < 65536 →
  ∃ n data, buildAnswer pton4 pton6 uninit id domain type cls ips ttl buf = Done (n, data) ∧
    length data = length buf ∧ (0 < n <= length buf)%nat ∧
    rd16be data 0 = Done id ∧ forwardingOutcome data n = Done Answered ∧
    (∃ o, decodeDomainName data n 12 = Done (domain, o) ∧
      rd16be data o = Done type ∧ rd16be data (o + 2) = Done cls) ∧
    parseForwardAnswer ntop6 data n = Done (ips, if bool_decide (ips = []) then 0 else ttl).
Proof.
  intros Hp6 Hu Hid Hty Hcl Httl Hg Hc Hb Hn.
  destruct (buildAnswer_spec pton4 pton6 Hp6 uninit id domain type cls ips ttl buf Hu Hb)
    as (m & E & Hl & Hne & Hm).
  specialize (Hm (canonical_accepted _ _ _ _ Hc)). rewrite E.
  exists (length m), (m ++ drop (length m) buf). split; [done|].
  assert (Hlen : length (m ++ drop (length m) buf) = length buf) by (rewrite length_app, length_drop; lia).
  split; [done|]. split; [lia|].
  set (q := questionBytes id kAnswerFlags (u16 (Z.of_nat (length ips))) domain type cls).
  set (rs := concat (recordBytes pton4 pton6 cls ttl <$> ips)).
  assert (Em : m = q ++ rs) by done.
  assert (Hq : (length q <= length m)%nat) by (rewrite Em, length_app; lia).
  destruct (question_fields id kAnswerFlags (u16 (Z.of_nat (length ips))) domain type cls
    (rs ++ drop (length m) buf) Hid ltac:(done) (u16_range _) Hty Hcl Hg (length m) Hq)
    as (E0 & E2 & E4 & E6 & Ed & Et & Ec).
  { fold q. rewrite app_assoc, <- Em. lia. }
  fold q in E0, E2, E4, E6, Ed, Et, Ec. rewrite app_assoc, <- Em in E0, E2, E4, E6, Ed, Et, Ec.
  set (data := m ++ drop (length m) buf) in *.
  assert (H16 : length q = (12 + length (nameBytes domain) + 4)%nat).
  { unfold q, questionBytes. rewrite !length_app. cbn [length header be2 app]. lia. }
  split; [done|]. split.
  { unfold forwardingOutcome. destruct (Nat.ltb_spec (length m) 4); [lia|].
    assert (Hf : rd data 3 = Done 128).
    { unfold data. rewrite Em. unfold q, questionBytes, header. by rewrite <- !app_assoc. }
    rewrite Hf. done. }
  split; [eauto|]. unfold parseForwardAnswer, kHeaderBytes.
  destruct (Nat.ltb_spec (length m) 12); [lia|]. rewrite E4, run_bind_done, E6, run_bind_done.
  change (Z.to_nat 1) with 1%nat. cbn [skip_questions]. destruct (Nat.ltb_spec 12 (length m)); [|lia].
  rewrite Ed, run_bind_done. cbn [snd]. rewrite run_bind_done. unfold kQuestionTailBytes.
  rewrite u16_small by (unfold is_u16; lia). rewrite Nat2Z.id. rewrite <- H16.
  rewrite (answer_loop_records pton4 pton6 ntop6 Hp6 data (length m) domain cls ttl
    (be2 type ++ be2 cls ++ rs ++ drop (length m) buf) (drop (length m) buf)); auto.
  - unfold data. rewrite Em. unfold q, questionBytes. rewrite <- !app_assoc. by apply header_drop.
  - lia.
  - lia.
  - unfold data. rewrite Em at 1. rewrite <- app_assoc. by apply header_drop.
  - fold rs. rewrite Em, length_app. lia.
Qed.

(** The auto-update asks for the record it means to refresh: the
    query it builds for a name of the cache is read by a server (with the code's
    own reader) as that name, that type, class IN and that transaction id. *)
Theorem refresh_query_parses id name qtype query : is_u16 id → is_u16 qtype →
  goodName name → name ≠ [] → length query = DNS_REFRESH_QUERY_BYTES →
  ∃ n data, refreshQuery id name qtype query = Done (n, data) ∧ (n <= DNS_REFRESH_QUERY_BYTES)%nat ∧
    parseQuery data n = Done (Some (mkQuery name qtype 1 id)).
Proof.
  intros Hid Hty Hg Hne Hq. unfold refreshQuery, DNS_REFRESH_QUERY_BYTES in *.
  pose proof (nameBytes_length name) as Hnb. pose proof Hg as [_ Hlen]. unfold kMaxNameLen in Hlen.
  set (h := be2 id ++ be2 DNS_FLAG_RD ++ be2 1 ++ be2 0 ++ be2 0 ++ be2 0).
  rewrite (wr_app [] query) by (rewrite Hq; cbn; lia). rewrite run_bind_done. cbn [app].
  change kHeaderBytes with (length h). rewrite encodeDomainName_eq by (rewrite length_drop, Hq; cbn; lia).
  rewrite run_bind_done. cbv beta iota. rewrite <- length_app, (app_assoc h), drop_drop.
  rewrite wr_app by (rewrite length_drop, Hq; cbn; lia). rewrite run_bind_done.
  assert (E : (h ++ nameBytes name) ++ be2 qtype ++ be2 1 =
    questionBytes id DNS_FLAG_RD 0 name qtype 1) by (unfold questionBytes, header, h; by rewrite <- !app_assoc).
  rewrite drop_drop, (app_assoc (h ++ nameBytes name) (be2 qtype ++ be2 1)), E.
  set (q := questionBytes _ _ _ _ _ _) in *. set (rest := drop _ query).
  assert (Hlq : length q = (length (h ++ nameBytes name) + 4)%nat) by (rewrite <- E, length_app; cbn; lia).
  assert (Hl12 : length (h ++ nameBytes name) = (12 + length (nameBytes name))%nat) by by rewrite length_app.
  eexists _, _. split; [done|]. split; [lia|]. rewrite <- Hlq.
  destruct (question_fields id DNS_FLAG_RD 0 name qtype 1 rest Hid ltac:(done) ltac:(done) Hty ltac:(done) Hg
    (length q) ltac:(done)) as (E0 & E2 & E4 & E6 & Ed & Et & Ec).
  { fold q. rewrite length_app. lia. }
  fold q in E0, E2, E4, E6, Ed, Et, Ec.
  unfold parseQuery, kHeaderBytes. destruct (Nat.ltb_spec (length q) 12); [lia|].
  rewrite E0, run_bind_done, E2, run_bind_done. change (negb _) with false. cbv beta iota.
  rewrite E4, run_bind_done. change (1 =? 0) with false. cbv beta iota.
  rewrite Ed, run_bind_done. cbv beta iota. rewrite bool_decide_eq_false_2 by done.
  unfold kQuestionTailBytes. destruct (Nat.ltb_spec (length q) (12 + length (nameBytes name) + 4)); [lia|].
  by rewrite Et, run_bind_done, Ec, run_bind_done.
Qed.

(** ** Concrete messages *)

Definition demo4 : bytes → option Z := λ ip,
  if bytes_eqb ip (lit "10.0.0.7") then Some (of_le4 10 0 0 7) else None.
Definition demo6 : bytes → option bytes := λ ip,
  if bytes_eqb ip (lit "fd00::1") then Some ([253; 0] ++ replicate 13 0 ++ [1]) else None.
Definition demoText6 : bytes → option bytes := λ a,
  if bytes_eqb a ([253; 0] ++ replicate 13 0 ++ [1]) then Some (lit "fd00::1") else None.

Lemma demo6_length ip a : demo6 ip = Some a → length a = 16%nat.
Proof. unfold demo6. destruct (bytes_eqb _ _); by intros [= <-]. Qed.

Lemma demo_name : goodName (lit "nas.lan").
Proof. split; [|vm_compute; lia]. vm_compute split_on. repeat constructor; (done || cbn; lia). Qed.

Lemma demo_canonical : Forall (canonical demo4 demo6 demoText6) [lit "10.0.0.7"; lit "fd00::1"].
Proof.
  constructor; [|constructor; [|constructor]].
  - change (∃ v, demo4 (lit "10.0.0.7") = Some v ∧ dotted (le4 v) = lit "10.0.0.7").
    exists (of_le4 10 0 0 7). by vm_compute.
  - change (∃ a, demo6 (lit "fd00::1") = Some a ∧ demoText6 a = Some (lit "fd00::1")).
    exists ([253; 0] ++ replicate 13 0 ++ [1]). by vm_compute.
Qed.

Lemma answer_readback_witness :
  ∃ n data, buildAnswer demo4 demo6 [0; 0; 0; 0] 513 (lit "nas.lan") 1 1 [lit "10.0.0.7"; lit "fd00::1"] 60
      (replicate 128 0) = Done (n, data) ∧
    parseForwardAnswer demoText6 data n = Done ([lit "10.0.0.7"; lit "fd00::1"], 60).
Proof.
  destruct (answer_readback demo4 demo6 demoText6 [0; 0; 0; 0] 513 (lit "nas.lan") 1 1
    [lit "10.0.0.7"; lit "fd00::1"] 60 (replicate 128 0)) as (n & data & E & _ & _ & _ & _ & _ & H);
    try (unfold is_u16, is_u32; lia).
  - exact demo6_length.
  - done.
  - exact demo_name.
  - exact demo_canonical.
  - vm_compute. lia.
  - by vm_compute.
  - exists n, data. by split.
Defined.

Lemma refresh_query_parses_witness :
  ∃ n data, refreshQuery 77 (lit "nas.lan") 28 (replicate 512 0) = Done (n, data) ∧
    (n <= DNS_REFRESH_QUERY_BYTES)%nat ∧
    parseQuery data n = Done (Some (mkQuery (lit "nas.lan") 28 1 77)).
Proof.
  apply refresh_query_parses; try (unfold is_u16; lia); [exact demo_name|done|].
  by rewrite length_replicate.
Defined.

(** A label may hold a dot; the answer then asks about another name: the single
    label ["a.b"] comes back as the labels ["a"] and ["b"]. *)
Example dotted_label_split :
  let query := header 7 DNS_FLAG_RD 0 ++ [3; 97; 46; 98; 0; 0; 1; 0; 1] in
  parseQuery query (length query) = Done (Some (mkQuery (lit "a.b") 1 1 7)) ∧
  (r ← buildNxdomain 7 (lit "a.b") 1 1 (replicate 64 0);
   mret (take (r.1 - 12) (drop 12 r.2))) = Done [1; 97; 1; 98; 0; 0; 1; 0; 1].
Proof. split; reflexivity. Qed.

End DnsCodec.
