(* ===== verification/DnsCache.v ===== *)
(** * The client of the external DNS cache ([src/dns/DnsCache.cpp])

    Lookups are queued for a worker task, stores for a sender task; a table of
    names in flight keeps a burst of queries from firing one request each, and a
    circuit breaker takes a slow server out of the way.  HTTP is a parameter: the
    status and the body a request ends with. *)
From stdpp Require Import relations.
From S2P Require Import Prelude Text DnsPool.
#[local] Open Scope Z_scope.

Module DnsCache.

Definition kRespCaptureBytes : nat := 512.
Definition kHttpOk : Z := 200.
Definition kHttpNotFound : Z := 404.
Definition kQueueStopToken : Z := 255.
Definition kIpListBytes : nat := 256.
Definition kDomainBytes : nat := 128.
Definition kStoreQueueDepth : nat := 32.
Definition kLookupQueueDepth : nat := 16.
Definition kMaxPendingDomains : nat := 16.
Definition kSlowLookupMs : Z := 800.
Definition kFailThreshold : Z := 3.
Definition kDegradeCooldownMs : Z := 30000.
Definition kTypeAaaa : Z := 28.

Record LookupRequest := mkRequest { rqToken : Z; rqType : Z; rqDomain : bytes }.
Record LookupResult := mkResult { rsToken : Z; rsHit : bool; rsIps : bytes }.
Record CacheStoreRecord := mkStore { stType : Z; stDomain : bytes; stIps : bytes }.

(** The members; the queues are [None] until their tasks are first started. *)
Record Client := mkClient {
  enabled : bool;
  readEnabled : bool;
  writeEnabled : bool;
  url : bytes;
  pendingDomains : list bytes;
  lookupQueue : option (list LookupRequest);
  storeQueue : option (list CacheStoreRecord);
  storeDropped : Z;
  lookupBadCount : Z;
  degradedUntilMs : Z;
}.

Definition set_pending (p : list bytes) (c : Client) : Client :=
  mkClient (enabled c) (readEnabled c) (writeEnabled c) (url c) p (lookupQueue c) (storeQueue c)
    (storeDropped c) (lookupBadCount c) (degradedUntilMs c).
Definition set_lookupQueue (q : option (list LookupRequest)) (c : Client) : Client :=
  mkClient (enabled c) (readEnabled c) (writeEnabled c) (url c) (pendingDomains c) q (storeQueue c)
    (storeDropped c) (lookupBadCount c) (degradedUntilMs c).
Definition set_store (q : option (list CacheStoreRecord)) (n : Z) (c : Client) : Client :=
  mkClient (enabled c) (readEnabled c) (writeEnabled c) (url c) (pendingDomains c) (lookupQueue c) q
    n (lookupBadCount c) (degradedUntilMs c).
Definition set_breaker (n until : Z) (c : Client) : Client :=
  mkClient (enabled c) (readEnabled c) (writeEnabled c) (url c) (pendingDomains c) (lookupQueue c)
    (storeQueue c) (storeDropped c) n until.

(** [strncpy(dst, s.c_str(), size - 1)] into a zeroed array of [size] bytes, read
    back as a string. *)
Definition fixedText (size : nat) (s : bytes) : bytes := take (size - 1) (DnsPool.c_str s).

(** ** Text *)

(** The URL without its trailing slashes, the last byte kept. *)
Definition trimSlashes (u : bytes) : bytes :=
  let t := drop_while_end (λ c, c =? 47) u in if bool_decide (t = []) then take 1 u else t.

Definition setUrl (u : bytes) (c : Client) : Client :=
  mkClient (enabled c) (readEnabled c) (writeEnabled c) (trimSlashes u) (pendingDomains c)
    (lookupQueue c) (storeQueue c) (storeDropped c) (lookupBadCount c) (degradedUntilMs c).

Definition normalizeDomain (domain : bytes) : bytes :=
  let d := tolower <$> domain in
  if bool_decide (last d = Some 46) then take (length d - 1) d else d.

Definition unreserved (c : Z) : bool :=
  isalnum c || (c =? 46) || (c =? 45) || (c =? 95) || (c =? 126).

Definition urlEncodeChar (c : Z) : bytes :=
  if unreserved c then [c]
  else [37; hexUpper (Z.land (Z.shiftr c 4) 15); hexUpper (Z.land c 15)].

Definition urlEncode (s : bytes) : bytes := concat (urlEncodeChar <$> s).

(** The strings between quotes, the empty ones left out. *)
Fixpoint quotedStrings (fuel : nat) (arr : bytes) (q : nat) : list bytes :=
  match fuel with
  | O => []
  | S f =>
      match find_from 34 arr q with
      | None => []
      | Some openQ =>
          match find_from 34 arr (openQ + 1) with
          | None => []
          | Some closeQ =>
              let ip := take (closeQ - openQ - 1) (drop (openQ + 1) arr) in
              (if bool_decide (ip = []) then [] else [ip]) ++ quotedStrings f arr (closeQ + 1)
          end
      end
  end.

Definition ipsNeedle : bytes := [34; 105; 112; 115; 34].

(** [parseLookupIps]: the addresses, [None] for [false]. *)
Definition parseLookupIps (body : bytes) : option (list bytes) :=
  match find_sub ipsNeedle body with
  | None => None
  | Some k =>
      match find_from 58 body (k + 5) with
      | None => None
      | Some colon =>
          match find_from 91 body (colon + 1) with
          | None => None
          | Some open =>
              match find_from 93 body (open + 1) with
              | None => None
              | Some close =>
                  let arr := take (close - open - 1) (drop (open + 1) body) in
                  let ips := quotedStrings (length arr) arr 0 in
                  if bool_decide (ips = []) then None else Some ips
              end
          end
      end
  end.

(** What the response handler keeps of the chunks of a body. *)
Definition capture (chunks : list bytes) : bytes := take (kRespCaptureBytes - 1) (concat chunks).

Definition typeMatches (type : Z) (ip : bytes) : bool :=
  let isV6 := bool_decide (is_Some (find_char 58 ip)) in
  if type =? kTypeAaaa then isV6 else negb isV6.

(** [doLookupAndParse]; [http] maps the URL to the status ([0] for a transport
    failure) and the captured body. [None] is a miss. *)
Definition doLookupAndParse (http : bytes → Z * bytes) (domain : bytes) (type : Z) (c : Client)
  : option (list bytes) :=
  if negb (enabled c) || bool_decide (url c = []) then None
  else
    let d := normalizeDomain domain in
    if bool_decide (d = []) then None
    else
      let '(status, body) := http (url c ++ [47] ++ urlEncode d) in
      if negb (status =? kHttpOk) then None
      else
        match parseLookupIps body with
        | None => None
        | Some result =>
            let filtered := filter (λ ip, typeMatches type ip = true) result in
            if bool_decide (filtered = []) then None else Some filtered
        end.

(** The body of a store. *)
Definition buildStoreJson (rec : CacheStoreRecord) : bytes :=
  [123] ++ ipsNeedle ++ [58; 91] ++
  join 44 ((λ ip, [34] ++ ip ++ [34]) <$> commaList (stIps rec)) ++
  [93] ++ [44; 34] ++ lit "type" ++ [34; 58] ++ dec (stType rec) ++ [125].

(** ** The breaker *)

Definition isDegraded (nowMs : Z) (c : Client) : bool :=
  negb (degradedUntilMs c =? 0) && (nowMs <? degradedUntilMs c).

Definition usable (nowMs : Z) (c : Client) : bool :=
  enabled c && readEnabled c && negb (bool_decide (url c = [])) && negb (isDegraded nowMs c).

Definition notifyLookupOutcome (elapsedMs nowMs : Z) (c : Client) : Client :=
  if kSlowLookupMs <=? elapsedMs then
    let n := u32 (lookupBadCount c + 1) in
    set_breaker n (if kFailThreshold <=? n then nowMs + kDegradeCooldownMs else degradedUntilMs c) c
  else set_breaker 0 0 c.

(** ** The names in flight *)

(** The flag is whether the lookup goes ahead. *)
Definition markPending (d : bytes) (l : list bytes) : bool * list bytes :=
  if bool_decide (DnsPool.c_str d ∈ l) then (false, l)
  else if (length l <? kMaxPendingDomains)%nat then (true, l ++ [fixedText kDomainBytes d])
  else (true, l).

Fixpoint clearPending (d : bytes) (l : list bytes) : list bytes :=
  match l with
  | [] => []
  | x :: l' => if bytes_eqb x (DnsPool.c_str d) then l' else x :: clearPending d l'
  end.

(** [xQueueSendToBack] with the oldest dropped from a full queue; the flag tells
    whether one was dropped. *)
Definition sendDroppingOldest {A} (depth : nat) (x : A) (q : list A) : bool * list A :=
  if (length q <? depth)%nat then (false, q ++ [x]) else (true, drop 1 q ++ [x]).

Definition submitLookup (domain : bytes) (type token : Z) (c : Client) : Client :=
  if negb (enabled c) || negb (readEnabled c) || bool_decide (url c = []) then c
  else match lookupQueue c with
  | None => c
  | Some q =>
      let d := normalizeDomain domain in
      if bool_decide (d = []) then c
      else
        let '(go, l) := markPending d (pendingDomains c) in
        let c := set_pending l c in
        if negb go then c
        else set_lookupQueue
               (Some (sendDroppingOldest kLookupQueueDepth
                        (mkRequest token type (fixedText kDomainBytes d)) q).2) c
  end.

(** A turn of the worker, in two steps, since the DNS task goes on submitting
    while the request is out: the request is taken from the queue ... *)
Definition workerTake (c : Client) : option LookupRequest * Client :=
  match lookupQueue c with
  | Some (req :: q) => (Some req, set_lookupQueue (Some q) c)
  | _ => (None, c)
  end.

(** ... and, unless it is the stop marker, looked up, its name released, and the
    result sent to the DNS task; [elapsedMs] and [nowMs] are clock readings. *)
Definition workerFinish (http : bytes → Z * bytes) (elapsedMs nowMs : Z) (req : LookupRequest)
    (c : Client) : option LookupResult * Client :=
  if rqToken req =? kQueueStopToken then (None, c)
  else
    let found := doLookupAndParse http (rqDomain req) (rqType req) c in
    let c := notifyLookupOutcome elapsedMs nowMs c in
    let c := set_pending (clearPending (rqDomain req) (pendingDomains c)) c in
    (Some (mkResult (rqToken req) (bool_decide (is_Some found))
             (fixedText kIpListBytes (join 44 (default [] found)))), c).

(** ** Storing *)

Definition store (domain : bytes) (type : Z) (ips : list bytes) (c : Client) : Client :=
  if negb (enabled c) || negb (writeEnabled c) || bool_decide (url c = []) then c
  else if bool_decide (ips = []) then c
  else match storeQueue c with
  | None => c
  | Some q =>
      let d := normalizeDomain domain in
      if bool_decide (d = []) then c
      else
        let '(full, q) := sendDroppingOldest kStoreQueueDepth
          (mkStore type (fixedText kDomainBytes d) (fixedText kIpListBytes (join 44 ips))) q in
        set_store (Some q) (if full then u32 (storeDropped c + 1) else storeDropped c) c
  end.

(** The request of [sendStore]: the URL and the body. *)
Definition sendStore (rec : CacheStoreRecord) (c : Client) : option (bytes * bytes) :=
  if bool_decide (url c = []) then None
  else Some (url c ++ [47] ++ urlEncode (stDomain rec), buildStoreJson rec).

(** ** What crosses the wire *)

(** The reference decoder of percent-encoding. *)
Fixpoint percentDecode (s : bytes) : option bytes :=
  match s with
  | [] => Some []
  | c :: s' =>
      if c =? 37 then
        match s' with
        | h :: l :: s'' =>
            match unhex h, unhex l, percentDecode s'' with
            | Some h, Some l, Some t => Some (16 * h + l :: t)
            | _, _, _ => None
            end
        | _ => None
        end
      else cons c <$> percentDecode s'
  end.

Lemma hexUpper_unreserved d : 0 <= d < 16 → unreserved (hexUpper d) = true.
Proof.
  intros Hd. unfold unreserved, isalnum, hexUpper.
  destruct (Z.ltb_spec d 10).
  - destruct (Z.leb_spec 48 (48 + d)), (Z.leb_spec (48 + d) 57); lia.
  - destruct (Z.leb_spec 65 (55 + d)), (Z.leb_spec (55 + d) 90); lia.
Qed.

Lemma nibbles c : is_u8 c → Z.land (Z.shiftr c 4) 15 = c / 16 ∧ Z.land c 15 = c mod 16.
Proof.
  intros Hc. change 15 with (Z.ones 4). rewrite !Z.land_ones, Z.shiftr_div_pow2 by lia.
  change (2 ^ 4) with 16. unfold is_u8 in Hc. zdm.
Qed.

Lemma unreserved_not_percent c : unreserved c = true → c ≠ 37.
Proof. by intros H ->. Qed.

(** A name in a URL is data: whatever bytes it holds, the encoded path segment
    consists of unreserved characters and percent escapes only - no slash, question
    mark or space of its own - and decodes to the name. *)
Theorem url_segment s : wf_bytes s →
  percentDecode (urlEncode s) = Some s ∧
  Forall (λ c, unreserved c = true ∨ c = 37) (urlEncode s).
Proof.
  unfold urlEncode. induction 1 as [|c s Hc Hs [IH1 IH2]]; [by repeat constructor|].
  cbn [fmap list_fmap concat]. unfold urlEncodeChar at 1 3. destruct (unreserved c) eqn:E.
  - cbn [app percentDecode]. destruct (Z.eqb_spec c 37) as [Heq|_]; [by apply unreserved_not_percent in E|].
    rewrite IH1. split; [done|]. constructor; auto.
  - destruct (nibbles c Hc) as [Eh El]. unfold is_u8 in Hc. cbn [app percentDecode Z.eqb]. rewrite Eh, El.
    change (37 =? 37) with true. cbv iota. rewrite !unhex_hexUpper, IH1 by zdm. split.
    + do 2 f_equal. zdm.
    + constructor; [by right|]. constructor; [left; apply hexUpper_unreserved; zdm|].
      constructor; [left; apply hexUpper_unreserved; zdm|done].
Qed.

(** ** A stored record is read back *)

Definition quote (ip : bytes) : bytes := [34] ++ ip ++ [34].

Lemma find_from_at c s pos a t : drop pos s = a ++ c :: t → c ∉ a →
  find_from c s pos = Some (pos + length a)%nat.
Proof. intros Hd Ha. unfold find_from. by rewrite Hd, find_char_app. Qed.

Lemma quotedStrings_spec ips fuel arr q pre : 34 ∉ pre →
  drop q arr = pre ++ concat ((λ ip, quote ip ++ [44]) <$> ips) →
  Forall (λ ip, ip ≠ [] ∧ 34 ∉ ip) ips → (length ips <= fuel)%nat →
  quotedStrings fuel arr q = ips.
Proof.
  intros Hpre Hd H. revert fuel q pre Hpre Hd.
  induction H as [|ip ips [Hne Hip] _ IH]; intros fuel q pre Hpre Hd Hf.
  { destruct fuel as [|fuel]; [done|]. cbn [quotedStrings]. unfold find_from. rewrite Hd.
    cbn. rewrite app_nil_r. by rewrite (proj2 (find_char_None 34 pre) Hpre). }
  destruct fuel as [|fuel]; [cbn in Hf; lia|]. cbn [quotedStrings].
  cbn [fmap list_fmap concat] in Hd. unfold quote at 1 in Hd. rewrite <- !app_assoc in Hd. cbn [app] in Hd.
  set (tail := concat _) in Hd.
  rewrite (find_from_at 34 arr q pre _ Hd Hpre).
  assert (H1 : drop (q + length pre + 1) arr = ip ++ 34 :: 44 :: tail).
  { rewrite <- drop_drop, <- drop_drop, Hd, drop_app_length. done. }
  rewrite (find_from_at 34 arr _ ip _ H1 Hip).
  replace (q + length pre + 1 + length ip - (q + length pre) - 1)%nat with (length ip) by lia.
  rewrite H1, take_app_length, bool_decide_eq_false_2 by done. cbn [app]. f_equal.
  apply (IH fuel _ [44]); [set_solver| |cbn in Hf; lia].
  rewrite <- drop_drop, <- drop_drop, H1, drop_app_length. done.
Qed.

(** The comma after the last string makes no difference. *)
Lemma find_char_snoc c s x : x ≠ c → find_char c (s ++ [x]) = find_char c s.
Proof.
  intros Hx. induction s as [|y s IH]; cbn; [by destruct (Z.eqb_spec x c)|].
  destruct (y =? c); [done|]. by rewrite IH.
Qed.

Lemma find_char_lt c s i : find_char c s = Some i → (i < length s)%nat.
Proof. intros [H _]%find_char_Some. by eapply lookup_lt_Some. Qed.

Lemma find_from_snoc c s x q : (q <= length s)%nat → x ≠ c → find_from c (s ++ [x]) q = find_from c s q.
Proof. intros Hq Hx. unfold find_from. rewrite drop_app_le by done. by rewrite find_char_snoc. Qed.

Lemma find_from_lt c s q i : find_from c s q = Some i → (q <= i < length s)%nat.
Proof.
  unfold find_from. destruct (find_char c (drop q s)) as [j|] eqn:E; [|done]. cbn. intros [= <-].
  apply find_char_lt in E. rewrite length_drop in E. lia.
Qed.

Lemma quotedStrings_snoc fuel s x q : (q <= length s)%nat → x ≠ 34 →
  quotedStrings fuel (s ++ [x]) q = quotedStrings fuel s q.
Proof.
  intros Hq Hx. revert q Hq. induction fuel as [|fuel IH]; intros q Hq; [done|]. cbn [quotedStrings].
  rewrite find_from_snoc by done. destruct (find_from 34 s q) as [o|] eqn:Eo; [|done].
  apply find_from_lt in Eo. rewrite find_from_snoc by (done || lia).
  destruct (find_from 34 s (o + 1)) as [cl|] eqn:Ec; [|done]. apply find_from_lt in Ec.
  rewrite IH by lia. rewrite drop_app_le, take_app_le by (rewrite ?length_drop; lia). done.
Qed.

Lemma join_quotes ips : ips ≠ [] →
  join 44 (quote <$> ips) ++ [44] = concat ((λ ip, quote ip ++ [44]) <$> ips).
Proof.
  intros Hne. destruct ips as [|ip ips]; [done|]. clear Hne. revert ip.
  induction ips as [|ip' ips IH]; intros ip; [cbn; by rewrite !app_nil_r|].
  specialize (IH ip').
  change (join 44 (quote <$> (ip :: ip' :: ips))) with
    (quote ip ++ 44 :: join 44 (quote <$> (ip' :: ips))).
  rewrite (fmap_cons _ ip). cbn [concat]. rewrite <- IH, <- !app_assoc. done.
Qed.

Definition plainText (ip : bytes) : Prop := ip ≠ [] ∧ 44 ∉ ip ∧ 34 ∉ ip ∧ 93 ∉ ip.

Lemma quotes_length ips : (3 * length ips <= length (concat ((λ ip, quote ip ++ [44%Z]) <$> ips)))%nat.
Proof.
  induction ips as [|ip ips IH]; [done|]. rewrite fmap_cons. cbn [concat length].
  rewrite length_app. unfold quote at 1. rewrite !length_app. cbn [length]. lia.
Qed.

Lemma join_quotes_long ips : (length ips <= length (join 44%Z (quote <$> ips)))%nat.
Proof.
  destruct (decide (ips = [])) as [->|Hne]; [done|]. pose proof (quotes_length ips) as H.
  rewrite <- join_quotes, length_app in H by done. cbn [length] in H.
  destruct ips; [done|]. cbn [length] in *. lia.
Qed.

(** What a store sends, a lookup reads: the body of a stored record, read by
    the code's own parser, gives back the addresses. *)
Theorem stored_json_reads t d ips : ips ≠ [] → Forall plainText ips →
  parseLookupIps (buildStoreJson (mkStore t d (join 44 ips))) = Some ips.
Proof.
  intros Hne H. unfold buildStoreJson. cbn [stIps stType].
  rewrite commaList_join by (eapply Forall_impl; [exact H|]; intros ? (?&?&_); done).
  change (λ ip, [34] ++ ip ++ [34]) with quote.
  set (arr := join 44 (quote <$> ips)).
  set (tl := [44; 34] ++ lit "type" ++ [34; 58] ++ dec t ++ [125]).
  set (body := [123] ++ _). assert (Eb : body = ([123] ++ ipsNeedle ++ [58; 91]) ++ arr ++ 93 :: tl) by done.
  assert (H93 : 93 ∉ arr).
  { apply join_notin; [done|]. apply Forall_fmap. eapply Forall_impl; [exact H|].
    intros ip (_ & _ & _ & Hc). unfold quote. cbn. set_solver. }
  unfold parseLookupIps. change (find_sub ipsNeedle body) with (Some 1%nat). cbv beta iota.
  change (find_from 58 body (1 + 5)) with (Some 6%nat). cbv beta iota.
  change (find_from 91 body (6 + 1)) with (Some 7%nat). cbv beta iota.
  rewrite (find_from_at 93 body (7 + 1) arr tl); [|by rewrite Eb|done].
  replace (7 + 1 + length arr - 7 - 1)%nat with (length arr) by lia.
  change (drop (7 + 1) body) with (arr ++ 93 :: tl). rewrite take_app_length.
  rewrite <- (quotedStrings_snoc _ arr 44) by (done || lia).
  rewrite (quotedStrings_spec ips (length arr) (arr ++ [44]) 0 []).
  - by rewrite bool_decide_eq_false_2.
  - apply not_elem_of_nil.
  - cbn [drop app]. by apply join_quotes.
  - eapply Forall_impl; [exact H|]. intros ? (?&_&?&_). done.
  - apply join_quotes_long.
Qed.

(** Concrete inputs for the two theorems above. *)
Lemma url_segment_witness :
  percentDecode (urlEncode [97; 32; 47; 255]) = Some [97; 32; 47; 255] ∧
  Forall (λ c, unreserved c = true ∨ c = 37) (urlEncode [97; 32; 47; 255]).
Proof. apply (url_segment [97; 32; 47; 255]). repeat constructor; done. Defined.

Lemma stored_json_reads_witness :
  parseLookupIps (buildStoreJson (mkStore 1 [97] (join 44 [lit "10.0.0.1"; lit "10.0.0.2"]))) =
  Some [lit "10.0.0.1"; lit "10.0.0.2"].
Proof.
  apply (stored_json_reads 1 [97] [lit "10.0.0.1"; lit "10.0.0.2"]); [done|].
  repeat constructor; vm_compute; set_solver.
Defined.

(** ** The breaker over a history of lookups *)

(** The lookups, newest first: how long each took and the clock when it ended. *)
Fixpoint afterLookups (h : list (Z * Z)) (c : Client) : Client :=
  match h with
  | [] => c
  | (elapsed, now) :: h' => notifyLookupOutcome elapsed now (afterLookups h' c)
  end.

(** How many slow lookups in a row the history ends with. *)
Fixpoint slowRun (h : list (Z * Z)) : nat :=
  match h with
  | [] => 0
  | (elapsed, _) :: h' => if kSlowLookupMs <=? elapsed then S (slowRun h') else 0
  end.

Lemma slowRun_le h : (slowRun h <= length h)%nat.
Proof. induction h as [|[e n] h IH]; cbn; [done|]. destruct (kSlowLookupMs <=? e); lia. Qed.

Lemma afterLookups_count h c : lookupBadCount c = 0 → Z.of_nat (length h) < 2 ^ 32 →
  lookupBadCount (afterLookups h c) = Z.of_nat (slowRun h).
Proof.
  intros Hc. induction h as [|[e n] h IH]; intros Hlen; [done|]. cbn [length] in Hlen.
  pose proof (slowRun_le h). cbn [afterLookups slowRun]. unfold notifyLookupOutcome.
  destruct (kSlowLookupMs <=? e); [|done]. cbn. rewrite IH by lia. unfold u32.
  rewrite Z.mod_small; lia.
Qed.

Lemma afterLookups_until h c : lookupBadCount c = 0 → degradedUntilMs c = 0 →
  Z.of_nat (length h) < 2 ^ 32 →
  degradedUntilMs (afterLookups h c) =
    if (3 <=? slowRun h)%nat then default 0 (snd <$> head h) + kDegradeCooldownMs else 0.
Proof.
  intros Hc Hu. induction h as [|[e n] h IH]; intros Hlen; [done|]. cbn [length] in Hlen.
  pose proof (slowRun_le h) as Hle. specialize (IH ltac:(lia)).
  pose proof (afterLookups_count h c Hc ltac:(lia)) as Hn.
  cbn [afterLookups slowRun head fmap option_fmap option_map snd default]. unfold notifyLookupOutcome.
  destruct (kSlowLookupMs <=? e); [|done]. cbn [degradedUntilMs set_breaker]. rewrite Hn, IH.
  unfold u32, kFailThreshold. rewrite Z.mod_small by lia.
  destruct (Z.leb_spec 3 (Z.of_nat (slowRun h) + 1)), (Nat.leb_spec 3 (S (slowRun h))); try lia; [done|].
  destruct (Nat.leb_spec 3 (slowRun h)); [lia|done].
Qed.

(** The circuit breaker: starting healthy, the cache is bypassed at a time
    exactly when the last three or more lookups in a row were slow and the last of
    them ended less than the cooldown ago; one fast lookup closes it. *)
Theorem breaker_spec h t c : lookupBadCount c = 0 → degradedUntilMs c = 0 →
  Z.of_nat (length h) < 2 ^ 32 → Forall (λ o, 0 <= o.2) h →
  isDegraded t (afterLookups h c) = true ↔
  (3 <= slowRun h)%nat ∧ t < default 0 (snd <$> head h) + kDegradeCooldownMs.
Proof.
  intros Hc Hu Hlen Hpos. unfold isDegraded. rewrite (afterLookups_until h c) by done.
  destruct (Nat.leb_spec 3 (slowRun h)); [|cbn; split; [done|lia]].
  assert (0 <= default 0 (snd <$> head h)) by (destruct Hpos; cbn; [lia|done]).
  unfold kDegradeCooldownMs. rewrite andb_true_iff, negb_true_iff, Z.eqb_neq, Z.ltb_lt. lia.
Qed.

(** Three slow lookups open it for thirty seconds. *)
Definition idle : Client :=
  mkClient true true true (lit "http://cache") [] (Some []) (Some []) 0 0 0.

Definition slowHistory : list (Z * Z) := [(900, 20000); (800, 19000); (3000, 18000)].

Lemma breaker_spec_witness :
  isDegraded 40000 (afterLookups slowHistory idle) = true ↔
  (3 <= slowRun slowHistory)%nat ∧ 40000 < default 0 (snd <$> head slowHistory) + kDegradeCooldownMs.
Proof. apply breaker_spec; [done..|]. repeat constructor; cbn; lia. Defined.

(** ** The names in flight, over a run of the DNS task and the worker *)

(** The client, the request the worker is busy with, and (not in the code) the
    requests that were thrown out of a full queue. *)
Record Sys := mkSys { client : Client; busy : option LookupRequest; thrown : list LookupRequest }.

(** What [submitLookup] throws out. *)
Definition submitThrows (domain : bytes) (c : Client) : list LookupRequest :=
  let q := default [] (lookupQueue c) in
  let d := normalizeDomain domain in
  if negb (enabled c) || negb (readEnabled c) || bool_decide (url c = []) || bool_decide (d = [])
     || negb (markPending d (pendingDomains c)).1 || (length q <? kLookupQueueDepth)%nat
  then [] else take 1 q.

Inductive sys_step : Sys → Sys → Prop :=
  | Submits domain type token s :
      sys_step s (mkSys (submitLookup domain type token (client s)) (busy s)
                    (thrown s ++ submitThrows domain (client s)))
  | Takes req c s : busy s = None → workerTake (client s) = (Some req, c) →
      rqToken req ≠ kQueueStopToken → sys_step s (mkSys c (Some req) (thrown s))
  | Finishes http elapsed now req s : busy s = Some req → rqToken req ≠ kQueueStopToken →
      sys_step s (mkSys (workerFinish http elapsed now req (client s)).2 None (thrown s))
  | Configures c s : pendingDomains c = pendingDomains (client s) →
      lookupQueue c = lookupQueue (client s) →
      sys_step s (mkSys c (busy s) (thrown s)).

Definition fresh (c : Client) : Prop := pendingDomains c = [] ∧ lookupQueue c = Some [].

Definition reachable (s : Sys) : Prop := ∃ c, fresh c ∧ rtc sys_step (mkSys c None []) s.

Definition outstanding (s : Sys) : list LookupRequest :=
  option_list (busy s) ++ default [] (lookupQueue (client s)).

Record sys_inv (s : Sys) : Prop := {
  inv_queue : (length (default [] (lookupQueue (client s))) <= kLookupQueueDepth)%nat;
  inv_table : (length (pendingDomains (client s)) <= kMaxPendingDomains)%nat;
  inv_names : pendingDomains (client s) ⊆+ rqDomain <$> outstanding s ++ thrown s;
  inv_text : Forall (λ r, 0 ∉ rqDomain r) (outstanding s);
}.

(** The operations leave the other members alone. *)
Lemma sendDroppingOldest_length {A} depth (x : A) q : (0 < depth)%nat → (length q <= depth)%nat →
  (length (sendDroppingOldest depth x q).2 <= depth)%nat.
Proof.
  intros H0 Hq. unfold sendDroppingOldest. destruct (Nat.ltb_spec (length q) depth); cbn [snd];
    rewrite length_app, ?length_drop; cbn [length]; lia.
Qed.

Lemma sendDroppingOldest_split {A} depth (x : A) q :
  (sendDroppingOldest depth x q).2 = drop (if (length q <? depth)%nat then 0 else 1) q ++ [x].
Proof. unfold sendDroppingOldest. by destruct (length q <? depth)%nat. Qed.

Lemma c_str_no_nul s : 0 ∉ DnsPool.c_str s.
Proof.
  induction s as [|c s IH]; cbn; [by apply not_elem_of_nil|]. destruct (Z.eqb_spec c 0); [by apply not_elem_of_nil|].
  apply not_elem_of_cons. auto.
Qed.

Lemma c_str_id s : 0 ∉ s → DnsPool.c_str s = s.
Proof.
  induction s as [|c s IH]; [done|]. intros [Hc Hs]%not_elem_of_cons. cbn.
  destruct (Z.eqb_spec c 0); [congruence|]. by rewrite IH.
Qed.

Lemma fixedText_no_nul n s : 0 ∉ fixedText n s.
Proof. intros H%elem_of_take. destruct H as (i & H & _). apply list_elem_of_lookup_2 in H. by eapply c_str_no_nul. Qed.

Lemma clearPending_perm d l : 0 ∉ d → clearPending d l = l ∧ d ∉ l ∨ l ≡ₚ d :: clearPending d l.
Proof.
  intros Hd. induction l as [|x l IH]; cbn [clearPending]; [left; split; [done|apply not_elem_of_nil]|].
  rewrite c_str_id by done. destruct (bytes_eqb x d) eqn:E; [apply bytes_eqb_eq in E; subst; by right|].
  apply bytes_eqb_neq in E. destruct IH as [[-> Hn]|IH].
  - left. split; [done|]. apply not_elem_of_cons. auto.
  - right. by rewrite Permutation_swap, <- IH.
Qed.

Lemma clearPending_sub d l k : 0 ∉ d → l ⊆+ d :: k → clearPending d l ⊆+ k.
Proof.
  intros Hd Hl. destruct (clearPending_perm d l Hd) as [[-> Hn]|Hp].
  - apply submseteq_cons_r in Hl as [Hl|(l' & Hl' & _)]; [done|]. exfalso. apply Hn. rewrite Hl'. by left.
  - rewrite Hp in Hl. by apply (submseteq_app_inv_l _ _ [d]) in Hl.
Qed.

(** What the name table and the queue become when a lookup is submitted. *)
Lemma submitLookup_cases domain type token c :
  let c' := submitLookup domain type token c in
  (pendingDomains c' = pendingDomains c ∧ lookupQueue c' = lookupQueue c ∧ submitThrows domain c = []) ∨
  ∃ q req, lookupQueue c = Some q ∧ rqDomain req = fixedText kDomainBytes (normalizeDomain domain) ∧
    lookupQueue c' = Some (sendDroppingOldest kLookupQueueDepth req q).2 ∧
    submitThrows domain c = take (if (length q <? kLookupQueueDepth)%nat then 0 else 1) q ∧
    (pendingDomains c' = pendingDomains c ∨
     (length (pendingDomains c) < kMaxPendingDomains)%nat ∧
     pendingDomains c' = pendingDomains c ++ [rqDomain req]).
Proof.
  unfold submitLookup, submitThrows. destruct (negb (enabled c) || _ || _) eqn:Eon; [by left|]. cbn [orb].
  destruct (lookupQueue c) as [q|] eqn:Eq; [|left; split_and!; try congruence; cbn; by rewrite !orb_true_r].
  cbn [from_option id]. destruct (bool_decide (normalizeDomain domain = [])) eqn:Ed; [by left|]. cbn [orb].
  destruct (markPending (normalizeDomain domain) (pendingDomains c)) as [go l] eqn:Em. cbn [fst].
  destruct go; cbn [negb orb].
  2: { left. unfold markPending in Em. case_bool_decide; [by simplify_eq|]. by case_match. }
  right. exists q, (mkRequest token type (fixedText kDomainBytes (normalizeDomain domain))).
  split_and!; [done..|by destruct (length q <? kLookupQueueDepth)%nat|].
  cbn. unfold markPending in Em. case_bool_decide; [done|].
  destruct (Nat.ltb_spec (length (pendingDomains c)) kMaxPendingDomains); simplify_eq; auto.
Qed.

Lemma throw_perm {A} (b t d h r : list A) : ((b ++ t ++ d) ++ h) ++ r ≡ₚ (b ++ d ++ r) ++ h ++ t.
Proof.
  rewrite <- !app_assoc. f_equiv. rewrite (Permutation_app_comm t), <- !app_assoc. f_equiv.
  rewrite !app_assoc. f_equiv. apply Permutation_app_comm.
Qed.

Lemma submits_inv domain type token s : sys_inv s →
  sys_inv (mkSys (submitLookup domain type token (client s)) (busy s)
             (thrown s ++ submitThrows domain (client s))).
Proof.
  intros [Hq Ht Hn Hx]. destruct (submitLookup_cases domain type token (client s))
    as [(Ep & El & Eth)|(q & req & El & Er & El' & Eth & Ep)].
  - split; unfold outstanding; cbn [client busy thrown]; rewrite ?Ep, ?El, ?Eth, ?app_nil_r; done.
  - unfold outstanding in *. rewrite El in *. cbn [from_option id] in *.
    split; unfold outstanding; cbn [client busy thrown]; rewrite ?El', ?Eth; cbn [from_option id].
    + apply sendDroppingOldest_length; [unfold kLookupQueueDepth; lia|done].
    + destruct Ep as [->|[Hlt ->]]; [done|]. rewrite length_app. cbn. lia.
    + rewrite sendDroppingOldest_split. set (k := if (length q <? kLookupQueueDepth)%nat then 0%nat else 1%nat).
      trans ((rqDomain <$> (option_list (busy s) ++ q) ++ thrown s) ++ [rqDomain req]).
      { destruct Ep as [->|[_ ->]]; [by apply submseteq_inserts_r|by apply submseteq_skips_r]. }
      rewrite <- (take_drop k q) at 1. rewrite !fmap_app. cbn [fmap list_fmap].
      apply Permutation_submseteq, throw_perm.
    + rewrite sendDroppingOldest_split. rewrite !Forall_app in *. destruct Hx. split_and!; [done|by apply Forall_drop|].
      constructor; [|done]. rewrite Er. apply fixedText_no_nul.
Qed.

Lemma fresh_inv c : fresh c → sys_inv (mkSys c None []).
Proof. intros [Hp Hq]. split; unfold outstanding; cbn; rewrite ?Hp, ?Hq; cbn; auto; lia. Qed.

Lemma takes_inv req c s : busy s = None → workerTake (client s) = (Some req, c) →
  sys_inv s → sys_inv (mkSys c (Some req) (thrown s)).
Proof.
  intros Hb Hw [Hq Ht Hn Hx]. unfold workerTake in Hw. unfold outstanding in *. rewrite Hb in *.
  destruct (lookupQueue (client s)) as [[|r q]|] eqn:E; simplify_eq.
  split; unfold outstanding; cbn in *; try done. lia.
Qed.

Lemma workerFinish_state http elapsed now req c : rqToken req ≠ kQueueStopToken →
  let c' := (workerFinish http elapsed now req c).2 in
  pendingDomains c' = clearPending (rqDomain req) (pendingDomains c) ∧ lookupQueue c' = lookupQueue c.
Proof.
  intros Hr. unfold workerFinish. destruct (Z.eqb_spec (rqToken req) kQueueStopToken); [done|].
  unfold notifyLookupOutcome. by case_match.
Qed.

Lemma clearPending_length d l : (length (clearPending d l) <= length l)%nat.
Proof. induction l as [|x l IH]; cbn; [done|]. case_match; cbn; lia. Qed.

Lemma finishes_inv http elapsed now req s : busy s = Some req → rqToken req ≠ kQueueStopToken →
  sys_inv s → sys_inv (mkSys (workerFinish http elapsed now req (client s)).2 None (thrown s)).
Proof.
  intros Hb Hr [Hq Ht Hn Hx]. destruct (workerFinish_state http elapsed now req (client s) Hr) as [Ep El].
  unfold outstanding in *. rewrite Hb in *. cbn [option_list app] in *. apply Forall_cons in Hx as [Hx0 Hx].
  split; unfold outstanding; cbn [client busy thrown option_list app]; rewrite ?Ep, ?El; try done.
  - etrans; [apply clearPending_length|done].
  - by apply clearPending_sub.
Qed.

Lemma sys_step_inv s t : sys_step s t → sys_inv s → sys_inv t.
Proof.
  intros Hst Hi. destruct Hst as [d ty tok s|req c s Hb Hw _|http el now req s Hb Hr|c s Hp Hq].
  - by apply submits_inv.
  - by eapply takes_inv.
  - by apply finishes_inv.
  - destruct Hi as [H1 H2 H3 H4]. split; unfold outstanding in *; cbn; rewrite ?Hp, ?Hq; done.
Qed.

Lemma reachable_inv s : reachable s → sys_inv s.
Proof.
  intros (c & Hc & Hr). assert (H0 := fresh_inv c Hc). revert H0.
  induction Hr as [|s1 s2 s3 Hst _ IH]; eauto using sys_step_inv.
Qed.

(** The table of names in flight, over every run of the DNS task and the
    worker: the table and the queue stay within their bounds, and every name in the
    table is that of a lookup that is queued, being made, or was thrown out of a full
    queue; so when no lookup is outstanding and none was thrown out, the table is
    empty and no name is deduplicated for ever. *)
Theorem pending_released s : reachable s →
  (length (default [] (lookupQueue (client s))) <= kLookupQueueDepth)%nat ∧
  (length (pendingDomains (client s)) <= kMaxPendingDomains)%nat ∧
  pendingDomains (client s) ⊆+ rqDomain <$> outstanding s ++ thrown s ∧
  (outstanding s = [] → thrown s = [] → pendingDomains (client s) = []).
Proof.
  intros [Hq Ht Hn _]%reachable_inv. split_and!; [done..|]. intros Ho Hth. rewrite Ho, Hth in Hn.
  by apply submseteq_nil_r in Hn.
Qed.

(** A run of one lookup. *)
Lemma pending_released_witness :
  let s := mkSys (submitLookup (lit "Lab.") 1 3 idle) None [] in
  (length (default [] (lookupQueue (client s))) <= kLookupQueueDepth)%nat ∧
  (length (pendingDomains (client s)) <= kMaxPendingDomains)%nat ∧
  pendingDomains (client s) ⊆+ rqDomain <$> outstanding s ++ thrown s ∧
  (outstanding s = [] → thrown s = [] → pendingDomains (client s) = []).
Proof.
  apply pending_released. exists idle. split; [done|]. apply rtc_once.
  apply (Submits (lit "Lab.") 1 3 (mkSys idle None [])).
Defined.

(** The leak: with a request out and the queue full, one more name throws the oldest
    out, and the name of that one stays in the table after everything is done: no
    lookup for it is ever made again. *)
Definition nameOf (n : nat) : bytes := [97 + Z.of_nat n].
Definition submitMany (ns : list nat) (c : Client) : Client :=
  fold_left (λ c n, submitLookup (nameOf n) 1 (Z.of_nat n) c) ns c.
Definition offline (url : bytes) : Z * bytes := (404, []).
Fixpoint drainQueue (fuel : nat) (c : Client) : Client :=
  match fuel, workerTake c with
  | S f, (Some req, c) => drainQueue f (workerFinish offline 10 0 req c).2
  | _, _ => c
  end.
Definition leaked : Client :=
  let '(req, c) := workerTake (submitMany [0%nat] idle) in
  let c := submitMany (seq 1 17) c in
  drainQueue 32 (from_option (λ r, (workerFinish offline 10 0 r c).2) c req).

Example leaked_name : lookupQueue leaked = Some [] ∧ pendingDomains leaked = [nameOf 1] ∧
  submitLookup (nameOf 1) 1 1 leaked = leaked.
Proof. vm_compute. auto. Qed.

End DnsCache.
