(* ===== verification/DnsServer.v ===== *)
(** * The DNS server ([src/dns/DnsServer.cpp])

    One turn of [serverLoop]: the slots of the queries in flight are looked at,
    the answers of the external cache are taken, one new query is served.  The
    operating system is a parameter: what its calls return is a function of how
    many have been made, what its sockets hold is an input of the turn. *)
From stdpp Require Import gmap relations.
From S2P Require Import Prelude Text DnsWire DnsPool InternalDnsCache CacheSpec Subnet.
From S2P Require Import DnsCodec DnsCache.
#[local] Open Scope Z_scope.

(** ** The device's own name ([src/core/LocalName.h]) *)

Module LocalName.

Definition kLocalNameSuffix : bytes := lit ".local".

Definition normalized (text : bytes) : bytes := drop_while_end (λ c, c =? 46) (tolower <$> text).

Definition localNameMatches (query hostName : bytes) : bool :=
  if bool_decide (hostName = []) then false
  else
    let asked := normalized query in
    if bool_decide (asked = []) then false
    else
      let own := normalized hostName in
      bool_decide (asked = own) || bool_decide (asked = own ++ kLocalNameSuffix).

End LocalName.

Module DnsServer.
Import LocalName.

Definition DNS_TYPE_A : Z := DnsCodec.DNS_TYPE_A.
Definition DNS_TYPE_AAAA : Z := DnsCodec.DNS_TYPE_AAAA.
Definition DNS_FORWARD_TIMEOUT_MS : Z := 1000.
Definition DNS_DEFAULT_TTL_SEC : Z := 300.
Definition DNS_FOREIGN_LOG_THROTTLE_MS : Z := 5000.
Definition DNS_COUNTER_MAX : Z := 4294967295.
Definition kMaxPendingForwards : nat := 32.
Definition kCacheWaitTimeoutMs : Z := 2000.
Definition kQueryBytes : nat := 1024.

(** ** State *)

Record Peer := mkPeer { peerIp : Z; peerPort : Z }.

#[export] Instance Peer_eq_dec : EqDecision Peer.
Proof. solve_decision. Defined.

(** One query in flight; [query] is the [queryLen] bytes kept of it. *)
Record PendingForward := mkPending {
  active : bool;
  waitingCache : bool;
  fwdFd : Z;
  client : Peer;
  qid : Z;
  qtype : Z;
  qclass : Z;
  domain : bytes;
  query : bytes;
  createdMs : Z;
  sentMs : Z;
}.

Definition noPending : PendingForward := mkPending false true (-1) (mkPeer 0 0) 0 0 0 [] [] 0 0.

(** What the loop does to the outside. *)
Inductive DnsLogSource := LOCAL | CACHE | FORWARDED.

Inductive Effect :=
  | Reply (to : Peer) (msg : bytes)
  | Upstream (fd : Z) (msg : bytes)
  | Closed (fd : Z)
  | Logged (name : bytes) (type : Z) (from : Z) (mac : bytes) (source : DnsLogSource)
      (outcome : DnsCodec.DnsQueryOutcome) (answer : bytes).

(** What the loop reads and never writes. *)
Record Settings := mkSettings {
  localHosts : gmap bytes (list bytes);
  localNameEnabled : bool;
  localNameHost : bytes;
  localNameIp4 : bytes;
  localNameIp6 : bytes;
  blockForwardNonAA : bool;
  subnetFilter : Subnet.Filter;
}.

Record Counters := mkCounters {
  queryCount : Z;
  internalCacheHits : Z;
  internalCacheHitUs : Z;
  forwardedCount : Z;
  foreignDropped : Z;
  lastForeignLogMs : Z;
}.

(** [response] is the buffer the loop reuses; [calls] counts the calls made to the
    operating system, [out] is what has been done so far. *)
Record Server := mkServer {
  settings : Settings;
  pendingForwards : list PendingForward;
  internalCache : InternalDnsCache.Cache;
  cache : DnsCache.Client;
  counters : Counters;
  response : bytes;
  calls : nat;
  out : list Effect;
}.

Definition set_slots (l : list PendingForward) (s : Server) : Server :=
  mkServer (settings s) l (internalCache s) (cache s) (counters s) (response s) (calls s) (out s).
Definition set_internal (c : InternalDnsCache.Cache) (s : Server) : Server :=
  mkServer (settings s) (pendingForwards s) c (cache s) (counters s) (response s) (calls s) (out s).
Definition set_cache (c : DnsCache.Client) (s : Server) : Server :=
  mkServer (settings s) (pendingForwards s) (internalCache s) c (counters s) (response s) (calls s) (out s).
Definition set_counters (c : Counters) (s : Server) : Server :=
  mkServer (settings s) (pendingForwards s) (internalCache s) (cache s) c (response s) (calls s) (out s).
Definition set_response (r : bytes) (s : Server) : Server :=
  mkServer (settings s) (pendingForwards s) (internalCache s) (cache s) (counters s) r (calls s) (out s).
Definition tick (s : Server) : Server :=
  mkServer (settings s) (pendingForwards s) (internalCache s) (cache s) (counters s) (response s)
    (S (calls s)) (out s).
Definition emit (e : Effect) (s : Server) : Server :=
  mkServer (settings s) (pendingForwards s) (internalCache s) (cache s) (counters s) (response s)
    (calls s) (out s ++ [e]).

Definition setSlot (i : nat) (pf : PendingForward) (s : Server) : Server :=
  set_slots (<[i := pf]> (pendingForwards s)) s.

Definition set_fd (fd : Z) (pf : PendingForward) : PendingForward :=
  mkPending (active pf) (waitingCache pf) fd (client pf) (qid pf) (qtype pf) (qclass pf) (domain pf)
    (query pf) (createdMs pf) (sentMs pf).

Definition addQuery (c : Counters) : Counters :=
  mkCounters (u32 (queryCount c + 1)) (internalCacheHits c) (internalCacheHitUs c) (forwardedCount c)
    (foreignDropped c) (lastForeignLogMs c).
Definition addHit (us : Z) (c : Counters) : Counters :=
  mkCounters (queryCount c) (u32 (internalCacheHits c + 1)) (u64 (internalCacheHitUs c + us))
    (forwardedCount c) (foreignDropped c) (lastForeignLogMs c).
Definition addForwarded (c : Counters) : Counters :=
  mkCounters (queryCount c) (internalCacheHits c) (internalCacheHitUs c) (u32 (forwardedCount c + 1))
    (foreignDropped c) (lastForeignLogMs c).
Definition addForeign (nowMs : Z) (c : Counters) : Counters :=
  mkCounters (queryCount c) (internalCacheHits c) (internalCacheHitUs c) (forwardedCount c)
    (u32 (foreignDropped c + 1))
    (if DNS_FOREIGN_LOG_THROTTLE_MS <=? u64 (nowMs - lastForeignLogMs c) then nowMs
     else lastForeignLogMs c).

(** ** The operating system *)

(** The [n]-th call of each kind; [osUninit] is what an unset stack buffer of four
    bytes holds. *)
Record Os := mkOs {
  osSocket : nat → Z;
  osSendto : nat → Z;
  osCacheMs : nat → Z;
  osMicros : nat → Z;
  osMac : Z → bytes;
  osUninit : bytes;
}.

(** What the loop finds when [select] returns: the clock (three readings of it), the readable forward
    sockets ([Some None] is a failed [recvfrom]), the datagrams on the wakeup socket
    ([None] is one that is not a [LookupResult]), and the datagram on the server's
    own socket. *)
Record Input := mkInput {
  now : Z;
  foreignNow : Z;
  usableNow : Z;
  forwards : Z → option (option bytes);
  wakeups : option (list (option DnsCache.LookupResult));
  arrival : option (option (Peer * bytes));
}.

Section Loop.
Context (os : Os).
Context (pton4 : bytes → option Z) (pton6 : bytes → option bytes).
Context (ntop4 : Z → option bytes) (ntop6 : bytes → option bytes).

(** ** The slots *)

Fixpoint firstFree (l : list PendingForward) (i : nat) : option nat :=
  match l with
  | [] => None
  | pf :: l' => if negb (active pf) then Some i else firstFree l' (S i)
  end.

Definition allocPendingSlot (s : Server) : option nat := firstFree (pendingForwards s) 0.

Definition freed (pf : PendingForward) : PendingForward :=
  mkPending false (waitingCache pf) (if 0 <=? fwdFd pf then -1 else fwdFd pf) (client pf) (qid pf)
    (qtype pf) (qclass pf) [] (query pf) (createdMs pf) (sentMs pf).

Definition freePendingSlot (i : nat) (s : Server) : Server :=
  match pendingForwards s !! i with
  | None => s
  | Some pf => setSlot i (freed pf) (if 0 <=? fwdFd pf then emit (Closed (fwdFd pf)) s else s)
  end.

Definition logFor (pf : PendingForward) (source : DnsLogSource) (o : DnsCodec.DnsQueryOutcome)
    (answer : bytes) : Effect :=
  Logged (domain pf) (qtype pf) (peerIp (client pf)) (osMac os (peerIp (client pf))) source o answer.

(** [buildAnswer] into the loop's buffer, and the reply when it has a length. *)
Definition replyAnswer (to : Peer) (id : Z) (name : bytes) (type cls : Z) (ips : list bytes) (ttl : Z)
    (s : Server) : run Server :=
  r ← DnsCodec.buildAnswer pton4 pton6 (osUninit os) id name type cls ips ttl (response s);
  let s := set_response r.2 s in
  mret (if (0 <? r.1)%nat then emit (Reply to (take r.1 r.2)) s else s).

Definition replyNxdomain (to : Peer) (id : Z) (name : bytes) (type cls : Z) (s : Server)
  : run Server :=
  r ← DnsCodec.buildNxdomain id name type cls (response s);
  let s := set_response r.2 s in
  mret (if (0 <? r.1)%nat then emit (Reply to (take r.1 r.2)) s else s).

(** NXDOMAIN from a zeroed buffer of its own. *)
Definition expirePendingSlot (i : nat) (s : Server) : run Server :=
  match pendingForwards s !! i with
  | None => mret s
  | Some pf =>
      let s := emit (logFor pf FORWARDED DnsCodec.Timeout []) s in
      r ← DnsCodec.buildNxdomain (qid pf) (domain pf) (qtype pf) (qclass pf)
            (replicate DnsCodec.DNS_MAX_MSG_SIZE 0);
      let s := if (0 <? r.1)%nat then emit (Reply (client pf) (take r.1 r.2)) s else s in
      mret (freePendingSlot i s)
  end.

Definition startForward (i : nat) (nowMs : Z) (s : Server) : bool * Server :=
  match pendingForwards s !! i with
  | None => (false, s)
  | Some pf =>
      if negb (active pf) || bool_decide (query pf = []) then (false, s)
      else
        let fd := osSocket os (calls s) in
        if fd <? 0 then (false, setSlot i (set_fd fd pf) (tick s))
        else if osSendto os (calls s) <? 0 then
          (false, emit (Closed fd) (setSlot i (set_fd (-1) pf) (tick s)))
        else
          (true,
           emit (Upstream fd (query pf))
             (set_counters (addForwarded (counters s))
               (setSlot i (mkPending (active pf) false fd (client pf) (qid pf) (qtype pf) (qclass pf)
                             (domain pf) (query pf) (createdMs pf) nowMs) (tick s))))
  end.

(** "Forward, and give up when that cannot be done". *)
Definition forwardOrExpire (i : nat) (nowMs : Z) (s : Server) : run Server :=
  let '(ok, s) := startForward i nowMs s in
  if ok then mret s else expirePendingSlot i s.

(** [internalCache_.store] when the cache is there. *)
Definition storeInternal (name : bytes) (type : Z) (ips : list bytes) (ttl : Z) (s : Server)
  : run Server :=
  match InternalDnsCache.arena (internalCache s) with
  | None => mret s
  | Some _ =>
      c ← InternalDnsCache.store pton4 pton6 name type ips ttl (osCacheMs os (calls s))
            (osMicros os (calls s)) (internalCache s);
      mret (tick (set_internal c s))
  end.

(** ** The slots of one turn *)

(** An answer of the upstream: cached, logged, relayed, the slot freed. *)
Definition relayReply (i : nat) (pf : PendingForward) (msg : bytes) (s : Server) : run Server :=
  let s := set_response (msg ++ drop (length msg) (response s)) s in
  r ← DnsCodec.parseForwardAnswer ntop6 (response s) (length msg);
  let '(ips, ttl) := r in
  s ← (if bool_decide (ips = []) then mret s
       else
         s ← storeInternal (domain pf) (qtype pf) ips
               (if ttl =? 0 then DNS_DEFAULT_TTL_SEC else ttl) s;
         mret (set_cache (DnsCache.store (domain pf) (qtype pf) ips (cache s)) s));
  o ← DnsCodec.forwardingOutcome (response s) (length msg);
  let s := emit (logFor pf FORWARDED o (lit "(forwarded)")) s in
  let s := emit (Reply (client pf) (take (length msg) (response s))) s in
  mret (freePendingSlot i s).

Definition scanSlot (inp : Input) (i : nat) (s : Server) : run Server :=
  match pendingForwards s !! i with
  | None => mret s
  | Some pf =>
      if negb (active pf) then mret s
      else if waitingCache pf then
        if kCacheWaitTimeoutMs <=? u64 (now inp - createdMs pf) then forwardOrExpire i (now inp) s
        else mret s
      else
        match (if 0 <=? fwdFd pf then forwards inp (fwdFd pf) else None) with
        | Some (Some msg) =>
            let msg := take DnsCodec.DNS_MAX_MSG_SIZE msg in
            if bool_decide (msg = []) then mret (freePendingSlot i s) else relayReply i pf msg s
        | Some None => mret (freePendingSlot i s)
        | None =>
            if (0 <=? fwdFd pf) && (DNS_FORWARD_TIMEOUT_MS <=? u64 (now inp - sentMs pf))
            then expirePendingSlot i s else mret s
        end
  end.

Fixpoint scanSlots (inp : Input) (idx : list nat) (s : Server) : run Server :=
  match idx with
  | [] => mret s
  | i :: idx' => s ← scanSlot inp i s; scanSlots inp idx' s
  end.

(** ** The answers of the external cache *)

Definition cacheResult (nowMs : Z) (res : DnsCache.LookupResult) (s : Server) : run Server :=
  if Z.of_nat kMaxPendingForwards <=? DnsCache.rsToken res then mret s
  else
    let i := Z.to_nat (DnsCache.rsToken res) in
    match pendingForwards s !! i with
    | None => mret s
    | Some pf =>
        if negb (active pf) || negb (waitingCache pf) then mret s
        else
          let ips := commaList (DnsPool.c_str (DnsCache.rsIps res)) in
          if negb (DnsCache.rsHit res) || bool_decide (ips = []) then forwardOrExpire i nowMs s
          else
            s ← storeInternal (domain pf) (qtype pf) ips DNS_DEFAULT_TTL_SEC s;
            s ← replyAnswer (client pf) (qid pf) (domain pf) (qtype pf) (qclass pf) ips
                  DNS_DEFAULT_TTL_SEC s;
            let s := emit (logFor pf CACHE DnsCodec.Answered (nth 0 ips [])) s in
            mret (freePendingSlot i s)
    end.

(** The loop round [drainLookupResult].  The socket is a blocking one: when no
    datagram is left the loop stays in [recvfrom], and the flag says so. *)
Fixpoint cacheResults (nowMs : Z) (ds : list (option DnsCache.LookupResult)) (s : Server)
  : run (bool * Server) :=
  match ds with
  | [] => mret (true, s)
  | None :: _ => mret (false, s)
  | Some res :: ds' => s ← cacheResult nowMs res s; cacheResults nowMs ds' s
  end.

(** ** A new query *)

(** What answers a query without the network. *)
Record Resolved := mkResolved {
  rvFound : bool;
  rvLocal : bool;
  rvIps : list bytes;
  rvTtl : Z;
}.

Definition lookupName (name : bytes) : bytes :=
  let d := tolower <$> name in
  if bool_decide (last d = Some 46) then take (length d - 1) d else d.

Definition hasV6 (ip : bytes) : bool := bool_decide (is_Some (find_char 58 ip)).

(** The addresses the device has for its own name. *)
Definition ownAddresses (c : Settings) (type : Z) : list bytes :=
  if (type =? DNS_TYPE_A) && negb (bool_decide (localNameIp4 c = [])) then [localNameIp4 c]
  else if (type =? DNS_TYPE_AAAA) && negb (bool_decide (localNameIp6 c = [])) then [localNameIp6 c]
  else [].

Definition hostAddresses (type : Z) (ips : list bytes) : list bytes :=
  if (type =? DNS_TYPE_A) || (type =? DNS_TYPE_AAAA)
  then filter (λ ip, (if type =? DNS_TYPE_AAAA then hasV6 ip else negb (hasV6 ip)) = true) ips
  else [].

(** The device's own name, then the user's hosts, whose addresses are appended. *)
Definition resolveLocal (c : Settings) (name : bytes) (type : Z) : bool * list bytes :=
  let own := localNameEnabled c && localNameMatches name (localNameHost c) in
  let ips := if own then ownAddresses c type else [] in
  match localHosts c !! name with
  | Some (ip :: l) => (true, ips ++ hostAddresses type (ip :: l))
  | _ => (own, ips)
  end.

Definition resolve (name : bytes) (type : Z) (s : Server) : run (Resolved * Server) :=
  let '(found, ips) := resolveLocal (settings s) name type in
  if found then mret (mkResolved true true ips DNS_DEFAULT_TTL_SEC, s)
  else if bool_decide (is_Some (InternalDnsCache.arena (internalCache s)))
          && ((type =? DNS_TYPE_A) || (type =? DNS_TYPE_AAAA)) then
    r ← InternalDnsCache.lookup ntop4 ntop6 name type (osCacheMs os (calls s)) (osMicros os (calls s))
          (internalCache s);
    let s := tick (set_internal r.2 s) in
    match r.1 with
    | Some (found, ttl) =>
        mret (mkResolved true false found ttl,
              set_counters (addHit (u32 (osMicros os (calls s))) (counters s)) s)
    | None => mret (mkResolved false false ips DNS_DEFAULT_TTL_SEC, s)
    end
  else mret (mkResolved false false ips DNS_DEFAULT_TTL_SEC, s).

(** A slot for the query, and where it goes first. *)
Definition openSlot (nowMs : Z) (from : Peer) (q : DnsCodec.Query) (msg : bytes) : PendingForward :=
  mkPending true true (-1) from (DnsCodec.qId q) (DnsCodec.qType q) (DnsCodec.qClass q)
    (DnsCodec.qName q) (if (length msg <=? kQueryBytes)%nat then msg else []) nowMs 0.

Definition logQuery (from : Peer) (q : DnsCodec.Query) (source : DnsLogSource)
    (o : DnsCodec.DnsQueryOutcome) (answer : bytes) : Effect :=
  Logged (DnsCodec.qName q) (DnsCodec.qType q) (peerIp from) (osMac os (peerIp from)) source o answer.

Definition forwardQuery (inp : Input) (from : Peer) (q : DnsCodec.Query) (msg : bytes) (s : Server)
  : run Server :=
  let nxdomain o s :=
    replyNxdomain from (DnsCodec.qId q) (DnsCodec.qName q) (DnsCodec.qType q) (DnsCodec.qClass q)
      (emit (logQuery from q FORWARDED o []) s) in
  match allocPendingSlot s with
  | None => nxdomain DnsCodec.NoSlot s
  | Some i =>
      let pf := openSlot (now inp) from q msg in
      let s := setSlot i pf s in
      if negb (bool_decide (query pf = [])) && DnsCache.usable (usableNow inp) (cache s) then
        mret (set_cache (DnsCache.submitLookup (domain pf) (qtype pf) (Z.of_nat i) (cache s)) s)
      else
        let '(ok, s) := startForward i (now inp) s in
        if ok then mret s else nxdomain DnsCodec.NoSocket (freePendingSlot i s)
  end.

Definition serveQuery (inp : Input) (from : Peer) (msg : bytes) (s : Server) : run Server :=
  let msg := take DnsCodec.DNS_MAX_MSG_SIZE msg in
  let s := set_counters (addQuery (counters s)) s in
  q ← DnsCodec.parseQuery msg (length msg);
  match q with
  | None => mret s
  | Some q =>
      if Subnet.active (subnetFilter (settings s))
         && negb (Subnet.allows (subnetFilter (settings s)) (peerIp from))
      then mret (set_counters (addForeign (foreignNow inp) (counters s)) s)
      else
        let name := DnsCodec.qName q in
        let type := DnsCodec.qType q in
        r ← resolve (lookupName name) type s;
        let '(res, s) := r in
        let source := if rvLocal res then LOCAL else CACHE in
        if rvFound res then
          if bool_decide (rvIps res = []) then
            replyAnswer from (DnsCodec.qId q) name type (DnsCodec.qClass q) [] DNS_DEFAULT_TTL_SEC
              (emit (logQuery from q source DnsCodec.NoData []) s)
          else
            replyAnswer from (DnsCodec.qId q) name type (DnsCodec.qClass q) (rvIps res) (rvTtl res)
              (emit (logQuery from q source DnsCodec.Answered (nth 0 (rvIps res) [])) s)
        else if blockForwardNonAA (settings s) && negb (type =? DNS_TYPE_A)
                && negb (type =? DNS_TYPE_AAAA) then
          replyAnswer from (DnsCodec.qId q) name type (DnsCodec.qClass q) [] DNS_DEFAULT_TTL_SEC
            (emit (logQuery from q FORWARDED DnsCodec.Blocked []) s)
        else forwardQuery inp from q msg s
  end.

(** ** The turn *)

Definition arrivalPhase (inp : Input) (s : Server) : run Server :=
  match arrival inp with
  | Some (Some (from, msg)) => serveQuery inp from msg s
  | _ => mret s
  end.

(** The flag is set when the loop is stuck waiting for the external cache, and the
    rest of the turn is not reached. *)
Definition turn (inp : Input) (s : Server) : run (bool * Server) :=
  s ← scanSlots inp (seq 0 kMaxPendingForwards) s;
  r ← match wakeups inp with
      | None => mret (false, s)
      | Some ds => cacheResults (now inp) ds s
      end;
  let '(stuck, s) := r in
  if stuck : bool then mret (true, s)
  else s ← arrivalPhase inp s; mret (false, s).

End Loop.

(** ** The configuration *)

(** An entry of the host list ([core::LocalHost]). *)
Record HostEntry := mkHost { hName : bytes; hIp4 : bytes; hIp6 : bytes; hEnabled : bool }.

Definition addLocalHost (name ip : bytes) (m : gmap bytes (list bytes)) : gmap bytes (list bytes) :=
  <[name := default [] (m !! name) ++ [ip]]> m.

(** The host loop of [start]. *)
Definition loadHosts (hosts : list HostEntry) : gmap bytes (list bytes) :=
  fold_left (λ m h,
    if negb (hEnabled h) then m
    else
      let m := if bool_decide (hIp4 h = []) then m else addLocalHost (hName h) (hIp4 h) m in
      if bool_decide (hIp6 h = []) then m else addLocalHost (hName h) (hIp6 h) m) hosts ∅.

Definition setLocalName (on : bool) (hostName ip4 ip6 : bytes) (c : Settings) : Settings :=
  mkSettings (localHosts c) on hostName ip4 ip6 (blockForwardNonAA c) (subnetFilter c).

Definition setBlockForwardNonAA (on : bool) (c : Settings) : Settings :=
  mkSettings (localHosts c) (localNameEnabled c) (localNameHost c) (localNameIp4 c) (localNameIp6 c)
    on (subnetFilter c).

Definition applySubnetFilter (f : Subnet.Settings) (c : Settings) : Settings :=
  mkSettings (localHosts c) (localNameEnabled c) (localNameHost c) (localNameIp4 c) (localNameIp6 c)
    (blockForwardNonAA c) (Subnet.apply f).

Definition clearLocalHosts (c : Settings) : Settings :=
  mkSettings ∅ (localNameEnabled c) (localNameHost c) (localNameIp4 c) (localNameIp6 c)
    (blockForwardNonAA c) (subnetFilter c).

(** [psram] is whether the allocation succeeds. *)
Definition applyInternalCache (psram on : bool) (mb : Z) (ignore : bool) (c : InternalDnsCache.Cache)
  : InternalDnsCache.Cache :=
  let c := InternalDnsCache.setIgnoreTtl ignore c in
  let available c := bool_decide (is_Some (InternalDnsCache.arena c)) in
  if negb on then (if available c then InternalDnsCache.disable c else c)
  else if negb (available c) || negb (InternalDnsCache.sizeMb c =? mb) then
    let c := if available c then InternalDnsCache.disable c else c in
    (InternalDnsCache.enable psram mb c).2
  else c.

(** What the loop does on its way out. *)
Definition closeLoop (s : Server) : Server :=
  fold_left (λ s i,
    match pendingForwards s !! i with
    | Some pf => if active pf then freePendingSlot i s else s
    | None => s
    end) (seq 0 kMaxPendingForwards) s.

(** ** Invariant *)

(** What a slot holds in each of its phases. *)
Record slotOk (pf : PendingForward) : Prop := {
  slot_fd : 0 <= fwdFd pf ↔ active pf = true ∧ waitingCache pf = false;
  slot_query : active pf = true → waitingCache pf = false → query pf ≠ [];
  slot_domain : (length (domain pf) <= 256)%nat;
  slot_bytes : (length (query pf) <= kQueryBytes)%nat;
}.

Definition cacheOk (c : InternalDnsCache.Cache) : Prop :=
  InternalDnsCache.arena c = None ∨ ∃ cap M, CacheSpec.Refines c cap M.

(** The most addresses of one local name that fit an answer beside the device's own. *)
Definition hostsOk (c : Settings) : Prop :=
  map_Forall (λ _ ips, (length ips <= 128)%nat) (localHosts c).

Record inv (s : Server) : Prop := {
  inv_slots : length (pendingForwards s) = kMaxPendingForwards;
  inv_each : Forall slotOk (pendingForwards s);
  inv_response : length (response s) = DnsCodec.DNS_MAX_MSG_SIZE;
  inv_cache : cacheOk (internalCache s);
  inv_hosts : hostsOk (settings s);
}.

(** Who is waiting, and who has been sent a datagram. *)
Definition waitsFor (pf : PendingForward) : list Peer := if active pf then [client pf] else [].
Definition waitingPeers (l : list PendingForward) : list Peer := l ≫= waitsFor.
Definition replied (es : list Effect) : list Peer :=
  omap (λ e, match e with Reply to _ => Some to | _ => None end) es.

(** A step that keeps the invariant, and whose accounts balance: those replied to,
    those still waiting and those given up are those who were waiting and those
    taken on. *)
Record steps (took lost : list Peer) (s s' : Server) : Prop := {
  steps_inv : inv s';
  steps_settings : settings s' = settings s;
  steps_out : ∃ es, out s' = out s ++ es ∧
    replied es ++ waitingPeers (pendingForwards s') ++ lost ≡ₚ
      waitingPeers (pendingForwards s) ++ took;
}.

Lemma replied_app a b : replied (a ++ b) = replied a ++ replied b.
Proof. apply omap_app. Qed.

Lemma steps_refl s : inv s → steps [] [] s s.
Proof. intros H. split; [done|done|]. exists []. by rewrite app_nil_r. Qed.

(** Permutations of peers, by counting. *)
Ltac count_peers :=
  let x := fresh "x" in
  apply (Permutation_count_occ Peer_eq_dec); intros x;
  repeat match goal with H : Permutation _ _ |- _ =>
    pose proof (proj1 (Permutation_count_occ Peer_eq_dec _ _) H x); clear H end;
  rewrite ?count_occ_app in *; cbn [count_occ app] in *; repeat case_match; try lia.

Lemma steps_trans t1 l1 t2 l2 s s' s'' :
  steps t1 l1 s s' → steps t2 l2 s' s'' → steps (t1 ++ t2) (l1 ++ l2) s s''.
Proof.
  intros [_ C1 (e1 & O1 & P1)] [I2 C2 (e2 & O2 & P2)]. split; [done|congruence|].
  exists (e1 ++ e2). split; [by rewrite O2, O1, app_assoc|]. rewrite replied_app. count_peers.
Qed.

(** What was both taken on and given up on the way does not count. *)
Lemma steps_cancel t l t' l' s s' : steps t l s s' → t ++ l' ≡ₚ t' ++ l → steps t' l' s s'.
Proof.
  intros [I C (e & O & P)] H. split; [done|done|]. exists e. split; [done|]. count_peers.
Qed.

Lemma waitingPeers_insert l i x y : l !! i = Some x →
  waitsFor x ++ waitingPeers (<[i := y]> l) ≡ₚ waitsFor y ++ waitingPeers l.
Proof.
  intros Hi. pose proof (lookup_lt_Some _ _ _ Hi). unfold waitingPeers.
  rewrite insert_take_drop by done. rewrite <- (take_drop_middle l i x Hi) at 3.
  rewrite !bind_app, !bind_cons. count_peers.
Qed.

(** ** The elementary steps *)

Lemma emit_reply to msg s : inv s → steps [to] [] s (emit (Reply to msg) s).
Proof.
  intros [? ? ? ? ?]. split; [by split|done|]. exists [Reply to msg]. split; [done|].
  change (replied _) with [to]. change (pendingForwards (emit _ s)) with (pendingForwards s). count_peers.
Qed.

Lemma emit_other e s : inv s → replied [e] = [] → steps [] [] s (emit e s).
Proof.
  intros [? ? ? ? ?] He. split; [by split|done|]. exists [e]. split; [done|]. by rewrite He.
Qed.

(** Steps that leave the slots and the effects alone. *)
Lemma quiet_steps s s' : inv s' → settings s' = settings s → pendingForwards s' = pendingForwards s →
  out s' = out s → steps [] [] s s'.
Proof.
  intros Hi Hc Hp Ho. split; [done|done|]. exists []. rewrite Hp, Ho, app_nil_r. split; [done|].
  by rewrite app_nil_r.
Qed.

Lemma setSlot_steps i x y s : inv s → pendingForwards s !! i = Some x → slotOk y →
  steps (waitsFor y) (waitsFor x) s (setSlot i y s).
Proof.
  intros [H1 H2 H3 H4 H5] Hi Hy. split; [split; cbn|done|].
  - by rewrite length_insert.
  - by apply Forall_insert.
  - done.
  - done.
  - done.
  - exists []. split; [by rewrite app_nil_r|]. cbn [pendingForwards setSlot set_slots replied omap list_omap].
    pose proof (waitingPeers_insert _ i x y Hi). count_peers.
Qed.

Lemma slot_at s i : inv s → (i < kMaxPendingForwards)%nat →
  ∃ pf, pendingForwards s !! i = Some pf ∧ slotOk pf.
Proof.
  intros H Hi. destruct (lookup_lt_is_Some_2 (pendingForwards s) i) as [pf Hpf]; [by rewrite (inv_slots s H)|].
  exists pf. split; [done|]. by apply (Forall_lookup_1 _ _ _ _ (inv_each s H) Hpf).
Qed.

Lemma freed_ok pf : slotOk pf → slotOk (freed pf).
Proof.
  intros [H1 H2 H3 H4]. split; cbn; try done; [|lia].
  destruct (Z.leb_spec 0 (fwdFd pf)); split; [lia|by intros []|lia|by intros []].
Qed.

Lemma freePendingSlot_steps i pf s : inv s → pendingForwards s !! i = Some pf → slotOk pf →
  steps [] (waitsFor pf) s (freePendingSlot i s).
Proof.
  intros Hs Hi Hok. unfold freePendingSlot. rewrite Hi. destruct (0 <=? fwdFd pf).
  - apply (steps_trans [] [] [] (waitsFor pf) s (emit (Closed (fwdFd pf)) s)).
    + by apply emit_other.
    + apply (setSlot_steps i pf (freed pf)); [|done|by apply freed_ok]. by destruct Hs.
  - by apply (setSlot_steps i pf (freed pf)); [|done|apply freed_ok].
Qed.


(** The server as [start] leaves it. *)
Definition boot (c : Settings) (client : DnsCache.Client) (count : Counters) : Server :=
  mkServer c (replicate kMaxPendingForwards noPending)
    (InternalDnsCache.mkCache None 0 InternalDnsCache.zeroMeter
       (InternalDnsCache.mkMark 0 0 (-1) 0 [] false) false)
    client count (replicate DnsCodec.DNS_MAX_MSG_SIZE 0) 0 [].

Lemma boot_inv c client count : hostsOk c → inv (boot c client count).
Proof.
  intros Hc. split; cbn [pendingForwards response internalCache settings boot].
  - by rewrite length_replicate.
  - apply Forall_replicate. split; cbn; try done; [split; [lia|by intros []]|lia|lia].
  - by rewrite length_replicate.
  - by left.
  - done.
Qed.

(** ** The operations *)

Section Safety.
Context (os : Os) (Hos : length (osUninit os) = 4%nat).
Context (pton4 : bytes → option Z) (pton6 : bytes → option bytes).
Context (Hp6 : ∀ ip a, pton6 ip = Some a → length a = 16%nat).
Context (ntop4 : Z → option bytes) (ntop6 : bytes → option bytes).

Definition fits (name : bytes) (ips : list bytes) : Prop :=
  (length name + 18 + 28 * length ips <= DnsCodec.DNS_MAX_MSG_SIZE)%nat.

Lemma replyAnswer_eq to id name type cls ips ttl s : inv s → fits name ips →
  ∃ m r, replyAnswer os pton4 pton6 to id name type cls ips ttl s =
      Done (emit (Reply to m) (set_response r s)) ∧ length r = DnsCodec.DNS_MAX_MSG_SIZE ∧
    (Forall (DnsCodec.accepted pton4 pton6) ips →
     m = DnsCodec.answerBytes pton4 pton6 id name type cls ips ttl).
Proof.
  intros Hs Hf. unfold replyAnswer.
  destruct (DnsCodec.buildAnswer_spec pton4 pton6 Hp6 (osUninit os) id name type cls ips ttl (response s))
    as (m & -> & Hl & Hne & Hm); [done|by rewrite (inv_response s Hs)|].
  rewrite run_bind_done. cbn [fst snd]. destruct (Nat.ltb_spec 0 (length m)); [|lia].
  rewrite take_app_length. eexists m, _. split; [done|]. split; [|done].
  unfold fits in Hf. rewrite length_app, length_drop, (inv_response s Hs). lia.
Qed.

Lemma replyNxdomain_eq to id name type cls s : inv s → fits name [] →
  ∃ r, replyNxdomain to id name type cls s =
      Done (emit (Reply to (DnsCodec.questionBytes id 33155 0 name type cls)) (set_response r s)) ∧
    length r = DnsCodec.DNS_MAX_MSG_SIZE.
Proof.
  unfold fits. cbn [length]. intros Hs Hf. unfold replyNxdomain.
  destruct (DnsCodec.buildNxdomain_spec id name type cls (response s)) as (m & E & Hne & ->).
  { rewrite (inv_response s Hs). lia. }
  rewrite E, run_bind_done. cbn [fst snd]. destruct (Nat.ltb_spec 0 (length (DnsCodec.questionBytes id 33155 0 name type cls))); [|lia].
  rewrite take_app_length. eexists _. split; [done|].
  destruct (DnsCodec.buildQuestion_eq id 33155 0 name type cls (response s)) as (_ & Hl & _);
    [rewrite (inv_response s Hs); lia|].
  rewrite length_app, length_drop, (inv_response s Hs). lia.
Qed.

Lemma set_response_inv r s : inv s → length r = DnsCodec.DNS_MAX_MSG_SIZE → inv (set_response r s).
Proof. intros [? ? ? ? ?] Hr. by split. Qed.

Lemma reply_steps to m r s : inv s → length r = DnsCodec.DNS_MAX_MSG_SIZE →
  steps [to] [] s (emit (Reply to m) (set_response r s)).
Proof.
  intros Hs Hr. pose proof (set_response_inv r s Hs Hr) as H.
  apply (steps_trans [] [] [to] [] s (set_response r s)); [|by apply emit_reply].
  by apply quiet_steps.
Qed.

Lemma expirePendingSlot_eq i pf s : pendingForwards s !! i = Some pf → (length (domain pf) <= 256)%nat →
  expirePendingSlot os i s =
    Done (freePendingSlot i (emit (Reply (client pf)
            (DnsCodec.questionBytes (qid pf) 33155 0 (domain pf) (qtype pf) (qclass pf)))
          (emit (logFor os pf FORWARDED DnsCodec.Timeout []) s))).
Proof.
  intros Hi Hd. unfold expirePendingSlot. rewrite Hi.
  destruct (DnsCodec.buildNxdomain_spec (qid pf) (domain pf) (qtype pf) (qclass pf)
    (replicate DnsCodec.DNS_MAX_MSG_SIZE 0)) as (m & E & Hne & ->).
  { rewrite length_replicate. unfold DnsCodec.DNS_MAX_MSG_SIZE. lia. }
  rewrite E, run_bind_done. cbn [fst snd].
  destruct (Nat.ltb_spec 0 (length (DnsCodec.questionBytes (qid pf) 33155 0 (domain pf) (qtype pf) (qclass pf)))); [|lia].
  by rewrite take_app_length.
Qed.

Lemma expire_steps i pf s : inv s → pendingForwards s !! i = Some pf → slotOk pf → active pf = true →
  ∃ s', expirePendingSlot os i s = Done s' ∧ steps [] [] s s'.
Proof.
  intros Hs Hi Hok Ha. rewrite (expirePendingSlot_eq i pf) by (done || apply Hok). eexists. split; [done|].
  set (s1 := emit (logFor os pf FORWARDED DnsCodec.Timeout []) s).
  assert (H1 : steps [] [] s s1) by (by apply emit_other).
  set (s2 := emit (Reply _ _) s1).
  assert (H2 : steps [client pf] [] s1 s2) by (apply emit_reply, H1).
  assert (H3 : steps [] (waitsFor pf) s2 (freePendingSlot i s2)) by (apply freePendingSlot_steps; [apply H2|done|done]).
  eapply steps_cancel; [exact (steps_trans _ _ _ _ _ _ _ (steps_trans _ _ _ _ _ _ _ H1 H2) H3)|].
  unfold waitsFor. by rewrite Ha.
Qed.

Definition forwarded (fd nowMs : Z) (pf : PendingForward) : PendingForward :=
  mkPending (active pf) false fd (client pf) (qid pf) (qtype pf) (qclass pf) (domain pf) (query pf)
    (createdMs pf) nowMs.

(** The query goes upstream on a socket of its own, or the slot is as it was but for
    a closed descriptor. *)
Lemma startForward_cases i nowMs pf s : pendingForwards s !! i = Some pf → active pf = true →
  waitingCache pf = true → slotOk pf → inv s →
  ∃ s', steps [] [] s s' ∧
    ((∃ fd, startForward os i nowMs s = (true, s') ∧ query pf ≠ [] ∧ 0 <= fd ∧
        pendingForwards s' = <[i := forwarded fd nowMs pf]> (pendingForwards s) ∧
        out s' = out s ++ [Upstream fd (query pf)]) ∨
     (∃ fd, startForward os i nowMs s = (false, s') ∧
        pendingForwards s' !! i = Some (set_fd fd pf) ∧ slotOk (set_fd fd pf) ∧
        (query pf = [] ∨ osSocket os (calls s) < 0 ∨ osSendto os (calls s) < 0))).
Proof.
  intros Hi Ha Hw Hok Hs. pose proof (lookup_lt_Some _ _ _ Hi) as Hlt. destruct Hok as [H1 H2 H3 H4].
  assert (Hold : ¬ 0 <= fwdFd pf) by (rewrite H1, Hw; by intros []).
  assert (Hfd : ∀ fd, fd < 0 → slotOk (set_fd fd pf)).
  { intros fd Hfd. split; cbn; try done. rewrite Hw. split; [lia|by intros []]. }
  unfold startForward. rewrite Hi, Ha. cbn [negb orb].
  destruct (bool_decide (query pf = [])) eqn:Eq.
  { exists s. split; [by apply steps_refl|]. right. exists (fwdFd pf). split; [done|].
    replace (set_fd (fwdFd pf) pf) with pf by (by destruct pf). split; [done|]. split; [by split|].
    left. by eapply bool_decide_eq_true. }
  apply bool_decide_eq_false in Eq. cbv zeta.
  assert (Ht : inv (tick s)) by (by destruct Hs).
  assert (Hset : ∀ y, slotOk y → waitsFor y = waitsFor pf → steps [] [] s (setSlot i y (tick s))).
  { intros y Hy Hwy. eapply steps_cancel.
    - eapply steps_trans; [by apply (quiet_steps s (tick s))|].
      by apply (setSlot_steps i pf y).
    - rewrite Hwy. count_peers. }
  destruct (Z.ltb_spec (osSocket os (calls s)) 0) as [Hneg|Hpos].
  { eexists. split; [apply Hset; [by apply Hfd|done]|]. right. eexists. split; [done|]. split.
    { cbn. by rewrite list_lookup_insert_eq. } split; [by apply Hfd|]. by right; left. }
  destruct (Z.ltb_spec (osSendto os (calls s)) 0).
  - eexists. split.
    { eapply (steps_trans [] [] [] []); [apply Hset; [by apply (Hfd (-1))|done]|].
      apply (emit_other (Closed (osSocket os (calls s)))); [|done]. apply (Hset (set_fd (-1) pf)); [by apply Hfd|done]. }
    right. exists (-1). split; [done|]. split; [cbn; by rewrite list_lookup_insert_eq|].
    split; [by apply Hfd|by right; right].
  - assert (Hf : slotOk (forwarded (osSocket os (calls s)) nowMs pf)).
    { by split; cbn. }
    pose proof (Hset _ Hf eq_refl) as H0. set (s1 := setSlot _ _ _) in H0.
    set (s2 := set_counters (addForwarded (counters s)) s1).
    assert (Hi2 : inv s2) by (by destruct (steps_inv _ _ _ _ H0)).
    assert (H2' : steps [] [] s1 s2) by (by apply quiet_steps).
    exists (emit (Upstream (osSocket os (calls s)) (query pf)) s2). split.
    { eapply (steps_trans [] [] [] []); [exact H0|]. eapply (steps_trans [] [] [] []); [exact H2'|].
      by apply emit_other. }
    left. exists (osSocket os (calls s)). split_and!; [|done..].
    unfold s2, s1, forwarded. by rewrite Ha.
Qed.

Lemma forwardOrExpire_steps i nowMs pf s : pendingForwards s !! i = Some pf → active pf = true →
  waitingCache pf = true → slotOk pf → inv s →
  ∃ s', forwardOrExpire os i nowMs s = Done s' ∧ steps [] [] s s'.
Proof.
  intros Hi Ha Hw Hok Hs. unfold forwardOrExpire.
  destruct (startForward_cases i nowMs pf s Hi Ha Hw Hok Hs)
    as (s1 & H1 & [(fd & -> & _)|(fd & -> & Hi' & Hok' & _)]); [by exists s1|].
  destruct (expire_steps i (set_fd fd pf) s1) as (s2 & -> & H2); try done; [apply H1|].
  exists s2. split; [done|]. exact (steps_trans _ _ _ _ _ _ _ H1 H2).
Qed.

Lemma storeInternal_steps name type ips ttl s : inv s →
  ∃ s', storeInternal os pton4 pton6 name type ips ttl s = Done s' ∧ steps [] [] s s' ∧
    response s' = response s ∧ cache s' = cache s ∧ pendingForwards s' = pendingForwards s ∧ out s' = out s.
Proof.
  intros Hs. unfold storeInternal. destruct (InternalDnsCache.arena (internalCache s)) as [p|] eqn:E.
  2: { exists s. split; [done|]. split; [by apply steps_refl|done]. }
  destruct (inv_cache s Hs) as [Hn|(cap & M & HR)]; [congruence|].
  destruct (CacheSpec.runOp_refines pton4 pton6 ntop4 ntop6
    (CacheSpec.OpStore name type ips ttl (osCacheMs os (calls s)) (osMicros os (calls s))) _ cap M HR)
    as (c' & M' & Hc & HR').
  cbn [CacheSpec.runOp] in Hc. rewrite Hc, run_bind_done. eexists. split; [done|]. split; [|done].
  apply quiet_steps; [|done..]. destruct Hs. split; try done. cbn. right. by exists cap, M'.
Qed.

Lemma relayReply_steps i pf msg s : pendingForwards s !! i = Some pf → active pf = true → slotOk pf →
  inv s → (length msg <= DnsCodec.DNS_MAX_MSG_SIZE)%nat →
  ∃ s', relayReply os pton4 pton6 ntop6 i pf msg s = Done s' ∧ steps [] [] s s'.
Proof.
  intros Hi Ha Hok Hs Hl. unfold relayReply. cbv zeta.
  set (s0 := set_response _ s).
  assert (Hr0 : length (response s0) = DnsCodec.DNS_MAX_MSG_SIZE).
  { cbn. rewrite length_app, length_drop, (inv_response s Hs). lia. }
  assert (H0 : steps [] [] s s0) by (apply quiet_steps; try done; by apply set_response_inv).
  destruct (DnsCodec.parseForwardAnswer_total ntop6 (response s0) (length msg)) as [[ips ttl] ->]; [lia|].
  rewrite run_bind_done. cbv beta iota.
  assert (∃ s1, (if bool_decide (ips = []) then mret s0 else
      s2 ← storeInternal os pton4 pton6 (domain pf) (qtype pf) ips
             (if ttl =? 0 then DNS_DEFAULT_TTL_SEC else ttl) s0;
      mret (set_cache (DnsCache.store (domain pf) (qtype pf) ips (cache s2)) s2)) = Done s1 ∧
    steps [] [] s0 s1 ∧ response s1 = response s0 ∧ pendingForwards s1 = pendingForwards s0)
    as (s1 & E1 & H1 & Er & Ep).
  { case_bool_decide; [exists s0; split; [done|]; split; [apply steps_refl, H0|done]|].
    destruct (storeInternal_steps (domain pf) (qtype pf) ips (if ttl =? 0 then DNS_DEFAULT_TTL_SEC else ttl) s0)
      as (s2 & -> & H2 & Er & Ec & Ep & Eo); [apply H0|].
    rewrite run_bind_done. eexists. split; [done|]. split; [|done].
    eapply (steps_trans [] [] [] []); [exact H2|]. apply quiet_steps; try done. by destruct (steps_inv _ _ _ _ H2). }
  rewrite E1, run_bind_done, Er.
  destruct (DnsCodec.forwardingOutcome_total (response s0) (length msg)) as (o & -> & _); [lia|].
  rewrite run_bind_done. eexists. split; [done|].
  set (s2 := emit (logFor os pf FORWARDED o _) s1).
  assert (H2 : steps [] [] s1 s2) by (apply emit_other; [apply H1|done]).
  set (s3 := emit (Reply _ _) s2).
  assert (H3 : steps [client pf] [] s2 s3) by (apply emit_reply, H2).
  assert (H4 : steps [] (waitsFor pf) s3 (freePendingSlot i s3)).
  { apply freePendingSlot_steps; [apply H3| |done]. cbn. by rewrite Ep. }
  eapply steps_cancel; [exact (steps_trans _ _ _ _ _ _ _ H0 (steps_trans _ _ _ _ _ _ _ H1
    (steps_trans _ _ _ _ _ _ _ H2 (steps_trans _ _ _ _ _ _ _ H3 H4))))|].
  unfold waitsFor. by rewrite Ha.
Qed.

(** No [recvfrom] on a forward socket fails. *)
Definition noRecvErrors (inp : Input) : Prop :=
  ∀ fd d, forwards inp fd = Some d → ∃ msg, d = Some msg ∧ msg ≠ [].

Lemma scanSlot_steps inp i s : inv s → (i < kMaxPendingForwards)%nat →
  ∃ s' lost, scanSlot os pton4 pton6 ntop6 inp i s = Done s' ∧ steps [] lost s s' ∧
    (noRecvErrors inp → lost = []).
Proof.
  intros Hs Hi. destruct (slot_at s i Hs Hi) as (pf & Hpf & Hok). unfold scanSlot. rewrite Hpf.
  assert (Hq : ∃ s' lost, mret s = Done s' ∧ steps [] lost s s' ∧ (noRecvErrors inp → lost = [])).
  { exists s, []. split; [done|]. split; [by apply steps_refl|done]. }
  assert (Hx : ∀ r : run Server, (∃ s', r = Done s' ∧ steps [] [] s s') →
    ∃ s' lost, r = Done s' ∧ steps [] lost s s' ∧ (noRecvErrors inp → lost = [])).
  { intros r (s' & -> & H). by exists s', []. }
  destruct (active pf) eqn:Ea; [|exact Hq]. cbn [negb]. destruct (waitingCache pf) eqn:Ew.
  { destruct (_ <=? _); [|exact Hq]. apply Hx. by apply (forwardOrExpire_steps i (now inp) pf). }
  assert (Hlost : ∃ s' lost, mret (freePendingSlot i s) = Done s' ∧ steps [] lost s s' ∧ lost = [client pf]).
  { exists (freePendingSlot i s), [client pf]. split; [done|]. split; [|done].
    replace [client pf] with (waitsFor pf) by (unfold waitsFor; by rewrite Ea). by apply freePendingSlot_steps. }
  assert (Hfd : 0 <=? fwdFd pf = true) by (apply Z.leb_le; by apply (slot_fd pf Hok)).
  rewrite Hfd. destruct (forwards inp (fwdFd pf)) as [[msg|]|] eqn:Ef.
  - case_bool_decide as Em.
    + destruct Hlost as (s' & lost & E & H & _). exists s', lost. split; [done|]. split; [done|].
      intros Hn. destruct (Hn _ _ Ef) as (m & [= ->] & Hm). by destruct m.
    + apply Hx. apply relayReply_steps; try done. rewrite length_take. lia.
  - destruct Hlost as (s' & lost & E & H & _). exists s', lost. split; [done|]. split; [done|].
    intros Hn. by destruct (Hn _ _ Ef) as (m & ? & _).
  - cbn [andb]. destruct (DNS_FORWARD_TIMEOUT_MS <=? _); [|exact Hq]. apply Hx. by apply (expire_steps i pf).
Qed.

Lemma scanSlots_steps inp l : Forall (λ i, (i < kMaxPendingForwards)%nat) l → ∀ s, inv s →
  ∃ s' lost, scanSlots os pton4 pton6 ntop6 inp l s = Done s' ∧ steps [] lost s s' ∧
    (noRecvErrors inp → lost = []).
Proof.
  induction 1 as [|i l Hi _ IH]; intros s Hs; cbn [scanSlots].
  { exists s, []. split; [done|]. split; [by apply steps_refl|done]. }
  destruct (scanSlot_steps inp i s Hs Hi) as (s1 & l1 & -> & H1 & L1). rewrite run_bind_done.
  destruct (IH s1 (steps_inv _ _ _ _ H1)) as (s2 & l2 & -> & H2 & L2).
  exists s2, (l1 ++ l2). split; [done|]. split; [by apply (steps_trans [] l1 [] l2 s s1)|].
  intros Hn. by rewrite L1, L2.
Qed.

(** ** The answers of the external cache *)

Lemma commaList_length l : (2 * length (commaList l) <= length l + 1)%nat.
Proof.
  pose proof (DnsCodec.split_on_sum 44 l) as H. unfold commaList.
  assert (Hf : (2 * length (filter (λ p, p ≠ []) (split_on 44 l)) <=
    sum_list_with (λ p, S (length p)) (split_on 44 l))%nat); [|lia].
  clear H. induction (split_on 44 l) as [|p ps IH]; [done|]. rewrite filter_cons. cbn [sum_list_with].
  destruct (decide (p ≠ [])) as [Hp|Hp]; [|lia]. destruct p; [done|]. cbn [length]. lia.
Qed.

Definition resultOk (res : DnsCache.LookupResult) : Prop :=
  (length (DnsCache.rsIps res) < DnsCache.kIpListBytes)%nat ∧ 0 <= DnsCache.rsToken res.

Lemma c_str_length l : (length (DnsPool.c_str l) <= length l)%nat.
Proof. induction l as [|c l IH]; cbn; [done|]. destruct (c =? 0); cbn; lia. Qed.

Lemma cacheResult_steps nowMs res s : inv s → resultOk res →
  ∃ s', cacheResult os pton4 pton6 nowMs res s = Done s' ∧ steps [] [] s s'.
Proof.
  intros Hs [Hlen Htok]. unfold cacheResult.
  assert (Hq : ∃ s', mret s = Done s' ∧ steps [] [] s s') by (exists s; split; [done|by apply steps_refl]).
  destruct (Z.leb_spec (Z.of_nat kMaxPendingForwards) (DnsCache.rsToken res)); [exact Hq|]. cbv zeta.
  destruct (slot_at s (Z.to_nat (DnsCache.rsToken res)) Hs ltac:(lia)) as (pf & Hpf & Hok). rewrite Hpf.
  set (i := Z.to_nat (DnsCache.rsToken res)) in *.
  destruct (active pf) eqn:Ea; [|exact Hq]. destruct (waitingCache pf) eqn:Ew; [|exact Hq]. cbn [negb orb].
  set (ips := commaList _). destruct (negb _ || _) eqn:Eh; [by apply (forwardOrExpire_steps i nowMs pf)|].
  destruct (storeInternal_steps (domain pf) (qtype pf) ips DNS_DEFAULT_TTL_SEC s Hs)
    as (s1 & -> & H1 & _ & _ & Ep & _). rewrite run_bind_done.
  destruct (replyAnswer_eq (client pf) (qid pf) (domain pf) (qtype pf) (qclass pf) ips DNS_DEFAULT_TTL_SEC s1)
    as (m & r & -> & Hr & _); [apply H1| |].
  { unfold fits, DnsCodec.DNS_MAX_MSG_SIZE. pose proof (slot_domain pf Hok).
    pose proof (commaList_length (DnsPool.c_str (DnsCache.rsIps res))).
    pose proof (c_str_length (DnsCache.rsIps res)). unfold DnsCache.kIpListBytes in Hlen. fold ips in H2. lia. }
  rewrite run_bind_done. eexists. split; [done|].
  set (s2 := emit (Reply _ _) _). assert (H2 : steps [client pf] [] s1 s2) by (apply reply_steps; [apply H1|done]).
  set (s3 := emit (logFor _ _ _ _ _) s2). assert (H3 : steps [] [] s2 s3) by (apply emit_other; [apply H2|done]).
  assert (H4 : steps [] (waitsFor pf) s3 (freePendingSlot i s3)).
  { apply freePendingSlot_steps; [apply H3| |done]. cbn. by rewrite Ep. }
  eapply steps_cancel; [exact (steps_trans _ _ _ _ _ _ _ H1 (steps_trans _ _ _ _ _ _ _ H2
    (steps_trans _ _ _ _ _ _ _ H3 H4)))|].
  unfold waitsFor. by rewrite Ea.
Qed.

Lemma cacheResults_steps nowMs ds : Forall (from_option resultOk True) ds → ∀ s, inv s →
  ∃ b s', cacheResults os pton4 pton6 nowMs ds s = Done (b, s') ∧ steps [] [] s s' ∧
    (b = true ↔ Forall is_Some ds).
Proof.
  induction 1 as [|d ds Hd _ IH]; intros s Hs; cbn [cacheResults].
  { exists true, s. split; [done|]. split; [by apply steps_refl|by split]. }
  destruct d as [res|].
  - destruct (cacheResult_steps nowMs res s Hs Hd) as (s1 & -> & H1). rewrite run_bind_done.
    destruct (IH s1 (steps_inv _ _ _ _ H1)) as (b & s2 & -> & H2 & Hb).
    exists b, s2. split; [done|]. split; [by apply (steps_trans [] [] [] [] s s1)|].
    rewrite Forall_cons, Hb. split; [intros ?; split; [by eexists|done]|by intros [_ ?]].
  - exists false, s. split; [done|]. split; [by apply steps_refl|]. split; [done|]. by intros [[? ?] _]%Forall_cons.
Qed.

(** ** A new query *)

Lemma omap_length {A B} (f : A → option B) l : (length (omap f l) <= length l)%nat.
Proof. induction l as [|x l IH]; cbn; [lia|]. destruct (f x); cbn; lia. Qed.

Lemma spec_addresses_bound c cap M k r q : CacheSpec.Refines c cap M → M !! k = Some r →
  (length (CacheSpec.specAddresses ntop4 ntop6 q r) <= 16)%nat.
Proof.
  intros (p & _ & (chains & free & Hh) & _) Hk.
  apply (InternalDnsCache.holds_lookup _ _ _ _ Hh) in Hk as (i & _ & _ & Hr).
  destruct (InternalDnsCache.holds_sized _ _ _ _ Hh i) as (_ & _ & HA & HB). subst r.
  unfold CacheSpec.specAddresses, InternalDnsCache.recOf. cbn.
  destruct (q =? _); [|destruct (q =? _); [|cbn; lia]]; rewrite omap_length, length_take;
    unfold DnsPool.kMaxA, DnsPool.kMaxAAAA in *; lia.
Qed.

Lemma spec_lookup_bound c cap M ignore t k f ttl : CacheSpec.Refines c cap M →
  (CacheSpec.specLookup ntop4 ntop6 ignore t k M).1 = Some (f, ttl) → (length f <= 16)%nat.
Proof.
  intros HR. unfold CacheSpec.specLookup. destruct (M !! k) as [r|] eqn:Er; [|done].
  destruct (CacheSpec.specExpired _ _ r); [done|].
  destruct (bool_decide (CacheSpec.specAddresses ntop4 ntop6 k.2 r = [])); [done|].
  cbn [fst]. intros [= <- _]. exact (spec_addresses_bound _ _ _ _ _ _ HR Er).
Qed.

Lemma resolveLocal_bound c name type : hostsOk c → (length (resolveLocal c name type).2 <= 129)%nat.
Proof.
  intros Hc. unfold resolveLocal.
  set (own := if _ : bool then ownAddresses c type else []).
  assert (Ho : (length own <= 1)%nat).
  { unfold own, ownAddresses. repeat case_match; cbn; lia. }
  destruct (localHosts c !! name) as [[|ip l]|] eqn:E; [cbn; lia| |cbn; lia].
  cbn [snd]. rewrite length_app. pose proof (Hc _ _ E) as Hl. cbv beta in Hl. unfold hostAddresses.
  destruct (_ || _); [|cbn; lia].
  etrans; [apply Nat.add_le_mono; [exact Ho|apply length_filter]|]. lia.
Qed.

Lemma resolve_steps name type s : inv s →
  ∃ res s', resolve os ntop4 ntop6 name type s = Done (res, s') ∧ steps [] [] s s' ∧
    (length (rvIps res) <= 129)%nat.
Proof.
  intros Hs. unfold resolve. pose proof (resolveLocal_bound (settings s) name type (inv_hosts s Hs)) as Hl.
  destruct (resolveLocal (settings s) name type) as [found ips]. cbn [snd] in Hl.
  destruct found. { eexists _, s. split; [done|]. split; [by apply steps_refl|done]. }
  destruct (_ && _) eqn:E.
  2: { eexists _, s. split; [done|]. split; [by apply steps_refl|done]. }
  apply andb_true_iff in E as [E _]. apply bool_decide_eq_true in E as [p Hp].
  destruct (inv_cache s Hs) as [Hn|(cap & M & HR)]; [congruence|].
  assert (∃ r c', InternalDnsCache.lookup ntop4 ntop6 name type (osCacheMs os (calls s)) (osMicros os (calls s))
      (internalCache s) = Done (r, c') ∧ cacheOk c' ∧
      (∀ f ttl, r = Some (f, ttl) → (length f <= 16)%nat)) as (r & c' & -> & Hc' & Hr).
  { destruct (decide (CacheSpec.okName name)) as [Hname|Hname].
    - destruct (CacheSpec.lookup_total _ cap M HR ntop4 ntop6 name type (osCacheMs os (calls s))
        (osMicros os (calls s)) Hname) as (c' & -> & _ & HR').
      eexists _, c'. split; [done|]. split; [right; by eauto|].
      intros f ttl. by apply (spec_lookup_bound _ _ _ _ _ _ _ _ HR).
    - rewrite CacheSpec.lookup_refused by done. eexists None, _. split; [done|].
      split; [right; by eauto|done]. }
  rewrite run_bind_done. cbn [fst snd].
  set (s1 := tick (set_internal c' s)).
  assert (Hi1 : inv s1) by (by destruct Hs).
  destruct r as [[f ttl]|].
  - eexists _, _. split; [done|]. split; [|specialize (Hr _ _ eq_refl); cbn; lia].
    apply quiet_steps; try done. by destruct Hi1.
  - eexists _, _. split; [done|]. split; [by apply quiet_steps|done].
Qed.

Lemma firstFree_spec l k :
  match firstFree l k with
  | Some i => ∃ j pf, i = (k + j)%nat ∧ l !! j = Some pf ∧ active pf = false
  | None => Forall (λ pf, active pf = true) l
  end.
Proof.
  revert k. induction l as [|pf l IH]; intros k; cbn [firstFree]; [constructor|].
  destruct (active pf) eqn:Ea; cbn [negb].
  - specialize (IH (S k)). destruct (firstFree l (S k)) as [i|]; [|by constructor].
    destruct IH as (j & pf' & -> & Hj & Hf). exists (S j), pf'. split; [lia|]. done.
  - exists 0%nat, pf. by rewrite Nat.add_0_r.
Qed.

Definition sizedQuery (q : DnsCodec.Query) : Prop := (length (DnsCodec.qName q) <= 256)%nat.

Lemma openSlot_ok nowMs from q msg : sizedQuery q → slotOk (openSlot nowMs from q msg).
Proof.
  intros Hq. split; cbn; try done; [split; [lia|by intros []]|].
  destruct (Nat.leb_spec (length msg) kQueryBytes); [done|cbn; lia].
Qed.

Lemma nxdomain_steps from q o s : inv s → sizedQuery q →
  ∃ s' r, replyNxdomain from (DnsCodec.qId q) (DnsCodec.qName q) (DnsCodec.qType q) (DnsCodec.qClass q)
      (emit (logQuery os from q FORWARDED o []) s) = Done s' ∧ steps [from] [] s s' ∧
    s' = emit (Reply from (DnsCodec.questionBytes (DnsCodec.qId q) 33155 0 (DnsCodec.qName q)
           (DnsCodec.qType q) (DnsCodec.qClass q))) (set_response r (emit (logQuery os from q FORWARDED o []) s)).
Proof.
  intros Hs Hq. set (s1 := emit (logQuery os from q FORWARDED o []) s).
  assert (H1 : steps [] [] s s1) by (by apply emit_other).
  destruct (replyNxdomain_eq from (DnsCodec.qId q) (DnsCodec.qName q) (DnsCodec.qType q)
    (DnsCodec.qClass q) s1) as (r & -> & Hr); [apply H1| |].
  { unfold fits, DnsCodec.DNS_MAX_MSG_SIZE. unfold sizedQuery in Hq. cbn [length]. lia. }
  eexists _, r. split; [done|]. split; [|done].
  eapply (steps_trans [] [] [from] []); [exact H1|]. apply reply_steps; [apply H1|done].
Qed.

Lemma forwardQuery_steps inp from q msg s : inv s → sizedQuery q →
  ∃ s', forwardQuery os inp from q msg s = Done s' ∧ steps [from] [] s s'.
Proof.
  intros Hs Hq. unfold forwardQuery. cbv zeta.
  pose proof (firstFree_spec (pendingForwards s) 0) as Hfree. unfold allocPendingSlot.
  destruct (firstFree (pendingForwards s) 0) as [i|].
  2: { destruct (nxdomain_steps from q DnsCodec.NoSlot s Hs Hq) as (s' & _ & E & H & _). by exists s'. }
  destruct Hfree as (j & old & -> & Hj & Hold). cbn [Nat.add].
  pose proof (lookup_lt_Some _ _ _ Hj) as Hlt.
  set (pf := openSlot (now inp) from q msg). set (s1 := setSlot j pf s).
  assert (Hok : slotOk pf) by (by apply openSlot_ok).
  assert (H1 : steps [from] [] s s1).
  { pose proof (setSlot_steps j old pf s Hs Hj Hok) as H1. unfold waitsFor in H1. by rewrite Hold in H1. }
  assert (Hj1 : pendingForwards s1 !! j = Some pf) by (cbn; by rewrite list_lookup_insert_eq).
  destruct (negb _ && _) eqn:Eu.
  { eexists. split; [done|]. eapply (steps_trans [from] [] [] []); [exact H1|].
    apply quiet_steps; try done. by destruct (steps_inv _ _ _ _ H1). }
  destruct (startForward_cases j (now inp) pf s1 Hj1 eq_refl eq_refl Hok (steps_inv _ _ _ _ H1))
    as (s2 & H2 & [(fd & -> & _)|(fd & -> & Hj2 & Hok2 & _)]).
  { exists s2. split; [done|]. by apply (steps_trans [from] [] [] [] s s1). }
  assert (H3 : steps [] (waitsFor (set_fd fd pf)) s2 (freePendingSlot j s2))
    by (apply freePendingSlot_steps; [apply H2|done|done]).
  destruct (nxdomain_steps from q DnsCodec.NoSocket (freePendingSlot j s2)) as (s4 & _ & E & H4 & _);
    [apply H3|done|].
  exists s4. split; [exact E|].
  eapply steps_cancel; [exact (steps_trans _ _ _ _ _ _ _ H1 (steps_trans _ _ _ _ _ _ _ H2
    (steps_trans _ _ _ _ _ _ _ H3 H4)))|]. done.
Qed.

(** A query the server takes on: it parses, and its sender is let in. *)
Definition takesOn (c : Settings) (from : Peer) (msg : bytes) : bool :=
  let msg := take DnsCodec.DNS_MAX_MSG_SIZE msg in
  match DnsCodec.parseQuery msg (length msg) with
  | Done (Some _) => Subnet.allows (subnetFilter c) (peerIp from)
  | _ => false
  end.

Lemma filter_drops f ip : Subnet.active f && negb (Subnet.allows f ip) = negb (Subnet.allows f ip).
Proof. unfold Subnet.allows. by destruct (Subnet.active f). Qed.

Lemma answer_steps from id name type cls ips ttl e s : inv s → fits name ips → replied [e] = [] →
  ∃ s', replyAnswer os pton4 pton6 from id name type cls ips ttl (emit e s) = Done s' ∧
    steps [from] [] s s'.
Proof.
  intros Hs Hf He. assert (H1 : steps [] [] s (emit e s)) by (by apply emit_other).
  destruct (replyAnswer_eq from id name type cls ips ttl (emit e s)) as (m & r & -> & Hr & _);
    [apply H1|done|].
  eexists. split; [done|]. eapply (steps_trans [] [] [from] []); [exact H1|].
  apply reply_steps; [apply H1|done].
Qed.

Lemma serveQuery_steps inp from msg s : inv s →
  ∃ s', serveQuery os pton4 pton6 ntop4 ntop6 inp from msg s = Done s' ∧
    steps (if takesOn (settings s) from msg then [from] else []) [] s s'.
Proof.
  intros Hs. unfold serveQuery, takesOn. cbv zeta. set (m := take _ msg).
  set (s0 := set_counters (addQuery (counters s)) s).
  assert (H0 : steps [] [] s s0) by (apply quiet_steps; try done; by destruct Hs).
  destruct (DnsCodec.parseQuery_total m (length m)) as (r & Ep & Hq); [lia|].
  rewrite Ep, run_bind_done. destruct r as [q|]; [|by exists s0].
  destruct (Hq q eq_refl) as (_ & Hname & _). clear Hq Ep.
  change (settings s0) with (settings s). rewrite filter_drops.
  destruct (Subnet.allows _ _); cbn [negb].
  2: { eexists. split; [done|]. eapply (steps_trans [] [] [] []); [exact H0|].
       apply quiet_steps; try done. by destruct Hs. }
  destruct (resolve_steps (lookupName (DnsCodec.qName q)) (DnsCodec.qType q) s0) as (res & s1 & -> & H1 & Hips);
    [apply H0|]. rewrite run_bind_done. cbv beta iota.
  assert (Hx : ∀ r : run Server, (∃ s', r = Done s' ∧ steps [from] [] s1 s') →
    ∃ s', r = Done s' ∧ steps [from] [] s s').
  { intros r (s' & -> & H). exists s'. split; [done|].
    exact (steps_trans _ _ _ _ _ _ _ H0 (steps_trans _ _ _ _ _ _ _ H1 H)). }
  apply Hx. pose proof (steps_inv _ _ _ _ H1) as Hs1.
  assert (Hf0 : fits (DnsCodec.qName q) []) by (unfold fits, DnsCodec.DNS_MAX_MSG_SIZE; cbn [length]; lia).
  destruct (rvFound res).
  - destruct (bool_decide (rvIps res = [])); apply answer_steps; try done.
    unfold fits, DnsCodec.DNS_MAX_MSG_SIZE. lia.
  - destruct (_ && _ && _); [by apply answer_steps|]. by apply forwardQuery_steps.
Qed.

(** ** The turn *)

Definition inputOk (inp : Input) : Prop :=
  Forall (from_option resultOk True) (default [] (wakeups inp)).

(** The clients a turn takes on. *)
Definition taken (c : Settings) (inp : Input) : list Peer :=
  match arrival inp with
  | Some (Some (from, msg)) => if takesOn c from msg then [from] else []
  | _ => []
  end.

Lemma turn_steps inp s : inv s → inputOk inp →
  ∃ stuck s' lost, turn os pton4 pton6 ntop4 ntop6 inp s = Done (stuck, s') ∧
    steps (if stuck : bool then [] else taken (settings s) inp) lost s s' ∧
    (noRecvErrors inp → lost = []) ∧
    (stuck = true ↔ ∃ ds, wakeups inp = Some ds ∧ Forall is_Some ds).
Proof.
  intros Hs Hin. unfold turn.
  destruct (scanSlots_steps inp (seq 0 kMaxPendingForwards)) with (s := s) as (s1 & lost & -> & H1 & L1);
    [apply Forall_seq; lia|done|]. rewrite run_bind_done.
  pose proof (steps_inv _ _ _ _ H1) as Hs1. pose proof (steps_settings _ _ _ _ H1) as Hc1.
  assert (∃ b s2, match wakeups inp with
      | None => mret (false, s1)
      | Some ds => cacheResults os pton4 pton6 (now inp) ds s1 end = Done (b, s2) ∧ steps [] [] s1 s2 ∧
      (b = true ↔ ∃ ds, wakeups inp = Some ds ∧ Forall is_Some ds)) as (b & s2 & -> & H2 & Hb).
  { unfold inputOk in Hin. destruct (wakeups inp) as [ds|]; [|exists false, s1; split; [done|]; split; [by apply steps_refl|split; [done|by intros (? & ? & ?)]]].
    destruct (cacheResults_steps (now inp) ds Hin s1 Hs1) as (b & s2 & E & H2 & Hb). exists b, s2.
    split; [done|]. split; [done|]. rewrite Hb. split; [by eexists|by intros (? & [= <-] & ?)]. }
  rewrite run_bind_done. cbv beta iota.
  pose proof (steps_trans [] lost [] [] s s1 s2 H1 H2) as H12. rewrite (app_nil_r lost) in H12. cbn [app] in H12.
  destruct b. { exists true, s2, lost. by split_and!. }
  unfold arrivalPhase, taken.
  assert (Hd : ∃ stuck s' lost', mret (false, s2) = Done (stuck, s') ∧
    steps (if stuck : bool then [] else []) lost' s s' ∧ (noRecvErrors inp → lost' = []) ∧
    (stuck = true ↔ ∃ ds, wakeups inp = Some ds ∧ Forall is_Some ds)) by (exists false, s2, lost; by split_and!).
  destruct (arrival inp) as [[[from msg]|]|]; [|exact Hd..].
  destruct (serveQuery_steps inp from msg s2 (steps_inv _ _ _ _ H2)) as (s3 & -> & H3). rewrite run_bind_done.
  exists false, s3, lost. split_and!; try done.
  rewrite (steps_settings _ _ _ _ H12) in H3.
  pose proof (steps_trans _ _ _ _ _ _ _ H12 H3) as H. rewrite (app_nil_r lost), app_nil_l in H. exact H.
Qed.

(** ** Deadlines *)

(** A slot that has not waited longer than it may, at the time [nowMs]. *)
Definition settled (nowMs : Z) (pf : PendingForward) : Prop :=
  active pf = true →
  if waitingCache pf then u64 (nowMs - createdMs pf) < kCacheWaitTimeoutMs
  else u64 (nowMs - sentMs pf) < DNS_FORWARD_TIMEOUT_MS.

(** The step changes no slot but [i], which it leaves settled. *)
Definition settles (nowMs : Z) (i : nat) (s s' : Server) : Prop :=
  ∃ x, pendingForwards s' = <[i := x]> (pendingForwards s) ∧ settled nowMs x.

Lemma u64_self n : u64 (n - n) = 0.
Proof. by rewrite Z.sub_diag. Qed.

Lemma free_settles nowMs i pf s : pendingForwards s !! i = Some pf → settles nowMs i s (freePendingSlot i s).
Proof.
  intros Hi. unfold freePendingSlot. rewrite Hi. exists (freed pf). split; [by destruct (0 <=? fwdFd pf)|done].
Qed.

Lemma same_slots nowMs i s s1 s2 : pendingForwards s1 = pendingForwards s → settles nowMs i s1 s2 →
  settles nowMs i s s2.
Proof. intros E (x & Hx & Hs). exists x. by rewrite Hx, E. Qed.

Lemma settles_again nowMs i s s1 s2 x : pendingForwards s1 = <[i := x]> (pendingForwards s) →
  settles nowMs i s1 s2 → settles nowMs i s s2.
Proof. intros E (y & Hy & Hs). exists y. by rewrite Hy, E, list_insert_insert_eq. Qed.

Lemma expire_settles nowMs i pf s : pendingForwards s !! i = Some pf → (length (domain pf) <= 256)%nat →
  ∃ s', expirePendingSlot os i s = Done s' ∧ settles nowMs i s s'.
Proof.
  intros Hi Hd. rewrite (expirePendingSlot_eq i pf s Hi Hd). eexists. split; [done|].
  eapply same_slots; [|by eapply (free_settles nowMs i pf)]. done.
Qed.

Lemma forwardOrExpire_settles nowMs i pf s : pendingForwards s !! i = Some pf → slotOk pf →
  ∃ s', forwardOrExpire os i nowMs s = Done s' ∧ settles nowMs i s s'.
Proof.
  intros Hi Hok. pose proof (lookup_lt_Some _ _ _ Hi) as Hlt. unfold forwardOrExpire, startForward. rewrite Hi.
  destruct (negb (active pf) || _); [apply (expire_settles nowMs i pf); [done|apply Hok]|]. cbv zeta.
  assert (Hx : ∀ s1 fd, pendingForwards s1 = <[i := set_fd fd pf]> (pendingForwards s) →
    ∃ s', expirePendingSlot os i s1 = Done s' ∧ settles nowMs i s s').
  { intros s1 fd E. destruct (expire_settles nowMs i (set_fd fd pf) s1) as (s' & E' & H).
    - rewrite E. by apply list_lookup_insert_eq.
    - apply Hok.
    - exists s'. split; [done|]. by eapply settles_again. }
  destruct (osSocket os (calls s) <? 0); [by eapply Hx|].
  destruct (osSendto os (calls s) <? 0); [by eapply Hx|].
  eexists. split; [done|]. eexists. split; [done|]. intros _. cbn. by rewrite u64_self.
Qed.

(** A store into the built-in cache leaves the slots alone. *)
Lemma storeInternal_slots name type ips ttl s s' :
  storeInternal os pton4 pton6 name type ips ttl s = Done s' → pendingForwards s' = pendingForwards s.
Proof.
  unfold storeInternal. destruct (InternalDnsCache.arena _); [|by intros [= <-]].
  destruct (InternalDnsCache.store _ _ _ _ _ _ _ _ _); cbn; [|done..]. by intros [= <-].
Qed.

Lemma relayReply_settles nowMs i pf msg s s' : pendingForwards s !! i = Some pf →
  relayReply os pton4 pton6 ntop6 i pf msg s = Done s' → settles nowMs i s s'.
Proof.
  intros Hi. unfold relayReply. cbv zeta. set (s0 := set_response _ s).
  destruct (DnsCodec.parseForwardAnswer _ _ _) as [[ips ttl]| |]; cbn [mbind run_bind]; [|done..].
  set (r := if bool_decide _ then _ else _).
  assert (Hr : ∀ s1, r = Done s1 → pendingForwards s1 = pendingForwards s).
  { intros s1. unfold r. case_bool_decide; [by intros [= <-]|].
    destruct (storeInternal _ _ _ _ _ _ _ _) as [s2| |] eqn:E; cbn; [|done..]. intros [= <-].
    apply storeInternal_slots in E. exact E. }
  destruct r as [s1| |]; cbn [mbind run_bind]; [|done..]. specialize (Hr s1 eq_refl).
  destruct (DnsCodec.forwardingOutcome _ _) as [o| |]; cbn [mbind run_bind]; [|done..]. intros [= <-].
  eapply same_slots; [|apply (free_settles nowMs i pf); cbn; by rewrite Hr]. done.
Qed.

Lemma scanSlot_settles inp i s s' : inv s → (i < kMaxPendingForwards)%nat →
  scanSlot os pton4 pton6 ntop6 inp i s = Done s' → settles (now inp) i s s'.
Proof.
  intros Hs Hi. destruct (slot_at s i Hs Hi) as (pf & Hpf & Hok). unfold scanSlot. rewrite Hpf.
  assert (Hsame : settled (now inp) pf → mret s = Done s' → settles (now inp) i s s').
  { intros Hset [= <-]. exists pf. by rewrite list_insert_id. }
  destruct (active pf) eqn:Ea; cbn [negb]; [|by apply Hsame; intros ?; congruence].
  destruct (waitingCache pf) eqn:Ew.
  { destruct (Z.leb_spec kCacheWaitTimeoutMs (u64 (now inp - createdMs pf))).
    - destruct (forwardOrExpire_settles (now inp) i pf s Hpf Hok) as (s1 & -> & H1). by intros [= <-].
    - apply Hsame. intros _. by rewrite Ew. }
  assert (Hfd : 0 <=? fwdFd pf = true) by (apply Z.leb_le; by apply (slot_fd pf Hok)).
  rewrite Hfd. destruct (forwards inp (fwdFd pf)) as [[msg|]|].
  - case_bool_decide; [|by apply relayReply_settles]. intros [= <-]. by apply (free_settles _ i pf).
  - intros [= <-]. by apply (free_settles _ i pf).
  - cbn [andb]. destruct (Z.leb_spec DNS_FORWARD_TIMEOUT_MS (u64 (now inp - sentMs pf))).
    + destruct (expire_settles (now inp) i pf s Hpf (slot_domain pf Hok)) as (s1 & -> & H1). by intros [= <-].
    + apply Hsame. intros _. by rewrite Ew.
Qed.

Lemma settles_forall nowMs i s s' : settles nowMs i s s' → Forall (settled nowMs) (pendingForwards s) →
  Forall (settled nowMs) (pendingForwards s').
Proof. intros (x & -> & Hx) H. by apply Forall_insert. Qed.

Lemma scanSlots_settled inp l : NoDup l → Forall (λ i, (i < kMaxPendingForwards)%nat) l →
  ∀ s s', inv s → scanSlots os pton4 pton6 ntop6 inp l s = Done s' →
  (∀ i pf, pendingForwards s !! i = Some pf → i ∉ l → settled (now inp) pf) →
  Forall (settled (now inp)) (pendingForwards s').
Proof.
  intros Hnd Hl. induction Hl as [|i l Hi Hl IH]; intros s s' Hs; cbn [scanSlots].
  { intros [= <-] H. apply Forall_lookup. intros i pf Hpf. eapply H; [exact Hpf|apply not_elem_of_nil]. }
  apply NoDup_cons in Hnd as [Hnotin Hnd].
  destruct (scanSlot_steps inp i s Hs Hi) as (s1 & l1 & E & H1 & _). rewrite E, run_bind_done.
  intros E' H. apply (IH Hnd s1 s' (steps_inv _ _ _ _ H1) E'). intros j pf Hj Hjl.
  destruct (scanSlot_settles inp i s s1 Hs Hi E) as (x & Hx & Hset). rewrite Hx in Hj.
  destruct (decide (j = i)) as [->|Hne].
  - rewrite list_lookup_insert_eq in Hj by (by rewrite (inv_slots s Hs)). by injection Hj as <-.
  - rewrite list_lookup_insert_ne in Hj by done. eapply H; [exact Hj|]. by apply not_elem_of_cons.
Qed.

Lemma cacheResult_settled nowMs res s s' : inv s → resultOk res →
  cacheResult os pton4 pton6 nowMs res s = Done s' →
  Forall (settled nowMs) (pendingForwards s) → Forall (settled nowMs) (pendingForwards s').
Proof.
  intros Hs [Hlen Htok] E HF. revert E. unfold cacheResult.
  destruct (Z.leb_spec (Z.of_nat kMaxPendingForwards) (DnsCache.rsToken res)); [by intros [= <-]|]. cbv zeta.
  destruct (slot_at s (Z.to_nat (DnsCache.rsToken res)) Hs ltac:(lia)) as (pf & Hpf & Hok). rewrite Hpf.
  set (i := Z.to_nat (DnsCache.rsToken res)) in *.
  destruct (negb (active pf) || _); [by intros [= <-]|]. set (ips := commaList _).
  destruct (negb _ || _).
  { destruct (forwardOrExpire_settles nowMs i pf s Hpf Hok) as (s1 & -> & H1). intros [= <-].
    by eapply settles_forall. }
  destruct (storeInternal _ _ _ _ _ _ _ _) as [s1| |] eqn:E1; cbn [mbind run_bind]; [|done..].
  apply storeInternal_slots in E1. unfold replyAnswer.
  destruct (DnsCodec.buildAnswer _ _ _ _ _ _ _ _ _ _) as [[n b]| |]; cbn [mbind run_bind mret run_ret]; [|done..].
  intros [= <-]. eapply settles_forall; [|exact HF].
  eapply same_slots; [|apply (free_settles nowMs i pf)]; cbn [fst snd]; destruct (0 <? n)%nat; cbn; by rewrite E1.
Qed.

Lemma cacheResults_settled nowMs ds : Forall (from_option resultOk True) ds → ∀ s b s', inv s →
  cacheResults os pton4 pton6 nowMs ds s = Done (b, s') →
  Forall (settled nowMs) (pendingForwards s) → Forall (settled nowMs) (pendingForwards s').
Proof.
  induction 1 as [|d ds Hd _ IH]; intros s b s' Hs; cbn [cacheResults]; [by intros [= _ <-]|].
  destruct d as [res|]; [|by intros [= _ <-]].
  destruct (cacheResult_steps nowMs res s Hs Hd) as (s1 & E & H1). rewrite E, run_bind_done.
  intros E' HF. eapply IH; [apply H1|exact E'|]. eapply cacheResult_settled; eauto.
Qed.

Lemma reply_slots to id name type cls ips ttl s s' :
  replyAnswer os pton4 pton6 to id name type cls ips ttl s = Done s' → pendingForwards s' = pendingForwards s.
Proof.
  unfold replyAnswer. destruct (DnsCodec.buildAnswer _ _ _ _ _ _ _ _ _ _) as [[n b]| |]; cbn; [|done..].
  intros [= <-]. by destruct n.
Qed.

Lemma nxdomain_slots to id name type cls s s' :
  replyNxdomain to id name type cls s = Done s' → pendingForwards s' = pendingForwards s.
Proof.
  unfold replyNxdomain. destruct (DnsCodec.buildNxdomain _ _ _ _ _) as [[n b]| |]; cbn; [|done..].
  intros [= <-]. by destruct n.
Qed.

Lemma resolve_slots name type s r s' : resolve os ntop4 ntop6 name type s = Done (r, s') →
  pendingForwards s' = pendingForwards s.
Proof.
  unfold resolve. destruct (resolveLocal _ _ _) as [[] ips]; [by intros [= _ <-]|].
  destruct (_ && _); [|by intros [= _ <-]].
  destruct (InternalDnsCache.lookup _ _ _ _ _ _ _) as [[[[f ttl]|] c]| |]; cbn; try done; by intros [= _ <-].
Qed.

Lemma freeSlot_settles nowMs i s s1 : settles nowMs i s s1 → settles nowMs i s (freePendingSlot i s1).
Proof.
  intros (x & Hx & Hset). unfold freePendingSlot. destruct (pendingForwards s1 !! i) as [pf|]; [|by exists x].
  exists (freed pf). split; [|done]. destruct (0 <=? fwdFd pf); cbn; by rewrite Hx, list_insert_insert_eq.
Qed.

Lemma forwardQuery_settled inp from q msg s s' :
  forwardQuery os inp from q msg s = Done s' →
  Forall (settled (now inp)) (pendingForwards s) → Forall (settled (now inp)) (pendingForwards s').
Proof.
  intros E HF. revert E. unfold forwardQuery. cbv zeta. destruct (allocPendingSlot s) as [i|].
  2: { intros E. apply nxdomain_slots in E. by rewrite E. }
  set (pf := openSlot _ _ _ _). assert (Hpf : settled (now inp) pf) by (intros _; cbn; by rewrite u64_self).
  set (s1 := setSlot i pf s). assert (H1 : settles (now inp) i s s1) by (by exists pf).
  destruct (negb _ && _); [intros [= <-]; by apply (settles_forall _ i s s1)|].
  assert (H2 : settles (now inp) i s (startForward os i (now inp) s1).2).
  { unfold startForward. destruct (pendingForwards s1 !! i) as [pf'|] eqn:Ei; [|done].
    cbn in Ei. apply list_lookup_insert_Some in Ei as [(_ & <- & _)|(? & _)]; [|done].
    destruct (negb (active pf) || _); [done|]. cbv zeta.
    destruct (_ <? 0); [exists (set_fd (osSocket os (calls s1)) pf); split; [cbn; by rewrite list_insert_insert_eq|done]|].
    destruct (_ <? 0); [exists (set_fd (-1) pf); split; [cbn; by rewrite list_insert_insert_eq|done]|].
    eexists. split; [cbn; by rewrite list_insert_insert_eq|]. intros _. cbn. by rewrite u64_self. }
  destruct (startForward os i (now inp) s1) as [[] s2].
  - intros [= <-]. by apply (settles_forall _ i s s2).
  - intros E. apply nxdomain_slots in E. rewrite E.
    apply (settles_forall _ i s (freePendingSlot i s2)); [by apply freeSlot_settles|done].
Qed.

Lemma serveQuery_settled inp from msg s s' :
  serveQuery os pton4 pton6 ntop4 ntop6 inp from msg s = Done s' →
  Forall (settled (now inp)) (pendingForwards s) → Forall (settled (now inp)) (pendingForwards s').
Proof.
  unfold serveQuery. cbv zeta. set (s0 := set_counters _ s).
  destruct (DnsCodec.parseQuery _ _) as [[q|]| |]; cbn [mbind run_bind]; [|by intros [= <-]|done..].
  destruct (_ && negb _); [by intros [= <-]|].
  destruct (resolve _ _ _ _ _ _) as [[r s1]| |] eqn:E; cbn [mbind run_bind]; [|done..].
  apply resolve_slots in E. intros E' HF.
  assert (HF1 : Forall (settled (now inp)) (pendingForwards s1)) by (by rewrite E).
  destruct (rvFound r); [|destruct (_ && _ && _)].
  - destruct (bool_decide _); apply reply_slots in E'; by rewrite E'.
  - apply reply_slots in E'. by rewrite E'.
  - by eapply forwardQuery_settled.
Qed.

Lemma turn_settled inp s stuck s' : inv s → inputOk inp →
  turn os pton4 pton6 ntop4 ntop6 inp s = Done (stuck, s') →
  Forall (settled (now inp)) (pendingForwards s').
Proof.
  intros Hs Hin. unfold turn.
  assert (Hall : Forall (λ i, (i < kMaxPendingForwards)%nat) (seq 0 kMaxPendingForwards)) by (apply Forall_seq; lia).
  destruct (scanSlots_steps inp _ Hall s Hs) as (s1 & lost & E1 & H1 & _). rewrite E1, run_bind_done.
  assert (HF1 : Forall (settled (now inp)) (pendingForwards s1)).
  { apply (scanSlots_settled inp _ (NoDup_seq 0 kMaxPendingForwards) Hall s s1 Hs E1). intros i pf Hi Hn.
    exfalso. apply Hn, elem_of_seq. pose proof (lookup_lt_Some _ _ _ Hi) as Hlt.
    rewrite (inv_slots s Hs) in Hlt. lia. }
  assert (HF2 : ∀ b s2, match wakeups inp with
    | None => mret (false, s1)
    | Some ds => cacheResults os pton4 pton6 (now inp) ds s1 end = Done (b, s2) →
    Forall (settled (now inp)) (pendingForwards s2)).
  { intros b s2. unfold inputOk in Hin. destruct (wakeups inp) as [ds|]; [|by intros [= _ <-]].
    intros E. by eapply (cacheResults_settled (now inp) ds Hin s1); [apply H1|exact E|]. }
  destruct (match wakeups inp with Some _ => _ | None => _ end) as [[[] s2]| |]; cbn [mbind run_bind]; try done;
    specialize (HF2 _ s2 eq_refl).
  - by intros [= _ <-].
  - unfold arrivalPhase. destruct (arrival inp) as [[[from msg]|]|]; [|by intros [= _ <-]..].
    destruct (serveQuery _ _ _ _ _ _ _ _ _) as [s3| |] eqn:E3; cbn [mbind run_bind]; [|done..].
    intros [= _ <-]. by eapply serveQuery_settled.
Qed.

(** ** Properties *)




(** C12: no query is lost and none is answered twice: over a turn, the
    clients sent a datagram and those still waiting are, one for one, those who were
    waiting and the one whose query was taken on - except for a client whose forward
    socket failed to be read, whose slot is freed without a word. *)
Theorem turn_accounts inp s : inv s → inputOk inp →
  ∃ stuck s' es lost, turn os pton4 pton6 ntop4 ntop6 inp s = Done (stuck, s') ∧ out s' = out s ++ es ∧
    replied es ++ waitingPeers (pendingForwards s') ++ lost ≡ₚ
      waitingPeers (pendingForwards s) ++ (if stuck then [] else taken (settings s) inp) ∧
    (noRecvErrors inp → lost = []).
Proof.
  intros Hs Hin. destruct (turn_steps inp s Hs Hin) as (b & s' & lost & E & H & Hl & _).
  destruct (steps_out _ _ _ _ H) as (es & Ho & Hp). by exists b, s', es, lost.
Qed.

(** Nobody waits for ever: after a turn no query has been waiting for
    the external cache for two seconds, and none has been out upstream for one. *)
Theorem turn_deadlines inp s : inv s → inputOk inp →
  ∃ stuck s', turn os pton4 pton6 ntop4 ntop6 inp s = Done (stuck, s') ∧
    Forall (λ pf, active pf = true →
      if waitingCache pf then u64 (now inp - createdMs pf) < 2000
      else u64 (now inp - sentMs pf) < 1000) (pendingForwards s').
Proof.
  intros Hs Hin. destruct (turn_steps inp s Hs Hin) as (b & s' & lost & E & _). exists b, s'.
  split; [done|]. exact (turn_settled inp s b s' Hs Hin E).
Qed.

(** Once an answer of the external cache has arrived, the loop does not
    come out of the turn: [drainLookupResult] is called until it fails, on a socket
    that blocks, so the query that arrived in the same turn is not served. *)
Theorem cache_answer_blocks inp res ds s : inv s → inputOk inp →
  wakeups inp = Some (Some res :: ds) → Forall is_Some ds →
  ∃ s', turn os pton4 pton6 ntop4 ntop6 inp s = Done (true, s').
Proof.
  intros Hs Hin Hw Hds. destruct (turn_steps inp s Hs Hin) as (b & s' & lost & E & _ & _ & Hb).
  rewrite (proj2 Hb) in E by (eexists; split; [exact Hw|]; constructor; [by eexists|done]). by exists s'.
Qed.

(** A query of an allowed client, as the server reads it. *)
Definition asks (s : Server) (from : Peer) (msg : bytes) (q : DnsCodec.Query) : Prop :=
  let m := take DnsCodec.DNS_MAX_MSG_SIZE msg in
  DnsCodec.parseQuery m (length m) = Done (Some q) ∧
  Subnet.allows (subnetFilter (settings s)) (peerIp from) = true.

Definition counted (s : Server) : Server := set_counters (addQuery (counters s)) s.

Lemma counted_inv s : inv s → inv (counted s).
Proof. by intros []. Qed.

Lemma asks_sized s from msg q : asks s from msg q → sizedQuery q.
Proof.
  intros [E _]. destruct (DnsCodec.parseQuery_total _ _ (le_n (length (take DnsCodec.DNS_MAX_MSG_SIZE msg))))
    as (r & E' & Hq). rewrite E in E'. injection E' as <-. by apply (Hq q eq_refl).
Qed.

(** The reply to [q], whose records are [ips]. *)
Definition answerTo (q : DnsCodec.Query) (ips : list bytes) (ttl : Z) : bytes :=
  DnsCodec.answerBytes pton4 pton6 (DnsCodec.qId q) (DnsCodec.qName q) (DnsCodec.qType q)
    (DnsCodec.qClass q) ips ttl.

(** The names of the house: a query for the device's own name or for a
    configured host is answered at once with the addresses of the type asked for, or
    with no record when there is none, TTL 300; neither cache is asked and nothing is
    sent upstream. *)
Theorem local_answer inp from msg q ips s : inv s → asks s from msg q →
  resolveLocal (settings s) (lookupName (DnsCodec.qName q)) (DnsCodec.qType q) = (true, ips) →
  Forall (DnsCodec.accepted pton4 pton6) ips →
  ∃ s' o a, serveQuery os pton4 pton6 ntop4 ntop6 inp from msg s = Done s' ∧
    out s' = out s ++ [logQuery os from q LOCAL o a; Reply from (answerTo q ips 300)] ∧
    o = (if bool_decide (ips = []) then DnsCodec.NoData else DnsCodec.Answered) ∧
    pendingForwards s' = pendingForwards s ∧ internalCache s' = internalCache s ∧ cache s' = cache s.
Proof.
  intros Hs Ha Hl Hips. pose proof (asks_sized _ _ _ _ Ha) as Hq. destruct Ha as [Ep Hal].
  pose proof (resolveLocal_bound (settings s) (lookupName (DnsCodec.qName q)) (DnsCodec.qType q) (inv_hosts s Hs)) as Hb.
  rewrite Hl in Hb. cbn [snd] in Hb.
  unfold serveQuery. cbv zeta. rewrite Ep, run_bind_done. fold (counted s).
  change (settings (counted s)) with (settings s). rewrite filter_drops, Hal. cbn [negb].
  unfold resolve. change (settings (counted s)) with (settings s). rewrite Hl, run_bind_done.
  cbv beta iota. cbn [rvFound rvLocal rvIps rvTtl]. unfold sizedQuery in Hq.
  assert (Hgo : ∀ o a, ∃ s', replyAnswer os pton4 pton6 from (DnsCodec.qId q) (DnsCodec.qName q)
      (DnsCodec.qType q) (DnsCodec.qClass q) ips DNS_DEFAULT_TTL_SEC (emit (logQuery os from q LOCAL o a) (counted s))
      = Done s' ∧ out s' = out s ++ [logQuery os from q LOCAL o a; Reply from (answerTo q ips 300)] ∧
    pendingForwards s' = pendingForwards s ∧ internalCache s' = internalCache s ∧ cache s' = cache s).
  { intros o a. destruct (replyAnswer_eq from (DnsCodec.qId q) (DnsCodec.qName q) (DnsCodec.qType q)
      (DnsCodec.qClass q) ips DNS_DEFAULT_TTL_SEC (emit (logQuery os from q LOCAL o a) (counted s)))
      as (m & r & -> & _ & Hm).
    - apply emit_other; [by apply counted_inv|done].
    - unfold fits, DnsCodec.DNS_MAX_MSG_SIZE. lia.
    - eexists. split; [done|]. rewrite (Hm Hips). cbn. by rewrite <- app_assoc. }
  case_bool_decide as Hn.
  - subst ips. destruct (Hgo DnsCodec.NoData []) as (s' & E & H). exists s', DnsCodec.NoData, []. naive_solver.
  - destruct (Hgo DnsCodec.Answered (nth 0 ips [])) as (s' & E & H). exists s', DnsCodec.Answered, (nth 0 ips []).
    naive_solver.
Qed.

(** With the own-subnet filter on, a query from outside the subnet is
    counted - as dropped, when it is a query - and nothing else: no reply, no slot,
    no change of a cache. *)
Theorem foreign_dropped inp from msg s :
  Subnet.allows (subnetFilter (settings s)) (peerIp from) = false →
  ∃ s', serveQuery os pton4 pton6 ntop4 ntop6 inp from msg s = Done s' ∧ out s' = out s ∧
    pendingForwards s' = pendingForwards s ∧ internalCache s' = internalCache s ∧ cache s' = cache s ∧
    queryCount (counters s') = u32 (queryCount (counters s) + 1) ∧
    let m := take DnsCodec.DNS_MAX_MSG_SIZE msg in
    (∀ q, DnsCodec.parseQuery m (length m) = Done (Some q) →
       foreignDropped (counters s') = u32 (foreignDropped (counters s) + 1)) ∧
    (DnsCodec.parseQuery m (length m) = Done None → foreignDropped (counters s') = foreignDropped (counters s)).
Proof.
  intros Hf. unfold serveQuery. cbv zeta.
  destruct (DnsCodec.parseQuery_total _ _ (le_n (length (take DnsCodec.DNS_MAX_MSG_SIZE msg)))) as ([q|] & -> & _);
    rewrite run_bind_done; [|by eexists].
  change (settings (set_counters _ s)) with (settings s). rewrite filter_drops, Hf. by eexists.
Qed.

(** C14: an upstream answer is passed on as it came: the datagram read from a
    query's forward socket is what its client is sent, the socket is closed and the
    slot is free; the addresses found in it go to both caches. *)
Theorem reply_relayed i pf msg s : pendingForwards s !! i = Some pf → active pf = true →
  waitingCache pf = false → slotOk pf → inv s → (length msg <= DnsCodec.DNS_MAX_MSG_SIZE)%nat →
  ∃ s' o, relayReply os pton4 pton6 ntop6 i pf msg s = Done s' ∧
    out s' = out s ++ [logFor os pf FORWARDED o (lit "(forwarded)"); Reply (client pf) msg; Closed (fwdFd pf)] ∧
    pendingForwards s' = <[i := freed pf]> (pendingForwards s) ∧
    (∀ ips ttl, DnsCodec.parseForwardAnswer ntop6 (msg ++ drop (length msg) (response s)) (length msg) = Done (ips, ttl) →
      ips ≠ [] → cache s' = DnsCache.store (domain pf) (qtype pf) ips (cache s) ∧
      (is_Some (InternalDnsCache.arena (internalCache s)) →
       InternalDnsCache.store pton4 pton6 (domain pf) (qtype pf) ips (if ttl =? 0 then 300 else ttl)
         (osCacheMs os (calls s)) (osMicros os (calls s)) (internalCache s) = Done (internalCache s'))).
Proof.
  intros Hi Ha Hw Hok Hs Hl. unfold relayReply. cbv zeta. set (s0 := set_response _ s).
  assert (Hfd : 0 <=? fwdFd pf = true) by (apply Z.leb_le; by apply (slot_fd pf Hok)).
  assert (Hr0 : (length msg <= length (response s0))%nat) by (cbn; rewrite length_app; lia).
  assert (Hs0 : inv s0).
  { apply set_response_inv; [done|]. rewrite length_app, length_drop, (inv_response s Hs). lia. }
  destruct (DnsCodec.parseForwardAnswer_total ntop6 (response s0) (length msg) Hr0) as [[ips ttl] Ep].
  change (response s0) with (msg ++ drop (length msg) (response s)) in Ep |- *.
  rewrite Ep, run_bind_done. cbv beta iota. set (r := if bool_decide _ then _ else _).
  assert (∃ s1, r = Done s1 ∧ response s1 = response s0 ∧ pendingForwards s1 = pendingForwards s ∧ out s1 = out s ∧
    (ips ≠ [] → cache s1 = DnsCache.store (domain pf) (qtype pf) ips (cache s) ∧
      (is_Some (InternalDnsCache.arena (internalCache s)) →
       InternalDnsCache.store pton4 pton6 (domain pf) (qtype pf) ips (if ttl =? 0 then 300 else ttl)
         (osCacheMs os (calls s)) (osMicros os (calls s)) (internalCache s) = Done (internalCache s1))))
    as (s1 & -> & Er & Epf & Eo & Hc).
  { unfold r. case_bool_decide; [by exists s0|].
    destruct (storeInternal_steps (domain pf) (qtype pf) ips (if ttl =? 0 then DNS_DEFAULT_TTL_SEC else ttl) s0 Hs0)
      as (s2 & E2 & _ & Er & Ec & Ep2 & Eo). rewrite E2, run_bind_done. eexists. split; [done|].
    cbn [response pendingForwards out cache set_cache]. rewrite Er, Ep2, Eo, Ec. split_and!; [done..|].
    intros _. split; [done|]. intros [p Hp]. revert E2. unfold storeInternal. change (internalCache s0) with (internalCache s).
    rewrite Hp. change (calls s0) with (calls s).
    destruct (InternalDnsCache.store _ _ _ _ _ _ _ _ _) as [c'| |]; cbn; [|done..]. by intros [= <-]. }
  rewrite run_bind_done, Er.
  destruct (DnsCodec.forwardingOutcome_total (response s0) (length msg) Hr0) as (o & -> & _).
  rewrite run_bind_done. eexists _, o. split; [done|].
  change (response (emit _ s1)) with (response s1). rewrite Er.
  change (take (length msg) (response s0)) with (take (length msg) (msg ++ drop (length msg) (response s))).
  rewrite take_app_length. unfold freePendingSlot. cbn [pendingForwards emit]. rewrite Epf, Hi, Hfd.
  split_and!; [cbn; rewrite Eo; by rewrite <- !app_assoc|cbn; by rewrite Epf|].
  intros ips' ttl' E'. by injection E' as <- <-.
Qed.

(** A name the built-in cache holds is answered from it at once: the reply
    carries the addresses and the remaining TTL of the cache's specification, the hit is
    counted with the time it took, and nothing is sent upstream. *)
Theorem internal_hit inp from msg q cap M ips ttl s : inv s → asks s from msg q →
  (resolveLocal (settings s) (lookupName (DnsCodec.qName q)) (DnsCodec.qType q)).1 = false →
  DnsCodec.qType q = DNS_TYPE_A ∨ DnsCodec.qType q = DNS_TYPE_AAAA →
  CacheSpec.Refines (internalCache s) cap M → CacheSpec.okName (lookupName (DnsCodec.qName q)) →
  (CacheSpec.specLookup ntop4 ntop6 (InternalDnsCache.ignoreTtl (internalCache s)) (osCacheMs os (calls s))
     (CacheSpec.keyFor (lookupName (DnsCodec.qName q)) (DnsCodec.qType q)) M).1 = Some (ips, ttl) →
  Forall (DnsCodec.accepted pton4 pton6) ips → ips ≠ [] →
  ∃ s', serveQuery os pton4 pton6 ntop4 ntop6 inp from msg s = Done s' ∧
    out s' = out s ++ [logQuery os from q CACHE DnsCodec.Answered (nth 0 ips []);
                       Reply from (answerTo q ips ttl)] ∧
    pendingForwards s' = pendingForwards s ∧
    internalCacheHits (counters s') = u32 (internalCacheHits (counters s) + 1).
Proof.
  intros Hs Ha Hl Ht HR Hn Hspec Hips Hne. pose proof (asks_sized _ _ _ _ Ha) as Hq. destruct Ha as [Ep Hal].
  unfold serveQuery. cbv zeta. rewrite Ep, run_bind_done. fold (counted s).
  change (settings (counted s)) with (settings s). rewrite filter_drops, Hal. cbn [negb].
  unfold resolve. change (settings (counted s)) with (settings s).
  destruct (resolveLocal _ _ _) as [fnd lips]. cbn [fst] in Hl. subst fnd.
  change (internalCache (counted s)) with (internalCache s). change (calls (counted s)) with (calls s).
  assert (Hav : bool_decide (is_Some (InternalDnsCache.arena (internalCache s))) = true).
  { destruct HR as (p & Hp & _). apply bool_decide_eq_true. by exists p. }
  rewrite Hav. assert ((DnsCodec.qType q =? DNS_TYPE_A) || (DnsCodec.qType q =? DNS_TYPE_AAAA) = true) as ->
    by (apply orb_true_iff; rewrite !Z.eqb_eq; exact Ht).
  cbn [andb]. destruct (CacheSpec.lookup_total _ cap M HR ntop4 ntop6 _ (DnsCodec.qType q) (osCacheMs os (calls s))
    (osMicros os (calls s)) Hn) as (c' & -> & _ & HR').
  rewrite run_bind_done. cbn [fst snd]. rewrite Hspec, run_bind_done. cbv beta iota.
  cbn [rvFound rvLocal rvIps rvTtl]. rewrite bool_decide_eq_false_2 by done.
  set (s1 := emit _ _).
  destruct (replyAnswer_eq from (DnsCodec.qId q) (DnsCodec.qName q) (DnsCodec.qType q) (DnsCodec.qClass q)
    ips ttl s1) as (m & r & -> & _ & Hm).
  - destruct Hs. split; try done. right. by eauto.
  - unfold fits, DnsCodec.DNS_MAX_MSG_SIZE. unfold sizedQuery in Hq.
    pose proof (spec_lookup_bound _ _ _ _ _ _ _ _ HR Hspec). lia.
  - eexists. split; [done|]. rewrite (Hm Hips). split; [cbn; by rewrite <- app_assoc|done].
Qed.

(** The path of a query nobody here can answer: no local name, nothing in the built-in
    cache - which is off, or whose records give no answer -, and a type that may go out. *)
Definition missed (s : Server) (q : DnsCodec.Query) : Prop :=
  let name := lookupName (DnsCodec.qName q) in
  (resolveLocal (settings s) name (DnsCodec.qType q)).1 = false ∧
  (∀ cap M, CacheSpec.Refines (internalCache s) cap M → CacheSpec.okName name →
     (CacheSpec.specLookup ntop4 ntop6 (InternalDnsCache.ignoreTtl (internalCache s)) (osCacheMs os (calls s))
        (CacheSpec.keyFor name (DnsCodec.qType q)) M).1 = None) ∧
  (blockForwardNonAA (settings s) = false ∨ DnsCodec.qType q = DNS_TYPE_A ∨ DnsCodec.qType q = DNS_TYPE_AAAA).

(** The states that differ from [s] at most in the counters and the built-in cache. *)
Definition asBefore (s s1 : Server) : Prop :=
  inv s1 ∧ settings s1 = settings s ∧ pendingForwards s1 = pendingForwards s ∧ cache s1 = cache s ∧ out s1 = out s ∧
  (calls s <= calls s1 <= S (calls s))%nat.

Lemma missed_resolves q s : inv s → missed s q →
  ∃ ips s1, resolve os ntop4 ntop6 (lookupName (DnsCodec.qName q)) (DnsCodec.qType q) s =
    Done (mkResolved false false ips DNS_DEFAULT_TTL_SEC, s1) ∧ asBefore s s1.
Proof.
  intros Hs (Hl & Hc & _). unfold resolve. destruct (resolveLocal _ _ _) as [fnd ips]. cbn [fst] in Hl. subst fnd. exists ips.
  assert (Hsame : asBefore s s) by (split_and!; done || lia). destruct (_ && _) eqn:E; [|by exists s].
  apply andb_true_iff in E as [[p Hp]%bool_decide_eq_true _]. destruct (inv_cache s Hs) as [Hn|(cap & M & HR)]; [congruence|].
  assert (∃ c', InternalDnsCache.lookup ntop4 ntop6 (lookupName (DnsCodec.qName q)) (DnsCodec.qType q) (osCacheMs os (calls s))
      (osMicros os (calls s)) (internalCache s) = Done (None, c') ∧ cacheOk c') as (c' & -> & Hc').
  { destruct (decide (CacheSpec.okName (lookupName (DnsCodec.qName q)))) as [Hname|Hname].
    - destruct (CacheSpec.lookup_total _ cap M HR ntop4 ntop6 _ (DnsCodec.qType q) (osCacheMs os (calls s))
        (osMicros os (calls s)) Hname) as (c' & -> & _ & HR'). rewrite (Hc cap M HR Hname). exists c'. split; [done|]. right. by eauto.
    - rewrite CacheSpec.lookup_refused by done. eexists. split; [done|]. right. by eauto. }
  rewrite run_bind_done. cbn [fst snd]. eexists. split; [done|]. split_and!; cbn; try done; [by destruct Hs|lia..].
Qed.

Lemma missed_forwards inp from msg q s : inv s → asks s from msg q → missed s q →
  ∃ s1, serveQuery os pton4 pton6 ntop4 ntop6 inp from msg s =
    forwardQuery os inp from q (take DnsCodec.DNS_MAX_MSG_SIZE msg) s1 ∧ asBefore s s1.
Proof.
  intros Hs [Ep Hal] Hm. unfold serveQuery. cbv zeta. rewrite Ep, run_bind_done. fold (counted s).
  change (settings (counted s)) with (settings s). rewrite filter_drops, Hal. cbn [negb].
  destruct (missed_resolves q (counted s) (counted_inv s Hs) Hm) as (ips & s1 & -> & Hb1). rewrite run_bind_done. cbv beta iota. cbn [rvFound].
  destruct Hb1 as (Hi & Hset & Hrest). rewrite Hset. exists s1. split; [|by split].
  destruct Hm as (_ & _ & Hb). change (settings (counted s)) with (settings s). destruct Hb as [->|[-> | ->]]; [done|..]; by rewrite ?Z.eqb_refl, ?andb_false_r.
Qed.

(** C13: a query of a client that is let in, of at most 1024 bytes, that the server can not
    answer itself - no host of the list and no own name matches, the built-in cache is off
    or has no answer, and its type is not one the settings block -, with the external cache
    out of the way, a slot free and a socket to be had and to be sent on, goes upstream byte
    for byte from a socket of its own, and the client is kept waiting in the slot. *)
Theorem miss_forwarded inp from msg q s : inv s → asks s from msg q → missed s q →
  (length msg <= kQueryBytes)%nat → DnsCache.usable (usableNow inp) (cache s) = false →
  is_Some (allocPendingSlot s) → (∀ n, (calls s <= n <= S (calls s))%nat → 0 <= osSocket os n ∧ 0 <= osSendto os n) →
  ∃ s' n i pf, serveQuery os pton4 pton6 ntop4 ntop6 inp from msg s = Done s' ∧
    out s' = out s ++ [Upstream (osSocket os n) msg] ∧ (calls s <= n <= S (calls s))%nat ∧
    pendingForwards s' !! i = Some pf ∧ active pf = true ∧ waitingCache pf = false ∧ client pf = from ∧
    query pf = msg ∧ fwdFd pf = osSocket os n ∧ sentMs pf = now inp.
Proof.
  intros Hs Ha Hm Hlen Hu [i Hi] Hsock. destruct (missed_forwards inp from msg q s Hs Ha Hm) as (s1 & -> & _ & _ & Ep & Ec & Eo & En).
  assert (Hmsg : msg ≠ []).
  { intros ->. destruct Ha as [Ep' _]. cbn in Ep'. done. }
  rewrite take_ge by (unfold DnsCodec.DNS_MAX_MSG_SIZE, kQueryBytes in *; lia).
  unfold allocPendingSlot in Hi. rewrite <- Ep in Hi. rewrite <- Ec in Hu. specialize (Hsock _ En).
  unfold forwardQuery, allocPendingSlot. rewrite Hi. cbv zeta.
  pose proof (firstFree_spec (pendingForwards s1) 0) as Hf. rewrite Hi in Hf.
  destruct Hf as (j & old & -> & Hj & _). cbn [Nat.add]. pose proof (lookup_lt_Some _ _ _ Hj) as Hlt.
  change (cache (setSlot _ _ _)) with (cache s1). rewrite Hu, andb_false_r.
  unfold startForward. cbn [pendingForwards setSlot set_slots].
  rewrite list_lookup_insert_eq by done. cbn [active openSlot query negb orb calls].
  assert ((length msg <=? kQueryBytes)%nat = true) as -> by (by apply Nat.leb_le).
  rewrite bool_decide_eq_false_2 by done. cbv zeta.
  change (calls (setSlot _ _ _)) with (calls s1).
  destruct (Z.ltb_spec (osSocket os (calls s1)) 0); [lia|]. destruct (Z.ltb_spec (osSendto os (calls s1)) 0); [lia|].
  eexists _, (calls s1), j, _. split; [done|]. cbn. rewrite list_insert_insert_eq, list_lookup_insert_eq, Eo by done. by split_and!; lia || done.
Qed.

(** A query of more than 1024 bytes is never sent upstream, whatever the
    comment at the branch says: the slot keeps no bytes of it, the forward is refused,
    and the client is told that the name does not exist. *)
Theorem oversized_refused inp from msg q s : inv s → asks s from msg q → missed s q →
  (kQueryBytes < length msg)%nat →
  ∃ s' o, serveQuery os pton4 pton6 ntop4 ntop6 inp from msg s = Done s' ∧
    out s' = out s ++ [logQuery os from q FORWARDED o [];
      Reply from (DnsCodec.questionBytes (DnsCodec.qId q) 33155 0 (DnsCodec.qName q) (DnsCodec.qType q) (DnsCodec.qClass q))] ∧
    (o = DnsCodec.NoSlot ∨ o = DnsCodec.NoSocket).
Proof.
  intros Hs Ha Hm Hlen. destruct (missed_forwards inp from msg q s Hs Ha Hm) as (s0 & -> & Hc & _ & Ep & _ & Eo & _).
  pose proof (asks_sized _ _ _ _ Ha) as Hq. set (m := take _ msg).
  assert (Hml : (length m <=? kQueryBytes)%nat = false).
  { apply Nat.leb_gt. unfold m. rewrite length_take. unfold DnsCodec.DNS_MAX_MSG_SIZE, kQueryBytes in *. lia. }
  unfold forwardQuery. cbv zeta.
  destruct (allocPendingSlot s0) as [i|].
  - assert (Hqe : query (openSlot (now inp) from q m) = []) by (unfold openSlot; cbn [query]; by rewrite Hml).
    rewrite (bool_decide_eq_true_2 (query _ = [])) by done. cbn [negb andb].
    set (s1 := setSlot i _ _).
    assert (startForward os i (now inp) s1 = (false, s1)) as ->.
    { unfold startForward. destruct (pendingForwards s1 !! i) as [pf|] eqn:Ei; [|done].
      cbn in Ei. apply list_lookup_insert_Some in Ei as [(_ & <- & _)|(? & _)]; [|done].
      rewrite (bool_decide_eq_true_2 (query _ = [])) by done. by rewrite orb_true_r. }
    assert (inv (freePendingSlot i s1) ∧ out (freePendingSlot i s1) = out s0) as [Hi1 Ho].
    { assert (H1 : inv s1).
      { destruct Hc as [H1 H2 H3 H4 H5]. split; try done; cbn; [by rewrite length_insert|].
        apply Forall_insert; [done|by apply openSlot_ok]. }
      unfold freePendingSlot. destruct (pendingForwards s1 !! i) as [pf|] eqn:Ei; [|done].
      assert (pf = openSlot (now inp) from q m) as ->.
      { cbn in Ei. by apply list_lookup_insert_Some in Ei as [(_ & <- & _)|(? & _)]. }
      cbn [fwdFd openSlot Z.leb Z.compare]. split; [|done]. destruct H1 as [H1 H2 H3 H4 H5].
      split; try done; cbn; [by rewrite length_insert|]. apply Forall_insert; [done|].
      by apply freed_ok, openSlot_ok. }
    destruct (nxdomain_steps from q DnsCodec.NoSocket _ Hi1 Hq) as (s' & r & -> & _ & ->).
    eexists _, DnsCodec.NoSocket. split; [done|]. split; [|by right]. cbn [out emit set_response].
    rewrite Ho, Eo. by rewrite <- app_assoc.
  - destruct (nxdomain_steps from q DnsCodec.NoSlot _ Hc Hq) as (s' & r & -> & _ & ->).
    eexists _, DnsCodec.NoSlot. split; [done|]. split; [|by left]. cbn. by rewrite Eo, <- app_assoc.
Qed.

End Safety.

(** ** Concrete runs *)

Definition demoOs : Os := mkOs (λ _, 7) (λ _, 40) (λ _, 1000) (λ _, 5) (λ _, []) [0; 0; 0; 0].
Definition demoHosts : gmap bytes (list bytes) :=
  loadHosts [mkHost (lit "nas.lan") (lit "10.0.0.7") (lit "fd00::1") true;
             mkHost (lit "old.lan") (lit "10.0.0.8") [] false].
Definition demoFilter : Subnet.Filter :=
  Subnet.apply (Subnet.mkSettings true (lit "192.168.1.1") (lit "255.255.255.0")).
Definition noFilter : Subnet.Filter := Subnet.apply (Subnet.mkSettings false [] []).
Definition demoSettings (f : Subnet.Filter) : Settings :=
  mkSettings demoHosts true (lit "Router") (lit "192.168.1.1") [] false f.
Definition zeroCounters : Counters := mkCounters 0 0 0 0 0 0.
Definition demoServer : Server := boot (demoSettings noFilter) DnsCache.idle zeroCounters.
(** The external cache is switched off. *)
Definition noClient : DnsCache.Client := DnsCache.mkClient false true true [] [] None None 0 0 0.
Definition plainServer : Server := boot (demoSettings noFilter) noClient zeroCounters.
Definition lan : Peer := mkPeer 3232235786 40000.
Definition wan : Peer := mkPeer 134744072 40000.

Definition ask (id : Z) (name : bytes) (type : Z) : bytes := DnsCodec.questionBytes id 256 0 name type 1.
Definition quiet (t : Z) : Input := mkInput t t t (λ _, None) None None.
Definition arrives (t : Z) (from : Peer) (msg : bytes) : Input :=
  mkInput t t t (λ _, None) None (Some (Some (from, msg))).

Definition demoTurn (inp : Input) (s : Server) : run (bool * Server) :=
  turn demoOs DnsCodec.demo4 DnsCodec.demo6 (λ z, Some (dec z)) DnsCodec.demoText6 inp s.

Lemma demoHosts_ok f : hostsOk (demoSettings f).
Proof.
  intros name ips H. cbn in H. unfold demoHosts, loadHosts in H. cbn in H.
  apply lookup_insert_Some in H as [[_ <-]|[_ H]]; [vm_compute; lia|].
  apply lookup_insert_Some in H as [[_ <-]|[_ H]]; [vm_compute; lia|]. by rewrite lookup_empty in H.
Qed.


Lemma turn_accounts_witness :
  ∃ stuck s' es lost, demoTurn (arrives 5 lan (ask 9 (lit "a.b") 1)) demoServer = Done (stuck, s') ∧
    out s' = out demoServer ++ es ∧
    replied es ++ waitingPeers (pendingForwards s') ++ lost ≡ₚ
      waitingPeers (pendingForwards demoServer) ++
      (if stuck then [] else taken (settings demoServer) (arrives 5 lan (ask 9 (lit "a.b") 1))) ∧
    (noRecvErrors (arrives 5 lan (ask 9 (lit "a.b") 1)) → lost = []).
Proof.
  unfold demoTurn. apply (turn_accounts demoOs eq_refl _ _ DnsCodec.demo6_length); [apply boot_inv, demoHosts_ok|by constructor].
Defined.

Lemma turn_deadlines_witness :
  ∃ stuck s', demoTurn (quiet 2500) demoServer = Done (stuck, s') ∧
    Forall (λ pf, active pf = true →
      if waitingCache pf then u64 (2500 - createdMs pf) < 2000
      else u64 (2500 - sentMs pf) < 1000) (pendingForwards s').
Proof.
  unfold demoTurn. apply (turn_deadlines demoOs eq_refl _ _ DnsCodec.demo6_length _ _ (quiet 2500));
    [apply boot_inv, demoHosts_ok|by constructor].
Defined.

Definition woken : Input :=
  mkInput 5 5 5 (λ _, None) (Some [Some (DnsCache.mkResult 3 true (lit "10.0.0.1"))])
    (Some (Some (lan, ask 9 (lit "nas.lan") 1))).

Lemma cache_answer_blocks_witness : ∃ s', demoTurn woken demoServer = Done (true, s').
Proof.
  unfold demoTurn. apply (cache_answer_blocks demoOs eq_refl _ _ DnsCodec.demo6_length _ _ woken
    (DnsCache.mkResult 3 true (lit "10.0.0.1")) []).
  - apply boot_inv, demoHosts_ok.
  - constructor; [|constructor]. split; [vm_compute; lia|done].
  - done.
  - constructor.
Defined.

Definition qNas : DnsCodec.Query := DnsCodec.mkQuery (lit "NAS.lan") 1 1 9.

Lemma local_answer_witness :
  ∃ s' o a, serveQuery demoOs DnsCodec.demo4 DnsCodec.demo6 (λ z, Some (dec z)) DnsCodec.demoText6 (quiet 5) lan
      (ask 9 (lit "NAS.lan") 1) demoServer = Done s' ∧
    out s' = out demoServer ++ [logQuery demoOs lan qNas LOCAL o a;
      Reply lan (answerTo DnsCodec.demo4 DnsCodec.demo6 qNas [lit "10.0.0.7"] 300)] ∧
    o = (if bool_decide ([lit "10.0.0.7"] = []) then DnsCodec.NoData else DnsCodec.Answered) ∧
    pendingForwards s' = pendingForwards demoServer ∧ internalCache s' = internalCache demoServer ∧
    cache s' = cache demoServer.
Proof.
  apply (local_answer demoOs eq_refl _ _ DnsCodec.demo6_length).
  - apply boot_inv, demoHosts_ok.
  - split; [vm_compute; reflexivity|vm_compute; reflexivity].
  - vm_compute. reflexivity.
  - repeat constructor. vm_compute. by eexists.
Defined.

Definition guarded : Server := boot (demoSettings demoFilter) DnsCache.idle zeroCounters.

Lemma foreign_dropped_witness :
  ∃ s', serveQuery demoOs DnsCodec.demo4 DnsCodec.demo6 (λ z, Some (dec z)) DnsCodec.demoText6 (quiet 5) wan
      (ask 9 (lit "nas.lan") 1) guarded = Done s' ∧ out s' = out guarded ∧
    pendingForwards s' = pendingForwards guarded ∧ internalCache s' = internalCache guarded ∧
    cache s' = cache guarded ∧ queryCount (counters s') = u32 (queryCount (counters guarded) + 1) ∧
    foreignDropped (counters s') = 1.
Proof.
  destruct (foreign_dropped demoOs DnsCodec.demo4 DnsCodec.demo6 (λ z, Some (dec z)) DnsCodec.demoText6 (quiet 5)
              wan (ask 9 (lit "nas.lan") 1) guarded eq_refl) as (s' & E & H1 & H2 & H3 & H4 & H5 & H6 & _).
  exists s'. split_and!; try done. by rewrite (H6 (DnsCodec.mkQuery (lit "nas.lan") 1 1 9) eq_refl).
Defined.

Definition qWeb : DnsCodec.Query := DnsCodec.mkQuery (lit "web.example") 1 1 9.

Lemma plain_misses : missed demoOs (λ z, Some (dec z)) DnsCodec.demoText6 plainServer qWeb.
Proof. split; [vm_compute; reflexivity|]. split; [|by left]. intros cap M (p & Hp & _). done. Qed.

Lemma miss_forwarded_witness :
  ∃ s' n i pf, serveQuery demoOs DnsCodec.demo4 DnsCodec.demo6 (λ z, Some (dec z)) DnsCodec.demoText6 (quiet 5) lan
      (ask 9 (lit "web.example") 1) plainServer = Done s' ∧
    out s' = out plainServer ++ [Upstream (osSocket demoOs n) (ask 9 (lit "web.example") 1)] ∧ (calls plainServer <= n <= S (calls plainServer))%nat ∧
    pendingForwards s' !! i = Some pf ∧ active pf = true ∧ waitingCache pf = false ∧ client pf = lan ∧
    query pf = ask 9 (lit "web.example") 1 ∧ fwdFd pf = osSocket demoOs n ∧
    sentMs pf = now (quiet 5).
Proof.
  apply (miss_forwarded demoOs eq_refl) with (q := qWeb).
  - apply boot_inv, demoHosts_ok.
  - split; [vm_compute; reflexivity|vm_compute; reflexivity].
  - exact plain_misses.
  - apply Nat.leb_le. vm_compute. reflexivity.
  - reflexivity.
  - by exists 0%nat.
  - done.
Defined.

Definition bigAsk : bytes := ask 9 (lit "web.example") 1 ++ replicate 1024 0.

Lemma oversized_refused_witness :
  ∃ s' o, serveQuery demoOs DnsCodec.demo4 DnsCodec.demo6 (λ z, Some (dec z)) DnsCodec.demoText6 (quiet 5) lan
      bigAsk plainServer = Done s' ∧
    out s' = out plainServer ++ [logQuery demoOs lan qWeb FORWARDED o [];
      Reply lan (DnsCodec.questionBytes 9 33155 0 (lit "web.example") 1 1)] ∧
    (o = DnsCodec.NoSlot ∨ o = DnsCodec.NoSocket).
Proof.
  apply (oversized_refused demoOs eq_refl) with (q := qWeb).
  - apply boot_inv, demoHosts_ok.
  - split; [vm_compute; reflexivity|vm_compute; reflexivity].
  - exact plain_misses.
  - apply Nat.ltb_lt. vm_compute. reflexivity.
Defined.

(** A slot whose query is out, and its answer. *)
Definition outSlot : PendingForward :=
  mkPending true false 7 lan 9 1 1 (lit "web.example") (ask 9 (lit "web.example") 1) 0 5.
Definition outServer : Server := setSlot 0 outSlot demoServer.
Definition refusal : bytes := DnsCodec.questionBytes 9 33155 0 (lit "web.example") 1 1.

Lemma outSlot_ok : slotOk outSlot.
Proof. split; [by split|done|by apply Nat.leb_le|by apply Nat.leb_le]. Qed.

Lemma reply_relayed_witness :
  ∃ s' o, relayReply demoOs DnsCodec.demo4 DnsCodec.demo6 DnsCodec.demoText6 0 outSlot refusal outServer = Done s' ∧
    out s' = out outServer ++ [logFor demoOs outSlot FORWARDED o (lit "(forwarded)"); Reply (client outSlot) refusal;
      Closed (fwdFd outSlot)] ∧
    pendingForwards s' = <[0%nat := freed outSlot]> (pendingForwards outServer) ∧
    (∀ ips ttl, DnsCodec.parseForwardAnswer DnsCodec.demoText6
        (refusal ++ drop (length refusal) (response outServer)) (length refusal) = Done (ips, ttl) →
      ips ≠ [] → cache s' = DnsCache.store (domain outSlot) (qtype outSlot) ips (cache outServer) ∧
      (is_Some (InternalDnsCache.arena (internalCache outServer)) →
       InternalDnsCache.store DnsCodec.demo4 DnsCodec.demo6 (domain outSlot) (qtype outSlot) ips
         (if ttl =? 0 then 300 else ttl) (osCacheMs demoOs (calls outServer)) (osMicros demoOs (calls outServer))
         (internalCache outServer) = Done (internalCache s'))).
Proof.
  apply (reply_relayed demoOs eq_refl _ _ (λ z, Some (dec z))); [reflexivity|reflexivity|reflexivity|apply outSlot_ok| |].
  - apply (setSlot_steps 0 noPending outSlot demoServer); [apply boot_inv, demoHosts_ok|reflexivity|apply outSlot_ok].
  - apply Nat.leb_le. vm_compute. reflexivity.
Defined.

(** The built-in cache with one record in it. *)
Definition withCache (c : InternalDnsCache.Cache) : Server := set_internal c demoServer.

Lemma internal_hit_witness :
  ∃ c s', InternalDnsCache.store DnsCodec.demo4 DnsCodec.demo6 (lit "web.example") 1 [lit "10.0.0.7"] 60 1000 0
      CacheSpec.small = Done c ∧
    serveQuery demoOs DnsCodec.demo4 DnsCodec.demo6 (λ _, Some (lit "10.0.0.7")) DnsCodec.demoText6 (quiet 5) lan
      (ask 9 (lit "web.example") 1) (withCache c) = Done s' ∧
    out s' = out (withCache c) ++ [logQuery demoOs lan qWeb CACHE DnsCodec.Answered (nth 0 [lit "10.0.0.7"] []);
      Reply lan (answerTo DnsCodec.demo4 DnsCodec.demo6 qWeb [lit "10.0.0.7"] 60)] ∧
    pendingForwards s' = pendingForwards (withCache c) ∧
    internalCacheHits (counters s') = u32 (internalCacheHits (counters (withCache c)) + 1).
Proof.
  destruct (CacheSpec.store_total CacheSpec.small 2 ∅ CacheSpec.small_refines DnsCodec.demo4 DnsCodec.demo6
    (lit "web.example") 1 [lit "10.0.0.7"] 60 None 1000 0) as (c & M' & r & E & _ & Hig & HR & Hrec);
    [split; [done|vm_compute; lia]|done|by left|].
  exists c. specialize (Hrec ltac:(by (repeat constructor; vm_compute; eexists))).
  destruct (internal_hit demoOs eq_refl DnsCodec.demo4 DnsCodec.demo6 DnsCodec.demo6_length (λ _, Some (lit "10.0.0.7"))
    DnsCodec.demoText6 (quiet 5) lan (ask 9 (lit "web.example") 1) qWeb 2
    (<[CacheSpec.keyFor (lit "web.example") 1 := r]> M') [lit "10.0.0.7"] 60 (withCache c))
    as (s' & Hs').
  - pose proof (boot_inv (demoSettings noFilter) DnsCache.idle zeroCounters (demoHosts_ok _)) as [H1 H2 H3 _ H5].
    split; [exact H1|exact H2|exact H3| |exact H5]. right. by eauto.
  - split; vm_compute; reflexivity.
  - vm_compute. reflexivity.
  - by left.
  - exact HR.
  - split; [done|vm_compute; lia].
  - unfold CacheSpec.specLookup. change (CacheSpec.keyFor (lookupName (DnsCodec.qName qWeb)) (DnsCodec.qType qWeb))
      with (CacheSpec.keyFor (lit "web.example") 1). rewrite lookup_insert_eq.
    change (InternalDnsCache.ignoreTtl (internalCache (withCache c))) with (InternalDnsCache.ignoreTtl c).
    rewrite Hig, Hrec. vm_compute. reflexivity.
  - repeat constructor. vm_compute. by eexists.
  - done.
  - exists s'. split; [exact E|]. exact Hs'.
Defined.

(** An answer of the external cache carries the number of a slot and nothing else.
    A query for [a.x] waits in slot 0, is forwarded when the two seconds are over and
    answered; [b.x] then takes the slot, and the late answer for [a.x] is sent to its
    client as the address of [b.x]. *)
Definition other : Peer := mkPeer 3232235787 40001.
Definition lateRun : run Server :=
  r1 ← demoTurn (arrives 0 lan (ask 1 (lit "a.x") 1)) demoServer;
  r2 ← demoTurn (quiet 2500) r1.2;
  r3 ← demoTurn (mkInput 2600 0 0 (λ _, Some (Some refusal)) None None) r2.2;
  r4 ← demoTurn (arrives 2700 other (ask 2 (lit "b.x") 1)) r3.2;
  r5 ← demoTurn (mkInput 2800 0 0 (λ _, None) (Some [Some (DnsCache.mkResult 0 true (lit "10.0.0.7"))]) None) r4.2;
  mret r5.2.

Example late_result :
  match lateRun with
  | Done s => (λ e, match e with Reply to msg => Some (to, msg) | _ => None end) <$> out s !! 4%nat
  | _ => None
  end = Some (Some (other, answerTo DnsCodec.demo4 DnsCodec.demo6 (DnsCodec.mkQuery (lit "b.x") 1 1 2) [lit "10.0.0.7"] 300)).
Proof. vm_compute. reflexivity. Qed.

End DnsServer.
