(* ===== verification/RestartSave.v ===== *)
(** * Saving before a planned restart

    src/dns/RestartSaveVerify.cpp: one attempt, one retry, a verdict.
    src/dns/RestartSaveJobState.cpp: the state of the background job.
    src/dns/DnsStatStore.cpp: the statistics file that is saved that way. *)
From stdpp Require Import gmap relations.
From S2P Require Import Prelude CacheFile AtomicFile.
#[local] Open Scope Z_scope.

Module RestartSaveVerify.

Inductive AttemptResult := AtOk | AtMismatch | AtFailed.
Inductive Outcome := OutOk | OutMismatch | OutFailed.

#[export] Instance AttemptResult_eq_dec : EqDecision AttemptResult.
Proof. solve_decision. Defined.
#[export] Instance Outcome_eq_dec : EqDecision Outcome.
Proof. solve_decision. Defined.

Definition outcomeOf (r : AttemptResult) : Outcome :=
  match r with AtOk => OutOk | AtMismatch => OutMismatch | AtFailed => OutFailed end.

Definition attemptName (r : AttemptResult) : bytes :=
  match r with AtOk => lit "ok" | AtMismatch => lit "mismatch" | AtFailed => lit "failed" end.

Definition outcomeName (o : Outcome) : bytes :=
  match o with OutOk => lit "ok" | OutMismatch => lit "mismatch" | OutFailed => lit "failed" end.

Definition kAttempts : nat := 2.

Section Run.
Context {S : Type} (attempt : option (nat → S → AttemptResult * bytes * S)).

(** Attempts [n], [n + 1], ... while [left] are left; the reports made on the way. *)
Fixpoint attempts (left n : nat) (last : Outcome) (s : S) : Outcome * list (nat * AttemptResult * bytes) * S :=
  match left with
  | O => (last, [], s)
  | Datatypes.S left' =>
      let '(r, why, s') := match attempt with Some f => f n s | None => (AtFailed, [], s) end in
      if bool_decide (r = AtOk) then (outcomeOf r, [(n, r, why)], s')
      else
        let '(o, reports, s'') := attempts left' (Datatypes.S n) (outcomeOf r) s' in
        (o, (n, r, why) :: reports, s'')
  end.

Definition run (s : S) : Outcome * list (nat * AttemptResult * bytes) * S :=
  attempts kAttempts 1 OutFailed s.

(** The policy: one attempt, and a second one unless the first succeeded; the outcome
    is the last attempt's, and every attempt is reported. *)
Lemma run_cases s :
  match attempt with
  | None => run s = (OutFailed, [(1%nat, AtFailed, []); (2%nat, AtFailed, [])], s)
  | Some f =>
      let '(r1, w1, s1) := f 1%nat s in
      let '(r2, w2, s2) := f 2%nat s1 in
      run s = if bool_decide (r1 = AtOk) then (OutOk, [(1%nat, r1, w1)], s1)
              else (outcomeOf r2, [(1%nat, r1, w1); (2%nat, r2, w2)], s2)
  end.
Proof.
  unfold run, kAttempts. destruct attempt as [f|] eqn:E; cbn [attempts].
  - rewrite E. destruct (f 1%nat s) as [[r1 w1] s1] eqn:E1. destruct (f 2%nat s1) as [[r2 w2] s2] eqn:E2.
    case_bool_decide as H1; [by subst|]. by case_bool_decide; subst.
  - by rewrite E.
Qed.

End Run.

End RestartSaveVerify.

Module RestartSaveJobState.

Inductive Verdict := VNone | VOk | VSkipped | VMismatch | VFailed.
Inductive StartResult := Started | Busy | Skipped | Failed.

#[export] Instance Verdict_eq_dec : EqDecision Verdict.
Proof. solve_decision. Defined.

#[export] Instance StartResult_eq_dec : EqDecision StartResult.
Proof. solve_decision. Defined.

Record Job := mkJob { busy : bool; verdict : Verdict; detail : bytes }.

Definition initial : Job := mkJob false VNone [].

Definition request (enabled : bool) (j : Job) : StartResult * Job :=
  if negb enabled then (Skipped, mkJob (busy j) VSkipped [])
  else if busy j then (Busy, j)
  else (Started, mkJob true VNone []).

Definition finish (v : Verdict) (why : bytes) (j : Job) : Job := mkJob false v why.

Definition abortStart (j : Job) : Job := mkJob false VFailed (lit "the job task could not be created").

(** What the owner does, in any order it can happen: a request, and then for a started
    job either its end or the failure to create its task.  [runs] counts the jobs that
    are running. *)
Inductive job_step : (Job * nat) → (Job * nat) → Prop :=
  | Requests enabled j j' r n : request enabled j = (r, j') →
      job_step (j, n) (j', match r with Started => S n | _ => n end)
  | Finishes v why j n : job_step (j, S n) (finish v why j, n)
  | Aborts j n : job_step (j, S n) (abortStart j, n).

Lemma job_step_inv a b : job_step a b →
  (a.2 <= 1)%nat ∧ busy a.1 = bool_decide (a.2 = 1%nat) →
  (b.2 <= 1)%nat ∧ busy b.1 = bool_decide (b.2 = 1%nat).
Proof.
  intros H [Hn Hb]. destruct H as [en j j' r n E|v why j n|j n]; cbn [fst snd] in *.
  - unfold request in E. destruct en; cbn [negb] in E; [|injection E as <- <-; cbn; by auto].
    destruct (busy j) eqn:Ej; injection E as <- <-.
    + cbn. split; [done|]. by rewrite Ej.
    + cbn. symmetry in Hb. apply bool_decide_eq_false in Hb. assert (n = 0%nat) as -> by lia. split; [lia|done].
  - assert (n = 0%nat) as -> by lia. split; [lia|done].
  - assert (n = 0%nat) as -> by lia. split; [lia|done].
Qed.

(** The job is single-flight and honest: over every sequence of requests and
    endings at most one job runs, [busy] says whether one does, and while it does the
    verdict shown is not the outcome of an earlier one - it is empty, or says that the
    switch was found off in the meantime. *)
Theorem job_single_flight j n : rtc job_step (initial, 0%nat) (j, n) →
  (n <= 1)%nat ∧ busy j = bool_decide (n = 1%nat) ∧
  (busy j = true → (verdict j = VNone ∨ verdict j = VSkipped) ∧ detail j = []).
Proof.
  intros H. assert (Hgo : ∀ a b, rtc job_step a b →
    ((a.2 <= 1)%nat ∧ busy a.1 = bool_decide (a.2 = 1%nat)) ∧
    (busy a.1 = true → (verdict a.1 = VNone ∨ verdict a.1 = VSkipped) ∧ detail a.1 = []) →
    ((b.2 <= 1)%nat ∧ busy b.1 = bool_decide (b.2 = 1%nat)) ∧
    (busy b.1 = true → (verdict b.1 = VNone ∨ verdict b.1 = VSkipped) ∧ detail b.1 = [])).
  { intros a b Hr. induction Hr as [|a1 a2 a3 Hs _ IH]; [done|]. intros [Hi Hv]. apply IH.
    split; [by eapply job_step_inv|]. destruct Hs as [en x x' r m E|v why x m|x m]; cbn [fst] in *; [|cbn; discriminate..].
    unfold request in E. destruct en; cbn [negb] in E; [|injection E as <- <-; cbn; by auto].
    destruct (busy x) eqn:Ex; injection E as <- <-; cbn; by auto. }
  destruct (Hgo _ _ H) as [[H1 H2] H3]; [|by split_and!].
  split; [split; [cbn; lia|done]|cbn; discriminate].
Qed.

Lemma job_single_flight_witness :
  (1 <= 1)%nat ∧ busy (mkJob true VSkipped []) = bool_decide (1%nat = 1%nat) ∧
  (busy (mkJob true VSkipped []) = true →
   (verdict (mkJob true VSkipped []) = VNone ∨ verdict (mkJob true VSkipped []) = VSkipped) ∧
   detail (mkJob true VSkipped []) = []).
Proof.
  apply (job_single_flight (mkJob true VSkipped []) 1).
  eapply rtc_l; [exact (Requests true initial (mkJob true VNone []) Started 0 eq_refl)|].
  apply rtc_once. exact (Requests false (mkJob true VNone []) (mkJob true VSkipped []) Skipped 1 eq_refl).
Defined.

End RestartSaveJobState.
