(* ===== verification/StatStore.v ===== *)
(** * The statistics file ([src/dns/DnsStatStore.cpp])

    The 92-byte record of the nine counters, its older 44-byte form, saving with one
    retry, reading back, loading.  The volume is the map of files of [AtomicFile]. *)
From stdpp Require Import gmap.
From S2P Require Import Prelude CacheFile AtomicFile RestartSave.
#[local] Open Scope Z_scope.

Module DnsStatStore.
Import AtomicFile RestartSaveVerify.

Definition kMagic : bytes := lit "DST1".
Definition kVersion : Z := 2.
Definition kRecordSize : nat := 92.
Definition kVersionLegacy : Z := 1.
Definition kRecordSizeLegacy : nat := 44.
Definition kVersionOffset : nat := 4.
Definition kPayloadSizeOffset : nat := 8.
Definition kHeaderBytes : nat := 16.
Definition kChecksumBytes : nat := 4.
Definition kPayloadV1Bytes : Z := 24.
Definition kPayloadV2Bytes : Z := 72.

Record DnsStatTotals := mkTotals {
  hits : Z;
  forwards : Z;
  hitUsSum : Z;
  waitUs : Z;
  walkedNodes : Z;
  stores : Z;
  evictScans : Z;
  evictScanUs : Z;
  evictScanNodes : Z;
}.

Definition zeroTotals : DnsStatTotals := mkTotals 0 0 0 0 0 0 0 0 0.

Definition avgHitUs (t : DnsStatTotals) : Z := if hits t =? 0 then 0 else u32 (hitUsSum t / hits t).
Definition avgWaitUs (t : DnsStatTotals) : Z := if hits t =? 0 then 0 else u32 (waitUs t / hits t).
Definition walkX100 (t : DnsStatTotals) : Z :=
  if hits t =? 0 then 0 else u32 (u64 (walkedNodes t * 100) / hits t).

Definition putU32 (v : Z) : bytes := CacheFileReader.putLe 4 v.
Definition putU64 (v : Z) : bytes := CacheFileReader.putLe 8 v.
Definition getU32 (s : bytes) (off : nat) : Z := CacheFileReader.getLe (take 4 (drop off s)).
Definition getU64 (s : bytes) (off : nat) : Z := CacheFileReader.getLe (take 8 (drop off s)).

Definition sumOf (s : bytes) : Z := foldr Z.add 0 s.
Definition checksumOf (s : bytes) : Z := u32 (sumOf s).

(** The record without its checksum. *)
Definition body (t : DnsStatTotals) : bytes :=
  kMagic ++ putU32 kVersion ++ putU32 kPayloadV2Bytes ++ putU32 0 ++
  putU64 (hits t) ++ putU64 (forwards t) ++ putU64 (hitUsSum t) ++ putU64 (waitUs t) ++
  putU64 (walkedNodes t) ++ putU64 (stores t) ++ putU64 (evictScans t) ++ putU64 (evictScanUs t) ++
  putU64 (evictScanNodes t).

Definition encode (t : DnsStatTotals) : bytes := body t ++ putU32 (checksumOf (body t)).

(** The totals read into [out], or the reason for refusing; the six newer sums of a
    version 1 record are those [out] held. *)
Definition decode (record : bytes) (out : DnsStatTotals) : DnsStatTotals + bytes :=
  let n := length record in
  if negb (n =? kRecordSize)%nat && negb (n =? kRecordSizeLegacy)%nat then inr (lit "unexpected size")
  else if negb (bytes_eqb (take 4 record) kMagic) then inr (lit "not a statistics file")
  else
    let version := getU32 record kVersionOffset in
    if (version =? 0) || (kVersion <? version) then inr (lit "unsupported version")
    else
      let wantPayload := if version =? kVersionLegacy then kPayloadV1Bytes else kPayloadV2Bytes in
      let wantSize := Z.of_nat kHeaderBytes + wantPayload + Z.of_nat kChecksumBytes in
      if negb (getU32 record kPayloadSizeOffset =? wantPayload) || negb (Z.of_nat n =? wantSize)
      then inr (lit "payload size mismatch")
      else if negb (getU32 record (n - kChecksumBytes) =? checksumOf (take (n - kChecksumBytes) record))
      then inr (lit "checksum mismatch")
      else
        let newer := 2 <=? version in
        inl (mkTotals (getU64 record 16) (getU64 record 24) (getU64 record 32)
               (if newer then getU64 record 40 else waitUs out)
               (if newer then getU64 record 48 else walkedNodes out)
               (if newer then getU64 record 56 else stores out)
               (if newer then getU64 record 64 else evictScans out)
               (if newer then getU64 record 72 else evictScanUs out)
               (if newer then getU64 record 80 else evictScanNodes out)).

(** ** Files *)

(** How the calls of one attempt turn out: [ioWrites] that the bytes are taken and the
    file closes, [ioLands] what the volume then holds of them. *)
Record Io := mkIo {
  ioCreate : bool;
  ioWrites : bool;
  ioLands : bytes → bytes;
  ioRemove : bool;
  ioRename : bool;
  ioReopen : bool;
}.

Definition allGood : Io := mkIo true true (λ r, r) true true true.

(** The reason is empty on success. *)
Definition save (io : Io) (path : bytes) (t : DnsStatTotals) (v : Vol) : bool * bytes * Vol :=
  let part := partPath path in
  if negb (ioCreate io) then (false, lit "cannot create the file", v)
  else if negb (ioWrites io) then (false, lit "write failed", delete part v)
  else
    let v := <[part := ioLands io (encode t)]> v in
    let '(ok, v) := publish (ioRemove io) (ioRename io) path v in
    if negb ok then (false, lit "cannot publish the file", v) else (true, [], v).

Definition verify (io : Io) (path : bytes) (t : DnsStatTotals) (v : Vol) : bool * bytes :=
  let want := encode t in
  match (if ioReopen io then v !! path else None) with
  | None => (false, lit "the file is not there")
  | Some f =>
      let got := take (kRecordSize + 1) f in
      let n := length got in
      let more := (n =? kRecordSize + 1)%nat && (kRecordSize + 1 <? length f)%nat in
      if negb (n =? length want)%nat || negb (bytes_eqb (take (length want) got) want) then
        (false,
         if (n =? length want)%nat then lit "the content of the file differs from what was written"
         else lit "the file holds " ++ (if more then lit "more than " else []) ++ dec (Z.of_nat n) ++
              lit " bytes instead of " ++ dec (Z.of_nat (length want)))
      else (true, [])
  end.

(** One attempt of [saveWithRetry]; the second starts by removing the file and the
    temporary file of older builds. *)
Definition attempt (io : nat → Io) (path : bytes) (t : DnsStatTotals) (n : nat) (v : Vol)
  : AttemptResult * bytes * Vol :=
  let v := if (1 <? n)%nat
           then (remove (ioRemove (io n)) (path ++ lit ".tmp") (remove (ioRemove (io n)) path v).2).2
           else v in
  let '(ok, why, v) := save (io n) path t v in
  if negb ok then (AtFailed, why, v)
  else
    let '(holds, why) := verify (io n) path t v in
    (if holds then AtOk else AtMismatch, why, v).

(** The outcome, the reason (the last one given) and the volume. *)
Definition saveWithRetry (io : nat → Io) (path : bytes) (t : DnsStatTotals) (v : Vol)
  : Outcome * bytes * Vol :=
  let '(o, reports, v) := RestartSaveVerify.run (Some (attempt io path t)) v in
  let why := foldl (λ w r, if bool_decide (r.2 = []) then w else r.2) [] reports in
  (o, if bool_decide (o = OutOk) then [] else why, v).

(** [load]; sizes are 32-bit. *)
Definition load (renames : bool) (path : bytes) (out : DnsStatTotals) (v : Vol)
  : (DnsStatTotals + bytes) * Vol :=
  let v := recover renames path v in
  (match v !! path with
   | None => inr (lit "no statistics file")
   | Some f =>
       let buffer := take kRecordSize f in
       if (length buffer <? kHeaderBytes)%nat then inr (lit "unexpected size")
       else
         let size := u32 (Z.of_nat kHeaderBytes + getU32 buffer kPayloadSizeOffset + Z.of_nat kChecksumBytes) in
         if Z.of_nat (length buffer) <? size then inr (lit "truncated file")
         else decode (take (Z.to_nat size) buffer) out
   end, v).

(** ** The record *)

Definition wf_totals (t : DnsStatTotals) : Prop :=
  is_u64 (hits t) ∧ is_u64 (forwards t) ∧ is_u64 (hitUsSum t) ∧ is_u64 (waitUs t) ∧
  is_u64 (walkedNodes t) ∧ is_u64 (stores t) ∧ is_u64 (evictScans t) ∧ is_u64 (evictScanUs t) ∧
  is_u64 (evictScanNodes t).

Lemma putU64_length v : length (putU64 v) = 8%nat.
Proof. apply CacheFileReader.putLe_length. Qed.
Lemma putU32_length v : length (putU32 v) = 4%nat.
Proof. apply CacheFileReader.putLe_length. Qed.

Lemma body_length t : length (body t) = 88%nat.
Proof. reflexivity. Qed.

Lemma encode_length t : length (encode t) = kRecordSize.
Proof. reflexivity. Qed.

Lemma checksumOf_u32 s : is_u32 (checksumOf s).
Proof. apply u32_range. Qed.

Lemma decode_encode t out : wf_totals t → decode (encode t) out = inl t.
Proof.
  intros (H1&H2&H3&H4&H5&H6&H7&H8&H9). unfold decode. rewrite encode_length.
  change (getU32 (encode t) kVersionOffset) with 2. change (getU32 (encode t) kPayloadSizeOffset) with 72.
  change (bytes_eqb (take 4 (encode t)) kMagic) with true.
  change (take (kRecordSize - kChecksumBytes) (encode t)) with (body t).
  assert (E : getU32 (encode t) (kRecordSize - kChecksumBytes) = checksumOf (body t)).
  { change (CacheFileReader.getLe (putU32 (checksumOf (body t))) = checksumOf (body t)).
    apply CacheFileReader.getLe_putLe, checksumOf_u32. }
  rewrite E, Z.eqb_refl. cbv zeta.
  change (Z.of_nat kRecordSize =? _) with true. cbn [negb andb orb Nat.eqb kRecordSize kRecordSizeLegacy].
  assert (G : ∀ n v, is_u64 v → take 8 (drop n (encode t)) = putU64 v → getU64 (encode t) n = v).
  { intros n v Hv Ht. unfold getU64. rewrite Ht. apply CacheFileReader.getLe_putLe. exact Hv. }
  rewrite (G 16%nat (hits t)), (G 24%nat (forwards t)), (G 32%nat (hitUsSum t)), (G 40%nat (waitUs t)),
    (G 48%nat (walkedNodes t)), (G 56%nat (stores t)), (G 64%nat (evictScans t)),
    (G 72%nat (evictScanUs t)), (G 80%nat (evictScanNodes t)) by (assumption || reflexivity).
  rewrite Z.eqb_refl. by destruct t.
Qed.

Lemma decode_sums r out t : decode r out = inl t →
  (length r = kRecordSize ∨ length r = kRecordSizeLegacy) ∧
  getU32 r (length r - kChecksumBytes) = checksumOf (take (length r - kChecksumBytes) r).
Proof.
  unfold decode. intros H.
  destruct (negb (length r =? kRecordSize)%nat && negb (length r =? kRecordSizeLegacy)%nat) eqn:E1; [done|].
  case_match; [done|]. case_match; [done|]. case_match; [done|].
  destruct (negb (getU32 r _ =? checksumOf _)) eqn:E2; [done|].
  apply negb_false_iff, Z.eqb_eq in E2. split; [|done].
  apply andb_false_iff in E1 as [E|E]; apply negb_false_iff, Nat.eqb_eq in E; auto.
Qed.

Lemma sumOf_app s t : sumOf (s ++ t) = sumOf s + sumOf t.
Proof. induction s as [|x s IH]; cbn [app sumOf foldr]; [done|]. unfold sumOf in *. rewrite IH. lia. Qed.

Lemma sumOf_insert s i b c : s !! i = Some c → sumOf (<[i := b]> s) = sumOf s + b - c.
Proof.
  intros H. rewrite <- (take_drop_middle _ _ _ H) at 2. rewrite insert_take_drop by by eapply lookup_lt_Some.
  rewrite !sumOf_app. cbn [sumOf foldr]. change (foldr Z.add 0) with sumOf. lia.
Qed.

Lemma getLe_insert s i b c : wf_bytes s → is_u8 b → s !! i = Some c → b ≠ c →
  CacheFileReader.getLe (<[i := b]> s) ≠ CacheFileReader.getLe s.
Proof.
  intros Hw Hb. revert i. induction Hw as [|x s Hx Hs IH]; intros i; [done|].
  destruct i as [|i]; simpl.
  - intros [= ->] Hne. lia.
  - intros Hi Hne. specialize (IH i Hi Hne). lia.
Qed.

(** Any single changed byte of a record the reader accepts is noticed. *)
Theorem one_byte_detected r out t i b c : wf_bytes r → decode r out = inl t →
  r !! i = Some c → is_u8 b → b ≠ c → ∃ why, decode (<[i := b]> r) out = inr why.
Proof.
  intros Hw H Hi Hb Hne. destruct (decode (<[i := b]> r) out) as [t'|why] eqn:E; [exfalso|by exists why].
  apply decode_sums in H as [Hn H]. apply decode_sums in E as [_ E]. rewrite length_insert in E.
  pose proof (lookup_lt_Some _ _ _ Hi) as Hlt.
  assert (is_u8 c) as Hc by by eapply Forall_lookup_1.
  set (n := (length r - kChecksumBytes)%nat) in *.
  destruct (decide (i < n)%nat) as [Hin|Hin].
  - unfold getU32 in E. rewrite drop_insert_lt, take_insert_lt in E by done.
    unfold getU32 in H. rewrite H in E. unfold checksumOf in E.
    rewrite (sumOf_insert _ i b c) in E by (by rewrite lookup_take_lt).
    revert E. unfold is_u8 in *. generalize (sumOf (take n r)). intros z E. word_lia.
  - rewrite (take_insert_ge r) in E by lia. rewrite <- H in E. unfold getU32 in E.
    rewrite drop_insert_ge, take_insert_lt in E by (unfold n, kChecksumBytes in *; lia).
    revert E. apply (getLe_insert _ _ _ c); [|done| |done].
    + by apply Forall_take, Forall_drop.
    + rewrite lookup_take_lt by (unfold n, kChecksumBytes in *; lia). rewrite lookup_drop.
      by replace (n + (i - n))%nat with i by lia.
Qed.

Definition demo : DnsStatTotals := mkTotals 3 1 700 20 4 2 0 0 0.

Lemma one_byte_detected_witness :
  decode (encode demo) zeroTotals = inl demo ∧
  ∃ why, decode (<[16%nat := 4]> (encode demo)) zeroTotals = inr why.
Proof.
  split; [vm_compute; reflexivity|].
  apply (one_byte_detected (encode demo) zeroTotals demo 16 4 3).
  - unfold wf_bytes, is_u8. apply (bool_decide_unpack _). vm_compute. exact I.
  - vm_compute; reflexivity.
  - reflexivity.
  - split; reflexivity || discriminate.
  - discriminate.
Defined.

(** ** Saving with one retry *)

Lemma remove_other works path v other : other ≠ path → (remove works path v).2 !! other = v !! other.
Proof.
  intros H. unfold remove. destruct (readable path v), works; cbn [snd]; [by rewrite lookup_delete_ne|done..].
Qed.

Lemma publish_other rm rn path v other : other ≠ path → other ≠ partPath path →
  (publish rm rn path v).2 !! other = v !! other.
Proof.
  intros H1 H2. rewrite publish_eq. destruct (readable (partPath path) v); [|done]. cbn [negb].
  destruct (remove rm path v) as [gone w] eqn:E.
  assert (Hw : w !! other = v !! other) by (change w with ((gone, w).2); rewrite <- E; by apply remove_other).
  destruct gone; cbn [negb snd]; [|done]. unfold rename.
  destruct (w !! partPath path) as [f|]; [|done]. case_match; cbn [snd]; [|done].
  by rewrite lookup_insert_ne, lookup_delete_ne.
Qed.

Lemma save_other io path t v other : other ≠ path → other ≠ partPath path →
  (save io path t v).2 !! other = v !! other.
Proof.
  intros H1 H2. unfold save. destruct (ioCreate io); [|done]. destruct (ioWrites io); cbn [negb snd].
  - pose proof (publish_other (ioRemove io) (ioRename io) path
      (<[partPath path := ioLands io (encode t)]> v) other H1 H2) as H.
    rewrite lookup_insert_ne in H by done. destruct (publish _ _ _ _) as [[] w]; exact H.
  - by rewrite lookup_delete_ne.
Qed.

Lemma save_why io path t v : (save io path t v).1.1 = true ∨ (save io path t v).1.2 ≠ [].
Proof.
  unfold save. destruct (ioCreate io); [|right; discriminate]. destruct (ioWrites io); [|right; discriminate].
  cbn [negb]. destruct (publish _ _ _ _) as [[] w]; [by left|right; discriminate].
Qed.

Lemma verify_true io path t v why : verify io path t v = (true, why) → v !! path = Some (encode t) ∧ why = [].
Proof.
  unfold verify. destruct (ioReopen io); [|done]. destruct (v !! path) as [f|]; [|done].
  destruct (negb (length (take (kRecordSize + 1) f) =? length (encode t))%nat || _) eqn:E; [done|].
  intros [= <-]. apply orb_false_iff in E as [E1 E2]. apply negb_false_iff in E1, E2.
  apply Nat.eqb_eq in E1. apply bytes_eqb_eq in E2. rewrite encode_length in E1, E2.
  rewrite length_take in E1. rewrite take_take in E2.
  split; [|done]. f_equal. rewrite <- E2. symmetry. apply take_ge. unfold kRecordSize in *. lia.
Qed.

Lemma verify_false io path t v why : verify io path t v = (false, why) → why ≠ [].
Proof.
  unfold verify. destruct (if ioReopen io then v !! path else None); [|by intros [= <-]].
  case_match; [|done]. intros [= <-]. by destruct (_ =? _)%nat.
Qed.

Lemma attempt_spec io path t n v r why v' : attempt io path t n v = (r, why, v') →
  (∀ other, other ≠ path → other ≠ partPath path → other ≠ path ++ lit ".tmp" → v' !! other = v !! other) ∧
  (r = AtOk → v' !! path = Some (encode t) ∧ why = []) ∧ (r ≠ AtOk → why ≠ []).
Proof.
  unfold attempt.
  set (v0 := if (1 <? n)%nat then _ else v). intros H.
  assert (H0 : ∀ other, other ≠ path → other ≠ path ++ lit ".tmp" → v0 !! other = v !! other).
  { intros other H1 H2. unfold v0. destruct (1 <? n)%nat; [|done]. by rewrite !remove_other. }
  pose proof (save_why (io n) path t v0) as Hw.
  pose proof (λ other, save_other (io n) path t v0 other) as Ho.
  destruct (save (io n) path t v0) as [[ok w] v1]. cbn [fst snd] in Hw, Ho.
  assert (Hv : ∀ other, other ≠ path → other ≠ partPath path → other ≠ path ++ lit ".tmp" → v1 !! other = v !! other).
  { intros other H1 H2 H3. by rewrite Ho, H0. }
  destruct ok; cbn [negb] in H.
  - destruct (verify (io n) path t v1) as [[] w2] eqn:E; injection H as <- <- <-; (split; [exact Hv|]).
    + split; [intros _; by eapply verify_true|done].
    + split; [done|intros _; by eapply verify_false].
  - injection H as <- <- <-. split; [exact Hv|]. split; [done|]. intros _. by destruct Hw.
Qed.

(** An attempt whose calls all work succeeds. *)
Lemma attempt_allGood io path t n v : io n = allGood → ∃ v', attempt io path t n v = (AtOk, [], v').
Proof.
  intros E. unfold attempt. rewrite E. set (v0 := if (1 <? n)%nat then _ else v).
  unfold save. cbn [ioCreate ioWrites ioLands ioRemove ioRename allGood negb].
  rewrite (publish_works _ _ (encode t)) by apply lookup_insert_eq. cbn [negb].
  unfold verify. rewrite lookup_insert_eq. cbn [ioReopen allGood]. rewrite take_ge by (rewrite encode_length; unfold kRecordSize; lia).
  rewrite firstn_all, bytes_eqb_refl, Nat.eqb_refl. cbn. by eexists.
Qed.

(** A file that holds the record is read as its totals. *)
Lemma load_holds rn path t out w : wf_totals t → w !! path = Some (encode t) → load rn path out w = (inl t, w).
Proof.
  intros Ht Hw. unfold load. rewrite (recover_there _ _ _ _ Hw), Hw.
  rewrite take_ge by (by rewrite encode_length). rewrite encode_length.
  change (getU32 (encode t) kPayloadSizeOffset) with 72. cbn [Nat.ltb Nat.leb kRecordSize kHeaderBytes].
  change (u32 _) with 92. change (Z.of_nat _ <? 92) with false. cbv beta iota zeta.
  rewrite take_ge by done. f_equal. by apply decode_encode.
Qed.

Lemma saveWithRetry_holds io path t out v o why v' : wf_totals t →
  saveWithRetry io path t v = (o, why, v') →
  (o = OutOk → v' !! path = Some (encode t) ∧ load true path out v' = (inl t, v') ∧ why = []) ∧
  (o ≠ OutOk → why ≠ []) ∧
  (io 1%nat = allGood ∨ io 2%nat = allGood → o = OutOk) ∧
  (∀ other, other ≠ path → other ≠ partPath path → other ≠ path ++ lit ".tmp" → v' !! other = v !! other).
Proof.
  intros Ht. unfold saveWithRetry. pose proof (run_cases (Some (attempt io path t)) v) as Hr. cbv beta iota in Hr.
  destruct (attempt io path t 1 v) as [[r1 w1] v1] eqn:E1. destruct (attempt io path t 2 v1) as [[r2 w2] v2] eqn:E2.
  rewrite Hr. clear Hr. apply attempt_spec in E1 as Ha1. apply attempt_spec in E2 as Ha2.
  destruct Ha1 as (Ho1 & Hk1 & Hn1), Ha2 as (Ho2 & Hk2 & Hn2).
  assert (Hgood : ∀ n r w v v', attempt io path t n v = (r, w, v') → io n = allGood → r = AtOk).
  { intros n r w x x' E G. destruct (attempt_allGood io path t n x G) as [y Hy]. congruence. }
  destruct (decide (r1 = AtOk)) as [->|Hne].
  - rewrite bool_decide_true by done. destruct (Hk1 eq_refl) as [Hp ->]. intros [= <- <- <-].
    split_and!; [by auto using load_holds|done|done|exact Ho1].
  - rewrite bool_decide_false by done. cbn [foldl snd]. specialize (Hn1 Hne).
    rewrite (bool_decide_false (w1 = [])) by done. intros [= <- <- <-].
    split_and!.
    + destruct r2; [|done..]. intros _. destruct (Hk2 eq_refl) as [Hp ->]. by auto using load_holds.
    + destruct r2; [done|..]; intros _; rewrite bool_decide_false by done; cbn [foldl snd];
        rewrite bool_decide_false by (by apply Hn2); by apply Hn2.
    + intros [G|G]; [by rewrite (Hgood _ _ _ _ _ E1 G) in Hne|by rewrite (Hgood _ _ _ _ _ E2 G)].
    + intros other H1 H2 H3. rewrite Ho2, Ho1; done.
Qed.

(** What the verdict of the save before a planned restart means: "ok" - the
    volume holds exactly the record, which the next start reads back as the totals;
    anything else comes with a reason; no file but the statistics, its part and the
    old temporary file is touched; and one attempt in which every call works, of
    the two, is enough for "ok". *)
Theorem saveWithRetry_outcome io path t v out o why v' : wf_totals t →
  saveWithRetry io path t v = (o, why, v') →
  (o = OutOk → v' !! path = Some (encode t) ∧ load true path out v' = (inl t, v') ∧ why = []) ∧
  (o ≠ OutOk → why ≠ []) ∧
  (io 1%nat = allGood ∨ io 2%nat = allGood → o = OutOk) ∧
  (∀ other, other ≠ path → other ≠ partPath path → other ≠ path ++ lit ".tmp" → v' !! other = v !! other).
Proof. by apply saveWithRetry_holds. Qed.

(** The first attempt writes a record that lands damaged, the second goes through. *)
Definition damagedOnce (n : nat) : Io :=
  if (n =? 1)%nat then mkIo true true (λ r, <[20%nat := 7]> r) true true true else allGood.

Lemma saveWithRetry_outcome_witness :
  let r := saveWithRetry damagedOnce (lit "/fat/S") demo ∅ in
  r.1.1 = OutOk ∧ r.2 !! lit "/fat/S" = Some (encode demo) ∧ load true (lit "/fat/S") zeroTotals r.2 = (inl demo, r.2).
Proof.
  assert (Hd : wf_totals demo) by (repeat split; (reflexivity || discriminate)).
  destruct (saveWithRetry damagedOnce (lit "/fat/S") demo ∅) as [[o why] v'] eqn:E.
  destruct (saveWithRetry_outcome damagedOnce (lit "/fat/S") demo ∅ zeroTotals o why v' Hd E) as (H1 & _ & H3 & _).
  cbn [fst snd]. specialize (H3 (or_intror eq_refl)). destruct (H1 H3) as (Hp & Hl & _). auto.
Defined.

(** A second attempt that cannot publish ends in "failed", and the log says there is no
    statistics file now: the complete new record is in the part, and the next start
    reads it. *)
Example failed_save_is_loaded :
  let noRename (_ : nat) := mkIo true true (λ r, r) true false true in
  let r := saveWithRetry noRename (lit "/fat/S") demo ∅ in
  r.1.1 = OutFailed ∧ (load true (lit "/fat/S") zeroTotals r.2).1 = inl demo.
Proof. split; vm_compute; reflexivity. Qed.

(** Records of version 1 are read: three counters, the newer sums as the caller had them. *)
Definition encodeV1 (t : DnsStatTotals) : bytes :=
  let b := kMagic ++ putU32 1 ++ putU32 kPayloadV1Bytes ++ putU32 0 ++
           putU64 (hits t) ++ putU64 (forwards t) ++ putU64 (hitUsSum t) in
  b ++ putU32 (checksumOf b).

Example legacy_record_read :
  load true (lit "/fat/S") zeroTotals {[ lit "/fat/S" := encodeV1 demo ]}
  = (inl (mkTotals 3 1 700 0 0 0 0 0 0), {[ lit "/fat/S" := encodeV1 demo ]}).
Proof. vm_compute. reflexivity. Qed.

End DnsStatStore.
