(* ===== verification/Md5.v ===== *)
(** * MD5 ([src/core/Md5.cpp])

    The digest as a stream: [reset], [update] in pieces of any size, [hex].  Against
    the definition of RFC 1321 on a whole message, and [file] against both. *)
From S2P Require Import Prelude CacheFile.
#[local] Open Scope Z_scope.

Module Md5.

Definition kPaddingByte : Z := 0x80.
Definition kNibbleMask : Z := 0x0F.

Definition kShift : list Z :=
  [7; 12; 17; 22; 7; 12; 17; 22; 7; 12; 17; 22; 7; 12; 17; 22;
   5; 9; 14; 20; 5; 9; 14; 20; 5; 9; 14; 20; 5; 9; 14; 20;
   4; 11; 16; 23; 4; 11; 16; 23; 4; 11; 16; 23; 4; 11; 16; 23;
   6; 10; 15; 21; 6; 10; 15; 21; 6; 10; 15; 21; 6; 10; 15; 21].

Definition kTable : list Z :=
  [0xd76aa478; 0xe8c7b756; 0x242070db; 0xc1bdceee;
   0xf57c0faf; 0x4787c62a; 0xa8304613; 0xfd469501;
   0x698098d8; 0x8b44f7af; 0xffff5bb1; 0x895cd7be;
   0x6b901122; 0xfd987193; 0xa679438e; 0x49b40821;
   0xf61e2562; 0xc040b340; 0x265e5a51; 0xe9b6c7aa;
   0xd62f105d; 0x02441453; 0xd8a1e681; 0xe7d3fbc8;
   0x21e1cde6; 0xc33707d6; 0xf4d50d87; 0x455a14ed;
   0xa9e3e905; 0xfcefa3f8; 0x676f02d9; 0x8d2a4c8a;
   0xfffa3942; 0x8771f681; 0x6d9d6122; 0xfde5380c;
   0xa4beea44; 0x4bdecfa9; 0xf6bb4b60; 0xbebfbc70;
   0x289b7ec6; 0xeaa127fa; 0xd4ef3085; 0x04881d05;
   0xd9d4d039; 0xe6db99e5; 0x1fa27cf8; 0xc4ac5665;
   0xf4292244; 0x432aff97; 0xab9423a7; 0xfc93a039;
   0x655b59c3; 0x8f0ccc92; 0xffeff47d; 0x85845dd1;
   0x6fa87e4f; 0xfe2ce6e0; 0xa3014314; 0x4e0811a1;
   0xf7537e82; 0xbd3af235; 0x2ad7d2bb; 0xeb86d391].

Definition rotl (x n : Z) : Z := Z.lor (u32 (Z.shiftl x n)) (Z.shiftr x (32 - n)).
Definition getU32 (p : bytes) : Z := CacheFileReader.getLe (take 4 p).
Definition putU32le (v : Z) : bytes := CacheFileReader.putLe 4 v.
Definition not32 (x : Z) : Z := Z.lxor x UINT32_MAX.

Record State := mkState { sa : Z; sb : Z; sc : Z; sd : Z }.

Definition initial : State := mkState 0x67452301 0xefcdab89 0x98badcfe 0x10325476.

(** One of the 64 steps. *)
Definition step (m : list Z) (s : State) (i : nat) : State :=
  let '(f, g) :=
    if (i <? 16)%nat then (Z.lor (Z.land (sb s) (sc s)) (Z.land (not32 (sb s)) (sd s)), i)
    else if (i <? 32)%nat then
      (Z.lor (Z.land (sd s) (sb s)) (Z.land (not32 (sd s)) (sc s)), ((5 * i + 1) mod 16)%nat)
    else if (i <? 48)%nat then (Z.lxor (Z.lxor (sb s) (sc s)) (sd s), ((3 * i + 5) mod 16)%nat)
    else (Z.lxor (sc s) (Z.lor (sb s) (not32 (sd s))), ((7 * i) mod 16)%nat) in
  mkState (sd s) (u32 (sb s + rotl (u32 (sa s + f + nth i kTable 0 + nth g m 0)) (nth i kShift 0)))
    (sb s) (sc s).

Definition processBlock (s : State) (block : bytes) : State :=
  let m := (λ i, getU32 (drop (4 * i) block)) <$> seq 0 16 in
  let r := foldl (step m) s (seq 0 64) in
  mkState (u32 (sa s + sa r)) (u32 (sb s + sb r)) (u32 (sc s + sc r)) (u32 (sd s + sd r)).

Record Stream := mkStream {
  state : State;
  bitCount : Z;
  buffer : bytes;
  buffered : nat;
}.

Definition reset : Stream := mkStream initial 0 (replicate 64 0) 0.

(** [memcpy] into a buffer. *)
Definition place (buf : bytes) (at_ : nat) (p : bytes) : bytes :=
  take at_ buf ++ p ++ drop (at_ + length p) buf.

(** [while (len >= 64)]: as many turns as there are whole blocks. *)
Fixpoint wholeBlocks (n : nat) (s : State) (p : bytes) : State * bytes :=
  match n with
  | O => (s, p)
  | S n' => wholeBlocks n' (processBlock s (take 64 p)) (drop 64 p)
  end.

Definition update (data : bytes) (m : Stream) : Stream :=
  let bits := u64 (bitCount m + u64 (Z.of_nat (length data) * 8)) in
  let '(st, buf, n, p) :=
    if (buffered m =? 0)%nat then (state m, buffer m, buffered m, data)
    else
      let need := (64 - buffered m)%nat in
      let k := if (length data <? need)%nat then length data else need in
      let buf := place (buffer m) (buffered m) (take k data) in
      let n := (buffered m + k)%nat in
      if (n =? 64)%nat then (processBlock (state m) buf, buf, 0%nat, drop k data)
      else (state m, buf, n, drop k data) in
  let '(st, p) := wholeBlocks (length p / 64) st p in
  if (length p =? 0)%nat then mkStream st bits buf n
  else mkStream st bits (place buf 0 p) (length p).

Definition hexDigit (v : Z) : Z := nth (Z.to_nat v) (lit "0123456789abcdef") 0.
Definition hexText (l : bytes) : bytes :=
  concat ((λ b, [hexDigit (Z.shiftr b 4); hexDigit (Z.land b kNibbleMask)]) <$> l).

Definition stateBytes (s : State) : bytes :=
  putU32le (sa s) ++ putU32le (sb s) ++ putU32le (sc s) ++ putU32le (sd s).

(** The digest, from a copy of the stream. *)
Definition hex (m : Stream) : bytes :=
  let pad := kPaddingByte :: replicate 71 0 in
  let padLen := if (buffered m <=? 55)%nat then (56 - buffered m)%nat else (120 - buffered m)%nat in
  let tail := update (take padLen pad) m in
  let tail := update (CacheFileReader.putLe 8 (bitCount m)) tail in
  hexText (stateBytes (state tail)).

Definition kFileChunk : nat := 4096.

(** [readError n] is whether the [n]-th [fread] ends in an error. *)
Fixpoint fileLoop (fuel n : nat) (readError : nat → bool) (f : bytes) (m : Stream) : run (option Stream) :=
  match fuel with
  | O => OutOfFuel
  | S fuel' =>
      if readError n then mret None
      else
        let got := take kFileChunk f in
        let m := if (length got =? 0)%nat then m else update got m in
        if (length got <? kFileChunk)%nat then mret (Some m)
        else fileLoop fuel' (S n) readError (drop kFileChunk f) m
  end.

(** The digest of the file and the reason there is none. *)
Definition file (path : bytes) (contents : option bytes) (readError : nat → bool) : run (bytes * bytes) :=
  if bool_decide (path = []) then mret ([], lit "no path")
  else
    match contents with
    | None => mret ([], lit "cannot open the file")
    | Some f =>
        r ← fileLoop (S (length f / kFileChunk)) 0 readError f reset;
        mret (match r with None => ([], lit "read error") | Some m => (hex m, []) end)
    end.

(** ** RFC 1321 on a whole message *)

Definition padded (msg : bytes) : bytes :=
  msg ++ kPaddingByte :: replicate ((119 - length msg mod 64) mod 64) 0 ++
  CacheFileReader.putLe 8 (u64 (8 * Z.of_nat (length msg))).

Definition absorb (s : State) (p : bytes) : State := (wholeBlocks (length p / 64) s p).1.

Definition rfc1321 (msg : bytes) : bytes := hexText (stateBytes (absorb initial (padded msg))).

Example vector_empty : rfc1321 [] = lit "d41d8cd98f00b204e9800998ecf8427e".
Proof. vm_compute. reflexivity. Qed.
Example vector_abc : rfc1321 (lit "abc") = lit "900150983cd24fb0d6963f7d28e17f72".
Proof. vm_compute. reflexivity. Qed.
Example vector_digits :
  rfc1321 (lit "12345678901234567890123456789012345678901234567890123456789012345678901234567890")
  = lit "57edf4a22be3c955ac49da2e2107b67a".
Proof. vm_compute. reflexivity. Qed.

(** ** The stream *)

Lemma wholeBlocks_rest n s p : (wholeBlocks n s p).2 = drop (64 * n) p.
Proof.
  revert s p. induction n as [|n IH]; intros s p; cbn [wholeBlocks snd]; [done|].
  rewrite IH, drop_drop. f_equal. lia.
Qed.

Lemma wholeBlocks_app k n s p q : length p = (64 * k)%nat →
  wholeBlocks (k + n) s (p ++ q) = wholeBlocks n (wholeBlocks k s p).1 q.
Proof.
  revert s p. induction k as [|k IH]; intros s p Hp.
  { cbn [Nat.add wholeBlocks fst]. by rewrite (nil_length_inv p Hp). }
  cbn [Nat.add wholeBlocks]. rewrite take_app_le, drop_app_le by lia. apply IH.
  rewrite length_drop. lia.
Qed.

Lemma wholeBlocks_length_0 s q : length q = 0%nat → wholeBlocks 0 s q = (s, []).
Proof. intros H. by rewrite (nil_length_inv q H). Qed.

(** The stream [m] has taken in [msg]. *)
Record represents (m : Stream) (w t : bytes) : Prop := {
  rep_blocks : length w = (64 * (length w / 64))%nat;
  rep_short : (length t < 64)%nat;
  rep_state : state m = absorb initial w;
  rep_buffered : buffered m = length t;
  rep_tail : take (length t) (buffer m) = t;
  rep_room : length (buffer m) = 64%nat;
  rep_bits : bitCount m = u64 (8 * Z.of_nat (length (w ++ t)));
}.

Lemma absorb_app s w p : length w = (64 * (length w / 64))%nat → absorb s (w ++ p) = absorb (absorb s w) p.
Proof.
  intros Hw. unfold absorb at 1. rewrite length_app.
  replace ((length w + length p) / 64)%nat with (length w / 64 + length p / 64)%nat by nat_mod.
  by rewrite wholeBlocks_app by done.
Qed.

Lemma absorb_short s p : (length p < 64)%nat → absorb s p = s.
Proof. intros H. unfold absorb. by rewrite Nat.div_small. Qed.

Lemma absorb_block s p : length p = 64%nat → absorb s p = processBlock s p.
Proof. intros H. unfold absorb. rewrite H. change (64 / 64)%nat with 1%nat. cbn [wholeBlocks fst]. by rewrite take_ge by lia. Qed.

Lemma place_length buf at_ p : (at_ + length p <= length buf)%nat → length (place buf at_ p) = length buf.
Proof. intros H. unfold place. rewrite !length_app, length_take, length_drop. lia. Qed.

Lemma place_take buf at_ p : (at_ + length p <= length buf)%nat →
  take (at_ + length p) (place buf at_ p) = take at_ buf ++ p.
Proof.
  intros H. unfold place. rewrite app_assoc. apply take_app_length'.
  rewrite length_app, length_take. lia.
Qed.

(** The last part of [update]: whole blocks, then the tail, from a block boundary. *)
Lemma update_rest w p buf bits : length w = (64 * (length w / 64))%nat → length buf = 64%nat →
  bits = u64 (8 * Z.of_nat (length (w ++ p))) →
  ∃ w' t', w' ++ t' = w ++ p ∧
  represents
    (let '(st, p) := wholeBlocks (length p / 64) (absorb initial w) p in
     if (length p =? 0)%nat then mkStream st bits buf 0
     else mkStream st bits (place buf 0 p) (length p)) w' t'.
Proof.
  intros Hw Hb Hbits. pose proof (wholeBlocks_rest (length p / 64) (absorb initial w) p) as Hr.
  destruct (wholeBlocks _ _ p) as [st p'] eqn:E. cbn [snd] in Hr.
  set (k := (64 * (length p / 64))%nat) in *.
  assert (Hk : (k <= length p)%nat ∧ (length p - k < 64)%nat) by (unfold k; nat_mod).
  assert (Hl : length (w ++ take k p) = (length w + k)%nat) by (rewrite length_app, length_take; lia).
  assert (Hst : st = absorb initial (w ++ take k p)).
  { rewrite absorb_app by done. unfold absorb at 1. rewrite length_take, Nat.min_l by lia.
    replace (k / 64)%nat with (length p / 64)%nat by (unfold k; nat_mod).
    pose proof (wholeBlocks_app (length p / 64) 0 (absorb initial w) (take k p) (drop k p)) as H.
    rewrite take_drop, Nat.add_0_r, E in H. cbn [wholeBlocks] in H.
    assert (Hx : (st, p') = ((wholeBlocks (length p / 64) (absorb initial w) (take k p)).1, drop k p))
      by (apply H; rewrite length_take; lia). by injection Hx. }
  exists (w ++ take k p), p'. subst p'. split; [by rewrite <- app_assoc, take_drop|].
  assert (Ha : length (w ++ take k p) = (64 * (length (w ++ take k p) / 64))%nat)
    by (rewrite Hl; unfold k; nat_mod).
  assert (Hs : (length (drop k p) < 64)%nat) by (rewrite length_drop; lia).
  assert (Hbt : bits = u64 (8 * Z.of_nat (length ((w ++ take k p) ++ drop k p))))
    by (by rewrite <- app_assoc, take_drop).
  destruct (Nat.eqb_spec (length (drop k p)) 0) as [H0|H0].
  - split; cbn [state bitCount buffer buffered]; try done. rewrite H0. symmetry. by apply nil_length_inv.
  - split; cbn [state bitCount buffer buffered]; try done.
    + pose proof (place_take buf 0 (drop k p)) as H. cbn [Nat.add take app] in H. apply H. lia.
    + rewrite place_length; [done|]. lia.
Qed.

Lemma bits_add a b : u64 (u64 (8 * Z.of_nat a) + u64 (Z.of_nat b * 8)) = u64 (8 * Z.of_nat (a + b)).
Proof. unfold u64. rewrite <- Zplus_mod. f_equal. lia. Qed.

Lemma update_represents m w t data : represents m w t →
  ∃ w' t', w' ++ t' = (w ++ t) ++ data ∧ represents (update data m) w' t'.
Proof.
  intros [Hw Ht Hst Hn Htk Hb Hbits]. unfold update. rewrite Hst, Hn.
  assert (Hbits' : u64 (bitCount m + u64 (Z.of_nat (length data) * 8))
    = u64 (8 * Z.of_nat (length ((w ++ t) ++ data)))) by (by rewrite Hbits, bits_add, <- length_app).
  rewrite Hbits'. set (bits := u64 (8 * _)).
  destruct (Nat.eqb_spec (length t) 0) as [H0|H0].
  { pose proof (nil_length_inv _ H0) as Ht0. subst t. subst bits. rewrite app_nil_r. cbn [length Nat.eqb]. by apply update_rest. }
  set (k := if (length data <? 64 - length t)%nat then length data else (64 - length t)%nat).
  assert (Hk : (k <= length data)%nat ∧ (length t + k <= 64)%nat)
    by (unfold k; destruct (Nat.ltb_spec (length data) (64 - length t)); lia).
  assert (Hkl : length (take k data) = k) by (rewrite length_take; lia).
  pose proof (place_length (buffer m) (length t) (take k data)) as Hpl.
  pose proof (place_take (buffer m) (length t) (take k data)) as Hpt. rewrite Hkl, Hb in Hpl, Hpt.
  specialize (Hpl ltac:(lia)). specialize (Hpt ltac:(lia)). rewrite Htk in Hpt.
  destruct (Nat.eqb_spec (length t + k) 64) as [H64|H64].
  - rewrite H64, <- Hpl, firstn_all in Hpt. rewrite Hpt.
    assert (Htl : length (t ++ take k data) = 64%nat) by (rewrite length_app; lia).
    assert (Hwl : length (w ++ t ++ take k data) = (64 * (length (w ++ t ++ take k data) / 64))%nat)
      by (rewrite length_app, Htl; nat_mod).
    rewrite <- (absorb_block (absorb initial w)), <- absorb_app by done.
    assert (Heq : (w ++ t) ++ data = (w ++ t ++ take k data) ++ drop k data)
      by (rewrite <- !app_assoc, take_drop; done).
    destruct (update_rest (w ++ t ++ take k data) (drop k data) (t ++ take k data) bits) as (w'&t'&H1&H2);
      [done|done|unfold bits; by rewrite Heq|].
    exists w', t'. split; [by rewrite H1, Heq|exact H2].
  - assert (Hkd : k = length data) by (unfold k in *; destruct (Nat.ltb_spec (length data) (64 - length t)); lia).
    rewrite Hkd, drop_all, firstn_all in *. change (length [] / 64)%nat with 0%nat. cbn [wholeBlocks length Nat.eqb].
    exists w, (t ++ data). split; [by rewrite app_assoc|].
    split; cbn [state bitCount buffer buffered]; rewrite ?length_app in *; try done; try lia.
    unfold bits. rewrite !length_app. f_equal. lia.
Qed.

Lemma reset_represents : represents reset [] [].
Proof. by split; vm_compute; auto with lia. Qed.

Lemma updates_represent chunks m w t : represents m w t →
  ∃ w' t', w' ++ t' = (w ++ t) ++ concat chunks ∧ represents (foldl (flip update) m chunks) w' t'.
Proof.
  revert m w t. induction chunks as [|c cs IH]; intros m w t H; cbn [foldl concat].
  { exists w, t. by rewrite app_nil_r. }
  destruct (update_represents _ _ _ c H) as (w1&t1&E1&H1). destruct (IH _ _ _ H1) as (w2&t2&E2&H2).
  exists w2, t2. split; [|exact H2]. by rewrite E2, E1, <- app_assoc.
Qed.

Lemma take_pad n : (n <= 71)%nat → take (S n) (kPaddingByte :: replicate 71 0) = kPaddingByte :: replicate n 0.
Proof. intros H. cbn [take]. by rewrite take_replicate, Nat.min_l. Qed.

Lemma hex_represents m w t : represents m w t → hex m = rfc1321 (w ++ t).
Proof.
  intros H. pose proof H as [Hw Ht _ Hn _ _ Hbits]. unfold hex, rfc1321. rewrite Hn, Hbits.
  set (pad := (119 - length (w ++ t) mod 64) mod 64 : nat).
  assert (Hlen : (length (w ++ t) mod 64 = length t)%nat) by (rewrite length_app; nat_mod).
  assert (E : take (if (length t <=? 55)%nat then (56 - length t)%nat else (120 - length t)%nat)
      (kPaddingByte :: replicate 71 0) = kPaddingByte :: replicate pad 0).
  { replace (if (length t <=? 55)%nat then (56 - length t)%nat else (120 - length t)%nat) with (S pad);
      [apply take_pad; unfold pad; nat_mod|].
    unfold pad. rewrite Hlen. destruct (Nat.leb_spec (length t) 55); nat_mod. }
  rewrite E.
  destruct (update_represents _ _ _ (kPaddingByte :: replicate pad 0) H) as (w1&t1&E1&H1).
  destruct (update_represents _ _ _ (CacheFileReader.putLe 8 (u64 (8 * Z.of_nat (length (w ++ t))))) H1) as (w2&t2&E2&H2).
  rewrite E1, <- app_assoc in E2. change (w2 ++ t2 = padded (w ++ t)) in E2.
  destruct H2 as [Hw2 Ht2 -> _ _ _ _]. rewrite <- E2. do 2 f_equal.
  assert (Hl : length (w2 ++ t2) = length (padded (w ++ t))) by (by rewrite E2).
  unfold padded in Hl. fold pad in Hl. rewrite !length_app in Hl. cbn [length] in Hl.
  rewrite !length_app, length_replicate, CacheFileReader.putLe_length in Hl.
  assert (length t2 = 0%nat) as H0.
  { unfold pad in Hl. rewrite length_app in Hl, Hlen. revert Hl Ht2 Hw2 Hlen Ht Hw. clear. nat_mod. }
  by rewrite (nil_length_inv _ H0), app_nil_r.
Qed.

(** C20: whatever the pieces a message comes in, the digest is that of RFC 1321 on the whole
    message - its padding and its blocks, each through the compression the stream uses -,
    and taking it leaves the stream usable: more may follow. *)
Theorem hex_reference chunks more :
  let m := foldl (flip update) reset chunks in
  hex m = rfc1321 (concat chunks) ∧
  hex (foldl (flip update) m more) = rfc1321 (concat chunks ++ concat more).
Proof.
  cbv zeta.
  destruct (updates_represent chunks _ _ _ reset_represents) as (w&t&E&H).
  destruct (updates_represent more _ _ _ H) as (w2&t2&E2&H2).
  split; [rewrite (hex_represents _ _ _ H), E|rewrite (hex_represents _ _ _ H2), E2, E]; done.
Qed.

Lemma fileLoop_total fuel : ∀ n readError f m w t, represents m w t → (length f < fuel * kFileChunk)%nat →
  (∀ i, readError i = false) →
  ∃ m' w' t', fileLoop fuel n readError f m = Done (Some m') ∧ represents m' w' t' ∧ w' ++ t' = (w ++ t) ++ f.
Proof.
  induction fuel as [|fuel IH]; intros n e f m w t H Hf He; [lia|].
  cbn [fileLoop]. rewrite He.
  assert (∃ w1 t1, represents (if (length (take kFileChunk f) =? 0)%nat then m else update (take kFileChunk f) m) w1 t1
    ∧ w1 ++ t1 = (w ++ t) ++ take kFileChunk f) as (w1&t1&H1&E1).
  { destruct (Nat.eqb_spec (length (take kFileChunk f)) 0) as [H0|H0].
    - exists w, t. by rewrite (nil_length_inv _ H0), app_nil_r.
    - destruct (update_represents _ _ _ (take kFileChunk f) H) as (w1&t1&E1&H1). eauto. }
  destruct (Nat.ltb_spec (length (take kFileChunk f)) kFileChunk) as [Hs|Hs].
  - eexists _, w1, t1. split; [done|]. split; [done|]. rewrite E1, take_ge; [done|]. rewrite length_take in Hs. lia.
  - rewrite length_take in Hs.
    destruct (IH (S n) e (drop kFileChunk f) _ w1 t1 H1) as (m'&w'&t'&E2&H2&E3);
      [rewrite length_drop; lia|done|]. exists m', w', t'. split; [exact E2|]. split; [done|].
    by rewrite E3, E1, <- app_assoc, take_drop.
Qed.

(** The digest of a file that can be read is that of its contents. *)
Theorem file_reference path f readError : path ≠ [] → (∀ i, readError i = false) →
  file path (Some f) readError = Done (rfc1321 f, []).
Proof.
  intros Hp He. unfold file. rewrite bool_decide_false by done.
  destruct (fileLoop_total (S (length f / kFileChunk)) 0 readError f reset [] [] reset_represents) as (m&w&t&E&H&Ef);
    [unfold kFileChunk; nat_mod|done|].
  rewrite E, run_bind_done, (hex_represents _ _ _ H), Ef. done.
Qed.

Lemma file_reference_witness :
  file (lit "c") (Some (lit "abc")) (λ _, false) = Done (lit "900150983cd24fb0d6963f7d28e17f72", []).
Proof. rewrite <- vector_abc. apply (file_reference (lit "c") (lit "abc") (λ _, false)); done. Defined.

Lemma hexText_length l : length (hexText l) = (2 * length l)%nat.
Proof. unfold hexText. induction l as [|b l IH]; [done|]. cbn [fmap list_fmap concat]. rewrite length_app, IH. cbn. lia. Qed.

Lemma rfc1321_length msg : length (rfc1321 msg) = 32%nat.
Proof. unfold rfc1321. rewrite hexText_length. reflexivity. Qed.

Lemma rfc1321_nonempty msg : rfc1321 msg ≠ [].
Proof. intros E. pose proof (rfc1321_length msg) as H. by rewrite E in H. Qed.

End Md5.
