(* ===== verification/RestartJobs.v ===== *)
(** * What a planned restart keeps ([src/dns/DnsServer.cpp])

    The two background jobs of the DNS server: the counters of the main page
    ([StatsJob], Statistica.dat) and the built-in cache ([CacheJob], cache.dat with
    its checksum in the settings).  Clients of the stores they write through. *)
From stdpp Require Import gmap relations.
From S2P Require Import Prelude DnsPool InternalDnsCache CacheSpec CacheFile AtomicFile CachePersist.
From S2P Require Import RestartSave StatStore Md5 JobRegistry DnsServer.
#[local] Open Scope Z_scope.

Inductive RestartSaveStart := RsOk | RsSkipped | RsNothingToSave | RsBusy | RsFailed.

#[export] Instance RestartSaveStart_eq_dec : EqDecision RestartSaveStart.
Proof. solve_decision. Defined.

Module StatsJob.
Import RestartSaveVerify RestartSaveJobState DnsStatStore.
#[local] Abbreviation run := Prelude.run.

Definition kPath : bytes := lit "/fat/Statistica.dat".
Definition kPersistStallMs : Z := 5000.
Definition kStepMs : Z := 50.

(** What the job reads and writes of the server: [saveStats] is the switch of the
    settings, [manual] is [statsJobManual_], [checked] is [statsChecked_]. *)
Record Keeper := mkKeeper {
  counters : DnsServer.Counters;
  internal : InternalDnsCache.Cache;
  vol : AtomicFile.Vol;
  saveStats : bool;
  job : Job;
  manual : bool;
  checked : bool;
}.

Definition set_job (j : Job) (k : Keeper) : Keeper :=
  mkKeeper (counters k) (internal k) (vol k) (saveStats k) j (manual k) (checked k).
Definition set_vol (v : AtomicFile.Vol) (k : Keeper) : Keeper :=
  mkKeeper (counters k) (internal k) v (saveStats k) (job k) (manual k) (checked k).

(** The totals of the moment; [stats] also settles the cache's "hottest name". *)
Definition currentTotals (c : DnsServer.Counters) (ic : InternalDnsCache.Cache) : DnsStatTotals :=
  let m := InternalDnsCache.sMeter (InternalDnsCache.stats ic).1 in
  mkTotals (DnsServer.internalCacheHits c) (DnsServer.forwardedCount c) (DnsServer.internalCacheHitUs c)
    (InternalDnsCache.lookupWaitUs m) (InternalDnsCache.walkedNodes m) (InternalDnsCache.stores m)
    (InternalDnsCache.evictScans m) (InternalDnsCache.evictScanUs m) (InternalDnsCache.evictScanNodes m).

Definition writeStatsNow (io : nat → Io) (k : Keeper) : Verdict * bytes * Keeper :=
  if negb (manual k) && negb (saveStats k) then (VSkipped, [], k)
  else
    let totals := currentTotals (counters k) (internal k) in
    let k := mkKeeper (counters k) (InternalDnsCache.stats (internal k)).2 (vol k) (saveStats k) (job k)
               (manual k) (checked k) in
    let '(outcome, why, v) := saveWithRetry io kPath totals (vol k) in
    let k := set_vol v k in
    match outcome with
    | OutOk => (VOk, [], k)
    | OutMismatch => (VMismatch, why, k)
    | OutFailed => (VFailed, why, k)
    end.

Definition saturate (z : Z) : Z := if DnsServer.DNS_COUNTER_MAX <? z then DnsServer.DNS_COUNTER_MAX else u32 z.

Definition applyStatsTotals (t : DnsStatTotals) (k : Keeper) : Keeper :=
  let c := counters k in
  let h := saturate (hits t) in
  mkKeeper
    (DnsServer.mkCounters (DnsServer.queryCount c) h (hitUsSum t) (saturate (forwards t))
       (DnsServer.foreignDropped c) (DnsServer.lastForeignLogMs c))
    (InternalDnsCache.restoreMeasurement h (waitUs t) (walkedNodes t) (stores t) (evictScans t)
       (evictScanUs t) (evictScanNodes t) (internal k))
    (vol k) (saveStats k) (job k) (manual k) (checked k).

(** [renames] is whether the volume's rename works, should a part have to be recovered. *)
Definition loadStatsFileNow (renames : bool) (k : Keeper) : bool * bytes * Keeper :=
  let '(r, v) := load renames kPath zeroTotals (vol k) in
  let k := set_vol v k in
  match r with
  | inr why => (false, why, k)
  | inl t => (true, [], applyStatsTotals t k)
  end.

(** The restore of the start, which the switch of the settings governs. *)
Definition restoreStatsFromFile (renames : bool) (k : Keeper) : bool * Keeper :=
  if negb (saveStats k) then (false, k)
  else let '(ok, _, k) := loadStatsFileNow renames k in (ok, k).

Definition resetStats (removes : bool) (k : Keeper) : Keeper :=
  let k := applyStatsTotals zeroTotals k in
  set_vol (AtomicFile.remove removes kPath (vol k)).2 k.

Definition deleteStatsFile (removes : bool) (k : Keeper) : bool * Keeper :=
  let there := AtomicFile.readable kPath (vol k) in
  (there && removes, set_vol (AtomicFile.remove removes kPath (vol k)).2 k).

(** Exists, size. *)
Definition statsFileInfo (k : Keeper) : bool * Z :=
  match vol k !! kPath with Some f => (true, Z.of_nat (length f)) | None => (false, 0) end.

(** [asked] is [StatsSaveOrigin::AskedFor]; [created] whether the task could be made. *)
Definition startStatsSaveJob (asked created : bool) (k : Keeper) : RestartSaveStart * Keeper :=
  let enabled := asked || saveStats k in
  let k := mkKeeper (counters k) (internal k) (vol k) (saveStats k) (job k) asked (checked k) in
  let '(r, j) := request enabled (job k) in
  let k := set_job j k in
  match r with
  | Skipped => (RsSkipped, k)
  | Busy => (RsBusy, k)
  | _ => if created then (RsOk, k) else (RsFailed, set_job (abortStart (job k)) k)
  end.

Definition statsJobTask (io : nat → Io) (k : Keeper) : Keeper :=
  let '(verdict, detail, k) := writeStatsNow io k in
  mkKeeper (counters k) (internal k) (vol k) (saveStats k) (finish verdict detail (job k)) (manual k)
    (bool_decide (verdict = VOk)).

(** [waitForStatsJob]: [busyAt n] is what the [n]-th look at the progress finds.  The
    fuel bounds the looks; one look is made every [kStepMs]. *)
Fixpoint waitLoop (fuel : nat) (busyAt : nat → bool) (n : nat) (waitedMs stallMs : Z) : run bool :=
  match fuel with
  | O => OutOfFuel
  | S fuel' =>
      if negb (busyAt n) then mret true
      else
        let waitedMs := u32 (waitedMs + kStepMs) in
        if stallMs <=? waitedMs then mret false else waitLoop fuel' busyAt (S n) waitedMs stallMs
  end.

Definition waitForStatsJob (busyAt : nat → bool) (stallMs : Z) : run bool :=
  waitLoop (S (Z.to_nat stallMs)) busyAt 0 0 stallMs.

(** The restart's own save, and the autosave's: start the job, wait for it.  The job
    ends between looks [ends - 1] and [ends]. *)
Definition saveStatsBeforeRestart (created : bool) (io : nat → Io) (ends : nat) (k : Keeper)
  : run (bool * Keeper) :=
  let '(started, k) := startStatsSaveJob false created k in
  match started with
  | RsSkipped => mret (true, k)
  | RsFailed => mret (false, k)
  | _ =>
      ok ← waitForStatsJob (λ n, (n <? ends)%nat) kPersistStallMs;
      mret (ok, statsJobTask io k)
  end.

Definition writeStatsFileNow (created : bool) (io : nat → Io) (ends : nat) (k : Keeper)
  : run (bool * bytes * Keeper) :=
  let '(started, k) := startStatsSaveJob true created k in
  match started with
  | RsBusy => mret (false, lit "a save is already running", k)
  | RsOk =>
      ok ← waitForStatsJob (λ n, (n <? ends)%nat) kPersistStallMs;
      let k := statsJobTask io k in
      if negb ok then mret (false, lit "the save did not finish in time", k)
      else if negb (bool_decide (verdict (job k) = VOk)) then
        mret (false, if bool_decide (detail (job k) = []) then lit "the save failed" else detail (job k), k)
      else mret (true, [], k)
  | _ => mret (false, lit "could not start the save", k)
  end.

(** ** Across a restart *)

(** The counters hold what their C++ types can. *)
Definition wf_keeper (k : Keeper) : Prop :=
  let c := counters k in let m := InternalDnsCache.meter (internal k) in
  is_u32 (DnsServer.internalCacheHits c) ∧ is_u32 (DnsServer.forwardedCount c) ∧
  is_u64 (DnsServer.internalCacheHitUs c) ∧
  is_u64 (InternalDnsCache.lookupWaitUs m) ∧ is_u64 (InternalDnsCache.walkedNodes m) ∧
  is_u64 (InternalDnsCache.stores m) ∧ is_u64 (InternalDnsCache.evictScans m) ∧
  is_u64 (InternalDnsCache.evictScanUs m) ∧ is_u64 (InternalDnsCache.evictScanNodes m).

Lemma stats_meter c : InternalDnsCache.sMeter (InternalDnsCache.stats c).1 = InternalDnsCache.meter c.
Proof. done. Qed.

Lemma u32_is_u64 z : is_u32 z → is_u64 z.
Proof. word_lia. Qed.

Lemma currentTotals_wf k : wf_keeper k → wf_totals (currentTotals (counters k) (internal k)).
Proof.
  intros (H1&H2&H3&H4&H5&H6&H7&H8&H9). unfold wf_totals, currentTotals. rewrite stats_meter.
  split_and!; cbn; eauto using u32_is_u64.
Qed.

Lemma saturate_u32 z : is_u32 z → saturate z = z.
Proof.
  intros H. unfold saturate, DnsServer.DNS_COUNTER_MAX. destruct (Z.ltb_spec 4294967295 z); [word_lia|].
  by apply u32_small.
Qed.

Lemma saturate_range z : 0 <= z → is_u32 (saturate z).
Proof.
  intros H. unfold saturate, DnsServer.DNS_COUNTER_MAX. destruct (Z.ltb_spec 4294967295 z); [|apply u32_range].
  word_lia.
Qed.

(** What a written file holds, and what the next start makes of it. *)
Lemma writeStatsNow_ok io k k' : wf_keeper k → writeStatsNow io k = (VOk, [], k') →
  vol k' !! kPath = Some (encode (currentTotals (counters k) (internal k))) ∧
  (manual k = true ∨ saveStats k = true) ∧ counters k' = counters k.
Proof.
  intros Hk. unfold writeStatsNow.
  destruct (negb (manual k) && negb (saveStats k)) eqn:Es; [done|]. cbn [vol].
  destruct (saveWithRetry io kPath _ (vol k)) as [[o why] v] eqn:E.
  destruct (saveWithRetry_holds _ _ _ zeroTotals _ _ _ _ (currentTotals_wf k Hk) E) as (H1 & _).
  destruct o; [|done..]. intros [= <-]. destruct (H1 eq_refl) as (Hp & _).
  split; [exact Hp|]. split; [|done]. destruct (manual k), (saveStats k); auto.
Qed.

(** A save before a restart that reports success keeps the page's numbers: the
    next start, whatever its own counters and cache, shows the counters of the moment of
    the save and measures on from its sums. *)
Theorem counters_survive io k k' rn next : wf_keeper k → writeStatsNow io k = (VOk, [], k') →
  vol next = vol k' → saveStats next = true →
  ∃ r, restoreStatsFromFile rn next = (true, r) ∧
    DnsServer.internalCacheHits (counters r) = DnsServer.internalCacheHits (counters k) ∧
    DnsServer.forwardedCount (counters r) = DnsServer.forwardedCount (counters k) ∧
    DnsServer.internalCacheHitUs (counters r) = DnsServer.internalCacheHitUs (counters k) ∧
    (let m := InternalDnsCache.meter (internal k) in
     InternalDnsCache.meter (internal r) =
     InternalDnsCache.mkMeter (DnsServer.internalCacheHits (counters k))
       (InternalDnsCache.misses (InternalDnsCache.meter (internal next)))
       (InternalDnsCache.evicted (InternalDnsCache.meter (internal next)))
       (InternalDnsCache.lookupWaitUs m) (InternalDnsCache.walkedNodes m) (InternalDnsCache.stores m)
       (InternalDnsCache.evictScans m) (InternalDnsCache.evictScanUs m) (InternalDnsCache.evictScanNodes m)) ∧
    InternalDnsCache.arena (internal r) = InternalDnsCache.arena (internal next).
Proof.
  intros Hk Hw Hv Hs. pose proof (currentTotals_wf k Hk) as Ht.
  destruct (writeStatsNow_ok io k k' Hk Hw) as (Hp & _ & _). destruct Hk as (H1&H2&_).
  unfold restoreStatsFromFile, loadStatsFileNow. rewrite Hs, Hv. cbn [negb].
  rewrite (load_holds rn _ _ _ _ Ht Hp). cbn [set_vol]. eexists. split; [reflexivity|].
  cbn. rewrite !saturate_u32 by done. done.
Qed.

Definition demoKeeper : Keeper :=
  mkKeeper (DnsServer.mkCounters 9 5 1200 4 0 0)
    (InternalDnsCache.mkCache None 0 (InternalDnsCache.mkMeter 5 1 0 30 6 2 0 0 0)
       (InternalDnsCache.mkMark 0 0 (-1) 0 [] false) true)
    ∅ true initial false false.

Definition demoNext : Keeper :=
  mkKeeper (DnsServer.mkCounters 1 0 0 1 0 0)
    (InternalDnsCache.mkCache None 0 InternalDnsCache.zeroMeter (InternalDnsCache.mkMark 0 0 (-1) 0 [] false) true)
    {[ kPath := encode (mkTotals 5 4 1200 30 6 2 0 0 0) ]} true initial false false.

Lemma counters_survive_witness :
  ∃ r, restoreStatsFromFile true demoNext = (true, r) ∧
    DnsServer.internalCacheHits (counters r) = 5 ∧ DnsServer.forwardedCount (counters r) = 4.
Proof.
  destruct (counters_survive (λ _, allGood) demoKeeper
    (mkKeeper (counters demoKeeper) (InternalDnsCache.stats (internal demoKeeper)).2 (vol demoNext) true initial false false)
    true demoNext) as (r & E & H1 & H2 & _).
  - repeat split; (reflexivity || discriminate).
  - vm_compute. reflexivity.
  - reflexivity.
  - reflexivity.
  - exists r. split; [exact E|]. split; [exact H1|exact H2].
Defined.

(** A reset empties the counters, and when no part of an interrupted save is left the
    next start finds nothing to restore. *)
Lemma reset_is_final k rn next : vol k !! AtomicFile.partPath kPath = None →
  vol next = vol (resetStats true k) →
  DnsServer.internalCacheHits (counters (resetStats true k)) = 0 ∧
  DnsServer.forwardedCount (counters (resetStats true k)) = 0 ∧
  DnsServer.internalCacheHitUs (counters (resetStats true k)) = 0 ∧
  (restoreStatsFromFile rn next).1 = false.
Proof.
  intros Hp Hv. split_and!; try done. unfold restoreStatsFromFile, loadStatsFileNow, load. rewrite Hv.
  destruct (saveStats next); [|done]. cbn [negb].
  set (v := vol (resetStats true k)).
  assert (H1 : v !! kPath = None).
  { unfold v, resetStats, set_vol. cbn [vol applyStatsTotals]. unfold AtomicFile.remove.
    destruct (AtomicFile.readable kPath (vol k)) eqn:E; cbn [snd]; [apply lookup_delete_eq|].
    unfold AtomicFile.readable in E. apply bool_decide_eq_false in E. by apply eq_None_not_Some. }
  assert (H2 : v !! AtomicFile.partPath kPath = None).
  { unfold v, resetStats, set_vol. cbn [vol applyStatsTotals]. rewrite remove_other; [done|apply AtomicFile.part_ne]. }
  rewrite AtomicFile.recover_eq, (AtomicFile.readable_none _ _ H1), (AtomicFile.readable_none _ _ H2).
  cbn [negb]. by rewrite H1.
Qed.

(** The reset removes the statistics file but not the part of a save that could not be
    published: the next start takes the part for an interrupted save and the numbers
    the operator reset are back. *)
Example reset_undone_by_part :
  let noRename (_ : nat) := mkIo true true (λ r, r) true false true in
  let saved := (writeStatsNow noRename demoKeeper).2 in
  let after := resetStats true saved in
  let restarted := restoreStatsFromFile true
    (mkKeeper (DnsServer.mkCounters 0 0 0 0 0 0) (internal after) (vol after) true initial false false) in
  DnsServer.internalCacheHits (counters after) = 0 ∧ restarted.1 = true ∧
  DnsServer.internalCacheHits (counters restarted.2) = 5.
Proof. vm_compute. auto. Qed.

(** [statsJobManual_] is written before the request is looked at: a restart that finds
    the switch off, asked while a save of the operator's is starting, turns that save
    into one that is skipped. *)
Example asked_save_skipped :
  let off := mkKeeper (counters demoKeeper) (internal demoKeeper) ∅ false initial false false in
  let k := (startStatsSaveJob true true off).2 in
  let k := (startStatsSaveJob false true k).2 in
  let k := statsJobTask (λ _, allGood) k in
  verdict (job k) = VSkipped ∧ vol k = ∅.
Proof. vm_compute. auto. Qed.

(** ** Waiting *)

Lemma waitLoop_spec busyAt stallMs : stallMs + kStepMs < 2 ^ 32 → ∀ fuel n,
  Z.of_nat n * kStepMs < stallMs → stallMs <= (Z.of_nat n + Z.of_nat fuel) * kStepMs →
  (∀ i, (i < n)%nat → busyAt i = true) →
  ∃ b, waitLoop fuel busyAt n (Z.of_nat n * kStepMs) stallMs = Done b ∧
    (b = true ↔ ∃ i, Z.of_nat i * kStepMs < stallMs ∧ busyAt i = false).
Proof.
  unfold kStepMs. intros Hs. induction fuel as [|fuel IH]; intros n Hn Hf Hb; [lia|].
  cbn [waitLoop]. destruct (busyAt n) eqn:E; cbn [negb].
  - unfold kStepMs. rewrite u32_small by word_lia. destruct (Z.leb_spec stallMs (Z.of_nat n * 50 + 50)).
    + exists false. split; [done|]. split; [done|]. intros (i & Hi & Hf0).
      destruct (decide (i < n)%nat); [by rewrite Hb in Hf0|]. assert (i = n) as -> by lia. congruence.
    + replace (Z.of_nat n * 50 + 50) with (Z.of_nat (S n) * 50) by lia. apply IH; [lia|lia|].
      intros i Hi. destruct (decide (i = n)) as [->|]; [done|]. apply Hb. lia.
  - exists true. split; [done|]. split; [|done]. intros _. by exists n.
Qed.

(** The wait for a job always ends, and reports success exactly when one of the
    looks made before the limit found the job over. *)
Theorem wait_bounded busyAt stallMs : 0 < stallMs < 2 ^ 32 - kStepMs →
  ∃ b, waitForStatsJob busyAt stallMs = Done b ∧
    (b = true ↔ ∃ i, Z.of_nat i * kStepMs < stallMs ∧ busyAt i = false).
Proof.
  intros H. unfold waitForStatsJob. apply (waitLoop_spec busyAt stallMs) with (n := 0%nat); unfold kStepMs in *; lia.
Qed.

Lemma wait_bounded_witness :
  0 < kPersistStallMs < 2 ^ 32 - kStepMs ∧
  ∃ b, waitForStatsJob (λ n, (n <? 120)%nat) kPersistStallMs = Done b ∧
    (b = true ↔ ∃ i, Z.of_nat i * kStepMs < kPersistStallMs ∧ (i <? 120)%nat = false).
Proof. split; [split; reflexivity|]. apply (wait_bounded (λ n, (n <? 120)%nat) kPersistStallMs). split; reflexivity. Defined.

End StatsJob.
