(* ===== verification/CacheJob.v ===== *)
(** * The background job of the cache file ([src/dns/DnsServer.cpp])

    Saving the built-in cache to cache.dat and loading it back: one job at a time, a
    save that a restart asked for is read back, a load that only takes the file whose
    checksum the device stored.  Clients: [CachePersist], [CacheFile], [Md5], [RestartSave],
    [JobRegistry]. *)
From stdpp Require Import gmap relations.
From S2P Require Import Prelude DnsPool InternalDnsCache CacheSpec CacheFile AtomicFile CachePersist.
From S2P Require Import RestartSave Md5 JobRegistry RestartJobs.
#[local] Open Scope Z_scope.

Module CacheJob.
Import RestartSaveVerify.
#[local] Abbreviation run := Prelude.run.

Definition kCacheDatPath : bytes := lit "/fat/cache.dat".
Definition kPersistStallMs : Z := 5000.
Definition kStepMs : Z := 100.

Inductive PersistResult := PrNone | PrOk | PrEmpty | PrMismatch | PrFailed.

#[export] Instance PersistResult_eq_dec : EqDecision PersistResult.
Proof. solve_decision. Defined.

(** The members the mutex guards, as [persistProgress] reads them. *)
Record Persist := mkPersist {
  busy : bool;
  isSave : bool;
  force : bool;
  result : PersistResult;
  done_ : Z;
  total : Z;
  verifyOwed : bool;
  checking : bool;
  checked : bool;
  detail : bytes;
}.

Definition idle : Persist := mkPersist false false false PrNone 0 0 false false false [].

Inductive LogLevel := Warn | Error.

(** [storedMd5] and [saveCache] are settings; [restarted] counts the countdowns of the
    autosave that were restarted; [errorLog] is what was submitted to it. *)
Record Device := mkDevice {
  cache : InternalDnsCache.Cache;
  vol : AtomicFile.Vol;
  storedMd5 : bytes;
  saveCache : bool;
  persist : Persist;
  jobs : JobRegistry.Registry;
  restarted : nat;
  errorLog : list (LogLevel * bytes);
}.

Definition set_persist (p : Persist) (d : Device) : Device :=
  mkDevice (cache d) (vol d) (storedMd5 d) (saveCache d) p (jobs d) (restarted d) (errorLog d).
Definition set_jobs (r : JobRegistry.Registry) (d : Device) : Device :=
  mkDevice (cache d) (vol d) (storedMd5 d) (saveCache d) (persist d) r (restarted d) (errorLog d).
Definition notifyManualSave (d : Device) : Device :=
  mkDevice (cache d) (vol d) (storedMd5 d) (saveCache d) (persist d) (jobs d) (S (restarted d)) (errorLog d).
Definition set_owed (b : bool) (d : Device) : Device :=
  let p := persist d in
  set_persist (mkPersist (busy p) (isSave p) (force p) (result p) (done_ p) (total p) b (checking p)
                 (checked p) (detail p)) d.

Definition available (d : Device) : bool := bool_decide (is_Some (InternalDnsCache.arena (cache d))).

Definition fileInfo (d : Device) : CachePersist.FileInfo := CachePersist.fileInfo kCacheDatPath (vol d).

(** ** Starting *)

(** The job is claimed under the mutex, the autosave told, the task created. *)
Definition claim (save forced created : bool) (d : Device) : bool * Device :=
  if negb (available d) then (false, d)
  else if negb save && negb (CachePersist.fiExists (fileInfo d)) then (false, d)
  else
    let p := persist d in
    if busy p then (false, d)
    else
      let p := mkPersist true save forced PrNone 0 0 (verifyOwed p) (checking p) (checked p) (detail p) in
      let d := notifyManualSave (set_persist p d) in
      if created then (true, d)
      else (false, set_persist (mkPersist false save forced PrNone 0 0 (verifyOwed p) (checking p)
                                  (checked p) (detail p)) d).

Definition jobId (save : bool) : bytes := if save then lit "cache_save" else lit "cache_load".
Definition jobTitle (save : bool) : bytes := if save then lit "jobs.cache_save" else lit "jobs.cache_load".

(** The operation is announced last, when its task already exists. *)
Definition announce (save : bool) (t1 t2 : Z) (d : Device) : Device :=
  let '(_, r, _) := JobRegistry.begin_ (jobId save) (jobTitle save) [] 0 JobRegistry.UnitRecords 0 t1 t2 (jobs d) in
  set_jobs r d.

Definition startPersistJob (save forced created : bool) (t1 t2 : Z) (d : Device) : bool * Device :=
  let '(ok, d) := claim save forced created d in
  if ok then (true, announce save t1 t2 d) else (false, d).

(** ** The checksum of the file *)

Record CacheFileMd5 := mkMd5 {
  fileExists : bool;
  hasStored : bool;
  match_ : bool;
  readable : bool;
  fileMd5 : bytes;
}.

Definition checkCacheFileMd5 (readError : nat → bool) (d : Device) : run CacheFileMd5 :=
  let there := CachePersist.fiExists (fileInfo d) in
  let has := negb (bool_decide (storedMd5 d = [])) in
  if negb there then mret (mkMd5 false has false false [])
  else
    h ← Md5.file kCacheDatPath (vol d !! kCacheDatPath) readError;
    if bool_decide (h.1 = []) then mret (mkMd5 true has false false [])
    else mret (mkMd5 true has (has && bytes_eqb h.1 (storedMd5 d)) true h.1).

(** ** The task *)

(** What one attempt meets: the outcomes of its file operations, the clock, the arena
    while it is walked. *)
Record Try := mkTry {
  tIo : CachePersist.SaveIo;
  tNow : Z;
  tNow2 : Z;
  tArena : nat → list DnsPool.Node;
  tTorn : bytes;
}.

Record Work := mkWork { wVol : AtomicFile.Vol; wWritten : Z; wNothing : bool }.

Section Task.
Context (pton4 : bytes → option Z) (pton6 : bytes → option bytes).
Context (ntop4 : Z → option bytes) (ntop6 : bytes → option bytes).
Context (tries : nat → Try) (readError : nat → bool).

(** One attempt; a run that left its buffers stays one that did. *)
Definition attempt (verify : bool) (c : InternalDnsCache.Cache) (n : nat) (st : run Work)
  : AttemptResult * bytes * run Work :=
  let t := tries n in
  let saved := w ← st;
    CachePersist.saveToFile kCacheDatPath (tIo t) (tNow t) (tNow2 t) (tArena t) (tTorn t) c (wVol w) in
  match saved with
  | Done sv =>
      let w := mkWork (CachePersist.svVol sv) (CachePersist.svWritten sv) (CachePersist.svNothing sv) in
      if negb (CachePersist.svOk sv) then
        if CachePersist.svNothing sv then (AtOk, [], Done w)
        else (AtFailed, lit "the cache file could not be written", Done w)
      else if negb verify then (AtOk, [], Done w)
      else
        let ck := CacheFileReader.check kCacheDatPath (wVol w !! kCacheDatPath) (wWritten w) in
        if negb (CacheFileReader.ok ck) then (AtMismatch, CacheFileReader.reason ck, Done w)
        else (AtOk, [], Done w)
  | OutOfBounds => (AtFailed, [], OutOfBounds)
  | OutOfFuel => (AtFailed, [], OutOfFuel)
  end.

Definition reportCacheVerify (n : nat) (r : AttemptResult) (why : bytes) : list (LogLevel * bytes) :=
  let path := kCacheDatPath in
  match r with
  | AtOk => if (1 <? n)%nat then [(Warn, lit "the second attempt saved " ++ path)] else []
  | _ =>
      let mismatch := bool_decide (r = AtMismatch) in
      if (n =? 1)%nat then
        [(Error, if mismatch then lit "the cache file does not hold what was written (" ++ why ++ lit ")"
                 else lit "the cache could not be saved (" ++ why ++ lit ")");
         (Warn, lit "retrying to write " ++ path)]
      else
        [(Error, if mismatch
                 then lit "the second attempt wrote a cache file that still does not match (" ++ why ++
                      lit ") - the cache is not safe to keep"
                 else lit "the second attempt failed too (" ++ why ++
                      lit ") - there is no cache file for the restart")]
  end.

(** The end of the job: the registry, then the members under the mutex. *)
Definition endJob (ok verified : bool) (r : PersistResult) (why : bytes) (t : Z) (d : Device) : Device :=
  let p := persist d in
  let st := if ok || negb (isSave p) then JobRegistry.Done_ else JobRegistry.Failed in
  let d := set_jobs (JobRegistry.finish (jobId (isSave p)) st (lit "cache.dat") t (jobs d)).1 d in
  set_persist (mkPersist false (isSave p) (force p) r (done_ p) (total p) (verifyOwed p) false verified why) d.

(** The reason of a verified save is a local of [RestartSaveVerify::run]: the one the
    page is given stays empty. *)
Definition saveTask (t : Z) (d : Device) : run Device :=
  let verify := verifyOwed (persist d) in
  let d := set_owed false d in
  let start := Done (mkWork (vol d) 0 false) in
  let '(outcome, why, reports, st) :=
    if verify then
      let '(o, reports, st) := RestartSaveVerify.run (Some (attempt true (cache d))) start in
      (o, [], concat ((λ x, reportCacheVerify x.1.1 x.1.2 x.2) <$> reports), st)
    else
      let '(r, why, st) := attempt false (cache d) 1 start in
      (if bool_decide (r = AtOk) then OutOk else OutFailed, why, [], st) in
  w ← st;
  let d := mkDevice (cache d) (wVol w) (storedMd5 d) (saveCache d) (persist d) (jobs d) (restarted d)
             (errorLog d ++ reports) in
  if wNothing w then mret (endJob false false PrEmpty [] t d)
  else
    match outcome with
    | OutOk =>
        h ← Md5.file kCacheDatPath (vol d !! kCacheDatPath) readError;
        let d := mkDevice (cache d) (vol d) (if bool_decide (h.1 = []) then storedMd5 d else h.1)
                   (saveCache d) (persist d) (jobs d) (restarted d) (errorLog d) in
        mret (endJob true verify PrOk [] t d)
    | OutMismatch => mret (endJob false false PrMismatch why t d)
    | OutFailed => mret (endJob false false PrFailed why t d)
    end.

Definition loadTask (renames : bool) (clock : nat → Z * Z) (t : Z) (d : Device) : run Device :=
  let d := set_owed false d in
  allowed ← (if force (persist d) then mret true else st ← checkCacheFileMd5 readError d; mret (match_ st));
  if negb allowed then mret (endJob false false PrFailed [] t d)
  else
    r ← CachePersist.loadFromFile pton4 pton6 ntop4 ntop6 kCacheDatPath renames clock (cache d) (vol d);
    let '(ok, _, c, v) := r in
    let d := mkDevice c v (storedMd5 d) (saveCache d) (persist d) (jobs d) (restarted d) (errorLog d) in
    mret (endJob ok false (if ok then PrOk else PrFailed) [] t d).

Definition persistJobTask (renames : bool) (clock : nat → Z * Z) (t : Z) (d : Device) : run Device :=
  if isSave (persist d) then saveTask t d else loadTask renames clock t d.

End Task.

(** ** Before a restart *)

Definition startCacheSaveForRestart (created : bool) (t1 t2 : Z) (d : Device) : RestartSaveStart * Device :=
  if negb (saveCache d) then (RsSkipped, d)
  else if negb (available d) then (RsSkipped, d)
  else
    let '(st, c) := InternalDnsCache.stats (cache d) in
    let d := mkDevice c (vol d) (storedMd5 d) (saveCache d) (persist d) (jobs d) (restarted d) (errorLog d) in
    if InternalDnsCache.sEntries st =? 0 then (RsNothingToSave, d)
    else
      let d := set_owed true d in
      if busy (persist d) then (RsBusy, d)
      else
        let '(ok, d) := startPersistJob true false created t1 t2 d in
        (if ok then RsOk else RsFailed, d).

(** [waitForPersistJob]: [look n] is what the [n]-th look finds - busy, done, total. *)
Fixpoint waitLoop (fuel : nat) (look : nat → bool * Z * Z) (n : nat) (stalledMs stallMs : Z) : run bool :=
  match fuel with
  | O => OutOfFuel
  | S fuel' =>
      let '(b, dn, tl) := look n in
      if negb b then mret true
      else
        let '(b', dn', tl') := look (S n) in
        let stalledMs := if negb (dn' =? dn) || negb (tl' =? tl) then 0 else u32 (stalledMs + kStepMs) in
        if stallMs <=? stalledMs then mret false else waitLoop fuel' look (S n) stalledMs stallMs
  end.

(** What the page is told of the boot: the load is started when there is a file. *)
Definition startRestore (created : bool) (t1 t2 : Z) (d : Device) : bool * Device :=
  if available d && CachePersist.fiExists (fileInfo d) then startPersistJob false false created t1 t2 d
  else (false, d).

(** The autosave's write ([CacheAutosave::saveNow]): straight to the file. *)
Definition autosaveNow (tr : Try) (d : Device) : run (bool * Device) :=
  sv ← CachePersist.saveToFile kCacheDatPath (tIo tr) (tNow tr) (tNow2 tr) (tArena tr) (tTorn tr)
         (cache d) (vol d);
  mret (CachePersist.svOk sv,
        mkDevice (cache d) (CachePersist.svVol sv) (storedMd5 d) (saveCache d) (persist d) (jobs d)
          (restarted d) (errorLog d)).

(** ** What the job leaves *)

Lemma saveToFile_done path io now now2 at_ torn c cap M v : CacheSpec.Refines c cap M →
  ∃ sv, CachePersist.saveToFile path io now now2 at_ torn c v = Done sv.
Proof.
  intros (p & Ha & (chains & free & Hh) & _). unfold CachePersist.saveToFile.
  destruct (bool_decide (path = [])); [by eexists|]. rewrite Ha.
  rewrite (CachePersist.snapshot_spec _ _ _ _ _ _ Hh), run_bind_done.
  repeat case_match; eauto.
Qed.

(** The file an attempt leaves of a cache: every record the loop writes - the arena read
    again for each -, and their number, unless the seek back to the header failed. *)
Definition savedBy (t : Try) (c : InternalDnsCache.Cache) (f : bytes) (w : Z) : Prop :=
  ∃ p snap k body, InternalDnsCache.arena c = Some p ∧
    CachePersist.snapshot (InternalDnsCache.ignoreTtl c) (tNow t) p = Done snap ∧
    CachePersist.saveLoop CachePersist.allGood (InternalDnsCache.ignoreTtl c) (tNow2 t) (tArena t) snap 0 1 =
      Some (k, body, w) ∧
    f = CacheFileReader.header 3 (if CachePersist.seeks (tIo t) then w else 0) ++ body.

Lemma saveToFile_file t c v sv :
  CachePersist.saveToFile kCacheDatPath (tIo t) (tNow t) (tNow2 t) (tArena t) (tTorn t) c v = Done sv →
  CachePersist.svOk sv = true →
  CachePersist.svNothing sv = false ∧
  ∃ f, CachePersist.svVol sv !! kCacheDatPath = Some f ∧ savedBy t c f (CachePersist.svWritten sv).
Proof.
  intros E Hok. destruct (CachePersist.saveToFile_published _ _ _ _ _ _ _ _ _ E Hok) as (Hn & p & snap & k & body & H).
  split; [exact Hn|]. destruct H as (H1 & H2 & H3 & H4). eexists. split; [exact H4|]. by exists p, snap, k, body.
Qed.

Section Kept.
Context (tries : nat → Try) (readError : nat → bool) (c : InternalDnsCache.Cache) (cap : nat).
Context (M : gmap DnsPool.key InternalDnsCache.Rec) (HR : CacheSpec.Refines c cap M).

(** One attempt always ends, and says what it left. *)
Lemma attempt_outcome verify n w : ∃ r why w', attempt tries verify c n (Done w) = (r, why, Done w') ∧
  (wNothing w' = true → r = AtOk) ∧
  (r = AtOk → wNothing w' = false → ∃ f, wVol w' !! kCacheDatPath = Some f ∧
     savedBy (tries n) c f (wWritten w') ∧
     (verify = true → CacheFileReader.ok (CacheFileReader.check kCacheDatPath (Some f) (wWritten w')) = true)).
Proof.
  unfold attempt. rewrite run_bind_done. set (t := tries n).
  destruct (saveToFile_done kCacheDatPath (tIo t) (tNow t) (tNow2 t) (tArena t) (tTorn t) c cap M (wVol w) HR)
    as [sv E]. rewrite E. pose proof (saveToFile_file t _ _ _ E) as Hf.
  destruct (CachePersist.svOk sv); cbn [negb].
  - destruct (Hf eq_refl) as (Hn & f & Hf' & Hby). destruct verify; cbn [negb].
    + cbn [wVol wWritten]. rewrite Hf'.
      destruct (CacheFileReader.ok (CacheFileReader.check kCacheDatPath (Some f) (CachePersist.svWritten sv))) eqn:Eok;
        cbn [negb]; eexists _, _, _; (split; [reflexivity|]); cbn [wNothing wVol wWritten]; (split; [congruence|]).
      * intros _ _. by exists f.
      * done.
    + eexists _, _, _. split; [reflexivity|]. cbn [wNothing wVol wWritten]. split; [done|]. intros _ _. by exists f.
  - destruct (CachePersist.svNothing sv) eqn:En; eexists _, _, _; (split; [reflexivity|]); cbn [wNothing]; rewrite ?En; done.
Qed.

End Kept.

Lemma file_digest f readError : (∀ i, readError i = false) →
  Md5.file kCacheDatPath (Some f) readError = Done (Md5.rfc1321 f, []).
Proof.
  intros He. unfold Md5.file. rewrite bool_decide_false by done.
  destruct (Md5.fileLoop_total (S (length f / Md5.kFileChunk)) 0 readError f Md5.reset [] [] Md5.reset_represents)
    as (m&w&t&E&H&Ef); [unfold Md5.kFileChunk; nat_mod|done|].
  rewrite E, run_bind_done, (Md5.hex_represents _ _ _ H), Ef. done.
Qed.

Lemma fileInfo_exists d : CachePersist.fiExists (fileInfo d) = bool_decide (is_Some (vol d !! kCacheDatPath)).
Proof.
  unfold fileInfo, CachePersist.fileInfo. rewrite bool_decide_false by done.
  destruct (vol d !! kCacheDatPath) as [f|]; [|done]. rewrite bool_decide_true by done. by case_match.
Qed.

Lemma check_match d f readError : vol d !! kCacheDatPath = Some f → (∀ i, readError i = false) →
  checkCacheFileMd5 readError d = Done (mkMd5 true (negb (bool_decide (storedMd5 d = [])))
    (negb (bool_decide (storedMd5 d = [])) && bytes_eqb (Md5.rfc1321 f) (storedMd5 d)) true (Md5.rfc1321 f)).
Proof.
  intros Hf He. unfold checkCacheFileMd5. rewrite fileInfo_exists, Hf, bool_decide_true by done. cbn [negb].
  rewrite file_digest by done. rewrite run_bind_done. cbn [fst].
  by rewrite bool_decide_false by apply Md5.rfc1321_nonempty.
Qed.


(** The outcome and the work of the attempts a save makes: what an "ok" stands for. *)
Lemma attempts_outcome tries c cap M (verify : bool) w0 : CacheSpec.Refines c cap M →
  ∃ o why reports w,
    (if verify then
       let '(o, reports, st) := RestartSaveVerify.run (Some (attempt tries true c)) (Done w0) in
       (o, [], concat ((λ x, reportCacheVerify x.1.1 x.1.2 x.2) <$> reports), st)
     else
       let '(r, why, st) := attempt tries false c 1 (Done w0) in
       (if bool_decide (r = AtOk) then OutOk else OutFailed, why, [], st)) = (o, why, reports, Done w) ∧
    (verify = true → why = []) ∧
    (wNothing w = false → o = OutOk → ∃ f n, wVol w !! kCacheDatPath = Some f ∧
       (n = 1%nat ∨ n = 2%nat) ∧ savedBy (tries n) c f (wWritten w) ∧
       (verify = true → CacheFileReader.ok (CacheFileReader.check kCacheDatPath (Some f) (wWritten w)) = true)).
Proof.
  intros HR. destruct verify.
  - pose proof (run_cases (Some (attempt tries true c)) (Done w0)) as Hr. cbv beta iota in Hr.
    destruct (attempt_outcome tries c cap M HR true 1 w0) as (r1&w1&s1&E1&_&Hf1).
    destruct (attempt_outcome tries c cap M HR true 2 s1) as (r2&w2&s2&E2&_&Hf2).
    rewrite E1, E2 in Hr. rewrite Hr. case_bool_decide as H1.
    + eexists _, _, _, s1. split; [reflexivity|]. split; [done|]. intros Hn _. destruct (Hf1 H1 Hn) as (f & H). exists f, 1%nat. naive_solver.
    + eexists _, _, _, s2. split; [reflexivity|]. split; [done|]. intros Hn Ho.
      destruct (Hf2 ltac:(by destruct r2) Hn) as (f & H). exists f, 2%nat. naive_solver.
  - destruct (attempt_outcome tries c cap M HR false 1 w0) as (r1&w1&s1&E1&_&Hf1). rewrite E1.
    eexists _, _, _, s1. split; [reflexivity|]. split; [done|]. intros Hn Ho.
    case_bool_decide as H1; [|done]. destruct (Hf1 H1 Hn) as (f & H). exists f, 1%nat. naive_solver.
Qed.



(** A device that holds one record, ready to save. *)
Definition demoDevice (c : InternalDnsCache.Cache) (owed : bool) : Device :=
  mkDevice c ∅ [] true (mkPersist true true false PrNone 0 0 owed false false []) JobRegistry.initial 0 [].

Definition goodTry (c : InternalDnsCache.Cache) : Try :=
  mkTry CachePersist.allGood 5000 6000
    (λ _, DnsPool.nodes (default (DnsPool.mkPool [] [] (-1) 0) (InternalDnsCache.arena c))) [].


(** The page's reason for a verified save that failed is always empty. *)
Lemma verified_failure_unexplained tries readError t cap M d d' : CacheSpec.Refines (cache d) cap M →
  verifyOwed (persist d) = true → saveTask tries readError t d = Done d' →
  (result (persist d') = PrMismatch ∨ result (persist d') = PrFailed) → detail (persist d') = [].
Proof.
  intros HR Hv. unfold saveTask. cbv zeta. change (cache (set_owed false d)) with (cache d).
  change (vol (set_owed false d)) with (vol d). rewrite Hv.
  destruct (attempts_outcome tries (cache d) cap M true (mkWork (vol d) 0 false) HR)
    as (o & why & reports & w & E & Hw & _). rewrite E. cbn iota. rewrite run_bind_done, (Hw eq_refl).
  destruct (wNothing w); [by intros [= <-] []|]. destruct o; [|by intros [= <-]..].
  destruct (Md5.file _ _ _) as [h| |]; [rewrite run_bind_done|done|done]. by intros [= <-] [].
Qed.

Lemma load_refused pton4 pton6 ntop4 ntop6 readError renames clock t d f :
  (∀ i, readError i = false) → force (persist d) = false →
  vol d !! kCacheDatPath = Some f → Md5.rfc1321 f ≠ storedMd5 d →
  ∃ d', loadTask pton4 pton6 ntop4 ntop6 readError renames clock t d = Done d' ∧
    cache d' = cache d ∧ vol d' = vol d ∧ result (persist d') = PrFailed ∧ busy (persist d') = false.
Proof.
  intros He Hfo Hf Hne. unfold loadTask. cbv zeta. change (force (persist (set_owed false d))) with (force (persist d)).
  rewrite Hfo, (check_match (set_owed false d) f), run_bind_done by done.
  change (storedMd5 (set_owed false d)) with (storedMd5 d). cbn [match_].
  assert (bytes_eqb (Md5.rfc1321 f) (storedMd5 d) = false) as -> by by apply bytes_eqb_neq.
  rewrite andb_false_r. eexists. by split_and!.
Qed.

(** A load that is not forced never takes a file whose checksum is not the one
    the device stored - or any file when it stored none: the job ends, and cache and
    volume are as before. *)
Theorem foreign_file_refused pton4 pton6 ntop4 ntop6 readError renames clock t d f :
  (∀ i, readError i = false) → force (persist d) = false →
  vol d !! kCacheDatPath = Some f → Md5.rfc1321 f ≠ storedMd5 d →
  ∃ d', loadTask pton4 pton6 ntop4 ntop6 readError renames clock t d = Done d' ∧
    cache d' = cache d ∧ vol d' = vol d ∧ result (persist d') = PrFailed ∧ busy (persist d') = false.
Proof. apply load_refused. Qed.

Lemma foreign_file_refused_witness :
  let d := mkDevice CacheSpec.small {[ kCacheDatPath := lit "x" ]} (lit "0123") true idle JobRegistry.initial 0 [] in
  ∃ d', loadTask CachePersist.toyPton4 CachePersist.toy16 CachePersist.toyNtop4 CachePersist.toy16
      (λ _, false) true (λ _, (0, 0)) 0 d = Done d' ∧
    cache d' = cache d ∧ vol d' = vol d ∧ result (persist d') = PrFailed ∧ busy (persist d') = false.
Proof.
  cbv zeta. apply (foreign_file_refused _ _ _ _ _ _ _ _ _ (lit "x")); [done|reflexivity|reflexivity|].
  intros E. apply (f_equal length) in E. rewrite Md5.rfc1321_length in E. discriminate.
Defined.

(** The autosave writes the file and not its checksum: unless the bytes hash
    to the checksum of an earlier save, the file it wrote is refused by the next start. *)
Theorem autosave_not_restored pton4 pton6 ntop4 ntop6 readError renames clock t tr cap M d : 
  CacheSpec.Refines (cache d) cap M → (∀ i, readError i = false) →
  ∃ ok d1, autosaveNow tr d = Done (ok, d1) ∧ storedMd5 d1 = storedMd5 d ∧
    (ok = true → ∃ f, vol d1 !! kCacheDatPath = Some f ∧
      (Md5.rfc1321 f ≠ storedMd5 d →
       ∀ next, vol next = vol d1 → storedMd5 next = storedMd5 d → force (persist next) = false →
       ∃ next', loadTask pton4 pton6 ntop4 ntop6 readError renames clock t next = Done next' ∧
         cache next' = cache next ∧ result (persist next') = PrFailed)).
Proof.
  intros HR He. unfold autosaveNow.
  destruct (saveToFile_done kCacheDatPath (tIo tr) (tNow tr) (tNow2 tr) (tArena tr) (tTorn tr) _ cap M (vol d) HR)
    as [sv E]. rewrite E, run_bind_done. eexists _, _. do 2 (split; [reflexivity|]). intros Hok.
  destruct (saveToFile_file tr _ _ _ E Hok) as (_ & f & Hf & _). exists f. split; [exact Hf|].
  intros Hne next Hv Hs Hfo. cbn [vol] in Hv.
  destruct (load_refused pton4 pton6 ntop4 ntop6 readError renames clock t next f) as (n'&E'&Hc&_&Hr&_);
    [done|done|by rewrite Hv|by rewrite Hs|]. by exists n'.
Qed.

Lemma autosave_not_restored_witness : ∃ c, CacheSpec.Refines c 2 {[ (lit "a.lan", 1) := CachePersist.oneRec ]} ∧
  ∃ ok d1, autosaveNow (goodTry c) (demoDevice c false) = Done (ok, d1) ∧ storedMd5 d1 = [].
Proof.
  destruct CachePersist.one_refines as (c & _ & _ & HR). exists c. split; [exact HR|].
  destruct (autosave_not_restored CachePersist.toyPton4 CachePersist.toy16 CachePersist.toyNtop4 CachePersist.toy16
    (λ _, false) true (λ _, (0, 0)) 0 (goodTry c) 2 _ (demoDevice c false) HR (λ _, eq_refl)) as (ok & d1 & H1 & H2 & _).
  exists ok, d1. split; [exact H1|exact H2].
Defined.

(** The whole story on a concrete device: a record is saved by the job, a second one
    arrives, the autosave writes both, the power goes - and the start refuses the file. *)
Example autosaved_cache_lost :
  (c ← InternalDnsCache.store CachePersist.toyPton4 CachePersist.toy16 (lit "a.lan") 1 [[7]] 60 1000 0 CacheSpec.small;
   d ← saveTask (λ _, goodTry c) (λ _, false) 7 (demoDevice c false);
   c2 ← InternalDnsCache.store CachePersist.toyPton4 CachePersist.toy16 (lit "b.lan") 1 [[8]] 60 1000 0 c;
   r ← autosaveNow (goodTry c2) (mkDevice c2 (vol d) (storedMd5 d) true (persist d) (jobs d) 0 []);
   let next := mkDevice CacheSpec.small (vol r.2) (storedMd5 r.2) true idle JobRegistry.initial 0 [] in
   n ← loadTask CachePersist.toyPton4 CachePersist.toy16 CachePersist.toyNtop4 CachePersist.toy16
         (λ _, false) true (λ _, (10, 0)) 0 (startRestore true 0 0 next).2;
   mret (r.1, (startRestore true 0 0 next).1, result (persist n),
         InternalDnsCache.sEntries (InternalDnsCache.stats (cache n)).1))
  = Done (true, true, PrFailed, 0).
Proof. vm_compute. reflexivity. Qed.

(** A crash between the two directory operations of a publish leaves the new
    file in the part; [recover] would publish it, but neither the start nor the page's
    load gets that far: both look for the file first. *)
Theorem crashed_publish_not_loaded forced created t1 t2 d f :
  vol d !! kCacheDatPath = None → vol d !! AtomicFile.partPath kCacheDatPath = Some f →
  startRestore created t1 t2 d = (false, d) ∧
  startPersistJob false forced created t1 t2 d = (false, d) ∧
  AtomicFile.recover true kCacheDatPath (vol d) !! kCacheDatPath = Some f.
Proof.
  intros Hp Hpart. assert (Hi : CachePersist.fiExists (fileInfo d) = false).
  { rewrite fileInfo_exists, Hp. apply bool_decide_eq_false. by intros []. }
  split; [|split].
  - unfold startRestore. by rewrite Hi, andb_false_r.
  - unfold startPersistJob, claim. rewrite Hi. cbn [negb andb]. by destruct (available d).
  - rewrite (AtomicFile.recover_part _ _ _ Hp Hpart). apply lookup_insert_eq.
Qed.

Lemma crashed_publish_not_loaded_witness :
  let torn : AtomicFile.Vol := {[ AtomicFile.partPath kCacheDatPath := [2] ]} in
  let d := mkDevice CacheSpec.small torn [] true idle JobRegistry.initial 0 [] in
  startRestore true 0 0 d = (false, d) ∧ startPersistJob false true true 0 0 d = (false, d) ∧
  AtomicFile.recover true kCacheDatPath (vol d) !! kCacheDatPath = Some [2].
Proof. cbv zeta. apply crashed_publish_not_loaded; vm_compute; reflexivity. Defined.

(** A restart that finds a save running leaves its request for the check, but a job looks
    for it only when it starts: the file is not read back, and the request stays for
    whatever save comes next. *)
Example running_save_not_checked :
  let d := mkDevice (default CacheSpec.small (match InternalDnsCache.store CachePersist.toyPton4 CachePersist.toy16
             (lit "a.lan") 1 [[7]] 60 1000 0 CacheSpec.small with Done c => Some c | _ => None end))
             ∅ [] true idle JobRegistry.initial 0 [] in
  let running := set_owed false (startPersistJob true false true 0 0 d).2 in
  let '(answer, asked) := startCacheSaveForRestart true 0 0 running in
  let ended := endJob true false PrOk [] 9 asked in
  answer = RsBusy ∧ checked (persist ended) = false ∧ verifyOwed (persist ended) = true.
Proof. vm_compute. auto. Qed.

(** The operation is announced after its task was created: a task that ends first leaves
    a record that runs for ever. *)
Example announced_too_late :
  let d := mkDevice CacheSpec.small ∅ [] true idle JobRegistry.initial 0 [] in
  let '(ok, d) := claim true false true d in
  let d := endJob false false PrEmpty [] 5 d in
  let d := announce true 6 6 d in
  ok = true ∧ busy (persist d) = false ∧ JobRegistry.contains (lit "cache_save") (jobs d) = true.
Proof. vm_compute. auto. Qed.

End CacheJob.
