(* ===== verification/Autosave.v ===== *)
(** * The timers of the built-in cache

    src/core/AutosavePeriod.h and AutoUpdatePlan.h: periods and bounds.
    src/dns/CacheAutosave.cpp, StatsAutosave.cpp: a countdown and a write when it ends. *)
From stdpp Require Import gmap.
From S2P Require Import Prelude TimeMath DnsPool InternalDnsCache CacheSpec AtomicFile CachePersist.
From S2P Require Import JobRegistry CacheJob.
#[local] Open Scope Z_scope.

Module AutosavePeriod.

Inductive Period := Hour | Day | Minute.

Definition kAutosavePeriodCount : Z := 3.
Definition kSecondsPerMinute : Z := 60.
Definition kSecondsPerHour : Z := 60 * kSecondsPerMinute.
Definition kSecondsPerDay : Z := 24 * kSecondsPerHour.
Definition kAutosaveIntervalMin : Z := 1.
Definition kMinutesPerHour : Z := 60.
Definition kHoursPerDay : Z := 24.
Definition kDaysPerMonthFallback : Z := 31.
Definition kDaysPerMonthMin : Z := 28.

Definition autosaveIntervalMax (u : Period) (daysInMonth : Z) : Z :=
  match u with
  | Minute => kMinutesPerHour
  | Day => if (kDaysPerMonthMin <=? daysInMonth) && (daysInMonth <=? kDaysPerMonthFallback)
           then daysInMonth else kDaysPerMonthFallback
  | Hour => kHoursPerDay
  end.

Definition autosaveClampInterval (u : Period) (interval daysInMonth : Z) : Z :=
  let max := autosaveIntervalMax u daysInMonth in
  if interval <? kAutosaveIntervalMin then kAutosaveIntervalMin
  else if max <? interval then max else interval.

Definition autosavePeriodSec (u : Period) (interval : Z) : Z :=
  match u with
  | Minute => u32 (interval * kSecondsPerMinute)
  | Day => u32 (interval * kSecondsPerDay)
  | Hour => u32 (interval * kSecondsPerHour)
  end.

Definition autosavePeriodFromIndex (index : Z) : Period :=
  if index =? 0 then Hour else if index =? 1 then Day else if index =? 2 then Minute else Hour.

(** One unit in seconds. *)
Definition unitSec (u : Period) : Z :=
  match u with Minute => kSecondsPerMinute | Day => kSecondsPerDay | Hour => kSecondsPerHour end.

Lemma clamp_range u i d : 1 <= autosaveClampInterval u i d <= autosaveIntervalMax u d.
Proof.
  unfold autosaveClampInterval, autosaveIntervalMax, kAutosaveIntervalMin, kMinutesPerHour, kHoursPerDay,
    kDaysPerMonthMin, kDaysPerMonthFallback.
  destruct u; repeat case_match; lia.
Qed.

Lemma intervalMax_le u d : autosaveIntervalMax u d <= 60.
Proof.
  unfold autosaveIntervalMax, kMinutesPerHour, kHoursPerDay, kDaysPerMonthMin, kDaysPerMonthFallback.
  destruct u; repeat case_match; lia.
Qed.

(** A period that is set is between a unit and its maximum, nothing wraps. *)
Lemma period_range u i d :
  let c := autosaveClampInterval u i d in
  autosavePeriodSec u c = c * unitSec u ∧ 60 <= autosavePeriodSec u c <= 31 * kSecondsPerDay.
Proof.
  cbv zeta. pose proof (clamp_range u i d) as H. set (c := autosaveClampInterval u i d) in *.
  unfold autosavePeriodSec, unitSec, kSecondsPerDay, kSecondsPerHour, kSecondsPerMinute, autosaveIntervalMax,
    kMinutesPerHour, kHoursPerDay, kDaysPerMonthMin, kDaysPerMonthFallback in *.
  destruct u; repeat case_match; rewrite u32_small by word_lia; lia.
Qed.

End AutosavePeriod.

Module AutoUpdatePlan.
Import AutosavePeriod.

Definition kAutoUpdateBatchMin : Z := 1.
Definition kAutoUpdateBatchMax : Z := 1000.
Definition kAutoUpdatePauseMinSec : Z := 1.
Definition kAutoUpdatePauseMaxSec : Z := 3600.
Definition kAutoUpdateDaysMax : Z := 30.

Definition autoUpdateIntervalMax (u : Period) : Z :=
  match u with Day => kAutoUpdateDaysMax | _ => kHoursPerDay end.

Definition autoUpdateClampInterval (u : Period) (interval : Z) : Z :=
  if interval <? kAutosaveIntervalMin then kAutosaveIntervalMin
  else let max := autoUpdateIntervalMax u in if max <? interval then max else interval.

Definition autoUpdateClampBatch (v : Z) : Z :=
  if v <? kAutoUpdateBatchMin then kAutoUpdateBatchMin
  else if kAutoUpdateBatchMax <? v then kAutoUpdateBatchMax else u16 v.

Definition autoUpdateClampPause (v : Z) : Z :=
  if v <? kAutoUpdatePauseMinSec then kAutoUpdatePauseMinSec
  else if kAutoUpdatePauseMaxSec <? v then kAutoUpdatePauseMaxSec else u16 v.

Definition autoUpdateReArmNeeded (wasEnabled : bool) (oldPeriodSec newPeriodSec : Z) : bool :=
  negb wasEnabled || negb (oldPeriodSec =? newPeriodSec).

Inductive RunNowRefusal := RnNone | NotEnabled | IgnoreTtlOff | Unavailable | AlreadyRunning.

Definition autoUpdateRunNowRefusal (enabled ignoreTtl cacheAvailable running : bool) : RunNowRefusal :=
  if negb enabled then NotEnabled
  else if negb ignoreTtl then IgnoreTtlOff
  else if negb cacheAvailable then Unavailable
  else if running then AlreadyRunning
  else RnNone.

Definition autoUpdateBlockCount (records batch : Z) : Z :=
  if (records =? 0) || (batch =? 0) then 0 else u32 (records + batch - 1) / batch.

Definition autoUpdatePauseAfterBlock (blockIndex blockCount : Z) : bool := u32 (blockIndex + 1) <? blockCount.

(** The blocks cover the records, and the last one is not empty. *)
Lemma blockCount_covers records batch : 0 < records → 0 < batch → records + batch < 2 ^ 32 →
  let b := autoUpdateBlockCount records batch in
  (b - 1) * batch < records <= b * batch.
Proof.
  intros H1 H2 H3. cbv zeta. unfold autoUpdateBlockCount.
  rewrite (proj2 (Z.eqb_neq records 0)), (proj2 (Z.eqb_neq batch 0)) by lia. cbn [orb].
  rewrite u32_small by word_lia.
  pose proof (Z.div_mod (records + batch - 1) batch ltac:(lia)).
  pose proof (Z.mod_pos_bound (records + batch - 1) batch ltac:(lia)). nia.
Qed.

End AutoUpdatePlan.

(** ** The countdown of an autosave *)

Module Timer.
Import AutosavePeriod.

Definition kClockSetSinceEpoch : Z := 1577836800.

Record Timer := mkTimer {
  enabled : bool;
  unit_ : Period;
  interval : Z;
  periodSec : Z;
  remainingSec : Z;
  restartRequested : bool;
  running : bool;
  wasSet : bool;
}.

Definition off : Timer := mkTimer false Hour 1 0 0 false false true.

Definition clockIsSet (now : Z) : bool := kClockSetSinceEpoch <=? now.

Definition currentMonthDays (now : Z) : Z :=
  if negb (clockIsSet now) then 0
  else let '(y, m, _) := TimeMath.civilFromDays (now / kSecondsPerDay) in u16 (TimeMath.daysInMonth y m).

Definition effectivePeriodSec (now : Z) (t : Timer) : Z :=
  autosavePeriodSec (unit_ t) (autosaveClampInterval (unit_ t) (interval t) (currentMonthDays now)).

Definition rearm (now : Z) (t : Timer) : Timer :=
  let p := effectivePeriodSec now t in
  mkTimer (enabled t) (unit_ t) (interval t) p p (restartRequested t) (running t) (wasSet t).

(** [created] is whether the task can be made, should it be needed; a new task starts
    with [wasSet] true. *)
Definition configure (on : bool) (u : Period) (i now : Z) (created : bool) (t : Timer) : Timer :=
  let t := mkTimer (enabled t) u i (periodSec t) (remainingSec t) (restartRequested t) (running t) (wasSet t) in
  if negb on then mkTimer false u i (periodSec t) (remainingSec t) (restartRequested t) (running t) (wasSet t)
  else
    let t := rearm now t in
    if running t then mkTimer true u i (periodSec t) (remainingSec t) true true (wasSet t)
    else if created then mkTimer true u i (periodSec t) (remainingSec t) true true true
    else mkTimer false u i (periodSec t) (remainingSec t) true false (wasSet t).

Definition notifyManualSave (now : Z) (t : Timer) : Timer := if enabled t then rearm now t else t.

(** Enabled, counting, seconds left, period. *)
Definition status (now : Z) (t : Timer) : bool * bool * Z * Z :=
  (enabled t, enabled t && clockIsSet now, remainingSec t, periodSec t).

(** One turn of the task, after its second of sleep: whether the write is due; the
    countdown is armed again after it, at [now]. *)
Definition tick (now : Z) (t : Timer) : bool * Timer :=
  if negb (enabled t) then
    (false, mkTimer (enabled t) (unit_ t) (interval t) (periodSec t) (remainingSec t) (restartRequested t) false (wasSet t))
  else if negb (clockIsSet now) then
    (false, mkTimer (enabled t) (unit_ t) (interval t) (periodSec t) (remainingSec t) (restartRequested t) (running t) false)
  else
    let t := if wasSet t then t
             else rearm now (mkTimer (enabled t) (unit_ t) (interval t) (periodSec t) (remainingSec t)
                               (restartRequested t) (running t) true) in
    if restartRequested t then
      (false, rearm now (mkTimer (enabled t) (unit_ t) (interval t) (periodSec t) (remainingSec t) false
                           (running t) (wasSet t)))
    else if 0 <? remainingSec t then
      (false, mkTimer (enabled t) (unit_ t) (interval t) (periodSec t) (u32 (remainingSec t - 1))
                (restartRequested t) (running t) (wasSet t))
    else (true, rearm now t).

Fixpoint ticks (clock : nat → Z) (n i : nat) (t : Timer) : list bool * Timer :=
  match n with
  | O => ([], t)
  | S n' =>
      let '(due, t) := tick (clock i) t in
      let '(l, t) := ticks clock n' (S i) t in (due :: l, t)
  end.

(** A task that counts: enabled, nothing pending, the clock seen. *)
Definition counting (t : Timer) : Prop :=
  enabled t = true ∧ running t = true ∧ restartRequested t = false ∧ wasSet t = true.

Lemma effective_range now t : 60 <= effectivePeriodSec now t <= 31 * kSecondsPerDay.
Proof. apply period_range. Qed.

Lemma countdown_runs n : ∀ clock i t r, counting t → (∀ j, clockIsSet (clock j) = true) →
  is_u32 r → remainingSec t = r → (n <= Z.to_nat r)%nat →
  ticks clock n i t = (replicate n false,
    mkTimer true (unit_ t) (interval t) (periodSec t) (r - Z.of_nat n) false true true).
Proof.
  induction n as [|n IH]; intros clock i t r (He&Hr&Hq&Hw) Hc Hu Hrem Hn.
  { cbn. destruct t; cbn in *. subst. do 2 f_equal. lia. }
  cbn [ticks replicate]. unfold tick. rewrite He, Hc, Hw, Hq. cbn [negb].
  rewrite Hrem. destruct (Z.ltb_spec 0 r); [|word_lia]. rewrite u32_small by word_lia.
  rewrite (IH clock (S i) _ (r - 1)); [|by repeat split|done|word_lia|done|lia].
  cbn [unit_ interval periodSec]. by replace (r - 1 - Z.of_nat n) with (r - Z.of_nat (S n)) by lia.
Qed.

(** With the clock set and the month's length not changing, a countdown that
    has just been armed makes exactly one write in every [period + 1] turns of the
    task, in the last of them, and is then armed as before: the write is due neither
    early nor never. *)
Theorem one_write_per_period clock t P : counting t → remainingSec t = P → periodSec t = P →
  (∀ j, clockIsSet (clock j) = true ∧ effectivePeriodSec (clock j) t = P) →
  ticks clock (S (Z.to_nat P)) 0 t = (replicate (Z.to_nat P) false ++ [true], t).
Proof.
  intros Ht Hr Hp Hc. pose proof (effective_range (clock 0%nat) t) as HP. rewrite (proj2 (Hc 0%nat)) in HP.
  assert (Hu : is_u32 P) by (unfold kSecondsPerDay, kSecondsPerHour, kSecondsPerMinute in HP; word_lia).
  assert (Hgo : ∀ n m i x, ticks clock (n + m) i x =
    let '(l1, y) := ticks clock n i x in let '(l2, z) := ticks clock m (n + i) y in (l1 ++ l2, z)).
  { clear. induction n as [|n IH]; intros m i x; cbn [Nat.add ticks]; [by destruct (ticks clock m i x)|].
    destruct (tick (clock i) x) as [d y]. rewrite IH. destruct (ticks clock n (S i) y) as [l1 z].
    rewrite Nat.add_succ_r. destruct (ticks clock m (S (n + i)) z) as [l2 w]. done. }
  replace (S (Z.to_nat P)) with (Z.to_nat P + 1)%nat by lia. rewrite Hgo.
  rewrite (countdown_runs (Z.to_nat P) clock 0 t P) by (done || intros; apply Hc).
  cbn [ticks]. unfold tick. cbn [enabled wasSet restartRequested remainingSec negb].
  rewrite (proj1 (Hc _)). cbn [negb]. rewrite Z2Nat.id, Z.sub_diag by word_lia. cbn [Z.ltb Z.compare].
  unfold rearm. cbn [enabled unit_ interval restartRequested running wasSet].
  assert (He : ∀ r, effectivePeriodSec (clock (Z.to_nat P + 0)%nat)
    (mkTimer true (unit_ t) (interval t) (periodSec t) r false true true) = P).
  { intros r. exact (proj2 (Hc (Z.to_nat P + 0)%nat)). }
  rewrite He. destruct t, Ht as (?&?&?&?); cbn in *; by subst.
Qed.

Lemma one_write_per_period_witness :
  let t := mkTimer true Minute 1 60 60 false true true in
  ticks (λ i, kClockSetSinceEpoch + Z.of_nat i) 61 0 t = (replicate 60 false ++ [true], t).
Proof.
  cbv zeta. apply (one_write_per_period (λ i, kClockSetSinceEpoch + Z.of_nat i) (mkTimer true Minute 1 60 60 false true true) 60).
  - by repeat split.
  - reflexivity.
  - reflexivity.
  - intros j. split; [|reflexivity]. unfold clockIsSet. apply Z.leb_le. lia.
Defined.

(** Nothing is written while the switch is off or the clock is not set, and a write made
    by hand puts the next one a whole period away. *)
Lemma no_write now t : enabled t = false ∨ clockIsSet now = false → (tick now t).1 = false.
Proof. intros [H|H]; unfold tick; rewrite H; [done|]. by destruct (enabled t). Qed.

Lemma manual_save_restarts now t : enabled t = true →
  remainingSec (notifyManualSave now t) = effectivePeriodSec now t.
Proof. intros H. unfold notifyManualSave. by rewrite H. Qed.

End Timer.

(** ** The write of the autosave and the stop button *)

Module CacheAutosave.

Definition kJobId : bytes := lit "cache_autosave".
Definition kJobTitleKey : bytes := lit "jobs.cache_autosave".

(** [presses] is whether the operator asks for a stop while the write runs. [enabled] is
    the switch after it, [switchedOff] whether the settings were changed. *)
Definition saveNow (tr : CacheJob.Try) (presses : bool) (t1 t2 t3 : Z) (enabled : bool) (d : CacheJob.Device)
  : run (bool * bool * CacheJob.Device) :=
  if negb (CacheJob.available d) then mret (enabled, false, d)
  else
    let '(ok, r, _) := JobRegistry.begin_ kJobId kJobTitleKey CacheJob.kCacheDatPath 0 JobRegistry.UnitRecords 0
                         t1 t2 (CacheJob.jobs d) in
    let d := CacheJob.set_jobs r d in
    if negb ok then mret (enabled, false, d)
    else
      sv ← CacheJob.autosaveNow tr d;
      let '(saved, d) := sv in
      let r := if presses then (JobRegistry.requestCancel kJobId (CacheJob.jobs d)).2 else CacheJob.jobs d in
      let r := (JobRegistry.finish kJobId (if saved : bool then JobRegistry.Done_ else JobRegistry.Failed)
                  (if saved then lit "entries" else lit "write failed") t3 r).1 in
      if JobRegistry.cancelRequested kJobId r then
        mret (false, true,
              CacheJob.set_jobs (JobRegistry.finish kJobId JobRegistry.Cancelled (lit "stopped by the operator") t3 r).1 d)
      else mret (enabled, false, CacheJob.set_jobs r d).

(** After the end of an operation that does not repeat nobody can ask it to stop. *)
Lemma finished_forgets i st step now r : JobRegistry.wf r →
  (∀ s, JobRegistry.lookupJob i (JobRegistry.slots r) = Some s → JobRegistry.repeatSec (JobRegistry.job s) = 0) →
  JobRegistry.cancelRequested i (JobRegistry.finish i st step now r).1 = false.
Proof.
  intros Hw Hrep. pose proof (JobRegistry.finish_wf i st step now r Hw) as Hw'.
  unfold JobRegistry.cancelRequested. destruct (index_of _ (JobRegistry.slots (JobRegistry.finish i st step now r).1)) as [k|] eqn:E; [|done].
  exfalso. apply index_of_Some in E as [(x & Hx & Hid) _]. revert Hx Hid. unfold JobRegistry.finish.
  destruct (index_of (JobRegistry.holdsId i) (JobRegistry.slots r)) as [k0|] eqn:E0; cbn [fst JobRegistry.slots].
  - apply index_of_Some in E0 as [(s0 & Hs0 & Hid0) Hmin].
    rewrite (nth_lookup_Some _ _ JobRegistry.emptySlot _ Hs0).
    assert (Hr0 : JobRegistry.repeatSec (JobRegistry.job s0) = 0).
    { apply Hrep. apply JobRegistry.holdsId_true in Hid0. apply JobRegistry.lookupJob_some; [done|]. naive_solver. }
    change (JobRegistry.repeatSec (JobRegistry.endJob st step (JobRegistry.job s0))) with (JobRegistry.repeatSec (JobRegistry.job s0)).
    rewrite Hr0. cbn [Z.eqb]. intros Hx Hid.
    destruct (decide (k = k0)) as [->|Hne].
    + rewrite list_lookup_insert_eq in Hx by (by eapply lookup_lt_Some). injection Hx as <-. done.
    + rewrite list_lookup_insert_ne in Hx by done. apply JobRegistry.holdsId_true in Hid as [Hu Hi].
      apply JobRegistry.holdsId_true in Hid0 as [Hu0 Hi0]. apply Hne.
      destruct Hw as [_ Huniq]. apply (Huniq k k0 x s0); congruence.
  - intros Hx Hid. pose proof (proj1 (index_of_None _ _) E0 k x Hx). congruence.
Qed.

Lemma begun_once i title argument tot u t1 t2 r r' told : JobRegistry.wf r →
  JobRegistry.begin_ i title argument tot u 0 t1 t2 r = (true, r', told) →
  ∀ s, JobRegistry.lookupJob i (JobRegistry.slots r') = Some s → JobRegistry.repeatSec (JobRegistry.job s) = 0.
Proof.
  intros Hw E. pose proof (JobRegistry.begin_wf i title argument tot u 0 t1 t2 r Hw) as Hw'. rewrite E in Hw'.
  cbn [fst snd] in Hw'. intros s (k & Hk & Hu & Hid)%(JobRegistry.lookupJob_some r'); [|exact Hw'].
  revert E. unfold JobRegistry.begin_. destruct (bool_decide (i = [])); [done|].
  destruct (Nat.leb_spec JobRegistry.kMaxJobs (JobRegistry.slotFor i t1 (JobRegistry.slots r))) as [?|Hlt]; [done|].
  intros [= <- <-]. cbn [JobRegistry.slots] in Hk.
  destruct (decide (k = JobRegistry.slotFor i t1 (JobRegistry.slots r))) as [->|Hne].
  - rewrite list_lookup_insert_eq in Hk by (by rewrite (proj1 Hw)). by injection Hk as <-.
  - exfalso. apply Hne. destruct Hw' as [_ Hq]. eapply Hq; [exact Hk| |exact Hu| |].
    + apply list_lookup_insert_eq. by rewrite (proj1 Hw).
    + done.
    + exact Hid.
Qed.

Lemma cancel_once i r : JobRegistry.wf r →
  (∀ s, JobRegistry.lookupJob i (JobRegistry.slots r) = Some s → JobRegistry.repeatSec (JobRegistry.job s) = 0) →
  ∀ s, JobRegistry.lookupJob i (JobRegistry.slots (JobRegistry.requestCancel i r).2) = Some s →
    JobRegistry.repeatSec (JobRegistry.job s) = 0.
Proof.
  intros Hw Hr s (k & Hk & Hu & Hid)%JobRegistry.lookupJob_some; [|by apply JobRegistry.cancel_wf].
  revert Hk. unfold JobRegistry.requestCancel.
  destruct (index_of (JobRegistry.holdsId i) (JobRegistry.slots r)) as [k0|] eqn:E;
    [|intros Hk; apply Hr, JobRegistry.lookupJob_some; [done|by exists k]].
  apply index_of_Some in E as [(x & Hx & [Hux Hix]%JobRegistry.holdsId_true) _].
  rewrite (nth_lookup_Some _ _ JobRegistry.emptySlot _ Hx).
  assert (Hrx : JobRegistry.repeatSec (JobRegistry.job x) = 0)
    by (apply Hr, JobRegistry.lookupJob_some; [done|by exists k0]).
  destruct (JobRegistry.jstate (JobRegistry.job x)); cbn [snd JobRegistry.slots]; intros Hk;
    (destruct (decide (k = k0)) as [->|Hne]; [|apply Hr, JobRegistry.lookupJob_some; [done|]; exists k;
       rewrite ?list_lookup_insert_ne in Hk by done; done]).
  all: try (rewrite list_lookup_insert_eq in Hk by (by eapply lookup_lt_Some); injection Hk as <-; exact Hrx).
  all: assert (s = x) as -> by congruence; exact Hrx.
Qed.

(** The stop button of the operations page, pressed while the autosave writes, is
    never heard: the operation does not repeat, so its record is gone when the autosave
    looks for the request, and the switch stays on. *)
Theorem stop_never_heard tr presses t1 t2 t3 enabled cap M d : JobRegistry.wf (CacheJob.jobs d) →
  CacheSpec.Refines (CacheJob.cache d) cap M →
  ∃ d', saveNow tr presses t1 t2 t3 enabled d = Done (enabled, false, d').
Proof.
  intros Hw HR. unfold saveNow. destruct (CacheJob.available d); [|by eexists]. cbn [negb].
  destruct (JobRegistry.begin_ _ _ _ _ _ _ _ _ _) as [[ok r] told] eqn:E. destruct ok; [|by eexists]. cbn [negb].
  pose proof (JobRegistry.begin_wf kJobId kJobTitleKey CacheJob.kCacheDatPath 0 JobRegistry.UnitRecords 0 t1 t2 _ Hw) as Hwr.
  pose proof (begun_once _ _ _ _ _ _ _ _ _ _ Hw E) as Honce. rewrite E in Hwr. cbn [fst snd] in Hwr.
  unfold CacheJob.autosaveNow.
  destruct (CacheJob.saveToFile_done CacheJob.kCacheDatPath (CacheJob.tIo tr) (CacheJob.tNow tr) (CacheJob.tNow2 tr)
    (CacheJob.tArena tr) (CacheJob.tTorn tr) _ cap M (CacheJob.vol d) HR) as [sv Es].
  change (CacheJob.cache (CacheJob.set_jobs r d)) with (CacheJob.cache d).
  change (CacheJob.vol (CacheJob.set_jobs r d)) with (CacheJob.vol d). rewrite Es, !run_bind_done.
  cbn [CacheJob.jobs CacheJob.set_jobs].
  rewrite finished_forgets; [by eexists| |].
  - destruct presses; [by apply JobRegistry.cancel_wf|done].
  - destruct presses; [by apply cancel_once|done].
Qed.

Lemma stop_never_heard_witness : ∃ c, CacheSpec.Refines c 2 {[ (lit "a.lan", 1) := CachePersist.oneRec ]} ∧
  ∃ d', saveNow (CacheJob.goodTry c) true 1 1 9 true (CacheJob.demoDevice c false) = Done (true, false, d').
Proof.
  destruct CachePersist.one_refines as (c & _ & _ & HR). exists c. split; [exact HR|].
  apply (stop_never_heard (CacheJob.goodTry c) true 1 1 9 true 2 {[ (lit "a.lan", 1) := CachePersist.oneRec ]}).
  - exact (JobRegistry.noJobs_wf false _ eq_refl).
  - exact HR.
Defined.

End CacheAutosave.
