(* ===== verification/CacheAutoUpdate.v ===== *)
(** * Keeping the built-in cache fresh ([src/dns/CacheAutoUpdate.cpp])

    The sweep that asks the upstream for every record again: blocks with pauses, retries
    of what failed, the stop button; and its countdown. *)
From stdpp Require Import gmap.
From S2P Require Import Prelude DnsPool InternalDnsCache CacheSpec AtomicFile CachePersist.
From S2P Require Import JobRegistry CacheJob Autosave.
#[local] Open Scope Z_scope.

Module CacheAutoUpdate.
Import AutoUpdatePlan.

Definition kJobId : bytes := lit "cache_autoupdate".
Definition kJobTitleKey : bytes := lit "jobs.cache_autoupdate".
Definition kMaxPending : nat := 256.

(** What the sweep meets, by the number of its questions: the answers of the upstream,
    presses of the stop button, the switch, the clocks. *)
Record Outside := mkOutside {
  refresh : nat → bytes → Z → option (list bytes * Z);
  presses : nat → bool;
  enabledAt : nat → bool;
  cacheMs : nat → Z;
  micros : nat → Z;
}.

(** [pending] are the records to retry; [lines] is the log of the sweep: name, type and
    the fresh TTL of a record that was confirmed; [pauses] the seconds announced. *)
Record Sweep := mkSweep {
  cache : InternalDnsCache.Cache;
  pending : list DnsPool.key;
  jobs : JobRegistry.Registry;
  running : bool;
  asked : nat;
  lines : list (DnsPool.key * option Z);
  pauses : list Z;
}.

Definition set_cache (c : InternalDnsCache.Cache) (s : Sweep) : Sweep :=
  mkSweep c (pending s) (jobs s) (running s) (asked s) (lines s) (pauses s).
Definition set_pending (l : list DnsPool.key) (s : Sweep) : Sweep :=
  mkSweep (cache s) l (jobs s) (running s) (asked s) (lines s) (pauses s).
Definition set_jobs (r : JobRegistry.Registry) (s : Sweep) : Sweep :=
  mkSweep (cache s) (pending s) r (running s) (asked s) (lines s) (pauses s).
Definition set_running (b : bool) (s : Sweep) : Sweep :=
  mkSweep (cache s) (pending s) (jobs s) b (asked s) (lines s) (pauses s).
Definition next (s : Sweep) : Sweep :=
  mkSweep (cache s) (pending s) (jobs s) (running s) (S (asked s)) (lines s) (pauses s).
Definition note (k : DnsPool.key) (ttl : option Z) (s : Sweep) : Sweep :=
  mkSweep (cache s) (pending s) (jobs s) (running s) (asked s) (lines s ++ [(k, ttl)]) (pauses s).
Definition notePause (sec : Z) (s : Sweep) : Sweep :=
  mkSweep (cache s) (pending s) (jobs s) (running s) (asked s) (lines s) (pauses s ++ [sec]).

Definition autoUpdateTypeName (q : Z) : bytes :=
  if q =? 1 then lit "A" else if q =? 28 then lit "AAAA" else dec q.

Definition autoUpdateRecordText (name : bytes) (q : Z) (ttl : option Z) : bytes :=
  name ++ lit " " ++ autoUpdateTypeName q ++
  match ttl with
  | None => lit " not confirmed, record kept"
  | Some t => lit " refreshed (ttl " ++ dec t ++ lit " s)"
  end.

Definition isPending (l : list DnsPool.key) (name : bytes) (q : Z) : bool := bool_decide ((name, q) ∈ l).

Definition rememberFailed (k : DnsPool.key) (l : list DnsPool.key) : list DnsPool.key :=
  if isPending l k.1 k.2 then l
  else (if (kMaxPending <=? length l)%nat then tail l else l) ++ [k].

Fixpoint forgetFailed (k : DnsPool.key) (l : list DnsPool.key) : list DnsPool.key :=
  match l with
  | [] => []
  | x :: l' => if bool_decide (x = k) then l' else x :: forgetFailed k l'
  end.

Section Run.
Context (pton4 : bytes → option Z) (pton6 : bytes → option bytes).
Context (o : Outside) (batch : nat) (pauseSec : nat).

Definition isEnabled (s : Sweep) : bool * Sweep := (enabledAt o (asked s), next s).

Definition stopIfAsked (t : Z) (s : Sweep) : bool * Sweep :=
  let r := if presses o (asked s) then (JobRegistry.requestCancel kJobId (jobs s)).2 else jobs s in
  let s := next (set_jobs r s) in
  if negb (JobRegistry.cancelRequested kJobId r) then (false, s)
  else (true, set_running false (set_jobs
         (JobRegistry.finish kJobId JobRegistry.Cancelled (lit "stopped by the operator") t r).1 s)).

(** One record: the upstream is asked, the answer stored or the name kept for a retry. *)
Definition refreshOne (k : DnsPool.key) (s : Sweep) : run Sweep :=
  let n := asked s in
  let s := next s in
  match refresh o n k.1 k.2 with
  | Some ((_ :: _) as ips, ttl) =>
      c ← InternalDnsCache.store pton4 pton6 k.1 k.2 ips ttl (cacheMs o n) (micros o n) (cache s);
      mret (note k (Some ttl) (set_pending (forgetFailed k (pending s)) (set_cache c s)))
  | _ => mret (note k None (set_pending (rememberFailed k (pending s)) s))
  end.

(** The records of a block; the first component is whether the stop button ended the
    sweep, [done] counts the records so far. *)
Fixpoint runPlan (plan : list DnsPool.key) (records done : Z) (t : Z) (s : Sweep) : run (bool * Z * Sweep) :=
  match plan with
  | [] => mret (false, done, s)
  | k :: plan' =>
      let '(on, s) := isEnabled s in
      if negb on then mret (false, done, s)
      else
        s ← refreshOne k s;
        let done := u32 (done + 1) in
        let s := set_jobs (JobRegistry.progress kJobId done records k.1 (jobs s)) s in
        let '(stop, s) := stopIfAsked t s in
        if stop then mret (true, done, s) else runPlan plan' records done t s
  end.

(** The retries that still are in the cache, at most [room]; and the retries not looked at. *)
Fixpoint takeRetries (room : nat) (retry : list DnsPool.key) (c : InternalDnsCache.Cache)
  : run (list DnsPool.key * list DnsPool.key) :=
  match retry with
  | [] => mret ([], [])
  | k :: retry' =>
      if (room =? 0)%nat then mret ([], retry)
      else
        there ← InternalDnsCache.contains k.1 k.2 c;
        if there : bool then
          r ← takeRetries (room - 1) retry' c; mret (k :: r.1, r.2)
        else takeRetries room retry' c
  end.

Definition planBlock (retry : list DnsPool.key) (s : Sweep) : run (list DnsPool.key * list DnsPool.key * Sweep) :=
  r ← takeRetries batch retry (cache s);
  if (length r.1 <? batch)%nat then
    old ← InternalDnsCache.oldestEntries (batch - length r.1) (isPending (pending s)) (cacheMs o (asked s)) (cache s);
    mret (r.1 ++ old, r.2, next s)
  else mret (r.1, r.2, s).

Fixpoint pauseLoop (left : nat) (t : Z) (s : Sweep) : bool * Sweep :=
  match left with
  | O => (false, s)
  | S left' =>
      let '(on, s) := isEnabled s in
      if negb on then (false, s)
      else
        let '(stop, s) := stopIfAsked t s in
        if stop then (true, s)
        else pauseLoop left' t
               (notePause (Z.of_nat left) (set_jobs (JobRegistry.pause kJobId [] (Z.of_nat left) (jobs s)) s))
  end.

Fixpoint runBlocks (left : nat) (block blocks records done : Z) (retry : list DnsPool.key) (t : Z) (s : Sweep)
  : run (bool * Z * Sweep) :=
  match left with
  | O => mret (false, done, s)
  | S left' =>
      let '(on, s) := isEnabled s in
      if negb on then mret (false, done, s)
      else
        p ← planBlock retry s;
        let '(plan, retry, s) := p in
        if bool_decide (plan = []) then mret (false, done, s)
        else
          r ← runPlan plan records done t s;
          let '(stop, done, s) := r in
          if stop : bool then mret (true, done, s)
          else if negb (autoUpdatePauseAfterBlock block blocks) then
            runBlocks left' (block + 1) blocks records done retry t s
          else
            let '(stop, s) := pauseLoop pauseSec t s in
            if stop then mret (true, done, s)
            else runBlocks left' (block + 1) blocks records done retry t
                   (set_jobs (JobRegistry.progress kJobId done records [] (jobs s)) s)
  end.

Definition runSweep (hasHandler : bool) (t : Z) (s : Sweep) : run Sweep :=
  if negb hasHandler || negb (bool_decide (is_Some (InternalDnsCache.arena (cache s))))
     || negb (InternalDnsCache.ignoreTtl (cache s)) then mret s
  else
    let '(st, c) := InternalDnsCache.stats (cache s) in
    let s := set_cache c s in
    let records := u32 (InternalDnsCache.sEntries st) in
    let blocks := autoUpdateBlockCount records (Z.of_nat batch) in
    if blocks =? 0 then mret s
    else
      let '(ok, r, _) := JobRegistry.begin_ kJobId kJobTitleKey [] records JobRegistry.UnitRecords 0 t t (jobs s) in
      let s := set_jobs r s in
      if negb ok then mret s
      else
        let retry := pending s in
        let s := set_pending [] (set_running true s) in
        x ← runBlocks (Z.to_nat blocks) 0 blocks records 0 retry t s;
        let '(stop, done, s) := x in
        if stop : bool then mret s
        else
          let '(on, s) := isEnabled (set_running false s) in
          let '(st, step) := if negb on then (JobRegistry.Cancelled, lit "stopped by the operator")
                             else (JobRegistry.Done_, dec done ++ lit " records") in
          mret (set_jobs (JobRegistry.finish kJobId st step t (jobs s)).1 s).

End Run.

(** A cache of two records that keeps them for ever, [a.lan] the older one. *)
Definition twoRecords : run InternalDnsCache.Cache :=
  c ← InternalDnsCache.store CachePersist.toyPton4 CachePersist.toy16 (lit "a.lan") 1 [[7]] 60 1000 0
        (InternalDnsCache.mkCache (InternalDnsCache.arena CacheSpec.small) 0 InternalDnsCache.zeroMeter
           (InternalDnsCache.mark CacheSpec.small) true);
  InternalDnsCache.store CachePersist.toyPton4 CachePersist.toy16 (lit "b.lan") 1 [[8]] 60 2000 0 c.

Definition quietOutside : Outside :=
  mkOutside (λ _ _ _, Some ([[9]], 60)) (λ _, false) (λ _, true) (λ n, 3000 + Z.of_nat n) (λ _, 0).

(** With more records than a block holds the sweep does not walk the cache: the records
    it takes for the oldest are the youngest, a refreshed record is the youngest of all,
    and every block asks for the same one again. *)
Example sweep_repeats_itself :
  (c ← twoRecords;
   s ← runSweep CachePersist.toyPton4 CachePersist.toy16 quietOutside 1 1 true 0
         (mkSweep c [] JobRegistry.initial false 0 [] []);
   mret (lines s))
  = Done [((lit "b.lan", 1), Some 60); ((lit "b.lan", 1), Some 60)].
Proof. vm_compute. reflexivity. Qed.

(** ** The sweep ends, within bounds *)

Definition pendingOk (l : list DnsPool.key) : Prop := NoDup l ∧ (length l <= kMaxPending)%nat.

Lemma remember_ok k l : pendingOk l → pendingOk (rememberFailed k l).
Proof.
  intros [Hn Hl]. unfold rememberFailed, isPending. destruct k as [nm q]. cbn [fst snd].
  case_bool_decide as Hin; [done|]. destruct (Nat.leb_spec kMaxPending (length l)) as [Hm|Hm].
  - destruct l as [|x l]; [unfold kMaxPending in Hm; cbn in Hm; lia|]. cbn [tail].
    apply NoDup_cons in Hn as [_ Hn]. split.
    + apply NoDup_app. split; [done|]. split; [|apply NoDup_singleton].
      intros y Hy ->%list_elem_of_singleton. apply Hin. by right.
    + rewrite length_app. cbn in *. lia.
  - split; [|rewrite length_app; cbn; lia].
    apply NoDup_app. split; [done|]. split; [|apply NoDup_singleton]. by intros y Hy ->%list_elem_of_singleton.
Qed.

Lemma forget_sublist k l : sublist (forgetFailed k l) l.
Proof. induction l as [|x l IH]; cbn; [done|]. case_bool_decide; [by constructor|by constructor]. Qed.

Lemma forget_ok k l : pendingOk l → pendingOk (forgetFailed k l).
Proof.
  intros [Hn Hl]. pose proof (forget_sublist k l) as Hs. split; [by eapply sublist_NoDup|].
  apply sublist_length in Hs. lia.
Qed.

Lemma heapPush_length x h : length (InternalDnsCache.heapPush x h) = S (length h).
Proof. induction h as [|y h IH]; cbn; [done|]. case_match; cbn; [done|by rewrite IH]. Qed.

Lemma oldest_total max skip now c cap M : CacheSpec.Refines c cap M →
  ∃ l, InternalDnsCache.oldestEntries max skip now c = Done l ∧ (length l <= max)%nat.
Proof.
  intros (p & Ha & (chains & free & Hh) & _). unfold InternalDnsCache.oldestEntries. rewrite Ha.
  destruct (Nat.eqb_spec max 0) as [->|Hm]; [by eexists|].
  rewrite (CachePersist.walkAll_spec _ _ _ _ Hh), run_bind_done. eexists. split; [reflexivity|].
  rewrite length_fmap.
  enough (Hgo : ∀ l h, (length h <= max)%nat → (length (foldl (λ h idx,
    if skip (DnsPool.name (DnsPool.nodeAt (DnsPool.nodes p) (Z.to_nat idx)))
         (DnsPool.qtype (DnsPool.nodeAt (DnsPool.nodes p) (Z.to_nat idx))) then h
    else if (max <? length (InternalDnsCache.heapPush (DnsPool.elapsedMs now
         (DnsPool.storedMs (DnsPool.nodeAt (DnsPool.nodes p) (Z.to_nat idx))), idx) h))%nat
         then tail (InternalDnsCache.heapPush (DnsPool.elapsedMs now
         (DnsPool.storedMs (DnsPool.nodeAt (DnsPool.nodes p) (Z.to_nat idx))), idx) h)
         else InternalDnsCache.heapPush (DnsPool.elapsedMs now
         (DnsPool.storedMs (DnsPool.nodeAt (DnsPool.nodes p) (Z.to_nat idx))), idx) h) h l) <= max)%nat)
    by (apply Hgo; cbn; lia).
  induction l as [|i l IH]; intros h Hl; cbn [foldl]; [done|]. apply IH. destruct (skip _ _); [done|].
  destruct (Nat.ltb_spec max (length (InternalDnsCache.heapPush (DnsPool.elapsedMs now
    (DnsPool.storedMs (DnsPool.nodeAt (DnsPool.nodes p) (Z.to_nat i))), i) h))) as [H|H]; [|exact H].
  pose proof (heapPush_length (DnsPool.elapsedMs now
    (DnsPool.storedMs (DnsPool.nodeAt (DnsPool.nodes p) (Z.to_nat i))), i) h) as E.
  destruct (InternalDnsCache.heapPush _ h); cbn in *; lia.
Qed.

Section Ends.
Context (pton4 : bytes → option Z) (pton6 : bytes → option bytes).
Context (o : Outside) (batch pauseSec : nat) (cap : nat).

Definition sweepOk (s : Sweep) : Prop := (∃ M, CacheSpec.Refines (cache s) cap M) ∧ pendingOk (pending s).

(** The row the page shows of the sweep: while it runs, one that goes with it. *)
Definition rowOk (s : Sweep) : Prop :=
  if running s then JobRegistry.oneOff kJobId (jobs s)
  else JobRegistry.wf (jobs s) ∧ JobRegistry.lookupJob kJobId (JobRegistry.slots (jobs s)) = None.

Lemma rowOk_finish st step t s : running s = true → rowOk s →
  rowOk (set_running false (set_jobs (JobRegistry.finish kJobId st step t (jobs s)).1 s)).
Proof.
  unfold rowOk. intros ->. cbn. split; [by apply JobRegistry.finish_oneOff|by apply JobRegistry.finish_frees].
Qed.

Lemma refreshOne_row k s s' : refreshOne pton4 pton6 o k s = Done s' → jobs s' = jobs s.
Proof.
  unfold refreshOne. destruct (refresh o _ _ _) as [[[|ip ips] ttl]|]; try by intros [= <-].
  destruct (InternalDnsCache.store _ _ _ _ _ _ _ _ _) as [c| |]; [rewrite run_bind_done|done|done]. by intros [= <-].
Qed.

Lemma stopIfAsked_row t s : running s = true → rowOk s → rowOk (stopIfAsked o t s).2.
Proof.
  intros Hr H. unfold stopIfAsked. set (r := if presses o (asked s) then _ else _).
  assert (H' : JobRegistry.oneOff kJobId r).
  { unfold rowOk in H. rewrite Hr in H. unfold r. destruct (presses o _); [by apply JobRegistry.oneOff_cancel|done]. }
  destruct (JobRegistry.cancelRequested kJobId r); cbn [negb snd].
  - apply (rowOk_finish _ _ t (next (set_jobs r s))); [done|]. unfold rowOk. cbn. by rewrite Hr.
  - unfold rowOk. cbn. by rewrite Hr.
Qed.

Lemma refreshOne_ok k s : sweepOk s →
  ∃ s', refreshOne pton4 pton6 o k s = Done s' ∧ sweepOk s' ∧ length (lines s') = S (length (lines s)) ∧
    running s' = running s.
Proof.
  intros [[M HR] Hp]. unfold refreshOne. cbv zeta.
  assert (Hn : ∃ s', Done (note k None (set_pending (rememberFailed k (pending (next s))) (next s))) = Done s' ∧
    sweepOk s' ∧ length (lines s') = S (length (lines s)) ∧ running s' = running s).
  { eexists. split; [done|]. split; [split; [by exists M|by apply remember_ok]|]. split; [|done].
    cbn. rewrite length_app. cbn. lia. }
  destruct (refresh o (asked s) k.1 k.2) as [[[|ip ips] ttl]|]; [exact Hn| |exact Hn].
  destruct (CacheSpec.runOp_refines pton4 pton6 (λ _, None) (λ _, None)
    (CacheSpec.OpStore k.1 k.2 (ip :: ips) ttl (cacheMs o (asked s)) (micros o (asked s))) (cache s) cap M HR)
    as (c' & M' & E & HR'). cbn [CacheSpec.runOp] in E.
  change (cache (next s)) with (cache s). rewrite E, run_bind_done. eexists. split; [done|].
  split; [split; [by exists M'|by apply forget_ok]|]. split; [|done]. cbn. rewrite length_app. cbn. lia.
Qed.

Lemma stopIfAsked_ok t s : sweepOk s → sweepOk (stopIfAsked o t s).2 ∧
  lines (stopIfAsked o t s).2 = lines s ∧
  ((stopIfAsked o t s).1 = true → running (stopIfAsked o t s).2 = false) ∧
  ((stopIfAsked o t s).1 = false → running (stopIfAsked o t s).2 = running s).
Proof. intros H. unfold stopIfAsked. by case_match. Qed.

(** How far a part of the sweep got: the row of the registry is as it must be. *)
Definition partOk (s : Sweep) (n : nat) (stop : bool) (s' : Sweep) : Prop :=
  sweepOk s' ∧ (length (lines s') <= length (lines s) + n)%nat ∧ running s' = negb stop ∧ (rowOk s → rowOk s').

Lemma partOk_more s n stop s1 s' m : partOk s1 n stop s' → (length (lines s1) <= length (lines s) + m)%nat →
  (rowOk s → rowOk s1) → partOk s (m + n) stop s'.
Proof. intros (H1 & H2 & H3 & H4) Hl Hr. split_and!; try done; [lia|auto]. Qed.

Lemma runPlan_ok plan : ∀ records done t s, sweepOk s → running s = true →
  ∃ stop done' s', runPlan pton4 pton6 o plan records done t s = Done (stop, done', s') ∧
    partOk s (length plan) stop s'.
Proof.
  induction plan as [|k plan IH]; intros records done t s Hs Hr; cbn [runPlan length].
  { eexists _, _, _. split; [reflexivity|]. split_and!; [done|lia|done|done]. }
  unfold isEnabled. destruct (enabledAt o (asked s)); cbn [negb];
    [|eexists _, _, _; split; [reflexivity|]; split_and!; [done|cbn; lia|done|done]].
  destruct (refreshOne_ok k (next s) Hs) as (s1 & E1 & H1 & Hl1 & Hr1).
  pose proof (refreshOne_row _ _ _ E1) as Hj1. rewrite E1, run_bind_done.
  change (lines (next s)) with (lines s) in Hl1. change (running (next s)) with (running s) in Hr1.
  set (s2 := set_jobs _ s1). pose proof (stopIfAsked_ok t s2 H1) as (H3 & Hl3 & Hstop & Hgo).
  assert (Hr2 : running s2 = true) by (change (running s1 = true); congruence).
  assert (Hrow2 : rowOk s → rowOk s2).
  { unfold rowOk. rewrite Hr, Hr2. intros Ho. cbn [s2 set_jobs jobs]. rewrite Hj1.
    by apply JobRegistry.oneOff_onJob. }
  pose proof (stopIfAsked_row t s2 Hr2) as Hrow3.
  destruct (stopIfAsked o t s2) as [[] s3]; cbn [fst snd] in *.
  - eexists _, _, _. split; [reflexivity|]. split_and!; [done|rewrite Hl3; cbn; lia|by apply Hstop|auto].
  - destruct (IH records (u32 (done + 1)) t s3 H3) as (st & dn & s' & E & Hok); [by rewrite Hgo|].
    eexists _, _, _. split; [exact E|]. apply (partOk_more s (length plan) st s3 s' 1 Hok); [rewrite Hl3; cbn; lia|auto].
Qed.

Lemma takeRetries_ok retry c M : CacheSpec.Refines c cap M → ∀ room, ∃ l rest,
  takeRetries room retry c = Done (l, rest) ∧ (length l <= room)%nat.
Proof.
  intros HR. induction retry as [|k retry IH]; intros room; cbn [takeRetries].
  { eexists _, _. split; [reflexivity|cbn; lia]. }
  destruct (Nat.eqb_spec room 0); [eexists _, _; split; [reflexivity|cbn; lia]|].
  assert (∃ b, InternalDnsCache.contains k.1 k.2 c = Done b) as [b ->].
  { destruct (decide (k.1 = [])) as [E|E]; [|eexists; by apply (CacheSpec.contains_total c cap M)].
    unfold InternalDnsCache.contains. destruct HR as (p & -> & _). rewrite E. by eexists. }
  rewrite run_bind_done. destruct b; [|apply IH].
  destruct (IH (room - 1)%nat) as (l & rest & -> & Hl). rewrite run_bind_done.
  eexists _, _. split; [reflexivity|cbn; lia].
Qed.

Lemma planBlock_ok retry s : sweepOk s → ∃ plan rest s',
  planBlock o batch retry s = Done (plan, rest, s') ∧ sweepOk s' ∧ (length plan <= batch)%nat ∧
  lines s' = lines s ∧ running s' = running s ∧ jobs s' = jobs s.
Proof.
  intros [[M HR] Hp]. unfold planBlock.
  destruct (takeRetries_ok retry (cache s) M HR batch) as (l & rest & -> & Hl). rewrite run_bind_done. cbn [fst snd].
  destruct (Nat.ltb_spec (length l) batch).
  - destruct (oldest_total (batch - length l) (isPending (pending s)) (cacheMs o (asked s)) (cache s) cap M HR)
      as (old & -> & Ho). rewrite run_bind_done.
    eexists _, _, _. split; [reflexivity|]. split; [split; [by exists M|done]|]. rewrite length_app. split; [lia|done].
  - eexists _, _, _. split; [reflexivity|]. split; [split; [by exists M|done]|]. split; [lia|done].
Qed.

Lemma pauseLoop_ok left : ∀ t s, sweepOk s → running s = true →
  partOk s 0 (pauseLoop o left t s).1 (pauseLoop o left t s).2.
Proof.
  induction left as [|left IH]; intros t s Hs Hr; cbn [pauseLoop]; [split_and!; [done|cbn; lia|done|done]|].
  unfold isEnabled. destruct (enabledAt o (asked s)); cbn [negb]; [|split_and!; [done|cbn; lia|done|done]].
  pose proof (stopIfAsked_ok t (next s) Hs) as (H3 & Hl3 & Hstop & Hgo).
  pose proof (stopIfAsked_row t (next s) Hr) as Hrow.
  destruct (stopIfAsked o t (next s)) as [[] s3]; cbn [fst snd] in *.
  { split_and!; [done|rewrite Hl3; cbn; lia|by apply Hstop|auto]. }
  set (s4 := notePause _ _). assert (Hr4 : running s4 = true) by (cbn; by rewrite Hgo).
  apply (partOk_more s 0 _ s4 _ 0 (IH t s4 H3 Hr4)); [cbn; rewrite Hl3; cbn; lia|].
  intros H. assert (H' := Hrow H). revert H'. unfold rowOk. rewrite Hr4, Hgo by done.
  change (running (next s)) with (running s). rewrite Hr. cbn [s4 notePause set_jobs jobs].
  intros H'. by apply JobRegistry.oneOff_onJob.
Qed.

Lemma runBlocks_ok left : ∀ block blocks records done retry t s, sweepOk s → running s = true →
  ∃ stop done' s', runBlocks pton4 pton6 o batch pauseSec left block blocks records done retry t s
      = Done (stop, done', s') ∧ partOk s (left * batch) stop s'.
Proof.
  induction left as [|left IH]; intros block blocks records done retry t s Hs Hr; cbn [runBlocks].
  { eexists _, _, _. split; [reflexivity|]. split_and!; [done|lia|done|done]. }
  unfold isEnabled. destruct (enabledAt o (asked s)); cbn [negb];
    [|eexists _, _, _; split; [reflexivity|]; split_and!; [done|cbn; lia|done|done]].
  destruct (planBlock_ok retry (next s) Hs) as (plan & rest & s1 & -> & H1 & Hpl & Hl1 & Hr1 & Hj1). rewrite run_bind_done.
  change (lines (next s)) with (lines s) in Hl1. change (running (next s)) with (running s) in Hr1.
  change (jobs (next s)) with (jobs s) in Hj1.
  assert (Hrow1 : rowOk s → rowOk s1) by (unfold rowOk; by rewrite Hr1, Hj1).
  case_bool_decide; [eexists _, _, _; split; [reflexivity|]; split_and!; [done|rewrite Hl1; cbn; lia|by rewrite Hr1|done]|].
  destruct (runPlan_ok plan records done t s1 H1) as (stop & done' & s2 & -> & Hok2); [by rewrite Hr1|].
  pose proof Hok2 as (H2 & Hl2 & Hr2 & Hrow2). rewrite run_bind_done.
  destruct stop; [eexists _, _, _; split; [reflexivity|]; split_and!; [done|rewrite Hl1 in Hl2; cbn; lia|done|auto]|].
  destruct (autoUpdatePauseAfterBlock block blocks); cbn [negb].
  - pose proof (pauseLoop_ok pauseSec t s2 H2 Hr2) as (H3 & Hl3 & Hr3 & Hrow3).
    destruct (pauseLoop o pauseSec t s2) as [[] s3]; cbn [fst snd] in *.
    + eexists _, _, _. split; [reflexivity|]. split_and!; [done|rewrite Hl1 in Hl2; cbn; lia|done|auto].
    + set (s4 := set_jobs _ s3). destruct (IH (block + 1) blocks records done' rest t s4 H3 Hr3) as (st & dn & s' & E & Hok).
      eexists _, _, _. split; [exact E|]. apply (partOk_more s (left * batch) st s4 s' batch Hok).
      * change (lines s4) with (lines s3). rewrite Hl1 in Hl2. lia.
      * intros Hw. assert (H' := Hrow3 (Hrow2 (Hrow1 Hw))). revert H'. unfold rowOk.
        change (running s4) with (running s3). rewrite Hr3. cbn [negb]. intros Ho. by apply JobRegistry.oneOff_onJob.
  - destruct (IH (block + 1) blocks records done' rest t s2 H2 Hr2) as (st & dn & s' & E & Hok).
    eexists _, _, _. split; [exact E|]. apply (partOk_more s (left * batch) st s2 s' batch Hok); [rewrite Hl1 in Hl2; lia|auto].
Qed.

(** C21: a sweep always ends, whatever the upstream answers and whenever the switch
    is turned or the stop is pressed: the cache stays a cache, the list of retries has
    no double and at most [kMaxPending] names, the sweep is no longer shown as running and
    has no row among the operations (it had none when it began), and the upstream is asked
    for fewer than [records + batch] records. *)
Theorem sweep_ends hasHandler t s : sweepOk s → running s = false → rowOk s → (0 < batch)%nat →
  ∃ s', runSweep pton4 pton6 o batch pauseSec hasHandler t s = Done s' ∧ sweepOk s' ∧ running s' = false ∧
    JobRegistry.lookupJob kJobId (JobRegistry.slots (jobs s')) = None ∧
    let records := u32 (InternalDnsCache.sEntries (InternalDnsCache.stats (cache s)).1) in
    (0 < records → records + Z.of_nat batch < 2 ^ 32 →
     Z.of_nat (length (lines s')) < Z.of_nat (length (lines s)) + records + Z.of_nat batch).
Proof.
  intros Hs Hr Hrow Hb. pose proof Hrow as Hrow0. unfold rowOk in Hrow. rewrite Hr in Hrow. destruct Hrow as [Hwf Hno].
  unfold runSweep. destruct (_ || _ || _); [exists s; split_and!; try done; lia|].
  destruct (InternalDnsCache.stats (cache s)) as [st c] eqn:Est. cbn [fst]. set (records := u32 _).
  assert (Hc : c = InternalDnsCache.set_mark (InternalDnsCache.mark c) (cache s))
    by (unfold InternalDnsCache.stats in Est; by injection Est as _ <-).
  assert (Hs1 : sweepOk (set_cache c s)).
  { destruct Hs as [[M HR] Hp]. split; [|done]. exists M. cbn [cache set_cache]. rewrite Hc. exact HR. }
  destruct (Z.eqb_spec (autoUpdateBlockCount records (Z.of_nat batch)) 0);
    [eexists; split; [reflexivity|]; split_and!; try done; cbn; lia|].
  pose proof (JobRegistry.oneOff_begin kJobId kJobTitleKey [] records JobRegistry.UnitRecords t t
    (jobs (set_cache c s)) Hwf Hno) as Hbegun.
  destruct (JobRegistry.begin_ _ _ _ _ _ _ _ _ _) as [[[] r] told] eqn:Eb; cbn [negb fst snd] in *;
    [|eexists; split; [reflexivity|]; split_and!; try done; cbn; [|lia]].
  2:{ revert Eb. unfold JobRegistry.begin_. repeat case_match; intros [= <- _]; done. }
  destruct (runBlocks_ok (Z.to_nat (autoUpdateBlockCount records (Z.of_nat batch))) 0
    (autoUpdateBlockCount records (Z.of_nat batch)) records 0 (pending (set_jobs r (set_cache c s))) t
    (set_pending [] (set_running true (set_jobs r (set_cache c s))))) as (stop & dn & s' & E & Hok & Hl & Hrun & Hrow');
    [destruct Hs1 as [HR _]; split; [exact HR|split; [constructor|cbn; lia]]|done|].
  specialize (Hrow' Hbegun). unfold rowOk in Hrow'. rewrite Hrun in Hrow'.
  rewrite E, run_bind_done. cbn [lines set_pending set_running set_jobs set_cache] in Hl.
  assert (Hbound : 0 < records → records + Z.of_nat batch < 2 ^ 32 →
    Z.of_nat (length (lines s')) < Z.of_nat (length (lines s)) + records + Z.of_nat batch).
  { intros H1 H2. pose proof (blockCount_covers records (Z.of_nat batch) H1 ltac:(lia) H2) as Hbc. cbv zeta in Hbc. nia. }
  destruct stop; cbn [negb] in Hrow'; [exists s'; split_and!; try done; apply Hrow'|].
  unfold isEnabled. cbn [asked set_running].
  destruct (enabledAt o (asked s')); cbn [negb]; eexists; (split; [reflexivity|]); split_and!; try done.
  all: by apply JobRegistry.finish_frees.
Qed.

End Ends.

Lemma sweep_ends_witness : ∃ c, CacheSpec.Refines c 2 {[ (lit "a.lan", 1) := CachePersist.oneRec ]} ∧
  ∃ s', runSweep CachePersist.toyPton4 CachePersist.toy16 quietOutside 1 1 true 0
          (mkSweep c [] JobRegistry.initial false 0 [] []) = Done s' ∧ sweepOk 2 s' ∧ running s' = false ∧
        JobRegistry.contains kJobId (jobs s') = false.
Proof.
  destruct CachePersist.one_refines as (c & _ & _ & HR). exists c. split; [exact HR|].
  destruct (sweep_ends CachePersist.toyPton4 CachePersist.toy16 quietOutside 1 1 2 true 0
    (mkSweep c [] JobRegistry.initial false 0 [] [])) as (s' & E & Hok & Hr & Hno & _).
  - split; [exists {[ (lit "a.lan", 1) := CachePersist.oneRec ]}; exact HR|].
    split; [constructor|]. cbn. unfold kMaxPending. lia.
  - reflexivity.
  - split; [by apply JobRegistry.noJobs_wf|reflexivity].
  - lia.
  - exists s'. split; [exact E|]. split; [exact Hok|]. split; [exact Hr|].
    unfold JobRegistry.contains. apply bool_decide_eq_false. rewrite JobRegistry.index_find in Hno.
    intros [k Hk]. rewrite Hk in Hno. apply index_of_lt in Hk. by apply lookup_lt_is_Some in Hk as [? Hk]; rewrite Hk in Hno.
Defined.

(** ** Its countdown *)

(** As the autosave's, with a request that waits for nothing and a flag for the page. *)
Record Countdown := mkCountdown {
  enabled : bool;
  unit_ : AutosavePeriod.Period;
  interval : Z;
  periodSec : Z;
  remainingSec : Z;
  restartRequested : bool;
  clockSet : bool;
  nowRequested : bool;
  wasSet : bool;
}.

Definition effectivePeriodSec (t : Countdown) : Z :=
  AutosavePeriod.autosavePeriodSec (unit_ t) (autoUpdateClampInterval (unit_ t) (interval t)).

Definition configure (on : bool) (u : AutosavePeriod.Period) (i : Z) (t : Countdown) : Countdown :=
  let was := enabled t in
  let t := mkCountdown (enabled t) u i (periodSec t) (remainingSec t) (restartRequested t) (clockSet t)
             (nowRequested t) (wasSet t) in
  if negb on then mkCountdown false u i (periodSec t) (remainingSec t) (restartRequested t) (clockSet t)
                    (nowRequested t) (wasSet t)
  else
    let p := effectivePeriodSec t in
    if autoUpdateReArmNeeded was (periodSec t) p
    then mkCountdown true u i p p true false (nowRequested t) (wasSet t)
    else mkCountdown true u i p (remainingSec t) (restartRequested t) (clockSet t) (nowRequested t) (wasSet t).

Definition requestNow (t : Countdown) : bool * Countdown :=
  if negb (enabled t) then (false, t)
  else (true, mkCountdown (enabled t) (unit_ t) (interval t) (periodSec t) (remainingSec t) (restartRequested t)
                (clockSet t) true (wasSet t)).

Definition rearm (t : Countdown) : Countdown :=
  let p := effectivePeriodSec t in
  mkCountdown (enabled t) (unit_ t) (interval t) p p (restartRequested t) (clockSet t) (nowRequested t) (wasSet t).

(** One turn of the task: whether a sweep runs, and the countdown after it. *)
Definition tick (now : Z) (t : Countdown) : bool * Countdown :=
  if negb (enabled t) then (false, t)
  else if nowRequested t then
    (true, rearm (mkCountdown (enabled t) (unit_ t) (interval t) (periodSec t) (remainingSec t) (restartRequested t)
                    (clockSet t) false (wasSet t)))
  else if negb (Timer.clockIsSet now) then
    (false, mkCountdown (enabled t) (unit_ t) (interval t) (periodSec t) (remainingSec t) (restartRequested t)
              false (nowRequested t) false)
  else
    let seen := wasSet t in
    let t := mkCountdown (enabled t) (unit_ t) (interval t) (periodSec t) (remainingSec t) (restartRequested t)
               true (nowRequested t) true in
    let t := if seen then t else rearm t in
    if restartRequested t then
      (false, rearm (mkCountdown (enabled t) (unit_ t) (interval t) (periodSec t) (remainingSec t) false
                       (clockSet t) (nowRequested t) (wasSet t)))
    else if 0 <? remainingSec t then
      (false, mkCountdown (enabled t) (unit_ t) (interval t) (periodSec t) (u32 (remainingSec t - 1))
                (restartRequested t) (clockSet t) (nowRequested t) (wasSet t))
    else (true, rearm t).

(** Saving the settings again leaves the remaining time alone; a request of the operator's
    is served at the next turn, clock or no clock. *)
Lemma same_settings_keep_countdown t : enabled t = true → periodSec t = effectivePeriodSec t →
  configure true (unit_ t) (interval t) t = t.
Proof.
  intros He Hp. destruct t; cbn in *. unfold configure, effectivePeriodSec in *. cbn in *. subst.
  unfold autoUpdateReArmNeeded. rewrite Z.eqb_refl. done.
Qed.

Lemma request_served t now : enabled t = true → (requestNow t).1 = true ∧ (tick now (requestNow t).2).1 = true.
Proof. intros He. unfold requestNow, tick. rewrite He. cbn. by rewrite ?He. Qed.

End CacheAutoUpdate.
