(* ===== verification/Json.v ===== *)
(** * The JSON of the REST layer

    src/web/JsonWriter.cpp: a flat object, its commas and escapes.  The scanners of
    src/web/RestApi.cpp that read members back out of a request, and the scan of
    src/web/SettingsImportScan.h for keys the firmware does not know. *)
From S2P Require Import Prelude.
#[local] Open Scope Z_scope.

Module JsonWriter.

Definition kAsciiPrintableMin : Z := 0x20.

(** Named characters. *)
Abbreviation cQuote := 34.
Abbreviation cBackslash := 92.

Definition escapeChar (c : Z) : bytes :=
  if c =? cQuote then [cBackslash; cQuote]
  else if c =? cBackslash then [cBackslash; cBackslash]
  else if c =? 10 then [cBackslash; 110]
  else if c =? 13 then [cBackslash; 114]
  else if c =? 9 then [cBackslash; 116]
  else if c <? kAsciiPrintableMin then []
  else [c].

Definition escape (s : bytes) : bytes := concat (escapeChar <$> s).

Definition unescapeChar (c : Z) : Z :=
  if c =? 110 then 10 else if c =? 114 then 13 else if c =? 116 then 9
  else if c =? 98 then 8 else if c =? 102 then 12 else c.

Fixpoint unescape (s : bytes) : bytes :=
  match s with
  | [] => []
  | c :: s' =>
      if c =? cBackslash then
        match s' with
        | [] => [c]
        | d :: s'' => unescapeChar d :: unescape s''
        end
      else c :: unescape s'
  end.

(** The writer is the text of its members so far. *)
Definition separate (body : bytes) : bytes := if bool_decide (body = []) then [] else body ++ [44].

Definition member (key value body : bytes) : bytes :=
  separate body ++ [cQuote] ++ escape key ++ [cQuote; 58] ++ value.

Definition decInt (z : Z) : bytes := if z <? 0 then 45 :: dec (- z) else dec z.

Definition str (key value body : bytes) : bytes := member key ([cQuote] ++ escape value ++ [cQuote]) body.
Definition num (key : bytes) (value : Z) (body : bytes) : bytes := member key (decInt value) body.
Definition boolean (key : bytes) (value : bool) (body : bytes) : bytes :=
  member key (if value then lit "true" else lit "false") body.
Definition literal (key json body : bytes) : bytes := member key json body.
Definition toString (body : bytes) : bytes := [123] ++ body ++ [125].

(** What survives the writer: control characters other than CR, LF and TAB do not. *)
Definition keeps (c : Z) : bool := (kAsciiPrintableMin <=? c) || (c =? 10) || (c =? 13) || (c =? 9).
Definition kept (s : bytes) : bytes := List.filter keeps s.

Lemma escapeChar_cases c : is_u8 c →
  (keeps c = false ∧ escapeChar c = []) ∨
  (keeps c = true ∧ ((escapeChar c = [c] ∧ c ≠ cQuote ∧ c ≠ cBackslash) ∨
    ∃ d, escapeChar c = [cBackslash; d] ∧ unescapeChar d = c)).
Proof.
  intros Hc. unfold keeps, escapeChar, unescapeChar, kAsciiPrintableMin.
  destruct (Z.eqb_spec c cQuote) as [->|H1]; [right; split; [done|]; right; by eexists|].
  destruct (Z.eqb_spec c cBackslash) as [->|H2]; [right; split; [done|]; right; by eexists|].
  destruct (Z.eqb_spec c 10) as [->|H3]; [right; split; [done|]; right; by eexists|].
  destruct (Z.eqb_spec c 13) as [->|H4]; [right; split; [done|]; right; by eexists|].
  destruct (Z.eqb_spec c 9) as [->|H5]; [right; split; [done|]; right; by eexists|].
  destruct (Z.ltb_spec c 32), (Z.leb_spec 32 c); [lia|by left| |lia].
  right. split; [done|]. left. by split_and!.
Qed.

Lemma escape_cons c s : escape (c :: s) = escapeChar c ++ escape s.
Proof. done. Qed.

Lemma kept_cons c s : kept (c :: s) = if keeps c then c :: kept s else kept s.
Proof. done. Qed.

Lemma unescape_escape_app s r : wf_bytes s → unescape (escape s ++ r) = kept s ++ unescape r.
Proof.
  induction s as [|c s IH]; intros Hw; [done|]. apply Forall_cons in Hw as [Hc Hw]. specialize (IH Hw).
  rewrite escape_cons, kept_cons, <- app_assoc.
  destruct (escapeChar_cases c Hc) as [[-> ->]|[-> [(-> & _ & Hb)|(d & -> & Hd)]]].
  - exact IH.
  - cbn [app unescape]. rewrite (proj2 (Z.eqb_neq c cBackslash)) by done. by rewrite IH.
  - cbn [app unescape]. by rewrite Z.eqb_refl, Hd, IH.
Qed.

(** Reading back an escaped text gives the text, less the control characters
    JSON has no place for. *)
Lemma unescape_escape s : wf_bytes s → unescape (escape s) = kept s.
Proof. intros Hw. pose proof (unescape_escape_app s [] Hw) as H. rewrite !app_nil_r in H. exact H. Qed.

Lemma kept_id s : Forall (λ c, kAsciiPrintableMin <= c) s → kept s = s.
Proof.
  induction 1 as [|c s Hc _ IH]; [done|]. rewrite kept_cons. unfold keeps.
  rewrite (proj2 (Z.leb_le _ _)) by exact Hc. by rewrite IH.
Qed.

End JsonWriter.

(** ** Reading members *)

Module JsonRead.
Import JsonWriter.

Definition quoted (key : bytes) : bytes := [cQuote] ++ key ++ [cQuote].

(** The text after the first [c] at or after the start. *)
Definition afterChar (c : Z) (s : bytes) : option bytes :=
  match find_char c s with Some i => Some (drop (S i) s) | None => None end.

(** The value text of a member: what follows the colon and the spaces after the first
    place where the key stands between quotes. *)
Definition valueAt (json key : bytes) : option bytes :=
  match find_sub (quoted key) json with
  | None => None
  | Some pos =>
      match afterChar 58 (drop pos json) with
      | None => None
      | Some s => Some (drop_while (λ c, c =? 32) s)
      end
  end.

(** The text up to the closing quote; an escape takes the next character along.
    Nothing when the text ends before the quote. *)
Fixpoint untilQuote (s : bytes) : option bytes :=
  match s with
  | [] => None
  | c :: s' =>
      if c =? cQuote then Some []
      else if c =? cBackslash then
        match s' with
        | [] => None
        | d :: s'' => (λ t, c :: d :: t) <$> untilQuote s''
        end
      else (λ t, c :: t) <$> untilQuote s'
  end.

Definition jsonGetStr (json key : bytes) : bytes :=
  match valueAt json key with
  | Some (c :: s) =>
      if negb (c =? cQuote) then []
      else match untilQuote s with Some t => unescape t | None => [] end
  | _ => []
  end.

Definition jsonGetBool (json key : bytes) (def : bool) : bool :=
  match valueAt json key with
  | Some (c :: _) => (c =? 116) || (c =? 84)
  | _ => def
  end.

(** [atoi]: white space, a sign, digits. *)
Definition isDigit (c : Z) : bool := (48 <=? c) && (c <=? 57).

Fixpoint digits (s : bytes) (acc : Z) : Z :=
  match s with
  | [] => acc
  | c :: s' => if isDigit c then digits s' (acc * 10 + (c - 48)) else acc
  end.

Definition atoi (s : bytes) : Z :=
  match drop_while isspace s with
  | [] => 0
  | c :: s' => if c =? 45 then - digits s' 0 else if c =? 43 then digits s' 0 else digits (c :: s') 0
  end.

Definition jsonGetInt (json key : bytes) (def : Z) : Z :=
  match valueAt json key with
  | Some ((_ :: _) as s) => atoi s
  | _ => def
  end.

(** The strings of an array: quotes are taken as they come. *)
Fixpoint arrayItems (fuel max : nat) (s : bytes) : run (list bytes) :=
  match fuel with
  | O => OutOfFuel
  | S fuel' =>
      if (max =? 0)%nat then mret []
      else
        match find_char cQuote s with
        | None => mret []
        | Some i =>
            let s := drop (S i) s in
            match find_char cQuote s with
            | None => mret []
            | Some j => l ← arrayItems fuel' (max - 1) (drop (S j) s); mret (take j s :: l)
            end
        end
  end.

(** Items are looked for before the first closing bracket. *)
Definition jsonGetStrArray (json key : bytes) (maxItems : nat) : run (list bytes) :=
  match find_sub (quoted key) json with
  | None => mret []
  | Some pos =>
      match find_char 91 (drop pos json) with
      | None => mret []
      | Some i =>
          let s := drop i (drop pos json) in
          match find_char 93 s with
          | None => mret []
          | Some e => arrayItems (S (length s)) maxItems (drop 1 (take e s))
          end
      end
  end.

(** The bracket that closes the array opened at the start of [s], as an offset. *)
Fixpoint arrayEnd (s : bytes) (depth : Z) (inStr : bool) : nat :=
  match s with
  | [] => 0%nat
  | c :: s' =>
      if inStr then
        if c =? cBackslash then
          match s' with [] => 1%nat | _ :: s'' => S (S (arrayEnd s'' depth true)) end
        else S (arrayEnd s' depth (negb (c =? cQuote)))
      else if c =? cQuote then S (arrayEnd s' depth true)
      else if c =? 91 then S (arrayEnd s' (depth + 1) false)
      else if c =? 93 then if depth - 1 =? 0 then 0%nat else S (arrayEnd s' (depth - 1) false)
      else S (arrayEnd s' depth false)
  end.

(** The index of the closing bracket, or the size of the text. *)
Definition jsonFindArrayEnd (json : bytes) (open : nat) : nat :=
  Nat.min (length json) (open + arrayEnd (drop open json) 0 false).

(** ** Reading what was written *)

Inductive Value := VStr (v : bytes) | VNum (z : Z) | VBool (b : bool).

Definition valueText (v : Value) : bytes :=
  match v with
  | VStr s => [cQuote] ++ escape s ++ [cQuote]
  | VNum z => decInt z
  | VBool b => if b then lit "true" else lit "false"
  end.

(** The document the writer makes of the members. *)
Definition document (ms : list (bytes * Value)) : bytes :=
  toString (foldl (λ body m, member m.1 (valueText m.2) body) [] ms).

Definition field (m : bytes * Value) : bytes := quoted (escape m.1) ++ [58] ++ valueText m.2.

(** A key the scanners can look for. *)
Definition plainKey (key : bytes) : Prop :=
  key ≠ [] ∧ cQuote ∉ key ∧ 58 ∉ key ∧ 44 ∉ key ∧ 125 ∉ key ∧ escape key = key.

(** A member that cannot be taken for [key]: neither its name nor its text stands for it,
    and its text holds no quote. *)
Definition apart (key : bytes) (m : bytes * Value) : Prop :=
  cQuote ∉ m.1 ∧ escape m.1 ≠ key ∧
  match m.2 with VStr v => cQuote ∉ v ∧ escape v ≠ key | _ => True end.

Lemma find_skip_char p c s : is_prefix p (c :: s) = false → find_sub p (c :: s) = S <$> find_sub p s.
Proof. intros H. cbn [find_sub]. by rewrite H. Qed.

Lemma prefix_quote key c s : is_prefix (quoted key) (c :: s) = (cQuote =? c) && is_prefix (key ++ [cQuote]) s.
Proof. reflexivity. Qed.

Lemma find_skip_text key t s : cQuote ∉ t →
  find_sub (quoted key) (t ++ s) = (λ n, (length t + n)%nat) <$> find_sub (quoted key) s.
Proof.
  induction t as [|c t IH]; intros Hn; cbn [app].
  - by destruct (find_sub _ s).
  - apply not_elem_of_cons in Hn as [Hc Hn]. rewrite find_skip_char, IH by (done || by rewrite prefix_quote, (proj2 (Z.eqb_neq _ _) Hc)).
    by destruct (find_sub _ s).
Qed.

Lemma prefix_token key w s : cQuote ∉ key → cQuote ∉ w →
  is_prefix (key ++ [cQuote]) (w ++ cQuote :: s) = true → key = w.
Proof.
  revert w. induction key as [|k key IH]; intros [|x w] Hk Hw; cbn [app is_prefix]; try done.
  - rewrite andb_true_iff, Z.eqb_eq. intros [<- _]. by apply not_elem_of_cons in Hw as [? _].
  - rewrite andb_true_iff, Z.eqb_eq. intros [-> _]. by apply not_elem_of_cons in Hk as [? _].
  - apply not_elem_of_cons in Hk as [_ Hk]. apply not_elem_of_cons in Hw as [_ Hw].
    rewrite andb_true_iff, Z.eqb_eq. intros [-> H]. f_equal. by apply IH.
Qed.

Lemma find_skip_token key w x s : plainKey key → cQuote ∉ w → w ≠ key → (x = 58 ∨ x = 44 ∨ x = 125) →
  find_sub (quoted key) (quoted w ++ x :: s) = (λ n, (2 + length w + n)%nat) <$> find_sub (quoted key) (x :: s).
Proof.
  intros (Hne & Hq & H1 & H2 & H3 & _) Hw Hwk Hx.
  assert (E : quoted w ++ x :: s = cQuote :: w ++ cQuote :: x :: s) by (unfold quoted; by rewrite <- !app_assoc).
  rewrite E, find_skip_char.
  - rewrite find_skip_text by done. rewrite find_skip_char.
    + destruct (find_sub _ (x :: s)); cbn; [|done]. f_equal. lia.
    + rewrite prefix_quote, Z.eqb_refl. destruct key as [|k key]; [done|]. cbn [app is_prefix andb].
      apply andb_false_iff. left. apply Z.eqb_neq.
      apply not_elem_of_cons in H1 as [? _]. apply not_elem_of_cons in H2 as [? _].
      apply not_elem_of_cons in H3 as [? _]. naive_solver.
  - rewrite prefix_quote, Z.eqb_refl. cbn [andb app]. apply not_true_iff_false. intros H. by apply prefix_token in H.
Qed.

Lemma escape_no_quote s : cQuote ∉ s → cQuote ∉ escape s.
Proof.
  induction s as [|c s IH]; intros Hn; [done|]. apply not_elem_of_cons in Hn as [Hc Hn].
  rewrite escape_cons, not_elem_of_app. split; [|by apply IH]. unfold escapeChar.
  rewrite (proj2 (Z.eqb_neq c cQuote)) by done. cbn iota.
  repeat case_match; rewrite ?not_elem_of_cons; split_and?; (done || apply not_elem_of_nil).
Qed.

Lemma dec_no_quote z : 0 <= z → cQuote ∉ dec z.
Proof.
  intros Hz. unfold dec. assert (Hgo : ∀ fuel y acc, 0 <= y → cQuote ∉ acc → cQuote ∉ dec_loop fuel y acc).
  { induction fuel as [|f IH]; intros y acc Hy Ha; cbn [dec_loop]; [done|].
    assert (cQuote ∉ (48 + y mod 10) :: acc) as H by (apply not_elem_of_cons; split; [zdm|done]).
    destruct (y / 10 =? 0); [done|]. apply IH; [zdm|done]. }
  apply Hgo; [done|by intros ?%elem_of_nil].
Qed.

Lemma value_no_quote v : match v with VStr s => True | _ => cQuote ∉ valueText v end.
Proof.
  destruct v as [s|z|b]; [done| |]; cbn [valueText].
  - unfold decInt. destruct (Z.ltb_spec z 0); [apply not_elem_of_cons; split; [done|]|]; apply dec_no_quote; lia.
  - destruct b; vm_compute; intros H; repeat (apply elem_of_cons in H as [?|H]; [done|]); by apply elem_of_nil in H.
Qed.

(** One character that is not a quote. *)
Lemma find_skip_one key c s : c ≠ cQuote →
  find_sub (quoted key) (c :: s) = (λ n, (1 + n)%nat) <$> find_sub (quoted key) s.
Proof.
  intros Hc. apply (find_skip_text key [c]). intros Hi. apply list_elem_of_singleton in Hi. by apply Hc.
Qed.

(** Lengths of appended texts. *)
Ltac app_lengths := repeat (rewrite length_app || (progress (cbn [length app]))); lia.

(** A whole member is passed over. *)
Lemma find_skip_field key m x s : plainKey key → apart key m → (x = 44 ∨ x = 125) →
  find_sub (quoted key) (field m ++ x :: s) = (λ n, (length (field m) + n)%nat) <$> find_sub (quoted key) (x :: s).
Proof.
  intros Hk (H1 & H2 & H3) Hx. unfold field. rewrite <- !app_assoc. cbn [app].
  rewrite find_skip_token by (auto using escape_no_quote).
  rewrite (find_skip_one key 58) by done.
  pose proof (value_no_quote m.2) as Hv. destruct m.2 as [v|z|b]; cbn [valueText] in *.
  - destruct H3 as [H3 H4]. change ([cQuote] ++ escape v ++ [cQuote]) with (quoted (escape v)).
    rewrite find_skip_token by (tauto || by apply escape_no_quote).
    destruct (find_sub _ (x :: s)); [|done]. cbn [fmap option_fmap option_map]. f_equal.
    unfold quoted. app_lengths.
  - rewrite find_skip_text by done. destruct (find_sub _ (x :: s)); [|done]. cbn [fmap option_fmap option_map]. f_equal.
    unfold quoted. app_lengths.
  - rewrite find_skip_text by done. destruct (find_sub _ (x :: s)); [|done]. cbn [fmap option_fmap option_map]. f_equal.
    unfold quoted. app_lengths.
Qed.

Lemma member_field m body : member m.1 (valueText m.2) body = separate body ++ field m.
Proof. unfold member, field, quoted. by rewrite <- !app_assoc. Qed.

Lemma field_nonempty m : field m ≠ [].
Proof. done. Qed.

Lemma members_more ms : ∀ body, body ≠ [] →
  foldl (λ body m, member m.1 (valueText m.2) body) body ms = body ++ concat ((λ m, 44 :: field m) <$> ms).
Proof.
  induction ms as [|m ms IH]; intros body Hb; cbn [foldl fmap list_fmap concat]; [by rewrite app_nil_r|].
  rewrite member_field. unfold separate. rewrite bool_decide_false by done.
  rewrite IH; [by rewrite <- !app_assoc|]. intros H. by apply app_eq_nil in H as [_ ?].
Qed.

(** What follows a member. *)
Definition tailText (post : list (bytes * Value)) : bytes := concat ((λ m, 44 :: field m) <$> post) ++ [125].

Lemma tailText_head post : ∃ x r, tailText post = x :: r ∧ (x = 44 ∨ x = 125).
Proof. destruct post as [|m post]; unfold tailText; cbn; eauto. Qed.

Lemma document_split pre m post :
  document (pre ++ m :: post) =
  123 :: concat ((λ m, field m ++ [44]) <$> pre) ++ field m ++ tailText post.
Proof.
  unfold document, toString, tailText.
  assert (E : ∀ ms, foldl (λ body m, member m.1 (valueText m.2) body) [] ms =
    match ms with [] => [] | m :: ms => field m ++ concat ((λ m, 44 :: field m) <$> ms) end).
  { intros [|m0 ms]; [done|]. cbn [foldl]. rewrite member_field. unfold separate.
    rewrite bool_decide_true by done. by rewrite members_more. }
  rewrite E. cbn [app]. f_equal. clear E. destruct pre as [|m0 pre]; cbn [app fmap list_fmap concat];
    [by rewrite <- app_assoc|].
  assert (G : ∀ l, concat ((λ m, 44 :: field m) <$> (l ++ m :: post)) =
    44 :: concat ((λ m, field m ++ [44]) <$> l) ++ field m ++ concat ((λ m, 44 :: field m) <$> post)).
  { induction l as [|a l IH]; cbn [app fmap list_fmap concat]; [done|]. rewrite IH. by rewrite <- !app_assoc. }
  rewrite G. rewrite <- !app_assoc. cbn [app]. by rewrite <- !app_assoc.
Qed.

Lemma quoted_prefix key s : is_prefix (quoted key) (quoted key ++ s) = true.
Proof. apply is_prefix_spec. by eexists. Qed.

(** The member is found where it stands. *)
Lemma valueAt_document pre key v post : plainKey key → Forall (apart key) pre →
  valueAt (document (pre ++ (key, v) :: post)) key =
  Some (drop_while (λ c, c =? 32) (valueText v ++ tailText post)).
Proof.
  intros Hk Hpre. rewrite document_split. unfold valueAt.
  set (rest := field (key, v) ++ tailText post).
  assert (Hr : find_sub (quoted key) rest = Some 0%nat).
  { unfold rest, field. cbn [fst snd]. destruct Hk as (_&_&_&_&_&Hesc). rewrite Hesc, <- !app_assoc.
    unfold quoted at 2. cbn [app]. cbn [find_sub].
    change (cQuote :: (key ++ [cQuote]) ++ 58 :: valueText v ++ tailText post)
      with (quoted key ++ 58 :: valueText v ++ tailText post). by rewrite quoted_prefix. }
  assert (Hp : find_sub (quoted key) (concat ((λ m, field m ++ [44]) <$> pre) ++ rest) =
    Some (length (concat ((λ m, field m ++ [44]) <$> pre)))).
  { induction Hpre as [|m pre Hm _ IH]; [exact Hr|]. cbn [fmap list_fmap concat]. rewrite <- !app_assoc. cbn [app].
    rewrite find_skip_field by auto. rewrite (find_skip_one key 44) by done.
    rewrite IH. cbn [fmap option_fmap option_map]. f_equal. app_lengths. }
  rewrite (find_skip_one key 123) by done.
  rewrite Hp. cbn [fmap option_fmap option_map length Nat.add].
  change (drop (S ?n) (123 :: ?l)) with (drop n l). rewrite drop_app_length.
  unfold rest, field, afterChar. cbn [fst snd]. destruct Hk as (_&_&H58&_&_&Hesc).
  rewrite Hesc. unfold quoted. rewrite <- !app_assoc. cbn [app].
  change (cQuote :: key ++ cQuote :: 58 :: valueText v ++ tailText post)
    with ((cQuote :: key) ++ [cQuote] ++ 58 :: valueText v ++ tailText post).
  rewrite app_assoc, find_char_app.
  - by rewrite drop_S_app.
  - rewrite not_elem_of_app, not_elem_of_cons. split_and!; [done|done|].
    intros Hc. by apply list_elem_of_singleton in Hc.
Qed.

Lemma untilQuote_escape s r : wf_bytes s → untilQuote (escape s ++ cQuote :: r) = Some (escape s).
Proof.
  induction s as [|c s IH]; intros Hw; [done|]. apply Forall_cons in Hw as [Hc Hw]. specialize (IH Hw).
  rewrite escape_cons, <- app_assoc. destruct (escapeChar_cases c Hc) as [[_ ->]|[_ [(-> & H1 & H2)|(d & -> & _)]]].
  - exact IH.
  - cbn [app untilQuote]. rewrite (proj2 (Z.eqb_neq c cQuote)), (proj2 (Z.eqb_neq c cBackslash)) by done. by rewrite IH.
  - cbn [app untilQuote]. by rewrite IH.
Qed.

Lemma digits_dec fuel : ∀ y acc r, 0 <= y < 2 ^ Z.of_nat fuel → 
  digits (dec_loop fuel y acc ++ r) 0 = digits (acc ++ r) y.
Proof.
  induction fuel as [|f IH]; intros y acc r Hy; cbn [dec_loop].
  { replace y with 0 by (cbn in Hy; lia). done. }
  assert (Hd : ∀ a, digits ((48 + y mod 10 :: acc) ++ r) a = digits (acc ++ r) (a * 10 + y mod 10)).
  { intros a. cbn [app digits]. assert (isDigit (48 + y mod 10) = true) as -> by
      (unfold isDigit; apply andb_true_iff; split; apply Z.leb_le; zdm).
    by replace (48 + y mod 10 - 48) with (y mod 10) by lia. }
  destruct (Z.eqb_spec (y / 10) 0) as [E|E].
  - rewrite Hd. f_equal. zdm.
  - rewrite IH, Hd; [f_equal; zdm|]. rewrite Nat2Z.inj_succ, Z.pow_succ_r in Hy by lia. zdm.
Qed.

Lemma dec_head z : 0 <= z → ∃ c s, dec z = c :: s ∧ isDigit c = true.
Proof.
  intros Hz. unfold dec. cbn [dec_loop].
  assert (Hgo : ∀ fuel y acc, 0 <= y → (∃ c s, acc = c :: s ∧ isDigit c = true) →
    ∃ c s, dec_loop fuel y acc = c :: s ∧ isDigit c = true).
  { induction fuel as [|f IH]; intros y acc Hy Ha; cbn [dec_loop]; [done|].
    assert (∃ c s, 48 + y mod 10 :: acc = c :: s ∧ isDigit c = true) as H.
    { eexists _, _. split; [done|]. unfold isDigit. apply andb_true_iff; split; apply Z.leb_le; zdm. }
    destruct (y / 10 =? 0); [exact H|]. apply IH; [zdm|exact H]. }
  assert (∃ c s, [48 + z mod 10] = c :: s ∧ isDigit c = true) as H.
  { eexists _, _. split; [done|]. unfold isDigit. apply andb_true_iff; split; apply Z.leb_le; zdm. }
  destruct (z / 10 =? 0); [exact H|]. apply Hgo; [zdm|exact H].
Qed.

Lemma digits_number z x r : 0 <= z → isDigit x = false → digits (dec z ++ x :: r) 0 = z.
Proof.
  intros Hz Hx. unfold dec. rewrite digits_dec.
  - cbn [app digits]. by rewrite Hx.
  - split; [done|]. rewrite Nat2Z.inj_succ, Z2Nat.id by apply Z.log2_nonneg.
    destruct (Z.eq_dec z 0) as [->|Hn]; [done|]. apply Z.log2_spec. lia.
Qed.

Lemma atoi_number z x r : isDigit x = false → atoi (decInt z ++ x :: r) = z.
Proof.
  intros Hx. unfold decInt. destruct (Z.ltb_spec z 0) as [Hz|Hz].
  - unfold atoi. cbn [app drop_while]. change (isspace 45) with false. cbn [Z.eqb Pos.eqb].
    rewrite digits_number by (done || lia). lia.
  - destruct (dec_head z Hz) as (c & s & E & Hc). unfold atoi.
    pose proof (digits_number z x r Hz Hx) as Hd. rewrite E in *. cbn [app] in *.
    assert (48 <= c <= 57) as Hr by (unfold isDigit in Hc; apply andb_true_iff in Hc as [?%Z.leb_le ?%Z.leb_le]; lia).
    assert (isspace c = false) as Hs by
      (unfold isspace; rewrite (proj2 (Z.eqb_neq c 32)), (proj2 (Z.leb_gt c 13)) by lia; by rewrite andb_false_r).
    cbn [drop_while]. rewrite Hs, (proj2 (Z.eqb_neq c 45)), (proj2 (Z.eqb_neq c 43)) by lia. exact Hd.
Qed.

(** What a member can hold: the bytes of a string, an [int]. *)
Definition fits (v : Value) : Prop :=
  match v with VStr s => wf_bytes s | VNum z => - 2 ^ 31 <= z < 2 ^ 31 | VBool _ => True end.

(** A member of a document made by the writer is read back by the scanner of
    its type - whatever it holds and whatever follows it - as long as no member before
    it can be taken for it. *)
Theorem written_read pre key v post : plainKey key → Forall (apart key) pre → fits v →
  let json := document (pre ++ (key, v) :: post) in
  match v with
  | VStr s => jsonGetStr json key = kept s
  | VNum z => ∀ def, jsonGetInt json key def = z
  | VBool b => ∀ def, jsonGetBool json key def = b
  end.
Proof.
  intros Hk Hpre Hv json. pose proof (valueAt_document pre key v post Hk Hpre) as E.
  destruct (tailText_head post) as (x & r & Et & Hx). rewrite Et in E. fold json in E.
  destruct v as [s|z|b]; cbn [valueText fits] in *.
  - unfold jsonGetStr. rewrite E. cbn [app drop_while Z.eqb Pos.eqb negb].
    rewrite <- app_assoc. cbn [app]. rewrite untilQuote_escape by done. by apply unescape_escape.
  - intros def. unfold jsonGetInt. rewrite E.
    assert (Hd : isDigit x = false) by (destruct Hx as [-> | ->]; done).
    rewrite drop_while_id.
    + assert (∃ c t, decInt z ++ x :: r = c :: t) as (c & t & Ec).
      { unfold decInt. destruct (Z.ltb_spec z 0); [by eexists _, _|].
        destruct (dec_head z ltac:(lia)) as (c & s & -> & _). by eexists _, _. }
      pose proof (atoi_number z x r Hd) as Ha. rewrite Ec in *. exact Ha.
    + intros c t. unfold decInt. destruct (Z.ltb_spec z 0); [by intros [= <-]|].
      destruct (dec_head z ltac:(lia)) as (c' & s & -> & Hc). intros [= -> _]. apply Z.eqb_neq. intros ->. done.
  - intros def. unfold jsonGetBool. rewrite E. by destruct b.
Qed.

Lemma written_read_witness :
  jsonGetStr (document ([(lit "enabled", VBool true); (lit "port", VNum 53)] ++
    (lit "name", VStr [97; 34; 58; 98]) :: [(lit "ip", VStr (lit "1.2.3.4"))])) (lit "name") = [97; 34; 58; 98].
Proof.
  apply (written_read [(lit "enabled", VBool true); (lit "port", VNum 53)] (lit "name") (VStr [97; 34; 58; 98])
    [(lit "ip", VStr (lit "1.2.3.4"))]).
  - split_and!; try (vm_compute; discriminate); try reflexivity; apply (bool_decide_unpack _); vm_compute; exact I.
  - repeat apply List.Forall_cons; try apply List.Forall_nil; split_and!; try exact I;
      try (vm_compute; discriminate); apply (bool_decide_unpack _); vm_compute; exact I.
  - repeat constructor; discriminate.
Defined.

(** The condition is needed.  A text that ends in a quote and a key, or that is the key,
    is taken for the key, and the value of another member is read. *)
Example quoted_text_is_a_key :
  jsonGetStr (document [(lit "a", VStr (lit "x" ++ [34] ++ lit "b")); (lit "c", VStr (lit "v"));
                        (lit "b", VStr (lit "w"))]) (lit "b") = lit "v" ∧
  jsonGetStr (document [(lit "a", VStr (lit "b")); (lit "c", VStr (lit "v")); (lit "b", VStr (lit "w"))]) (lit "b")
  = lit "v".
Proof. split; vm_compute; reflexivity. Qed.

End JsonRead.

(** ** Keys the firmware does not know ([unknownSettingsKeys]) *)

Module SettingsImportScan.
Import JsonWriter JsonRead.

Definition isJsonSpace (c : Z) : bool := (c =? 32) || (c =? 9) || (c =? 10) || (c =? 13).

(** The token after an opening quote and what follows its closing one. *)
Fixpoint token (s : bytes) : option (bytes * bytes) :=
  match s with
  | [] => None
  | c :: s' =>
      if c =? cQuote then Some ([], s')
      else if c =? cBackslash then
        match s' with
        | [] => None
        | d :: s'' => (λ x, (c :: d :: x.1, x.2)) <$> token s''
        end
      else (λ x, (c :: x.1, x.2)) <$> token s'
  end.

Definition add (known : list bytes) (key : bytes) (out : list bytes) : list bytes :=
  if bool_decide (key ∈ known) then out else if bool_decide (key ∈ out) then out else out ++ [key].

(** [before] is the text before [s], last character first. *)
Fixpoint scan (fuel : nat) (known : list bytes) (before s : bytes) (out : list bytes) : run (list bytes) :=
  match fuel with
  | O => OutOfFuel
  | S fuel' =>
      match s with
      | [] => mret out
      | c :: s' =>
          if negb (c =? cQuote) then scan fuel' known (c :: before) s' out
          else
            match token s' with
            | None => mret out
            | Some (key, rest) =>
                let before' := cQuote :: reverse key ++ cQuote :: before in
                let isKey :=
                  match drop_while isJsonSpace before with
                  | x :: _ => (x =? 123) || (x =? 44)
                  | [] => false
                  end &&
                  match drop_while isJsonSpace rest with x :: _ => x =? 58 | [] => false end in
                scan fuel' known before' rest (if isKey then add known key out else out)
            end
      end
  end.

Definition unknownSettingsKeys (body : bytes) (known : list bytes) : run (list bytes) :=
  scan (S (length body)) known [] body [].

Lemma token_escape s r : wf_bytes s → token (escape s ++ cQuote :: r) = Some (escape s, r).
Proof.
  induction s as [|c s IH]; intros Hw; [done|]. apply Forall_cons in Hw as [Hc Hw]. specialize (IH Hw).
  rewrite escape_cons, <- app_assoc. destruct (escapeChar_cases c Hc) as [[_ ->]|[_ [(-> & H1 & H2)|(d & -> & _)]]].
  - exact IH.
  - cbn [app token]. rewrite (proj2 (Z.eqb_neq c cQuote)), (proj2 (Z.eqb_neq c cBackslash)) by done. by rewrite IH.
  - cbn [app token]. by rewrite IH.
Qed.

Lemma token_length s : ∀ k r, token s = Some (k, r) → (length r < length s)%nat.
Proof.
  assert (Hgo : ∀ n s, (length s <= n)%nat → ∀ k r, token s = Some (k, r) → (length r < length s)%nat).
  { clear. induction n as [|n IH]; intros [|c s] Hl k r; cbn [token length] in *; try done; [lia|].
    destruct (c =? cQuote); [intros [= <- <-]; lia|]. destruct (c =? cBackslash).
    - destruct s as [|d s]; [done|]. cbn [length] in Hl. destruct (token s) as [[k' r']|] eqn:E; [|done].
      intros [= <- <-]. cbn [length snd]. pose proof (IH s ltac:(lia) _ _ E). lia.
    - destruct (token s) as [[k' r']|] eqn:E; [|done]. intros [= <- <-]. cbn [snd].
      pose proof (IH s ltac:(lia) _ _ E). lia. }
  by apply (Hgo (length s)).
Qed.

(** The scan ends on every text. *)
Lemma scan_total fuel : ∀ known before s out, (length s < fuel)%nat → ∃ l, scan fuel known before s out = Done l.
Proof.
  induction fuel as [|f IH]; intros known before s out Hf; [lia|]. cbn [scan].
  destruct s as [|c s]; [by eexists|]. cbn [length] in Hf. destruct (negb (c =? cQuote)); [apply IH; lia|].
  destruct (token s) as [[k r]|] eqn:E; [|by eexists]. apply IH. apply token_length in E. lia.
Qed.

(** More fuel changes nothing. *)
Lemma scan_fuel f1 : ∀ f2 known before s out, (length s < f1)%nat → (length s < f2)%nat →
  scan f1 known before s out = scan f2 known before s out.
Proof.
  induction f1 as [|f1 IH]; intros [|f2] known before s out H1 H2; try lia. cbn [scan].
  destruct s as [|c s]; [done|]. cbn [length] in *. destruct (negb (c =? cQuote)); [apply IH; lia|].
  destruct (token s) as [[k r]|] eqn:E; [|done]. apply token_length in E. apply IH; lia.
Qed.

(** The scan without its fuel. *)
Definition scanAll (known : list bytes) (before s : bytes) (out : list bytes) : run (list bytes) :=
  scan (S (length s)) known before s out.

Lemma scanAll_char known before c s out : c ≠ cQuote →
  scanAll known before (c :: s) out = scanAll known (c :: before) s out.
Proof. intros Hc. unfold scanAll at 1. cbn [scan]. by rewrite (proj2 (Z.eqb_neq c cQuote)). Qed.

Lemma scanAll_text known t : ∀ before s out, cQuote ∉ t →
  scanAll known before (t ++ s) out = scanAll known (reverse t ++ before) s out.
Proof.
  induction t as [|c t IH]; intros before s out Hn; [done|]. apply not_elem_of_cons in Hn as [Hc Hn].
  cbn [app]. rewrite scanAll_char, IH, reverse_cons by done. by rewrite <- app_assoc.
Qed.

Lemma scanAll_token known before k r out : wf_bytes k →
  scanAll known before (quoted (escape k) ++ r) out =
  scanAll known (cQuote :: reverse (escape k) ++ cQuote :: before) r
    (if match drop_while isJsonSpace before with x :: _ => (x =? 123) || (x =? 44) | [] => false end &&
        match drop_while isJsonSpace r with x :: _ => x =? 58 | [] => false end
     then add known (escape k) out else out).
Proof.
  intros Hk. unfold scanAll at 1, quoted. rewrite <- !app_assoc. cbn [app scan]. rewrite Z.eqb_refl. cbn [negb].
  rewrite token_escape by done. apply scan_fuel; [|lia]. app_lengths.
Qed.

(** A member: its key is looked at, its value is not. *)
Lemma scanAll_field known b x k v r out : (x = 123 ∨ x = 44) → wf_bytes k → fits v →
  (∃ y r', r = y :: r' ∧ (y = 44 ∨ y = 125)) →
  ∃ b', scanAll known (x :: b) (field (k, v) ++ r) out = scanAll known b' r (add known (escape k) out).
Proof.
  intros Hx Hk Hv (y & r' & -> & Hy). unfold field. cbn [fst snd]. rewrite <- !app_assoc. cbn [app].
  rewrite scanAll_token by done.
  assert (E1 : drop_while isJsonSpace (x :: b) = x :: b) by (destruct Hx as [-> | ->]; done). rewrite E1.
  assert (E2 : (x =? 123) || (x =? 44) = true) by (destruct Hx as [-> | ->]; done). rewrite E2.
  change (drop_while isJsonSpace (58 :: ?l)) with (58 :: l). cbn [andb Z.eqb Pos.eqb].
  rewrite scanAll_char by done. set (b1 := 58 :: _). pose proof (value_no_quote v) as Hnq.
  destruct v as [s|z|bo]; cbn [valueText fits] in *.
  - change ([cQuote] ++ escape s ++ [cQuote]) with (quoted (escape s)). rewrite scanAll_token by done.
    unfold b1 at 2. change (drop_while isJsonSpace (58 :: ?l)) with (58 :: l). cbn [Z.eqb Pos.eqb orb andb].
    by eexists.
  - rewrite scanAll_text by done. by eexists.
  - rewrite scanAll_text by done. by eexists.
Qed.

Lemma scanAll_tail known post : ∀ b out, Forall (λ m, wf_bytes m.1 ∧ fits m.2) post →
  scanAll known b (tailText post) out = Done (foldl (λ o m, add known (escape m.1) o) out post).
Proof.
  induction post as [|[k v] post IH]; intros b out Hp; [reflexivity|].
  apply Forall_cons in Hp as [[Hk Hv] Hp]. unfold tailText. cbn [fmap list_fmap concat].
  rewrite <- app_assoc. change ((44 :: field (k, v)) ++ ?l) with (44 :: field (k, v) ++ l).
  rewrite scanAll_char by done.
  destruct (scanAll_field known b 44 k v (tailText post) out) as [b' E]; [auto|done|done|apply tailText_head|].
  unfold tailText in E. rewrite E. by rewrite (IH b').
Qed.

(** Of a document the writer made, whatever its values hold, the scan reports
    the keys that are not known - all of them, nothing else, each once, in order. *)
Theorem unknown_exact ms known : Forall (λ m, wf_bytes m.1 ∧ fits m.2) ms →
  unknownSettingsKeys (document ms) known = Done (foldl (λ o m, add known (escape m.1) o) [] ms).
Proof.
  intros Hms. unfold unknownSettingsKeys. fold (scanAll known [] (document ms) []).
  destruct ms as [|[k v] ms]; [reflexivity|].
  pose proof (document_split [] (k, v) ms) as E. cbn [app fmap list_fmap concat] in E. rewrite E.
  rewrite scanAll_char by done. apply Forall_cons in Hms as [[Hk Hv] Hms].
  destruct (scanAll_field known [] 123 k v (tailText ms) []) as [b' E']; [auto|done|done|apply tailText_head|].
  rewrite E'. by rewrite scanAll_tail.
Qed.

Lemma unknown_exact_witness :
  unknownSettingsKeys (document [(lit "wifi", VStr [34; 44; 34; 120; 34; 58]); (lit "new", VNum 1);
    (lit "new", VBool true)]) [lit "wifi"] = Done [lit "new"].
Proof.
  apply (unknown_exact [(lit "wifi", VStr [34; 44; 34; 120; 34; 58]); (lit "new", VNum 1); (lit "new", VBool true)]
    [lit "wifi"]).
  repeat apply List.Forall_cons; try apply List.Forall_nil; split; cbn [fst snd fits]; try exact I;
    try (split; discriminate || reflexivity); apply (bool_decide_unpack _); vm_compute; exact I.
Defined.

End SettingsImportScan.
