(* ===== verification/ConfigBlobs.v ===== *)
(** * The two lists kept as text in the settings ([src/core/Config.cpp])

    Local hosts and static bindings: one line per entry, fields between bars, at most
    512 bytes.  What the two formats share is the class [BlobEntry]; its laws are all
    the round trip needs. *)
From stdpp Require Import gmap.
From S2P Require Import Prelude Text AllowedList DhcpLifecycle DnsServer.
#[local] Open Scope Z_scope.

(** ** Lists of lines of fields *)

(** [fields] is what an entry is written as, [ofLine] how a line is read: nothing for a
    line that is skipped. *)
Class BlobEntry (A : Type) := {
  fields : A → list bytes;
  ofLine : bytes → option A;
}.

(** A written entry is read as [clean] makes it, or skipped when it is not [valid]. *)
Class BlobEntryLaws (A : Type) `{BlobEntry A} := {
  clean : A → A;
  valid : A → bool;
  fields_plain a : Forall (λ f, 124 ∉ f ∧ 10 ∉ f) (fields a);
  fields_several a : (2 <= length (fields a))%nat;
  ofLine_fields a : ofLine (join 124 (fields a)) = if valid a then Some (clean a) else None;
}.

Section Blob.
Context {A : Type} `{BlobEntry A}.

(** The writing loop: a line feed before every entry but the first. *)
Definition blobText (l : list A) : bytes :=
  fold_left (λ text a, (if bool_decide (text = []) then text else text ++ [10]) ++ join 124 (fields a)) l [].

Definition readText (text : bytes) : list A :=
  omap (λ line, if bool_decide (line = []) then None else ofLine line) (split_on 10 text).

(** What is kept in the settings: [None] when there is no such key. *)
Definition getList (blob : option bytes) : list A :=
  match blob with None => [] | Some text => if bool_decide (text = []) then [] else readText text end.

(** [nvs] is whether the settings can be written. *)
Definition setList (max : nat) (nvs : bool) (l : list A) (blob : option bytes) : bool * option bytes :=
  if bool_decide (l = []) then (nvs, if nvs then None else blob)
  else
    let text := blobText l in
    if (max <? length text)%nat then (false, blob)
    else (nvs, if nvs then Some text else blob).

End Blob.

Section BlobLaws.
Context {A : Type} `{BlobEntryLaws A}.

Lemma rowText_nonempty (a : A) : join 124 (fields a) ≠ [].
Proof.
  pose proof (fields_several a) as Hl. destruct (fields a) as [|f [|g r]]; cbn in Hl; [lia..|].
  cbn. intros E. by apply app_eq_nil in E as [_ ?].
Qed.

Lemma blobText_join (l : list A) : blobText l = join 10 ((λ a, join 124 (fields a)) <$> l).
Proof.
  unfold blobText. induction l as [|a l IH] using rev_ind; [done|].
  rewrite fold_left_app, IH, fmap_app. cbn [fold_left fmap list_fmap]. rewrite join_snoc.
  destruct l as [|b l]; [done|]. rewrite !bool_decide_false; [by rewrite <- app_assoc|done|].
  cbn. intros E. apply app_eq_nil in E as [E _]. by apply rowText_nonempty in E.
Qed.

Lemma row_plain (a : A) : 10 ∉ join 124 (fields a).
Proof. apply join_notin; [done|]. eapply Forall_impl; [apply fields_plain|]. by intros f [_ ?]. Qed.

(** Reading a written list. *)
Lemma read_blobText (l : list A) : readText (blobText l) = clean <$> List.filter valid l.
Proof.
  rewrite blobText_join. unfold readText. destruct (decide (l = [])) as [->|Hl]; [done|].
  rewrite split_join.
  - clear Hl. induction l as [|a l IH]; [done|]. cbn [fmap list_fmap omap list_omap].
    rewrite bool_decide_false by apply rowText_nonempty. rewrite ofLine_fields, IH. cbn [List.filter].
    by destruct (valid a).
  - by destruct l.
  - apply Forall_fmap, Forall_true. intros a. apply row_plain.
Qed.

(** What is stored is read back; a list that does not fit leaves the settings alone. *)
Lemma set_get max nvs (l : list A) blob ok blob' : setList max nvs l blob = (ok, blob') →
  (ok = true → getList blob' = clean <$> List.filter valid l ∧
               default 0%nat (length <$> blob') <= max)%nat ∧
  (ok = false → blob' = blob).
Proof.
  unfold setList. case_bool_decide as Hl.
  - subst l. intros [= <- <-]. destruct nvs; split; try done. intros _. split; [done|cbn; lia].
  - destruct (Nat.ltb_spec max (length (blobText l))); [by intros [= <- <-]|].
    intros [= <- <-]. destruct nvs; split; try done. intros _. cbn [from_option fmap option_fmap option_map default].
    split; [|exact H1]. unfold getList. rewrite bool_decide_false; [by apply read_blobText|].
    rewrite blobText_join. destruct l as [|a l]; [done|]. cbn. intros E.
    apply app_eq_nil in E as [E _]. by apply rowText_nonempty in E.
Qed.

End BlobLaws.

(** A written field holds no separator. *)
Lemma storageFieldText_plain s : 124 ∉ AllowedList.storageFieldText s ∧ 10 ∉ AllowedList.storageFieldText s.
Proof.
  assert (Hgo : ∀ c, c = 124 ∨ c = 10 → c ∉ AllowedList.storageFieldText s).
  { intros c Hc (x & E & _)%list_elem_of_fmap. revert E.
    destruct (Z.eqb_spec x 124), (Z.eqb_spec x 10), (Z.eqb_spec x 13); cbn; lia. }
  split; apply Hgo; auto.
Qed.

Definition flagText (b : bool) : bytes := if b then lit "1" else lit "0".
Definition flagOf (s : bytes) : bool := negb (bytes_eqb s (lit "0")).

Lemma flagText_plain b : 124 ∉ flagText b ∧ 10 ∉ flagText b.
Proof. split; apply (bool_decide_unpack _); by destruct b. Qed.

Lemma flagOf_flagText b : flagOf (flagText b) = b.
Proof. by destruct b. Qed.

(** ** Local hosts *)

Module LocalHosts.
Import AllowedList DnsServer.

Definition kMaxLocalHostsBytes : nat := 512.

Definition hostFields (h : HostEntry) : list bytes :=
  [storageFieldText (hName h); storageFieldText (hIp4 h); storageFieldText (hIp6 h); flagText (hEnabled h)].

Definition hostOfLine (line : bytes) : option HostEntry :=
  match find_char 124 line with
  | None => None
  | Some p1 =>
      let nm := take p1 line in
      let rest := drop (S p1) line in
      let e :=
        match find_char 124 rest with
        | None => mkHost nm rest [] true
        | Some p2 =>
            let rest2 := drop (S p2) rest in
            match find_char 124 rest2 with
            | None => mkHost nm (take p2 rest) rest2 true
            | Some p3 => mkHost nm (take p2 rest) (take p3 rest2) (flagOf (drop (S p3) rest2))
            end
        end in
      if negb (bool_decide (hName e = [])) &&
         (negb (bool_decide (hIp4 e = [])) || negb (bool_decide (hIp6 e = [])))
      then Some e else None
  end.

#[export] Instance hostBlob : BlobEntry HostEntry := { fields := hostFields; ofLine := hostOfLine }.

Definition cleanHost (h : HostEntry) : HostEntry :=
  mkHost (storageFieldText (hName h)) (storageFieldText (hIp4 h)) (storageFieldText (hIp6 h)) (hEnabled h).

Definition named (h : HostEntry) : bool :=
  negb (bool_decide (hName h = [])) && (negb (bool_decide (hIp4 h = [])) || negb (bool_decide (hIp6 h = []))).

Lemma find_field f s : 124 ∉ f → find_char 124 (f ++ 124 :: s) = Some (length f).
Proof. apply find_char_app. Qed.

Lemma take_field (f s : bytes) : take (length f) (f ++ 124 :: s) = f.
Proof. by rewrite take_app_length. Qed.

Lemma hostOfLine_row h : hostOfLine (join 124 (hostFields h)) = if named (cleanHost h) then Some (cleanHost h) else None.
Proof.
  destruct h as [nm i4 i6 en]. unfold hostFields, cleanHost. cbn [hName hIp4 hIp6 hEnabled].
  destruct (storageFieldText_plain nm) as [H1 _], (storageFieldText_plain i4) as [H2 _],
    (storageFieldText_plain i6) as [H3 _].
  cbn [join fmap list_fmap concat]. rewrite app_nil_r. cbn [app]. unfold hostOfLine.
  rewrite find_field, take_field, drop_S_app by done. cbv zeta.
  rewrite find_field, take_field, drop_S_app by done.
  rewrite find_field, take_field, drop_S_app by done. by rewrite flagOf_flagText.
Qed.

#[export] Instance hostBlobLaws : BlobEntryLaws HostEntry.
Proof.
  refine {| clean := cleanHost; valid h := named (cleanHost h) |}.
  - intros h. repeat apply List.Forall_cons; auto using storageFieldText_plain, flagText_plain.
  - intros h. cbn. lia.
  - exact hostOfLine_row.
Defined.

Definition getLocalHosts (blob : option bytes) : list HostEntry := getList blob.
Definition setLocalHosts (nvs : bool) (hosts : list HostEntry) (blob : option bytes) : bool * option bytes :=
  setList kMaxLocalHostsBytes nvs hosts blob.

Definition localHostsBytes (blob : option bytes) : Z :=
  Z.of_nat (length (fold_left (λ text h,
    (if bool_decide (text = []) then text else text ++ [10]) ++
    join 124 [hName h; hIp4 h; hIp6 h; flagText (hEnabled h)]) (getLocalHosts blob) [])).

(** A list of hosts that was accepted is what the next start reads: every entry
    with a name and an address, its fields trimmed and free of separators, in order; a
    list that was refused leaves the stored one alone. *)
Theorem hosts_roundtrip nvs hosts blob ok blob' : setLocalHosts nvs hosts blob = (ok, blob') →
  (ok = true → getLocalHosts blob' = List.filter named (cleanHost <$> hosts)) ∧
  (ok = false → blob' = blob).
Proof.
  intros E. destruct (set_get _ _ _ _ _ _ E) as [H1 H2]. split; [|exact H2]. intros Hok.
  destruct (H1 Hok) as [H _]. unfold getLocalHosts. rewrite H. clear.
  induction hosts as [|h l IH]; [done|]. cbn [fmap list_fmap List.filter].
  change (valid h) with (named (cleanHost h)). destruct (named (cleanHost h)); [|exact IH].
  cbn [fmap list_fmap]. by rewrite IH.
Qed.

Definition twoHosts : list HostEntry :=
  [mkHost (lit " a|b ") (lit "10.0.0.7") [] true; mkHost (lit "nas") [] (lit "fd00::1") false].

Lemma hosts_roundtrip_witness :
  getLocalHosts (setLocalHosts true twoHosts None).2 = 
  [mkHost (lit "a b") (lit "10.0.0.7") [] true; mkHost (lit "nas") [] (lit "fd00::1") false].
Proof.
  destruct (hosts_roundtrip true twoHosts None true (setLocalHosts true twoHosts None).2 eq_refl) as [H _].
  exact (H eq_refl).
Defined.

End LocalHosts.

(** ** Static bindings *)

Module StaticBindings.
Import AllowedList.

Definition kMaxBindingsBytes : nat := 512.

Record StaticBinding := mkBinding {
  mac : bytes;
  ip : bytes;
  name : bytes;
  gateway : bytes;
  useGateway : bool;
  enabled : bool;
  useDns : bool;
}.

Definition bindingFields (b : StaticBinding) : list bytes :=
  [storageFieldText (mac b); storageFieldText (ip b); storageFieldText (name b); storageFieldText (gateway b);
   flagText (useGateway b); flagText (enabled b); flagText (useDns b)].

(** Fields that are missing keep the defaults of the structure. *)
Definition bindingOfLine (line : bytes) : option StaticBinding :=
  let f := split_on 124 line in
  let at_ n := nth n f [] in
  let flag n := if (n <? length f)%nat then flagOf (at_ n) else true in
  let b := mkBinding (at_ 0%nat) (at_ 1%nat) (at_ 2%nat) (at_ 3%nat) (flag 4%nat) (flag 5%nat) (flag 6%nat) in
  if negb (bool_decide (mac b = [])) && negb (bool_decide (ip b = [])) then Some b else None.

#[export] Instance bindingBlob : BlobEntry StaticBinding := { fields := bindingFields; ofLine := bindingOfLine }.

Definition cleanBinding (b : StaticBinding) : StaticBinding :=
  mkBinding (storageFieldText (mac b)) (storageFieldText (ip b)) (storageFieldText (name b))
    (storageFieldText (gateway b)) (useGateway b) (enabled b) (useDns b).

Definition bound (b : StaticBinding) : bool := negb (bool_decide (mac b = [])) && negb (bool_decide (ip b = [])).

Lemma bindingFields_plain b : Forall (λ f, 124 ∉ f ∧ 10 ∉ f) (bindingFields b).
Proof. repeat apply List.Forall_cons; auto using storageFieldText_plain, flagText_plain. Qed.

Lemma bindingOfLine_row b : bindingOfLine (join 124 (bindingFields b)) =
  if bound (cleanBinding b) then Some (cleanBinding b) else None.
Proof.
  unfold bindingOfLine. rewrite split_join; [|done|].
  - cbn [bindingFields nth length Nat.ltb Nat.leb]. by rewrite !flagOf_flagText.
  - eapply Forall_impl; [apply bindingFields_plain|]. by intros f [? _].
Qed.

#[export] Instance bindingBlobLaws : BlobEntryLaws StaticBinding.
Proof.
  refine {| clean := cleanBinding; valid b := bound (cleanBinding b) |}.
  - exact bindingFields_plain.
  - intros b. cbn. lia.
  - exact bindingOfLine_row.
Defined.

Definition getStaticBindings (blob : option bytes) : list StaticBinding := getList blob.
Definition setStaticBindings (nvs : bool) (l : list StaticBinding) (blob : option bytes) : bool * option bytes :=
  setList kMaxBindingsBytes nvs l blob.

Definition staticBindingsBytes (blob : option bytes) : Z :=
  Z.of_nat (length (fold_left (λ text b,
    (if bool_decide (text = []) then text else text ++ [10]) ++
    join 124 [mac b; ip b; name b; gateway b; flagText (useGateway b); flagText (enabled b); flagText (useDns b)])
    (getStaticBindings blob) [])).

(** What the DHCP server reads of them. *)
Definition forServer (b : StaticBinding) : DhcpLifecycle.StaticBinding :=
  DhcpLifecycle.mkBinding (mac b) (ip b) (gateway b) (useGateway b) (enabled b) (useDns b).

(** Stored bindings are read back, and [staticBindingsBytes] is the size of what is stored
    when nothing in it had to be cleaned. *)
Lemma bindings_roundtrip nvs l blob blob' : setStaticBindings nvs l blob = (true, blob') →
  getStaticBindings blob' = List.filter bound (cleanBinding <$> l).
Proof.
  intros E. destruct (set_get _ _ _ _ _ _ E) as [H _]. destruct (H eq_refl) as [Hg _].
  unfold getStaticBindings. rewrite Hg. clear. induction l as [|b l IH]; [done|].
  cbn [fmap list_fmap List.filter]. change (valid b) with (bound (cleanBinding b)).
  destruct (bound (cleanBinding b)); [|exact IH]. cbn [fmap list_fmap]. by rewrite IH.
Qed.

Lemma fold_left_rows {A} (f g : A → bytes) l : Forall (λ a, f a = g a) l → ∀ acc : bytes,
  fold_left (λ text a, (if bool_decide (text = []) then text else text ++ [10]) ++ f a) l acc =
  fold_left (λ text a, (if bool_decide (text = []) then text else text ++ [10]) ++ g a) l acc.
Proof. induction 1 as [|a l E _ IH]; intros acc; [done|]. cbn [fold_left]. by rewrite E, IH. Qed.

Lemma bytes_reported l blob blob' : setStaticBindings true l blob = (true, blob') → l ≠ [] →
  Forall (λ b, bound b = true ∧ cleanBinding b = b) l →
  staticBindingsBytes blob' = Z.of_nat (default 0%nat (length <$> blob')).
Proof.
  intros E Hl Hc. unfold staticBindingsBytes. rewrite (bindings_roundtrip _ _ _ _ E).
  assert (List.filter bound (cleanBinding <$> l) = l) as ->.
  { clear E Hl. induction Hc as [|b l [Hb Hcl] _ IH]; [done|]. cbn [fmap list_fmap List.filter].
    by rewrite Hcl, Hb, IH. }
  unfold setStaticBindings, setList in E. rewrite bool_decide_false in E by done.
  destruct (Nat.ltb_spec kMaxBindingsBytes (length (blobText l))); [done|]. injection E as <-. cbn.
  do 2 f_equal. unfold blobText. apply fold_left_rows. eapply Forall_impl; [exact Hc|]. intros b [_ Hb].
  destruct b. unfold cleanBinding in Hb. cbn in Hb. injection Hb as E1 E2 E3 E4. cbn. by rewrite E1, E2, E3, E4.
Qed.

End StaticBindings.
