(* ===== verification/HostsApi.v ===== *)
(** * Setting the local hosts over HTTP ([handlePostLocalHosts] of src/web/RestApi.cpp)

    From the request body to the stored list and to the running DNS server: a client of
    [Json], [ConfigBlobs] and [DnsServer]. *)
From stdpp Require Import gmap.
From S2P Require Import Prelude Text AllowedList DnsCodec DnsCache DnsServer Json ConfigBlobs.
#[local] Open Scope Z_scope.

Module HostsApi.
Import DnsServer LocalHosts JsonRead.

Definition kMaxBody : nat := 4096.

(** [readBody]: at most [maxLen] bytes of what arrives. *)
Definition readBody (maxLen : nat) (arrived : bytes) : bytes := take maxLen arrived.

(** One entry from each place where ["name"] stands between quotes. *)
Fixpoint postedHosts (fuel : nat) (body : bytes) : run (list HostEntry) :=
  match fuel with
  | O => OutOfFuel
  | S fuel' =>
      match find_sub (quoted (lit "name")) body with
      | None => mret []
      | Some pos =>
          let s := drop pos body in
          let e := mkHost (jsonGetStr s (lit "name")) (jsonGetStr s (lit "ip4")) (jsonGetStr s (lit "ip6"))
                     (jsonGetBool s (lit "enabled") true) in
          l ← postedHosts fuel' (drop 1 s);
          mret (if named e then e :: l else l)
      end
  end.

Inductive Response := Unauthorized | EmptyBody | StatusOk.

(** The settings afterwards, and the hosts the server answers with. *)
Definition handlePostLocalHosts (authorized nvs : bool) (arrived : bytes) (blob : option bytes) (c : Settings)
  : run (Response * option bytes * Settings) :=
  if negb authorized then mret (Unauthorized, blob, c)
  else
    let body := readBody kMaxBody arrived in
    if bool_decide (body = []) then mret (EmptyBody, blob, c)
    else
      hosts ← postedHosts (S (length body)) body;
      let blob := (setLocalHosts nvs hosts blob).2 in
      mret (StatusOk, blob,
            mkSettings (loadHosts hosts) (localNameEnabled c) (localNameHost c) (localNameIp4 c) (localNameIp6 c)
              (blockForwardNonAA c) (subnetFilter c)).

(** [handleGetLocalHosts]: the list as JSON. *)
Definition hostJson (h : HostEntry) : bytes :=
  lit "{" ++ [34] ++ lit "name" ++ [34; 58; 34] ++ JsonWriter.escape (hName h) ++ [34; 44; 34] ++ lit "ip4" ++
  [34; 58; 34] ++ JsonWriter.escape (hIp4 h) ++ [34; 44; 34] ++ lit "ip6" ++ [34; 58; 34] ++
  JsonWriter.escape (hIp6 h) ++ [34; 44; 34] ++ lit "enabled" ++ [34; 58] ++
  (if hEnabled h then lit "true" else lit "false") ++ lit "}".

Definition handleGetLocalHosts (blob : option bytes) : bytes :=
  lit "{" ++ [34] ++ lit "hosts" ++ [34] ++ lit ":[" ++ join 44 (hostJson <$> getLocalHosts blob) ++ lit "]}".

(** ** The scan of the body ends *)

Lemma find_sub_lt p s i : p ≠ [] → find_sub p s = Some i → (i < length s)%nat.
Proof.
  intros Hp. revert i. induction s as [|c s IH]; intros i; cbn [find_sub length].
  - destruct p; [done|]. done.
  - destruct (is_prefix p (c :: s)); [intros [= <-]; lia|].
    destruct (find_sub p s) as [j|]; [|done]. intros [= <-]. specialize (IH j eq_refl). lia.
Qed.

Lemma postedHosts_total fuel : ∀ body, (length body < fuel)%nat → ∃ l, postedHosts fuel body = Done l ∧
  Forall (λ h, named h = true) l.
Proof.
  induction fuel as [|f IH]; intros body Hf; [lia|]. cbn [postedHosts].
  destruct (find_sub _ body) as [pos|] eqn:E; [|eexists; split; [done|constructor]].
  apply find_sub_lt in E; [|done].
  destruct (IH (drop 1 (drop pos body))) as (l & -> & Hl); [rewrite !length_drop; lia|].
  rewrite run_bind_done. eexists. split; [reflexivity|]. by destruct (named _) eqn:En; [constructor|].
Qed.

(** ** A stored list fits the answers of the server *)

Definition addresses (h : HostEntry) : nat :=
  ((if bool_decide (hIp4 h = []) then 0 else 1) + (if bool_decide (hIp6 h = []) then 0 else 1))%nat.

Definition total (l : list HostEntry) : nat := sum_list (addresses <$> l).

Definition at_most (n : nat) (m : gmap bytes (list bytes)) : Prop := map_Forall (λ _ ips, (length ips <= n)%nat) m.

Lemma addLocalHost_at_most name ip n m : at_most n m → at_most (S n) (addLocalHost name ip m).
Proof.
  intros H nm ips E. unfold addLocalHost in E. apply lookup_insert_Some in E as [[<- <-]|[_ E]].
  - rewrite length_app. cbn. destruct (m !! name) as [l|] eqn:El; cbn; [|lia]. specialize (H _ _ El). cbn in H. lia.
  - specialize (H _ _ E). cbn in H. lia.
Qed.

Lemma at_most_mono n n' m : (n <= n')%nat → at_most n m → at_most n' m.
Proof. intros Hn H nm ips E. specialize (H _ _ E). cbn in *. lia. Qed.

Lemma loadHosts_at_most l : at_most (total l) (loadHosts l).
Proof.
  unfold loadHosts. assert (Hgo : ∀ l m n, at_most n m → at_most (n + total l) (fold_left (λ m h,
    if negb (hEnabled h) then m
    else
      let m := if bool_decide (hIp4 h = []) then m else addLocalHost (hName h) (hIp4 h) m in
      if bool_decide (hIp6 h = []) then m else addLocalHost (hName h) (hIp6 h) m) l m)).
  { clear l. induction l as [|h l IH]; intros m n Hm; cbn [fold_left].
    - eapply at_most_mono; [|exact Hm]. lia.
    - change (total (h :: l)) with (addresses h + total l)%nat. rewrite Nat.add_assoc. apply IH.
      unfold addresses. destruct (hEnabled h); cbn [negb]; [|eapply at_most_mono; [|exact Hm]; lia].
      destruct (bool_decide (hIp4 h = [])), (bool_decide (hIp6 h = [])).
      + by rewrite !Nat.add_0_r.
      + replace (n + (0 + 1))%nat with (S n) by lia. by apply addLocalHost_at_most.
      + replace (n + (1 + 0))%nat with (S n) by lia. by apply addLocalHost_at_most.
      + replace (n + (1 + 1))%nat with (S (S n)) by lia. by do 2 apply addLocalHost_at_most. }
  apply (Hgo l ∅ 0%nat). intros nm ips E. by rewrite lookup_empty in E.
Qed.

Lemma row_cost h : (4 * (if named (cleanHost h) then addresses (cleanHost h) else 0) <= length (join 124 (hostFields h)) + 1)%nat.
Proof.
  destruct h as [nm i4 i6 en]. unfold named, addresses, cleanHost, hostFields. cbn [hName hIp4 hIp6 hEnabled].
  generalize (AllowedList.storageFieldText nm) (AllowedList.storageFieldText i4) (AllowedList.storageFieldText i6).
  intros n a b. cbn [join fmap list_fmap concat].
  repeat (rewrite length_app || (progress (cbn [length app]))). destruct n, a, b, en; cbn; lia.
Qed.

Lemma rows_cost l : l ≠ [] →
  (length (blobText l) + 1 = sum_list ((λ h : HostEntry, length (join 124 (fields h)) + 1)%nat <$> l))%nat.
Proof.
  intros Hl. rewrite blobText_join. destruct l as [|h l]; [done|]. clear Hl. cbn [fmap list_fmap join].
  rewrite length_app. cbn [sum_list_with id].
  assert (length (concat (cons 10 <$> ((λ h : HostEntry, join 124 (fields h)) <$> l))) =
    sum_list ((λ h : HostEntry, length (join 124 (fields h)) + 1)%nat <$> l)) as ->; [|lia].
  induction l as [|g l IH]; [done|]. cbn [fmap list_fmap concat sum_list_with id]. rewrite length_app, <- IH. cbn [length]. lia.
Qed.

(** Whatever list was stored within the limit, the server started with it has at
    most 128 addresses for a name: the settings satisfy what the DNS server's safety
    rests on. *)
Theorem stored_hosts_fit nvs hosts blob blob' c : setLocalHosts nvs hosts blob = (true, blob') →
  hostsOk (mkSettings (loadHosts (getLocalHosts blob')) (localNameEnabled c) (localNameHost c) (localNameIp4 c)
             (localNameIp6 c) (blockForwardNonAA c) (subnetFilter c)).
Proof.
  intros E. destruct (set_get _ _ _ _ _ _ E) as [H _]. destruct (H eq_refl) as [Hg _]. clear H.
  unfold hostsOk. cbn [localHosts]. unfold getLocalHosts. rewrite Hg.
  apply (at_most_mono (total (clean <$> List.filter valid hosts))); [|apply loadHosts_at_most].
  assert (Hc : (4 * total (clean <$> List.filter valid hosts) <=
    sum_list ((λ h : HostEntry, length (join 124 (fields h)) + 1)%nat <$> hosts))%nat).
  { clear. induction hosts as [|h l IH]; [done|]. cbn [List.filter fmap list_fmap sum_list_with id].
    pose proof (row_cost h) as Hr. change (valid h) with (named (cleanHost h)).
    change (fields h) with (hostFields h). destruct (named (cleanHost h)); [|lia].
    cbn [fmap list_fmap]. change (total (clean h :: ?k)) with (addresses (cleanHost h) + total k)%nat. lia. }
  unfold setLocalHosts, setList in E. case_bool_decide as Hl; [subst hosts; cbn; lia|].
  destruct (Nat.ltb_spec kMaxLocalHostsBytes (length (blobText hosts))); [done|].
  rewrite <- rows_cost in Hc by done. unfold kMaxLocalHostsBytes in *. lia.
Qed.

Lemma stored_hosts_fit_witness : hostsOk (mkSettings (loadHosts (getLocalHosts (setLocalHosts true twoHosts None).2))
  true (lit "Router") (lit "192.168.1.1") [] false noFilter).
Proof. exact (stored_hosts_fit true twoHosts None (setLocalHosts true twoHosts None).2 (demoSettings noFilter) eq_refl). Defined.

(** ** What the handler does not check *)

(** An entry without a member takes the one of the next entry: the scan for a member
    does not stop at the end of the entry. *)
Example next_entry_read :
  (r ← handlePostLocalHosts true true
    (lit "[{" ++ [34] ++ lit "name" ++ [34; 58; 34] ++ lit "a" ++ [34; 44; 34] ++ lit "ip4" ++ [34; 58; 34] ++
     lit "1.1.1.1" ++ [34] ++ lit "},{" ++ [34] ++ lit "name" ++ [34; 58; 34] ++ lit "b" ++ [34; 44; 34] ++ lit "ip6" ++
     [34; 58; 34] ++ lit "::1" ++ [34] ++ lit "}]") None (demoSettings noFilter);
   mret (getLocalHosts r.1.2))
  = Done [mkHost (lit "a") (lit "1.1.1.1") (lit "::1") true; mkHost (lit "b") [] (lit "::1") true].
Proof. vm_compute. reflexivity. Qed.

(** A host whose name has a capital letter is never answered: the server looks the name
    of the query up in lower case, the list keeps it as it was typed. *)
Lemma capitals_never_answered hosts name : Forall (λ h, (tolower <$> hName h) ≠ hName h) hosts →
  loadHosts hosts !! (tolower <$> name) = None.
Proof.
  intros Hh. assert (Hgo : ∀ l m, Forall (λ h, (tolower <$> hName h) ≠ hName h) l →
    m !! (tolower <$> name) = None →
    fold_left (λ m h,
      if negb (hEnabled h) then m
      else
        let m := if bool_decide (hIp4 h = []) then m else addLocalHost (hName h) (hIp4 h) m in
        if bool_decide (hIp6 h = []) then m else addLocalHost (hName h) (hIp6 h) m) l m !! (tolower <$> name) = None).
  { clear. induction l as [|h l IH]; intros m [Hh Hl]%Forall_cons Hm || intros m Hl Hm; cbn [fold_left]; [done|].
    apply IH; [done|].
    assert (Hne : hName h ≠ tolower <$> name).
    { intros E. apply Hh. rewrite E, <- list_fmap_compose. apply list_fmap_ext. intros _ c _. cbn.
      unfold tolower. destruct ((65 <=? c) && (c <=? 90)) eqn:Ec; [|by rewrite Ec].
      apply andb_true_iff in Ec as [H1%Z.leb_le H2%Z.leb_le]. rewrite (proj2 (Z.leb_gt (c + 32) 90)) by lia.
      by rewrite andb_false_r. }
    unfold addLocalHost. destruct (hEnabled h); cbn [negb]; [|done].
    destruct (bool_decide (hIp4 h = [])), (bool_decide (hIp6 h = [])); by rewrite ?lookup_insert_ne. }
  by apply Hgo.
Qed.

(** A body of 146 entries for one name: too many for the settings, but the running
    server takes them all. *)
Definition entry146 : bytes :=
  lit "{" ++ [34] ++ lit "name" ++ [34; 58; 34] ++ lit "ab" ++ [34; 44; 34] ++ lit "ip6" ++ [34; 58; 34] ++ lit "::" ++
  [34] ++ lit "}".
Definition body146 : bytes := lit "[" ++ join 44 (replicate 146 entry146) ++ lit "]".

(** [inet_pton] accepts the unspecified address. *)
Definition anyV6 (s : bytes) : option bytes := if bytes_eqb s (lit "::") then Some (replicate 16 0) else None.

(** The list is not stored, the answer is "ok", and the next query for the name makes
    the server write past the end of its response buffer. *)
Example posted_hosts_overflow :
  (length body146 <= kMaxBody)%nat ∧
  (r ← handlePostLocalHosts true true body146 None (demoSettings noFilter);
   mret (r.1.1, r.1.2)) = Done (StatusOk, None) ∧
  (r ← handlePostLocalHosts true true body146 None (demoSettings noFilter);
   serveQuery demoOs DnsCodec.demo4 anyV6 (λ z, Some (dec z)) DnsCodec.demoText6 (quiet 5) lan
     (ask 9 (lit "ab") 28) (boot r.2 noClient zeroCounters)) = OutOfBounds.
Proof. split_and!; vm_compute; [lia|reflexivity..]. Qed.

End HostsApi.
