(* ===== verification/PathUtil.v ===== *)
(** * Paths inside a volume

    src/storage/PathUtil.cpp: every path a client sends to the file pages goes
    through [normalize]. The theorems say what it accepts and that no path it
    gives leads out of its volume, whatever the client sent. *)
From S2P Require Import Prelude Text Json.
#[local] Open Scope Z_scope.

Module PathUtil.

Definition kAsciiPrintableMin : Z := 32.
Definition kAsciiDel : Z := 127.
Definition kMaxPathLen : nat := 255.
Definition kMaxSegmentLen : nat := 128.
Definition kMaxDepth : nat := 16.
Definition kUploadPartSuffix : bytes := lit ".part".

#[local] Abbreviation slash := 47.
#[local] Abbreviation dot := 46.

Definition isValidChar (c : Z) : bool :=
  if (c <? kAsciiPrintableMin) || (c =? kAsciiDel) then false
  else if (c =? slash) || (c =? 92) then false
  else negb (bool_decide (c ∈ [34; 42; 60; 62; 63; 124; 58])).

Definition isPartName (name : bytes) : bool :=
  let suffix := kUploadPartSuffix in
  if (length name <=? length suffix)%nat then false
  else bytes_eqb (drop (length name - length suffix) name) suffix.

Definition isValidName (name : bytes) : bool :=
  if bool_decide (name = []) || (kMaxSegmentLen <? length name)%nat then false
  else if bytes_eqb name [dot] || bytes_eqb name [dot; dot] then false
  else if isPartName name then false
  else
    let back := List.last name 0 in
    if (back =? dot) || (back =? 32) then false
    else forallb isValidChar name.

(** One turn of the loop of [splitSegments], its test of the depth apart. *)
Definition addSegment (seg : bytes) (segments : list bytes) : option (list bytes) :=
  if bool_decide (seg = []) || bytes_eqb seg [dot] then Some segments
  else if bytes_eqb seg [dot; dot] then None
  else if negb (isValidName seg) then None
  else Some (segments ++ [seg]).

(** The pieces between the slashes, taken while there is a slash behind them. *)
Fixpoint segLoop (pieces : list bytes) (segments : list bytes) : option (list bytes) :=
  match pieces with
  | [] => Some segments
  | seg :: more =>
      segments ← addSegment seg segments;
      if (kMaxDepth <? length segments)%nat then None
      else segLoop more segments
  end.

Definition splitSegments (path : bytes) : option (list bytes) := segLoop (split_on slash path) [].

Definition buildPath (segments : list bytes) : bytes :=
  let out := concat (cons slash <$> segments) in
  if bool_decide (out = []) then [slash] else out.

Definition normalize (raw : bytes) : option bytes :=
  segments ← splitSegments raw;
  let normalized := buildPath segments in
  if (kMaxPathLen <? length normalized)%nat then None else Some normalized.

Definition normalizeChild (dir name : bytes) : option bytes :=
  if negb (isValidName name) then None
  else
    segments ← splitSegments dir;
    let segments := segments ++ [name] in
    if (kMaxDepth <? length segments)%nat then None
    else
      let normalized := buildPath segments in
      if (kMaxPathLen <? length normalized)%nat then None else Some normalized.

(** The volume-relative path behind the mount point. [List.removelast] is
    [pop_back]. *)
Definition join (mountPoint relPath : bytes) : bytes :=
  if bool_decide (relPath = []) || bytes_eqb relPath [slash] then mountPoint
  else
    let out := if negb (bool_decide (mountPoint = [])) && (List.last mountPoint 0 =? slash)
               then List.removelast mountPoint else mountPoint in
    out ++ (if hd 0 relPath =? slash then relPath else slash :: relPath).

(** [find_last_of]. *)
Definition lastSlash (s : bytes) : option nat :=
  (λ i, (length s - 1 - i)%nat) <$> find_char slash (reverse s).

Definition parent (relPath : bytes) : bytes :=
  if bool_decide (relPath = []) || bytes_eqb relPath [slash] then [slash]
  else match lastSlash relPath with
       | None | Some O => [slash]
       | Some k => take k relPath
       end.

Definition basename (relPath : bytes) : bytes :=
  if bool_decide (relPath = []) || bytes_eqb relPath [slash] then []
  else match lastSlash relPath with
       | None => relPath
       | Some k => drop (S k) relPath
       end.

(** ** What is accepted *)

(** A piece that says nothing. *)
Definition idle (seg : bytes) : bool := bool_decide (seg = []) || bytes_eqb seg [dot].

(** The names of a path, by the definition: its pieces without the idle ones. *)
Definition names (path : bytes) : list bytes := List.filter (λ s, negb (idle s)) (split_on slash path).

(** A list of names that is a path of a volume. *)
Definition okNames (l : list bytes) : bool := forallb isValidName l && (length l <=? kMaxDepth)%nat.

Lemma dotdot_invalid : isValidName [dot; dot] = false.
Proof. reflexivity. Qed.

Lemma addSegment_spec seg segs :
  addSegment seg segs =
  if idle seg then Some segs else if isValidName seg then Some (segs ++ [seg]) else None.
Proof.
  unfold addSegment. fold (idle seg). destruct (idle seg); [done|].
  destruct (bytes_eqb seg [dot; dot]) eqn:E.
  - apply bytes_eqb_eq in E as ->. by rewrite dotdot_invalid.
  - by destruct (isValidName seg).
Qed.

(** Asking for the depth after every piece is asking for it once. *)
Lemma segLoop_spec pieces segs : (length segs <= kMaxDepth)%nat →
  segLoop pieces segs =
  let l := List.filter (λ s, negb (idle s)) pieces in
  if forallb isValidName l && (length segs + length l <=? kMaxDepth)%nat then Some (segs ++ l) else None.
Proof.
  cbv zeta. revert segs. induction pieces as [|p pieces IH]; intros segs Hs.
  - cbn. rewrite Nat.add_0_r, app_nil_r. by destruct (Nat.leb_spec (length segs) kMaxDepth); [|lia].
  - cbn [segLoop List.filter]. rewrite addSegment_spec. destruct (idle p) eqn:Ei; cbn [negb].
    + cbn [mbind option_bind]. destruct (Nat.ltb_spec kMaxDepth (length segs)); [lia|]. by apply IH.
    + cbn [forallb length]. destruct (isValidName p); [|done]. cbn [mbind option_bind andb].
      destruct (Nat.ltb_spec kMaxDepth (length (segs ++ [p]))) as [Hl|Hl]; rewrite length_app in Hl; cbn in Hl.
      * destruct (Nat.leb_spec (length segs + S (length (List.filter (λ s, negb (idle s)) pieces))) kMaxDepth); [lia|].
        by rewrite andb_false_r.
      * rewrite IH by (rewrite length_app; cbn; lia). rewrite length_app. cbn [length].
        rewrite <- Nat.add_assoc, <- app_assoc. done.
Qed.

Lemma splitSegments_spec path :
  splitSegments path = if okNames (names path) then Some (names path) else None.
Proof. unfold splitSegments, okNames, names. by rewrite segLoop_spec by (cbn; lia). Qed.

Lemma valid_plain seg : isValidName seg = true → slash ∉ seg ∧ seg ≠ [] ∧ idle seg = false.
Proof.
  unfold isValidName, idle. case_bool_decide as Hn; [done|]. cbn [orb].
  destruct (_ <? _)%nat; [done|]. destruct (bytes_eqb seg [dot]); [done|]. cbn [orb].
  destruct (bytes_eqb seg [dot; dot]); [done|]. destruct (isPartName seg); [done|].
  destruct (_ || _); [done|]. intros H. split; [|done]. intros Hin.
  rewrite forallb_forall in H. by specialize (H slash (proj1 (list_elem_of_In _ _) Hin)).
Qed.

(** ** Paths that were built *)

Lemma names_pieces l : Forall (λ s, slash ∉ s ∧ idle s = false) l → names (buildPath l) = l.
Proof.
  intros H. unfold buildPath. destruct l as [|n l]; [done|]. case_bool_decide as E; [done|]. clear E.
  unfold names. cbn [fmap list_fmap concat app].
  rewrite <- (app_nil_l (slash :: _)), split_on_app by apply not_elem_of_nil.
  change (n ++ concat (cons slash <$> l)) with (Text.join slash (n :: l)).
  assert (Hp : Forall (λ s, slash ∉ s) (n :: l)) by (eapply Forall_impl; [exact H|by intros s []]).
  rewrite split_join by done. clear Hp. revert H. generalize (n :: l). clear. intros l'.
  cbn [List.filter]. change (idle []) with true. cbn [negb]. induction 1 as [|s l' [_ Hs] _ IH]; [done|].
  cbn [List.filter]. rewrite Hs. cbn [negb]. by rewrite IH.
Qed.

Lemma valid_pieces l : forallb isValidName l = true → Forall (λ s, slash ∉ s ∧ idle s = false) l.
Proof.
  intros H. apply Forall_forall. intros s Hs. rewrite forallb_forall in H. destruct (valid_plain s) as (? & _ & ?); [|done].
  by apply H, list_elem_of_In.
Qed.

Lemma names_build l : forallb isValidName l = true → names (buildPath l) = l.
Proof. intros H. by apply names_pieces, valid_pieces. Qed.

Lemma okNames_valid l : okNames l = true → forallb isValidName l = true ∧ (length l <= kMaxDepth)%nat.
Proof. unfold okNames. intros [H1 H2]%andb_true_iff. apply Nat.leb_le in H2. done. Qed.

(** What [normalize] is: the names of the path, when they are names and not too many,
    and the path they make is not too long. *)
Lemma normalize_spec raw :
  normalize raw =
  if okNames (names raw) && (length (buildPath (names raw)) <=? kMaxPathLen)%nat
  then Some (buildPath (names raw)) else None.
Proof.
  unfold normalize. rewrite splitSegments_spec. destruct (okNames (names raw)); [|done].
  cbn [mbind option_bind andb].
  destruct (Nat.ltb_spec kMaxPathLen (length (buildPath (names raw)))), (Nat.leb_spec (length (buildPath (names raw))) kMaxPathLen);
    done || lia.
Qed.

Lemma normalize_Some raw p : normalize raw = Some p →
  okNames (names raw) = true ∧ (length (buildPath (names raw)) <= kMaxPathLen)%nat ∧ p = buildPath (names raw).
Proof.
  rewrite normalize_spec. destruct (okNames (names raw)); [|done]. cbn [andb].
  destruct (Nat.leb_spec (length (buildPath (names raw))) kMaxPathLen); [|done]. by intros [= <-].
Qed.

(** A path as the rest of the firmware keeps it: rooted, every piece a name, within
    the three limits. *)
Definition wf_path (p : bytes) : Prop :=
  ∃ l, p = buildPath l ∧ forallb isValidName l = true ∧ (length l <= kMaxDepth)%nat ∧ (length p <= kMaxPathLen)%nat.

Lemma wf_normalize p : wf_path p → normalize p = Some p.
Proof.
  intros (l & -> & Hv & Hd & Hl). rewrite normalize_spec, names_build by done. unfold okNames. rewrite Hv.
  apply Nat.leb_le in Hd, Hl. by rewrite Hd, Hl.
Qed.

(** C40: whatever text arrives, [normalize] refuses it or gives a well-formed path:
    rooted, every piece a legal name - never "..", never a part file - within 16 names
    and 255 bytes; it is the path of the text's own names in order, and normalising it
    again changes nothing. *)
Theorem normalize_wf raw p : normalize raw = Some p →
  wf_path p ∧ names p = names raw ∧ normalize p = Some p ∧ [dot; dot] ∉ split_on slash p.
Proof.
  intros (Ho & Hl & ->)%normalize_Some. destruct (okNames_valid _ Ho) as [Hv Hd].
  assert (Hw : wf_path (buildPath (names raw))) by (eexists; by split_and!).
  split_and!; [done|by apply names_build|by apply wf_normalize|].
  intros Hin. assert (Hn : [dot; dot] ∈ names (buildPath (names raw))).
  { unfold names at 1. apply list_elem_of_In, filter_In. split; [by apply list_elem_of_In|reflexivity]. }
  rewrite names_build in Hn by done. rewrite forallb_forall in Hv.
  apply list_elem_of_In, Hv in Hn. rewrite dotdot_invalid in Hn. done.
Qed.

Lemma normalize_wf_witness :
  let p := lit "/logs/new" in
  normalize (lit "logs//./new/") = Some p ∧ wf_path p ∧ names p = names (lit "logs//./new/") ∧
  normalize p = Some p ∧ [dot; dot] ∉ split_on slash p.
Proof. cbv zeta. split; [reflexivity|]. apply (normalize_wf (lit "logs//./new/")). reflexivity. Defined.

(** ** Where a path leads *)

(** How a file system walks a path: ".." goes up. *)
Definition stepInto (at_ : list bytes) (seg : bytes) : list bytes :=
  if idle seg then at_ else if bytes_eqb seg [dot; dot] then List.removelast at_ else at_ ++ [seg].
Definition walk (path : bytes) : list bytes := fold_left stepInto (split_on slash path) [].

Lemma split_on_snoc c s t : split_on c (s ++ c :: t) = split_on c s ++ split_on c t.
Proof.
  induction s as [|x s IH]; cbn [app split_on]; [by rewrite Z.eqb_refl|].
  rewrite IH. destruct (Z.eqb_spec x c); [done|].
  destruct (split_on c s) as [|q qs] eqn:E; [by apply split_on_nonnil in E|done].
Qed.

Lemma walk_names l at_ : forallb isValidName l = true → fold_left stepInto l at_ = at_ ++ l.
Proof.
  revert at_. induction l as [|s l IH]; intros at_; cbn [forallb fold_left]; [by rewrite app_nil_r|].
  intros [H1 H2]%andb_true_iff. unfold stepInto at 2. destruct (valid_plain s H1) as (_&_&->).
  destruct (bytes_eqb s [dot; dot]) eqn:E; [apply bytes_eqb_eq in E as ->; done|].
  rewrite IH by done. by rewrite <- app_assoc.
Qed.

Lemma walk_idle l at_ : fold_left stepInto l at_ = fold_left stepInto (List.filter (λ s, negb (idle s)) l) at_.
Proof.
  revert at_. induction l as [|s l IH]; intros at_; [done|]. cbn [fold_left List.filter].
  rewrite IH. unfold stepInto at 2. destruct (idle s) eqn:E; [done|]. cbn [negb fold_left].
  unfold stepInto at 3. by rewrite E.
Qed.

(** A path that passed [normalize], joined to a mount point, leads below it:
    the file system walks to the mount point and from there down through the names the
    client gave, never up. *)
Theorem join_inside mount raw p : normalize raw = Some p → walk (join mount p) = walk mount ++ names raw.
Proof.
  intros (Ho & Hl & ->)%normalize_Some. destruct (okNames_valid _ Ho) as [Hv _]. clear Ho Hl.
  revert Hv. generalize (names raw). clear raw. intros l Hv. unfold join.
  destruct l as [|n l].
  - change (buildPath []) with [slash]. cbn [bool_decide orb]. rewrite bytes_eqb_refl, orb_true_r.
    by rewrite app_nil_r.
  - assert (Hb : buildPath (n :: l) = slash :: Text.join slash (n :: l)) by reflexivity.
    rewrite Hb. set (rest := Text.join slash (n :: l)).
    assert (Hrest : split_on slash rest = n :: l).
    { apply split_join; [done|]. apply Forall_forall. intros s Hs. rewrite forallb_forall in Hv.
      by apply valid_plain, Hv, list_elem_of_In. }
    assert (Hne : bytes_eqb (slash :: rest) [slash] = false).
    { apply bytes_eqb_neq. intros [= E]. rewrite E in Hrest. injection Hrest as <- _. done. }
    rewrite Hne, (bool_decide_eq_false_2 (slash :: rest = [])) by done. cbn [orb hd]. rewrite Z.eqb_refl. cbv beta iota zeta.
    assert (Hw : ∀ out, walk (out ++ slash :: rest) = walk out ++ n :: l).
    { intros out. unfold walk. rewrite split_on_snoc, fold_left_app, Hrest. by apply walk_names. }
    destruct (negb _ && _) eqn:Em; [|apply Hw]. rewrite Hw. f_equal.
    apply andb_true_iff in Em as [Hm He]. apply Z.eqb_eq in He. case_bool_decide as Hm'; [done|].
    rewrite (app_removelast_last 0 Hm') at 2. rewrite He. unfold walk.
    rewrite split_on_snoc, fold_left_app. reflexivity.
Qed.

Lemma join_inside_witness :
  walk (join (lit "/sd") (lit "/a/b")) = [lit "sd"] ++ [lit "a"; lit "b"].
Proof. apply (join_inside (lit "/sd") (lit "a//b/.") (lit "/a/b")). reflexivity. Defined.

(** ** A path and its parts *)

Lemma find_reverse c s t : c ∉ t → find_char c (reverse (s ++ c :: t)) = Some (length t).
Proof.
  intros Ht. rewrite reverse_app, reverse_cons, <- app_assoc. cbn [app].
  rewrite find_char_app by by rewrite elem_of_reverse. by rewrite length_reverse.
Qed.

Lemma lastSlash_app s t : slash ∉ t → lastSlash (s ++ slash :: t) = Some (length s).
Proof.
  intros Ht. unfold lastSlash. rewrite find_reverse by done. cbn. f_equal. rewrite length_app. cbn. lia.
Qed.

Lemma build_snoc l n : buildPath (l ++ [n]) = concat (cons slash <$> l) ++ slash :: n.
Proof.
  unfold buildPath. rewrite fmap_app, concat_app. cbn. rewrite app_nil_r. case_bool_decide as E; [|done].
  apply (f_equal length) in E. rewrite length_app in E. cbn in E. lia.
Qed.

Lemma parts_of_child l n : slash ∉ n → n ≠ [] →
  parent (buildPath (l ++ [n])) = buildPath l ∧ basename (buildPath (l ++ [n])) = n.
Proof.
  intros Hs Hn. rewrite build_snoc. set (pre := concat (cons slash <$> l)). unfold parent, basename.
  rewrite (bool_decide_eq_false_2 (pre ++ slash :: n = [])) by (by destruct pre).
  assert (He : bytes_eqb (pre ++ slash :: n) [slash] = false).
  { apply bytes_eqb_neq. intros E. apply (f_equal length) in E. rewrite length_app in E. cbn in E.
    destruct n; [done|cbn in E; lia]. }
  rewrite He. cbn [orb]. rewrite lastSlash_app by done. split; [|by rewrite drop_S_app].
  unfold buildPath. fold pre. destruct (length pre) eqn:El.
  - apply nil_length_inv in El. rewrite El. done.
  - rewrite <- El, take_app_length. case_bool_decide as E; [|done]. by rewrite E in El.
Qed.

(** A name put into a folder: [normalizeChild] gives a well-formed path whose
    parent is the folder, normalised, and whose last name is the name; and taking any
    well-formed path but the root apart and together again gives the path. *)
Theorem child_parts dir name p : normalizeChild dir name = Some p →
  wf_path p ∧ names p = names dir ++ [name] ∧ Some (parent p) = normalize dir ∧ basename p = name ∧
  normalizeChild (parent p) (basename p) = Some p.
Proof.
  unfold normalizeChild at 1. destruct (isValidName name) eqn:Hn; [|done]. cbn [negb].
  rewrite splitSegments_spec. destruct (okNames (names dir)) eqn:Ho; [|done]. cbn [mbind option_bind].
  destruct (Nat.ltb_spec kMaxDepth (length (names dir ++ [name]))) as [|Hd]; [done|].
  destruct (Nat.ltb_spec kMaxPathLen (length (buildPath (names dir ++ [name])))) as [|Hl]; [done|].
  intros [= <-]. destruct (okNames_valid _ Ho) as [Hv _]. destruct (valid_plain _ Hn) as (Hs&Hne&_).
  assert (Hv' : forallb isValidName (names dir ++ [name]) = true).
  { rewrite forallb_app, Hv. cbn. by rewrite Hn. }
  destruct (parts_of_child (names dir) name Hs Hne) as [Hp Hb].
  assert (Hlen : (length (buildPath (names dir)) <= kMaxPathLen)%nat).
  { rewrite build_snoc, length_app in Hl. unfold buildPath. case_bool_decide; cbn [length] in *; [unfold kMaxPathLen|]; lia. }
  rewrite Hp, Hb. split_and!.
  - eexists. by split_and!.
  - by apply names_build.
  - rewrite normalize_spec, Ho. apply Nat.leb_le in Hlen. by rewrite Hlen.
  - done.
  - unfold normalizeChild. rewrite Hn, splitSegments_spec, names_build, Ho by done. cbn [negb mbind option_bind].
    destruct (Nat.ltb_spec kMaxDepth (length (names dir ++ [name]))); [lia|].
    by destruct (Nat.ltb_spec kMaxPathLen (length (buildPath (names dir ++ [name])))); [lia|].
Qed.

Lemma child_parts_witness :
  let p := lit "/www/a.txt" in
  normalizeChild (lit "www/") (lit "a.txt") = Some p ∧ wf_path p ∧ names p = names (lit "www/") ++ [lit "a.txt"] ∧
  Some (parent p) = normalize (lit "www/") ∧ basename p = lit "a.txt" ∧
  normalizeChild (parent p) (basename p) = Some p.
Proof. cbv zeta. split; [reflexivity|]. apply (child_parts (lit "www/") (lit "a.txt")). reflexivity. Defined.

Example climbing_refused : normalize (lit "/a/../../fat") = None ∧ normalize (lit "a/..") = None.
Proof. split; reflexivity. Qed.

(** A closing bracket may be part of a name; the reader of the lists of paths ends at
    the first one, so a request that names such a file is a request without files. *)
Example bracket_loses_paths :
  normalize (lit "/a]b") = Some (lit "/a]b") ∧
  JsonRead.jsonGetStrArray ([123; 34] ++ lit "paths" ++ [34; 58; 91; 34] ++ lit "/a]b" ++ [34; 93; 125])
    (lit "paths") 512 = Done [].
Proof. split; reflexivity. Qed.

End PathUtil.
