(* ===== verification/Uploads.v ===== *)
(** * Uploads

    What the upload and update pages do with a body before it reaches a file:
    [MultipartExtractor] (src/web/MultipartExtractor.cpp) takes the payload out of a
    multipart body that arrives in pieces, [UploadRange] (src/files/UploadRange.cpp)
    decides where a piece of a resumable upload goes. *)
From S2P Require Import Prelude Text.
#[local] Open Scope Z_scope.

Module MultipartExtractor.

Definition kHeaderTerminatorBytes : nat := 4.
Definition kMaxHeaderBytes : nat := 8192.
Definition blankLine : bytes := [13; 10; 13; 10].

(** [written] is what the sink was given, call by call. *)
Record Extractor := mkExtractor {
  delimiter : bytes;
  headerAcc : bytes;
  pending : bytes;
  payloadBytes : Z;
  dataStarted : bool;
  dataDone : bool;
  failed : bool;
  written : list bytes;
}.

Definition create (boundary : bytes) : Extractor :=
  mkExtractor ([13; 10; 45; 45] ++ boundary) [] [] 0 false false (bool_decide (boundary = [])) [].

Section Sink.
(** Whether the sink takes its [n]th delivery. *)
Context (sink : nat → bool).

(** A delivery of [n] bytes of what is held; [None] is a refusal, told with the state
    it leaves. *)
Definition deliver (n : nat) (e : Extractor) : bool * Extractor :=
  let data := take n (pending e) in
  let w := written e ++ [data] in
  if sink (length (written e)) then
    (true, mkExtractor (delimiter e) (headerAcc e) (pending e)
             (u64 (payloadBytes e + Z.of_nat n)) (dataStarted e) (dataDone e) (failed e) w)
  else
    (false, mkExtractor (delimiter e) (headerAcc e) (pending e) (payloadBytes e) (dataStarted e) (dataDone e)
              true w).

Definition set_pending (p : bytes) (done_ : bool) (e : Extractor) : Extractor :=
  mkExtractor (delimiter e) (headerAcc e) p (payloadBytes e) (dataStarted e) done_ (failed e) (written e).

Definition consume (data : bytes) (e : Extractor) : bool * Extractor :=
  let e := set_pending (pending e ++ data) (dataDone e) e in
  match find_sub (delimiter e) (pending e) with
  | Some pos =>
      let '(ok, e) := if (0 <? pos)%nat then deliver pos e else (true, e) in
      if ok : bool then (true, set_pending [] true e) else (false, e)
  | None =>
      let keep := (length (delimiter e) - 1)%nat in
      if (keep <? length (pending e))%nat then
        let n := (length (pending e) - keep)%nat in
        let '(ok, e) := deliver n e in
        if ok : bool then (true, set_pending (drop n (pending e)) (dataDone e) e) else (false, e)
      else (true, e)
  end.

Definition feed (data : bytes) (e : Extractor) : bool * Extractor :=
  if failed e || dataDone e then (negb (failed e), e)
  else if bool_decide (data = []) then (true, e)
  else if negb (dataStarted e) then
    let acc := headerAcc e ++ data in
    match find_sub blankLine acc with
    | None =>
        let over := (kMaxHeaderBytes <? length acc)%nat in
        (negb over,
         mkExtractor (delimiter e) acc (pending e) (payloadBytes e) (dataStarted e) (dataDone e)
           (failed e || over) (written e))
    | Some end_ =>
        let payload := drop (end_ + kHeaderTerminatorBytes) acc in
        let e := mkExtractor (delimiter e) [] (pending e) (payloadBytes e) true (dataDone e) (failed e) (written e) in
        if bool_decide (payload = []) then (true, e) else consume payload e
    end
  else consume data e.

Definition finish (e : Extractor) : bool := if failed e then false else dataDone e.

Definition feedAll (chunks : list bytes) (e : Extractor) : Extractor :=
  fold_left (λ e c, (feed c e).2) chunks e.

End Sink.

(** ** What the payload of a body is *)

(** The bytes between the first blank line and the first delimiter behind it. *)
Definition payloadOf (boundary body : bytes) : option bytes :=
  i ← find_sub blankLine body;
  let rest := drop (i + kHeaderTerminatorBytes) body in
  k ← find_sub ([13; 10; 45; 45] ++ boundary) rest;
  Some (take k rest).

Definition delim (boundary : bytes) : bytes := [13; 10; 45; 45] ++ boundary.

Lemma find_behind p w t : (∀ j, (j < length w)%nat → ¬ stands p (w ++ t) j) →
  find_sub p (w ++ t) = (λ k, (length w + k)%nat) <$> find_sub p t.
Proof.
  induction w as [|x w IH]; intros H; [cbn; by destruct (find_sub p t)|]. cbn [app find_sub].
  destruct (is_prefix p (x :: w ++ t)) eqn:E.
  { destruct (H 0%nat); [cbn; lia|]. split; [done|cbn; lia]. }
  rewrite IH; [by destruct (find_sub p t)|]. intros j Hj Hs. apply (H (S j)); [cbn; lia|].
  by apply stands_cons.
Qed.

(** What was delivered and what is held back, while the delimiter has not come: the
    held bytes are as many as a delimiter could have begun in. *)
Definition carries (d rest : bytes) (e : Extractor) : Prop :=
  concat (written e) ++ pending e = rest ∧ find_sub d rest = None ∧
  (concat (written e) = [] ∨ length (pending e) = (length d - 1)%nat).

Definition same_part (e e' : Extractor) : Prop :=
  delimiter e' = delimiter e ∧ headerAcc e' = headerAcc e ∧ dataStarted e' = dataStarted e ∧ failed e' = failed e.

Definition counted (e : Extractor) : Prop := payloadBytes e = u64 (Z.of_nat (length (concat (written e)))).

Lemma deliver_spec n e : counted e →
  ∃ e', deliver (λ _, true) n e = (true, e') ∧ same_part e e' ∧ pending e' = pending e ∧ dataDone e' = dataDone e ∧
    concat (written e') = concat (written e) ++ take n (pending e) ∧
    ((n <= length (pending e))%nat → counted e').
Proof.
  intros Hc. unfold deliver. cbv beta iota. eexists. split; [reflexivity|]. cbn [pending dataDone written].
  rewrite concat_app. cbn [concat]. rewrite app_nil_r. split_and!; try done.
  intros Hn. unfold counted in *. cbn [payloadBytes written]. rewrite Hc, concat_app. cbn [concat].
  rewrite app_nil_r, length_app, length_take, Nat.min_l by done. unfold u64. rewrite Zplus_mod_idemp_l. f_equal. lia.
Qed.

Lemma consume_spec rest data e : delimiter e ≠ [] → carries (delimiter e) rest e → counted e →
  ∃ e', consume (λ _, true) data e = (true, e') ∧ same_part e e' ∧ counted e' ∧
    match find_sub (delimiter e) (rest ++ data) with
    | Some k => dataDone e' = true ∧ concat (written e') = take k (rest ++ data)
    | None => dataDone e' = dataDone e ∧ carries (delimiter e) (rest ++ data) e'
    end.
Proof.
  intros Hd (Hr & Hf & Hk) Hc. set (d := delimiter e) in *. set (w := concat (written e)) in *.
  assert (Hshift : find_sub d (rest ++ data) = (λ k, (length w + k)%nat) <$> find_sub d (pending e ++ data)).
  { rewrite <- Hr, <- app_assoc. apply find_behind. intros j Hj Hs. rewrite app_assoc, Hr in Hs.
    apply (proj1 (find_sub_None d rest) Hf j). apply (stands_app _ _ data); [|done].
    destruct Hk as [Hk|Hk]; [rewrite Hk in Hj; cbn in Hj; lia|].
    apply (f_equal length) in Hr. rewrite length_app in Hr. destruct d; [done|]. cbn [length] in *. lia. }
  unfold consume. cbn [set_pending delimiter pending]. fold d. rewrite Hshift.
  destruct (find_sub d (pending e ++ data)) as [pos|] eqn:Ef; cbn [fmap option_fmap option_map].
  - apply find_sub_Some in Ef as [Ef%stands_length _].
    assert (Ht : take (length w + pos) (rest ++ data) = w ++ take pos (pending e ++ data)).
    { rewrite <- Hr, <- app_assoc. apply take_app_add. }
    destruct (Nat.ltb_spec 0 pos) as [Hp|Hp].
    + destruct (deliver_spec pos (set_pending (pending e ++ data) (dataDone e) e)) as (e' & -> & Hs & _ & _ & Hw & Hc'); [done|].
      eexists. split; [reflexivity|]. split; [done|]. split; [apply Hc'; cbn; lia|]. split; [done|]. by rewrite Ht.
    + eexists. split; [reflexivity|]. split_and!; try done. rewrite Ht. replace pos with 0%nat by lia. cbn.
      by rewrite app_nil_r.
  - assert (Hnone : find_sub d (rest ++ data) = None) by (by rewrite Hshift).
    destruct (Nat.ltb_spec (length d - 1) (length (pending e ++ data))) as [Hl|Hl].
    + destruct (deliver_spec (length (pending e ++ data) - (length d - 1)) (set_pending (pending e ++ data) (dataDone e) e))
        as (e' & -> & Hs & Hp & Hdn & Hw & Hc'); [done|].
      cbn [set_pending pending dataDone written] in *. rewrite Hp.
      eexists. split; [reflexivity|]. split; [exact Hs|]. split; [apply Hc'; lia|]. split; [exact Hdn|].
      unfold carries. cbn [set_pending pending written]. rewrite Hw. split_and!; [|done|right; rewrite length_drop; lia].
      rewrite <- app_assoc, take_drop. fold w. by rewrite app_assoc, Hr.
    + eexists. split; [reflexivity|]. split_and!; try done. split_and!; [|done|].
      * cbn [set_pending pending written]. fold w. by rewrite app_assoc, Hr.
      * cbn [set_pending pending written]. fold w. destruct Hk as [Hk|Hk]; [by left|right].
        rewrite length_app in *. lia.
Qed.

(** The extractor after the bytes [body] of a body whose headers end at [i]. *)
Definition tracks (d body : bytes) (e : Extractor) : Prop :=
  delimiter e = d ∧ failed e = false ∧ counted e ∧
  match find_sub blankLine body with
  | None => dataStarted e = false ∧ dataDone e = false ∧ headerAcc e = body ∧ pending e = [] ∧ written e = []
  | Some i =>
      let rest := drop (i + kHeaderTerminatorBytes) body in
      dataStarted e = true ∧
      match find_sub d rest with
      | None => dataDone e = false ∧ carries d rest e
      | Some k => dataDone e = true ∧ concat (written e) = take k rest
      end
  end.

Lemma find_more p s t i : find_sub p s = Some i → find_sub p (s ++ t) = Some i.
Proof.
  rewrite !find_sub_Some. intros [H1 H2]. pose proof (stands_length _ _ _ H1) as Hl.
  split; [by apply stands_app|]. intros j Hj Hs. apply (H2 j Hj). apply (stands_app _ _ t); [lia|done].
Qed.

Lemma carries_nothing d e : d ≠ [] → pending e = [] → written e = [] → carries d [] e.
Proof.
  intros Hd Hp Hw. unfold carries. rewrite Hp, Hw. split_and!; [done| |by left].
  apply find_sub_None. intros j Hj%stands_length. destruct d; [done|]. cbn in Hj. lia.
Qed.

Lemma feed_tracks d body data e : d ≠ [] → tracks d body e →
  (find_sub blankLine (body ++ data) = None → (length (body ++ data) <= kMaxHeaderBytes)%nat) →
  tracks d (body ++ data) (feed (λ _, true) data e).2.
Proof.
  intros Hne (Hd & Hf & Hc & H) Hlim. unfold feed. rewrite Hf. cbn [orb negb].
  destruct (find_sub blankLine body) as [i|] eqn:Ei.
  - destruct H as [Hs H]. pose proof (find_more _ _ data _ Ei) as Ei'.
    apply find_sub_Some in Ei as [Hi%stands_length _]. change (length blankLine) with kHeaderTerminatorBytes in Hi.
    unfold tracks. rewrite Ei'. cbv zeta. rewrite drop_app_le by done.
    set (rest := drop (i + kHeaderTerminatorBytes) body) in *.
    destruct (find_sub d rest) as [k|] eqn:Ek.
    + destruct H as [Hdn Hw]. rewrite Hdn. cbn [snd]. rewrite (find_more _ _ data _ Ek). split_and!; try done.
      rewrite Hw, take_app_le; [done|]. apply find_sub_Some in Ek as [Ek%stands_length _]. lia.
    + destruct H as [Hdn Hcar]. rewrite Hdn, Hs. cbn [negb]. case_bool_decide as Hdata.
      { subst data. rewrite app_nil_r, Ek. done. }
      subst d. destruct (consume_spec rest data e Hne Hcar Hc) as (e' & -> & (H1&H2&H3&H4) & Hc' & H5).
      cbn [snd]. rewrite H1, H3, H4. split_and!; try done. rewrite Hdn in H5. exact H5.
  - destruct H as (Hs & Hdn & Ha & Hp & Hw). rewrite Hdn, Hs. cbn [orb negb].
    case_bool_decide as Hdata.
    { subst data. rewrite app_nil_r. unfold tracks. rewrite Ei. cbn [snd]. done. }
    rewrite Ha. unfold tracks. destruct (find_sub blankLine (body ++ data)) as [i|] eqn:Ei'.
    + set (rest := drop (i + kHeaderTerminatorBytes) (body ++ data)).
      set (e1 := mkExtractor _ _ _ _ _ _ _ _).
      assert (Hcar : carries (delimiter e1) [] e1) by (apply carries_nothing; [by rewrite <- Hd in Hne|done|done]).
      case_bool_decide as Hr.
      * cbn [snd]. rewrite Hr. destruct Hcar as (Hcar1&Hcar2&Hcar3). cbn in Hcar2 |- *. rewrite <- Hd in *.
        rewrite Hcar2. by split_and!.
      * destruct (consume_spec [] rest e1) as (e' & -> & (H1&H2&H3&H4) & Hc' & H5); [by rewrite <- Hd in Hne|done|done|].
        cbn [snd]. rewrite H1, H3, H4. cbn [app] in H5. change (delimiter e1) with (delimiter e) in *. rewrite <- Hd in *.
        by split_and!.
    + specialize (Hlim eq_refl). destruct (Nat.ltb_spec kMaxHeaderBytes (length (body ++ data))); [lia|].
      by split_and!.
Qed.

(** A body without a blank line delivers nothing and is never complete. *)
Definition headless (body : bytes) (e : Extractor) : Prop :=
  dataDone e = false ∧ written e = [] ∧ (failed e = true ∨ (dataStarted e = false ∧ headerAcc e = body ∧ failed e = false)).

Lemma feed_headless body data e : headless body e → find_sub blankLine (body ++ data) = None →
  headless (body ++ data) (feed (λ _, true) data e).2.
Proof.
  intros (Hd & Hw & [Hf|(Hs & Ha & Hf)]) Hn; unfold feed; rewrite Hf; cbn [orb].
  - split_and!; [done|done|by left].
  - rewrite Hd. case_bool_decide as E.
    + subst data. rewrite app_nil_r. split_and!; [done|done|right; by split_and!].
    + rewrite Hs, Ha, Hn. cbn [negb snd orb]. split_and!; [done|done|].
      cbn [failed dataStarted headerAcc]. destruct (kMaxHeaderBytes <? _)%nat; [by left|right; by split_and!].
Qed.

Lemma feedAll_snoc sink l c e : feedAll sink (l ++ [c]) e = (feed sink c (feedAll sink l e)).2.
Proof. unfold feedAll. by rewrite fold_left_app. Qed.

Lemma feedAll_tracks boundary chunks more i : boundary ≠ [] →
  find_sub blankLine (concat chunks ++ more) = Some i → (i + kHeaderTerminatorBytes <= kMaxHeaderBytes)%nat →
  tracks (delim boundary) (concat chunks) (feedAll (λ _, true) chunks (create boundary)).
Proof.
  intros Hb Hi Hlim. revert more Hi. induction chunks as [|c l IH] using rev_ind; intros more Hi.
  - unfold tracks. cbn. split_and!; try done. by rewrite bool_decide_eq_false_2.
  - rewrite concat_app in Hi |- *. cbn [concat] in Hi |- *. rewrite app_nil_r in Hi |- *.
    rewrite feedAll_snoc. apply feed_tracks; [done|apply (IH (c ++ more)); by rewrite app_assoc|].
    intros Hn. apply find_sub_Some in Hi as [Hi _]. pose proof (stands_length _ _ _ Hi) as Hl.
    change (length blankLine) with kHeaderTerminatorBytes in Hl.
    destruct (Nat.le_gt_cases (length (concat l ++ c)) kMaxHeaderBytes) as [|Hgt]; [done|].
    destruct (proj1 (find_sub_None _ _) Hn i). apply (stands_app _ _ more); [|done].
    change (length blankLine) with kHeaderTerminatorBytes. lia.
Qed.

Lemma feedAll_headless boundary chunks : boundary ≠ [] → find_sub blankLine (concat chunks) = None →
  headless (concat chunks) (feedAll (λ _, true) chunks (create boundary)).
Proof.
  intros Hb. induction chunks as [|c l IH] using rev_ind; intros Hn.
  - split_and!; [done|done|right]. split_and!; [done|done|]. cbn. by rewrite bool_decide_eq_false_2.
  - rewrite concat_app in Hn |- *. cbn [concat] in Hn |- *. rewrite app_nil_r in Hn |- *.
    rewrite feedAll_snoc. apply feed_headless; [|done]. apply IH.
    apply find_sub_None. intros j Hj. apply (proj1 (find_sub_None _ _) Hn j).
    apply stands_app; [by apply stands_length|done].
Qed.

(** C39: however a body is cut into pieces on its way, what the sink has when it
    ends is what the body says: the extraction is complete exactly when the body has a
    payload - a blank line, and behind it the delimiter - and then the bytes delivered
    are the payload, none lost at a cut, none of the envelope with them, and counted. *)
Theorem payload_extracted boundary chunks : boundary ≠ [] →
  (∀ i, find_sub blankLine (concat chunks) = Some i → (i + kHeaderTerminatorBytes <= kMaxHeaderBytes)%nat) →
  let e := feedAll (λ _, true) chunks (create boundary) in
  finish e = bool_decide (is_Some (payloadOf boundary (concat chunks))) ∧
  ∀ p, payloadOf boundary (concat chunks) = Some p →
    concat (written e) = p ∧ payloadBytes e = u64 (Z.of_nat (length p)).
Proof.
  intros Hb Hlim e. unfold payloadOf. fold (delim boundary).
  destruct (find_sub blankLine (concat chunks)) as [i|] eqn:Ei; cbn [mbind option_bind].
  - assert (Ht : tracks (delim boundary) (concat chunks) e).
    { apply (feedAll_tracks boundary chunks [] i); [done|by rewrite app_nil_r|by apply Hlim]. }
    destruct Ht as (_ & Hf & Hc & H). rewrite Ei in H. destruct H as [_ H]. unfold finish. rewrite Hf.
    destruct (find_sub (delim boundary) _) as [k|]; cbn [mbind option_bind].
    + destruct H as [-> Hw]. split; [done|]. intros p [= <-]. split; [done|]. by rewrite <- Hw.
    + destruct H as [-> _]. split; [done|discriminate].
  - destruct (feedAll_headless boundary chunks Hb Ei) as (Hd & _ & _). fold e in Hd.
    unfold finish. rewrite Hd. split; [by destruct (failed e)|discriminate].
Qed.

Definition demoChunks : list bytes :=
  [[45; 45] ++ lit "b" ++ [13; 10] ++ lit "Content-Type: x" ++ [13; 10; 13]; [10; 233; 1; 13];
   [10; 45]; [45; 97; 13; 10; 45; 45; 98; 45; 45]].

Lemma payload_extracted_witness :
  let e := feedAll (λ _, true) demoChunks (create (lit "b")) in
  finish e = true ∧ concat (written e) = [233; 1; 13; 10; 45; 45; 97] ∧ payloadBytes e = 7.
Proof.
  cbv zeta. destruct (payload_extracted (lit "b") demoChunks) as [H1 H2]; [done| |].
  - intros i Hi. assert (E : find_sub blankLine (concat demoChunks) = Some 20%nat) by (vm_compute; reflexivity).
    rewrite E in Hi. injection Hi as <-. apply Nat.leb_le. vm_compute. reflexivity.
  - destruct (H2 [233; 1; 13; 10; 45; 45; 97]) as [H3 H4]; [vm_compute; reflexivity|].
    split_and!; [|exact H3|exact H4]. exact H1.
Defined.

(** A sink that refuses ends it: nothing is delivered afterwards, the end says so. *)
Lemma refused_for_good sink chunks e : failed e = true →
  feedAll sink chunks e = e ∧ finish e = false.
Proof.
  intros Hf. split; [|unfold finish; by rewrite Hf]. induction chunks as [|c l IH]; [done|].
  unfold feedAll in *. cbn [fold_left]. unfold feed at 2. by rewrite Hf.
Qed.

End MultipartExtractor.
