(* ===== verification/FileUpload.v ===== *)
(** * Uploading a file in pieces

    An upload may be paused, cut off and continued: src/files/UploadRange.cpp checks
    where a piece goes, src/files/FileSink.cpp writes it beside the file and publishes
    the whole, [FileManager::openWrite] (src/files/FileManager.cpp) joins the two and
    [uploadTask] (src/web/RestApi.cpp) reads the body. The theorems follow a file
    through any sequence of pieces. *)
From S2P Require Import Prelude Text Json PathUtil AtomicFile.
From stdpp Require Import gmap.
#[local] Open Scope Z_scope.

Inductive FileStatus :=
  | StOk | InvalidPath | NotFound | NotMounted | AlreadyExists | NotEmpty | Conflict | TooLarge | NotText | NoSpace
  | Busy | IoError | Unsupported.

Module FileStatusText.

Definition httpStatusFor (s : FileStatus) : Z :=
  match s with
  | StOk => 200
  | InvalidPath => 400
  | Unsupported => 400
  | NotFound => 404
  | NotMounted => 409
  | AlreadyExists => 409
  | NotEmpty => 409
  | Conflict => 409
  | Busy => 409
  | TooLarge => 413
  | NotText => 415
  | NoSpace => 507
  | IoError => 500
  end.

Definition messageFor (s : FileStatus) : bytes :=
  match s with
  | StOk => lit "ok"
  | InvalidPath => lit "invalid path"
  | NotFound => lit "not found"
  | NotMounted => lit "volume is not mounted"
  | AlreadyExists => lit "already exists"
  | NotEmpty => lit "directory is not empty"
  | Conflict => lit "file changed on the volume"
  | Busy => lit "the volume is busy with another operation"
  | TooLarge => lit "file is too large for the editor"
  | NotText => lit "file is not a text file"
  | NoSpace => lit "not enough free space on the volume"
  | IoError => lit "filesystem error"
  | Unsupported => lit "operation not supported for this volume"
  end.

End FileStatusText.

Module UploadRange.

Record UploadRange := mkRange {
  partSize : Z;
  offset : Z;
  chunk : Z;
  total : Z;
  resumable : bool;
}.

Definition endOffset (r : UploadRange) : Z := u64 (offset r + chunk r).
Definition completes (r : UploadRange) : bool := total r <=? endOffset r.
Definition neededBytes (r : UploadRange) : Z := if offset r <? total r then u64 (total r - offset r) else 0.

(** The reason of a refusal, or the range. *)
Definition check (part off chunk_ : Z) (hasTotal : bool) (tot : Z) : bytes + UploadRange :=
  if negb hasTotal then inr (mkRange part 0 chunk_ chunk_ false)
  else if chunk_ =? 0 then inl (lit "empty body")
  else if tot =? 0 then inl (lit "total must be greater than zero")
  else if negb (off =? part) then
    inl (lit "offset " ++ dec off ++ lit " does not match the partial file (" ++ dec part ++
         lit " bytes on the device)")
  else if tot <=? off then
    inl (lit "offset " ++ dec off ++ lit " is at or past the end of " ++ dec tot ++ lit " bytes")
  else
    let range := mkRange part off chunk_ tot true in
    if tot <? endOffset range then
      inl (lit "body of " ++ dec chunk_ ++ lit " bytes at offset " ++ dec off ++
           lit " runs past the end of " ++ dec tot ++ lit " bytes")
    else inr range.

(** What a piece must be to be taken: it starts where the part ends and stays inside
    the file. No sum wraps, since a body is shorter than 2^32. *)
Lemma check_spec part off chunk_ tot : is_u32 chunk_ → 0 <= off → 0 <= part < 2 ^ 63 → is_u64 tot →
  match check part off chunk_ true tot with
  | inr r => r = mkRange part off chunk_ tot true ∧ off = part ∧ 0 < chunk_ ∧ off + chunk_ <= tot ∧
             endOffset r = off + chunk_
  | inl why => why ≠ [] ∧ ¬ (off = part ∧ 0 < chunk_ ∧ off + chunk_ <= tot)
  end.
Proof.
  intros Hc Ho Hp Ht. unfold is_u32, is_u64 in *. unfold check. cbn [negb].
  destruct (Z.eqb_spec chunk_ 0); [split; [done|lia]|]. destruct (Z.eqb_spec tot 0); [split; [done|lia]|].
  destruct (Z.eqb_spec off part) as [->|]; cbn [negb]; [|split; [done|lia]].
  destruct (Z.leb_spec tot part); [split; [done|lia]|].
  assert (E : endOffset (mkRange part part chunk_ tot true) = part + chunk_) by (apply u64_small; unfold is_u64; cbn; lia).
  rewrite E. destruct (Z.ltb_spec tot (part + chunk_)); [split; [done|lia]|]. cbv beta iota. split_and!; done || lia.
Qed.

End UploadRange.

(** How the calls of one upload on the volume go. *)
Record Io := mkIo { ioOpen : bool; ioFlush : bool; ioUnlinkFinal : bool; ioRename : bool; ioUnlinkPart : bool }.
Definition goodIo : Io := mkIo true true true true true.

Module FileSink.

Record Sink := mkSink { finalPath : bytes; open : bool; written : Z; committed : bool; kept : bool }.

Definition partOf (s : Sink) : bytes := AtomicFile.partPath (finalPath s).

(** "ab" continues the part, "wb" begins it. *)
Definition create (io : Io) (path : bytes) (initialSize : Z) (v : AtomicFile.Vol) : Sink * AtomicFile.Vol :=
  let s := mkSink path (ioOpen io) initialSize false false in
  (s,
   if negb (ioOpen io) then v
   else if 0 <? initialSize then <[partOf s := default [] (v !! partOf s)]> v
   else <[partOf s := []]> v).

(** [short]: [fwrite] took only so many of the bytes. *)
Definition write (short : option nat) (data : bytes) (s : Sink) (v : AtomicFile.Vol) : bool * Sink * AtomicFile.Vol :=
  if negb (open s) || bool_decide (data = []) then (open s, s, v)
  else
    let old := default [] (v !! partOf s) in
    match short with
    | Some n => (false, s, <[partOf s := old ++ take n data]> v)
    | None =>
        (true, mkSink (finalPath s) (open s) (u64 (written s + Z.of_nat (length data))) (committed s) (kept s),
         <[partOf s := old ++ data]> v)
    end.

Definition abort (io : Io) (s : Sink) (v : AtomicFile.Vol) : Sink * AtomicFile.Vol :=
  (mkSink (finalPath s) false 0 (committed s) (kept s),
   if committed s then v else (AtomicFile.remove (ioUnlinkPart io) (partOf s) v).2).

(** The old file is unlinked before the part takes its name; that the old one cannot be
    unlinked is only logged. *)
Definition commit (io : Io) (s : Sink) (v : AtomicFile.Vol) : bool * Sink * AtomicFile.Vol :=
  if committed s then (true, s, v)
  else if negb (open s) then (false, s, v)
  else
    let s := mkSink (finalPath s) false (written s) (committed s) (kept s) in
    if negb (ioFlush io) then let '(s, v) := abort io s v in (false, s, v)
    else
      let v := (AtomicFile.remove (ioUnlinkFinal io) (finalPath s) v).2 in
      let '(moved, v) := AtomicFile.rename (ioRename io) (partOf s) (finalPath s) v in
      if negb moved then let '(s, v) := abort io s v in (false, s, v)
      else (true, mkSink (finalPath s) false (written s) true (kept s), v).

Definition keep (s : Sink) : Sink :=
  if committed s || kept s then s else mkSink (finalPath s) false (written s) (committed s) true.

(** [~FileSink]. *)
Definition destroy (io : Io) (s : Sink) (v : AtomicFile.Vol) : AtomicFile.Vol :=
  if negb (committed s) && negb (kept s) then (abort io s v).2 else v.

End FileSink.

Module FileManager.

Definition kFreeSpaceReserve : Z := 4096.

(** What a volume says of itself, and its directories. *)
Record Volume := mkVolume {
  registered : bool;
  mounted : bool;
  formatting : bool;
  mountPoint : bytes;
  freeBytes : Z;
  isDirectory : bytes → bool;
}.

Definition resolve (vol : Volume) : FileStatus :=
  if negb (registered vol) then NotFound
  else if negb (mounted vol) then NotMounted
  else if formatting vol then Busy
  else StOk.

(** The path inside the volume and the path of the file system. *)
Definition absolute (vol : Volume) (path : bytes) : option (bytes * bytes) :=
  rel ← PathUtil.normalize path;
  Some (rel, PathUtil.join (mountPoint vol) rel).

(** [stat] of a file: its size. *)
Definition sizeAt (path : bytes) (v : AtomicFile.Vol) : Z :=
  match v !! path with Some f => Z.of_nat (length f) | None => 0 end.

(** The status, the detail of a refusal, what was opened. [errno] is the system's text. *)
Definition openWrite (io : Io) (errno : bytes) (vol : Volume) (path : bytes) (offset totalLen chunkLen : Z)
  (v : AtomicFile.Vol)
  : FileStatus * bytes * option (FileSink.Sink * UploadRange.UploadRange) * AtomicFile.Vol :=
  match resolve vol with
  | StOk =>
      match absolute vol path with
      | None => (InvalidPath, [], None, v)
      | Some (rel, full) =>
          if bytes_eqb rel [47] then (InvalidPath, [], None, v)
          else if isDirectory vol full then (AlreadyExists, [], None, v)
          else
            match UploadRange.check (sizeAt (AtomicFile.partPath full) v) offset chunkLen
                    (negb (totalLen =? 0)) totalLen with
            | inl reason => (Conflict, reason, None, v)
            | inr range =>
                if mounted vol && (freeBytes vol <? u64 (UploadRange.neededBytes range + kFreeSpaceReserve)) then
                  (NoSpace, lit "volume is full", None, v)
                else
                  let '(sink, v) := FileSink.create io full (UploadRange.offset range) v in
                  if negb (FileSink.open sink) then
                    (IoError, errno, None, FileSink.destroy io sink v)
                  else (StOk, [], Some (sink, range), v)
            end
      end
  | st => (st, [], None, v)
  end.

Definition uploadOffset (vol : Volume) (path : bytes) (v : AtomicFile.Vol) : FileStatus * Z :=
  match resolve vol with
  | StOk =>
      match absolute vol path with
      | None => (InvalidPath, 0)
      | Some (_, full) => (StOk, sizeAt (AtomicFile.partPath full) v)
      end
  | st => (st, 0)
  end.

Definition discardUpload (io : Io) (errno : bytes) (vol : Volume) (path : bytes) (v : AtomicFile.Vol)
  : FileStatus * bytes * AtomicFile.Vol :=
  match resolve vol with
  | StOk =>
      match absolute vol path with
      | None => (InvalidPath, [], v)
      | Some (_, full) =>
          let '(gone, v) := AtomicFile.remove (ioUnlinkPart io) (AtomicFile.partPath full) v in
          if negb gone then (IoError, errno, v) else (StOk, [], v)
      end
  | st => (st, [], v)
  end.

End FileManager.

Module UploadTask.

Definition kSocketRetryLimit : nat := 20.

(** What one turn of the reading loop meets: bytes, and then whether the write was cut
    short and whether the operator pressed stop; a pause of the line; its end. *)
Inductive Event :=
  | Received (data : bytes) (short : option nat) (stop : bool)
  | TimedOut
  | Lost.

(** [httpd_req_recv] gives at most what is asked for. The result: [ok], [stopped]. When
    no event is left the line has ended. *)
Fixpoint readLoop (evs : list Event) (remaining : nat) (bufSize retries : nat) (s : FileSink.Sink)
  (v : AtomicFile.Vol) : bool * bool * FileSink.Sink * AtomicFile.Vol :=
  match remaining with
  | O => (true, false, s, v)
  | _ =>
      match evs with
      | [] | Lost :: _ => (false, false, s, v)
      | TimedOut :: evs =>
          if (retries <? kSocketRetryLimit)%nat then readLoop evs remaining bufSize (S retries) s v
          else (false, false, s, v)
      | Received data short stop :: evs =>
          let want := Nat.min remaining bufSize in
          let got := take want data in
          if bool_decide (got = []) then (false, false, s, v)
          else
            let '(taken, s, v) := FileSink.write short got s v in
            if negb taken then (false, false, s, v)
            else if stop : bool then (true, true, s, v)
            else readLoop evs (remaining - length got) bufSize retries s v
      end
  end.

Inductive Answer :=
  | Refused (st : FileStatus) (detail : bytes)
  | Cancelled
  | Failed
  | Partial (written total : Z)
  | CannotPublish
  | Uploaded (written : Z) (path : bytes).

(** The calls into the registry of running operations, and the note of a paused one. *)
Inductive JobCall := JobBegin (total : Z) | JobCancelled | JobFailed | JobPaused | JobDone (path : bytes)
  | Remembered | Forgotten.

(** The piece of a body, from [offset], that a request brings. [work->finish] and the
    task's end destroy the sink last. *)
(** What follows the opening: the body, and what becomes of the part. *)
Definition uploadBody (io : Io) (path : bytes) (chunk : nat) (bufSize : nat) (evs : list Event)
  (sink : FileSink.Sink) (range : UploadRange.UploadRange) (v : AtomicFile.Vol) : Answer * list JobCall * AtomicFile.Vol :=
  let began := [JobBegin (u32 (UploadRange.total range)); Forgotten] in
  let '(ok, stopped, sink, v) := readLoop evs chunk bufSize 0 sink v in
  if stopped : bool then
    let '(sink, v) := FileSink.abort io sink v in
    (Cancelled, began ++ [JobCancelled], FileSink.destroy io sink v)
  else if negb ok || negb (UploadRange.completes range) then
    let written := FileSink.written sink in
    if negb (UploadRange.resumable range) then
      let '(sink, v) := FileSink.abort io sink v in
      (Failed, began ++ [JobFailed], FileSink.destroy io sink v)
    else
      let sink := FileSink.keep sink in
      (Partial written (UploadRange.total range), began ++ [JobPaused; Remembered], FileSink.destroy io sink v)
  else
    let '(published, sink, v) := FileSink.commit io sink v in
    if negb published then
      let '(sink, v) := FileSink.abort io sink v in
      (CannotPublish, began ++ [JobFailed], FileSink.destroy io sink v)
    else
      let norm := default path (PathUtil.normalize path) in
      (Uploaded (FileSink.written sink) norm, began ++ [JobDone norm; Forgotten], FileSink.destroy io sink v).

Definition uploadTask (io : Io) (errno : bytes) (vol : FileManager.Volume) (path : bytes) (offset total : Z)
  (chunk : nat) (bufSize : nat) (evs : list Event) (v : AtomicFile.Vol)
  : Answer * list JobCall * AtomicFile.Vol :=
  let '(st, detail, opened, v) :=
    FileManager.openWrite io errno vol path offset total (Z.of_nat chunk) v in
  match opened with
  | None => (Refused st detail, [], v)
  | Some (sink, range) => uploadBody io path chunk bufSize evs sink range v
  end.

(** The request itself: its parameters, the body's length, whether a place among the
    running transfers was free. *)
Inductive Response := Handled (a : Answer) | OffsetRequiresTotal | LengthRequired | TooManyTransfers.

Definition handlePostFileUpload (io : Io) (errno : bytes) (vol : FileManager.Volume) (path : option bytes)
  (offset total : option Z) (content_len : nat) (slot : bool) (bufSize : nat) (evs : list Event)
  (v : AtomicFile.Vol) : Response * list JobCall * AtomicFile.Vol :=
  match path with
  | None => (Handled (Refused InvalidPath []), [], v)
  | Some path =>
      if bool_decide (is_Some offset) && negb (bool_decide (is_Some total)) then (OffsetRequiresTotal, [], v)
      else if (content_len =? 0)%nat then (LengthRequired, [], v)
      else if negb slot then (TooManyTransfers, [], v)
      else
        let '(a, calls, v) := uploadTask io errno vol path (default 0 offset) (default 0 total) content_len bufSize evs v in
        (Handled a, calls, v)
  end.

(** ** The bytes a request brings *)

Fixpoint carried (evs : list Event) : bytes :=
  match evs with
  | [] => []
  | Received data _ _ :: evs => data ++ carried evs
  | _ :: evs => carried evs
  end.

Definition partBytes (s : FileSink.Sink) (v : AtomicFile.Vol) : bytes := default [] (v !! FileSink.partOf s).

(** A call gives at most what was asked for, so a body at most its length. *)
Definition fits (bufSize remaining : nat) (evs : list Event) : Prop :=
  Forall (λ e, match e with Received data _ _ => (length data <= bufSize)%nat | _ => True end) evs ∧
  (length (carried evs) <= remaining)%nat.

(** No write of the request is cut short. *)
Definition roomy (evs : list Event) : Prop :=
  Forall (λ e, match e with Received _ short _ => short = None | _ => True end) evs.

(** The reading loop appends to the part what was carried, or as much of it as came,
    and touches nothing else; if it ends well that is all that was announced. *)
Lemma readLoop_spec evs : ∀ remaining bufSize retries s v p ok stopped s' v',
  FileSink.open s = true → v !! FileSink.partOf s = Some p → fits bufSize remaining evs →
  readLoop evs remaining bufSize retries s v = (ok, stopped, s', v') →
  ∃ w, w `prefix_of` carried evs ∧ v' = <[FileSink.partOf s := p ++ w]> v ∧
    FileSink.open s' = true ∧ FileSink.finalPath s' = FileSink.finalPath s ∧
    FileSink.committed s' = FileSink.committed s ∧ FileSink.kept s' = FileSink.kept s ∧
    (ok = true → stopped = false → length w = remaining) ∧
    (roomy evs → is_u64 (FileSink.written s) → FileSink.written s' = u64 (FileSink.written s + Z.of_nat (length w))).
Proof.
  assert (Hnil : ∀ (s : FileSink.Sink) (v : AtomicFile.Vol) p (evs : list Event) (b : bool) (n : nat), FileSink.open s = true → v !! FileSink.partOf s = Some p →
    (b = true → n = 0%nat) →
    ∃ w, w `prefix_of` carried evs ∧ v = <[FileSink.partOf s := p ++ w]> v ∧
    FileSink.open s = true ∧ FileSink.finalPath s = FileSink.finalPath s ∧
    FileSink.committed s = FileSink.committed s ∧ FileSink.kept s = FileSink.kept s ∧
    (b = true → false = false → length w = n) ∧
    (roomy evs → is_u64 (FileSink.written s) → FileSink.written s = u64 (FileSink.written s + Z.of_nat (length w)))).
  { intros s v p l b n Ho Hp Hb. exists []. split_and!; try done; [apply prefix_nil|by rewrite app_nil_r, insert_id|..].
    - intros E _. by rewrite (Hb E).
    - intros _ Hu. rewrite Z.add_0_r. by rewrite u64_small. }
  induction evs as [|e evs IH]; intros [|n] bufSize retries s v p ok stopped s' v' Ho Hp [Hf Hl] E;
    cbn [readLoop] in E; try (injection E as <- <- <- <-; by apply Hnil).
  destruct e as [data short stop| |]; [|destruct (retries <? kSocketRetryLimit)%nat|];
    try (injection E as <- <- <- <-; by apply Hnil).
  2:{ apply Forall_cons in Hf as [_ Hf]. destruct (IH (S n) bufSize (S retries) s v p ok stopped s' v') as (w&H1&H2&H3&H4&H5&H6&H7&H8);
        [done..|by split|done|]. exists w. split_and!; try done. intros [_ Hr]%Forall_cons. by apply H8. }
  apply Forall_cons in Hf as [Hd Hf]. cbn [carried] in Hl. rewrite length_app in Hl.
  rewrite take_ge in E by lia. case_bool_decide as Hz; [injection E as <- <- <- <-; by apply Hnil|].
  unfold FileSink.write in E. rewrite Ho, bool_decide_eq_false_2 in E by done. cbn [negb orb] in E.
  rewrite Hp in E. cbn [default from_option id] in E. destruct short as [k|]; cbn [negb] in E.
  - injection E as <- <- <- <-. exists (take k data). split_and!; try done.
    + exists (drop k data ++ carried evs). by rewrite app_assoc, take_drop.
    + intros Hr%Forall_cons. by destruct Hr.
  - set (s1 := FileSink.mkSink _ _ _ _ _) in E. change (FileSink.partOf s) with (FileSink.partOf s1) in *.
    destruct stop.
    + injection E as <- <- <- <-. exists data. split_and!; try done. cbn. by apply prefix_app_r.
    + destruct (IH (S n - length data)%nat bufSize retries s1 (<[FileSink.partOf s1:=p ++ data]> v) (p ++ data) ok stopped s' v')
        as (w&H1&H2&H3&H4&H5&H6&H7&H8); [done|apply lookup_insert_eq|split; [done|lia]|done|].
      exists (data ++ w). split_and!; try done.
      * cbn. by apply prefix_app.
      * by rewrite H2, insert_insert_eq, app_assoc.
      * intros Hok Hst. rewrite length_app, (H7 Hok Hst). lia.
      * intros [_ Hr]%Forall_cons Hu. rewrite (H8 Hr) by apply u64_range. subst s1. cbn [FileSink.written].
        unfold u64. rewrite Zplus_mod_idemp_l, length_app. f_equal. lia.
Qed.

(** ** A file through its pieces *)

(** What opening gives a piece of a resumable upload: the part as it was (or an empty
    one), and a range inside the file that starts at its end. *)
Lemma openWrite_opened io errno vol path rel full off tot chunk v st d sink range v' :
  FileManager.absolute vol path = Some (rel, full) → 0 < tot < 2 ^ 63 → is_u32 (Z.of_nat chunk) → 0 <= off →
  FileManager.sizeAt (AtomicFile.partPath full) v < 2 ^ 63 →
  FileManager.openWrite io errno vol path off tot (Z.of_nat chunk) v = (st, d, Some (sink, range), v') →
  st = StOk ∧ sink = FileSink.mkSink full true off false false ∧
  off = FileManager.sizeAt (AtomicFile.partPath full) v ∧
  range = UploadRange.mkRange off off (Z.of_nat chunk) tot true ∧ (0 < chunk)%nat ∧ off + Z.of_nat chunk <= tot ∧
  UploadRange.endOffset range = off + Z.of_nat chunk ∧
  v' = <[AtomicFile.partPath full := default [] (v !! AtomicFile.partPath full)]> v.
Proof.
  intros Ha Ht Hc Ho Hs. unfold FileManager.openWrite.
  destruct (FileManager.resolve vol); try discriminate. rewrite Ha.
  destruct (bytes_eqb rel [47]); [discriminate|]. destruct (FileManager.isDirectory vol full); [discriminate|].
  rewrite (proj2 (Z.eqb_neq tot 0)) by lia. cbn [negb].
  pose proof (UploadRange.check_spec (FileManager.sizeAt (AtomicFile.partPath full) v) off (Z.of_nat chunk) tot Hc Ho) as Hk.
  destruct (UploadRange.check _ _ _ _ _) as [why|r]; [discriminate|].
  destruct Hk as (-> & He & Hp & Hle & Hend).
  { unfold FileManager.sizeAt in *. destruct (v !! _); lia. }
  { unfold is_u64. lia. }
  destruct (FileManager.mounted vol && _); [discriminate|]. cbn [UploadRange.offset].
  unfold FileSink.create. destruct (ioOpen io); cbn [negb]; [|discriminate]. cbn [FileSink.open negb].
  intros [= <- <- <- <- <-]. rewrite <- He in *. split_and!; try done; [lia|].
  unfold FileSink.partOf. cbn [FileSink.finalPath]. destruct (Z.ltb_spec 0 off); [done|].
  unfold FileManager.sizeAt in He. destruct (v !! AtomicFile.partPath full) as [p|]; [|done].
  cbn [default from_option id]. destruct p; [done|cbn [length] in He; lia].
Qed.

(** The file on the volume is the one from before or the one sent, never less; the
    part is a beginning of it; no other file is touched. *)
Definition sound (F full : bytes) (v0 v : AtomicFile.Vol) : Prop :=
  (∀ f, v !! full = Some f → f = F ∨ v0 !! full = Some f) ∧
  (∀ p, v !! AtomicFile.partPath full = Some p → p `prefix_of` F) ∧
  (∀ o, o ≠ full → o ≠ AtomicFile.partPath full → v !! o = v0 !! o).

Lemma remove_cases b path v : (AtomicFile.remove b path v).2 = v ∨ (AtomicFile.remove b path v).2 = delete path v.
Proof. unfold AtomicFile.remove. destruct (AtomicFile.readable path v), b; cbn; auto. Qed.

Lemma sound_delete F full v0 v path : sound F full v0 v → path = full ∨ path = AtomicFile.partPath full →
  sound F full v0 (delete path v).
Proof.
  intros (H1 & H2 & H3) Hp. split_and!.
  - intros f [_ Hf]%lookup_delete_Some. by apply H1.
  - intros p [_ Hf]%lookup_delete_Some. by apply H2.
  - intros o Ho1 Ho2. rewrite lookup_delete_ne; [by apply H3|]. destruct Hp as [-> | ->]; done.
Qed.

Lemma sound_remove F full v0 v b path : sound F full v0 v → path = full ∨ path = AtomicFile.partPath full →
  sound F full v0 (AtomicFile.remove b path v).2.
Proof. intros H Hp. destruct (remove_cases b path v) as [-> | ->]; [done|by apply sound_delete]. Qed.

Lemma sound_part F full v0 v p : sound F full v0 v → p `prefix_of` F →
  sound F full v0 (<[AtomicFile.partPath full := p]> v).
Proof.
  intros (H1 & H2 & H3) Hp. pose proof (AtomicFile.part_ne full) as Hne. split_and!.
  - intros f Hf. rewrite lookup_insert_ne in Hf by done. by apply H1.
  - intros q Hq. rewrite lookup_insert_eq in Hq. by injection Hq as <-.
  - intros o Ho1 Ho2. rewrite lookup_insert_ne by done. by apply H3.
Qed.

Lemma sound_abort F full v0 v io s : sound F full v0 v → FileSink.finalPath s = full →
  sound F full v0 (FileSink.abort io s v).2.
Proof.
  intros H Hs. unfold FileSink.abort. cbn [snd]. destruct (FileSink.committed s); [done|].
  apply sound_remove; [done|right]. unfold FileSink.partOf. by rewrite Hs.
Qed.

Lemma sound_destroy F full v0 v io s : sound F full v0 v → FileSink.finalPath s = full →
  sound F full v0 (FileSink.destroy io s v).
Proof. intros H Hs. unfold FileSink.destroy. destruct (_ && _); [by apply sound_abort|done]. Qed.

(** Publishing a whole part. *)
Lemma commit_spec F full v0 v io s ok s' v' : sound F full v0 v → v !! AtomicFile.partPath full = Some F →
  FileSink.finalPath s = full → FileSink.committed s = false → FileSink.open s = true →
  FileSink.commit io s v = (ok, s', v') →
  sound F full v0 v' ∧ FileSink.finalPath s' = full ∧ FileSink.written s' = (if ok then FileSink.written s else 0) ∧
  (ok = true → v' !! full = Some F ∧ v' !! AtomicFile.partPath full = None ∧ FileSink.committed s' = true) ∧
  (io = goodIo → ok = true).
Proof.
  intros H Hp Hf Hcm Ho. pose proof (AtomicFile.part_ne full) as Hne. unfold FileSink.commit. rewrite Hcm, Ho. cbn [negb].
  set (s1 := FileSink.mkSink _ _ _ _ _). destruct (ioFlush io) eqn:Eio; cbn [negb].
  2:{ destruct (FileSink.abort io s1 v) as [s2 v2] eqn:Ea. intros [= <- <- <-].
      pose proof (sound_abort F full v0 v io s1 H Hf) as Hs. rewrite Ea in Hs. unfold FileSink.abort in Ea. injection Ea as <- _.
      split_and!; try done. intros ->. done. }
  change (FileSink.finalPath s1) with (FileSink.finalPath s). unfold FileSink.partOf. cbn [FileSink.finalPath s1]. rewrite Hf.
  set (v1 := (AtomicFile.remove (ioUnlinkFinal io) full v).2).
  assert (H1 : sound F full v0 v1) by (apply sound_remove; auto).
  assert (Hp1 : v1 !! AtomicFile.partPath full = Some F).
  { destruct (remove_cases (ioUnlinkFinal io) full v) as [E|E]; subst v1; rewrite E; [done|].
    by rewrite lookup_delete_ne by congruence. }
  unfold AtomicFile.rename. rewrite Hp1. destruct (ioRename io && negb (AtomicFile.readable full v1)) eqn:Er; cbn [negb].
  - intros [= <- <- <-]. cbn [FileSink.finalPath FileSink.written FileSink.committed]. split_and!; try done.
    + destruct H1 as (Ha & Hb & Hc). split_and!.
      * intros f Hg. rewrite lookup_insert_eq in Hg. injection Hg as <-. by left.
      * intros p Hg. rewrite lookup_insert_ne, lookup_delete_eq in Hg by congruence. done.
      * intros o Ho1 Ho2. rewrite lookup_insert_ne, lookup_delete_ne by congruence. by apply Hc.
    + intros _. split_and!; [by rewrite lookup_insert_eq|by rewrite lookup_insert_ne, lookup_delete_eq by congruence|done].
  - destruct (FileSink.abort io s1 v1) as [s2 v2] eqn:Ea. intros [= <- <- <-].
    pose proof (sound_abort F full v0 v1 io s1 H1 Hf) as Hs. rewrite Ea in Hs. unfold FileSink.abort in Ea. injection Ea as <- _.
    split_and!; try done. intros ->. exfalso. cbn [ioRename goodIo andb] in Er.
    apply negb_false_iff in Er. unfold AtomicFile.readable in Er. apply bool_decide_eq_true in Er as [f Hg]. subst v1.
    unfold AtomicFile.remove in Hg. cbn [ioUnlinkFinal goodIo] in Hg. unfold AtomicFile.readable in Hg.
    case_bool_decide as Hr; cbn in Hg; [by rewrite lookup_delete_eq in Hg|]. apply Hr. by eexists.
Qed.

Lemma prefix_full (a b : bytes) : a `prefix_of` b → length a = length b → a = b.
Proof.
  intros [k ->] H. rewrite length_app in H. rewrite (nil_length_inv k) by lia. by rewrite app_nil_r.
Qed.

Lemma openWrite_refused F io errno vol path rel full off tot chunk v0 v st d v' :
  FileManager.absolute vol path = Some (rel, full) → sound F full v0 v →
  FileManager.openWrite io errno vol path off tot chunk v = (st, d, None, v') → sound F full v0 v'.
Proof.
  intros Ha Hv. unfold FileManager.openWrite.
  destruct (FileManager.resolve vol); try (by intros [= <- <- <-]). rewrite Ha.
  destruct (bytes_eqb rel [47]); [by intros [= <- <- <-]|]. destruct (FileManager.isDirectory vol full); [by intros [= <- <- <-]|].
  destruct (UploadRange.check _ _ _ _ _) as [|r]; [by intros [= <- <- <-]|].
  destruct (_ && _); [by intros [= <- <- <-]|]. unfold FileSink.create. destruct (ioOpen io); cbn [negb FileSink.open]; [done|].
  intros [= <- <- <-]. by apply sound_destroy.
Qed.

(** What a body leaves behind a part [p] that is a beginning of [F]. *)
Lemma body_sound F io path full off p chunk bufSize evs range v0 v a calls v' :
  sound F full v0 v → p `prefix_of` F → fits bufSize chunk evs → carried evs `prefix_of` drop (length p) F →
  (UploadRange.completes range = true → (length F <= length p + chunk)%nat) →
  uploadBody io path chunk bufSize evs (FileSink.mkSink full true off false false) range (<[AtomicFile.partPath full := p]> v) = (a, calls, v') →
  sound F full v0 v' ∧ (∀ w n, a = Uploaded w n → v' !! full = Some F ∧ v' !! AtomicFile.partPath full = None).
Proof.
  intros Hv Hp Hfit Hcar Hcomp. assert (HpF : take (length p) F = p) by (destruct Hp as [k ->]; apply take_app_length). unfold uploadBody. cbv zeta.
  destruct (readLoop evs chunk bufSize 0 _ _) as [[[ok stopped] s'] vr] eqn:El.
  edestruct readLoop_spec as (w & Hw & -> & Hop' & Hfp & Hcm & Hkp & Hall & _); [| |exact Hfit|exact El|]; [reflexivity|apply lookup_insert_eq|].
  cbn [FileSink.open FileSink.finalPath FileSink.committed FileSink.kept] in *. rewrite insert_insert_eq.
  change (FileSink.partOf (FileSink.mkSink full true off false false)) with (AtomicFile.partPath full).
  assert (Hpw : p ++ w `prefix_of` F).
  { rewrite <- (take_drop (length p) F), HpF. apply prefix_app. by etrans. }
  pose proof (sound_part F full v0 v _ Hv Hpw) as H2. set (v2 := <[_ := p ++ w]> v) in *.
  assert (Habort : ∀ s vv, sound F full v0 vv → FileSink.finalPath s = full →
    let r := FileSink.abort io s vv in sound F full v0 (FileSink.destroy io r.1 r.2)).
  { intros s vv Hs Hf. cbv zeta. apply sound_destroy; [by apply sound_abort|]. unfold FileSink.abort. exact Hf. }
  destruct stopped.
  { pose proof (Habort s' v2 H2 Hfp) as H3. destruct (FileSink.abort io s' v2) as [s3 v3]. by intros [= <- <- <-]. }
  destruct (negb ok || _) eqn:Ecomp.
  { destruct (negb (UploadRange.resumable range)).
    - pose proof (Habort s' v2 H2 Hfp) as H3. destruct (FileSink.abort io s' v2) as [s3 v3]. by intros [= <- <- <-].
    - intros [= <- <- <-]. split; [|done]. apply sound_destroy; [done|]. unfold FileSink.keep.
      destruct (FileSink.committed s' || FileSink.kept s'); [done|]. exact Hfp. }
  apply orb_false_iff in Ecomp as [->%negb_false_iff Hc%negb_false_iff%Hcomp].
  specialize (Hall eq_refl eq_refl).
  assert (Hwhole : p ++ w = F) by (apply prefix_full; [done|apply prefix_length in Hpw; rewrite length_app in *; lia]).
  destruct (FileSink.commit io s' v2) as [[done_ s3] v3] eqn:Ec.
  assert (Hp2 : v2 !! AtomicFile.partPath full = Some F) by (subst v2; by rewrite lookup_insert_eq, Hwhole).
  destruct (commit_spec F full v0 v2 io s' done_ s3 v3 H2 Hp2 Hfp Hcm Hop' Ec) as (H3 & Hf3 & _ & Hok & _).
  destruct done_; cbn [negb].
  - intros [= <- <- <-]. destruct (Hok eq_refl) as (Hq1 & Hq2 & Hq3). unfold FileSink.destroy. rewrite Hq3. cbn [negb andb]. done.
  - pose proof (Habort s3 v3 H3 Hf3) as H4. destruct (FileSink.abort io s3 v3) as [s4 v4]. by intros [= <- <- <-].
Qed.

(** One piece of the file [F]. *)
Lemma piece_sound F io errno vol path rel full off chunk bufSize evs v0 v a calls v' :
  FileManager.absolute vol path = Some (rel, full) → F ≠ [] → Z.of_nat (length F) < 2 ^ 63 →
  is_u32 (Z.of_nat chunk) → 0 <= off → fits bufSize chunk evs → carried evs `prefix_of` drop (Z.to_nat off) F →
  sound F full v0 v →
  uploadTask io errno vol path off (Z.of_nat (length F)) chunk bufSize evs v = (a, calls, v') →
  sound F full v0 v' ∧ (∀ w n, a = Uploaded w n → v' !! full = Some F ∧ v' !! AtomicFile.partPath full = None).
Proof.
  intros Ha HF HL Hc Ho Hfit Hcar Hv. assert (Hlen : 0 < Z.of_nat (length F)) by (destruct F; [done|cbn [length]; lia]).
  assert (Hsize : FileManager.sizeAt (AtomicFile.partPath full) v < 2 ^ 63).
  { unfold FileManager.sizeAt. destruct (v !! _) as [p|] eqn:E; [|lia]. apply Hv in E. apply prefix_length in E. lia. }
  unfold uploadTask.
  destruct (FileManager.openWrite io errno vol path off (Z.of_nat (length F)) (Z.of_nat chunk) v) as [[[st d] opened] v1] eqn:Eo.
  destruct opened as [[sink range]|].
  2:{ intros [= <- <- <-]. split; [|done]. by eapply openWrite_refused. }
  destruct (openWrite_opened _ _ _ _ _ _ _ _ _ _ _ _ _ _ _ Ha (conj Hlen HL) Hc Ho Hsize Eo)
    as (-> & -> & Hoff & -> & Hpos & Hle & Hend & ->).
  set (p := default [] (v !! AtomicFile.partPath full)) in *.
  assert (Hp : p `prefix_of` F ∧ off = Z.of_nat (length p)).
  { subst p. unfold FileManager.sizeAt in Hoff. destruct (v !! AtomicFile.partPath full) as [q|] eqn:Eq; cbn [default from_option id].
    - split; [by apply Hv|done]. - split; [apply prefix_nil|done]. }
  destruct Hp as [Hp Hop]. rewrite Hop, Nat2Z.id in Hcar.
  apply body_sound; try done. unfold UploadRange.completes. rewrite Hend. cbn [UploadRange.total]. lia.
Qed.

(** The whole of it in one request, without a total. *)
Lemma whole_sound F io errno vol path rel full off bufSize evs v0 v a calls v' :
  FileManager.absolute vol path = Some (rel, full) → fits bufSize (length F) evs → carried evs `prefix_of` F →
  sound F full v0 v →
  uploadTask io errno vol path off 0 (length F) bufSize evs v = (a, calls, v') →
  sound F full v0 v' ∧ (∀ w n, a = Uploaded w n → v' !! full = Some F ∧ v' !! AtomicFile.partPath full = None).
Proof.
  intros Ha Hfit Hcar Hv. unfold uploadTask.
  destruct (FileManager.openWrite io errno vol path off 0 (Z.of_nat (length F)) v) as [[[st d] opened] v1] eqn:Eo.
  destruct opened as [[sink range]|].
  2:{ intros [= <- <- <-]. split; [|done]. by eapply openWrite_refused. }
  revert Eo. unfold FileManager.openWrite. destruct (FileManager.resolve vol); try discriminate. rewrite Ha.
  destruct (bytes_eqb rel [47]); [discriminate|]. destruct (FileManager.isDirectory vol full); [discriminate|].
  rewrite Z.eqb_refl. unfold UploadRange.check. cbn [negb]. destruct (FileManager.mounted vol && _); [discriminate|]. cbn [UploadRange.offset].
  unfold FileSink.create. destruct (ioOpen io); cbn [negb]; [|discriminate]. cbn [FileSink.open negb].
  intros [= <- <- <- <- <-]. cbn [Z.ltb Z.compare]. apply (body_sound F io path full 0 []); try done. apply prefix_nil.
Qed.

(** What may happen to an upload of [F]: a request that brings a piece of it and says how
    long the whole is - from wherever it says, cut off wherever the line ends, with whatever
    luck on the volume, stopped by the operator or not -; one that names no total and
    brings the whole of it, as far as it comes; or the client giving it up. *)
Inductive upload_step (F path full : bytes) : AtomicFile.Vol → AtomicFile.Vol → Prop :=
  | step_piece io errno vol rel off chunk bufSize evs v a calls v' :
      FileManager.absolute vol path = Some (rel, full) → is_u32 (Z.of_nat chunk) → 0 <= off →
      fits bufSize chunk evs → carried evs `prefix_of` drop (Z.to_nat off) F →
      uploadTask io errno vol path off (Z.of_nat (length F)) chunk bufSize evs v = (a, calls, v') →
      upload_step F path full v v'
  | step_whole io errno vol rel off bufSize evs v a calls v' :
      FileManager.absolute vol path = Some (rel, full) → fits bufSize (length F) evs → carried evs `prefix_of` F →
      uploadTask io errno vol path off 0 (length F) bufSize evs v = (a, calls, v') →
      upload_step F path full v v'
  | step_discard io errno vol rel v st d v' :
      FileManager.absolute vol path = Some (rel, full) →
      FileManager.discardUpload io errno vol path v = (st, d, v') → upload_step F path full v v'.

(** C22: an upload never tears a file.  As long as the requests bring one content [F], in
    pieces that announce its length or whole without one, and what waits beside the name
    when they begin is nothing or a beginning of [F]: after any sequence of requests,
    broken lines, failed writes, stops and cancels, what stands under the name is the
    whole of [F] or the very file that stood there, or nothing; what waits beside it is a
    beginning of [F]; and no other file has changed.  (A piece that announces the length 0
    counts as a whole: [zero_total_replaces].) *)
Theorem upload_never_torn F path full v0 v : F ≠ [] → Z.of_nat (length F) < 2 ^ 63 →
  (∀ p, v0 !! AtomicFile.partPath full = Some p → p `prefix_of` F) →
  rtc (upload_step F path full) v0 v →
  (∀ f, v !! full = Some f → f = F ∨ v0 !! full = Some f) ∧
  (∀ p, v !! AtomicFile.partPath full = Some p → p `prefix_of` F) ∧
  (∀ o, o ≠ full → o ≠ AtomicFile.partPath full → v !! o = v0 !! o).
Proof.
  intros HF HL Hp0 Hr. change (sound F full v0 v).
  assert (H0 : sound F full v0 v0) by (split_and!; auto).
  assert (Hgo : ∀ a b, rtc (upload_step F path full) a b → sound F full v0 a → sound F full v0 b).
  { intros a b H. induction H as [|a1 a2 a3 Hs _ IH]; [done|]. intros Ha. apply IH. clear IH.
    destruct Hs as [io errno vol rel off chunk buf evs v1 ans calls v' Hab Hc Ho Hfit Hcar E|io errno vol rel off buf evs v1 ans calls v' Hab Hfit Hcar E|io errno vol rel v1 st d v' Hab E].
    - exact (proj1 (piece_sound _ _ _ _ _ _ _ _ _ _ _ _ _ _ _ _ Hab HF HL Hc Ho Hfit Hcar Ha E)).
    - exact (proj1 (whole_sound _ _ _ _ _ _ _ _ _ _ _ _ _ _ _ Hab Hfit Hcar Ha E)).
    - revert E. unfold FileManager.discardUpload. destruct (FileManager.resolve vol); try (by intros [= <- <- <-]).
      rewrite Hab. pose proof (sound_remove F full v0 v1 (ioUnlinkPart io) (AtomicFile.partPath full) Ha (or_intror eq_refl)) as H.
      destruct (AtomicFile.remove _ _ v1) as [gone v2]. cbn [snd] in H. destruct gone; cbn [negb]; by intros [= <- <- <-]. }
  by eapply Hgo.
Qed.

(** A line that works: bytes keep coming, every write is taken, nobody presses stop. *)
Definition arrives (bufSize : nat) (evs : list Event) : Prop :=
  Forall (λ e, match e with
               | Received data None false => data ≠ [] ∧ (length data <= bufSize)%nat
               | _ => False
               end) evs.

Lemma arrives_fits bufSize evs : arrives bufSize evs → fits bufSize (length (carried evs)) evs ∧ roomy evs.
Proof.
  intros H. repeat split; try lia; (eapply Forall_impl; [exact H|]); intros [data [|] [|]| |]; naive_solver.
Qed.

Lemma readLoop_arrives evs : ∀ bufSize retries s v, arrives bufSize evs → FileSink.open s = true →
  ∃ s' v', readLoop evs (length (carried evs)) bufSize retries s v = (true, false, s', v').
Proof.
  induction evs as [|e evs IH]; intros bufSize retries s v Ha Ho; [cbn; eauto|].
  apply Forall_cons in Ha as [He Ha]. destruct e as [data [|] [|]| |]; try done. destruct He as [Hne Hb].
  cbn [carried]. rewrite length_app. destruct data as [|x data]; [done|]. cbn [length Nat.add readLoop].
  rewrite take_ge by (cbn [length] in *; lia). rewrite bool_decide_eq_false_2 by done.
  unfold FileSink.write. rewrite Ho, bool_decide_eq_false_2 by done. cbn [negb orb].
  replace (S (length data + length (carried evs)) - length (x :: data))%nat with (length (carried evs)) by (cbn; lia).
  by apply IH.
Qed.

Lemma openWrite_opens errno vol path rel full n len v st d opened v' :
  FileManager.resolve vol = StOk → FileManager.absolute vol path = Some (rel, full) → rel ≠ [47] →
  FileManager.isDirectory vol full = false → (n < len)%nat → Z.of_nat len < 2 ^ 32 →
  Z.of_nat len + FileManager.kFreeSpaceReserve <= FileManager.freeBytes vol →
  FileManager.sizeAt (AtomicFile.partPath full) v = Z.of_nat n →
  FileManager.openWrite goodIo errno vol path (Z.of_nat n) (Z.of_nat len) (Z.of_nat (len - n)) v = (st, d, opened, v') →
  ∃ sr, opened = Some sr.
Proof.
  intros Hres Ha Hrel Hdir Hn HL Hfree Hsize. unfold FileManager.openWrite.
  rewrite Hres, Ha, (proj2 (bytes_eqb_neq _ _) Hrel), Hdir, Hsize.
  rewrite (proj2 (Z.eqb_neq (Z.of_nat len) 0)) by lia. cbn [negb].
  pose proof (UploadRange.check_spec (Z.of_nat n) (Z.of_nat n) (Z.of_nat (len - n)) (Z.of_nat len)) as Hk.
  destruct (UploadRange.check _ _ _ _ _) as [why|r].
  { destruct Hk as [_ []]; unfold is_u32, is_u64; lia. }
  destruct Hk as (-> & _); try (unfold is_u32, is_u64; lia).
  unfold UploadRange.neededBytes. cbn [UploadRange.offset UploadRange.total].
  destruct (Z.ltb_spec (Z.of_nat n) (Z.of_nat len)); [|lia].
  rewrite (u64_small (_ - _)) by (unfold is_u64; lia). unfold FileManager.kFreeSpaceReserve in *.
  rewrite u64_small by (unfold is_u64; lia).
  destruct (Z.ltb_spec (FileManager.freeBytes vol) (Z.of_nat len - Z.of_nat n + 4096)); [lia|].
  rewrite andb_false_r. cbn [FileSink.create ioOpen goodIo negb FileSink.open]. intros [= _ _ <- _]. by eexists.
Qed.

(** C23: the last piece - the rest of the file, to the offset the device itself
    names - publishes exactly the file: its name, its bytes, no part left. *)
Theorem upload_finishes F io errno vol path rel full p bufSize evs v :
  FileManager.resolve vol = StOk → FileManager.absolute vol path = Some (rel, full) → rel ≠ [47] →
  FileManager.isDirectory vol full = false → F ≠ [] → Z.of_nat (length F) < 2 ^ 32 →
  Z.of_nat (length F) + FileManager.kFreeSpaceReserve <= FileManager.freeBytes vol → io = goodIo →
  default [] (v !! AtomicFile.partPath full) = p → p `prefix_of` F → p ≠ F →
  arrives bufSize evs → carried evs = drop (length p) F →
  let '(st, off) := FileManager.uploadOffset vol path v in
  ∃ calls v', uploadTask io errno vol path off (Z.of_nat (length F)) (length F - length p) bufSize evs v =
    (Uploaded (Z.of_nat (length F)) rel, calls, v') ∧
    v' !! full = Some F ∧ v' !! AtomicFile.partPath full = None ∧
    (∀ o, o ≠ full → o ≠ AtomicFile.partPath full → v' !! o = v !! o).
Proof.
  intros Hres Ha Hrel Hdir HF HL Hfree -> Hpart Hp HpF Hev Hcar.
  unfold FileManager.uploadOffset. rewrite Hres, Ha.
  assert (Hsize : FileManager.sizeAt (AtomicFile.partPath full) v = Z.of_nat (length p)).
  { unfold FileManager.sizeAt. rewrite <- Hpart. by destruct (v !! _). }
  rewrite Hsize. pose proof (prefix_length _ _ Hp) as Hlp.
  assert (Hlt : (length p < length F)%nat).
  { destruct (Nat.eq_dec (length p) (length F)); [|lia]. by destruct HpF, (prefix_full p F). }
  assert (Hchunk : length (carried evs) = (length F - length p)%nat) by (by rewrite Hcar, length_drop).
  unfold uploadTask.
  destruct (FileManager.openWrite goodIo errno vol path (Z.of_nat (length p)) (Z.of_nat (length F))
              (Z.of_nat (length F - length p)) v) as [[[st d] opened] v1] eqn:Eo.
  assert (Hopen : ∃ sr, opened = Some sr).
  { eapply (openWrite_opens errno vol path rel full (length p) (length F)); [exact Hres|exact Ha|done|done|lia|exact HL|done|exact Hsize|exact Eo]. }
  destruct Hopen as [[sink range] ->].
  destruct (openWrite_opened goodIo errno vol path rel full (Z.of_nat (length p)) (Z.of_nat (length F))
              (length F - length p) v st d sink range v1 Ha)
    as (-> & -> & _ & -> & _ & _ & Hend & ->); [lia|unfold is_u32; lia|lia|lia|done|].
  destruct (arrives_fits _ _ Hev) as [Hfit Hroomy]. rewrite <- Hchunk.
  destruct (readLoop_arrives evs bufSize 0 (FileSink.mkSink full true (Z.of_nat (length p)) false false)
              (<[AtomicFile.partPath full:=default [] (v !! AtomicFile.partPath full)]> v) Hev eq_refl) as (s' & vr & El).
  unfold uploadBody. cbv zeta. rewrite El.
  edestruct readLoop_spec as (w & Hw & -> & Hop' & Hfp & Hcm & Hkp & Hall & Hwr); [| |exact Hfit|exact El|]; [reflexivity|apply lookup_insert_eq|].
  cbn [FileSink.open FileSink.finalPath FileSink.committed FileSink.kept FileSink.written] in *. rewrite insert_insert_eq.
  change (FileSink.partOf (FileSink.mkSink full true (Z.of_nat (length p)) false false)) with (AtomicFile.partPath full).
  specialize (Hall eq_refl eq_refl). apply prefix_full in Hw; [|done]. subst w. rewrite Hpart, Hcar.
  assert (HpF' : p ++ drop (length p) F = F) by (destruct Hp as [k ->]; by rewrite drop_app_length).
  rewrite HpF'. set (v2 := <[_ := F]> v).
  unfold UploadRange.completes. rewrite <- Hchunk, Hcar in Hend. rewrite Hend. cbn [UploadRange.total negb orb].
  destruct (Z.leb_spec (Z.of_nat (length F)) (Z.of_nat (length p) + Z.of_nat (length (drop (length p) F)))); [|rewrite length_drop in *; lia]. cbn [negb].
  assert (H2 : sound F full v v2).
  { unfold v2. split_and!.
    - intros f Hf. rewrite lookup_insert_ne in Hf by apply AtomicFile.part_ne. by right.
    - intros q Hq. rewrite lookup_insert_eq in Hq. by injection Hq as <-.
    - intros o Ho1 Ho2. by rewrite lookup_insert_ne. }
  destruct (FileSink.commit goodIo s' v2) as [[done_ s3] v3] eqn:Ec.
  destruct (commit_spec F full v v2 goodIo s' done_ s3 v3 H2 (lookup_insert_eq _ _ _) Hfp Hcm Hop' Ec)
    as ((_ & _ & H3) & Hf3 & Hw3 & Hok & Hgood).
  specialize (Hgood eq_refl). subst done_. destruct (Hok eq_refl) as (Hq1 & Hq2 & Hq3). cbn [negb].
  assert (Hnorm : default path (PathUtil.normalize path) = rel).
  { unfold FileManager.absolute in Ha. destruct (PathUtil.normalize path); [by injection Ha as <- _|done]. }
  rewrite Hnorm, Hw3, (Hwr Hroomy) by (unfold is_u64; lia).
  unfold FileSink.destroy. rewrite Hq3. cbn [negb andb]. eexists _, v3. split_and!; try done.
  f_equal. f_equal. f_equal. rewrite Hcar, length_drop. unfold u64. rewrite Z.mod_small by lia. lia.
Qed.

Definition demoVolume : FileManager.Volume :=
  FileManager.mkVolume true true false (lit "/sd") 100000 (λ _, false).
Definition demoFile : bytes := lit "hello world".
Definition beside : AtomicFile.Vol :=
  <[lit "/sd/a.txt" := lit "old"]> (<[lit "/sd/a.txt.part" := lit "hello "]> ∅).

Lemma upload_never_torn_witness :
  let v := (uploadTask goodIo [] demoVolume (lit "a.txt") 6 11 5 4096 [Received (lit "wo") None false; Lost] beside).2 in
  (∀ f, v !! lit "/sd/a.txt" = Some f → f = demoFile ∨ beside !! lit "/sd/a.txt" = Some f) ∧
  (∀ p, v !! lit "/sd/a.txt.part" = Some p → p `prefix_of` demoFile) ∧
  (∀ o, o ≠ lit "/sd/a.txt" → o ≠ AtomicFile.partPath (lit "/sd/a.txt") → v !! o = beside !! o).
Proof.
  cbv zeta. apply (upload_never_torn demoFile (lit "a.txt") (lit "/sd/a.txt") beside); [done|vm_compute; reflexivity| |].
  - intros p Hp. assert (E : beside !! AtomicFile.partPath (lit "/sd/a.txt") = Some (lit "hello ")) by (vm_compute; reflexivity).
    rewrite E in Hp. injection Hp as <-. by exists (lit "world").
  - apply rtc_once. destruct (uploadTask goodIo [] demoVolume (lit "a.txt") 6 11 5 4096 [Received (lit "wo") None false; Lost] beside)
      as [[a calls] v'] eqn:E. cbn [snd].
    apply (step_piece _ _ _ goodIo [] demoVolume (lit "/a.txt") 6 5 4096 [Received (lit "wo") None false; Lost] beside a calls v');
      [reflexivity|unfold is_u32; cbn; lia|lia| | |exact E].
    + split; [repeat constructor; cbn; lia|cbn; lia].
    + by exists (lit "rld").
Defined.

Lemma upload_finishes_witness :
  ∃ calls v', uploadTask goodIo [] demoVolume (lit "a.txt") 6 11 5 4096 [Received (lit "world") None false] beside =
    (Uploaded 11 (lit "/a.txt"), calls, v') ∧
    v' !! lit "/sd/a.txt" = Some demoFile ∧ v' !! AtomicFile.partPath (lit "/sd/a.txt") = None ∧
    (∀ o, o ≠ lit "/sd/a.txt" → o ≠ AtomicFile.partPath (lit "/sd/a.txt") → v' !! o = beside !! o).
Proof.
  apply (upload_finishes demoFile goodIo [] demoVolume (lit "a.txt") (lit "/a.txt") (lit "/sd/a.txt") (lit "hello ") 4096
           [Received (lit "world") None false] beside); try reflexivity; try done.
  - by exists (lit "world").
  - apply Forall_singleton. split; [done|apply Nat.leb_le; vm_compute; reflexivity].
Defined.

(** When the old file is gone and the rename fails, the part is removed as well:
    neither version is left. *)
Example failed_rename_loses_both :
  let '(a, _, v) := uploadTask (mkIo true true true false true) [] demoVolume (lit "a.txt") 6 11 5 4096
                      [Received (lit "world") None false] beside in
  a = CannotPublish ∧ v !! lit "/sd/a.txt" = None ∧ v !! lit "/sd/a.txt.part" = None.
Proof. vm_compute. auto. Qed.

(** A file that cannot be opened for the next piece takes the pieces before with it. *)
Example failed_open_drops_part :
  let '(a, _, v) := uploadTask (mkIo false true true true true) [] demoVolume (lit "a.txt") 6 11 5 4096 [] beside in
  a = Refused IoError [] ∧ v !! lit "/sd/a.txt.part" = None.
Proof. vm_compute. auto. Qed.

(** [total=0] counts as no [total]: the piece replaces the file. *)
Example zero_total_replaces :
  let '(a, _, v) := uploadTask goodIo [] demoVolume (lit "a.txt") 6 0 2 4096 [Received (lit "xy") None false] beside in
  a = Uploaded 2 (lit "/a.txt") ∧ v !! lit "/sd/a.txt" = Some (lit "xy").
Proof. vm_compute. auto. Qed.

End UploadTask.
