(* ===== verification/FileShell.v ===== *)
(** * The file commands of the SSH shell

    src/net/FileShellPath.cpp turns what was typed into a path of one of the two
    volumes; src/net/FileShell.cpp runs the commands over the port
    [IFileOperations]. The port is a type class: the theorems about the shell hold
    over every volume behind it, and those that speak of files use its laws, which
    PosixFiles.v proves of the implementation the program has. *)
From S2P Require Import Prelude Text PathUtil.
From stdpp Require Import gmap.
#[local] Open Scope Z_scope.

#[local] Abbreviation slash := 47.
#[local] Abbreviation dot := 46.

Module FileShellPath.

Definition kVolumes : list bytes := [lit "/fat"; lit "/sdcard"].

(** The volume itself or something in it. *)
Definition under (volume name : bytes) : bool :=
  is_prefix volume name
  && ((length name =? length volume)%nat || (nth (length volume) name 0 =? slash)).

Definition startsWithVolume (name : bytes) : bool := existsb (λ volume, under volume name) kVolumes.

Definition hasControlByte (text : bytes) : bool := existsb (λ c, c <? 0x20) text.

(** [while (text.size() > 1 && text.back() == '/') text.pop_back()]. *)
Definition trimmedSlashes (text : bytes) : bytes :=
  match drop_while_end (λ c, c =? slash) text with
  | [] => take 1 text
  | t => t
  end.

Definition volumeOf (absolute : bytes) : bytes :=
  default [] (List.find (λ volume, under volume absolute) kVolumes).

(** The components of the current directory, below its volume. *)
Definition standing (base current : bytes) : list bytes :=
  List.filter (λ s, negb (bool_decide (s = []))) (split_on slash (drop (length base) current)).

(** The fold of the typed components; [None]: one [..] too many. *)
Fixpoint foldParts (typed parts : list bytes) : option (list bytes) :=
  match typed with
  | [] => Some parts
  | part :: typed =>
      if bool_decide (part = []) || bytes_eqb part [dot] then foldParts typed parts
      else if bytes_eqb part [dot; dot] then
        if bool_decide (parts = []) then None else foldParts typed (List.removelast parts)
      else foldParts typed (parts ++ [part])
  end.

(** [out.back() != '/'] before every part. *)
Definition append (base : bytes) (parts : list bytes) : bytes :=
  fold_left (λ out part, (if List.last out 0 =? slash then out else out ++ [slash]) ++ part) parts base.

(** The reason of a refusal, or the path. *)
Definition resolve (current typed : bytes) : bytes + bytes :=
  if bool_decide (typed = []) then inr current
  else if hasControlByte typed then inl (lit "a path cannot hold control symbols")
  else
    let absolute := hd 0 typed =? slash in
    if absolute && negb (startsWithVolume typed) then inl (lit "a path starts with /fat or /sdcard")
    else
      let base := if absolute then volumeOf typed
                  else match volumeOf current with [] => lit "/fat" | v => v end in
      let rest := if absolute then drop (length base) typed else typed in
      match foldParts (split_on slash rest) (if absolute then [] else standing base current) with
      | None => inl (lit "a path cannot leave its volume")
      | Some parts => inr (trimmedSlashes (append base parts))
      end.

(** The directory afterwards, and the reason when it is the one of before. *)
Definition changeTo (current typed : bytes) : option bytes * bytes :=
  if bool_decide (typed = []) then
    (None, match volumeOf current with [] => lit "/fat" | volume => volume end)
  else match resolve current typed with
       | inl why => (Some why, current)
       | inr target => (None, target)
       end.

(** ** The sandbox *)

Definition plain (s : bytes) : Prop := s ≠ [] ∧ slash ∉ s ∧ s ≠ [dot] ∧ s ≠ [dot; dot].

(** A path of a volume: its root and plain names below. *)
Definition below (volume : bytes) (parts : list bytes) : bytes := volume ++ concat (cons slash <$> parts).
Definition inVolume (p : bytes) : Prop := ∃ v parts, v ∈ kVolumes ∧ p = below v parts ∧ Forall plain parts.

Lemma below_under v parts : v ∈ kVolumes → volumeOf (below v parts) = v.
Proof.
  intros Hv. unfold volumeOf, kVolumes in *.
  assert (Hu : ∀ w, under w (w ++ concat (cons slash <$> parts)) = true).
  { intros w. unfold under. rewrite (proj2 (is_prefix_spec _ _)) by eauto. cbn [andb].
    destruct parts as [|q ps]; cbn; [by rewrite app_nil_r, Nat.eqb_refl|].
    rewrite app_nth2, Nat.sub_diag by lia. cbn. apply orb_true_r. }
  unfold below. apply elem_of_cons in Hv as [->|[->|[]%elem_of_nil]%elem_of_cons]; cbn [List.find].
  - by rewrite Hu.
  - by rewrite Hu.
Qed.

Lemma plain_idle s : plain s → (bool_decide (s = []) || bytes_eqb s [dot]) = false ∧ bytes_eqb s [dot; dot] = false.
Proof.
  intros (H1 & _ & H2 & H3). rewrite bool_decide_eq_false_2 by done. cbn [orb].
  by rewrite !(proj2 (bytes_eqb_neq _ _)).
Qed.

Lemma filter_plain parts : Forall plain parts → List.filter (λ s, negb (bool_decide (s = []))) parts = parts.
Proof.
  induction 1 as [|s l (Hs & _) _ IH]; [done|]. cbn [List.filter]. rewrite bool_decide_eq_false_2 by done.
  cbn [negb]. by rewrite IH.
Qed.

Lemma standing_below v parts : Forall plain parts → standing v (below v parts) = parts.
Proof.
  intros Hp. unfold standing, below. rewrite drop_app_length. destruct parts as [|q ps]; [done|].
  cbn [fmap list_fmap concat app]. rewrite <- (app_nil_l (slash :: _)), split_on_app by apply not_elem_of_nil.
  change (q ++ concat (cons slash <$> ps)) with (Text.join slash (q :: ps)).
  rewrite split_join; [|done|by eapply Forall_impl; [exact Hp|intros s (_&?&_)]].
  cbn [List.filter negb]. change (bool_decide ([] = [])) with true. cbn [negb].
  by apply (filter_plain (q :: ps)).
Qed.

Lemma foldParts_plain typed : ∀ parts out, Forall plain parts → Forall (λ s, slash ∉ s) typed →
  foldParts typed parts = Some out → Forall plain out.
Proof.
  induction typed as [|s typed IH]; intros parts out Hp Ht; cbn [foldParts]; [by intros [= <-]|].
  apply Forall_cons in Ht as [Hs Ht]. case_bool_decide as Hn; cbn [orb]; [by apply IH|].
  destruct (bytes_eqb s [dot]) eqn:E1; [by apply IH|]. destruct (bytes_eqb s [dot; dot]) eqn:E2.
  - case_bool_decide as Hq; [done|]. apply IH; [|done].
    rewrite (app_removelast_last [] Hq) in Hp. by apply Forall_app in Hp as [? _].
  - apply IH; [|done]. apply Forall_app. split; [done|]. apply Forall_singleton.
    apply bytes_eqb_neq in E1, E2. by split_and!.
Qed.

Lemma append_below base parts : base ≠ [] → List.last base 0 ≠ slash → Forall plain parts →
  append base parts = below base parts ∧ (List.last (below base parts) 0 ≠ slash).
Proof.
  unfold append, below. intros Hb Hl Hp. revert base Hb Hl. induction Hp as [|s l Hs Hl IH]; intros base Hb Hlb.
  - cbn. rewrite app_nil_r. done.
  - cbn [fold_left fmap list_fmap concat]. rewrite (proj2 (Z.eqb_neq _ _) Hlb).
    destruct (IH ((base ++ [slash]) ++ s)) as [E1 E2].
    + destruct base; done.
    + destruct Hs as (Hs1 & Hs2 & _). intros E. apply Hs2.
      destruct (exists_last Hs1) as (t & c & ->). rewrite !app_assoc, last_last in E. subst c.
      apply elem_of_app. right. by left.
    + rewrite E1. rewrite <- !app_assoc in *. cbn [app] in *. done.
Qed.

Lemma trimmed_id s : s ≠ [] → List.last s 0 ≠ slash → trimmedSlashes s = s.
Proof.
  intros Hs Hl. unfold trimmedSlashes, drop_while_end. destruct (exists_last Hs) as (t & c & ->).
  rewrite last_last in Hl. rewrite reverse_snoc. cbn [drop_while].
  rewrite (proj2 (Z.eqb_neq _ _) Hl), reverse_cons, reverse_involutive. by destruct t.
Qed.

Lemma volumes_end v : v ∈ kVolumes → v ≠ [] ∧ List.last v 0 ≠ slash ∧ slash ∈ v.
Proof. unfold kVolumes. intros [->|[->|[]%elem_of_nil]%elem_of_cons]%elem_of_cons; split_and!; try done; by left. Qed.

Lemma under_split v s : under v s = true → ∃ rest, s = v ++ rest ∧ (rest = [] ∨ ∃ r, rest = slash :: r).
Proof.
  unfold under. intros [(rest & ->)%is_prefix_spec H]%andb_true_iff. exists rest. split; [done|].
  destruct rest as [|c r]; [by left|right]. apply orb_true_iff in H as [H|H].
  - apply Nat.eqb_eq in H. rewrite length_app in H. cbn in H. lia.
  - rewrite app_nth2, Nat.sub_diag in H by lia. cbn in H. apply Z.eqb_eq in H as ->. by exists r.
Qed.

Lemma volumeOf_typed s : startsWithVolume s = true → volumeOf s ∈ kVolumes ∧ under (volumeOf s) s = true.
Proof.
  unfold startsWithVolume, volumeOf, kVolumes. cbn [existsb List.find].
  destruct (under (lit "/fat") s) eqn:E1; [intros _; split; [by left|exact E1]|].
  destruct (under (lit "/sdcard") s) eqn:E2; [intros _; split; [right; by left|exact E2]|done].
Qed.

(** The file system's own walk takes the same steps as the fold, as long as the fold
    is not refused. *)
Lemma walk_fold typed : ∀ pre parts out, foldParts typed parts = Some out →
  fold_left PathUtil.stepInto typed (pre ++ parts) = pre ++ out.
Proof.
  induction typed as [|s typed IH]; intros pre parts out; cbn [foldParts fold_left]; [by intros [= <-]|].
  unfold PathUtil.stepInto at 2. fold (PathUtil.idle s). destruct (PathUtil.idle s); [apply IH|].
  destruct (bytes_eqb s [dot; dot]).
  - case_bool_decide as Hp; [done|]. rewrite removelast_app by done. apply IH.
  - rewrite <- app_assoc. apply IH.
Qed.

Lemma walk_plain parts at_ : Forall plain parts → fold_left PathUtil.stepInto parts at_ = at_ ++ parts.
Proof.
  intros H. revert at_. induction H as [|s l Hs _ IH]; intros at_; cbn [fold_left]; [by rewrite app_nil_r|].
  unfold PathUtil.stepInto at 2, PathUtil.idle. destruct (plain_idle s Hs) as [-> ->]. rewrite IH.
  by rewrite <- app_assoc.
Qed.

Lemma walk_below v parts : Forall plain parts → PathUtil.walk (below v parts) = PathUtil.walk v ++ parts.
Proof.
  intros Hp. unfold below. destruct parts as [|q ps]; [by rewrite !app_nil_r|].
  change (concat (cons slash <$> q :: ps)) with (slash :: Text.join slash (q :: ps)).
  unfold PathUtil.walk. rewrite PathUtil.split_on_snoc, fold_left_app, split_join; [|done|].
  - by apply walk_plain.
  - eapply Forall_impl; [exact Hp|]. by intros s (_&?&_).
Qed.

(** What was typed, as a path from the root. *)
Definition meant (current typed : bytes) : bytes :=
  if hd 0 typed =? slash then typed else current ++ slash :: typed.

(** Where the fold starts and what it is given. *)
Lemma resolve_cases current typed : inVolume current → typed ≠ [] → hasControlByte typed = false →
  (hd 0 typed = slash → startsWithVolume typed = true) →
  ∃ v parts pieces, v ∈ kVolumes ∧ Forall plain parts ∧ Forall (λ s, slash ∉ s) pieces ∧
    resolve current typed =
      match foldParts pieces parts with
      | None => inl (lit "a path cannot leave its volume")
      | Some out => inr (trimmedSlashes (append v out))
      end ∧
    PathUtil.walk (meant current typed) = fold_left PathUtil.stepInto pieces (PathUtil.walk v ++ parts).
Proof.
  intros (w & ps & Hw & -> & Hps) Hne Hc Hv. unfold resolve, meant. rewrite bool_decide_eq_false_2, Hc by done.
  destruct (Z.eqb_spec (hd 0 typed) slash) as [Hs|Hs]; cbn [andb].
  - destruct (volumeOf_typed typed (Hv Hs)) as [Hb Hu]. rewrite (Hv Hs). cbn [negb].
    apply under_split in Hu as (rest & E & Hr). set (b := volumeOf typed) in *.
    exists b, [], (split_on slash rest). split_and!; [done|constructor|apply split_on_pieces|by rewrite E, drop_app_length|].
    rewrite app_nil_r, E. destruct Hr as [-> |[r ->]]; [by rewrite app_nil_r|].
    unfold PathUtil.walk. rewrite PathUtil.split_on_snoc, fold_left_app.
    rewrite <- (app_nil_l (slash :: r)), split_on_app by apply not_elem_of_nil. reflexivity.
  - exists w, ps, (split_on slash typed). rewrite below_under by done.
    destruct (volumes_end w Hw) as (Hwn & _ & _).
    destruct w as [|x w]; [done|]. cbv iota. rewrite standing_below by done. split_and!; [done|done|apply split_on_pieces|done|].
    rewrite <- walk_below by done. unfold PathUtil.walk. by rewrite PathUtil.split_on_snoc, fold_left_app.
Qed.

(** From a directory of a volume, a path that is not refused is a path of
    a volume - its root and plain names below it - and the very place the file system's
    own walk reaches from there for what was typed. *)
Theorem resolve_inside current typed p : inVolume current → resolve current typed = inr p →
  inVolume p ∧ (typed ≠ [] → PathUtil.walk p = PathUtil.walk (meant current typed)).
Proof.
  intros Hin E. destruct (decide (typed = [])) as [->|Hne]; [by injection E as <-|].
  assert (Hc : hasControlByte typed = false ∧ (hd 0 typed = slash → startsWithVolume typed = true)).
  { revert E. unfold resolve. rewrite bool_decide_eq_false_2 by done. destruct (hasControlByte typed); [done|].
    intros E. split; [done|]. intros Hs. rewrite Hs in E. cbn [Z.eqb Pos.eqb andb] in E.
    by destruct (startsWithVolume typed). }
  destruct (resolve_cases current typed Hin Hne (proj1 Hc) (proj2 Hc)) as (v & parts & pieces & Hv & Hp & Hpc & E' & Hw).
  rewrite E' in E. destruct (foldParts pieces parts) as [out|] eqn:Ef; [|done]. injection E as <-.
  pose proof (foldParts_plain _ _ _ Hp Hpc Ef) as Ho. destruct (volumes_end v Hv) as (Hvn & Hve & _).
  destruct (append_below v out Hvn Hve Ho) as [-> He].
  rewrite trimmed_id; [|by destruct v|done]. split; [by exists v, out|]. intros _.
  by rewrite walk_below, Hw, (walk_fold pieces (PathUtil.walk v) parts out Ef).
Qed.

(** One [..] more than there are names, at some point of what was typed. *)
Definition ups (l : list bytes) : nat := length (List.filter (λ s, bytes_eqb s [dot; dot]) l).
Definition downs (l : list bytes) : nat :=
  length (List.filter (λ s, negb (PathUtil.idle s) && negb (bytes_eqb s [dot; dot])) l).
Definition climbs (l : list bytes) (n : nat) : Prop := ∃ k, (n + downs (take k l) < ups (take k l))%nat.

Lemma foldParts_climbs l : ∀ parts, foldParts l parts = None ↔ climbs l (length parts).
Proof.
  induction l as [|s l IH]; intros parts; cbn [foldParts].
  - split; [done|]. intros [k H]. rewrite take_nil in H. cbn in H. lia.
  - fold (PathUtil.idle s).
    assert (Hstep : ∀ a b, (∀ k, ups (take (S k) (s :: l)) = (a + ups (take k l))%nat ∧
                              downs (take (S k) (s :: l)) = (b + downs (take k l))%nat) →
      (a <= length parts + b)%nat → climbs (s :: l) (length parts) ↔ climbs l (length parts + b - a)).
    { intros a b H Hab. split; intros [k Hk].
      - destruct k as [|k]; [cbn in Hk; lia|]. exists k. destruct (H k) as [H1 H2]. lia.
      - exists (S k). destruct (H k) as [H1 H2]. lia. }
    unfold ups, downs in Hstep. cbn [take List.filter] in Hstep. destruct (PathUtil.idle s) eqn:Ei; cbn [negb andb] in Hstep.
    + assert (Hd : bytes_eqb s [dot; dot] = false).
      { apply bytes_eqb_neq. intros ->. done. }
      rewrite Hd in Hstep. rewrite IH, (Hstep 0%nat 0%nat); [|done|lia]. by rewrite Nat.add_0_r, Nat.sub_0_r.
    + destruct (bytes_eqb s [dot; dot]) eqn:Ed; cbn [negb] in Hstep.
      * case_bool_decide as Hp.
        -- subst parts. split; [|done]. intros _. exists 1%nat. unfold ups, downs. cbn [take List.filter].
           rewrite Ei, Ed, take_0. cbn. lia.
        -- assert (Hl : (1 <= length parts)%nat) by (destruct parts; [done|cbn; lia]).
           rewrite IH, (Hstep 1%nat 0%nat); [|done|lia]. rewrite (app_removelast_last [] Hp) at 2.
           rewrite length_app. cbn. by rewrite Nat.add_0_r, Nat.add_sub.
      * rewrite IH, (Hstep 0%nat 1%nat); [|done|lia]. by rewrite length_app, Nat.sub_0_r.
Qed.

(** A name typed below a volume's root is refused exactly when it climbs out, at any
    point on its way - also when it would come back. *)
Lemma refused_exactly v parts typed : v ∈ kVolumes → Forall plain parts → typed ≠ [] → hasControlByte typed = false →
  hd 0 typed ≠ slash →
  (∃ why, resolve (below v parts) typed = inl why) ↔ climbs (split_on slash typed) (length parts).
Proof.
  intros Hv Hp Hne Hc Hs. rewrite <- foldParts_climbs. unfold resolve.
  rewrite bool_decide_eq_false_2, Hc, (proj2 (Z.eqb_neq _ _) Hs), below_under by done. cbn [andb].
  destruct (volumes_end v Hv) as (Hvn & _ & _). destruct v as [|x v]; [done|]. cbv iota.
  rewrite standing_below by done. destruct (foldParts (split_on slash typed) parts); split; try done; [by intros []|by eexists].
Qed.

Lemma resolve_inside_witness :
  let p := lit "/fat/logs/dhcp" in
  resolve (lit "/fat/www") (lit "../logs/./dhcp/") = inr p ∧ inVolume p ∧
  PathUtil.walk p = PathUtil.walk (lit "/fat/www/../logs/./dhcp/").
Proof.
  cbv zeta. split; [reflexivity|].
  destruct (resolve_inside (lit "/fat/www") (lit "../logs/./dhcp/") (lit "/fat/logs/dhcp")) as [H1 H2];
    [|reflexivity|split; [exact H1|by apply H2]].
  exists (lit "/fat"), [lit "www"]. split; [by left|]. split; [reflexivity|]. apply Forall_singleton.
  split_and!; [done| |done|done]. intros H. apply list_elem_of_In in H. vm_compute in H. intuition discriminate.
Defined.

(** [..] at the root of a volume is refused, where the header has it stay there. *)
Example root_has_no_parent : resolve (lit "/fat") (lit "..") = inl (lit "a path cannot leave its volume").
Proof. reflexivity. Qed.

End FileShellPath.

(** ** The port *)

Inductive FileOpStatus := FoOk | FoNotFound | FoExists | FoNotDirectory | FoIsDirectory | FoNotEmpty | FoDenied
  | FoNoSpace | FoIoError | FoUnsupported.
#[global] Instance FileOpStatus_eq : EqDecision FileOpStatus.
Proof. solve_decision. Defined.

Record FileEntry := mkEntry { eName : bytes; eIsDir : bool; eSize : Z }.
Record FileSpace := mkSpace { spMounted : bool; spTotal : Z; spFree : Z }.

(** [IFileOperations], over the state [S] of whatever is behind it. *)
Class FileOperations (S : Type) := {
  attributes : bytes → S → FileOpStatus * (bool * bool * Z) * S;
  list_ : bytes → S → FileOpStatus * list FileEntry * S;
  makeDir : bytes → S → FileOpStatus * S;
  touch : bytes → S → FileOpStatus * bool * S;
  removeFile : bytes → S → FileOpStatus * S;
  removeTree : bytes → S → FileOpStatus * S;
  rename : bytes → bytes → S → FileOpStatus * S;
  copy : bytes → bytes → S → FileOpStatus * S;
  readText : bytes → Z → S → FileOpStatus * bytes * bool * S;
  space : bytes → S → FileSpace * S;
}.

Module FileShell.

Definition kEol : bytes := [13; 10].
Definition kClearScreen : bytes := 27 :: lit "[H" ++ 27 :: lit "[2J".
Definition kCatLimitBytes : Z := 65536.

Record Args := mkArgs { recursive : bool; force : bool; words : list bytes }.

Definition parseArgs (rest : bytes) : Args :=
  fold_left (λ a word,
    if bytes_eqb word (lit "-r") then mkArgs true (force a) (words a)
    else if bytes_eqb word (lit "-f") then mkArgs (recursive a) true (words a)
    else mkArgs (recursive a) (force a) (words a ++ [word]))
    (List.filter (λ w, negb (bool_decide (w = []))) (split_on 32 rest)) (mkArgs false false []).

(** [std::string] orders bytes. *)
Fixpoint bytes_ltb (a b : bytes) : bool :=
  match a, b with
  | _, [] => false
  | [], _ :: _ => true
  | x :: a, y :: b => (x <? y) || ((x =? y) && bytes_ltb a b)
  end.

Fixpoint insertEntry (e : FileEntry) (l : list FileEntry) : list FileEntry :=
  match l with
  | [] => [e]
  | f :: l' => if bytes_ltb (eName f) (eName e) then f :: insertEntry e l' else e :: l
  end.
Definition sortEntries (l : list FileEntry) : list FileEntry := fold_right insertEntry [] l.

Definition reasonOf (s : FileOpStatus) : bytes :=
  match s with
  | FoNotFound => lit "no such file or directory"
  | FoExists => lit "already exists"
  | FoNotDirectory => lit "not a directory"
  | FoIsDirectory => lit "is a directory"
  | FoNotEmpty => lit "the directory is not empty"
  | FoDenied => lit "permission denied"
  | FoNoSpace => lit "no space left"
  | FoIoError => lit "the volume reported an I/O error"
  | FoUnsupported => lit "not supported by this volume"
  | FoOk => []
  end.

Definition handles (word : bytes) : bool :=
  existsb (bytes_eqb word)
    [lit "ls"; lit "cd"; lit "pwd"; lit "mkdir"; lit "touch"; lit "rm"; lit "mv"; lit "cp"; lit "cat"; lit "df"; lit "clear"].

Section Shell.
Context {S : Type} `{FileOperations S}.

(** [out] is what the channel was sent, write by write. *)
Record Shell := mkShell { current : bytes; out : list bytes; fs : S }.

Definition write (t : bytes) (s : Shell) : Shell := mkShell (current s) (out s ++ [t]) (fs s).
Definition set_fs (v : S) (s : Shell) : Shell := mkShell (current s) (out s) v.
Definition say (t : bytes) : Shell → Shell := write (t ++ kEol).
Definition error (why : bytes) : Shell → Shell := say (lit "error: " ++ why).

Definition sayFailure (verb path : bytes) (st : FileOpStatus) (s : Shell) : Shell :=
  if bool_decide (st = FoOk) then s
  else error (reasonOf st ++ lit ": " ++ verb ++ lit " " ++ path) s.

Definition resolveIn (typed : bytes) (s : Shell) : bytes + bytes := FileShellPath.resolve (current s) typed.

Definition pathExists (path : bytes) (s : Shell) : bool * Shell :=
  let '(st, (exists_, _, _), v) := attributes path (fs s) in
  (bool_decide (st = FoOk) && exists_, set_fs v s).

Definition cmdPwd (s : Shell) : Shell := say (current s) s.

Definition cmdCd (a : Args) (s : Shell) : Shell :=
  let typed := hd [] (words a) in
  match FileShellPath.changeTo (current s) typed with
  | (Some why, _) => error (why ++ lit ": " ++ (if bool_decide (typed = []) then lit "." else typed)) s
  | (None, dir) => mkShell dir (out s) (fs s)
  end.

Definition sayEntry (e : FileEntry) (s : Shell) : Shell :=
  if eIsDir e then say (lit "d  " ++ eName e ++ lit "/") s
  else say (lit "f  " ++ dec (eSize e) ++ lit "  " ++ eName e) s.

Definition cmdLs (a : Args) (s : Shell) : Shell :=
  match resolveIn (hd [] (words a)) s with
  | inl why => error why s
  | inr target =>
      let '(st, entries, v) := list_ target (fs s) in
      let s := set_fs v s in
      if negb (bool_decide (st = FoOk)) then sayFailure (lit "ls") target st s
      else if bool_decide (length entries = 0%nat) then say (lit "(empty)") s
      else fold_left (flip sayEntry) (sortEntries entries) s
  end.

Definition cmdMkdir (a : Args) (s : Shell) : Shell :=
  match words a with
  | [] => error (lit "mkdir needs a name") s
  | w :: _ =>
      match resolveIn w s with
      | inl why => error why s
      | inr target => let '(st, v) := makeDir target (fs s) in sayFailure (lit "mkdir") target st (set_fs v s)
      end
  end.

Definition cmdTouch (a : Args) (s : Shell) : Shell :=
  match words a with
  | [] => error (lit "touch needs a name") s
  | w :: _ =>
      match resolveIn w s with
      | inl why => error why s
      | inr target =>
          let '(st, created, v) := touch target (fs s) in
          let s := set_fs v s in
          if negb (bool_decide (st = FoOk)) then sayFailure (lit "touch") target st s
          else if created then s else say (lit "touch: unchanged: " ++ target) s
      end
  end.

Definition cmdRm (a : Args) (s : Shell) : Shell :=
  match words a with
  | [] => error (lit "rm needs a name") s
  | w :: _ =>
      match resolveIn w s with
      | inl why => error why s
      | inr target =>
          if bytes_eqb target (FileShellPath.volumeOf target) then
            error (lit "a volume root cannot be removed: " ++ target) s
          else
            let '(about, (exists_, isDir, _), v) := attributes target (fs s) in
            let s := set_fs v s in
            if negb (bool_decide (about = FoOk)) then sayFailure (lit "rm") target about s
            else if negb exists_ then error (lit "no such file or directory: " ++ target) s
            else if isDir && negb (recursive a) then error (lit "is a directory, use rm -r: " ++ target) s
            else
              let '(st, v) := if isDir : bool then removeTree target (fs s) else removeFile target (fs s) in
              sayFailure (lit "rm") target st (set_fs v s)
      end
  end.

(** Both names are resolved before the first is complained about. *)
Definition two (verb : bytes) (a : Args) (s : Shell) (go : bytes → bytes → Shell → Shell) : Shell :=
  match words a with
  | w1 :: w2 :: _ =>
      match resolveIn w1 s, resolveIn w2 s with
      | inl why, _ => error why s
      | inr _, inl why => error why s
      | inr from, inr to => go from to s
      end
  | _ => error (verb ++ lit " needs a source and a destination") s
  end.

Definition cmdMv (a : Args) (s : Shell) : Shell :=
  two (lit "mv") a s (λ from to s,
    let '(there, s) := pathExists to s in
    let '(st, s) := if there && negb (force a) then (FoExists, s)
                    else let '(st, v) := rename from to (fs s) in (st, set_fs v s) in
    match st with
    | FoOk => s
    | FoExists => error (lit "already exists, use -f: " ++ to) s
    | _ => sayFailure (lit "mv") from st s
    end).

Definition cmdCp (a : Args) (s : Shell) : Shell :=
  two (lit "cp") a s (λ from to s,
    let '(about, (exists_, isDir, _), v) := attributes from (fs s) in
    let s := set_fs v s in
    if negb (bool_decide (about = FoOk)) then sayFailure (lit "cp") from about s
    else if negb exists_ then error (lit "no such file or directory: " ++ from) s
    else if isDir : bool then error (lit "directories are not copied: " ++ from) s
    else
      let '(there, s) := pathExists to s in
      if there && negb (force a) then error (lit "already exists, use -f: " ++ to) s
      else let '(st, v) := copy from to (fs s) in sayFailure (lit "cp") from st (set_fs v s)).

(** CR LF for every LF, no CR of its own, and one at the end of a text of two bytes
    or more. *)
Definition catText (text : bytes) : bytes :=
  let o := concat ((λ c, if c =? 10 then kEol else if negb (c =? 13) then [c] else []) <$> text) in
  if (2 <=? length o)%nat && negb (bytes_eqb (drop (length o - 2) o) kEol) then o ++ kEol else o.

Definition cmdCat (a : Args) (s : Shell) : Shell :=
  match words a with
  | [] => error (lit "cat needs a name") s
  | w :: _ =>
      match resolveIn w s with
      | inl why => error why s
      | inr target =>
          let '(st, text, binary, v) := readText target kCatLimitBytes (fs s) in
          let s := set_fs v s in
          match st with
          | FoNoSpace => error (lit "larger than " ++ dec kCatLimitBytes ++ lit " bytes: " ++ target) s
          | FoOk => if binary then error (lit "not a text file: " ++ target) s else write (catText text) s
          | _ => sayFailure (lit "cat") target st s
          end
      end
  end.

Definition cmdDf (s : Shell) : Shell :=
  fold_left (λ s volume,
    let '(sp, v) := space volume (fs s) in
    let s := set_fs v s in
    if negb (spMounted sp) then say (volume ++ lit "  not mounted") s
    else say (volume ++ lit "  " ++ dec (spTotal sp / 1024) ++ lit " KB total, " ++ dec (spFree sp / 1024) ++
              lit " KB free") s) FileShellPath.kVolumes s.

Definition cmdClear (s : Shell) : Shell := write kClearScreen s.

Definition execute (line : bytes) (s : Shell) : Shell :=
  let l := drop_while (λ c, c =? 32) line in
  let n := default (length l) (find_char 32 l) in
  let verb := take n l in
  let args := parseArgs (drop n l) in
  if bytes_eqb verb (lit "ls") then cmdLs args s
  else if bytes_eqb verb (lit "cd") then cmdCd args s
  else if bytes_eqb verb (lit "pwd") then cmdPwd s
  else if bytes_eqb verb (lit "mkdir") then cmdMkdir args s
  else if bytes_eqb verb (lit "touch") then cmdTouch args s
  else if bytes_eqb verb (lit "rm") then cmdRm args s
  else if bytes_eqb verb (lit "mv") then cmdMv args s
  else if bytes_eqb verb (lit "cp") then cmdCp args s
  else if bytes_eqb verb (lit "cat") then cmdCat args s
  else if bytes_eqb verb (lit "df") then cmdDf s
  else if bytes_eqb verb (lit "clear") then cmdClear s
  else s.

Definition session (lines : list bytes) (s : Shell) : Shell := fold_left (flip execute) lines s.

(** [FileShellPath()]: the first volume. *)
Definition start (v : S) : Shell := mkShell (lit "/fat") [] v.

End Shell.
#[global] Arguments Shell : clear implicits.

(** ** Every call stays inside the volumes *)

Inductive Call :=
  | CAttributes (p : bytes) | CList (p : bytes) | CMakeDir (p : bytes) | CTouch (p : bytes) | CRemoveFile (p : bytes)
  | CRemoveTree (p : bytes) | CRename (a b : bytes) | CCopy (a b : bytes) | CRead (p : bytes) | CSpace (p : bytes).

(** A port that writes down what it is asked. *)
Record Recorded (S : Type) := mkRecorded { inner : S; calls : list Call }.
#[global] Arguments mkRecorded {S}.
#[global] Arguments inner {S}.
#[global] Arguments calls {S}.

Section Recorder.
Context {S : Type} `{FileOperations S}.

Definition noted (c : Call) (v : S) (r : Recorded S) : Recorded S := mkRecorded v (calls r ++ [c]).

#[global] Instance recorded : FileOperations (Recorded S) := {
  attributes p r := let '(st, a, v) := attributes p (inner r) in (st, a, noted (CAttributes p) v r);
  list_ p r := let '(st, l, v) := list_ p (inner r) in (st, l, noted (CList p) v r);
  makeDir p r := let '(st, v) := makeDir p (inner r) in (st, noted (CMakeDir p) v r);
  touch p r := let '(st, b, v) := touch p (inner r) in (st, b, noted (CTouch p) v r);
  removeFile p r := let '(st, v) := removeFile p (inner r) in (st, noted (CRemoveFile p) v r);
  removeTree p r := let '(st, v) := removeTree p (inner r) in (st, noted (CRemoveTree p) v r);
  rename a b r := let '(st, v) := rename a b (inner r) in (st, noted (CRename a b) v r);
  copy a b r := let '(st, v) := copy a b (inner r) in (st, noted (CCopy a b) v r);
  readText p n r := let '(st, t, b, v) := readText p n (inner r) in (st, t, b, noted (CRead p) v r);
  space p r := let '(sp, v) := space p (inner r) in (sp, noted (CSpace p) v r);
}.

Import FileShellPath.

(** The calls the sandbox allows: paths of a volume, and no removal of a root. *)
Definition allowed (c : Call) : Prop :=
  match c with
  | CAttributes p | CList p | CMakeDir p | CTouch p | CRead p | CSpace p => inVolume p
  | CRemoveFile p | CRemoveTree p => inVolume p ∧ p ∉ kVolumes
  | CRename a b | CCopy a b => inVolume a ∧ inVolume b
  end.

Definition kept_in (s : Shell (Recorded S)) : Prop := inVolume (current s) ∧ Forall allowed (calls (fs s)).

Lemma kept_write t s : kept_in s → kept_in (write t s).
Proof. done. Qed.
Lemma kept_say t s : kept_in s → kept_in (say t s).
Proof. done. Qed.
Lemma kept_error t s : kept_in s → kept_in (error t s).
Proof. done. Qed.
Lemma kept_failure v p st s : kept_in s → kept_in (sayFailure v p st s).
Proof. unfold sayFailure. by case_bool_decide. Qed.
Lemma kept_call c v s : allowed c → kept_in s → kept_in (set_fs (noted c v (fs s)) s).
Proof. intros Hc [H1 H2]. split; [done|]. apply Forall_app. split; [done|]. by apply Forall_singleton. Qed.
Lemma kept_fold {A} (f : Shell (Recorded S) → A → Shell (Recorded S)) (l : list A) s :
  (∀ s a, a ∈ l → kept_in s → kept_in (f s a)) → kept_in s → kept_in (fold_left f l s).
Proof.
  revert s. induction l as [|a l IH]; intros s Hf Hs; [done|]. cbn [fold_left]. apply IH.
  - intros s' b Hb. apply Hf. by right.
  - apply Hf; [by left|done].
Qed.
Lemma kept_resolve typed s target : kept_in s → resolveIn typed s = inr target → inVolume target.
Proof. intros [Hc _] E. by eapply resolve_inside. Qed.

Lemma inVolume_root v : v ∈ kVolumes → inVolume v.
Proof. intros Hv. exists v, []. split; [done|]. split; [|constructor]. unfold below. by rewrite app_nil_r. Qed.

Lemma not_root p : inVolume p → bytes_eqb p (volumeOf p) = false → p ∉ kVolumes.
Proof.
  intros _ Hb Hp. apply bytes_eqb_neq in Hb. apply Hb.
  pose proof (below_under p [] Hp) as E. unfold below in E. cbn in E. by rewrite app_nil_r in E.
Qed.

#[local] Hint Resolve kept_write kept_say kept_error kept_failure kept_call : shell.

(** The commands in turn. *)
Lemma kept_exists p s : inVolume p → kept_in s → kept_in (pathExists p s).2 ∧ current (pathExists p s).2 = current s.
Proof.
  intros Hp Hs. unfold pathExists. cbn [attributes recorded].
  destruct (attributes p (inner (fs s))) as [[st [[e d] z]] v]. cbn [snd]. split; [by apply kept_call|done].
Qed.

Lemma kept_two verb a s go : kept_in s →
  (∀ from to, inVolume from → inVolume to → kept_in (go from to s)) → kept_in (two verb a s go).
Proof.
  intros Hs Hgo. unfold two. destruct (words a) as [|w1 [|w2 ws]]; [by auto with shell..|].
  destruct (resolveIn w1 s) eqn:E1; [by auto with shell|]. destruct (resolveIn w2 s) eqn:E2; [by auto with shell|].
  apply Hgo; by eapply kept_resolve.
Qed.

Lemma kept_cd a s : kept_in s → kept_in (cmdCd a s).
Proof.
  intros Hs. unfold cmdCd, changeTo. case_bool_decide as Hn.
  - destruct Hs as [Hc Hk]. split; [|done]. cbn [current]. destruct Hc as (v & ps & Hv & -> & Hp).
    rewrite below_under by done. destruct v; [by apply inVolume_root; left|by apply inVolume_root].
  - destruct (resolve (current s) (hd [] (words a))) as [why|p] eqn:E; [by auto with shell|].
    split; [|apply Hs]. by eapply kept_resolve.
Qed.

Lemma kept_ls a s : kept_in s → kept_in (cmdLs a s).
Proof.
  intros Hs. unfold cmdLs. destruct (resolveIn _ s) as [why|p] eqn:E; [by auto with shell|].
  cbn [list_ recorded]. destruct (list_ p (inner (fs s))) as [[st l] v].
  assert (Hk : kept_in (set_fs (noted (CList p) v (fs s)) s)) by (apply kept_call; [by eapply kept_resolve|done]).
  repeat case_bool_decide; cbn [negb]; auto with shell. apply kept_fold; [|done].
  intros s' e _ Hs'. unfold flip, sayEntry. destruct (eIsDir e); auto with shell.
Qed.

Lemma kept_rm a s : kept_in s → kept_in (cmdRm a s).
Proof.
  intros Hs. unfold cmdRm. destruct (words a) as [|w ws]; [by auto with shell|].
  destruct (resolveIn w s) as [why|p] eqn:E; [by auto with shell|]. pose proof (kept_resolve _ _ _ Hs E) as Hp.
  destruct (bytes_eqb p (volumeOf p)) eqn:Er; [by auto with shell|]. pose proof (not_root p Hp Er) as Hr.
  cbn [attributes recorded]. destruct (attributes p (inner (fs s))) as [[st [[e d] z]] v].
  assert (Hk : kept_in (set_fs (noted (CAttributes p) v (fs s)) s)) by (apply kept_call; done).
  case_bool_decide; cbn [negb]; auto with shell. destruct e; cbn [negb]; auto with shell.
  destruct (d && negb (recursive a)); auto with shell.
  destruct d; cbn [removeTree removeFile recorded].
  - destruct (removeTree p _) as [st2 v2]. apply kept_failure. by apply kept_call.
  - destruct (removeFile p _) as [st2 v2]. apply kept_failure. by apply kept_call.
Qed.

Lemma kept_mv a s : kept_in s → kept_in (cmdMv a s).
Proof.
  intros Hs. apply kept_two; [done|]. intros from to Hf Ht.
  pose proof (kept_exists to s Ht Hs) as [Hk _]. destruct (pathExists to s) as [there s1]. cbn [snd] in Hk.
  destruct (there && negb (force a)); [by auto with shell|]. cbn [rename recorded].
  destruct (rename from to (inner (fs s1))) as [st v].
  assert (Hk2 : kept_in (set_fs (noted (CRename from to) v (fs s1)) s1)) by (apply kept_call; done).
  destruct st; auto with shell.
Qed.

Lemma kept_cp a s : kept_in s → kept_in (cmdCp a s).
Proof.
  intros Hs. apply kept_two; [done|]. intros from to Hf Ht. cbn [attributes recorded].
  destruct (attributes from (inner (fs s))) as [[st [[e d] z]] v].
  assert (Hk : kept_in (set_fs (noted (CAttributes from) v (fs s)) s)) by (apply kept_call; done).
  case_bool_decide; cbn [negb]; auto with shell. destruct e; cbn [negb]; auto with shell. destruct d; auto with shell.
  pose proof (kept_exists to _ Ht Hk) as [Hk1 _]. destruct (pathExists to _) as [there s1]. cbn [snd] in Hk1.
  destruct (there && negb (force a)); [by auto with shell|]. cbn [copy recorded].
  destruct (copy from to (inner (fs s1))) as [st2 v2]. apply kept_failure. by apply kept_call.
Qed.

Lemma kept_rest a s : kept_in s → kept_in (cmdMkdir a s) ∧ kept_in (cmdTouch a s) ∧ kept_in (cmdCat a s) ∧ kept_in (cmdDf s).
Proof.
  intros Hs. unfold cmdMkdir, cmdTouch, cmdCat. split_and!.
  4:{ apply kept_fold; [|done]. intros s' v Hv Hs'. cbn [space recorded]. destruct (space v (inner (fs s'))) as [sp w].
      assert (Hk : kept_in (set_fs (noted (CSpace v) w (fs s')) s')) by (apply kept_call; [by apply inVolume_root|done]).
      destruct (spMounted sp); cbn [negb]; auto with shell. }
  all: destruct (words a) as [|w ws]; [by auto with shell|]; destruct (resolveIn w s) as [why|p] eqn:E; [by auto with shell|];
    pose proof (kept_resolve _ _ _ Hs E) as Hp; cbn [makeDir touch readText recorded].
  - destruct (makeDir p _) as [st v]. apply kept_failure. by apply kept_call.
  - destruct (touch p _) as [[st b] v].
    assert (Hk : kept_in (set_fs (noted (CTouch p) v (fs s)) s)) by (apply kept_call; done).
    case_bool_decide; cbn [negb]; auto with shell. destruct b; auto with shell.
  - destruct (readText p _ _) as [[[st t] b] v].
    assert (Hk : kept_in (set_fs (noted (CRead p) v (fs s)) s)) by (apply kept_call; done).
    destruct st; auto with shell. destruct b; auto with shell.
Qed.

Lemma kept_execute line s : kept_in s → kept_in (execute line s).
Proof.
  intros Hs. unfold execute. set (a := parseArgs _). destruct (kept_rest a s Hs) as (H1 & H2 & H3 & H4).
  repeat match goal with |- context [if ?b then _ else _] => destruct b end;
    auto using kept_ls, kept_cd, kept_rm, kept_mv, kept_cp with shell.
Qed.

(** C24: whatever is typed in a session, over whatever volumes: the shell stands in
    a volume, every path any command ever hands to the file system is the path of a
    volume or of something in it, and none of the removals is of a volume. *)
Theorem shell_sandbox lines (v : S) :
  let s := session lines (start (mkRecorded v [])) in
  inVolume (current s) ∧ Forall allowed (calls (fs s)).
Proof.
  change (kept_in (session lines (start (mkRecorded v [])))).
  assert (H0 : kept_in (start (mkRecorded v []))) by (split; [apply inVolume_root; by left|constructor]).
  revert H0. generalize (start (mkRecorded v [])). unfold session.
  induction lines as [|l ls IH]; intros s Hs; [done|]. cbn [fold_left]. apply IH. by apply kept_execute.
Qed.

End Recorder.

(** ** Nothing is lost without being asked for *)

(** What the shell relies on of a volume: questions change nothing, and one that is answered
    sees a file that is there - it may also fail; a new directory and a touch leave the
    bytes of every file, a copy and a rename those of every file but their target's.
    [content] is the file at a path. *)
Class FileOperationsLaws (S : Type) `{FileOperations S} := {
  content : S → bytes → option bytes;
  attributes_law p v : (attributes p v).2 = v ∧
    ((attributes p v).1.1 = FoOk → (attributes p v).1.2.1.1 = false → content v p = None);
  list_law p v : (list_ p v).2 = v;
  readText_law p n v : (readText p n v).2 = v;
  space_law p v : (space p v).2 = v;
  makeDir_law p v q c : content v q = Some c → content (makeDir p v).2 q = Some c;
  touch_law p v q c : content v q = Some c → content (touch p v).2 q = Some c;
  copy_law a b v q c : q ≠ b → content v q = Some c → content (copy a b v).2 q = Some c;
  rename_law a b v q c : q ≠ b → content v q = Some c → ∃ q', content (rename a b v).2 q' = Some c;
}.

Section Laws.
Context {S : Type} `{FileOperationsLaws S}.

(** Every file's bytes are still there, under its name or another; only of a file whose
    attributes the volume failed to give nothing is said. *)
Definition nothingLost (v w : S) : Prop := ∀ q c, content v q = Some c →
  (∃ q', content w q' = Some c) ∨ (attributes q v).1.1 ≠ FoOk.

Lemma lost_refl v : nothingLost v v.
Proof. intros q c Hq. left. by exists q. Qed.
Lemma lost_eq v w : w = v → nothingLost v w.
Proof. intros ->. apply lost_refl. Qed.

Lemma failure_fs verb p st (s : Shell S) : fs (sayFailure verb p st s) = fs s.
Proof. unfold sayFailure. by case_bool_decide. Qed.

Lemma exists_fs p (s : Shell S) : fs (pathExists p s).2 = fs s ∧
  ((pathExists p s).1 = false → content (fs s) p = None ∨ (attributes p (fs s)).1.1 ≠ FoOk).
Proof.
  unfold pathExists. destruct (attributes_law p (fs s)) as [E Hno].
  destruct (attributes p (fs s)) as [[st [[e d] z]] v]. cbn in E, Hno. subst v.
  cbn [fst snd fs set_fs]. split; [done|]. case_bool_decide as Hst; [|by right]. cbn [andb]. intros ->. left. by apply Hno.
Qed.

Lemma two_fs verb a (s : Shell S) go :
  (∀ from to, nothingLost (fs s) (fs (go from to s))) → nothingLost (fs s) (fs (two verb a s go)).
Proof.
  intros Hgo. unfold two. destruct (words a) as [|w1 [|w2 ws]]; [apply lost_refl..|].
  destruct (resolveIn w1 s); [apply lost_refl|]. destruct (resolveIn w2 s); [apply lost_refl|]. apply Hgo.
Qed.

Lemma mv_keeps a (s : Shell S) : force a = false → nothingLost (fs s) (fs (cmdMv a s)).
Proof.
  intros Hf. apply two_fs. intros from to. destruct (exists_fs to s) as [E1 E2].
  destruct (pathExists to s) as [there s1]. cbn [fst snd] in *. rewrite Hf, andb_true_r.
  destruct there; [by apply lost_eq|]. specialize (E2 eq_refl).
  intros q c Hq. destruct (decide (q = to)) as [->|Hne]; [right; destruct E2 as [E2|E2]; [congruence|done]|left].
  rewrite <- E1 in Hq. destruct (rename_law from to (fs s1) q c Hne Hq) as [q' Hq'].
  destruct (rename from to (fs s1)) as [st v]. exists q'. destruct st; cbn [snd] in Hq'; by rewrite ?failure_fs.
Qed.

Lemma cp_keeps a (s : Shell S) : force a = false → nothingLost (fs s) (fs (cmdCp a s)).
Proof.
  intros Hf. apply two_fs. intros from to. destruct (attributes_law from (fs s)) as [E _].
  destruct (attributes from (fs s)) as [[st [[e d] z]] v]. cbn in E. subst v.
  case_bool_decide; cbn [negb]; [|rewrite failure_fs; apply lost_refl]. destruct e; cbn [negb]; [|apply lost_refl].
  destruct d; [apply lost_refl|]. destruct (exists_fs to (set_fs (fs s) s)) as [E1 E2].
  destruct (pathExists to _) as [there s1]. cbn [fst snd fs set_fs] in *. rewrite Hf, andb_true_r.
  destruct there; [by apply lost_eq|]. specialize (E2 eq_refl).
  intros q c Hq. destruct (decide (q = to)) as [->|Hne]; [right; destruct E2 as [E2|E2]; [congruence|done]|left].
  rewrite <- E1 in Hq. pose proof (copy_law from to (fs s1) q c Hne Hq) as Hc.
  destruct (copy from to (fs s1)) as [st' v']. exists q. by rewrite failure_fs.
Qed.

Lemma entries_fs l (s : Shell S) : fs (fold_left (flip sayEntry) l s) = fs s.
Proof.
  revert s. induction l as [|e l IH]; intros s; [done|]. cbn [fold_left]. rewrite IH. unfold flip, sayEntry.
  by destruct (eIsDir e).
Qed.

Lemma asking_keeps a (s : Shell S) :
  fs (cmdLs a s) = fs s ∧ fs (cmdCd a s) = fs s ∧ fs (cmdCat a s) = fs s ∧ fs (cmdDf s) = fs s.
Proof.
  split_and!.
  - unfold cmdLs. destruct (resolveIn _ s) as [|p]; [done|]. pose proof (list_law p (fs s)) as E.
    destruct (list_ p (fs s)) as [[st l] v]. cbn in E. subst v. case_bool_decide; cbn [negb]; [|by rewrite failure_fs].
    case_bool_decide; [done|]. by rewrite entries_fs.
  - unfold cmdCd. by destruct (FileShellPath.changeTo _ _) as [[|] ?].
  - unfold cmdCat. destruct (words a) as [|w ws]; [done|]. destruct (resolveIn w s) as [|p]; [done|].
    pose proof (readText_law p kCatLimitBytes (fs s)) as E. destruct (readText p _ _) as [[[st t] b] v]. cbn in E. subst v.
    destruct st; rewrite ?failure_fs; try done. by destruct b.
  - unfold cmdDf. generalize FileShellPath.kVolumes. intros l. revert s. induction l as [|p l IH]; intros s; [done|].
    cbn [fold_left]. pose proof (space_law p (fs s)) as E. destruct (space p (fs s)) as [sp v]. cbn in E. subst v.
    rewrite IH. by destruct (spMounted sp).
Qed.

Lemma making_keeps a (s : Shell S) :
  nothingLost (fs s) (fs (cmdMkdir a s)) ∧ nothingLost (fs s) (fs (cmdTouch a s)).
Proof.
  split; [unfold cmdMkdir|unfold cmdTouch]; (destruct (words a) as [|w ws]; [apply lost_refl|]);
    (destruct (resolveIn w s) as [|p]; [apply lost_refl|]); intros q c Hq; left; exists q.
  - pose proof (makeDir_law p (fs s) q c Hq) as E. destruct (makeDir p (fs s)) as [st v]. by rewrite failure_fs.
  - pose proof (touch_law p (fs s) q c Hq) as E. destruct (touch p (fs s)) as [[st b] v]. cbn in E.
    case_bool_decide; cbn [negb]; [|by rewrite failure_fs]. by destruct b.
Qed.

(** The word of a line and what follows it. *)
Definition verbOf (line : bytes) : bytes :=
  let l := drop_while (λ c, c =? 32) line in take (default (length l) (find_char 32 l)) l.
Definition argsOf (line : bytes) : Args :=
  let l := drop_while (λ c, c =? 32) line in parseArgs (drop (default (length l) (find_char 32 l)) l).

(** C25: a line that is not a removal and carries no "-f" loses no file: over every volume
    that keeps the laws, the bytes of each file there was are there afterwards, under their
    name or the one they were moved to - except of a file whose attributes the volume failed
    to give, which the shell takes for an absent one and copies or moves over. *)
Theorem nothing_lost line (s : Shell S) : verbOf line ≠ lit "rm" → force (argsOf line) = false →
  nothingLost (fs s) (fs (execute line s)).
Proof.
  intros Hv Hf. unfold execute. fold (verbOf line) (argsOf line). cbv zeta.
  destruct (asking_keeps (argsOf line) s) as (H1 & H2 & H3 & H4). destruct (making_keeps (argsOf line) s) as [H5 H6].
  rewrite (proj2 (bytes_eqb_neq _ _) Hv).
  repeat match goal with |- context [if ?b then _ else _] => destruct b end;
    auto using lost_eq, lost_refl, mv_keeps, cp_keeps.
Qed.

End Laws.

End FileShell.
