(* ===== verification/PosixFiles.v ===== *)
(** * The file operations of the shell, over POSIX calls

    src/net/PosixFileOperations.cpp implements the port [IFileOperations] with
    [stat], [fopen], [rename] and the like. Those calls are the class [Posix]; what
    the program relies on of them is [PosixLaws]. [posix_ports] is the translation of
    the file, [posix_ports_laws] discharges the laws FileShell.v asks of a port, and
    [MemoryVolume] is a volume with FAT's rules that obeys [PosixLaws]. *)
From S2P Require Import Prelude Text PathUtil FileShell.
From stdpp Require Import gmap.
#[local] Open Scope Z_scope.

Inductive Errno := ENOENT | EEXIST | ENOTDIR | EISDIR | ENOTEMPTY | EACCES | EPERM | EROFS | ENOSPC | EDQUOT | EOther.

(** The calls of the C library, over the state [S] of the volumes. An open file is its
    name and the place it is read at; a write goes to its end. [px_readdir] is the whole
    of a directory loop: [opendir] may fail, and the names come with whether the last
    [readdir] failed instead of reaching the end - which no loop of the program asks.
    [px_capacity] is no call: no file has as many bytes, so it bounds the loops here. *)
Class Posix (S : Type) := {
  px_stat : bytes → S → Errno + bool * Z;
  px_readdir : bytes → S → Errno + list bytes * bool;
  px_mkdir : bytes → S → option Errno * S;
  px_unlink : bytes → S → option Errno * S;
  px_rmdir : bytes → S → option Errno * S;
  px_rename : bytes → bytes → S → option Errno * S;
  px_open_rb : bytes → S → option Errno;
  px_open_wb : bytes → S → option Errno * S;
  px_open_ab : bytes → S → option Errno * S;
  px_read : bytes → nat → nat → S → bytes * bool;
  px_write : bytes → bytes → S → nat * option Errno * S;
  px_flush : bytes → S → option Errno * S;
  px_close : bytes → S → option Errno * S;
  px_fat_info : bytes → S → option (Z * Z);
  px_capacity : S → nat;
}.

Module PosixFileOperations.

Definition kCopyChunkBytes : nat := 4096.
Definition kReadChunkBytes : nat := 512.

Definition fromErrno (err : option Errno) : FileOpStatus :=
  match err with
  | None => FoOk
  | Some ENOENT => FoNotFound
  | Some EEXIST => FoExists
  | Some ENOTDIR => FoNotDirectory
  | Some EISDIR => FoIsDirectory
  | Some ENOTEMPTY => FoNotEmpty
  | Some (EACCES | EPERM | EROFS) => FoDenied
  | Some (ENOSPC | EDQUOT) => FoNoSpace
  | Some EOther => FoIoError
  end.

Definition join (dir name : bytes) : bytes :=
  if bool_decide (dir = []) || (List.last dir 0 =? 47) then dir ++ name else dir ++ 47 :: name.

Definition isDot (name : bytes) : bool := bytes_eqb name (lit ".") || bytes_eqb name (lit "..").

(** A control byte no text file has. *)
Definition isBinaryByte (c : Z) : bool := (c <? 0x20) && negb ((c =? 9) || (c =? 13) || (c =? 10)).

Section Ops.
Context {S : Type} `{Posix S}.

Definition attributes (path : bytes) (v : S) : FileOpStatus * (bool * bool * Z) * S :=
  match px_stat path v with
  | inl ENOENT => (FoOk, (false, false, 0), v)
  | inl e => (fromErrno (Some e), (false, false, 0), v)
  | inr (isDir, size) => (FoOk, (true, isDir, if isDir then 0 else size), v)
  end.

(** The entries whose own [stat] fails have vanished while the directory was read. *)
Definition listEntries (path : bytes) (names : list bytes) (v : S) : list FileEntry :=
  omap (λ name, if isDot name then None else
    match px_stat (join path name) v with
    | inl _ => None
    | inr (isDir, size) => Some (mkEntry name isDir (if isDir then 0 else size))
    end) names.

Definition list_ (path : bytes) (v : S) : FileOpStatus * list FileEntry * S :=
  match px_readdir path v with
  | inl e => (fromErrno (Some e), [], v)
  | inr (names, _) => (FoOk, listEntries path names v, v)
  end.

Definition done1 (r : option Errno * S) : FileOpStatus * S := (fromErrno r.1, r.2).

Definition makeDir (path : bytes) (v : S) : FileOpStatus * S := done1 (px_mkdir path v).
Definition removeFile (path : bytes) (v : S) : FileOpStatus * S := done1 (px_unlink path v).
Definition rename (from to : bytes) (v : S) : FileOpStatus * S := done1 (px_rename from to v).

Definition touch (path : bytes) (v : S) : FileOpStatus * bool * S :=
  let created := match px_stat path v with inl _ => true | inr _ => false end in
  match px_open_ab path v with
  | (Some e, v) => (fromErrno (Some e), false, v)
  | (None, v) => let '(err, v) := px_close path v in (fromErrno err, created, v)
  end.

(** The children in turn, up to the first that stays. [n]: levels that may follow. *)
Fixpoint removeTreeAt (n : nat) (path : bytes) (v : S) : FileOpStatus * S :=
  match px_stat path v with
  | inl e => (fromErrno (Some e), v)
  | inr (false, _) => done1 (px_unlink path v)
  | inr (true, _) =>
      match px_readdir path v with
      | inl e => (fromErrno (Some e), v)
      | inr (names, _) =>
          match n with
          | O => (FoIoError, v)
          | Datatypes.S n =>
              let go := fix go (children : list bytes) (v : S) : FileOpStatus * S :=
                match children with
                | [] => done1 (px_rmdir path v)
                | child :: children =>
                    let '(st, v) := removeTreeAt n (join path child) v in
                    if bool_decide (st = FoOk) then go children v else (st, v)
                end in
              go (List.filter (λ c, negb (isDot c)) names) v
          end
      end
  end.

Fixpoint copyLoop (n : nat) (from to : bytes) (off : nat) (v : S) : option (FileOpStatus * S) :=
  match n with
  | O => None
  | Datatypes.S n =>
      let '(got, err) := px_read from off kCopyChunkBytes v in
      let '(written, errno, w) := if (0 <? length got)%nat then px_write to got v else (length got, None, v) in
      if negb (written =? length got)%nat then Some (fromErrno errno, w)
      else if (length got <? kCopyChunkBytes)%nat then Some (if err : bool then FoIoError else FoOk, w)
      else copyLoop n from to (off + length got) w
  end.

(** The rounds a file of the volume can take. *)
Definition copyRounds (v : S) : nat := px_capacity v / kCopyChunkBytes + 2.

Definition copyFuel (n : nat) (from to : bytes) (v : S) : option (FileOpStatus * S) :=
  match px_open_rb from v with
  | Some e => Some (fromErrno (Some e), v)
  | None =>
      match px_open_wb to v with
      | (Some e, v) => Some (fromErrno (Some e), v)
      | (None, v) =>
          match copyLoop n from to 0 v with
          | None => None
          | Some (status, v) =>
              let '(status, v) := if bool_decide (status = FoOk)
                then done1 (px_flush to v) else (status, v) in
              let '(dstClosed, v) := px_close to v in
              let status := if bool_decide (status = FoOk) && negb (bool_decide (dstClosed = None))
                            then FoIoError else status in
              Some (status, if bool_decide (status = FoOk) then v else (px_unlink to v).2)
          end
      end
  end.

(** Closing the source, only ever read, does not fail. *)
Definition copy (from to : bytes) (v : S) : FileOpStatus * S :=
  default (FoIoError, v) (copyFuel (copyRounds v) from to v).

Fixpoint readLoop (n : nat) (path : bytes) (limit : Z) (out : bytes) (binary : bool) (v : S) : FileOpStatus * bytes * bool :=
  match n with
  | O => (FoNoSpace, out, binary)
  | Datatypes.S n =>
      let '(got, err) := px_read path (length out) kReadChunkBytes v in
      if (length got =? 0)%nat then (if err : bool then FoIoError else FoOk, out, binary)
      else
        let binary := binary || existsb isBinaryByte got in
        let out := out ++ got in
        if limit <? Z.of_nat (length out) then (FoNoSpace, out, binary)
        else if (length got <? kReadChunkBytes)%nat then (FoOk, out, binary)
        else readLoop n path limit out binary v
  end.

(** Every round but the last adds a whole chunk, and the limit ends them. *)
Definition readRounds (limit : Z) : nat := Z.to_nat limit / kReadChunkBytes + 2.

Definition readText (path : bytes) (limit : Z) (v : S) : FileOpStatus * bytes * bool * S :=
  match px_stat path v with
  | inl e => (fromErrno (Some e), [], false, v)
  | inr (true, _) => (FoIsDirectory, [], false, v)
  | inr (false, size) =>
      if limit <? size then (FoNoSpace, [], false, v)
      else match px_open_rb path v with
           | Some e => (fromErrno (Some e), [], false, v)
           | None => (readLoop (readRounds limit) path limit [] false v, v)
           end
  end.

Definition space (volumeRoot : bytes) (v : S) : FileSpace * S :=
  (match px_stat volumeRoot v with
   | inr (true, _) =>
       match px_fat_info volumeRoot v with
       | Some (total, free) => mkSpace true total free
       | None => mkSpace false 0 0
       end
   | _ => mkSpace false 0 0
   end, v).

(** FAT holds at most 255 bytes of a path, so fewer levels than that. *)
#[export] Instance posix_ports : FileOperations S := {
  FileShell.attributes := attributes; FileShell.list_ := list_; FileShell.makeDir := makeDir;
  FileShell.touch := touch; FileShell.removeFile := removeFile; FileShell.removeTree := removeTreeAt 255;
  FileShell.rename := rename; FileShell.copy := copy; FileShell.readText := readText; FileShell.space := space;
}.

End Ops.

(** ** What the program relies on *)

(** [file] is the bytes of the regular file at a path as the program sees them; [kept] of
    them are on the medium. What a stream took and did not write yet is lost when a flush
    or a close fails, and only that. A [stat] that fails tells of absence by [ENOENT] alone. *)
Class PosixLaws (S : Type) `{Posix S} := {
  file : S → bytes → option bytes;
  kept : S → bytes → nat;
  stat_law p v : match px_stat p v with
                 | inr (false, size) => ∃ c, file v p = Some c ∧ size = Z.of_nat (length c)
                 | inr (true, _) => file v p = None
                 | inl e => e = ENOENT → file v p = None
                 end;
  open_rb_law p v : px_open_rb p v = None → is_Some (file v p);
  mkdir_law p v q : file (px_mkdir p v).2 q = file v q;
  open_ab_law p v q : q ≠ p ∨ (px_open_ab p v).1 ≠ None → file (px_open_ab p v).2 q = file v q;
  open_ab_makes p v : (px_open_ab p v).1 = None → file (px_open_ab p v).2 p = Some (default [] (file v p)) ∧
    kept (px_open_ab p v).2 p = length (default [] (file v p));
  open_wb_law p v q : q ≠ p ∨ (px_open_wb p v).1 ≠ None → file (px_open_wb p v).2 q = file v q;
  open_wb_empties p v : (px_open_wb p v).1 = None → file (px_open_wb p v).2 p = Some [];
  read_law p off n v c : file v p = Some c →
    ∃ k, (k <= n)%nat ∧ (px_read p off n v).1 = take k (drop off c) ∧ ((px_read p off n v).2 = false → k = n);
  write_others p d v q : q ≠ p → file (px_write p d v).2 q = file v q;
  write_law p d v c : file v p = Some c → ((px_write p d v).1.1 <= length d)%nat ∧
    file (px_write p d v).2 p = Some (c ++ take (px_write p d v).1.1 d) ∧
    ((px_write p d v).1.1 ≠ length d → (px_write p d v).1.2 ≠ None) ∧ (kept v p <= kept (px_write p d v).2 p)%nat;
  flush_others p v q : q ≠ p → file (px_flush p v).2 q = file v q;
  flush_law p v : ∃ k, file (px_flush p v).2 p = take k <$> file v p ∧ (kept v p <= k)%nat ∧
    (kept v p <= kept (px_flush p v).2 p)%nat ∧
    ((px_flush p v).1 = None → file (px_flush p v).2 p = file v p ∧
       kept (px_flush p v).2 p = length (default [] (file v p)));
  close_others p v q : q ≠ p → file (px_close p v).2 q = file v q;
  close_law p v : ∃ k, file (px_close p v).2 p = take k <$> file v p ∧ (kept v p <= k)%nat ∧
    ((px_close p v).1 = None → file (px_close p v).2 p = file v p);
  unlink_law p v q : q ≠ p ∨ (px_unlink p v).1 ≠ None → file (px_unlink p v).2 q = file v q;
  unlink_removes p v : (px_unlink p v).1 = None → file (px_unlink p v).2 p = None;
  unlink_absent p v : (px_unlink p v).1 = Some ENOENT → file v p = None;
  px_rename_law a b v q c : q ≠ b → file v q = Some c → ∃ q', file (px_rename a b v).2 q' = Some c;
  capacity_law v p c : file v p = Some c → (length c < px_capacity v)%nat;
}.

Lemma fromErrno_ok e : fromErrno e = FoOk → e = None.
Proof. by destruct e as [[]|]. Qed.

Section Laws.
Context {S : Type} `{PosixLaws S}.

Lemma open_ab_keeps p (v : S) q c : file v q = Some c → file (px_open_ab p v).2 q = Some c.
Proof.
  intros Hq. pose proof (open_ab_law p v q) as Ho. pose proof (open_ab_makes p v) as Hm. destruct (px_open_ab p v) as [[e|] w]; cbn in *.
  - rewrite Ho; [done|by right].
  - destruct (decide (q = p)) as [->|Hne]; [rewrite (proj1 (Hm eq_refl)); by rewrite Hq|]. rewrite Ho; [done|by left].
Qed.

(** A flush and a close leave a beginning of the file, no shorter than what is kept, and
    all of it when they report no error. *)
Lemma flush_prefix p (v : S) c : file v p = Some c → ∃ k, file (px_flush p v).2 p = Some (take k c) ∧
  (kept v p <= k)%nat ∧ (kept v p <= kept (px_flush p v).2 p)%nat ∧
  ((px_flush p v).1 = None → take k c = c ∧ kept (px_flush p v).2 p = length c).
Proof.
  intros Hc. destruct (flush_law p v) as (k & Hf & Hk & Hk' & Hok). rewrite Hc in *. exists k. split_and!; [exact Hf|done|done|].
  intros E. destruct (Hok E) as [Hf' Hl]. rewrite Hf in Hf'. split; [by injection Hf'|exact Hl].
Qed.

Lemma close_prefix p (v : S) c : file v p = Some c → ∃ k, file (px_close p v).2 p = Some (take k c) ∧
  (kept v p <= k)%nat ∧ ((px_close p v).1 = None → take k c = c).
Proof.
  intros Hc. destruct (close_law p v) as (k & Hf & Hk & Hok). rewrite Hc in *. exists k. split_and!; [exact Hf|done|].
  intros E. specialize (Hok E). rewrite Hf in Hok. by injection Hok.
Qed.

(** With everything on the medium a close changes nothing. *)
Lemma close_safe p (v : S) c : file v p = Some c → (length c <= kept v p)%nat → file (px_close p v).2 p = Some c.
Proof. intros Hc Hl. destruct (close_prefix p v c Hc) as (k & -> & Hk & _). by rewrite take_ge by lia. Qed.

Lemma copyLoop_others n from to off (v w : S) st q : q ≠ to → copyLoop n from to off v = Some (st, w) →
  file w q = file v q.
Proof.
  intros Hq. revert off v. induction n as [|n IH]; intros off v E; cbn [copyLoop] in E; [done|].
  destruct (px_read from off kCopyChunkBytes v) as [got err]. pose proof (write_others to got v q Hq) as Hw.
  set (r := if _ : bool then _ else _) in E. assert (Hr : file r.2 q = file v q) by (unfold r; by destruct (0 <? length got)%nat).
  destruct r as [[written errno] u]. cbn in Hr. destruct (negb _); [by injection E as <- <-|].
  destruct (length got <? _)%nat; [by injection E as <- <-|]. by rewrite (IH _ _ E).
Qed.

(** The loop, from the place it has come to. *)
Lemma copyLoop_runs c n from to off (v : S) : from ≠ to → file v from = Some c → file v to = Some (take off c) →
  (off <= length c)%nat → (length c - off < n * kCopyChunkBytes)%nat →
  ∃ st w k, copyLoop n from to off v = Some (st, w) ∧ file w to = Some (take k c) ∧ (st = FoOk → take k c = c).
Proof.
  intros Hne. revert off v. induction n as [|n IH]; intros off v Hf Ht Ho Hn; [lia|]. cbn [copyLoop].
  destruct (read_law from off kCopyChunkBytes v c Hf) as (m & Hm & Hgot & Herr).
  destruct (px_read from off kCopyChunkBytes v) as [got err]. cbn [fst snd] in Hgot, Herr.
  assert (Hlen : length got = (m `min` (length c - off))%nat) by (by rewrite Hgot, length_take, length_drop).
  assert (Hcat : ∀ j, (j <= length got)%nat → take off c ++ take j got = take (off + j) c).
  { intros j Hj. rewrite Hgot, take_take, Nat.min_l by lia. by rewrite take_take_drop. }
  destruct (write_law to got v _ Ht) as (Hw1 & Hw2 & Hw3 & _). rewrite Hcat in Hw2 by lia.
  pose proof (write_others to got v from Hne) as Hw4.
  set (r := if _ : bool then _ else _).
  assert (Hr : (r.1.1 <= length got)%nat ∧ file r.2 to = Some (take (off + r.1.1) c) ∧
    (r.1.1 ≠ length got → r.1.2 ≠ None) ∧ file r.2 from = Some c).
  { unfold r. destruct (Nat.ltb_spec 0 (length got)) as [Hl|Hl]; [by rewrite Hw4|].
    cbn [fst snd]. split_and!; [lia| |done|done]. by rewrite Ht, (proj1 (Nat.le_0_r _) Hl), Nat.add_0_r. }
  destruct r as [[written errno] u]. cbn [fst snd] in Hr. destruct Hr as (Hr1 & Hr2 & Hr3 & Hr4).
  destruct (Nat.eqb_spec written (length got)) as [->|Hs]; cbn [negb].
  - destruct (Nat.ltb_spec (length got) kCopyChunkBytes) as [Hshort|Hfull].
    + eexists _, _, _. split_and!; [done|exact Hr2|]. destruct err; [done|]. intros _. rewrite (Herr eq_refl) in Hlen.
      apply take_ge. lia.
    + apply IH; [done|done|lia|]. unfold kCopyChunkBytes in *. lia.
  - eexists _, _, _. split_and!; [done|exact Hr2|]. intros E%fromErrno_ok. by destruct (Hr3 Hs).
Qed.

Lemma copyRounds_enough c from (v : S) : file v from = Some c → (length c < copyRounds v * kCopyChunkBytes)%nat.
Proof.
  intros Hf%capacity_law. unfold copyRounds, kCopyChunkBytes.
  pose proof (Nat.div_mod_eq (px_capacity v) 4096). pose proof (Nat.mod_upper_bound (px_capacity v) 4096). lia.
Qed.

Lemma copyFuel_others n from to (v w : S) st q : q ≠ to → copyFuel n from to v = Some (st, w) → file w q = file v q.
Proof.
  intros Hq. unfold copyFuel. destruct (px_open_rb from v); [by intros [= <- <-]|].
  pose proof (open_wb_law to v q (or_introl Hq)) as H1. destruct (px_open_wb to v) as [[e|] v1]; cbn in H1; [by intros [= <- <-]|].
  destruct (copyLoop n from to 0 v1) as [[st1 v2]|] eqn:El; [|done]. pose proof (copyLoop_others _ _ _ _ _ _ _ _ Hq El) as H2.
  set (r := if bool_decide _ then done1 _ else _). assert (H3 : file r.2 q = file v q).
  { unfold r, done1. case_bool_decide; cbn [snd]; [rewrite flush_others by done|]; congruence. }
  destruct r as [st3 v3]. cbn in H3. pose proof (close_others to v3 q Hq) as H4. destruct (px_close to v3) as [e4 v4]. cbn in H4.
  pose proof (unlink_law to v4 q (or_introl Hq)) as H5. destruct (px_unlink to v4) as [e5 v5]. cbn [snd] in *.
  intros [= <- <-]. case_match; congruence.
Qed.

Lemma copy_others from to (v : S) q : q ≠ to → file (copy from to v).2 q = file v q.
Proof.
  intros Hq. unfold copy. destruct (copyFuel _ from to v) as [[st w]|] eqn:E; [|done].
  cbn [default from_option id snd]. by eapply copyFuel_others.
Qed.

(** C38: a copy of a file to another name ends, touches no file but the target, and says Ok
    only when the target holds every byte of the source - although a flush or a close that
    fails loses whatever the stream had taken. Otherwise the target is as it was (it could
    not be opened), or gone, or, when even its removal failed, a beginning of the source. *)
Theorem copy_outcome from to (v : S) c : from ≠ to → file v from = Some c →
  ∃ st w, copyFuel (copyRounds v) from to v = Some (st, w) ∧ copy from to v = (st, w) ∧
    (∀ q, q ≠ to → file w q = file v q) ∧
    (st = FoOk → file w to = Some c) ∧
    (st ≠ FoOk → file w to = file v to ∨ file w to = None ∨ ∃ k, file w to = Some (take k c)).
Proof.
  intros Hne Hf. cut (∃ st w, copyFuel (copyRounds v) from to v = Some (st, w) ∧
    (st = FoOk → file w to = Some c) ∧
    (st ≠ FoOk → file w to = file v to ∨ file w to = None ∨ ∃ k, file w to = Some (take k c))).
  { intros (st & w & E & H1 & H2). exists st, w. split; [done|]. split; [unfold copy; by rewrite E|].
    split; [|done]. intros q Hq. by eapply copyFuel_others. }
  unfold copyFuel. pose proof (copyRounds_enough c from v Hf) as Hn. generalize dependent (copyRounds v). intros n Hn.
  destruct (px_open_rb from v) as [e|]; [eexists _, _; split; [done|]; split; [by intros E%fromErrno_ok|by left]|].
  pose proof (open_wb_law to v) as Hw. pose proof (open_wb_empties to v) as He. destruct (px_open_wb to v) as [[e|] v1]; cbn in Hw, He.
  { eexists _, _. split; [done|]. split; [by intros E%fromErrno_ok|]. intros _. left. apply Hw. by right. }
  destruct (copyLoop_runs c n from to 0 v1) as (st1 & v2 & k & -> & Hv2 & Hk); [done|by rewrite Hw by (by left)|by rewrite take_0, He|lia|lia|].
  set (r := if bool_decide _ then done1 _ else _).
  assert (H3 : ∃ j, file r.2 to = Some (take j c) ∧ (r.1 = FoOk → take j c = c)).
  { unfold r, done1. case_bool_decide as Hs; cbn [fst snd]; [|by exists k].
    destruct (flush_prefix to v2 _ Hv2) as (j & Hj & _ & _ & Hok). exists (j `min` k)%nat. rewrite <- take_take.
    split; [exact Hj|]. intros E%fromErrno_ok. by rewrite (proj1 (Hok E)), Hk. }
  destruct r as [st3 v3]. cbn [fst snd] in H3. destruct H3 as (j & H3 & H3j).
  destruct (close_prefix to v3 _ H3) as (i & H4 & _ & H4i). destruct (px_close to v3) as [e4 v4]. cbn [fst snd] in H4, H4i.
  set (st := if (_ && _ : bool) then FoIoError else st3).
  assert (Hst : st = FoOk → st3 = FoOk ∧ e4 = None).
  { unfold st. destruct (bool_decide_reflect (st3 = FoOk)) as [->|]; cbn [andb]; [|done]. by destruct e4. }
  eexists st, _. split; [done|]. case_bool_decide as Hok.
  - split; [|done]. intros _. destruct (Hst Hok) as [Hst3 He4]. by rewrite H4, H4i, H3j.
  - split; [done|]. intros _. right. pose proof (unlink_removes to v4) as H5. pose proof (unlink_law to v4 to) as H6.
    destruct (px_unlink to v4) as [[e5|] v5]; cbn [fst snd] in *; [right|left; by apply H5].
    exists (i `min` j)%nat. rewrite H6, <- take_take; [done|by right].
Qed.

(** The implementation keeps the laws the shell relies on. *)
#[export] Instance posix_ports_laws : FileShell.FileOperationsLaws S.
Proof.
  refine {| FileShell.content := file |}; try reflexivity.
  - intros p v. cbn. unfold attributes. pose proof (stat_law p v) as Hs.
    destruct (px_stat p v) as [[]|[d z]]; cbn; (split; [done|]); try done. intros _ _. by apply Hs.
  - intros p v. cbn. unfold list_. by destruct (px_readdir p v) as [|[]].
  - intros p n v. cbn. unfold readText. destruct (px_stat p v) as [|[[] z]]; [done..|].
    destruct (n <? z); [done|]. by destruct (px_open_rb p v).
  - intros p v q c Hq. cbn. by rewrite mkdir_law.
  - intros p v q c Hq. cbn. unfold touch. pose proof (open_ab_keeps p v q c Hq) as Ha. pose proof (open_ab_makes p v) as Hm.
    destruct (px_open_ab p v) as [[e|] v1]; cbn in Ha, Hm; [done|]. destruct (Hm eq_refl) as [Hm1 Hm2].
    assert (Hc : file (px_close p v1).2 q = Some c).
    { destruct (decide (q = p)) as [->|Hne]; [|by rewrite close_others]. apply close_safe; [done|].
      rewrite Hm2. rewrite Ha in Hm1. injection Hm1 as <-. done. }
    by destruct (px_close p v1).
  - intros a b v q c Hne Hq. cbn. by rewrite copy_others.
  - intros a b v q c Hne Hq. cbn. by apply (px_rename_law a b v q c).
Qed.

(** What [cat] is given: the whole file, or a refusal. *)
Lemma readLoop_whole c n path limit out (v : S) : file v path = Some c → prefix out c →
  (∀ off k, (px_read path off k v).2 = false) →
  Z.of_nat (length c) <= limit → (length c - length out < n * kReadChunkBytes)%nat →
  readLoop n path limit out (existsb isBinaryByte out) v = (FoOk, c, existsb isBinaryByte c).
Proof.
  intros Hf Hp Hok Hlim. revert out Hp. induction n as [|n IH]; intros out Hp Hn; [lia|]. cbn [readLoop].
  destruct Hp as [rest ->]. destruct (read_law path (length out) kReadChunkBytes v _ Hf) as (k & Hk & Hg & He).
  specialize (Hok (length out) kReadChunkBytes). destruct (px_read _ _ _ v) as [got err]. cbn [fst snd] in *.
  rewrite (He Hok) in Hg. rewrite drop_app_length in Hg. subst got err. rewrite length_app in *.
  destruct (Nat.eqb_spec (length (take kReadChunkBytes rest)) 0) as [E|E]; rewrite length_take in *.
  - destruct rest as [|x r]; [by rewrite app_nil_r|]. unfold kReadChunkBytes in E. cbn in E. lia.
  - destruct (Z.ltb_spec limit (Z.of_nat (length out + kReadChunkBytes `min` length rest))) as [Hl|_]; [lia|].
    rewrite <- existsb_app. destruct (Nat.ltb_spec (kReadChunkBytes `min` length rest) kReadChunkBytes) as [Hs|Hs].
    + by rewrite take_ge by lia.
    + apply IH; [|rewrite length_app, length_take; unfold kReadChunkBytes in *; lia].
      exists (drop kReadChunkBytes rest). by rewrite <- app_assoc, take_drop.
Qed.

End Laws.

(** ** A volume *)

(** A path names a directory ([None]) or a file with its bytes. As FAT does, [rename]
    refuses a name that is taken; directories are not renamed. A new name needs its
    directory. *)
Abbreviation Volume := (gmap bytes (option bytes)).

Definition childOf (dir p : bytes) : option bytes :=
  let name := drop (length dir + 1) p in
  if is_prefix (dir ++ lit "/") p && negb (existsb (Z.eqb 47) name) then Some name else None.

Definition fileIn (v : Volume) (p : bytes) : option bytes := default None (v !! p).

(** A new name can be made: it is one, and its directory is there. *)
Definition parentIn (p : bytes) (v : Volume) : bool :=
  match PathUtil.lastSlash p with
  | None => false
  | Some k => negb (PathUtil.idle (drop (k + 1) p) || isDot (drop (k + 1) p)) &&
              ((k =? 0)%nat || bool_decide (v !! take k p = Some None))
  end.

#[export] Instance MemoryVolume : Posix Volume := {
  px_stat p v := match v !! p with
                 | None => inl ENOENT
                 | Some None => inr (true, 0)
                 | Some (Some c) => inr (false, Z.of_nat (length c))
                 end;
  px_readdir p v := match v !! p with
                    | None => inl ENOENT
                    | Some None => inr (omap (λ kc : bytes * option bytes, childOf p kc.1) (map_to_list v), false)
                    | Some _ => inl ENOTDIR
                    end;
  px_mkdir p v := match v !! p with
                  | None => if parentIn p v then (None, <[p := None]> v) else (Some ENOENT, v)
                  | Some _ => (Some EEXIST, v)
                  end;
  px_unlink p v := match v !! p with
                   | None => (Some ENOENT, v)
                   | Some None => (Some EISDIR, v)
                   | Some _ => (None, delete p v)
                   end;
  px_rmdir p v := match v !! p with
                  | None => (Some ENOENT, v)
                  | Some None => if bool_decide (omap (λ kc : bytes * option bytes, childOf p kc.1) (map_to_list v) = [])
                                 then (None, delete p v) else (Some ENOTEMPTY, v)
                  | Some _ => (Some ENOTDIR, v)
                  end;
  px_rename a b v := match v !! a, v !! b with
                     | Some (Some c), None => if parentIn b v then (None, <[b := Some c]> (delete a v)) else (Some ENOENT, v)
                     | None, _ => (Some ENOENT, v)
                     | _, Some _ => (Some EEXIST, v)
                     | Some None, None => (Some EOther, v)
                     end;
  px_open_rb p v := match v !! p with None => Some ENOENT | Some None => Some EISDIR | Some _ => None end;
  px_open_wb p v := match v !! p with
                    | None => if parentIn p v then (None, <[p := Some []]> v) else (Some ENOENT, v)
                    | Some None => (Some EISDIR, v)
                    | Some _ => (None, <[p := Some []]> v)
                    end;
  px_open_ab p v := match v !! p with
                    | None => if parentIn p v then (None, <[p := Some []]> v) else (Some ENOENT, v)
                    | Some None => (Some EISDIR, v)
                    | Some _ => (None, v)
                    end;
  px_read p off n v := (take n (drop off (default [] (fileIn v p))), false);
  px_write p d v := match fileIn v p with
                    | Some c => (length d, None, <[p := Some (c ++ d)]> v)
                    | None => (0%nat, Some EOther, v)
                    end;
  px_flush p v := (None, v);
  px_close p v := (None, v);
  px_fat_info p v := if bool_decide (v !! p = Some None) then Some (2 ^ 20, 2 ^ 19) else None;
  px_capacity v := Datatypes.S (length (concat (omap snd (map_to_list v))));
}.

Lemma fileIn_insert v p x q : fileIn (<[p := x]> v) q = if bool_decide (p = q) then x else fileIn v q.
Proof. unfold fileIn. case_bool_decide as E; [subst; by rewrite lookup_insert_eq|by rewrite lookup_insert_ne]. Qed.
Lemma fileIn_delete v p q : fileIn (delete p v) q = if bool_decide (p = q) then None else fileIn v q.
Proof. unfold fileIn. case_bool_decide as E; [subst; by rewrite lookup_delete_eq|by rewrite lookup_delete_ne]. Qed.

Ltac volume := cbn; rewrite ?fileIn_insert, ?fileIn_delete; unfold fileIn in *; repeat case_bool_decide; subst; simplify_eq; try done.

(** It writes through: everything a file holds is kept. *)
Lemma volume_capacity (v : Volume) p c : fileIn v p = Some c → (length c < px_capacity v)%nat.
Proof.
  unfold fileIn. destruct (v !! p) as [[x|]|] eqn:E; cbn; [|done..]. intros [= ->].
  apply elem_of_map_to_list in E. induction (map_to_list v) as [|[k y] l IH]; [by apply elem_of_nil in E|].
  apply elem_of_cons in E as [[= <- <-]|E]; cbn.
  - rewrite length_app. lia.
  - specialize (IH E). destruct y; cbn; [rewrite length_app|]; lia.
Qed.

#[export] Instance MemoryVolume_laws : PosixLaws Volume.
Proof.
  refine {| file := fileIn; kept v p := length (default [] (fileIn v p)) |}; try reflexivity.
  - intros p v. cbn. unfold fileIn. destruct (v !! p) as [[c|]|]; cbn [default from_option id]; eauto.
  - intros p v. cbn. unfold fileIn. destruct (v !! p) as [[c|]|]; [eauto|done..].
  - intros p v q. cbn. destruct (v !! p) as [x|] eqn:E; [done|]. destruct (parentIn p v); volume. by rewrite E.
  - intros p v q Hq. cbn in *. destruct (v !! p) as [[x|]|] eqn:E; [..|destruct (parentIn p v)]; volume; by destruct Hq.
  - intros p v Hq. assert (E1 : fileIn (px_open_ab p v).2 p = Some (default [] (fileIn v p))); [|by rewrite E1].
    cbn in *. destruct (v !! p) as [[x|]|] eqn:E; [..|destruct (parentIn p v)]; volume; by rewrite E.
  - intros p v q Hq. cbn in *. destruct (v !! p) as [[x|]|] eqn:E; [..|destruct (parentIn p v)]; volume; by destruct Hq.
  - intros p v Hq. cbn in *. destruct (v !! p) as [[x|]|] eqn:E; [..|destruct (parentIn p v)]; volume.
  - intros p off n v c Hf. cbn in *. unfold fileIn in *. rewrite Hf. exists n. split_and!; done || lia.
  - intros p d v q Hq. cbn. destruct (fileIn v p); volume.
  - intros p d v c Hf. cbn. rewrite Hf. cbn. rewrite fileIn_insert, bool_decide_eq_true_2, firstn_all by done.
    cbn [default from_option id]. rewrite length_app. split_and!; done || lia.
  - intros p v. cbn. exists (length (default [] (fileIn v p))). destruct (fileIn v p); cbn; split_and!; try done; by rewrite firstn_all.
  - intros p v. cbn. exists (length (default [] (fileIn v p))). destruct (fileIn v p); cbn; split_and!; try done; by rewrite firstn_all.
  - intros p v q Hq. cbn in *. destruct (v !! p) as [[x|]|] eqn:E; volume. by destruct Hq.
  - intros p v Hq. cbn in *. destruct (v !! p) as [[x|]|] eqn:E; volume.
  - intros p v Hq. cbn in *. destruct (v !! p) as [[x|]|] eqn:E; volume. by rewrite E.
  - intros a b v q c Hne Hq. cbn in *. destruct (v !! a) as [[x|]|] eqn:Ea; [|by destruct (v !! b); exists q|by exists q].
    destruct (v !! b) as [y|] eqn:Eb; [by exists q|]. destruct (parentIn b v); [|by exists q]. destruct (decide (q = a)) as [->|Hqa].
    + exists b. volume. unfold fileIn in Hq. rewrite Ea in Hq. exact Hq.
    + exists q. cbn. rewrite fileIn_insert, fileIn_delete, !bool_decide_eq_false_2 by congruence. done.
  - intros v p c. apply volume_capacity.
Defined.

Definition onVolume (l : list (bytes * option bytes)) : Volume :=
  list_to_map (l ++ [(lit "/fat", None); (lit "/sdcard", None)]).

Lemma copy_outcome_witness :
  ∃ st w, copyFuel (copyRounds (onVolume [(lit "/fat/a", Some (lit "text"))])) (lit "/fat/a") (lit "/fat/b")
            (onVolume [(lit "/fat/a", Some (lit "text"))]) = Some (st, w) ∧
          copy (lit "/fat/a") (lit "/fat/b") (onVolume [(lit "/fat/a", Some (lit "text"))]) = (st, w) ∧ st = FoOk.
Proof.
  destruct (copy_outcome (lit "/fat/a") (lit "/fat/b") (onVolume [(lit "/fat/a", Some (lit "text"))]) (lit "text"))
    as (st & w & E1 & E2 & _); [done|vm_compute; reflexivity|].
  exists st, w. split; [exact E1|]. split; [exact E2|].
  transitivity (copy (lit "/fat/a") (lit "/fat/b") (onVolume [(lit "/fat/a", Some (lit "text"))])).1;
    [by rewrite E2|vm_compute; reflexivity].
Defined.

(** A session on it. *)
Definition after (l : list (bytes * option bytes)) (lines : list bytes) : FileShell.Shell Volume :=
  FileShell.session lines (FileShell.start (onVolume l)).

Example session_runs :
  let s := after [] [lit "touch a"; lit "mkdir d"; lit "cd d"; lit "mv ../a b"; lit "cp b c"; lit "pwd"; lit "ls /fat/d"; lit "cd .."; lit "rm -r d"; lit "ls"] in
  FileShell.out s = [lit "/fat/d" ++ FileShell.kEol; lit "f  0  b" ++ FileShell.kEol; lit "f  0  c" ++ FileShell.kEol;
                     lit "(empty)" ++ FileShell.kEol].
Proof. vm_compute. reflexivity. Qed.

(** FAT renames onto no file that is there: [mv -f] is told to use "-f". *)
Example forced_move_refused :
  let s := after [(lit "/fat/a", Some (lit "new")); (lit "/fat/b", Some (lit "old"))] [lit "mv -f a b"] in
  FileShell.out s = [lit "error: already exists, use -f: /fat/b" ++ FileShell.kEol] ∧
  fileIn (FileShell.fs s) (lit "/fat/b") = Some (lit "old").
Proof. vm_compute. done. Qed.

(** A file copied onto itself is empty afterwards, and nothing is said. *)
Example copy_onto_itself_empties :
  let s := after [(lit "/fat/a", Some (lit "text"))] [lit "cp -f a a"] in
  FileShell.out s = [] ∧ fileIn (FileShell.fs s) (lit "/fat/a") = Some [].
Proof. vm_compute. done. Qed.

(** A volume that cannot tell of one name for want of a handle or of a good sector. *)
#[local] Instance Unanswered (name : bytes) : Posix Volume := {
  px_stat p v := if bytes_eqb p name then inl EOther else px_stat p v;
  px_readdir := px_readdir; px_mkdir := px_mkdir; px_unlink := px_unlink; px_rmdir := px_rmdir; px_rename := px_rename;
  px_open_rb := px_open_rb; px_open_wb := px_open_wb; px_open_ab := px_open_ab; px_read := px_read; px_write := px_write;
  px_flush := px_flush; px_close := px_close; px_fat_info := px_fat_info; px_capacity := px_capacity;
}.

(** What the shell cannot be told of it takes for absent: a copy without "-f" replaces a file
    whose [stat] failed, and says nothing. *)
Example unanswered_target_overwritten :
  let v := onVolume [(lit "/fat/a", Some (lit "new")); (lit "/fat/b", Some (lit "old"))] in
  let s := FileShell.session (H := posix_ports (H := Unanswered (lit "/fat/b"))) [lit "cp a b"] (FileShell.start v) in
  FileShell.out s = [] ∧ fileIn (FileShell.fs s) (lit "/fat/b") = Some (lit "new").
Proof. vm_compute. done. Qed.

Lemma nothing_lost_witness :
  let v := onVolume [(lit "/fat/a", Some (lit "text"))] in
  FileShell.nothingLost v (FileShell.fs (FileShell.execute (lit "mv a b") (FileShell.start v))).
Proof. intros v. by apply (FileShell.nothing_lost (lit "mv a b") (FileShell.start v)). Defined.

End PosixFileOperations.
