(* ===== verification/NtpWire.v ===== *)
(** * NTP: packets, the probe's texts, the list of servers

    src/time/NtpMessage.h (the 48 bytes of a packet and its stamps),
    NtpProbeFormat.h (the request of a probe, its check of a reply, the journal's
    words), PosixTimezone.h, src/core/NtpServers.h (the setting that names the
    servers) and NtpLogFormat.h. *)
From S2P Require Import Prelude Text.
#[local] Open Scope Z_scope.

Module NtpMessage.

Definition kNtpPacketBytes : nat := 48.
Definition kNtpUnixOffset : Z := 2208988800.
Definition kNtpPort : Z := 123.
Definition kNtpModeSymmetricActive : Z := 1.
Definition kNtpModeClient : Z := 3.
Definition kNtpModeServer : Z := 4.
Definition kNtpMaskLeap : Z := 0x03.
Definition kNtpMaskMode : Z := 0x07.
Definition kNtpShiftVersion : Z := 3.
Definition kNtpShiftLeap : Z := 6.
Definition kNtpLeapNoWarning : Z := 0.
Definition kNtpLeapNotSynchronized : Z := 3.
Definition kNtpStratumKissOfDeath : Z := 0.
Definition kNtpStratumUnsynchronized : Z := 16.
Definition kNtpPrecisionUs : Z := -20.
Definition kNtpOneSecond16_16 : Z := 0x00010000.
Definition kNtpRefIdLocal : Z := 0x4C4F434C.
Definition kNtpVersionMin : Z := 3.
Definition kNtpVersionFallback : Z := 4.
Definition kMaskByte0 : Z := 0x000000FF.
Definition kMaskByte1 : Z := 0x0000FF00.
Definition kMaskByte2 : Z := 0x00FF0000.
Definition kMaskByte3 : Z := 0xFF000000.
Definition kByteSwapShiftHigh : Z := 24.
Definition kByteSwapShiftLow : Z := 8.
Definition kNtpFractionBits : Z := 32.
Definition kUsecPerSecond : Z := 1000000.

(** A word of the packet is the number its four bytes are on this little-endian
    machine: what [toBe32] made of the value meant. *)
Record NtpPacket := mkPacket {
  liVnMode : Z; stratum : Z; poll : Z; precision : Z;
  rootDelay : Z; rootDispersion : Z; refId : Z;
  refTsSec : Z; refTsFrac : Z; origTsSec : Z; origTsFrac : Z;
  recvTsSec : Z; recvTsFrac : Z; txTsSec : Z; txTsFrac : Z;
}.

(** [int8_t] and its byte. *)
Definition s8 (b : Z) : Z := if b <? 128 then b else b - 256.

Definition packetBytes (p : NtpPacket) : bytes :=
  [liVnMode p; stratum p; u8 (poll p); u8 (precision p)] ++
  concat (le4 <$> [rootDelay p; rootDispersion p; refId p; refTsSec p; refTsFrac p; origTsSec p; origTsFrac p;
                   recvTsSec p; recvTsFrac p; txTsSec p; txTsFrac p]).

Definition byteAt (b : bytes) (i : nat) : Z := nth i b 0.
Definition wordAt (b : bytes) (i : nat) : Z :=
  of_le4 (byteAt b i) (byteAt b (i + 1)) (byteAt b (i + 2)) (byteAt b (i + 3)).

(** [memcpy(&req, buf, sizeof(NtpPacket))]. *)
Definition packetOf (b : bytes) : NtpPacket :=
  mkPacket (byteAt b 0) (byteAt b 1) (s8 (byteAt b 2)) (s8 (byteAt b 3))
    (wordAt b 4) (wordAt b 8) (wordAt b 12) (wordAt b 16) (wordAt b 20) (wordAt b 24) (wordAt b 28)
    (wordAt b 32) (wordAt b 36) (wordAt b 40) (wordAt b 44).

Definition swap32 (v : Z) : Z :=
  Z.lor (Z.lor (Z.lor (u32 (Z.shiftl (Z.land v kMaskByte0) kByteSwapShiftHigh))
                      (u32 (Z.shiftl (Z.land v kMaskByte1) kByteSwapShiftLow)))
               (Z.shiftr (Z.land v kMaskByte2) kByteSwapShiftLow))
        (Z.shiftr (Z.land v kMaskByte3) kByteSwapShiftHigh).

Definition toBe32 (v : Z) : Z := swap32 v.
Definition fromBe32 (v : Z) : Z := toBe32 v.

Definition unixToNtp (unixSec unixUsec : Z) : Z * Z :=
  (u32 (unixSec + kNtpUnixOffset), u32 (u64 (Z.shiftl unixUsec kNtpFractionBits) / kUsecPerSecond)).
Definition ntpToUnixSec (ntpSec : Z) : Z := u32 (ntpSec - kNtpUnixOffset).

Definition ntpMode (p : NtpPacket) : Z := u8 (Z.land (liVnMode p) kNtpMaskMode).
Definition ntpVersion (p : NtpPacket) : Z := u8 (Z.land (Z.shiftr (liVnMode p) kNtpShiftVersion) kNtpMaskMode).
Definition ntpMakeLiVnMode (li vn mode : Z) : Z :=
  u8 (Z.lor (Z.lor (Z.shiftl (Z.land li kNtpMaskLeap) kNtpShiftLeap)
                   (Z.shiftl (Z.land vn kNtpMaskMode) kNtpShiftVersion))
            (Z.land mode kNtpMaskMode)).

(** ** Byte order *)

Lemma lor_low x y k : 0 <= k → 0 <= y < 2 ^ k → Z.lor (x * 2 ^ k) y = x * 2 ^ k + y.
Proof.
  intros Hk Hy. pose proof (Z.add_lor_land (x * 2 ^ k) y) as E.
  assert (H0 : Z.land (x * 2 ^ k) y = 0); [|lia].
  apply Z.bits_inj'. intros n Hn. rewrite Z.land_spec, Z.bits_0, <- Z.shiftl_mul_pow2, Z.shiftl_spec by lia.
  destruct (Z_lt_le_dec n k); [by rewrite Z.testbit_neg_r by lia|].
  rewrite andb_comm. destruct (decide (y = 0)) as [->|]; [by rewrite Z.testbit_0_l|].
  rewrite Z.bits_above_log2; [done|lia|]. assert (Z.log2 y < k) by (apply Z.log2_lt_pow2; lia). lia.
Qed.

Lemma land_byte v k : 0 <= k → Z.land v (255 * 2 ^ k) = v / 2 ^ k mod 256 * 2 ^ k.
Proof.
  intros Hk. change 256 with (2 ^ 8). rewrite <- Z.land_ones, <- Z.shiftr_div_pow2, <- !Z.shiftl_mul_pow2 by lia.
  change 255 with (Z.ones 8). apply Z.bits_inj'. intros n Hn.
  rewrite Z.land_spec, !Z.shiftl_spec, Z.land_spec by lia. destruct (Z_lt_le_dec n k).
  - rewrite !(Z.testbit_neg_r _ (n - k)) by lia. by rewrite andb_false_r.
  - rewrite Z.shiftr_spec by lia. by replace (n - k + k) with n by lia.
Qed.

Lemma swap32_ntohl v : is_u32 v → swap32 v = ntohl v.
Proof.
  intros Hv. unfold swap32, kMaskByte0, kMaskByte1, kMaskByte2, kMaskByte3, kByteSwapShiftHigh, kByteSwapShiftLow, ntohl, of_be4, of_le4.
  pose proof (land_byte v 0) as E0. pose proof (land_byte v 8) as E1. pose proof (land_byte v 16) as E2. pose proof (land_byte v 24) as E3.
  change (255 * 2 ^ 0) with 0xFF in E0. change (255 * 2 ^ 8) with 0xFF00 in E1. change (255 * 2 ^ 16) with 0xFF0000 in E2.
  change (255 * 2 ^ 24) with 0xFF000000 in E3. rewrite E0, E1, E2, E3 by lia. clear E0 E1 E2 E3.
  change (2 ^ 0) with 1. change (2 ^ 8) with 256. change (2 ^ 16) with 65536. change (2 ^ 24) with 16777216.
  rewrite Z.div_1_r, Z.mul_1_r, !Z.shiftl_mul_pow2, !Z.shiftr_div_pow2 by lia. change (2 ^ 24) with 16777216. change (2 ^ 8) with 256.
  set (a := v mod 256). set (b := v / 256 mod 256). set (c := v / 65536 mod 256). set (d := v / 16777216 mod 256).
  assert (Hb : 0 <= a < 256 ∧ 0 <= b < 256 ∧ 0 <= c < 256 ∧ 0 <= d < 256) by (subst a b c d; repeat split; apply Z.mod_pos_bound; lia).
  clearbody a b c d. rewrite (u32_small (a * _)), (u32_small (b * _ * _)) by (unfold is_u32; lia).
  replace (c * 65536 / 256) with (c * 256) by (replace (c * 65536) with (c * 256 * 256) by lia; by rewrite Z.div_mul).
  rewrite Z.div_mul by lia. replace (b * 256 * 256) with (b * 65536) by lia.
  change 16777216 with (2 ^ 24). rewrite (lor_low a (b * 65536) 24) by lia.
  replace (a * 2 ^ 24 + b * 65536) with ((a * 256 + b) * 2 ^ 16) by lia. rewrite (lor_low _ (c * 256) 16) by lia.
  replace ((a * 256 + b) * 2 ^ 16 + c * 256) with ((a * 65536 + b * 256 + c) * 2 ^ 8) by lia. rewrite (lor_low _ d 8) by lia. lia.
Qed.

Lemma toBe32_range v : is_u32 v → is_u32 (toBe32 v).
Proof. intros Hv. unfold toBe32. rewrite swap32_ntohl by done. apply ntohl_range. Qed.

Lemma fromBe32_toBe32 v : is_u32 v → fromBe32 (toBe32 v) = v.
Proof.
  intros Hv. unfold fromBe32, toBe32. rewrite (swap32_ntohl v), swap32_ntohl by (done || apply ntohl_range).
  by apply ntohl_involutive.
Qed.

(** On the wire a word stands in network order. *)
Lemma toBe32_wire v : is_u32 v → le4 (toBe32 v) = be4 v.
Proof.
  intros Hv. unfold toBe32. rewrite swap32_ntohl by done. unfold ntohl, of_be4, be4.
  rewrite le4_of_le4 by apply digit_u8. done.
Qed.

(** ** The packet and its bytes *)

Definition wf_packet (p : NtpPacket) : Prop :=
  is_u8 (liVnMode p) ∧ is_u8 (stratum p) ∧ (-128 <= poll p < 128) ∧ (-128 <= precision p < 128) ∧
  Forall is_u32 [rootDelay p; rootDispersion p; refId p; refTsSec p; refTsFrac p; origTsSec p; origTsFrac p;
                 recvTsSec p; recvTsFrac p; txTsSec p; txTsFrac p].

Lemma packetBytes_length p : length (packetBytes p) = kNtpPacketBytes.
Proof. reflexivity. Qed.

Lemma s8_u8 z : -128 <= z < 128 → s8 (u8 z) = z.
Proof.
  intros H. unfold s8, u8. change (2 ^ 8) with 256. destruct (Z_lt_le_dec z 0).
  - assert (E : z mod 256 = z + 256) by (symmetry; apply (Z.mod_unique z 256 (-1)); lia).
    rewrite E, (proj2 (Z.ltb_ge _ _)) by lia. lia.
  - rewrite Z.mod_small by lia. by rewrite (proj2 (Z.ltb_lt _ _)) by lia.
Qed.

Lemma packetOf_bytes p rest : wf_packet p → packetOf (packetBytes p ++ rest) = p.
Proof.
  destruct p. unfold wf_packet. cbn [liVnMode stratum poll precision rootDelay rootDispersion refId refTsSec refTsFrac
    origTsSec origTsFrac recvTsSec recvTsFrac txTsSec txTsFrac].
  intros (_ & _ & H3 & H4 & H5). repeat (apply Forall_cons in H5 as [? H5]).
  unfold packetOf, packetBytes, wordAt, byteAt. cbn [liVnMode stratum poll precision rootDelay rootDispersion refId refTsSec refTsFrac
    origTsSec origTsFrac recvTsSec recvTsFrac txTsSec txTsFrac fmap list_fmap concat app nth Nat.add le4].
  rewrite !s8_u8 by lia. unfold of_le4. f_equal; word_lia.
Qed.

(** ** Stamps *)

Lemma ntpToUnixSec_inv s u : is_u32 s → ntpToUnixSec (unixToNtp s u).1 = s.
Proof. intros Hs. unfold ntpToUnixSec, unixToNtp, kNtpUnixOffset. cbn [fst]. word_lia. Qed.

(** The fraction tells the microsecond. *)
Lemma unixToNtp_usec s u : 0 <= u < kUsecPerSecond →
  is_u32 (unixToNtp s u).2 ∧ (unixToNtp s u).2 * kUsecPerSecond <= u * 2 ^ 32 < ((unixToNtp s u).2 + 1) * kUsecPerSecond.
Proof.
  unfold unixToNtp, kNtpFractionBits, kUsecPerSecond. cbn [snd]. intros Hu. rewrite Z.shiftl_mul_pow2 by lia.
  rewrite u64_small by (unfold is_u64; lia).
  pose proof (Z.div_mod (u * 2 ^ 32) 1000000 ltac:(lia)) as Hd. pose proof (Z.mod_pos_bound (u * 2 ^ 32) 1000000 ltac:(lia)).
  assert (Hr : is_u32 (u * 2 ^ 32 / 1000000)).
  { unfold is_u32. split; [apply Z.div_pos; lia|]. apply Z.div_lt_upper_bound; lia. }
  rewrite u32_small by done. split; [done|]. lia.
Qed.

(** ** The first byte *)

Lemma seqZ_forallb (p : Z → bool) a n : forallb p (seqZ a n) = true → ∀ z, a <= z < a + n → p z = true.
Proof. intros H z Hz. rewrite forallb_forall in H. apply H, list_elem_of_In, elem_of_seqZ. lia. Qed.

Lemma liVnMode_all : forallb (λ li, forallb (λ vn, forallb (λ mode,
    let b := ntpMakeLiVnMode li vn mode in
    (u8 (Z.land b kNtpMaskMode) =? mode) && (u8 (Z.land (Z.shiftr b kNtpShiftVersion) kNtpMaskMode) =? vn)
    && (Z.shiftr b kNtpShiftLeap =? li) && (b <? 256) && (0 <=? b))
  (seqZ 0 8)) (seqZ 0 8)) (seqZ 0 4) = true.
Proof. vm_compute. reflexivity. Qed.

Lemma liVnMode_spec li vn mode : 0 <= li < 4 → 0 <= vn < 8 → 0 <= mode < 8 →
  let b := ntpMakeLiVnMode li vn mode in
  is_u8 b ∧ u8 (Z.land b kNtpMaskMode) = mode ∧ u8 (Z.land (Z.shiftr b kNtpShiftVersion) kNtpMaskMode) = vn ∧
  Z.shiftr b kNtpShiftLeap = li.
Proof.
  intros Hl Hv Hm b. pose proof (seqZ_forallb _ _ _ liVnMode_all li ltac:(lia)) as H. cbv beta in H.
  apply seqZ_forallb with (z := vn) in H; [|lia]. apply seqZ_forallb with (z := mode) in H; [|lia].
  cbv beta zeta in H. fold b in H.
  rewrite !andb_true_iff, !Z.eqb_eq, Z.ltb_lt, Z.leb_le in H. unfold is_u8. lia.
Qed.

Lemma version_range p : 0 <= ntpVersion p < 8.
Proof.
  unfold ntpVersion, kNtpMaskMode. change 7 with (Z.ones 3). rewrite Z.land_ones by lia.
  pose proof (Z.mod_pos_bound (Z.shiftr (liVnMode p) kNtpShiftVersion) (2 ^ 3) ltac:(lia)).
  rewrite u8_small by (unfold is_u8; lia). lia.
Qed.

End NtpMessage.

(** ** The list of servers *)

Module NtpServers.

Definition kNtpServerSeparator : bytes := lit ", ".
Definition kNtpServerTrimChars : bytes := [32; 9; 13; 10].
Definition kNtpServerComma : Z := 44.
Definition kNtpServerSemicolon : Z := 59.
Definition kNtpMaxServers : nat := 3.
Definition kNtpServersTextMax : nat := 120.

Definition isTrim (c : Z) : bool := existsb (Z.eqb c) kNtpServerTrimChars.
Definition ntpServerTrim (name : bytes) : bytes := trim_by isTrim name.

(** [take]. *)
Definition takeName (servers : list bytes) (current : bytes) : list bytes :=
  if (kNtpMaxServers <=? length servers)%nat then servers
  else let name := ntpServerTrim current in if bool_decide (name = []) then servers else servers ++ [name].

Definition isSeparator (c : Z) : bool := (c =? kNtpServerComma) || (c =? kNtpServerSemicolon).

Fixpoint splitLoop (text current : bytes) (servers : list bytes) : list bytes :=
  match text with
  | [] => takeName servers current
  | ch :: text =>
      if isSeparator ch then splitLoop text [] (takeName servers current)
      else splitLoop text (current ++ [ch]) servers
  end.

Definition ntpServersSplit (text : bytes) : list bytes := splitLoop text [] [].

Fixpoint textLoop (servers : list bytes) (out : bytes) (kept : nat) : bytes :=
  match servers with
  | [] => out
  | raw :: servers =>
      let name := ntpServerTrim raw in
      if bool_decide (name = []) then textLoop servers out kept
      else if (kNtpMaxServers <=? kept)%nat then out
      else if bool_decide (out = []) then textLoop servers (take kNtpServersTextMax name) (S kept)
      else if (kNtpServersTextMax <? length out + (length kNtpServerSeparator + length name))%nat then out
      else textLoop servers (take kNtpServersTextMax (out ++ kNtpServerSeparator ++ name)) (S kept)
  end.

Definition ntpServersText (servers : list bytes) : bytes := textLoop servers [] 0.

(** What a list of servers is: trimmed names without a separator. *)
Definition name_ok (name : bytes) : Prop :=
  name ≠ [] ∧ ntpServerTrim name = name ∧ Forall (λ c, isSeparator c = false) name.
Definition joined (servers : list bytes) : bytes :=
  match servers with [] => [] | s :: l => s ++ concat ((λ t, kNtpServerSeparator ++ t) <$> l) end.

Lemma joined_snoc l s : l ≠ [] → joined (l ++ [s]) = joined l ++ kNtpServerSeparator ++ s.
Proof. destruct l as [|x l]; [done|]. intros _. cbn [app joined]. rewrite fmap_app, concat_app; cbn [fmap list_fmap concat]; by rewrite app_nil_r, ?app_assoc. Qed.

Lemma splitLoop_plain s : ∀ text current servers, Forall (λ c, isSeparator c = false) s →
  splitLoop (s ++ text) current servers = splitLoop text (current ++ s) servers.
Proof.
  induction s as [|c s IH]; intros text current servers Hs; [by rewrite app_nil_r|].
  apply Forall_cons in Hs as [Hc Hs]. cbn [app splitLoop]. rewrite Hc, IH by done. by rewrite <- app_assoc.
Qed.

Lemma takeName_ok servers current name : (length servers < kNtpMaxServers)%nat → ntpServerTrim current = name → name ≠ [] →
  takeName servers current = servers ++ [name].
Proof.
  intros Hl Ht Hn. unfold takeName. rewrite (proj2 (Nat.leb_gt _ _)) by done. by rewrite Ht, bool_decide_eq_false_2.
Qed.

Lemma trim_space s : ntpServerTrim s = s → ntpServerTrim (32 :: s) = s.
Proof. intros H. unfold ntpServerTrim, trim_by in *. cbn [drop_while]. exact H. Qed.

Lemma splitLoop_joined l : ∀ servers current, Forall name_ok l → (length servers + S (length l) <= kNtpMaxServers)%nat →
  ∀ name, ntpServerTrim current = name → name ≠ [] →
  splitLoop (concat ((λ t, kNtpServerSeparator ++ t) <$> l)) current servers = servers ++ name :: l.
Proof.
  induction l as [|s l IH]; intros servers current Hl Hlen name Ht Hn.
  - cbn [fmap list_fmap concat splitLoop]. apply takeName_ok; [cbn in Hlen; lia|done|done].
  - apply Forall_cons in Hl as [(Hs1 & Hs2 & Hs3) Hl].
    change (concat _) with (44 :: 32 :: s ++ concat ((λ t, kNtpServerSeparator ++ t) <$> l)).
    cbn [splitLoop isSeparator Z.eqb orb kNtpServerComma kNtpServerSemicolon Pos.eqb app].
    rewrite splitLoop_plain by done. rewrite (takeName_ok servers current name) by (done || (cbn in Hlen; lia)).
    rewrite (IH (servers ++ [name]) ([32] ++ s) Hl) with (name := s); [by rewrite <- app_assoc| |by apply trim_space|done].
    rewrite length_app. cbn in *. lia.
Qed.

Lemma joined_length dn l : (length (joined dn) <= length (joined (dn ++ l)))%nat.
Proof. destruct dn as [|x dn]; [cbn; lia|]. cbn [app joined]. rewrite fmap_app, concat_app, !length_app. lia. Qed.

Lemma joined_nonempty dn : Forall name_ok dn → dn ≠ [] → joined dn ≠ [].
Proof. intros H Hd. destruct H as [|x dn [Hx _] _]; [done|]. by destruct x. Qed.

Lemma textLoop_joined l : ∀ dn, Forall name_ok (dn ++ l) → dn ≠ [] → (length dn + length l <= kNtpMaxServers)%nat →
  (length (joined (dn ++ l)) <= kNtpServersTextMax)%nat →
  textLoop l (joined dn) (length dn) = joined (dn ++ l).
Proof.
  induction l as [|s l IH]; intros dn Hok Hd Hlen Hmax; [by rewrite app_nil_r|].
  pose proof (proj1 (Forall_app _ _ _) Hok) as [Hdn [(Hs1 & Hs2 & Hs3) Hl]%Forall_cons].
  cbn [textLoop]. rewrite Hs2, bool_decide_eq_false_2 by done. cbn [length] in Hlen.
  rewrite (proj2 (Nat.leb_gt _ _)), bool_decide_eq_false_2 by (lia || by apply joined_nonempty).
  assert (E : dn ++ s :: l = (dn ++ [s]) ++ l) by (by rewrite <- app_assoc). rewrite E in *. clear E. pose proof (joined_length (dn ++ [s]) l) as Hpre.
  rewrite <- joined_snoc, take_ge by (done || lia). pose proof (joined_snoc dn s Hd) as Ej.
  apply (f_equal length) in Ej. rewrite !length_app in Ej. rewrite (proj2 (Nat.ltb_ge _ _)) by lia.
  replace (S (length dn)) with (length (dn ++ [s])) by (rewrite length_app; cbn; lia).
  apply IH; [done|by destruct dn|rewrite length_app; cbn; lia|done].
Qed.

(** A list of servers that fits the setting is stored and read back as it is. *)
Theorem servers_roundtrip l : Forall name_ok l → (length l <= kNtpMaxServers)%nat →
  (length (joined l) <= kNtpServersTextMax)%nat →
  ntpServersText l = joined l ∧ ntpServersSplit (ntpServersText l) = l.
Proof.
  intros Hok Hlen Hmax. assert (E : ntpServersText l = joined l).
  { destruct l as [|s l]; [done|]. pose proof Hok as [(H1 & H2 & H3) Hl]%Forall_cons. unfold ntpServersText. cbn [textLoop].
    rewrite H2, (bool_decide_eq_false_2 (s = [])), (bool_decide_eq_true_2 ([] = [])) by done. cbn [Nat.leb kNtpMaxServers].
    pose proof (joined_length [s] l) as Hp. cbn [joined fmap list_fmap concat app] in Hp, Hmax. rewrite app_nil_r in Hp.
    rewrite take_ge by (cbn [app] in Hmax; lia). pose proof (textLoop_joined l [s] Hok) as Ht. cbn [joined fmap list_fmap concat app length] in Ht.
    rewrite app_nil_r in Ht. apply Ht; [done|cbn in *; lia|exact Hmax]. }
  split; [done|]. rewrite E. destruct l as [|s l]; [done|]. apply Forall_cons in Hok as [(H1 & H2 & H3) Hl].
  unfold ntpServersSplit. cbn [joined]. rewrite splitLoop_plain by done.
  by apply (splitLoop_joined l [] s Hl Hlen s).
Qed.

(** Never more than three, none empty, none with a separator, all trimmed. *)
Lemma takeName_fine servers current : Forall name_ok servers → Forall (λ c, isSeparator c = false) current →
  (length servers <= kNtpMaxServers)%nat →
  Forall name_ok (takeName servers current) ∧ (length (takeName servers current) <= kNtpMaxServers)%nat.
Proof.
  intros Hs Hc Hl. unfold takeName. destruct (Nat.leb_spec kNtpMaxServers (length servers)); [done|].
  case_bool_decide as Hn; [done|]. rewrite length_app. cbn. split; [|lia]. apply Forall_app. split; [done|].
  apply Forall_singleton. split_and!; [done|apply trim_by_idem|by apply trim_by_Forall].
Qed.

Theorem servers_fine text : Forall name_ok (ntpServersSplit text) ∧ (length (ntpServersSplit text) <= kNtpMaxServers)%nat.
Proof.
  unfold ntpServersSplit. assert (H : ∀ current servers, Forall name_ok servers → Forall (λ c, isSeparator c = false) current →
    (length servers <= kNtpMaxServers)%nat →
    Forall name_ok (splitLoop text current servers) ∧ (length (splitLoop text current servers) <= kNtpMaxServers)%nat).
  { induction text as [|c text IH]; intros current servers Hs Hc Hl; cbn [splitLoop]; [by apply takeName_fine|].
    destruct (isSeparator c) eqn:E.
    - destruct (takeName_fine servers current Hs Hc Hl). by apply IH.
    - apply IH; [done| |done]. apply Forall_app. split; [done|]. by apply Forall_singleton. }
  apply H; [constructor|constructor|cbn; lia].
Qed.

Example servers_read : ntpServersSplit (lit " a.org;b.org ,, c.org,d.org") = [lit "a.org"; lit "b.org"; lit "c.org"].
Proof. reflexivity. Qed.

End NtpServers.

(** ** The offset as the C library is told it *)

Module PosixTimezone.

Definition posixTimezone (offsetHours : Z) : bytes :=
  if offsetHours =? 0 then lit "UTC0"
  else
    let hours := if offsetHours <? 0 then - offsetHours else offsetHours in
    (if offsetHours <? 0 then lit "UTC+" else lit "UTC-") ++ dec hours.

(** POSIX: what follows the name is what is added to local time to reach UTC. *)
Definition westOf (tz : bytes) : option Z :=
  match drop 3 tz with
  | [] => None
  | c :: l =>
      let value := fold_left (λ v d, 10 * v + (d - 48)) in
      if c =? 43 then Some (value l 0) else if c =? 45 then Some (- value l 0) else Some (value (c :: l) 0)
  end.

Theorem local_time_shown h : -12 <= h <= 14 → westOf (posixTimezone h) = Some (- h).
Proof.
  intros Hh. assert (H : forallb (λ h, bool_decide (westOf (posixTimezone h) = Some (- h))) (seqZ (-12) 27) = true) by (vm_compute; reflexivity).
  pose proof (NtpMessage.seqZ_forallb _ _ _ H h ltac:(lia)) as E. by apply bool_decide_eq_true in E.
Qed.

End PosixTimezone.

(** ** The probe *)

Module NtpProbe.

Import NtpMessage.

Definition kNtpProbeTimeoutMs : Z := 3000.
Definition kNtpProbeMsPerSec : Z := 1000.
Definition kNtpProbeVersion : Z := 4.
Definition kNtpProbeLinePrefix : bytes := lit "NTP probe: ".
Definition kNtpProbeEntrySeparator : bytes := lit "; ".
Definition kResponseBytes : nat := 64.

Inductive NtpProbeVerdict := Replied | NoReply | Unresolved | NotAsked.
#[global] Instance NtpProbeVerdict_eq : EqDecision NtpProbeVerdict.
Proof. solve_decision. Defined.

Record NtpProbeEntry := mkEntry { name : bytes; ip : bytes; verdict : NtpProbeVerdict; eStratum : Z }.

Definition ntpProbeBuildRequest (unixSec unixUsec : Z) : bytes :=
  let '(ntpSec, ntpFrac) := unixToNtp unixSec unixUsec in
  packetBytes (mkPacket (ntpMakeLiVnMode kNtpLeapNoWarning kNtpProbeVersion kNtpModeClient) 0 0 0 0 0 0 0 0 0 0 0 0
    (toBe32 ntpSec) (toBe32 ntpFrac)).

(** The stratum of a reply; [None]: this is no reply to that request. *)
Definition ntpProbeIsReply (reply request : bytes) : option Z :=
  if (length reply <? kNtpPacketBytes)%nat || (length request <? kNtpPacketBytes)%nat then None
  else
    let answer := packetOf reply in
    if negb (ntpMode answer =? kNtpModeServer) then None
    else if ntpVersion answer <? kNtpVersionMin then None
    else
      let sent := packetOf request in
      if negb (origTsSec answer =? txTsSec sent) || negb (origTsFrac answer =? txTsFrac sent) then None
      else Some (stratum answer).

Definition ntpProbeVerdictName (v : NtpProbeVerdict) : bytes :=
  match v with
  | Replied => lit "replied"
  | NoReply => lit "no_reply"
  | Unresolved => lit "unresolved"
  | NotAsked => lit "not_asked"
  end.

Definition ntpProbeEntryText (e : NtpProbeEntry) (timeoutMs : Z) : bytes :=
  match verdict e with
  | Unresolved => name e ++ lit " - name did not resolve"
  | NotAsked => name e ++ lit " - not asked (an earlier server replied)"
  | v =>
      let out := name e ++ (if bool_decide (ip e = []) then [] else lit " (" ++ ip e ++ lit ")") in
      if negb (bool_decide (v = Replied)) then
        out ++ lit " - no reply in " ++ dec (timeoutMs / kNtpProbeMsPerSec) ++ lit " s"
      else if eStratum e =? kNtpStratumKissOfDeath then out ++ lit " - replied (stratum 0, kiss-of-death)"
      else out ++ lit " - replied (stratum " ++ dec (eStratum e) ++ lit ")"
  end.

Definition ntpProbeLine (entries : list NtpProbeEntry) (timeoutMs : Z) : bytes :=
  (fold_left (λ acc e, (acc.1 ++ (if acc.2 : bool then [] else kNtpProbeEntrySeparator) ++ ntpProbeEntryText e timeoutMs, false))
    entries (kNtpProbeLinePrefix, true)).1.

Section Run.
(** The resolver, the parser of addresses, the clock, and what comes back on the socket
    for an address and a request: [None] for silence. *)
Context (getaddrinfo : bytes → option bytes) (socket : bool) (pton_ok : bytes → bool) (clock : Z * Z)
        (exchange : bytes → bytes → option bytes).

Definition resolve (n : bytes) : option bytes := getaddrinfo n.

Definition ask (address : bytes) : option Z :=
  if negb socket then None
  else if negb (pton_ok address) then None
  else
    let request := ntpProbeBuildRequest (u32 clock.1) (u32 clock.2) in
    match exchange address request with
    | None => None
    | Some answer => if bool_decide (answer = []) then None else ntpProbeIsReply (take kResponseBytes answer) request
    end.

Fixpoint runLoop (servers : list bytes) (answered : bool) : list NtpProbeEntry :=
  match servers with
  | [] => []
  | n :: servers =>
      if answered then mkEntry n [] NotAsked 0 :: runLoop servers true
      else match resolve n with
           | None => mkEntry n [] Unresolved 0 :: runLoop servers false
           | Some a =>
               match ask a with
               | Some st => mkEntry n a Replied st :: runLoop servers true
               | None => mkEntry n a NoReply 0 :: runLoop servers false
               end
           end
  end.

Definition run (servers : list bytes) : list NtpProbeEntry := runLoop servers false.

(** Servers are asked up to the first that answers, and every one has its entry. *)
Definition silent (n : bytes) : Prop := match resolve n with None => True | Some a => ask a = None end.

Lemma run_answered servers : runLoop servers true = (λ n, mkEntry n [] NotAsked 0) <$> servers.
Proof. induction servers as [|n l IH]; [done|]. cbn. by rewrite IH. Qed.

Theorem run_stops servers : name <$> run servers = servers ∧
  ∀ i e, run servers !! i = Some e →
    (verdict e = NotAsked ↔ ∃ j e', (j < i)%nat ∧ run servers !! j = Some e' ∧ verdict e' = Replied) ∧
    (verdict e = Replied → ∃ st, resolve (name e) = Some (ip e) ∧ ask (ip e) = Some st ∧ eStratum e = st).
Proof.
  unfold run. split.
  - cut (∀ b, name <$> runLoop servers b = servers); [by auto|].
    induction servers as [|n l IH]; intros b; [done|]. cbn [runLoop]. destruct b; [by cbn; rewrite IH|].
    destruct (resolve n); [destruct (ask _)|]; cbn; by rewrite IH.
  - induction servers as [|n l IH]; intros i e; [done|]. cbn [runLoop].
    assert (Hsilent : ∀ e0, verdict e0 ≠ Replied → verdict e0 ≠ NotAsked → (e0 :: runLoop l false) !! i = Some e →
      (verdict e = NotAsked ↔ ∃ j e', (j < i)%nat ∧ (e0 :: runLoop l false) !! j = Some e' ∧ verdict e' = Replied) ∧
      (verdict e = Replied → ∃ st, resolve (name e) = Some (ip e) ∧ ask (ip e) = Some st ∧ eStratum e = st)).
    { intros e0 H1 H2 He. destruct i as [|i]; [injection He as <-; split; [|done]; split; [done|intros (j & ? & ? & _); lia]|].
      destruct (IH i e He) as [IH1 IH2]. split; [|done]. rewrite IH1. split.
      - intros (j & e' & Hj & He' & Hv). exists (S j), e'. split_and!; done || lia.
      - intros ([|j] & e' & Hj & He' & Hv); [by injection He' as ->|]. exists j, e'. split_and!; done || lia. }
    destruct (resolve n) as [a|] eqn:Er; [destruct (ask a) as [st|] eqn:Ea|]; [|by apply Hsilent..].
    rewrite run_answered. intros He. destruct i as [|i].
    + injection He as <-. cbn. split; [split; [done|intros (j & ? & ? & _); lia]|]. intros _. by exists st.
    + change (((λ n, mkEntry n [] NotAsked 0) <$> l) !! i = Some e) in He. rewrite list_lookup_fmap in He. destruct (l !! i) as [m|]; [|done]. injection He as <-. cbn. split; [|done].
      split; [|done]. intros _. exists 0%nat, (mkEntry n a Replied st). split_and!; done || lia.
Qed.

End Run.

(** A request names its own moment; no stale or forged answer passes for a reply. *)
Lemma request_wf s u : is_u32 s → 0 <= u < kUsecPerSecond →
  ∃ p, ntpProbeBuildRequest s u = packetBytes p ∧ wf_packet p ∧ ntpMode p = kNtpModeClient ∧ ntpVersion p = 4 ∧
    txTsSec p = toBe32 (unixToNtp s u).1 ∧ txTsFrac p = toBe32 (unixToNtp s u).2.
Proof.
  intros Hs Hu. unfold ntpProbeBuildRequest. destruct (unixToNtp s u) as [a b] eqn:E.
  eexists. split; [reflexivity|]. cbn [liVnMode txTsSec txTsFrac ntpMode ntpVersion].
  destruct (unixToNtp_usec s u Hu) as [Hb _]. rewrite E in Hb. cbn [snd] in Hb.
  assert (Ha : is_u32 a) by (unfold unixToNtp in E; injection E as <- <-; apply u32_range).
  destruct (liVnMode_spec kNtpLeapNoWarning kNtpProbeVersion kNtpModeClient) as (H1 & H2 & H3 & _);
    [unfold kNtpLeapNoWarning|unfold kNtpProbeVersion|unfold kNtpModeClient|]; try lia.
  split_and!; try done. unfold wf_packet. cbn. split_and!; try (unfold is_u8; lia); [exact H1|].
  repeat (apply Forall_cons; split; [by (apply toBe32_range || (unfold is_u32; lia))|]). constructor.
Qed.

End NtpProbe.

(** ** The journal's words *)

Module NtpLogFormat.

Definition kNtpLogNoClockMark : bytes := lit " (clock not verified)".

Inductive NtpDnsVerdict := DnsOk | DnsFailed | DnsPending.

Definition ntpDnsVerdictText (v : NtpDnsVerdict) (resolvedIp : bytes) : bytes :=
  match v with
  | DnsOk => lit "DNS -> " ++ resolvedIp
  | DnsFailed => lit "DNS lookup failed"
  | DnsPending => lit "DNS lookup still pending"
  end.

Definition ntpResolverChainText (deviceIp upstreamDns gateway : bytes) : bytes :=
  let or_unset t := if bool_decide (t = []) then lit "not set" else t in
  lit "resolver: this device (" ++ or_unset deviceIp ++ lit "), upstream " ++ or_unset upstreamDns ++
  lit ", gateway " ++ or_unset gateway.

Definition ntpSyncStateText (waitedSec : Z) (server dnsVerdict : bytes) : bytes :=
  lit "still not synchronised: " ++ dec waitedSec ++ lit " s since the client started, server=" ++ server ++
  lit ", no confirmed reply yet (" ++ dnsVerdict ++ lit ")".

Definition ntpSyncStateDelaySec (index : nat) : Z :=
  if (index <? 3)%nat then 60
  else if (index =? 3)%nat then 120
  else if (index =? 3 + 1)%nat then 300
  else 600.

Definition ntpLogClockShiftText (prevUtcSec prevUptimeSec nowUtcSec nowUptimeSec : Z) (prevClockSet : bool) : bytes :=
  if negb prevClockSet then lit "the clock had no real time yet"
  else
    let elapsed := nowUptimeSec - prevUptimeSec in
    let shift := nowUtcSec - (prevUtcSec + elapsed) in
    if 0 <? shift then lit "the clock was " ++ dec shift ++ lit " s behind"
    else if shift <? 0 then lit "the clock was " ++ dec (- shift) ++ lit " s ahead"
    else lit "the clock was already right".

(** The lines grow apart, to ten minutes at most. *)
Lemma delay_grows i j : (i <= j)%nat → 60 <= ntpSyncStateDelaySec i <= ntpSyncStateDelaySec j ∧ ntpSyncStateDelaySec j <= 600.
Proof.
  intros Hij. unfold ntpSyncStateDelaySec.
  destruct (Nat.ltb_spec i 3), (Nat.ltb_spec j 3), (Nat.eqb_spec i 3), (Nat.eqb_spec j 3), (Nat.eqb_spec i (3 + 1)), (Nat.eqb_spec j (3 + 1)); lia.
Qed.

End NtpLogFormat.
