(* ===== verification/TimeServer.v ===== *)
(** * The NTP server

    The task of src/time/TimeServer.cpp that answers the clients of the network:
    its access control (the subnet filter of [Subnet], the DHCP side's policy, the
    rate limiter), the reply, one turn of its loop, its start and stop. The clock
    client of the same class is TimeSync.v. *)
From S2P Require Import Prelude Subnet NtpWire.
From stdpp Require Import gmap.
#[local] Open Scope Z_scope.

Module TimeServer.

Import NtpMessage.

Definition kStratum : Z := 3.
Definition kRateSlots : nat := 8.
Definition kReceiveBytes : nat := 128.
Definition kDropLogMs : Z := 5000.
Definition kWindowMs : Z := 1000.

(** ** The rate limiter *)

(** Address 0: the slot is free. *)
Record RateSlot := mkSlot { ip : Z; windowStartMs : Z; count : Z }.
Definition freeSlot : RateSlot := mkSlot 0 0 0.

(** The slots from [i] on; [oldest]: the slot with the oldest window before it. *)
Fixpoint rateScan (limit clientIp nowMs : Z) (rest : list RateSlot) (i oldest : nat) (oldestMs : Z)
  (slots : list RateSlot) : bool * list RateSlot :=
  match rest with
  | [] => (false, <[oldest := mkSlot clientIp nowMs 1]> slots)
  | slot :: rest =>
      if ip slot =? clientIp then
        let slot := if kWindowMs <=? u64 (nowMs - windowStartMs slot) then mkSlot (ip slot) nowMs 0 else slot in
        if limit <=? count slot then (true, <[i := slot]> slots)
        else (false, <[i := mkSlot (ip slot) (windowStartMs slot) (u32 (count slot + 1))]> slots)
      else if ip slot =? 0 then (false, <[i := mkSlot clientIp nowMs 1]> slots)
      else if windowStartMs slot <? oldestMs then rateScan limit clientIp nowMs rest (S i) i (windowStartMs slot) slots
      else rateScan limit clientIp nowMs rest (S i) oldest oldestMs slots
  end.

Definition rateLimited (limit clientIp nowMs : Z) (slots : list RateSlot) : bool * list RateSlot :=
  if limit =? 0 then (false, slots)
  else rateScan limit clientIp nowMs slots 0 0 (windowStartMs (hd freeSlot slots)) slots.

(** ** The server's members *)

Inductive TimeServerState := STOPPED | RUNNING | ERROR.
#[global] Instance TimeServerState_eq : EqDecision TimeServerState.
Proof. solve_decision. Defined.

Record Server := mkServer {
  state : TimeServerState; stopRequested : bool; taskHandle : bool; synced : bool; stratum_ : Z;
  subnetFilter : Subnet.Filter; onlyAllowedComputers : bool; rateLimitPerSec : Z; rateSlots : list RateSlot;
  foreignDropped : Z; notAllowedDropped : Z; rateLimited_ : Z; lastDropLogMs : Z;
}.

Definition create : Server :=
  mkServer STOPPED false false false kStratum (Subnet.apply (Subnet.mkSettings false [] [])) false 5
    (replicate kRateSlots freeSlot) 0 0 0 0.

Definition set_state st (s : Server) : Server :=
  mkServer st (stopRequested s) (taskHandle s) (synced s) (stratum_ s) (subnetFilter s) (onlyAllowedComputers s)
    (rateLimitPerSec s) (rateSlots s) (foreignDropped s) (notAllowedDropped s) (rateLimited_ s) (lastDropLogMs s).
Definition set_task stop h (s : Server) : Server :=
  mkServer (state s) stop h (synced s) (stratum_ s) (subnetFilter s) (onlyAllowedComputers s)
    (rateLimitPerSec s) (rateSlots s) (foreignDropped s) (notAllowedDropped s) (rateLimited_ s) (lastDropLogMs s).
Definition set_gate f o r (s : Server) : Server :=
  mkServer (state s) (stopRequested s) (taskHandle s) (synced s) (stratum_ s) f o r
    (rateSlots s) (foreignDropped s) (notAllowedDropped s) (rateLimited_ s) (lastDropLogMs s).
Definition set_slots l (s : Server) : Server :=
  mkServer (state s) (stopRequested s) (taskHandle s) (synced s) (stratum_ s) (subnetFilter s) (onlyAllowedComputers s)
    (rateLimitPerSec s) l (foreignDropped s) (notAllowedDropped s) (rateLimited_ s) (lastDropLogMs s).
Definition set_counts f n r (s : Server) : Server :=
  mkServer (state s) (stopRequested s) (taskHandle s) (synced s) (stratum_ s) (subnetFilter s) (onlyAllowedComputers s)
    (rateLimitPerSec s) (rateSlots s) f n r (lastDropLogMs s).
Definition set_lastDropLog t (s : Server) : Server :=
  mkServer (state s) (stopRequested s) (taskHandle s) (synced s) (stratum_ s) (subnetFilter s) (onlyAllowedComputers s)
    (rateLimitPerSec s) (rateSlots s) (foreignDropped s) (notAllowedDropped s) (rateLimited_ s) t.

(** The two filters and the limit, from the settings. *)
Definition applyAccessFilter (allowOwnSubnet onlyAllowed : bool) (rate : Z) (serverIp subnet : bytes) (s : Server) : Server :=
  set_gate (Subnet.apply (Subnet.mkSettings allowOwnSubnet serverIp subnet)) onlyAllowed rate s.

(** ** One request *)

(** What surrounds a turn: the DHCP side's answer for an address (asked only when it is
    wired), the uptime, the clock, [inet_ntop]. *)
Record Env := mkEnv {
  dhcpAllows : option (Z → bool → bool);
  uptimeUs : Z;
  clockSec : Z; clockUsec : Z;
  ntop : Z → bytes;
}.

(** What a turn does: a datagram to a peer, a line of the request log, a console line. *)
Inductive Output :=
  | Send (to : Z) (data : bytes)
  | LogRequest (client : bytes) (st : Z) (clockVerified : bool)
  | LogDropped (client reason : bytes) (foreign notAllowed rate : Z).

(** The reason a request is dropped for, and the members afterwards. *)
Definition admit_ (env : Env) (from nowMs : Z) (s : Server) : option bytes * Server :=
  let clientAddr := ntohl from in
  if Subnet.active (subnetFilter s) && negb (Subnet.allows (subnetFilter s) clientAddr) then
    (Some (lit "outside the local subnet"), set_counts (u32 (foreignDropped s + 1)) (notAllowedDropped s) (rateLimited_ s) s)
  else if match dhcpAllows env with None => false | Some ask => negb (ask from (onlyAllowedComputers s)) end then
    (Some (lit "not an allowed computer"), set_counts (foreignDropped s) (u32 (notAllowedDropped s + 1)) (rateLimited_ s) s)
  else
    let '(limited, slots) := rateLimited (rateLimitPerSec s) clientAddr nowMs (rateSlots s) in
    let s := set_slots slots s in
    if limited : bool then
      (Some (lit "rate limit exceeded"), set_counts (foreignDropped s) (notAllowedDropped s) (u32 (rateLimited_ s + 1)) s)
    else (None, s).

(** The packet of a reply. The stamps of this moment are reference, receive and
    transmit; the client's own transmit stamp comes back as it was. *)
Definition reply (unsynced : bool) (st : Z) (req : NtpPacket) (nowSec nowUsec : Z) : NtpPacket :=
  let vn := if ntpVersion req <? kNtpVersionMin then kNtpVersionFallback else ntpVersion req in
  let '(refSec, refFrac) := unixToNtp nowSec 0 in
  let '(recvSec, recvFrac) := unixToNtp nowSec nowUsec in
  mkPacket
    (ntpMakeLiVnMode (if unsynced then kNtpLeapNotSynchronized else kNtpLeapNoWarning) vn kNtpModeServer)
    (if unsynced then kNtpStratumUnsynchronized else st)
    (poll req) kNtpPrecisionUs
    (toBe32 kNtpOneSecond16_16) (toBe32 kNtpOneSecond16_16) (toBe32 kNtpRefIdLocal)
    (toBe32 refSec) (toBe32 refFrac)
    (txTsSec req) (txTsFrac req)
    (toBe32 recvSec) (toBe32 recvFrac) (toBe32 recvSec) (toBe32 recvFrac).

(** What follows [recvfrom]. *)
Definition handle (env : Env) (data : bytes) (from : Z) (s : Server) : list Output * Server :=
  let buf := take kReceiveBytes data in
  if (length buf <? kNtpPacketBytes)%nat then ([], s)
  else
    let req := packetOf buf in
    let mode := ntpMode req in
    if negb (mode =? kNtpModeClient) && negb (mode =? kNtpModeSymmetricActive) then ([], s)
    else
      let nowMs := u64 (uptimeUs env / 1000) in
      match admit_ env from nowMs s with
      | (Some reason, s) =>
          if kDropLogMs <=? u64 (nowMs - lastDropLogMs s) then
            ([LogDropped (ntop env from) reason (foreignDropped s) (notAllowedDropped s) (rateLimited_ s)],
             set_lastDropLog nowMs s)
          else ([], s)
      | (None, s) =>
          let unsynced := negb (synced s) in
          let resp := reply unsynced (stratum_ s) req (u32 (clockSec env)) (u32 (clockUsec env)) in
          ([Send from (packetBytes resp); LogRequest (ntop env from) (stratum resp) (negb unsynced)], s)
      end.

(** ** The task *)

(** What [select] ends with, or the flag the loop's head finds. *)
Inductive Wake :=
  | StopAsked
  | Quiet
  | Packet (env : Env) (data : bytes) (from : Z).

Fixpoint serverLoop_ (wakes : list Wake) (s : Server) : list Output * Server :=
  match wakes with
  | [] => ([], s)
  | w :: wakes =>
      if stopRequested s then ([], s)
      else match w with
           | StopAsked => serverLoop_ wakes (set_task true (taskHandle s) s)
           | Quiet => serverLoop_ wakes s
           | Packet env data from =>
               let '(out, s) := handle env data from s in
               let '(more, s) := serverLoop_ wakes s in (out ++ more, s)
           end
  end.

(** [socket] and [bind] may fail: the task ends, and says so in [state_]. *)
Definition serverLoop (socketOk bindOk : bool) (wakes : list Wake) (s : Server) : list Output * Server :=
  if negb socketOk then ([], set_state ERROR s)
  else if negb bindOk then ([], set_state ERROR s)
  else serverLoop_ wakes s.

Definition serverTask (socketOk bindOk : bool) (wakes : list Wake) (s : Server) : list Output * Server :=
  let '(out, s) := serverLoop socketOk bindOk wakes s in (out, set_task (stopRequested s) false s).

(** [start] up to the creation of the task, and after it: the task may have run in
    between. *)
Definition startBefore (gate : Server → Server) (s : Server) : bool * Server :=
  if bool_decide (state s = RUNNING) then (false, s)
  else (true, gate (set_task false (taskHandle s) s)).

Definition startAfter (created : bool) (s : Server) : bool * Server :=
  if created then (true, set_state RUNNING s) else (false, set_state ERROR s).

(** A start the task does not overtake. *)
Definition start (gate : Server → Server) (created : bool) (s : Server) : bool * Server :=
  let '(go, s) := startBefore gate s in
  if negb go then (true, s)
  else startAfter created (set_task (stopRequested s) created s).

(** [ended]: the task has seen the flag within the second it is given. *)
Definition stop (ended : bool) (s : Server) : Server :=
  if bool_decide (state s = STOPPED) then s
  else set_state STOPPED (set_task true (taskHandle s && negb ended) s).

Definition stateString (s : Server) : bytes :=
  match state s with RUNNING => lit "running" | ERROR => lit "error" | STOPPED => lit "stopped" end.

(** ** The rate limiter's promise *)

(** One client's slot on its own. *)
Definition slotStep (limit now : Z) (v : option (Z * Z)) : bool * (Z * Z) :=
  match v with
  | None => (false, (now, 1))
  | Some (w, n) =>
      let '(w, n) := if kWindowMs <=? now - w then (now, 0) else (w, n) in
      if limit <=? n then (true, (w, n)) else (false, (w, n + 1))
  end.

Definition view (c : Z) (slots : list RateSlot) : option (Z * Z) :=
  (λ s, (windowStartMs s, count s)) <$> List.find (λ s, ip s =? c) slots.

(** The used slots come first, one for a client. *)
Definition used (U : list Z) (slots : list RateSlot) : Prop :=
  ∃ l k, slots = l ++ replicate k freeSlot ∧ (length l + k = kRateSlots)%nat ∧ NoDup (ip <$> l) ∧ Forall (λ s, ip s ∈ U) l.

Definition others (c : Z) (l : list RateSlot) : Prop := Forall (λ s, ip s ≠ c ∧ ip s ≠ 0) l.

Lemma insert_middle {A} (l1 l2 : list A) x y : <[length l1 := y]> (l1 ++ x :: l2) = l1 ++ y :: l2.
Proof. rewrite insert_app_r_alt by lia. by rewrite Nat.sub_diag. Qed.

(** What the scan makes of the client's own slot. *)
Definition touched (limit now : Z) (slot : RateSlot) : bool * RateSlot :=
  let s := if kWindowMs <=? u64 (now - windowStartMs slot) then mkSlot (ip slot) now 0 else slot in
  if limit <=? count s then (true, s) else (false, mkSlot (ip s) (windowStartMs s) (u32 (count s + 1))).

Lemma rateScan_finds limit c now slot l1 : ∀ pre l2 oldest oldestMs, others c l1 → ip slot = c ∨ ip slot = 0 →
  rateScan limit c now (l1 ++ slot :: l2) (length pre) oldest oldestMs (pre ++ l1 ++ slot :: l2) =
  let r := if ip slot =? c then touched limit now slot else (false, mkSlot c now 1) in
  (r.1, pre ++ l1 ++ r.2 :: l2).
Proof.
  induction l1 as [|x l1 IH]; intros pre l2 oldest oldestMs Ho Hs; cbn [app rateScan].
  - destruct (Z.eqb_spec (ip slot) c) as [E|E]; [|destruct Hs as [|Hs]; [done|]; rewrite Hs; cbn [Z.eqb]; by rewrite insert_middle].
    unfold touched. cbv zeta. rewrite !insert_middle. set (s1 := if kWindowMs <=? _ then _ else _).
    assert (Hi : ip s1 = ip slot) by (unfold s1; by destruct (kWindowMs <=? _)).
    destruct (limit <=? count s1); by rewrite ?Hi.
  - apply Forall_cons in Ho as [[H1 H2] Ho]. rewrite (proj2 (Z.eqb_neq _ _) H1), (proj2 (Z.eqb_neq _ _) H2).
    replace (S (length pre)) with (length (pre ++ [x])) by (rewrite length_app; cbn; lia).
    replace (pre ++ x :: l1 ++ slot :: l2) with ((pre ++ [x]) ++ l1 ++ slot :: l2) by (by rewrite <- app_assoc).
    destruct (windowStartMs x <? oldestMs); rewrite IH by done; cbv zeta; by rewrite <- !app_assoc.
Qed.

Lemma view_app c l1 l2 : others c l1 → view c (l1 ++ l2) = view c l2.
Proof.
  unfold view. induction 1 as [|x l1 [H _] _ IH]; [done|]. cbn [app List.find]. by rewrite (proj2 (Z.eqb_neq _ _) H).
Qed.

Lemma view_other d l1 x y l2 : ip x ≠ d → ip y ≠ d → view d (l1 ++ x :: l2) = view d (l1 ++ y :: l2).
Proof.
  intros Hx Hy. unfold view. induction l1 as [|z l1 IH]; cbn [app List.find].
  - by rewrite (proj2 (Z.eqb_neq _ _) Hx), (proj2 (Z.eqb_neq _ _) Hy).
  - by destruct (ip z =? d).
Qed.

Lemma view_free c k : c ≠ 0 → view c (replicate k freeSlot) = None.
Proof. intros Hc. induction k as [|k IH]; [done|]. unfold view in *. cbn [replicate List.find ip freeSlot].
  destruct (Z.eqb_spec 0 c); [by subst|exact IH]. Qed.

(** The client's slot, or the first free one. *)
Lemma find_slot U c slots : used U slots → c ∈ U → 0 ∉ U → (length U <= kRateSlots)%nat →
  ∃ l1 slot l2, slots = l1 ++ slot :: l2 ∧ others c l1 ∧ (ip slot = c ∨ slot = freeSlot ∧ ∃ k, l2 = replicate k freeSlot) ∧
    (∀ slot', ip slot' = c → used U (l1 ++ slot' :: l2)).
Proof.
  intros (l & k & -> & Hk & Hnd & Hin) Hc H0 HU.
  assert (Hne : ∀ s, ip s ∈ U → ip s ≠ 0) by (intros s Hs E; by rewrite E in Hs).
  destruct (decide (c ∈ ip <$> l)) as [Hl|Hl].
  - apply list_elem_of_fmap in Hl as (s & -> & (l1 & l2 & ->)%list_elem_of_split).
    rewrite fmap_app, fmap_cons in Hnd. pose proof Hnd as (Hn1 & Hn2 & Hn3)%NoDup_app.
    apply Forall_app in Hin as [Hin1 [Hs Hin2]%Forall_cons].
    exists l1, s, (l2 ++ replicate k freeSlot). split_and!; [by rewrite <- app_assoc| |by left|].
    + apply Forall_forall. intros x Hx. split; [|apply Hne; by eapply Forall_forall in Hin1].
      intros E. apply (Hn2 (ip s)); [rewrite <- E; by apply list_elem_of_fmap_2|by left].
    + intros s' Es. exists (l1 ++ s' :: l2), k. split_and!; [by rewrite <- app_assoc|by rewrite length_app in *| |].
      * by rewrite fmap_app, fmap_cons, Es.
      * apply Forall_app. split; [done|]. apply Forall_cons. by rewrite Es.
  - assert (Hlen : (length l < length U)%nat).
    { enough (length (c :: (ip <$> l)) <= length U)%nat as H by (cbn in H; rewrite length_fmap in H; lia).
      apply NoDup_incl_length; [apply NoDup_ListNoDup; by constructor|].
      intros x Hx. apply list_elem_of_In in Hx. apply list_elem_of_In. apply elem_of_cons in Hx as [->|Hx]; [done|].
      apply list_elem_of_fmap in Hx as (s & -> & Hs). by eapply Forall_forall in Hin. }
    destruct k as [|k]; [lia|]. exists l, freeSlot, (replicate k freeSlot). split_and!; [done| |right; eauto|].
    + apply Forall_forall. intros x Hx. split; [intros <-; apply Hl; by apply list_elem_of_fmap_2|].
      apply Hne. by eapply Forall_forall in Hin.
    + intros s' Es. exists (l ++ [s']), k. split_and!; [by rewrite <- app_assoc|rewrite length_app; cbn; lia| |].
      * rewrite fmap_app. apply NoDup_app. split_and!; [done| |apply NoDup_singleton].
        intros x Hx. cbn. rewrite Es. intros ->%list_elem_of_singleton. done.
      * apply Forall_app. split; [done|]. apply Forall_singleton. by rewrite Es.
Qed.

Lemma touched_step limit now w n c : 0 < limit < 2 ^ 32 → 0 <= w <= now → now < 2 ^ 63 → 0 <= n <= limit →
  let r := touched limit now (mkSlot c w n) in
  (r.1, (windowStartMs r.2, count r.2)) = slotStep limit now (Some (w, n)) ∧ ip r.2 = c.
Proof.
  intros Hl Hw Hn Hc. unfold touched, slotStep. cbn [windowStartMs count ip]. rewrite u64_small by (unfold is_u64; lia).
  destruct (kWindowMs <=? now - w); cbn [windowStartMs count ip];
    match goal with |- context [limit <=? ?x] => destruct (Z.leb_spec limit x) end; cbn [fst snd windowStartMs count ip];
    rewrite ?u32_small by (unfold is_u32; lia); done.
Qed.

(** What is known of a client's window: it began in the past, and never more replies
    were counted in it than the limit. *)
Definition sane (limit now : Z) (v : option (Z * Z)) : Prop :=
  match v with None => True | Some (w, n) => 0 <= w <= now ∧ 1 <= n <= limit end.

Lemma slotStep_sane limit now t v : 0 < limit → sane limit now v → 0 <= now <= t → sane limit t (Some (slotStep limit t v).2).
Proof.
  intros Hl Hv Ht. unfold slotStep. destruct v as [[w n]|]; cbn in *; [|lia].
  destruct (kWindowMs <=? t - w); match goal with |- context [limit <=? ?x] => destruct (Z.leb_spec limit x) end; cbn; lia.
Qed.

Lemma rate_step limit U c now slots : 0 < limit < 2 ^ 32 → used U slots → c ∈ U → 0 ∉ U → (length U <= kRateSlots)%nat →
  0 <= now < 2 ^ 63 → sane limit now (view c slots) →
  let r := rateLimited limit c now slots in
  used U r.2 ∧ (r.1, Some (slotStep limit now (view c slots)).2) = ((slotStep limit now (view c slots)).1, view c r.2) ∧
  ∀ d, d ∈ U → d ≠ c → view d r.2 = view d slots.
Proof.
  intros Hl Hu Hc H0 HU Hnow Hsane. destruct (find_slot U c slots Hu Hc H0 HU) as (l1 & slot & l2 & -> & Ho & Hs & Hfill).
  assert (Hc0 : c ≠ 0) by (by intros ->). unfold rateLimited. rewrite (proj2 (Z.eqb_neq limit 0)) by lia.
  pose proof (rateScan_finds limit c now slot l1 [] l2) as E. cbn [length app] in E.
  rewrite E by (done || (destruct Hs as [|[-> _]]; [by left|by right])). clear E. cbv zeta. cbn [fst snd].
  rewrite view_app in Hsane |- * by done. destruct (Z.eqb_spec (ip slot) c) as [Ei|Ei].
  - assert (Ev : view c (slot :: l2) = Some (windowStartMs slot, count slot)).
    { unfold view. cbn [List.find]. by rewrite Ei, Z.eqb_refl. }
    rewrite Ev in Hsane |- *. destruct slot as [i w n]. cbn in Ei. subst i. cbn in Hsane.
    destruct (touched_step limit now w n c) as [E1 E2]; [lia..|]. cbv zeta in E1, E2. cbn [windowStartMs count].
    rewrite <- E1. cbn [fst snd]. split_and!; [by apply Hfill| |].
    + rewrite view_app by done. unfold view. cbn [List.find]. by rewrite E2, Z.eqb_refl.
    + intros d Hd Hdc. apply view_other; cbn; congruence.
  - destruct Hs as [|[-> [k ->]]]; [done|].
    rewrite (view_free c (S k) Hc0 : view c (freeSlot :: replicate k freeSlot) = None). cbn [slotStep fst snd]. split_and!; [by apply Hfill| |].
    + rewrite view_app by done. unfold view. cbn [List.find ip]. by rewrite Z.eqb_refl.
    + intros d Hd Hdc. apply view_other; cbn; [by intros <-|congruence].
Qed.

(** Requests in turn, and the replies one client is granted from [a] on for a second. *)
Fixpoint serve (limit : Z) (reqs : list (Z * Z)) (slots : list RateSlot) : list bool :=
  match reqs with
  | [] => []
  | (c, t) :: reqs => let '(b, slots) := rateLimited limit c t slots in b :: serve limit reqs slots
  end.

Fixpoint granted (c a : Z) (reqs : list (Z * Z)) (dropped : list bool) : Z :=
  match reqs, dropped with
  | (d, t) :: reqs, b :: dropped =>
      (if (d =? c) && (a <=? t) && (t <? a + kWindowMs) && negb b then 1 else 0) + granted c a reqs dropped
  | _, _ => 0
  end.

Fixpoint inOrder (now : Z) (reqs : list (Z * Z)) : Prop :=
  match reqs with [] => True | (_, t) :: reqs => now <= t < 2 ^ 63 ∧ inOrder t reqs end.

(** What may still be granted within the second that begins at [a], at the moment [now]. *)
Definition budget (limit a now : Z) (v : option (Z * Z)) : Z :=
  match v with
  | None => 2 * limit - 1
  | Some (w, n) => if a <=? w then limit - n else if now <? a then 2 * limit - 1 else 2 * limit - n
  end.

Lemma budget_step limit a now t v : 0 < limit → sane limit now v → 0 <= now <= t →
  let r := slotStep limit t v in
  (if (a <=? t) && (t <? a + kWindowMs) && negb r.1 then 1 else 0) + (if a + kWindowMs <=? t then 0 else budget limit a t (Some r.2))
    <= budget limit a now v.
Proof.
  intros Hl Hv Ht r. unfold r, slotStep, budget, kWindowMs. destruct v as [[w n]|]; cbn in Hv.
  - destruct (Z.leb_spec 1000 (t - w)); match goal with |- context [if limit <=? ?x then (true, _) else _] => destruct (Z.leb_spec limit x) end; cbn [fst snd negb];
      destruct (Z.leb_spec a t), (Z.ltb_spec t (a + 1000)), (Z.leb_spec (a + 1000) t), (Z.leb_spec a w), (Z.ltb_spec now a), (Z.ltb_spec t a); cbn [andb]; lia.
  - cbn [fst snd negb]. destruct (Z.leb_spec a t), (Z.ltb_spec t (a + 1000)), (Z.leb_spec (a + 1000) t), (Z.ltb_spec t a); cbn [andb]; lia.
Qed.

Lemma budget_nonneg limit a now t v : sane limit now v → 0 < limit → 0 <= budget limit a t v.
Proof. unfold budget. destruct v as [[w n]|]; cbn; [|lia]. destruct (a <=? w), (t <? a); lia. Qed.

Lemma budget_later limit a now t v : sane limit now v → now <= t → budget limit a t v <= budget limit a now v.
Proof.
  intros Hv Ht. unfold budget. destruct v as [[w n]|]; cbn in Hv; [|lia].
  destruct (a <=? w), (Z.ltb_spec t a), (Z.ltb_spec now a); lia.
Qed.

Lemma granted_late limit c a reqs : ∀ now slots, inOrder now reqs → a + kWindowMs <= now →
  granted c a reqs (serve limit reqs slots) = 0.
Proof.
  induction reqs as [|[d t] reqs IH]; intros now slots H Ha; [done|]. destruct H as [[H1 _] H].
  cbn [serve]. destruct (rateLimited limit d t slots) as [b slots']. cbn [granted].
  rewrite (proj2 (Z.ltb_ge t (a + kWindowMs))), andb_false_r by lia. cbn [andb]. by rewrite (IH t) by (done || lia).
Qed.

Lemma granted_bound limit U c a reqs : 0 < limit < 2 ^ 32 → 0 ∉ U → (length U <= kRateSlots)%nat → c ∈ U →
  ∀ now slots, 0 <= now → used U slots → (∀ d, d ∈ U → sane limit now (view d slots)) → Forall (λ r, r.1 ∈ U) reqs → inOrder now reqs →
  granted c a reqs (serve limit reqs slots) <= budget limit a now (view c slots).
Proof.
  intros Hl H0 HU Hc. induction reqs as [|[d t] reqs IH]; intros now slots Hnow Hu Hs Hin Ho.
  - cbn. by apply (budget_nonneg limit a now now); [apply Hs|lia].
  - apply Forall_cons in Hin as [Hd Hin]. destruct Ho as [Ht Ho]. cbn in Hd.
    assert (Hs' : ∀ e, e ∈ U → sane limit t (view e slots)).
    { intros e He. specialize (Hs e He). destruct (view e slots) as [[w n]|]; cbn in *; lia. }
    destruct (rate_step limit U d t slots Hl Hu Hd H0 HU) as (Hu' & Ev & Hother); [lia|by apply Hs'|].
    cbn [serve]. destruct (rateLimited limit d t slots) as [b slots'] eqn:Er. cbn [fst snd] in Hu', Ev, Hother.
    injection Ev as Eb Evd. cbn [granted].
    assert (Hs2 : ∀ e, e ∈ U → sane limit t (view e slots')).
    { intros e He. destruct (decide (e = d)) as [->|Hne]; [|rewrite Hother by done; by apply Hs'].
      rewrite <- Evd. apply (slotStep_sane limit t t); [lia|by apply Hs'|lia]. }
    specialize (IH t slots' ltac:(lia) Hu' Hs2 Hin Ho). destruct (Z.eqb_spec d c) as [->|Hdc]; cbn [andb].
    + pose proof (budget_step limit a now t (view c slots) ltac:(lia) (Hs c Hc) ltac:(lia)) as Hb. cbv zeta in Hb.
      rewrite <- Eb, Evd in Hb. destruct (Z.leb_spec (a + kWindowMs) t) as [Hlate|_]; [|lia].
      rewrite (granted_late limit c a reqs t slots') by done. lia.
    + rewrite Hother in IH by congruence. pose proof (budget_later limit a now t (view c slots) (Hs c Hc) ltac:(lia)). lia.
Qed.

(** C18: eight clients or fewer, whatever they send and in whatever order: no client
    is granted more than twice the limit, less one, within any second. *)
Theorem rate_bounded limit U c a reqs : 0 < limit < 2 ^ 32 → 0 ∉ U → (length U <= kRateSlots)%nat → c ∈ U →
  Forall (λ r, r.1 ∈ U) reqs → inOrder 0 reqs →
  granted c a reqs (serve limit reqs (rateSlots create)) <= 2 * limit - 1.
Proof.
  intros Hl H0 HU Hc Hin Ho. assert (Hv : ∀ d, d ∈ U → view d (rateSlots create) = None).
  { intros d Hd. apply (view_free d kRateSlots). by intros ->. }
  pose proof (granted_bound limit U c a reqs Hl H0 HU Hc 0 (rateSlots create)) as H. rewrite Hv in H by done.
  apply H; [lia| |by intros d Hd; rewrite Hv|done|done].
  exists [], kRateSlots. split_and!; [done|done|constructor|constructor].
Qed.

Lemma rate_bounded_witness :
  granted 7 0 [(7, 0); (7, 1); (7, 2)] (serve 2 [(7, 0); (7, 1); (7, 2)] (rateSlots create)) <= 2 * 2 - 1.
Proof.
  apply (rate_bounded 2 [7] 7 0 [(7, 0); (7, 1); (7, 2)]); [lia|by intros ?%list_elem_of_singleton|cbn; unfold kRateSlots; lia|by left| |].
  - repeat constructor.
  - cbn. lia.
Defined.

(** The window does not slide, so nine replies can go out within two milliseconds at a
    limit of five in a second; and a ninth client makes the table forget. *)
Example window_does_not_slide :
  let reqs := (7, 0) :: replicate 4 (7, 999) ++ replicate 6 (7, 1000) in
  granted 7 999 reqs (serve 5 reqs (rateSlots create)) = 9.
Proof. vm_compute. reflexivity. Qed.

Example ninth_client_forgotten :
  let reqs := concat (replicate 20 ((λ c, (c, 5)) <$> seqZ 1 9)) in
  granted 1 0 reqs (serve 5 reqs (rateSlots create)) = 20.
Proof. vm_compute. reflexivity. Qed.

(** ** What a request gets *)

Definition sends (out : list Output) : list (Z * bytes) :=
  omap (λ o, match o with Send to data => Some (to, data) | _ => None end) out.

Definition isRequest (data : bytes) : bool :=
  (kNtpPacketBytes <=? length (take kReceiveBytes data))%nat
  && ((ntpMode (packetOf data) =? kNtpModeClient) || (ntpMode (packetOf data) =? kNtpModeSymmetricActive)).

Definition drops (s : Server) : Z := foreignDropped s + notAllowedDropped s + rateLimited_ s.
Definition counting (s : Server) : Prop := is_u32 (foreignDropped s + 1) ∧ is_u32 (notAllowedDropped s + 1) ∧ is_u32 (rateLimited_ s + 1).

(** The reply says what it should: a server's packet in the client's version, the
    client's stamp, this moment, and the truth about the clock. *)
Definition answers (env : Env) (s : Server) (data b : bytes) : Prop :=
  let req := packetOf data in
  let p := packetOf b in
  length b = kNtpPacketBytes ∧ (length b <= length data)%nat ∧
  ntpMode p = kNtpModeServer ∧
  ntpVersion p = (if ntpVersion req <? kNtpVersionMin then kNtpVersionFallback else ntpVersion req) ∧
  Z.shiftr (liVnMode p) kNtpShiftLeap = (if synced s then kNtpLeapNoWarning else kNtpLeapNotSynchronized) ∧
  stratum p = (if synced s then stratum_ s else kNtpStratumUnsynchronized) ∧
  poll p = poll req ∧
  origTsSec p = txTsSec req ∧ origTsFrac p = txTsFrac req ∧
  let '(sec, frac) := unixToNtp (u32 (clockSec env)) (u32 (clockUsec env)) in
  fromBe32 (txTsSec p) = sec ∧ fromBe32 (txTsFrac p) = frac ∧
  recvTsSec p = txTsSec p ∧ recvTsFrac p = txTsFrac p ∧ fromBe32 (refTsSec p) = sec ∧ refTsFrac p = 0.

Lemma packetOf_take n b : (kNtpPacketBytes <= n)%nat → packetOf (take n b) = packetOf b.
Proof.
  intros Hn. assert (H : ∀ i, (i < kNtpPacketBytes)%nat → byteAt (take n b) i = byteAt b i).
  { intros i Hi. unfold byteAt. rewrite !nth_lookup, lookup_take_lt by lia. done. }
  unfold packetOf, wordAt. cbn [Nat.add]. by rewrite !H by (unfold kNtpPacketBytes; lia).
Qed.

Lemma packetOf_wf b : wf_bytes b → wf_packet (packetOf b).
Proof.
  intros Hb. assert (H : ∀ i, is_u8 (byteAt b i)).
  { intros i. unfold byteAt. destruct (nth_in_or_default i b 0) as [Hi| ->]; [|unfold is_u8; lia].
    apply list_elem_of_In in Hi. by eapply Forall_forall in Hi. }
  assert (Hw : ∀ i, is_u32 (wordAt b i)).
  { intros i. pose proof (H i). pose proof (H (i + 1)%nat). pose proof (H (i + 2)%nat). pose proof (H (i + 3)%nat).
    unfold wordAt, of_le4, is_u8, is_u32 in *. lia. }
  assert (Hs : ∀ i, -128 <= s8 (byteAt b i) < 128).
  { intros i. pose proof (H i). unfold s8, is_u8 in *. destruct (Z.ltb_spec (byteAt b i) 128); lia. }
  unfold wf_packet, packetOf. cbn. split_and!; try (apply H || apply Hs). repeat (apply Forall_cons; split; [apply Hw|]). constructor.
Qed.

Lemma reply_wf unsynced st req sec usec : wf_packet req → is_u8 st → is_u32 usec → usec < kUsecPerSecond →
  wf_packet (reply unsynced st req sec usec).
Proof.
  intros (_ & _ & Hp & _ & Hw) Hst [Hu0 _] Hu. unfold reply. destruct (unixToNtp sec 0) as [a b] eqn:E0. destruct (unixToNtp sec usec) as [c d] eqn:E1.
  pose proof (unixToNtp_usec sec usec ltac:(lia)) as [Hd _]. rewrite E1 in Hd. cbn in Hd.
  pose proof (unixToNtp_usec sec 0 ltac:(unfold kUsecPerSecond; lia)) as [Hb _]. rewrite E0 in Hb. cbn in Hb.
  assert (Ha : is_u32 a) by (unfold unixToNtp in E0; injection E0 as <- _; apply u32_range).
  assert (Hc : is_u32 c) by (unfold unixToNtp in E1; injection E1 as <- _; apply u32_range).
  pose proof (version_range req) as Hv.
  do 9 (apply Forall_cons in Hw as [_ Hw]). apply Forall_cons in Hw as [Ht1 Hw]. apply Forall_cons in Hw as [Ht2 _].
  unfold wf_packet. cbn [liVnMode stratum poll precision rootDelay rootDispersion refId refTsSec refTsFrac origTsSec origTsFrac recvTsSec recvTsFrac txTsSec txTsFrac].
  split_and!; [| |lia..|unfold kNtpPrecisionUs; lia|unfold kNtpPrecisionUs; lia|].
  - apply liVnMode_spec; destruct unsynced; unfold kNtpLeapNotSynchronized, kNtpLeapNoWarning, kNtpVersionMin, kNtpVersionFallback, kNtpModeServer; try lia;
      destruct (ntpVersion req <? 3); lia.
  - destruct unsynced; [unfold is_u8, kNtpStratumUnsynchronized; lia|done].
  - repeat (apply Forall_cons; split; [first [done|apply toBe32_range; first [done|unfold is_u32, kNtpOneSecond16_16, kNtpRefIdLocal; lia]]|]). constructor.
Qed.

Lemma admit_cases env from nowMs s :
  let r := admit_ env from nowMs s in
  (r.1 = None ∧ drops r.2 = drops s ∨ is_Some r.1 ∧ (counting s → drops r.2 = drops s + 1)) ∧
  synced r.2 = synced s ∧ stratum_ r.2 = stratum_ s ∧
  (r.1 = None ↔ Subnet.allows (subnetFilter s) (ntohl from) = true ∧
                 match dhcpAllows env with None => True | Some ask => ask from (onlyAllowedComputers s) = true end ∧
                 (rateLimited (rateLimitPerSec s) (ntohl from) nowMs (rateSlots s)).1 = false).
Proof.
  unfold admit_, counting, drops.
  assert (Hact : Subnet.active (subnetFilter s) && negb (Subnet.allows (subnetFilter s) (ntohl from)) =
                 negb (Subnet.allows (subnetFilter s) (ntohl from))).
  { unfold Subnet.allows. by destruct (Subnet.active (subnetFilter s)). }
  rewrite Hact. destruct (Subnet.allows (subnetFilter s) (ntohl from)); cbn [negb].
  2:{ cbn. split_and!; try done; [right; split; [by eexists|]|naive_solver]. intros (? & ? & ?). rewrite u32_small by (unfold is_u32 in *; lia). lia. }
  destruct (rateLimited (rateLimitPerSec s) (ntohl from) nowMs (rateSlots s)) as [lim slots] eqn:Er. cbn [fst].
  assert (Hrate : let r := (if lim : bool then (Some (lit "rate limit exceeded"), set_counts (foreignDropped (set_slots slots s)) (notAllowedDropped (set_slots slots s)) (u32 (rateLimited_ (set_slots slots s) + 1)) (set_slots slots s)) else (None, set_slots slots s)) in
     (r.1 = None ∧ drops r.2 = drops s ∨ is_Some r.1 ∧ (counting s → drops r.2 = drops s + 1)) ∧
     synced r.2 = synced s ∧ stratum_ r.2 = stratum_ s ∧ (r.1 = None ↔ lim = false)).
  { unfold counting, drops. destruct lim; cbn; split_and!; try done; [right; split; [by eexists|]|by left]. intros (? & ? & ?).
    rewrite u32_small by (unfold is_u32 in *; lia). lia. }
  cbv zeta in Hrate. unfold counting, drops in Hrate. destruct (dhcpAllows env) as [ask|].
  - destruct (ask from (onlyAllowedComputers s)); cbn [negb].
    + destruct Hrate as (H1 & H2 & H3 & H4). split_and!; try done. rewrite H4. naive_solver.
    + cbn. split_and!; try done; [right; split; [by eexists|]|naive_solver]. intros (? & ? & ?). rewrite u32_small by (unfold is_u32 in *; lia). lia.
  - destruct Hrate as (H1 & H2 & H3 & H4). split_and!; try done. rewrite H4. naive_solver.
Qed.

Lemma reply_answers env data s : wf_bytes data → is_u8 (stratum_ s) → is_u32 (clockUsec env) → clockUsec env < kUsecPerSecond →
  (kNtpPacketBytes <= length data)%nat →
  answers env s data (packetBytes (reply (negb (synced s)) (stratum_ s) (packetOf data) (u32 (clockSec env)) (u32 (clockUsec env)))).
Proof.
  intros Hwf Hst Hus Hus2 Hs.
  assert (Hreq : wf_packet (packetOf data)) by (by apply packetOf_wf).
  pose proof (reply_wf (negb (synced s)) (stratum_ s) (packetOf data) (u32 (clockSec env)) (u32 (clockUsec env)) Hreq Hst (u32_range _)) as Hw.
  rewrite (u32_small (clockUsec env)) in Hw |- * by done. specialize (Hw Hus2). unfold answers.
  pose proof (packetOf_bytes _ [] Hw) as Hp. rewrite app_nil_r in Hp. rewrite Hp. rewrite packetBytes_length.
  split; [done|]. split; [lia|]. clear Hp Hw.
  pose proof (version_range (packetOf data)) as Hv. rewrite (u32_small (clockUsec env)) by done. unfold reply.
  destruct (unixToNtp (u32 (clockSec env)) 0) as [a b] eqn:E0. destruct (unixToNtp (u32 (clockSec env)) (clockUsec env)) as [c d] eqn:E1.
  cbn [liVnMode stratum poll precision rootDelay rootDispersion refId refTsSec refTsFrac origTsSec origTsFrac recvTsSec recvTsFrac txTsSec txTsFrac ntpMode ntpVersion].
  assert (Hab : a = c ∧ b = 0) by (unfold unixToNtp in E0, E1; injection E0 as <- <-; injection E1 as <- _; done). destruct Hab as [-> ->].
  assert (Hc : is_u32 c) by (unfold unixToNtp in E1; injection E1 as <- _; apply u32_range).
  assert (Hdd : is_u32 d) by (pose proof (unixToNtp_usec (u32 (clockSec env)) (clockUsec env) ltac:(unfold is_u32 in *; lia)) as [Hx _]; by rewrite E1 in Hx).
  set (vn := if _ <? _ then _ else _).
  destruct (liVnMode_spec (if negb (synced s) then kNtpLeapNotSynchronized else kNtpLeapNoWarning) vn kNtpModeServer) as (_ & H2 & H3 & H4).
  { destruct (synced s); unfold kNtpLeapNotSynchronized, kNtpLeapNoWarning; cbn [negb]; lia. }
  { unfold vn, kNtpVersionFallback. destruct (_ <? _); lia. }
  { unfold kNtpModeServer; lia. }
  cbv zeta in H2, H3, H4. unfold ntpMode, ntpVersion. cbn [liVnMode]. rewrite H2, H3, H4, !fromBe32_toBe32 by done.
  destruct (synced s); cbn [negb]; split_and!; done.
Qed.

Definition served (env : Env) (data : bytes) (from : Z) (s : Server) : Prop :=
  let r := handle env data from s in
  let allowed := Subnet.allows (subnetFilter s) (ntohl from) = true ∧
    match dhcpAllows env with None => True | Some ask => ask from (onlyAllowedComputers s) = true end ∧
    (rateLimited (rateLimitPerSec s) (ntohl from) (u64 (uptimeUs env / 1000)) (rateSlots s)).1 = false in
  (isRequest data = true ∧ allowed ∧ ∃ b, sends r.1 = [(from, b)] ∧ answers env s data b ∧ drops r.2 = drops s) ∨
  (isRequest data = true ∧ ¬ allowed ∧ sends r.1 = [] ∧ drops r.2 = drops s + 1) ∨
  (isRequest data = false ∧ r = ([], s)).

Lemma handle_served env data from s : wf_bytes data → is_u8 (stratum_ s) → counting s →
  is_u32 (clockUsec env) → clockUsec env < kUsecPerSecond → served env data from s.
Proof.
  intros Hwf Hst Hcnt Hus Hus2. unfold served. set (r := handle env data from s). set (allowed := Subnet.allows _ _ = true ∧ _ ∧ _). unfold r, handle. unfold isRequest. rewrite packetOf_take by (unfold kNtpPacketBytes, kReceiveBytes; lia).
  destruct (Nat.ltb_spec (length (take kReceiveBytes data)) kNtpPacketBytes) as [Hs|Hs]; [rewrite (proj2 (Nat.leb_gt _ _)) by done; by right; right|].
  rewrite (proj2 (Nat.leb_le _ _)) by done. cbn [andb]. rewrite <- negb_orb.
  destruct (_ || _); cbn [negb]; [|by right; right].
  destruct (admit_cases env from (u64 (uptimeUs env / 1000)) s) as (Hd & Hsy & Hstr & Hiff). fold allowed in Hiff.
  destruct (admit_ env from (u64 (uptimeUs env / 1000)) s) as [[reason|] s']; cbn [fst snd] in *.
  - right; left. split; [done|]. split; [intros Ha; by apply Hiff in Ha|].
    destruct Hd as [[Hd _]|[_ Hd]]; [done|]. specialize (Hd Hcnt). by destruct (kDropLogMs <=? _).
  - left. split; [done|]. split; [by apply Hiff|]. destruct Hd as [[_ Hd]|[[? ?] _]]; [|done].
    eexists. split; [reflexivity|]. split; [|done]. rewrite Hsy, Hstr.
    apply reply_answers; try done. rewrite length_take in Hs. lia.
Qed.

(** C17: a datagram is answered, with one packet no longer than itself, exactly when it is a
    request of a client inside the subnet, allowed by the DHCP side and within the limit; a
    request that is dropped is counted once.  The packet gives back the client's stamp and
    says the moment of the reply and whether the clock is synchronised, at which stratum;
    its reference stamp is that moment too, where the comment at the code promises the last
    successful synchronisation ([reference_is_now]). *)
Theorem ntp_request_served env data from s : wf_bytes data → is_u8 (stratum_ s) → counting s →
  is_u32 (clockUsec env) → clockUsec env < kUsecPerSecond →
  let r := handle env data from s in
  let allowed := Subnet.allows (subnetFilter s) (ntohl from) = true ∧
    match dhcpAllows env with None => True | Some ask => ask from (onlyAllowedComputers s) = true end ∧
    (rateLimited (rateLimitPerSec s) (ntohl from) (u64 (uptimeUs env / 1000)) (rateSlots s)).1 = false in
  (isRequest data = true ∧ allowed ∧ ∃ b, sends r.1 = [(from, b)] ∧ answers env s data b ∧ drops r.2 = drops s) ∨
  (isRequest data = true ∧ ¬ allowed ∧ sends r.1 = [] ∧ drops r.2 = drops s + 1) ∨
  (isRequest data = false ∧ r = ([], s)).
Proof. exact (handle_served env data from s). Qed.

Lemma answers_probe env s data b s0 u0 : is_u32 s0 → 0 <= u0 < kUsecPerSecond → wf_bytes data →
  data = NtpProbe.ntpProbeBuildRequest s0 u0 → answers env s data b →
  NtpProbe.ntpProbeIsReply b data = Some (stratum (packetOf b)).
Proof.
  intros Hs Hu Hwf Hd (Hlen & Hle & Hm & Hv & _ & _ & _ & Ho1 & Ho2 & _).
  destruct (NtpProbe.request_wf s0 u0 Hs Hu) as (p & Ep & Hp & _ & Hver & _).
  assert (Hver' : ntpVersion (packetOf data) = 4).
  { rewrite Hd, Ep. pose proof (packetOf_bytes p [] Hp) as E. rewrite app_nil_r in E. by rewrite E. }
  unfold NtpProbe.ntpProbeIsReply. rewrite (proj2 (Nat.ltb_ge (length b) _)), (proj2 (Nat.ltb_ge (length data) _)) by lia.
  rewrite Hm, Z.eqb_refl, Hv, Hver', Ho1, Ho2, !Z.eqb_refl. done.
Qed.

(** The server's answer to this firmware's own probe passes the probe's check,
    with the stratum the clock deserves. *)
Theorem probe_answered env from s s0 u0 : is_u32 s0 → 0 <= u0 < kUsecPerSecond → is_u8 (stratum_ s) → counting s →
  is_u32 (clockUsec env) → clockUsec env < kUsecPerSecond →
  Subnet.allows (subnetFilter s) (ntohl from) = true → dhcpAllows env = None → rateLimitPerSec s = 0 →
  let request := NtpProbe.ntpProbeBuildRequest s0 u0 in
  ∃ b, sends (handle env request from s).1 = [(from, b)] ∧
    NtpProbe.ntpProbeIsReply b request = Some (if synced s then stratum_ s else kNtpStratumUnsynchronized).
Proof.
  intros Hs Hu Hst Hcnt Hus Hus2 Hsub Hdhcp Hrate request.
  destruct (NtpProbe.request_wf s0 u0 Hs Hu) as (p & Ep & Hp & Hmode & Hver & _).
  assert (Hwf : wf_bytes request).
  { unfold request. rewrite Ep. destruct Hp as (H1 & H2 & H3 & H4 & _). unfold packetBytes. apply wf_bytes_app. split.
    - repeat (apply Forall_cons; split; [first [done|apply u8_range]|]). constructor.
    - apply Forall_concat, Forall_fmap, Forall_true. intros x. apply le4_wf. }
  assert (Hpk : packetOf request = p).
  { unfold request. rewrite Ep. pose proof (packetOf_bytes p [] Hp) as E. by rewrite app_nil_r in E. }
  assert (Hreq : isRequest request = true).
  { unfold isRequest. rewrite Hpk, Hmode, Z.eqb_refl. cbn [orb]. rewrite andb_true_r. unfold request. by rewrite Ep. }
  pose proof (handle_served env request from s Hwf Hst Hcnt Hus Hus2) as [(_ & _ & b & Hb & Ha & _)|[(_ & Hna & _)|(Hn & _)]].
  - exists b. split; [exact Hb|]. rewrite (answers_probe env s request b s0 u0 Hs Hu Hwf eq_refl Ha). f_equal.
    by destruct Ha as (_ & _ & _ & _ & _ & ? & _).
  - destruct Hna. split; [done|]. rewrite Hdhcp. split; [done|]. unfold rateLimited. by rewrite Hrate.
  - congruence.
Qed.

Definition demoEnv : Env := mkEnv None 1000000 1700000000 250000 (λ _, lit "192.168.1.7").
Definition demoServer : Server := applyAccessFilter true false 5 (lit "192.168.1.1") (lit "255.255.255.0") create.
Definition demoRequest : bytes := NtpProbe.ntpProbeBuildRequest 1700000000 0.
(** 192.168.1.7, as the socket has it. *)
Definition demoPeer : Z := ntohl 3232235783.

Lemma ntp_request_served_witness :
  ∃ b, sends (handle demoEnv demoRequest demoPeer demoServer).1 = [(demoPeer, b)] ∧ answers demoEnv demoServer demoRequest b.
Proof.
  destruct (ntp_request_served demoEnv demoRequest demoPeer demoServer) as [(_ & _ & b & H1 & H2 & _)|[(_ & Hn & _)|(Hn & _)]].
  - apply (bool_decide_unpack (Forall is_u8 demoRequest)). vm_compute. exact I.
  - vm_compute. split; congruence.
  - vm_compute. repeat split; congruence.
  - vm_compute. split; congruence.
  - vm_compute. reflexivity.
  - by exists b.
  - exfalso. apply Hn. vm_compute. done.
  - exfalso. vm_compute in Hn. done.
Defined.

Lemma probe_answered_witness :
  ∃ b, sends (handle demoEnv demoRequest demoPeer (set_gate (subnetFilter demoServer) false 0 demoServer)).1 = [(demoPeer, b)] ∧
    NtpProbe.ntpProbeIsReply b demoRequest = Some 16.
Proof.
  apply (probe_answered demoEnv demoPeer (set_gate (subnetFilter demoServer) false 0 demoServer) 1700000000 0);
    first [reflexivity | unfold is_u32, is_u8, kUsecPerSecond; cbn; lia | vm_compute; repeat split; congruence].
Defined.

(** The task of a start may find its port taken before [start] goes on: [start] then
    overwrites what the task said, and from there on a start finds it running. *)
Example failed_bind_reported_running :
  let '(_, s) := startBefore id create in
  let '(_, s) := serverTask true false [] (set_task (stopRequested s) true s) in
  let '(ok, s) := startAfter true s in
  ok = true ∧ state s = RUNNING ∧ taskHandle s = false ∧ start id true s = (true, s).
Proof. done. Qed.

(** The reference stamp is this moment, not that of the last synchronisation. *)
Example reference_is_now :
  refTsSec (reply false 3 (packetOf demoRequest) 1700000000 5) = txTsSec (reply false 3 (packetOf demoRequest) 1700000000 5).
Proof. reflexivity. Qed.

End TimeServer.
