(* ===== verification/TimeSync.v ===== *)
(** * The clock client

    The half of src/time/TimeServer.cpp that keeps the clock: the list of servers
    handed to the SNTP client, its start, stop and restart, the schedule of the "still
    not synchronised" lines with the probe behind it, the notification, the clock set by
    hand; and how a saved setting is applied to both halves (src/web/RestApi.cpp,
    [applyTimeSettingsLive], [applyTimeRunning]). *)
From S2P Require Import Prelude Text TimeMath Subnet NtpWire TimeServer.
From stdpp Require Import gmap.
#[local] Open Scope Z_scope.

Module TimeSync.

Import NtpLogFormat.

Definition kServersLwipAccepts : nat := 3.
Definition kSaneClockSec : Z := 1577836800.
Definition clockIsSet (nowEpochSec : Z) : bool := kSaneClockSec <=? nowEpochSec.

(** [servers_] is the [storage]-th list the object has held: lwIP keeps pointers into
    it. [armed]: the delay the state timer was started with. [log]: the lines of the
    journal. *)
Record Sync := mkSync {
  servers : list bytes; storage : nat; syncIntervalSec : Z; sntpStarted : bool;
  lwipNames : list (option (nat * bytes)); lwipIntervalMs : Z;
  lastSyncUptimeSec : Z; syncBaselineSet : bool;
  timerMade : bool; armed : option Z; syncStateIndex : nat; syncRunUptimeSec : Z;
  prevClockUtcSec : Z; prevClockUptimeSec : Z; prevClockSet : bool;
  probeRunning : bool; log : list bytes;
}.

Definition kNtpDefaultServers : bytes := lit "pool.ntp.org, time.google.com, time.cloudflare.com".

Definition create : Sync :=
  mkSync (NtpServers.ntpServersSplit kNtpDefaultServers) 0 86400 false (replicate kServersLwipAccepts None) 0
    0 false false None 0 0 0 0 false false [].

(** The moment of a call: uptime, clock, and whether the system makes timers and tasks. *)
Record Now := mkNow { uptime : Z; utc : Z; timerOk : bool; taskOk : bool }.

Definition logEvent (line : bytes) (y : Sync) : Sync :=
  mkSync (servers y) (storage y) (syncIntervalSec y) (sntpStarted y) (lwipNames y) (lwipIntervalMs y) (lastSyncUptimeSec y) (syncBaselineSet y)
    (timerMade y) (armed y) (syncStateIndex y) (syncRunUptimeSec y) (prevClockUtcSec y) (prevClockUptimeSec y) (prevClockSet y)
    (probeRunning y) (log y ++ [line]).

Definition set_timer (made : bool) (delay : option Z) (index : nat) (y : Sync) : Sync :=
  mkSync (servers y) (storage y) (syncIntervalSec y) (sntpStarted y) (lwipNames y) (lwipIntervalMs y) (lastSyncUptimeSec y) (syncBaselineSet y)
    made delay index (syncRunUptimeSec y) (prevClockUtcSec y) (prevClockUptimeSec y) (prevClockSet y)
    (probeRunning y) (log y).

Definition set_probe (p : bool) (y : Sync) : Sync :=
  mkSync (servers y) (storage y) (syncIntervalSec y) (sntpStarted y) (lwipNames y) (lwipIntervalMs y) (lastSyncUptimeSec y) (syncBaselineSet y)
    (timerMade y) (armed y) (syncStateIndex y) (syncRunUptimeSec y) (prevClockUtcSec y) (prevClockUptimeSec y) (prevClockSet y)
    p (log y).

Definition set_client (started : bool) (y : Sync) : Sync :=
  mkSync (servers y) (storage y) (syncIntervalSec y) started (lwipNames y) (lwipIntervalMs y) (lastSyncUptimeSec y) (syncBaselineSet y)
    (timerMade y) (armed y) (syncStateIndex y) (syncRunUptimeSec y) (prevClockUtcSec y) (prevClockUptimeSec y) (prevClockSet y)
    (probeRunning y) (log y).

Definition set_lwip (names : list (option (nat * bytes))) (interval : Z) (y : Sync) : Sync :=
  mkSync (servers y) (storage y) (syncIntervalSec y) (sntpStarted y) names interval (lastSyncUptimeSec y) (syncBaselineSet y)
    (timerMade y) (armed y) (syncStateIndex y) (syncRunUptimeSec y) (prevClockUtcSec y) (prevClockUptimeSec y) (prevClockSet y)
    (probeRunning y) (log y).

Definition set_run (uptime : Z) (y : Sync) : Sync :=
  mkSync (servers y) (storage y) (syncIntervalSec y) (sntpStarted y) (lwipNames y) (lwipIntervalMs y) (lastSyncUptimeSec y) (syncBaselineSet y)
    (timerMade y) (armed y) (syncStateIndex y) uptime (prevClockUtcSec y) (prevClockUptimeSec y) (prevClockSet y)
    (probeRunning y) (log y).

Definition setSyncIntervalSec (sec : Z) (y : Sync) : Sync :=
  mkSync (servers y) (storage y) sec (sntpStarted y) (lwipNames y) (lwipIntervalMs y) (lastSyncUptimeSec y) (syncBaselineSet y)
    (timerMade y) (armed y) (syncStateIndex y) (syncRunUptimeSec y) (prevClockUtcSec y) (prevClockUptimeSec y) (prevClockSet y)
    (probeRunning y) (log y).

Definition markSyncBaseline (n : Now) (y : Sync) : Sync :=
  mkSync (servers y) (storage y) (syncIntervalSec y) (sntpStarted y) (lwipNames y) (lwipIntervalMs y) (uptime n) true
    (timerMade y) (armed y) (syncStateIndex y) (syncRunUptimeSec y) (prevClockUtcSec y) (prevClockUptimeSec y) (prevClockSet y)
    (probeRunning y) (log y).

Definition rememberClockReading (n : Now) (y : Sync) : Sync :=
  mkSync (servers y) (storage y) (syncIntervalSec y) (sntpStarted y) (lwipNames y) (lwipIntervalMs y) (lastSyncUptimeSec y) (syncBaselineSet y)
    (timerMade y) (armed y) (syncStateIndex y) (syncRunUptimeSec y) (utc n) (uptime n) (clockIsSet (utc n))
    (probeRunning y) (log y).

(** [out += ", "] before every name but the first. *)
Definition serverText (y : Sync) : bytes :=
  fold_left (λ out name, (if bool_decide (out = []) then out else out ++ lit ", ") ++ name) (servers y) [].

(** The timer is made at its first use; without one there are no state lines. *)
Definition armSyncStateTimer (n : Now) (y : Sync) : Sync :=
  if negb (timerMade y) && negb (timerOk n) then y
  else set_timer true (Some (ntpSyncStateDelaySec (syncStateIndex y))) (syncStateIndex y) y.

Definition stopSyncStateTimer (y : Sync) : Sync :=
  set_timer (timerMade y) (if timerMade y then None else armed y) 0 y.

Definition stopSyncQuiet (y : Sync) : Sync :=
  if sntpStarted y then stopSyncStateTimer (set_client false y) else y.

Definition stopSync (y : Sync) : Sync :=
  if sntpStarted y then logEvent (lit "SNTP client stopped") (stopSyncQuiet y) else y.

Definition setServers (names : list bytes) (y : Sync) : Sync :=
  if bool_decide (names = servers y) then y
  else
    let y := stopSyncQuiet y in
    mkSync names (S (storage y)) (syncIntervalSec y) (sntpStarted y) (lwipNames y) (lwipIntervalMs y) (lastSyncUptimeSec y) (syncBaselineSet y)
      (timerMade y) (armed y) (syncStateIndex y) (syncRunUptimeSec y) (prevClockUtcSec y) (prevClockUptimeSec y) (prevClockSet y)
      (probeRunning y) (log y).

(** The names lwIP is given: the first ones of the list, the other places emptied. *)
Definition handedNames (y : Sync) : list (option (nat * bytes)) :=
  let names := (λ name, Some (storage y, name)) <$> take kServersLwipAccepts (servers y) in
  names ++ replicate (kServersLwipAccepts - length names) None.

(** [chain]: the settings of the resolver, for the journal. *)
Definition startSync (n : Now) (chain : bytes) (y : Sync) : Sync :=
  if sntpStarted y then y
  else
    let y := set_lwip (handedNames y) (u32 (syncIntervalSec y * 1000)) y in
    let y := markSyncBaseline n (set_client true y) in
    let y := set_probe false (set_timer (timerMade y) (armed y) 0 (set_run (uptime n) y)) in
    let y := rememberClockReading n y in
    let y := logEvent (lit "SNTP client started: " ++ serverText y ++ lit ", interval " ++ dec (syncIntervalSec y) ++ lit " s") y in
    armSyncStateTimer n (logEvent chain y).

Definition restartSync (n : Now) (chain : bytes) (y : Sync) : Sync := startSync n chain (stopSyncQuiet y).

Record SyncStatus := mkStatus { counting : bool; remaining : Z; periodSec : Z }.

Definition syncStatus (n : Now) (y : Sync) : SyncStatus :=
  if negb (sntpStarted y) || negb (syncBaselineSet y) then mkStatus false 0 (syncIntervalSec y)
  else mkStatus true (TimeMath.remainingSec (uptime n) (lastSyncUptimeSec y) (syncIntervalSec y)) (syncIntervalSec y).

(** The verdict of a line is the first server's. *)
Definition verdictOf (entries : list NtpProbe.NtpProbeEntry) : NtpDnsVerdict * bytes :=
  match entries with
  | [] => (DnsPending, [])
  | e :: _ =>
      (match NtpProbe.verdict e with
       | NtpProbe.Replied | NtpProbe.NoReply => DnsOk
       | NtpProbe.Unresolved => DnsFailed
       | NtpProbe.NotAsked => DnsPending
       end, NtpProbe.ip e)
  end.

Definition writeSyncStateLine (n : Now) (entries : list NtpProbe.NtpProbeEntry) (y : Sync) : Sync :=
  let waited := u32 (uptime n - syncRunUptimeSec y) in
  let '(v, resolved) := verdictOf entries in
  let y := logEvent (ntpSyncStateText waited (serverText y) (ntpDnsVerdictText v resolved)) y in
  let y := rememberClockReading n y in
  armSyncStateTimer n (set_timer (timerMade y) (armed y) (S (syncStateIndex y)) y).

(** Whether a probe task was created. *)
Definition startProbeTask (n : Now) (y : Sync) : bool * Sync :=
  if bool_decide (servers y = []) then (false, writeSyncStateLine n [] y)
  else if negb (taskOk n) then (false, writeSyncStateLine n [] (set_probe false y))
  else (true, set_probe true y).

(** The timer has gone off: it is armed no more. *)
Definition onSyncStateTimer (n : Now) (synced : bool) (y : Sync) : bool * Sync :=
  let y := set_timer (timerMade y) None (syncStateIndex y) y in
  if synced || negb (sntpStarted y) then (false, stopSyncStateTimer y)
  else if probeRunning y then (false, y)
  else startProbeTask n y.

(** The end of a probe that began in the run of [runUptime]. *)
Definition probeEnd (n : Now) (synced : bool) (runUptime : Z) (entries : list NtpProbe.NtpProbeEntry) (y : Sync) : Sync :=
  if syncRunUptimeSec y =? runUptime then
    set_probe false
      (if sntpStarted y && negb synced
       then writeSyncStateLine n entries (logEvent (NtpProbe.ntpProbeLine entries NtpProbe.kNtpProbeTimeoutMs) y)
       else y)
  else y.

(** A confirmed answer; the caller sets the flag [synced_]. *)
Definition onSyncNotification (n : Now) (y : Sync) : Sync :=
  let y := stopSyncStateTimer (markSyncBaseline n y) in
  let shift := ntpLogClockShiftText (prevClockUtcSec y) (prevClockUptimeSec y) (utc n) (uptime n) (prevClockSet y) in
  rememberClockReading n (logEvent (lit "SNTP synchronised: " ++ serverText y ++ lit " (" ++ shift ++ lit ")") y).

(** The clock set by hand: what it becomes, when it may be set. [local] is the text of
    the new time. *)
Definition setUtcTime (n : Now) (unixUtc : Z) (settimeofday : bool) (local : bytes) (y : Sync) : bool * Sync :=
  if unixUtc =? 0 then (false, y)
  else if negb settimeofday then (false, y)
  else
    let y := rememberClockReading (mkNow (uptime n) unixUtc (timerOk n) (taskOk n)) (stopSyncStateTimer y) in
    (true, logEvent (lit "clock set by hand: " ++ local) y).

(** ** The client among its callbacks *)

(** The members, the flag, and the probe tasks alive: a task reads its run's uptime when
    it first runs ([None]: it has not yet). *)
Record World := mkWorld { sync : Sync; synced : bool; probes : list (option Z) }.

Inductive step : World → World → Prop :=
  | StepServers names y b ps : step (mkWorld y b ps) (mkWorld (setServers names y) b ps)
  | StepInterval sec y b ps : step (mkWorld y b ps) (mkWorld (setSyncIntervalSec sec y) b ps)
  | StepStart n chain y b ps : timerOk n = true → step (mkWorld y b ps) (mkWorld (startSync n chain y) b ps)
  | StepRestart n chain y b ps : timerOk n = true → step (mkWorld y b ps) (mkWorld (restartSync n chain y) b ps)
  | StepStop y b ps : step (mkWorld y b ps) (mkWorld (stopSync y) b ps)
  | StepTimer n y b ps : timerOk n = true → is_Some (armed y) →
      step (mkWorld y b ps)
           (let '(created, y) := onSyncStateTimer n b y in mkWorld y b (if created then ps ++ [None] else ps))
  | StepProbeBegins l1 l2 y b :
      step (mkWorld y b (l1 ++ None :: l2)) (mkWorld y b (l1 ++ Some (syncRunUptimeSec y) :: l2))
  | StepProbeEnds n run entries l1 l2 y b : timerOk n = true →
      step (mkWorld y b (l1 ++ Some run :: l2)) (mkWorld (probeEnd n b run entries y) b (l1 ++ l2))
  | StepAnswered n y b ps : step (mkWorld y b ps) (mkWorld (onSyncNotification n y) true ps)
  | StepByHand n t ok local y b ps :
      step (mkWorld y b ps)
           (let '(set_, y) := setUtcTime n t ok local y in mkWorld y (b || set_) ps).

(** A client that runs without an answer is watched: the next line is due, or the probe
    that will write it is at work. *)
Definition watched (w : World) : Prop :=
  sntpStarted (sync w) = true → synced w = false →
  is_Some (armed (sync w)) ∨ probeRunning (sync w) = true.
Definition probed (w : World) : Prop :=
  probeRunning (sync w) = true → ∃ p, p ∈ probes w ∧ (p = None ∨ p = Some (syncRunUptimeSec (sync w))).

(** lwIP holds pointers: while the client runs, those of the list the object has now. *)
Definition namesAlive (w : World) : Prop :=
  sntpStarted (sync w) = true →
  lwipNames (sync w) = handedNames (sync w).

Definition sound (w : World) : Prop := watched w ∧ probed w ∧ namesAlive w.

Lemma arm_armed n y : timerOk n = true → is_Some (armed (armSyncStateTimer n y)).
Proof. intros H. unfold armSyncStateTimer. rewrite H, andb_false_r. by eexists. Qed.

Lemma arm_rest n y : sntpStarted (armSyncStateTimer n y) = sntpStarted y ∧ probeRunning (armSyncStateTimer n y) = probeRunning y ∧
  syncRunUptimeSec (armSyncStateTimer n y) = syncRunUptimeSec y ∧ lwipNames (armSyncStateTimer n y) = lwipNames y ∧
  servers (armSyncStateTimer n y) = servers y ∧ storage (armSyncStateTimer n y) = storage y.
Proof. unfold armSyncStateTimer. by destruct (_ && _). Qed.

Lemma line_rest n es y : sntpStarted (writeSyncStateLine n es y) = sntpStarted y ∧ probeRunning (writeSyncStateLine n es y) = probeRunning y ∧
  syncRunUptimeSec (writeSyncStateLine n es y) = syncRunUptimeSec y ∧ lwipNames (writeSyncStateLine n es y) = lwipNames y ∧
  servers (writeSyncStateLine n es y) = servers y ∧ storage (writeSyncStateLine n es y) = storage y.
Proof.
  unfold writeSyncStateLine. destruct (verdictOf es). match goal with |- context [armSyncStateTimer n ?z] => exact (arm_rest n z) end.
Qed.

Lemma line_armed n es y : timerOk n = true → is_Some (armed (writeSyncStateLine n es y)).
Proof. intros H. unfold writeSyncStateLine. destruct (verdictOf es). by apply arm_armed. Qed.

Lemma handed_eq y z : servers y = servers z → storage y = storage z → handedNames y = handedNames z.
Proof. intros E1 E2. unfold handedNames. by rewrite E1, E2. Qed.

Lemma quiet_sound y b ps : sound (mkWorld y b ps) → sound (mkWorld (stopSyncQuiet y) b ps) ∧ sntpStarted (stopSyncQuiet y) = false.
Proof.
  intros (Hw & Hp & Hn). unfold stopSyncQuiet. destruct (sntpStarted y) eqn:E; [|by split_and!].
  split; [|done]. split_and!; [done|exact Hp|done].
Qed.

Lemma start_sound n chain y b ps : timerOk n = true → sound (mkWorld y b ps) → sound (mkWorld (startSync n chain y) b ps).
Proof.
  intros Ht (Hw & Hp & Hn). unfold startSync. destruct (sntpStarted y) eqn:E; [by split_and!|].
  set (z := logEvent chain _). destruct (arm_rest n z) as (R1 & R2 & R3 & R4 & R5 & R6).
  split_and!; unfold watched, probed, namesAlive; cbn [sync synced probes]; [|by rewrite R2|].
  - intros _ _. left. by apply arm_armed.
  - intros _. rewrite R4, (handed_eq _ z) by done. done.
Qed.

Lemma timer_sound n y b ps : timerOk n = true → sound (mkWorld y b ps) →
  sound (let '(created, y) := onSyncStateTimer n b y in mkWorld y b (if created then ps ++ [None] else ps)).
Proof.
  intros Ht (Hw & Hp & Hn). unfold onSyncStateTimer. set (z := set_timer _ None _ y).
  destruct (b || negb (sntpStarted z)) eqn:Eb.
  { split_and!; [|exact Hp|exact Hn]. intros Hs Hb. cbn in Hs, Hb. subst b. cbn in Eb. by rewrite Hs in Eb. }
  change (probeRunning z) with (probeRunning y). destruct (probeRunning y) eqn:Epr.
  { split_and!; [|exact Hp|exact Hn]. intros _ _. by right. }
  unfold startProbeTask. case_bool_decide; [|destruct (taskOk n); cbn [negb]].
  - destruct (line_rest n [] z) as (R1 & R2 & R3 & R4 & R5 & R6).
    split_and!; unfold watched, probed, namesAlive; cbn [sync synced probes]; [intros _ _; left; by apply line_armed| |].
    + rewrite R2. cbn. by rewrite Epr.
    + rewrite R1, R4, (handed_eq _ z) by done. exact Hn.
  - split_and!; unfold watched, probed, namesAlive; cbn [sync synced probes]; [by right| |exact Hn].
    intros _. exists None. split; [apply elem_of_app; right; by left|by left].
  - destruct (line_rest n [] (set_probe false z)) as (R1 & R2 & R3 & R4 & R5 & R6).
    split_and!; unfold watched, probed, namesAlive; cbn [sync synced probes]; [intros _ _; left; by apply line_armed|by rewrite R2|].
    rewrite R1, R4, (handed_eq _ (set_probe false z)) by done. exact Hn.
Qed.

Lemma elem_of_middle {A} (p x : A) l1 l2 : p ∈ l1 ++ x :: l2 → p = x ∨ p ∈ l1 ++ l2.
Proof. rewrite !elem_of_app, elem_of_cons. tauto. Qed.

Lemma probeEnd_sound n run es l1 l2 y b : timerOk n = true → sound (mkWorld y b (l1 ++ Some run :: l2)) →
  sound (mkWorld (probeEnd n b run es y) b (l1 ++ l2)).
Proof.
  intros Ht (Hw & Hp & Hn). unfold probeEnd. destruct (Z.eqb_spec (syncRunUptimeSec y) run) as [E|E].
  - destruct (sntpStarted y && negb b) eqn:Es.
    + set (z := logEvent _ y). destruct (line_rest n es z) as (R1 & R2 & R3 & R4 & R5 & R6).
      split_and!; unfold watched, probed, namesAlive; cbn [sync synced probes]; [intros _ _; left|done|].
      * destruct (line_armed n es z Ht) as [d Hd]. by exists d.
      * cbn [sntpStarted lwipNames set_probe]. rewrite R1, R4. intros H. rewrite (handed_eq _ z) by done. by apply Hn.
    + split_and!; unfold watched, probed, namesAlive; cbn [sync synced probes]; [|done|exact Hn].
      intros H1 H2. subst b. cbn in H1. by rewrite H1 in Es.
  - split_and!; [exact Hw| |exact Hn]. intros Hpr. destruct (Hp Hpr) as (p & Hin & Hcase). cbn in Hin, Hcase.
    exists p. split; [|done]. cbn. destruct (elem_of_middle _ _ _ _ Hin) as [->|]; [|done].
    destruct Hcase as [|[= ->]]; done.
Qed.

Lemma step_sound w w' : step w w' → sound w → sound w'.
Proof.
  intros [names y b ps|sec y b ps|n chain y b ps Ht|n chain y b ps Ht|y b ps|n y b ps Ht Ha|l1 l2 y b|n run es l1 l2 y b Ht|n y b ps|n t ok local y b ps] Hs.
  - unfold setServers. case_bool_decide; [done|]. destruct (quiet_sound y b ps Hs) as [(Hw & Hp & Hn) E].
    split_and!; unfold watched, namesAlive; cbn [sync synced sntpStarted]; [by rewrite E|exact Hp|by rewrite E].
  - exact Hs.
  - by apply start_sound.
  - apply start_sound; [done|]. by apply quiet_sound.
  - unfold stopSync. destruct (sntpStarted y); [|done]. exact (proj1 (quiet_sound y b ps Hs)).
  - by apply timer_sound.
  - destruct Hs as (Hw & Hp & Hn). split_and!; [exact Hw| |exact Hn]. intros Hpr. destruct (Hp Hpr) as (p & Hin & Hcase). cbn in *.
    destruct (elem_of_middle _ _ _ _ Hin) as [->|Hin'].
    + exists (Some (syncRunUptimeSec y)). split; [apply elem_of_app; right; by left|by right].
    + exists p. split; [|done]. apply elem_of_app in Hin' as [?|?]; apply elem_of_app; [by left|right; by right].
  - by apply probeEnd_sound.
  - destruct Hs as (Hw & Hp & Hn). split_and!; [by intros _ [=]|exact Hp|exact Hn].
  - destruct Hs as (Hw & Hp & Hn). unfold setUtcTime. destruct (t =? 0); [rewrite orb_false_r; by split_and!|].
    destruct ok; cbn [negb]; [|rewrite orb_false_r; by split_and!]. rewrite orb_true_r.
    split_and!; [by intros _ [=]|exact Hp|exact Hn].
Qed.

(** Whatever the settings do, the timer, the probes and the answers, in any
    order: a client that runs without an answer always has its next line due or a probe
    at work on it, and lwIP never holds a name of a list that is gone while it runs. *)
Theorem sync_sound w : rtc step (mkWorld create false []) w → sound w.
Proof.
  intros H. assert (H0 : sound (mkWorld create false [])) by (split_and!; done).
  remember (mkWorld create false []) as w0. clear Heqw0. induction H as [|w1 w2 w3 Hs _ IH]; [done|]. by apply IH, (step_sound w1).
Qed.

Definition demoNow : Now := mkNow 100 0 true true.
Lemma sync_sound_witness : watched (mkWorld (startSync demoNow [] create) false []).
Proof.
  refine (proj1 (sync_sound (mkWorld (startSync demoNow [] create) false []) _)).
  apply rtc_once, (StepStart demoNow [] create false []). reflexivity.
Defined.

(** ** A saved setting *)

Record TimeConfig := mkConfig {
  externalNtp : bytes; cfgIntervalSec : Z; syncEnabled : bool; enabled : bool;
  allowOwnSubnet : bool; cfgOnlyAllowed : bool; cfgRateLimit : Z;
}.

(** [applyTimeSettingsLive], the zone and the log's switches apart. *)
Definition applyTimeSettingsLive (cfg : TimeConfig) (serverIp subnet : bytes) (y : Sync) (s : TimeServer.Server) : Sync * TimeServer.Server :=
  (setSyncIntervalSec (cfgIntervalSec cfg) (setServers (NtpServers.ntpServersSplit (externalNtp cfg)) y),
   TimeServer.applyAccessFilter (allowOwnSubnet cfg) (cfgOnlyAllowed cfg) (cfgRateLimit cfg) serverIp subnet s).

Definition applyTimeRunning (n : Now) (cfg : TimeConfig) (chain : bytes) (gate : TimeServer.Server → TimeServer.Server) (ended : bool)
  (y : Sync) (s : TimeServer.Server) : Sync * TimeServer.Server :=
  let y := if syncEnabled cfg then (if negb (sntpStarted y) then startSync n chain y else restartSync n chain y)
           else if sntpStarted y then stopSync y else y in
  let running := bool_decide (TimeServer.state s = TimeServer.RUNNING) in
  let s := if enabled cfg && negb running then (TimeServer.start gate (taskOk n) s).2
           else if negb (enabled cfg) && running then TimeServer.stop ended s else s in
  (y, s).

Definition applyTime (n : Now) (cfg : TimeConfig) (serverIp subnet chain : bytes) (ended : bool) (y : Sync) (s : TimeServer.Server) :=
  let '(y, s) := applyTimeSettingsLive cfg serverIp subnet y s in
  applyTimeRunning n cfg chain
    (TimeServer.applyAccessFilter (allowOwnSubnet cfg) (cfgOnlyAllowed cfg) (cfgRateLimit cfg) serverIp subnet) ended y s.

Lemma handed_names y : omap (fmap snd) (handedNames y) = take kServersLwipAccepts (servers y).
Proof.
  unfold handedNames. rewrite omap_app. generalize (kServersLwipAccepts - length ((λ name : bytes, Some (storage y, name)) <$> take kServersLwipAccepts (servers y)))%nat.
  intros k. assert (E : omap (fmap snd) (replicate k (@None (nat * bytes))) = []) by (induction k; done).
  rewrite E, app_nil_r. induction (take kServersLwipAccepts (servers y)) as [|x l IH]; [done|]. cbn. by f_equal.
Qed.

Lemma start_runs n chain z : timerOk n = true → sntpStarted z = false →
  sntpStarted (startSync n chain z) = true ∧ lwipIntervalMs (startSync n chain z) = u32 (syncIntervalSec z * 1000) ∧
  omap (fmap snd) (lwipNames (startSync n chain z)) = take kServersLwipAccepts (servers z).
Proof.
  intros Ht Ez. unfold startSync. rewrite Ez. unfold armSyncStateTimer. rewrite Ht, andb_false_r.
  cbn [sntpStarted lwipIntervalMs lwipNames set_timer logEvent rememberClockReading set_probe set_run markSyncBaseline set_client set_lwip].
  split_and!; [done|done|apply handed_names].
Qed.

Lemma quiet_rest y : servers (stopSyncQuiet y) = servers y ∧ syncIntervalSec (stopSyncQuiet y) = syncIntervalSec y ∧
  sntpStarted (stopSyncQuiet y) = false.
Proof. unfold stopSyncQuiet. by destruct (sntpStarted y) eqn:E. Qed.

(** Whatever ran before, the saved settings are in force afterwards: the
    client runs exactly when it should, on the first names of the saved list and the saved
    interval; the server runs exactly when it should, behind the saved filters. *)
Theorem settings_applied n cfg serverIp subnet chain ended y s b ps :
  taskOk n = true → timerOk n = true → sound (mkWorld y b ps) →
  let '(y', s') := applyTime n cfg serverIp subnet chain ended y s in
  sound (mkWorld y' b ps) ∧
  sntpStarted y' = syncEnabled cfg ∧
  (syncEnabled cfg = true → lwipIntervalMs y' = u32 (cfgIntervalSec cfg * 1000) ∧
     omap (fmap snd) (lwipNames y') = NtpServers.ntpServersSplit (externalNtp cfg)) ∧
  (TimeServer.state s' = TimeServer.RUNNING ↔ enabled cfg = true) ∧
  TimeServer.subnetFilter s' = Subnet.apply (Subnet.mkSettings (allowOwnSubnet cfg) serverIp subnet) ∧
  TimeServer.rateLimitPerSec s' = cfgRateLimit cfg ∧ TimeServer.onlyAllowedComputers s' = cfgOnlyAllowed cfg.
Proof.
  intros Htask Ht Hs. unfold applyTime, applyTimeSettingsLive, applyTimeRunning.
  set (y1 := setSyncIntervalSec _ _). set (s1 := TimeServer.applyAccessFilter _ _ _ _ _ s).
  assert (Hs1 : sound (mkWorld y1 b ps)).
  { apply (step_sound (mkWorld (setServers (NtpServers.ntpServersSplit (externalNtp cfg)) y) b ps)); [constructor|].
    apply (step_sound (mkWorld y b ps)); [constructor|done]. }
  assert (Hn : servers y1 = NtpServers.ntpServersSplit (externalNtp cfg)).
  { unfold y1, setServers. case_bool_decide as E; [by rewrite E|done]. }
  set (y2 := if syncEnabled cfg then _ else _). set (s2 := if enabled cfg && _ then _ else _).
  assert (Hi : syncIntervalSec y1 = cfgIntervalSec cfg) by done.
  assert (Hserver : (TimeServer.state s2 = TimeServer.RUNNING ↔ enabled cfg = true) ∧
    TimeServer.subnetFilter s2 = Subnet.apply (Subnet.mkSettings (allowOwnSubnet cfg) serverIp subnet) ∧
    TimeServer.rateLimitPerSec s2 = cfgRateLimit cfg ∧ TimeServer.onlyAllowedComputers s2 = cfgOnlyAllowed cfg).
  { unfold s2. case_bool_decide as Hr; destruct (enabled cfg); cbn [andb negb]; [done|..].
    - unfold TimeServer.stop. rewrite bool_decide_eq_false_2 by (by rewrite Hr). cbn. by split_and!.
    - unfold TimeServer.start, TimeServer.startBefore. rewrite bool_decide_eq_false_2 by done. cbn [negb]. rewrite Htask. by split_and!.
    - by split_and!. }
  destruct (NtpServers.servers_fine (externalNtp cfg)) as [_ Hl]. unfold NtpServers.kNtpMaxServers in Hl.
  assert (Hclient : sound (mkWorld y2 b ps) ∧ sntpStarted y2 = syncEnabled cfg ∧
    (syncEnabled cfg = true → lwipIntervalMs y2 = u32 (cfgIntervalSec cfg * 1000) ∧
     omap (fmap snd) (lwipNames y2) = NtpServers.ntpServersSplit (externalNtp cfg))).
  { unfold y2. destruct (syncEnabled cfg).
    - destruct (sntpStarted y1) eqn:E1; cbn [negb].
      + unfold restartSync. destruct (quiet_rest y1) as (Q1 & Q2 & Q3).
        destruct (start_runs n chain (stopSyncQuiet y1) Ht Q3) as (R1 & R2 & R3).
        split; [apply start_sound; [done|by apply quiet_sound]|]. split; [done|]. intros _.
        rewrite R2, R3, Q1, Q2, Hi, Hn, take_ge by (unfold kServersLwipAccepts; lia). done.
      + destruct (start_runs n chain y1 Ht E1) as (R1 & R2 & R3). split; [by apply start_sound|]. split; [done|]. intros _.
        rewrite R2, R3, Hi, Hn, take_ge by (unfold kServersLwipAccepts; lia). done.
    - destruct (sntpStarted y1) eqn:E1; [|by split_and!]. split; [apply (step_sound (mkWorld y1 b ps)); [constructor|done]|].
      split; [|done]. unfold stopSync. rewrite E1. apply quiet_rest. }
  by destruct Hclient as (? & ? & ?), Hserver as (? & ? & ? & ?).
Qed.

Definition demoConfig : TimeConfig := mkConfig (lit "a.org, b.org") 3600 true true true false 5.
Lemma settings_applied_witness :
  let '(y', s') := applyTime demoNow demoConfig (lit "192.168.1.1") (lit "255.255.255.0") [] true create TimeServer.create in
  sntpStarted y' = true ∧ omap (fmap snd) (lwipNames y') = [lit "a.org"; lit "b.org"].
Proof.
  pose proof (settings_applied demoNow demoConfig (lit "192.168.1.1") (lit "255.255.255.0") [] true create TimeServer.create false []) as H.
  destruct (applyTime _ _ _ _ _ _ _ _) as [y' s']. destruct H as (_ & H1 & H2 & _); [done|done|by split_and!|].
  split; [exact H1|]. destruct (H2 eq_refl) as [_ H3]. rewrite H3. reflexivity.
Defined.

(** A save that changes the list and turns the client off stops it without a word in the
    journal: [setServers] stopped it quietly before. *)
Example off_not_logged :
  let y := startSync demoNow [] create in
  let cfg := mkConfig (lit "a.org") 3600 false false true false 5 in
  let y' := (applyTime demoNow cfg [] [] [] true y TimeServer.create).1 in
  sntpStarted y' = false ∧ log y' = log y.
Proof. vm_compute. split; reflexivity. Qed.

End TimeSync.
