(* ===== verification/TransferEngine.v ===== *)
(** * Copying and moving files between volumes

    src/files/TransferEngine.cpp, over the interface [IFileOps] (src/files/IFileOps.h,
    IFileSink.h, IFileSource.h), which is the class [FileOps] here. The theorems are
    proved in TransferSafety.v from [FileOpsLaws]; FileManager.v implements both. *)
From S2P Require Import Prelude Text PathUtil AtomicFile FileUpload.
#[local] Open Scope Z_scope.

Record FileEntry := mkEntry { name : bytes; isDir : bool; size : Z; mtime : Z }.

(** An answer: the status, and the detail where the call wrote one. *)
Definition Answer : Type := FileStatus * option bytes.

(** The operations on the volumes, whose state is [V]. An open source is its volume,
    its path and the place it is read at; [K] is an open sink. [openRead] also says how
    long the file is. *)
Class FileOps (V K : Type) := {
  op_scan : bytes → bytes → V → Answer * list FileEntry * V;
  op_stat : bytes → bytes → V → Answer * option FileEntry * V;
  op_mkdir : bytes → bytes → V → Answer * V;
  op_remove : bytes → bytes → bool → V → Answer * V;
  op_rename : bytes → bytes → bytes → V → Answer * V;
  op_openRead : bytes → bytes → V → Answer * Z * V;
  op_read : bytes → bytes → nat → nat → V → bytes * bool * V;
  op_createWriter : bytes → bytes → V → Answer * option K * V;
  op_write : bytes → K → V → bool * K * V;
  op_commit : K → V → bool * K * V;
  op_abort : K → V → K * V;
  op_destroy : K → V → V;
  op_freeBytes : bytes → V → Z * V;
}.

Module TransferEngine.

Inductive TransferOp := Copy | Move.
Inductive TransferConflict := Ask | Overwrite | Skip.
Inductive TransferPhase := Idle | Measuring | Copying | Done.
#[export] Instance TransferOp_eq : EqDecision TransferOp.
Proof. solve_decision. Defined.
#[export] Instance TransferConflict_eq : EqDecision TransferConflict.
Proof. solve_decision. Defined.
#[export] Instance FileStatus_eq : EqDecision FileStatus.
Proof. solve_decision. Defined.

Definition transferPhaseName (p : TransferPhase) : bytes :=
  match p with
  | Measuring => lit "measuring" | Copying => lit "copying" | Done => lit "done" | Idle => lit "idle"
  end.

Record TransferRequest := mkRequest {
  op : TransferOp;
  conflict : TransferConflict;
  srcVolume : bytes;
  paths : list bytes;
  dstVolume : bytes;
  dstPath : bytes;
}.

Record TransferReport := mkReport {
  phase : TransferPhase;
  busy : bool;
  finished : bool;
  cancelled : bool;
  instant : bool;
  rOp : TransferOp;
  rSrcVolume : bytes;
  rDstVolume : bytes;
  rDstPath : bytes;
  current : bytes;
  doneBytes : Z;
  totalBytes : Z;
  neededBytes : Z;
  freeBytes : Z;
  filesDone : Z;
  filesTotal : Z;
  dirsDone : Z;
  dirsTotal : Z;
  skipped : Z;
  failed : Z;
  deleted : Z;
  error : bytes;
  errorPath : bytes;
}.

Definition emptyReport : TransferReport :=
  mkReport Idle false false false false Copy [] [] [] [] 0 0 0 0 0 0 0 0 0 0 0 [] [].

Definition kProgressChunk : Z := 64 * 1024.
Definition kFileChunk : nat := 4096.
Definition kFreeSpaceReserve : Z := 4096.

Record Measure := mkMeasure { mBytes : Z; mFiles : Z; mDirs : Z }.

#[local] Abbreviation root := ([47] : bytes).

Definition joinRel (dir nm : bytes) : bytes := if bytes_eqb dir root then 47 :: nm else dir ++ 47 :: nm.

Definition put_phase p r := mkReport p (busy r) (finished r) (cancelled r) (instant r) (rOp r) (rSrcVolume r) (rDstVolume r)
  (rDstPath r) (current r) (doneBytes r) (totalBytes r) (neededBytes r) (freeBytes r) (filesDone r) (filesTotal r) (dirsDone r)
  (dirsTotal r) (skipped r) (failed r) (deleted r) (error r) (errorPath r).
Definition put_ends b f r := mkReport (phase r) b f (cancelled r) (instant r) (rOp r) (rSrcVolume r) (rDstVolume r)
  (rDstPath r) (current r) (doneBytes r) (totalBytes r) (neededBytes r) (freeBytes r) (filesDone r) (filesTotal r) (dirsDone r)
  (dirsTotal r) (skipped r) (failed r) (deleted r) (error r) (errorPath r).
Definition put_cancelled r := mkReport (phase r) (busy r) (finished r) true (instant r) (rOp r) (rSrcVolume r) (rDstVolume r)
  (rDstPath r) (current r) (doneBytes r) (totalBytes r) (neededBytes r) (freeBytes r) (filesDone r) (filesTotal r) (dirsDone r)
  (dirsTotal r) (skipped r) (failed r) (deleted r) (error r) (errorPath r).
Definition put_instant r := mkReport (phase r) (busy r) (finished r) (cancelled r) true (rOp r) (rSrcVolume r) (rDstVolume r)
  (rDstPath r) (current r) (doneBytes r) (totalBytes r) (neededBytes r) (freeBytes r) (filesDone r) (filesTotal r) (dirsDone r)
  (dirsTotal r) (skipped r) (failed r) (deleted r) (error r) (errorPath r).
Definition put_dstPath d r := mkReport (phase r) (busy r) (finished r) (cancelled r) (instant r) (rOp r) (rSrcVolume r)
  (rDstVolume r) d (current r) (doneBytes r) (totalBytes r) (neededBytes r) (freeBytes r) (filesDone r) (filesTotal r)
  (dirsDone r) (dirsTotal r) (skipped r) (failed r) (deleted r) (error r) (errorPath r).
Definition put_current c r := mkReport (phase r) (busy r) (finished r) (cancelled r) (instant r) (rOp r) (rSrcVolume r)
  (rDstVolume r) (rDstPath r) c (doneBytes r) (totalBytes r) (neededBytes r) (freeBytes r) (filesDone r) (filesTotal r)
  (dirsDone r) (dirsTotal r) (skipped r) (failed r) (deleted r) (error r) (errorPath r).
Definition addDone n r := mkReport (phase r) (busy r) (finished r) (cancelled r) (instant r) (rOp r) (rSrcVolume r)
  (rDstVolume r) (rDstPath r) (current r) (u64 (doneBytes r + n)) (totalBytes r) (neededBytes r) (freeBytes r) (filesDone r)
  (filesTotal r) (dirsDone r) (dirsTotal r) (skipped r) (failed r) (deleted r) (error r) (errorPath r).
Definition addTotals m r := mkReport (phase r) (busy r) (finished r) (cancelled r) (instant r) (rOp r) (rSrcVolume r)
  (rDstVolume r) (rDstPath r) (current r) (doneBytes r) (u64 (totalBytes r + mBytes m)) (neededBytes r) (freeBytes r)
  (filesDone r) (u32 (filesTotal r + mFiles m)) (dirsDone r) (u32 (dirsTotal r + mDirs m)) (skipped r) (failed r) (deleted r)
  (error r) (errorPath r).
Definition put_space n f r := mkReport (phase r) (busy r) (finished r) (cancelled r) (instant r) (rOp r) (rSrcVolume r)
  (rDstVolume r) (rDstPath r) (current r) (doneBytes r) (totalBytes r) n f (filesDone r) (filesTotal r) (dirsDone r)
  (dirsTotal r) (skipped r) (failed r) (deleted r) (error r) (errorPath r).
(** Files, directories, skipped and deleted entries, one more of each kind named. *)
Definition count f d s x r := mkReport (phase r) (busy r) (finished r) (cancelled r) (instant r) (rOp r) (rSrcVolume r)
  (rDstVolume r) (rDstPath r) (current r) (doneBytes r) (totalBytes r) (neededBytes r) (freeBytes r) (u32 (filesDone r + f))
  (filesTotal r) (u32 (dirsDone r + d)) (dirsTotal r) (u32 (skipped r + s)) (failed r) (u32 (deleted r + x)) (error r)
  (errorPath r).
Definition addFailure path text r := mkReport (phase r) (busy r) (finished r) (cancelled r) (instant r) (rOp r) (rSrcVolume r)
  (rDstVolume r) (rDstPath r) (current r) (doneBytes r) (totalBytes r) (neededBytes r) (freeBytes r) (filesDone r)
  (filesTotal r) (dirsDone r) (dirsTotal r) (skipped r) (u32 (failed r + 1)) (deleted r)
  (if bool_decide (error r = []) then text else error r) (if bool_decide (error r = []) then path else errorPath r).

(** ** A transfer at work *)

(** [told]: what the observer was told, the last first; [asked]: how often it was asked
    whether to stop. *)
Record Runner (V : Type) := mkRunner {
  vols : V;
  report : TransferReport;
  lastReported : Z;
  detail : bytes;
  asked : nat;
  told : list TransferReport;
}.
#[global] Arguments mkRunner {V}.
#[global] Arguments vols {V}.
#[global] Arguments report {V}.
#[global] Arguments lastReported {V}.
#[global] Arguments detail {V}.
#[global] Arguments asked {V}.
#[global] Arguments told {V}.

(** [None]: the walk did not end within its fuel. *)
Definition M (V A : Type) : Type := Runner V → option (A * Runner V).
#[export] Instance M_ret {V} : MRet (M V) := λ A a r, Some (a, r).
#[export] Instance M_bind {V} : MBind (M V) := λ A B f m r, match m r with Some (a, r) => f a r | None => None end.

(** One entry of a directory that is being measured. *)
Definition visitMeasure (dir : bytes) (mq : Measure * list bytes) (e : FileEntry) : Measure * list bytes :=
  let '(m, queue) := mq in
  if isDir e then (mkMeasure (mBytes m) (mFiles m) (u32 (mDirs m + 1)), queue ++ [joinRel dir (name e)])
  else (mkMeasure (u64 (mBytes m + size e)) (u32 (mFiles m + 1)) (mDirs m), queue).

Definition entriesOf (m : Measure) : Z := u32 (mFiles m + mDirs m).

Section Engine.
Context {V K : Type} `{FileOps V K}.
(** What the observer answers the n-th time it is asked whether to stop. *)
Context (cancel : nat → bool).
Context (req : TransferRequest).

Definition getReport {A} (f : TransferReport → A) : M V A := λ r, Some (f (report r), r).
Definition onReport (f : TransferReport → TransferReport) : M V unit := λ r,
  Some (tt, mkRunner (vols r) (f (report r)) (lastReported r) (detail r) (asked r) (told r)).
Definition getDetail : M V bytes := λ r, Some (detail r, r).
Definition setDetail (d : bytes) : M V unit := λ r,
  Some (tt, mkRunner (vols r) (report r) (lastReported r) d (asked r) (told r)).

(** A call on the volumes, and one that is given the detail to write to. *)
Definition call {R} (f : V → R * V) : M V R := λ r,
  let '(a, v) := f (vols r) in Some (a, mkRunner v (report r) (lastReported r) (detail r) (asked r) (told r)).
Definition noted (a : Answer) : M V FileStatus :=
  match a.2 with Some d => _ ← setDetail d; mret a.1 | None => mret a.1 end.

(** [onTransferProgress]. *)
Definition tell : M V unit := λ r,
  Some (tt, mkRunner (vols r) (report r) (lastReported r) (detail r) (asked r) (report r :: told r)).

Definition progress (force : bool) : M V unit := λ r,
  if negb force && (u64 (doneBytes (report r) - lastReported r) <? kProgressChunk) then Some (tt, r)
  else tell (mkRunner (vols r) (report r) (doneBytes (report r)) (detail r) (asked r) (told r)).

Definition cancelRequested : M V bool := λ r,
  let asked' := Datatypes.S (asked r) in
  if cancel (asked r) then Some (true, mkRunner (vols r) (put_cancelled (report r)) (lastReported r) (detail r) asked' (told r))
  else Some (false, mkRunner (vols r) (report r) (lastReported r) (detail r) asked' (told r)).

Definition fail (path : bytes) (status : FileStatus) (why : bytes) : M V unit :=
  onReport (addFailure path (FileStatusText.messageFor status ++
    (if bool_decide (why = []) then [] else lit ": " ++ why))).

Definition stat_ (vol path : bytes) : M V (FileStatus * option FileEntry) :=
  '(a, e) ← call (op_stat vol path); st ← noted a; mret (st, e).
Definition scan_ (vol path : bytes) : M V (FileStatus * list FileEntry) :=
  '(a, l) ← call (op_scan vol path); st ← noted a; mret (st, l).

(** ** Measuring *)

Fixpoint measureDirs (n : nat) (queue : list bytes) (out : Measure) : M V (FileStatus * Measure) :=
  match queue with
  | [] => mret (StOk, out)
  | dir :: queue =>
      match n with
      | O => λ _, None
      | Datatypes.S n =>
          _ ← onReport (put_current dir);
          '(st, entries) ← scan_ (srcVolume req) dir;
          let '(out', queue) := fold_left (visitMeasure dir) entries (out, queue) in
          if negb (bool_decide (st = StOk)) then mret (st, out')
          else
            _ ← (if negb (entriesOf out' / 64 =? entriesOf out / 64) then progress true else mret tt);
            measureDirs n queue out'
      end
  end.

Definition measureEntry (n : nat) (top : bytes) : M V (FileStatus * Measure) :=
  let out := mkMeasure 0 0 0 in
  '(st, e) ← stat_ (srcVolume req) top;
  match st, e with
  | StOk, Some entry =>
      if isDir entry then measureDirs n [top] (mkMeasure 0 0 1)
      else mret (StOk, mkMeasure (u64 (size entry)) 1 0)
  | _, _ => mret (st, out)
  end.

(** ** Copying *)

(** Window by window to the end of the source ([true]) or to what stops the copy, with
    the sink aborted. *)
Fixpoint copyWindows (n : nat) (src : bytes) (off : nat) (out : K) : M V (bool * K) :=
  match n with
  | O => λ _, None
  | Datatypes.S n =>
      '(got, err) ← call (op_read (srcVolume req) src off kFileChunk);
      if bool_decide (got = []) then
        if err : bool then
          out ← call (op_abort out);
          _ ← fail src IoError (lit "cannot read the source file");
          mret (false, out)
        else mret (true, out)
      else
        '(ok, out) ← call (op_write got out);
        if negb ok then
          out ← call (op_abort out);
          _ ← fail src IoError (lit "cannot write to the destination");
          mret (false, out)
        else
          _ ← onReport (addDone (Z.of_nat (length got)));
          _ ← progress false;
          stop ← cancelRequested;
          if stop : bool then
            out ← call (op_abort out);
            mret (false, out)
          else copyWindows n src (off + length got) out
  end.

(** What [openRead] says of the length is enough for the rounds: each takes a byte. *)
Definition copyRounds (len : Z) : nat := Datatypes.S (Datatypes.S (Z.to_nat len)).

Definition destroy_ (out : K) : M V unit := call (λ v, (tt, op_destroy out v)).

Definition copyOpened (len : Z) (src : bytes) (out : K) : M V bool :=
  '(whole, out) ← copyWindows (copyRounds len) src 0 out;
  if negb whole then _ ← destroy_ out; mret false
  else
    '(ok, out) ← call (op_commit out);
    if negb ok then
      out ← call (op_abort out);
      _ ← fail src IoError (lit "cannot publish the destination file");
      _ ← destroy_ out;
      mret false
    else
      _ ← onReport (count 1 0 0 0);
      _ ← progress true;
      _ ← destroy_ out;
      mret true.

Definition copyFile (src dst : bytes) : M V bool :=
  '(st, e) ← stat_ (srcVolume req) src;
  tooBig ← (match st, e with
            | StOk, Some entry =>
                if negb (isDir entry) then
                  free ← call (op_freeBytes (dstVolume req));
                  mret (free <? u64 (size entry + kFreeSpaceReserve))
                else mret false
            | _, _ => mret false
            end);
  if tooBig : bool then
    _ ← fail src NoSpace (lit "not enough free space on the destination");
    mret false
  else
    '(a, len) ← call (op_openRead (srcVolume req) src);
    st ← noted a;
    if negb (bool_decide (st = StOk)) then
      d ← getDetail; _ ← fail src st d; mret false
    else
      '(a, out) ← call (op_createWriter (dstVolume req) dst);
      st ← noted a;
      match st, out with
      | StOk, Some out => copyOpened len src out
      | _, _ => d ← getDetail; _ ← fail src st d; mret false
      end.

Record DirPair := mkPair { dpSrc : bytes; dpDst : bytes }.

(** [TreeVisitor::visit]: whether it went well, and the directory to walk later. *)
Definition visitTree (src dst : bytes) (e : FileEntry) : M V (bool * list DirPair) :=
  match PathUtil.normalizeChild dst (name e) with
  | None =>
      _ ← fail (joinRel src (name e)) InvalidPath (lit "the name cannot be used on the destination");
      mret (false, [])
  | Some dstChild =>
      let srcChild := joinRel src (name e) in
      if isDir e then
        a ← call (op_mkdir (dstVolume req) dstChild);
        if negb (bool_decide (a.1 = StOk)) && negb (bool_decide (a.1 = AlreadyExists)) then
          d ← getDetail; _ ← fail srcChild a.1 d; mret (false, [])
        else
          _ ← onReport (count 0 1 0 0);
          mret (true, [mkPair srcChild dstChild])
      else
        _ ← onReport (put_current srcChild);
        ok ← copyFile srcChild dstChild;
        mret (ok, [])
  end.

Fixpoint visitAll (src dst : bytes) (entries : list FileEntry) : M V (bool * list DirPair) :=
  match entries with
  | [] => mret (true, [])
  | e :: entries =>
      '(ok, new) ← visitTree src dst e;
      '(ok', new') ← visitAll src dst entries;
      mret (ok && ok', new ++ new')
  end.

Fixpoint copyDirs (n : nat) (queue : list DirPair) (ok : bool) : M V bool :=
  match queue with
  | [] => mret ok
  | mkPair src dst :: queue =>
      match n with
      | O => λ _, None
      | Datatypes.S n =>
          stopped ← getReport cancelled;
          if stopped : bool then mret false
          else
            '(st, entries) ← scan_ (srcVolume req) src;
            '(good, new) ← visitAll src dst entries;
            if negb (bool_decide (st = StOk)) then
              d ← getDetail; _ ← fail src st d;
              copyDirs n (queue ++ new) false
            else copyDirs n (queue ++ new) (ok && good)
      end
  end.

Definition copyEntry (n : nat) (srcTop dstTop : bytes) (srcIsDir : bool) : M V bool :=
  if negb srcIsDir then
    _ ← onReport (put_current srcTop);
    copyFile srcTop dstTop
  else copyDirs n [mkPair srcTop dstTop] true.

Definition finishReport (r : TransferReport) : TransferReport := put_current [] (put_phase Done (put_ends false true r)).

(** ** Inside one volume *)

(** One entry of a move by [rename]. *)
Definition moveOne (dstDir raw : bytes) : M V unit :=
  match PathUtil.normalize raw with
  | None => mret tt
  | Some src =>
      match PathUtil.normalizeChild dstDir (PathUtil.basename src) with
      | None => fail src InvalidPath (lit "the destination name is not usable")
      | Some target =>
          '(a, e) ← call (op_stat (srcVolume req) target);
          let taken := bool_decide (a.1 = StOk) in
          let entry := default (mkEntry [] false 0 0) e in
          if taken && isDir entry then
            fail src AlreadyExists (lit "the destination already holds a directory with that name")
          else if taken && bool_decide (conflict req = Skip) then onReport (count 0 0 1 0)
          else
            stDel ← (if taken then a ← call (op_remove (srcVolume req) target false); noted a else mret StOk);
            if negb (bool_decide (stDel = StOk)) then d ← getDetail; fail src stDel d
            else
              a ← call (op_rename (srcVolume req) src target);
              st ← noted a;
              if negb (bool_decide (st = StOk)) then d ← getDetail; fail src st d
              else
                _ ← onReport (if isDir entry then count 0 1 0 1 else count 1 0 0 1);
                progress true
      end
  end.

Fixpoint moveAll (dstDir : bytes) (raws : list bytes) : M V unit :=
  match raws with
  | [] => mret tt
  | raw :: raws =>
      stop ← cancelRequested;
      if stop : bool then mret tt else _ ← moveOne dstDir raw; moveAll dstDir raws
  end.

(** ** The checks before *)

Definition refuse (st : FileStatus) (why : bytes) : M V FileStatus := _ ← setDetail why; mret st.

Fixpoint validatePaths (dstDir : bytes) (raws : list bytes) : M V FileStatus :=
  match raws with
  | [] => mret StOk
  | raw :: raws =>
      match PathUtil.normalize raw with
      | None => refuse InvalidPath (lit "the path cannot be used by the API: " ++ raw)
      | Some path =>
          if bytes_eqb path root then refuse InvalidPath (lit "a whole volume cannot be transferred")
          else
            '(st, _) ← stat_ (srcVolume req) path;
            if negb (bool_decide (st = StOk)) then mret st
            else if bytes_eqb (srcVolume req) (dstVolume req) && bytes_eqb dstDir (PathUtil.parent path) then
              refuse InvalidPath (lit "the entry is already in that directory")
            else if bytes_eqb (srcVolume req) (dstVolume req) && is_prefix (path ++ root) dstDir then
              refuse InvalidPath (lit "the destination is inside the source")
            else validatePaths dstDir raws
      end
  end.

Definition validate : M V FileStatus :=
  if bool_decide (paths req = []) then refuse InvalidPath (lit "no entries were selected")
  else if bool_decide (srcVolume req = []) || bool_decide (dstVolume req = []) then
    refuse InvalidPath (lit "a volume is missing")
  else
    match PathUtil.normalize (dstPath req) with
    | None => refuse InvalidPath (lit "the destination path is not valid")
    | Some dstDir =>
        st ← validatePaths dstDir (paths req);
        if negb (bool_decide (st = StOk)) then mret st
        else
          '(st, _) ← scan_ (dstVolume req) dstDir;
          d ← getDetail;
          if bool_decide (st = InvalidPath) && bool_decide (d = []) then
            refuse st (lit "the destination is not a directory")
          else mret st
    end.

(** The names that are taken at the destination. *)
Fixpoint takenNames (dstDir : bytes) (raws : list bytes) : M V (list bytes) :=
  match raws with
  | [] => mret []
  | raw :: raws =>
      let target := path ← PathUtil.normalize raw;
                    t ← PathUtil.normalizeChild dstDir (PathUtil.basename path); Some (PathUtil.basename path, t) in
      match target with
      | None => takenNames dstDir raws
      | Some (nm, t) =>
          '(a, _) ← call (op_stat (dstVolume req) t);
          more ← takenNames dstDir raws;
          mret (if bool_decide (a.1 = StOk) then nm :: more else more)
      end
  end.

Definition conflicts : M V (FileStatus * list bytes) :=
  st ← validate;
  if negb (bool_decide (st = StOk)) then mret (st, [])
  else names ← takenNames (default [] (PathUtil.normalize (dstPath req))) (paths req); mret (StOk, names).

(** ** The whole transfer *)

Definition measureOne (n : nat) (dstDir raw : bytes) : M V unit :=
  match PathUtil.normalize raw with
  | None => mret tt
  | Some path =>
      skip ← (match PathUtil.normalizeChild dstDir (PathUtil.basename path) with
              | Some target =>
                  if bool_decide (conflict req = Skip) then
                    '(a, _) ← call (op_stat (dstVolume req) target); mret (bool_decide (a.1 = StOk))
                  else mret false
              | None => mret false
              end);
      if skip : bool then mret tt
      else
        '(st, measure) ← measureEntry n path;
        if negb (bool_decide (st = StOk)) then d ← getDetail; fail path st d
        else onReport (addTotals measure)
  end.

Fixpoint measureAll (n : nat) (dstDir : bytes) (raws : list bytes) : M V unit :=
  match raws with
  | [] => mret tt
  | raw :: raws => _ ← measureOne n dstDir raw; measureAll n dstDir raws
  end.

(** After the copy of an entry: a move removes the source now. *)
Definition afterCopy (path : bytes) (srcIsDir : bool) : M V unit :=
  stDel ← (if bool_decide (op req = Move) then a ← call (op_remove (srcVolume req) path srcIsDir); noted a else mret StOk);
  if negb (bool_decide (stDel = StOk)) then d ← getDetail; fail path stDel d
  else
    _ ← (if bool_decide (op req = Move) then onReport (count 0 0 0 1) else mret tt);
    tell.

Definition copyOne (n : nat) (dstDir raw : bytes) : M V unit :=
  match PathUtil.normalize raw with
  | None => mret tt
  | Some path =>
      match PathUtil.normalizeChild dstDir (PathUtil.basename path) with
      | None => fail path InvalidPath (lit "the destination name is not usable")
      | Some target =>
          '(st, e) ← stat_ (srcVolume req) path;
          match st, e with
          | StOk, Some srcEntry =>
              '(a, d) ← call (op_stat (dstVolume req) target);
              let taken := bool_decide (a.1 = StOk) in
              if taken && bool_decide (conflict req = Skip) then onReport (count 0 0 1 0)
              else if taken && isDir srcEntry && negb (isDir (default (mkEntry [] false 0 0) d)) then
                fail path AlreadyExists (lit "the destination holds a file with that name")
              else
                made ← (if isDir srcEntry then call (op_mkdir (dstVolume req) target) else mret (AlreadyExists, None));
                if negb (bool_decide (made.1 = StOk)) && negb (bool_decide (made.1 = AlreadyExists)) then
                  d ← getDetail; fail path made.1 d
                else
                  _ ← (if bool_decide (made.1 = StOk) then onReport (count 0 1 0 0) else mret tt);
                  complete ← copyEntry n path target (isDir srcEntry);
                  stopped ← getReport cancelled;
                  if stopped : bool then mret tt
                  else
                    _ ← onReport (put_current path);
                    if complete : bool then afterCopy path (isDir srcEntry) else mret tt
          | _, _ => d ← getDetail; fail path NotFound d
          end
      end
  end.

Fixpoint copyAll (n : nat) (dstDir : bytes) (raws : list bytes) : M V unit :=
  match raws with
  | [] => mret tt
  | raw :: raws =>
      stopped ← getReport cancelled;
      if stopped : bool then mret tt else _ ← copyOne n dstDir raw; copyAll n dstDir raws
  end.

Definition finish_ : M V unit := _ ← onReport finishReport; tell.

Definition begin_ : M V unit :=
  _ ← onReport (λ _, mkReport Measuring true false false false (op req) (srcVolume req) (dstVolume req) (dstPath req) []
                       0 0 0 0 0 0 0 0 0 0 0 [] []);
  tell.

Definition crossCopy (n : nat) (dstDir : bytes) : M V unit :=
  _ ← measureAll n dstDir (paths req);
  free ← call (op_freeBytes (dstVolume req));
  _ ← onReport (λ r, put_space (totalBytes r) free r);
  _ ← tell;
  needed ← getReport neededBytes;
  if free <? u64 (needed + kFreeSpaceReserve) then
    _ ← fail dstDir NoSpace (lit "not enough free space on the destination");
    finish_
  else
    _ ← onReport (put_phase Copying);
    _ ← tell;
    _ ← copyAll n dstDir (paths req);
    finish_.

Definition run (n : nat) : M V unit :=
  _ ← begin_;
  valid ← validate;
  if negb (bool_decide (valid = StOk)) then
    d ← getDetail; _ ← fail (dstPath req) valid d; finish_
  else
    let dstDir := default [] (PathUtil.normalize (dstPath req)) in
    _ ← onReport (put_dstPath dstDir);
    if bool_decide (op req = Move) && bytes_eqb (srcVolume req) (dstVolume req) then
      _ ← onReport put_instant;
      _ ← moveAll dstDir (paths req);
      finish_
    else crossCopy n dstDir.

End Engine.

End TransferEngine.

(** ** What the engine relies on *)

Definition partOf (p : bytes) : bytes := AtomicFile.partPath p.

(** [rest] leads down from a directory, or nowhere. *)
Definition descends (rest : bytes) : Prop := rest = [] ∨ ∃ t, rest = 47 :: t.
Definition under (p q : bytes) : Prop := ∃ rest, q = p ++ rest ∧ descends rest.

#[export] Instance under_dec p q : Decision (under p q).
Proof.
  destruct (decide (take (length p) q = p ∧ (drop (length p) q = [] ∨ head (drop (length p) q) = Some 47))) as [[E Hd]|Hn]; [left|right].
  - exists (drop (length p) q). split; [by rewrite <- E at 1; rewrite take_drop|].
    destruct Hd as [Hd|Hd]; [by left|right]. destruct (drop (length p) q) as [|x t]; [done|]. injection Hd as ->. by eexists.
  - intros (rest & -> & Hd). apply Hn. rewrite take_app_length, drop_app_length. split; [done|].
    destruct Hd as [->|[t ->]]; auto.
Qed.

(** A rooted path of pieces that name something. *)
Definition plain (p : bytes) : Prop := ∃ l, p = PathUtil.buildPath l ∧ Forall (λ n, 47 ∉ n ∧ PathUtil.idle n = false) l.

(** [fileAt]: the bytes of a regular file of a volume; [dirsOf] covers the directories of a
    volume; [orderly]: the directories form a tree; [sinkOf]: where a sink that has not published
    yet will. *)
Class FileModel (V K : Type) := {
  orderly : V → Prop;
  fileAt : V → bytes → bytes → option bytes;
  dirsOf : V → bytes → list bytes;
  sinkOf : K → bytes → bytes → Prop;
}.

Section Frames.
Context {V K : Type} `{FileModel V K}.
(** Only files of the volume [w] with [P] may differ. *)
Definition same (w : bytes) (P : bytes → Prop) (v v' : V) : Prop := orderly v → orderly v' ∧
  (∀ u q, u ≠ w ∨ ¬ P q → fileAt v' u q = fileAt v u q) ∧ (∀ u, u ≠ w → dirsOf v' u ⊆ dirsOf v u).
Definition quiet (v v' : V) : Prop := orderly v → orderly v' ∧ (∀ u q, fileAt v' u q = fileAt v u q) ∧ (∀ u, dirsOf v' u ⊆ dirsOf v u).
End Frames.

Class FileOpsLaws (V K : Type) `{FileOps V K, FileModel V K} := {
  ops_tree u p t v c : orderly v → fileAt v u p = Some c → fileAt v u (p ++ 47 :: t) = None;
  ops_scan u p v : plain p → let '((st, _), l, v') := op_scan u p v in
    quiet (K := K) v v' ∧ (st ≠ StOk → l = []) ∧ (orderly v → st = StOk →
      NoDup (name <$> l) ∧ (∀ e, e ∈ l → 47 ∉ name e ∧ PathUtil.idle (name e) = false ∧ (isDir e = true → TransferEngine.joinRel p (name e) ∈ dirsOf v u)) ∧
      ∀ n rest c, 47 ∉ n → PathUtil.idle n = false → PathUtil.isPartName n = false → descends rest →
        fileAt v u (TransferEngine.joinRel p n ++ rest) = Some c →
        ∃ e, e ∈ l ∧ name e = n ∧ (isDir e = true → rest ≠ []));
  ops_stat u p v : plain p → let '((st, _), e, v') := op_stat u p v in
    quiet (K := K) v v' ∧ (orderly v → st = StOk → ∃ x, e = Some x ∧
      if isDir x then fileAt v u p = None ∧ p ∈ dirsOf v u else is_Some (fileAt v u p));
  ops_mkdir u p v : plain p → same (K := K) u (λ _, False) v (op_mkdir u p v).2;
  ops_remove u p b v : plain p → same (K := K) u (under p) v (op_remove u p b v).2 ∧
    (orderly v → dirsOf (op_remove u p b v).2 u ⊆ dirsOf v u);
  ops_rename u a b v : plain a → plain b → let '((st, _), v') := op_rename u a b v in
    orderly v → orderly v' ∧ (st ≠ StOk → ∀ w q, fileAt v' w q = fileAt v w q) ∧
    (st = StOk → (∀ q, under b q → fileAt v u q = None) ∧ (∀ w q, w ≠ u ∨ ¬ under a q ∧ ¬ under b q → fileAt v' w q = fileAt v w q) ∧
       ∀ rest c, descends rest → fileAt v u (a ++ rest) = Some c → fileAt v' u (b ++ rest) = Some c);
  ops_openRead u p v : plain p → let '((st, _), len, v') := op_openRead u p v in
    quiet (K := K) v v' ∧ (orderly v → st = StOk → ∃ c, fileAt v u p = Some c ∧ Z.of_nat (length c) <= len);
  ops_read u p off n v c : plain p → orderly v → fileAt v u p = Some c → (0 < n)%nat → let '(got, err, v') := op_read u p off n v in
    ∃ k, got = take k (drop off c) ∧ (got = [] → err = false → (length c <= off)%nat);
  ops_read_quiet u p off n v : quiet (K := K) v (op_read u p off n v).2;
  ops_createWriter u p v : plain p → let '((st, _), k, v') := op_createWriter u p v in
    same (K := K) u (λ q, q = partOf p) v v' ∧
    (orderly v → st = StOk → ∃ x, k = Some x ∧ sinkOf x u p ∧ fileAt v' u (partOf p) = Some []);
  ops_write u p k d data v : sinkOf k u p → let '(ok, k', v') := op_write data k v in
    same (K := K) u (λ q, q = partOf p) v v' ∧ sinkOf k' u p ∧
    (orderly v → ok = true → fileAt v u (partOf p) = Some d → fileAt v' u (partOf p) = Some (d ++ data));
  ops_commit u p k d v : sinkOf k u p → fileAt v u (partOf p) = Some d → let '(ok, k', v') := op_commit k v in
    same (K := K) u (λ q, q = p ∨ q = partOf p) v v' ∧ (ok = false → sinkOf k' u p) ∧
    (∀ w, same (K := K) u (λ q, q = partOf p) w (op_destroy k' w)) ∧ (orderly v → ok = true → fileAt v' u p = Some d);
  ops_abort u p k v : sinkOf k u p → let '(k', v') := op_abort k v in
    same (K := K) u (λ q, q = partOf p) v v' ∧ sinkOf k' u p;
  ops_destroy u p k v : sinkOf k u p → same (K := K) u (λ q, q = partOf p) v (op_destroy k v);
  ops_freeBytes u v : quiet (K := K) v (op_freeBytes u v).2;
}.
