(* ===== verification/TransferSafety.v ===== *)
(** * A transfer loses nothing

    The theorems about [TransferEngine.run], from the laws of [FileOpsLaws]: whatever
    fails, whenever it is stopped, a file of the source stays or has its copy; a report
    without an error means that everything was copied; a move inside a volume keeps
    every file but those it replaces. *)
From S2P Require Import Prelude Text PathUtil AtomicFile FileUpload TransferEngine.
#[local] Open Scope Z_scope.

Module TransferSafety.
Import TransferEngine.
#[local] Abbreviation root := ([47] : bytes).

Lemma under_refl p : under p p.
Proof. exists []. split; [by rewrite app_nil_r|by left]. Qed.

Lemma partOf_ne p : partOf p ≠ p.
Proof. apply AtomicFile.part_ne. Qed.

Lemma joinRel_wf dir nm : dir ≠ root → joinRel dir nm = dir ++ 47 :: nm.
Proof. intros H. unfold joinRel. apply bytes_eqb_neq in H. by rewrite H. Qed.

(** A child's path, its names and its shape. *)
Lemma child_path dir nm p : PathUtil.wf_path dir → PathUtil.normalizeChild dir nm = Some p →
  PathUtil.wf_path p ∧ p = joinRel dir nm ∧ (2 <= length p)%nat ∧ PathUtil.isValidName nm = true.
Proof.
  intros Hw H. pose proof (PathUtil.child_parts _ _ _ H) as (Hp & Hn & _).
  assert (Hv : PathUtil.isValidName nm = true).
  { unfold PathUtil.normalizeChild in H. by destruct (PathUtil.isValidName nm). }
  destruct (PathUtil.valid_plain _ Hv) as (Hs & Hne & _). destruct Hw as (l & -> & Hl & _). destruct Hp as (l' & -> & Hl' & Hd' & Hlen).
  rewrite !PathUtil.names_build in Hn by done. subst l'. split; [by exists (l ++ [nm])|].
  assert (Hj : PathUtil.buildPath (l ++ [nm]) = joinRel (PathUtil.buildPath l) nm).
  { rewrite PathUtil.build_snoc. unfold joinRel, PathUtil.buildPath. destruct l as [|x l]; [done|].
    case_bool_decide as E; [done|]. clear E. case_match eqn:E; [|done]. apply bytes_eqb_eq in E.
    cbn [forallb] in Hl. apply andb_true_iff in Hl as [Hx _]. apply PathUtil.valid_plain in Hx as (_ & Hx & _). destruct x; [done|]. discriminate. }
  split; [done|]. split; [|done]. rewrite Hj. unfold joinRel. destruct nm; [done|].
  case_match; [cbn; lia|]. rewrite length_app. cbn. lia.
Qed.

Lemma normal_wf raw p : PathUtil.normalize raw = Some p → PathUtil.wf_path p.
Proof. intros (Ho & Hl & ->)%PathUtil.normalize_Some. destruct (PathUtil.okNames_valid _ Ho) as [Hv Hd]. eexists. by split_and!. Qed.

Lemma deep_path raw p : PathUtil.normalize raw = Some p → p ≠ root → PathUtil.wf_path p ∧ (2 <= length p)%nat.
Proof.
  intros (Ho & Hl & ->)%PathUtil.normalize_Some Hr. destruct (PathUtil.okNames_valid _ Ho) as [Hv Hd]. split; [eexists; by split_and!|].
  unfold PathUtil.buildPath in *. destruct (PathUtil.names raw) as [|x l]; [done|]. cbn [forallb] in Hv. apply andb_true_iff in Hv as [Hx _].
  apply PathUtil.valid_plain in Hx as (_ & Hx & _). destruct x; [done|]. cbn. lia.
Qed.

Lemma joinRel_deep p a nm : (2 <= length p)%nat → joinRel (p ++ a) nm = p ++ a ++ 47 :: nm.
Proof.
  intros Hp. rewrite joinRel_wf, app_assoc; [done|]. intros E. apply (f_equal length) in E. rewrite length_app in E. cbn in E. lia.
Qed.

(** ** Walking down *)

(** A way down that a walk can take: no name on it is that of a part file. *)
Inductive visible : bytes → Prop :=
  | visible_here : visible []
  | visible_down n rest : 47 ∉ n → PathUtil.idle n = false → PathUtil.isPartName n = false → visible rest → visible (47 :: n ++ rest).

Lemma visible_descends rest : visible rest → descends rest.
Proof. destruct 1; [by left|right; by eexists]. Qed.

Lemma visible_app a b : visible a → visible b → visible (a ++ b).
Proof. induction 1; [done|]. intros Hb. cbn. rewrite <- app_assoc. constructor; auto. Qed.

Lemma visible_child nm : PathUtil.isValidName nm = true → visible (47 :: nm).
Proof.
  intros Hv. destruct (PathUtil.valid_plain _ Hv) as (Hs & _ & Hn). rewrite <- (app_nil_r nm). constructor; [done|done| |constructor].
  unfold PathUtil.isValidName in Hv. case_bool_decide; [done|]. cbn [orb] in Hv. destruct (_ <? _)%nat; [done|].
  destruct (bytes_eqb nm [46] || bytes_eqb nm [46; 46]); [done|]. by destruct (PathUtil.isPartName nm).
Qed.

Lemma idle_nonempty n : PathUtil.idle n = false → n ≠ [].
Proof. by intros H ->. Qed.

Lemma buildPath_eq l : l ≠ [] → PathUtil.buildPath l = concat (cons 47 <$> l).
Proof. intros Hl. unfold PathUtil.buildPath. destruct l; [done|]. by case_bool_decide. Qed.

Lemma wf_plain p : PathUtil.wf_path p → plain p.
Proof.
  intros (l & -> & Hv & _). exists l. split; [done|]. apply Forall_forall. intros n Hn. rewrite forallb_forall in Hv.
  destruct (PathUtil.valid_plain n) as (H1 & _ & H2); [by apply Hv, list_elem_of_In|done].
Qed.

Lemma plain_child dir n : plain dir → 47 ∉ n → PathUtil.idle n = false → plain (joinRel dir n).
Proof.
  intros (l & -> & Hl) Hn Hi. exists (l ++ [n]). split; [|by apply Forall_app; split; [|constructor]].
  rewrite PathUtil.build_snoc. unfold joinRel. destruct l as [|x l]; [done|]. rewrite buildPath_eq by done.
  case_match eqn:E; [|done]. apply bytes_eqb_eq in E. apply Forall_cons in Hl as [[_ Hx] _]. apply idle_nonempty in Hx.
  destruct x; [done|]. discriminate.
Qed.

Lemma plain_app p a : plain p → (2 <= length p)%nat → visible a → plain (p ++ a).
Proof.
  intros Hp Hl Ha. revert p Hp Hl. induction Ha as [|n rest Hn Hi _ _ IH]; intros p Hp Hl; [by rewrite app_nil_r|].
  replace (p ++ 47 :: n ++ rest) with (joinRel p n ++ rest).
  - apply IH; [by apply plain_child|]. rewrite <- (app_nil_r p), joinRel_deep by done. rewrite !length_app. lia.
  - rewrite <- (app_nil_r p) at 1. rewrite joinRel_deep by done. by rewrite <- !app_assoc.
Qed.

(** Two names, each up to its slash. *)
Lemma name_split (n n' t t' : bytes) : 47 ∉ n → 47 ∉ n' → descends t → descends t' → n ++ t = n' ++ t' → n = n' ∧ t = t'.
Proof.
  intros Hn Hn' Ht Ht' E. revert n' Hn' E. induction n as [|x n IH]; intros [|y n'] Hn' E; cbn in E; [done| | |].
  - destruct Ht as [->|[u ->]]; [done|]. injection E as <- _. destruct Hn'. by left.
  - destruct Ht' as [->|[u ->]]; [done|]. injection E as -> _. destruct Hn. by left.
  - injection E as -> E. apply not_elem_of_cons in Hn as [_ Hn], Hn' as [_ Hn']. destruct (IH Hn n' Hn' E) as [-> ->]. done.
Qed.

Lemma isPartName_part n : n ≠ [] → PathUtil.isPartName (n ++ PathUtil.kUploadPartSuffix) = true.
Proof.
  intros Hn. unfold PathUtil.isPartName. rewrite length_app. 
  destruct (Nat.leb_spec (length n + length (PathUtil.kUploadPartSuffix)) (length (PathUtil.kUploadPartSuffix))) as [Hl|_]; [destruct n; [done|cbn in Hl; lia]|].
  rewrite Nat.add_sub, drop_app_length. apply bytes_eqb_refl.
Qed.

Lemma part_slashless : 47 ∉ PathUtil.kUploadPartSuffix.
Proof. by apply (bool_decide_unpack (47 ∉ PathUtil.kUploadPartSuffix)). Qed.

(** No visible file is the part of one. *)
Lemma visible_no_part a b : visible a → visible b → a ≠ b ++ PathUtil.kUploadPartSuffix.
Proof.
  pose proof isPartName_part as Hpart. pose proof part_slashless as Hslash.
  assert (Hne : PathUtil.kUploadPartSuffix ≠ []) by done. revert Hpart Hslash Hne.
  generalize PathUtil.kUploadPartSuffix as suf. intros suf Hpart Hslash Hsuf Ha Hb. revert a Ha. induction Hb as [|n' t' Hn' Hne' _ Hb IH]; intros a Ha E.
  - cbn in E. subst a. destruct Ha; [done|]. apply Hslash. by left.
  - apply idle_nonempty in Hne'. destruct Ha as [|n t Hn Hne Hp Ha]; [discriminate E|]. cbn in E. injection E as E. rewrite <- app_assoc in E.
    destruct Hb as [|m u Hm Hmne Hmp Hb].
    + rewrite app_nil_l in E. destruct Ha as [|m u Hm _ _ Ha].
      * rewrite app_nil_r in E. subst n. by rewrite Hpart in Hp.
      * assert (Hin : 47 ∈ n' ++ suf) by (rewrite <- E; apply elem_of_app; right; by left).
        apply elem_of_app in Hin as [?|Hin]; [done|]. by apply Hslash.
    + destruct (name_split n n' t ((47 :: m ++ u) ++ suf)) as [-> Et]; try done.
      * by apply visible_descends.
      * right. by eexists.
      * by apply (IH _ Ha).
Qed.

(** A walk over directories from [top]: what it has been to and what it has to go to are
    different directories of [D]. *)
Definition walking (top : bytes) (D seen queue : list bytes) : Prop :=
  NoDup (seen ++ queue) ∧ seen ++ queue ⊆ D ∧
  ∀ x, x ∈ seen ++ queue → (∃ a, x = top ++ a) ∧ (x = top ∨ ∃ p n, x = p ++ 47 :: n ∧ 47 ∉ n ∧ p ∈ seen).

Lemma walking_start top D : top ∈ D → walking top D [] [top].
Proof.
  intros Hin. split_and!; [apply NoDup_singleton|by intros x ->%list_elem_of_singleton|].
  intros x ->%list_elem_of_singleton. split; [exists []; by rewrite app_nil_r|by left].
Qed.

Lemma slash_split (p p' n n' : bytes) : 47 ∉ n → 47 ∉ n' → p ++ 47 :: n = p' ++ 47 :: n' → p = p' ∧ n = n'.
Proof.
  intros Hn Hn' E. assert (Er : reverse n ++ 47 :: reverse p = reverse n' ++ 47 :: reverse p').
  { apply (f_equal reverse) in E. rewrite !reverse_app, !reverse_cons, <- !app_assoc in E. exact E. }
  apply name_split in Er as [E1 E2]; rewrite ?elem_of_reverse; try done; [|right; by eexists..].
  injection E2 as E2. by apply (inj reverse) in E1, E2.
Qed.

Lemma walking_step top D seen p queue names : walking top D seen (p :: queue) → NoDup names →
  (∀ n, n ∈ names → 47 ∉ n ∧ p ++ 47 :: n ∈ D) →
  walking top D (seen ++ [p]) (queue ++ ((λ n, p ++ 47 :: n) <$> names)).
Proof.
  intros (Hnd & Hin & Hwhy) Hnames Hch. assert (Eq : seen ++ p :: queue = (seen ++ [p]) ++ queue) by (by rewrite <- app_assoc).
  assert (Hp : ∃ a, p = top ++ a) by (apply Hwhy; rewrite Eq; apply elem_of_app; left; apply elem_of_app; right; by left).
  assert (Hold : ∀ x, x ∈ (seen ++ [p]) ++ queue → x ∈ D ∧ (∃ a, x = top ++ a) ∧
    (x = top ∨ ∃ p' n, x = p' ++ 47 :: n ∧ 47 ∉ n ∧ p' ∈ seen)) by (intros x Hx; rewrite <- Eq in Hx; auto).
  unfold walking. rewrite app_assoc. split_and!.
  - apply NoDup_app. split_and!.
    + by rewrite <- Eq.
    + intros x Hx (n & -> & Hn)%list_elem_of_fmap. destruct (Hold _ Hx) as (_ & _ & [E|(p' & n' & E & Hn' & Hp')]).
      * destruct Hp as [a ->]. apply (f_equal length) in E. rewrite !length_app in E. cbn in E. lia.
      * apply slash_split in E as [-> ->]; [|by apply Hch|done]. apply NoDup_app in Hnd as (_ & Hd & _).
        apply (Hd p' Hp'). by left.
    + apply NoDup_fmap_2_strong; [|done]. intros n n' Hn Hn' E. by apply app_inv_head in E as [= ->].
  - intros x [Hx|(n & -> & Hn)%list_elem_of_fmap]%elem_of_app; [by apply Hold|by apply Hch].
  - intros x [Hx|(n & -> & Hn)%list_elem_of_fmap]%elem_of_app.
    + destruct (Hold _ Hx) as (_ & Ha & [E|(p' & n' & E & Hn' & Hp')]); (split; [done|]); [by left|right].
      exists p', n'. split_and!; [done|done|]. apply elem_of_app. by left.
    + destruct Hp as [a Hp]. split; [exists (a ++ 47 :: n); rewrite Hp; by rewrite <- app_assoc|]. right. exists p, n.
      split_and!; [done|by apply Hch|]. apply elem_of_app. right. by left.
Qed.

Lemma walking_fuel top D seen p queue : walking top D seen (p :: queue) → (length seen < length D)%nat.
Proof.
  intros (Hnd & Hin & _). pose proof (NoDup_submseteq _ _ Hnd Hin) as Hl.
  apply submseteq_length in Hl. rewrite length_app in Hl. cbn in Hl. lia.
Qed.

Section Safety.
Context {V K : Type} `{FileOpsLaws V K}.
Context (cancel : nat → bool) (req : TransferRequest).
#[local] Abbreviation src := (srcVolume req).
#[local] Abbreviation dst := (dstVolume req).
#[local] Abbreviation R := (Runner V).
#[local] Abbreviation same := (same (K := K)).
#[local] Abbreviation quiet := (quiet (K := K)).
#[local] Abbreviation orderly := (orderly (K := K)).
#[local] Abbreviation fileAt := (fileAt (K := K)).
#[local] Abbreviation dirsOf := (dirsOf (K := K)).

(** Something went wrong, or was stopped, and the report says so. *)
Definition bad (r : R) : Prop := error (report r) ≠ [] ∨ cancelled (report r) = true.

Definition spec {A} (m : M V A) (r : R) (Q : A → R → Prop) : Prop := ∃ a r', m r = Some (a, r') ∧ Q a r'.

Lemma spec_value {A} (a : A) r (Q : A → R → Prop) : Q a r → spec (mret a) r Q.
Proof. intros HQ. by exists a, r. Qed.

Lemma spec_seq {A B} (m : M V A) (k : A → M V B) r (Q : B → R → Prop) :
  spec m r (λ a r', spec (k a) r' Q) → spec (m ≫= k) r Q.
Proof.
  intros (a & r1 & E & b & r2 & E2 & HQ). exists b, r2. split; [|done]. unfold mbind, M_bind. by rewrite E.
Qed.

Lemma spec_weaken {A} (m : M V A) r (Q Q' : A → R → Prop) : spec m r Q → (∀ a r', Q a r' → Q' a r') → spec m r Q'.
Proof. intros (a & r1 & E & HQ) Hm. exists a, r1. auto. Qed.

(** The same volumes, and a report that is no better. *)
Definition noted_only (r r' : R) : Prop := vols r' = vols r ∧ (bad r → bad r').

Lemma getReport_spec {A} (f : TransferReport → A) r (Q : A → R → Prop) : Q (f (report r)) r → spec (getReport f) r Q.
Proof. intros HQ. by exists (f (report r)), r. Qed.

Lemma getDetail_spec r (Q : bytes → R → Prop) : (∀ d, Q d r) → spec getDetail r Q.
Proof. intros HQ. by exists (detail r), r. Qed.

Definition harmless (f : TransferReport → TransferReport) : Prop :=
  ∀ x, error (f x) = error x ∧ cancelled (f x) = cancelled x.

Lemma onReport_spec f r (Q : unit → R → Prop) : harmless f → (∀ r', noted_only r r' → Q tt r') → spec (onReport f) r Q.
Proof.
  intros Hf HQ. eexists tt, _. split; [reflexivity|]. apply HQ. split; [done|]. unfold bad. cbn. destruct (Hf (report r)) as [-> ->]. done.
Qed.

Lemma tell_spec r (Q : unit → R → Prop) : (∀ r', noted_only r r' → Q tt r') → spec tell r Q.
Proof. intros HQ. eexists tt, _. split; [reflexivity|]. by apply HQ. Qed.

Lemma progress_spec b r (Q : unit → R → Prop) : (∀ r', noted_only r r' → Q tt r') → spec (progress b) r Q.
Proof.
  intros HQ. unfold spec, progress, tell. destruct (negb b && _); eexists tt, _; (split; [reflexivity|]); by apply HQ.
Qed.

Lemma setDetail_spec d r (Q : unit → R → Prop) : (∀ r', noted_only r r' → Q tt r') → spec (setDetail d) r Q.
Proof. intros HQ. eexists tt, _. split; [reflexivity|]. by apply HQ. Qed.

Lemma noted_spec a r (Q : FileStatus → R → Prop) : (∀ r', noted_only r r' → Q a.1 r') → spec (noted a) r Q.
Proof.
  intros HQ. unfold noted. destruct a as [st [d|]]; cbn.
  - apply spec_seq, setDetail_spec. intros. by apply spec_value, HQ.
  - by apply spec_value, HQ.
Qed.

Lemma cancelRequested_spec r (Q : bool → R → Prop) :
  (∀ b r', noted_only r r' → (b = true → bad r') → Q b r') → spec (cancelRequested cancel) r Q.
Proof.
  intros HQ. unfold spec, cancelRequested. destruct (cancel (asked r)); eexists _, _; (split; [reflexivity|]); apply HQ; try done.
  - split; [done|]. by right.
  - by right.
Qed.

Lemma messageFor_some st why : FileStatusText.messageFor st ++ why ≠ [].
Proof. by destruct st. Qed.

Lemma fail_spec path st why r (Q : unit → R → Prop) : (∀ r', noted_only r r' → bad r' → Q tt r') → spec (fail path st why) r Q.
Proof.
  intros HQ. eexists tt, _. split; [reflexivity|].
  match goal with |- Q tt ?r' => assert (Hb : bad r') end.
  { left. cbn. case_bool_decide; [apply messageFor_some|done]. }
  by apply HQ.
Qed.

Lemma call_spec {A} (f : V → A * V) r (Q : A → R → Prop) :
  (∀ r', vols r' = (f (vols r)).2 → (bad r → bad r') → Q (f (vols r)).1 r') → spec (call f) r Q.
Proof. intros HQ. unfold spec, call. destruct (f (vols r)) as [a v]. eexists a, _. split; [reflexivity|]. by apply HQ. Qed.

Lemma destroy_spec out r (Q : unit → R → Prop) :
  (∀ r', vols r' = op_destroy out (vols r) → (bad r → bad r') → Q tt r') → spec (destroy_ out) r Q.
Proof. intros HQ. unfold destroy_. by apply call_spec. Qed.

(** ** Frames *)

Lemma quiet_refl v : quiet v v.
Proof. done. Qed.
Lemma quiet_trans v1 v2 v3 : quiet v1 v2 → quiet v2 v3 → quiet v1 v3.
Proof.
  intros Hx Hy Ho. destruct (Hx Ho) as (Ho2 & F1 & D1). destruct (Hy Ho2) as (Ho3 & F2 & D2).
  split_and!; [done|intros; by rewrite F2, F1|intros u x Hin; by apply D1, D2].
Qed.
Lemma quiet_same w P v v' : quiet v v' → same w P v v'.
Proof. intros Hx Ho. destruct (Hx Ho) as (? & F & D). split_and!; auto. Qed.
Lemma same_refl w P v : same w P v v.
Proof. done. Qed.
Lemma same_trans w P v1 v2 v3 : same w P v1 v2 → same w P v2 v3 → same w P v1 v3.
Proof.
  intros Hx Hy Ho. destruct (Hx Ho) as (Ho2 & F1 & D1). destruct (Hy Ho2) as (Ho3 & F2 & D2).
  split_and!; [done|intros; by rewrite F2, F1|intros u Hu x Hin; by apply D1, D2].
Qed.
Lemma same_mono w (P P' : bytes → Prop) v v' : same w P v v' → (∀ q, P q → P' q) → same w P' v v'.
Proof.
  intros Hx HP Ho. destruct (Hx Ho) as (? & F & D). split_and!; [done| |done].
  intros u q [Hu|Hq]; apply F; [by left|right]. auto.
Qed.

(** What a step of the transfer may do: files of the destination with [P], and the
    report gets no better. *)
Definition kept (P : bytes → Prop) (r r' : R) : Prop := same dst P (vols r) (vols r') ∧ (bad r → bad r').

Lemma kept_refl P r : kept P r r.
Proof. done. Qed.
Lemma kept_trans P r1 r2 r3 : kept P r1 r2 → kept P r2 r3 → kept P r1 r3.
Proof. intros [S1 B1] [S2 B2]. split; [by eapply same_trans|auto]. Qed.
Lemma kept_mono (P P' : bytes → Prop) r r' : kept P r r' → (∀ q, P q → P' q) → kept P' r r'.
Proof. intros [S1 B1] HP. split; [by eapply same_mono|done]. Qed.
Lemma kept_noted P r r' : noted_only r r' → kept P r r'.
Proof. intros [E B]. split; [rewrite E; apply same_refl|done]. Qed.
Lemma kept_same P r v' r' : vols r' = v' → (bad r → bad r') → same dst P (vols r) v' → kept P r r'.
Proof. intros <- B S. by split. Qed.
Lemma kept_orderly P r r' : kept P r r' → orderly (vols r) → orderly (vols r').
Proof. intros [S _] Ho. by destruct (S Ho). Qed.
Lemma kept_file P r r' u q : kept P r r' → orderly (vols r) → u ≠ dst ∨ ¬ P q → fileAt (vols r') u q = fileAt (vols r) u q.
Proof. intros [S _] Ho. destruct (S Ho) as (_ & F & _). apply F. Qed.
Lemma kept_dirs P r r' u : kept P r r' → orderly (vols r) → u ≠ dst → dirsOf (vols r') u ⊆ dirsOf (vols r) u.
Proof. intros [S _] Ho. destruct (S Ho) as (_ & _ & D). apply D. Qed.

(** ** One file *)

Lemma copyWindows_spec c n s d off out r : plain s → orderly (vols r) → src ≠ dst → fileAt (vols r) src s = Some c →
  sinkOf out dst d → fileAt (vols r) dst (partOf d) = Some (take off c) → (off <= length c)%nat → (length c - off < n)%nat →
  spec (copyWindows cancel req n s off out) r (λ '(ok, out') r',
    kept (λ q, q = partOf d) r r' ∧ sinkOf out' dst d ∧
    if ok : bool then fileAt (vols r') dst (partOf d) = Some c else bad r').
Proof.
  intros Ps Ho Hne. revert off out r Ho. induction n as [|n IH]; intros off out r Ho Hs Hk Hp Hoff Hn; [lia|]. cbn [copyWindows].
  apply spec_seq, call_spec. intros r1 E1 B1.
  pose proof (ops_read src s off kFileChunk (vols r) c Ps Ho Hs ltac:(unfold kFileChunk; lia)) as Hr.
  pose proof (ops_read_quiet src s off kFileChunk (vols r)) as Hq.
  destruct (op_read src s off kFileChunk (vols r)) as [[got err] v1]. cbn [fst snd] in *. destruct Hr as (k & Hgot & Hend).
  assert (K1 : kept (λ q, q = partOf d) r r1) by (eapply kept_same; [exact E1|done|by apply quiet_same]).
  destruct (Hq Ho) as (Ho1 & F1 & _). rewrite <- E1 in *. clear Hq.
  case_bool_decide as Hg.
  - destruct err.
    + apply spec_seq, call_spec. intros r2 E2 B2. pose proof (ops_abort dst d out (vols r1) Hk) as Ha.
      destruct (op_abort out (vols r1)) as [out2 v2]. cbn [fst snd] in *. destruct Ha as [Ha Hk2].
      apply spec_seq, fail_spec. intros r3 N3 B3. apply spec_value. split_and!; [|done|done].
      eapply kept_trans; [exact K1|]. eapply kept_trans; [by eapply kept_same|by apply kept_noted].
    + apply spec_value. split_and!; [done|done|]. rewrite F1, Hp. f_equal. apply take_ge. auto.
  - apply spec_seq, call_spec. intros r2 E2 B2. pose proof (ops_write dst d out (take off c) got (vols r1) Hk) as Hw.
    destruct (op_write got out (vols r1)) as [[ok out2] v2]. cbn [fst snd] in *. destruct Hw as (Hw & Hk2 & Hd).
    assert (K2 : kept (λ q, q = partOf d) r r2) by (eapply kept_trans; [exact K1|by eapply kept_same]).
    pose proof (kept_orderly _ _ _ K2 Ho) as Ho2. destruct ok; cbn [negb].
    + apply spec_seq, onReport_spec; [done|]. intros r3 N3. apply spec_seq, progress_spec. intros r4 N4.
      apply spec_seq, cancelRequested_spec. intros stop r5 N5 Hstop.
      assert (K5 : kept (λ q, q = partOf d) r r5).
      { eapply kept_trans; [exact K2|]. eapply kept_trans; [by apply kept_noted|]. eapply kept_trans; by apply kept_noted. }
      assert (E5 : vols r5 = v2) by (destruct N3 as [N3 _], N4 as [N4 _], N5 as [N5 _]; congruence). destruct stop.
      * apply spec_seq, call_spec. intros r6 E6 B6. pose proof (ops_abort dst d out2 (vols r5) Hk2) as Ha.
        destruct (op_abort out2 (vols r5)) as [out3 v3]. cbn [fst snd] in *. destruct Ha as [Ha Hk3]. apply spec_value.
        split_and!; [|done|auto]. eapply kept_trans; [exact K5|by eapply kept_same].
      * assert (Hlen : (0 < length got)%nat) by (destruct got; [done|cbn; lia]).
        assert (Hcat : take off c ++ got = take (off + length got) c).
        { rewrite Hgot, length_take, length_drop. rewrite <- (take_take_drop c off (_ `min` _)). f_equal.
          destruct (Nat.le_ge_cases k (length c - off)); [by rewrite Nat.min_l|].
          rewrite Nat.min_r by lia. rewrite !take_ge by (rewrite length_drop; lia). done. }
        assert (Hmore : (off + length got <= length c)%nat) by (rewrite Hgot, length_take, length_drop; lia).
        eapply spec_weaken; [apply IH|].
        -- by apply (kept_orderly _ _ _ K5).
        -- rewrite (kept_file _ _ _ _ _ K5) by (auto; by left). done.
        -- done.
        -- rewrite E5, Hd, Hcat by (done || by rewrite F1). done.
        -- done.
        -- lia.
        -- intros [ok out4] r6 (K6 & Hk4 & Hok). split_and!; [by eapply kept_trans|done|done].
    + apply spec_seq, call_spec. intros r3 E3 B3. pose proof (ops_abort dst d out2 (vols r2) Hk2) as Ha.
      destruct (op_abort out2 (vols r2)) as [out3 v3]. cbn [fst snd] in *. destruct Ha as [Ha Hk3].
      apply spec_seq, fail_spec. intros r4 N4 B4. apply spec_value. split_and!; [|done|done].
      eapply kept_trans; [exact K2|]. eapply kept_trans; [by eapply kept_same|by apply kept_noted].
Qed.

(** What a copy of one file may touch. *)
Definition ownFiles (d q : bytes) : Prop := q = d ∨ q = partOf d.

Definition copied (s d : bytes) (r r' : R) (ok : bool) : Prop :=
  kept (ownFiles d) r r' ∧
  if ok then ∃ c, fileAt (vols r) src s = Some c ∧ fileAt (vols r') dst d = Some c else bad r'.

Lemma kept_part d r r' : kept (λ q, q = partOf d) r r' → kept (ownFiles d) r r'.
Proof. intros Hk. eapply kept_mono; [exact Hk|]. intros q ->. by right. Qed.

Lemma kept_own d r r' v' : vols r' = v' → (bad r → bad r') → same dst (λ q, q = partOf d) (vols r) v' → kept (ownFiles d) r r'.
Proof. intros E B S. apply kept_part. by eapply kept_same. Qed.

Lemma copyOpened_spec len c s d out r : plain s → orderly (vols r) → src ≠ dst → fileAt (vols r) src s = Some c →
  sinkOf out dst d → fileAt (vols r) dst (partOf d) = Some [] → Z.of_nat (length c) <= len →
  spec (copyOpened cancel req len s out) r (λ ok r', copied s d r r' ok).
Proof.
  intros Ps Ho Hne Hs Hk Hp Hlen. unfold copyOpened. apply spec_seq.
  eapply spec_weaken; [by apply (copyWindows_spec c _ s d 0); rewrite ?take_0; unfold copyRounds; auto; lia|].
  intros [whole out1] r1 (K1 & Hk1 & Hw). pose proof (kept_orderly _ _ _ K1 Ho) as Ho1. apply kept_part in K1. destruct whole; cbn [negb].
  - apply spec_seq, call_spec. intros r2 E2 B2. pose proof (ops_commit dst d out1 c (vols r1) Hk1 Hw) as Hc.
    destruct (op_commit out1 (vols r1)) as [[ok out2] v2]. cbn [fst snd] in *. destruct Hc as (Hc & Hk2 & Hx & Hd).
    assert (K2 : kept (ownFiles d) r r2) by (eapply kept_trans; [exact K1|by eapply kept_same]). destruct ok; cbn [negb].
    + apply spec_seq, onReport_spec; [done|]. intros r3 N3. apply spec_seq, progress_spec. intros r4 N4.
      apply spec_seq, destroy_spec. intros r5 E5 B5. apply spec_value.
      assert (K4 : kept (ownFiles d) r r4).
      { eapply kept_trans; [exact K2|]. eapply kept_trans; by apply kept_noted. }
      assert (E4 : vols r4 = v2) by (destruct N3 as [N3 _], N4 as [N4 _]; congruence).
      assert (K5 : kept (λ q, q = partOf d) r4 r5) by (eapply kept_same; [exact E5|done|apply Hx]). split.
      * eapply kept_trans; [exact K4|by apply kept_part].
      * exists c. split; [done|]. rewrite (kept_file _ _ _ _ _ K5); [rewrite E4; by apply Hd|by apply (kept_orderly _ _ _ K4)|].
        right. intros Ed. by apply (partOf_ne d).
    + clear Hx. apply spec_seq, call_spec. intros r3 E3 B3. pose proof (ops_abort dst d out2 (vols r2) (Hk2 eq_refl)) as Ha.
      destruct (op_abort out2 (vols r2)) as [out3 v3]. cbn [fst snd] in *. destruct Ha as [Ha Hk3].
      apply spec_seq, fail_spec. intros r4 N4 B4. apply spec_seq, destroy_spec. intros r5 E5 B5. apply spec_value.
      pose proof (ops_destroy dst d out3 (vols r4) Hk3) as Hx. split; [|auto].
      apply (kept_trans _ _ r2); [exact K2|]. apply (kept_trans _ _ r3); [by apply (kept_own _ _ _ v3)|].
      apply (kept_trans _ _ r4); [by apply kept_noted|by eapply kept_own].
  - apply spec_seq, destroy_spec. intros r2 E2 B2. apply spec_value.
    pose proof (ops_destroy dst d out1 (vols r1) Hk1) as Hx. split; [|auto].
    eapply kept_trans; [exact K1|by eapply kept_own].
Qed.

Lemma stat_spec vol p r (Q : FileStatus * option FileEntry → R → Prop) : plain p →
  (∀ st e r', vols r' = (op_stat vol p (vols r)).2 → (bad r → bad r') → quiet (vols r) (vols r') →
     (orderly (vols r) → st = StOk → ∃ x, e = Some x ∧
        if isDir x then fileAt (vols r) vol p = None ∧ p ∈ dirsOf (vols r) vol else is_Some (fileAt (vols r) vol p)) →
     Q (st, e) r') → spec (stat_ vol p) r Q.
Proof.
  intros Pp HQ. apply spec_seq, call_spec. intros r1 E1 B1. pose proof (ops_stat vol p (vols r) Pp) as Hs.
  destruct (op_stat vol p (vols r)) as [[[st d] e] v1]. cbn [fst snd] in *. destruct Hs as [Hq Hx].
  apply spec_seq, noted_spec. intros r2 [E2 B2]. apply spec_value. apply HQ; [congruence|auto| |auto]. by rewrite E2, E1.
Qed.

Lemma walk_spec vol p r (Q : FileStatus * list FileEntry → R → Prop) : plain p →
  (∀ st l r', (bad r → bad r') → quiet (vols r) (vols r') → (st ≠ StOk → l = []) →
     (orderly (vols r) → st = StOk →
       NoDup (name <$> l) ∧ (∀ e, e ∈ l → 47 ∉ name e ∧ PathUtil.idle (name e) = false ∧ (isDir e = true → joinRel p (name e) ∈ dirsOf (vols r) vol)) ∧
       ∀ n rest c, 47 ∉ n → PathUtil.idle n = false → PathUtil.isPartName n = false → descends rest →
         fileAt (vols r) vol (joinRel p n ++ rest) = Some c →
         ∃ e, e ∈ l ∧ name e = n ∧ (isDir e = true → rest ≠ [])) →
     Q (st, l) r') → spec (scan_ vol p) r Q.
Proof.
  intros Pp HQ. apply spec_seq, call_spec. intros r1 E1 B1. pose proof (ops_scan vol p (vols r) Pp) as Hs.
  destruct (op_scan vol p (vols r)) as [[[st d] l] v1]. cbn [fst snd] in *. destruct Hs as (Hq & Hn & Hx).
  apply spec_seq, noted_spec. intros r2 [E2 B2]. apply spec_value. apply HQ; [auto| |done|auto]. by rewrite E2, E1.
Qed.

Lemma kept_quiet P r r' : quiet (vols r) (vols r') → (bad r → bad r') → kept P r r'.
Proof. intros Hq B. split; [by apply quiet_same|done]. Qed.

Lemma copyFile_spec s d r : plain s → plain d → orderly (vols r) → src ≠ dst →
  spec (copyFile cancel req s d) r (λ ok r', copied s d r r' ok).
Proof.
  intros Ps Pd Ho Hne. unfold copyFile. apply spec_seq, stat_spec; [done|]. intros st e r1 _ B1 Q1 _.
  assert (K1 : kept (ownFiles d) r r1) by (by apply kept_quiet). apply spec_seq.
  apply (spec_weaken _ _ (λ _ r', kept (ownFiles d) r r' ∧ quiet (vols r) (vols r'))).
  { assert (Hd : ∀ b : bool, spec (mret b) r1 (λ _ r', kept (ownFiles d) r r' ∧ quiet (vols r) (vols r'))) by (intros; by apply spec_value).
    destruct st; try apply Hd. destruct e as [x|]; [|apply Hd]. destruct (negb (isDir x)); [|apply Hd].
    apply spec_seq, call_spec. intros r2 E2 B2. pose proof (ops_freeBytes dst (vols r1)) as Hf. rewrite <- E2 in Hf. apply spec_value.
    split; [eapply kept_trans; [exact K1|by apply kept_quiet]|by eapply quiet_trans]. }
  intros tooBig r2 [K2 Q2]. destruct tooBig.
  { apply spec_seq, fail_spec. intros r3 N3 B3. apply spec_value. split; [|done]. eapply kept_trans; [exact K2|by apply kept_noted]. }
  destruct (Q2 Ho) as (Ho2 & F2 & _). apply spec_seq, call_spec. intros r3 E3 B3. pose proof (ops_openRead src s (vols r2) Ps) as Hr.
  destruct (op_openRead src s (vols r2)) as [[[st3 d3] len] v3]. cbn [fst snd] in *. destruct Hr as [Q3 Hr].
  apply spec_seq, noted_spec. intros r4 [E4 B4]. cbn [fst].
  assert (K4 : kept (ownFiles d) r r4).
  { eapply kept_trans; [exact K2|]. eapply kept_trans; [eapply (kept_same _ r2); [exact E3|done|by apply quiet_same]|by apply kept_noted]. }
  destruct (Q3 Ho2) as (Ho3 & F3 & _). case_bool_decide as Hst; cbn [negb].
  2: { apply spec_seq, getDetail_spec. intros d0. apply spec_seq, fail_spec. intros r5 N5 B5. apply spec_value. split; [|done].
       eapply kept_trans; [exact K4|by apply kept_noted]. }
  destruct (Hr Ho2 Hst) as (c & Hc & Hlen). apply spec_seq, call_spec. intros r5 E5 B5.
  pose proof (ops_createWriter dst d (vols r4) Pd) as Hw.
  destruct (op_createWriter dst d (vols r4)) as [[[st5 d5] out] v5]. cbn [fst snd] in *. destruct Hw as [Hw Hout].
  apply spec_seq, noted_spec. intros r6 [E6 B6]. cbn [fst].
  assert (K5 : kept (ownFiles d) r r6).
  { apply (kept_trans _ _ r4); [exact K4|]. apply (kept_trans _ _ r5); [by apply (kept_own _ _ _ v5)|by apply kept_noted]. }
  assert (Ho4 : orderly (vols r4)) by (by apply (kept_orderly _ _ _ K4)).
  assert (Hfail : ∀ st, spec (d0 ← getDetail; _ ← fail s st d0; mret false) r6 (λ ok r', copied s d r r' ok)).
  { intros st'. apply spec_seq, getDetail_spec. intros d0. apply spec_seq, fail_spec. intros r7 N7 B7. apply spec_value.
    split; [|done]. eapply kept_trans; [exact K5|by apply kept_noted]. }
  destruct st5; try apply Hfail. destruct (Hout Ho4 eq_refl) as (x & -> & Hx & Hp).
  eapply spec_weaken; [apply (copyOpened_spec len c s d x r6 Ps)|].
  - by apply (kept_orderly _ _ _ K5).
  - done.
  - rewrite (kept_file _ _ _ _ _ K5) by (auto; by left). rewrite <- F2. done.
  - done.
  - rewrite E6, E5. done.
  - done.
  - intros ok r7 [K7 Hok]. split; [by eapply kept_trans|]. destruct ok; [|done]. destruct Hok as (c' & Hc' & Hd). exists c'. split; [|done].
    rewrite <- Hc'. symmetry. apply (kept_file _ _ _ _ _ K5); auto.
Qed.

(** ** One entry: a file, or a tree *)

Section Tree.
(** The entry at the source and at the destination. *)
Context (s d : bytes) (Ps : plain s) (Hs : (2 <= length s)%nat) (Hd : (2 <= length d)%nat) (Hne : src ≠ dst).

Definition ownTree (q : bytes) : Prop := ∃ rest, visible rest ∧ ownFiles (d ++ rest) q.

(** The copies made so far stay. *)
Definition stays (r r' : R) : Prop := ∀ rest c, visible rest → fileAt (vols r) src (s ++ rest) = Some c →
  fileAt (vols r) dst (d ++ rest) = Some c → fileAt (vols r') dst (d ++ rest) = Some c.

Lemma kept_src P r r' q : kept P r r' → orderly (vols r) → fileAt (vols r') src q = fileAt (vols r) src q.
Proof. intros Hk Ho. apply (kept_file _ _ _ _ _ Hk Ho). by left. Qed.

Lemma stays_trans P r1 r2 r3 : kept P r1 r2 → orderly (vols r1) → stays r1 r2 → stays r2 r3 → stays r1 r3.
Proof. intros Hk Ho S1 S2 rest c Hv Hx Hy. apply S2; [done|by rewrite (kept_src _ _ _ _ Hk Ho)|by apply S1]. Qed.

Lemma stays_quiet P r r' : kept P r r' → orderly (vols r) → (∀ q, ¬ P q) → stays r r'.
Proof. intros Hk Ho HP rest c _ _ Hy. rewrite (kept_file _ _ _ _ _ Hk Ho) by (right; apply HP). done. Qed.

Lemma copied_stays a r r' : orderly (vols r) → visible a → copied (s ++ a) (d ++ a) r r' true → stays r r'.
Proof.
  intros Ho Ha (Hk & c & Hc & Hc') rest c0 Hv Hx Hy. destruct (decide (rest = a)) as [->|Hra]; [congruence|].
  rewrite (kept_file _ _ _ _ _ Hk Ho); [done|]. right. intros [E|E]; [by apply app_inv_head in E|].
  unfold partOf, AtomicFile.partPath in E. rewrite <- app_assoc in E. apply app_inv_head in E. by apply (visible_no_part rest a).
Qed.

Lemma own_file a q : visible a → ownFiles (d ++ a) q → ownTree q.
Proof. intros Ha Hq. by exists a. Qed.

Lemma visitTree_spec a e r : orderly (vols r) → visible a → PathUtil.wf_path (d ++ a) →
  spec (visitTree cancel req (s ++ a) (d ++ a) e) r (λ '(ok, new) r',
    kept ownTree r r' ∧
    if ok : bool then
      stays r r' ∧ PathUtil.isValidName (name e) = true ∧ PathUtil.wf_path (d ++ a ++ 47 :: name e) ∧
      if isDir e then new = [mkPair (s ++ a ++ 47 :: name e) (d ++ a ++ 47 :: name e)]
      else new = [] ∧ ∃ c, fileAt (vols r) src (s ++ a ++ 47 :: name e) = Some c ∧
                           fileAt (vols r') dst (d ++ a ++ 47 :: name e) = Some c
    else bad r' ∧ new = []).
Proof.
  intros Ho Ha Hw. unfold visitTree. destruct (PathUtil.normalizeChild (d ++ a) (name e)) as [x|] eqn:Ex.
  2: { apply spec_seq, fail_spec. intros r1 N1 B1. apply spec_value. split; [by apply kept_noted|done]. }
  destruct (child_path _ _ _ Hw Ex) as (Hwx & -> & _ & Hv). rewrite !joinRel_deep in * by done. destruct (isDir e) eqn:Ed.
  - apply spec_seq, call_spec. intros r1 E1 B1. pose proof (ops_mkdir dst (d ++ a ++ 47 :: name e) (vols r) (wf_plain _ Hwx)) as Hm.
    destruct (op_mkdir dst _ (vols r)) as [[st dt] v1]. cbn [fst snd] in *.
    assert (K1 : kept (λ _, False) r r1) by (by eapply kept_same).
    assert (Ko : kept ownTree r r1) by (by eapply kept_mono). destruct (_ && _).
    + apply spec_seq, getDetail_spec. intros d0. apply spec_seq, fail_spec. intros r2 N2 B2. apply spec_value. split; [|done].
      eapply kept_trans; [exact Ko|by apply kept_noted].
    + apply spec_seq, onReport_spec; [done|]. intros r2 N2. apply spec_value.
      assert (K2 : kept (λ _, False) r r2) by (eapply kept_trans; [exact K1|by apply kept_noted]).
      split_and!; try done; [by eapply kept_mono|]. apply (stays_quiet _ _ _ K2 Ho). by intros ? [].
  - apply spec_seq, onReport_spec; [done|]. intros r1 N1. pose proof (kept_noted ownTree _ _ N1) as K1.
    assert (Ho1 : orderly (vols r1)) by (by apply (kept_orderly _ _ _ K1)). destruct N1 as [E1 B1].
    assert (Hva : visible (a ++ 47 :: name e)) by (by apply visible_app, visible_child).
    apply spec_seq. eapply spec_weaken; [apply copyFile_spec; [by apply plain_app|by apply wf_plain|done..]|]. intros ok r2 C2. apply spec_value.
    assert (K2 : kept ownTree r r2).
    { eapply kept_trans; [exact K1|]. eapply kept_mono; [apply C2|]. intros q. by apply own_file. }
    split; [done|]. destruct ok; [|split; [by apply C2|done]]. pose proof (copied_stays _ _ _ Ho1 Hva C2) as St.
    destruct C2 as (_ & c & Hc & Hc'). rewrite E1 in Hc. split_and!; try done.
    + intros rest c0 Hv0 Hx Hy. apply St; [done|by rewrite E1..].
    + by exists c.
Qed.

Definition childPair (a n : bytes) : DirPair := mkPair (s ++ a ++ 47 :: n) (d ++ a ++ 47 :: n).

Lemma visitAll_spec a entries r : orderly (vols r) → visible a → PathUtil.wf_path (d ++ a) →
  spec (visitAll cancel req (s ++ a) (d ++ a) entries) r (λ '(ok, new) r',
    kept ownTree r r' ∧ ∃ names, new = childPair a <$> names ∧
      sublist names (name <$> List.filter isDir entries) ∧
      Forall (λ n, PathUtil.isValidName n = true ∧ PathUtil.wf_path (d ++ a ++ 47 :: n)) names ∧
      if ok : bool then stays r r' ∧ ∀ e, e ∈ entries →
        if isDir e then name e ∈ names
        else ∃ c, fileAt (vols r) src (s ++ a ++ 47 :: name e) = Some c ∧ fileAt (vols r') dst (d ++ a ++ 47 :: name e) = Some c
      else bad r').
Proof.
  intros Ho Ha Hw. revert r Ho. induction entries as [|e entries IH]; intros r Ho; cbn [visitAll].
  { apply spec_value. split; [done|]. exists []. split_and!; [done|done|by apply Forall_nil|by intros ????|by intros e ?%elem_of_nil]. }
  apply spec_seq. eapply spec_weaken; [by apply visitTree_spec|]. intros [ok new] r1 [K1 H1'].
  pose proof (kept_orderly _ _ _ K1 Ho) as Ho1. apply spec_seq. eapply spec_weaken; [by apply IH|].
  intros [ok' new'] r2 (K2 & names & -> & Hsub & Hval & H2'). apply spec_value.
  split; [by eapply kept_trans|]. destruct ok.
  2: { destruct H1' as [B1 ->]. exists names. split_and!; [done| |done|cbn; by apply K2].
       cbn [List.filter]. destruct (isDir e); [|done]. cbn. by constructor. }
  destruct H1' as (St & Hv & Hwe & Hnew). cbn [andb List.filter]. destruct (isDir e) eqn:Ed.
  - subst new. exists (name e :: names). split_and!; [done|cbn; by constructor|by constructor|].
    destruct ok'; [|done]. destruct H2' as [St2 Hall]. split; [by eapply stays_trans|].
    intros x [->|Hx]%elem_of_cons; [rewrite Ed; by left|]. specialize (Hall x Hx). destruct (isDir x); [by right|].
    destruct Hall as (c & Hc & Hc'). exists c. by rewrite <- (kept_src _ _ _ _ K1 Ho).
  - destruct Hnew as (-> & c & Hc & Hc'). exists names. split_and!; [done|done|done|].
    destruct ok'; [|done]. destruct H2' as [St2 Hall]. split; [by eapply stays_trans|].
    intros x [->|Hx]%elem_of_cons.
    + rewrite Ed. exists c. split; [done|]. apply (St2 (a ++ 47 :: name e)); [by apply visible_app, visible_child| |done].
      by rewrite (kept_src _ _ _ _ K1 Ho).
    + specialize (Hall x Hx). destruct (isDir x); [done|].
      destruct Hall as (c1 & Hc1 & Hc1'). exists c1. by rewrite <- (kept_src _ _ _ _ K1 Ho).
Qed.

Definition entryPair (a : bytes) : DirPair := mkPair (s ++ a) (d ++ a).

Lemma childPair_entry a (names : list bytes) : childPair a <$> names = entryPair <$> ((λ n, a ++ 47 :: n) <$> names).
Proof. by rewrite <- list_fmap_compose. Qed.

Lemma dirNames_sublist entries : sublist (name <$> List.filter isDir entries) (name <$> entries).
Proof. induction entries as [|e l IH]; [constructor|]. cbn [List.filter fmap list_fmap]. destruct (isDir e); by constructor. Qed.

(** The directories from a queue, within the fuel: when it went well every file below
    them has its copy. *)
Lemma copyDirs_spec D n seen ways ok r : orderly (vols r) → dirsOf (vols r) src ⊆ D →
  walking s D seen ((λ a, s ++ a) <$> ways) → (length D < n + length seen)%nat →
  Forall visible ways → Forall (λ a, PathUtil.wf_path (d ++ a)) ways → (ok = false → bad r) →
  spec (copyDirs cancel req n (entryPair <$> ways) ok) r (λ ok' r', kept ownTree r r' ∧
    if ok' : bool then ok = true ∧ stays r r' ∧ ∀ a rest c, a ∈ ways → visible rest → rest ≠ [] →
      fileAt (vols r) src (s ++ a ++ rest) = Some c → fileAt (vols r') dst (d ++ a ++ rest) = Some c
    else bad r').
Proof.
  revert seen ways ok r. induction n as [|n IH]; intros seen [|a ways] ok r Ho HD Hwalk Hn Hvis Hwf Hbad; cbn [copyDirs fmap list_fmap].
  1,3: by apply spec_value; split; [done|]; destruct ok; [split_and!; [done|by intros ????|by intros a rest c ?%elem_of_nil]|auto].
  { apply walking_fuel in Hwalk. lia. }
  apply Forall_cons in Hvis as [Ha Hvis], Hwf as [Hwa Hwf]. change (entryPair a) with (mkPair (s ++ a) (d ++ a)). cbv iota.
  apply spec_seq, getReport_spec. destruct (cancelled (report r)) eqn:Ec.
  { apply spec_value. split; [done|]. by right. }
  apply spec_seq, walk_spec; [by apply plain_app|]. intros st entries r1 B1 Q1 Hnone Hscan. specialize (Hscan Ho).
  pose proof (kept_quiet (λ _, False) _ _ Q1 B1) as K1. pose proof (kept_orderly _ _ _ K1 Ho) as Ho1.
  pose proof (stays_quiet _ _ _ K1 Ho (λ q (x : False), x)) as St1. assert (K1o : kept ownTree r r1) by (by eapply kept_mono).
  apply spec_seq. eapply spec_weaken; [by apply (visitAll_spec a entries r1)|].
  intros [good new] r2 (K2 & names & -> & Hsub & Hval & H2'). pose proof (kept_orderly _ _ _ K2 Ho1) as Ho2.
  assert (HD2 : dirsOf (vols r2) src ⊆ D).
  { intros x Hx. apply HD, (kept_dirs _ _ _ _ K1 Ho Hne), (kept_dirs _ _ _ _ K2 Ho1 Hne), Hx. }
  rewrite childPair_entry. change (fmap entryPair ways) with (entryPair <$> ways). rewrite <- fmap_app.
  set (ways' := ways ++ _).
  assert (Hvis' : Forall visible ways').
  { apply Forall_app. split; [done|]. apply Forall_fmap. eapply Forall_impl; [exact Hval|]. intros x [Hx _]. by apply visible_app, visible_child. }
  assert (Hwf' : Forall (λ a, PathUtil.wf_path (d ++ a)) ways').
  { apply Forall_app. split; [done|]. apply Forall_fmap. eapply Forall_impl; [exact Hval|]. by intros x [_ Hx]. }
  assert (Hwalk' : walking s D (seen ++ [s ++ a]) ((λ a, s ++ a) <$> ways')).
  { unfold ways'. rewrite fmap_app, <- list_fmap_compose.
    replace (_ <$> names) with ((λ n, (s ++ a) ++ 47 :: n) <$> names) by (apply list_fmap_ext; intros; cbn; by rewrite <- app_assoc).
    apply walking_step; [done| |].
    - destruct (decide (st = StOk)) as [Hst|Hst].
      + destruct (Hscan Hst) as (Hnd & _ & _). eapply sublist_NoDup; [|exact Hsub]. eapply sublist_NoDup; [exact Hnd|apply dirNames_sublist].
      + rewrite (Hnone Hst) in Hsub. apply sublist_nil_r in Hsub as ->. constructor.
    - intros x Hx. destruct (decide (st = StOk)) as [Hst|Hst].
      + destruct (Hscan Hst) as (_ & Hent & _). assert (Hx' : x ∈ name <$> List.filter isDir entries) by (by eapply elem_of_sublist).
        apply list_elem_of_fmap in Hx' as (e & -> & He). apply list_elem_of_In, filter_In in He as [He Hed]. apply list_elem_of_In in He.
        destruct (Hent e He) as (Hsl & _ & Hd'). split; [done|]. specialize (Hd' Hed). rewrite joinRel_deep in Hd' by done.
        rewrite <- app_assoc. by apply HD.
      + rewrite (Hnone Hst) in Hsub. apply sublist_nil_r in Hsub as ->. by apply elem_of_nil in Hx. }
  assert (Hfuel : (length D < n + length (seen ++ [s ++ a]))%nat) by (rewrite length_app; cbn in *; lia).
  case_bool_decide as Hst; cbn [negb].
  - eapply spec_weaken; [apply (IH (seen ++ [s ++ a]) ways')|]; try done.
    { intros Hf. apply andb_false_iff in Hf as [->| ->]; [apply K2, B1; auto|done]. }
    intros ok' r3 [K3 H3']. split; [eapply kept_trans; [exact K1o|by eapply kept_trans]|]. destruct ok'; [|done].
    destruct H3' as ([-> ->]%andb_true_iff & St3 & Hall). destruct H2' as [St2 Hent]. destruct (Hscan Hst) as (_ & _ & Hcomplete).
    pose proof (stays_trans _ _ _ _ K2 Ho1 St2 St3) as St23. split_and!; [done|by eapply stays_trans|].
    intros a' rest c Hin Hv Hnn Hc.
    assert (Hc2 : ∀ q, fileAt (vols r2) src q = fileAt (vols r) src q).
    { intros q. by rewrite (kept_src _ _ _ _ K2 Ho1), (kept_src _ _ _ _ K1 Ho). }
    apply elem_of_cons in Hin as [->|Hin].
    2: { apply Hall; [apply elem_of_app; by left|done|done|]. by rewrite Hc2. }
    destruct Hv as [|nm rest Hnm Hnn' Hpn Hv]; [done|].
    destruct (Hcomplete nm rest c) as (e & He & <- & Hdir); [done|done|done|by apply visible_descends| |].
    { rewrite joinRel_deep by done. rewrite <- !app_assoc. exact Hc. }
    specialize (Hent e He). destruct (isDir e).
    + specialize (Hall (a ++ 47 :: name e) rest c). rewrite <- !app_assoc in Hall. apply Hall; [|done|auto|].
      * apply elem_of_app. right. apply list_elem_of_fmap. by exists (name e).
      * rewrite Hc2. exact Hc.
    + destruct Hent as (c' & Hc' & Hd'). rewrite (kept_src _ _ _ _ K1 Ho) in Hc'. destruct Hv as [|m rest Hm Hmn Hmp Hv].
      * rewrite app_nil_r in Hc |- *. rewrite Hc' in Hc. injection Hc as ->.
        apply (St3 (a ++ 47 :: name e)); [|by rewrite Hc2|done]. apply visible_app; [done|]. rewrite <- (app_nil_r (name e)). apply visible_down; [done|done|done|constructor].
      * exfalso. pose proof (ops_tree src (s ++ a ++ 47 :: name e) (m ++ rest) (vols r) c' Ho Hc') as Ht.
        replace ((s ++ a ++ 47 :: name e) ++ 47 :: m ++ rest) with (s ++ a ++ 47 :: name e ++ 47 :: m ++ rest) in Ht
          by (by rewrite <- !app_assoc).
        rewrite Ht in Hc. discriminate Hc.
  - apply spec_seq, getDetail_spec. intros d0. apply spec_seq, fail_spec. intros r3 N3 B3.
    pose proof (kept_noted ownTree _ _ N3) as K3. destruct N3 as [E3 _].
    eapply spec_weaken; [apply (IH (seen ++ [s ++ a]) ways')|]; rewrite ?E3; try done.
    intros ok' r4 [K4 H4']. split.
    + eapply kept_trans; [exact K1o|]. eapply kept_trans; [exact K2|by eapply kept_trans].
    + destruct ok'; [by destruct H4'|done].
Qed.

Lemma copyEntry_spec D n srcIsDir r : orderly (vols r) → dirsOf (vols r) src ⊆ D → (length D < n)%nat → PathUtil.wf_path d →
  (if srcIsDir : bool then fileAt (vols r) src s = None ∧ s ∈ D else is_Some (fileAt (vols r) src s)) →
  spec (copyEntry cancel req n s d srcIsDir) r (λ ok r', kept ownTree r r' ∧
    if ok : bool then ∀ rest c, visible rest → fileAt (vols r) src (s ++ rest) = Some c → fileAt (vols r') dst (d ++ rest) = Some c
    else bad r').
Proof.
  intros Ho HD Hn Hw Hst. unfold copyEntry. destruct srcIsDir; cbn [negb].
  - destruct Hst as [Hno Hin]. pose proof (copyDirs_spec D n [] [[]] true r Ho HD) as Hc. cbn [fmap list_fmap] in Hc.
    unfold entryPair in Hc. rewrite !app_nil_r in Hc. eapply spec_weaken.
    { apply Hc; [by apply walking_start|cbn; lia|by repeat constructor| |done]. apply Forall_singleton. by rewrite app_nil_r. }
    intros ok r' [Hk Hr]. split; [done|]. destruct ok; [|done]. destruct Hr as (_ & _ & Hall). intros rest c Hv Hf.
    apply (Hall [] rest c); [by left|done| |done]. intros ->. rewrite app_nil_r in Hf. congruence.
  - destruct Hst as [c0 Hc0]. apply spec_seq, onReport_spec; [done|]. intros r1 N1. pose proof (kept_noted ownTree _ _ N1) as K1.
    eapply spec_weaken; [apply copyFile_spec; [done|by apply wf_plain|by apply (kept_orderly _ _ _ K1)|done]|]. intros ok r2 C2. split.
    + eapply kept_trans; [exact K1|]. eapply kept_mono; [apply C2|]. intros q Hq. apply (own_file []); [constructor|by rewrite app_nil_r].
    + destruct ok; [|apply C2]. destruct C2 as (_ & c1 & Hc1 & Hd1). intros rest c Hv Hf. destruct N1 as [E1 _]. rewrite E1 in Hc1.
      destruct (visible_descends _ Hv) as [->|[t ->]]; [rewrite app_nil_r in Hf |- *; congruence|].
      rewrite (ops_tree src s t (vols r) c0 Ho Hc0) in Hf. discriminate Hf.
Qed.

End Tree.

(** ** The whole copy *)

Section Whole.
(** [w0]: the volumes before the copy; [D] covers the source's directories. *)
Context (w0 : V) (D : list bytes) (dstDir : bytes) (Hne : src ≠ dst) (Hdst : PathUtil.wf_path dstDir).

Definition targetOf (p : bytes) : bytes := joinRel dstDir (PathUtil.basename p).
Definition baseOf (raw : bytes) : option bytes := PathUtil.basename <$> PathUtil.normalize raw.

(** No entry lies in another. *)
Definition apart (raws : list bytes) : Prop := ∀ a b p q, a ∈ raws → b ∈ raws →
  PathUtil.normalize a = Some p → PathUtil.normalize b = Some q → under p q → p = q.

(** A file of the source that has left was below a moved entry, and its copy is there. *)
Definition movedTo (done : list bytes) (v : V) (q c : bytes) : Prop := op req = Move ∧
  ∃ raw p rest, raw ∈ done ∧ PathUtil.normalize raw = Some p ∧ q = p ++ rest ∧ descends rest ∧
    (visible rest → fileAt v dst (targetOf p ++ rest) = Some c).

Record inv (done : list bytes) (r : R) : Prop := {
  inv_orderly : orderly (vols r);
  inv_dirs : dirsOf (vols r) src ⊆ D;
  inv_source : ∀ q c, fileAt w0 src q = Some c → fileAt (vols r) src q = Some c ∨ movedTo done (vols r) q c;
  inv_others : ∀ q, (∀ raw p, raw ∈ done → PathUtil.normalize raw = Some p → ¬ ownTree (targetOf p) q) →
    fileAt (vols r) dst q = fileAt w0 dst q;
  inv_whole : ¬ bad r → conflict req ≠ Skip → apart (paths req) → ∀ raw p rest c, raw ∈ done →
    PathUtil.normalize raw = Some p → visible rest → fileAt w0 src (p ++ rest) = Some c →
    fileAt (vols r) dst (targetOf p ++ rest) = Some c;
}.

Context (Hvalid : ∀ raw, raw ∈ paths req → ∃ p, PathUtil.normalize raw = Some p ∧ p ≠ root).
#[local] Abbreviation named p := (PathUtil.isValidName (PathUtil.basename p) = true).

Lemma path_named raw p : raw ∈ paths req → PathUtil.normalize raw = Some p → named p.
Proof.
  intros Hin Hp. destruct (Hvalid raw Hin) as (p' & Hp' & Hr). rewrite Hp in Hp'. injection Hp' as <-.
  apply PathUtil.normalize_Some in Hp as (Ho & _ & ->). destruct (PathUtil.okNames_valid _ Ho) as [Hv _].
  destruct (PathUtil.names raw) as [|x l] using rev_ind; [done|]. rewrite forallb_app in Hv. apply andb_true_iff in Hv as [_ Hv].
  cbn in Hv. rewrite andb_true_r in Hv. destruct (PathUtil.valid_plain _ Hv) as (Hs & Hn & _).
  by destruct (PathUtil.parts_of_child l x Hs Hn) as [_ ->].
Qed.

Lemma base_valid p x : PathUtil.normalizeChild dstDir (PathUtil.basename p) = Some x →
  x = targetOf p ∧ PathUtil.wf_path x ∧ (2 <= length x)%nat ∧ named p.
Proof. intros Hx. by destruct (child_path _ _ _ Hdst Hx) as (Hw & -> & Hl & Hv). Qed.

Lemma targetOf_eq p : ∃ pre, targetOf p = pre ++ 47 :: PathUtil.basename p ∧ (pre = dstDir ∧ dstDir ≠ root ∨ pre = [] ∧ dstDir = root).
Proof.
  unfold targetOf, joinRel. destruct (bytes_eqb dstDir root) eqn:E.
  - exists []. apply bytes_eqb_eq in E. auto.
  - exists dstDir. apply bytes_eqb_neq in E. auto.
Qed.

(** Entries with different names keep to different places. *)
Lemma targets_apart p p' rest : PathUtil.basename p ≠ PathUtil.basename p' → named p → named p' →
  visible rest → ¬ ownTree (targetOf p) (targetOf p' ++ rest).
Proof.
  intros Hb Hp Hp' Hv (rest' & Hv' & Hown).
  destruct (targetOf_eq p) as (pre & E1 & Hpre), (targetOf_eq p') as (pre' & E2 & Hpre'). rewrite E1, E2 in Hown.
  assert (pre' = pre) as -> by (destruct Hpre as [[? ?]|[? ?]], Hpre' as [[? ?]|[? ?]]; congruence).
  pose proof (visible_child _ Hp) as Vp. pose proof (visible_child _ Hp') as Vp'.
  destruct (PathUtil.valid_plain _ Hp) as (Hs & _ & _), (PathUtil.valid_plain _ Hp') as (Hs' & _ & _).
  unfold ownFiles, partOf, AtomicFile.partPath in Hown. rewrite <- !app_assoc in Hown. destruct Hown as [E|E]; apply app_inv_head in E.
  - cbn in E. injection E as E. apply name_split in E as [E _]; auto using visible_descends.
  - apply (visible_no_part (47 :: PathUtil.basename p' ++ rest) (47 :: PathUtil.basename p ++ rest')).
    + by apply (visible_app (47 :: _)).
    + by apply (visible_app (47 :: _)).
    + cbn in E |- *. rewrite <- app_assoc. exact E.
Qed.

Lemma under_compare p p' a b : descends a → descends b → p ++ a = p' ++ b → under p p' ∨ under p' p.
Proof.
  intros Ha Hb E. apply app_eq_inv in E as [(k & -> & Ek)|(k & -> & Ek)]; [right|left]; exists k; (split; [done|]).
  - destruct k as [|x k]; [by left|]. right. destruct Hb as [->|[t ->]]; [done|]. injection Ek as <- _. by eexists.
  - destruct k as [|x k]; [by left|]. right. destruct Ha as [->|[t ->]]; [done|]. injection Ek as <- _. by eexists.
Qed.

(** One entry more: what the copy of it did, whether or not it went well. *)
Lemma inv_step done raw p r r' : inv done r → done ++ [raw] ⊆ paths req → PathUtil.normalize raw = Some p →
  (∀ raw' p', raw' ∈ done → PathUtil.normalize raw' = Some p' → PathUtil.basename p' ≠ PathUtil.basename p) →
  kept (ownTree (targetOf p)) r r' →
  (bad r' ∨ conflict req = Skip ∨ ∀ rest c, visible rest → fileAt (vols r) src (p ++ rest) = Some c →
     fileAt (vols r') dst (targetOf p ++ rest) = Some c) →
  inv (done ++ [raw]) r'.
Proof.
  intros [Ho HD Hsrc Hoth Hwh] Hin Hp Hbase Hk Hcopy.
  assert (Hraw : raw ∈ paths req) by (apply Hin, elem_of_app; right; by left).
  assert (Hstay : ∀ raw' p' rest c, raw' ∈ done → PathUtil.normalize raw' = Some p' → visible rest →
    fileAt (vols r) dst (targetOf p' ++ rest) = Some c → fileAt (vols r') dst (targetOf p' ++ rest) = Some c).
  { intros raw' p' rest c Hd Hp' Hv Hc. rewrite (kept_file _ _ _ _ _ Hk Ho); [done|]. right.
    apply targets_apart; [by apply not_eq_sym, (Hbase raw')|by apply (path_named raw)| |done].
    apply (path_named raw'); [|done]. apply Hin, elem_of_app. by left. }
  split.
  - by apply (kept_orderly _ _ _ Hk).
  - intros x Hx. by apply HD, (kept_dirs _ _ _ _ Hk Ho Hne).
  - intros q c Hc. destruct (Hsrc q c Hc) as [Hl|(Hm & raw' & p' & rest & Hd & Hp' & -> & Hde & Hv)].
    + left. by rewrite (kept_src Hne _ _ _ _ Hk Ho).
    + right. split; [done|]. exists raw', p', rest. split_and!; [apply elem_of_app; by left|done|done|done|]. eauto.
  - intros q Hq. rewrite (kept_file _ _ _ _ _ Hk Ho).
    + apply Hoth. intros raw' p' Hd. apply Hq, elem_of_app. by left.
    + right. apply (Hq raw p); [apply elem_of_app; right; by left|done].
  - intros Hb Hsk Hap raw' p' rest c [Hd| ->%list_elem_of_singleton]%elem_of_app Hp' Hv Hc.
    + apply (Hstay raw'); try done. apply (Hwh ltac:(intros ?; by apply Hb, Hk) Hsk Hap raw'); done.
    + rewrite Hp in Hp'. injection Hp' as <-. destruct Hcopy as [?|[?|Hcopy]]; [done..|]. apply Hcopy; [done|].
      destruct (Hsrc _ c Hc) as [Hl|(_ & raw' & p' & rest' & Hd & Hp' & E & Hde & _)]; [done|exfalso].
      apply (Hbase raw' p' Hd Hp'). assert (Hin' : raw' ∈ paths req) by (apply Hin, elem_of_app; by left).
      destruct (under_compare p p' rest rest' (visible_descends _ Hv) Hde E) as [Hu|Hu].
      * by rewrite (Hap raw raw' p p' Hraw Hin' Hp Hp' Hu).
      * by rewrite (Hap raw' raw p' p Hin' Hraw Hp' Hp Hu).
Qed.

(** The removal of a source that has been copied. *)
Lemma inv_remove done raw p r r' : inv done r → raw ∈ done → PathUtil.normalize raw = Some p → op req = Move →
  (bad r → bad r') → same src (under p) (vols r) (vols r') → (orderly (vols r) → dirsOf (vols r') src ⊆ dirsOf (vols r) src) →
  (∀ rest c, visible rest → fileAt (vols r) src (p ++ rest) = Some c → fileAt (vols r) dst (targetOf p ++ rest) = Some c) →
  inv done r'.
Proof.
  intros [Ho HD Hsrc Hoth Hwh] Hin Hp Hm Hbad Hs Hd Hcopy. destruct (Hs Ho) as (Ho' & F & _).
  assert (Fd : ∀ q, fileAt (vols r') dst q = fileAt (vols r) dst q) by (intros q; apply F; left; congruence).
  split.
  - done.
  - intros x Hx. by apply HD, Hd.
  - intros q c Hc. destruct (Hsrc q c Hc) as [Hl|(_ & raw' & p' & rest & Hd' & Hp' & -> & Hde & Hv)].
    + destruct (decide (fileAt (vols r') src q = Some c)) as [|Hgone]; [by left|]. right. split; [done|].
      destruct (decide (under p q)) as [(rest & -> & Hde)|Hu]; [|destruct Hgone; by rewrite F by (by right)].
      exists raw, p, rest. split_and!; try done. intros Hvis. rewrite Fd. by apply Hcopy.
    + right. split; [done|]. exists raw', p', rest. split_and!; try done. intros Hvis. rewrite Fd. auto.
  - intros q Hq. rewrite Fd. by apply Hoth.
  - intros Hb Hsk Hap raw' p' rest c Hd' Hp' Hv Hc. rewrite Fd. apply (Hwh ltac:(intros ?; by apply Hb, Hbad) Hsk Hap raw'); done.
Qed.

Lemma inv_noted done r r' : inv done r → noted_only r r' → inv done r'.
Proof. intros [Ho HD Hsrc Hoth Hwh] [E B]. split; rewrite ?E; try done. intros Hb. apply Hwh. auto. Qed.

Lemma afterCopy_spec done raw p srcIsDir r : plain p → inv done r → raw ∈ done → PathUtil.normalize raw = Some p →
  (∀ rest c, visible rest → fileAt (vols r) src (p ++ rest) = Some c → fileAt (vols r) dst (targetOf p ++ rest) = Some c) →
  spec (afterCopy req p srcIsDir) r (λ _ r', inv done r').
Proof.
  intros Pp Hi Hin Hp Hcopy. unfold afterCopy. case_bool_decide as Hm.
  - apply spec_seq, spec_seq, call_spec. intros r1 E1 B1. destruct (ops_remove src p srcIsDir (vols r) Pp) as [Hr Hd].
    destruct (op_remove src p srcIsDir (vols r)) as [[st dt] v1]. cbn [fst snd] in *.
    assert (I1 : inv done r1) by (apply (inv_remove done raw p r); rewrite ?E1; done).
    apply noted_spec. intros r2 N2. cbn [fst]. pose proof (inv_noted _ _ _ I1 N2) as I2. case_bool_decide; cbn [negb].
    + apply spec_seq, onReport_spec; [done|]. intros r3 N3. apply tell_spec. intros r4 N4. by eapply inv_noted, N4; eapply inv_noted.
    + apply spec_seq, getDetail_spec. intros d0. apply fail_spec. intros r3 N3 _. by eapply inv_noted.
  - apply spec_seq, spec_value. cbn [negb bool_decide decide_rel]. rewrite bool_decide_eq_true_2 by done. cbn [negb].
    apply spec_seq, spec_value, tell_spec. intros r1 N1. by eapply inv_noted.
Qed.

Lemma copyOne_spec n done raw r : inv done r → done ++ [raw] ⊆ paths req → (length D < n)%nat →
  (∀ p raw' p', PathUtil.normalize raw = Some p → raw' ∈ done → PathUtil.normalize raw' = Some p' →
     PathUtil.basename p' ≠ PathUtil.basename p) →
  spec (copyOne cancel req n dstDir raw) r (λ _ r', inv (done ++ [raw]) r').
Proof.
  intros Hi Hin Hn Hbase. unfold copyOne.
  destruct (Hvalid raw ltac:(apply Hin, elem_of_app; right; by left)) as (p & Hp & Hroot). rewrite Hp.
  specialize (λ raw' p', Hbase p raw' p' Hp). pose proof (inv_orderly _ _ Hi) as Ho.
  assert (Hq : ∀ r', kept (λ _, False) r r' → (bad r' ∨ conflict req = Skip) → inv (done ++ [raw]) r').
  { intros r' Hk Hr. apply (inv_step _ raw p r); try done; [by eapply kept_mono|]. destruct Hr; auto. }
  assert (Hfail : ∀ r1 path st why, kept (λ _, False) r r1 → spec (fail path st why) r1 (λ _ r', inv (done ++ [raw]) r')).
  { intros r1 path st why Hk. apply fail_spec. intros r2 N2 B2. apply Hq; [|by left]. eapply kept_trans; [exact Hk|by apply kept_noted]. }
  destruct (PathUtil.normalizeChild dstDir (PathUtil.basename p)) as [x|] eqn:Ex; [|by apply Hfail].
  destruct (base_valid _ _ Ex) as (-> & Hw & Hlen & Hnm). destruct (deep_path _ _ Hp Hroot) as [Hwp Hlenp].
  pose proof (wf_plain _ Hwp) as Pp. pose proof (wf_plain _ Hw) as Pt.
  apply spec_seq, stat_spec; [done|]. intros st e r1 _ B1 Q1 Hst. specialize (Hst Ho). pose proof (kept_quiet (λ _, False) _ _ Q1 B1) as K1.
  assert (Hdetail : ∀ path st, spec (d ← getDetail; fail path st d) r1 (λ _ r', inv (done ++ [raw]) r')).
  { intros path st'. apply spec_seq, getDetail_spec. intros d0. by apply Hfail. }
  destruct st; try apply Hdetail. destruct (Hst eq_refl) as (y & -> & Hy). clear Hst Hdetail.
  apply spec_seq, call_spec. intros r2 E2 B2. pose proof (ops_stat dst (targetOf p) (vols r1) Pt) as Hs2.
  destruct (op_stat dst (targetOf p) (vols r1)) as [[a2 e2] v2]. cbn [fst snd] in *. destruct a2 as [st2 d2]. destruct Hs2 as [Q2 _].
  rewrite <- E2 in Q2. assert (K2 : kept (λ _, False) r r2) by (eapply kept_trans; [exact K1|by apply kept_quiet]). cbv zeta. cbn [fst].
  destruct (_ && bool_decide (conflict req = Skip)) eqn:Esk.
  { apply andb_true_iff in Esk as [_ Esk%bool_decide_eq_true]. apply onReport_spec; [done|]. intros r3 N3. apply Hq; [|by right].
    eapply kept_trans; [exact K2|by apply kept_noted]. }
  destruct (_ && _ && _); [by apply Hfail|]. apply spec_seq.
  apply (spec_weaken _ _ (λ _ r', kept (λ _, False) r r')).
  { destruct (isDir y); [|by apply spec_value]. apply call_spec. intros r3 E3 B3. pose proof (ops_mkdir dst (targetOf p) (vols r2) Pt) as Hm.
    eapply kept_trans; [exact K2|]. split; [rewrite E3; exact Hm|done]. }
  intros made r3 K3. destruct (negb (bool_decide (made.1 = StOk)) && _); [apply spec_seq, getDetail_spec; intros d0; by apply Hfail|].
  apply spec_seq. apply (spec_weaken _ _ (λ _ r', kept (λ _, False) r r')).
  { destruct (bool_decide (made.1 = StOk)); [|by apply spec_value]. apply onReport_spec; [done|]. intros r4 N4. eapply kept_trans; [exact K3|by apply kept_noted]. }
  intros _ r4 K4. apply spec_seq. pose proof (kept_orderly _ _ _ K4 Ho) as Ho4.
  eapply spec_weaken; [apply (copyEntry_spec p (targetOf p) Pp Hlenp Hlen Hne D n (isDir y) r4); try done|].
  { intros z Hz. apply (inv_dirs _ _ Hi), (kept_dirs _ _ _ _ K4 Ho Hne), Hz. }
  { rewrite (kept_src Hne _ _ _ _ K4 Ho). destruct (isDir y); [|done]. destruct Hy as [? Hy]. split; [done|]. by apply (inv_dirs _ _ Hi). }
  intros complete r5 [K5 Hc]. assert (K45 : kept (ownTree (targetOf p)) r r5) by (eapply kept_trans; [by eapply kept_mono|exact K5]).
  assert (Hbad : ∀ r', kept (λ _, False) r5 r' → bad r' → inv (done ++ [raw]) r').
  { intros r' Hk Hb. apply (inv_step _ raw p r); try done; [|by left]. eapply kept_trans; [exact K45|by eapply kept_mono]. }
  apply spec_seq, getReport_spec. destruct (cancelled (report r5)) eqn:Ec; [apply spec_value, Hbad; [done|by right]|].
  apply spec_seq, onReport_spec; [done|]. intros r6 N6. destruct complete.
  - assert (I6 : inv (done ++ [raw]) r6).
    { eapply inv_noted; [|exact N6]. apply (inv_step _ raw p r); try done. right; right. intros rest c Hv Hf.
      apply Hc; [done|]. by rewrite (kept_src Hne _ _ _ _ K4 Ho). }
    apply (afterCopy_spec _ raw); [done|done|apply elem_of_app; right; by left|done|].
    destruct N6 as [E6 _]. intros rest c Hv Hf. rewrite E6 in *. apply Hc; [done|]. by rewrite <- (kept_src Hne _ _ _ _ K5 Ho4).
  - apply spec_value, Hbad; [by apply kept_noted|]. by apply N6.
Qed.

Lemma copyAll_spec n done raws r : inv done r → done ++ raws = paths req → (length D < n)%nat → NoDup (baseOf <$> paths req) →
  spec (copyAll cancel req n dstDir raws) r (λ _ r', ∃ seen, seen ⊆ paths req ∧ inv seen r' ∧ (¬ bad r' → seen = paths req)).
Proof.
  intros Hi Hall Hn Hnd. revert done r Hi Hall. induction raws as [|raw raws IH]; intros done r Hi Hall; cbn [copyAll].
  { apply spec_value. rewrite app_nil_r in Hall. subst done. by exists (paths req). }
  apply spec_seq, getReport_spec. destruct (cancelled (report r)) eqn:Ec.
  { apply spec_value. exists done. split_and!; [|done|]; [rewrite <- Hall; by intros x Hx; apply elem_of_app; left|].
    intros []. by right. }
  assert (Hin : done ++ [raw] ⊆ paths req).
  { rewrite <- Hall. intros x [Hx| ->%list_elem_of_singleton]%elem_of_app; apply elem_of_app; [by left|right; by left]. }
  apply spec_seq. eapply spec_weaken; [apply (copyOne_spec n done raw r Hi Hin Hn)|].
  - intros p raw' p' Hp Hin' Hp' E. rewrite <- Hall, fmap_app, fmap_cons in Hnd. apply NoDup_app in Hnd as (_ & Hd & _).
    apply (Hd (Some (PathUtil.basename p))); [|unfold baseOf at 1; rewrite Hp; by left].
    apply list_elem_of_fmap. exists raw'. split; [|done]. unfold baseOf. rewrite Hp'. cbn. by rewrite E.
  - intros [] r1 I1. apply (IH (done ++ [raw])); [done|]. by rewrite <- app_assoc.
Qed.

End Whole.

(** ** Measuring *)

Definition quietly (r r' : R) : Prop := quiet (vols r) (vols r') ∧ (bad r → bad r').
Lemma quietly_refl r : quietly r r.
Proof. done. Qed.
Lemma quietly_trans r1 r2 r3 : quietly r1 r2 → quietly r2 r3 → quietly r1 r3.
Proof. intros [Q1 B1] [Q2 B2]. split; [by eapply quiet_trans|auto]. Qed.
Lemma quietly_noted r r' : noted_only r r' → quietly r r'.
Proof. intros [E B]. split; [rewrite E; apply quiet_refl|done]. Qed.
Lemma quietly_orderly r r' : quietly r r' → orderly (vols r) → orderly (vols r').
Proof. intros [Q _] Ho. by destruct (Q Ho). Qed.
Lemma quietly_dirs r r' u : quietly r r' → orderly (vols r) → dirsOf (vols r') u ⊆ dirsOf (vols r) u.
Proof. intros [Q _] Ho. by destruct (Q Ho) as (_ & _ & D). Qed.
Lemma quietly_file r r' u q : quietly r r' → orderly (vols r) → fileAt (vols r') u q = fileAt (vols r) u q.
Proof. intros [Q _] Ho. by destruct (Q Ho) as (_ & F & _). Qed.

Lemma visitMeasure_queue dir entries out queue :
  (fold_left (visitMeasure dir) entries (out, queue)).2 = queue ++ (joinRel dir <$> (name <$> List.filter isDir entries)).
Proof.
  revert out queue. induction entries as [|e l IH]; intros out queue; cbn [fold_left List.filter]; [by rewrite app_nil_r|].
  cbn [visitMeasure]. destruct (isDir e); rewrite IH; [|done]. by rewrite <- app_assoc.
Qed.

Lemma measureDirs_spec top D n seen queue out r : orderly (vols r) → (2 <= length top)%nat → dirsOf (vols r) src ⊆ D →
  Forall plain queue → walking top D seen queue → (length D < n + length seen)%nat →
  spec (measureDirs req n queue out) r (λ _ r', quietly r r').
Proof.
  intros Ho Htop. revert seen queue out r Ho. induction n as [|n IH]; intros seen [|dir queue] out r Ho HD Hpl Hw Hn; cbn [measureDirs].
  1,3: by apply spec_value.
  { apply walking_fuel in Hw. lia. }
  apply Forall_cons in Hpl as [Pdir Hpl].
  apply spec_seq, onReport_spec; [done|]. intros r1 N1. pose proof (quietly_noted _ _ N1) as Q1. pose proof (quietly_orderly _ _ Q1 Ho) as Ho1.
  apply spec_seq, walk_spec; [done|]. intros st entries r2 B2 Q2 Hnone Hscan. specialize (Hscan Ho1).
  assert (Q12 : quietly r r2) by (eapply quietly_trans; [exact Q1|by split]).
  destruct (fold_left (visitMeasure dir) entries (out, queue)) as [out' queue'] eqn:Ef.
  pose proof (visitMeasure_queue dir entries out queue) as Hq. rewrite Ef in Hq. cbn [snd] in Hq. subst queue'. cbv beta iota.
  case_bool_decide as Hst; cbn [negb]; [|by apply spec_value]. apply spec_seq.
  apply (spec_weaken _ _ (λ _ r', quietly r r')).
  { destruct (negb _); [|by apply spec_value]. apply progress_spec. intros r3 N3. eapply quietly_trans; [exact Q12|by apply quietly_noted]. }
  intros ? r3 Q3. eapply spec_weaken; [apply (IH (seen ++ [dir]))|].
  - by apply (quietly_orderly _ _ Q3).
  - intros x Hx. by apply HD, (quietly_dirs _ _ _ Q3 Ho).
  - destruct (Hscan Hst) as (_ & Hent & _). apply Forall_app. split; [done|]. apply Forall_fmap, Forall_fmap, Forall_forall.
    intros e He. apply list_elem_of_In, filter_In in He as [He _]. apply list_elem_of_In in He. destruct (Hent e He) as (? & ? & _).
    by apply plain_child.
  - destruct (Hscan Hst) as (Hnd & Hent & _).
    assert (Hdeep : ∀ x, joinRel dir x = dir ++ 47 :: x).
    { intros x. destruct Hw as (_ & _ & Hw). destruct (Hw dir) as [[way ->] _]; [apply elem_of_app; right; by left|].
      by rewrite joinRel_deep, <- app_assoc. }
    replace (joinRel dir <$> _) with ((λ x, dir ++ 47 :: x) <$> (name <$> List.filter isDir entries)) by (by apply list_fmap_ext; intros; rewrite Hdeep).
    apply walking_step; [done| |].
    + eapply sublist_NoDup; [exact Hnd|apply dirNames_sublist].
    + intros x (e & -> & He)%list_elem_of_fmap. apply list_elem_of_In, filter_In in He as [He Hd]. apply list_elem_of_In in He.
      destruct (Hent e He) as (Hs & _ & Hin). split; [done|]. rewrite <- Hdeep. by apply HD, (quietly_dirs _ _ _ Q1 Ho), Hin.
  - rewrite length_app. cbn in *. lia.
  - intros ? r4 Q4. by eapply quietly_trans.
Qed.

Lemma measureEntry_spec D n p r : plain p → orderly (vols r) → (2 <= length p)%nat → dirsOf (vols r) src ⊆ D → (length D < n)%nat →
  spec (measureEntry req n p) r (λ _ r', quietly r r').
Proof.
  intros Pp Ho Hp HD Hn. unfold measureEntry. apply spec_seq, stat_spec; [done|]. intros st e r1 _ B1 Q1 Hst. specialize (Hst Ho).
  assert (Q : quietly r r1) by by split. destruct st; try by apply spec_value. destruct (Hst eq_refl) as (y & -> & Hy).
  destruct (isDir y); [|by apply spec_value]. destruct Hy as [_ Hy]. eapply spec_weaken.
  - apply (measureDirs_spec p D n []); [by apply (quietly_orderly _ _ Q)|done| |by constructor|by apply walking_start, HD|cbn; lia].
    intros x Hx. by apply HD, (quietly_dirs _ _ _ Q Ho).
  - intros ? r2 Q2. by eapply quietly_trans.
Qed.

Lemma measureAll_spec D n dstDir raws r : orderly (vols r) → dirsOf (vols r) src ⊆ D → (length D < n)%nat →
  (∀ raw, raw ∈ raws → ∃ p, PathUtil.normalize raw = Some p ∧ p ≠ root) →
  spec (measureAll req n dstDir raws) r (λ _ r', quietly r r').
Proof.
  intros Ho HD Hn. revert r Ho HD. induction raws as [|raw raws IH]; intros r Ho HD Hv; cbn [measureAll]; [by apply spec_value|].
  apply spec_seq, (spec_weaken _ _ (λ _ r', quietly r r')).
  - destruct (Hv raw ltac:(by left)) as (p & Hp & Hr). destruct (deep_path _ _ Hp Hr) as [Hwp Hl].
    unfold measureOne. rewrite Hp.
    apply spec_seq, (spec_weaken _ _ (λ _ r', quietly r r')).
    { destruct (PathUtil.normalizeChild _ _) as [x|] eqn:Ex; [|by apply spec_value]. case_bool_decide; [|by apply spec_value].
      apply PathUtil.child_parts in Ex as (Hwx & _).
      apply spec_seq, call_spec. intros r1 E1 B1. pose proof (ops_stat dst x (vols r) (wf_plain _ Hwx)) as Hs.
      destruct (op_stat dst x (vols r)) as [[[st d] e] v1]. cbn [fst snd] in *. destruct Hs as [Q1 _]. apply spec_value.
      split; [by rewrite E1|done]. }
    intros skip r1 Q1. destruct skip; [by apply spec_value|]. apply spec_seq. eapply spec_weaken.
    { apply (measureEntry_spec D n p r1); [by apply wf_plain|by apply (quietly_orderly _ _ Q1)|done| |done]. intros x Hx. by apply HD, (quietly_dirs _ _ _ Q1 Ho). }
    intros [st m] r2 Q2. assert (Q12 : quietly r r2) by (by eapply quietly_trans). destruct (negb _).
    + apply spec_seq, getDetail_spec. intros d0. apply fail_spec. intros r3 N3 _. eapply quietly_trans; [exact Q12|by apply quietly_noted].
    + apply onReport_spec; [done|]. intros r3 N3. eapply quietly_trans; [exact Q12|by apply quietly_noted].
  - intros ? r1 Q1. eapply spec_weaken; [apply IH|].
    + by apply (quietly_orderly _ _ Q1).
    + intros x Hx. by apply HD, (quietly_dirs _ _ _ Q1 Ho).
    + intros x Hx. apply Hv. by right.
    + intros ? r2 Q2. by eapply quietly_trans.
Qed.

(** ** The checks before *)

Lemma refuse_spec st why r : st ≠ StOk → spec (refuse st why) r (λ st' r', quietly r r' ∧ st' ≠ StOk).
Proof. intros Hst. apply spec_seq, setDetail_spec. intros r1 N1. apply spec_value. split; [by apply quietly_noted|done]. Qed.

(** What a request has to be. *)
Definition acceptable (raws : list bytes) : Prop := ∀ raw, raw ∈ raws → ∃ p, PathUtil.normalize raw = Some p ∧ p ≠ root.

Lemma validatePaths_spec dstDir raws r :
  spec (validatePaths req dstDir raws) r (λ st r', quietly r r' ∧ (st = StOk → acceptable raws)).
Proof.
  assert (Hno : ∀ st why r r0, st ≠ StOk → quietly r0 r →
    spec (refuse st why) r (λ st r', quietly r0 r' ∧ (st = StOk → acceptable raws))).
  { intros st why r1 r0 Hst Hq. eapply spec_weaken; [by apply refuse_spec|]. intros st' r2 [Q Hs]. split; [by eapply quietly_trans|done]. }
  revert r Hno. induction raws as [|raw raws IH]; intros r Hno; cbn [validatePaths].
  { apply spec_value. split; [done|]. by intros _ raw ?%elem_of_nil. }
  destruct (PathUtil.normalize raw) as [p|] eqn:Ep; [|by apply Hno].
  destruct (bytes_eqb p root) eqn:Er; [by apply Hno|]. apply bytes_eqb_neq in Er.
  apply spec_seq, stat_spec; [by apply wf_plain, (deep_path _ _ Ep Er)|]. intros st e r1 _ B1 Q1 _. assert (Q : quietly r r1) by by split.
  case_bool_decide as Hst; cbn [negb]; [|by apply spec_value]. destruct (_ && _); [by apply Hno|]. destruct (_ && _); [by apply Hno|].
  eapply spec_weaken; [apply IH|].
  - intros st' why r2 r0 Hs Hq. eapply spec_weaken; [by apply refuse_spec|]. intros st'' r3 [Q3 Hs']. split; [by eapply quietly_trans|done].
  - intros st' r2 [Q2 Ha]. split; [by eapply quietly_trans|]. intros Hs x [->|Hx]%elem_of_cons; [by exists p|by apply Ha].
Qed.

Lemma validate_spec r : spec (validate req) r (λ st r', quietly r r' ∧
  (st = StOk → acceptable (paths req) ∧ ∃ d, PathUtil.normalize (dstPath req) = Some d)).
Proof.
  assert (Hno : ∀ st why r0 r, st ≠ StOk → quietly r0 r → spec (refuse st why) r (λ st r', quietly r0 r' ∧
    (st = StOk → acceptable (paths req) ∧ ∃ d, PathUtil.normalize (dstPath req) = Some d))).
  { intros st why r0 r1 Hst Hq. eapply spec_weaken; [by apply refuse_spec|]. intros st' r2 [Q Hs]. split; [by eapply quietly_trans|done]. }
  unfold validate. case_bool_decide; [by apply Hno|]. destruct (_ || _); [by apply Hno|].
  destruct (PathUtil.normalize (dstPath req)) as [d|] eqn:Ed; [|by apply Hno]. apply spec_seq.
  eapply spec_weaken; [apply validatePaths_spec|]. intros st r1 [Q1 Ha]. case_bool_decide as Hst; cbn [negb]; [|by apply spec_value].
  apply spec_seq, walk_spec; [by eapply wf_plain, normal_wf|]. intros st2 l r2 B2 Q2 _ _. apply spec_seq, getDetail_spec. intros d0.
  assert (Q12 : quietly r r2) by (eapply quietly_trans; [exact Q1|by split]).
  case_bool_decide as Hi; cbn [andb]; [|apply spec_value; eauto]. subst st2. destruct (bool_decide _); [by apply Hno|by apply spec_value].
Qed.

(** ** The run *)

Lemma finish_spec r (Q : unit → R → Prop) : (∀ r', noted_only r r' →
  finished (report r') = true → busy (report r') = false → head (told r') = Some (report r') → Q tt r') → spec finish_ r Q.
Proof. intros HQ. eexists tt, _. split; [reflexivity|]. by apply HQ. Qed.

Definition over (r : R) : Prop := finished (report r) = true ∧ busy (report r) = false ∧ head (told r) = Some (report r).

Section Cross.
Context (w0 : V) (Hne : src ≠ dst) (Ho0 : orderly w0).
Context (dstDir : bytes) (Hdst : PathUtil.wf_path dstDir) (Hacc : acceptable (paths req)).

#[local] Abbreviation D := (dirsOf w0 src).
Definition ends (r : R) : Prop := over r ∧ ∃ seen, seen ⊆ paths req ∧ inv w0 D dstDir seen r ∧ (¬ bad r → seen = paths req).

Lemma inv_start r : quiet w0 (vols r) → inv w0 D dstDir [] r.
Proof.
  intros Q. destruct (Q Ho0) as (Ho & F & Hd). split.
  - exact Ho.
  - apply Hd.
  - intros q c Hc. left. by rewrite F.
  - intros q _. apply F.
  - by intros _ _ _ raw p rest c ?%elem_of_nil.
Qed.

Lemma crossCopy_spec n r : quiet w0 (vols r) → (length D < n)%nat → NoDup (baseOf <$> paths req) →
  spec (crossCopy cancel req n dstDir) r (λ _ r', ends r').
Proof.
  intros Q0 Hn Hnd. destruct (Q0 Ho0) as (Ho & _ & Hd). unfold crossCopy. apply spec_seq.
  eapply spec_weaken; [by apply (measureAll_spec D n dstDir (paths req) r Ho (Hd src) Hn)|]. intros ? r1 Q1.
  apply spec_seq, call_spec. intros r2 E2 B2. pose proof (ops_freeBytes dst (vols r1)) as Hf. rewrite <- E2 in Hf.
  assert (Q2 : quiet w0 (vols r2)) by (eapply quiet_trans; [exact Q0|]; eapply quiet_trans; [apply Q1|exact Hf]). clear Hf.
  apply spec_seq, onReport_spec; [done|]. intros r3 N3. apply spec_seq, tell_spec. intros r4 N4. apply spec_seq, getReport_spec.
  assert (Q4 : quiet w0 (vols r4)) by (destruct N3 as [E3 _], N4 as [E4 _]; by rewrite E4, E3). case_match.
  - apply spec_seq, fail_spec. intros r5 N5 B5. apply finish_spec. intros r6 N6 H61 H62 H63. split; [done|]. exists [].
    split_and!; [by intros x ?%elem_of_nil| |intros []; by apply N6].
    apply inv_start. destruct N5 as [E5 _], N6 as [E6 _]. by rewrite E6, E5.
  - apply spec_seq, onReport_spec; [done|]. intros r5 N5. apply spec_seq, tell_spec. intros r6 N6. apply spec_seq.
    eapply spec_weaken; [apply (copyAll_spec w0 D dstDir Hne Hdst Hacc n [] (paths req) r6); try done|].
    + apply inv_start. destruct N5 as [E5 _], N6 as [E6 _]. by rewrite E6, E5.
    + intros ? r7 (seen & Hs & Hi & Hb). apply finish_spec. intros r8 N8 H81 H82 H83. split; [done|]. exists seen.
      split_and!; [done|by eapply inv_noted|]. intros Hb8. apply Hb. intros Hb7. by apply Hb8, N8.
Qed.

End Cross.

Definition folder : bytes := default [] (PathUtil.normalize (dstPath req)).

Lemma begin_spec r (Q : unit → R → Prop) : (∀ r', vols r' = vols r → Q tt r') → spec (begin_ req) r Q.
Proof. intros HQ. eexists tt, _. split; [reflexivity|]. by apply HQ. Qed.

Lemma run_cross n r : orderly (vols r) → src ≠ dst → NoDup (baseOf <$> paths req) → (length (dirsOf (vols r) src) < n)%nat →
  spec (run cancel req n) r (λ _ r', ends (vols r) folder r').
Proof.
  intros Ho Hne Hnd Hn. unfold run. apply spec_seq, begin_spec. intros r1 E1. apply spec_seq.
  eapply spec_weaken; [apply validate_spec|]. intros st r2 [[Q2 _] Hok]. rewrite E1 in Q2. case_bool_decide as Hst; cbn [negb].
  - destruct (Hok Hst) as [Hacc [d Hd]]. change (default [] (PathUtil.normalize (dstPath req))) with folder.
    apply spec_seq, onReport_spec; [done|]. intros r3 [E3 _].
    destruct (bool_decide (op req = Move) && bytes_eqb src dst) eqn:E; [apply andb_true_iff in E as [_ E%bytes_eqb_eq]; done|].
    apply crossCopy_spec; try done; [|by rewrite E3]. unfold folder. rewrite Hd.
    by apply (normal_wf (dstPath req)).
  - apply spec_seq, getDetail_spec. intros d0. apply spec_seq, fail_spec. intros r3 N3 B3. apply finish_spec. intros r4 N4 H1' H2' H3'.
    split; [done|]. exists []. split_and!; [by intros x ?%elem_of_nil| |intros []; by apply N4].
    apply (inv_start _ Ho). destruct N3 as [E3 _], N4 as [E4 _]. by rewrite E4, E3.
Qed.


(** When the report of a copy or a move between two volumes, none of whose
    entries lies in another, has no error and was not stopped, every visible file of
    every entry is at the destination, byte for byte. *)
Theorem clean_report_means_done n r : orderly (vols r) → src ≠ dst → NoDup (baseOf <$> paths req) → apart (paths req) →
  conflict req ≠ Skip → (length (dirsOf (vols r) src) < n)%nat →
  ∃ r', run cancel req n r = Some (tt, r') ∧
    (error (report r') = [] → cancelled (report r') = false → ∀ raw p rest c, raw ∈ paths req →
       PathUtil.normalize raw = Some p → visible rest → fileAt (vols r) src (p ++ rest) = Some c →
       fileAt (vols r') dst (targetOf folder p ++ rest) = Some c).
Proof.
  intros Ho Hne Hnd Hap Hsk Hn. destruct (run_cross n r Ho Hne Hnd Hn) as ([] & r' & E & _ & seen & Hs & Hi & Hall).
  exists r'. split; [done|]. intros He Hc.
  assert (Hb : ¬ bad r') by (intros [Hb|Hb]; congruence). rewrite (Hall Hb) in Hi. intros raw p rest c. by apply (inv_whole _ _ _ _ _ Hi).
Qed.

(** ** Inside one volume *)

Section Instant.
Context (w0 : V) (dstDir : bytes) (Hdst : PathUtil.wf_path dstDir) (Hacc : acceptable (paths req)).

(** No target of these entries. *)
Definition noTarget (raws : list bytes) (q : bytes) : Prop :=
  conflict req = Skip ∨ ∀ raw p, raw ∈ raws → PathUtil.normalize raw = Some p → q ≠ targetOf dstDir p.

Definition somewhere (rest : list bytes) (v : V) : Prop := orderly v ∧ (∀ u q, u ≠ src → fileAt v u q = fileAt w0 u q) ∧
  ∀ q c, fileAt w0 src q = Some c → noTarget (paths req) q → ∃ q', fileAt v src q' = Some c ∧ noTarget rest q'.

Lemma somewhere_less raw rest v : somewhere (raw :: rest) v → somewhere rest v.
Proof.
  intros (Ho & Hu & Hs). split_and!; [done|done|]. intros q c Hc Hn. destruct (Hs q c Hc Hn) as (q' & Hq' & Hn').
  exists q'. split; [done|]. destruct Hn' as [|Hn']; [by left|right]. intros raw' p Hin. apply Hn'. by right.
Qed.

Lemma somewhere_quiet rest v v' : somewhere rest v → quiet v v' → somewhere rest v'.
Proof.
  intros (Ho & Hu & Hs) Q. destruct (Q Ho) as (Ho' & F & _). split_and!; [done|intros; rewrite F; auto|].
  intros q c Hc Hn. destruct (Hs q c Hc Hn) as (q' & Hq' & Hn'). exists q'. by rewrite F.
Qed.

(** The removal of a target that is a file. *)
Lemma somewhere_remove raw p rest v v' : somewhere (raw :: rest) v → PathUtil.normalize raw = Some p → conflict req ≠ Skip →
  is_Some (fileAt v src (targetOf dstDir p)) → same src (under (targetOf dstDir p)) v v' → somewhere (raw :: rest) v'.
Proof.
  intros (Ho & Hu & Hs) Hp Hsk [c0 Hc0] S. destruct (S Ho) as (Ho' & F & _). split_and!; [done|intros; rewrite F by (by left); auto|].
  intros q c Hc Hn. destruct (Hs q c Hc Hn) as (q' & Hq' & Hn'). exists q'. split; [|done]. rewrite F; [done|]. right.
  intros (k & -> & [->|[t ->]]).
  - rewrite app_nil_r in Hn'. destruct Hn' as [|Hn']; [done|]. by apply (Hn' raw p); [left|..].
  - rewrite (ops_tree _ _ _ _ _ Ho Hc0) in Hq'. discriminate.
Qed.

Lemma targets_differ p p' k : descends k → PathUtil.isValidName (PathUtil.basename p) = true →
  PathUtil.isValidName (PathUtil.basename p') = true → PathUtil.basename p ≠ PathUtil.basename p' →
  targetOf dstDir p ++ k ≠ targetOf dstDir p'.
Proof.
  intros Hk Hp Hp' Hb E. destruct (targetOf_eq dstDir p) as (pre & E1 & Hpre), (targetOf_eq dstDir p') as (pre' & E2 & Hpre').
  assert (pre' = pre) as -> by (destruct Hpre as [[? ?]|[? ?]], Hpre' as [[? ?]|[? ?]]; congruence). rewrite E1, E2, <- app_assoc in E.
  apply app_inv_head in E. cbn in E. injection E as E. apply Hb.
  destruct (PathUtil.valid_plain _ Hp) as (Hs & _ & _), (PathUtil.valid_plain _ Hp') as (Hs' & _ & _).
  rewrite <- (app_nil_r (PathUtil.basename p')) in E. apply name_split in E as [E _]; try done. by left.
Qed.

Lemma somewhere_rename raw p rest v : plain p → plain (targetOf dstDir p) → somewhere (raw :: rest) v → raw :: rest ⊆ paths req → PathUtil.normalize raw = Some p →
  (∀ raw' p', raw' ∈ rest → PathUtil.normalize raw' = Some p' → PathUtil.basename p ≠ PathUtil.basename p') →
  somewhere rest (op_rename src p (targetOf dstDir p) v).2.
Proof.
  intros Pp Pt Hall Hin Hp Hb. pose proof Hall as (Ho & Hu & Hs). pose proof (ops_rename src p (targetOf dstDir p) v Pp Pt) as Hr.
  destruct (op_rename src p (targetOf dstDir p) v) as [[st d] v']. cbn [snd]. destruct (Hr Ho) as (Ho' & Hno & Hyes).
  destruct (decide (st = StOk)) as [Hst|Hst].
  2: { apply (somewhere_less raw). split_and!; [done|intros; rewrite Hno by done; auto|]. intros q c Hc Hn.
       destruct (Hs q c Hc Hn) as (q' & Hq' & Hn'). exists q'. by rewrite Hno. }
  destruct (Hyes Hst) as (Hfree & Hsame & Hmoved). split_and!; [done|intros; rewrite Hsame by (by left); auto|].
  intros q c Hc Hn. destruct (Hs q c Hc Hn) as (q' & Hq' & Hn'). destruct (decide (under p q')) as [(k & -> & Hk)|Hup].
  - exists (targetOf dstDir p ++ k). split; [by apply Hmoved|]. right. intros raw' p' Hin' Hp'. apply targets_differ; [done| | |by eapply Hb].
    + apply (path_named Hacc raw); [|done]. apply Hin. by left.
    + apply (path_named Hacc raw'); [|done]. apply Hin. by right.
  - exists q'. split.
    + rewrite Hsame; [done|]. right. split; [done|]. intros Hut. rewrite (Hfree q' Hut) in Hq'. discriminate.
    + destruct Hn' as [|Hn']; [by left|right]. intros raw' p' Hin'. apply Hn'. by right.
Qed.

Lemma moveOne_spec raw rest r : somewhere (raw :: rest) (vols r) → raw :: rest ⊆ paths req →
  (∀ p raw' p', PathUtil.normalize raw = Some p → raw' ∈ rest → PathUtil.normalize raw' = Some p' →
     PathUtil.basename p ≠ PathUtil.basename p') →
  spec (moveOne req dstDir raw) r (λ _ r', somewhere rest (vols r')).
Proof.
  intros Hi Hin Hb. unfold moveOne. destruct (Hacc raw ltac:(apply Hin; by left)) as (p & Hp & _). rewrite Hp.
  pose proof (wf_plain _ (normal_wf _ _ Hp)) as Pp.
  assert (Hsome : ∀ path st why r', somewhere (raw :: rest) (vols r') → spec (fail path st why) r' (λ _ r'', somewhere rest (vols r''))).
  { intros path st why r' Hr. apply fail_spec. intros r'' [E _] _. rewrite E. by apply (somewhere_less raw). }
  destruct (PathUtil.normalizeChild dstDir (PathUtil.basename p)) as [x|] eqn:Ex; [|by apply Hsome].
  destruct (child_path _ _ _ Hdst Ex) as (Hwx & -> & _ & _). pose proof (wf_plain _ Hwx) as Pt. change (joinRel dstDir (PathUtil.basename p)) with (targetOf dstDir p).
  apply spec_seq, call_spec. intros r1 E1 B1. pose proof (ops_stat src (targetOf dstDir p) (vols r) Pt) as Hst.
  destruct (op_stat src (targetOf dstDir p) (vols r)) as [[[st d] e] v1]. cbn [fst snd] in *. destruct Hst as [Q1 Hst].
  specialize (Hst (proj1 Hi)). destruct (Q1 (proj1 Hi)) as (_ & F1 & _). rewrite <- E1 in *. pose proof (somewhere_quiet _ _ _ Hi Q1) as I1. cbv zeta. cbn [fst].
  destruct (bool_decide (st = StOk) && isDir (default (mkEntry [] false 0 0) e)) eqn:Ed; [by apply Hsome|].
  destruct (bool_decide (st = StOk) && bool_decide (conflict req = Skip)) eqn:Es.
  { apply onReport_spec; [done|]. intros r2 [E2 _]. rewrite E2. by apply (somewhere_less raw). }
  apply spec_seq, (spec_weaken _ _ (λ _ r', somewhere (raw :: rest) (vols r'))).
  { case_bool_decide as Htaken; [|by apply spec_value]. cbn [andb] in Ed, Es. apply bool_decide_eq_false in Es.
    destruct (Hst Htaken) as (y & -> & Hy). cbn [default from_option id] in Ed. rewrite Ed in Hy.
    apply spec_seq, call_spec. intros r2 E2 B2. destruct (ops_remove src (targetOf dstDir p) false (vols r1) Pt) as [Hr _].
    apply noted_spec. intros r3 [E3 _]. rewrite E3, E2. apply (somewhere_remove raw p rest (vols r1)); try done. by rewrite F1. }
  intros stDel r2 I2. destruct (negb _); [apply spec_seq, getDetail_spec; intros d0; by apply Hsome|].
  apply spec_seq, call_spec. intros r3 E3 B3. pose proof (somewhere_rename raw p rest (vols r2) Pp Pt I2 Hin Hp (λ raw' p', Hb p raw' p' Hp)) as I3.
  apply spec_seq, noted_spec. intros r4 [E4 _]. rewrite <- E3, <- E4 in I3. destruct (negb _).
  - apply spec_seq, getDetail_spec. intros d0. apply fail_spec. intros r5 [E5 _] _. by rewrite E5.
  - apply spec_seq, onReport_spec; [by destruct (isDir _)|]. intros r5 [E5 _]. apply progress_spec. intros r6 [E6 _]. by rewrite E6, E5.
Qed.

Lemma moveAll_spec raws r : somewhere raws (vols r) → raws ⊆ paths req → NoDup (baseOf <$> raws) →
  spec (moveAll cancel req dstDir raws) r (λ _ r', somewhere [] (vols r')).
Proof.
  revert r. induction raws as [|raw raws IH]; intros r Hi Hin Hnd; cbn [moveAll]; [by apply spec_value|].
  assert (Hstop : ∀ l v, somewhere l v → somewhere [] v).
  { intros l v. induction l as [|x l IHl]; [done|]. intros Hx. by apply IHl, (somewhere_less x). }
  apply spec_seq, cancelRequested_spec. intros stop r1 [E1 _] _. rewrite <- E1 in Hi. destruct stop; [apply spec_value; by eapply Hstop|].
  rewrite fmap_cons in Hnd. apply NoDup_cons in Hnd as [Hx Hnd]. apply spec_seq.
  eapply spec_weaken; [apply (moveOne_spec raw raws r1 Hi Hin)|].
  - intros p raw' p' Hp Hin' Hp' E. apply Hx, list_elem_of_fmap. exists raw'. split; [|done]. unfold baseOf. rewrite Hp, Hp'. cbn. by rewrite E.
  - intros ? r2 I2. apply IH; [done| |done]. intros x Hxin. apply Hin. by right.
Qed.

End Instant.

(** A move inside one volume ends and touches no other volume; every file of
    the volume is afterwards somewhere in it, unless its name was the target of an entry
    and replacing was not declined. *)
Theorem instant_move_keeps n r : orderly (vols r) → src = dst → op req = Move → NoDup (baseOf <$> paths req) →
  ∃ r', run cancel req n r = Some (tt, r') ∧ over r' ∧ (∀ u q, u ≠ src → fileAt (vols r') u q = fileAt (vols r) u q) ∧
    ∀ q c, fileAt (vols r) src q = Some c → noTarget folder (paths req) q → ∃ q', fileAt (vols r') src q' = Some c.
Proof.
  intros Ho Heq Hm Hnd. assert (Hend : ∀ r1, orderly (vols r1) → (∀ u q, fileAt (vols r1) u q = fileAt (vols r) u q) → 
    spec finish_ r1 (λ _ r', over r' ∧ (∀ u q, u ≠ src → fileAt (vols r') u q = fileAt (vols r) u q) ∧
    ∀ q c, fileAt (vols r) src q = Some c → noTarget folder (paths req) q → ∃ q', fileAt (vols r') src q' = Some c)).
  { intros r1 _ F. apply finish_spec. intros r2 [E2 _] H1' H2' H3'. split_and!; try done; [intros; by rewrite E2|].
    intros q c Hc _. exists q. by rewrite E2, F. }
  cut (spec (run cancel req n) r (λ _ r', over r' ∧ (∀ u q, u ≠ src → fileAt (vols r') u q = fileAt (vols r) u q) ∧
    ∀ q c, fileAt (vols r) src q = Some c → noTarget folder (paths req) q → ∃ q', fileAt (vols r') src q' = Some c)).
  { intros ([] & r' & E & HQ). by exists r'. }
  unfold run. apply spec_seq, begin_spec. intros r1 E1. apply spec_seq.
  eapply spec_weaken; [apply validate_spec|]. intros st r2 [[Q2 _] Hok]. rewrite E1 in Q2. destruct (Q2 Ho) as (Ho2 & F2 & _).
  case_bool_decide as Hst; cbn [negb].
  - destruct (Hok Hst) as [Hacc [d Hd]]. change (default [] (PathUtil.normalize (dstPath req))) with folder.
    apply spec_seq, onReport_spec; [done|]. intros r3 [E3 _]. rewrite (bool_decide_eq_true_2 _ Hm), Heq, bytes_eqb_refl. cbn [andb].
    apply spec_seq, onReport_spec; [done|]. intros r4 [E4 _]. apply spec_seq.
    assert (Hw : PathUtil.wf_path folder).
    { unfold folder. rewrite Hd. by apply (normal_wf (dstPath req)). }
    eapply spec_weaken; [apply (moveAll_spec (vols r) folder Hw Hacc (paths req) r4); [|done|done]|].
    + rewrite E4, E3. split_and!; [done|intros; apply F2|]. intros q c Hc Hn. exists q. by rewrite F2.
    + intros ? r5 (_ & Hu & Hs). apply finish_spec. intros r6 [E6 _] H1' H2' H3'. split_and!; try done; [intros; rewrite E6; by apply Hu; rewrite Heq|].
      intros q c Hc Hn. rewrite E6. rewrite <- Heq in *. destruct (Hs q c Hc Hn) as (q' & Hq' & _). by exists q'.
  - apply spec_seq, getDetail_spec. intros d0. apply spec_seq, fail_spec. intros r3 [E3 _] _. apply Hend; [by rewrite E3|]. intros. by rewrite E3.
Qed.

End Safety.
End TransferSafety.
