(* ===== verification/FileManager.v ===== *)
(** * The file manager: the volumes behind the file pages

    src/files/FileManager.cpp, [FileSink] and [FileSource] (src/files/FileSink.cpp,
    FileSource.cpp) over the calls of the C library, class [Posix]. The manager is an
    instance of the interface the transfers use; from [PosixTree], what it relies on of
    the C library, it keeps the laws of that interface, so what TransferSafety.v proves
    holds of a transfer between two mounted volumes. *)
From S2P Require Import Prelude Text PathUtil AtomicFile FileUpload FileShell PosixFiles TransferEngine TransferSafety.
From stdpp Require Import gmap sorting.
Import PosixFileOperations(PosixLaws, file, stat_law, mkdir_law, open_wb_law, open_wb_empties, read_law, write_others, write_law, flush_law, close_law, flush_others, close_others, flush_prefix, close_safe, kept, unlink_law, unlink_removes).
#[local] Open Scope Z_scope.

(** What the manager asks of the device beside the C library: the clock at its n-th
    look, whether a volume is found (mounted or alive) then, the texts of errors, the
    time of a file, and what a volume's own [format] and [powerCycle] do. *)
Class Device (P : Type) := {
  dev_now : nat → Z;
  dev_found : nat → bytes → bool;
  dev_strerror : Errno → bytes;
  dev_mtime : bytes → P → Z;
  dev_format : bytes → P → bool * P;
  dev_powerCycle : bytes → Z → bool;
  dev_lastError : bytes → bytes;
}.

(** ** A file being written *)

Module PosixSink.

(** [failed] is [ferror]. *)
Record Sink := mkSink { finalPath : bytes; open : bool; failed : bool; written : Z; committed : bool }.

Definition partPath (s : Sink) : bytes := partOf (finalPath s).
Definition close_ (s : Sink) : Sink := mkSink (finalPath s) false (failed s) (written s) (committed s).

Section Sink.
Context {P : Type} `{Posix P}.

Definition closeFile (s : Sink) (v : P) : Sink * P :=
  if open s then (close_ s, (px_close (partPath s) v).2) else (s, v).

Definition abort (s : Sink) (v : P) : Sink * P :=
  let '(s, v) := closeFile s v in
  (mkSink (finalPath s) (open s) (failed s) 0 (committed s), if committed s then v else (px_unlink (partPath s) v).2).

Definition destroy (s : Sink) (v : P) : P := if committed s then v else (abort s v).2.

(** A new file; the system's error where it cannot be opened. *)
Definition create (path : bytes) (v : P) : option Errno * Sink * P :=
  let '(e, v) := px_open_wb (partOf path) v in
  (e, mkSink path (bool_decide (e = None)) false 0 false, v).

Definition write (data : bytes) (s : Sink) (v : P) : bool * Sink * P :=
  if negb (open s) || bool_decide (data = []) then (open s, s, v)
  else
    let '(n, _, v) := px_write (partPath s) data v in
    if negb (n =? length data)%nat then (false, mkSink (finalPath s) (open s) true (written s) (committed s), v)
    else (true, mkSink (finalPath s) (open s) (failed s) (u64 (written s + Z.of_nat n)) (committed s), v).

Definition commit (s : Sink) (v : P) : bool * Sink * P :=
  if committed s then (true, s, v)
  else if negb (open s) then (false, s, v)
  else
    let '(e, v) := px_flush (partPath s) v in
    let '(s, v) := closeFile s v in
    if negb (bool_decide (e = None)) || failed s then let '(s, v) := abort s v in (false, s, v)
    else
      let '(_, v) := px_unlink (finalPath s) v in
      let '(e, v) := px_rename (partPath s) (finalPath s) v in
      if negb (bool_decide (e = None)) then let '(s, v) := abort s v in (false, s, v)
      else (true, mkSink (finalPath s) (open s) (failed s) (written s) true, v).

End Sink.
End PosixSink.

(** ** The volumes *)

Module VolumeManager.

Definition kRetryMs : Z := 5000.
Definition kMaxListEntries : nat := 512.

(** The registered volumes: id and mount point. *)
Abbreviation Layout := (list (bytes * bytes)).

Definition addVolume (id mountPoint : bytes) (l : Layout) : Layout :=
  if existsb (λ v : bytes * bytes, bytes_eqb v.1 id) l then l else l ++ [(id, mountPoint)].

(** [mounted]: the ids of the volumes that are; [looks]: how often the device was asked. *)
Record Manager (layout : Layout) (P : Type) := mkManager {
  fs : P;
  mounted : list bytes;
  formatting : bool;
  lastRetryMs : Z;
  looks : nat;
}.
#[global] Arguments mkManager {layout P}.
#[global] Arguments fs {layout P}.
#[global] Arguments mounted {layout P}.
#[global] Arguments formatting {layout P}.
#[global] Arguments lastRetryMs {layout P}.
#[global] Arguments looks {layout P}.

Section Manager.
Context {layout : Layout} {P : Type} `{Posix P, Device P}.
#[local] Abbreviation Mgr := (Manager layout P).

Definition onFs (f : P → P) (m : Mgr) : Mgr := mkManager (f (fs m)) (mounted m) (formatting m) (lastRetryMs m) (looks m).
Definition set_formatting (b : bool) (m : Mgr) : Mgr := mkManager (fs m) (mounted m) b (lastRetryMs m) (looks m).

Definition isMounted (id : bytes) (m : Mgr) : bool := bool_decide (id ∈ mounted m).

(** What [mount] and [verify] of every volume leave. *)
Definition askAll (m : Mgr) : list bytes := List.filter (dev_found (looks m)) (fst <$> layout).

Definition mountAll (m : Mgr) : Mgr :=
  mkManager (fs m) (List.filter (λ id, isMounted id m || dev_found (looks m) id) (fst <$> layout)) (formatting m)
    (dev_now (looks m)) (S (looks m)).

Definition refresh (m : Mgr) : Mgr :=
  let now := dev_now (looks m) in
  let looked := S (looks m) in
  if u32 (now - lastRetryMs m) <? kRetryMs then mkManager (fs m) (mounted m) (formatting m) (lastRetryMs m) looked
  else if formatting m then mkManager (fs m) (mounted m) (formatting m) (lastRetryMs m) looked
  else mkManager (fs m) (askAll m) (formatting m) now looked.

Definition mountPointOf (id : bytes) : option bytes :=
  snd <$> List.find (λ v : bytes * bytes, bytes_eqb v.1 id) layout.

Definition find_ (id : bytes) (m : Mgr) : option bytes * Mgr := (mountPointOf id, refresh m).

Definition resolve (id : bytes) (m : Mgr) : FileStatus * option bytes * Mgr :=
  let '(vol, m) := find_ id m in
  match vol with
  | None => (NotFound, None, m)
  | Some mount =>
      if negb (isMounted id m) then (NotMounted, vol, m)
      else if formatting m then (Busy, vol, m)
      else (StOk, vol, m)
  end.

Definition absolute (mount path : bytes) : option (bytes * bytes) :=
  rel ← PathUtil.normalize path; Some (rel, PathUtil.join mount rel).

(** The beginning every operation shares: the volume, then the path. *)
Definition atPath {A} (id path : bytes) (refused : FileStatus → A) (k : bytes → bytes → Mgr → A * Mgr) (m : Mgr) : A * Mgr :=
  match resolve id m with
  | (StOk, Some mount, m) =>
      match absolute mount path with
      | None => (refused InvalidPath, m)
      | Some (rel, full) => k rel full m
      end
  | (st, _, m) => (refused st, m)
  end.

Definition errorAnswer (e : Errno) : Answer :=
  (match e with ENOENT => NotFound | _ => IoError end, Some (dev_strerror e)).
Definition ioError (e : Errno) : Answer := (IoError, Some (dev_strerror e)).

#[local] Abbreviation root := ([47] : bytes).

(** ** Looking *)

(** The two names of a directory that are not entries of its own. *)
Definition isDots (nm : bytes) : bool := bytes_eqb nm (lit ".") || bytes_eqb nm (lit "..").

(** What the walk shows of a name: nothing of the two dots and of a part file. *)
Definition scanEntry (full nm : bytes) (v : P) : option FileEntry :=
  if isDots nm then None
  else if PathUtil.isPartName nm then None
  else match px_stat (full ++ 47 :: nm) v with
       | inl _ => Some (mkEntry nm false 0 0)
       | inr (isDir, size) => Some (mkEntry nm isDir (if isDir then 0 else size) (dev_mtime (full ++ 47 :: nm) v))
       end.

Definition scan (id path : bytes) : Mgr → Answer * list FileEntry * Mgr :=
  atPath id path (λ st, ((st, None), [])) (λ _ full m,
    match px_stat full (fs m) with
    | inl e => ((errorAnswer e, []), m)
    | inr (false, _) => (((InvalidPath, None), []), m)
    | inr (true, _) =>
        match px_readdir full (fs m) with
        | inl e => ((errorAnswer e, []), m)
        | inr (names, _) => (((StOk, None), omap (λ nm, scanEntry full nm (fs m)) names), m)
        end
    end).

Definition toLower (c : Z) : Z := if (65 <=? c) && (c <=? 90) then c + 32 else c.

Fixpoint nameLess (a b : bytes) : bool :=
  match a, b with
  | _, [] => false
  | [], _ :: _ => true
  | x :: a, y :: b => if negb (toLower x =? toLower y) then toLower x <? toLower y else nameLess a b
  end.

(** Directories first, then by name. *)
Definition entryLess (a b : FileEntry) : bool :=
  if negb (Bool.eqb (isDir a) (isDir b)) then isDir a else nameLess (name a) (name b).
Definition notAfter (a b : FileEntry) : Prop := entryLess b a = false.
#[export] Instance notAfter_dec a b : Decision (notAfter a b) := decide (entryLess b a = false).

(** [sort] leaves open how entries stand that are neither before the other. *)
Definition list_ (id path : bytes) (m : Mgr) : Answer * list FileEntry * Mgr :=
  let '(a, entries, m) := scan id path m in
  match a.1 with
  | StOk => (a, merge_sort notAfter (take kMaxListEntries entries), m)
  | _ => (a, take kMaxListEntries entries, m)
  end.

Definition stat (id path : bytes) : Mgr → Answer * option FileEntry * Mgr :=
  atPath id path (λ st, ((st, None), None)) (λ rel full m,
    if bytes_eqb rel root then (((InvalidPath, None), None), m)
    else match px_stat full (fs m) with
         | inl e => ((errorAnswer e, None), m)
         | inr (isDir, size) =>
             (((StOk, None), Some (mkEntry (PathUtil.basename rel) isDir (if isDir then 0 else size) (dev_mtime full (fs m)))), m)
         end).

Definition freeBytes (id : bytes) (m : Mgr) : Z * Mgr :=
  let '(vol, m) := find_ id m in
  match vol with
  | Some mount => (if isMounted id m then match px_fat_info mount (fs m) with Some (_, free) => free | None => 0 end else 0, m)
  | None => (0, m)
  end.

(** ** Changing *)

Definition mkdir (id path : bytes) : Mgr → Answer * Mgr :=
  atPath id path (λ st, (st, None)) (λ rel full m,
    if bytes_eqb rel root then ((AlreadyExists, None), m)
    else
      let '(e, v) := px_mkdir full (fs m) in
      (match e with
       | None => (StOk, None)
       | Some EEXIST => (AlreadyExists, Some (dev_strerror EEXIST))
       | Some e => ioError e
       end, onFs (λ _, v) m)).

Definition rename (id from to : bytes) : Mgr → Answer * Mgr :=
  atPath id from (λ st, (st, None)) (λ relFrom fullFrom m,
    match mountPointOf id ≫= (λ mount, absolute mount to) with
    | None => ((InvalidPath, None), m)
    | Some (relTo, fullTo) =>
        if bytes_eqb relFrom root || bytes_eqb relTo root then ((InvalidPath, None), m)
        else if is_prefix (relFrom ++ root) relTo then ((InvalidPath, None), m)
        else match px_stat fullTo (fs m) with
             | inr _ => ((AlreadyExists, None), m)
             | inl _ =>
                 let '(e, v) := px_rename fullFrom fullTo (fs m) in
                 (match e with None => (StOk, None) | Some e => errorAnswer e end, onFs (λ _, v) m)
             end
    end).

(** The tree below a path, the entries before the directory. A part that stays does not
    stop the rest. [errno]: that of the last call that failed. [n]: levels that may
    follow. *)
Fixpoint removeTree (n : nat) (path : bytes) (errno : Errno) (v : P) : bool * Errno * P :=
  match px_stat path v with
  | inl e => (false, e, v)
  | inr (false, _) => let '(e, v) := px_unlink path v in (bool_decide (e = None), default errno e, v)
  | inr (true, _) =>
      match px_readdir path v with
      | inl e => (false, e, v)
      | inr (names, _) =>
          match n with
          | O => (false, EOther, v)
          | S n =>
              let go := fix go (names : list bytes) (ok : bool) (errno : Errno) (v : P) : bool * Errno * P :=
                match names with
                | [] => let '(e, v) := px_rmdir path v in (bool_decide (e = None) && ok, default errno e, v)
                | nm :: names =>
                    if isDots nm then go names ok errno v
                    else let '(done, errno, v) := removeTree n (path ++ 47 :: nm) errno v in go names (ok && done) errno v
                end in
              go names true errno v
          end
      end
  end.

(** A path of 255 bytes has no more levels. *)
Definition kLevels : nat := 255.

Definition isDirEmpty (path : bytes) (v : P) : bool :=
  match px_readdir path v with
  | inl _ => false
  | inr (names, _) => forallb isDots names
  end.

Definition remove (id path : bytes) (recursive : bool) : Mgr → Answer * Mgr :=
  atPath id path (λ st, (st, None)) (λ rel full m,
    if bytes_eqb rel root then ((InvalidPath, None), m)
    else match px_stat full (fs m) with
         | inl e => (errorAnswer e, m)
         | inr (true, _) =>
             if negb recursive then
               if negb (isDirEmpty full (fs m)) then ((NotEmpty, None), m)
               else let '(e, v) := px_rmdir full (fs m) in
                    (match e with None => (StOk, None) | Some e => ioError e end, onFs (λ _, v) m)
             else let '(ok, errno, v) := removeTree kLevels full EOther (fs m) in
                  (if ok : bool then (StOk, None) else ioError errno, onFs (λ _, v) m)
         | inr (false, _) =>
             let '(e, v) := px_unlink full (fs m) in
             (match e with None => (StOk, None) | Some e => ioError e end, onFs (λ _, v) m)
         end).

(** ** Streams *)

(** [FileSource] has its length from [stat]. *)
Definition openRead (id path : bytes) : Mgr → Answer * Z * Mgr :=
  atPath id path (λ st, ((st, None), 0)) (λ rel full m,
    if bytes_eqb rel root then (((InvalidPath, None), 0), m)
    else match px_stat full (fs m) with
         | inl e => ((errorAnswer e, 0), m)
         | inr (true, _) => (((InvalidPath, None), 0), m)
         | inr (false, size) =>
             match px_open_rb full (fs m) with
             | Some e => ((ioError e, 0), m)
             | None => (((StOk, None), size), m)
             end
         end).

(** A window of an open source; the path is the one it was opened with. *)
Definition read (id path : bytes) (off n : nat) (m : Mgr) : bytes * bool * Mgr :=
  match mountPointOf id with
  | Some mount => (px_read (PathUtil.join mount path) off n (fs m), m)
  | None => ([], true, m)
  end.

Definition createWriter (id path : bytes) : Mgr → Answer * option PosixSink.Sink * Mgr :=
  atPath id path (λ st, ((st, None), None)) (λ rel full m,
    if bytes_eqb rel root then (((InvalidPath, None), None), m)
    else match px_stat full (fs m) with
         | inr (true, _) => (((AlreadyExists, None), None), m)
         | _ =>
             match PosixSink.create full (fs m) with
             | (Some e, sink, v) => ((ioError e, None), onFs (λ _, PosixSink.destroy sink v) m)
             | (None, sink, v) => (((StOk, None), Some sink), onFs (λ _, v) m)
             end
         end).

Definition sinkWrite (data : bytes) (k : PosixSink.Sink) (m : Mgr) : bool * PosixSink.Sink * Mgr :=
  let '(ok, k, v) := PosixSink.write data k (fs m) in (ok, k, onFs (λ _, v) m).
Definition sinkCommit (k : PosixSink.Sink) (m : Mgr) : bool * PosixSink.Sink * Mgr :=
  let '(ok, k, v) := PosixSink.commit k (fs m) in (ok, k, onFs (λ _, v) m).
Definition sinkAbort (k : PosixSink.Sink) (m : Mgr) : PosixSink.Sink * Mgr :=
  let '(k, v) := PosixSink.abort k (fs m) in (k, onFs (λ _, v) m).
Definition sinkDestroy (k : PosixSink.Sink) (m : Mgr) : Mgr := onFs (PosixSink.destroy k) m.

(** ** The whole volume *)

(** [busyCheck], [busyRepair]: what the two reports say. *)
(** A format looks first - [None]: nothing stands against it -, then sets its switch, erases
    and clears the switch; other tasks go on in between. *)
Definition formatLook (busyCheck busyRepair : bool) (id : bytes) (m : Mgr) : option Answer * Mgr :=
  let '(vol, m) := find_ id m in
  match vol with
  | None => (Some (NotFound, None), m)
  | Some _ =>
      if formatting m then (Some (Busy, Some (lit "a format is already running")), m)
      else if busyCheck then (Some (Busy, Some (lit "a volume check is running")), m)
      else if busyRepair then (Some (Busy, Some (lit "a repair is running")), m)
      else (None, m)
  end.

Definition formatErase (id : bytes) (m : Mgr) : Answer * Mgr :=
  let '(ok, v) := dev_format id (fs m) in
  let m := set_formatting false (onFs (λ _, v) m) in
  if ok : bool then ((StOk, None), m) else ((IoError, Some (dev_lastError id)), m).

(** With nothing in between. *)
Definition format (busyCheck busyRepair : bool) (id : bytes) (m : Mgr) : Answer * Mgr :=
  match formatLook busyCheck busyRepair id m with
  | (Some a, m) => (a, m)
  | (None, m) => formatErase id (set_formatting true m)
  end.

Definition powerCycle (id : bytes) (offMs : Z) (m : Mgr) : Answer * Mgr :=
  let '(vol, m) := find_ id m in
  match vol with
  | None => ((NotFound, None), m)
  | Some _ =>
      if dev_powerCycle id offMs then ((StOk, None), m)
      else (((if bool_decide (dev_lastError id = []) then Unsupported else IoError), Some (dev_lastError id)), m)
  end.

(** The manager is what a transfer works through. *)
#[export] Instance manager_ops : FileOps Mgr PosixSink.Sink := {
  op_scan := scan; op_stat := stat; op_mkdir := mkdir; op_remove := remove; op_rename := rename; op_openRead := openRead;
  op_read := read; op_createWriter := createWriter; op_write := sinkWrite; op_commit := sinkCommit; op_abort := sinkAbort;
  op_destroy := sinkDestroy; op_freeBytes := freeBytes;
}.

End Manager.
End VolumeManager.

(** ** What the manager relies on *)

(** On a tidy volume the directories form a tree and are read to their end; [allDirs]
    covers them. *)
Class PosixTree (P : Type) `{PosixLaws P} := {
  tidy : P → Prop;
  allDirs : P → list bytes;
  tree_law p t v c : tidy v → file v p = Some c → file v (p ++ 47 :: t) = None;
  dirs_law p z v : px_stat p v = inr (true, z) → p ∈ allDirs v;
  readdir_law d v names cut : tidy v → px_readdir d v = inr (names, cut) →
    cut = false ∧ NoDup names ∧ (∀ n, n ∈ names → 47 ∉ n ∧ n ≠ []) ∧
    ∀ n rest c, 47 ∉ n → n ≠ [] → descends rest → file v (d ++ 47 :: n ++ rest) = Some c → n ∈ names;
  dots_law d n rest v : tidy v → PathUtil.idle n || VolumeManager.isDots n = true → descends rest → file v (d ++ 47 :: n ++ rest) = None;
  rmdir_law p v q : file (px_rmdir p v).2 q = file v q;
  rename_tree a b v : tidy v →
    ((px_rename a b v).1 ≠ None → ∀ q, file (px_rename a b v).2 q = file v q) ∧
    ((px_rename a b v).1 = None → (∀ q, under b q → file v q = None) ∧
      (∀ q, ¬ under b q → file (px_rename a b v).2 q = if decide (under a q) then None else file v q) ∧
      ∀ rest, descends rest → file (px_rename a b v).2 (b ++ rest) = file v (a ++ rest));
  tidy_rename a b v : tidy v → tidy (px_rename a b v).2 ∧ ∀ x, x ∈ allDirs (px_rename a b v).2 → x ∈ allDirs v ∨ under b x;
  tidy_mkdir p v : tidy v → tidy (px_mkdir p v).2 ∧ ∀ x, x ∈ allDirs (px_mkdir p v).2 → x ∈ allDirs v ∨ x = p;
  tidy_unlink p v : tidy v → tidy (px_unlink p v).2 ∧ allDirs (px_unlink p v).2 ⊆ allDirs v;
  tidy_rmdir p v : tidy v → tidy (px_rmdir p v).2 ∧ allDirs (px_rmdir p v).2 ⊆ allDirs v;
  tidy_open_wb p v : tidy v → tidy (px_open_wb p v).2 ∧ allDirs (px_open_wb p v).2 ⊆ allDirs v;
  tidy_write p d v : tidy v → tidy (px_write p d v).2 ∧ allDirs (px_write p d v).2 ⊆ allDirs v;
  tidy_flush p v : tidy v → tidy (px_flush p v).2 ∧ allDirs (px_flush p v).2 ⊆ allDirs v;
  tidy_close p v : tidy v → tidy (px_close p v).2 ∧ allDirs (px_close p v).2 ⊆ allDirs v;
}.

Module ManagerLaws.
Import VolumeManager TransferSafety.

(** ** Steps of the C library *)

Section Calls.
Context {P : Type} `{PosixTree P}.

(** Only the files at [X] differ, and new directories are only there. *)
Definition step (X : bytes → Prop) (v v' : P) : Prop := tidy v → tidy v' ∧
  (∀ x, x ∈ allDirs v' → x ∈ allDirs v ∨ ∃ q, X q ∧ under q x) ∧ ∀ q, ¬ X q → file v' q = file v q.

Lemma step_refl X v : step X v v.
Proof. intros Ht. split_and!; [done|by left|done]. Qed.
Lemma step_trans X v1 v2 v3 : step X v1 v2 → step X v2 v3 → step X v1 v3.
Proof.
  intros Hx Hy Ht. destruct (Hx Ht) as (Ht2 & D1 & F1). destruct (Hy Ht2) as (Ht3 & D2 & F2).
  split_and!; [done| |intros q Hq; by rewrite F2, F1]. intros x Hin. destruct (D2 x Hin); auto.
Qed.
Lemma step_mono (X Y : bytes → Prop) v v' : step X v v' → (∀ q, X q → Y q) → step Y v v'.
Proof.
  intros Hx HX Ht. destruct (Hx Ht) as (? & D & F). split_and!; [done| |auto].
  intros x Hin. destruct (D x Hin) as [|(q & Hq & Hu)]; [by left|right; eauto].
Qed.

(** A call that makes no directory. *)
Lemma step_call X (v v' : P) : (tidy v → tidy v' ∧ allDirs v' ⊆ allDirs v) → (∀ q, ¬ X q → file v' q = file v q) → step X v v'.
Proof. intros Ht Hf Hv. destruct (Ht Hv) as [? D]. split_and!; [done| |done]. intros x Hx. left. by apply D. Qed.

Lemma unlink_step p v : step (λ q, q = p) v (px_unlink p v).2.
Proof. apply step_call; [apply tidy_unlink|]. intros q Hq. apply unlink_law. by left. Qed.
Lemma rmdir_step X p v : step X v (px_rmdir p v).2.
Proof. apply step_call; [apply tidy_rmdir|]. intros q _. apply rmdir_law. Qed.
Lemma open_wb_step p v : step (λ q, q = p) v (px_open_wb p v).2.
Proof. apply step_call; [apply tidy_open_wb|]. intros q Hq. apply open_wb_law. by left. Qed.
Lemma write_step p d v : step (λ q, q = p) v (px_write p d v).2.
Proof. apply step_call; [apply tidy_write|]. intros q Hq. by apply write_others. Qed.
Lemma flush_step p v : step (λ q, q = p) v (px_flush p v).2.
Proof. apply step_call; [apply tidy_flush|]. intros q Hq. by apply flush_others. Qed.
Lemma close_step p v : step (λ q, q = p) v (px_close p v).2.
Proof. apply step_call; [apply tidy_close|]. intros q Hq. by apply close_others. Qed.

(** ** The sink *)

Lemma closeFile_step s (v : P) : step (λ q, q = PosixSink.partPath s) v (PosixSink.closeFile s v).2.
Proof. unfold PosixSink.closeFile. destruct (PosixSink.open s); [apply close_step|apply step_refl]. Qed.

Lemma closeFile_path s (v : P) : PosixSink.finalPath (PosixSink.closeFile s v).1 = PosixSink.finalPath s ∧
  PosixSink.committed (PosixSink.closeFile s v).1 = PosixSink.committed s.
Proof. unfold PosixSink.closeFile. by destruct (PosixSink.open s). Qed.

Lemma abort_step s (v : P) : PosixSink.finalPath (PosixSink.abort s v).1 = PosixSink.finalPath s ∧
  PosixSink.committed (PosixSink.abort s v).1 = PosixSink.committed s ∧ step (λ q, q = PosixSink.partPath s) v (PosixSink.abort s v).2.
Proof.
  unfold PosixSink.abort. pose proof (closeFile_step s v) as Hc. destruct (closeFile_path s v) as [Hp Hm].
  destruct (PosixSink.closeFile s v) as [s1 v1]. cbn [fst snd] in *. split_and!; [done|done|]. destruct (PosixSink.committed s1); [done|].
  eapply step_trans; [exact Hc|]. unfold PosixSink.partPath in *. rewrite Hp. apply unlink_step.
Qed.

Lemma destroy_step s (v : P) : step (λ q, q = PosixSink.partPath s) v (PosixSink.destroy s v).
Proof. unfold PosixSink.destroy. destruct (PosixSink.committed s); [apply step_refl|apply abort_step]. Qed.

Lemma write_sink s data (v : P) : let '(ok, s', v') := PosixSink.write data s v in
  PosixSink.finalPath s' = PosixSink.finalPath s ∧ PosixSink.committed s' = PosixSink.committed s ∧
  step (λ q, q = PosixSink.partPath s) v v' ∧
  ∀ d, ok = true → file v (PosixSink.partPath s) = Some d → file v' (PosixSink.partPath s) = Some (d ++ data).
Proof.
  unfold PosixSink.write. destruct (negb (PosixSink.open s) || bool_decide (data = [])) eqn:E.
  - split_and!; [done|done|apply step_refl|]. intros d Ho Hd. rewrite Ho in E. cbn in E. apply bool_decide_eq_true in E as ->. by rewrite app_nil_r.
  - pose proof (write_step (PosixSink.partPath s) data v) as Hs. pose proof (write_law (PosixSink.partPath s) data v) as Hw.
    destruct (px_write (PosixSink.partPath s) data v) as [[n e] v']. cbn [fst snd] in *. destruct (Nat.eqb_spec n (length data)) as [->|Hn]; cbn [negb].
    + split_and!; [done|done|done|]. intros d _ Hd. destruct (Hw d Hd) as (_ & Hf & _). by rewrite firstn_all in Hf.
    + by split_and!.
Qed.

Lemma commit_sink s d (v : P) : file v (PosixSink.partPath s) = Some d → PosixSink.committed s = false → let '(ok, s', v') := PosixSink.commit s v in
  PosixSink.finalPath s' = PosixSink.finalPath s ∧ PosixSink.committed s' = ok ∧
  step (λ q, q = PosixSink.finalPath s ∨ q = PosixSink.partPath s) v v' ∧
  (tidy v → ok = true → file v' (PosixSink.finalPath s) = Some d).
Proof.
  intros Hd Ec. unfold PosixSink.commit. rewrite Ec. destruct (PosixSink.open s); cbn [negb]; [|by split_and!; [..|apply step_refl|]].
  set (X := λ q, q = PosixSink.finalPath s ∨ q = PosixSink.partPath s).
  assert (HX : ∀ q, q = PosixSink.partPath s → X q) by (intros q ->; by right).
  pose proof (step_mono _ X _ _ (flush_step (PosixSink.partPath s) v) HX) as S1.
  destruct (flush_prefix (PosixSink.partPath s) v d Hd) as (j & F1 & _ & _ & F1').
  destruct (px_flush (PosixSink.partPath s) v) as [e v1]. cbn [fst snd] in *.
  pose proof (step_mono _ X _ _ (closeFile_step s v1) HX) as S2. destruct (closeFile_path s v1) as [Hp Hm].
  assert (F2 : e = None → file (PosixSink.closeFile s v1).2 (PosixSink.partPath s) = Some d).
  { intros He. destruct (F1' He) as [Ej Ek]. rewrite Ej in F1. unfold PosixSink.closeFile.
    destruct (PosixSink.open s); [|done]. cbn [snd]. apply close_safe; [done|by rewrite Ek]. }
  destruct (PosixSink.closeFile s v1) as [s1 v2]. cbn [fst snd] in *.
  assert (S12 : step X v v2) by (by eapply step_trans).
  assert (Hab : ∀ v3, step X v v3 → let '(s', v') := PosixSink.abort s1 v3 in PosixSink.finalPath s' = PosixSink.finalPath s ∧
    PosixSink.committed s' = false ∧ step X v v').
  { intros v3 S3. destruct (abort_step s1 v3) as (Ha & Hm' & Sa). destruct (PosixSink.abort s1 v3) as [s' v']. cbn [fst snd] in *.
    split_and!; [congruence..|]. eapply step_trans; [exact S3|]. eapply step_mono; [exact Sa|]. intros q ->. right. unfold PosixSink.partPath. by rewrite Hp. }
  destruct (negb (bool_decide (e = None)) || PosixSink.failed s1) eqn:Ebad; [|apply orb_false_iff in Ebad as [Ee _]; apply negb_false_iff, bool_decide_eq_true in Ee; specialize (F2 Ee)].
  { specialize (Hab v2 S12). destruct (PosixSink.abort s1 v2) as [s' v']. destruct Hab as (? & ? & ?). by split_and!. }
  pose proof (unlink_step (PosixSink.finalPath s1) v2) as S3. destruct (px_unlink (PosixSink.finalPath s1) v2) as [e3 v3]. cbn [snd] in S3.
  unfold PosixSink.partPath in *. rewrite Hp in *.
  assert (S13 : step X v v3) by (eapply step_trans; [exact S12|]; eapply step_mono; [exact S3|]; intros q ->; by left).
  assert (F3 : tidy v1 → file v3 (partOf (PosixSink.finalPath s)) = Some d).
  { intros Ht. destruct (S2 Ht) as (Ht2 & _ & _). destruct (S3 Ht2) as (_ & _ & F). rewrite F; [done|]. apply partOf_ne. }
  pose proof (rename_tree (partOf (PosixSink.finalPath s)) (PosixSink.finalPath s) v3) as Hr.
  pose proof (tidy_rename (partOf (PosixSink.finalPath s)) (PosixSink.finalPath s) v3) as Ht.
  destruct (px_rename (partOf (PosixSink.finalPath s)) (PosixSink.finalPath s) v3) as [e4 v4]. cbn [fst snd] in *.
  set (f := PosixSink.finalPath s) in *. assert (S34 : tidy v1 → step X v3 v4).
  { intros Ht1 Ht3. destruct (Ht Ht3) as [Ht4 D4], (Hr Ht3) as [Hno Hyes]. split_and!; [done| |].
    - intros x Hx. destruct (D4 x Hx) as [|Hu]; [by left|right]. exists f. split; [by left|done].
    - intros q Hq. destruct e4 as [e4|]; [by apply Hno|]. destruct (Hyes eq_refl) as (Hfree & Hsame & Hmoved).
      specialize (F3 Ht1). destruct (decide (under f q)) as [(rest & -> & Hde)|Hu].
      + rewrite (Hmoved rest Hde), (Hfree (f ++ rest)) by (by exists rest). destruct Hde as [->|[t ->]]; [destruct Hq; left; by rewrite app_nil_r|].
        by rewrite (tree_law _ t _ _ Ht3 F3).
      + rewrite (Hsame q Hu). destruct (decide (under (partOf f) q)) as [(rest & -> & Hde)|]; [|done].
        destruct Hde as [->|[t ->]]; [destruct Hq; right; by rewrite app_nil_r|]. by rewrite (tree_law _ t _ _ Ht3 F3). }
  assert (S14 : tidy v → step X v v4).
  { intros Htv. destruct (S1 Htv) as (Ht1 & _ & _). eapply step_trans; [exact S13|by apply S34]. }
  assert (S14' : step X v v4) by (intros Htv; by apply S14). case_bool_decide as E4; cbn [negb].
  - split_and!; [done|done|exact S14'|]. intros Htv _. destruct (S1 Htv) as (Ht1 & _ & _), (S13 Htv) as (Ht3 & _ & _).
    destruct (Hr Ht3) as [_ Hyes]. destruct (Hyes E4) as (_ & _ & Hmoved). specialize (Hmoved [] (or_introl eq_refl)).
    rewrite !app_nil_r in Hmoved. rewrite Hmoved. by apply F3.
  - specialize (Hab v4 S14'). destruct (PosixSink.abort s1 v4) as [s' v']. destruct Hab as (? & ? & ?). by split_and!.
Qed.

(** ** Removing a tree *)

Lemma under_down p nm q : under (p ++ 47 :: nm) q → under p q.
Proof. intros (rest & -> & _). exists (47 :: nm ++ rest). split; [by rewrite <- app_assoc|right; by eexists]. Qed.

(** Nothing new: what [rmdir] and [unlink] do to the directories. *)
Definition shrinks (X : bytes → Prop) (v v' : P) : Prop := tidy v → tidy v' ∧ allDirs v' ⊆ allDirs v ∧ ∀ q, ¬ X q → file v' q = file v q.

Lemma shrinks_refl X v : shrinks X v v.
Proof. intros Ht. by split_and!. Qed.
Lemma shrinks_trans X v1 v2 v3 : shrinks X v1 v2 → shrinks X v2 v3 → shrinks X v1 v3.
Proof.
  intros Hx Hy Ht. destruct (Hx Ht) as (Ht2 & D1 & F1). destruct (Hy Ht2) as (Ht3 & D2 & F2).
  split_and!; [done|intros x Hin; by apply D1, D2|intros q Hq; by rewrite F2, F1].
Qed.
Lemma shrinks_mono (X Y : bytes → Prop) v v' : shrinks X v v' → (∀ q, X q → Y q) → shrinks Y v v'.
Proof. intros Hx HX Ht. destruct (Hx Ht) as (? & ? & F). split_and!; auto. Qed.
Lemma unlink_shrinks p v : shrinks (under p) v (px_unlink p v).2.
Proof.
  intros Ht. destruct (tidy_unlink p v Ht) as [? D]. split_and!; [done|done|]. intros q Hq. apply unlink_law. left. intros ->.
  apply Hq, under_refl.
Qed.
Lemma rmdir_shrinks X p v : shrinks X v (px_rmdir p v).2.
Proof. intros Ht. destruct (tidy_rmdir p v Ht) as [? D]. split_and!; [done|done|]. intros q _. apply rmdir_law. Qed.

Lemma removeTree_shrinks n path errno (v : P) : shrinks (under path) v (removeTree n path errno v).2.
Proof.
  revert path errno v. induction n as [|n IH]; intros path errno v; cbn [removeTree].
  all: destruct (px_stat path v) as [e|[[] z]]; [apply shrinks_refl| |pose proof (unlink_shrinks path v); by destruct (px_unlink path v)].
  { destruct (px_readdir path v) as [|[]]; apply shrinks_refl. }
  destruct (px_readdir path v) as [e|[names cut]]; [apply shrinks_refl|]. generalize true as ok. revert errno v. induction names as [|nm names IHn]; intros errno v ok.
  - pose proof (rmdir_shrinks (under path) path v). by destruct (px_rmdir path v).
  - destruct (isDots nm); [apply IHn|]. pose proof (IH (path ++ 47 :: nm) errno v) as Hc.
    destruct (removeTree n (path ++ 47 :: nm) errno v) as [[done' errno'] v']. cbn [snd] in Hc.
    eapply shrinks_trans; [|apply IHn]. eapply shrinks_mono; [exact Hc|]. intros q. apply under_down.
Qed.

(** Every file that is there afterwards was there before. *)
Lemma removeTree_less n path errno (v : P) q c : file (removeTree n path errno v).2 q = Some c → file v q = Some c.
Proof.
  assert (Hun : ∀ p (w : P), file (px_unlink p w).2 q = Some c → file w q = Some c).
  { intros p w Hc. destruct (decide (q ≠ p ∨ (px_unlink p w).1 ≠ None)) as [Ho|Ho]; [by rewrite unlink_law in Hc|].
    assert (q = p) as -> by (destruct (decide (q = p)); tauto). assert (E : (px_unlink p w).1 = None) by (destruct ((px_unlink p w).1); [destruct Ho; by right|done]).
    rewrite unlink_removes in Hc by done. done. }
  revert path errno v. induction n as [|n IH]; intros path errno v; cbn [removeTree].
  all: destruct (px_stat path v) as [e|[[] z]]; [done| |pose proof (Hun path v); by destruct (px_unlink path v)].
  { by destruct (px_readdir path v) as [|[]]. }
  destruct (px_readdir path v) as [e|[names cut]]; [done|]. generalize true as ok. revert errno v. induction names as [|nm names IHn]; intros errno v ok.
  - pose proof (rmdir_law path v q) as E. destruct (px_rmdir path v). cbn [snd] in *. by rewrite E.
  - destruct (isDots nm); [apply IHn|]. pose proof (IH (path ++ 47 :: nm) errno v) as Hc.
    destruct (removeTree n (path ++ 47 :: nm) errno v) as [[done' errno'] v']. intros Hx. apply IHn in Hx. by apply Hc.
Qed.

End Calls.

(** ** Paths of a volume *)

(** A name directly below the root. *)
Definition topName (M : bytes) : Prop := ∃ n, M = 47 :: n ∧ 47 ∉ n ∧ n ≠ [].

(** Different volumes hang under different names of the root. *)
Class GoodLayout (layout : Layout) := {
  mounts_differ : NoDup (snd <$> layout);
  mounts_top id M : (id, M) ∈ layout → topName M;
}.

(** A path of something below the mount point. *)
Definition rooted (q : bytes) : bool := bool_decide (head q = Some 47) && (1 <? length q)%nat.

Lemma rooted_iff q : rooted q = true ↔ ∃ t, q = 47 :: t ∧ t ≠ [].
Proof.
  unfold rooted. rewrite andb_true_iff, bool_decide_eq_true, Nat.ltb_lt. split.
  - intros [E Hl]. destruct q as [|x t]; [done|]. injection E as ->. exists t. split; [done|]. intros ->. cbn in Hl. lia.
  - intros (t & -> & Ht). split; [done|]. destruct t; [done|cbn; lia].
Qed.

Lemma rooted_app q rest : rooted q = true → rooted (q ++ rest) = true.
Proof. rewrite !rooted_iff. intros (t & -> & Ht). exists (t ++ rest). split; [done|]. by destruct t. Qed.

Lemma plain_rooted p : plain p → p ≠ [47] → rooted p = true.
Proof.
  intros (l & -> & Hl) Hr. apply rooted_iff. destruct l as [|x l]; [done|]. rewrite buildPath_eq by done. cbn.
  eexists. split; [done|]. apply Forall_cons in Hl as [[_ Hx] _]. apply idle_nonempty in Hx. by destruct x.
Qed.

Lemma join_top M p : topName M → plain p → PathUtil.join M p = if decide (p = [47]) then M else M ++ p.
Proof.
  intros (n & -> & Hn & Hne) Hp. unfold PathUtil.join. destruct (decide (p = [47])) as [->|Hr]; [done|].
  destruct (proj1 (rooted_iff _) (plain_rooted p Hp Hr)) as (t & -> & Ht). rewrite bool_decide_eq_false_2 by done. rewrite (proj2 (bytes_eqb_neq _ _) Hr). cbn [orb hd].
  destruct (exists_last Hne) as (n' & x & En). subst n. change (47 :: n' ++ [x]) with ((47 :: n') ++ [x]).
  rewrite List.last_last. assert (Hx : x ≠ 47) by (intros ->; apply Hn, elem_of_app; right; by left).
  rewrite (proj2 (Z.eqb_neq _ _) Hx), andb_false_r. done.
Qed.

(** What lies below a joined path. *)
Lemma join_child M p n : topName M → plain p → M ++ TransferEngine.joinRel p n = PathUtil.join M p ++ 47 :: n.
Proof.
  intros HM Hp. rewrite join_top by done. destruct (decide (p = [47])) as [->|Hr]; [done|]. rewrite joinRel_wf by done. by rewrite app_assoc.
Qed.

Lemma plain_normalize p rel : plain p → PathUtil.normalize p = Some rel → rel = p.
Proof. intros (l & -> & Hl) (_ & _ & ->)%PathUtil.normalize_Some. by rewrite PathUtil.names_pieces. Qed.

Section Laws.
Context {layout : Layout} {P : Type} `{PosixTree P, Device P, GoodLayout layout}.
#[local] Abbreviation Mgr := (Manager layout P).
#[local] Abbreviation mountPointOf := (mountPointOf (layout := layout)).

Lemma mount_listed u M : mountPointOf u = Some M → (u, M) ∈ layout.
Proof.
  unfold VolumeManager.mountPointOf. destruct (List.find _ layout) as [[u' M']|] eqn:E; [|done]. cbn. intros [= ->].
  apply List.find_some in E as [Hin E%bytes_eqb_eq]. cbn in E. subst u'. by apply list_elem_of_In.
Qed.

Lemma mount_shape u M : mountPointOf u = Some M → topName M.
Proof. intros E. by eapply mounts_top, mount_listed. Qed.

(** No path is in two volumes. *)
Lemma apart_paths u w M N p q : mountPointOf u = Some M → mountPointOf w = Some N → rooted p = true → rooted q = true →
  M ++ p = N ++ q → u = w ∧ p = q.
Proof.
  intros HM HN (s & -> & _)%rooted_iff (t & -> & _)%rooted_iff E. destruct (mount_shape _ _ HM) as (m & -> & Hm & _), (mount_shape _ _ HN) as (n & -> & Hn & _).
  injection E as E. destruct (name_split m n (47 :: s) (47 :: t)) as [<- E']; [done|done|by right; eexists..|done|]. split; [|done].
  apply mount_listed, list_elem_of_lookup_1 in HM as [i Hi]. apply mount_listed, list_elem_of_lookup_1 in HN as [j Hj].
  cut (i = j); [intros <-; congruence|].
  apply (NoDup_lookup (snd <$> layout) i j (47 :: m)); [apply mounts_differ|by rewrite list_lookup_fmap, Hi|by rewrite list_lookup_fmap, Hj].
Qed.

Lemma join_mount u M p : mountPointOf u = Some M → plain p → PathUtil.join M p = if decide (p = [47]) then M else M ++ p.
Proof. intros HM. by apply join_top, (mount_shape u). Qed.

(** ** The model *)

#[export] Instance manager_model : FileModel Mgr PosixSink.Sink := {
  orderly m := tidy (fs m);
  fileAt m u q := M ← mountPointOf u; if rooted q then file (fs m) (M ++ q) else None;
  dirsOf m u := match mountPointOf u with
                | None => []
                | Some M => omap (λ d, let q := drop (length M) d in if is_prefix M d && rooted q then Some q else None) (allDirs (fs m))
                end;
  sinkOf k u p := plain p ∧ p ≠ [47] ∧ PosixSink.committed k = false ∧
    ∃ M, mountPointOf u = Some M ∧ PosixSink.finalPath k = M ++ p;
}.

Lemma dirsOf_in (m : Mgr) u q : q ∈ dirsOf m u ↔ ∃ M, mountPointOf u = Some M ∧ rooted q = true ∧ M ++ q ∈ allDirs (fs m).
Proof.
  cbn. destruct (mountPointOf u) as [M|]; [|split; [by intros ?%elem_of_nil|by intros (? & ? & _)]].
  rewrite list_elem_of_omap. split.
  - intros (d & Hd & E). destruct (is_prefix M d) eqn:Ep; [|done]. apply is_prefix_spec in Ep as [t ->]. rewrite drop_app_length in E.
    cbn [andb] in E. destruct (rooted t) eqn:Er; [|done]. injection E as ->. by exists M.
  - intros (M' & [= <-] & Hr & Hin). exists (M ++ q). split; [done|]. rewrite drop_app_length, Hr.
    by rewrite (proj2 (is_prefix_spec _ _)) by eauto.
Qed.

Lemma fileAt_in (m : Mgr) u M q : mountPointOf u = Some M → rooted q = true → fileAt m u q = file (fs m) (M ++ q).
Proof. intros E Hr. cbn. rewrite E. cbn. by rewrite Hr. Qed.

Lemma fileAt_Some (m : Mgr) u q c : fileAt m u q = Some c → ∃ M, mountPointOf u = Some M ∧ rooted q = true ∧ file (fs m) (M ++ q) = Some c.
Proof. cbn. destruct (mountPointOf u) as [M|]; [|done]. cbn. destruct (rooted q); [|done]. eauto. Qed.

(** Looking changes nothing. *)
Lemma still_quiet (m m' : Mgr) : fs m' = fs m → quiet (K := PosixSink.Sink) m m'.
Proof. intros E Ho. cbn in *. by rewrite E. Qed.

Lemma still_same u X (m m' : Mgr) : fs m' = fs m → same (K := PosixSink.Sink) u X m m'.
Proof. intros E Ho. destruct (still_quiet _ _ E Ho) as (? & ? & ?). by split_and!. Qed.

(** A step of the file system at paths of a volume is one of the manager there. *)
Lemma lift_step u M (X : bytes → Prop) Y (m m' : Mgr) : mountPointOf u = Some M → step Y (fs m) (fs m') →
  (∀ q, Y q → ∃ p, q = M ++ p ∧ rooted p = true ∧ X p) → same (K := PosixSink.Sink) u X m m'.
Proof.
  intros HM Hs HY Ho. destruct (Hs Ho) as (Ho' & D & F). split_and!; [done| |].
  - intros w q Hw. cbn. destruct (mountPointOf w) as [N|] eqn:HN; [|done]. cbn. destruct (rooted q) eqn:Hr; [|done].
    apply F. intros Hy. destruct (HY _ Hy) as (p & E & Hp & HX).
    destruct (apart_paths w u N M q p HN HM Hr Hp E) as [-> ->]. by destruct Hw.
  - intros w Hw q. rewrite !dirsOf_in. intros (N & HN & Hr & Hin). exists N. split_and!; [done|done|].
    destruct (D _ Hin) as [|(y & Hy & rest & E & _)]; [done|]. destruct (HY _ Hy) as (p & -> & Hp & _). rewrite <- app_assoc in E.
    by destruct (apart_paths w u N M q (p ++ rest) HN HM Hr (rooted_app _ _ Hp) E) as [-> _].
Qed.

(** ** The operations *)

Lemma find_still u (m : Mgr) : fs (find_ u m).2 = fs m.
Proof. unfold find_, refresh. cbn. by destruct (_ <? _), (formatting m). Qed.

(** How every operation begins: it refuses, or goes on below the mount point. *)
Lemma atPath_spec {A} u p refused (k : bytes → bytes → Mgr → A * Mgr) (m : Mgr) (Q : A * Mgr → Prop) : plain p →
  (∀ st m', st ≠ StOk → fs m' = fs m → Q (refused st, m')) →
  (∀ M m', mountPointOf u = Some M → PathUtil.normalize p = Some p → fs m' = fs m → Q (k p (PathUtil.join M p) m')) →
  Q (atPath u p refused k m).
Proof.
  intros Hp Hno Hyes. unfold atPath, resolve. pose proof (find_still u m) as E. unfold find_ in *. cbn [snd] in E.
  destruct (mountPointOf u) as [M|] eqn:HM; [|by apply Hno]. destruct (isMounted u (refresh m)); cbn [negb]; [|by apply Hno].
  destruct (formatting (refresh m)); [by apply Hno|]. unfold absolute. destruct (PathUtil.normalize p) as [rel|] eqn:Hn; cbn; [|by apply Hno].
  apply plain_normalize in Hn as Hr; [|done]. subst rel. by apply (Hyes M).
Qed.

Lemma deep_join u M p : mountPointOf u = Some M → plain p → p ≠ [47] → PathUtil.join M p = M ++ p ∧ rooted p = true.
Proof. intros HM Hp Hr. rewrite (join_mount u) by done. by rewrite decide_False, plain_rooted by done. Qed.

Lemma join_below u M p n rest : mountPointOf u = Some M → plain p →
  M ++ TransferEngine.joinRel p n ++ rest = PathUtil.join M p ++ 47 :: n ++ rest.
Proof. intros HM Hp. rewrite app_assoc, join_child by (done || by eapply mount_shape). by rewrite <- app_assoc. Qed.

Lemma joinRel_rooted p n : plain p → n ≠ [] → rooted (TransferEngine.joinRel p n) = true.
Proof.
  intros Hp Hn. apply rooted_iff. unfold TransferEngine.joinRel. destruct (bytes_eqb p [47]) eqn:E; [by exists n|].
  apply bytes_eqb_neq in E. destruct (proj1 (rooted_iff _) (plain_rooted p Hp E)) as (t & -> & Ht). exists (t ++ 47 :: n).
  split; [done|]. by destruct t.
Qed.

Lemma not_top p : bytes_eqb p [47] = false → p ≠ [47].
Proof. by intros ?%bytes_eqb_neq. Qed.

(** What [scan] keeps of the names. *)
Lemma scan_names full (v : P) (names : list bytes) e : e ∈ omap (λ nm, scanEntry full nm v) names →
  name e ∈ names ∧ isDots (name e) = false ∧ (isDir e = true → ∃ z, px_stat (full ++ 47 :: name e) v = inr (true, z)).
Proof.
  intros (nm & Hin & E)%list_elem_of_omap. unfold scanEntry in E. destruct (isDots nm) eqn:Ed; [done|].
  destruct (PathUtil.isPartName nm); [done|]. destruct (px_stat (full ++ 47 :: nm) v) as [er|[d z]] eqn:Es; injection E as <-; cbn; [done|].
  split_and!; [done|done|]. intros ->. by exists z.
Qed.

Lemma scan_distinct full (v : P) (names : list bytes) : NoDup names → NoDup (name <$> omap (λ nm, scanEntry full nm v) names).
Proof.
  induction 1 as [|nm names Hn _ IH]; [constructor|]. cbn [omap list_omap]. destruct (scanEntry full nm v) as [e|] eqn:E; [|done].
  cbn [fmap list_fmap]. constructor; [|done]. intros (e' & En & Hin)%list_elem_of_fmap. apply Hn.
  assert (nm = name e) as ->.
  { unfold scanEntry in E. destruct (isDots nm); [done|]. destruct (PathUtil.isPartName nm); [done|]. by destruct (px_stat _ v) as [|[]]; injection E as <-. }
  rewrite En. by apply scan_names in Hin as [? _].
Qed.

Lemma scan_sees full (v : P) (names : list bytes) n : n ∈ names → isDots n = false → PathUtil.isPartName n = false →
  ∃ e, e ∈ omap (λ nm, scanEntry full nm v) names ∧ name e = n ∧ (isDir e = true → file v (full ++ 47 :: n) = None).
Proof.
  intros Hin Hd Hp. destruct (scanEntry full n v) as [e|] eqn:E.
  - exists e. split; [apply list_elem_of_omap; by exists n|]. unfold scanEntry in E. rewrite Hd, Hp in E.
    pose proof (stat_law (full ++ 47 :: n) v) as Hs. by destruct (px_stat _ v) as [|[[] z]]; injection E as <-.
  - unfold scanEntry in E. rewrite Hd, Hp in E. by destruct (px_stat _ v) as [|[]].
Qed.

Lemma isDots_spec n : isDots n = false ↔ n ≠ [46] ∧ n ≠ lit "..".
Proof. unfold isDots. by rewrite orb_false_iff, !bytes_eqb_neq. Qed.

Lemma manager_scan u p (m : Mgr) : plain p → let '((st, _), l, m') := scan u p m in
  quiet (K := PosixSink.Sink) m m' ∧ (st ≠ StOk → l = []) ∧ (orderly m → st = StOk →
    NoDup (name <$> l) ∧ (∀ e, e ∈ l → 47 ∉ name e ∧ PathUtil.idle (name e) = false ∧
      (isDir e = true → TransferEngine.joinRel p (name e) ∈ dirsOf m u)) ∧
    ∀ n rest c, 47 ∉ n → PathUtil.idle n = false → PathUtil.isPartName n = false → descends rest →
      fileAt m u (TransferEngine.joinRel p n ++ rest) = Some c → ∃ e, e ∈ l ∧ name e = n ∧ (isDir e = true → rest ≠ [])).
Proof.
  intros Hp. unfold scan. apply atPath_spec; [done| |].
  { intros st m' Hst E. split_and!; [by apply still_quiet|done|done]. }
  intros M m' HM _ E. set (full := PathUtil.join M p).
  destruct (px_stat full (fs m')) as [e|[[] z]] eqn:Es; cbn [errorAnswer].
  1, 3: by split_and!; [by apply still_quiet|..|destruct e || intros; done].
  destruct (px_readdir full (fs m')) as [e|[names cut]] eqn:Er; cbn [errorAnswer].
  { by split_and!; [by apply still_quiet|..|destruct e]. }
  split_and!; [by apply still_quiet|done|]. intros Ho _. cbn [orderly manager_model] in Ho. rewrite <- E in Ho.
  destruct (readdir_law _ _ _ _ Ho Er) as (_ & Hnd & Hnames & Hsees). split_and!; [by apply scan_distinct| |].
  - intros e (Hin & Hd & Hdir)%scan_names. destruct (Hnames _ Hin) as [Hs Hne]. apply isDots_spec in Hd as [Hd _].
    split_and!; [done| |]. { unfold PathUtil.idle. by rewrite bool_decide_eq_false_2, (proj2 (bytes_eqb_neq _ _)) by done. }
    intros [z' Hst]%Hdir. apply dirsOf_in. exists M. split_and!; [done|by apply joinRel_rooted|]. rewrite <- (app_nil_r (TransferEngine.joinRel _ _)), (join_below u), app_nil_r, <- E by done. by eapply dirs_law.
  - intros n rest c Hs Hi Hpart Hde Hc. apply fileAt_Some in Hc as (M' & HM' & Hr & Hc). rewrite HM in HM'. injection HM' as <-.
    rewrite (join_below u), <- E in Hc by done. fold full in Hc. pose proof (idle_nonempty _ Hi) as Hne.
    assert (Hd : isDots n = false).
    { destruct (isDots n) eqn:Hd; [|done]. assert (Hz : PathUtil.idle n || isDots n = true) by (by rewrite Hd, orb_true_r).
      by rewrite (dots_law full n rest (fs m') Ho Hz Hde) in Hc. }
    destruct (scan_sees full (fs m') names n) as (e & Hin & Hn & Hdir); [by eapply Hsees|done|done|]. exists e. split_and!; [done|done|].
    intros Hd' ->. rewrite app_nil_r, (Hdir Hd') in Hc. done.
Qed.

Lemma manager_stat u p (m : Mgr) : plain p → let '((st, _), e, m') := stat u p m in
  quiet (K := PosixSink.Sink) m m' ∧ (orderly m → st = StOk → ∃ x, e = Some x ∧
    if isDir x then fileAt m u p = None ∧ p ∈ dirsOf m u else is_Some (fileAt m u p)).
Proof.
  intros Hp. unfold stat. apply atPath_spec; [done| |].
  { intros st m' Hst E. split; [by apply still_quiet|]. intros _ Es. by destruct Hst. }
  intros M m' HM _ E. destruct (bytes_eqb p [47]) eqn:Er; [by split; [by apply still_quiet|]|]. apply not_top in Er.
  destruct (deep_join u M p HM Hp Er) as [-> Hr]. pose proof (stat_law (M ++ p) (fs m')) as Hs.
  destruct (px_stat (M ++ p) (fs m')) as [e|[d z]] eqn:Es; (split; [by apply still_quiet|]); [by destruct e|].
  intros Ho _. eexists. split; [done|]. rewrite (fileAt_in _ _ M), <- E by done. destruct d.
  - split; [done|]. apply dirsOf_in. exists M. rewrite <- E. split_and!; [done|done|]. by eapply dirs_law.
  - destruct Hs as (c & -> & _). by exists c.
Qed.

Lemma lift_shrinks u M p (m m' : Mgr) : mountPointOf u = Some M → rooted p = true → shrinks (under (M ++ p)) (fs m) (fs m') →
  same (K := PosixSink.Sink) u (under p) m m' ∧ (orderly m → dirsOf m' u ⊆ dirsOf m u).
Proof.
  intros HM Hr Hs. split.
  - apply (lift_step u M _ (under (M ++ p))); [done| |].
    + intros Ho. destruct (Hs Ho) as (? & D & ?). split_and!; [done|intros x Hx; left; by apply D|done].
    + intros q (rest & -> & Hd). exists (p ++ rest). split_and!; [by rewrite app_assoc|by apply rooted_app|by exists rest].
  - intros Ho q. rewrite !dirsOf_in. intros (N & ? & ? & Hin). exists N. destruct (Hs Ho) as (_ & D & _). auto.
Qed.

Lemma manager_remove u p b (m : Mgr) : plain p → same (K := PosixSink.Sink) u (under p) m (remove u p b m).2 ∧
  (orderly m → dirsOf (remove u p b m).2 u ⊆ dirsOf m u).
Proof.
  intros Hp. unfold remove. apply (atPath_spec _ _ _ _ _ (λ x, same _ _ m x.2 ∧ (orderly m → dirsOf x.2 u ⊆ dirsOf m u))); [done| |].
  { intros st m' _ E. cbn [snd]. split; [by apply still_same|]. intros _ q. by rewrite !dirsOf_in, E. }
  intros M m' HM _ E. destruct (bytes_eqb p [47]) eqn:Er.
  { cbn [snd]. split; [by apply still_same|]. intros _ q. by rewrite !dirsOf_in, E. }
  apply not_top in Er. destruct (deep_join u M p HM Hp Er) as [-> Hr]. apply (lift_shrinks u M); [done|done|]. rewrite <- E.
  destruct (px_stat (M ++ p) (fs m')) as [e|[[] z]]; [apply shrinks_refl| |].
  - destruct b; cbn [negb].
    + pose proof (removeTree_shrinks kLevels (M ++ p) EOther (fs m')) as Hs. by destruct (removeTree _ _ _ _) as [[[] errno] v].
    + destruct (isDirEmpty _ _); cbn [negb]; [|apply shrinks_refl]. pose proof (rmdir_shrinks (under (M ++ p)) (M ++ p) (fs m')) as Hs.
      by destruct (px_rmdir _ _).
  - pose proof (unlink_shrinks (M ++ p) (fs m')) as Hs. by destruct (px_unlink _ _).
Qed.

Lemma manager_mkdir u p (m : Mgr) : plain p → same (K := PosixSink.Sink) u (λ _, False) m (mkdir u p m).2.
Proof.
  intros Hp. unfold mkdir. apply (atPath_spec _ _ _ _ _ (λ x, same _ _ m x.2)); [done|intros; by apply still_same|].
  intros M m' HM _ E. destruct (bytes_eqb p [47]) eqn:Er; [by apply still_same|]. apply not_top in Er.
  destruct (deep_join u M p HM Hp Er) as [-> Hr]. pose proof (mkdir_law (M ++ p) (fs m')) as F. pose proof (tidy_mkdir (M ++ p) (fs m')) as T.
  destruct (px_mkdir _ _) as [e v]. cbn [fst snd] in *. rewrite E in F, T. intros Ho. cbn in Ho. destruct (T Ho) as [Ht D].
  split_and!; [done| |].
  - intros w q _. cbn. by destruct (mountPointOf w); cbn; [destruct (rooted q)|].
  - intros w Hw q. rewrite !dirsOf_in. intros (N & HN & Hq & Hin). exists N. split_and!; [done|done|].
    destruct (D _ Hin) as [|Eq]; [done|]. by destruct (apart_paths w u N M q p HN HM Hq Hr Eq) as [-> _].
Qed.

Lemma manager_rename u a b (m : Mgr) : plain a → plain b → let '((st, _), m') := rename u a b m in
  orderly m → orderly m' ∧ (st ≠ StOk → ∀ w q, fileAt m' w q = fileAt m w q) ∧
  (st = StOk → (∀ q, under b q → fileAt m u q = None) ∧ (∀ w q, w ≠ u ∨ ¬ under a q ∧ ¬ under b q → fileAt m' w q = fileAt m w q) ∧
     ∀ rest c, descends rest → fileAt m u (a ++ rest) = Some c → fileAt m' u (b ++ rest) = Some c).
Proof.
  intros Ha Hb. assert (Hsame : ∀ st (m' : Mgr), st ≠ StOk → (orderly m → orderly m' ∧ ∀ q, file (fs m') q = file (fs m) q) →
    orderly m → orderly m' ∧ (st ≠ StOk → ∀ w q, fileAt m' w q = fileAt m w q) ∧ (st = StOk →
     (∀ q, under b q → fileAt m u q = None) ∧ (∀ w q, w ≠ u ∨ ¬ under a q ∧ ¬ under b q → fileAt m' w q = fileAt m w q) ∧
     ∀ rest c, descends rest → fileAt m u (a ++ rest) = Some c → fileAt m' u (b ++ rest) = Some c)).
  { intros st m' Hst F Ho. destruct (F Ho) as [? F']. split_and!; [done| |done]. intros _ w q. cbn. destruct (mountPointOf w); [|done]. cbn. by destruct (rooted q). }
  assert (Hstill : ∀ m' : Mgr, fs m' = fs m → orderly m → orderly m' ∧ ∀ q, file (fs m') q = file (fs m) q).
  { intros m' E. cbn. by rewrite E. }
  unfold rename. apply atPath_spec; [done|intros; by apply Hsame; auto|]. intros M m' HM _ E. rewrite HM. cbn [mbind option_bind].
  unfold absolute. destruct (PathUtil.normalize b) as [rel|] eqn:Hn; cbn [mbind option_bind]; [|by apply Hsame; auto].
  apply plain_normalize in Hn; [subst rel|done]. destruct (bytes_eqb a [47]) eqn:Ea; cbn [orb]; [by apply Hsame; auto|].
  destruct (bytes_eqb b [47]) eqn:Eb; cbn [orb]; [by apply Hsame; auto|]. destruct (is_prefix (a ++ [47]) b); [by apply Hsame; auto|].
  apply not_top in Ea, Eb. destruct (deep_join u M a HM Ha Ea) as [-> Hra], (deep_join u M b HM Hb Eb) as [-> Hrb].
  destruct (px_stat (M ++ b) (fs m')) as [es|?]; [|by apply Hsame; auto].
  pose proof (rename_tree (M ++ a) (M ++ b) (fs m')) as R. pose proof (tidy_rename (M ++ a) (M ++ b) (fs m')) as T. rewrite E in R, T |- *.
  destruct (px_rename (M ++ a) (M ++ b) (fs m)) as [[e|] v]; cbn [fst snd] in *.
  - unfold errorAnswer. apply Hsame; [by destruct e|]. intros Ho. cbn in *. split; [by apply T|]. by apply R.
  - intros Ho. cbn in Ho. destruct (R Ho) as [_ R']. destruct (R' eq_refl) as (Hfree & Hoth & Hmov). split_and!; [by apply T|done|]. intros _. split_and!.
    + intros q (rest & -> & Hd). rewrite (fileAt_in _ _ M) by (done || by apply rooted_app). apply Hfree. exists rest. by rewrite app_assoc.
    + intros w q Hw. cbn. destruct (mountPointOf w) as [N|] eqn:HN; [|done]. cbn. destruct (rooted q) eqn:Hq; [|done].
      assert (Hout : ∀ x, rooted x = true → under (M ++ x) (N ++ q) → w = u ∧ under x q).
      { intros x Hx (rest & Er & Hd). rewrite <- app_assoc in Er.
        destruct (apart_paths w u N M q (x ++ rest) HN HM Hq (rooted_app _ _ Hx) Er) as [-> ->]. split; [done|by exists rest]. }
      assert (Na : ¬ under (M ++ a) (N ++ q)) by (intros Hu; destruct (Hout a Hra Hu) as [-> ?]; by destruct Hw as [|[]]).
      assert (Nb : ¬ under (M ++ b) (N ++ q)) by (intros Hu; destruct (Hout b Hrb Hu) as [-> ?]; by destruct Hw as [|[]]).
      by rewrite Hoth, decide_False by done.
    + intros rest c Hd Hc. apply fileAt_Some in Hc as (M' & HM' & Hr & Hc). rewrite HM in HM'. injection HM' as <-.
      rewrite (fileAt_in _ _ M) by (done || by apply rooted_app). rewrite app_assoc in *. cbn. by rewrite Hmov.
Qed.

Lemma manager_openRead u p (m : Mgr) : plain p → let '((st, _), len, m') := openRead u p m in
  quiet (K := PosixSink.Sink) m m' ∧ (orderly m → st = StOk → ∃ c, fileAt m u p = Some c ∧ Z.of_nat (length c) <= len).
Proof.
  intros Hp. unfold openRead. apply atPath_spec; [done| |].
  { intros st m' Hst E. split; [by apply still_quiet|]. intros _ Es. by destruct Hst. }
  intros M m' HM _ E. destruct (bytes_eqb p [47]) eqn:Er; [by split; [by apply still_quiet|]|]. apply not_top in Er.
  destruct (deep_join u M p HM Hp Er) as [-> Hr]. pose proof (stat_law (M ++ p) (fs m')) as Hs.
  destruct (px_stat (M ++ p) (fs m')) as [e|[[] z]]; [by split; [by apply still_quiet|destruct e]|by split; [by apply still_quiet|]|].
  destruct (px_open_rb (M ++ p) (fs m')); (split; [by apply still_quiet|]); [done|]. intros _ _. destruct Hs as (c & Hc & ->). exists c.
  by rewrite (fileAt_in _ _ M), <- E.
Qed.

Lemma manager_read u p off n (m : Mgr) c : plain p → fileAt m u p = Some c → (0 < n)%nat → let '(got, err, m') := read u p off n m in
  ∃ k, got = take k (drop off c) ∧ (got = [] → err = false → (length c <= off)%nat).
Proof.
  intros Hp Hc Hn. apply fileAt_Some in Hc as (M & HM & Hr & Hc). unfold read. rewrite HM. rewrite (join_mount u) by done.
  destruct (decide (p = [47])) as [->|_]; [done|]. destruct (read_law (M ++ p) off n _ c Hc) as (k & Hk & Hg & He).
  destruct (px_read (M ++ p) off n (fs m)) as [got err]. cbn [fst snd] in *. subst got. exists k. split; [done|].
  intros Hnil Herr. rewrite (He Herr) in Hnil. apply (f_equal length) in Hnil. rewrite length_take, length_drop in Hnil. cbn in Hnil. lia.
Qed.

Lemma partOf_app M p : partOf (M ++ p) = M ++ partOf p.
Proof. unfold partOf, AtomicFile.partPath. by rewrite app_assoc. Qed.

Lemma partOf_rooted p : rooted p = true → rooted (partOf p) = true.
Proof. apply rooted_app. Qed.

(** A step of a file's part file. *)
Lemma lift_part u M p (m m' : Mgr) : mountPointOf u = Some M → rooted p = true → step (λ q, q = partOf (M ++ p)) (fs m) (fs m') →
  same (K := PosixSink.Sink) u (λ q, q = partOf p) m m'.
Proof.
  intros HM Hr Hs. eapply lift_step; [done|done|]. intros q ->. exists (partOf p). split_and!; [apply partOf_app|by apply partOf_rooted|done].
Qed.

Lemma manager_createWriter u p (m : Mgr) : plain p → let '((st, _), k, m') := createWriter u p m in
  same (K := PosixSink.Sink) u (λ q, q = partOf p) m m' ∧
  (orderly m → st = StOk → ∃ x, k = Some x ∧ sinkOf x u p ∧ fileAt m' u (partOf p) = Some []).
Proof.
  intros Hp. unfold createWriter. apply atPath_spec; [done| |].
  { intros st m' Hst E. split; [by apply still_same|]. intros _ Es. by destruct Hst. }
  intros M m' HM _ E. destruct (bytes_eqb p [47]) eqn:Er; [by split; [by apply still_same|]|]. apply not_top in Er.
  destruct (deep_join u M p HM Hp Er) as [-> Hr]. rewrite E. set (made := PosixSink.create (M ++ p) (fs m)).
  assert (Hcut : let '((st, _), k, m') := match made with
      | (Some e, sink, v) => ((ioError e, None), onFs (λ _, PosixSink.destroy sink v) m')
      | (None, sink, v) => (((StOk, None), Some sink), onFs (λ _, v) m')
      end in same (K := PosixSink.Sink) u (λ q, q = partOf p) m m' ∧
    (orderly m → st = StOk → ∃ x, k = Some x ∧ sinkOf x u p ∧ fileAt m' u (partOf p) = Some [])).
  { pose proof (open_wb_step (M ++ p ++ lit ".part") (fs m)) as S1. pose proof (open_wb_empties (partOf (M ++ p)) (fs m)) as F1.
    unfold made, PosixSink.create. unfold partOf, AtomicFile.partPath in F1 |- *. rewrite <- app_assoc in F1 |- *.
    destruct (px_open_wb (M ++ p ++ lit ".part") (fs m)) as [[e|] v]; cbn [fst snd] in *.
    - split; [|done]. apply (lift_part u M p); [done|done|]. unfold partOf, AtomicFile.partPath. rewrite <- app_assoc. eapply step_trans; [exact S1|].
      cbn [fs onFs]. eapply step_mono; [apply destroy_step|]. intros q ->. unfold PosixSink.partPath, partOf, AtomicFile.partPath. cbn [PosixSink.finalPath]. by rewrite <- app_assoc.
    - split; [apply (lift_part u M p); [done|done|]; unfold partOf, AtomicFile.partPath; by rewrite <- app_assoc|].
      intros _ _. eexists. split; [done|]. split; [split_and!; [done..|by exists M]|]. rewrite (fileAt_in _ _ M) by (done || by apply rooted_app).
      cbn. by apply F1. }
  by destruct (px_stat (M ++ p) (fs m)) as [e|[[] z]]; [|split; [by apply still_same|]|].
Qed.

#[export] Instance manager_laws : FileOpsLaws Mgr PosixSink.Sink.
Proof.
  assert (Hsink : ∀ k u p, sinkOf k u p → ∃ M, mountPointOf u = Some M ∧ rooted p = true ∧ PosixSink.finalPath k = M ++ p ∧
    PosixSink.committed k = false ∧ ∀ k', PosixSink.finalPath k' = PosixSink.finalPath k → PosixSink.committed k' = false → sinkOf k' u p).
  { intros k u p (Hp & Hr & Hc & M & HM & Ef). exists M. split_and!; [done|by apply plain_rooted|done..|]. intros k' E' Hc'.
    split_and!; [done..|]. exists M. split; [done|]. congruence. }
  split.
  - intros u p t m c Ho Hc. apply fileAt_Some in Hc as (M & HM & Hr & Hc). rewrite (fileAt_in _ _ M) by (done || by apply rooted_app).
    rewrite app_assoc. by eapply tree_law.
  - intros. by apply manager_scan.
  - intros. by apply manager_stat.
  - intros. by apply manager_mkdir.
  - intros. by apply manager_remove.
  - intros. by apply manager_rename.
  - intros. by apply manager_openRead.
  - intros u p off n m c Hp _ Hc Hn. by apply manager_read.
  - intros u p off n m. apply still_quiet. cbn. unfold read. by destruct (VolumeManager.mountPointOf u).
  - intros. by apply manager_createWriter.
  - intros u p k d data m (M & HM & Hr & Ef & Hc & Hk)%Hsink. cbn [op_write manager_ops]. unfold sinkWrite.
    pose proof (write_sink k data (fs m)) as Hw. destruct (PosixSink.write data k (fs m)) as [[ok k'] v]. destruct Hw as (E1 & E2 & S1 & F1).
    unfold PosixSink.partPath in S1, F1. rewrite Ef in S1, F1. split_and!; [by apply (lift_part u M p)|apply Hk; congruence|].
    intros _ Hok. rewrite !(fileAt_in _ _ M), <- partOf_app by (done || by apply partOf_rooted). by apply F1.
  - intros u p k d m (M & HM & Hr & Ef & Hc & Hk)%Hsink Hd. cbn [op_commit manager_ops]. unfold sinkCommit.
    rewrite (fileAt_in _ _ M), <- partOf_app in Hd by (done || by apply partOf_rooted). pose proof (commit_sink k d (fs m)) as Hw.
    unfold PosixSink.partPath in Hw. rewrite Ef in Hw. specialize (Hw Hd Hc). destruct (PosixSink.commit k (fs m)) as [[ok k'] v].
    destruct Hw as (E1 & E2 & S1 & F1). split_and!.
    + apply (lift_step u M _ _ m (onFs (λ _, v) m) HM S1). intros q [->| ->]; [exists p|exists (partOf p)]; (split_and!; [|by apply partOf_rooted || done|]); auto using partOf_app.
    + intros ->. apply Hk; congruence.
    + intros w. cbn [op_destroy manager_ops]. unfold sinkDestroy. destruct ok.
      * apply still_same. cbn. unfold PosixSink.destroy. by rewrite E2.
      * apply (lift_part u M p); [done|done|]. pose proof (destroy_step k' (fs w)) as Sd. unfold PosixSink.partPath in Sd. by rewrite E1 in Sd.
    + intros Ho Hok. rewrite (fileAt_in _ _ M) by done. by apply F1.
  - intros u p k m (M & HM & Hr & Ef & Hc & Hk)%Hsink. cbn [op_abort manager_ops]. unfold sinkAbort.
    pose proof (abort_step k (fs m)) as Ha. destruct (PosixSink.abort k (fs m)) as [k' v]. cbn [fst snd] in Ha. destruct Ha as (E1 & E2 & S1).
    unfold PosixSink.partPath in S1. rewrite Ef in S1. split; [by apply (lift_part u M p)|apply Hk; congruence].
  - intros u p k m (M & HM & Hr & Ef & Hc & Hk)%Hsink. cbn [op_destroy manager_ops]. apply (lift_part u M p); [done|done|].
    pose proof (destroy_step k (fs m)) as Sd. unfold PosixSink.partPath in Sd. by rewrite Ef in Sd.
  - intros u m. apply still_quiet. cbn. unfold freeBytes. pose proof (find_still u m) as E. unfold find_ in *. cbn [snd] in E.
    destruct (mountPointOf u); [|done]. by destruct (isMounted u _).
Qed.

End Laws.
End ManagerLaws.

(** ** The volume in memory *)

Module MemoryTree.
Import PosixFileOperations(Volume, MemoryVolume, MemoryVolume_laws, fileIn, fileIn_insert, fileIn_delete, parentIn, childOf, isDot).
Import TransferSafety(idle_nonempty, under_refl).
#[local] Existing Instances MemoryVolume MemoryVolume_laws.

Definition named (n : bytes) : Prop := 47 ∉ n ∧ PathUtil.idle n = false ∧ isDot n = false.

Lemma parentIn_spec p v : parentIn p v = true ↔ ∃ d n, p = d ++ 47 :: n ∧ named n ∧ (d = [] ∨ v !! d = Some None).
Proof.
  assert (Hsplit : ∀ d n, 47 ∉ n → parentIn (d ++ 47 :: n) v = negb (PathUtil.idle n || isDot n) && ((length d =? 0)%nat || bool_decide (v !! d = Some None))).
  { intros d n Hn. unfold parentIn. rewrite PathUtil.lastSlash_app by done. rewrite take_app_length, Nat.add_1_r. by rewrite drop_S_app. }
  split.
  - intros H. destruct (decide (47 ∈ p)) as [Hin|Hin].
    + apply list_elem_of_split_r in Hin as (d & n & -> & Hn). rewrite Hsplit in H by done. exists d, n. split; [done|].
      apply andb_true_iff in H as [[Hi Hd]%negb_true_iff%orb_false_iff Hp]. split; [done|]. apply orb_true_iff in Hp as [Hp%Nat.eqb_eq|Hp%bool_decide_eq_true]; [left|by right].
      by destruct d.
    + unfold parentIn, PathUtil.lastSlash in H. assert (E : find_char 47 (reverse p) = None) by (apply find_char_None; by rewrite elem_of_reverse).
      by rewrite E in H.
  - intros (d & n & -> & (Hn & Hi & Hd) & Hp). rewrite Hsplit by done. rewrite Hi, Hd. cbn. destruct Hp as [->|Hp]; [done|].
    by rewrite bool_decide_eq_true_2, orb_true_r.
Qed.

(** Every name is one and stands in a directory. *)
Definition tidyVolume (v : Volume) : Prop := ∀ p x, v !! p = Some x → parentIn p v = true.

Lemma tidy_check v : forallb (λ kc : bytes * option bytes, parentIn kc.1 v) (map_to_list v) = true → tidyVolume v.
Proof. rewrite forallb_forall. intros H p x Hp. apply (H (p, x)), list_elem_of_In, elem_of_map_to_list, Hp. Qed.

Definition dirsIn (v : Volume) : list bytes := omap (λ kc : bytes * option bytes, match kc.2 with None => Some kc.1 | Some _ => None end) (map_to_list v).

Lemma dirsIn_in p v : p ∈ dirsIn v ↔ v !! p = Some None.
Proof.
  unfold dirsIn. rewrite list_elem_of_omap. split.
  - intros ([q x] & Hin%elem_of_map_to_list & E). cbn in *. destruct x; [done|]. by injection E as ->.
  - intros H. exists (p, None). split; [by apply elem_of_map_to_list|done].
Qed.

(** What has something below it is a directory. *)
Lemma above v p t x : tidyVolume v → p ≠ [] → v !! (p ++ 47 :: t) = Some x → v !! p = Some None.
Proof.
  intros Ht Hp. remember (length t) as k eqn:Ek. assert (Hk : (length t <= k)%nat) by lia. clear Ek. revert t x Hk.
  induction k as [|k IH]; intros t x Hk Hx; apply Ht, parentIn_spec in Hx as (d & n & E & [Hn _] & Hd).
  - destruct t; [|cbn in Hk; lia]. assert (d = p) as ->; [|by destruct Hd].
    destruct n as [|y n]; [by apply app_inj_tail in E as [-> _]|]. exfalso.
    assert (47 ∈ y :: n) as H47; [|done]. destruct (exists_last (l := y :: n)) as (n' & z & En); [done|]. rewrite En in E |- *.
    rewrite app_comm_cons, app_assoc in E. apply app_inj_tail in E as [_ <-]. apply elem_of_app. right. by left.
  - destruct (decide (47 ∈ t)) as [Hin|Hin].
    + apply list_elem_of_split_r in Hin as (t' & n' & -> & Hn'). rewrite app_comm_cons, app_assoc in E. assert (d = p ++ 47 :: t') as ->.
      { apply (f_equal PathUtil.lastSlash) in E as El. rewrite !PathUtil.lastSlash_app in El by done. injection El as El.
        apply (f_equal (take (length d))) in E. by rewrite take_app_length, <- El, take_app_length in E. }
      destruct Hd as [Hd|Hd]; [by destruct p|]. apply (IH t' None); [|done]. rewrite length_app in Hk. cbn in Hk. lia.
    + assert (d = p) as ->; [|by destruct Hd]. apply (f_equal PathUtil.lastSlash) in E as El. rewrite !PathUtil.lastSlash_app in El by done.
      injection El as El. apply (f_equal (take (length d))) in E. by rewrite take_app_length, <- El, take_app_length in E.
Qed.

Lemma tidy_nonempty v x : tidyVolume v → v !! ([] : bytes) = Some x → False.
Proof. intros Ht Hx. apply Ht, parentIn_spec in Hx as ([] & n & E & _); done. Qed.

(** A change at one name that keeps the directories others stand in. *)
Lemma tidy_alter (v w : Volume) : tidyVolume v → (∀ q x, w !! q = Some x → parentIn q v = true ∨ parentIn q w = true) →
  (∀ d q n x, v !! d = Some None → w !! d ≠ Some None → w !! q = Some x → q ≠ d ++ 47 :: n) → tidyVolume w.
Proof.
  intros Ht Hw Hd q x Hq. destruct (Hw q x Hq) as [H|]; [|done]. apply parentIn_spec in H as (d & n & -> & Hn & Hp). apply parentIn_spec.
  exists d, n. split_and!; [done..|]. destruct Hp as [|Hp]; [by left|right]. destruct (decide (w !! d = Some None)) as [|Hno]; [done|].
  by destruct (Hd d (d ++ 47 :: n) n x Hp Hno Hq).
Qed.

Lemma tidy_insert v p x : tidyVolume v → parentIn p v = true → v !! p ≠ Some None → tidyVolume (<[p := x]> v).
Proof.
  intros Ht Hp Hno. apply (tidy_alter v); [done| |].
  - intros q y. destruct (decide (q = p)) as [->|Hne]; [by left|]. rewrite lookup_insert_ne by done. intros Hq. left. by eapply Ht.
  - intros d q n y Hd Hd' _ _. destruct (decide (d = p)) as [->|Hne]; [done|]. by rewrite lookup_insert_ne in Hd' by done.
Qed.

Lemma tidy_delete v p : tidyVolume v → (∀ n x, v !! (p ++ 47 :: n) = Some x → v !! p ≠ Some None) → tidyVolume (delete p v).
Proof.
  intros Ht Hp. apply (tidy_alter v); [done| |].
  - intros q y [_ Hq]%lookup_delete_Some. left. by eapply Ht.
  - intros d q n y Hd Hd' [_ Hq]%lookup_delete_Some ->. destruct (decide (p = d)) as [<-|Hne]; [|by rewrite lookup_delete_ne in Hd' by done].
    by apply (Hp n y Hq).
Qed.

Abbreviation childNames d v := (omap (λ kc : bytes * option bytes, childOf d kc.1) (map_to_list v)).

Lemma childOf_spec d q n : childOf d q = Some n ↔ q = d ++ 47 :: n ∧ 47 ∉ n.
Proof.
  assert (Hin : ∀ t, existsb (Z.eqb 47) t = false ↔ 47 ∉ t).
  { intros t. rewrite <- not_true_iff_false, existsb_exists. split.
    - intros H Ht. apply H. exists 47. split; [by apply list_elem_of_In|done].
    - intros H (x & Hx%list_elem_of_In & <-%Z.eqb_eq). done. }
  unfold childOf. change (lit "/") with ([47] : bytes). split.
  - destruct (is_prefix (d ++ [47]) q) eqn:E; [|done]. apply is_prefix_spec in E as [t ->].
    rewrite <- app_assoc. cbn [app andb]. rewrite Nat.add_1_r, drop_S_app.
    destruct (existsb (Z.eqb 47) t) eqn:Ex; [done|]. intros [= <-]. split; [done|]. by apply Hin.
  - intros [-> Hn%Hin]. rewrite (proj2 (is_prefix_spec _ _)) by (exists n; by rewrite <- app_assoc).
    rewrite Nat.add_1_r, drop_S_app. by rewrite Hn.
Qed.

Lemma childNames_in d v n : n ∈ childNames d v ↔ 47 ∉ n ∧ is_Some (v !! (d ++ 47 :: n)).
Proof.
  rewrite list_elem_of_omap. split.
  - intros ([q x] & Hin%elem_of_map_to_list & [E Hn]%childOf_spec). cbn in E. subst q. split; [done|by exists x].
  - intros [Hn [x Hx]]. exists (d ++ 47 :: n, x). split; [by apply elem_of_map_to_list|by apply childOf_spec].
Qed.

Lemma childNames_distinct d v : NoDup (childNames d v).
Proof.
  pose proof (NoDup_fst_map_to_list v) as H. induction (map_to_list v) as [|[q x] l IH]; [constructor|]. cbn in H |- *.
  apply NoDup_cons in H as [Hq H]. destruct (childOf d q) as [n|] eqn:E; [|by apply IH]. constructor; [|by apply IH].
  intros ([q' y] & Hin & E')%list_elem_of_omap. cbn in E'. apply childOf_spec in E as [-> _], E' as [-> _].
  apply Hq, list_elem_of_fmap. by exists (d ++ 47 :: n, y).
Qed.

(** The first name of a way down. *)
Lemma first_name t : ∃ n rest, t = n ++ rest ∧ 47 ∉ n ∧ descends rest.
Proof.
  induction t as [|x t (n & rest & -> & Hn & Hd)]; [exists [], []; split_and!; [done|apply not_elem_of_nil|by left]|].
  destruct (decide (x = 47)) as [->|Hx]; [exists [], (47 :: n ++ rest)|exists (x :: n), rest].
  - split_and!; [done|apply not_elem_of_nil|right; by eexists].
  - split_and!; [done| |done]. by apply not_elem_of_cons.
Qed.

(** The child through which something is reached. *)
Lemma child_there d v n rest x : tidyVolume v → 47 ∉ n → descends rest → v !! (d ++ 47 :: n ++ rest) = Some x → n ∈ childNames d v.
Proof.
  intros Ht Hn Hd Hx. apply childNames_in. split; [done|]. destruct Hd as [->|[t ->]]; [rewrite app_nil_r in Hx; by exists x|].
  exists None. rewrite app_comm_cons, app_assoc in Hx. eapply above; [done| |exact Hx]. by destruct d.
Qed.

Lemma named_there d v n : tidyVolume v → n ∈ childNames d v → named n.
Proof.
  intros Ht [Hn [x Hx]]%childNames_in. apply Ht, parentIn_spec in Hx as (d' & n' & E & Hnm & _).
  apply (f_equal PathUtil.lastSlash) in E as El. rewrite !PathUtil.lastSlash_app in El by (done || apply Hnm). injection El as El.
  apply (f_equal (drop (S (length d)))) in E. rewrite drop_S_app, El, drop_S_app in E. by subst n'.
Qed.

Lemma fileIn_Some v p c : fileIn v p = Some c ↔ v !! p = Some (Some c).
Proof. unfold fileIn. split; [|by intros ->]. by destruct (v !! p) as [[]|]; cbn; intros [= ->]. Qed.

Lemma dirs_insert_file v p c : dirsIn (<[p := Some c]> v) ⊆ dirsIn v.
Proof. intros q. rewrite !dirsIn_in. destruct (decide (q = p)) as [->|Hq]; [by rewrite lookup_insert_eq|by rewrite lookup_insert_ne]. Qed.
Lemma dirs_delete v p : dirsIn (delete p v) ⊆ dirsIn v.
Proof. intros q. rewrite !dirsIn_in. by intros [_ H]%lookup_delete_Some. Qed.

Lemma file_leaf v p t c : tidyVolume v → fileIn v p = Some c → v !! (p ++ 47 :: t) = None.
Proof.
  intros Ht Hp%fileIn_Some. destruct (v !! (p ++ 47 :: t)) as [x|] eqn:E; [|done]. destruct (decide (p = [])) as [->|Hne].
  - by destruct (tidy_nonempty v _ Ht Hp).
  - apply (above v p t x Ht Hne) in E. congruence.
Qed.

Lemma tidy_setFile v p c : tidyVolume v → (v !! p = None → parentIn p v = true) → v !! p ≠ Some None →
  tidyVolume (<[p := Some c]> v) ∧ dirsIn (<[p := Some c]> v) ⊆ dirsIn v.
Proof.
  intros Ht Hp Hno. split; [|apply dirs_insert_file]. apply tidy_insert; [done| |done]. destruct (v !! p) as [x|] eqn:E; [by eapply Ht|by apply Hp].
Qed.

(** Only a file is renamed, onto a free name. *)
Lemma renamed a b v : tidyVolume v → match px_rename a b v with
  | (Some _, w) => w = v
  | (None, w) => ∃ c, v !! a = Some (Some c) ∧ v !! b = None ∧ parentIn b v = true ∧ a ≠ b ∧ b ≠ [] ∧ w = <[b := Some c]> (delete a v)
  end.
Proof.
  intros Ht. cbn. destruct (v !! a) as [[c|]|] eqn:Ea; [|by destruct (v !! b)|by destruct (v !! b)]. destruct (v !! b) eqn:Eb; [done|].
  destruct (parentIn b v) eqn:Ep; [|done]. exists c. split_and!; [done..|congruence| |done].
  apply parentIn_spec in Ep as (d & n & -> & _). by destruct d.
Qed.

Lemma delete_file v p c : tidyVolume v → v !! p = Some (Some c) → tidyVolume (delete p v).
Proof. intros Ht E. apply tidy_delete; [done|]. intros n x _. by rewrite E. Qed.

#[export] Instance MemoryVolume_tree : PosixTree Volume.
Proof.
  refine {| tidy := tidyVolume; allDirs := dirsIn |}.
  - intros p t v c Ht Hc. cbn in *. unfold fileIn at 1. by rewrite (file_leaf v p t c Ht Hc).
  - intros p z v E. apply dirsIn_in. cbn in E. by destruct (v !! p) as [[]|].
  - intros d v names cut Ht E. cbn in E. destruct (v !! d) as [[]|]; [done| |done]. injection E as <- <-. split; [done|]. split_and!.
    + apply childNames_distinct.
    + intros n Hn. pose proof (named_there d v n Ht Hn) as (? & Hi & _). split; [done|]. by apply idle_nonempty.
    + intros n rest c Hn _ Hd Hc%fileIn_Some. by eapply child_there.
  - intros d n rest v Ht Hn Hd. cbn. destruct (fileIn v _) as [c|] eqn:E; [|done]. apply fileIn_Some in E.
    destruct (decide (47 ∈ n)) as [Hs|Hs].
    { unfold PathUtil.idle, VolumeManager.isDots in Hn. exfalso. revert Hn Hs. case_bool_decide; [subst; by intros _ ?%elem_of_nil|]. cbn [orb].
      intros Hn. repeat (apply orb_true_iff in Hn as [Hn|Hn]); apply bytes_eqb_eq in Hn as ->; apply (bool_decide_unpack (47 ∉ _)); vm_compute; exact I. }
    pose proof (named_there d v n Ht (child_there d v n rest _ Ht Hs Hd E)) as (_ & Hi & Hdot). rewrite Hi in Hn. cbn [orb] in Hn.
    unfold isDot in Hdot. unfold VolumeManager.isDots in Hn. congruence.
  - intros p v q. cbn. destruct (v !! p) as [[]|] eqn:E; [done| |done]. case_bool_decide; cbn; [|done]. rewrite fileIn_delete.
    case_bool_decide; [subst|done]. unfold fileIn. by rewrite E.
  - intros a b v Ht. pose proof (renamed a b v Ht) as R. destruct (px_rename a b v) as [[e|] w]; cbn [fst snd].
    + subst w. by split.
    + destruct R as (c & Ea & Eb & Ep & Hne & Hb & ->). split; [done|]. intros _.
      assert (Hfree : ∀ t, v !! (b ++ 47 :: t) = None).
      { intros t. destruct (v !! (b ++ 47 :: t)) as [x|] eqn:E; [|done]. apply (above v b t x Ht Hb) in E. congruence. }
      assert (Hleaf : ∀ t, v !! (a ++ 47 :: t) = None) by (intros t; by apply (file_leaf v a t c), fileIn_Some).
      cbn. split_and!.
      * intros q (rest & -> & [->|[t ->]]); unfold fileIn; [by rewrite app_nil_r, Eb|by rewrite Hfree].
      * intros q Hq. rewrite fileIn_insert, bool_decide_eq_false_2 by (intros ->; apply Hq, under_refl). rewrite fileIn_delete.
        destruct (decide (under a q)) as [(rest & -> & [->|[t ->]])|Hu]; [by rewrite app_nil_r, bool_decide_eq_true_2| |].
        -- case_bool_decide; [done|]. unfold fileIn. by rewrite Hleaf.
        -- rewrite bool_decide_eq_false_2; [done|]. intros <-. apply Hu, under_refl.
      * intros rest [->|[t ->]]; rewrite fileIn_insert.
        -- rewrite !app_nil_r, bool_decide_eq_true_2 by done. symmetry. by apply fileIn_Some.
        -- rewrite bool_decide_eq_false_2 by (intros E; apply (f_equal length) in E; rewrite length_app in E; cbn in E; lia).
           rewrite fileIn_delete. unfold fileIn. rewrite Hfree, Hleaf. by case_bool_decide.
  - intros a b v Ht. pose proof (renamed a b v Ht) as R. destruct (px_rename a b v) as [[e|] w]; cbn [fst snd].
    + subst w. split; [done|by left].
    + destruct R as (c & Ea & Eb & Ep & Hne & Hb & ->). rewrite <- delete_insert_ne by done. split.
      * apply (delete_file _ _ c); [|by rewrite lookup_insert_ne]. apply tidy_insert; [done..|by rewrite Eb].
      * intros x Hx%dirs_delete%dirs_insert_file. by left.
  - intros p v Ht. cbn. destruct (v !! p) as [x|] eqn:E; [by split; [|by left]|]. destruct (parentIn p v) eqn:Ep; cbn; [|by split; [|by left]].
    split; [apply tidy_insert; [done..|by rewrite E]|]. intros q. rewrite !dirsIn_in. destruct (decide (q = p)) as [->|Hq]; [by right|].
    rewrite lookup_insert_ne by done. by left.
  - intros p v Ht. cbn. destruct (v !! p) as [[c|]|] eqn:E; cbn; [|done..]. split; [by eapply delete_file|apply dirs_delete].
  - intros p v Ht. cbn. destruct (v !! p) as [[c|]|] eqn:E; cbn; [done| |done]. case_bool_decide as Hn; cbn; [|done].
    split; [|apply dirs_delete]. apply tidy_delete; [done|]. intros t x Hx _. destruct (first_name t) as (n & rest & -> & Hs & Hd).
    pose proof (child_there p v n rest x Ht Hs Hd Hx) as Hc. rewrite Hn in Hc. by apply not_elem_of_nil in Hc.
  - intros p v Ht. cbn. destruct (v !! p) as [[c|]|] eqn:E; cbn; [|done|destruct (parentIn p v) eqn:Ep; cbn; [|done]];
      apply tidy_setFile; by rewrite ?E.
  - intros p d v Ht. cbn. destruct (fileIn v p) as [c|] eqn:E; cbn; [|done]. apply fileIn_Some in E. apply tidy_setFile; by rewrite ?E.
  - done.
  - done.
Defined.

End MemoryTree.

(** ** Runs *)

Module TransferRuns.
Import PosixFileOperations(Volume, MemoryVolume, MemoryVolume_laws, fileIn, onVolume) MemoryTree VolumeManager ManagerLaws TransferEngine TransferSafety.
#[local] Existing Instances MemoryVolume MemoryVolume_laws.

#[local] Instance quietDevice : Device Volume := {
  dev_now _ := 0; dev_found _ _ := true; dev_strerror _ := lit "error"; dev_mtime _ _ := 0;
  dev_format _ v := (true, v); dev_powerCycle _ _ := true; dev_lastError _ := [];
}.

(** The two volumes the application registers. *)
Definition volumes : Layout := addVolume (lit "sdcard") (lit "/sdcard") (addVolume (lit "fat") (lit "/fat") []).

#[local] Instance volumes_good : GoodLayout volumes.
Proof.
  split; [apply (bool_decide_unpack _); vm_compute; exact I|]. intros id M [E|[E|[]%elem_of_nil]%elem_of_cons]%elem_of_cons; injection E as -> ->;
    eexists; (split; [reflexivity|]); (split; [apply (bool_decide_unpack _); vm_compute; exact I|done]).
Qed.

#[local] Abbreviation Mgr := (Manager volumes Volume).

Definition begin (l : list (bytes * option bytes)) : Runner Mgr :=
  mkRunner (mkManager (onVolume l) [lit "fat"; lit "sdcard"] false 0 0) emptyReport 0 [] 0 [].

Definition orders (op : TransferOp) (conflict : TransferConflict) (src dst : bytes) (paths : list bytes) (dir : bytes) : TransferRequest :=
  mkRequest op conflict src paths dst dir.

Definition sample : list (bytes * option bytes) :=
  [(lit "/fat/a", Some (lit "text")); (lit "/fat/d", None); (lit "/fat/d/e", None); (lit "/fat/d/e/f", Some (lit "deep"));
   (lit "/sdcard/to", None)].

Lemma sample_tidy : tidyVolume (onVolume sample).
Proof. apply tidy_check. vm_compute. reflexivity. Qed.

(** The volume and the report of a run. *)
Definition after (cancel : nat → bool) (req : TransferRequest) (l : list (bytes * option bytes)) : option (Volume * TransferReport) :=
  (λ x : unit * Runner Mgr, (fs (vols x.2), report x.2)) <$> run (K := PosixSink.Sink) cancel req 60 (begin l).
Definition never : nat → bool := λ _, false.

Definition moveBoth : TransferRequest := orders Move Overwrite (lit "fat") (lit "sdcard") [lit "/a"; lit "/d"] (lit "/to").

Example move_runs : (λ x, (fileIn x.1 (lit "/sdcard/to/a"), fileIn x.1 (lit "/sdcard/to/d/e/f"), fileIn x.1 (lit "/fat/a"),
    (filesDone x.2, dirsDone x.2, deleted x.2), error x.2)) <$> after never moveBoth sample =
  Some (Some (lit "text"), Some (lit "deep"), None, (2, 2, 2), []).
Proof. vm_compute. reflexivity. Qed.


Lemma apart_both : apart [lit "/a"; lit "/d"].
Proof.
  intros a b p q [->|[->|[]%elem_of_nil]%elem_of_cons]%elem_of_cons [->|[->|[]%elem_of_nil]%elem_of_cons]%elem_of_cons;
    vm_compute; intros [= <-] [= <-] (rest & E & _); by injection E.
Qed.

Lemma clean_report_means_done_witness :
  ∃ r', run (K := PosixSink.Sink) never moveBoth 9 (begin sample) = Some (tt, r') ∧
    fileAt (vols r') (lit "sdcard") (lit "/to/d/e/f") = Some (lit "deep").
Proof.
  destruct (clean_report_means_done never moveBoth 9 (begin sample)) as (r' & E & Hd).
  - exact sample_tidy.
  - apply (bool_decide_unpack _). vm_compute. exact I.
  - apply (bool_decide_unpack _). vm_compute. exact I.
  - exact apart_both.
  - done.
  - apply Nat.ltb_lt. vm_compute. reflexivity.
  - exists r'. split; [done|].
    assert (Hr : error (report r') = [] ∧ cancelled (report r') = false).
    { assert (Hx : (λ x : unit * Runner Mgr, (error (report x.2), cancelled (report x.2))) <$> run (K := PosixSink.Sink) never moveBoth 9 (begin sample) = Some ([], false))
        by (vm_compute; reflexivity).
      rewrite E in Hx. injection Hx as H1 H2. exact (conj H1 H2). }
    refine (Hd (proj1 Hr) (proj2 Hr) (lit "/d") (lit "/d") (lit "/e/f") (lit "deep") _ _ _ _).
    + right. left.
    + vm_compute. reflexivity.
    + apply (visible_down (lit "e") (lit "/f")); [apply (bool_decide_unpack _); vm_compute; exact I|reflexivity|reflexivity|].
      apply (visible_down (lit "f") []); [apply (bool_decide_unpack _); vm_compute; exact I|reflexivity|reflexivity|constructor].
    + vm_compute. reflexivity.
Defined.

Definition moveInside : TransferRequest := orders Move Overwrite (lit "fat") (lit "fat") [lit "/a"] (lit "/d").

Lemma instant_move_keeps_witness :
  ∃ r', run (K := PosixSink.Sink) never moveInside 1 (begin sample) = Some (tt, r') ∧
    ∃ q', fileAt (vols r') (lit "fat") q' = Some (lit "text").
Proof.
  destruct (instant_move_keeps never moveInside 1 (begin sample)) as (r' & E & _ & _ & Hk).
  - exact sample_tidy.
  - done.
  - done.
  - apply (bool_decide_unpack _). vm_compute. exact I.
  - exists r'. split; [done|]. apply (Hk (lit "/a")); [vm_compute; reflexivity|]. right. intros raw p [->|[]%elem_of_nil]%elem_of_cons. 
    vm_compute. by intros [= <-].
Defined.

(** ** What the engine also does *)

(** The destination may be the moved directory itself: the walk then finds the copies
    and copies them, until names go too deep. *)
Example copy_into_itself_nests :
  (λ x, (length (map_to_list x.1), filesDone x.2, failed x.2)) <$>
    after never (orders Copy Overwrite (lit "fat") (lit "fat") [lit "/d"] (lit "/d")) sample = Some (49%nat, 13, 3).
Proof. vm_compute. reflexivity. Qed.

(** An upload in progress inside a moved directory is not copied, and removed. *)
Example move_drops_part_files :
  (λ x, (fileIn x.1 (lit "/fat/d/x.part"), fileIn x.1 (lit "/sdcard/to/d/x.part"), error x.2)) <$>
    after never moveBoth ((lit "/fat/d/x.part", Some (lit "half")) :: sample) = Some (None, None, []).
Proof. vm_compute. reflexivity. Qed.

(** [Ask] is answered by the page before; a run that still has it replaces. *)
Example ask_replaces :
  (λ x, (fileIn x.1 (lit "/sdcard/to/a"), skipped x.2)) <$>
    after never (orders Copy Ask (lit "fat") (lit "sdcard") [lit "/a"] (lit "/to")) ((lit "/sdcard/to/a", Some (lit "old")) :: sample) =
  Some (Some (lit "text"), 0).
Proof. vm_compute. reflexivity. Qed.

(** A transfer stopped at once has copied nothing and removed nothing. *)
Example stopped_at_once :
  (λ x, (bool_decide (x.1 = onVolume sample), cancelled x.2)) <$> after (λ _, true) moveBoth sample = Some (true, true).
Proof. vm_compute. reflexivity. Qed.

(** A directory whose reading breaks off once: the walk takes what it was told for all there
    is, and the file it was not told of goes with the source, copied nowhere. *)
#[local] Instance BreaksOffOnce : Posix Volume := {
  px_stat := px_stat (Posix := MemoryVolume);
  px_readdir p w :=
    if bytes_eqb p (lit "/fat/d") && negb (bool_decide (is_Some (w !! lit "/sdcard/to/d/b"))) then inr ([lit "b"], true)
    else px_readdir (Posix := MemoryVolume) p w;
  px_mkdir := px_mkdir; px_unlink := px_unlink; px_rmdir := px_rmdir; px_rename := px_rename; px_open_rb := px_open_rb;
  px_open_wb := px_open_wb; px_open_ab := px_open_ab; px_read := px_read (Posix := MemoryVolume);
  px_write := px_write; px_flush := px_flush; px_close := px_close; px_fat_info := px_fat_info; px_capacity := px_capacity;
}.

Example unlisted_file_lost :
  let l := [(lit "/fat/d", None); (lit "/fat/d/b", Some (lit "told")); (lit "/fat/d/c", Some (lit "untold")); (lit "/sdcard/to", None)] in
  (λ x : unit * Runner Mgr, (fileIn (fs (vols x.2)) <$> [lit "/sdcard/to/d/b"; lit "/fat/d/c"; lit "/sdcard/to/d/c"], error (report x.2))) <$>
    run (K := PosixSink.Sink) never (orders Move Overwrite (lit "fat") (lit "sdcard") [lit "/d"] (lit "/to")) 60 (begin l) =
  Some ([Some (lit "told"); None; None], []).
Proof. vm_compute. reflexivity. Qed.

End TransferRuns.
