(* ===== verification/VolumeCheck.v ===== *)
(** * The check and the repair of a volume

    [checkWalk] and [repairRun] of src/files/FileManager.cpp: a check reads every file
    of a volume to its end and names what it could not read; a repair removes what the
    last check named and checks again. Both work below the mount point with the calls
    of the C library ([Posix]); a check asks at every directory whether it shall stop.
    The volume is not changed by others meanwhile. *)
From S2P Require Import Prelude Text PathUtil FileShell PosixFiles TransferEngine TransferSafety FileManager JobRegistry.
From stdpp Require Import gmap sorting.
Import PosixFileOperations(PosixLaws, file, stat_law, read_law).
#[local] Open Scope Z_scope.

Module VolumeCheck.
Import VolumeManager(isDots, removeTree, kLevels).
#[local] Abbreviation root := ([47] : bytes).

Definition kCheckChunkBytes : Z := 16 * 1024.
Definition kCheckMaxFiles : Z := 4096.
Definition kCheckMaxErrors : nat := 64.
Definition kRepairMaxRounds : nat := 20.

Record CheckError := mkError { path : bytes; why : bytes }.

Record CheckReport := mkReport {
  busy : bool;
  finished : bool;
  truncated : bool;
  cancelled : bool;
  volume : bytes;
  current : bytes;
  dirs : Z;
  files : Z;
  badEntries : Z;
  bytes_ : Z;
  budgetBytes : Z;
  errors : list CheckError;
}.

Definition noReport : CheckReport := mkReport false false false false [] [] 0 0 0 0 0 [].

Definition onCounts (d f b n : Z) (es : list CheckError) (r : CheckReport) : CheckReport :=
  mkReport (busy r) (finished r) (truncated r) (cancelled r) (volume r) (current r) d f b n (budgetBytes r) es.

(** [noteError]: counted, and named while there is room. *)
Definition noteError (p w : bytes) (r : CheckReport) : CheckReport :=
  onCounts (dirs r) (files r) (u32 (badEntries r + 1)) (bytes_ r)
    (if (length (errors r) <? kCheckMaxErrors)%nat then errors r ++ [mkError p w] else errors r) r.
Definition addDir (r : CheckReport) : CheckReport := onCounts (u32 (dirs r + 1)) (files r) (badEntries r) (bytes_ r) (errors r) r.
Definition addFile (r : CheckReport) : CheckReport := onCounts (dirs r) (u32 (files r + 1)) (badEntries r) (bytes_ r) (errors r) r.
Definition addBytes (n : Z) (r : CheckReport) : CheckReport := onCounts (dirs r) (files r) (badEntries r) (u64 (bytes_ r + n)) (errors r) r.

(** ** The walk *)

(** [pending]: the back of the vector is the head of the list. [told]: what
    [checkSetProgress] was given, the last first. *)
Record Walk := mkWalk {
  report : CheckReport;
  pending : list bytes;
  budgetLeft : Z;
  processed : Z;
  told : list (bytes * CheckReport);
}.

Definition onReport (f : CheckReport → CheckReport) (w : Walk) : Walk := mkWalk (f (report w)) (pending w) (budgetLeft w) (processed w) (told w).
Definition push (p : bytes) (w : Walk) : Walk := mkWalk (report w) (p :: pending w) (budgetLeft w) (processed w) (told w).
Definition take_ (got : Z) (w : Walk) : Walk :=
  mkWalk (addBytes got (report w)) (pending w) (u64 (budgetLeft w - got)) (processed w) (told w).
Definition oneMore (w : Walk) : Walk := mkWalk (report w) (pending w) (budgetLeft w) (u32 (processed w + 1)) (told w).
Definition checkSetProgress (p : bytes) (w : Walk) : Walk :=
  mkWalk (report w) (pending w) (budgetLeft w) (processed w) ((p, report w) :: told w).

Section Walk.
Context {P : Type} `{Posix P, Device P} (mount : bytes) (v : P).

(** The windows of one file: how far they came, whether the budget ended them, what
    [ferror] says after. [n]: the rounds, of which every one takes a byte. *)
Fixpoint readFile (n : nat) (full : bytes) (size : Z) (read : Z) (failed : bool) (w : Walk) : Z * bool * bool * Walk :=
  match n with
  | O => (read, false, failed, w)
  | S n =>
      if size <=? read then (read, false, failed, w)
      else if budgetLeft w =? 0 then (read, true, failed, w)
      else
        let want := Z.min (Z.min kCheckChunkBytes (size - read)) (budgetLeft w) in
        let '(got, err) := px_read full (Z.to_nat read) (Z.to_nat want) v in
        if (length got =? 0)%nat then (read, false, failed || err, w)
        else readFile n full size (u64 (read + Z.of_nat (length got))) (failed || err) (take_ (Z.of_nat (length got)) w)
  end.

Definition sizeMismatch (size read : Z) : bytes :=
  take 95 (lit "size mismatch (" ++ dec size ++ lit " in the entry, " ++ dec read ++ lit " readable)").

(** A regular file; [true]: the walk of the volume ends here. *)
Definition visitFile (rel full : bytes) (size : Z) (w : Walk) : bool * Walk :=
  if kCheckMaxFiles <=? processed w then (true, w)
  else
    let w := oneMore w in
    match px_open_rb full v with
    | Some e => (false, onReport (noteError rel (dev_strerror e)) w)
    | None =>
        let '(read, budgetHit, ioFail, w) := readFile (Z.to_nat size + 1) full size 0 false w in
        let w := checkSetProgress rel w in
        if budgetHit : bool then (true, w)
        else if ioFail : bool then (false, onReport (noteError rel (dev_strerror EOther)) w)
        else if negb (read =? size) then (false, onReport (noteError rel (sizeMismatch size read)) w)
        else (false, onReport addFile w)
    end.

Definition visitEntry (dir nm : bytes) (w : Walk) : bool * Walk :=
  if isDots nm then (false, w)
  else
    let rel := TransferEngine.joinRel dir nm in
    let full := PathUtil.join mount rel in
    match px_stat full v with
    | inl e => (false, onReport (noteError rel (dev_strerror e)) w)
    | inr (true, _) => (false, push rel w)
    | inr (false, size) => visitFile rel full size w
    end.

Fixpoint visitNames (dir : bytes) (names : list bytes) (w : Walk) : bool * Walk :=
  match names with
  | [] => (false, w)
  | nm :: names =>
      let '(stop, w) := visitEntry dir nm w in
      if stop : bool then (true, w) else visitNames dir names w
  end.

(** The directories in turn: whether the limits ended the walk, whether it was stopped.
    [k]: how often it asked. *)
Fixpoint walkDirs (n : nat) (stop : nat → bool) (k : nat) (w : Walk) : option (bool * bool * Walk) :=
  match pending w with
  | [] => Some (false, false, w)
  | dir :: rest =>
      match n with
      | O => None
      | S n =>
          if stop k then Some (false, true, w)
          else
            let w := onReport addDir (mkWalk (report w) rest (budgetLeft w) (processed w) (told w)) in
            match px_readdir (PathUtil.join mount dir) v with
            | inl e => walkDirs n stop (S k) (onReport (noteError dir (dev_strerror e)) w)
            | inr (names, _) =>
                let '(full, w) := visitNames dir names w in
                if full : bool then Some (true, false, w) else walkDirs n stop (S k) w
            end
      end
  end.

(** What [checkFinish] leaves as the state of the check. *)
Definition checkFinish (r : CheckReport) : CheckReport :=
  mkReport false true (truncated r) (cancelled r) (volume r) [] (dirs r) (files r) (badEntries r) (bytes_ r) (budgetBytes r) (errors r).

(** [mb]: CONFIG_FILES_CHECK_MAX_MB. *)
Definition kCheckBudgetBytes (mb : Z) : Z := u64 (u64 mb * 1024 * 1024).

Definition checkWalk (n : nat) (stop : nat → bool) (mb : Z) (vol : bytes) : option CheckReport :=
  let start := mkReport false false false false vol [] 0 0 0 0 (kCheckBudgetBytes mb) [] in
  '(cut, stopped, w) ← walkDirs n stop 0 (mkWalk start [root] (kCheckBudgetBytes mb) 0 []);
  let r := report w in
  Some (checkFinish (mkReport (busy r) true cut stopped (volume r) (current r) (dirs r) (files r) (badEntries r) (bytes_ r) (budgetBytes r) (errors r))).

End Walk.

(** ** The repair *)

Record RepairReport := mkRepair {
  rBusy : bool; rFinished : bool; rCancelled : bool; rVolume : bytes; rCurrent : bytes;
  rRound : Z; rDeleted : Z; rRemaining : Z; rFailed : Z; refusal : bytes; rError : bytes;
}.

Definition noRepair : RepairReport := mkRepair false false false [] [] 0 0 0 0 [] [].

Definition at_round (k rest : Z) (r : RepairReport) : RepairReport :=
  mkRepair (rBusy r) (rFinished r) (rCancelled r) (rVolume r) (rCurrent r) k (rDeleted r) rest (rFailed r) (refusal r) (rError r).
Definition at_path (p : bytes) (r : RepairReport) : RepairReport :=
  mkRepair (rBusy r) (rFinished r) (rCancelled r) (rVolume r) p (rRound r) (rDeleted r) (rRemaining r) (rFailed r) (refusal r) (rError r).
Definition addDeleted (r : RepairReport) : RepairReport :=
  mkRepair (rBusy r) (rFinished r) (rCancelled r) (rVolume r) (rCurrent r) (rRound r) (u32 (rDeleted r + 1))
    (if 0 <? rRemaining r then rRemaining r - 1 else rRemaining r) (rFailed r) (refusal r) (rError r).
Definition addRefused (p detail : bytes) (r : RepairReport) : RepairReport :=
  mkRepair (rBusy r) (rFinished r) (rCancelled r) (rVolume r) (rCurrent r) (rRound r) (rDeleted r) (rRemaining r) (u32 (rFailed r + 1))
    (if bool_decide (refusal r = []) then p ++ lit ": " ++ (if bool_decide (detail = []) then lit "removal refused" else detail) else refusal r) (rError r).
Definition ended (c : bool) (e : bytes) (r : RepairReport) : RepairReport :=
  mkRepair false true c (rVolume r) (rCurrent r) (rRound r) (rDeleted r) (rRemaining r) (rFailed r) (refusal r) e.

(** What surrounds a repair: whether the n-th look finds that it shall stop; what
    [checkStart] answers in a round ([None]: it started), what the looks at the running
    check show of its place, and when that check is stopped. *)
Record Around := mkAround {
  stopRepair : nat → bool;
  restart : Z → option bytes;
  polls : Z → list bytes;
  stopWalk : Z → nat → bool;
}.

Record Repair (P : Type) := mkRun { rp : RepairReport; vol : P; asked : nat; published : list RepairReport }.
#[global] Arguments mkRun {P}.
#[global] Arguments rp {P}.
#[global] Arguments vol {P}.
#[global] Arguments asked {P}.
#[global] Arguments published {P}.

Section Repair.
Context {P : Type} `{Posix P, Device P} (mount : bytes) (env : Around).
#[local] Abbreviation R := (Repair P).

Definition onRp (f : RepairReport → RepairReport) (s : R) : R := mkRun (f (rp s)) (vol s) (asked s) (published s).
Definition repairPublish (s : R) : R := mkRun (rp s) (vol s) (asked s) (rp s :: published s).
Definition repairStopRequested (s : R) : bool * R := (stopRepair env (asked s), mkRun (rp s) (vol s) (S (asked s)) (published s)).

(** One batch: whether it was stopped, and what it removed. *)
Fixpoint deleteAll (entries : list CheckError) (here : Z) (s : R) : bool * Z * R :=
  match entries with
  | [] => (false, here, s)
  | e :: entries =>
      let '(stop, s) := repairStopRequested s in
      if stop : bool then (true, here, s)
      else
        let s := repairPublish (onRp (at_path (path e)) s) in
        let '(removed, errno, v) := removeTree kLevels (PathUtil.join mount (path e)) EOther (vol s) in
        let s := mkRun (rp s) v (asked s) (published s) in
        let s := onRp (if removed : bool then addDeleted else addRefused (path e) (dev_strerror errno)) s in
        deleteAll entries (if removed : bool then u32 (here + 1) else here) (repairPublish s)
  end.

(** The wait for the check: [true] when the repair is stopped meanwhile. *)
Fixpoint awaitCheck (shown : list bytes) (s : R) : bool * R :=
  let '(stop, s) := repairStopRequested s in
  if stop : bool then (true, s)
  else match shown with
       | [] => (false, s)
       | c :: shown => awaitCheck shown (repairPublish (onRp (at_path c) s))
       end.

Definition samePaths (a b : list CheckError) : bool := bool_decide (path <$> a = path <$> b).

(** The passes: whether the repair was stopped, whether a check could not start. *)
Fixpoint passes (left : nat) (n : nat) (mb : Z) (volumeId : bytes) (check : CheckReport) (s : R) : option (bool * bool * R) :=
  match left with
  | O => Some (false, false, s)
  | S left' =>
      let round := Z.of_nat (kRepairMaxRounds - left') in
      let '(stop, s) := repairStopRequested s in
      if stop : bool then Some (true, false, s)
      else
        let paths := errors check in
        if bool_decide (paths = []) then Some (false, false, s)
        else
          let s := onRp (at_round round (badEntries check)) s in
          let '(cancelled, here, s) := deleteAll paths 0 s in
          if cancelled : bool then Some (true, false, s)
          else if here =? 0 then Some (false, false, s)
          else
            match restart env round with
            | Some detail =>
                let why := if bool_decide (detail = []) then lit "could not start the check" else detail in
                Some (false, true, onRp (λ r, mkRepair (rBusy r) (rFinished r) (rCancelled r) (rVolume r) (rCurrent r) (rRound r) (rDeleted r)
                                                (rRemaining r) (rFailed r) (refusal r) why) s)
            | None =>
                let '(cancelled, s) := awaitCheck (polls env round) s in
                if cancelled : bool then Some (true, false, s)
                else
                  check ← checkWalk mount (vol s) n (stopWalk env round) mb volumeId;
                  let s := repairPublish (onRp (λ r, at_path [] (at_round (rRound r) (badEntries check) r)) s) in
                  if VolumeCheck.cancelled check then Some (true, false, s)
                  else if badEntries check =? 0 then Some (false, false, s)
                  else if bool_decide (errors check = []) then Some (false, false, s)
                  else if samePaths (errors check) paths then Some (false, false, s)
                  else passes left' n mb volumeId check s
            end
  end.

Definition repairSummary (r : RepairReport) : bytes :=
  dec (rDeleted r) ++ lit " deleted" ++
  (if 0 <? rRemaining r then lit ", " ++ dec (rRemaining r) ++ lit " left" else []) ++
  (if bool_decide (refusal r = []) then [] else lit " (" ++ refusal r ++ lit ")").

(** [mounted]: what [resolve] finds; [check]: the report the operator saw. *)
Definition repairRun (n : nat) (mb : Z) (volumeId : bytes) (mounted : bool) (check : CheckReport) (report : RepairReport) (v : P) :
  option (JobRegistry.JobState * bytes * R) :=
  let s := mkRun report v 0 [] in
  if negb mounted then
    let s := repairPublish (onRp (ended (rCancelled report) (lit "the volume is not mounted")) s) in
    Some (JobRegistry.Failed, lit "the volume is not mounted", s)
  else
    '(cancelled, walkFailed, s) ← passes kRepairMaxRounds n mb volumeId check s;
    let s := repairPublish (onRp (λ r, at_path [] (ended cancelled (rError r) r)) s) in
    Some (if cancelled : bool then JobRegistry.Cancelled else if walkFailed : bool then JobRegistry.Failed else JobRegistry.Done_,
          repairSummary (rp s), s).

End Repair.

(** ** What a check says *)

Section Verdict.
Context {P : Type} `{PosixTree P, Device P} (M : bytes) (v : P).
Context (known : list bytes) (Hknown : allDirs v ⊆ known) (HM : ManagerLaws.topName M) (Ht : tidy v) (Hsmall : ∀ p c, file v p = Some c → Z.of_nat (length c) < 2 ^ 64).
Import ManagerLaws TransferSafety TransferEngine(joinRel).

#[local] Abbreviation at_ := (PathUtil.join M).

(** The beginning of a file that reads without an error deliver. *)
Inductive fetched (full : bytes) : nat → Prop :=
  | fetched_none : fetched full 0
  | fetched_more off want got : fetched full off → (0 < want)%nat → px_read full off want v = (got, false) → got ≠ [] →
      fetched full (off + length got).

(** A file that can be opened and read to its end. *)
Definition readable (full : bytes) : Prop := ∃ c, file v full = Some c ∧ px_open_rb full v = None ∧ fetched full (length c).

(** An entry that could not be read: a call on it failed, or its file ended before the size
    the directory tells.  A check cannot know more: a handle that was wanting looks the same
    as a bad sector. *)
Inductive unread (rel : bytes) : Prop :=
  | bad_directory e : px_readdir (at_ rel) v = inl e → unread rel
  | bad_entry e : px_stat (at_ rel) v = inl e → unread rel
  | bad_open c e : file v (at_ rel) = Some c → px_open_rb (at_ rel) v = Some e → unread rel
  | bad_read c off want got err : file v (at_ rel) = Some c → fetched (at_ rel) off → (0 < want)%nat →
      px_read (at_ rel) off want v = (got, err) → err = true ∨ got = [] ∧ (off < length c)%nat → unread rel.

(** The accounts of a walk: every byte read is paid from the budget. *)
Definition balanced (budget : Z) (w : Walk) : Prop := 0 <= budgetLeft w ∧ 0 <= bytes_ (report w) ∧
  bytes_ (report w) + budgetLeft w = budget ∧ budget < 2 ^ 64 ∧ (length (errors (report w)) <= kCheckMaxErrors)%nat.

Lemma balanced_note budget p y w : balanced budget w → balanced budget (onReport (noteError p y) w).
Proof.
  intros (? & ? & ? & ? & He). split_and!; [done..|]. cbn [onReport noteError report onCounts errors]. destruct (Nat.ltb_spec (length (errors (report w))) kCheckMaxErrors) as [Hl|Hl]; [|exact He].
  rewrite length_app. cbn. lia.
Qed.

Lemma note_sound p y (w : Walk) : unread p → ∀ e, e ∈ errors (report (onReport (noteError p y) w)) → e ∈ errors (report w) ∨ unread (path e).
Proof.
  intros Hd e. cbn [onReport noteError report onCounts errors]. destruct (_ <? _)%nat; [|by left]. rewrite elem_of_app, list_elem_of_singleton. intros [| ->]; [by left|by right].
Qed.

Lemma note_marks p y (w : Walk) : errors (report (onReport (noteError p y) w)) ≠ [].
Proof.
  cbn [onReport noteError report onCounts errors]. destruct (Nat.ltb_spec (length (errors (report w))) kCheckMaxErrors) as [Hl|Hl]; intros E; [by apply app_eq_nil in E as [_ E]|].
  rewrite E in Hl. unfold kCheckMaxErrors in Hl. cbn in Hl. lia.
Qed.

(** A window takes at most what it asks for, from the place it stands at. *)
Lemma window full c read want got err : file v full = Some c → 0 <= read → 0 <= want → px_read full (Z.to_nat read) (Z.to_nat want) v = (got, err) →
  Z.of_nat (length got) <= want ∧ (read <= Z.of_nat (length c) → read + Z.of_nat (length got) <= Z.of_nat (length c)).
Proof.
  intros Hf Hr Hw E. destruct (read_law full (Z.to_nat read) (Z.to_nat want) v c Hf) as (k & Hk & Hg & _). rewrite E in Hg. cbn in Hg. subst got.
  rewrite length_take, length_drop. lia.
Qed.

Lemma balanced_take budget got w : balanced budget w → 0 <= got <= budgetLeft w → balanced budget (take_ got w).
Proof.
  intros (? & ? & ? & ? & ?) Hg. unfold balanced, take_. cbn [budgetLeft report addBytes onCounts bytes_ errors].
  rewrite !u64_small by (unfold is_u64; lia). split_and!; lia || done.
Qed.

Lemma readFile_frame c full budget n read failed w : file v full = Some c → 0 <= read <= Z.of_nat (length c) → balanced budget w →
  let '(read', hit, failed', w') := readFile v n full (Z.of_nat (length c)) read failed w in
  pending w' = pending w ∧ errors (report w') = errors (report w) ∧ balanced budget w' ∧ (failed = true → failed' = true).
Proof.
  intros Hf. pose proof (Hsmall _ _ Hf) as Hc. revert read failed w. induction n as [|n IH]; intros read failed w Hr Hb; cbn [readFile]; [by split_and!|].
  destruct (_ <=? read); [by split_and!|]. destruct (budgetLeft w =? 0); [by split_and!|]. set (want := Z.min _ _).
  destruct (px_read full (Z.to_nat read) (Z.to_nat want) v) as [got err] eqn:E. destruct (length got =? 0)%nat; [by split_and!; [..|by intros ->]|].
  assert (Hw : 0 <= want <= budgetLeft w) by (unfold want, kCheckChunkBytes; destruct Hb; lia). destruct (window _ _ _ _ _ _ Hf (proj1 Hr) (proj1 Hw) E) as [H1' H2']. specialize (H2' (proj2 Hr)).
  rewrite u64_small by (unfold is_u64; lia).
  specialize (IH (read + Z.of_nat (length got)) (failed || err) (take_ (Z.of_nat (length got)) w) ltac:(lia) ltac:(apply balanced_take; [done|lia])).
  destruct (readFile v n full _ _ _ _) as [[[read' hit] failed'] w']. destruct IH as (? & ? & ? & Hx). split_and!; [done..|]. intros ->. by apply Hx.
Qed.

(** What ends the windows of a file: the budget, its end, or a window that shows damage. *)
Lemma readFile_ends c full budget n read w : file v full = Some c → fetched full (Z.to_nat read) → 0 <= read <= Z.of_nat (length c) →
  Z.of_nat (length c) - read < Z.of_nat n → balanced budget w →
  let '(read', hit, failed, w') := readFile v n full (Z.of_nat (length c)) read false w in
  (failed = false ∧ (hit = true ∨ read' = Z.of_nat (length c) ∧ fetched full (length c))) ∨
  (failed = true ∨ read' ≠ Z.of_nat (length c)) ∧ ∃ off want got err, fetched full off ∧ (0 < want)%nat ∧ px_read full off want v = (got, err) ∧ (err = true ∨ got = [] ∧ (off < length c)%nat).
Proof.
  intros Hf. pose proof (Hsmall _ _ Hf) as Hc. revert read w. induction n as [|n IH]; intros read w Hx Hr Hn Hb; [lia|]. cbn [readFile].
  destruct (Z.leb_spec (Z.of_nat (length c)) read) as [Hl|Hl].
  { left. split; [done|right]. assert (read = Z.of_nat (length c)) as -> by lia. by rewrite Nat2Z.id in Hx. }
  destruct (Z.eqb_spec (budgetLeft w) 0) as [|Hz]; [by left; split; [|left]|]. set (want := Z.min _ _).
  assert (Hw : 0 < want <= budgetLeft w) by (unfold want, kCheckChunkBytes; destruct Hb; lia).
  destruct (px_read full (Z.to_nat read) (Z.to_nat want) v) as [got err] eqn:E.
  destruct (window _ _ _ _ _ _ Hf (proj1 Hr) (Z.lt_le_incl _ _ (proj1 Hw)) E) as [H1' H2']. specialize (H2' (proj2 Hr)). cbn [orb].
  destruct (Nat.eqb_spec (length got) 0) as [Hg|Hg].
  { right. split; [right; lia|]. exists (Z.to_nat read), (Z.to_nat want), got, err. split_and!; [done|lia|done|]. right. destruct got; [|done]. split; [done|lia]. }
  assert (Hb' : balanced budget (take_ (Z.of_nat (length got)) w)) by (apply balanced_take; [done|lia]). rewrite u64_small by (unfold is_u64; lia).
  destruct err.
  - pose proof (readFile_frame c full budget n (read + Z.of_nat (length got)) true _ Hf ltac:(lia) Hb') as Hfr.
    destruct (readFile v n full _ _ _ _) as [[[read' hit] failed'] w']. right. split; [left; by apply Hfr|].
    exists (Z.to_nat read), (Z.to_nat want), got, true. split_and!; [done|lia|done|by left].
  - apply IH; [|lia|lia|done]. rewrite Z2Nat.inj_add, Nat2Z.id by lia. eapply fetched_more; [done| |exact E|]; [lia|by intros ->].
Qed.

(** What a piece of a walk through the directory [d] has done. *)
Record visited (budget : Z) (d : bytes) (names : list bytes) (stop : bool) (w w' : Walk) : Prop := {
  vi_sound : ∀ e, e ∈ errors (report w') → e ∈ errors (report w) ∨ unread (path e);
  vi_keep : errors (report w) ≠ [] → errors (report w') ≠ [];
  vi_budget : balanced budget w';
  vi_new : ∃ ns, pending w' = (joinRel d <$> ns) ++ pending w ∧ NoDup ns ∧
    ∀ n, n ∈ ns → n ∈ names ∧ isDots n = false ∧ ∃ z, px_stat (at_ (joinRel d n)) v = inr (true, z);
  vi_done : stop = false → errors (report w') = [] → ∀ n, n ∈ names →
    isDots n = true ∨ (joinRel d n ∈ pending w' ∧ ∃ z, px_stat (at_ (joinRel d n)) v = inr (true, z)) ∨ readable (at_ (joinRel d n));
}.

(** A piece that pushes nothing. *)
Lemma visited_still budget d nm stop w w' : pending w' = pending w → balanced budget w' →
  (errors (report w') = errors (report w) ∨ ∃ p y w0, errors (report w0) = errors (report w) ∧ unread p ∧ report w' = report (onReport (noteError p y) w0)) →
  (stop = false → errors (report w') = [] → isDots nm = true ∨ readable (at_ (joinRel d nm))) → visited budget d [nm] stop w w'.
Proof.
  intros Hp Hb He Hd. split; [..|exact Hb| |].
  - intros e Hin. destruct He as [<-|(p & y & w0 & E & Hbad & Er)]; [by left|]. rewrite <- E. apply (note_sound p y w0 Hbad e). by rewrite <- Er.
  - intros Hne. destruct He as [->|(p & y & w0 & E & Hbad & ->)]; [done|apply note_marks].
  - exists []. rewrite Hp. split_and!; [done|constructor|]. by intros n ?%elem_of_nil.
  - intros Hs Hn n ->%list_elem_of_singleton. destruct (Hd Hs Hn); auto.
Qed.

Lemma visitFile_visited budget d nm c w : file v (at_ (joinRel d nm)) = Some c → balanced budget w →
  let '(stop, w') := visitFile v (joinRel d nm) (at_ (joinRel d nm)) (Z.of_nat (length c)) w in visited budget d [nm] stop w w'.
Proof.
  intros Hf Hb. unfold visitFile. destruct (kCheckMaxFiles <=? processed w); [by apply visited_still; auto|].
  destruct (px_open_rb (at_ (joinRel d nm)) v) as [e|] eqn:Eo.
  { apply visited_still; [done|by apply balanced_note|right|]; [|intros _ E; by apply note_marks in E].
    eexists _, _, (oneMore w). split_and!; [done| |reflexivity]. by eapply bad_open. }
  assert (Hb1 : balanced budget (oneMore w)) by exact Hb. set (full := at_ (joinRel d nm)) in *.
  pose proof (readFile_frame c full budget (Z.to_nat (Z.of_nat (length c)) + 1) 0 false _ Hf ltac:(lia) Hb1) as Hfr.
  pose proof (readFile_ends c full budget (Z.to_nat (Z.of_nat (length c)) + 1) 0 _ Hf ltac:(constructor) ltac:(lia) ltac:(lia) Hb1) as He.
  destruct (readFile v _ full _ _ _ (oneMore w)) as [[[read' hit] failed] w']. destruct Hfr as (Hp & Hes & Hbw & _).
  destruct hit; [by apply visited_still; auto|].
  assert (Hbad : failed = true ∨ read' ≠ Z.of_nat (length c) → unread (joinRel d nm)).
  { intros Hx. destruct He as [[Hfl [?|[Hr _]]]|(_ & off & want & got & err & ? & ? & ? & ?)]; [done|by destruct Hx; congruence|]. by eapply bad_read. }
  assert (Hnote : ∀ y, unread (joinRel d nm) → visited budget d [nm] false w (onReport (noteError (joinRel d nm) y) (checkSetProgress (joinRel d nm) w'))).
  { intros y Hd. apply visited_still; [done|by apply balanced_note|right|intros _ E; by apply note_marks in E].
    by exists (joinRel d nm), y, (checkSetProgress (joinRel d nm) w'). }
  destruct failed; [by apply Hnote, Hbad; left|]. destruct (Z.eqb_spec read' (Z.of_nat (length c))) as [Er|Er]; cbn [negb]; [|by apply Hnote, Hbad; right].
  apply visited_still; [done|exact Hbw|by left|]. intros _ _. right. exists c. split_and!; [done|done|].
  destruct He as [[_ [?|[_ ?]]]|([?|?] & _)]; done.
Qed.

Lemma visitEntry_visited budget d nm w : balanced budget w →
  let '(stop, w') := visitEntry M v d nm w in visited budget d [nm] stop w w'.
Proof.
  intros Hb. unfold visitEntry. destruct (isDots nm) eqn:Hd; [by apply visited_still; auto|].
  pose proof (stat_law (at_ (joinRel d nm)) v) as Hs. destruct (px_stat (at_ (joinRel d nm)) v) as [e|[[] size]] eqn:Es.
  - apply visited_still; [done|by apply balanced_note|right|intros _ E; by apply note_marks in E].
    eexists _, _, w. split_and!; [done| |reflexivity]. by eapply bad_entry.
  - split; [by left|done|done| |].
    + exists [nm]. split_and!; [done|apply NoDup_singleton|]. intros n ->%list_elem_of_singleton. split_and!; [by left|done|by exists size].
    + intros _ _ n ->%list_elem_of_singleton. right. left. split; [by left|by exists size].
  - destruct Hs as (c & Hc & ->). by apply visitFile_visited.
Qed.

Lemma visitNames_visited budget d names w : balanced budget w → NoDup names →
  let '(stop, w') := visitNames M v d names w in visited budget d names stop w w'.
Proof.
  intros Hb Hnd. revert w Hb. induction Hnd as [|nm names Hnm _ IH]; intros w Hb; cbn [visitNames].
  { split; [by left|done|done| |by intros _ _ n ?%elem_of_nil]. exists []. split_and!; [done|constructor|by intros n ?%elem_of_nil]. }
  pose proof (visitEntry_visited budget d nm w Hb) as V1. destruct (visitEntry M v d nm w) as [stop w1]. destruct V1 as [S1 K1 B1 (ns1 & E1 & N1 & D1) F1].
  destruct stop.
  { split; [done|done|done| |done]. exists ns1. split_and!; [done|done|]. intros n Hn. destruct (D1 n Hn) as (->%list_elem_of_singleton & ?). by split; [left|]. }
  specialize (IH w1 B1). destruct (visitNames M v d names w1) as [stop w2]. destruct IH as [S2 K2 B2 (ns2 & E2 & N2 & D2) F2]. split.
  - intros e He. destruct (S2 e He) as [He1|]; [by apply S1|by right].
  - auto.
  - done.
  - exists (ns2 ++ ns1). rewrite fmap_app, <- app_assoc, <- E1. split_and!; [done| |].
    + apply NoDup_app. split_and!; [done| |done]. intros n Hn2 Hn1. destruct (D1 n Hn1) as (->%list_elem_of_singleton & _), (D2 _ Hn2) as [? _]. done.
    + intros n [Hn|Hn]%elem_of_app; [destruct (D2 n Hn) as (? & ?); by split; [right|]|]. destruct (D1 n Hn) as (->%list_elem_of_singleton & ?). by split; [left|].
  - intros -> Hn n [->|Hin]%elem_of_cons; [|by apply F2].
    assert (Hn1 : errors (report w1) = []) by (destruct (errors (report w1)) eqn:E; [done|]; destruct (K2 ltac:(congruence)); done).
    destruct (F1 eq_refl Hn1 nm ltac:(by left)) as [|[[Hp Hz]|]]; [by left| |by right; right]. right. left. split; [|done]. rewrite E2. apply elem_of_app. by right.
Qed.

Lemma at_child d n : plain d → 47 ∉ n → PathUtil.idle n = false → at_ (joinRel d n) = at_ d ++ 47 :: n.
Proof.
  intros Hd Hn Hi. rewrite (join_top M (joinRel d n)) by (done || by apply plain_child). rewrite decide_False; [by apply join_child|].
  intros E. pose proof (joinRel_rooted d n Hd (idle_nonempty _ Hi)) as Hr. rewrite E in Hr. done.
Qed.

Lemma walking_perm top D seen q q' : q ≡ₚ q' → walking top D seen q → walking top D seen q'.
Proof.
  intros Hq (Hnd & Hin & Hwhy). assert (Hp : seen ++ q ≡ₚ seen ++ q') by (by rewrite Hq). split_and!; [by rewrite <- Hp| |].
  - intros x Hx. apply Hin. by rewrite Hp.
  - intros x Hx. apply Hwhy. by rewrite Hp.
Qed.

(** While nothing is named, a file has been read or lies below what is still to do. *)
Definition covered (w : Walk) : Prop := errors (report w) = [] → ∀ q c, file v (M ++ 47 :: q) = Some c →
  readable (M ++ 47 :: q) ∨ ∃ d t, d ∈ pending w ∧ M ++ 47 :: q = at_ d ++ 47 :: t.

Lemma covered_step budget d rest names cut w w' : pending w = d :: rest → plain d → covered w →
  px_readdir (at_ d) v = inr (names, cut) → visited budget d names false (onReport addDir (mkWalk (report w) rest (budgetLeft w) (processed w) (told w))) w' →
  covered w'.
Proof.
  intros Ep Hpl Hcov Er [S K B (ns & En & _ & _) F] Hn q c Hc. cbn [pending onReport report addDir onCounts errors] in *.
  assert (Hn0 : errors (report w) = []) by (destruct (errors (report w)); [done|]; by destruct (K ltac:(done))).
  destruct (Hcov Hn0 q c Hc) as [|(d' & t & Hin & E)]; [by left|]. rewrite Ep in Hin.
  apply elem_of_cons in Hin as [->|Hin]; [|right; exists d', t; split; [rewrite En; apply elem_of_app; by right|done]].
  destruct (MemoryTree.first_name t) as (n & r & -> & Hs & Hd). rewrite E in Hc.
  assert (Hdots : PathUtil.idle n || isDots n = false).
  { destruct (PathUtil.idle n || isDots n) eqn:Hx; [|done]. by rewrite (dots_law (at_ d) n r v Ht Hx Hd) in Hc. }
  apply orb_false_iff in Hdots as [Hi Hdots]. destruct (readdir_law _ _ _ _ Ht Er) as (_ & _ & _ & Hsee).
  pose proof (Hsee n r c Hs (idle_nonempty _ Hi) Hd Hc) as Hin. destruct (F eq_refl Hn n Hin) as [?|[[Hp [z Hz]]|Hr]]; [congruence| |].
  - destruct Hd as [->|[t ->]].
    + rewrite app_nil_r in Hc. pose proof (stat_law (at_ (joinRel d n)) v) as Hst. rewrite Hz, at_child in Hst by done. congruence.
    + right. exists (joinRel d n), t. split; [done|]. rewrite at_child, E by done. by rewrite <- app_assoc.
  - rewrite at_child in Hr by done. destruct Hr as (c' & Hc' & Ho & Hf). destruct Hd as [->|[t ->]].
    + left. rewrite E, app_nil_r. by exists c'.
    + rewrite app_comm_cons, app_assoc, (tree_law _ t v c' Ht Hc') in Hc. done.
Qed.

Lemma walkDirs_runs budget stop n : ∀ k w seen, Forall plain (pending w) → balanced budget w → covered w →
  walking M (M :: known) seen (at_ <$> pending w) → (length (M :: known) < n + length seen)%nat →
  ∃ cut stopped w', walkDirs M v n stop k w = Some (cut, stopped, w') ∧ balanced budget w' ∧
    (∀ e, e ∈ errors (report w') → e ∈ errors (report w) ∨ unread (path e)) ∧ (errors (report w) ≠ [] → errors (report w') ≠ []) ∧
    (cut = false → stopped = false → errors (report w') = [] → ∀ q c, file v (M ++ 47 :: q) = Some c → readable (M ++ 47 :: q)).
Proof.
  induction n as [|n IH]; intros k w seen Hpl Hb Hcov Hw Hn; cbn [walkDirs].
  all: destruct (pending w) as [|d rest] eqn:Ep.
  1, 3: eexists _, _, _; split_and!; [reflexivity|done|by left|done|]; intros _ _ He q c Hc; destruct (Hcov He q c Hc) as [|(d & t & Hin & _)]; [done|];
    rewrite Ep in Hin; by apply elem_of_nil in Hin.
  { rewrite fmap_cons in Hw. apply walking_fuel in Hw. lia. }
  apply Forall_cons in Hpl as [Hd Hpl]. destruct (stop k). { eexists _, _, _; split_and!; [reflexivity|done|by left|done|done]. }
  set (w1 := onReport addDir (mkWalk (report w) rest (budgetLeft w) (processed w) (told w))). assert (Hb1 : balanced budget w1) by exact Hb.
  destruct (px_readdir (at_ d) v) as [e|[names dcut]] eqn:Er.
  - destruct (IH (S k) (onReport (noteError d (dev_strerror e)) w1) (seen ++ [at_ d])) as (cut & stopped & w' & -> & B & Hs & Hk & Hend).
    + done.
    + by apply balanced_note.
    + intros He. by apply note_marks in He.
    + rewrite <- (app_nil_r (at_ <$> pending _)). apply (walking_step M (M :: known) seen (at_ d) (at_ <$> rest) []); [done|constructor|by intros ? ?%elem_of_nil].
    + rewrite length_app. cbn [length] in *. lia.
    + eexists _, _, _. split_and!; [reflexivity|done| |intros _; by apply Hk, note_marks|done].
      intros x Hx. destruct (Hs x Hx) as [Hx'|]; [|by right]. apply (note_sound d _ w1) in Hx'; [done|]. by eapply bad_directory.
  - destruct (readdir_law _ _ _ _ Ht Er) as (_ & Hnd & Hnm & _). pose proof (visitNames_visited budget d names w1 Hb1 Hnd) as V.
    destruct (visitNames M v d names w1) as [full w2]. destruct full.
    { destruct V as [S2 K2 B2 _ _]. eexists _, _, _. by split_and!. }
    pose proof (covered_step budget d rest names dcut w w2 Ep Hd Hcov Er V) as Hcov2. destruct V as [S2 K2 B2 (ns & En & N2 & D2) _].
    assert (Hns : ∀ n, n ∈ ns → 47 ∉ n ∧ PathUtil.idle n = false).
    { intros x Hx. destruct (D2 x Hx) as (Hin & Hdot & _), (Hnm x ltac:(by apply D2)) as [? ?]. split; [done|]. apply isDots_spec in Hdot as [Hdot _].
      unfold PathUtil.idle. by rewrite bool_decide_eq_false_2, (proj2 (bytes_eqb_neq _ _)) by done. }
    assert (Hch : at_ <$> (joinRel d <$> ns) = (λ n, at_ d ++ 47 :: n) <$> ns).
    { rewrite <- list_fmap_compose. apply list_fmap_ext. intros i x Hx%list_elem_of_lookup_2. by apply at_child; [|apply Hns..]. }
    destruct (IH (S k) w2 (seen ++ [at_ d])) as (cut & stopped & w' & -> & B & Hs & Hk & Hend); [| |done|..].
    + rewrite En. apply Forall_app. split; [|done]. apply Forall_fmap, Forall_forall. intros x Hx. by apply plain_child; [|apply Hns..].
    + done.
    + rewrite En, fmap_app, Hch. apply (walking_perm _ _ _ ((at_ <$> rest) ++ ((λ n, at_ d ++ 47 :: n) <$> ns))); [apply Permutation_app_comm|].
      apply walking_step; [done|done|]. intros x Hx. destruct (D2 x Hx) as (_ & _ & z & Hz). destruct (Hns x Hx) as [Hs Hi]. split; [done|].
      right. apply Hknown. rewrite <- (at_child d x) by done. by eapply dirs_law.
    + rewrite length_app. cbn [length] in *. lia.
    + eexists _, _, _. split_and!; [reflexivity|done| |auto|done]. intros x Hx. destruct (Hs x Hx) as [Hx'|]; [by apply S2|by right].
Qed.
(** A check that is not stopped by anything else says the truth. *)
Lemma checkWalk_runs n stop mb vol : (length (M :: known) < n)%nat →
  ∃ r, checkWalk M v n stop mb vol = Some r ∧ busy r = false ∧ finished r = true ∧ 0 <= bytes_ r <= kCheckBudgetBytes mb ∧
    (length (errors r) <= kCheckMaxErrors)%nat ∧ (∀ e, e ∈ errors r → unread (path e)) ∧
    (errors r = [] → truncated r = false → cancelled r = false → ∀ q c, file v (M ++ 47 :: q) = Some c → readable (M ++ 47 :: q)).
Proof.
  intros Hn. assert (Hm : at_ root = M) by (rewrite join_top; [done|done|by exists []]). unfold checkWalk.
  set (w0 := mkWalk _ _ _ _ _). assert (Hbud : 0 <= kCheckBudgetBytes mb < 2 ^ 64) by apply u64_range.
  destruct (walkDirs_runs (kCheckBudgetBytes mb) stop n 0 w0 []) as (cut & stopped & w & -> & (Hb1 & Hb2 & Hb3 & _ & Hb4) & Hs & _ & Hend).
  - apply Forall_cons. split; [by exists []|constructor].
  - unfold balanced, w0. cbn [budgetLeft report bytes_ errors length]. unfold kCheckMaxErrors. lia.
  - intros _ q c Hc. right. exists root, q. split; [by left|]. by rewrite Hm.
  - cbn [pending w0 fmap list_fmap]. rewrite Hm. apply walking_start. by left.
  - cbn [length] in *. lia.
  - eexists. cbn [mbind option_bind]. split_and!; [reflexivity|done|done|cbn; lia..|done| |].
    + intros e He. destruct (Hs e He) as [Hx|]; [by apply elem_of_nil in Hx|done].
    + intros He Hc Hst. by apply Hend.
Qed.

End Verdict.


(** ** What a repair removes *)

Section Repairing.
Context {P : Type} `{PosixTree P, Device P} (M : bytes) (env : Around) (v0 : P) (first : CheckReport).
Context (HM : ManagerLaws.topName M) (Ht : tidy v0) (Hsmall : ∀ p c, file v0 p = Some c → Z.of_nat (length c) < 2 ^ 64).
Import ManagerLaws TransferSafety.
#[local] Abbreviation R := (Repair P).

(** Nothing new, and what it has of [w] it has as it was there. *)
Definition within (w v : P) : Prop := tidy v ∧ allDirs v ⊆ allDirs w ∧ ∀ q c, file v q = Some c → file w q = Some c.

Lemma within_trans u w v : within u w → within w v → within u v.
Proof. intros (_ & D1 & F1) (Hv & D2 & F2). split_and!; [done|by etrans|auto]. Qed.

(** Why a path is removed: the operator saw it named, or a check found it unread on [w],
    which has everything that is still there. *)
Definition why_removed (v : P) (p : bytes) : Prop :=
  (∃ e, e ∈ errors first ∧ path e = p) ∨ ∃ w, within v0 w ∧ within w v ∧ unread M w p.

(** The same, of a file that is gone. *)
Definition lost (q c : bytes) : Prop := ∃ p, under (PathUtil.join M p) q ∧
  ((∃ e, e ∈ errors first ∧ path e = p) ∨ ∃ w, within v0 w ∧ file w q = Some c ∧ unread M w p).

Definition accounted (s : R) : Prop := within v0 (vol s) ∧ ∀ q c, file v0 q = Some c → file (vol s) q = Some c ∨ lost q c.

Lemma removal_accounted p errno (s : R) : accounted s → why_removed (vol s) p →
  accounted (mkRun (rp s) (removeTree kLevels (PathUtil.join M p) errno (vol s)).2 (asked s) (published s)) ∧
  within (vol s) (removeTree kLevels (PathUtil.join M p) errno (vol s)).2.
Proof.
  intros [Hw Hl] Hy. pose proof Hw as (Htv & _ & _). destruct (removeTree_shrinks kLevels (PathUtil.join M p) errno (vol s) Htv) as (Ht' & D' & F').
  assert (Hin : within (vol s) (removeTree kLevels (PathUtil.join M p) errno (vol s)).2).
  { split_and!; [done|done|]. intros q c. apply removeTree_less. }
  split; [|done]. split; [by eapply within_trans|]. intros q c Hc. cbn [vol]. destruct (Hl q c Hc) as [Hc'|]; [|by right].
  destruct (decide (under (PathUtil.join M p) q)) as [Hu|Hu]; [right|left; by rewrite F'].
  exists p. split; [done|]. destruct Hy as [|(w & Hw0 & Hwv & Hd)]; [by left|right]. exists w. split_and!; [done| |done]. by apply Hwv.
Qed.

Lemma why_within w v p : why_removed w p → within w v → why_removed v p.
Proof. intros [|(u & Hu & Hw & Hd)] Hv; [by left|right]. exists u. split_and!; [done|by eapply within_trans|done]. Qed.

Lemma deleteAll_accounted entries : ∀ here (s : R), accounted s → (∀ e, e ∈ entries → why_removed (vol s) (path e)) →
  accounted (deleteAll M env entries here s).2.
Proof.
  induction entries as [|e entries IH]; intros here s Ha Hy; cbn [deleteAll]; [done|]. unfold repairStopRequested. destruct (stopRepair env (asked s)); [done|].
  cbn [vol repairPublish onRp].
  pose proof (removal_accounted (path e) EOther s Ha (Hy e ltac:(by left))) as [Ha' Hin].
  destruct (removeTree kLevels (PathUtil.join M (path e)) EOther (vol s)) as [[removed errno] v]. cbn [snd] in *.
  apply IH; [exact Ha'|]. intros x Hx. cbn. eapply why_within; [|exact Hin]. apply Hy. by right.
Qed.

Lemma awaitCheck_same shown : ∀ s : R, vol (awaitCheck env shown s).2 = vol s.
Proof.
  induction shown as [|c shown IH]; intros s; cbn [awaitCheck]; unfold repairStopRequested; destruct (stopRepair env (asked s)); try done. by rewrite IH.
Qed.

Lemma passes_run n mb volumeId left : (length (M :: allDirs v0) < n)%nat → ∀ check (s : R), accounted s →
  (∀ e, e ∈ errors check → why_removed (vol s) (path e)) →
  ∃ cancelled failed s', passes M env left n mb volumeId check s = Some (cancelled, failed, s') ∧ accounted s'.
Proof.
  intros Hn. induction left as [|left IH]; intros check s Ha Hy; cbn [passes]; [by eexists _, _, _|].
  unfold repairStopRequested. destruct (stopRepair env (asked s)); [by eexists _, _, _|]. case_bool_decide as Hp; [by eexists _, _, _|].
  set (s1 := onRp _ _). assert (Ha1 : accounted s1) by exact Ha.
  pose proof (deleteAll_accounted (errors check) 0 s1 Ha1 Hy) as Ha2. destruct (deleteAll M env (errors check) 0 s1) as [[cancelled here] s2]. cbn [snd] in Ha2.
  destruct cancelled; [by eexists _, _, _|]. destruct (here =? 0); [by eexists _, _, _|]. destruct (restart env _); [by eexists _, _, _|].
  pose proof (awaitCheck_same (polls env (Z.of_nat (kRepairMaxRounds - left))) s2) as Ev. destruct (awaitCheck env _ s2) as [cancelled s3]. cbn [snd] in Ev.
  assert (Ha3 : accounted s3) by (unfold accounted; by rewrite Ev). destruct cancelled; [by eexists _, _, _|].
  pose proof Ha3 as [(Ht3 & D3 & F3) _].
  destruct (checkWalk_runs M (vol s3) (allDirs v0) D3 HM Ht3 ltac:(eauto) n (stopWalk env (Z.of_nat (kRepairMaxRounds - left))) mb volumeId Hn)
    as (check' & -> & _ & _ & _ & _ & Hd & _). cbn [mbind option_bind].
  set (s4 := repairPublish _). assert (Ha4 : accounted s4) by exact Ha3.
  destruct (VolumeCheck.cancelled check'); [by eexists _, _, _|]. destruct (badEntries check' =? 0); [by eexists _, _, _|].
  case_bool_decide; [by eexists _, _, _|]. destruct (samePaths _ _); [by eexists _, _, _|].
  apply IH; [done|]. intros e He. right. exists (vol s3). split_and!; [apply Ha3|split_and!; done|by apply Hd].
Qed.

End Repairing.

(** A repair ends after at most twenty passes, and a file it took was below a path
    that the operator saw named, or that a later check found unread while the file was
    there; every other file is as it was, and none is new. *)
Theorem repair_removes_unread {P} `{PosixTree P, Device P} (M : bytes) (env : Around) n mb volumeId check report (v : P) :
  ManagerLaws.topName M → tidy v → (∀ p c, file v p = Some c → Z.of_nat (length c) < 2 ^ 64) → (length (M :: allDirs v) < n)%nat →
  ∃ st text s, repairRun M env n mb volumeId true check report v = Some (st, text, s) ∧ rFinished (rp s) = true ∧ rBusy (rp s) = false ∧
    (∀ q c, file (vol s) q = Some c → file v q = Some c) ∧
    ∀ q c, file v q = Some c → file (vol s) q = Some c ∨
      ∃ p, under (PathUtil.join M p) q ∧ ((∃ e, e ∈ errors check ∧ path e = p) ∨ ∃ w, file w q = Some c ∧ unread M w p).
Proof.
  intros HM Ht Hs Hn. unfold repairRun. cbn [negb].
  assert (Hin : within v v) by (by split_and!).
  destruct (passes_run M env v check HM Hs n mb volumeId kRepairMaxRounds Hn check (mkRun report v 0 [])) as (cancelled & failed & s & -> & (Hw & Hl)).
  - split; [done|by left].
  - intros e He. left. by exists e.
  - eexists _, _, _. split; [reflexivity|]. cbn. split_and!; [done|done|by apply Hw|].
    intros q c Hc. destruct (Hl q c Hc) as [|(p & Hu & Hy)]; [by left|right]. exists p. split; [done|]. destruct Hy as [|(w & _ & ? & ?)]; [by left|right; eauto].
Qed.

(** ** Runs *)

Section Runs.
Import PosixFileOperations(Volume, MemoryVolume, MemoryVolume_laws, fileIn, onVolume) MemoryTree TransferRuns(quietDevice, sample).
#[local] Existing Instances MemoryVolume MemoryVolume_laws MemoryVolume_tree quietDevice.

Lemma small_check v : forallb (λ kc : bytes * option bytes, Z.of_nat (length (default [] kc.2)) <? 2 ^ 64) (map_to_list v) = true →
  ∀ p c, fileIn v p = Some c → Z.of_nat (length c) < 2 ^ 64.
Proof.
  rewrite forallb_forall. intros H p c Hc%fileIn_Some. specialize (H (p, Some c)). apply Z.ltb_lt, H, list_elem_of_In. by apply elem_of_map_to_list.
Qed.

#[local] Abbreviation v := (onVolume sample).

Lemma fat_top : ManagerLaws.topName (lit "/fat").
Proof. exists (lit "fat"). split_and!; [reflexivity|apply (bool_decide_unpack _); vm_compute; exact I|done]. Qed.

Example check_runs :
  (λ r, (dirs r, files r, bytes_ r, errors r, finished r)) <$> checkWalk (lit "/fat") v 9 (λ _, false) 64 (lit "fat") = Some (3, 2, 8, [], true).
Proof. vm_compute. reflexivity. Qed.


Definition undisturbed : Around := mkAround (λ _, false) (λ _, None) (λ _, []) (λ _ _, false).

(** A finished check that named these paths. *)
Definition named (ps : list bytes) : CheckReport :=
  mkReport false true false false (lit "fat") [] 3 1 (Z.of_nat (length ps)) 8 (kCheckBudgetBytes 64) ((λ p, mkError p (lit "error")) <$> ps).

Definition repaired (ps : list bytes) : option (bytes * list (option bytes)) :=
  (λ x : JobRegistry.JobState * bytes * Repair Volume, (x.1.2, fileIn (vol x.2) <$> [lit "/fat/a"; lit "/fat/d/e/f"])) <$>
    repairRun (lit "/fat") undisturbed 9 64 (lit "fat") true (named ps) noRepair v.

Example repair_runs : repaired [lit "/a"] = Some (lit "1 deleted", [None; Some (lit "deep")]).
Proof. vm_compute. reflexivity. Qed.

Lemma repair_removes_unread_witness :
  ∃ st text s, repairRun (lit "/fat") undisturbed 9 64 (lit "fat") true (named [lit "/a"]) noRepair v = Some (st, text, s) ∧
    (∀ q c, file (vol s) q = Some c → file v q = Some c).
Proof.
  destruct (repair_removes_unread (lit "/fat") undisturbed 9 64 (lit "fat") (named [lit "/a"]) noRepair v fat_top) as (st & text & s & E & _ & _ & Hf & _).
  - exact TransferRuns.sample_tidy.
  - apply small_check. vm_compute. reflexivity.
  - apply Nat.ltb_lt. vm_compute. reflexivity.
  - exists st, text, s. split; [exact E|exact Hf].
Defined.

(** A directory that could not be opened once, be it the root, is removed with everything
    below it, however healthy that is. *)
Example unopened_root_erased : snd <$> repaired [lit "/"] = Some [None; None].
Proof. vm_compute. reflexivity. Qed.

(** A file whose reads fail. *)
#[local] Instance Brittle : Posix Volume := {
  px_stat := px_stat (Posix := MemoryVolume); px_readdir := px_readdir (Posix := MemoryVolume); px_mkdir := px_mkdir; px_unlink := px_unlink;
  px_rmdir := px_rmdir; px_rename := px_rename; px_open_rb := px_open_rb; px_open_wb := px_open_wb; px_open_ab := px_open_ab;
  px_read p off n w := if bytes_eqb p (lit "/fat/d/e/f") then ([], true) else px_read (Posix := MemoryVolume) p off n w;
  px_write := px_write; px_flush := px_flush; px_close := px_close; px_fat_info := px_fat_info; px_capacity := px_capacity;
}.

Example check_names_broken :
  (λ r, (files r, badEntries r, path <$> errors r)) <$> checkWalk (lit "/fat") v 9 (λ _, false) 64 (lit "fat") = Some (1, 1, [lit "/d/e/f"]).
Proof. vm_compute. reflexivity. Qed.

(** A directory whose reading breaks off: what the walk was not told of it does not look at,
    and it names nothing. *)
#[local] Instance BreaksOff : Posix Volume := {
  px_stat := px_stat (Posix := MemoryVolume);
  px_readdir p w := if bytes_eqb p (lit "/fat/d") then inr ([], true) else px_readdir (Posix := MemoryVolume) p w;
  px_mkdir := px_mkdir; px_unlink := px_unlink; px_rmdir := px_rmdir; px_rename := px_rename; px_open_rb := px_open_rb;
  px_open_wb := px_open_wb; px_open_ab := px_open_ab; px_read := px_read (Posix := MemoryVolume);
  px_write := px_write; px_flush := px_flush; px_close := px_close; px_fat_info := px_fat_info; px_capacity := px_capacity;
}.

Example broken_listing_unnoticed :
  (λ r, (dirs r, files r, badEntries r, truncated r)) <$>
    checkWalk (H := BreaksOff) (lit "/fat") v 9 (λ _, false) 64 (lit "fat") = Some (2, 1, 0, false).
Proof. vm_compute. reflexivity. Qed.

End Runs.

End VolumeCheck.
