(* ===== verification/FileJobs.v ===== *)
(** * The tasks of the file manager

    src/files/FileManager.cpp: a check, a repair and a transfer run in tasks of their
    own. What is here is their beginnings and ends, the reports the pages read, the
    switches that stop them, their rows in the registry of jobs, and the filter of the
    clients. The work itself is in VolumeCheck.v and TransferEngine.v. A function that
    creates a task is cut where the task exists and its row does not. *)
From S2P Require Import Prelude Text PathUtil Subnet JobRegistry FileUpload PosixFiles TransferEngine FileManager VolumeCheck.
From stdpp Require Import relations.
#[local] Open Scope Z_scope.

Module FileJobs.
Import VolumeManager VolumeCheck.
#[local] Abbreviation TransferReport := TransferEngine.TransferReport.
#[local] Abbreviation TransferRequest := TransferEngine.TransferRequest.
#[local] Abbreviation Registry := JobRegistry.Registry.

(** [transferTask]: its handle is set. *)
Record Jobs := mkJobs {
  check : CheckReport; checkMount : bytes; checkCancelled : bool;
  repair : RepairReport; repairCancelled : bool;
  transfer : TransferReport; transferTask : bool; transferReq : TransferRequest; transferCancelled : bool;
  registry : Registry;
}.

Definition set_check c mt x (j : Jobs) : Jobs := mkJobs c mt x (repair j) (repairCancelled j) (transfer j) (transferTask j) (transferReq j) (transferCancelled j) (registry j).
Definition set_repair r x (j : Jobs) : Jobs := mkJobs (check j) (checkMount j) (checkCancelled j) r x (transfer j) (transferTask j) (transferReq j) (transferCancelled j) (registry j).
Definition set_transfer t h q x (j : Jobs) : Jobs := mkJobs (check j) (checkMount j) (checkCancelled j) (repair j) (repairCancelled j) t h q x (registry j).
Definition onRegistry (f : Registry → Registry) (j : Jobs) : Jobs :=
  mkJobs (check j) (checkMount j) (checkCancelled j) (repair j) (repairCancelled j) (transfer j) (transferTask j) (transferReq j) (transferCancelled j) (f (registry j)).

Definition noRequest : TransferRequest := TransferEngine.mkRequest TransferEngine.Copy TransferEngine.Ask [] [] [] [].
Definition idle : Jobs := mkJobs noReport [] false noRepair false TransferEngine.emptyReport false noRequest false JobRegistry.initial.

Definition begin_ (id title arg : bytes) (total : Z) (u : JobRegistry.JobUnit) (now now2 : Z) (j : Jobs) : Jobs :=
  onRegistry (λ r, (JobRegistry.begin_ id title arg total u 0 now now2 r).1.2) j.
Definition finish_ (id : bytes) (st : JobRegistry.JobState) (text : bytes) (now : Z) (j : Jobs) : Jobs :=
  onRegistry (λ r, (JobRegistry.finish id st text now r).1) j.
Definition requestCancel (id : bytes) (j : Jobs) : Jobs := onRegistry (λ r, (JobRegistry.requestCancel id r).2) j.

Section Jobs.
Context {layout : Layout} {P : Type} `{Posix P, Device P}.
(** Whether the chip has the volumes, the budget of a check in megabytes. *)
Context (supported : bool) (mb : Z).
#[local] Abbreviation Mgr := (Manager layout P).

(** ** The check *)

Definition claimedCheck (id mount : bytes) (j : Jobs) : Jobs :=
  set_check (mkReport true false false false id [] 0 0 0 0 (kCheckBudgetBytes mb) []) mount false j.
Definition failedCheck (j : Jobs) : Jobs :=
  let c := check j in
  set_check (mkReport false true (truncated c) (cancelled c) (volume c) (current c) (dirs c) (files c) (badEntries c) (bytes_ c) (budgetBytes c) (errors c))
    (checkMount j) (checkCancelled j) j.

(** [created]: what [xTaskCreate] says. *)
Definition checkStart (created : bool) (id : bytes) (m : Mgr) (j : Jobs) : Answer * Mgr * Jobs :=
  match resolve id m with
  | (StOk, Some mount, m) =>
      if negb supported then ((Unsupported, None), m, j)
      else if formatting m then ((Busy, Some (lit "a format is running")), m, j)
      else if busy (check j) then ((Busy, Some (lit "a check is already running")), m, j)
      else
        let j := claimedCheck id mount j in
        if created then ((StOk, None), m, j) else ((IoError, Some (lit "failed to start the check task")), m, failedCheck j)
  | (st, _, m) => ((st, None), m, j)
  end.

Definition checkAnnounce (id : bytes) (now now2 : Z) : Jobs → Jobs :=
  begin_ (lit "file_check") (lit "jobs.file_check") id (u32 (kCheckBudgetBytes mb)) JobRegistry.UnitBytes now now2.

Definition checkCancel (j : Jobs) : Jobs :=
  requestCancel (lit "file_check") (if busy (check j) then set_check (check j) (checkMount j) true j else j).

Definition checkStopRequested (j : Jobs) : bool := checkCancelled j.

Definition checkSetProgress (p : bytes) (r : CheckReport) (j : Jobs) : Jobs :=
  let c := check j in
  onRegistry (JobRegistry.progress (lit "file_check") (u32 (bytes_ r)) 0 p)
    (set_check (mkReport (busy c) (finished c) (truncated c) (cancelled c) (volume c) p (dirs r) (files r) (badEntries r) (bytes_ r) (budgetBytes c) (errors c))
       (checkMount j) (checkCancelled j) j).

(** [r]: the report of the walk. *)
Definition checkEnd (r : CheckReport) (now : Z) (j : Jobs) : Jobs :=
  finish_ (lit "file_check") (if cancelled r then JobRegistry.Cancelled else JobRegistry.Done_)
    (if 0 <? badEntries r then dec (badEntries r) ++ lit " damaged" else []) now
    (set_check (checkFinish r) (checkMount j) (checkCancelled j) j).

(** ** The repair *)

Definition repairStart (created : bool) (id : bytes) (now now2 : Z) (m : Mgr) (j : Jobs) : Answer * Mgr * Jobs :=
  match resolve id m with
  | (StOk, Some _, m) =>
      let c := check j in
      if negb supported then ((Unsupported, None), m, j)
      else if formatting m then ((Busy, Some (lit "a format is running")), m, j)
      else if busy c then ((Busy, Some (lit "a check is running")), m, j)
      else if negb (finished c) || negb (bytes_eqb (volume c) id) || (badEntries c =? 0) || bool_decide (errors c = []) then
        ((Conflict, Some (lit "run a check first")), m, j)
      else if rBusy (repair j) then ((Busy, Some (lit "a repair is already running")), m, j)
      else
        let j := set_repair (mkRepair true false false id [] 0 0 (badEntries c) 0 [] []) false j in
        let j := begin_ (lit "file_repair") (lit "jobs.file_repair") id (badEntries c) JobRegistry.UnitRecords now now2 j in
        if created then ((StOk, None), m, j)
        else
          let r := repair j in
          let j := set_repair (mkRepair false true (rCancelled r) (rVolume r) (rCurrent r) (rRound r) (rDeleted r) (rRemaining r) (rFailed r) (refusal r) (rError r))
                     (repairCancelled j) j in
          ((IoError, Some (lit "failed to start the repair task")), m,
           finish_ (lit "file_repair") JobRegistry.Failed (lit "could not start the repair task") now2 j)
  | (st, _, m) => ((st, None), m, j)
  end.

Definition repairCancel (j : Jobs) : Jobs :=
  checkCancel (requestCancel (lit "file_repair") (if rBusy (repair j) then set_repair (repair j) true j else j)).

Definition repairStopRequested (j : Jobs) : bool :=
  repairCancelled j || JobRegistry.cancelRequested (lit "file_repair") (registry j).

Definition repairPublish (r : RepairReport) (j : Jobs) : Jobs := set_repair r (repairCancelled j) j.

(** [st], [text]: what the repair ends with. *)
Definition repairEnd (r : RepairReport) (st : JobRegistry.JobState) (text : bytes) (now : Z) (j : Jobs) : Jobs :=
  finish_ (lit "file_repair") st text now (repairPublish r j).

(** ** The transfer *)

Definition transferStart (created : bool) (req : TransferRequest) (m : Mgr) (j : Jobs) : Answer * Mgr * Jobs :=
  if negb supported then ((Unsupported, None), m, j)
  else match resolve (TransferEngine.srcVolume req) m with
  | (StOk, _, m) =>
      match resolve (TransferEngine.dstVolume req) m with
      | (StOk, _, m) =>
          if TransferEngine.busy (transfer j) || transferTask j then ((Busy, Some (lit "another transfer is already running")), m, j)
          else
            let claimed := TransferEngine.mkReport TransferEngine.Idle true false false false (TransferEngine.op req) (TransferEngine.srcVolume req)
                             (TransferEngine.dstVolume req) (TransferEngine.dstPath req) [] 0 0 0 0 0 0 0 0 0 0 0 [] [] in
            if created then ((StOk, None), m, set_transfer claimed true req false j)
            else
              let failed := TransferEngine.mkReport TransferEngine.Done false true false false (TransferEngine.op req) (TransferEngine.srcVolume req)
                              (TransferEngine.dstVolume req) (TransferEngine.dstPath req) [] 0 0 0 0 0 0 0 0 0 0 0 (lit "failed to start the transfer task") [] in
              ((IoError, Some (lit "failed to start the transfer task")), m, set_transfer failed false req false j)
      | (st, _, m) => ((st, Some (lit "the destination volume is not available")), m, j)
      end
  | (st, _, m) => ((st, Some (lit "the source volume is not available")), m, j)
  end.

Definition transferAnnounce (req : TransferRequest) (now now2 : Z) : Jobs → Jobs :=
  let n := Z.of_nat (length (TransferEngine.paths req)) in
  begin_ (lit "transfer") (lit "jobs.transfer")
    (dec n ++ (if n =? 1 then lit " entry -> " else lit " entries -> ") ++ TransferEngine.dstVolume req ++ TransferEngine.dstPath req)
    0 JobRegistry.UnitBytes now now2.

Definition transferCancel (j : Jobs) : Jobs :=
  requestCancel (lit "transfer") (if TransferEngine.busy (transfer j) then set_transfer (transfer j) (transferTask j) (transferReq j) true j else j).

Definition transferStopRequested (j : Jobs) : bool := transferCancelled j.

Definition clamp (value : Z) : Z := if 0xFFFFFFFF <? value then 0xFFFFFFFF else value.

Definition onTransferProgress (r : TransferReport) (j : Jobs) : Jobs :=
  onRegistry (JobRegistry.progress (lit "transfer") (clamp (TransferEngine.doneBytes r)) (clamp (TransferEngine.totalBytes r)) (TransferEngine.current r))
    (set_transfer r (transferTask j) (transferReq j) (transferCancelled j) j).

Definition transferSummary (r : TransferReport) : bytes :=
  dec (TransferEngine.filesDone r) ++ lit " file(s)" ++
  (if 0 <? TransferEngine.skipped r then lit ", " ++ dec (TransferEngine.skipped r) ++ lit " skipped" else []) ++
  (if 0 <? TransferEngine.failed r then lit ", " ++ dec (TransferEngine.failed r) ++ lit " failed" else []) ++
  (if bool_decide (TransferEngine.error r = []) then [] else lit ": " ++ TransferEngine.error r).

Definition transferState (r : TransferReport) : JobRegistry.JobState :=
  if TransferEngine.cancelled r then JobRegistry.Cancelled else if 0 <? TransferEngine.failed r then JobRegistry.Failed else JobRegistry.Done_.

(** The row is closed, and last of all the handle. *)
Definition transferEnd (r : TransferReport) (now : Z) (j : Jobs) : Jobs :=
  let j := finish_ (lit "transfer") (transferState r) (transferSummary r) now j in
  set_transfer (transfer j) false (transferReq j) (transferCancelled j) j.

(** The task when nothing else happens meanwhile but [cancel]. *)
Definition transferTask_ (n : nat) (cancel : nat → bool) (now : Z) (m : Mgr) (j : Jobs) : option (Mgr * Jobs) :=
  match TransferEngine.run (K := PosixSink.Sink) cancel (transferReq j) n (TransferEngine.mkRunner m TransferEngine.emptyReport 0 [] 0 []) with
  | None => None
  | Some (_, r) =>
      let j := fold_right onTransferProgress j (TransferEngine.told r) in
      Some (TransferEngine.vols r, transferEnd (TransferEngine.report r) now j)
  end.

(** The look of a format at the two reports; the switch and the erasing come after it. *)
Definition formatAsks (id : bytes) (m : Mgr) (j : Jobs) : option Answer * Mgr := formatLook (busy (check j)) (rBusy (repair j)) id m.

End Jobs.

(** ** The clients *)

Record Gate := mkGate { subnetFilter : Subnet.Filter; foreignBlocked : Z; lastForeignLogMs : Z }.

Definition kForeignLogMs : Z := 5000.

Definition applyAccessFilter (allowOwnSubnet : bool) (serverIp subnet : bytes) (g : Gate) : Gate :=
  mkGate (Subnet.apply (Subnet.mkSettings allowOwnSubnet serverIp subnet)) (foreignBlocked g) (lastForeignLogMs g).

(** Whether the client is let in, whether a line is written. *)
Definition allowClient (client now : Z) (g : Gate) : bool * bool * Gate :=
  if negb (Subnet.active (subnetFilter g)) then (true, false, g)
  else if client =? 0 then (true, true, g)
  else if Subnet.contains (Subnet.network_ (subnetFilter g)) (Subnet.mask_ (subnetFilter g)) client then (true, false, g)
  else
    let blocked := u32 (foreignBlocked g + 1) in
    if (blocked =? 1) || (kForeignLogMs <=? u32 (now - lastForeignLogMs g)) then (false, true, mkGate (subnetFilter g) blocked now)
    else (false, false, mkGate (subnetFilter g) blocked (lastForeignLogMs g)).

(** ** What runs *)

#[local] Existing Instance TransferEngine.FileStatus_eq.

(** The manager, the reports, and how many tasks of each kind there are; of the formats,
    those that have looked and those that have set the switch. *)
Record World (layout : Layout) (P : Type) := mkWorld {
  mgr : Manager layout P; jobs : Jobs; checks : nat; repairs : nat; transfers : nat; looked : nat; erasing : nat }.
#[global] Arguments mkWorld {layout P}.
#[global] Arguments mgr {layout P}.
#[global] Arguments jobs {layout P}.
#[global] Arguments checks {layout P}.
#[global] Arguments repairs {layout P}.
#[global] Arguments transfers {layout P}.
#[global] Arguments looked {layout P}.
#[global] Arguments erasing {layout P}.

Section World.
Context {layout : Layout} {P : Type} `{Posix P, Device P} (supported : bool) (mb : Z).
#[local] Abbreviation W := (World layout P).

Definition started (a : Answer) : nat := if bool_decide (a.1 = StOk) then 1 else 0.

(** A request, a step of a task that exists, or its end; in any order. *)
Inductive step (w : W) : W → Prop :=
  | step_checkStart created id a m j : checkStart supported mb created id (mgr w) (jobs w) = (a, m, j) →
      step w (mkWorld m j (started a + checks w) (repairs w) (transfers w) (looked w) (erasing w))
  | step_checkAnnounce id now now2 : step w (mkWorld (mgr w) (checkAnnounce mb id now now2 (jobs w)) (checks w) (repairs w) (transfers w) (looked w) (erasing w))
  | step_checkProgress n p r : checks w = S n → step w (mkWorld (mgr w) (checkSetProgress p r (jobs w)) (S n) (repairs w) (transfers w) (looked w) (erasing w))
  | step_checkCancel : step w (mkWorld (mgr w) (checkCancel (jobs w)) (checks w) (repairs w) (transfers w) (looked w) (erasing w))
  | step_checkEnd n r now : checks w = S n → step w (mkWorld (mgr w) (checkEnd r now (jobs w)) n (repairs w) (transfers w) (looked w) (erasing w))
  | step_repairStart created id now now2 a m j : repairStart supported created id now now2 (mgr w) (jobs w) = (a, m, j) →
      step w (mkWorld m j (checks w) (started a + repairs w) (transfers w) (looked w) (erasing w))
  | step_repairPublish n r : repairs w = S n → rBusy r = true → step w (mkWorld (mgr w) (repairPublish r (jobs w)) (checks w) (S n) (transfers w) (looked w) (erasing w))
  | step_repairCancel : step w (mkWorld (mgr w) (repairCancel (jobs w)) (checks w) (repairs w) (transfers w) (looked w) (erasing w))
  | step_repairEnd n r st text now : repairs w = S n → rBusy r = false →
      step w (mkWorld (mgr w) (repairEnd r st text now (jobs w)) (checks w) n (transfers w) (looked w) (erasing w))
  | step_transferStart created req a m j : transferStart supported created req (mgr w) (jobs w) = (a, m, j) →
      step w (mkWorld m j (checks w) (repairs w) (started a + transfers w) (looked w) (erasing w))
  | step_transferAnnounce req now now2 : step w (mkWorld (mgr w) (transferAnnounce req now now2 (jobs w)) (checks w) (repairs w) (transfers w) (looked w) (erasing w))
  | step_transferProgress n r : transfers w = S n → step w (mkWorld (mgr w) (onTransferProgress r (jobs w)) (checks w) (repairs w) (S n) (looked w) (erasing w))
  | step_transferCancel : step w (mkWorld (mgr w) (transferCancel (jobs w)) (checks w) (repairs w) (transfers w) (looked w) (erasing w))
  | step_transferEnd n r now : transfers w = S n → TransferEngine.busy (transfer (jobs w)) = false →
      step w (mkWorld (mgr w) (transferEnd r now (jobs w)) (checks w) (repairs w) n (looked w) (erasing w))
  | step_formatLook id m : formatAsks id (mgr w) (jobs w) = (None, m) →
      step w (mkWorld m (jobs w) (checks w) (repairs w) (transfers w) (S (looked w)) (erasing w))
  | step_formatSet n : looked w = S n →
      step w (mkWorld (set_formatting true (mgr w)) (jobs w) (checks w) (repairs w) (transfers w) n (S (erasing w)))
  | step_formatEnd n id : erasing w = S n →
      step w (mkWorld (formatErase id (mgr w)).2 (jobs w) (checks w) (repairs w) (transfers w) (looked w) n)
  | step_manager m : formatting m = formatting (mgr w) →
      step w (mkWorld m (jobs w) (checks w) (repairs w) (transfers w) (looked w) (erasing w)).

(** The reports tell what runs. *)
Definition honest (w : W) : Prop :=
  checks w = (if busy (check (jobs w)) then 1 else 0)%nat ∧ repairs w = (if rBusy (repair (jobs w)) then 1 else 0)%nat ∧
  transfers w = (if transferTask (jobs w) then 1 else 0)%nat ∧ (TransferEngine.busy (transfer (jobs w)) = true → transferTask (jobs w) = true).

Lemma resolve_found id (m : Manager layout P) m' : resolve id m ≠ (StOk, None, m').
Proof. unfold resolve. destruct (find_ id m) as [[vol|] m1]; [|done]. destruct (isMounted id m1); cbn [negb]; [|done]. by destruct (formatting m1). Qed.

(** What a start does to the reports: nothing, or it takes the free place. *)
Lemma checkStart_places created id m j : let '(a, _, j') := checkStart (layout := layout) supported mb created id m j in
  repair j' = repair j ∧ transfer j' = transfer j ∧ transferTask j' = transferTask j ∧
  (if bool_decide (a.1 = StOk) then busy (check j) = false ∧ busy (check j') = true else busy (check j') = busy (check j)).
Proof.
  unfold checkStart. pose proof (resolve_found id m) as Hx. destruct (resolve id m) as [[[] [mount|]] m']; try by split_and!. all: try by destruct (Hx m'). destruct supported; cbn [negb]; [|by split_and!].
  destruct (formatting m'); [by split_and!|]. destruct (busy (check j)) eqn:E; [by split_and!|]. by destruct created; split_and!.
Qed.

Lemma repairStart_places created id now now2 m j : let '(a, _, j') := repairStart (layout := layout) supported created id now now2 m j in
  check j' = check j ∧ transfer j' = transfer j ∧ transferTask j' = transferTask j ∧
  (if bool_decide (a.1 = StOk) then rBusy (repair j) = false ∧ rBusy (repair j') = true else rBusy (repair j') = rBusy (repair j)).
Proof.
  unfold repairStart. pose proof (resolve_found id m) as Hx. destruct (resolve id m) as [[[] [mount|]] m']; try by split_and!. all: try by destruct (Hx m'). destruct supported; cbn [negb]; [|by split_and!].
  destruct (formatting m'); [by split_and!|]. destruct (busy (check j)); [by split_and!|].
  destruct (negb (finished (check j)) || _ || _ || _); [by split_and!|]. destruct (rBusy (repair j)) eqn:E; [by split_and!|]. by destruct created; split_and!.
Qed.

Lemma transferStart_places created req m j : let '(a, _, j') := transferStart (layout := layout) supported created req m j in
  check j' = check j ∧ repair j' = repair j ∧ transferTask j' = (if bool_decide (a.1 = StOk) then true else transferTask j) ∧
  (a.1 = StOk → transferTask j = false) ∧ (TransferEngine.busy (transfer j') = true → transferTask j' = true ∨ TransferEngine.busy (transfer j) = true).
Proof.
  unfold transferStart. destruct supported; cbn [negb]; [|by split_and!; auto]. destruct (resolve _ m) as [[[] vol] m1]; try by split_and!; auto.
  destruct (resolve _ m1) as [[[] vol2] m2]; try by split_and!; auto. destruct (TransferEngine.busy (transfer j)) eqn:E; [by split_and!; auto|].
  destruct (transferTask j) eqn:E2; [by split_and!; auto|]. by destruct created; split_and!; auto.
Qed.

Lemma step_honest w w' : step w w' → honest w → honest w'.
Proof.
  intros St (Hc & Hr & Ht & Hb). destruct St; unfold honest; cbn [mgr jobs checks repairs transfers].
  - pose proof (checkStart_places created id (mgr w) (jobs w)) as Hp. rewrite H1 in Hp. destruct Hp as (-> & -> & -> & Hp). unfold started.
    split_and!; [|done..]. destruct (bool_decide (a.1 = StOk)); [destruct Hp as [Hp ->]; rewrite Hp in Hc; by rewrite Hc|by rewrite Hp].
  - by split_and!.
  - split_and!; [|done..]. cbn. congruence.
  - unfold checkCancel. destruct (busy (check (jobs w))) eqn:E; cbn; rewrite ?E; by split_and!.
  - destruct (busy (check (jobs w))); [|congruence]. split_and!; [cbn; congruence|done..].
  - pose proof (repairStart_places created id now now2 (mgr w) (jobs w)) as Hp. rewrite H1 in Hp. destruct Hp as (-> & -> & -> & Hp). unfold started.
    split_and!; [done| |done..]. destruct (bool_decide (a.1 = StOk)); [destruct Hp as [Hp ->]; rewrite Hp in Hr; by rewrite Hr|by rewrite Hp].
  - split_and!; [done| |done..]. cbn. rewrite H2. destruct (rBusy (repair (jobs w))); congruence.
  - unfold repairCancel, checkCancel. destruct (rBusy (repair (jobs w))) eqn:E; cbn; destruct (busy (check (jobs w))) eqn:E2; cbn; rewrite ?E, ?E2; by split_and!.
  - split_and!; [done| |done..]. cbn. rewrite H2. destruct (rBusy (repair (jobs w))); congruence.
  - pose proof (transferStart_places created req (mgr w) (jobs w)) as Hp. rewrite H1 in Hp. destruct Hp as (-> & -> & E1 & E2 & E3). unfold started.
    split_and!; [done|done|..].
    + rewrite E1. case_bool_decide as Ha; [|done]. rewrite (E2 Ha) in Ht. by rewrite Ht.
    + intros Hx. destruct (E3 Hx) as [|Hy]; [done|]. rewrite E1. case_bool_decide; auto.
  - by split_and!.
  - destruct (transferTask (jobs w)) eqn:E; [|congruence]. split_and!; try done; cbn; rewrite E; congruence.
  - unfold transferCancel. destruct (TransferEngine.busy (transfer (jobs w))) eqn:E; cbn; rewrite ?E; split_and!; auto.
  - destruct (transferTask (jobs w)) eqn:E; [|congruence]. split_and!; try done; cbn; congruence.
  - by split_and!.
  - by split_and!.
  - by split_and!.
  - by split_and!.
Qed.

(** The switch of a format stays as it is while a volume is looked for, and refuses. *)
Lemma resolve_formatting id (m : Manager layout P) : formatting m = true → (resolve id m).1.1 ≠ StOk.
Proof.
  intros Hf. unfold resolve. assert (E : formatting (find_ id m).2 = true) by (unfold find_, refresh; cbn [snd]; by repeat case_match).
  destruct (find_ id m) as [[vol|] m1]; [|done]. cbn [snd] in E. rewrite E.
  by destruct (negb (isMounted id m1)).
Qed.

(** C28: whatever is asked and in whatever order the tasks go on and end, at most one check,
    one repair and one transfer run.  The reports of the check and of the repair say exactly
    whether one runs, and a transfer whose report says busy has its task - the report says
    done a moment before the task is gone, and a new transfer still waits for the task.  A
    start that succeeds found none running.  A format passes its look only while neither a
    check nor a repair runs, and while the switch of a format is set none of the three
    starts; between the look and the switch one can. *)
Theorem tasks_single_flight m (w : W) : rtc step (mkWorld m idle 0 0 0 0 0) w →
  checks w = (if busy (check (jobs w)) then 1 else 0)%nat ∧ repairs w = (if rBusy (repair (jobs w)) then 1 else 0)%nat ∧
  transfers w = (if transferTask (jobs w) then 1 else 0)%nat ∧
  (TransferEngine.busy (transfer (jobs w)) = true → transfers w = 1%nat) ∧
  (∀ created id a m' j', checkStart supported mb created id (mgr w) (jobs w) = (a, m', j') → a.1 = StOk →
     checks w = 0%nat ∧ formatting (mgr w) = false) ∧
  (∀ created id now now2 a m' j', repairStart supported created id now now2 (mgr w) (jobs w) = (a, m', j') → a.1 = StOk →
     checks w = 0%nat ∧ repairs w = 0%nat ∧ formatting (mgr w) = false) ∧
  (∀ created req a m' j', transferStart supported created req (mgr w) (jobs w) = (a, m', j') → a.1 = StOk →
     transfers w = 0%nat ∧ formatting (mgr w) = false) ∧
  (∀ id m', formatAsks id (mgr w) (jobs w) = (None, m') → checks w = 0%nat ∧ repairs w = 0%nat ∧ formatting m' = false).
Proof.
  intros Hw. assert (Hh : honest w).
  { assert (Hstart : honest (mkWorld (P := P) m idle 0 0 0 0 0)) by by split_and!.
    induction Hw as [|w1 w2 w3 St _ IH]; [done|]. apply IH. by eapply step_honest. }
  destruct Hh as (Hc & Hr & Ht & Hb). split_and!; [done..| | | | |].
  - intros E. by rewrite Ht, (Hb E).
  - intros created id a m' j' E Ha. pose proof (checkStart_places created id (mgr w) (jobs w)) as Hp. rewrite E in Hp. destruct Hp as (_ & _ & _ & Hp).
    rewrite bool_decide_eq_true_2 in Hp by done. destruct Hp as [Hp _]. rewrite Hc, Hp. split; [done|].
    apply not_true_is_false. intros Hf. pose proof (resolve_formatting id _ Hf) as Hn. unfold checkStart in E.
    destruct (resolve id (mgr w)) as [[[] vol] m1]; cbn in Hn; try by destruct Hn. all: by injection E as <- _ _.
  - intros created id now now2 a m' j' E Ha. pose proof (repairStart_places created id now now2 (mgr w) (jobs w)) as Hp. rewrite E in Hp.
    destruct Hp as (_ & _ & _ & Hp). rewrite bool_decide_eq_true_2 in Hp by done. destruct Hp as [Hp _]. rewrite Hr, Hp, Hc.
    pose proof (resolve_formatting id (mgr w)) as Hn. pose proof (resolve_found id (mgr w)) as Hx. unfold repairStart in E.
    destruct (resolve id (mgr w)) as [[[] vol] m1]; cbn in Hn; try by injection E as <- _ _. destruct vol; [|by destruct (Hx m1)].
    destruct (negb supported); [by injection E as <- _ _|]. destruct (formatting m1); [by injection E as <- _ _|].
    destruct (busy (check (jobs w))); [by injection E as <- _ _|]. split_and!; try done.
    apply not_true_is_false. intros Hf. by apply Hn.
  - intros created req a m' j' E Ha. pose proof (transferStart_places created req (mgr w) (jobs w)) as Hp. rewrite E in Hp. destruct Hp as (_ & _ & _ & Hp & _).
    rewrite Ht, (Hp Ha). split; [done|]. apply not_true_is_false. intros Hf. pose proof (resolve_formatting (TransferEngine.srcVolume req) _ Hf) as Hn.
    unfold transferStart in E. destruct (negb supported); [by injection E as <- _ _|].
    destruct (resolve _ (mgr w)) as [[[] vol] m1]; cbn in Hn; try by destruct Hn. all: by injection E as <- _ _.
  - intros id m'. unfold formatAsks, formatLook. destruct (find_ id (mgr w)) as [[vol|] m1]; [|done]. destruct (formatting m1) eqn:Ef; [done|].
    destruct (busy (check (jobs w))); [done|]. destruct (rBusy (repair (jobs w))); [done|]. by intros [= <-].
Qed.

End World.

(** ** Runs *)

Section Runs.
Import PosixFileOperations(Volume, MemoryVolume, onVolume) TransferRuns(quietDevice, volumes, sample, moveBoth).
#[local] Existing Instances MemoryVolume quietDevice.

#[local] Abbreviation fresh := (mkManager (layout := volumes) (onVolume sample) [lit "fat"; lit "sdcard"] false 0 0).

Lemma tasks_single_flight_witness :
  let r := checkStart true 64 true (lit "fat") fresh idle in
  rtc (step true 64) (mkWorld fresh idle 0 0 0 0 0) (mkWorld r.1.2 r.2 1 0 0 0 0) ∧ ∀ m', formatAsks (lit "fat") r.1.2 r.2 ≠ (None, m').
Proof.
  assert (St : rtc (step true 64) (mkWorld fresh idle 0 0 0 0 0) (mkWorld (checkStart true 64 true (lit "fat") fresh idle).1.2 (checkStart true 64 true (lit "fat") fresh idle).2 1 0 0 0 0)).
  { apply rtc_once. refine (step_checkStart true 64 (mkWorld fresh idle 0 0 0 0 0) true (lit "fat") (StOk, None) (checkStart true 64 true (lit "fat") fresh idle).1.2 (checkStart true 64 true (lit "fat") fresh idle).2 _).
    vm_compute. reflexivity. }
  split; [exact St|]. intros m' E. pose proof (tasks_single_flight true 64 fresh _ St) as (_ & _ & _ & _ & _ & _ & _ & Hf). by destruct (Hf (lit "fat") m' E) as [? _].
Defined.

(** The look and the switch of a format are apart: a check that starts in between walks the
    volume while it is erased. *)
Example format_meets_check : ∃ w, rtc (step true 64) (mkWorld fresh idle 0 0 0 0 0) w ∧
  (checks w, erasing w, busy (check (jobs w)), formatting (mgr w)) = (1%nat, 1%nat, true, true).
Proof.
  pose (m := (formatAsks (lit "fat") fresh idle).2). pose (r := checkStart true 64 true (lit "fat") m idle).
  assert (E1 : formatAsks (lit "fat") fresh idle = (None, m)) by (vm_compute; reflexivity).
  assert (E2 : checkStart true 64 true (lit "fat") m idle = ((StOk, None), r.1.2, r.2)) by (vm_compute; reflexivity).
  exists (mkWorld (set_formatting true r.1.2) r.2 1 0 0 0 1). split; [|vm_compute; reflexivity].
  eapply rtc_l; [exact (step_formatLook true 64 (mkWorld fresh idle 0 0 0 0 0) (lit "fat") m E1)|].
  eapply rtc_l; [exact (step_checkStart true 64 (mkWorld m idle 0 0 0 1 0) true (lit "fat") _ _ _ E2)|].
  exact (rtc_once _ _ (step_formatSet true 64 (mkWorld r.1.2 r.2 1 0 0 1 0) 0 eq_refl)).
Qed.

(** A whole transfer, from the request to the row that leaves the registry. *)
Example transfer_task_runs :
  let '(a, m, j) := transferStart true true moveBoth fresh idle in
  let j := transferAnnounce moveBoth 1 1 j in
  (λ x : Manager volumes Volume * Jobs, (TransferEngine.filesDone (transfer x.2), transferTask x.2, JobRegistry.contains (lit "transfer") (registry x.2))) <$>
    transferTask_ 9 (λ _, false) 5 m j = Some (2, false, false).
Proof. vm_compute. reflexivity. Qed.

(** The row is announced after the task was created: a task that ends first leaves a row
    that runs for ever. A repair announces itself before. *)
Example transfer_announced_too_late :
  let '(a, m, j) := transferStart true true moveBoth fresh idle in
  match transferTask_ 9 (λ _, false) 5 m j with
  | Some (m, j) => let j := transferAnnounce moveBoth 6 6 j in (transferTask j, JobRegistry.contains (lit "transfer") (registry j)) = (false, true)
  | None => False
  end.
Proof. vm_compute. reflexivity. Qed.

(** What the page of jobs asks for reaches the registry: a repair looks there, a transfer
    looks only at its own switch. *)
Example registry_cancel_unheard :
  let '(a, m, j) := transferStart true true moveBoth fresh idle in
  let j := requestCancel (lit "transfer") (transferAnnounce moveBoth 1 1 j) in
  (JobRegistry.cancelRequested (lit "transfer") (registry j), transferStopRequested j, transferStopRequested (transferCancel j)) = (true, false, true).
Proof. vm_compute. reflexivity. Qed.

(** A format does not ask for transfers. *)
Example format_during_transfer :
  let '(a, m, j) := transferStart true true moveBoth fresh idle in
  (TransferEngine.busy (transfer j), (formatAsks (lit "fat") m j).1) = (true, None).
Proof. vm_compute. reflexivity. Qed.

End Runs.

End FileJobs.
