(* ===== verification/LogFile.v ===== *)
(** * Log files

    src/core/LogFileFormat.h: the stamp of a line, the name of an archive, the tail that
    survives; LogFileSizes.h: the sizes that can be chosen; LogFileWriter.cpp: one growing
    file that goes to the card when it is full, over the calls of the C library. *)
From S2P Require Import Prelude Text PathUtil FileShell TimeMath PosixFiles.
Import PosixFileOperations(PosixLaws, file, stat_law, mkdir_law, open_ab_law, open_ab_makes, open_rb_law, open_wb_law, open_wb_empties, read_law, write_others, write_law, flush_law, close_law, flush_others, close_others, flush_prefix, close_prefix, kept, capacity_law, unlink_law, unlink_removes).
#[local] Open Scope Z_scope.

Module LogFileFormat.

Definition kLogFileDefaultMaxBytes : Z := 64 * 1024.
Definition kLogFileLiveFolder : bytes := lit "logs".
Definition kLogFileKeepLines : nat := 10.
Definition kLogFileMaxArchiveAttempts : Z := 10.

Record LogDate := mkDate { year : Z; month : Z; day : Z }.
Record LogStamp := mkStamp { sYear : Z; sMonth : Z; sDay : Z; sHour : Z; sMinute : Z; sSecond : Z; clockSet : bool }.

Definition epoch : LogDate := mkDate 1970 1 1.
Definition noStamp : LogStamp := mkStamp 1970 1 1 0 0 0 false.
Definition kLogNoClockPrefix : bytes := lit "[----.--.-- --:--:--]".

Definition kTmYearBase : Z := 1900.
Definition kTmMonthBase : Z := 1.

(** The fields of [struct tm]. *)
Record Tm := mkTm { tm_year : Z; tm_mon : Z; tm_mday : Z; tm_hour : Z; tm_min : Z; tm_sec : Z }.

Definition logStampFromLocal (local : Tm) (set : bool) : LogStamp :=
  if negb set then noStamp
  else mkStamp (tm_year local + kTmYearBase) (tm_mon local + kTmMonthBase) (tm_mday local) (tm_hour local) (tm_min local) (tm_sec local) true.

#[local] Abbreviation dot := ([46] : bytes).
#[local] Abbreviation colon := ([58] : bytes).

Definition dateText (d : LogDate) : bytes :=
  TimeMath.padded 4 (year d) ++ dot ++ TimeMath.padded 2 (month d) ++ dot ++ TimeMath.padded 2 (day d).

(** A buffer of 32 holds 31 characters of text. *)
Definition logStampPrefix (s : LogStamp) : bytes :=
  if negb (clockSet s) then kLogNoClockPrefix
  else take 31 (lit "[" ++ dateText (mkDate (sYear s) (sMonth s) (sDay s)) ++ lit " " ++
         TimeMath.padded 2 (sHour s) ++ colon ++ TimeMath.padded 2 (sMinute s) ++ colon ++ TimeMath.padded 2 (sSecond s) ++ lit "]").

Definition logRangeName (first last : LogDate) : bytes := take 31 (dateText first ++ lit "-" ++ dateText last).

(** One level per segment that says something. *)
Fixpoint levels (path : bytes) (segments : list bytes) : list bytes :=
  match segments with
  | [] => []
  | s :: segments =>
      if bool_decide (s = []) then levels path segments
      else (path ++ 47 :: s) :: levels (path ++ 47 :: s) segments
  end.

Definition logFolderChain (mountPoint archiveFolder rangeName : bytes) : list bytes :=
  if bool_decide (mountPoint = []) || bool_decide (archiveFolder = []) || bool_decide (rangeName = []) then []
  else
    let base := if List.last mountPoint 0 =? 47 then List.removelast mountPoint else mountPoint in
    if bool_decide (base = []) then []
    else
      let out := levels base (split_on 47 archiveFolder) in
      if bool_decide (out = []) then [] else out ++ [List.last out [] ++ 47 :: rangeName].

(** From [start] back to the newline that opens the tail; how many were found. *)
Fixpoint backTo (text : bytes) (start found n : nat) : nat * nat :=
  match start with
  | O => (0, found)%nat
  | S start' =>
      if (found <? n)%nat then backTo text start' (if nth start' text 0 =? 10 then S found else found) n
      else (start, found)
  end.

Definition logTail (text : bytes) (n : nat) : bytes :=
  if (n =? 0)%nat || bool_decide (text = []) then []
  else
    let stop := if List.last text 0 =? 10 then (length text - 1)%nat else length text in
    let '(start, found) := backTo text stop 0 n in
    let start := if (found =? n)%nat then S start else start in
    take (stop - start) (drop start text) ++ [10].

(** ** What the tail is *)

(** Lines, each closed by its newline. *)
Definition unlines (ls : list bytes) : bytes := concat ((λ l, l ++ [10]) <$> ls).

Lemma unlines_app ls ls' : unlines (ls ++ ls') = unlines ls ++ unlines ls'.
Proof. unfold unlines. by rewrite fmap_app, concat_app. Qed.

Lemma unlines_snoc ls l : unlines (ls ++ [l]) = unlines ls ++ l ++ [10].
Proof. rewrite unlines_app. unfold unlines. cbn. by rewrite app_nil_r. Qed.

(** Going back over what is not a newline finds none. *)
Lemma backTo_line u l rest found n : 10 ∉ l → (found < n)%nat →
  backTo (u ++ l ++ rest) (length (u ++ l)) found n = backTo (u ++ l ++ rest) (length u) found n.
Proof.
  intros Hl Hn. revert rest. induction l as [|c l IH] using rev_ind; intros rest; [by rewrite app_nil_r|].
  apply not_elem_of_app in Hl as [Hl Hc]. replace (length (u ++ l ++ [c])) with (S (length (u ++ l))) by (rewrite !length_app; cbn; lia).
  cbn [backTo]. destruct (Nat.ltb_spec found n) as [_|]; [|lia]. rewrite <- (app_assoc l). cbn [app].
  rewrite (app_assoc u l), nth_middle. destruct (Z.eqb_spec c 10) as [->|_]; [set_solver|]. rewrite <- app_assoc. by apply IH.
Qed.

Lemma backTo_stop text start n : backTo text start n n = (start, n).
Proof. destruct start; cbn [backTo]; [done|]. by rewrite Nat.ltb_irrefl. Qed.

(** Over whole lines: to the newline before the lines that are kept, or to the beginning. *)
Lemma backTo_lines ls l rest found n : Forall (λ l, 10 ∉ l) ls → 10 ∉ l → (found < n)%nat →
  backTo (unlines ls ++ l ++ rest) (length (unlines ls ++ l)) found n =
    if (n - found <=? length ls)%nat
    then ((length (unlines (take (length ls - (n - found) + 1) ls)) - 1)%nat, n)
    else (0%nat, (found + length ls)%nat).
Proof.
  intros Hls. revert Hls l rest found. induction ls as [|x ls IH] using rev_ind; intros Hls l rest found Hl Hn.
  { pose proof (backTo_line [] l rest found n Hl Hn) as E. cbn [unlines fmap list_fmap concat app length] in *. rewrite E. cbn [backTo].
    destruct (Nat.leb_spec (n - found) 0); [lia|]. f_equal. lia. }
  apply Forall_app in Hls as [Hls Hx]. rewrite Forall_singleton in Hx.
  rewrite backTo_line, unlines_snoc by done. rewrite !length_app. cbn [length].
  replace (length (unlines ls) + (length x + 1))%nat with (S (length (unlines ls ++ x))) by (rewrite length_app; lia).
  cbn [backTo]. destruct (Nat.ltb_spec found n) as [_|]; [|lia].
  replace ((unlines ls ++ x ++ [10]) ++ l ++ rest) with (unlines ls ++ x ++ (10 :: l ++ rest)) by by rewrite <- !app_assoc.
  rewrite (app_assoc (unlines ls) x), nth_middle. cbn [Z.eqb Pos.eqb].
  destruct (decide (S found = n)) as [<-|Hne].
  - rewrite backTo_stop. destruct (Nat.leb_spec (S found - found) (length ls + 1)); [|lia]. f_equal.
    rewrite take_ge by (rewrite length_app; cbn; lia). rewrite unlines_snoc, !length_app. cbn [length]. lia.
  - rewrite <- app_assoc, IH by (done || lia). destruct (Nat.leb_spec (n - S found) (length ls)), (Nat.leb_spec (n - found) (length ls + 1)); try lia.
    + replace (length ls + 1 - (n - found) + 1)%nat with (length ls - (n - S found) + 1)%nat by lia. by rewrite take_app_le by lia.
    + f_equal. lia.
Qed.

(** The lines that are kept, and the newline that opens them. *)
Lemma unlines_last ls x n : (0 < n <= length ls)%nat →
  unlines (take (length ls - n + 1) ls) = take (length (unlines (take (length ls - n + 1) ls)) - 1) (unlines ls ++ x) ++ [10] ∧
  unlines ls = unlines (take (length ls - n + 1) ls) ++ unlines (drop (length ls - n + 1) ls).
Proof.
  intros Hn. split; [|by rewrite <- unlines_app, take_drop].
  set (m := (length ls - n + 1)%nat). destruct (exists_last (l := take m ls)) as (t & y & E).
  { intros E. apply (f_equal length) in E. rewrite length_take in E. cbn in E. lia. }
  assert (Els : unlines ls = unlines (t ++ [y]) ++ unlines (drop m ls)) by (rewrite <- E, <- unlines_app; by rewrite take_drop).
  rewrite Els, E, !unlines_snoc, !length_app. cbn [length].
  replace (length (unlines t) + (length y + 1) - 1)%nat with (length (unlines t ++ y)) by (rewrite length_app; lia).
  replace (((unlines t ++ y ++ [10]) ++ unlines (drop m ls)) ++ x) with ((unlines t ++ y) ++ [10] ++ unlines (drop m ls) ++ x) by by rewrite <- !app_assoc.
  by rewrite take_app_length, <- app_assoc.
Qed.

(** The tail is the last lines, whole: of a file whose last line is closed by its
    newline, and of one whose last line is not. *)
Theorem logTail_lines ls l n : Forall (λ l, 10 ∉ l) ls → 10 ∉ l → n ≠ 0%nat →
  logTail (unlines (ls ++ [l])) n = unlines (drop (length ls + 1 - n) (ls ++ [l])) ∧
  (l ≠ [] → logTail (unlines ls ++ l) n = unlines (drop (length ls + 1 - n) (ls ++ [l]))).
Proof.
  intros Hls Hl Hn.
  cut (∀ rest, (let '(start, found) := backTo (unlines ls ++ l ++ rest) (length (unlines ls ++ l)) 0 n in
        let start := if (found =? n)%nat then S start else start in
        take (length (unlines ls ++ l) - start) (drop start (unlines ls ++ l ++ rest)) ++ [10])
       = unlines (drop (length ls + 1 - n) (ls ++ [l]))).
  { intros H. split.
    - rewrite <- (H [10]), unlines_snoc. unfold logTail.
      destruct (Nat.eqb_spec n 0) as [|_]; [done|]. rewrite bool_decide_eq_false_2 by (by destruct (unlines ls), l). cbn [orb].
      rewrite (app_assoc (unlines ls) l [10]), last_last, Z.eqb_refl, <- app_assoc, !length_app. cbn [length].
      replace (length (unlines ls) + (length l + 1) - 1)%nat with (length (unlines ls) + length l)%nat by lia. done.
    - intros Hne. rewrite <- (H []), !app_nil_r. unfold logTail.
      destruct (Nat.eqb_spec n 0) as [|_]; [done|]. rewrite bool_decide_eq_false_2 by (by destruct (unlines ls), l). cbn [orb].
      destruct l as [|c l' _] using rev_ind; [done|]. rewrite app_assoc, last_last.
      destruct (Z.eqb_spec c 10) as [->|_]; [set_solver|]. done. }
  intros rest. rewrite backTo_lines by (done || lia). rewrite Nat.sub_0_r.
  destruct (Nat.leb_spec n (length ls)) as [Hle|Hgt].
  - rewrite Nat.eqb_refl. set (m := (length ls - n + 1)%nat).
    destruct (unlines_last ls [] n ltac:(lia)) as [E1 E2]. fold m in E1, E2.
    assert (Hpos : (0 < length (unlines (take m ls)))%nat) by (rewrite E1, length_app; cbn; lia).
    replace (S (length (unlines (take m ls)) - 1)) with (length (unlines (take m ls))) by lia.
    cbn zeta. rewrite E2, <- !app_assoc, drop_app_length, length_app.
    replace (length (unlines (take m ls)) + length (unlines (drop m ls) ++ l) - length (unlines (take m ls)))%nat
      with (length (unlines (drop m ls) ++ l)) by lia.
    rewrite app_assoc, take_app_length. replace (length ls + 1 - n)%nat with m by lia.
    rewrite drop_app_le by lia. by rewrite unlines_snoc, <- app_assoc.
  - destruct (Nat.eqb_spec (0 + length ls) n); [lia|]. cbn zeta. rewrite drop_0, Nat.sub_0_r, app_assoc, take_app_length.
    replace (length ls + 1 - n)%nat with 0%nat by lia. by rewrite drop_0, unlines_snoc, <- app_assoc.
Qed.

End LogFileFormat.

Module LogFileSizes.

Definition kLogFileSize64Kb : Z := LogFileFormat.kLogFileDefaultMaxBytes.
Definition kLogFileSize128Kb : Z := 128 * 1024.
Definition kLogFileSize256Kb : Z := 256 * 1024.
Definition kLogFileSizes : list Z := [kLogFileSize64Kb; kLogFileSize128Kb; kLogFileSize256Kb].

Definition logFileSizeValid (n : Z) : bool := existsb (λ s, n =? s) kLogFileSizes.
Definition logFileSizeOrDefault (stored : Z) : Z := default kLogFileSize64Kb (List.find (λ s, stored =? s) kLogFileSizes).
Definition logFileSizeIndex (n : Z) : nat := default 0%nat (index_of (λ s, s =? n) kLogFileSizes).

End LogFileSizes.
Module LogFileWriter.
Import LogFileFormat.

(** One [fread] of the copy and of the tail. *)
Definition kCopyChunkBytes : nat := 1024.

(** What a log is: its file, the card it goes to and how it names itself. *)
Record Log := mkLog { livePath : bytes; cardMount : bytes; archiveFolder : bytes; logTitle : bytes }.

Record Writer := mkWriter {
  maxBytes_ : Z; failedAttempts_ : Z; firstRealSeen_ : bool; firstReal_ : LogDate; lastReal_ : LogDate;
  lines_ : Z; archives_ : Z; carryOvers_ : Z;
}.

Definition newWriter (maxBytes : Z) : Writer := mkWriter maxBytes 0 false epoch epoch 0 0 0.

Definition folderOf (path : bytes) : bytes :=
  match PathUtil.lastSlash path with None | Some O => [] | Some k => take k path end.
Definition fileNameOf (path : bytes) : bytes :=
  match PathUtil.lastSlash path with None => path | Some k => drop (k + 1) path end.

Definition rememberStamp (s : LogStamp) (w : Writer) : Writer :=
  if negb (clockSet s) then w
  else
    let date := mkDate (sYear s) (sMonth s) (sDay s) in
    mkWriter (maxBytes_ w) (failedAttempts_ w) true (if firstRealSeen_ w then firstReal_ w else date) date
      (lines_ w) (archives_ w) (carryOvers_ w).

Definition newlines (text : bytes) : Z := Z.of_nat (count_occ Z.eq_dec text 10).

(** Where an archive of the range goes; nowhere when there is no chain. *)
Definition archiveTarget (log : Log) (range : bytes) : option bytes :=
  match List.rev (logFolderChain (cardMount log) (archiveFolder log) range) with
  | [] => None
  | folder :: _ => Some (folder ++ 47 :: fileNameOf (livePath log))
  end.

Section Ops.
Context {S : Type} `{Posix S}.
Variable log : Log.
#[local] Abbreviation live := (livePath log).

Definition isDirectory (path : bytes) (v : S) : bool := match px_stat path v with inr (true, _) => true | _ => false end.

(** [size_t] of 32 bits. *)
Definition liveSize (v : S) : Z := match px_stat live v with inr (false, size) => u32 size | _ => 0 end.

(** Every [fread] but the last brings a byte. *)
Definition readRounds (v : S) : nat := px_capacity v + 1.

Fixpoint readAll (n : nat) (out : bytes) (v : S) : option bytes :=
  match n with
  | O => None
  | Datatypes.S n =>
      let '(got, _) := px_read live (length out) kCopyChunkBytes v in
      if (0 <? length got)%nat then readAll n (out ++ got) v else Some out
  end.

Definition readLive (v : S) : bytes :=
  match px_open_rb live v with
  | Some _ => []
  | None => default [] (readAll (readRounds v) [] v)
  end.

Definition ensureDirectory (dir : bytes) (v : S) : bool * S :=
  if isDirectory dir v then (true, v)
  else let '(err, v) := px_mkdir dir v in (bool_decide (err = None) || isDirectory dir v, v).

Definition ensureLiveDirectory (v : S) : bool * S :=
  let dir := folderOf live in
  if bool_decide (dir = []) || isDirectory dir v then (true, v)
  else
    let parent := folderOf dir in
    if bool_decide (parent = []) || negb (isDirectory parent v) then (false, v)
    else ensureDirectory dir v.

Fixpoint makeLevels (chain : list bytes) (v : S) : bool * S :=
  match chain with
  | [] => (true, v)
  | level :: chain =>
      let '(ok, v) := ensureDirectory level v in
      if ok then makeLevels chain v else (false, v)
  end.

(** [err]: the source's error indicator, which stays set. *)
Fixpoint archiveLoop (n : nat) (target : bytes) (off : nat) (err : bool) (v : S) : option (bool * S) :=
  match n with
  | O => None
  | Datatypes.S n =>
      let '(got, e) := px_read live off kCopyChunkBytes v in
      let err := err || e in
      if (0 <? length got)%nat then
        let '(written, _, v) := px_write target got v in
        if (written =? length got)%nat then archiveLoop n target (off + length got) err v else Some (false, v)
      else Some (negb err, v)
  end.

Definition archiveCopy (n : nat) (target : bytes) (v : S) : option (bool * S) :=
  match archiveLoop n target 0 false v with
  | None => None
  | Some (ok, v) =>
      let '(ok, v) := if ok then let '(err, v) := px_flush target v in (bool_decide (err = None), v) else (false, v) in
      let '(err, v) := px_close target v in
      let ok := ok && bool_decide (err = None) in
      Some (ok, if ok then v else (px_unlink target v).2)
  end.

Definition archiveToCard (range : bytes) (v : S) : bool * S :=
  match archiveTarget log range with
  | None => (false, v)
  | Some target =>
      let '(made, v) := makeLevels (logFolderChain (cardMount log) (archiveFolder log) range) v in
      if negb made then (false, v)
      else match px_open_rb live v with
           | Some _ => (false, v)
           | None =>
               match px_open_ab target v with
               | (Some _, v) => (false, v)
               | (None, v) => default (false, v) (archiveCopy (readRounds v) target v)
               end
           end
  end.

Definition startFresh (content : bytes) (w : Writer) (v : S) : Writer * S :=
  match px_open_wb live v with
  | (Some _, v) => (w, v)
  | (None, v) =>
      let v := if bool_decide (content = []) then v else (px_write live content v).2 in
      let v := (px_close live (px_flush live v).2).2 in
      (mkWriter (maxBytes_ w) (failedAttempts_ w) (firstRealSeen_ w) (firstReal_ w) (lastReal_ w)
         (newlines content) (archives_ w) (carryOvers_ w), v)
  end.

(** No archive: a fresh file with the newest lines, counted. *)
Definition carryOver (w : Writer) (v : S) : Writer * S :=
  let '(w, v) := startFresh (logTail (readLive v) kLogFileKeepLines)
    (mkWriter (maxBytes_ w) (failedAttempts_ w) (firstRealSeen_ w) (firstReal_ w) (lastReal_ w)
       (lines_ w) (archives_ w) (u64 (carryOvers_ w + 1))) v in
  (mkWriter (maxBytes_ w) (failedAttempts_ w) (firstRealSeen_ w) (lastReal_ w) (lastReal_ w)
     (lines_ w) (archives_ w) (carryOvers_ w), v).

Definition withFailed (n : Z) (w : Writer) : Writer :=
  mkWriter (maxBytes_ w) n (firstRealSeen_ w) (firstReal_ w) (lastReal_ w) (lines_ w) (archives_ w) (carryOvers_ w).

(** What goes to [notice_] about a failed archive. *)
Definition failureNotice (attempt : Z) (range : bytes) (v : S) : bytes :=
  logTitle log ++ lit " archive failed (" ++ dec attempt ++ lit " of " ++ dec kLogFileMaxArchiveAttempts ++ lit "): " ++
  cardMount log ++ 47 :: archiveFolder log ++ 47 :: range ++ 47 :: fileNameOf live ++ lit ", " ++
  dec (liveSize v) ++ lit " bytes kept in " ++ live ++
  (if kLogFileMaxArchiveAttempts <=? attempt
   then lit "; giving up and carrying the last " ++ dec (Z.of_nat kLogFileKeepLines) ++ lit " lines" else []).

(** [card]: what [cardMounted_] answers now. The notices come with the state. *)
Definition rotateIfNeeded (card : bool) (incoming : Z) (w : Writer) (v : S) : Writer * list bytes * S :=
  if u32 (liveSize v + incoming + 1) <=? maxBytes_ w then (w, [], v)
  else if negb (firstRealSeen_ w) then (w, [], v)
  else
    let range := logRangeName (firstReal_ w) (lastReal_ w) in
    if negb card then let '(w, v) := carryOver w v in (w, [], v)
    else
      let '(archived, v) := archiveToCard range v in
      if archived then
        let '(w, v) := startFresh []
          (mkWriter (maxBytes_ w) 0 (firstRealSeen_ w) (firstReal_ w) (lastReal_ w) (lines_ w) (u64 (archives_ w + 1)) (carryOvers_ w)) v in
        (mkWriter (maxBytes_ w) (failedAttempts_ w) false (firstReal_ w) (lastReal_ w) 0 (archives_ w) (carryOvers_ w), [], v)
      else
        let attempt := u32 (failedAttempts_ w + 1) in
        let notice := failureNotice attempt range v in
        if kLogFileMaxArchiveAttempts <=? attempt
        then let '(w, v) := carryOver (withFailed 0 w) v in (w, [notice], v)
        else (withFailed attempt w, [notice], v).

Definition setMaxBytes (card : bool) (n : Z) (w : Writer) (v : S) : Writer * list bytes * S :=
  let w := mkWriter n (failedAttempts_ w) (firstRealSeen_ w) (firstReal_ w) (lastReal_ w) (lines_ w) (archives_ w) (carryOvers_ w) in
  if n <? liveSize v then rotateIfNeeded card 0 w v else (w, [], v).

Definition writeLine (text : bytes) (v : S) : bool * S :=
  match px_open_ab live v with
  | (Some _, v) => (false, v)
  | (None, v) =>
      let '(written, _, v) := px_write live text v in
      let '(flushed, v) := px_flush live v in
      let '(closed, v) := px_close live v in
      ((written =? length text)%nat && bool_decide (flushed = None) && bool_decide (closed = None), v)
  end.

Definition append (card : bool) (line : bytes) (stamp : LogStamp) (w : Writer) (v : S) : bool * Writer * list bytes * S :=
  let '(there, v) := ensureLiveDirectory v in
  if negb there then (false, w, [], v)
  else
    let text := line ++ [10] in
    let '(w, notices, v) := rotateIfNeeded card (u32 (Z.of_nat (length text))) w v in
    let '(written, v) := writeLine text v in
    if negb written then (false, w, notices, v)
    else (true, rememberStamp stamp (mkWriter (maxBytes_ w) (failedAttempts_ w) (firstRealSeen_ w) (firstReal_ w) (lastReal_ w)
                  (u64 (lines_ w + 1)) (archives_ w) (carryOvers_ w)), notices, v).

End Ops.

Section Laws.
Context {S : Type} `{PosixLaws S}.
Variable log : Log.
#[local] Abbreviation live := (livePath log).

Lemma ensureDirectory_files dir (v : S) q : file (ensureDirectory dir v).2 q = file v q.
Proof.
  unfold ensureDirectory. destruct (isDirectory dir v); [done|]. pose proof (mkdir_law dir v q) as Hm.
  by destruct (px_mkdir dir v) as [e w].
Qed.

Lemma ensureLiveDirectory_files (v : S) q : file (ensureLiveDirectory log v).2 q = file v q.
Proof. unfold ensureLiveDirectory. destruct (_ || _); [done|]. destruct (_ || _); [done|]. apply ensureDirectory_files. Qed.

Lemma makeLevels_files chain (v : S) q : file (makeLevels chain v).2 q = file v q.
Proof.
  revert v. induction chain as [|level chain IH]; intros v; cbn [makeLevels]; [done|].
  pose proof (ensureDirectory_files level v q) as He. destruct (ensureDirectory level v) as [[] w]; cbn in *; [rewrite IH|]; done.
Qed.

Lemma readRounds_enough c (v : S) : file v live = Some c → (length c < readRounds v)%nat.
Proof. intros Hf%capacity_law. unfold readRounds. lia. Qed.

Lemma readAll_runs c n k (v : S) : file v live = Some c → (k <= length c)%nat → (length c - k < n)%nat →
  ∃ i, readAll log n (take k c) v = Some (take i c) ∧
    ((∀ off m, (px_read live off m v).2 = false) → take i c = c).
Proof.
  intros Hf. revert k. induction n as [|n IH]; intros k Hk Hn; [lia|]. cbn [readAll].
  destruct (read_law live (length (take k c)) kCopyChunkBytes v c Hf) as (m & Hm & Hgot & Herr).
  rewrite (length_take_le c k) in * by lia.
  assert (Hall : (∀ off m, (px_read live off m v).2 = false) → m = kCopyChunkBytes) by (intros Hr; by apply Herr).
  destruct (px_read _ _ _ v) as [got err]. cbn [fst] in Hgot. subst got. clear Herr.
  rewrite length_take, length_drop. destruct (Nat.ltb_spec 0 (m `min` (length c - k))) as [Hl|Hl].
  2:{ exists k. split; [done|]. intros Hr. rewrite (Hall Hr) in Hl. unfold kCopyChunkBytes in Hl. apply take_ge. lia. }
  rewrite take_take_drop.
  replace (take (k + m) c) with (take (k + m `min` (length c - k)) c); [apply IH; lia|].
  destruct (decide (m <= length c - k)%nat); [by rewrite Nat.min_l|]. by rewrite !take_ge by lia.
Qed.

(** The log can be opened and is read without an error. *)
Definition legible (v : S) : Prop := px_open_rb live v = None ∧ ∀ off n, (px_read live off n v).2 = false.

(** What is read of the file is a beginning of it, and all of it when nothing fails. *)
Lemma readLive_prefix (v : S) : ∃ i, readLive log v = take i (default [] (file v live)) ∧
  (legible v → readLive log v = default [] (file v live)).
Proof.
  unfold readLive, legible. pose proof (open_rb_law live v) as Ho.
  destruct (px_open_rb live v) as [e|]; [exists 0%nat; split; [done|by intros []]|].
  destruct (Ho eq_refl) as [c Hc]. rewrite Hc. cbn [default from_option id].
  destruct (readAll_runs c (readRounds v) 0 v Hc) as (i & Hi & Hall); [lia|pose proof (readRounds_enough c v Hc); lia|].
  rewrite take_0 in Hi. exists i. rewrite Hi. split; [done|]. intros [_ Hr]. by apply Hall.
Qed.

(** The copy, from the place it has come to, behind what the archive held before. *)
Lemma archiveLoop_runs c t n target off err (v : S) : live ≠ target → file v live = Some c →
  file v target = Some (t ++ take off c) → (length t <= kept v target)%nat → (off <= length c)%nat → (length c - off < n)%nat →
  ∃ ok w k, archiveLoop log n target off err v = Some (ok, w) ∧ (∀ q, q ≠ target → file w q = file v q) ∧
    file w target = Some (t ++ take k c) ∧ (length t <= kept w target)%nat ∧ (ok = true → take k c = c).
Proof.
  intros Hne. revert off err v. induction n as [|n IH]; intros off err v Hf Ht Hkept Ho Hn; [lia|]. cbn [archiveLoop].
  destruct (read_law live off kCopyChunkBytes v c Hf) as (m & Hm & Hgot & Herr).
  destruct (px_read live off kCopyChunkBytes v) as [got e]. cbn [fst snd] in Hgot, Herr.
  assert (Hlen : length got = (m `min` (length c - off))%nat) by (by rewrite Hgot, length_take, length_drop).
  destruct (Nat.ltb_spec 0 (length got)) as [Hl|Hl].
  - destruct (write_law target got v _ Ht) as (Hw1 & Hw2 & _ & Hw4). pose proof (λ q, write_others target got v q) as Hw3.
    destruct (px_write target got v) as [[written errno] u]. cbn [fst snd] in *.
    assert (Hw : file u target = Some (t ++ take (off + written) c)).
    { rewrite Hw2, <- app_assoc. do 2 f_equal. rewrite Hgot, take_take, Nat.min_l by lia. by rewrite take_take_drop. }
    destruct (Nat.eqb_spec written (length got)) as [->|Hs].
    + destruct (IH (off + length got)%nat (err || e) u) as (ok & w & k & E & H1 & H2 & H3 & H4); [by rewrite Hw3|done|lia|lia|lia|].
      exists ok, w, k. split_and!; [done| |done|done|done]. intros q Hq. by rewrite H1, Hw3.
    + eexists false, u, _. split_and!; [done|exact Hw3|exact Hw|lia|done].
  - eexists _, v, off. split_and!; [done|done|done|done|]. intros Hok%negb_true_iff. apply orb_false_iff in Hok as [_ He].
    rewrite (Herr He) in Hlen. apply take_ge. unfold kCopyChunkBytes in Hlen. lia.
Qed.

(** A stream over what is kept leaves that and a beginning of the rest, whatever fails. *)
Lemma flush_tail target t x (v : S) : file v target = Some (t ++ x) → (length t <= kept v target)%nat →
  ∃ k, file (px_flush target v).2 target = Some (t ++ take k x) ∧ (length t <= kept (px_flush target v).2 target)%nat ∧
    ((px_flush target v).1 = None → take k x = x).
Proof.
  intros Hf Hk. destruct (flush_prefix target v _ Hf) as (j & Hj & H1 & H2 & H3). rewrite take_app_ge in Hj, H3 by lia.
  exists (j - length t)%nat. split_and!; [exact Hj|lia|]. intros E. destruct (H3 E) as [H4 _]. by apply app_inv_head in H4.
Qed.

Lemma close_tail target t x (v : S) : file v target = Some (t ++ x) → (length t <= kept v target)%nat →
  ∃ k, file (px_close target v).2 target = Some (t ++ take k x) ∧ ((px_close target v).1 = None → take k x = x).
Proof.
  intros Hf Hk. destruct (close_prefix target v _ Hf) as (j & Hj & H1 & H2). rewrite take_app_ge in Hj, H2 by lia.
  exists (j - length t)%nat. split; [exact Hj|]. intros E. specialize (H2 E). by apply app_inv_head in H2.
Qed.

(** An archive that was not made whole is removed, with what it held before; if it cannot be,
    that and a beginning of the log stay. *)
Lemma archiveCopy_runs c t n target (v : S) : live ≠ target → file v live = Some c → file v target = Some t →
  (length t <= kept v target)%nat → (length c < n)%nat →
  ∃ ok w, archiveCopy log n target v = Some (ok, w) ∧ (∀ q, q ≠ target → file w q = file v q) ∧
    if ok : bool then file w target = Some (t ++ c) else file w target = None ∨ ∃ k, file w target = Some (t ++ take k c).
Proof.
  intros Hne Hf Ht Hkept Hn. unfold archiveCopy.
  destruct (archiveLoop_runs c t n target 0 false v) as (ok & w & k & -> & H1 & H2 & Hkw & H3); [done|done|by rewrite take_0, app_nil_r|done|lia|lia|].
  set (r := if ok then _ else _).
  assert (Hr : (∀ q, q ≠ target → file r.2 q = file w q) ∧ (length t <= kept r.2 target)%nat ∧
    ∃ j, file r.2 target = Some (t ++ take j c) ∧ (r.1 = true → take j c = c)).
  { unfold r. destruct ok; [|split_and!; [done|done|by exists k]].
    pose proof (λ q, flush_others target w q) as Hfo. destruct (flush_tail target t _ w H2 Hkw) as (j & Hj & Hk' & Hjok).
    destruct (px_flush target w) as [e u]. cbn [fst snd] in *. split_and!; [done|done|]. exists (j `min` k)%nat. rewrite <- take_take.
    split; [done|]. intros E%bool_decide_eq_true. rewrite (Hjok E). by apply H3. }
  destruct r as [ok1 w1]. cbn [fst snd] in Hr. destruct Hr as (Hr1 & Hkr & j & Hr2 & Hr3).
  pose proof (λ q, close_others target w1 q) as Hc. destruct (close_tail target t _ w1 Hr2 Hkr) as (i & Hi & Hiok).
  destruct (px_close target w1) as [e w2]. cbn [fst snd] in *.
  eexists _, _. split_and!; [done| |].
  - intros q Hq. transitivity (file w2 q); [|by rewrite Hc, Hr1, H1]. case_match; [done|]. apply unlink_law. by left.
  - destruct ok1, (bool_decide_reflect (e = None)) as [He|He]; cbn [andb].
    1: by rewrite Hi, (Hiok He), Hr3.
    all: pose proof (unlink_removes target w2) as H5; pose proof (unlink_law target w2 target) as H6;
      destruct (px_unlink target w2) as [[e5|] w3]; cbn [fst snd] in *; [right|left; by apply H5];
      exists (i `min` j)%nat; rewrite H6, <- take_take; [done|by right].
Qed.

(** ** Where an archive goes *)

Lemma levels_under path segments : Forall (λ l, (path ++ [47]) `prefix_of` l) (levels path segments).
Proof.
  revert path. induction segments as [|s segments IH]; intros path; cbn [levels]; [constructor|].
  case_bool_decide; [apply IH|]. assert (Hp : (path ++ [47]) `prefix_of` (path ++ 47 :: s)) by (exists s; by rewrite <- app_assoc).
  constructor; [done|]. eapply Forall_impl; [apply IH|]. intros l Hl. cbn in Hl. etrans; [exact Hp|]. etrans; [|exact Hl]. by eexists.
Qed.

(** The archive is on the card. *)
Lemma archiveTarget_on_card range target : archiveTarget log range = Some target → cardMount log `prefix_of` target.
Proof.
  unfold archiveTarget, logFolderChain. destruct (_ || _); [done|].
  set (base := if _ =? 47 then _ else _). assert (Hb : cardMount log `prefix_of` base ++ [47]).
  { unfold base. destruct (Z.eqb_spec (List.last (cardMount log) 0) 47) as [E|_]; [|by eexists].
    destruct (decide (cardMount log = [])) as [->|Hne]; [by eexists|].
    rewrite <- E, <- app_removelast_last by done. done. }
  case_bool_decide as H1; [done|]. pose proof (levels_under base (split_on 47 (archiveFolder log))) as Hl.
  case_bool_decide as H2; [done|]. rewrite rev_app_distr. cbn [List.rev app]. intros [= <-].
  destruct (exists_last H2) as (init & top & E). rewrite E in Hl |- *. rewrite last_last.
  apply Forall_app in Hl as [_ Hl]. rewrite Forall_singleton in Hl. etrans; [exact Hb|]. etrans; [exact Hl|].
  rewrite <- app_assoc. by eexists.
Qed.

(** ** Keeping the lines *)

Definition onCard (v w : S) (range : bytes) : Prop :=
  ∃ target, archiveTarget log range = Some target ∧ file w target = Some (default [] (file v target) ++ default [] (file v live)).

(** What became of the archive of a range that was not made: as it was, gone, or, where it
    could not be removed, with a beginning of the log behind what it held. *)
Definition unmade (v w : S) (range : bytes) : Prop := ∀ target, archiveTarget log range = Some target →
  file w target = file v target ∨ file w target = None ∨
  ∃ k, file w target = Some (default [] (file v target) ++ take k (default [] (file v live))).

Definition apart (v w : S) (range : bytes) : Prop :=
  ∀ q, q ≠ live → (∀ target, archiveTarget log range = Some target → q ≠ target) → file w q = file v q.

Lemma archiveToCard_outcome range (v : S) : ¬ cardMount log `prefix_of` live →
  let r := archiveToCard log range v in
  apart v r.2 range ∧ file r.2 live = file v live ∧ if r.1 then onCard v r.2 range else unmade v r.2 range.
Proof.
  intros Hcard r. unfold r, apart, onCard, unmade, archiveToCard. clear r. pose proof (archiveTarget_on_card range) as Ht.
  destruct (archiveTarget log range) as [target|]; [|done]. specialize (Ht target eq_refl).
  assert (Hne : live ≠ target) by by intros <-. pose proof (λ q, makeLevels_files (logFolderChain (cardMount log) (archiveFolder log) range) v q) as H1.
  destruct (makeLevels _ v) as [[] v1]; cbn [negb fst snd] in *; [|split_and!; auto; intros ? [= <-]; by left].
  pose proof (open_rb_law live v1) as Hr.
  destruct (px_open_rb live v1) as [e|]; [cbn [fst snd]; split_and!; auto; intros ? [= <-]; by left|].
  destruct (Hr eq_refl) as [c Hc].
  pose proof (λ q, open_ab_law target v1 q) as Ho. pose proof (open_ab_makes target v1) as Hm.
  destruct (px_open_ab target v1) as [[e|] v2]; cbn [fst snd] in *.
  { split_and!; [|by rewrite Ho, H1 by auto|]. - intros q Hq Hqt. by rewrite Ho, H1 by auto.
    - intros ? [= <-]. left. by rewrite Ho, H1 by auto. }
  assert (Hc2 : file v2 live = Some c) by (rewrite Ho; auto). destruct (Hm eq_refl) as [Hm1 Hm2].
  destruct (archiveCopy_runs c (default [] (file v1 target)) (readRounds v2) target v2)
    as (ok & w & -> & H2 & H3); [done|done|done|by rewrite Hm2|by apply readRounds_enough|].
  cbn [default from_option id fst snd]. split_and!.
  - intros q Hq Hqt. specialize (Hqt target eq_refl). by rewrite H2, Ho, H1 by auto.
  - by rewrite H2, Ho, H1 by auto.
  - rewrite H1 in H3. rewrite H1 in Hc. rewrite Hc. destruct ok.
    + exists target. split; [done|exact H3].
    + intros ? [= <-]. destruct H3 as [H3|H3]; auto.
Qed.

(** The calls of a fresh file all work. *)
Definition freshWritten (content : bytes) (v : S) : bool :=
  let '(opened, v) := px_open_wb live v in
  let '(written, _, v) := px_write live content v in
  let '(flushed, v) := px_flush live v in
  bool_decide (opened = None) && (written =? length content)%nat && bool_decide (flushed = None) &&
  bool_decide ((px_close live v).1 = None).

Lemma startFresh_outcome content w (v : S) :
  let r := startFresh log content w v in
  (∀ q, q ≠ live → file r.2 q = file v q) ∧
  (file r.2 live = file v live ∨ ∃ j, file r.2 live = Some (take j content)) ∧
  (freshWritten content v = true → file r.2 live = Some content).
Proof.
  unfold startFresh, freshWritten. pose proof (λ q, open_wb_law live v q) as Ho. pose proof (open_wb_empties live v) as He.
  destruct (px_open_wb live v) as [[e|] v1]; cbn [fst snd] in *.
  { split_and!; [auto|left; auto|]. by destruct (px_write live content v1) as [[n err] v2], (px_flush live v2). }
  destruct (bool_decide_reflect (content = [])) as [->|Hne].
  { assert (Hnil : ∀ u k, file u live = Some [] → take k [] = @nil Z) by (intros; apply take_nil).
    destruct (flush_prefix live v1 [] (He eq_refl)) as (j & Hj & _). rewrite take_nil in Hj.
    destruct (close_prefix live (px_flush live v1).2 [] Hj) as (i & Hi & _). rewrite take_nil in Hi.
    cbn [snd]. split_and!; [|right; by exists 0%nat|done]. intros q Hq. rewrite close_others, flush_others, Ho by auto. done. }
  pose proof (λ q, write_others live content v1 q) as Hw0.
  destruct (write_law live content v1 [] (He eq_refl)) as (_ & Hw & _). rewrite app_nil_l in Hw.
  destruct (px_write live content v1) as [[n err] v2]. cbn [fst snd] in *.
  destruct (flush_prefix live v2 _ Hw) as (j & Hj & _ & _ & Hjok). pose proof (λ q, flush_others live v2 q) as Hf0.
  destruct (px_flush live v2) as [e3 v3]. cbn [fst snd] in *.
  destruct (close_prefix live v3 _ Hj) as (i & Hi & _ & Hiok). pose proof (λ q, close_others live v3 q) as Hc0.
  destruct (px_close live v3) as [e4 v4]. cbn [fst snd] in *. split_and!.
  - intros q Hq. by rewrite Hc0, Hf0, Hw0, Ho by auto.
  - right. exists (i `min` (j `min` n))%nat. by rewrite <- !take_take.
  - intros H4. apply andb_prop in H4 as [H4 H7%bool_decide_eq_true]. apply andb_prop in H4 as [H4 H6%bool_decide_eq_true].
    apply andb_prop in H4 as [_ H5%Nat.eqb_eq]. rewrite Hi, (Hiok H7), (proj1 (Hjok H6)), H5. by rewrite firstn_all.
Qed.

(** The last lines of the log as it stood at [u], whole when the log could be read and the
    calls of the fresh file worked, a beginning of some of them otherwise. *)
Definition carried (u w : S) : Prop :=
  let old := default [] (file u live) in
  (∃ i j, file w live = Some (take j (logTail (take i old) kLogFileKeepLines))) ∧
  (legible u → freshWritten (logTail old kLogFileKeepLines) u = true →
     file w live = Some (logTail old kLogFileKeepLines)).

Lemma carryOver_outcome w (v : S) :
  let r := carryOver log w v in
  (∀ q, q ≠ live → file r.2 q = file v q) ∧ (file r.2 live = file v live ∨ carried v r.2).
Proof.
  unfold carryOver, carried. destruct (readLive_prefix v) as (i & Hi & Hall). set (w0 := mkWriter _ _ _ _ _ _ _ _).
  pose proof (startFresh_outcome (logTail (readLive log v) kLogFileKeepLines) w0 v) as (H1 & H2 & H3).
  destruct (startFresh log _ w0 v) as [w1 v1]. cbn [fst snd] in *. split; [done|].
  destruct H2 as [H2|[j Hj]]; [by left|right]. split; [exists i, j; by rewrite Hj, <- Hi|].
  intros Hl Hw. by rewrite (Hall Hl) in H3; apply H3.
Qed.

(** What a rotation does to the log: nothing, an archive and an empty file, or, with no card
    or after the last attempt, its last lines. *)
Definition rotated (card : bool) (w : Writer) (v v' : S) : Prop :=
  let range := logRangeName (firstReal_ w) (lastReal_ w) in
  file v' live = file v live ∨
  (card = true ∧ onCard v v' range ∧ file v' live = Some []) ∨
  (card = false ∧ carried v v') ∨
  (card = true ∧ kLogFileMaxArchiveAttempts <= u32 (failedAttempts_ w + 1) ∧ carried (archiveToCard log range v).2 v').

Lemma rotateIfNeeded_outcome card incoming w (v : S) : ¬ cardMount log `prefix_of` live →
  let r := rotateIfNeeded log card incoming w v in
  let range := logRangeName (firstReal_ w) (lastReal_ w) in
  apart v r.2 range ∧ rotated card w v r.2 ∧ (onCard v r.2 range ∨ unmade v r.2 range).
Proof.
  intros Hcard. unfold rotateIfNeeded, rotated.
  assert (Hno : unmade v v (logRangeName (firstReal_ w) (lastReal_ w))) by (intros t _; by left).
  destruct (_ <=? _); [split_and!; [done|by left|by right]|].
  destruct (negb (firstRealSeen_ w)); [split_and!; [done|by left|by right]|]. set (range := logRangeName _ _) in *.
  assert (Hlive : ∀ target, archiveTarget log range = Some target → target ≠ live).
  { intros target Ht ->. by apply Hcard, (archiveTarget_on_card range). }
  destruct card; cbn [negb].
  - destruct (archiveToCard_outcome range v Hcard) as (H1 & H2 & H3). destruct (archiveToCard log range v) as [[] v1] eqn:Ea; cbn [fst snd] in *.
    + set (w0 := mkWriter _ _ _ _ _ _ _ _). destruct (startFresh_outcome [] w0 v1) as (H4 & H5 & _).
      destruct (startFresh log [] w0 v1) as [w1 v2]. cbn [fst snd] in *.
      assert (H6 : onCard v v2 range).
      { destruct H3 as (target & Ht & H3). exists target. split; [done|]. rewrite H4, H3; [done|]. by apply Hlive. }
      split_and!; [intros q Hq Hqt; rewrite H4 by done; by apply H1| |by left].
      destruct H5 as [H5|[j Hj]]; [left; congruence|right; left]. by rewrite take_nil in Hj.
    + destruct (Z.leb_spec kLogFileMaxArchiveAttempts (u32 (failedAttempts_ w + 1))) as [Hmax|_]; [|split_and!; [done|by left|by right]].
      destruct (carryOver_outcome (withFailed 0 w) v1) as [H4 H5]. destruct (carryOver log _ v1) as [w1 v2]. cbn [fst snd] in *. split_and!.
      * intros q Hq Hqt. rewrite H4 by done. by apply H1.
      * destruct H5 as [H5|H5]; [left; congruence|by right; right; right].
      * right. intros target Ht. rewrite H4 by by apply Hlive. by apply H3.
  - destruct (carryOver_outcome w v) as [H4 H5]. destruct (carryOver log w v) as [w1 v1]. cbn [fst snd] in *. split_and!; [intros q Hq _; auto| |].
    + destruct H5 as [H5|H5]; [by left|right; right; left; auto].
    + right. intros target Ht. left. by apply H4, Hlive.
Qed.

Lemma writeLine_outcome text (v : S) :
  let r := writeLine log text v in
  (∀ q, q ≠ live → file r.2 q = file v q) ∧
  ∃ k, default [] (file r.2 live) = default [] (file v live) ++ take k text ∧ (r.1 = true → take k text = text ∧ is_Some (file r.2 live)).
Proof.
  unfold writeLine. pose proof (λ q, open_ab_law live v q) as Ho. pose proof (open_ab_makes live v) as Hm.
  destruct (px_open_ab live v) as [[e|] v1]; cbn [fst snd] in *.
  { split; [auto|]. exists 0%nat. rewrite Ho by auto. by rewrite take_0, app_nil_r. }
  destruct (Hm eq_refl) as [Hm1 Hm2].
  destruct (write_law live text v1 _ Hm1) as (_ & Hw & _ & Hk). pose proof (λ q, write_others live text v1 q) as Hw2.
  destruct (px_write live text v1) as [[written errno] v2]. cbn [fst snd] in *. rewrite Hm2 in Hk.
  destruct (flush_tail live _ _ v2 Hw Hk) as (j & Hj & Hkj & Hjok).
  pose proof (λ q, flush_others live v2 q) as Hf. destruct (px_flush live v2) as [e1 v3]. cbn [fst snd] in *.
  destruct (close_tail live _ _ v3 Hj Hkj) as (i & Hi & Hiok).
  pose proof (λ q, close_others live v3 q) as Hc. destruct (px_close live v3) as [e2 v4]. cbn [fst snd] in *.
  split; [intros q Hq; by rewrite Hc, Hf, Hw2, Ho by auto|]. exists (i `min` (j `min` written))%nat. rewrite Hi, <- !take_take. split; [done|].
  intros [[->%Nat.eqb_eq H1%bool_decide_eq_true]%andb_prop H2%bool_decide_eq_true]%andb_prop.
  rewrite (Hiok H2), (Hjok H1), firstn_all. by eauto.
Qed.

(** C29: what a log held survives a line that is added to it.  Afterwards the file holds its
    old text and the line; or the old text is whole on the card, behind what the archive of
    its range held, and the file starts again with the line; or, with no card or after the
    last failed attempt, its last lines and the line are what it holds - all of them when the
    log could be read and the calls of the fresh file worked; where the code does not look at
    a failure of those, a beginning of them.  A line that could not be written whole is not
    reported as written.  No other file is touched but the archive of the range: when it
    could not be made it is as it was, or gone with what it held before, or, where even its
    removal failed, holds a beginning of the log behind that. *)
Theorem append_keeps card line stamp w (v : S) : ¬ cardMount log `prefix_of` live →
  let '(ok, _, _, v') := append log card line stamp w v in
  let v0 := (ensureLiveDirectory log v).2 in
  let range := logRangeName (firstReal_ w) (lastReal_ w) in
  (∀ q, file v0 q = file v q) ∧
  ∃ v1 k, rotated card w v0 v1 ∧ (onCard v0 v1 range ∨ unmade v0 v1 range) ∧ apart v v' range ∧
    (∀ q, q ≠ live → file v' q = file v1 q) ∧
    default [] (file v' live) = default [] (file v1 live) ++ take k (line ++ [10]) ∧
    (ok = true → take k (line ++ [10]) = line ++ [10] ∧ is_Some (file v' live)).
Proof.
  intros Hcard. unfold append. pose proof (λ q, ensureLiveDirectory_files v q) as Hd.
  destruct (ensureLiveDirectory log v) as [[] v0]; cbn [negb snd] in *.
  2:{ split; [done|]. exists v0, 0%nat. rewrite take_0, app_nil_r.
      split_and!; try done; [by left|right; intros t _; by left|by intros q _ _]. }
  destruct (rotateIfNeeded_outcome card (u32 (Z.of_nat (length (line ++ [10])))) w v0 Hcard) as (H1 & H2 & H2').
  destruct (rotateIfNeeded log card _ w v0) as [[w1 notices] v1]. cbn [fst snd] in *.
  destruct (writeLine_outcome (line ++ [10]) v1) as (H3 & k & H4 & H5). destruct (writeLine log _ v1) as [ok v2]. cbn [fst snd] in *.
  assert (Ha : apart v v2 (logRangeName (firstReal_ w) (lastReal_ w))).
  { intros q Hq Hqt. rewrite H3, <- Hd by done. by apply H1. }
  destruct ok; cbn [negb]; (split; [done|]); exists v1, k; split_and!; auto.
Qed.

End Laws.

(** ** Runs *)

#[local] Existing Instances PosixFileOperations.MemoryVolume PosixFileOperations.MemoryVolume_laws.

Definition shortLog : Log := mkLog (lit "/fat/logs/N.log") (lit "/sdcard") (lit "log/N") (lit "NTP log").
Definition day (d : Z) : LogStamp := mkStamp 2026 10 d 12 0 0 true.
Definition seen (d : Z) : Writer := rememberStamp (day d) (newWriter 10).
Definition logged (text : bytes) : PosixFileOperations.Volume :=
  PosixFileOperations.onVolume [(lit "/fat/logs", None); (lit "/fat/logs/N.log", Some text)].

(** A full log is archived and starts again with the line. *)
Example full_log_archived :
  let '(ok, w, notices, v) := append shortLog true (lit "three") (day 12) (seen 12) (logged (lit "one" ++ [10] ++ lit "two" ++ [10])) in
  (ok, archives_ w, lines_ w, notices, v !! lit "/fat/logs/N.log", v !! lit "/sdcard/log/N/2026.10.12-2026.10.12/N.log") =
  (true, 1, 1, [], Some (Some (lit "three" ++ [10])), Some (Some (lit "one" ++ [10] ++ lit "two" ++ [10]))).
Proof. vm_compute. reflexivity. Qed.

(** With no card the last lines go on. *)
Example no_card_carries :
  let '(ok, w, _, v) := append shortLog false (lit "three") (day 12) (seen 12) (logged (lit "one" ++ [10] ++ lit "two" ++ [10])) in
  (ok, carryOvers_ w, lines_ w, v !! lit "/fat/logs/N.log") =
  (true, 1, 3, Some (Some (lit "one" ++ [10] ++ lit "two" ++ [10] ++ lit "three" ++ [10]))).
Proof. vm_compute. reflexivity. Qed.

(** A writer that was started again does not know the lines it found: it counts none of them
    and names the archive after the lines of its own. *)
Example restart_forgets_range :
  let '(_, w, _, v) := append shortLog true (lit "new") (day 12) (newWriter 20) (logged (lit "[2026.10.01] old" ++ [10])) in
  let '(_, _, _, v) := append shortLog true (lit "more") (day 12) (withFailed 0 w) v in
  (lines_ w, v !! lit "/sdcard/log/N/2026.10.12-2026.10.12/N.log") =
  (1, Some (Some (lit "[2026.10.01] old" ++ [10] ++ lit "new" ++ [10]))).
Proof. vm_compute. reflexivity. Qed.

(** A card that takes at most [room] bytes of a file. *)
#[local] Instance FullCard (room : nat) : Posix PosixFileOperations.Volume := {
  px_stat := px_stat; px_readdir := px_readdir; px_mkdir := px_mkdir; px_unlink := px_unlink; px_rmdir := px_rmdir;
  px_rename := px_rename; px_open_rb := px_open_rb; px_open_wb := px_open_wb; px_open_ab := px_open_ab; px_read := px_read;
  px_write p d v :=
    let fits := (room - length (default [] (PosixFileOperations.fileIn v p)))%nat in
    let '(n, e, w) := px_write p (take fits d) v in (n, if (n <? length d)%nat then Some ENOSPC else e, w);
  px_flush := px_flush; px_close := px_close; px_fat_info := px_fat_info; px_capacity := px_capacity;
}.

(** A second archive of a range that fails takes the first one with it: the range's file is
    removed, with lines that are nowhere else. *)
Example failed_archive_erases_earlier :
  let archive := lit "/sdcard/log/N/2026.10.12-2026.10.12/N.log" in
  let v := PosixFileOperations.onVolume [(lit "/fat/logs", None); (lit "/fat/logs/N.log", Some (lit "12345678"));
    (lit "/sdcard/log", None); (lit "/sdcard/log/N", None); (lit "/sdcard/log/N/2026.10.12-2026.10.12", None);
    (archive, Some (lit "earlier" ++ [10]))] in
  let '(ok, w, notices, v') := append (H := FullCard 12) shortLog true (lit "x") (day 12) (seen 12) v in
  (ok, failedAttempts_ w, notices, v' !! archive, v' !! lit "/fat/logs/N.log") =
  (true, 1, [lit "NTP log archive failed (1 of 10): /sdcard/log/N/2026.10.12-2026.10.12/N.log, 8 bytes kept in /fat/logs/N.log"],
   None, Some (Some (lit "12345678x" ++ [10]))).
Proof. vm_compute. reflexivity. Qed.

(** A log that cannot be opened to be read, when its lines are to go on with no card, is
    emptied: what was not read was not there. *)
#[local] Instance Unopened : Posix PosixFileOperations.Volume := {
  px_stat := px_stat; px_readdir := px_readdir; px_mkdir := px_mkdir; px_unlink := px_unlink; px_rmdir := px_rmdir;
  px_rename := px_rename; px_open_rb p v := Some EOther; px_open_wb := px_open_wb; px_open_ab := px_open_ab; px_read := px_read;
  px_write := px_write; px_flush := px_flush; px_close := px_close; px_fat_info := px_fat_info; px_capacity := px_capacity;
}.

Example unread_log_emptied :
  let '(ok, w, notices, v) := append (H := Unopened) shortLog false (lit "three") (day 12) (seen 12) (logged (lit "one" ++ [10] ++ lit "two" ++ [10])) in
  (ok, notices, v !! lit "/fat/logs/N.log") = (true, [], Some (Some (lit "three" ++ [10]))).
Proof. vm_compute. reflexivity. Qed.

Lemma append_keeps_witness :
  let v := logged (lit "one" ++ [10] ++ lit "two" ++ [10]) in
  let '(ok, _, _, v') := append (H := PosixFileOperations.MemoryVolume) shortLog true (lit "three") (day 12) (seen 12) v in
  ok = true ∧ ∃ v1 k, rotated (H0 := PosixFileOperations.MemoryVolume_laws) shortLog true (seen 12) (ensureLiveDirectory shortLog v).2 v1 ∧
    default [] (file v' (lit "/fat/logs/N.log")) = default [] (file v1 (lit "/fat/logs/N.log")) ++ take k (lit "three" ++ [10]).
Proof.
  intros v. assert (Hcard : ¬ cardMount shortLog `prefix_of` livePath shortLog) by by intros [k Hk].
  pose proof (append_keeps (H0 := PosixFileOperations.MemoryVolume_laws) shortLog true (lit "three") (day 12) (seen 12) v Hcard) as Hk.
  assert (Hok : (append (H := PosixFileOperations.MemoryVolume) shortLog true (lit "three") (day 12) (seen 12) v).1.1.1 = true) by (vm_compute; reflexivity).
  destruct (append shortLog true _ _ _ _) as [[[ok w] notices] v']. cbn [fst] in Hok.
  split; [exact Hok|]. destruct Hk as (_ & v1 & k & Hr & _ & _ & _ & Ht & _). by exists v1, k.
Defined.

End LogFileWriter.
