(* ===== verification/LogTask.v ===== *)
(** * The tasks that write the logs

    src/core/ErrorLogCore.cpp: a line is formatted by its producer, waits in a queue and is
    written by a task of low priority; FreeRtosErrorQueue.cpp is the queue, ArchiveFileLogTarget.cpp,
    SweepFileLogTarget.cpp and SweepDetailTarget.cpp are where lines go. AuthLog.cpp, DeviceLog.cpp,
    SshLog.cpp, JobLog.cpp and dhcp/DhcpFileLog.cpp are logs of this kind; their sentences are in
    AuthLogFormat.h, DeviceLogFormat.h, SshLogFormat.h, JobLogFormat.h and SweepLogFormat.h. *)
From S2P Require Import Prelude Text StdMap TimeMath FileShell PosixFiles LogFile.
From stdpp Require Import sorting.
Import PosixFileOperations(PosixLaws, file, stat_law, mkdir_law, open_ab_law, open_ab_makes, write_others, write_law, flush_law, close_law, unlink_law).
#[local] Open Scope Z_scope.

Inductive LogLevel := Error | Warn | Info.

Record ErrorLogEntry := mkEntry { level : LogLevel; text : bytes }.

(** ** The interfaces *)

(** [IErrorQueue]. *)
Class ErrorQueue (Q : Type) := {
  push : ErrorLogEntry → Q → bool * Q;
  pop : Q → option (ErrorLogEntry * Q);
}.

(** What waits in it, and what an entry is when it comes out. *)
Class ErrorQueueLaws (Q : Type) `{ErrorQueue Q} := {
  waiting : Q → list ErrorLogEntry;
  carried : ErrorLogEntry → ErrorLogEntry;
  push_law e q : waiting (push e q).2 = if (push e q).1 then waiting q ++ [carried e] else waiting q;
  pop_law q : match pop q with None => waiting q = [] | Some (e, q') => waiting q = e :: waiting q' end;
}.

(** [IErrorLogTarget]: whether the line was stored. *)
Class ErrorLogTarget (T : Type) := append_line : LogLevel → bytes → T → bool * T.

(** ** Lines *)

Module LogLine.

Definition kSaneClockSec : Z := 1577836800.
Definition kTruncatedMark : bytes := lit " ...(truncated)".
Definition kMaxMessage : nat := 200.

Definition clockIsSet (nowEpochSec : Z) : bool := kSaneClockSec <=? nowEpochSec.

Definition levelTag (l : LogLevel) : bytes :=
  match l with Warn => lit "[W]" | Info => lit "[I]" | Error => lit "[E]" end.

Definition clampMessage (message : bytes) : bytes :=
  if (length message <=? kMaxMessage)%nat then message else take kMaxMessage message ++ kTruncatedMark.

(** [local]: the time as [localtime_r] tells it. *)
Definition formatStamp (local : option LogFileFormat.Tm) (nowEpochSec uptimeSec : Z) : bytes :=
  match (if clockIsSet nowEpochSec then local else None) with
  | Some t =>
      take 31 (TimeMath.padded 4 (LogFileFormat.tm_year t + 1900) ++ lit "-" ++ TimeMath.padded 2 (LogFileFormat.tm_mon t + 1) ++ lit "-" ++
        TimeMath.padded 2 (LogFileFormat.tm_mday t) ++ lit " " ++ TimeMath.padded 2 (LogFileFormat.tm_hour t) ++ lit ":" ++
        TimeMath.padded 2 (LogFileFormat.tm_min t) ++ lit ":" ++ TimeMath.padded 2 (LogFileFormat.tm_sec t))
  | None => take 23 (lit "t+" ++ dec uptimeSec ++ lit "s")
  end.

Definition formatLine (stamp : bytes) (l : LogLevel) (tag : option bytes) (message : bytes) : bytes :=
  stamp ++ lit " " ++ levelTag l ++ lit " " ++ default (lit "app") tag ++ lit ": " ++ clampMessage message.

(** The shape of the journals: the stamp in brackets. [own]: the tag of the log itself. *)
Definition bracketLine (own stamp : bytes) (tag : option bytes) (message : bytes) : bytes :=
  lit "[" ++ stamp ++ lit "] " ++ default own tag ++ lit ": " ++ clampMessage message.

End LogLine.

(** ** The queue *)

Module FreeRtosErrorQueue.

Definition kItemBytes : nat := 240.
Definition kLength : nat := 16.

Definition levelToByte (l : LogLevel) : Z := match l with Warn => 1 | Info => 2 | Error => 0 end.
Definition byteToLevel (v : Z) : LogLevel := if v =? 1 then Warn else if v =? 2 then Info else Error.

(** The text up to its first NUL. *)
Fixpoint cText (s : bytes) : bytes := match s with [] => [] | c :: s => if c =? 0 then [] else c :: cText s end.

(** [None]: the queue was not created. The queue of FreeRTOS keeps its order and takes
    no more than it was made for. *)
Definition Queue : Type := option (list (Z * bytes)).

Definition item (e : ErrorLogEntry) : Z * bytes := (levelToByte (level e), take (kItemBytes - 1) (cText (text e))).

Definition push_ (e : ErrorLogEntry) (q : Queue) : bool * Queue :=
  match q with
  | None => (false, None)
  | Some l => if (length l <? kLength)%nat then (true, Some (l ++ [item e])) else (false, q)
  end.

Definition entryOf (i : Z * bytes) : ErrorLogEntry := mkEntry (byteToLevel i.1) i.2.

Definition pop_ (q : Queue) : option (ErrorLogEntry * Queue) :=
  match q with
  | Some (i :: l) => Some (entryOf i, Some l)
  | _ => None
  end.

#[export] Instance rtos_queue : ErrorQueue Queue := {| push := push_; pop := pop_ |}.

#[export] Instance rtos_queue_laws : ErrorQueueLaws Queue.
Proof.
  refine {| waiting q := entryOf <$> default [] q; carried e := entryOf (item e) |}.
  - intros e [l|]; [|reflexivity]. unfold push, rtos_queue, push_. destruct (length l <? kLength)%nat; [|reflexivity]. exact (fmap_app entryOf l [item e]).
  - intros [[|i l]|]; done.
Defined.

Lemma carried_short e : (length (text e) < kItemBytes)%nat → 0 ∉ text e → carried e = e.
Proof.
  intros Hl H0. destruct e as [l s]. cbn in *. unfold entryOf, item. cbn [fst snd level text].
  assert (Hc : cText s = s).
  { clear Hl. induction s as [|c s IH]; [done|]. apply not_elem_of_cons in H0 as [Hc H0]. cbn.
    destruct (Z.eqb_spec c 0); [congruence|]. by rewrite IH. }
  rewrite Hc, take_ge by (unfold kItemBytes in *; lia). by destruct l.
Qed.

End FreeRtosErrorQueue.

Module ErrorLogCore.

Record Core := mkCore { dropped_ : Z; dropNoticePending_ : bool }.
Definition newCore : Core := mkCore 0 false.

(** A line that was stored: a message, or the notice that [n] were lost. *)
Inductive Written := Message (e : ErrorLogEntry) | Notice (n : Z).

Definition dropNotice (n : Z) : bytes := dec n ++ lit " message(s) lost (queue full or the target refused them)".

Section Core.
Context {Q T : Type} `{ErrorQueue Q} `{ErrorLogTarget T}.
(** The line of a message, now. *)
Variable makeLine : LogLevel → option bytes → bytes → bytes.

Definition countDrop (c : Core) : Core := mkCore (u32 (dropped_ c + 1)) true.

Definition submitLine (l : LogLevel) (line : bytes) (c : Core) (q : Q) : bool * Core * Q :=
  let '(ok, q) := push (mkEntry l line) q in
  if ok then (true, c, q) else (false, countDrop c, q).

Definition submit (l : LogLevel) (tag : option bytes) (message : bytes) : Core → Q → bool * Core * Q :=
  submitLine l (makeLine l tag message).

Definition writeNotice (c : Core) (t : T) : list Written * Core * T :=
  if dropNoticePending_ c && (0 <? dropped_ c) then
    let '(ok, t) := append_line Warn (makeLine Warn (Some (lit "log")) (dropNotice (dropped_ c))) t in
    if ok : bool then ([Notice (dropped_ c)], mkCore 0 false, t) else ([], mkCore (u32 (dropped_ c + 1)) (dropNoticePending_ c), t)
  else ([], c, t).

Definition writeEntry (e : ErrorLogEntry) (c : Core) (t : T) : list Written * Core * T :=
  let '(ok, t) := append_line (level e) (text e) t in
  if ok : bool then ([Message e], c, t) else ([], countDrop c, t).

(** Until the queue is empty; nothing is added to it meanwhile. *)
Fixpoint drainLoop (n : nat) (e : ErrorLogEntry) (out : list Written) (c : Core) (q : Q) (t : T) : option (list Written * Core * Q * T) :=
  match n with
  | O => None
  | S n =>
      let '(o1, c, t) := writeNotice c t in
      let '(o2, c, t) := writeEntry e c t in
      let out := out ++ o1 ++ o2 in
      match pop q with
      | None => Some (out, c, q, t)
      | Some (e, q) => drainLoop n e out c q t
      end
  end.

Definition drain (n : nat) (c : Core) (q : Q) (t : T) : option (list Written * Core * Q * T) :=
  match pop q with
  | None => Some ([], c, q, t)
  | Some (e, q) => drainLoop n e [] c q t
  end.

End Core.

(** ** No loss is forgotten *)

Definition messages (out : list Written) : list ErrorLogEntry := omap (λ w, match w with Message e => Some e | Notice _ => None end) out.
Definition reported (out : list Written) : Z := foldr Z.add 0 ((λ w, match w with Message _ => 0 | Notice n => n end) <$> out).

Lemma messages_app o1 o2 : messages (o1 ++ o2) = messages o1 ++ messages o2.
Proof. apply omap_app. Qed.

Lemma reported_app o1 o2 : reported (o1 ++ o2) = reported o1 + reported o2.
Proof. unfold reported. induction o1 as [|w o1 IH]; cbn in *; lia. Qed.

(** A loss that is counted is going to be told. *)
Definition told (c : Core) : Prop := 0 <= dropped_ c ∧ (dropNoticePending_ c = true ∨ dropped_ c = 0).

Section Laws.
Context {Q T : Type} `{ErrorQueueLaws Q} `{ErrorLogTarget T}.
Variable makeLine : LogLevel → option bytes → bytes → bytes.

Lemma submit_outcome l tag message c (q : Q) : told c → dropped_ c + 1 < 2 ^ 32 →
  let '(ok, c', q') := submit makeLine l tag message c q in
  told c' ∧ if ok : bool then c' = c ∧ waiting q' = waiting q ++ [carried (mkEntry l (makeLine l tag message))]
            else dropped_ c' = dropped_ c + 1 ∧ waiting q' = waiting q.
Proof.
  intros Ht Hd. unfold submit, submitLine. pose proof (push_law (mkEntry l (makeLine l tag message)) q) as Hp.
  destruct (push _ q) as [[] q']; cbn [fst snd] in Hp; [done|]. destruct Ht as [Ht _].
  unfold told, countDrop. cbn [dropped_ dropNoticePending_]. rewrite u32_small by (unfold is_u32; lia). split_and!; auto; lia.
Qed.

Lemma writeNotice_accounts c (t : T) : told c → dropped_ c + 1 < 2 ^ 32 →
  let '(out, c', _) := writeNotice makeLine c t in
  messages out = [] ∧ told c' ∧ dropped_ c <= reported out + dropped_ c' <= dropped_ c + 1 ∧ 0 <= reported out.
Proof.
  intros [Ha1 Ha2] Hd. unfold writeNotice. destruct (dropNoticePending_ c) eqn:Ep; cbn [andb]; [|unfold told; cbn; rewrite Ep; auto with lia].
  destruct (Z.ltb_spec 0 (dropped_ c)) as [Hpos|Hz]; [|unfold told; cbn; rewrite Ep; auto with lia].
  destruct (append_line Warn _ t) as [[] t']; unfold told, reported; cbn [messages dropped_ dropNoticePending_ fmap list_fmap foldr omap list_omap].
  - split_and!; auto; lia.
  - rewrite u32_small by (unfold is_u32; lia). split_and!; auto; lia.
Qed.

Lemma writeEntry_accounts e c (t : T) : told c → dropped_ c + 1 < 2 ^ 32 →
  let '(out, c', _) := writeEntry e c t in
  reported out = 0 ∧ told c' ∧ (messages out = [e] ∧ c' = c ∨ messages out = [] ∧ dropped_ c' = dropped_ c + 1).
Proof.
  intros Ht Hd. unfold writeEntry. destruct (append_line (level e) (text e) t) as [[] t']; [by auto|].
  destruct Ht as [Ht _]. unfold told, countDrop. cbn [dropped_ dropNoticePending_].
  rewrite u32_small by (unfold is_u32; lia). split_and!; auto; lia.
Qed.

Lemma drainLoop_accounts n e out c (q : Q) (t : T) : told c → dropped_ c + 2 * (Z.of_nat (length (waiting q)) + 1) < 2 ^ 32 →
  (length (waiting q) < n)%nat →
  ∃ o c' q' t', drainLoop makeLine n e out c q t = Some (out ++ o, c', q', t') ∧ waiting q' = [] ∧ told c' ∧
    messages o `sublist_of` (e :: waiting q) ∧
    dropped_ c + (Z.of_nat (length (waiting q)) + 1 - Z.of_nat (length (messages o))) <= reported o + dropped_ c' ∧ 0 <= reported o.
Proof.
  revert e out c q t. induction n as [|n IH]; intros e out c q t Ht Hd Hn; [lia|]. cbn [drainLoop].
  pose proof (writeNotice_accounts c t Ht ltac:(lia)) as Ha1. destruct (writeNotice makeLine c t) as [[o1 c1] t1].
  destruct Ha1 as (Hm1 & Ht1 & Hd1 & Hr1).
  pose proof (writeEntry_accounts e c1 t1 Ht1 ltac:(lia)) as Ha2. destruct (writeEntry e c1 t1) as [[o2 c2] t2].
  destruct Ha2 as (Hr2 & Ht2 & Hcase).
  assert (Hstep : dropped_ c + 1 - Z.of_nat (length (messages (o1 ++ o2))) <= reported (o1 ++ o2) + dropped_ c2 <= dropped_ c + 2 ∧
    messages (o1 ++ o2) `sublist_of` [e]).
  { rewrite messages_app, reported_app, Hm1. cbn [app]. destruct Hcase as [[-> ->]|[-> Hc]]; cbn [length]; split; try lia; [done|by repeat constructor]. }
  destruct Hstep as [Hstep Hsub]. pose proof (pop_law q) as Hp. destruct (pop q) as [[e' q']|].
  - rewrite Hp in Hd, Hn |- *. cbn [length] in *.
    destruct (IH e' (out ++ o1 ++ o2) c2 q' t2) as (o & c' & q'' & t' & E & Hw & Hc' & Hs & Ha & Hr); [done| |lia|].
    { assert (0 <= reported (o1 ++ o2)) by (rewrite reported_app; lia). lia. }
    exists ((o1 ++ o2) ++ o), c', q'', t'. rewrite E, <- app_assoc. split_and!; [done|done|done| | |].
    + rewrite messages_app. by apply (sublist_app _ [e]).
    + rewrite messages_app, (reported_app (o1 ++ o2)), length_app. lia.
    + rewrite (reported_app (o1 ++ o2)), reported_app. lia.
  - exists (o1 ++ o2), c2, q, t2. rewrite Hp in *. cbn [length] in *. split_and!; [done|done|done|done|lia|].
    rewrite reported_app. lia.
Qed.

(** C30: A drain ends with an empty queue; the messages it stored are messages that waited,
    in their order, and each of the others, and each loss counted before, is in a notice
    that was stored or is still counted. *)
Theorem drain_accounts n c (q : Q) (t : T) : told c → dropped_ c + 2 * Z.of_nat (length (waiting q)) < 2 ^ 32 →
  (length (waiting q) <= n)%nat →
  ∃ out c' q' t', drain makeLine n c q t = Some (out, c', q', t') ∧ waiting q' = [] ∧ told c' ∧
    messages out `sublist_of` waiting q ∧
    dropped_ c + Z.of_nat (length (waiting q) - length (messages out)) <= reported out + dropped_ c'.
Proof.
  intros Ht Hd Hn. unfold drain. pose proof (pop_law q) as Hp. destruct (pop q) as [[e q']|].
  - rewrite Hp in *. cbn [length] in *.
    destruct (drainLoop_accounts n e [] c q' t) as (o & c' & q'' & t' & E & Hw & Hc' & Hs & Ha & _); [done|lia|lia|].
    exists o, c', q'', t'. split_and!; [done|done|done|done|]. pose proof (sublist_length _ _ Hs) as Hl. cbn [length] in Hl. lia.
  - exists [], c, q, t. rewrite Hp. cbn. split_and!; [done|done|done|done|lia].
Qed.

End Laws.

End ErrorLogCore.

(** ** A list in memory, as the host tests have one *)

Module LogRuns.
Import ErrorLogCore.
#[local] Existing Instances FreeRtosErrorQueue.rtos_queue FreeRtosErrorQueue.rtos_queue_laws.

(** Lines that were stored; how many more calls are refused first. *)
Record MemoryLog := mkMemory { stored : list bytes; refuses : nat }.
#[export] Instance memory_target : ErrorLogTarget MemoryLog :=
  λ _ line t, match refuses t with O => (true, mkMemory (stored t ++ [line]) 0) | S n => (false, mkMemory (stored t) n) end.

Definition line : LogLevel → option bytes → bytes → bytes := LogLine.formatLine (lit "t+7s").
Definition waitingFor (l : list bytes) : FreeRtosErrorQueue.Queue := Some ((λ s, (0, s)) <$> l).

(** Two losses are told before the next line. *)
Example losses_told :
  ∃ c q, drain line 3 (mkCore 2 true) (waitingFor [lit "a"; lit "b"]) (mkMemory [] 0) =
    Some ([Notice 2; Message (mkEntry Error (lit "a")); Message (mkEntry Error (lit "b"))], c, q,
          mkMemory [lit "t+7s [W] log: 2 message(s) lost (queue full or the target refused them)"; lit "a"; lit "b"] 0) ∧ c = newCore.
Proof. eexists _, _. by vm_compute. Qed.

(** A notice that is refused is counted as a message that was lost: of one message lost, two are told. *)
Example refused_notice_counted :
  ∃ c q t, drain line 4 newCore (waitingFor [lit "a"; lit "b"; lit "c"; lit "d"]) (mkMemory [] 2) =
    Some ([Message (mkEntry Error (lit "b")); Notice 2; Message (mkEntry Error (lit "c")); Message (mkEntry Error (lit "d"))], c, q, t).
Proof. eexists _, _, _. by vm_compute. Qed.

(** The mark of a message that was cut is cut itself by the item of the queue. *)
Example mark_is_cut :
  let line := LogLine.bracketLine (lit "auth") (lit "2026-10-19 12:00:00") (Some (lit "auth")) (replicate 300 97) in
  ∃ q, push (mkEntry Warn line) (Some []) = (true, q) ∧ waiting q = [mkEntry Warn (take 239 line)] ∧ length line = 243%nat.
Proof. eexists. by vm_compute. Qed.

Lemma drain_accounts_witness :
  told (mkCore 2 true) ∧
  ∃ out c' q' t', drain line 2 (mkCore 2 true) (waitingFor [lit "a"; lit "b"]) (mkMemory [] 0) = Some (out, c', q', t') ∧
    waiting q' = [] ∧ 2 + Z.of_nat (2 - length (messages out)) <= reported out + dropped_ c'.
Proof.
  assert (Ht : told (mkCore 2 true)) by (split; [cbn; lia|by left]). split; [exact Ht|].
  destruct (drain_accounts line 2 (mkCore 2 true) (waitingFor [lit "a"; lit "b"]) (mkMemory [] 0) Ht) as (out & c' & q' & t' & E & Hw & _ & _ & Ha);
    [vm_compute; reflexivity|vm_compute; lia|].
  exists out, c', q', t'. split; [exact E|]. split; [exact Hw|exact Ha].
Defined.

End LogRuns.

(** ** The logs *)

(** AuthLog, DeviceLog, SshLog and DhcpFileLog: a core behind switches. [None]: not started. *)
Module ServiceLog.

Record Service := mkService { logFile_ : bool; logTerminal_ : bool; core_ : option ErrorLogCore.Core; preStartDropped_ : Z }.

Section Service.
Context {Q : Type} `{ErrorQueue Q}.
Variable makeLine : LogLevel → option bytes → bytes → bytes.
(** The tag of the log's lines. *)
Variable tag : bytes.

Definition submit (l : LogLevel) (message : bytes) (s : Service) (q : Q) : bool * Service * Q :=
  if negb (logFile_ s) then (false, s, q)
  else match core_ s with
       | None => (false, mkService true (logTerminal_ s) None (u32 (preStartDropped_ s + 1)), q)
       | Some c =>
           let '(ok, c, q) := ErrorLogCore.submit makeLine l (Some tag) message c q in
           (ok, mkService true (logTerminal_ s) (Some c) (preStartDropped_ s), q)
       end.

(** The SSH journal also shows its lines on the terminal. *)
Definition submitShown (l : LogLevel) (message : bytes) (s : Service) (q : Q) : bool * Service * Q * list bytes :=
  if negb (logFile_ s) && negb (logTerminal_ s) then (false, s, q, [])
  else (submit l message s q, if logTerminal_ s then [message] else []).

Definition dropped (s : Service) : Z :=
  u32 (preStartDropped_ s + match core_ s with Some c => ErrorLogCore.dropped_ c | None => 0 end).

End Service.

End ServiceLog.

(** ** What the logs say *)

Module LogText.

(** AuthLogFormat.h *)
Definition authFailedText (clientIp : bytes) (attempt maxAttempts : Z) : bytes :=
  lit "failed login from " ++ clientIp ++ lit " (" ++ dec attempt ++ lit " of " ++ dec maxAttempts ++ lit ")".
Definition authLockoutText (clientIp : bytes) (lockoutSec : Z) : bytes :=
  lit "locked out " ++ clientIp ++ lit " for " ++ dec lockoutSec ++ lit " s".
Definition authLoginText (clientIp : bytes) (failedBefore : Z) : bytes :=
  if failedBefore =? 0 then lit "logged in from " ++ clientIp
  else lit "logged in from " ++ clientIp ++ lit " after " ++ dec failedBefore ++
       (if failedBefore =? 1 then lit " failed attempt" else lit " failed attempts").

(** DeviceLogFormat.h *)
Definition deviceBootText (version : bytes) : bytes := lit "boot: DHCPServer " ++ version ++ lit " started".
Definition deviceBootAfterText (version reason : bytes) : bytes :=
  deviceBootText version ++ lit "; the previous run ended with " ++ reason.
Definition deviceRestartText (source : bytes) : bytes := lit "restart requested from " ++ source.
Definition deviceFactoryResetText (source : bytes) : bytes :=
  lit "factory reset requested from " ++ source ++ lit ": every setting is erased and the device restarts".
Definition deviceSettingsImportText : bytes := lit "settings imported from a backup file".
Definition deviceSshCrashText (stage : bytes) : bytes := lit "the previous run ended inside the SSH server: " ++ stage.

(** Newlines and blanks at the end are dropped. *)
Fixpoint dropEnd (reversed : bytes) : bytes :=
  match reversed with
  | c :: s => if (c =? 10) || (c =? 13) || (c =? 32) then dropEnd s else reversed
  | [] => []
  end.
Definition deviceLibsshText (function message : bytes) : bytes :=
  lit "libssh " ++ (if bool_decide (function = []) then lit "?" else function) ++ lit ": " ++ List.rev (dropEnd (List.rev message)).

(** JobLogFormat.h *)
Definition kMsPerSecond : Z := 1000.
Definition jobDurationText (durationMs : Z) : bytes :=
  take 23 (dec (durationMs / kMsPerSecond) ++ lit "." ++ dec ((durationMs mod kMsPerSecond) / (kMsPerSecond / 10)) ++ lit " s").
Definition jobName (id arg : bytes) : bytes := if bool_decide (arg = []) then id else id ++ lit " (" ++ arg ++ lit ")".
Definition jobStartedText (id arg : bytes) : bytes := jobName id arg ++ lit ": started".
Definition jobFinishedText (id arg : bytes) (stateText : option bytes) (durationMs : Z) (detail : bytes) : bytes :=
  jobName id arg ++ lit ": finished (" ++ default (lit "unknown") stateText ++ lit ", " ++ jobDurationText durationMs ++ lit ")" ++
  (if bool_decide (detail = []) then [] else lit " " ++ [0xE2; 0x80; 0x94] ++ lit " " ++ detail).

(** SshLogFormat.h *)
Definition sshDurationText (seconds : Z) : bytes :=
  let hours := seconds / 3600 in
  let minutes := (seconds mod 3600) / 60 in
  let secs := seconds mod 60 in
  if 0 <? hours then
    if (minutes =? 0) && (secs =? 0) then dec hours ++ lit " h"
    else if secs =? 0 then dec hours ++ lit " h " ++ dec minutes ++ lit " min"
    else dec hours ++ lit " h " ++ dec minutes ++ lit " min " ++ dec secs ++ lit " s"
  else if 0 <? minutes then
    if secs =? 0 then dec minutes ++ lit " min" else dec minutes ++ lit " min " ++ dec secs ++ lit " s"
  else dec secs ++ lit " s".
Definition orElse (s fallback : bytes) : bytes := if bool_decide (s = []) then fallback else s.
Definition sshSessionOpenText (clientIp user : bytes) : bytes :=
  lit "session opened from " ++ clientIp ++ lit " as " ++ orElse user (lit "(no name)").
Definition sshSessionCloseText (clientIp : bytes) (durationSec : Z) : bytes :=
  lit "session closed from " ++ clientIp ++ lit " after " ++ sshDurationText durationSec.
Definition sshAuthFailedText (clientIp : bytes) (attempt maxAttempts : Z) : bytes :=
  lit "refused password from " ++ clientIp ++ lit " (" ++ dec attempt ++ lit " of " ++ dec maxAttempts ++ lit ")".
Definition sshSubnetRefusedText (clientIp : bytes) : bytes :=
  lit "refused a session from " ++ clientIp ++ lit ": outside the own subnet".
Definition sshSessionLimitText (clientIp : bytes) (limit : Z) : bytes :=
  lit "refused a session from " ++ clientIp ++ lit ": " ++ dec limit ++ lit " of " ++ dec limit ++ lit " already open".
Definition sshServerStartText (port : Z) : bytes := lit "server started on port " ++ dec port.
Definition sshServerStopText : bytes := lit "server stopped".
Definition sshSessionAcceptedText (clientIp : bytes) : bytes :=
  lit "session from " ++ orElse clientIp (lit "(unknown address)") ++ lit " accepted".
Definition sshSessionStartedText (clientIp : bytes) : bytes :=
  lit "session from " ++ orElse clientIp (lit "(unknown address)") ++ lit " started".
Definition sshSessionFaultText (clientIp reason : bytes) : bytes :=
  lit "session from " ++ orElse clientIp (lit "(unknown address)") ++ lit " failed before the password: " ++ reason.

Example sentences :
  sshDurationText 3725 = lit "1 h 2 min 5 s" ∧ sshDurationText 3600 = lit "1 h" ∧ jobDurationText 400 = lit "0.4 s" ∧
  jobStartedText (lit "file_check") (lit "/sdcard") = lit "file_check (/sdcard): started" ∧
  deviceLibsshText [] (lit "x " ++ [10]) = lit "libssh ?: x".
Proof. by vm_compute. Qed.

End LogText.

(** ** One file per sweep *)

Module SweepLog.

Definition kSweepLogFolder : bytes := lit "log/AutoUpdate".
Definition kSweepLogKeep : nat := 10.
Definition kSweepLogSuffix : bytes := lit ".log".
Definition kFlushEveryLines : Z := 32.

Definition sweepLogName (t : LogFileFormat.Tm) : bytes :=
  take 79 (TimeMath.padded 4 (LogFileFormat.tm_year t + 1900) ++ lit "." ++ TimeMath.padded 2 (LogFileFormat.tm_mon t + 1) ++ lit "." ++
    TimeMath.padded 2 (LogFileFormat.tm_mday t) ++ lit "_" ++ TimeMath.padded 2 (LogFileFormat.tm_hour t) ++ lit "." ++
    TimeMath.padded 2 (LogFileFormat.tm_min t) ++ kSweepLogSuffix).

Definition isSweepLogName (name : bytes) : bool :=
  if negb (length name =? 20)%nat then false
  else if negb ((nth 4 name 0 =? 46) && (nth 7 name 0 =? 46) && (nth 10 name 0 =? 95) && (nth 13 name 0 =? 46)) then false
  else if existsb (λ i, (nth i name 0 <? 48) || (57 <? nth i name 0)) [0; 1; 2; 3; 5; 6; 8; 9; 11; 12; 14; 15]%nat then false
  else bytes_eqb (take 4 (drop 16 name)) kSweepLogSuffix.

Definition sweepLogFolderChain (mountPoint : bytes) : list bytes :=
  if bool_decide (mountPoint = []) then []
  else
    let base := if List.last mountPoint 0 =? 47 then List.removelast mountPoint else mountPoint in
    if bool_decide (base = []) then [] else [base ++ lit "/log"; base ++ lit "/" ++ kSweepLogFolder].

Definition notLater (a b : bytes) : Prop := key_ltb b a = false.
#[export] Instance notLater_dec a b : Decision (notLater a b) := decide (key_ltb b a = false).
#[export] Instance notLater_trans : Transitive notLater.
Proof.
  intros a b c Hab Hbc. unfold notLater in *. destruct (key_ltb c a) eqn:E; [|done].
  destruct (key_ltb a b) eqn:E1; [by rewrite (key_ltb_trans _ _ _ E E1) in Hbc|].
  by rewrite (key_ltb_total a b E1 Hab), Hbc in E.
Qed.
#[export] Instance notLater_total : Total notLater.
Proof.
  intros a b. unfold notLater. destruct (key_ltb b a) eqn:E; [right|by left]. destruct (key_ltb a b) eqn:E1; [|done].
  pose proof (key_ltb_trans _ _ _ E E1) as E2. by rewrite key_ltb_irrefl in E2.
Qed.

Definition sweepLogFilesToRemove (names : list bytes) (keep : nat) : list bytes :=
  let ours := merge_sort notLater (List.filter isSweepLogName names) in
  take (length ours - keep) ours.

(** The open file: its name, what was written since the last flush, the lines. *)
Record Sweep := mkSweep { path_ : bytes; sinceFlush_ : Z; lines_ : Z }.

Section Ops.
Context {S : Type} `{Posix S}.

(** [remove] of what the rule names. *)
Definition prune (folder : bytes) (keep : nat) (v : S) : S :=
  match px_readdir folder v with
  | inl _ => v
  | inr (names, _) => foldl (λ v name, (px_unlink (folder ++ 47 :: name) v).2) v (sweepLogFilesToRemove names keep)
  end.

Definition close (file : option Sweep) (v : S) : S :=
  match file with None => v | Some s => (px_close (path_ s) (px_flush (path_ s) v).2).2 end.

(** The file that was open is closed first. *)
Definition open (mountPoint fileName : bytes) (keep : nat) (old : option Sweep) (v : S) : option Sweep * S :=
  let v := close old v in
  let chain := sweepLogFolderChain mountPoint in
  if bool_decide (chain = []) || bool_decide (fileName = []) then (None, v)
  else
    let '(made, v) := LogFileWriter.makeLevels chain v in
    if negb made then (None, v)
    else
      let folder := List.last chain [] in
      let path := folder ++ 47 :: fileName in
      match px_open_ab path v with
      | (Some _, v) => (None, v)
      | (None, v) => (Some (mkSweep path 0 0), prune folder keep v)
      end.

(** The flush is asked for every 32 lines. *)
Definition append (line : bytes) (file : option Sweep) (v : S) : bool * option Sweep * S :=
  match file with
  | None => (false, None, v)
  | Some s =>
      let text := line ++ [10] in
      let '(written, _, v) := px_write (path_ s) text v in
      if negb (written =? length text)%nat then (false, file, v)
      else
        let s := mkSweep (path_ s) (u32 (sinceFlush_ s + 1)) (u64 (lines_ s + 1)) in
        if kFlushEveryLines <=? sinceFlush_ s then
          let '(e, v) := px_flush (path_ s) v in
          if bool_decide (e = None) then (true, Some (mkSweep (path_ s) 0 (lines_ s)), v) else (false, Some s, v)
        else (true, Some s, v)
  end.

(** SweepDetailTarget: the file of the sweep that runs; a new file only replaces the old
    one once it is open. *)
Definition begin_ (mountPoint fileName : bytes) (keep : nat) (sink : option Sweep) (v : S) : bool * option Sweep * S :=
  match open mountPoint fileName keep None v with
  | (None, v) => (false, sink, v)
  | (Some s, v) => (true, Some s, close sink v)
  end.

Definition end_ (sink : option Sweep) (v : S) : option Sweep * S := (None, close sink v).

End Ops.

(** ** Names in the order of time *)

Definition wellFormed (t : LogFileFormat.Tm) : Prop :=
  70 <= LogFileFormat.tm_year t <= 200 ∧ 0 <= LogFileFormat.tm_mon t < 12 ∧ 0 <= LogFileFormat.tm_mday t < 60 ∧
  0 <= LogFileFormat.tm_hour t < 60 ∧ 0 <= LogFileFormat.tm_min t < 60.

Definition minuteOf (t : LogFileFormat.Tm) : list Z :=
  [LogFileFormat.tm_year t; LogFileFormat.tm_mon t; LogFileFormat.tm_mday t; LogFileFormat.tm_hour t; LogFileFormat.tm_min t].

(** Numbers of one width compare as their texts do. *)
Definition fieldOk (w : nat) (a b : Z) : bool :=
  (length (TimeMath.padded w a) =? w)%nat && forallb (λ c, (48 <=? c) && (c <=? 57)) (TimeMath.padded w a) &&
  Bool.eqb (bytes_ltb (TimeMath.padded w a) (TimeMath.padded w b)) (a <? b).

Lemma two_ok : TimeMath.all_from (λ a, TimeMath.all_from (fieldOk 2 a) 61 0) 61 0 = true.
Proof. vm_compute. reflexivity. Qed.
Lemma four_ok : TimeMath.all_from (λ a, TimeMath.all_from (fieldOk 4 a) 131 1970) 131 1970 = true.
Proof. vm_compute. reflexivity. Qed.

Lemma two_field a b : 0 <= a <= 60 → 0 <= b <= 60 → fieldOk 2 a b = true.
Proof. intros Ha Hb. pose proof (TimeMath.all_from_spec _ _ _ two_ok a ltac:(lia)) as H1. exact (TimeMath.all_from_spec _ _ _ H1 b ltac:(lia)). Qed.
Lemma four_field a b : 1970 <= a <= 2100 → 1970 <= b <= 2100 → fieldOk 4 a b = true.
Proof. intros Ha Hb. pose proof (TimeMath.all_from_spec _ _ _ four_ok a ltac:(lia)) as H1. exact (TimeMath.all_from_spec _ _ _ H1 b ltac:(lia)). Qed.

(** Texts of one length compare before what follows them. *)
Lemma ltb_app a b s t : length a = length b →
  bytes_ltb (a ++ s) (b ++ t) = bytes_ltb a b || (negb (bytes_ltb b a) && bytes_ltb s t).
Proof.
  revert b. induction a as [|x a IH]; intros [|y b] Hl; cbn [length app bytes_ltb] in *; try done.
  rewrite IH by lia. destruct (Z.ltb_spec x y), (Z.ltb_spec y x), (Z.eqb_spec x y), (Z.eqb_spec y x); try lia; done.
Qed.

Lemma field_app w a b s t : fieldOk w a b = true → fieldOk w b a = true →
  bytes_ltb (TimeMath.padded w a ++ s) (TimeMath.padded w b ++ t) = (a <? b) || ((a =? b) && bytes_ltb s t).
Proof.
  unfold fieldOk. intros [[La _]%andb_prop Ha%Bool.eqb_prop]%andb_prop [[Lb _]%andb_prop Hb%Bool.eqb_prop]%andb_prop.
  apply Nat.eqb_eq in La, Lb. rewrite ltb_app by congruence. rewrite Ha, Hb.
  destruct (Z.ltb_spec a b), (Z.ltb_spec b a), (Z.eqb_spec a b); try lia; done.
Qed.

Lemma ltb_same c s t : bytes_ltb (c :: s) (c :: t) = bytes_ltb s t.
Proof. cbn [bytes_ltb]. by rewrite Z.ltb_irrefl, Z.eqb_refl. Qed.

Lemma ltb_shift a b c : (a + c <? b + c) = (a <? b).
Proof. destruct (Z.ltb_spec (a + c) (b + c)), (Z.ltb_spec a b); done || lia. Qed.
Lemma eqb_shift a b c : (a + c =? b + c) = (a =? b).
Proof. destruct (Z.eqb_spec (a + c) (b + c)), (Z.eqb_spec a b); done || lia. Qed.

Lemma field_length w a b : fieldOk w a b = true → length (TimeMath.padded w a) = w.
Proof. unfold fieldOk. by intros [[->%Nat.eqb_eq _]%andb_prop _]%andb_prop. Qed.

(** The name without the bound of its buffer. *)
Lemma sweepLogName_whole t : wellFormed t → sweepLogName t =
  TimeMath.padded 4 (LogFileFormat.tm_year t + 1900) ++ 46 :: TimeMath.padded 2 (LogFileFormat.tm_mon t + 1) ++ 46 ::
    TimeMath.padded 2 (LogFileFormat.tm_mday t) ++ 95 :: TimeMath.padded 2 (LogFileFormat.tm_hour t) ++ 46 ::
    TimeMath.padded 2 (LogFileFormat.tm_min t) ++ kSweepLogSuffix.
Proof.
  intros (Hy & Hm & Hd & Hh & Hi). unfold sweepLogName. rewrite take_ge; [done|]. rewrite !length_app.
  assert (H2 : ∀ x, 0 <= x <= 60 → length (TimeMath.padded 2 x) = 2%nat) by (intros x Hx; apply (field_length 2 x 0), two_field; lia).
  assert (H4 : ∀ x, 1970 <= x <= 2100 → length (TimeMath.padded 4 x) = 4%nat) by (intros x Hx; apply (field_length 4 x 1970), four_field; lia).
  rewrite !H2, H4 by lia. vm_compute. lia.
Qed.

(** The names of two sweeps stand as the minutes they started in. *)
Theorem names_in_order t u : wellFormed t → wellFormed u →
  bytes_ltb (sweepLogName t) (sweepLogName u) = bytes_ltb (minuteOf t) (minuteOf u).
Proof.
  intros Ht Hu. rewrite !sweepLogName_whole by done. destruct Ht as (Hy & Hm & Hd & Hh & Hi), Hu as (Hy' & Hm' & Hd' & Hh' & Hi').
  rewrite field_app by (apply four_field; lia). rewrite ltb_same.
  rewrite field_app by (apply two_field; lia). rewrite ltb_same.
  rewrite field_app by (apply two_field; lia). rewrite ltb_same.
  rewrite field_app by (apply two_field; lia). rewrite ltb_same.
  rewrite field_app by (apply two_field; lia). change (bytes_ltb kSweepLogSuffix kSweepLogSuffix) with false.
  unfold minuteOf. cbn [bytes_ltb].
  by rewrite !ltb_shift, !eqb_shift.
Qed.

(** What a prune takes: names of sweeps, the oldest, and as many as there are too many. *)
Theorem newest_kept names keep :
  ∃ kept, sweepLogFilesToRemove names keep ++ kept ≡ₚ List.filter isSweepLogName names ∧
    length kept = (keep `min` length (List.filter isSweepLogName names))%nat ∧
    ∀ r k, r ∈ sweepLogFilesToRemove names keep → k ∈ kept → notLater r k.
Proof.
  set (ours := merge_sort notLater (List.filter isSweepLogName names)).
  assert (Hp : ours ≡ₚ List.filter isSweepLogName names) by apply merge_sort_Permutation.
  exists (drop (length ours - keep) ours). unfold sweepLogFilesToRemove. fold ours. cbv zeta. split_and!.
  - by rewrite take_drop.
  - rewrite length_drop, <- (Permutation_length Hp). lia.
  - assert (Hs : StronglySorted notLater ours) by (apply StronglySorted_merge_sort; apply _).
    rewrite <- (take_drop (length ours - keep) ours) in Hs. intros r k Hr Hk. eapply StronglySorted_app_1_elem_of; eassumption.
Qed.

(** ** Runs *)

#[local] Existing Instances PosixFileOperations.MemoryVolume.

Definition started (d h : Z) : LogFileFormat.Tm := LogFileFormat.mkTm 126 9 d h 0 0.
Definition sweeps (n : nat) : list bytes := (λ d, sweepLogName (started (Z.of_nat d) 1)) <$> seq 1 n.
Definition card (n : nat) : PosixFileOperations.Volume :=
  PosixFileOperations.onVolume ([(lit "/sdcard/log", None); (lit "/sdcard/log/AutoUpdate", None); (lit "/sdcard/log/AutoUpdate/mine.log", Some [])] ++
    ((λ name, (lit "/sdcard/log/AutoUpdate/" ++ name, Some (lit "old"))) <$> sweeps n)).
Definition logOf (d : Z) : bytes := lit "/sdcard/log/AutoUpdate/" ++ sweepLogName (started d 1).

(** The eleventh log takes the place of the first; what the operator put there stays. *)
Example oldest_goes :
  let '(file, v) := open (lit "/sdcard/") (sweepLogName (started 11 1)) kSweepLogKeep None (card 10) in
  (path_ <$> file, v !! logOf 1, v !! logOf 2, v !! logOf 11, v !! lit "/sdcard/log/AutoUpdate/mine.log") =
  (Some (logOf 11), None, Some (Some (lit "old")), Some (Some []), Some (Some [])).
Proof. vm_compute. reflexivity. Qed.

(** After the clock was set back the new log is the oldest by its name: it is removed as
    soon as it is open. *)
Example clock_set_back_removes_new_log :
  let early := sweepLogName (LogFileFormat.mkTm 125 9 30 1 0 0) in
  let '(file, v) := open (lit "/sdcard") early kSweepLogKeep None (card 10) in
  (path_ <$> file, v !! (lit "/sdcard/log/AutoUpdate/" ++ early), v !! logOf 1) =
  (Some (lit "/sdcard/log/AutoUpdate/2025.10.30_01.00.log"), None, Some (Some (lit "old"))).
Proof. vm_compute. reflexivity. Qed.

Lemma names_in_order_witness :
  wellFormed (started 9 23) ∧ wellFormed (started 10 1) ∧ bytes_ltb (sweepLogName (started 9 23)) (sweepLogName (started 10 1)) = true.
Proof.
  assert (H9 : wellFormed (started 9 23)) by (unfold wellFormed; cbn; lia).
  assert (H10 : wellFormed (started 10 1)) by (unfold wellFormed; cbn; lia).
  split; [exact H9|]. split; [exact H10|]. rewrite (names_in_order (started 9 23) (started 10 1) H9 H10). reflexivity.
Defined.

End SweepLog.
