(* ===== verification/FileBrowser.v ===== *)
(** * The file browser of the SSH shell

    src/net/TuiKey.cpp turns what a terminal sends into keys; src/net/FileBrowser.cpp is the
    screen of two panels that is driven by them, over the port of FileShell.v. *)
From S2P Require Import Prelude Text PathUtil FileShell PosixFiles.
#[local] Open Scope Z_scope.

Inductive TuiKeyKind := KNone | KChar | Up | Down | Left | Right | Home | End_ | PageUp | PageDown | Enter | Backspace | Tab | Escape
  | F1 | F2 | F3 | F4 | F5 | F6 | F7 | F8 | F9 | F10 | F11 | F12 | AltF1 | AltF2 | CtrlC.
#[global] Instance TuiKeyKind_eq : EqDecision TuiKeyKind.
Proof. solve_decision. Defined.

Record TuiKey := mkKey { kind : TuiKeyKind; ch : Z }.

Module Keys.

Definition key (k : TuiKeyKind) : TuiKey := mkKey k 0.

Definition arrowKey (final : Z) : option TuiKeyKind :=
  if final =? 65 then Some Up else if final =? 66 then Some Down else if final =? 67 then Some Right
  else if final =? 68 then Some Left else if final =? 72 then Some Home else if final =? 70 then Some End_ else None.

Definition tildeKey (number : Z) : option TuiKeyKind :=
  if (number =? 1) || (number =? 7) then Some Home else if (number =? 4) || (number =? 8) then Some End_
  else if number =? 5 then Some PageUp else if number =? 6 then Some PageDown
  else if number =? 11 then Some F1 else if number =? 12 then Some F2 else if number =? 13 then Some F3
  else if number =? 14 then Some F4 else if number =? 15 then Some F5 else if number =? 17 then Some F6
  else if number =? 18 then Some F7 else if number =? 19 then Some F8 else if number =? 20 then Some F9
  else if number =? 21 then Some F10 else if number =? 23 then Some F11 else if number =? 24 then Some F12 else None.

(** A byte that begins no sequence. *)
Definition plainKey (c : Z) : list TuiKey :=
  if (c =? 13) || (c =? 10) then [key Enter]
  else if c =? 9 then [key Tab]
  else if (c =? 127) || (c =? 8) then [key Backspace]
  else if c =? 3 then [key CtrlC]
  else if (32 <=? c) && (c <? 127) then [mkKey KChar c]
  else [].

Definition isFinal (c : Z) : bool := (64 <=? c) && (c <=? 126).

(** The parameters, and what begins with the final byte. *)
Fixpoint params (s : bytes) : bytes * bytes :=
  match s with
  | [] => ([], [])
  | c :: s' => if isFinal c then ([], s) else let '(p, r) := params s' in (c :: p, r)
  end.

(** [-1]: not a number. An [int] on the device: the model is it up to nine digits. *)
Fixpoint numberOf (p : bytes) (n : Z) : Z :=
  match p with
  | [] => n
  | c :: p => if (c <? 48) || (57 <? c) then -1 else numberOf p (n * 10 + (c - 48))
  end.

Definition toKeys (k : option TuiKeyKind) : list TuiKey := match k with Some k => [key k] | None => [] end.

Definition ss3Key (final : Z) : option TuiKeyKind :=
  if final =? 80 then Some F1 else if final =? 81 then Some F2 else if final =? 82 then Some F3 else if final =? 83 then Some F4
  else arrowKey final.

Definition csiKeys (p : bytes) (final : Z) : list TuiKey :=
  if negb (bool_decide (p = [])) && (final =? 126) then
    let number := numberOf p 0 in if 0 <? number then toKeys (tildeKey number) else []
  else if bytes_eqb p (lit "1;3") && (final =? 80) then [key AltF1]
  else if bytes_eqb p (lit "1;3") && (final =? 81) then [key AltF2]
  else if bool_decide (p = []) then toKeys (arrowKey final) else [].

(** One turn of the loop: the keys, and the bytes that are left. *)
Definition turn (c : Z) (s : bytes) : list TuiKey * bytes :=
  if negb (c =? 27) then (plainKey c, s)
  else match s with
       | [] => ([key Escape], [])
       | k :: rest =>
           if negb (k =? 91) && negb (k =? 79) then ([key Escape], s)
           else match params rest with
                | (_, []) => ([key Escape], s)
                | (p, final :: tail) => (if k =? 79 then toKeys (ss3Key final) else csiKeys p final, tail)
                end
       end.

Fixpoint decodeFuel (n : nat) (s : bytes) : list TuiKey :=
  match n, s with
  | S n, c :: s => let '(keys, s) := turn c s in keys ++ decodeFuel n s
  | _, _ => []
  end.

Definition decodeTuiKeys (s : bytes) : list TuiKey := decodeFuel (length s) s.

(** ** Every key comes back *)

Lemma params_shorter s : (length (params s).2 <= length s)%nat.
Proof. induction s as [|c s IH]; cbn; [done|]. destruct (isFinal c); [done|]. destruct (params s). cbn in *. lia. Qed.

Lemma turn_shorter c s : (length (turn c s).2 <= length s)%nat.
Proof.
  unfold turn. destruct (negb (c =? 27)); [done|]. destruct s as [|k rest]; [done|].
  destruct (negb (k =? 91) && negb (k =? 79)); [done|]. pose proof (params_shorter rest) as Hp.
  destruct (params rest) as [p [|f tail]]; cbn in *; lia.
Qed.

Lemma decode_fuel n s : (length s <= n)%nat → decodeFuel n s = decodeTuiKeys s.
Proof.
  unfold decodeTuiKeys. revert s. induction n as [n IH] using lt_wf_ind. intros [|c s] Hn; [by destruct n|].
  destruct n as [|n]; [cbn in Hn; lia|]. cbn [decodeFuel length] in *. pose proof (turn_shorter c s) as Ht.
  destruct (turn c s) as [keys r]. cbn [snd] in Ht. f_equal. rewrite (IH n) by lia. symmetry. apply IH; lia.
Qed.

Lemma decode_turn c s : decodeTuiKeys (c :: s) = (turn c s).1 ++ decodeTuiKeys (turn c s).2.
Proof.
  unfold decodeTuiKeys at 1. cbn [length decodeFuel]. pose proof (turn_shorter c s) as Ht. destruct (turn c s) as [keys r].
  cbn [fst snd] in *. by rewrite decode_fuel.
Qed.

(** What xterm sends for a key; nothing for a lone Escape, which is what no sequence follows. *)
Definition encode (k : TuiKey) : bytes :=
  let csi s := 27 :: 91 :: lit s in
  match kind k with
  | KNone | Escape => []
  | KChar => [ch k]
  | Up => csi "A"%string | Down => csi "B"%string | Right => csi "C"%string | Left => csi "D"%string
  | Home => csi "H"%string | End_ => csi "F"%string | PageUp => csi "5~"%string | PageDown => csi "6~"%string
  | Enter => [13] | Backspace => [127] | Tab => [9] | CtrlC => [3]
  | F1 => 27 :: lit "OP" | F2 => 27 :: lit "OQ" | F3 => 27 :: lit "OR" | F4 => 27 :: lit "OS"
  | F5 => csi "15~"%string | F6 => csi "17~"%string | F7 => csi "18~"%string | F8 => csi "19~"%string
  | F9 => csi "20~"%string | F10 => csi "21~"%string | F11 => csi "23~"%string | F12 => csi "24~"%string
  | AltF1 => csi "1;3P"%string | AltF2 => csi "1;3Q"%string
  end.

Definition sent (k : TuiKey) : Prop :=
  match kind k with KNone | Escape => False | KChar => 32 <= ch k < 127 | _ => ch k = 0 end.

Lemma decode_key k s : sent k → decodeTuiKeys (encode k ++ s) = k :: decodeTuiKeys s.
Proof.
  destruct k as [k c]. unfold sent, encode. cbn [kind ch]. destruct k; intros Hc; try done; subst;
    cbn [app]; try (rewrite decode_turn; reflexivity).
  rewrite decode_turn. unfold turn, plainKey.
  rewrite !(proj2 (Z.eqb_neq c _)), (proj2 (Z.leb_le 32 c)), (proj2 (Z.ltb_lt c 127)) by lia. done.
Qed.

(** What a terminal sends is read key by key, whatever follows: every key comes back,
    none is swallowed, and a lone Escape at the end is one. *)
Theorem keys_readback keys : Forall sent keys →
  decodeTuiKeys (concat (encode <$> keys)) = keys ∧ decodeTuiKeys (concat (encode <$> keys) ++ [27]) = keys ++ [key Escape].
Proof.
  induction 1 as [|k keys Hk _ [IH1 IH2]]; [done|]. cbn [fmap list_fmap concat app]. rewrite <- app_assoc, !decode_key by done.
  by rewrite IH1, IH2.
Qed.

Lemma keys_readback_witness :
  Forall sent [key Up; mkKey KChar 113; key F5; key AltF1] ∧ decodeTuiKeys (27 :: lit "[Aq" ++ 27 :: lit "[15~" ++ 27 :: lit "[1;3P") = [key Up; mkKey KChar 113; key F5; key AltF1].
Proof.
  assert (Hs : Forall sent [key Up; mkKey KChar 113; key F5; key AltF1]) by (repeat constructor; cbn; lia).
  split; [exact Hs|]. exact (proj1 (keys_readback [key Up; mkKey KChar 113; key F5; key AltF1] Hs)).
Defined.

(** A key the screen does not know is nothing, and what follows it is read. *)
Example unknown_key_ignored : decodeTuiKeys (27 :: lit "[3~q") = [mkKey KChar 113].
Proof. reflexivity. Qed.

(** After the letter O or a bracket, Escape takes the next letter with it. *)
Example escape_takes_letters : decodeTuiKeys (27 :: lit "Oq") = [] ∧ decodeTuiKeys (27 :: 91 :: 13 :: lit "A") = [].
Proof. split; reflexivity. Qed.

End Keys.

Module FileBrowser.
Import FileShellPath.

Definition kViewLimitBytes : Z := 64 * 1024.
Definition kDividerMinWidth : Z := 1.
Definition kPromptMaxChars : nat := 120.
Definition kMinCols : Z := 40.
Definition kMaxCols : Z := 200.
Definition kMinRows : Z := 8.
Definition kMaxRows : Z := 60.

Definition clampCols (cols : Z) : Z := if cols <? kMinCols then kMinCols else if kMaxCols <? cols then kMaxCols else cols.
Definition clampRows (rows : Z) : Z := if rows <? kMinRows then kMinRows else if kMaxRows <? rows then kMaxRows else rows.

Inductive CellStyle := Plain | Pane | PaneActive | Directory | Selected.
#[global] Instance CellStyle_eq : EqDecision CellStyle.
Proof. solve_decision. Defined.
Record Piece := mkPiece { text : bytes; style : CellStyle }.

Inductive Mode := Browse | Prompt | View.
Inductive PromptAction := NoAction | NewFile | NewDirectory | Rename | Copy.

Record Panel := mkPanel { volume : nat; dir : bytes; entries : list FileEntry; parent : bytes; cursor : nat; top : nat }.

(** [active_]: the keys go to the second panel. *)
Record Browser (S : Type) := mkBrowser {
  fs : S; cols : Z; rows : Z; panel0 : Panel; panel1 : Panel; active : bool; mode : Mode;
  promptAction : PromptAction; promptTitle : bytes; promptText : bytes; message : bytes;
  viewLines : list bytes; viewTop : nat; viewName : bytes; finished : bool;
}.
#[global] Arguments mkBrowser {S}.
#[global] Arguments fs {S}. #[global] Arguments cols {S}. #[global] Arguments rows {S}.
#[global] Arguments panel0 {S}. #[global] Arguments panel1 {S}. #[global] Arguments active {S}.
#[global] Arguments mode {S}. #[global] Arguments promptAction {S}. #[global] Arguments promptTitle {S}.
#[global] Arguments promptText {S}. #[global] Arguments message {S}. #[global] Arguments viewLines {S}.
#[global] Arguments viewTop {S}. #[global] Arguments viewName {S}. #[global] Arguments finished {S}.

Definition rootOf (volume : nat) : bytes := nth volume kVolumes [].

(** ** The screen's text *)

(** Control bytes are shown as question marks. *)
Definition shown (c : Z) : Z := if (c <? 32) || (c =? 127) then 63 else c.

Definition fit (s : bytes) (width : Z) : bytes :=
  if width <=? 0 then []
  else
    let out := shown <$> take (Z.to_nat width) s in
    out ++ replicate (Z.to_nat width - length out) 32.

Definition ansiFor (style : CellStyle) : bytes :=
  27 :: match style with
        | Pane => lit "[44;37m" | PaneActive => lit "[44;1;37m" | Directory => lit "[44;1;36m"
        | Selected => lit "[46;30m" | Plain => lit "[0m"
        end.

(** The text of the panels' [".."]. *)
Definition hasParent (p : Panel) : bool := negb (bool_decide (parent p = [])).
Definition total (p : Panel) : nat := length (entries p) + if hasParent p then 1 else 0.

Definition entryName (p : Panel) (index : nat) : bytes :=
  if hasParent p && (index =? 0)%nat then lit "../"
  else match entries p !! (index - if hasParent p then 1 else 0)%nat with
       | None => []
       | Some e => if eIsDir e then eName e ++ lit "/" else eName e
       end.

Section Ops.
Context {S : Type} `{FileOperations S}.
Implicit Types (b : Browser S).

Definition panel (second : bool) b : Panel := if second then panel1 b else panel0 b.
Definition activePanel b : Panel := panel (active b) b.

Definition put_panel (second : bool) (p : Panel) b : Browser S :=
  mkBrowser (fs b) (cols b) (rows b) (if second then panel0 b else p) (if second then p else panel1 b) (active b) (mode b)
    (promptAction b) (promptTitle b) (promptText b) (message b) (viewLines b) (viewTop b) (viewName b) (finished b).
Definition put_fs (v : S) b : Browser S :=
  mkBrowser v (cols b) (rows b) (panel0 b) (panel1 b) (active b) (mode b)
    (promptAction b) (promptTitle b) (promptText b) (message b) (viewLines b) (viewTop b) (viewName b) (finished b).
Definition say (m : bytes) b : Browser S :=
  mkBrowser (fs b) (cols b) (rows b) (panel0 b) (panel1 b) (active b) (mode b)
    (promptAction b) (promptTitle b) (promptText b) m (viewLines b) (viewTop b) (viewName b) (finished b).
Definition error (m : bytes) b : Browser S := say (lit "error: " ++ m) b.
Definition put_prompt (m : Mode) (a : PromptAction) (title t : bytes) b : Browser S :=
  mkBrowser (fs b) (cols b) (rows b) (panel0 b) (panel1 b) (active b) m a title t (message b) (viewLines b) (viewTop b) (viewName b) (finished b).
Definition put_view (m : Mode) (ls : list bytes) (at_ : nat) (name : bytes) b : Browser S :=
  mkBrowser (fs b) (cols b) (rows b) (panel0 b) (panel1 b) (active b) m
    (promptAction b) (promptTitle b) (promptText b) (message b) ls at_ name (finished b).
Definition toggle b : Browser S :=
  mkBrowser (fs b) (cols b) (rows b) (panel0 b) (panel1 b) (negb (active b)) (mode b)
    (promptAction b) (promptTitle b) (promptText b) [] (viewLines b) (viewTop b) (viewName b) (finished b).
Definition finish b : Browser S :=
  mkBrowser (fs b) (cols b) (rows b) (panel0 b) (panel1 b) (active b) (mode b)
    (promptAction b) (promptTitle b) (promptText b) (message b) (viewLines b) (viewTop b) (viewName b) true.

Definition paneWidth b : Z := Z.quot (cols b - kDividerMinWidth) 2.
Definition dividerWidth b : Z := cols b - 2 * paneWidth b.
Definition listRows b : nat := Z.to_nat (rows b - 3).

(** ** Reading a directory *)

(** The name the cursor is taken to be on: the place in the list without its [".."]. *)
Definition kept (p : Panel) : bytes :=
  match entries p !! cursor p with
  | Some e => eName e
  | None => if (cursor p =? 0)%nat && hasParent p then lit ".." else []
  end.

Definition parentOf (p : Panel) : bytes :=
  let root := rootOf (volume p) in
  if bytes_eqb (dir p) root then []
  else match PathUtil.lastSlash (dir p) with
       | Some k => if (length root <=? k)%nat then take k (dir p) else root
       | None => root
       end.

Definition wanted (keep : bytes) (p : Panel) : nat :=
  if bool_decide (keep = []) then 0
  else if bytes_eqb keep (lit "..") && hasParent p then 0
  else default 0%nat (index_of (λ e, bytes_eqb (eName e) keep) (entries p)).

Definition reload (second : bool) b : Browser S :=
  let p := panel second b in
  let keep := kept p in
  let '(st, listed, v) := list_ (dir p) (fs b) in
  let q := mkPanel (volume p) (dir p) (if bool_decide (st = FoOk) then FileShell.sortEntries listed else []) (parentOf p) (cursor p) (top p) in
  let q := if (total q =? 0)%nat then mkPanel (volume q) (dir q) (entries q) (parent q) 0 0
           else mkPanel (volume q) (dir q) (entries q) (parent q) (wanted keep q `min` (total q - 1)) (top q) in
  put_panel second q (put_fs v b).

Definition freshPanel : Panel := mkPanel 0 (rootOf 0) [] [] 0 0.

Definition open (v : S) (cols_ rows_ : Z) : Browser S :=
  reload true (reload false (mkBrowser v (clampCols cols_) (clampRows rows_) freshPanel freshPanel false Browse NoAction [] [] [] [] 0 [] false)).

Definition resize (cols_ rows_ : Z) b : Browser S :=
  let back p := if (cursor p <? top p)%nat then mkPanel (volume p) (dir p) (entries p) (parent p) (cursor p) (cursor p) else p in
  mkBrowser (fs b) (clampCols cols_) (clampRows rows_) (back (panel0 b)) (back (panel1 b)) (active b) (mode b)
    (promptAction b) (promptTitle b) (promptText b) (message b) (viewLines b) (viewTop b) (viewName b) (finished b).

(** ** What the keys do *)

Definition selected b : option FileEntry :=
  let p := activePanel b in
  if hasParent p then match cursor p with O => None | Datatypes.S i => entries p !! i end
  else entries p !! cursor p.

Definition moveCursor (delta : Z) b : Browser S :=
  let p := activePanel b in
  if (total p =? 0)%nat then b
  else
    let c := Z.max 0 (Z.min (Z.of_nat (cursor p) + delta) (Z.of_nat (total p) - 1)) in
    put_panel (active b) (mkPanel (volume p) (dir p) (entries p) (parent p) (Z.to_nat c) (top p)) b.

Definition page (direction : Z) b : Browser S := moveCursor (direction * (rows b - 3)) b.

(** A directory that cannot be stood in gives no reason. *)
Definition resolveIn (p : Panel) (typed : bytes) : bytes + bytes :=
  match changeTo (lit "/fat") (dir p) with
  | (Some _, _) => inl []
  | (None, current) => resolve current typed
  end.

Definition goUp b : Browser S :=
  let p := activePanel b in
  let root := rootOf (volume p) in
  if bytes_eqb (dir p) root then error (lit "a path cannot leave its volume") b
  else
    let leaving := dir p in
    let b := reload (active b) (put_panel (active b) (mkPanel (volume p) root (entries p) (parent p) (cursor p) (top p)) b) in
    let p := activePanel b in
    let found := index_of (λ e, match resolveIn p (eName e) with inr path => bytes_eqb path leaving | inl _ => false end) (entries p) in
    let p := match found with
             | Some i => mkPanel (volume p) (dir p) (entries p) (parent p) (i + if hasParent p then 1 else 0) (top p)
             | None => p
             end in
    say [] (put_panel (active b) p b).

Definition switchVolume (second : bool) b : Browser S :=
  let p := panel second b in
  let volume := ((volume p + 1) mod 2)%nat in
  say [] (reload second (put_panel second (mkPanel volume (rootOf volume) (entries p) (parent p) 0 0) b)).

(** Lines without their [\r]; what follows the last newline is a line when it is not empty. *)
Definition textLines (t : bytes) : list bytes :=
  match split_on 10 (List.filter (λ c, negb (c =? 13)) t) with
  | [] => []
  | ls => if bool_decide (List.last ls [] = []) then List.removelast ls else ls
  end.

Definition startView b : Browser S :=
  match selected b with
  | None => b
  | Some e =>
      match resolveIn (activePanel b) (eName e) with
      | inl why => error why b
      | inr path =>
          let '(st, t, binary, v) := readText path kViewLimitBytes (fs b) in
          let b := put_fs v b in
          if bool_decide (st = FoNoSpace) then error (lit "larger than " ++ dec kViewLimitBytes ++ lit " bytes: " ++ eName e) b
          else if negb (bool_decide (st = FoOk)) then error (lit "cannot read " ++ eName e) b
          else if binary : bool then error (lit "not a text file: " ++ eName e) b
          else say [] (put_view View (textLines t) 0 (eName e) b)
      end
  end.

Definition openSelected b : Browser S :=
  let p := activePanel b in
  if hasParent p && (cursor p =? 0)%nat then goUp b
  else match selected b with
       | None => b
       | Some e =>
           match resolveIn p (eName e) with
           | inl why => error why b
           | inr path =>
               if eIsDir e then
                 say [] (reload (active b) (put_panel (active b) (mkPanel (volume p) path (entries p) (parent p) 0 0) b))
               else startView b
           end
       end.

(** [stale]: what the name of the entry reads as once the list it was in is gone. *)
Definition doDelete (stale : bytes) b : Browser S :=
  match selected b with
  | None => error (lit "nothing is selected") b
  | Some e =>
      match resolveIn (activePanel b) (eName e) with
      | inl why => error why b
      | inr path =>
          let '(st, v) := (if eIsDir e then removeTree path else removeFile path) (fs b) in
          let b := put_fs v b in
          if negb (bool_decide (st = FoOk)) then error (lit "delete failed") b
          else say (lit "deleted " ++ stale) (reload (active b) b)
      end
  end.

Definition openPrompt (a : PromptAction) (title t : bytes) b : Browser S := say [] (put_prompt Prompt a title t b).

(** Rename and copy: from the entry under the cursor. *)
Definition withSelected (op : bytes → bytes → S → FileOpStatus * S) (target : bytes) b : option (FileOpStatus * S) :=
  e ← selected b;
  Some match resolveIn (activePanel b) (eName e) with
       | inl _ => (FoNotFound, fs b)
       | inr from => op from target (fs b)
       end.

Definition applyPrompt b : Browser S :=
  let '(a, typed, title) := (promptAction b, promptText b, promptTitle b) in
  let b := put_prompt Browse NoAction [] [] b in
  if bool_decide (typed = []) then error (lit "a name is empty") b
  else match resolveIn (activePanel b) typed with
       | inl why => error why b
       | inr target =>
           let r := match a with
                    | NewFile => let '(st, _, v) := touch target (fs b) in Some (st, v)
                    | NewDirectory => Some (makeDir target (fs b))
                    | Rename => withSelected rename target b
                    | Copy => withSelected copy target b
                    | NoAction => Some (FoOk, fs b)
                    end in
           match r with
           | None => error (lit "nothing is selected") b
           | Some (st, v) =>
               let b := put_fs v b in
               if negb (bool_decide (st = FoOk)) then error (title ++ lit " failed") b
               else say (title ++ lit " done") (reload (active b) b)
           end
       end.

Definition handleBrowse (stale : bytes) (k : TuiKey) b : Browser S :=
  match kind k with
  | Up => moveCursor (-1) b
  | Down => moveCursor 1 b
  | PageUp => page (-1) b
  | PageDown => page 1 b
  | Home => moveCursor (- rows b * 1000) b
  | End_ => moveCursor (rows b * 1000) b
  | Enter => openSelected b
  | Backspace => goUp b
  | Tab => toggle b
  | AltF1 => switchVolume false b
  | AltF2 => switchVolume true b
  | F3 => startView b
  | F4 => openPrompt NewFile (lit "New file: ") [] b
  | F5 => match selected b with
          | None => error (lit "nothing is selected") b
          | Some e => openPrompt Copy (lit "Copy to: ") (dir (panel (negb (active b)) b) ++ 47 :: eName e) b
          end
  | F6 => match selected b with
          | None => error (lit "nothing is selected") b
          | Some e => openPrompt Rename (lit "Rename to: ") (eName e) b
          end
  | F7 => openPrompt NewDirectory (lit "New directory: ") [] b
  | F8 => doDelete stale b
  | F10 | CtrlC => finish b
  | _ => b
  end.

Definition handlePrompt (k : TuiKey) b : Browser S :=
  let '(a, title, t) := (promptAction b, promptTitle b, promptText b) in
  match kind k with
  | Enter => applyPrompt b
  | Escape => say (lit "cancelled") (put_prompt Browse NoAction [] [] b)
  | Backspace => put_prompt Prompt a title (List.removelast t) b
  | F10 | CtrlC => finish b
  | KChar => if (length t <? kPromptMaxChars)%nat then put_prompt Prompt a title (t ++ [ch k]) b else b
  | _ => b
  end.

Definition maxTop b : nat :=
  let last := (length (viewLines b) - 1)%nat in
  if (listRows b - 1 <=? last)%nat then (last - (listRows b - 1))%nat else 0%nat.

Definition scroll (at_ : nat) b : Browser S := put_view View (viewLines b) at_ (viewName b) b.
Definition leaveView b : Browser S := put_view Browse [] (viewTop b) (viewName b) b.

Definition handleView (k : TuiKey) b : Browser S :=
  match kind k with
  | Up => if (0 <? viewTop b)%nat then scroll (viewTop b - 1) b else b
  | Down => if (viewTop b <? maxTop b)%nat then scroll (viewTop b + 1) b else b
  | PageUp => scroll (if (listRows b <? viewTop b)%nat then viewTop b - listRows b else 0) b
  | PageDown => scroll ((viewTop b + listRows b) `min` maxTop b) b
  | Home => scroll 0 b
  | End_ => scroll (maxTop b) b
  | F3 | Escape => leaveView b
  | F10 | CtrlC => finish b
  | KChar => if ch k =? 113 then leaveView b else b
  | _ => b
  end.

Definition feed (stale : bytes) (k : TuiKey) b : Browser S :=
  if finished b then b
  else match mode b with
       | Browse => handleBrowse stale k b
       | Prompt => handlePrompt k b
       | View => handleView k b
       end.

(** ** The frame *)

Definition renderHeaderLine (second : bool) b : bytes :=
  let p := panel second b in
  let root := rootOf (volume p) in
  (if Bool.eqb second (active b) then lit "* " else lit "  ") ++ root ++
  (if bytes_eqb (dir p) root then [] else drop (length root) (dir p)).

Definition renderStatus b : bytes :=
  match mode b with
  | Prompt => promptTitle b ++ promptText b
  | View => viewName b
  | Browse =>
      if negb (bool_decide (message b = [])) then message b
      else match length (entries (activePanel b)) with
           | O => lit "empty"
           | n => dec (Z.of_nat n) ++ lit " entries"
           end
  end.

Definition renderHints b : bytes :=
  match mode b with
  | View => lit "Up/Down PgUp/PgDn Home/End  F3 or q  back  F10 Quit"
  | Prompt => lit "Enter apply  Esc cancel  F10 Quit"
  | Browse => lit "F3 View  F4 New  F5 Copy  F6 Ren  F7 Mkdir  F8 Del  Tab  Alt+F1/2  F10 Quit"
  end.

Definition divider b : Piece := mkPiece (124 :: replicate (Z.to_nat (dividerWidth b - 1)) 32) Pane.
Definition barRow (t : bytes) b : list Piece := [mkPiece (fit t (cols b)) Plain].

Definition headerPiece (second : bool) b : Piece :=
  mkPiece (fit (renderHeaderLine second b) (paneWidth b)) (if Bool.eqb second (active b) then PaneActive else Pane).
Definition headerRow b : list Piece := [headerPiece false b; divider b; headerPiece true b].

(** The active list is scrolled until its cursor is seen. *)
Definition scrolled b : Browser S :=
  let p := activePanel b in
  if (total p =? 0)%nat then b
  else
    let t := if (cursor p <? top p)%nat then cursor p else top p in
    let t := if (t + listRows b <=? cursor p)%nat && (0 <? listRows b)%nat then (cursor p - listRows b + 1)%nat else t in
    put_panel (active b) (mkPanel (volume p) (dir p) (entries p) (parent p) (cursor p) t) b.

Definition listCell (second : bool) (row : nat) b : Piece :=
  let p := panel second b in
  let index := (top p + row)%nat in
  if (index <? total p)%nat then
    let isSelected := Bool.eqb second (active b) && (index =? cursor p)%nat in
    let isParent := hasParent p && (index =? 0)%nat in
    let isDir := match entries p !! (index - if hasParent p then 1 else 0)%nat with Some e => eIsDir e | None => false end in
    mkPiece (fit ((if isSelected then lit "> " else lit "  ") ++ entryName p index) (paneWidth b))
      (if isSelected then Selected else if isParent || isDir then Directory else Pane)
  else mkPiece (fit [] (paneWidth b)) Pane.

(** The cell of the panel that is not active is drawn as it stands. *)
Definition listRow (row : nat) b : list Piece * Browser S :=
  let b := scrolled b in
  ([listCell false row b; divider b; listCell true row b], b).

Fixpoint listRowsFrom (row n : nat) b : list (list Piece) * Browser S :=
  match n with
  | O => ([], b)
  | Datatypes.S n =>
      let '(line, b) := listRow row b in
      let '(lines, b) := listRowsFrom (row + 1) n b in
      (line :: lines, b)
  end.

Definition viewRow (row : nat) b : list Piece :=
  [mkPiece (fit (default [] (viewLines b !! (viewTop b + row)%nat)) (cols b)) Pane].

Definition buildFrame b : list (list Piece) * Browser S :=
  match mode b with
  | View =>
      ([mkPiece (fit (lit "* " ++ viewName b) (cols b)) PaneActive] ::
         ((λ row, viewRow row b) <$> seq 0 (listRows b)) ++ [barRow (renderStatus b) b; barRow (renderHints b) b], b)
  | _ =>
      let header := headerRow b in
      let '(lines, b) := listRowsFrom 0 (listRows b) b in
      (header :: lines ++ [barRow (renderStatus b) b; barRow (renderHints b) b], b)
  end.

Definition rowText (row : list Piece) : bytes := concat (text <$> row).
Definition render b : list bytes * Browser S := let '(frame, b) := buildFrame b in (rowText <$> frame, b).

(** An escape where the style changes; no style is left switched on. *)
Fixpoint ansiRow (current : CellStyle) (row : list Piece) : bytes :=
  match row with
  | [] => if bool_decide (current = Plain) then [] else ansiFor Plain
  | p :: row => (if bool_decide (style p = current) then [] else ansiFor (style p)) ++ text p ++ ansiRow (style p) row
  end.
Definition renderAnsi b : list bytes * Browser S := let '(frame, b) := buildFrame b in (ansiRow Plain <$> frame, b).

End Ops.


(** ** The shape of the screen *)

Definition sane {S} (b : Browser S) : Prop := kMinCols <= cols b <= kMaxCols ∧ kMinRows <= rows b <= kMaxRows.
Definition visible (s : bytes) : Prop := Forall (λ c, 32 <= c ∧ c ≠ 127) s.

(** What is left when the escape sequences are taken out. *)
Fixpoint strip (inside : bool) (s : bytes) : bytes :=
  match s with
  | [] => []
  | c :: s => if inside then strip (negb (c =? 109)) s else if c =? 27 then strip true s else c :: strip false s
  end.

Lemma strip_ansi st s : strip false (ansiFor st ++ s) = strip false s.
Proof. by destruct st. Qed.

Lemma strip_visible t s : visible t → strip false (t ++ s) = t ++ strip false s.
Proof.
  induction 1 as [|c t [Hc _] _ IH]; [done|]. cbn [app strip]. destruct (Z.eqb_spec c 27); [lia|]. by rewrite IH.
Qed.

Lemma strip_row row current : Forall (λ p, visible (text p)) row → strip false (ansiRow current row) = rowText row.
Proof.
  intros Hr. revert current. induction Hr as [|p row Hp _ IH]; intros current; cbn [ansiRow].
  - case_bool_decide; [done|]. by rewrite <- (app_nil_r (ansiFor Plain)), strip_ansi.
  - assert (E : ∀ s, strip false ((if bool_decide (style p = current) then [] else ansiFor (style p)) ++ s) = strip false s)
      by (intros s; case_bool_decide; [done|apply strip_ansi]).
    by rewrite E, strip_visible, IH.
Qed.

Lemma fit_shape s width : 0 <= width → length (fit s width) = Z.to_nat width ∧ visible (fit s width).
Proof.
  intros Hw. unfold fit, visible. destruct (Z.leb_spec width 0); [by replace width with 0 by lia|].
  rewrite length_app, length_replicate, length_fmap, length_take. split; [lia|].
  apply Forall_app. split; [|apply Forall_replicate; lia]. apply Forall_fmap, Forall_true. intros c. cbn. unfold shown.
  destruct (Z.ltb_spec c 32), (Z.eqb_spec c 127); cbn; lia.
Qed.

Section Shape.
Context {S : Type} `{FileOperations S}.
Implicit Types (b : Browser S).

Definition rowOk b (row : list Piece) : Prop := length (rowText row) = Z.to_nat (cols b) ∧ Forall (λ p, visible (text p)) row.

Lemma bar_ok t b : sane b → rowOk b (barRow t b).
Proof.
  intros [Hc _]. destruct (fit_shape t (cols b)) as [E Hv]; [unfold kMinCols in *; lia|].
  unfold rowOk, barRow, rowText. cbn. rewrite app_nil_r. by rewrite Forall_singleton.
Qed.

Lemma panes_ok s t st su b : sane b → rowOk b [mkPiece (fit s (paneWidth b)) st; divider b; mkPiece (fit t (paneWidth b)) su].
Proof.
  intros [Hc _]. unfold kMinCols in Hc. pose proof (Z.quot_rem' (cols b - 1) 2) as Hq. pose proof (Z.rem_bound_pos (cols b - 1) 2 ltac:(lia) ltac:(lia)).
  assert (Hp : 0 <= paneWidth b) by (unfold paneWidth, kDividerMinWidth; lia).
  destruct (fit_shape s _ Hp) as [E1 V1], (fit_shape t _ Hp) as [E2 V2].
  assert (Hd : length (text (divider b)) = Z.to_nat (dividerWidth b) ∧ visible (text (divider b))).
  { unfold divider, visible, dividerWidth, paneWidth, kDividerMinWidth. cbn [text length]. rewrite length_replicate. split; [lia|].
    constructor; [lia|]. apply Forall_replicate. lia. }
  destruct Hd as [E3 V3]. split; [|by rewrite !Forall_cons]. unfold rowText. cbn [fmap list_fmap concat text].
  rewrite !length_app, E1, E2, E3. cbn [length]. unfold dividerWidth, paneWidth, kDividerMinWidth in *. lia.
Qed.

Lemma scrolled_cols b : cols (scrolled b) = cols b ∧ rows (scrolled b) = rows b ∧ mode (scrolled b) = mode b.
Proof. unfold scrolled. by destruct (total _ =? 0)%nat. Qed.

Lemma listCell_fit second row b : ∃ s st, listCell second row b = mkPiece (fit s (paneWidth b)) st.
Proof. unfold listCell. destruct (_ <? _)%nat; by eexists _, _. Qed.

Lemma listRows_ok row n b : sane b →
  let r := listRowsFrom row n b in
  length r.1 = n ∧ Forall (rowOk b) r.1 ∧ cols r.2 = cols b ∧ rows r.2 = rows b ∧ mode r.2 = mode b.
Proof.
  revert row b. induction n as [|n IH]; intros row b Hs; cbn [listRowsFrom]; [by split_and!|]. unfold listRow.
  destruct (scrolled_cols b) as (E1 & E2 & E3). assert (Hs' : sane (scrolled b)) by (unfold sane; by rewrite E1, E2).
  set (c := scrolled b) in *. specialize (IH (row + 1)%nat c Hs'). destruct (listRowsFrom (row + 1) n c) as [lines b']. cbn [fst snd] in *.
  destruct IH as (I1 & I2 & I3 & I4 & I5).
  assert (Hrow : ∀ l, rowOk c l ↔ rowOk b l) by (intros l; unfold rowOk; by rewrite E1).
  split_and!; [cbn; lia| |congruence|congruence|congruence]. constructor.
  - apply Hrow. destruct (listCell_fit false row c) as (s & st & ->), (listCell_fit true row c) as (t & su & ->). by apply panes_ok.
  - eapply Forall_impl; [exact I2|]. intros l. apply Hrow.
Qed.

Lemma frame_ok b : sane b → let f := (buildFrame b).1 in length f = Z.to_nat (rows b) ∧ Forall (rowOk b) f.
Proof.
  intros Hs. pose proof Hs as [Hc Hr]. unfold kMinRows in Hr. unfold buildFrame.
  assert (Hn : (1 + listRows b + 2)%nat = Z.to_nat (rows b)) by (unfold listRows; lia).
  assert (Hlist : ∀ b', cols b' = cols b → rows b' = rows b → ∀ lines, length lines = listRows b → Forall (rowOk b) lines → ∀ header, rowOk b header →
    let f := header :: lines ++ [barRow (renderStatus b') b'; barRow (renderHints b') b'] in
    length f = Z.to_nat (rows b) ∧ Forall (rowOk b) f).
  { intros b' E1 E2 lines Hl Hf header Hh. cbn zeta. cbn [length]. rewrite length_app. split; [cbn; lia|]. constructor; [done|].
    apply Forall_app. split; [done|]. assert (Hs' : sane b') by (unfold sane; by rewrite E1, E2).
    pose proof (bar_ok (renderStatus b') b' Hs') as B1. pose proof (bar_ok (renderHints b') b' Hs') as B2.
    unfold rowOk in *. rewrite E1 in *. by rewrite !Forall_cons. }
  assert (Hpanes : let r := listRowsFrom 0 (listRows b) b in
    let f := headerRow b :: r.1 ++ [barRow (renderStatus r.2) r.2; barRow (renderHints r.2) r.2] in
    length f = Z.to_nat (rows b) ∧ Forall (rowOk b) f).
  { destruct (listRows_ok 0 (listRows b) b Hs) as (L1 & L2 & L3 & L4 & _). apply Hlist; try done. by apply panes_ok. }
  destruct (mode b).
  - destruct (listRowsFrom 0 (listRows b) b) as [lines b']. exact Hpanes.
  - destruct (listRowsFrom 0 (listRows b) b) as [lines b']. exact Hpanes.
  - apply Hlist; [done|done| | |].
    + by rewrite length_fmap, length_seq.
    + apply Forall_fmap, Forall_true. intros row. destruct (fit_shape (default [] (viewLines b !! (viewTop b + row)%nat)) (cols b)) as [E V]; [unfold kMinCols in Hc; lia|].
      unfold rowOk, viewRow, rowText. cbn. rewrite app_nil_r. by rewrite Forall_singleton.
    + destruct (fit_shape (lit "* " ++ viewName b) (cols b)) as [E V]; [unfold kMinCols in Hc; lia|].
      unfold rowOk, rowText. cbn [fmap list_fmap concat text]. rewrite app_nil_r. by rewrite Forall_singleton.
Qed.

(** Whatever the names, the texts and the messages hold, the screen is exactly as many
    lines as the terminal has, each exactly as wide, without a control byte; and the
    escapes of the coloured screen are all the program's own: without them it is the
    plain one. *)
Theorem screen_shape b : sane b →
  length (render b).1 = Z.to_nat (rows b) ∧
  Forall (λ l, length l = Z.to_nat (cols b) ∧ visible l) (render b).1 ∧
  strip false <$> (renderAnsi b).1 = (render b).1.
Proof.
  intros Hs. destruct (frame_ok b Hs) as [Hl Hf]. unfold render, renderAnsi. destruct (buildFrame b) as [frame b']. cbn [fst snd] in *.
  split_and!; [by rewrite length_fmap| |].
  - apply Forall_fmap. eapply Forall_impl; [exact Hf|]. intros row [Hw Hv]. cbn. split; [done|]. unfold rowText, visible.
    apply Forall_concat, Forall_fmap. exact Hv.
  - rewrite <- list_fmap_compose. apply list_fmap_ext. intros i row Hi. cbn. apply strip_row.
    by apply (proj1 (Forall_lookup _ _) Hf i row Hi).
Qed.

Lemma open_sane v c r : sane (open v c r).
Proof.
  assert (Hr : ∀ second b, sane b → sane (reload second b)).
  { intros second b Hb. unfold reload. by destruct (list_ _ _) as [[st l] w]. }
  do 2 apply Hr. unfold sane, clampCols, clampRows, kMinCols, kMaxCols, kMinRows, kMaxRows. cbn [cols rows].
  destruct (Z.ltb_spec c 40), (Z.ltb_spec 200 c), (Z.ltb_spec r 8), (Z.ltb_spec 60 r); lia.
Qed.

End Shape.


(** ** Inside the volumes *)

Section Sandbox.
Context {S : Type} `{FileOperations S}.
Implicit Types (b : Browser (FileShell.Recorded S)).
Import FileShell(allowed, noted, calls, inner, mkRecorded).

(** A directory lists names. *)
Hypothesis listed_plain : ∀ p (v : S) e, e ∈ (list_ p v).1.2 → plain (eName e).

Definition panelOk (p : Panel) : Prop :=
  (volume p < 2)%nat ∧ inVolume (dir p) ∧ Forall (λ e, plain (eName e)) (entries p) ∧ (cursor p < total p ∨ total p = 0 ∧ cursor p = 0)%nat.

Definition good b : Prop := panelOk (panel0 b) ∧ panelOk (panel1 b) ∧ Forall allowed (calls (fs b)).

Lemma good_panel second b : good b → panelOk (panel second b).
Proof. intros (H0 & H1 & _). by destruct second. Qed.

Lemma good_put second p b : panelOk p → good b → good (put_panel second p b).
Proof. intros Hp (H0 & H1 & H2). by destruct second. Qed.

Lemma good_call c v b : allowed c → good b → good (put_fs (noted c v (fs b)) b).
Proof. intros Hc (H0 & H1 & H2). split_and!; [done|done|]. cbn. apply Forall_app. by rewrite Forall_singleton. Qed.

Lemma root_inside n : (n < 2)%nat → rootOf n ∈ kVolumes ∧ inVolume (rootOf n).
Proof.
  intros Hn. assert (Hr : rootOf n ∈ kVolumes) by (destruct n as [|[|]]; [by left|right; by left|lia]).
  split; [done|]. by apply FileShell.inVolume_root.
Qed.

Lemma resolveIn_inside p typed q : resolveIn p typed = inr q → inVolume q.
Proof.
  assert (H0 : inVolume (lit "/fat")) by (apply (root_inside 0); lia).
  unfold resolveIn. destruct (changeTo (lit "/fat") (dir p)) as [[why|] c] eqn:Ec; [done|].
  intros Hq. eapply resolve_inside; [|exact Hq]. revert Ec. unfold changeTo. case_bool_decide; [by intros [= <-]|].
  destruct (resolve (lit "/fat") (dir p)) as [|t] eqn:Er; [done|]. intros [= <-]. by eapply resolve_inside.
Qed.

(** What a name of a list stands for is below the root. *)
Lemma resolveIn_below p name q : plain name → resolveIn p name = inr q → q ∉ kVolumes.
Proof.
  intros (Hne & Hs & Hd & Hdd) Hq Hroot. assert (H0 : inVolume (lit "/fat")) by (apply (root_inside 0); lia).
  unfold resolveIn in Hq. destruct (changeTo (lit "/fat") (dir p)) as [[why|] c] eqn:Ec; [done|].
  assert (Hc : inVolume c).
  { revert Ec. unfold changeTo. case_bool_decide; [by intros [= <-]|].
    destruct (resolve (lit "/fat") (dir p)) as [|t] eqn:Er; [done|]. intros [= <-]. by eapply resolve_inside. }
  destruct (resolve_inside c name q Hc Hq) as [_ Hw]. specialize (Hw Hne).
  assert (Hm : meant c name = c ++ 47 :: name).
  { unfold meant. destruct name as [|x name]; [done|]. cbn. destruct (Z.eqb_spec x 47) as [->|]; [|done]. destruct Hs. by left. }
  destruct Hc as (v & parts & Hv & -> & Hp). rewrite Hm in Hw.
  assert (Hw2 : PathUtil.walk (below v parts ++ 47 :: name) = PathUtil.walk v ++ parts ++ [name]).
  { replace (below v parts ++ 47 :: name) with (below v (parts ++ [name])).
    - apply walk_below. apply Forall_app. split; [done|]. apply Forall_singleton. by split_and!.
    - unfold below. rewrite fmap_app, concat_app. cbn. by rewrite app_nil_r, <- app_assoc. }
  rewrite Hw2 in Hw. apply (f_equal length) in Hw. rewrite !length_app in Hw. cbn [length] in Hw.
  assert (Hl : ∀ u, u ∈ kVolumes → length (PathUtil.walk u) = 1%nat).
  { intros u Hu. unfold kVolumes in Hu. by apply elem_of_cons in Hu as [->|[->|[]%elem_of_nil]%elem_of_cons]. }
  rewrite !Hl in Hw by done. lia.
Qed.

Lemma sorted_all (P : FileEntry → Prop) l : Forall P l → Forall P (FileShell.sortEntries l).
Proof.
  assert (Hi : ∀ e l, P e → Forall P l → Forall P (FileShell.insertEntry e l)).
  { intros e k He. induction 1 as [|f k Hf Hk IH]; cbn; [by constructor|]. destruct (FileShell.bytes_ltb _ _); by repeat constructor. }
  unfold FileShell.sortEntries. induction 1 as [|e k He _ IH]; cbn; auto.
Qed.

(** Reading a panel again leaves it well formed. *)
Lemma reload_good second b : (volume (panel second b) < 2)%nat → inVolume (dir (panel second b)) →
  panelOk (panel (negb second) b) → Forall allowed (calls (fs b)) → good (reload second b).
Proof.
  intros Hv Hd Ho Hc. unfold reload. cbn [list_ FileShell.recorded].
  pose proof (listed_plain (dir (panel second b)) (inner (fs b))) as Hl. destruct (list_ _ (inner (fs b))) as [[st l] v]. cbn [fst snd] in Hl.
  set (q := mkPanel _ _ _ _ _ _). set (r := if (total q =? 0)%nat then _ else _).
  assert (Hr : panelOk r).
  { assert (He : Forall (λ e, plain (eName e)) (entries q)).
    { unfold q. cbn [entries]. case_bool_decide; [|constructor]. apply sorted_all, Forall_forall, Hl. }
    unfold r, panelOk. destruct (Nat.eqb_spec (total q) 0) as [Et|Et]; cbn [volume dir entries cursor].
    - split_and!; [done|done|done|]. right. by split.
    - split_and!; [done|done|done|]. left. unfold total, hasParent in *. cbn [entries parent] in *. lia. }
  assert (Hn : Forall allowed (calls (fs b) ++ [FileShell.CList (dir (panel second b))])).
  { apply Forall_app. rewrite Forall_singleton. by split. }
  destruct second; (split_and!; [done|done|exact Hn]).
Qed.

Lemma reload_again second b : good b → good (reload second b).
Proof.
  intros Hb. destruct (good_panel second b Hb) as (Hv & Hd & _). apply reload_good; [done|done|by apply good_panel|apply Hb].
Qed.

(** ... also after it was moved to another directory. *)
Lemma reload_moved second p b : (volume p < 2)%nat → inVolume (dir p) → good b → good (reload second (put_panel second p b)).
Proof.
  intros Hv Hd Hb. pose proof (good_panel (negb second) b Hb) as Ho. destruct Hb as (_ & _ & Hc).
  apply reload_good; destruct second; done.
Qed.

Lemma selected_plain b e : good b → selected b = Some e → plain (eName e).
Proof.
  intros Hb. destruct (good_panel (active b) b Hb) as (_ & _ & He & _). unfold selected.
  fold (activePanel b) in He. intros Hs. apply (proj1 (Forall_lookup _ _)) with (1 := He) (i := if hasParent (activePanel b) then (cursor (activePanel b) - 1)%nat else cursor (activePanel b)).
  destruct (hasParent (activePanel b)); [|done]. destruct (cursor (activePanel b)); [done|]. by rewrite Nat.sub_1_r.
Qed.

Lemma moveCursor_good delta b : good b → good (moveCursor delta b).
Proof.
  intros Hb. unfold moveCursor. destruct (Nat.eqb_spec (total (activePanel b)) 0) as [|Ht]; [done|].
  apply good_put; [|done]. destruct (good_panel (active b) b Hb) as (Hv & Hd & He & _). fold (activePanel b) in *.
  split_and!; [done|done|done|]. left. change (total (mkPanel _ _ _ _ _ _)) with (total (activePanel b)). cbn [cursor]. lia.
Qed.

Lemma goUp_good b : good b → good (goUp b).
Proof.
  intros Hb. unfold goUp. destruct (bytes_eqb _ _); [exact Hb|]. destruct (good_panel (active b) b Hb) as (Hv & Hd & He & _). fold (activePanel b) in *.
  set (b1 := reload _ _). assert (H1 : good b1) by (apply reload_moved; [done|by apply root_inside|done]).
  match goal with |- good (say [] (put_panel (active b1) ?p b1)) => change (good (put_panel (active b1) p b1)) end.
  apply good_put; [|done]. destruct (good_panel (active b1) b1 H1) as (Hv1 & Hd1 & He1 & Hc1). fold (activePanel b1) in *.
  destruct (index_of _ _) as [i|] eqn:Ei; [|done]. apply index_of_lt in Ei. split_and!; [done|done|done|]. left.
  change (total (mkPanel _ _ _ _ _ _)) with (total (activePanel b1)). cbn [cursor]. unfold total in *. lia.
Qed.

Lemma startView_good b : good b → good (startView b).
Proof.
  intros Hb. unfold startView. destruct (selected b) as [e|]; [|done].
  destruct (resolveIn _ _) as [why|path] eqn:Er; [exact Hb|]. cbn [readText FileShell.recorded].
  destruct (readText path kViewLimitBytes (inner (fs b))) as [[[st t] bin] v].
  assert (Hk : good (put_fs (noted (FileShell.CRead path) v (fs b)) b)) by (apply good_call; [by eapply resolveIn_inside|done]).
  repeat case_bool_decide; cbn [negb]; try destruct bin; exact Hk.
Qed.

Lemma openSelected_good b : good b → good (openSelected b).
Proof.
  intros Hb. unfold openSelected. destruct (_ && _); [by apply goUp_good|]. destruct (selected b) as [e|]; [|done].
  destruct (resolveIn _ _) as [why|path] eqn:Er; [exact Hb|]. destruct (eIsDir e); [|by apply startView_good].
  change (good (reload (active b) (put_panel (active b) (mkPanel (volume (activePanel b)) path (entries (activePanel b)) (parent (activePanel b)) 0 0) b))).
  destruct (good_panel (active b) b Hb) as (Hv & _). apply reload_moved; [done|by eapply resolveIn_inside|done].
Qed.

Lemma switchVolume_good second b : good b → good (switchVolume second b).
Proof.
  intros Hb. unfold switchVolume. change (good (reload second (put_panel second (mkPanel ((volume (panel second b) + 1) mod 2)%nat (rootOf ((volume (panel second b) + 1) mod 2)%nat)
    (entries (panel second b)) (parent (panel second b)) 0 0) b))).
  pose proof (Nat.mod_upper_bound (volume (panel second b) + 1) 2 ltac:(lia)). apply reload_moved; [done|by apply root_inside|done].
Qed.

Lemma doDelete_good stale b : good b → good (doDelete stale b).
Proof.
  intros Hb. unfold doDelete. destruct (selected b) as [e|] eqn:Es; [|exact Hb]. pose proof (selected_plain b e Hb Es) as Hp.
  destruct (resolveIn _ _) as [why|path] eqn:Er; [exact Hb|].
  pose proof (resolveIn_inside _ _ _ Er) as Hin. pose proof (resolveIn_below _ _ _ Hp Er) as Hbelow.
  assert (Hgo : ∀ c v st, allowed c → good (let b1 := put_fs (noted c v (fs b)) b in
    if negb (bool_decide (st = FoOk)) then error (lit "delete failed") b1 else say (lit "deleted " ++ stale) (reload (active b1) b1))).
  { intros c v st Hc. pose proof (good_call c v b Hc Hb) as Hk. cbv zeta. case_bool_decide; cbn [negb]; [|exact Hk].
    apply (reload_again (active b)). exact Hk. }
  destruct (eIsDir e); cbn [removeTree removeFile FileShell.recorded].
  - destruct (removeTree path (inner (fs b))) as [st v]. apply (Hgo (FileShell.CRemoveTree path) v st). by split.
  - destruct (removeFile path (inner (fs b))) as [st v]. apply (Hgo (FileShell.CRemoveFile path) v st). by split.
Qed.

Lemma applyPrompt_good b : good b → good (applyPrompt b).
Proof.
  intros Hb. unfold applyPrompt. set (b1 := put_prompt Browse NoAction [] [] b). assert (H1 : good b1) by exact Hb.
  case_bool_decide; [exact H1|]. destruct (resolveIn (activePanel b1) (promptText b)) as [why|target] eqn:Et; [exact H1|].
  apply resolveIn_inside in Et.
  assert (Hgo : ∀ b2 st, good b2 → good (if negb (bool_decide (st = FoOk)) then error (promptTitle b ++ lit " failed") b2
    else say (promptTitle b ++ lit " done") (reload (active b2) b2))).
  { intros b2 st H2. case_bool_decide; cbn [negb]; [|exact H2]. by apply (reload_again (active b2)). }
  assert (Hsel : ∀ op (c : bytes → FileShell.Call), (∀ from, inVolume from → allowed (c from)) →
    (∀ from r, ∃ st v, op from target r = (st, noted (c from) v r)) →
    good (match withSelected op target b1 with
          | None => error (lit "nothing is selected") b1
          | Some (st, v) => let b2 := put_fs v b1 in if negb (bool_decide (st = FoOk)) then error (promptTitle b ++ lit " failed") b2
                            else say (promptTitle b ++ lit " done") (reload (active b2) b2)
          end)).
  { intros op c Hc Hop. unfold withSelected. destruct (selected b1) as [e|]; cbn [mbind option_bind]; [|exact H1].
    destruct (resolveIn _ (eName e)) as [why|from] eqn:Ef; [exact H1|]. apply resolveIn_inside in Ef.
    destruct (Hop from (fs b1)) as (st & v & ->). apply Hgo. by apply good_call; [apply Hc|]. }
  destruct (promptAction b).
  - exact (Hgo (put_fs (fs b1) b1) FoOk H1).
  - cbn [touch FileShell.recorded]. destruct (touch target (inner (fs b1))) as [[st cr] v]. apply Hgo. by apply good_call.
  - cbn [makeDir FileShell.recorded]. destruct (makeDir target (inner (fs b1))) as [st v]. apply Hgo. by apply good_call.
  - apply (Hsel rename (λ from, FileShell.CRename from target)); [by split|]. intros from r. cbn. destruct (rename from target (inner r)) as [st v]. by eexists _, _.
  - apply (Hsel copy (λ from, FileShell.CCopy from target)); [by split|]. intros from r. cbn. destruct (copy from target (inner r)) as [st v]. by eexists _, _.
Qed.

Lemma feed_good stale k b : good b → good (feed stale k b).
Proof.
  intros Hb. unfold feed. destruct (finished b); [done|]. destruct (mode b).
  - unfold handleBrowse. destruct (kind k); try exact Hb;
      try (by apply moveCursor_good); eauto using openSelected_good, goUp_good, switchVolume_good, startView_good, doDelete_good.
    + destruct (selected b); exact Hb.
    + destruct (selected b); exact Hb.
  - unfold handlePrompt. destruct (kind k); try exact Hb; [by case_match|by apply applyPrompt_good].
  - unfold handleView. destruct (kind k); try exact Hb; case_match; exact Hb.
Qed.

(** C31: whatever keys are pressed, the browser asks only for paths inside the volumes and
    never for the removal of a root, both panels stand in a directory of a volume, and the
    cursor is on a line of its list. *)
Theorem browser_sandbox keys stale c r (v : S) :
  let b := foldl (λ b k, feed stale k b) (open (mkRecorded v []) c r) keys in
  Forall allowed (calls (fs b)) ∧
  Forall (λ p, inVolume (dir p) ∧ (cursor p < total p ∨ total p = 0 ∧ cursor p = 0)%nat) [panel0 b; panel1 b].
Proof.
  assert (H0 : good (open (mkRecorded v []) c r)).
  { unfold open. do 2 apply reload_again.
    assert (Hf : panelOk freshPanel) by (split_and!; [cbn; lia|by apply (root_inside 0); lia|constructor|by right]). by split_and!. }
  revert H0. generalize (open (mkRecorded v []) c r). induction keys as [|k keys IH]; intros b Hb; cbn [foldl].
  - destruct Hb as ((_ & Hd0 & _ & Hc0) & (_ & Hd1 & _ & Hc1) & Hc). split; [done|]. by rewrite !Forall_cons, Forall_nil.
  - apply IH. by apply feed_good.
Qed.

End Sandbox.


(** ** Runs *)

#[local] Existing Instances PosixFileOperations.MemoryVolume PosixFileOperations.posix_ports.
Import Keys(key).

Definition pressed (keys : list TuiKey) (l : list (bytes * option bytes)) : Browser PosixFileOperations.Volume :=
  foldl (λ b k, feed [] k b) (open (PosixFileOperations.onVolume l) 80 24) keys.
Definition typed (s : bytes) : list TuiKey := mkKey KChar <$> s.
Definition disk : list (bytes * option bytes) :=
  [(lit "/fat/a", Some (lit "text")); (lit "/fat/d", None); (lit "/fat/d/e", None); (lit "/fat/d/e/x", Some (lit "1")); (lit "/fat/d/e/y", Some (lit "2"))].

Example enters_and_renames :
  let b := pressed ([key Down; key Enter; key Down; key Enter; key Down; key F6] ++ typed (lit "2") ++ [key Enter]) disk in
  (dir (activePanel b), eName <$> entries (activePanel b), message b) = (lit "/fat/d/e", [lit "x2"; lit "y"], lit "Rename to:  done").
Proof. vm_compute. reflexivity. Qed.

(** The way up from a directory leads to the root of the volume, past the one above it. *)
Example up_skips_levels :
  let b := pressed [key Down; key Enter; key Down; key Enter; key Backspace] disk in
  (parent (activePanel (pressed [key Down; key Enter; key Down; key Enter] disk)), dir (activePanel b), cursor (activePanel b)) =
  (lit "/fat/d", lit "/fat", 0%nat).
Proof. vm_compute. reflexivity. Qed.

(** Both panels begin in one directory: a copy to where the prompt says is a copy of the
    file onto itself, which empties it. *)
Example suggested_copy_empties :
  let b := pressed [key F5; key Enter] disk in
  (message b, PosixFileOperations.fileIn (fs b) (lit "/fat/a")) = (lit "Copy to:  done", Some []).
Proof. vm_compute. reflexivity. Qed.

(** From the last name of a directory below the root, reading it again throws the cursor
    to the top. *)
Example reload_loses_the_last :
  let b := pressed [key Down; key Enter; key Down; key Enter; key End_] disk in
  (cursor (activePanel b), cursor (activePanel (reload false b))) = (2%nat, 0%nat).
Proof. vm_compute. reflexivity. Qed.

(** A copy replaces a file without asking, which the command [cp] does not. *)
Example copy_replaces :
  let b := pressed ([key F5] ++ repeat (key Backspace) 6 ++ typed (lit "/fat/d/e/x") ++ [key Enter]) disk in
  (message b, PosixFileOperations.fileIn (fs b) (lit "/fat/d/e/x")) = (lit "Copy to:  done", Some (lit "text")).
Proof. vm_compute. reflexivity. Qed.

(** One line is cut within a letter of two bytes: the screen is measured in bytes. *)
Example letters_are_cut : fit (lit "ab" ++ [0xD0; 0x9F]) 3 = lit "ab" ++ [0xD0].
Proof. reflexivity. Qed.

Lemma screen_shape_witness :
  let b := pressed [key Down; key Enter] disk in
  sane b ∧ length (render b).1 = 24%nat ∧ strip false <$> (renderAnsi b).1 = (render b).1.
Proof.
  intros b. assert (Hs : sane b) by (unfold sane, b; vm_compute; intuition discriminate).
  split; [exact Hs|]. destruct (screen_shape b Hs) as (H1 & _ & H3). split; [exact H1|exact H3].
Defined.

(** A volume that never changes. *)
#[local] Instance fixed_listing : FileOperations unit := {
  attributes p v := (FoOk, (true, false, 1), v); list_ p v := (FoOk, [mkEntry (lit "a") false 1; mkEntry (lit "d") true 0], v);
  makeDir p v := (FoOk, v); touch p v := (FoOk, true, v); removeFile p v := (FoOk, v); removeTree p v := (FoOk, v);
  rename a b v := (FoOk, v); copy a b v := (FoOk, v); readText p n v := (FoOk, [], false, v); space p v := (mkSpace true 1 1, v);
}.

Lemma browser_sandbox_witness :
  (∀ p v e, e ∈ (list_ p v).1.2 → plain (eName e)) ∧
  Forall FileShell.allowed [FileShell.CList (lit "/fat"); FileShell.CList (lit "/fat"); FileShell.CRemoveTree (lit "/fat/d"); FileShell.CList (lit "/fat")].
Proof.
  assert (Hp : ∀ p v e, e ∈ (list_ p v).1.2 → plain (eName e)).
  { intros p v e He. cbn in He. apply elem_of_cons in He as [->|[->|[]%elem_of_nil]%elem_of_cons];
      (split_and!; [done| |done|done]; intros Hs; apply elem_of_cons in Hs as [Hs|[]%elem_of_nil]; discriminate). }
  split; [exact Hp|]. exact (proj1 (browser_sandbox Hp [key Down; key F8] [] 80 24 tt)).
Defined.

End FileBrowser.
