(* ===== verification/Settings.v ===== *)
(** * The settings ([src/core/Config.cpp]) in non-volatile storage

    Every section of the settings is a group of keys of one name space of the flash store.
    The calls of the store are the class [Nvs]; what the program relies on of them is
    [NvsLaws]. ConfigBlobs.v has the lists that are kept as text under a single key. *)
From stdpp Require Import gmap.
From S2P Require Import Prelude Text Autosave LogFile LogTask.
Import AutosavePeriod AutoUpdatePlan FreeRtosErrorQueue(cText).
#[local] Open Scope Z_scope.

(** The store of one name space. A call that is refused leaves it as it was. *)
Class Nvs (S : Type) := {
  nvs_open : S → bool;
  nvs_get_str : bytes → S → option bytes;
  nvs_set_str : bytes → bytes → S → bool * S;
  nvs_get_i32 : bytes → S → option Z;
  nvs_set_i32 : bytes → Z → S → bool * S;
  nvs_get_blob : bytes → S → option bytes;
  nvs_set_blob : bytes → bytes → S → bool * S;
  nvs_erase_key : bytes → S → S;
  nvs_erase_all : S → bool * S;
}.

Module ConfigKeys.

Definition KEY_DEVICE_HOSTNAME : bytes := lit "hostname".
Definition KEY_DEVICE_LOCAL_NAME : bytes := lit "local_name".
Definition KEY_SSH_ENABLED : bytes := lit "ssh_enabled".
Definition KEY_SSH_PORT : bytes := lit "ssh_port".
Definition KEY_SSH_ALLOW_LAN : bytes := lit "ssh_allow_lan".
Definition KEY_SSH_HOST_KEY : bytes := lit "ssh_host_key".
Definition KEY_SSH_LOG_FILE : bytes := lit "ssh_logfile".
Definition KEY_SSH_LOG_TERM : bytes := lit "ssh_log_term".
Definition KEY_SSH_LOG_SIZE : bytes := lit "ssh_log_size".
Definition KEY_DEV_LOG_FILE : bytes := lit "devlog_file".
Definition KEY_DEV_LOG_SIZE : bytes := lit "devlog_size".
Definition KEY_WIFI_SSID : bytes := lit "wifi_ssid".
Definition KEY_WIFI_PASS : bytes := lit "wifi_pass".
Definition KEY_DHCP_ENABLED : bytes := lit "dhcp_enabled".
Definition KEY_DHCP_START : bytes := lit "dhcp_start".
Definition KEY_DHCP_END : bytes := lit "dhcp_end".
Definition KEY_DHCP_SUBNET : bytes := lit "dhcp_subnet".
Definition KEY_DHCP_GW : bytes := lit "dhcp_gw".
Definition KEY_DHCP_SERVER_IP : bytes := lit "dhcp_srv_ip".
Definition KEY_DHCP_LEASE : bytes := lit "dhcp_lease".
Definition KEY_DHCP_MAX_LEASES : bytes := lit "dhcp_max_ent".
Definition KEY_DHCP_LOG_TERM : bytes := lit "dhcp_log_term".
Definition KEY_DHCP_LOG_FILE : bytes := lit "dhcp_logfile".
Definition KEY_DHCP_LOG_SIZE : bytes := lit "dhcp_log_size".
Definition KEY_DHCP_ALLOW_ONLY : bytes := lit "dhcp_allow_only".
Definition KEY_DHCP_ALLOWED : bytes := lit "dhcp_allowed".
Definition KEY_DHCP_BINDINGS : bytes := lit "dhcp_bindings".
Definition KEY_DHCP_DNS_MODE : bytes := lit "dhcp_dns_mode".
Definition KEY_DHCP_DNS_ADDR : bytes := lit "dhcp_dns_addr".
Definition KEY_DHCP_LOG_REST : bytes := lit "dhcp_log_rest".
Definition KEY_DHCP_LOG_URL : bytes := lit "dhcp_log_url".
Definition KEY_DHCP_LOG_AUTH : bytes := lit "dhcp_log_auth".
Definition KEY_DHCP_LOG_AUTH_U : bytes := lit "dhcp_log_auth_u".
Definition KEY_DHCP_LOG_AUTH_P : bytes := lit "dhcp_log_auth_p".
Definition KEY_DNS_ENABLED : bytes := lit "dns_enabled".
Definition KEY_DNS_EXTERNAL : bytes := lit "dns_external".
Definition KEY_DNS_LOG_TERM : bytes := lit "dns_log_term".
Definition KEY_DNS_LOG_FWD : bytes := lit "dns_log_fwd".
Definition KEY_DNS_LOG_LOCAL : bytes := lit "dns_log_local".
Definition KEY_DNS_LOG_CACHE : bytes := lit "dns_log_cache".
Definition KEY_DNS_LOG_RST_S : bytes := lit "dns_rest_sent".
Definition KEY_DNS_LOG_REST : bytes := lit "dns_log_rest".
Definition KEY_DNS_LOG_URL : bytes := lit "dns_log_url".
Definition KEY_DNS_LOG_FILE : bytes := lit "dns_logfile".
Definition KEY_DNS_LOG_FILE_F : bytes := lit "dns_logfile_fwd".
Definition KEY_DNS_LOG_SIZE : bytes := lit "dns_log_size".
Definition KEY_DNS_LOG_AUTH : bytes := lit "dns_log_auth".
Definition KEY_DNS_LOG_AUTH_U : bytes := lit "dns_log_auth_u".
Definition KEY_DNS_LOG_AUTH_P : bytes := lit "dns_log_auth_p".
Definition KEY_DNS_CACHE_REST : bytes := lit "dns_cache_rest".
Definition KEY_DNS_CACHE_READ : bytes := lit "dns_cache_read".
Definition KEY_DNS_CACHE_WRITE : bytes := lit "dns_cache_writ".
Definition KEY_DNS_CACHE_URL : bytes := lit "dns_cache_url".
Definition KEY_DNS_CACHE_AUTH : bytes := lit "dns_cache_auth".
Definition KEY_DNS_CACHE_AUTH_U : bytes := lit "dns_cach_auth_u".
Definition KEY_DNS_CACHE_AUTH_P : bytes := lit "dns_cach_auth_p".
Definition KEY_DNS_IC_ENABLE : bytes := lit "dns_ic_enable".
Definition KEY_DNS_IC_SIZE_MB : bytes := lit "dns_ic_size_mb".
Definition KEY_DNS_IC_IGN_TTL : bytes := lit "dns_ic_ign_ttl".
Definition KEY_DNS_IC_STATS : bytes := lit "dns_ic_stats".
Definition KEY_DNS_IC_SAVE_CACHE : bytes := lit "dns_ic_sv_cache".
Definition KEY_DNS_IC_AUTOSAVE : bytes := lit "dns_ic_autosave".
Definition KEY_DNS_IC_AUTOSAVE_PERIOD : bytes := lit "dns_ic_as_per".
Definition KEY_DNS_IC_AUTOSAVE_INTERVAL : bytes := lit "dns_ic_as_int".
Definition KEY_DNS_ST_AUTOSAVE : bytes := lit "dns_st_autosave".
Definition KEY_DNS_ST_AUTOSAVE_PERIOD : bytes := lit "dns_st_as_per".
Definition KEY_DNS_ST_AUTOSAVE_INTERVAL : bytes := lit "dns_st_as_int".
Definition KEY_DNS_IC_AUTOUPDATE : bytes := lit "dns_ic_au_on".
Definition KEY_DNS_IC_AUTOUPDATE_PERIOD : bytes := lit "dns_ic_au_per".
Definition KEY_DNS_IC_AUTOUPDATE_INTERVAL : bytes := lit "dns_ic_au_int".
Definition KEY_DNS_IC_AUTOUPDATE_BATCH : bytes := lit "dns_ic_au_bat".
Definition KEY_DNS_IC_AUTOUPDATE_PAUSE : bytes := lit "dns_ic_au_pau".
Definition KEY_DNS_IC_FILE_MD5 : bytes := lit "dns_ic_file_md5".
Definition KEY_DNS_BLK_NON_AA : bytes := lit "dns_blk_nonaa".
Definition KEY_DNS_ALLOW_LAN : bytes := lit "dns_allow_lan".
Definition KEY_DNS_HOSTS : bytes := lit "dns_hosts".
Definition KEY_DNS_CACHE_DATA : bytes := lit "dns_cache".
Definition KEY_SEC_USER : bytes := lit "sec_user".
Definition KEY_SEC_PASS : bytes := lit "sec_pass".
Definition KEY_SEC_MAX_ATT : bytes := lit "sec_max_att".
Definition KEY_SEC_LOCKOUT : bytes := lit "sec_lockout".
Definition KEY_SEC_LOG_AUTH : bytes := lit "sec_log_auth".
Definition KEY_SEC_LOG_SIZE : bytes := lit "sec_log_size".
Definition KEY_SEC_HTTPS : bytes := lit "sec_https".
Definition KEY_SEC_CERT_VOL : bytes := lit "sec_cert_vol".
Definition KEY_SEC_CERT_NAME : bytes := lit "sec_cert_name".
Definition KEY_TIME_ENABLED : bytes := lit "time_enabled".
Definition KEY_TIME_SYNC_EN : bytes := lit "time_sync_en".
Definition KEY_TIME_ALLOW_LAN : bytes := lit "time_allow_lan".
Definition KEY_TIME_ALLOW_ONLY : bytes := lit "time_allow_only".
Definition KEY_TIME_RATE : bytes := lit "time_rate".
Definition KEY_TIME_NTP : bytes := lit "time_ntp".
Definition KEY_TIME_TZ_NAME : bytes := lit "time_tz_name".
Definition KEY_TIME_TZ_H : bytes := lit "time_tz_h".
Definition KEY_TIME_SYNC_S : bytes := lit "time_sync_s".
Definition KEY_TIME_LOG_TERM : bytes := lit "time_log_term".
Definition KEY_TIME_LOG_REST : bytes := lit "time_log_rest".
Definition KEY_TIME_LOG_FILE : bytes := lit "time_log_file".
Definition KEY_TIME_LOG_SIZE : bytes := lit "time_log_size".
Definition KEY_TIME_LOG_URL : bytes := lit "time_log_url".
Definition KEY_TIME_LOG_AUTH : bytes := lit "time_log_auth".
Definition KEY_TIME_LOG_AUTH_U : bytes := lit "time_log_auth_u".
Definition KEY_TIME_LOG_AUTH_P : bytes := lit "time_log_auth_p".
Definition KEY_FILES_ALLOW_LAN : bytes := lit "files_allow_lan".

End ConfigKeys.

Module Config.
Import ConfigKeys.

(** NetworkDefaults.h, NtpServers.h, CertificateBuilder.h, SshSettings.h *)
Definition kDefaultServerIp : bytes := lit "192.168.1.201".
Definition kDefaultPoolStart : bytes := lit "192.168.1.100".
Definition kDefaultPoolEnd : bytes := lit "192.168.1.200".
Definition kDefaultSubnetMask : bytes := lit "255.255.255.0".
Definition kDefaultGateway : bytes := lit "192.168.1.1".
Definition kDefaultExternalDns : bytes := lit "192.168.1.1".
Definition kDefaultLeaseSec : Z := 86400.
Definition kMinLeaseEntries : Z := 8.
Definition kMaxLeaseEntries : Z := 512.
Definition kNtpDefaultServers : bytes := lit "pool.ntp.org, time.google.com, time.cloudflare.com".
Definition kDefaultCommonName : bytes := lit "dhcpserver.local".
Definition kMaxHostNameLen : nat := 253.
Definition kSshDefaultPort : Z := 22.
Definition kSshMinPort : Z := 1.
Definition kSshMaxPort : Z := 65535.
Definition kDefaultMaxAttempts : Z := 5.
Definition kDefaultLockoutSec : Z := 300.
Definition kMaxDnsCacheBytes : nat := 512.

(** A value kept in 32 bits with a sign. *)
Definition i32 (z : Z) : Z := (z + 2 ^ 31) mod 2 ^ 32 - 2 ^ 31.

(** ** One value *)

Section Values.
Context {S : Type} `{Nvs S}.

Definition readStr (key def : bytes) (s : S) : bytes :=
  if negb (nvs_open s) then def else match nvs_get_str key s with Some v => cText v | None => def end.
Definition writeStr (key val : bytes) (s : S) : bool * S :=
  if negb (nvs_open s) then (false, s) else nvs_set_str key (cText val) s.
Definition readI32 (key : bytes) (def : Z) (s : S) : Z :=
  if negb (nvs_open s) then def else default def (nvs_get_i32 key s).
Definition writeI32 (key : bytes) (val : Z) (s : S) : bool * S :=
  if negb (nvs_open s) then (false, s) else nvs_set_i32 key val s.
(** An empty blob is none. *)
Definition readBlob (key : bytes) (s : S) : option bytes :=
  if negb (nvs_open s) then None
  else match nvs_get_blob key s with Some v => if bool_decide (v = []) then None else Some v | None => None end.
Definition writeBlob (key data : bytes) (s : S) : bool * S :=
  if negb (nvs_open s) then (false, s) else nvs_set_blob key data s.
Definition eraseKey (key : bytes) (s : S) : bool * S :=
  if negb (nvs_open s) then (false, s) else (true, nvs_erase_key key s).
Definition resetAll (s : S) : bool * S := if negb (nvs_open s) then (false, s) else nvs_erase_all s.

Definition getDnsCache (s : S) : bytes := default [] (readBlob KEY_DNS_CACHE_DATA s).
Definition setDnsCache (data : bytes) (s : S) : bool * S :=
  if (kMaxDnsCacheBytes <? length data)%nat then (false, s) else writeBlob KEY_DNS_CACHE_DATA data s.

(** [readI32(...) != 0], and a size of a log. *)
Definition readFlag (key : bytes) (def : Z) (s : S) : bool := negb (readI32 key def s =? 0).
Definition readSize (key : bytes) (s : S) : Z := u32 (LogFileSizes.logFileSizeOrDefault (readI32 key 0 s)).

End Values.

(** The writes of a setter, in their order. *)
Inductive Value := VI (z : Z) | VS (v : bytes).
Definition flag (b : bool) : Value := VI (if b then 1 else 0).

(** Whether every write was taken, which no setter looks at. *)
Definition write1 {S} `{Nvs S} (kv : bytes * Value) (s : S) : bool * S :=
  match kv.2 with VI z => writeI32 kv.1 z s | VS v => writeStr kv.1 v s end.
Fixpoint run {S} `{Nvs S} (ws : list (bytes * Value)) (s : S) : bool * S :=
  match ws with
  | [] => (true, s)
  | kv :: ws => let '(ok, s) := write1 kv s in let '(oks, s) := run ws s in (ok && oks, s)
  end.

(** ** What a stored value means *)

(** The bounds are unsigned, so a negative number is above both. *)
Definition clampEntries (n : Z) : Z :=
  if n =? 0 then 0
  else
    let n := if u32 n <? kMinLeaseEntries then kMinLeaseEntries else n in
    u32 (if kMaxLeaseEntries <? u32 n then kMaxLeaseEntries else n).
Definition clampSizeMb (sz : Z) : Z := let sz := if sz <? 1 then 1 else sz in if 20 <? sz then 20 else sz.
Definition clampRate (rate : Z) : Z :=
  let rate := if rate <? 1 then 1 else rate in u32 (if 100 <? rate then 100 else rate).

Definition sshPortValid (port : Z) : bool := (kSshMinPort <=? port) && (port <=? kSshMaxPort).
Definition sshPortOrDefault (port : Z) : Z := if sshPortValid port then u16 port else kSshDefaultPort.

Definition periodIndex (p : Period) : Z := match p with Hour => 0 | Day => 1 | Minute => 2 end.

Inductive CertStorage := Internal | SdCard.
Definition certStorageIndex (c : CertStorage) : Z := match c with Internal => 0 | SdCard => 1 end.
Definition certStorageFromIndex (index : Z) : CertStorage := if index =? certStorageIndex SdCard then SdCard else Internal.

Definition isLetter (c : Z) : bool := ((97 <=? c) && (c <=? 122)) || ((65 <=? c) && (c <=? 90)).
Definition isDigit (c : Z) : bool := (48 <=? c) && (c <=? 57).

(** Labels between dots, none of them empty. *)
Fixpoint labelsOk (previousWasDot : bool) (name : bytes) : bool :=
  match name with
  | [] => true
  | c :: name =>
      if c =? 46 then if previousWasDot then false else labelsOk true name
      else if negb (isDigit c) && negb (isLetter c) && negb (c =? 45) then false else labelsOk false name
  end.
Definition isValidHostName (name : bytes) : bool :=
  if bool_decide (name = []) || (kMaxHostNameLen <? length name)%nat then false
  else if (hd 0 name =? 46) || (List.last name 0 =? 46) || (hd 0 name =? 45) || (List.last name 0 =? 45) then false
  else labelsOk false name.

(** DeviceHostName.h *)
Definition kDeviceHostNameMaxLen : nat := 63.
Definition kDefaultDeviceHostName : bytes := lit "DhcpServer".
Definition isBlank (c : Z) : bool := (c =? 32) || (c =? 9) || (c =? 13) || (c =? 10).
Definition trimmedDeviceHostName (name : bytes) : bytes := trim_by isBlank name.
Definition isValidDeviceHostName (name : bytes) : bool :=
  if bool_decide (name = []) || (kDeviceHostNameMaxLen <? length name)%nat then false
  else if (hd 0 name =? 45) || (List.last name 0 =? 45) then false
  else forallb (λ c, isLetter c || isDigit c || (c =? 45)) name.
Definition deviceHostNameOrDefault (stored : bytes) : bytes := if isValidDeviceHostName stored then stored else kDefaultDeviceHostName.

Definition getHostName {S} `{Nvs S} (s : S) : bytes := deviceHostNameOrDefault (readStr KEY_DEVICE_HOSTNAME kDefaultDeviceHostName s).
Definition getLocalNameEnabled {S} `{Nvs S} (s : S) : bool := readFlag KEY_DEVICE_LOCAL_NAME 1 s.
Definition getSshHostKey {S} `{Nvs S} (s : S) : bytes := readStr KEY_SSH_HOST_KEY [] s.

(** ** The sections *)

Module Wifi.

Record WifiConfig := mk {
  ssid : bytes; password : bytes;
}.

Section Ops.
Context {S : Type} `{Nvs S}.

Definition getWifi (s : S) : WifiConfig :=
  let ssid := readStr KEY_WIFI_SSID [] s in
  let password := readStr KEY_WIFI_PASS [] s in
  mk ssid password.

End Ops.

Definition writes (c : WifiConfig) : list (bytes * Value) :=
  [(KEY_WIFI_SSID, VS (ssid c));
   (KEY_WIFI_PASS, VS (password c))].

Definition norm (c : WifiConfig) : WifiConfig := mk
  (cText (ssid c))
  (cText (password c))
.

End Wifi.

Module Dhcp.

Record DhcpConfig := mk {
  enabled : bool; serverIp : bytes; startIp : bytes; endIp : bytes; subnet : bytes; gateway : bytes; leaseTimeSec : Z;
  maxLeaseEntries : Z; allowOnly : bool; logTerminal : bool; logFile : bool; logFileSize : Z; dnsMode : bytes;
  dnsAddress : bytes; logRest : bool; logUrl : bytes; logAuthEnabled : bool; logAuthUser : bytes; logAuthPassword :
  bytes;
}.

Section Ops.
Context {S : Type} `{Nvs S}.

Definition getDhcp (s : S) : DhcpConfig :=
  let enabled := readFlag KEY_DHCP_ENABLED 0 s in
  let serverIp := readStr KEY_DHCP_SERVER_IP kDefaultServerIp s in
  let startIp := readStr KEY_DHCP_START kDefaultPoolStart s in
  let endIp := readStr KEY_DHCP_END kDefaultPoolEnd s in
  let subnet := readStr KEY_DHCP_SUBNET kDefaultSubnetMask s in
  let gateway := readStr KEY_DHCP_GW kDefaultGateway s in
  let leaseTimeSec := u32 (readI32 KEY_DHCP_LEASE kDefaultLeaseSec s) in
  let maxLeaseEntries := clampEntries (readI32 KEY_DHCP_MAX_LEASES 0 s) in
  let allowOnly := readFlag KEY_DHCP_ALLOW_ONLY 0 s in
  let logTerminal := readFlag KEY_DHCP_LOG_TERM 0 s in
  let logFile := readFlag KEY_DHCP_LOG_FILE 0 s in
  let logFileSize := readSize KEY_DHCP_LOG_SIZE s in
  let dnsMode := readStr KEY_DHCP_DNS_MODE (lit "auto") s in
  let dnsAddress := readStr KEY_DHCP_DNS_ADDR [] s in
  let logRest := readFlag KEY_DHCP_LOG_REST 0 s in
  let logUrl := readStr KEY_DHCP_LOG_URL [] s in
  let logAuthEnabled := readFlag KEY_DHCP_LOG_AUTH 0 s in
  let logAuthUser := readStr KEY_DHCP_LOG_AUTH_U [] s in
  let logAuthPassword := readStr KEY_DHCP_LOG_AUTH_P [] s in
  mk enabled serverIp startIp endIp subnet gateway leaseTimeSec maxLeaseEntries allowOnly logTerminal logFile
    logFileSize dnsMode dnsAddress logRest logUrl logAuthEnabled logAuthUser logAuthPassword.

End Ops.

Definition writes (c : DhcpConfig) : list (bytes * Value) :=
  [(KEY_DHCP_ENABLED, flag (enabled c));
   (KEY_DHCP_START, VS (startIp c));
   (KEY_DHCP_END, VS (endIp c));
   (KEY_DHCP_SUBNET, VS (subnet c));
   (KEY_DHCP_GW, VS (gateway c));
   (KEY_DHCP_SERVER_IP, VS (serverIp c));
   (KEY_DHCP_LEASE, VI (i32 (leaseTimeSec c)));
   (KEY_DHCP_MAX_LEASES, VI (i32 (maxLeaseEntries c)));
   (KEY_DHCP_ALLOW_ONLY, flag (allowOnly c));
   (KEY_DHCP_LOG_TERM, flag (logTerminal c));
   (KEY_DHCP_LOG_FILE, flag (logFile c));
   (KEY_DHCP_LOG_SIZE, VI (i32 (logFileSize c)));
   (KEY_DHCP_DNS_MODE, VS (if bool_decide (dnsMode c = []) then lit "auto" else dnsMode c));
   (KEY_DHCP_DNS_ADDR, VS (dnsAddress c));
   (KEY_DHCP_LOG_REST, flag (logRest c));
   (KEY_DHCP_LOG_URL, VS (logUrl c));
   (KEY_DHCP_LOG_AUTH, flag (logAuthEnabled c));
   (KEY_DHCP_LOG_AUTH_U, VS (logAuthUser c));
   (KEY_DHCP_LOG_AUTH_P, VS (logAuthPassword c))].

Definition norm (c : DhcpConfig) : DhcpConfig := mk
  (enabled c)
  (cText (serverIp c))
  (cText (startIp c))
  (cText (endIp c))
  (cText (subnet c))
  (cText (gateway c))
  (u32 (leaseTimeSec c))
  (clampEntries (i32 (maxLeaseEntries c)))
  (allowOnly c)
  (logTerminal c)
  (logFile c)
  (u32 (LogFileSizes.logFileSizeOrDefault (i32 (logFileSize c))))
  (cText (if bool_decide (dnsMode c = []) then lit "auto" else dnsMode c))
  (cText (dnsAddress c))
  (logRest c)
  (cText (logUrl c))
  (logAuthEnabled c)
  (cText (logAuthUser c))
  (cText (logAuthPassword c))
.

End Dhcp.

Module Dns.

Record DnsConfig := mk {
  enabled : bool; externalDns : bytes; logTerminal : bool; logForwarded : bool; logLocal : bool; logCache : bool;
  logRestSent : bool; logRest : bool; logUrl : bytes; logFile : bool; logFileForwarded : bool; logFileSize : Z;
  logAuthEnabled : bool; logAuthUser : bytes; logAuthPassword : bytes; cacheRest : bool; cacheRestRead : bool;
  cacheRestWrite : bool; cacheUrl : bytes; cacheAuthEnabled : bool; cacheAuthUser : bytes; cacheAuthPassword : bytes;
  cacheInternal : bool; cacheInternalSizeMb : Z; cacheInternalIgnoreTtl : bool; cacheInternalSaveStats : bool;
  cacheInternalSaveCache : bool; cacheInternalAutosave : bool; cacheInternalAutosavePeriod : Period;
  cacheInternalAutosaveInterval : Z; statsAutosave : bool; statsAutosavePeriod : Period; statsAutosaveInterval : Z;
  cacheInternalAutoUpdate : bool; cacheInternalAutoUpdatePeriod : Period; cacheInternalAutoUpdateInterval : Z;
  cacheInternalAutoUpdateBatch : Z; cacheInternalAutoUpdatePause : Z; cacheInternalFileMd5 : bytes; blockForwardNonAA
  : bool; allowOwnSubnet : bool;
}.

Section Ops.
Context {S : Type} `{Nvs S}.

Definition getDns (s : S) : DnsConfig :=
  let enabled := readFlag KEY_DNS_ENABLED 1 s in
  let externalDns := readStr KEY_DNS_EXTERNAL kDefaultExternalDns s in
  let logTerminal := readFlag KEY_DNS_LOG_TERM 0 s in
  let logForwarded := readFlag KEY_DNS_LOG_FWD 1 s in
  let logLocal := readFlag KEY_DNS_LOG_LOCAL 1 s in
  let logCache := readFlag KEY_DNS_LOG_CACHE 1 s in
  let logRestSent := readFlag KEY_DNS_LOG_RST_S 0 s in
  let logRest := readFlag KEY_DNS_LOG_REST 0 s in
  let logUrl := readStr KEY_DNS_LOG_URL [] s in
  let logFile := readFlag KEY_DNS_LOG_FILE 0 s in
  let logFileForwarded := readFlag KEY_DNS_LOG_FILE_F 1 s in
  let logFileSize := readSize KEY_DNS_LOG_SIZE s in
  let logAuthEnabled := readFlag KEY_DNS_LOG_AUTH 0 s in
  let logAuthUser := readStr KEY_DNS_LOG_AUTH_U [] s in
  let logAuthPassword := readStr KEY_DNS_LOG_AUTH_P [] s in
  let cacheRest := readFlag KEY_DNS_CACHE_REST 0 s in
  let cacheRestRead := readFlag KEY_DNS_CACHE_READ 1 s in
  let cacheRestWrite := readFlag KEY_DNS_CACHE_WRITE 1 s in
  let cacheUrl := readStr KEY_DNS_CACHE_URL [] s in
  let cacheAuthEnabled := readFlag KEY_DNS_CACHE_AUTH 0 s in
  let cacheAuthUser := readStr KEY_DNS_CACHE_AUTH_U [] s in
  let cacheAuthPassword := readStr KEY_DNS_CACHE_AUTH_P [] s in
  let cacheInternal := readFlag KEY_DNS_IC_ENABLE 0 s in
  let cacheInternalSizeMb := clampSizeMb (u32 (readI32 KEY_DNS_IC_SIZE_MB 20 s)) in
  let cacheInternalIgnoreTtl := readFlag KEY_DNS_IC_IGN_TTL 0 s in
  let cacheInternalSaveStats := readFlag KEY_DNS_IC_STATS 1 s in
  let cacheInternalSaveCache := readFlag KEY_DNS_IC_SAVE_CACHE 1 s in
  let cacheInternalAutosave := readFlag KEY_DNS_IC_AUTOSAVE 0 s in
  let cacheInternalAutosavePeriod := autosavePeriodFromIndex (u8 (readI32 KEY_DNS_IC_AUTOSAVE_PERIOD 1 s)) in
  let cacheInternalAutosaveInterval := autosaveClampInterval cacheInternalAutosavePeriod (u16 (readI32 KEY_DNS_IC_AUTOSAVE_INTERVAL 1 s)) 0 in
  let statsAutosave := readFlag KEY_DNS_ST_AUTOSAVE 0 s in
  let statsAutosavePeriod := autosavePeriodFromIndex (u8 (readI32 KEY_DNS_ST_AUTOSAVE_PERIOD 1 s)) in
  let statsAutosaveInterval := autosaveClampInterval statsAutosavePeriod (u16 (readI32 KEY_DNS_ST_AUTOSAVE_INTERVAL 1 s)) 0 in
  let cacheInternalAutoUpdate := readFlag KEY_DNS_IC_AUTOUPDATE 0 s in
  let cacheInternalAutoUpdatePeriod := autosavePeriodFromIndex (u8 (readI32 KEY_DNS_IC_AUTOUPDATE_PERIOD 0 s)) in
  let cacheInternalAutoUpdateInterval := autoUpdateClampInterval cacheInternalAutoUpdatePeriod (u16 (readI32 KEY_DNS_IC_AUTOUPDATE_INTERVAL 1 s)) in
  let cacheInternalAutoUpdateBatch := autoUpdateClampBatch (readI32 KEY_DNS_IC_AUTOUPDATE_BATCH 50 s) in
  let cacheInternalAutoUpdatePause := autoUpdateClampPause (readI32 KEY_DNS_IC_AUTOUPDATE_PAUSE 60 s) in
  let cacheInternalFileMd5 := readStr KEY_DNS_IC_FILE_MD5 [] s in
  let blockForwardNonAA := readFlag KEY_DNS_BLK_NON_AA 0 s in
  let allowOwnSubnet := readFlag KEY_DNS_ALLOW_LAN 1 s in
  mk enabled externalDns logTerminal logForwarded logLocal logCache logRestSent logRest logUrl logFile
    logFileForwarded logFileSize logAuthEnabled logAuthUser logAuthPassword cacheRest cacheRestRead cacheRestWrite
    cacheUrl cacheAuthEnabled cacheAuthUser cacheAuthPassword cacheInternal cacheInternalSizeMb cacheInternalIgnoreTtl
    cacheInternalSaveStats cacheInternalSaveCache cacheInternalAutosave cacheInternalAutosavePeriod
    cacheInternalAutosaveInterval statsAutosave statsAutosavePeriod statsAutosaveInterval cacheInternalAutoUpdate
    cacheInternalAutoUpdatePeriod cacheInternalAutoUpdateInterval cacheInternalAutoUpdateBatch
    cacheInternalAutoUpdatePause cacheInternalFileMd5 blockForwardNonAA allowOwnSubnet.

End Ops.

Definition writes (c : DnsConfig) : list (bytes * Value) :=
  [(KEY_DNS_ENABLED, flag (enabled c));
   (KEY_DNS_EXTERNAL, VS (externalDns c));
   (KEY_DNS_LOG_TERM, flag (logTerminal c));
   (KEY_DNS_LOG_FWD, flag (logForwarded c));
   (KEY_DNS_LOG_LOCAL, flag (logLocal c));
   (KEY_DNS_LOG_CACHE, flag (logCache c));
   (KEY_DNS_LOG_RST_S, flag (logRestSent c));
   (KEY_DNS_LOG_REST, flag (logRest c));
   (KEY_DNS_LOG_URL, VS (logUrl c));
   (KEY_DNS_LOG_FILE, flag (logFile c));
   (KEY_DNS_LOG_FILE_F, flag (logFileForwarded c));
   (KEY_DNS_LOG_SIZE, VI (i32 (logFileSize c)));
   (KEY_DNS_LOG_AUTH, flag (logAuthEnabled c));
   (KEY_DNS_LOG_AUTH_U, VS (logAuthUser c));
   (KEY_DNS_LOG_AUTH_P, VS (logAuthPassword c));
   (KEY_DNS_CACHE_REST, flag (cacheRest c));
   (KEY_DNS_CACHE_READ, flag (cacheRestRead c));
   (KEY_DNS_CACHE_WRITE, flag (cacheRestWrite c));
   (KEY_DNS_CACHE_URL, VS (cacheUrl c));
   (KEY_DNS_CACHE_AUTH, flag (cacheAuthEnabled c));
   (KEY_DNS_CACHE_AUTH_U, VS (cacheAuthUser c));
   (KEY_DNS_CACHE_AUTH_P, VS (cacheAuthPassword c));
   (KEY_DNS_IC_ENABLE, flag (cacheInternal c));
   (KEY_DNS_IC_SIZE_MB, VI (i32 (cacheInternalSizeMb c)));
   (KEY_DNS_IC_IGN_TTL, flag (cacheInternalIgnoreTtl c));
   (KEY_DNS_IC_STATS, flag (cacheInternalSaveStats c));
   (KEY_DNS_IC_SAVE_CACHE, flag (cacheInternalSaveCache c));
   (KEY_DNS_IC_AUTOSAVE, flag (cacheInternalAutosave c));
   (KEY_DNS_IC_AUTOSAVE_PERIOD, VI (periodIndex (cacheInternalAutosavePeriod c)));
   (KEY_DNS_IC_AUTOSAVE_INTERVAL, VI (i32 (cacheInternalAutosaveInterval c)));
   (KEY_DNS_ST_AUTOSAVE, flag (statsAutosave c));
   (KEY_DNS_ST_AUTOSAVE_PERIOD, VI (periodIndex (statsAutosavePeriod c)));
   (KEY_DNS_ST_AUTOSAVE_INTERVAL, VI (i32 (statsAutosaveInterval c)));
   (KEY_DNS_IC_AUTOUPDATE, flag (cacheInternalAutoUpdate c));
   (KEY_DNS_IC_AUTOUPDATE_PERIOD, VI (periodIndex (cacheInternalAutoUpdatePeriod c)));
   (KEY_DNS_IC_AUTOUPDATE_INTERVAL, VI (i32 (cacheInternalAutoUpdateInterval c)));
   (KEY_DNS_IC_AUTOUPDATE_BATCH, VI (i32 (cacheInternalAutoUpdateBatch c)));
   (KEY_DNS_IC_AUTOUPDATE_PAUSE, VI (i32 (cacheInternalAutoUpdatePause c)));
   (KEY_DNS_IC_FILE_MD5, VS (cacheInternalFileMd5 c));
   (KEY_DNS_BLK_NON_AA, flag (blockForwardNonAA c));
   (KEY_DNS_ALLOW_LAN, flag (allowOwnSubnet c))].

Definition norm (c : DnsConfig) : DnsConfig := mk
  (enabled c)
  (cText (externalDns c))
  (logTerminal c)
  (logForwarded c)
  (logLocal c)
  (logCache c)
  (logRestSent c)
  (logRest c)
  (cText (logUrl c))
  (logFile c)
  (logFileForwarded c)
  (u32 (LogFileSizes.logFileSizeOrDefault (i32 (logFileSize c))))
  (logAuthEnabled c)
  (cText (logAuthUser c))
  (cText (logAuthPassword c))
  (cacheRest c)
  (cacheRestRead c)
  (cacheRestWrite c)
  (cText (cacheUrl c))
  (cacheAuthEnabled c)
  (cText (cacheAuthUser c))
  (cText (cacheAuthPassword c))
  (cacheInternal c)
  (clampSizeMb (u32 (cacheInternalSizeMb c)))
  (cacheInternalIgnoreTtl c)
  (cacheInternalSaveStats c)
  (cacheInternalSaveCache c)
  (cacheInternalAutosave c)
  (cacheInternalAutosavePeriod c)
  (autosaveClampInterval (cacheInternalAutosavePeriod c) (u16 (cacheInternalAutosaveInterval c)) 0)
  (statsAutosave c)
  (statsAutosavePeriod c)
  (autosaveClampInterval (statsAutosavePeriod c) (u16 (statsAutosaveInterval c)) 0)
  (cacheInternalAutoUpdate c)
  (cacheInternalAutoUpdatePeriod c)
  (autoUpdateClampInterval (cacheInternalAutoUpdatePeriod c) (u16 (cacheInternalAutoUpdateInterval c)))
  (autoUpdateClampBatch (i32 (cacheInternalAutoUpdateBatch c)))
  (autoUpdateClampPause (i32 (cacheInternalAutoUpdatePause c)))
  (cText (cacheInternalFileMd5 c))
  (blockForwardNonAA c)
  (allowOwnSubnet c)
.

End Dns.

Module Security.

Record SecurityConfig := mk {
  username : bytes; password : bytes; maxAttempts : Z; lockoutPeriodSec : Z; logAuth : bool; logFileSize : Z;
  httpsEnabled : bool; certStorage : CertStorage; certName : bytes;
}.

Section Ops.
Context {S : Type} `{Nvs S}.

Definition getSecurity (s : S) : SecurityConfig :=
  let username := readStr KEY_SEC_USER (lit "admin") s in
  let password := readStr KEY_SEC_PASS (lit "admin") s in
  let maxAttempts := u32 (readI32 KEY_SEC_MAX_ATT kDefaultMaxAttempts s) in
  let lockoutPeriodSec := u32 (readI32 KEY_SEC_LOCKOUT kDefaultLockoutSec s) in
  let logAuth := readFlag KEY_SEC_LOG_AUTH 0 s in
  let logFileSize := readSize KEY_SEC_LOG_SIZE s in
  let httpsEnabled := readFlag KEY_SEC_HTTPS 0 s in
  let certStorage := certStorageFromIndex (u8 (readI32 KEY_SEC_CERT_VOL 0 s)) in
  let certName := readStr KEY_SEC_CERT_NAME kDefaultCommonName s in
  let certName := if isValidHostName certName then certName else kDefaultCommonName in
  mk username password maxAttempts lockoutPeriodSec logAuth logFileSize httpsEnabled certStorage certName.

End Ops.

Definition writes (c : SecurityConfig) : list (bytes * Value) :=
  [(KEY_SEC_USER, VS (username c));
   (KEY_SEC_PASS, VS (password c));
   (KEY_SEC_MAX_ATT, VI (i32 (maxAttempts c)));
   (KEY_SEC_LOCKOUT, VI (i32 (lockoutPeriodSec c)));
   (KEY_SEC_LOG_AUTH, flag (logAuth c));
   (KEY_SEC_LOG_SIZE, VI (i32 (logFileSize c)));
   (KEY_SEC_HTTPS, flag (httpsEnabled c));
   (KEY_SEC_CERT_VOL, VI (certStorageIndex (certStorage c)));
   (KEY_SEC_CERT_NAME, VS (certName c))].

Definition norm (c : SecurityConfig) : SecurityConfig := mk
  (cText (username c))
  (cText (password c))
  (u32 (maxAttempts c))
  (u32 (lockoutPeriodSec c))
  (logAuth c)
  (u32 (LogFileSizes.logFileSizeOrDefault (i32 (logFileSize c))))
  (httpsEnabled c)
  (certStorage c)
  (if isValidHostName (cText (certName c)) then cText (certName c) else kDefaultCommonName)
.

End Security.

Module Time.

Record TimeConfig := mk {
  enabled : bool; syncEnabled : bool; externalNtp : bytes; timezone : bytes; utcOffsetHours : Z; syncIntervalSec : Z;
  allowOwnSubnet : bool; rateLimitPerSec : Z; onlyAllowedComputers : bool; logTerminal : bool; logRest : bool; logFile
  : bool; logFileSize : Z; logUrl : bytes; logAuthEnabled : bool; logAuthUser : bytes; logAuthPassword : bytes;
}.

Section Ops.
Context {S : Type} `{Nvs S}.

Definition getTime (s : S) : TimeConfig :=
  let enabled := readFlag KEY_TIME_ENABLED 0 s in
  let syncEnabled := readFlag KEY_TIME_SYNC_EN 1 s in
  let externalNtp := readStr KEY_TIME_NTP kNtpDefaultServers s in
  let timezone := readStr KEY_TIME_TZ_NAME (lit "Europe/Moscow") s in
  let utcOffsetHours := readI32 KEY_TIME_TZ_H 3 s in
  let syncIntervalSec := u32 (readI32 KEY_TIME_SYNC_S 86400 s) in
  let allowOwnSubnet := readFlag KEY_TIME_ALLOW_LAN 1 s in
  let rateLimitPerSec := clampRate (readI32 KEY_TIME_RATE 5 s) in
  let onlyAllowedComputers := readFlag KEY_TIME_ALLOW_ONLY 0 s in
  let logTerminal := readFlag KEY_TIME_LOG_TERM 0 s in
  let logRest := readFlag KEY_TIME_LOG_REST 0 s in
  let logFile := readFlag KEY_TIME_LOG_FILE 0 s in
  let logFileSize := readSize KEY_TIME_LOG_SIZE s in
  let logUrl := readStr KEY_TIME_LOG_URL [] s in
  let logAuthEnabled := readFlag KEY_TIME_LOG_AUTH 0 s in
  let logAuthUser := readStr KEY_TIME_LOG_AUTH_U [] s in
  let logAuthPassword := readStr KEY_TIME_LOG_AUTH_P [] s in
  mk enabled syncEnabled externalNtp timezone utcOffsetHours syncIntervalSec allowOwnSubnet rateLimitPerSec
    onlyAllowedComputers logTerminal logRest logFile logFileSize logUrl logAuthEnabled logAuthUser logAuthPassword.

End Ops.

Definition writes (c : TimeConfig) : list (bytes * Value) :=
  [(KEY_TIME_ENABLED, flag (enabled c));
   (KEY_TIME_SYNC_EN, flag (syncEnabled c));
   (KEY_TIME_NTP, VS (externalNtp c));
   (KEY_TIME_TZ_NAME, VS (timezone c));
   (KEY_TIME_TZ_H, VI (utcOffsetHours c));
   (KEY_TIME_SYNC_S, VI (i32 (syncIntervalSec c)));
   (KEY_TIME_ALLOW_LAN, flag (allowOwnSubnet c));
   (KEY_TIME_ALLOW_ONLY, flag (onlyAllowedComputers c));
   (KEY_TIME_RATE, VI (i32 (rateLimitPerSec c)));
   (KEY_TIME_LOG_TERM, flag (logTerminal c));
   (KEY_TIME_LOG_REST, flag (logRest c));
   (KEY_TIME_LOG_FILE, flag (logFile c));
   (KEY_TIME_LOG_SIZE, VI (i32 (logFileSize c)));
   (KEY_TIME_LOG_URL, VS (logUrl c));
   (KEY_TIME_LOG_AUTH, flag (logAuthEnabled c));
   (KEY_TIME_LOG_AUTH_U, VS (logAuthUser c));
   (KEY_TIME_LOG_AUTH_P, VS (logAuthPassword c))].

Definition norm (c : TimeConfig) : TimeConfig := mk
  (enabled c)
  (syncEnabled c)
  (cText (externalNtp c))
  (cText (timezone c))
  (utcOffsetHours c)
  (u32 (syncIntervalSec c))
  (allowOwnSubnet c)
  (clampRate (i32 (rateLimitPerSec c)))
  (onlyAllowedComputers c)
  (logTerminal c)
  (logRest c)
  (logFile c)
  (u32 (LogFileSizes.logFileSizeOrDefault (i32 (logFileSize c))))
  (cText (logUrl c))
  (logAuthEnabled c)
  (cText (logAuthUser c))
  (cText (logAuthPassword c))
.

End Time.

Module Files.

Record FileConfig := mk {
  allowOwnSubnet : bool;
}.

Section Ops.
Context {S : Type} `{Nvs S}.

Definition getFiles (s : S) : FileConfig :=
  let allowOwnSubnet := readFlag KEY_FILES_ALLOW_LAN 1 s in
  mk allowOwnSubnet.

End Ops.

Definition writes (c : FileConfig) : list (bytes * Value) :=
  [(KEY_FILES_ALLOW_LAN, flag (allowOwnSubnet c))].

Definition norm (c : FileConfig) : FileConfig := mk
  (allowOwnSubnet c)
.

End Files.

Module Ssh.

Record SshConfig := mk {
  enabled : bool; port : Z; allowOwnSubnet : bool; logFile : bool; logTerminal : bool; logFileSize : Z;
}.

Section Ops.
Context {S : Type} `{Nvs S}.

Definition getSsh (s : S) : SshConfig :=
  let enabled := readFlag KEY_SSH_ENABLED 0 s in
  let port := sshPortOrDefault (readI32 KEY_SSH_PORT kSshDefaultPort s) in
  let allowOwnSubnet := readFlag KEY_SSH_ALLOW_LAN 1 s in
  let logFile := readFlag KEY_SSH_LOG_FILE 1 s in
  let logTerminal := readFlag KEY_SSH_LOG_TERM 0 s in
  let logFileSize := readSize KEY_SSH_LOG_SIZE s in
  mk enabled port allowOwnSubnet logFile logTerminal logFileSize.

End Ops.

Definition writes (c : SshConfig) : list (bytes * Value) :=
  [(KEY_SSH_ENABLED, flag (enabled c));
   (KEY_SSH_PORT, VI (sshPortOrDefault (port c)));
   (KEY_SSH_ALLOW_LAN, flag (allowOwnSubnet c));
   (KEY_SSH_LOG_FILE, flag (logFile c));
   (KEY_SSH_LOG_TERM, flag (logTerminal c));
   (KEY_SSH_LOG_SIZE, VI (i32 (logFileSize c)))].

Definition norm (c : SshConfig) : SshConfig := mk
  (enabled c)
  (sshPortOrDefault (port c))
  (allowOwnSubnet c)
  (logFile c)
  (logTerminal c)
  (u32 (LogFileSizes.logFileSizeOrDefault (i32 (logFileSize c))))
.

End Ssh.

Module DeviceLog.

Record DeviceLogConfig := mk {
  logFile : bool; logFileSize : Z;
}.

Section Ops.
Context {S : Type} `{Nvs S}.

Definition getDeviceLog (s : S) : DeviceLogConfig :=
  let logFile := readFlag KEY_DEV_LOG_FILE 1 s in
  let logFileSize := readSize KEY_DEV_LOG_SIZE s in
  mk logFile logFileSize.

End Ops.

Definition writes (c : DeviceLogConfig) : list (bytes * Value) :=
  [(KEY_DEV_LOG_FILE, flag (logFile c));
   (KEY_DEV_LOG_SIZE, VI (i32 (logFileSize c)))].

Definition norm (c : DeviceLogConfig) : DeviceLogConfig := mk
  (logFile c)
  (u32 (LogFileSizes.logFileSizeOrDefault (i32 (logFileSize c))))
.

End DeviceLog.

(** ** A change of the settings *)

Inductive Change :=
  | CHostName (name : bytes) | CLocalName (on : bool) | CWifi (c : Wifi.WifiConfig) | CDhcp (c : Dhcp.DhcpConfig)
  | CDns (c : Dns.DnsConfig) | CSecurity (c : Security.SecurityConfig) | CTime (c : Time.TimeConfig)
  | CFiles (c : Files.FileConfig) | CSsh (c : Ssh.SshConfig) | CSshHostKey (key : bytes) | CDeviceLog (c : DeviceLog.DeviceLogConfig).

Definition writesOf (ch : Change) : list (bytes * Value) :=
  match ch with
  | CHostName name => [(KEY_DEVICE_HOSTNAME, VS (trimmedDeviceHostName name))]
  | CLocalName on => [(KEY_DEVICE_LOCAL_NAME, flag on)]
  | CWifi c => Wifi.writes c | CDhcp c => Dhcp.writes c | CDns c => Dns.writes c | CSecurity c => Security.writes c
  | CTime c => Time.writes c | CFiles c => Files.writes c | CSsh c => Ssh.writes c
  | CSshHostKey key => [(KEY_SSH_HOST_KEY, VS key)]
  | CDeviceLog c => DeviceLog.writes c
  end.

(** The setters. *)
Definition set {S} `{Nvs S} (ch : Change) (s : S) : bool * S := run (writesOf ch) s.

(** The same section, read. *)
Definition get {S} `{Nvs S} (ch : Change) (s : S) : Change :=
  match ch with
  | CHostName _ => CHostName (getHostName s) | CLocalName _ => CLocalName (getLocalNameEnabled s)
  | CWifi _ => CWifi (Wifi.getWifi s) | CDhcp _ => CDhcp (Dhcp.getDhcp s) | CDns _ => CDns (Dns.getDns s)
  | CSecurity _ => CSecurity (Security.getSecurity s) | CTime _ => CTime (Time.getTime s) | CFiles _ => CFiles (Files.getFiles s)
  | CSsh _ => CSsh (Ssh.getSsh s) | CSshHostKey _ => CSshHostKey (getSshHostKey s) | CDeviceLog _ => CDeviceLog (DeviceLog.getDeviceLog s)
  end.

(** What a section is when it is read back: texts up to their first NUL, numbers within
    their bounds, names that are no names replaced. *)
Definition norm (ch : Change) : Change :=
  match ch with
  | CHostName name => CHostName (deviceHostNameOrDefault (cText (trimmedDeviceHostName name)))
  | CLocalName on => CLocalName on
  | CWifi c => CWifi (Wifi.norm c) | CDhcp c => CDhcp (Dhcp.norm c) | CDns c => CDns (Dns.norm c)
  | CSecurity c => CSecurity (Security.norm c) | CTime c => CTime (Time.norm c) | CFiles c => CFiles (Files.norm c)
  | CSsh c => CSsh (Ssh.norm c) | CSshHostKey key => CSshHostKey (cText key) | CDeviceLog c => CDeviceLog (DeviceLog.norm c)
  end.

Definition keysOf (ch : Change) : list bytes := fst <$> writesOf ch.

(** ** What the store does *)

Class NvsLaws (S : Type) `{Nvs S} := {
  open_str k v s : nvs_open (nvs_set_str k v s).2 = nvs_open s;
  open_i32 k v s : nvs_open (nvs_set_i32 k v s).2 = nvs_open s;
  str_str k v q s : nvs_get_str q (nvs_set_str k v s).2 = if (nvs_set_str k v s).1 && bytes_eqb q k then Some v else nvs_get_str q s;
  i32_i32 k v q s : nvs_get_i32 q (nvs_set_i32 k v s).2 = if (nvs_set_i32 k v s).1 && bytes_eqb q k then Some v else nvs_get_i32 q s;
  str_i32 k v q s : q ≠ k → nvs_get_str q (nvs_set_i32 k v s).2 = nvs_get_str q s;
  i32_str k v q s : q ≠ k → nvs_get_i32 q (nvs_set_str k v s).2 = nvs_get_i32 q s;
}.

Section Laws.
Context {S : Type} `{NvsLaws S}.

Lemma write1_open kv (s : S) : nvs_open (write1 kv s).2 = nvs_open s ∧ (nvs_open s = false → (write1 kv s).1 = false).
Proof.
  destruct kv as [k [z|v]]; unfold write1, writeI32, writeStr; cbn [fst snd]; destruct (nvs_open s) eqn:E; cbn [negb]; try done;
    by rewrite ?open_i32, ?open_str, E.
Qed.

Lemma run_open ws (s : S) : nvs_open (run ws s).2 = nvs_open s.
Proof.
  revert s. induction ws as [|kv ws IH]; intros s; cbn [run]; [done|]. pose proof (proj1 (write1_open kv s)) as Hw.
  destruct (write1 kv s) as [ok s1]. specialize (IH s1). destruct (run ws s1) as [oks s2]. cbn in *. congruence.
Qed.

Lemma run_ok_open ws (s : S) : ws ≠ [] → (run ws s).1 = true → nvs_open s = true.
Proof.
  destruct ws as [|kv ws]; [done|]. intros _. cbn [run]. pose proof (proj2 (write1_open kv s)) as Hw.
  destruct (write1 kv s) as [ok s1]. destruct (run ws s1) as [oks s2]. cbn in *. destruct (nvs_open s); [done|]. by rewrite Hw.
Qed.

(** A key that is not written reads as before. *)
Lemma write1_other kv q (s : S) : q ≠ kv.1 →
  nvs_get_i32 q (write1 kv s).2 = nvs_get_i32 q s ∧ nvs_get_str q (write1 kv s).2 = nvs_get_str q s.
Proof.
  intros Hq. destruct kv as [k [z|v]]; unfold write1, writeI32, writeStr; cbn [fst snd] in *; destruct (negb (nvs_open s)); try done;
    rewrite ?i32_i32, ?str_str, ?(proj2 (bytes_eqb_neq q k)), ?andb_false_r by done; auto using str_i32, i32_str.
Qed.

Lemma run_other ws q (s : S) : q ∉ fst <$> ws →
  nvs_get_i32 q (run ws s).2 = nvs_get_i32 q s ∧ nvs_get_str q (run ws s).2 = nvs_get_str q s.
Proof.
  revert s. induction ws as [|kv ws IH]; intros s Hq; cbn [run]; [done|].
  cbn [fmap list_fmap] in Hq. apply not_elem_of_cons in Hq as [Hk Hq]. destruct (write1_other kv q s Hk) as [H1 H2].
  destruct (write1 kv s) as [ok s1]. destruct (IH s1 Hq) as [H3 H4]. destruct (run ws s1) as [oks s2]. cbn in *. split; congruence.
Qed.

(** When every write was taken, a key reads as it was written. *)
Lemma run_in ws k v (s : S) : NoDup (fst <$> ws) → (run ws s).1 = true → (k, v) ∈ ws →
  nvs_open (run ws s).2 = true ∧
  match v with VI z => nvs_get_i32 k (run ws s).2 = Some z | VS t => nvs_get_str k (run ws s).2 = Some (cText t) end.
Proof.
  intros Hd Hok Hin. assert (Hne : ws ≠ []) by (intros ->; by apply elem_of_nil in Hin).
  pose proof (run_ok_open ws s Hne Hok) as Ho. split; [by rewrite run_open|].
  clear Hne. revert s Hok Ho. induction ws as [|kv ws IH]; intros s Hok Ho; [by apply elem_of_nil in Hin|]. cbn [run] in *.
  cbn [fmap list_fmap] in Hd. apply NoDup_cons in Hd as [Hk Hd]. pose proof (proj1 (write1_open kv s)) as Ho1.
  apply elem_of_cons in Hin as [<-|Hin].
  - cbn [fst] in Hk. destruct (write1 (k, v) s) as [ok s1] eqn:E. destruct (run_other ws k s1 Hk) as [H1 H2].
    destruct (run ws s1) as [oks s2]. cbn in *. apply andb_prop in Hok as [-> _].
    unfold write1, writeI32, writeStr in E. cbn [fst snd] in E. rewrite Ho in E. destruct v as [z|t]; cbn [negb] in E.
    + rewrite H1. pose proof (i32_i32 k z k s) as L. rewrite E in L. by rewrite bytes_eqb_refl in L.
    + rewrite H2. pose proof (str_str k (cText t) k s) as L. rewrite E in L. by rewrite bytes_eqb_refl in L.
  - destruct (write1 kv s) as [ok s1]. specialize (IH Hd Hin s1). destruct (run ws s1) as [oks s2]. cbn in *.
    apply andb_prop in Hok as [_ Hok]. apply IH; congruence.
Qed.

Lemma run_i32 k d ws z (s : S) : NoDup (fst <$> ws) → (run ws s).1 = true → (k, VI z) ∈ ws → readI32 k d (run ws s).2 = z.
Proof. intros Hd Hok Hin. destruct (run_in ws k (VI z) s Hd Hok Hin) as [Ho Hv]. unfold readI32. by rewrite Ho, Hv. Qed.

Lemma run_flag k d ws b (s : S) : NoDup (fst <$> ws) → (run ws s).1 = true → (k, flag b) ∈ ws → readFlag k d (run ws s).2 = b.
Proof. intros Hd Hok Hin. unfold readFlag. rewrite (run_i32 k d ws _ s Hd Hok Hin). by destruct b. Qed.

Lemma cText_twice t : cText (cText t) = cText t.
Proof. induction t as [|c t IH]; [done|]. cbn. destruct (c =? 0) eqn:E; [done|]. cbn. by rewrite E, IH. Qed.

Lemma run_str k d ws t (s : S) : NoDup (fst <$> ws) → (run ws s).1 = true → (k, VS t) ∈ ws → readStr k d (run ws s).2 = cText t.
Proof.
  intros Hd Hok Hin. destruct (run_in ws k (VS t) s Hd Hok Hin) as [Ho Hv]. unfold readStr. by rewrite Ho, Hv, cText_twice.
Qed.

Lemma u32_i32 z : u32 (i32 z) = u32 z.
Proof. unfold u32, i32. Z.div_mod_to_equations. lia. Qed.
Lemma u16_i32 z : u16 (i32 z) = u16 z.
Proof. unfold u16, i32. Z.div_mod_to_equations. lia. Qed.
Lemma period_back p : autosavePeriodFromIndex (u8 (periodIndex p)) = p.
Proof. by destruct p. Qed.
Lemma storage_back c : certStorageFromIndex (u8 (certStorageIndex c)) = c.
Proof. by destruct c. Qed.
Lemma port_back p : sshPortOrDefault (sshPortOrDefault p) = sshPortOrDefault p.
Proof.
  unfold sshPortOrDefault at 2 3. destruct (sshPortValid p) eqn:E; [|done]. apply andb_prop in E as [E1%Z.leb_le E2%Z.leb_le].
  unfold kSshMinPort, kSshMaxPort in *. rewrite u16_small by (unfold is_u16; lia). unfold sshPortOrDefault, sshPortValid, kSshMinPort, kSshMaxPort.
  rewrite (proj2 (Z.leb_le _ _) E1), (proj2 (Z.leb_le _ _) E2). apply u16_small. unfold is_u16. lia.
Qed.

End Laws.

#[local] Ltac written := repeat first [left; reflexivity | right].
#[local] Ltac reads Hd Hok :=
  repeat match goal with
  | |- context [readFlag ?k ?d (run ?ws ?s).2] => erewrite (run_flag k d ws) by (first [exact Hd | exact Hok | written])
  | |- context [readStr ?k ?d (run ?ws ?s).2] => erewrite (run_str k d ws) by (first [exact Hd | exact Hok | written])
  | |- context [readI32 ?k ?d (run ?ws ?s).2] => erewrite (run_i32 k d ws) by (first [exact Hd | exact Hok | written])
  end.
#[local] Ltac section Hok c :=
  assert (Hd : NoDup (fst <$> c)) by (apply (bool_decide_unpack _); vm_compute; exact I);
  cbv zeta; unfold readSize; reads Hd Hok; rewrite ?u32_i32, ?u16_i32, ?period_back, ?storage_back, ?port_back; reflexivity.

Section Kept.
Context {S : Type} `{NvsLaws S}.

(** Two stores that agree on some keys. *)
Definition agree (ks : list bytes) (s t : S) : Prop :=
  nvs_open s = nvs_open t ∧ Forall (λ k, nvs_get_i32 k s = nvs_get_i32 k t ∧ nvs_get_str k s = nvs_get_str k t) ks.

Lemma agree_i32 ks k d (s t : S) : agree ks s t → k ∈ ks → readI32 k d s = readI32 k d t.
Proof. intros [Ho Ha] Hk. rewrite Forall_forall in Ha. destruct (Ha k Hk) as [E _]. unfold readI32. by rewrite Ho, E. Qed.
Lemma agree_flag ks k d (s t : S) : agree ks s t → k ∈ ks → readFlag k d s = readFlag k d t.
Proof. intros Ha Hk. unfold readFlag. by rewrite (agree_i32 ks k d s t). Qed.
Lemma agree_str ks k d (s t : S) : agree ks s t → k ∈ ks → readStr k d s = readStr k d t.
Proof. intros [Ho Ha] Hk. rewrite Forall_forall in Ha. destruct (Ha k Hk) as [_ E]. unfold readStr. by rewrite Ho, E. Qed.

(** A section is read from its own keys. *)
Lemma get_agree ch (s t : S) : agree (keysOf ch) s t → get ch s = get ch t.
Proof.
  intros Ha. destruct ch; cbn [get]; f_equal;
    unfold getHostName, getLocalNameEnabled, getSshHostKey, Wifi.getWifi, Dhcp.getDhcp, Dns.getDns, Security.getSecurity, Time.getTime,
      Files.getFiles, Ssh.getSsh, DeviceLog.getDeviceLog, readSize in *; cbv zeta;
    repeat match goal with
    | |- context [readFlag ?k ?d s] => rewrite (agree_flag _ k d s t Ha) by written
    | |- context [readStr ?k ?d s] => rewrite (agree_str _ k d s t Ha) by written
    | |- context [readI32 ?k ?d s] => rewrite (agree_i32 _ k d s t Ha) by written
    end; reflexivity.
Qed.

(** No two sections share a key. *)
Definition sectionOf (ch : Change) : nat :=
  match ch with
  | CHostName _ => 0 | CLocalName _ => 1 | CWifi _ => 2 | CDhcp _ => 3 | CDns _ => 4 | CSecurity _ => 5 | CTime _ => 6
  | CFiles _ => 7 | CSsh _ => 8 | CSshHostKey _ => 9 | CDeviceLog _ => 10
  end.

Lemma keys_apart a b : sectionOf a ≠ sectionOf b → Forall (λ k, k ∉ keysOf b) (keysOf a).
Proof. intros Hab. destruct a, b; try done; (apply (bool_decide_unpack _); vm_compute; exact I). Qed.

(** Every key has the length the store takes. *)
Lemma keys_fit ch : Forall (λ k, (length k <= 15)%nat) (keysOf ch).
Proof. destruct ch; (apply (bool_decide_unpack _); vm_compute; exact I). Qed.

Lemma set_back ch (s : S) : (set ch s).1 = true → get ch (set ch s).2 = norm ch.
Proof.
  unfold set. intros Hok. destruct ch; cbn [writesOf get norm] in *; f_equal.
  - unfold getHostName. section Hok [(KEY_DEVICE_HOSTNAME, VS (trimmedDeviceHostName name))].
  - unfold getLocalNameEnabled. section Hok [(KEY_DEVICE_LOCAL_NAME, flag on)].
  - unfold Wifi.getWifi, Wifi.norm. section Hok (Wifi.writes c).
  - unfold Dhcp.getDhcp, Dhcp.norm. section Hok (Dhcp.writes c).
  - unfold Dns.getDns, Dns.norm. section Hok (Dns.writes c).
  - unfold Security.getSecurity, Security.norm. section Hok (Security.writes c).
  - unfold Time.getTime, Time.norm. section Hok (Time.writes c).
  - unfold Files.getFiles, Files.norm. section Hok (Files.writes c).
  - unfold Ssh.getSsh, Ssh.norm. section Hok (Ssh.writes c).
  - unfold getSshHostKey. section Hok [(KEY_SSH_HOST_KEY, VS key)].
  - unfold DeviceLog.getDeviceLog, DeviceLog.norm. section Hok (DeviceLog.writes c).
Qed.

(** C32: a section that was written reads back as it was given - texts to their first NUL,
    numbers within their bounds, a host name or a name of a certificate that is not valid as
    the default one - when the store took every value; whatever the store took, every other
    section reads as before; and every key is one the store takes. *)
Theorem settings_kept ch (s : S) :
  ((set ch s).1 = true → get ch (set ch s).2 = norm ch) ∧
  (∀ other, sectionOf other ≠ sectionOf ch → get other (set ch s).2 = get other s) ∧
  Forall (λ k, (length k <= 15)%nat) (keysOf ch).
Proof.
  split_and!; [apply set_back| |apply keys_fit]. intros other Ho. apply get_agree. unfold set. split; [apply run_open|].
  eapply Forall_impl; [by apply keys_apart|]. intros k Hk. by apply run_other.
Qed.

End Kept.

(** ** A store in memory *)

(** Keys of up to 15 characters, texts of fewer than 4000 bytes. *)
Record Flash := mkFlash { texts : gmap bytes bytes; ints : gmap bytes Z; blobs : gmap bytes bytes }.
Definition fits (k v : bytes) : bool := (length k <=? 15)%nat && (length v <? 4000)%nat.

#[local] Instance flash : Nvs Flash := {
  nvs_open _ := true;
  nvs_get_str k s := texts s !! k;
  nvs_set_str k v s := if fits k v then (true, mkFlash (<[k := v]> (texts s)) (ints s) (blobs s)) else (false, s);
  nvs_get_i32 k s := ints s !! k;
  nvs_set_i32 k v s := if fits k [] then (true, mkFlash (texts s) (<[k := v]> (ints s)) (blobs s)) else (false, s);
  nvs_get_blob k s := blobs s !! k;
  nvs_set_blob k v s := if fits k v then (true, mkFlash (texts s) (ints s) (<[k := v]> (blobs s))) else (false, s);
  nvs_erase_key k s := mkFlash (delete k (texts s)) (delete k (ints s)) (delete k (blobs s));
  nvs_erase_all _ := (true, mkFlash ∅ ∅ ∅);
}.

#[local] Instance flash_laws : NvsLaws Flash.
Proof.
  split; try done; intros k v q s; cbn.
  - destruct (fits k v); [|done]. unfold bytes_eqb. cbn. case_bool_decide as E; [subst; apply lookup_insert_eq|by apply lookup_insert_ne].
  - destruct (fits k []); [|done]. unfold bytes_eqb. cbn. case_bool_decide as E; [subst; apply lookup_insert_eq|by apply lookup_insert_ne].
  - by destruct (fits k []).
  - by destruct (fits k v).
Defined.

Definition erased : Flash := mkFlash ∅ ∅ ∅.

Lemma settings_kept_witness :
  let ch := CSsh (Ssh.mk true 2222 false true false 131072) in
  get ch (set ch erased).2 = ch ∧ get (CLocalName false) (set ch erased).2 = CLocalName true.
Proof.
  intros ch. assert (Hok : (set ch erased).1 = true) by (vm_compute; reflexivity).
  destruct (settings_kept ch erased) as (Hback & Hother & _). split.
  - rewrite (Hback Hok). vm_compute. reflexivity.
  - rewrite (Hother (CLocalName false)) by (cbn; lia). vm_compute. reflexivity.
Defined.

(** A value the store refuses is dropped without a word: the rest of the section is new. *)
Example refused_value_dropped :
  let s := (set (CWifi (Wifi.mk (lit "old") (lit "secret"))) erased).2 in
  let r := set (CWifi (Wifi.mk (replicate 4000 97) (lit "next"))) s in
  (r.1, Wifi.getWifi r.2) = (false, Wifi.mk (lit "old") (lit "next")).
Proof. vm_compute. reflexivity. Qed.

(** A negative number of leases is taken for a very large one. *)
Example negative_leases_are_many : (clampEntries (-1), clampEntries 3, clampEntries 0) = (512, 8, 0).
Proof. reflexivity. Qed.

(** The defaults of a device that was never set up. *)
Example first_start :
  (getHostName erased, Dhcp.enabled (Dhcp.getDhcp erased), Dns.cacheInternalAutosavePeriod (Dns.getDns erased), Security.password (Security.getSecurity erased)) =
  (lit "DhcpServer", false, Day, lit "admin").
Proof. vm_compute. reflexivity. Qed.

End Config.
