(* ===== verification/Certificates.v ===== *)
(** * The certificate of the web interface

    src/security/CertificateBuilder.h and .cpp: the rules of a certificate and its
    making, over the calls of the crypto library (class [Crypto]);
    src/security/CertStore.h and .cpp: the pair of files on one of two volumes, over the
    C library of PosixFiles.v. *)
From S2P Require Import Prelude Text TimeMath PathUtil PosixFiles Json Settings.
From stdpp Require Import gmap.
Import TimeMath.TimeMath JsonWriter(decInt).
Import Settings.Config(CertStorage, Internal, SdCard, isValidHostName).
#[local] Open Scope Z_scope.

#[export] Instance CertStorage_eq_dec : EqDecision CertStorage.
Proof. solve_decision. Defined.

(** ** The rules *)

Module CertRules.

Definition kValidityYears : Z := 5.
Definition kValidityYearChoices : list Z := [1; 2; 3; 5; 10].
Definition kKeyBits : Z := 256.
Definition kSerialBytes : nat := 8.
Definition kDaysWarningWindow : Z := 30.
Definition kIpv4Bytes : nat := 4.
Definition kMaxIpv4PartDigits : nat := 3.
Definition kMaxIpv4Octet : Z := 255.
Definition kMaxUnixSec : Z := 4294967295.
Definition kClockSetSinceEpoch : Z := 1577836800.
Definition kNotBeforeBackdateSec : Z := kSecondsPerDay.
Definition kExpiryWarnSec : Z := kDaysWarningWindow * kSecondsPerDay.

Definition certValidityYearsAllowed (years : Z) : bool := existsb (λ y, y =? years) kValidityYearChoices.

Fixpoint choicesText (first : bool) (choices : list Z) : bytes :=
  match choices with
  | [] => []
  | y :: choices => (if first then [] else if bool_decide (choices = []) then lit " or " else lit ", ") ++ dec y ++ choicesText false choices
  end.
Definition certValidityYearChoicesText : bytes := choicesText true kValidityYearChoices.

(** ["%04d%02d%02d%02d%02d%02d"]; a text of another length is refused. *)
Definition kTimeTextLen : nat := 15.
Definition dateText (dt : DateTime) : bytes :=
  padded 4 (year dt) ++ padded 2 (month dt) ++ padded 2 (day dt) ++ padded 2 (hour dt) ++ padded 2 (minute dt) ++ padded 2 (second dt).
Definition asn1Time (epoch : Z) : option bytes :=
  if (epoch <? 0) || (kMaxUnixSec <? epoch) then None
  else
    let dt := fromUnixSec (u32 epoch) in
    if negb (isValidDate (year dt) (month dt) (day dt)) then None
    else if (length (dateText dt) =? kTimeTextLen - 1)%nat then Some (dateText dt) else None.

Definition with_day (y d : Z) (dt : DateTime) : DateTime := mkDate y (month dt) d (hour dt) (minute dt) (second dt).
Definition certNotAfterEpoch (issuedAt years : Z) : option Z :=
  if (issuedAt <? 0) || (kMaxUnixSec <? issuedAt) then None
  else
    let dt := fromUnixSec (u32 issuedAt) in
    let y := year dt + years in
    if isValidDate y (month dt) (day dt) then Some (toUnixSec (with_day y (day dt) dt))
    else
      let days := daysInMonth y (month dt) in
      if (days <=? 0) || negb (isValidDate y (month dt) days) then None
      else Some (toUnixSec (with_day y days dt)).

Definition certExpired (notAfter now : Z) : bool := notAfter <=? now.
Definition certNotYetValid (notBefore now : Z) : bool := now <? notBefore.
Definition certExpiresSoon (notAfter now : Z) : bool := negb (certExpired notAfter now) && (notAfter - now <=? kExpiryWarnSec).
Definition certDaysLeft (notAfter now : Z) : Z :=
  if certExpired notAfter now then 0 else Z.quot (notAfter - now + kSecondsPerDay - 1) kSecondsPerDay.

(** One part between dots. *)
Fixpoint partValue (value : Z) (part : bytes) : option Z :=
  match part with
  | [] => Some value
  | c :: part => if (c <? 48) || (57 <? c) then None else partValue (value * 10 + (c - 48)) part
  end.
Definition octet (part : bytes) : option Z :=
  if bool_decide (part = []) || (kMaxIpv4PartDigits <? length part)%nat then None
  else if (1 <? length part)%nat && (hd 0 part =? 48) then None
  else v ← partValue 0 part; if kMaxIpv4Octet <? v then None else Some v.

(** The scan of the text: [part] is what was read since the last dot. *)
Fixpoint parseFrom (part filled text : bytes) : option bytes :=
  let close :=
    v ← octet part;
    if (kIpv4Bytes <=? length filled)%nat then None else Some (filled ++ [v]) in
  match text with
  | [] => filled ← close; if (length filled =? kIpv4Bytes)%nat then Some filled else None
  | c :: text => if c =? 46 then filled ← close; parseFrom [] filled text else parseFrom (part ++ [c]) filled text
  end.
Definition parseIpv4 (text : bytes) : option bytes := if bool_decide (text = []) then None else parseFrom [] [] text.

(** Four bytes of an address; a list of another length is no address. *)
Definition ipv4Text (ip : bytes) : bytes := Text.join 46 (dec <$> ip).
Definition commonName (hostName : bytes) : bytes := lit "CN=" ++ hostName.

Record CertRequest := mkReq { hostName : bytes; ip : bytes; notBefore : Z; notAfter : Z }.

(** *** An address as text *)

Lemma octet_of_dec v : is_u8 v → octet (dec v) = Some v ∧ 46 ∉ dec v ∧ dec v ≠ [].
Proof.
  intros Hv. assert (H : forallb (λ v, bool_decide (octet (dec v) = Some v ∧ 46 ∉ dec v ∧ dec v ≠ [])) (seqZ 0 256) = true) by (vm_compute; reflexivity).
  pose proof (u8_forallb _ H v Hv) as E. by apply bool_decide_eq_true in E.
Qed.

Lemma digit_of c : (if (c <? 48) || (57 <? c) then None else Some c) = Some c ↔ 48 <= c <= 57.
Proof. destruct (Z.ltb_spec c 48), (Z.ltb_spec 57 c); cbn; split; intros; try done; lia. Qed.

Lemma partValue_digits part : ∀ value v, partValue value part = Some v → Forall (λ c, 48 <= c <= 57) part.
Proof.
  induction part as [|c part IH]; intros value v E; [constructor|]. cbn [partValue] in E.
  destruct (Z.ltb_spec c 48), (Z.ltb_spec 57 c); cbn [orb] in E; try done. constructor; [lia|by eapply IH].
Qed.

(** The texts of at most three digits that are a number of a byte. *)
Definition canonical (part : bytes) : bool :=
  match octet part with Some v => (0 <=? v) && (v <=? 255) && bytes_eqb part (dec v) | None => true end.
Lemma canonical_parts : all_from (λ a, canonical [a] && all_from (λ b, canonical [a; b] && all_from (λ c, canonical [a; b; c]) 10 48) 10 48) 10 48 = true.
Proof. vm_compute. reflexivity. Qed.

Lemma octet_spec part v : octet part = Some v → is_u8 v ∧ part = dec v.
Proof.
  intros E. assert (Hc : canonical part = true).
  { pose proof E as E'. unfold octet in E'. destruct (bool_decide (part = [])) eqn:E1; [done|]. cbn [orb] in E'.
    destruct (Nat.ltb_spec kMaxIpv4PartDigits (length part)) as [|Hl]; [done|]. unfold kMaxIpv4PartDigits in Hl. destruct (_ && _); [done|].
    apply bind_Some in E' as (w & Hd%partValue_digits & _). apply bool_decide_eq_false in E1.
    destruct part as [|a [|b [|c [|]]]]; [done| | | |cbn in Hl; lia]; rewrite ?Forall_cons in Hd; destruct_and?;
      pose proof (all_from_spec _ _ _ canonical_parts a ltac:(lia)) as Ca; cbv beta in Ca; apply andb_true_iff in Ca as [Ca Cb]; try done;
      pose proof (all_from_spec _ _ _ Cb b ltac:(lia)) as Cc; cbv beta in Cc; apply andb_true_iff in Cc as [Cc Cd]; try done.
    exact (all_from_spec _ _ _ Cd c ltac:(lia)). }
  unfold canonical in Hc. rewrite E in Hc. apply andb_true_iff in Hc as [Hr Hb]. split; [unfold is_u8; lia|by apply bytes_eqb_eq].
Qed.

Lemma parseFrom_split text : ∀ part filled, 46 ∉ part → parseFrom part filled text =
  vs ← mapM octet (split_on 46 (part ++ text)); if (length filled + length vs =? kIpv4Bytes)%nat then Some (filled ++ vs) else None.
Proof.
  induction text as [|c text IH]; intros part filled Hp; cbn [parseFrom].
  - rewrite app_nil_r, split_on_none by done. cbn [mapM]. destruct (octet part) as [v|]; cbn [mbind option_bind mret option_ret length]; [|done].
    destruct (Nat.leb_spec kIpv4Bytes (length filled)) as [Hl|Hl]; cbn [mbind option_bind].
    + destruct (Nat.eqb_spec (length filled + 1) kIpv4Bytes); [lia|done].
    + by rewrite length_app.
  - destruct (Z.eqb_spec c 46) as [->|Hne].
    + rewrite split_on_app by done. cbn [mapM]. destruct (octet part) as [v|]; cbn [mbind option_bind]; [|done].
      destruct (Nat.leb_spec kIpv4Bytes (length filled)) as [Hl|Hl]; cbn [mbind option_bind].
      * destruct (mapM octet (split_on 46 text)) as [vs|]; cbn [mbind option_bind mret option_ret]; [|done]. cbn [length].
        destruct (Nat.eqb_spec (length filled + Datatypes.S (length vs)) kIpv4Bytes); [lia|done].
      * rewrite IH by apply not_elem_of_nil. cbn [app]. destruct (mapM octet (split_on 46 text)) as [vs|]; cbn [mbind option_bind mret option_ret]; [|done].
        rewrite length_app, <- app_assoc. cbn [length app]. by replace (length filled + 1 + length vs)%nat with (length filled + Datatypes.S (length vs))%nat by lia.
    + rewrite IH by set_solver. by rewrite <- app_assoc.
Qed.

(** Only the text the address is printed as is an address. *)
Lemma parseIpv4_spec text ip : parseIpv4 text = Some ip ↔ wf_bytes ip ∧ length ip = kIpv4Bytes ∧ text = ipv4Text ip.
Proof.
  unfold parseIpv4, ipv4Text. split.
  - destruct (bool_decide (text = [])); [done|]. rewrite parseFrom_split by apply not_elem_of_nil. cbn [app length].
    intros (vs & Hm & E)%bind_Some. destruct (Nat.eqb_spec (0 + length vs) kIpv4Bytes) as [El|]; [|done]. injection E as <-.
    apply mapM_Some in Hm. rewrite <- (join_split 46 text).
    assert (Hv : wf_bytes vs ∧ split_on 46 text = dec <$> vs).
    { clear El. induction Hm as [|p v ps vs Hp Hm [IH1 IH2]]; [by split; [constructor|]|]. apply octet_spec in Hp as [Hu ->].
      split; [by constructor|]. cbn. by rewrite IH2. }
    destruct Hv as [Hv1 Hv2]. split_and!; [done|done|]. by rewrite Hv2.
  - intros (Hw & Hl & ->). destruct ip as [|v vs]; [done|]. rewrite bool_decide_eq_false_2; cycle 1.
    { apply Forall_cons in Hw as [Hv _]. destruct (octet_of_dec v Hv) as (_ & _ & Hne). cbn. intros E%app_eq_nil. tauto. }
    rewrite parseFrom_split by apply not_elem_of_nil. cbn [app].
    rewrite split_join; [|done|]; cycle 1.
    { apply Forall_fmap. eapply Forall_impl; [exact Hw|]. intros u Hu. cbn. apply octet_of_dec, Hu. }
    assert (Hm : mapM octet (dec <$> (v :: vs)) = Some (v :: vs)).
    { apply mapM_Some. clear Hl. induction Hw as [|u us Hu Hw IH]; [constructor|]. cbn. constructor; [by apply octet_of_dec|done]. }
    rewrite Hm. cbn [mbind option_bind length app]. cbn [length] in Hl. by rewrite Hl.
Qed.

(** *** Dates *)

(** The date a text of X.509 says. *)
Definition textDate (text : bytes) : DateTime :=
  let n i k := default 0 (digitsAt i k text) in mkDate (n 0%nat 4%nat) (n 4%nat 2%nat) (n 6%nat 2%nat) (n 8%nat 2%nat) (n 10%nat 2%nat) (n 12%nat 2%nat).

Lemma days_are_dates : all_from (λ n, let '(y, m, d) := civilFromDays n in
  (1970 <=? y) && (1 <=? m) && (m <=? 12) && (1 <=? d) && (d <=? daysInMonth y m)) (Z.to_nat 49711) 0 = true.
Proof. vm_compute. reflexivity. Qed.

(** Every second of the clock is of a date of the calendar. *)
Lemma seconds_dates s : is_u32 s → let dt := fromUnixSec s in
  1970 <= year dt ∧ 1 <= month dt <= 12 ∧ 1 <= day dt <= daysInMonth (year dt) (month dt) ∧ isValidTime (hour dt) (minute dt) (second dt) = true.
Proof.
  intros Hs dt. pose proof (seconds_roundtrip s Hs) as (_ & _ & _ & Ht). fold dt in Ht. cut (1970 <= year dt ∧ 1 <= month dt <= 12 ∧ 1 <= day dt <= daysInMonth (year dt) (month dt)); [tauto|].
  clear Ht. subst dt. unfold is_u32 in Hs. unfold fromUnixSec, kSecondsPerDay. rewrite Z.quot_div_nonneg, Z.rem_mod_nonneg by lia.
  destruct (Z.ltb_spec (s mod 86400) 0) as [Hl|_]; [zdm|].
  pose proof (all_from_spec _ _ _ days_are_dates (s / 86400) ltac:(zdm)) as E. cbv beta in E.
  destruct (civilFromDays (s / 86400)) as [[y m] d]. cbn [year month day]. rewrite !andb_true_iff in E. lia.
Qed.

Lemma textDate_date dt rest : isValid dt = true → length (dateText dt) = 14%nat ∧ textDate (dateText dt ++ rest) = dt.
Proof.
  unfold isValid. intros [Hd Ht]%andb_true_iff. destruct dt as [y mo d h mi s]. cbn [year month day hour minute second] in *.
  apply valid_date_spec in Hd as (Hy & Hm & Hdd). apply valid_time_spec in Ht as (Hh & Hmi & Hs).
  pose proof (daysInMonth_bound y mo Hm) as [Hb _]. cbv zeta in Hb.
  assert (monthLen (if 2 <? mo then mo - 3 else mo + 9) <= 31) by (apply (month_cases mo); try exact Hm; vm_compute; congruence).
  destruct (four_digits y Hy) as (y1 & y2 & y3 & y4 & Ey & Py).
  destruct (two_digits mo ltac:(lia)) as (m1 & m2 & Em & Pm). destruct (two_digits d ltac:(lia)) as (d1 & d2 & Ed & Pd).
  destruct (two_digits h ltac:(lia)) as (h1 & h2 & Eh & Ph). destruct (two_digits mi ltac:(lia)) as (i1 & i2 & Ei & Pi).
  destruct (two_digits s ltac:(lia)) as (s1 & s2 & Es & Ps).
  unfold textDate, dateText, digitsAt. cbn [year month day hour minute second]. rewrite Ey, Em, Ed, Eh, Ei, Es. cbn [app drop].
  split; [done|]. by rewrite Py, Pm, Pd, Ph, Pi, Ps.
Qed.

Lemma asn1_date e text : asn1Time e = Some text → text = dateText (fromUnixSec e) ∧ isValid (fromUnixSec e) = true ∧ is_u32 e.
Proof.
  unfold asn1Time, kMaxUnixSec. destruct (Z.ltb_spec e 0), (Z.ltb_spec 4294967295 e); cbn [orb]; try done.
  assert (He : is_u32 e) by (unfold is_u32; lia). rewrite (u32_small e He). pose proof (seconds_dates e He) as (_ & _ & _ & Ht).
  destruct (isValidDate _ _ _) eqn:Hd; cbn [negb]; [|done]. destruct (_ =? _)%nat; [|done].
  intros [= <-]. split_and!; [done|unfold isValid; by rewrite Hd, Ht|done].
Qed.

Lemma years_forward : all_from (λ y, all_from (λ m, forallb (λ k, daysFromCivil y m 1 + 30 <? daysFromCivil (y + k) m 1) kValidityYearChoices) 12 1) 131 1970 = true.
Proof. vm_compute. reflexivity. Qed.

Lemma days_of_month y m d : 1 <= m <= 12 → 1 <= d <= 31 → 1 <= y < 2 ^ 31 → daysFromCivil y m d = daysFromCivil y m 1 + (d - 1).
Proof. intros Hm Hd Hy. rewrite !days_spec by lia. lia. Qed.

(** The end of the validity is later than its issue, and is the same day and time so many
    years on, or the last day of a month that has no such day. *)
Lemma notAfter_spec now years na : certValidityYearsAllowed years = true → certNotAfterEpoch now years = Some na →
  let d := fromUnixSec now in let d' := fromUnixSec na in
  now < na <= kMaxUnixSec ∧ isValid d' = true ∧ year d' = year d + years ∧ month d' = month d ∧ day d' = Z.min (day d) (daysInMonth (year d') (month d)) ∧
  hour d' = hour d ∧ minute d' = minute d ∧ second d' = second d.
Proof.
  intros Hk. unfold certNotAfterEpoch, kMaxUnixSec. destruct (Z.ltb_spec now 0), (Z.ltb_spec 4294967295 now); cbn [orb]; try done.
  assert (Hn : is_u32 now) by (unfold is_u32; lia). rewrite (u32_small now Hn). pose proof (seconds_roundtrip now Hn) as (Hr & _ & _ & _).
  pose proof (seconds_dates now Hn) as (Hy & Hm & Hd & Ht). set (dt := fromUnixSec now) in *. cbv zeta.
  pose proof (daysInMonth_bound (year dt) (month dt) Hm) as [Hb _]. cbv zeta in Hb.
  assert (Hml : monthLen (if 2 <? month dt then month dt - 3 else month dt + 9) <= 31) by (apply (month_cases (month dt)); try exact Hm; vm_compute; congruence).
  assert (Hgo : ∀ d', isValidDate (year dt + years) (month dt) d' = true → d' = Z.min (day dt) (daysInMonth (year dt + years) (month dt)) →
    ∀ na, Some (toUnixSec (with_day (year dt + years) d' dt)) = Some na → now < na <= 4294967295 ∧ isValid (fromUnixSec na) = true ∧ year (fromUnixSec na) = year dt + years ∧
    month (fromUnixSec na) = month dt ∧ day (fromUnixSec na) = Z.min (day dt) (daysInMonth (year (fromUnixSec na)) (month dt)) ∧
    hour (fromUnixSec na) = hour dt ∧ minute (fromUnixSec na) = minute dt ∧ second (fromUnixSec na) = second dt).
  { clear na. intros d' Hv Hmin na [= <-]. pose proof (valid_date_spec _ _ _ Hv) as (Hy' & _ & Hd').
    assert (Hval : isValid (with_day (year dt + years) d' dt) = true) by (unfold isValid, with_day; cbn; by rewrite Hv, Ht).
    destruct (unix_roundtrip _ Hval) as (E1 & E2 & E3). rewrite E3. unfold with_day in *. cbn [year month day hour minute second] in *.
    split_and!; try done; [|lia]. rewrite E1, <- (days_calendar _ _ _ Hv).
    apply valid_time_spec in Ht as (Hh & Hmi & Hs). unfold toUnixSec, kSecondsPerDay, kSecondsPerHour, kSecondsPerMinute in Hr.
    unfold certValidityYearsAllowed in Hk. apply List.existsb_exists in Hk as (k & Hin & ->%Z.eqb_eq).
    assert (Hkpos : 1 <= years) by (cbn in Hin; lia).
    pose proof (all_from_spec _ _ _ years_forward (year dt) ltac:(lia)) as Hf. cbv beta in Hf. pose proof (all_from_spec _ _ _ Hf (month dt) ltac:(lia)) as Hf2. cbv beta in Hf2.
    rewrite List.forallb_forall in Hf2. specialize (Hf2 _ Hin). cbv beta in Hf2. apply Z.ltb_lt in Hf2.
    rewrite (days_of_month (year dt) (month dt) (day dt)) in Hr by lia.
    pose proof (daysInMonth_bound (year dt + years) (month dt) Hm) as [Hb2 _]. cbv zeta in Hb2. rewrite (days_of_month (year dt + years) (month dt) d') by lia.
    assert (Hpos : 0 <= daysFromCivil (year dt) (month dt) 1).
    { assert (isValidDate (year dt) (month dt) 1 = true) as Hv1; [|pose proof (valid_date_range _ _ _ Hv1); lia].
      unfold isValidDate, kMinYear, kMaxYear. destruct (Z.ltb_spec (year dt) 1970), (Z.ltb_spec 2100 (year dt)); try lia. cbn [orb].
      rewrite !andb_true_iff, negb_true_iff, Z.eqb_neq, !Z.leb_le. lia. }
    rewrite <- Hr. set (A := daysFromCivil (year dt) (month dt) 1) in *. set (B := daysFromCivil (year dt + years) (month dt) 1) in *.
    set (X := (A + (day dt - 1)) * 86400 + hour dt * 3600 + minute dt * 60 + second dt). assert (u32 X <= X) by (unfold u32; apply Z.mod_le; lia). lia. }
  destruct (isValidDate (year dt + years) (month dt) (day dt)) eqn:Hv.
  - apply Hgo; [done|]. pose proof (valid_date_spec _ _ _ Hv). lia.
  - destruct (Z.leb_spec (daysInMonth (year dt + years) (month dt)) 0); [done|]. cbn [orb].
    destruct (isValidDate (year dt + years) (month dt) (daysInMonth _ _)) eqn:Hv2; [|done]. cbn [negb]. apply Hgo; [done|].
    pose proof (valid_date_spec _ _ _ Hv2) as (Hy2 & _ & _). unfold isValidDate, kMinYear, kMaxYear in Hv.
    destruct (Z.ltb_spec (year dt + years) 1970), (Z.ltb_spec 2100 (year dt + years)); try lia. cbn [orb] in Hv.
    destruct (Z.eqb_spec (daysInMonth (year dt + years) (month dt)) 0); [lia|]. cbn [negb andb] in Hv. lia.
Qed.

End CertRules.

(** ** The crypto library *)

(** What one certificate is written from, in the order it is set. *)
Inductive Field :=
  | SubjectName (name : bytes) | IssuerName (name : bytes) | SerialRaw (serial : bytes) | Validity (notBefore notAfter : bytes)
  | BasicConstraints | KeyUsage | SubjectKeyIdentifier | SubjectAlternativeName (names : list (Z * bytes)).

(** A parsed certificate: its dates, its subject as the library prints it, the tag and
    the value of each alternative name. *)
Record Crt := mkCrt { valid_from : DateTime; valid_to : DateTime; subjectDn : bytes; subject_alt_names : list (Z * bytes) }.

(** Every call that can fail gives the number of its error, 0 being none. [rnd] are the
    random bytes of one generation. *)
Class Crypto (K : Type) := {
  psa_crypto_init : Z;
  psa_generate_key : bytes → Z + K;
  pk_copy_from_psa : K → Z;
  pk_write_key_pem : K → Z + bytes;
  crt_set : list Field → Field → Z;
  crt_pem : K → list Field → Z + bytes;
  crt_parse : bytes → Z + Crt;
  mbedErrorText : Z → bytes;
}.

Module CertificateBuilder.
Import CertRules.

Definition kSerialTopBitMask : Z := 0x7F.
Definition kSanDns : Z := 2.
Definition kSanIp : Z := 7.

Definition allZero (data : bytes) : bool := forallb (λ b, b =? 0) data.
Definition psaErrorText (status : Z) : bytes := lit "PSA error " ++ decInt status.

(** The serial: positive, and not zero. *)
Definition serialOf (rnd : bytes) : bytes :=
  let serial := match take kSerialBytes rnd with [] => [] | b :: bs => Z.land b kSerialTopBitMask :: bs end in
  if allZero serial then <[(kSerialBytes - 1)%nat := 1]> serial else serial.

Section Build.
Context {K : Type} `{Crypto K}.

(** What went wrong, or what was made. *)
Definition generateKey (rnd : bytes) : bytes + K * bytes :=
  if negb (psa_crypto_init =? 0) then inl (lit "cannot initialize the crypto library: " ++ psaErrorText psa_crypto_init)
  else match psa_generate_key rnd with
  | inl status => inl (lit "cannot generate the key: " ++ psaErrorText status)
  | inr key =>
      if negb (pk_copy_from_psa key =? 0) then inl (lit "cannot use the generated key: " ++ mbedErrorText (pk_copy_from_psa key))
      else match pk_write_key_pem key with
      | inl ret => inl (lit "cannot render the key: " ++ mbedErrorText ret)
      | inr keyPem => if bool_decide (keyPem = []) then inl (lit "the key came out empty") else inr (key, keyPem)
      end
  end.

Definition fieldError (f : Field) : bytes :=
  match f with
  | SubjectName _ => lit "cannot set the subject name: "
  | IssuerName _ => lit "cannot set the issuer name: "
  | SerialRaw _ => lit "cannot set the serial number: "
  | Validity _ _ => lit "cannot set the validity: "
  | BasicConstraints => lit "cannot set the basic constraints: "
  | KeyUsage => lit "cannot set the key usage: "
  | SubjectKeyIdentifier => lit "cannot set the key identifier: "
  | SubjectAlternativeName _ => lit "cannot set the subject alternative name: "
  end.

(** The calls in their order, up to the first that fails. *)
Fixpoint setFields (done fields : list Field) : bytes + list Field :=
  match fields with
  | [] => inr done
  | f :: fields => let ret := crt_set done f in
      if negb (ret =? 0) then inl (fieldError f ++ mbedErrorText ret) else setFields (done ++ [f]) fields
  end.

Definition fieldsOf (request : CertRequest) (rnd notBefore notAfter : bytes) : list Field :=
  [SubjectName (commonName (hostName request)); IssuerName (commonName (hostName request)); SerialRaw (serialOf rnd);
   Validity notBefore notAfter; BasicConstraints; KeyUsage; SubjectKeyIdentifier;
   SubjectAlternativeName [(kSanDns, hostName request); (kSanIp, ip request)]].

Definition writeCertificate (request : CertRequest) (key : K) (rnd : bytes) : bytes + bytes :=
  match asn1Time (notBefore request), asn1Time (notAfter request) with
  | Some notBefore, Some notAfter =>
      match setFields [] (fieldsOf request rnd notBefore notAfter) with
      | inl detail => inl detail
      | inr fields =>
          match crt_pem key fields with
          | inl ret => inl (lit "cannot write the certificate: " ++ mbedErrorText ret)
          | inr certPem => if bool_decide (certPem = []) then inl (lit "the certificate came out empty") else inr certPem
          end
      end
  | _, _ => inl (lit "the validity dates are outside the supported calendar")
  end.

Definition build (request : CertRequest) (rnd : bytes) : bytes + bytes * bytes :=
  if bool_decide (hostName request = []) then inl (lit "the name of the certificate is empty")
  else match generateKey rnd with
  | inl detail => inl detail
  | inr (key, keyPem) =>
      match writeCertificate request key rnd with
      | inl detail => inl detail
      | inr certPem => inr (certPem, keyPem)
      end
  end.

End Build.
End CertificateBuilder.

(** ** The pair of files *)

(** The two volumes: whether each is mounted, and why not. *)
Class Volumes (S : Type) := {
  mountedIn : CertStorage → S → bool;
  lastErrorIn : CertStorage → S → bytes;
}.

Module CertStore.
Import CertRules CertificateBuilder.

Definition kCertFolderPath : bytes := lit "/certs".
Definition kCertFilePath : bytes := lit "/certs/server.crt".
Definition kKeyFilePath : bytes := lit "/certs/server.key".
Definition kInternalMountPoint : bytes := lit "/fat".
Definition kSdMountPoint : bytes := lit "/sdcard".
Definition kInternalPreferredMaxBytes : Z := 1024 * 1024.
Definition kReadChunkBytes : nat := 1024.
Definition kSanTypeMask : Z := 0x1F.

Definition certStorageName (storage : CertStorage) : bytes := match storage with SdCard => lit "sdcard" | Internal => lit "internal" end.
Definition certStorageFromName (name : bytes) : option CertStorage :=
  if bytes_eqb name (certStorageName Internal) then Some Internal
  else if bytes_eqb name (certStorageName SdCard) then Some SdCard else None.
Definition certMountPoint (storage : CertStorage) : bytes := match storage with SdCard => kSdMountPoint | Internal => kInternalMountPoint end.
Definition preferredStorageForSize (size : Z) : CertStorage := if kInternalPreferredMaxBytes <=? size then SdCard else Internal.
Definition certFolderPathIn (storage : CertStorage) : bytes := PathUtil.join (certMountPoint storage) kCertFolderPath.
Definition certFilePathIn (storage : CertStorage) : bytes := PathUtil.join (certMountPoint storage) kCertFilePath.
Definition keyFilePathIn (storage : CertStorage) : bytes := PathUtil.join (certMountPoint storage) kKeyFilePath.

Record CertInfo := mkInfo {
  available : bool; present : bool; valid : bool; expired : bool; notYetValid : bool; expiringSoon : bool;
  notBeforeEpoch : Z; notAfterEpoch : Z; certBytes : Z; keyBytes : Z; subject : bytes; sans : bytes; path : bytes; error : bytes;
}.

Inductive CertStatus := Ready | NoStore | StorageUnavailable | NoPair | Unreadable | Expired | NotYetValid.

Definition certStatus (info : CertInfo) : CertStatus :=
  if negb (available info) then StorageUnavailable
  else if negb (present info) then NoPair
  else if negb (valid info) then Unreadable
  else if expired info then Expired
  else if notYetValid info then NotYetValid
  else Ready.
Definition certUsable (status : CertStatus) : bool := match status with Ready => true | _ => false end.
Definition certStatusName (status : CertStatus) : bytes :=
  match status with
  | Ready => lit "ready" | NoStore => lit "no_store" | StorageUnavailable => lit "storage_unavailable" | NoPair => lit "no_certificate"
  | Unreadable => lit "unreadable" | Expired => lit "expired" | NotYetValid => lit "not_yet_valid"
  end.

(** A date of a certificate, within the calendar. *)
Definition epochOf (dt : DateTime) : option Z :=
  if negb (isValidDate (year dt) (month dt) (day dt)) then None
  else if negb (isValidTime (hour dt) (minute dt) (second dt)) then None
  else Some (toUnixSec dt).

(** Names and addresses of four bytes; others are skipped. *)
Definition sanValue (san : Z * bytes) : option bytes :=
  let type := Z.land san.1 kSanTypeMask in
  if type =? kSanIp then if (length san.2 =? kIpv4Bytes)%nat then Some (ipv4Text san.2) else None
  else if type =? kSanDns then Some san.2 else None.
Definition appendSan (out value : bytes) : bytes := (if bool_decide (out = []) then [] else out ++ lit ", ") ++ value.
Definition sanText (crt : Crt) : bytes := fold_left appendSan (omap sanValue (subject_alt_names crt)) [].

Section Ops.
Context {S K : Type} `{Posix S} `{Volumes S} `{Crypto K} (errnoText : Errno → bytes).

Definition fileExists (path : bytes) (v : S) : bool := match px_stat path v with inr _ => true | inl _ => false end.
Definition isFolder (path : bytes) (v : S) : bool := match px_stat path v with inr (true, _) => true | _ => false end.

(** The reason for a volume that is not there; [None] when it is. *)
Definition volumeReason (storage : CertStorage) (v : S) : option bytes :=
  if mountedIn storage v then None
  else Some (if bool_decide (lastErrorIn storage v = [])
             then lit "the volume " ++ certMountPoint storage ++ lit " is not available" else lastErrorIn storage v).

Definition pairPresentIn (storage : CertStorage) (v : S) : bool :=
  if negb (mountedIn storage v) then false else fileExists (certFilePathIn storage) v && fileExists (keyFilePathIn storage) v.

(** Reading ends with the first empty piece. *)
Fixpoint readLoop (n : nat) (path out : bytes) (err : bool) (v : S) : bytes * bool :=
  match n with
  | O => (out, true)
  | Datatypes.S n =>
      let '(got, e) := px_read path (length out) kReadChunkBytes v in
      if (length got =? 0)%nat then (out, err || e) else readLoop n path (out ++ got) (err || e) v
  end.
(** Every piece but the last, empty one brings a byte. *)
Definition readRounds (v : S) : nat := px_capacity v + 1.

Definition readFile (path : bytes) (v : S) : bytes + bytes :=
  match px_open_rb path v with
  | Some e => inl (lit "cannot read " ++ path ++ lit ": " ++ errnoText e)
  | None =>
      let '(out, err) := readLoop (readRounds v) path [] false v in
      if err then inl (lit "error while reading " ++ path) else inr out
  end.

(** [None]: written. *)
Definition writeFile (path text : bytes) (v : S) : option bytes * S :=
  match px_open_wb path v with
  | (Some e, v) => (Some (lit "cannot write " ++ path ++ lit ": " ++ errnoText e), v)
  | (None, v) =>
      let '(written, _, v) := px_write path text v in
      let '(flushed, v) := px_flush path v in
      let '(closed, v) := px_close path v in
      if negb (written =? length text)%nat || negb (bool_decide (flushed = None)) || negb (bool_decide (closed = None))
      then (Some (lit "error while writing " ++ path), v) else (None, v)
  end.

(** The message is of the last file that stays. *)
Fixpoint eraseEach (paths : list bytes) (detail : option bytes) (v : S) : option bytes * S :=
  match paths with
  | [] => (detail, v)
  | path :: paths =>
      let '(err, v) := px_unlink path v in
      let detail := match err with
                    | None | Some ENOENT => detail
                    | Some e => Some (lit "cannot delete " ++ path ++ lit ": " ++ errnoText e)
                    end in
      eraseEach paths detail v
  end.
Definition eraseFiles (storage : CertStorage) (v : S) : option bytes * S :=
  eraseEach [certFilePathIn storage; keyFilePathIn storage] None v.

Definition writePairIn (storage : CertStorage) (certPem keyPem : bytes) (v : S) : option bytes * S :=
  let v := (eraseFiles storage v).2 in
  match writeFile (certFilePathIn storage) certPem v with
  | (Some detail, v) => (Some detail, (eraseFiles storage v).2)
  | (None, v) =>
      match writeFile (keyFilePathIn storage) keyPem v with
      | (Some detail, v) => (Some detail, (eraseFiles storage v).2)
      | (None, v) => (None, v)
      end
  end.

Definition ensureFolderIn (storage : CertStorage) (v : S) : option bytes * S :=
  match volumeReason storage v with
  | Some reason => (Some reason, v)
  | None =>
      let folder := certFolderPathIn storage in
      if isFolder folder v then (None, v)
      else if fileExists folder v then (Some (folder ++ lit " exists and is not a folder"), v)
      else match px_mkdir folder v with
           | ((None | Some EEXIST), v) => (None, v)
           | (Some e, v) => (Some (lit "cannot create " ++ folder ++ lit ": " ++ errnoText e), v)
           end
  end.

Definition load (storage : CertStorage) (v : S) : bytes + bytes * bytes :=
  match volumeReason storage v with
  | Some reason => inl reason
  | None =>
      match readFile (certFilePathIn storage) v with
      | inl detail => inl detail
      | inr certPem =>
          match readFile (keyFilePathIn storage) v with
          | inl detail => inl detail
          | inr keyPem => inr (certPem, keyPem)
          end
      end
  end.

Definition readCertificate (storage : CertStorage) (v : S) : bytes + bytes :=
  match volumeReason storage v with Some reason => inl reason | None => readFile (certFilePathIn storage) v end.

Definition erase (storage : CertStorage) (v : S) : option bytes * S :=
  match volumeReason storage v with Some reason => (Some reason, v) | None => eraseFiles storage v end.

Definition infoFails (available : bool) (certBytes : Z) (storage : CertStorage) (error : bytes) : CertInfo :=
  mkInfo available false false false false false 0 0 certBytes 0 [] [] (certFilePathIn storage) error.

Definition info (storage : CertStorage) (now : Z) (v : S) : CertInfo :=
  match volumeReason storage v with
  | Some reason => infoFails false 0 storage reason
  | None =>
      match readFile (certFilePathIn storage) v with
      | inl reason => infoFails true 0 storage reason
      | inr certPem =>
          let certBytes := u32 (Z.of_nat (length certPem)) in
          match readFile (keyFilePathIn storage) v with
          | inl reason => infoFails true certBytes storage reason
          | inr keyPem =>
              let keyBytes := u32 (Z.of_nat (length keyPem)) in
              let bad notBefore notAfter := mkInfo true true false false false false notBefore notAfter certBytes keyBytes [] [] (certFilePathIn storage) in
              match crt_parse certPem with
              | inl ret => bad 0 0 (lit "the certificate cannot be read: " ++ mbedErrorText ret)
              | inr crt =>
                  match epochOf (valid_from crt) with
                  | None => bad 0 0 (lit "the validity dates of the certificate are outside 1970..2100")
                  | Some notBefore =>
                      match epochOf (valid_to crt) with
                      | None => bad notBefore 0 (lit "the validity dates of the certificate are outside 1970..2100")
                      | Some notAfter =>
                          mkInfo true true true (certExpired notAfter now) (certNotYetValid notBefore now) (certExpiresSoon notAfter now)
                            notBefore notAfter certBytes keyBytes (subjectDn crt) (sanText crt) (certFilePathIn storage) []
                      end
                  end
              end
          end
      end
  end.

Definition quoted (text : bytes) : bytes := [34] ++ text ++ [34].

Definition generate (storage : CertStorage) (hostName ip : bytes) (years now : Z) (rnd : bytes) (v : S) : option bytes * S :=
  match volumeReason storage v with
  | Some reason => (Some reason, v)
  | None =>
      if negb (isValidHostName hostName) then (Some (quoted hostName ++ lit " is not a usable certificate name"), v)
      else match parseIpv4 ip with
      | None => (Some (quoted ip ++ lit " is not an IPv4 address"), v)
      | Some ipBytes =>
          if negb (certValidityYearsAllowed years)
          then (Some (lit "the validity period must be " ++ certValidityYearChoicesText ++ lit " years"), v)
          else if now <? kClockSetSinceEpoch
          then (Some (lit "the device clock is not set yet: the certificate would be dated 1970"), v)
          else match certNotAfterEpoch now years with
          | None => (Some (lit "the device clock is too far ahead for a valid certificate"), v)
          | Some notAfter =>
              match ensureFolderIn storage v with
              | (Some detail, v) => (Some detail, v)
              | (None, v) =>
                  match build (mkReq hostName ipBytes (now - kNotBeforeBackdateSec) notAfter) rnd with
                  | inl detail => (Some detail, v)
                  | inr (certPem, keyPem) => writePairIn storage certPem keyPem v
                  end
              end
          end
      end
  end.

(** The target is asked twice whether it is mounted. *)
Definition copyTo (storage target : CertStorage) (v : S) : option bytes * S :=
  if bool_decide (target = storage) then (None, v)
  else match volumeReason storage v with
  | Some reason => (Some reason, v)
  | None =>
      match ensureFolderIn target v with
      | (Some detail, v) => (Some detail, v)
      | (None, v) =>
          match load storage v with
          | inl detail => (Some detail, v)
          | inr (certPem, keyPem) => writePairIn target certPem keyPem v
          end
      end
  end.

End Ops.
End CertStore.

(** What the program relies on of the library: a certificate it wrote is one it reads,
    with the dates and the names it was given. *)
Class CryptoLaws (K : Type) `{Crypto K} := {
  parse_made key subject issuer serial from to names pem : isValid from = true → isValid to = true →
    crt_pem key [SubjectName subject; IssuerName issuer; SerialRaw serial; Validity (CertRules.dateText from) (CertRules.dateText to);
                 BasicConstraints; KeyUsage; SubjectKeyIdentifier; SubjectAlternativeName names] = inr pem →
    ∃ crt, crt_parse pem = inr crt ∧ valid_from crt = from ∧ valid_to crt = to ∧ subject_alt_names crt = names;
}.

Module CertSafety.
Import PosixFileOperations CertRules CertificateBuilder CertStore.

Section Laws.
Context {S K : Type} `{PosixLaws S} `{Volumes S} `{CryptoLaws K} (errnoText : Errno → bytes).

(** *** Files *)

Lemma readLoop_sound n path c (v : S) : file v path = Some c → ∀ k err, readLoop n path (take k c) err v = (default [] (file v path), false) ∨ (readLoop n path (take k c) err v).2 = true.
Proof.
  intros Hf. rewrite Hf. cbn [default from_option id]. induction n as [|n IH]; intros k err; cbn [readLoop]; [by right|].
  destruct (read_law path (length (take k c)) kReadChunkBytes v c Hf) as (m & Hm & Hgot & Herr).
  destruct (px_read path (length (take k c)) kReadChunkBytes v) as [got e]. cbn [fst snd] in *. rewrite length_take in *.
  destruct (Nat.eqb_spec (length got) 0) as [El|Hl].
  - destruct e; [right; by rewrite orb_true_r|]. destruct err; [by right|]. left. f_equal. specialize (Herr eq_refl). subst m.
    rewrite Hgot, length_take, length_drop in El. unfold kReadChunkBytes in El. apply take_ge. lia.
  - rewrite Hgot. replace (take k c) with (take (k `min` length c) c) by (destruct (Nat.le_ge_cases k (length c)); [by rewrite Nat.min_l by lia|rewrite Nat.min_r, !take_ge by lia; done]).
    rewrite take_take_drop. apply IH.
Qed.

(** Reading without an error gives the whole file. *)
Lemma readFile_ok path (v : S) c : readFile errnoText path v = inr c → file v path = Some c.
Proof.
  unfold readFile. destruct (px_open_rb path v) eqn:Eo; [done|]. destruct (open_rb_law path v Eo) as [c' Hc].
  pose proof (readLoop_sound (readRounds v) path c' v Hc 0 false) as Hr. rewrite take_0, Hc in Hr. cbn [default from_option id] in Hr.
  destruct (readLoop _ path [] false v) as [out err]. destruct Hr as [[= -> ->]|Hr]; [by intros [= <-]|]. cbn in Hr. by rewrite Hr.
Qed.

Definition readable (v : S) (path : bytes) : Prop := px_open_rb path v = None ∧ ∀ off n, (px_read path off n v).2 = false.

Lemma readLoop_rounds n path c (v : S) k err : file v path = Some c → readable v path → (length c < n + k)%nat → (k <= length c)%nat →
  (readLoop n path (take k c) err v).2 = err.
Proof.
  intros Hf [_ Hr]. revert k err. induction n as [|n IH]; intros k err Hn Hk; cbn [readLoop]; [lia|].
  destruct (read_law path (length (take k c)) kReadChunkBytes v c Hf) as (m & Hm & Hgot & Herr). specialize (Hr (length (take k c)) kReadChunkBytes).
  destruct (px_read path (length (take k c)) kReadChunkBytes v) as [got e]. cbn [fst snd] in *. subst e. rewrite orb_false_r. rewrite length_take in *.
  destruct (Nat.eqb_spec (length got) 0) as [El|Hl]; [done|]. assert (Hg : length got = (m `min` (length c - k))%nat) by (rewrite Hgot, length_take, length_drop; lia).
  replace (k `min` length c)%nat with k in Hgot by lia.
  assert (E : take k c ++ got = take (k + length got) c).
  { rewrite Hgot at 1. rewrite take_take_drop, Hg. destruct (Nat.le_ge_cases m (length c - k)); [by rewrite Nat.min_l by lia|]. rewrite !take_ge by lia. done. }
  rewrite E. apply IH; lia.
Qed.

Lemma readFile_readable path (v : S) c : file v path = Some c → readable v path → readFile errnoText path v = inr c.
Proof.
  intros Hf Hr. assert (Hok : is_Some (match readFile errnoText path v with inr c => Some c | inl _ => None end)).
  { unfold readFile. rewrite (proj1 Hr). pose proof (readLoop_rounds (readRounds v) path c v 0 false Hf Hr) as Hl. rewrite take_0 in Hl.
    destruct (readLoop _ path [] false v) as [out err]. cbn in Hl. rewrite Hl; [by eexists| |lia].
    pose proof (capacity_law v path c Hf). unfold readRounds. lia. }
  destruct (readFile errnoText path v) as [d|c'] eqn:E; [by destruct Hok|]. apply readFile_ok in E. congruence.
Qed.

Lemma writeFile_spec path text (v : S) : let r := writeFile errnoText path text v in
  (∀ q, q ≠ path → file r.2 q = file v q) ∧ (r.1 = None → file r.2 path = Some text).
Proof.
  unfold writeFile. pose proof (λ q Hq, open_wb_law path v q (or_introl Hq)) as Ho. pose proof (open_wb_empties path v) as He.
  destruct (px_open_wb path v) as [[e|] v1]; cbn [fst snd] in *; [by split|].
  pose proof (λ q Hq, write_others path text v1 q Hq) as Hw. destruct (write_law path text v1 [] (He eq_refl)) as (_ & Hw2 & _).
  destruct (px_write path text v1) as [[written errno] v2]. cbn [fst snd] in *.
  rewrite app_nil_l in Hw2. pose proof (λ q, flush_others path v2 q) as Hf. destruct (flush_prefix path v2 _ Hw2) as (j & Hj & _ & _ & Hjok).
  destruct (px_flush path v2) as [e3 v3]. cbn [fst snd] in *.
  pose proof (λ q, close_others path v3 q) as Hc. destruct (close_prefix path v3 _ Hj) as (i & Hi & _ & Hiok).
  destruct (px_close path v3) as [e4 v4]. cbn [fst snd] in *.
  assert (Hq : ∀ q, q ≠ path → file v4 q = file v q) by (intros q Hq; rewrite Hc, Hf, Hw, Ho; done).
  destruct (Nat.eqb_spec written (length text)) as [->|]; cbn [negb orb]; [|by split].
  destruct (bool_decide_reflect (e3 = None)) as [E3|], (bool_decide_reflect (e4 = None)) as [E4|]; cbn [negb orb]; try by split.
  split; [done|]. intros _. cbn [snd]. by rewrite Hi, (Hiok E4), (proj1 (Hjok E3)), firstn_all.
Qed.

Definition pairOf (storage : CertStorage) : list bytes := [certFilePathIn storage; keyFilePathIn storage].

Lemma eraseEach_spec paths : ∀ detail (v : S), let r := eraseEach errnoText paths detail v in
  (∀ q, q ∉ paths → file r.2 q = file v q) ∧ (∀ q, file v q = None → file r.2 q = None) ∧ (r.1 = None → detail = None ∧ ∀ q, q ∈ paths → file r.2 q = None).
Proof.
  induction paths as [|p paths IH]; intros detail v; cbn [eraseEach]; [split_and!; [done|done|intros Hd; split; [done|by intros q Hq%elem_of_nil]]|].
  pose proof (λ q Hq, unlink_law p v q Hq) as Hu. pose proof (unlink_removes p v) as Hr. pose proof (unlink_absent p v) as Ha.
  destruct (px_unlink p v) as [err w]. cbn [fst snd] in *. set (detail' := match err with None | Some ENOENT => detail | Some e => Some (lit "cannot delete " ++ p ++ lit ": " ++ errnoText e) end). destruct (IH detail' w) as (I1 & I2 & I3). split_and!.
  - intros q [Hq1 Hq2]%not_elem_of_cons. rewrite I1 by done. apply Hu. by left.
  - intros q Hq. apply I2. destruct (decide (q = p)) as [->|Hne]; [|rewrite Hu; [done|by left]].
    destruct err as [e|]; [|by apply Hr]. rewrite Hu; [done|by right].
  - intros Hd. destruct (I3 Hd) as [Hd' Hall]. assert (Hp : file w p = None ∧ detail = None).
    { subst detail'. destruct err as [[]|]; try discriminate Hd'; (split; [|done]); [|by apply Hr].
      rewrite Hu; [by apply Ha|by right]. }
    split; [apply Hp|]. intros q [->|Hq]%elem_of_cons; [apply I2, Hp|by apply Hall].
Qed.

(** The files of the volume stayed although they should have gone. *)
Definition stuck (storage : CertStorage) (w : S) : Prop := ∃ u, w = (eraseFiles errnoText storage u).2 ∧ (eraseFiles errnoText storage u).1 ≠ None.
Definition gone (storage : CertStorage) (w : S) : Prop := ∀ q, q ∈ pairOf storage → file w q = None.

Lemma erase_or_stuck storage (v : S) : let w := (eraseFiles errnoText storage v).2 in
  (∀ q, q ∉ pairOf storage → file w q = file v q) ∧ (gone storage w ∨ stuck storage w).
Proof.
  destruct (eraseEach_spec (pairOf storage) None v) as (E1 & _ & E3). split; [exact E1|].
  destruct ((eraseFiles errnoText storage v).1) eqn:E; [right; exists v; by rewrite E|left]. intros q Hq. by apply E3.
Qed.

Lemma pair_apart storage : certFilePathIn storage ≠ keyFilePathIn storage.
Proof. destruct storage; by intros E%(bool_decide_eq_true_2 _). Qed.

(** What a pair written to a volume leaves there. *)
Definition pairLeft (storage : CertStorage) (v : S) (r : option bytes * S) (made : bytes → bytes → Prop) : Prop :=
  (∀ q, q ∉ pairOf storage → file r.2 q = file v q) ∧
  match r.1 with
  | None => ∃ certPem keyPem, made certPem keyPem ∧ file r.2 (certFilePathIn storage) = Some certPem ∧ file r.2 (keyFilePathIn storage) = Some keyPem
  | Some _ => gone storage r.2 ∨ stuck storage r.2
  end.

Lemma writePair_left storage certPem keyPem (v : S) : pairLeft storage v (writePairIn errnoText storage certPem keyPem v) (λ c k, c = certPem ∧ k = keyPem).
Proof.
  unfold pairLeft, writePairIn. destruct (erase_or_stuck storage v) as [E1 _]. set (v1 := (eraseFiles errnoText storage v).2) in *.
  destruct (writeFile_spec (certFilePathIn storage) certPem v1) as [W1 W2]. destruct (writeFile _ _ certPem v1) as [[d|] v2]; cbn [fst snd] in *.
  { destruct (erase_or_stuck storage v2) as [E2 E3]. split; [|exact E3]. intros q Hq. rewrite E2, W1, E1; try done. set_solver. }
  destruct (writeFile_spec (keyFilePathIn storage) keyPem v2) as [W3 W4]. destruct (writeFile _ _ keyPem v2) as [[d|] v3]; cbn [fst snd] in *.
  { destruct (erase_or_stuck storage v3) as [E2 E3]. split; [|exact E3]. intros q Hq. rewrite E2, W3, W1, E1; try done; set_solver. }
  split; [intros q Hq; rewrite W3, W1, E1; try done; set_solver|]. exists certPem, keyPem. split_and!; try done; [|by apply W4].
  rewrite W3 by apply pair_apart. by apply W2.
Qed.

Lemma ensureFolder_files storage (v : S) q : file (ensureFolderIn errnoText storage v).2 q = file v q.
Proof.
  unfold ensureFolderIn. destruct (volumeReason storage v); [done|]. destruct (isFolder _ v); [done|]. destruct (fileExists _ v); [done|].
  pose proof (mkdir_law (certFolderPathIn storage) v q) as Hm. by destruct (px_mkdir _ v) as [[[]|] w].
Qed.

Lemma load_ok storage (v : S) certPem keyPem : load errnoText storage v = inr (certPem, keyPem) →
  file v (certFilePathIn storage) = Some certPem ∧ file v (keyFilePathIn storage) = Some keyPem.
Proof.
  unfold load. destruct (volumeReason storage v); [done|]. destruct (readFile _ (certFilePathIn storage) v) as [d|c] eqn:E1; [done|].
  destruct (readFile _ (keyFilePathIn storage) v) as [d|k] eqn:E2; [done|]. intros [= <- <-]. split; by eapply readFile_ok.
Qed.

Lemma pairs_apart storage target q : storage ≠ target → q ∈ pairOf storage → q ∉ pairOf target.
Proof. destruct storage, target; intros Hne Hq; try done; (apply (bool_decide_unpack _); revert q Hq; apply Forall_forall; apply (bool_decide_unpack _); vm_compute; exact I). Qed.

(** *** The operations *)

Inductive CertOp := OpGenerate (hostName ip : bytes) (years now : Z) (rnd : bytes) | OpCopy (target : CertStorage) | OpErase.

Definition runOp (storage : CertStorage) (op : CertOp) (v : S) : option bytes * S :=
  match op with
  | OpGenerate hostName ip years now rnd => generate errnoText storage hostName ip years now rnd v
  | OpCopy target => copyTo errnoText storage target v
  | OpErase => erase errnoText storage v
  end.
Definition targetOf (storage : CertStorage) (op : CertOp) : CertStorage := match op with OpCopy target => target | _ => storage end.

(** What a request for a certificate amounts to, if it is not refused. *)
Definition made (hostName ip : bytes) (years now : Z) (rnd certPem keyPem : bytes) : Prop :=
  ∃ ipBytes na, isValidHostName hostName = true ∧ parseIpv4 ip = Some ipBytes ∧ certValidityYearsAllowed years = true ∧ kClockSetSinceEpoch <= now ∧
    certNotAfterEpoch now years = Some na ∧ build (mkReq hostName ipBytes (now - kNotBeforeBackdateSec) na) rnd = inr (certPem, keyPem).

Lemma generate_cases storage hostName ip years now rnd (v : S) : let r := generate errnoText storage hostName ip years now rnd v in
  (r.1 ≠ None ∧ ∀ q, file r.2 q = file v q) ∨
  ∃ certPem keyPem u, made hostName ip years now rnd certPem keyPem ∧ (∀ q, file u q = file v q) ∧ r = writePairIn errnoText storage certPem keyPem u.
Proof.
  unfold generate. destruct (volumeReason storage v); [by left|]. destruct (isValidHostName hostName) eqn:Eh; cbn [negb]; [|by left].
  destruct (parseIpv4 ip) as [ipBytes|] eqn:Ei; [|by left]. destruct (certValidityYearsAllowed years) eqn:Ey; cbn [negb]; [|by left].
  destruct (Z.ltb_spec now kClockSetSinceEpoch); [by left|]. destruct (certNotAfterEpoch now years) as [na|] eqn:En; [|by left].
  pose proof (ensureFolder_files storage v) as Hf. destruct (ensureFolderIn errnoText storage v) as [[d|] u]; [by left|]. cbn [snd] in Hf.
  destruct (build _ rnd) as [d|[c k]] eqn:Eb; [by left|]. right. exists c, k, u. split_and!; try done. exists ipBytes, na. by split_and!.
Qed.

Lemma copy_cases storage target (v : S) : target ≠ storage → let r := copyTo errnoText storage target v in
  (r.1 ≠ None ∧ ∀ q, file r.2 q = file v q) ∨
  ∃ certPem keyPem u, file v (certFilePathIn storage) = Some certPem ∧ file v (keyFilePathIn storage) = Some keyPem ∧ (∀ q, file u q = file v q) ∧
    r = writePairIn errnoText target certPem keyPem u.
Proof.
  intros Hne. unfold copyTo. rewrite bool_decide_eq_false_2 by done. destruct (volumeReason storage v); [by left|].
  pose proof (ensureFolder_files target v) as Hf. destruct (ensureFolderIn errnoText target v) as [[d|] u]; [by left|]. cbn [snd] in Hf.
  destruct (load errnoText storage u) as [d|[c k]] eqn:El; [by left|]. right. apply load_ok in El as [E1 E2]. rewrite Hf in E1, E2. by exists c, k, u.
Qed.

Lemma written_left storage certPem keyPem (u v : S) : (∀ q, file u q = file v q) → pairLeft storage v (writePairIn errnoText storage certPem keyPem u) (λ c k, c = certPem ∧ k = keyPem).
Proof. intros Hu. destruct (writePair_left storage certPem keyPem u) as [W1 W2]. split; [|exact W2]. intros q Hq. by rewrite W1, Hu. Qed.

(** C35: an operation on the pair of the web interface touches no other file. When it
    succeeds the volume holds both files - the pair that was made for this very request,
    or the pair of the other volume, which keeps it - or, after a deletion, neither. When
    it fails nothing has changed, or neither file is left, or a file could not be removed:
    no certificate stays with a key that is not its own as long as files can be removed. *)
Theorem pair_whole storage op (v : S) : let r := runOp storage op v in let target := targetOf storage op in
  (∀ q, q ∉ pairOf target → file r.2 q = file v q) ∧
  match r.1, op with
  | Some _, _ => (∀ q, file r.2 q = file v q) ∨ gone target r.2 ∨ stuck target r.2
  | None, OpErase => gone target r.2
  | None, OpGenerate hostName ip years now rnd => ∃ certPem keyPem, made hostName ip years now rnd certPem keyPem ∧
      file r.2 (certFilePathIn storage) = Some certPem ∧ file r.2 (keyFilePathIn storage) = Some keyPem
  | None, OpCopy _ => ∃ c k, file r.2 (certFilePathIn target) = c ∧ file r.2 (keyFilePathIn target) = k ∧
      file v (certFilePathIn storage) = c ∧ file v (keyFilePathIn storage) = k
  end.
Proof.
  intros r target. destruct op as [hostName ip years now rnd|t|]; cbn [runOp targetOf] in *; subst r target.
  - destruct (generate_cases storage hostName ip years now rnd v) as [[Hr Hf]|(c & k & u & Hm & Hu & ->)].
    + split; [by intros q _|]. destruct (generate _ _ _ _ _ _ _ v) as [[d|] w]; [by left|done].
    + destruct (written_left storage c k u v Hu) as [W1 W2]. split; [exact W1|]. destruct (writePairIn _ _ c k u) as [[d|] w]; [by right|].
      destruct W2 as (? & ? & [-> ->] & ? & ?). by exists c, k.
  - destruct (decide (t = storage)) as [->|Hne].
    { unfold copyTo. rewrite bool_decide_eq_true_2 by done. split; [done|]. by eexists _, _. }
    destruct (copy_cases storage t v Hne) as [[Hr Hf]|(c & k & u & Hc & Hk & Hu & ->)].
    + split; [by intros q _|]. destruct (copyTo _ storage t v) as [[d|] w]; [by left|done].
    + destruct (written_left t c k u v Hu) as [W1 W2]. split; [exact W1|]. destruct (writePairIn _ _ c k u) as [[d|] w]; [by right|].
      destruct W2 as (? & ? & [-> ->] & ? & ?). by exists (Some c), (Some k).
  - unfold erase. destruct (volumeReason storage v) as [d|]; [split; [done|by left]|].
    destruct (eraseEach_spec (pairOf storage) None v) as (E1 & _ & E3). split; [exact E1|].
    unfold eraseFiles in *. change [certFilePathIn storage; keyFilePathIn storage] with (pairOf storage) in *.
    destruct (eraseEach errnoText (pairOf storage) None v) as [[d|] w] eqn:E; cbn [fst snd] in *.
    + right. right. exists v. unfold eraseFiles. change [certFilePathIn storage; keyFilePathIn storage] with (pairOf storage). by rewrite E.
    + intros q Hq. by apply E3.
Qed.

Lemma setFields_all fields : ∀ done fs, setFields done fields = inr fs → fs = done ++ fields.
Proof.
  induction fields as [|f fields IH]; intros done fs; cbn [setFields]; [intros [= <-]; by rewrite app_nil_r|].
  destruct (negb _); [done|]. intros E%IH. by rewrite E, <- app_assoc.
Qed.

Lemma build_parses request rnd certPem keyPem : build request rnd = inr (certPem, keyPem) →
  ∃ crt, crt_parse certPem = inr crt ∧ epochOf (valid_from crt) = Some (notBefore request) ∧ epochOf (valid_to crt) = Some (notAfter request) ∧
    subject_alt_names crt = [(kSanDns, hostName request); (kSanIp, ip request)].
Proof.
  unfold build. destruct (bool_decide _); [done|]. destruct (generateKey rnd) as [d|[key kp]]; [done|].
  destruct (writeCertificate request key rnd) as [d|cp] eqn:E; [done|]. intros [= -> ->]. unfold writeCertificate in E.
  destruct (asn1Time (notBefore request)) as [nb|] eqn:Enb; [|done]. destruct (asn1Time (notAfter request)) as [na|] eqn:Ena; [|done].
  apply asn1_date in Enb as (-> & Vb & Ub). apply asn1_date in Ena as (-> & Va & Ua).
  destruct (setFields [] _) as [d|fs] eqn:Es; [done|]. apply setFields_all in Es as ->. destruct (crt_pem key _) as [d|pem] eqn:Ep; [done|].
  destruct (bool_decide _); [done|]. injection E as ->. destruct (parse_made _ _ _ _ _ _ _ _ Vb Va Ep) as (crt & Hp & Hf & Ht & Hn).
  exists crt. rewrite Hp, Hf, Ht. split_and!; [done| | |exact Hn]; unfold epochOf; [unfold isValid in Vb; apply andb_true_iff in Vb as [-> ->]|unfold isValid in Va; apply andb_true_iff in Va as [-> ->]];
    cbn [negb]; f_equal; by apply seconds_roundtrip.
Qed.

Lemma sans_of crt host (ipBytes text : bytes) : host ≠ [] → parseIpv4 text = Some ipBytes →
  subject_alt_names crt = [(kSanDns, host); (kSanIp, ipBytes)] → sanText crt = host ++ lit ", " ++ text.
Proof.
  intros Hh (Hw & Hl & ->)%parseIpv4_spec E. unfold sanText. rewrite E. cbn [omap list_omap].
  change (sanValue (kSanDns, host)) with (Some host). unfold sanValue. change (Z.land (kSanIp, ipBytes).1 kSanTypeMask =? kSanIp) with true. cbn [snd].
  rewrite Hl. cbn [Nat.eqb kIpv4Bytes fold_left]. change (appendSan [] host) with host.
  unfold appendSan. rewrite bool_decide_eq_false_2 by done. by rewrite <- app_assoc.
Qed.

(** A certificate that was generated serves: as long as its two files stay readable on
    their volume, the state of the pair is what the clock says of the validity asked for -
    from a day before its making to the same date so many years on -, and it names the
    host and the address of the request. *)
Theorem generated_ready storage host addr years now rnd (v w : S) : generate errnoText storage host addr years now rnd v = (None, w) →
  ∃ na, certNotAfterEpoch now years = Some na ∧ now < na ∧
  ∀ u later, mountedIn storage u = true → Forall (λ p, readable u p ∧ file u p = file w p) (pairOf storage) →
    let i := info errnoText storage later u in
    certStatus i = (if na <=? later then Expired else if later <? now - 86400 then NotYetValid else Ready) ∧
    notBeforeEpoch i = now - 86400 ∧ notAfterEpoch i = na ∧ sans i = host ++ lit ", " ++ addr ∧
    (expiringSoon i = true ↔ later < na <= later + 30 * 86400).
Proof.
  intros E. pose proof (generate_cases storage host addr years now rnd v) as Hc. cbv zeta in Hc. rewrite E in Hc.
  destruct Hc as [[Hr _]|(c & k & u0 & (ipBytes & na & Hh & Hi & Hy & Hk & Hna & Hb) & _ & Hw)]; [done|].
  exists na. split; [done|]. split; [by destruct (notAfter_spec now years na Hy Hna) as [? _]; lia|]. intros u later Hm Hp i.
  destruct (writePair_left storage c k u0) as [_ W]. rewrite <- Hw in W. cbn [fst snd] in W. destruct W as (? & ? & [-> ->] & Wc & Wk).
  unfold pairOf in Hp. rewrite !Forall_cons in Hp. destruct Hp as ([Rc Fc] & [Rk Fk] & _). rewrite Wc in Fc. rewrite Wk in Fk.
  destruct (build_parses _ _ _ _ Hb) as (crt & Hcrt & Hnb & Hnt & Hsan). cbn [notBefore notAfter hostName ip] in *.
  assert (Hi' : i = mkInfo true true true (certExpired na later) (certNotYetValid (now - kNotBeforeBackdateSec) later) (certExpiresSoon na later)
    (now - kNotBeforeBackdateSec) na (u32 (Z.of_nat (length c))) (u32 (Z.of_nat (length k))) (subjectDn crt) (sanText crt) (certFilePathIn storage) []).
  { unfold i, info, volumeReason. rewrite Hm. rewrite (readFile_readable _ _ _ Fc Rc), (readFile_readable _ _ _ Fk Rk). cbv zeta. by rewrite Hcrt, Hnb, Hnt. }
  rewrite Hi'. unfold certStatus. cbn [available present valid expired notYetValid expiringSoon notBeforeEpoch notAfterEpoch sans negb].
  split_and!; [done|done|done| |].
  - eapply sans_of; [|done|done]. intros ->. done.
  - unfold certExpiresSoon, certExpired, kExpiryWarnSec, kDaysWarningWindow, kSecondsPerDay. lia.
Qed.

End Laws.
End CertSafety.

(** ** Two volumes and a library, for examples *)

Import PosixFileOperations.

#[local] Instance both_mounted : Volumes Volume := { mountedIn _ _ := true; lastErrorIn _ _ := [] }.

(** Its certificates are their dates, their names and their subject in a row. *)
#[local] Instance plain_crypto : Crypto bytes := {
  psa_crypto_init := 0;
  psa_generate_key rnd := inr rnd;
  pk_copy_from_psa _ := 0;
  pk_write_key_pem key := inr (lit "key " ++ key);
  crt_set _ _ := 0;
  crt_pem _ fields := match fields with
                      | [SubjectName subject; _; _; Validity nb na; _; _; _; SubjectAlternativeName names] =>
                          inr (nb ++ na ++ Zpos (encode names) :: subject)
                      | _ => inl (-1)
                      end;
  crt_parse pem := match drop 28 pem with
                   | Zpos p :: subject => match decode p with
                                          | Some names => inr (mkCrt (CertRules.textDate pem) (CertRules.textDate (drop 14 pem)) subject names)
                                          | None => inl (-2)
                                          end
                   | _ => inl (-2)
                   end;
  mbedErrorText ret := lit "mbedTLS error " ++ decInt ret;
}.

#[local] Instance plain_crypto_laws : CryptoLaws bytes.
Proof.
  split. intros key subject issuer serial from to names pem Hf Ht E. cbn [crt_pem plain_crypto] in E. injection E as <-.
  destruct (CertRules.textDate_date from (CertRules.dateText to ++ Zpos (encode names) :: subject) Hf) as [Lf Ef].
  destruct (CertRules.textDate_date to (Zpos (encode names) :: subject) Ht) as [Lt Et].
  cbn [crt_parse plain_crypto]. rewrite (app_assoc (CertRules.dateText from)), drop_app_length' by (rewrite length_app; lia). rewrite decode_encode.
  rewrite <- app_assoc, Ef, drop_app_length' by lia. rewrite Et. by eexists.
Defined.

Definition emptyVolumes : Volume := onVolume [].
Definition noText (e : Errno) : bytes := [].
Definition generated : option bytes * Volume :=
  CertStore.generate (K := bytes) noText Internal (lit "dhcpserver.local") (lit "192.168.1.201") 5 1709208000 (replicate 8 255) emptyVolumes.

Lemma generated_ready_witness :
  let i now := CertStore.info (K := bytes) noText Internal now generated.2 in
  CertStore.certStatus (i 1709208000) = CertStore.Ready ∧ CertStore.certStatus (i (1709208000 + 6 * 366 * 86400)) = CertStore.Expired ∧
  CertStore.sans (i 1709208000) = lit "dhcpserver.local, 192.168.1.201".
Proof.
  intros i. assert (Hok : generated = (None, generated.2)) by (vm_compute; reflexivity).
  destruct (CertSafety.generated_ready (K := bytes) noText Internal (lit "dhcpserver.local") (lit "192.168.1.201") 5 1709208000 (replicate 8 255)
    emptyVolumes generated.2 Hok) as (na & Hna & Hlt & Hserves).
  assert (Hna' : Some na = Some 1866974400) by (rewrite <- Hna; vm_compute; reflexivity). injection Hna' as ->.
  assert (Hr : Forall (λ p, CertSafety.readable generated.2 p ∧ file generated.2 p = file generated.2 p) (CertSafety.pairOf Internal))
    by (repeat constructor; vm_compute; reflexivity).
  destruct (Hserves generated.2 1709208000 eq_refl Hr) as (S1 & _ & _ & N1 & _). destruct (Hserves generated.2 (1709208000 + 6 * 366 * 86400) eq_refl Hr) as (S2 & _).
  split_and!; [exact S1|exact S2|exact N1].
Defined.

Lemma pair_whole_witness :
  file (CertSafety.runOp (K := bytes) noText Internal CertSafety.OpErase generated.2).2 (lit "/fat/certs/server.key") = None.
Proof.
  pose proof (CertSafety.pair_whole (K := bytes) noText Internal CertSafety.OpErase generated.2) as [_ Hgone].
  assert (Hok : (CertSafety.runOp (K := bytes) noText Internal CertSafety.OpErase generated.2).1 = None) by (vm_compute; reflexivity).
  rewrite Hok in Hgone. apply Hgone. right. left.
Defined.

(** A name of 24 hours' standing: the 29th of February ends on a 28th. *)
Example leap_day_ends_early :
  (TimeMath.TimeMath.format ∘ fromUnixSec) <$> CertRules.certNotAfterEpoch 1709208000 1 = Some (lit "2025-02-28 12:00:00").
Proof. vm_compute. reflexivity. Qed.
