(* ===== verification/HttpsServer.v ===== *)
(** * The web server and its TLS side

    src/web/RedirectPolicy.h: when a plain request is sent to the TLS address, and to
    which; src/web/RouteTable.cpp and the table of src/web/WebServer.cpp: who answers a
    request; src/web/WebServer.cpp: the life of both servers, the redirect and the pages.
    A client of [Certificates] and [Settings]. *)
From S2P Require Import Prelude Text Json Settings PosixFiles Certificates.
From stdpp Require Import gmap.
#[local] Open Scope Z_scope.

(** ** Where a plain request is sent *)

Module RedirectPolicy.

Definition kDefaultHttpsPort : Z := 443.
Definition kStatusMovedPermanently : bytes := lit "301 Moved Permanently".
Definition kStatusPermanentRedirect : bytes := lit "308 Permanent Redirect".

Definition needed (tlsServing : bool) (notAfterEpoch nowSec : Z) : bool :=
  if negb tlsServing then false else if notAfterEpoch <=? 0 then false else nowSec <? notAfterEpoch.

Definition statusLineForMethod (method : bytes) : bytes :=
  if bytes_eqb method (lit "GET") || bytes_eqb method (lit "HEAD") then kStatusMovedPermanently else kStatusPermanentRedirect.

Definition safeChar (c : Z) : bool := negb ((c <=? 0x20) || (c =? 0x7f)) && negb ((c =? 60) || (c =? 62) || (c =? 34)).
Definition keepSafe (text : bytes) : bytes := List.filter safeChar text.

Definition usableChar (c : Z) : bool :=
  ((97 <=? c) && (c <=? 122)) || ((65 <=? c) && (c <=? 90)) || ((48 <=? c) && (c <=? 57)) ||
  (c =? 46) || (c =? 45) || (c =? 95) || (c =? 58) || (c =? 91) || (c =? 93).
Definition isUsableHost (name : bytes) : bool := if bool_decide (name = []) then false else forallb usableChar name.

(** [rfind]. *)
Fixpoint rfind (c : Z) (s : bytes) : option nat :=
  match s with
  | [] => None
  | x :: s => match rfind c s with Some i => Some (S i) | None => if x =? c then Some 0%nat else None end
  end.
Definition isDigit (c : Z) : bool := (48 <=? c) && (c <=? 57).

(** The name of the address without its port. *)
Definition hostOf (name : bytes) : bytes :=
  if hd 0 name =? 91 then
    match find_char 93 name with
    | None => []
    | Some close =>
        match find_from 91 name 1 with
        | Some open => if (open <? close)%nat then [] else take (close + 1) name
        | None => take (close + 1) name
        end
    end
  else match find_char 91 name with
  | Some _ => []
  | None =>
      match rfind 58 name with
      | Some colon => if forallb isDigit (drop (colon + 1) name) then take colon name else name
      | None => name
      end
  end.

Definition isBlank (c : Z) : bool := (c =? 32) || (c =? 9).
Definition portText (httpsPort : Z) : bytes := if httpsPort =? kDefaultHttpsPort then [] else 58 :: dec httpsPort.
Definition orSlash (path : bytes) : bytes := if bool_decide (path = []) then lit "/" else path.

Definition targetFrom (host uri : bytes) (httpsPort : Z) : bytes :=
  let name := trim_by isBlank host in
  if bool_decide (name = []) then []
  else if negb (isUsableHost name) then []
  else
    let name := hostOf name in
    if bool_decide (name = []) then [] else lit "https://" ++ name ++ portText httpsPort ++ orSlash (keepSafe uri).

Definition htmlChar (c : Z) : bytes :=
  if c =? 38 then lit "&amp;" else if c =? 60 then lit "&lt;" else if c =? 62 then lit "&gt;" else if c =? 34 then lit "&quot;" else [c].
Definition htmlEscaped (text : bytes) : bytes := concat (htmlChar <$> text).

(** *** The address *)

Lemma hostOf_prefix name : hostOf name `prefix_of` name.
Proof.
  unfold hostOf. repeat case_match; try apply prefix_nil; try apply prefix_take; done.
Qed.

(** The host [h] of a name without blanks: an address of six in its brackets, whatever
    follows them; or a name without brackets up to the last colon, if digits only follow
    that, and the whole of it otherwise. *)
Definition digits (s : bytes) : Prop := Forall (λ c, isDigit c = true) s.
Definition hostPart (name h : bytes) : Prop :=
  (∃ six rest, name = 91 :: six ++ 93 :: rest ∧ 91 ∉ six ∧ 93 ∉ six ∧ h = 91 :: six ++ [93]) ∨
  (91 ∉ name ∧ ((∃ port, name = h ++ 58 :: port ∧ digits port) ∨ (h = name ∧ ∀ a port, name = a ++ 58 :: port → ¬ digits port))).

Lemma rfind_Some c s i : rfind c s = Some i → ∃ a b, s = a ++ c :: b ∧ length a = i ∧ c ∉ b.
Proof.
  revert i. induction s as [|x s IH]; intros i; [done|]. cbn [rfind]. destruct (rfind c s) as [j|] eqn:E.
  - intros [= <-]. destruct (IH j eq_refl) as (a & b & -> & <- & Hb). by exists (x :: a), b.
  - destruct (Z.eqb_spec x c) as [->|]; [|done]. intros [= <-]. exists [], s. split_and!; try done.
    clear IH. induction s as [|y s IH]; [by apply not_elem_of_nil|]. cbn [rfind] in E. destruct (rfind c s); [done|]. destruct (Z.eqb_spec y c); [done|]. set_solver.
Qed.
Lemma rfind_None c s : rfind c s = None → c ∉ s.
Proof.
  induction s as [|x s IH]; cbn [rfind]; [set_solver|]. destruct (rfind c s); [done|]. destruct (Z.eqb_spec x c); [done|]. set_solver.
Qed.

(** Two colons with nothing but digits after each are the same. *)
Lemma last_colon a b a' b' : a ++ 58 :: b = a' ++ 58 :: b' → 58 ∉ b → 58 ∉ b' → a = a' ∧ b = b'.
Proof.
  revert a'. induction a as [|x a IH]; intros [|y a'] E Hb Hb'; cbn in E.
  - by injection E as <-.
  - injection E as _ ->. set_solver.
  - injection E as _ <-. set_solver.
  - injection E as <- E. by destruct (IH a' E Hb Hb') as [<- <-].
Qed.
Lemma digits_colon s : digits s → 58 ∉ s.
Proof. intros H Hin. unfold digits in H. rewrite Forall_forall in H. by specialize (H 58 Hin). Qed.
Lemma digits_forallb s : forallb isDigit s = true ↔ digits s.
Proof. unfold digits. rewrite List.forallb_forall, Forall_forall. by setoid_rewrite list_elem_of_In. Qed.

Lemma bracketed_spec name h : h ≠ [] → hostOf (91 :: name) = h ↔ ∃ six rest, name = six ++ 93 :: rest ∧ 91 ∉ six ∧ 93 ∉ six ∧ h = 91 :: six ++ [93].
Proof.
  intros Hne. unfold hostOf. cbn [hd find_char]. rewrite Z.eqb_refl, (proj2 (Z.eqb_neq 91 93)) by done. unfold find_from. rewrite skipn_cons, drop_0.
  destruct (find_char 93 name) as [j|] eqn:Ec; cbn [fmap option_fmap option_map].
  2:{ apply find_char_None in Ec. split; [by intros <-|]. intros (six & rest & -> & _). set_solver. }
  destruct (find_char_Some _ _ _ Ec) as [Hj Hi]. apply take_drop_middle in Hj. set (a := take j name) in *. set (b := drop (S j) name) in *.
  assert (Hl : length a = j) by (unfold a; rewrite length_take; apply find_char_Some in Ec as [Hx%lookup_lt_Some _]; lia).
  assert (E : take (S j + 1) (91 :: name) = 91 :: a ++ [93]).
  { rewrite <- Hj. replace (S j + 1)%nat with (S (S j)) by lia. cbn [take]. f_equal. rewrite take_app, Hl. replace (S j - j)%nat with 1%nat by lia. by rewrite (take_ge a) by lia. }
  rewrite E. assert (Hone : ∀ six rest, name = six ++ 93 :: rest → 93 ∉ six → six = a).
  { intros six rest En H6. rewrite En, find_char_app in Ec by done. injection Ec as Ec. unfold a. rewrite En. by rewrite <- Ec, take_app_length. }
  assert (Hin : 91 ∉ a → (91 :: a ++ [93] = h ↔ ∃ six rest, name = six ++ 93 :: rest ∧ 91 ∉ six ∧ 93 ∉ six ∧ h = 91 :: six ++ [93])).
  { intros Ha. split; [intros <-; by exists a, b|]. intros (six & rest & En & _ & H6 & ->). by rewrite (Hone six rest En H6). }
  destruct (find_char 91 name) as [o|] eqn:Eo; cbn [fmap option_fmap option_map].
  - change (Nat.add 1 <$> Some o) with (Some (1 + o)%nat). cbn iota. destruct (find_char_Some _ _ _ Eo) as [Ho Hb]. destruct (Nat.ltb_spec (1 + o) (S j)).
    + split; [by intros <-|]. intros (six & rest & En & H9 & H6 & _). rewrite (Hone six rest En H6) in H9. destruct H9.
      rewrite <- Hj in Ho. rewrite lookup_app_l in Ho by lia. by eapply list_elem_of_lookup_2.
    + apply Hin. intros Hx. apply Hb. rewrite <- Hj, take_app, (take_ge a) by lia. set_solver.
  - apply Hin. apply find_char_None in Eo. rewrite <- Hj in Eo. set_solver.
Qed.

Lemma hostOf_spec name h : h ≠ [] → hostOf name = h ↔ hostPart name h.
Proof.
  intros Hne. unfold hostPart. assert (Hc : (∃ rest, name = 91 :: rest) ∨ ¬ ∃ rest, name = 91 :: rest).
  { destruct name as [|x name]; [right; by intros [? ?]|]. destruct (Z.eq_dec x 91) as [->|]; [left; by exists name|right; by intros [? [= ? _]]]. }
  destruct Hc as [[rest ->]|Hno].
  { rewrite bracketed_spec by done. split.
    - intros (six & more & -> & H). left. by exists six, more.
    - intros [(six & more & [= ->] & H)|[Hn _]]; [by exists six, more|set_solver]. }
  assert (Hh : hd 0 name =? 91 = false) by (apply Z.eqb_neq; destruct name as [|x name]; cbn; [done|]; intros ->; by destruct Hno; exists name).
  assert (Hl : ¬ ∃ six rest, name = 91 :: six ++ 93 :: rest ∧ 91 ∉ six ∧ 93 ∉ six ∧ h = 91 :: six ++ [93]) by (intros (? & ? & -> & _); by destruct Hno; eexists).
  unfold hostOf. rewrite Hh. destruct (find_char 91 name) as [o|] eqn:Eo.
  { apply find_char_Some in Eo as [Ho%list_elem_of_lookup_2 _]. split; [by intros <-|]. intros [|[Hn _]]; [by destruct Hl|done]. }
  apply find_char_None in Eo. destruct (rfind 58 name) as [colon|] eqn:Er.
  - apply rfind_Some in Er as (a & b & -> & <- & Hb). rewrite drop_app_ge, take_app_length by lia. replace (length a + 1 - length a)%nat with 1%nat by lia. rewrite skipn_cons, drop_0.
    destruct (forallb isDigit b) eqn:Ed.
    + apply digits_forallb in Ed. split.
      * intros ->. right. split; [done|]. left. by exists b.
      * intros [|[_ [(port & E & Hp)|[-> Hn]]]]; [by destruct Hl| |by destruct (Hn a b)]. by destruct (last_colon _ _ _ _ E Hb (digits_colon _ Hp)) as [-> _].
    + assert (Hd : ¬ digits b) by (by rewrite <- digits_forallb, Ed).
      assert (Hw : ∀ a' port, a ++ 58 :: b = a' ++ 58 :: port → ¬ digits port).
      { intros a' port E Hp. by destruct (last_colon _ _ _ _ E Hb (digits_colon _ Hp)) as [_ <-]. }
      split; [intros <-; right; split; [done|]; by right|]. intros [|[_ [(port & E & Hp)|[-> _]]]]; [by destruct Hl|by destruct (Hw h port)|done].
  - apply rfind_None in Er. split.
    + intros ->. right. split; [done|]. right. split; [done|]. intros a port -> _. set_solver.
    + intros [|[_ [(port & -> & _)|[-> _]]]]; [by destruct Hl|set_solver|done].
Qed.

(** A request names the host [h] when its [Host] is a name of usable characters, blanks
    around it apart, and [h] is the host of that name. *)
Definition names (host h : bytes) : Prop :=
  let name := trim_by isBlank host in Forall (λ c, usableChar c = true) name ∧ hostPart name h ∧ h ≠ [].

Lemma targetFrom_spec host uri port t : t ≠ [] →
  targetFrom host uri port = t ↔ ∃ h, names host h ∧ t = lit "https://" ++ h ++ portText port ++ orSlash (keepSafe uri).
Proof.
  intros Hne. unfold targetFrom, names. set (name := trim_by isBlank host). cbv zeta. case_bool_decide as E0.
  { split; [by intros <-|]. intros (h & (_ & Hp & Hh) & _). rewrite E0 in Hp. destruct Hp as [(? & ? & ? & _)|[_ [(? & ? & _)|[? _]]]]; [done|by destruct h|done]. }
  assert (Hu : isUsableHost name = true ↔ Forall (λ c, usableChar c = true) name).
  { unfold isUsableHost. rewrite bool_decide_eq_false_2 by done. rewrite List.forallb_forall, Forall_forall. by setoid_rewrite list_elem_of_In. }
  destruct (isUsableHost name); cbn [negb]; [|split; [by intros <-|]; intros (h & (Hf & _) & _); by apply Hu in Hf].
  pose proof (proj1 Hu eq_refl) as Hf. case_bool_decide as E1.
  { split; [by intros <-|]. intros (h & (_ & Hp & Hh) & _). by apply hostOf_spec in Hp as <-. }
  split.
  - intros <-. exists (hostOf name). by split_and!; [|apply hostOf_spec| |].
  - intros (h & (_ & Hp & Hh) & ->). by apply hostOf_spec in Hp as ->.
Qed.

Lemma safe_dec z : 0 <= z → Forall (λ c, safeChar c = true) (dec z).
Proof.
  intros Hz. unfold dec. assert (H : ∀ fuel z acc, 0 <= z → Forall (λ c, safeChar c = true) acc → Forall (λ c, safeChar c = true) (dec_loop fuel z acc)).
  { induction fuel as [|fuel IH]; intros z' acc Hz' Ha; [done|]. cbn [dec_loop]. assert (Hd : safeChar (48 + z' mod 10) = true) by (unfold safeChar; zdm).
    destruct (z' / 10 =? 0); [by constructor|]. apply IH; [zdm|by constructor]. }
  apply H; [done|constructor].
Qed.

Lemma usable_safe c : usableChar c = true → safeChar c = true.
Proof. unfold usableChar, safeChar. lia. Qed.

Lemma keepSafe_safe text : Forall (λ c, safeChar c = true) (keepSafe text).
Proof. apply Forall_forall. intros c Hc%list_elem_of_In. unfold keepSafe in Hc. by apply List.filter_In in Hc as [_ Hc]. Qed.

(** An address a request is sent to is nothing, or is made of the name the client
    used itself - cut at its port, of characters of a name only - and of the request's own
    path; a path that begins with a slash ends the name there, so that the name cannot be
    continued; and nothing in the address can end a header line or an attribute. *)
Theorem target_safe host uri port : let target := targetFrom host uri port in
  target = [] ∨ ∃ name path, target = lit "https://" ++ name ++ portText port ++ path ∧
    name ≠ [] ∧ name `prefix_of` trim_by isBlank host ∧ Forall (λ c, usableChar c = true) name ∧
    (path = keepSafe uri ∨ path = lit "/") ∧ (hd 0 uri = 47 → hd 0 path = 47) ∧
    (0 <= port → Forall (λ c, safeChar c = true) target) ∧ htmlEscaped target ≠ [].
Proof.
  unfold targetFrom. set (name := trim_by isBlank host). cbv zeta. case_bool_decide as E0; [by left|]. destruct (isUsableHost name) eqn:Eu; cbn [negb]; [|by left].
  case_bool_decide as E1; [by left|]. right. exists (hostOf name), (orSlash (keepSafe uri)).
  unfold isUsableHost in Eu. rewrite bool_decide_eq_false_2 in Eu by done. rewrite List.forallb_forall in Eu.
  assert (Hu : Forall (λ c, usableChar c = true) (hostOf name)).
  { apply Forall_forall. intros c Hc. apply Eu, list_elem_of_In. destruct (hostOf_prefix name) as [rest Hr]. rewrite Hr. set_solver. }
  split_and!; [done|done|apply hostOf_prefix|exact Hu| | | |done].
  - unfold orSlash. case_bool_decide; [by right|by left].
  - intros Hs. unfold orSlash. case_bool_decide as E2; [done|]. destruct uri as [|c uri]; [done|]. cbn in Hs. by subst c.
  - intros Hp. rewrite !Forall_app. split_and!.
    + apply (bool_decide_unpack _). vm_compute. exact I.
    + eapply Forall_impl; [exact Hu|]. intros c. apply usable_safe.
    + unfold portText. destruct (port =? _); [constructor|]. constructor; [done|by apply safe_dec].
    + unfold orSlash. case_bool_decide; [by repeat constructor|apply keepSafe_safe].
Qed.

(** An address of six that was written without brackets loses its last group. *)
Example bare_address_cut : targetFrom (lit "fe80::1") (lit "/") 443 = lit "https://fe80:/".
Proof. vm_compute. reflexivity. Qed.

End RedirectPolicy.

(** ** The routes *)

Module RouteTable.

Inductive RouteMethod := Get | Post.
#[export] Instance RouteMethod_eq_dec : EqDecision RouteMethod.
Proof. solve_decision. Defined.

Inductive Handler :=
  | getStatusHandler | getVersionHandler | postAuthLoginHandler | getDhcpSettingsHandler | postDhcpSettingsHandler | getStaticBindingsHandler
  | postStaticBindingsHandler | getAllowedComputersHandler | postAllowedComputersHandler | postLookupClientNameHandler | getLeasesHandler
  | getDnsSettingsHandler | postDnsSettingsHandler | getLocalHostsHandler | postLocalHostsHandler | getSecuritySettingsHandler
  | postSecuritySettingsHandler | getCertificatesHandler | postCertificatesHandler | getCertificateDownloadHandler | postOtaUploadHandler
  | postWebFileHandler | postWebSyncHandler | postTestConnectionHandler | getSettingsGeneralHandler | postSettingsGeneralHandler
  | getSshSettingsHandler | postSshSettingsHandler | getUpnpDeviceHandler | getSettingsExportHandler | postSettingsImportHandler
  | postSettingsResetHandler | postRebootHandler | postRebootPrepareHandler | getStatsProgressHandler | getAutosaveHandler | getStatsFileHandler
  | postStatsSaveHandler | postStatsLoadHandler | postStatsResetHandler | getInternalCacheFileHandler | getInternalCacheProgressHandler
  | getInternalCacheAutoUpdateHandler | postInternalCacheAutoUpdateHandler | postInternalCacheSaveHandler | postInternalCacheLoadHandler
  | postInternalCacheResetHandler | getInternalCacheEntriesHandler | postInternalCacheEntryDeleteHandler | getTimeSettingsHandler
  | postTimeSettingsHandler | postTimeSettingsResetHandler | postTimeTestHandler | getTimeNowHandler | postTimeSetHandler | getFileVolumesHandler
  | getFileListHandler | postFileMkdirHandler | postFileRenameHandler | postFileDeleteHandler | postFileFormatHandler | getFileDownloadHandler
  | postFileUploadHandler | getFileUploadOffsetHandler | postFileUploadCancelHandler | getFileTextHandler | postFileTextHandler
  | getFileSettingsHandler | postFileSettingsHandler | postFileCheckHandler | postFileCheckCancelHandler | getFileCheckHandler | postFileRepairHandler
  | postFileRepairCancelHandler | getFileRepairHandler | postFileTransferHandler | postFileTransferCancelHandler | getFileTransferHandler
  | getJobsHandler | postJobCancelHandler | staticFileHandler.
#[export] Instance Handler_eq_dec : EqDecision Handler.
Proof. solve_decision. Defined.

(** The handler of a row of the table is always set. *)
Record WebRoute := mkRoute { uri : bytes; method : RouteMethod; handler : Handler; redirectExempt : bool }.
#[export] Instance WebRoute_eq_dec : EqDecision WebRoute.
Proof. solve_decision. Defined.

Definition kRoutes : list WebRoute :=
  [mkRoute (lit "/api/status") Get getStatusHandler false;
   mkRoute (lit "/api/version") Get getVersionHandler false;
   mkRoute (lit "/api/auth/login") Post postAuthLoginHandler false;
   mkRoute (lit "/api/dhcp/settings") Get getDhcpSettingsHandler false;
   mkRoute (lit "/api/dhcp/settings") Post postDhcpSettingsHandler false;
   mkRoute (lit "/api/dhcp/static-bindings") Get getStaticBindingsHandler false;
   mkRoute (lit "/api/dhcp/static-bindings") Post postStaticBindingsHandler false;
   mkRoute (lit "/api/dhcp/allowed") Get getAllowedComputersHandler false;
   mkRoute (lit "/api/dhcp/allowed") Post postAllowedComputersHandler false;
   mkRoute (lit "/api/dhcp/lookup-name") Post postLookupClientNameHandler false;
   mkRoute (lit "/api/dhcp/leases") Get getLeasesHandler false;
   mkRoute (lit "/api/dns/settings") Get getDnsSettingsHandler false;
   mkRoute (lit "/api/dns/settings") Post postDnsSettingsHandler false;
   mkRoute (lit "/api/dns/local-hosts") Get getLocalHostsHandler false;
   mkRoute (lit "/api/dns/local-hosts") Post postLocalHostsHandler false;
   mkRoute (lit "/api/security/settings") Get getSecuritySettingsHandler false;
   mkRoute (lit "/api/security/settings") Post postSecuritySettingsHandler false;
   mkRoute (lit "/api/security/certificates") Get getCertificatesHandler false;
   mkRoute (lit "/api/security/certificates") Post postCertificatesHandler false;
   mkRoute (lit "/api/security/certificates/download") Get getCertificateDownloadHandler false;
   mkRoute (lit "/api/ota/upload") Post postOtaUploadHandler false;
   mkRoute (lit "/api/web/file") Post postWebFileHandler false;
   mkRoute (lit "/api/web/sync") Post postWebSyncHandler false;
   mkRoute (lit "/api/test-connection") Post postTestConnectionHandler false;
   mkRoute (lit "/api/settings/general") Get getSettingsGeneralHandler false;
   mkRoute (lit "/api/settings/general") Post postSettingsGeneralHandler false;
   mkRoute (lit "/api/ssh/settings") Get getSshSettingsHandler false;
   mkRoute (lit "/api/ssh/settings") Post postSshSettingsHandler false;
   mkRoute (lit "/upnp/device.xml") Get getUpnpDeviceHandler true;
   mkRoute (lit "/api/settings/export") Get getSettingsExportHandler false;
   mkRoute (lit "/api/settings/import") Post postSettingsImportHandler false;
   mkRoute (lit "/api/settings/reset") Post postSettingsResetHandler false;
   mkRoute (lit "/api/device/reboot") Post postRebootHandler false;
   mkRoute (lit "/api/device/reboot/prepare") Post postRebootPrepareHandler false;
   mkRoute (lit "/api/dns/stats/progress") Get getStatsProgressHandler false;
   mkRoute (lit "/api/dns/autosave") Get getAutosaveHandler false;
   mkRoute (lit "/api/dns/stats/file") Get getStatsFileHandler false;
   mkRoute (lit "/api/dns/stats/save") Post postStatsSaveHandler false;
   mkRoute (lit "/api/dns/stats/load") Post postStatsLoadHandler false;
   mkRoute (lit "/api/dns/stats/reset") Post postStatsResetHandler false;
   mkRoute (lit "/api/dns/internal-cache/file") Get getInternalCacheFileHandler false;
   mkRoute (lit "/api/dns/internal-cache/progress") Get getInternalCacheProgressHandler false;
   mkRoute (lit "/api/dns/internal-cache/autoupdate") Get getInternalCacheAutoUpdateHandler false;
   mkRoute (lit "/api/dns/internal-cache/autoupdate") Post postInternalCacheAutoUpdateHandler false;
   mkRoute (lit "/api/dns/internal-cache/save") Post postInternalCacheSaveHandler false;
   mkRoute (lit "/api/dns/internal-cache/load") Post postInternalCacheLoadHandler false;
   mkRoute (lit "/api/dns/internal-cache/reset") Post postInternalCacheResetHandler false;
   mkRoute (lit "/api/dns/internal-cache/entries") Get getInternalCacheEntriesHandler false;
   mkRoute (lit "/api/dns/internal-cache/entry") Post postInternalCacheEntryDeleteHandler false;
   mkRoute (lit "/api/time/settings") Get getTimeSettingsHandler false;
   mkRoute (lit "/api/time/settings") Post postTimeSettingsHandler false;
   mkRoute (lit "/api/time/settings/reset") Post postTimeSettingsResetHandler false;
   mkRoute (lit "/api/time/test") Post postTimeTestHandler false;
   mkRoute (lit "/api/time/now") Get getTimeNowHandler false;
   mkRoute (lit "/api/time/set") Post postTimeSetHandler false;
   mkRoute (lit "/api/files/volumes") Get getFileVolumesHandler false;
   mkRoute (lit "/api/files/list") Get getFileListHandler false;
   mkRoute (lit "/api/files/mkdir") Post postFileMkdirHandler false;
   mkRoute (lit "/api/files/rename") Post postFileRenameHandler false;
   mkRoute (lit "/api/files/delete") Post postFileDeleteHandler false;
   mkRoute (lit "/api/files/format") Post postFileFormatHandler false;
   mkRoute (lit "/api/files/download") Get getFileDownloadHandler false;
   mkRoute (lit "/api/files/upload") Post postFileUploadHandler false;
   mkRoute (lit "/api/files/upload/offset") Get getFileUploadOffsetHandler false;
   mkRoute (lit "/api/files/upload/cancel") Post postFileUploadCancelHandler false;
   mkRoute (lit "/api/files/text") Get getFileTextHandler false;
   mkRoute (lit "/api/files/text") Post postFileTextHandler false;
   mkRoute (lit "/api/files/settings") Get getFileSettingsHandler false;
   mkRoute (lit "/api/files/settings") Post postFileSettingsHandler false;
   mkRoute (lit "/api/files/check") Post postFileCheckHandler false;
   mkRoute (lit "/api/files/check/cancel") Post postFileCheckCancelHandler false;
   mkRoute (lit "/api/files/check") Get getFileCheckHandler false;
   mkRoute (lit "/api/files/repair") Post postFileRepairHandler false;
   mkRoute (lit "/api/files/repair/cancel") Post postFileRepairCancelHandler false;
   mkRoute (lit "/api/files/repair") Get getFileRepairHandler false;
   mkRoute (lit "/api/files/transfer") Post postFileTransferHandler false;
   mkRoute (lit "/api/files/transfer/cancel") Post postFileTransferCancelHandler false;
   mkRoute (lit "/api/files/transfer") Get getFileTransferHandler false;
   mkRoute (lit "/api/jobs") Get getJobsHandler false;
   mkRoute (lit "/api/jobs/cancel") Post postJobCancelHandler false;
   mkRoute (lit "/") Get staticFileHandler false;
   mkRoute (lit "/login.html") Get staticFileHandler false;
   mkRoute (lit "/index.html") Get staticFileHandler false;
   mkRoute (lit "/header.html") Get staticFileHandler false;
   mkRoute (lit "/footer.html") Get staticFileHandler false;
   mkRoute (lit "/css/style.css") Get staticFileHandler false;
   mkRoute (lit "/js/app.js") Get staticFileHandler false;
   mkRoute (lit "/i18n/ru.json") Get staticFileHandler false;
   mkRoute (lit "/i18n/en.json") Get staticFileHandler false;
   mkRoute (lit "/pages/dhcp_setup.html") Get staticFileHandler false;
   mkRoute (lit "/pages/dhcp_logging.html") Get staticFileHandler false;
   mkRoute (lit "/pages/dhcp_dns.html") Get staticFileHandler false;
   mkRoute (lit "/pages/dhcp_static.html") Get staticFileHandler false;
   mkRoute (lit "/pages/dns_setup.html") Get staticFileHandler false;
   mkRoute (lit "/pages/dns_logging.html") Get staticFileHandler false;
   mkRoute (lit "/pages/dns_cache.html") Get staticFileHandler false;
   mkRoute (lit "/pages/dns_internal.html") Get staticFileHandler false;
   mkRoute (lit "/pages/dns_cache_view.html") Get staticFileHandler false;
   mkRoute (lit "/pages/dns_local_hosts.html") Get staticFileHandler false;
   mkRoute (lit "/pages/ntp_setup.html") Get staticFileHandler false;
   mkRoute (lit "/pages/ntp_logging.html") Get staticFileHandler false;
   mkRoute (lit "/pages/security.html") Get staticFileHandler false;
   mkRoute (lit "/pages/security_allowed.html") Get staticFileHandler false;
   mkRoute (lit "/pages/certs.html") Get staticFileHandler false;
   mkRoute (lit "/pages/files.html") Get staticFileHandler false;
   mkRoute (lit "/pages/settings_export.html") Get staticFileHandler false;
   mkRoute (lit "/pages/settings_import.html") Get staticFileHandler false;
   mkRoute (lit "/pages/settings_general.html") Get staticFileHandler false;
   mkRoute (lit "/pages/ssh_general.html") Get staticFileHandler false;
   mkRoute (lit "/pages/ssh_logging.html") Get staticFileHandler false;
   mkRoute (lit "/pages/settings_device.html") Get staticFileHandler false;
   mkRoute (lit "/pages/jobs.html") Get staticFileHandler false;
   mkRoute (lit "/pages/version.html") Get staticFileHandler false].

Definition sameUri (a b : bytes) : bool := bytes_eqb a b.
Definition isValid (route : WebRoute) : bool := negb (bool_decide (uri route = [])).
Definition repeatsEarlier (routes : list WebRoute) (index : nat) : bool :=
  match routes !! index with
  | None => false
  | Some entry => existsb (λ r, bool_decide (method r = method entry) && sameUri (uri r) (uri entry)) (take index routes)
  end.
Definition slotsFor (count : nat) : nat := count.

Definition methodName (m : RouteMethod) : bytes := match m with Post => lit "POST" | Get => lit "GET" end.

(** The server of the library, for the number of its slots and the rows it holds: whether
    it takes one more, and which of them answers a request for a path. *)
Class Httpd := {
  accepts : nat → list WebRoute → WebRoute → bool;
  finds : list WebRoute → RouteMethod → bytes → option WebRoute;
}.

(** The rows in their order; how many found no place. *)
Fixpoint registerRoutes `{Httpd} (slots : nat) (table registered : list WebRoute) (failed : nat) : list WebRoute * nat :=
  match table with
  | [] => (registered, failed)
  | route :: table =>
      if accepts slots registered route then registerRoutes slots table (registered ++ [route]) failed
      else registerRoutes slots table registered (S failed)
  end.
Definition routesOf `{Httpd} : list WebRoute := (registerRoutes (slotsFor (length kRoutes)) kRoutes [] 0).1.

(** What the program relies on: a row that repeats none is taken while there is a slot,
    and a request is answered by the row of its method and path. *)
Definition repeats (registered : list WebRoute) (route : WebRoute) : bool :=
  existsb (λ r, bool_decide (method r = method route) && sameUri (uri r) (uri route)) registered.
Class HttpdLaws `{Httpd} : Prop := {
  accepts_law slots registered route : (length registered < slots)%nat → repeats registered route = false → accepts slots registered route = true;
  finds_law registered route before after : registered = before ++ route :: after → repeats before route = false →
    finds registered (method route) (uri route) = Some route;
}.

Lemma table_apart : forallb (λ i, negb (repeatsEarlier kRoutes i)) (seq 0 (length kRoutes)) && forallb isValid kRoutes = true.
Proof. vm_compute. reflexivity. Qed.

Lemma row_apart before route after : kRoutes = before ++ route :: after → repeats before route = false.
Proof.
  intros E. pose proof table_apart as [Hr _]%andb_true_iff. rewrite List.forallb_forall in Hr.
  assert (Hi : kRoutes !! length before = Some route) by (rewrite E; by apply list_lookup_middle).
  specialize (Hr (length before)). rewrite List.in_seq in Hr. apply lookup_lt_Some in Hi as Hl. specialize (Hr ltac:(lia)).
  apply negb_true_iff in Hr. unfold repeatsEarlier in Hr. rewrite Hi in Hr. unfold repeats. rewrite E in Hr. by rewrite take_app_length in Hr.
Qed.

Lemma register_all `{HttpdLaws} table registered : kRoutes = registered ++ table →
  registerRoutes (slotsFor (length kRoutes)) table registered 0 = (kRoutes, 0%nat).
Proof.
  revert registered. induction table as [|route table IH]; intros registered E; cbn [registerRoutes]; [by rewrite E, app_nil_r|].
  rewrite accepts_law; [|rewrite E, length_app; cbn [length]; unfold slotsFor; lia|by eapply row_apart].
  apply IH. by rewrite <- app_assoc.
Qed.

Lemma every_row_found `{HttpdLaws} r : r ∈ kRoutes → finds routesOf (method r) (uri r) = Some r.
Proof.
  intros (before & after & Ht)%list_elem_of_split. unfold routesOf. rewrite (register_all kRoutes [] eq_refl). eapply finds_law; [exact Ht|by eapply row_apart].
Qed.

(** The server has as many slots as the table has rows, every row gets one, no row is
    without an address and none hides another: a request for the address and the method
    of a row reaches the handler of that row. *)
Theorem every_route_served `{HttpdLaws} : registerRoutes (slotsFor (length kRoutes)) kRoutes [] 0 = (kRoutes, 0%nat) ∧
  ∀ r, r ∈ kRoutes → uri r ≠ [] ∧ finds routesOf (method r) (uri r) = Some r.
Proof.
  split; [exact (register_all kRoutes [] eq_refl)|]. intros r Hr. split; [|by apply every_row_found].
  pose proof table_apart as [_ Hv]%andb_true_iff. rewrite List.forallb_forall in Hv. specialize (Hv r ltac:(by apply list_elem_of_In)).
  unfold isValid in Hv. by destruct (uri r).
Qed.

(** A server of the library that is as documented. *)
#[local] Instance first_match : Httpd := {
  accepts slots registered route := (length registered <? slots)%nat && negb (repeats registered route);
  finds registered m path := List.find (λ r, bool_decide (method r = m) && sameUri (uri r) path) registered;
}.
#[local] Instance first_match_laws : HttpdLaws.
Proof.
  split.
  - intros slots registered route Hl Hr. cbn [accepts first_match]. rewrite Hr. by destruct (Nat.ltb_spec (length registered) slots); [|lia].
  - intros registered route before after -> Hr. cbn [finds first_match]. induction before as [|s before IH]; cbn in *.
    + rewrite bool_decide_eq_true_2 by done. unfold sameUri. by rewrite (proj2 (bytes_eqb_eq _ _) eq_refl).
    + apply orb_false_iff in Hr as [Hs Hr]. rewrite Hs. by apply IH.
Defined.

Lemma every_route_served_witness :
  finds routesOf Get (lit "/pages/version.html") = Some (mkRoute (lit "/pages/version.html") Get staticFileHandler false).
Proof.
  destruct every_route_served as [_ Hall]. apply (Hall (mkRoute (lit "/pages/version.html") Get staticFileHandler false)).
  apply (bool_decide_unpack _). vm_compute. exact I.
Defined.

End RouteTable.

(** ** The two servers *)

Module WebServer.
Import Settings.Config(CertStorage, Internal, SdCard, set, Change, CSecurity).
Module Security := Settings.Config.Security.
Import Security(SecurityConfig, getSecurity).
Import RedirectPolicy RouteTable CertStore.

Definition kHttpPort : Z := 80.
Definition kHttpsPort : Z := 443.
Definition kHostHeaderBytes : nat := 128.
Definition kStaticFileChunkBytes : nat := 512.

Definition with_https (on : bool) (c : SecurityConfig) : SecurityConfig :=
  Security.mk (Security.username c) (Security.password c) (Security.maxAttempts c) (Security.lockoutPeriodSec c) (Security.logAuth c)
    (Security.logFileSize c) on (Security.certStorage c) (Security.certName c).

(** The members of the class and what they refer to. [served] is the pair the TLS server
    was started with, while its handle is kept; [certs] the volume of the store, if there
    is one.  Of the tasks: [tasks] the retries that wait, [awake] those that woke and found
    something to do, [starting] whoever found no TLS server and is about to start one. *)
Record World (S N : Type) := mkWorld {
  running : bool; instance : bool; served : option (bytes * bytes); pairDeadline : Z; retryPending : bool; certPem : bytes; keyPem : bytes;
  certs : option CertStorage; fs : S; nvs : N; tasks : nat; awake : nat; starting : nat;
}.
Arguments mkWorld {S N}. Arguments running {S N}. Arguments instance {S N}. Arguments served {S N}. Arguments pairDeadline {S N}.
Arguments retryPending {S N}. Arguments certPem {S N}. Arguments keyPem {S N}. Arguments certs {S N}. Arguments fs {S N}. Arguments nvs {S N}. Arguments tasks {S N}. Arguments awake {S N}. Arguments starting {S N}.

Section Server.
Context {S N K : Type} `{Posix S} `{Volumes S} `{Crypto K} `{Nvs N} (errnoText : Errno → bytes).
Abbreviation World := (World S N).

Definition set_running (b : bool) (w : World) : World :=
  mkWorld b b (served w) (pairDeadline w) (retryPending w) (certPem w) (keyPem w) (certs w) (fs w) (nvs w) (tasks w) (awake w) (starting w).
Definition set_tls (p : option (bytes * bytes)) (c k : bytes) (w : World) : World :=
  mkWorld (running w) (instance w) p (pairDeadline w) (retryPending w) c k (certs w) (fs w) (nvs w) (tasks w) (awake w) (starting w).
Definition rememberPairDeadline (notAfterEpoch : Z) (w : World) : World :=
  mkWorld (running w) (instance w) (served w) notAfterEpoch (retryPending w) (certPem w) (keyPem w) (certs w) (fs w) (nvs w) (tasks w) (awake w) (starting w).
Definition set_retry (b : bool) (n : nat) (w : World) : World :=
  mkWorld (running w) (instance w) (served w) (pairDeadline w) b (certPem w) (keyPem w) (certs w) (fs w) (nvs w) n (awake w) (starting w).
Definition set_nvs (s : N) (w : World) : World :=
  mkWorld (running w) (instance w) (served w) (pairDeadline w) (retryPending w) (certPem w) (keyPem w) (certs w) (fs w) s (tasks w) (awake w) (starting w).
Definition set_work (a n : nat) (w : World) : World :=
  mkWorld (running w) (instance w) (served w) (pairDeadline w) (retryPending w) (certPem w) (keyPem w) (certs w) (fs w) (nvs w) (tasks w) a n.

Definition serving (w : World) : bool := negb (bool_decide (served w = None)).

(** Whether the stored pair can serve, and its state; the end of its validity is kept. *)
Definition httpsAvailable (now : Z) (w : World) : bool * bytes * World :=
  match certs w with
  | None => (false, certStatusName NoStore, w)
  | Some storage =>
      let i := info errnoText storage now (fs w) in
      let usable := certUsable (certStatus i) in
      (usable, certStatusName (certStatus i), rememberPairDeadline (if usable then notAfterEpoch i else 0) w)
  end.

(** Past the look at the handle. [sslOk]: the outcome of [httpd_ssl_start]; one that fails
    drops the handle, whatever it was. *)
Definition startTls (sslOk : bool) (w : World) : bool * World :=
  match certs w with
  | None => (false, w)
  | Some storage =>
      match load errnoText storage (fs w) with
      | inl _ => (false, set_tls (served w) [] [] w)
      | inr (c, k) => if sslOk then (true, set_tls (Some (c, k)) c k w) else (false, set_tls None [] [] w)
      end
  end.

Definition startHttps (sslOk : bool) (w : World) : bool * World :=
  match served w with Some _ => (true, w) | None => startTls sslOk w end.

Definition stopHttps (w : World) : World :=
  match served w with None => w | Some _ => rememberPairDeadline 0 (set_tls None [] [] w) end.

Definition storeHttps (enabled : bool) (w : World) : World :=
  set_nvs (set (CSecurity (with_https enabled (getSecurity (nvs w)))) (nvs w)).2 w.

(** The reason of a refusal. *)
Definition setHttpsEnabled (enabled sslOk : bool) (now : Z) (w : World) : option bytes * World :=
  if enabled then
    let '(usable, status, w) := httpsAvailable now w in
    if negb usable then (Some (lit "no usable certificate (" ++ status ++ lit ")"), w)
    else
      let '(started, w) := startHttps sslOk w in
      if negb started then (Some (lit "the HTTPS server could not be started"), w) else (None, storeHttps true w)
  else (None, storeHttps false (stopHttps w)).

Definition onClockSet (taskOk : bool) (w : World) : World :=
  if serving w then w
  else if negb (Security.httpsEnabled (getSecurity (nvs w))) then w
  else if retryPending w then w
  else if taskOk then set_retry true (Datatypes.S (tasks w)) w else set_retry false (tasks w) w.

(** *** A switch and a retry, step by step

    A retry runs beside the pages, so that either can be between its look at the handle and
    its start of the server while the other goes on. *)

(** [setHttpsEnabled(true)] up to the look at the handle. *)
Definition switchLooks (now : Z) (w : World) : World :=
  let '(usable, _, w) := httpsAvailable now w in
  if negb usable then w else if serving w then storeHttps true w else set_work (awake w) (Datatypes.S (starting w)) w.

(** The rest of it. *)
Definition switchStarts (sslOk : bool) (w : World) : World :=
  let '(started, w) := startTls sslOk (set_work (awake w) (starting w - 1) w) in if started : bool then storeHttps true w else w.

(** The task after its wait: the mark is cleared first, and only then comes the work. *)
Definition retryWakes (w : World) : World :=
  let w := set_retry false (tasks w - 1) w in
  if negb (serving w) && Security.httpsEnabled (getSecurity (nvs w)) then set_work (Datatypes.S (awake w)) (starting w) w else w.
Definition retryLooks (now : Z) (w : World) : World := switchLooks now (set_work (awake w - 1) (starting w) w).

(** [httpOk]: the outcome of [httpd_start]. *)
Definition start (httpOk sslOk : bool) (now : Z) (w : World) : bool * World :=
  if running w then (true, w)
  else if negb httpOk then (false, w)
  else
    let w := set_running true w in
    if Security.httpsEnabled (getSecurity (nvs w)) then
      let '(usable, _, w) := httpsAvailable now w in
      (true, if usable : bool then (startHttps sslOk w).2 else w)
    else (true, w).

Definition stop (w : World) : World :=
  let w := stopHttps w in if running w then set_running false w else w.

(** *** Requests *)

Record Request := mkRequest { reqMethod : bytes; reqUri : bytes; reqPath : bytes; reqHost : bytes }.

Inductive Answer := Redirected (status location link : bytes) | Handled (h : Handler) | NotFoundPage.

Definition httpsRedirectActive (now : Z) (w : World) : bool := needed (serving w) (pairDeadline w) now.

Definition sendHttpsRedirect (req : Request) (target : bytes) : Answer :=
  Redirected (statusLineForMethod (reqMethod req)) target (htmlEscaped target).

(** A [Host] that does not fit its buffer is none. *)
Definition hostText (req : Request) : bytes :=
  if (0 <? length (reqHost req))%nat && (length (reqHost req) <? kHostHeaderBytes)%nat then reqHost req else [].

Definition redirectIfInForce (now : Z) (req : Request) (w : World) : option Answer :=
  if negb (instance w) || negb (httpsRedirectActive now w) then None
  else
    let target := targetFrom (hostText req) (reqUri req) kHttpsPort in
    if bool_decide (target = []) then None else Some (sendHttpsRedirect req target).

Definition httpsRedirectGate (now : Z) (req : Request) (route : WebRoute) (w : World) : Answer :=
  if negb (redirectExempt route) then default (Handled (handler route)) (redirectIfInForce now req w) else Handled (handler route).

Definition err404RedirectHandler (now : Z) (req : Request) (w : World) : Answer := default NotFoundPage (redirectIfInForce now req w).

(** A request on the plain port, and on the TLS one. *)
Definition plainRequest `{Httpd} (now : Z) (m : RouteMethod) (req : Request) (w : World) : Answer :=
  match finds routesOf m (reqPath req) with
  | Some route => httpsRedirectGate now req route w
  | None => err404RedirectHandler now req w
  end.
Definition tlsRequest `{Httpd} (m : RouteMethod) (req : Request) : Answer :=
  match finds routesOf m (reqPath req) with Some route => Handled (handler route) | None => NotFoundPage end.

(** *** Pages *)

Definition contentType (path : bytes) : bytes :=
  match rfind 46 path with
  | None => lit "text/plain; charset=utf-8"
  | Some dot =>
      let ext := tolower <$> drop dot path in
      if bytes_eqb ext (lit ".html") then lit "text/html; charset=utf-8"
      else if bytes_eqb ext (lit ".css") then lit "text/css; charset=utf-8"
      else if bytes_eqb ext (lit ".js") then lit "application/javascript; charset=utf-8"
      else if bytes_eqb ext (lit ".json") then lit "application/json; charset=utf-8"
      else if bytes_eqb ext (lit ".png") then lit "image/png"
      else if bytes_eqb ext (lit ".ico") then lit "image/x-icon"
      else lit "text/plain; charset=utf-8"
  end.

(** What is sent of a file, piece by piece; [sendOk n]: the client took the [n]-th. Only a
    page whose last, empty piece was sent is complete. *)
Fixpoint sendChunks (fuel n : nat) (sendOk : nat → bool) (path sent : bytes) (v : S) : bytes * bool :=
  match fuel with
  | O => (sent, false)
  | Datatypes.S fuel =>
      let '(got, _) := px_read path (length sent) kStaticFileChunkBytes v in
      if (length got =? 0)%nat then (sent, true)
      else if sendOk n then sendChunks fuel (Datatypes.S n) sendOk path (sent ++ got) v else (sent, false)
  end.

Inductive Page := PageNotFound | PageSent (type body : bytes) (complete : bool).

Definition pagePath (uri : bytes) : bytes := if bytes_eqb uri (lit "/") || bool_decide (uri = []) then lit "/login.html" else uri.
Definition staticFile (sendOk : nat → bool) (uri : bytes) (v : S) : Page :=
  let path := pagePath uri in
  let filePath := lit "/spiffs" ++ path in
  match px_open_rb filePath v with
  | Some _ => PageNotFound
  | None => let '(body, complete) := sendChunks (readRounds v) 0 sendOk filePath [] v in PageSent (contentType path) body complete
  end.

(** *** What happens to the servers *)

Inductive Event :=
  | EStart (httpOk sslOk : bool)
  | EStop
  | EClockSet (taskOk : bool)
  | ERetryWakes
  | ERetryLooks
  | ESwitchOn
  | EStartTls (sslOk : bool)
  | ESwitchOff
  | ELook
  | EVolumes (v : S)
  | EStorage (storage : CertStorage)
  | ENvs (s : N).

(** An event at a moment. A step of a task needs a task that has come to it. *)
Definition step (w : World) (e : Z * Event) : World :=
  let now := e.1 in
  match e.2 with
  | EStart httpOk sslOk => (start httpOk sslOk now w).2
  | EStop => stop w
  | EClockSet taskOk => onClockSet taskOk w
  | ERetryWakes => if (0 <? tasks w)%nat then retryWakes w else w
  | ERetryLooks => if (0 <? awake w)%nat then retryLooks now w else w
  | ESwitchOn => switchLooks now w
  | EStartTls sslOk => if (0 <? starting w)%nat then switchStarts sslOk w else w
  | ESwitchOff => (setHttpsEnabled false false now w).2
  | ELook => (httpsAvailable now w).2
  | EVolumes v => mkWorld (running w) (instance w) (served w) (pairDeadline w) (retryPending w) (certPem w) (keyPem w) (certs w) v (nvs w) (tasks w) (awake w) (starting w)
  | EStorage storage => mkWorld (running w) (instance w) (served w) (pairDeadline w) (retryPending w) (certPem w) (keyPem w)
                          (match certs w with Some _ => Some storage | None => None end) (fs w) (nvs w) (tasks w) (awake w) (starting w)
  | ENvs s => set_nvs s w
  end.
Definition steps (w : World) (es : list (Z * Event)) : World := fold_left step es w.

(** A switch that nobody comes between. *)
Lemma switch_in_steps sslOk now w : (setHttpsEnabled true sslOk now w).2 =
  let w1 := switchLooks now w in if (starting w <? starting w1)%nat then switchStarts sslOk w1 else w1.
Proof.
  unfold setHttpsEnabled, switchLooks. assert (Es : starting (httpsAvailable now w).2 = starting w) by (unfold httpsAvailable; by destruct (certs w)).
  destruct (httpsAvailable now w) as [[[] status] w1]; cbn [snd negb] in *; cbv zeta; [|by rewrite Es, Nat.ltb_irrefl].
  unfold startHttps, serving. destruct (served w1) as [p|] eqn:E.
  - rewrite bool_decide_eq_false_2 by done. cbn [negb snd]. change (starting (storeHttps true w1)) with (starting w1). by rewrite Es, Nat.ltb_irrefl.
  - rewrite bool_decide_eq_true_2 by done. cbn [negb starting set_work]. rewrite <- Es, (proj2 (Nat.ltb_lt _ _)) by lia. unfold switchStarts. cbn [starting set_work awake]. rewrite Nat.sub_succ, Nat.sub_0_r.
    replace (set_work _ _ _) with w1 by (by destruct w1). by destruct (startTls sslOk w1) as [[] w2].
Qed.

(** Before the first start. *)
Definition boot (store : option CertStorage) (v : S) (s : N) : World := mkWorld false false None 0 false [] [] store v s 0 0 0.

End Server.
End WebServer.

Module WebServerSafety.
Import PosixFileOperations Settings.Config(CertStorage, Internal, SdCard, set, norm, set_back, CSecurity).
Module Security := Settings.Config.Security.
Import Security(getSecurity).
Import RedirectPolicy RouteTable CertStore WebServer.

Section Laws.
Context {S N K : Type} `{Posix S} `{Volumes S} `{Crypto K} `{Nvs N} (errnoText : Errno → bytes).
Abbreviation World := (WebServer.World S N).
Abbreviation info := (info errnoText).
Abbreviation load := (load errnoText).

Lemma info_ready storage t (v : S) : certStatus (info storage t v) = Ready →
  ∃ nb na, t < na ∧ nb <= t ∧ ∀ now, notAfterEpoch (info storage now v) = na ∧
    certStatus (info storage now v) = if na <=? now then Expired else if now <? nb then NotYetValid else Ready.
Proof.
  unfold CertStore.info. destruct (volumeReason storage v); [done|]. destruct (readFile _ (certFilePathIn storage) v) as [|pem]; [done|].
  destruct (readFile _ (keyFilePathIn storage) v); [done|]. cbv zeta. destruct (crt_parse pem) as [|crt]; [done|].
  destruct (epochOf (valid_from crt)) as [nb|]; [|done]. destruct (epochOf (valid_to crt)) as [na|]; [|done].
  unfold certStatus at 1. cbn [available present valid expired notYetValid negb]. unfold CertRules.certExpired, CertRules.certNotYetValid.
  destruct (Z.leb_spec na t); [done|]. destruct (Z.ltb_spec t nb); [done|]. intros _. exists nb, na. split_and!; [lia|lia|]. by intros now.
Qed.

(** *** The shape of the state *)

Definition Shape (w : World) : Prop :=
  instance w = running w ∧ tasks w = (if retryPending w then 1 else 0)%nat ∧
  ((certPem w, keyPem w) = default ([], []) (served w) ∨ (certPem w, keyPem w) = ([], [])).

(** What is known of a server whose volume was left alone: what it serves is what the
    volume holds, and the end it remembers is of a pair that could serve at one of the
    moments [T] of the events. *)
Definition Honest (T : Z → Prop) (store : option CertStorage) (v : S) (w : World) : Prop :=
  fs w = v ∧ certs w = store ∧
  (∀ p, served w = Some p → ∃ st, store = Some st ∧ load st v = inr p) ∧
  (0 < pairDeadline w → ∃ st t, store = Some st ∧ T t ∧ certStatus (info st t v) = Ready ∧ notAfterEpoch (info st t v) = pairDeadline w).

Definition quiet (e : Event (S := S) (N := N)) : Prop := match e with EVolumes _ | EStorage _ => False | _ => True end.

Ltac shape E := unfold Shape in *; cbn; rewrite ?E; split_and!; auto.
Ltac honest E := unfold Honest in *; destruct_and?; split_and!; cbn; rewrite ?E; congruence || done.

(** *** The parts of a step *)

(** What a part keeps: the shape and, with a moment of [T], the honesty. *)
Definition sound (f : Z → World → World) : Prop := ∀ t w,
  (Shape w → Shape (f t w)) ∧ ∀ (T : Z → Prop) store v, T t → Honest T store v w → Honest T store v (f t w).

Lemma sound_available : sound (λ t w, (httpsAvailable errnoText t w).2).
Proof.
  intros t w. unfold httpsAvailable. split; [by destruct (certs w)|]. intros T store v Ht (Hv & Hc & Hs & Hd).
  destruct (certs w) as [st|] eqn:Ec; [|split_and!; cbn; congruence || done].
  split_and!; cbn; [done|congruence|done|]. rewrite Hv. destruct (certUsable _) eqn:Eu; [|lia]. intros _. exists st, t. split_and!; try done.
  by destruct (certStatus _).
Qed.

Lemma sound_start_tls ok : sound (λ _ w, (startTls errnoText ok w).2).
Proof.
  intros t w. unfold startTls. split.
  - intros (W1 & W2 & W3). destruct (certs w) as [st|]; [|by split_and!]. destruct (CertStore.load _ st (fs w)) as [|[c k]]; [shape W1|]. destruct ok; shape W1.
  - intros T store v Ht (Hv & Hc & Hs & Hd). destruct (certs w) as [st|] eqn:Ec; [|honest Ec].
    destruct (CertStore.load _ st (fs w)) as [|[c k]] eqn:El; [honest Ec|]. destruct ok; [|honest Ec].
    split_and!; cbn; [done|congruence| |done]. intros p [= <-]. exists st. split; [congruence|]. by rewrite <- Hv.
Qed.

Lemma sound_start_https ok : sound (λ _ w, (startHttps errnoText ok w).2).
Proof. intros t w. unfold startHttps. destruct (served w) eqn:E; [done|]. apply (sound_start_tls ok t w). Qed.

Lemma sound_stop_tls : sound (λ _ w, stopHttps w).
Proof.
  intros t w. unfold stopHttps. split.
  - intros (W1 & W2 & W3). destruct (served w) eqn:E; shape E.
  - intros T store v Ht (Hv & Hc & Hs & Hd). destruct (served w) eqn:E; [|honest E]. split_and!; cbn; [done|done|done|lia].
Qed.

(** What changes only the settings, the marks and the numbers of tasks. *)
Lemma sound_frame (f : Z → World → World) : (∀ t w, let w' := f t w in
    served w' = served w ∧ pairDeadline w' = pairDeadline w ∧ fs w' = fs w ∧ certs w' = certs w ∧ certPem w' = certPem w ∧ keyPem w' = keyPem w ∧
    (Shape w → instance w' = running w' ∧ tasks w' = (if retryPending w' then 1 else 0)%nat)) → sound f.
Proof.
  intros Hf t w. destruct (Hf t w) as (E1 & E2 & E3 & E4 & E5 & E6 & Hs). split.
  - intros Hw. destruct (Hs Hw) as [? ?]. destruct Hw as (? & ? & ?). unfold Shape. by rewrite E1, E5, E6.
  - intros T store v _ Hw. unfold Honest. by rewrite E1, E2, E3, E4.
Qed.
Ltac frame := apply sound_frame; intros t' w' w2; subst w2; split_and!; try done; intros (? & ? & ?); split; try done.

Lemma sound_then f g : sound f → sound g → sound (λ t w, g t (f t w)).
Proof. intros Hf Hg t w. destruct (Hf t w) as [F1 F2], (Hg t (f t w)) as [G1 G2]. split; [tauto|]. intros T store v Ht Hw. apply G2, F2; done. Qed.

Lemma sound_store b : sound (λ _ w, storeHttps b w).
Proof. frame. Qed.
Lemma sound_work (a n : World → nat) : sound (λ _ w, set_work (a w) (n w) w).
Proof. frame. Qed.

Lemma sound_switch_looks : sound (switchLooks errnoText).
Proof.
  intros t w. unfold switchLooks. pose proof (sound_available t w) as Ha. cbn beta in Ha. destruct (httpsAvailable errnoText t w) as [[usable status] w1]. cbn [snd] in Ha.
  destruct usable; cbn [negb]; [|exact Ha]. destruct Ha as [A1 A2]. destruct (serving w1).
  - destruct (sound_store true t w1) as [B1 B2]. split; [tauto|]. intros T store v Ht Hw. apply B2, A2; done.
  - destruct (sound_work awake (λ w, Datatypes.S (starting w)) t w1) as [B1 B2]. split; [tauto|]. intros T store v Ht Hw. apply B2, A2; done.
Qed.

Lemma sound_switch_starts ok : sound (λ _ w, switchStarts errnoText ok w).
Proof.
  intros t w. unfold switchStarts. destruct (sound_work awake (λ w, starting w - 1)%nat t w) as [A1 A2].
  destruct (sound_start_tls ok t (set_work (awake w) (starting w - 1) w)) as [B1 B2]. cbn beta in *.
  destruct (startTls errnoText ok _) as [started w1]. cbn [snd] in *. destruct started; [|split; [tauto|intros T store v Ht Hw; apply B2, A2; done]].
  destruct (sound_store true t w1) as [C1 C2]. split; [tauto|]. intros T store v Ht Hw. apply C2, B2, A2; done.
Qed.

Lemma sound_wakes : sound (λ _ w, retryWakes w).
Proof.
  apply sound_frame. intros t w. unfold retryWakes. cbv zeta. case_match; split_and!; try done; intros (W1 & W2 & W3); split; try done; cbn; destruct (retryPending w); lia.
Qed.

Lemma sound_clock ok : sound (λ _ w, onClockSet ok w).
Proof.
  apply sound_frame. intros t w. unfold onClockSet. destruct (serving w), (Security.httpsEnabled (getSecurity (nvs w))), (retryPending w) eqn:Er, ok; cbn [negb]; split_and!; try done.
  all: intros (W1 & W2 & W3); split; try done; rewrite Er in W2; cbn; by rewrite ?Er, W2.
Qed.

Lemma sound_start httpOk ok : sound (λ t w, (start errnoText httpOk ok t w).2).
Proof.
  intros t w. unfold start. destruct (running w); [done|]. destruct httpOk; cbn [negb snd]; [|done].
  assert (Hr : sound (λ _ w, set_running true w)) by frame. destruct (Hr t w) as [A1 A2]. destruct (Security.httpsEnabled _); [|done].
  destruct (sound_available t (set_running true w)) as [B1 B2]. cbn beta in *. destruct (httpsAvailable errnoText t _) as [[usable ?] w1]. cbn [snd] in *.
  destruct usable; [|split; [tauto|intros T store v Ht Hw; apply B2, A2; done]].
  destruct (sound_start_https ok t w1) as [C1 C2]. cbn beta in *. split; [tauto|]. intros T store v Ht Hw. apply C2, B2, A2; done.
Qed.

Lemma sound_stop : sound (λ _ w, stop w).
Proof.
  assert (Hr : sound (λ _ w, if running w then set_running false w else w)).
  { apply sound_frame. intros t w. destruct (running w) eqn:Er; split_and!; try done; by intros (? & ? & ?). }
  exact (sound_then _ _ sound_stop_tls Hr).
Qed.

Lemma step_shape (w : World) e : Shape w → Shape (step errnoText w e).
Proof.
  intros Hw. destruct e as [t [httpOk ok| |taskOk| | | |ok| | |v|storage|s]]; unfold step; cbn [fst snd].
  - by apply (sound_start httpOk ok t w).
  - by apply (sound_stop t w).
  - by apply (sound_clock taskOk t w).
  - destruct (0 <? tasks w)%nat; [by apply (sound_wakes t w)|done].
  - destruct (0 <? awake w)%nat; [|done]. by apply (sound_switch_looks t _), (sound_work (λ w, awake w - 1)%nat starting t w).
  - by apply (sound_switch_looks t w).
  - destruct (0 <? starting w)%nat; [by apply (sound_switch_starts ok t w)|done].
  - by apply (sound_store false t _), (sound_stop_tls t w).
  - by apply (sound_available t w).
  - done.
  - done.
  - done.
Qed.

Lemma event_honest T store v (w : World) e : T e.1 → quiet e.2 → Honest T store v w → Honest T store v (step errnoText w e).
Proof.
  destruct e as [t [httpOk ok| |taskOk| | | |ok| | |u|storage|s]]; unfold step; cbn [fst snd]; intros Ht Hq Hw; try done.
  - by apply (sound_start httpOk ok t w).
  - by apply (sound_stop t w).
  - by apply (sound_clock taskOk t w).
  - destruct (0 <? tasks w)%nat; [by apply (sound_wakes t w)|done].
  - destruct (0 <? awake w)%nat; [|done]. apply (sound_switch_looks t _); [done|]. by apply (sound_work (λ w, awake w - 1)%nat starting t w).
  - by apply (sound_switch_looks t w).
  - destruct (0 <? starting w)%nat; [by apply (sound_switch_starts ok t w)|done].
  - apply (sound_store false t _); [done|]. by apply (sound_stop_tls t w).
  - by apply (sound_available t w).
Qed.

Lemma steps_shape es : ∀ w : World, Shape w → Shape (steps errnoText w es).
Proof. induction es as [|e es IH]; intros w Hw; [done|]. apply IH, step_shape, Hw. Qed.
Lemma events_honest T store v es : ∀ w : World, Forall (λ e, T e.1 ∧ quiet e.2) es → Honest T store v w → Honest T store v (steps errnoText w es).
Proof. induction es as [|e es IH]; intros w He Hw; [done|]. apply Forall_cons in He as [[Ht Hq] He]. apply IH; [done|]. by apply event_honest. Qed.

(** What a redirect in force says, of the moments the events came at. *)
Lemma redirect_of T store v (w : World) now : Honest T store v w → httpsRedirectActive now w = true →
  ∃ st p t, store = Some st ∧ served w = Some p ∧ load st v = inr p ∧ T t ∧ certStatus (info st t v) = Ready ∧ now < notAfterEpoch (info st t v).
Proof.
  intros (_ & _ & Hserved & Hd) Ha. unfold httpsRedirectActive, needed, serving in Ha.
  destruct (served w) as [p|] eqn:Ep; [|done]. rewrite bool_decide_eq_false_2 in Ha by done. cbn [negb] in Ha.
  destruct (Z.leb_spec (pairDeadline w) 0); [done|]. apply Z.ltb_lt in Ha. destruct (Hserved p eq_refl) as (st & Hst & Hl).
  destruct (Hd ltac:(lia)) as (st' & t & Hst' & Ht & Hr & Hn). rewrite Hst in Hst'. injection Hst' as <-. exists st, p, t. split_and!; congruence || done || lia.
Qed.

(** C36: whatever is done to the servers, by the operator, by the clock, by the retries in
    their steps and by the pages that look, at most one retry waits, the routes are guarded
    exactly while the plain server runs, and no text of a key stays in memory without a
    server that uses it.  And as long as nobody changes the pair on its volume, a redirect
    that is in force leads to a TLS server that serves just this pair, a pair that was
    valid at a moment something happened to the servers and has not expired since; it is
    valid at that very moment unless the clock was set back behind such a moment. *)
Theorem redirect_honest store v (s : N) es : let w := steps errnoText (boot store v s) es in
  Shape w ∧
  ∀ now, Forall (λ e, quiet e.2) es → httpsRedirectActive now w = true →
    running w = instance w ∧ ∃ st p, store = Some st ∧ served w = Some p ∧ load st v = inr p ∧
      (∃ t, t ∈ es.*1 ∧ certStatus (info st t v) = Ready) ∧
      (certStatus (info st now v) = Ready ∨ certStatus (info st now v) = NotYetValid) ∧
      (Forall (λ e, e.1 <= now) es → certStatus (info st now v) = Ready).
Proof.
  intros w. assert (Hs : Shape w) by (apply steps_shape; split_and!; cbn; auto). split; [exact Hs|]. intros now He Ha. split; [symmetry; apply Hs|].
  assert (Hb : Honest (λ t, t ∈ es.*1) store v (boot store v s)) by (split_and!; cbn; [done|done|done|lia]).
  assert (Hw : Honest (λ t, t ∈ es.*1) store v w).
  { apply events_honest; [|done]. rewrite Forall_forall in He |- *. intros e Hin. split; [by apply list_elem_of_fmap_2|by apply He]. }
  destruct (redirect_of _ _ _ _ _ Hw Ha) as (st & p & t & Hst & Hp & Hl & Ht & Hr & Hn). exists st, p.
  destruct (info_ready st t v Hr) as (nb & na & Hna & Hnb & Hall). destruct (Hall t) as [Ht' _]. rewrite Ht' in Hn. destruct (Hall now) as [_ E].
  destruct (Z.leb_spec na now); [lia|]. split_and!; try done; [by exists t| |]; rewrite E; [destruct (Z.ltb_spec now nb); auto|].
  intros Hnow. apply list_elem_of_fmap in Ht as (e & -> & Hin). rewrite Forall_forall in Hnow. specialize (Hnow e Hin). by destruct (Z.ltb_spec now nb); [lia|].
Qed.

(** *** What a request gets *)

(** C37: a request on the plain port gets the answer it would get over TLS - the handler of
    its row, or the page of what was not found - unless a redirect is in force, its row is
    not one of those left out of it and its [Host], of less than 128 bytes, names a host.
    Then it is sent to the same page over TLS, under a status that keeps the method of
    whatever is no mere reading: to exactly the host it named, which is the name without
    its port - whatever follows the brackets of an address of six, or a last colon that
    only digits follow, also where an address of six was written without brackets - and to
    its own path, less the characters that could end a header or an attribute; to the root
    only if nothing of the path is left. *)
Theorem plain_request_answered `{HttpdLaws} now m req (w : World) :
  let answer := plainRequest now m req w in let row := finds routesOf m (reqPath req) in
  (∀ r, r ∈ kRoutes → method r = m → uri r = reqPath req → row = Some r) ∧
  (instance w && httpsRedirectActive now w = false ∨ from_option redirectExempt false row = true ∨ (∀ h, ¬ names (hostText req) h) →
     answer = tlsRequest m req) ∧
  (instance w && httpsRedirectActive now w = true → from_option redirectExempt false row = false → ∀ h, names (hostText req) h →
     ∃ path, answer = Redirected (if bytes_eqb (reqMethod req) (lit "GET") || bytes_eqb (reqMethod req) (lit "HEAD")
         then lit "301 Moved Permanently" else lit "308 Permanent Redirect") (lit "https://" ++ h ++ path) (htmlEscaped (lit "https://" ++ h ++ path)) ∧
       path = (if decide (keepSafe (reqUri req) = []) then lit "/" else keepSafe (reqUri req)) ∧
       (Forall (λ c, safeChar c = true) (reqUri req) → reqUri req ≠ [] → path = reqUri req) ∧
       Forall (λ c, safeChar c = true) (h ++ path)).
Proof.
  intros answer row. split; [|split].
  - intros r Hr <- Hu. unfold row. rewrite <- Hu. by apply every_row_found.
  - intros Hn. assert (Hno : (∀ h, ¬ names (hostText req) h) → targetFrom (hostText req) (reqUri req) kHttpsPort = []).
    { intros Hno. destruct (targetFrom _ _ _) eqn:E; [done|]. symmetry in E. apply eq_sym, targetFrom_spec in E as (h & Hh & _); [by destruct (Hno h)|done]. }
    unfold answer, plainRequest, tlsRequest, httpsRedirectGate, err404RedirectHandler, redirectIfInForce. subst row.
    destruct (finds routesOf m (reqPath req)) as [r|]; cbn [from_option] in Hn.
    + destruct (redirectExempt r); [done|]. cbn [negb]. destruct Hn as [Hn|[Hn|Hn]]; [|done|rewrite Hno by done; by destruct (_ || _)].
      apply andb_false_iff in Hn as [-> | ->]; [done|]. by rewrite orb_true_r.
    + destruct Hn as [Hn|[Hn|Hn]]; [|done|rewrite Hno by done; by destruct (_ || _)]. apply andb_false_iff in Hn as [-> | ->]; [done|]. by rewrite orb_true_r.
  - intros Hf He h Hh. set (path := orSlash (keepSafe (reqUri req))).
    assert (Ht : targetFrom (hostText req) (reqUri req) kHttpsPort = lit "https://" ++ h ++ path) by (apply targetFrom_spec; [done|by exists h]).
    assert (Ha : answer = sendHttpsRedirect req (lit "https://" ++ h ++ path)).
    { unfold answer, plainRequest, httpsRedirectGate, err404RedirectHandler, redirectIfInForce. subst row. apply andb_true_iff in Hf as [-> ->]. cbn [negb orb].
      rewrite Ht, bool_decide_eq_false_2 by done. by destruct (finds routesOf m (reqPath req)) as [r|]; cbn [from_option] in He; [rewrite He|]. }
    exists path. rewrite Ha. split; [done|]. split; [unfold path, orSlash; case_bool_decide; by case_decide|]. split.
    + intros Hs Hu. assert (E : keepSafe (reqUri req) = reqUri req).
      { clear - Hs. unfold keepSafe. induction Hs as [|c u Hc _ IH]; [done|]. cbn [List.filter]. by rewrite Hc, IH. }
      unfold path, orSlash. rewrite E. by case_bool_decide.
    + destruct (target_safe (hostText req) (reqUri req) kHttpsPort) as [Hn|(name & path' & E & _ & _ & _ & _ & _ & Hs & _)]; [by rewrite Ht in Hn|].
      specialize (Hs ltac:(unfold kHttpsPort; lia)). rewrite Ht, Forall_app in Hs. apply Hs.
Qed.

(** The start with a pair that is not valid yet, the clock and the retry, one by one. *)
Definition waiting (st : CertStorage) (v : S) (s : N) (retry : bool) : World :=
  mkWorld true true None 0 retry [] [] (Some st) v s (if retry then 1 else 0) 0 0.

Lemma start_waits st v (s : N) t ok : Security.httpsEnabled (getSecurity s) = true → certStatus (info st t v) ≠ Ready →
  step errnoText (boot (Some st) v s) (t, EStart true ok) = waiting st v s false.
Proof.
  intros Hs Hn. assert (Hu : certUsable (certStatus (info st t v)) = false) by (by destruct (certStatus (info st t v))).
  unfold step. cbn [fst snd]. unfold start. cbn [running boot negb]. cbn [nvs set_running boot]. rewrite Hs. unfold httpsAvailable.
  cbn [certs set_running boot fs]. by rewrite Hu.
Qed.
Lemma clock_asks st v (s : N) t retry : Security.httpsEnabled (getSecurity s) = true →
  step errnoText (waiting st v s retry) (t, EClockSet true) = waiting st v s true.
Proof. intros Hs. unfold step. cbn [fst snd]. unfold onClockSet. change (serving (waiting st v s retry)) with false. cbn [nvs waiting]. rewrite Hs. by destruct retry. Qed.
Lemma retry_serves st v (s : N) t c k : Security.httpsEnabled (getSecurity s) = true → certStatus (info st t v) = Ready → load st v = inr (c, k) →
  let w := steps errnoText (waiting st v s true) [(t, ERetryWakes); (t, ERetryLooks); (t, EStartTls true)] in
  served w = Some (c, k) ∧ pairDeadline w = notAfterEpoch (info st t v) ∧ tasks w = 0%nat.
Proof.
  intros Hs Hr Hl w. subst w. unfold steps. cbn [fold_left].
  assert (E1 : step errnoText (waiting st v s true) (t, ERetryWakes) = set_work 1 0 (waiting st v s false)).
  { unfold step. cbn [fst snd tasks waiting]. unfold retryWakes. cbv zeta. cbn [nvs set_retry waiting]. rewrite Hs. reflexivity. }
  assert (E2 : step errnoText (set_work 1 0 (waiting st v s false)) (t, ERetryLooks) = set_work 0 1 (rememberPairDeadline (notAfterEpoch (info st t v)) (waiting st v s false))).
  { unfold step. cbn [fst snd awake waiting set_work]. unfold retryLooks, switchLooks, httpsAvailable. cbn [certs set_work waiting fs awake starting]. by rewrite Hr. }
  rewrite E1, E2. unfold step. cbn [fst snd starting set_work]. unfold switchStarts, startTls. cbn [certs set_work rememberPairDeadline waiting fs Nat.ltb Nat.leb].
  by rewrite Hl.
Qed.

(** A device that went down with HTTPS comes back with it: a pair that is not valid for
    the clock of the start is judged again when the clock was set, by one retry however
    often it is set; until then the plain port answers, and from then on it leads to the
    TLS server up to the end of the validity. *)
Theorem https_returns st v (s : N) t0 t1 c k anyOk : Security.httpsEnabled (getSecurity s) = true →
  certStatus (info st t0 v) ≠ Ready → 0 <= t1 → certStatus (info st t1 v) = Ready → load st v = inr (c, k) →
  let w1 := steps errnoText (boot (Some st) v s) [(t0, EStart true anyOk)] in
  let w2 := steps errnoText w1 [(t1, EClockSet true); (t1, EClockSet true); (t1, ERetryWakes); (t1, ERetryLooks); (t1, EStartTls true)] in
  running w1 = true ∧ (∀ now, httpsRedirectActive now w1 = false) ∧
  served w2 = Some (c, k) ∧ tasks w2 = 0%nat ∧ (∀ now, httpsRedirectActive now w2 = true ↔ now < notAfterEpoch (info st t1 v)).
Proof.
  intros Hs Hn Ht Hr Hl w1 w2. assert (E1 : w1 = waiting st v s false) by (by apply start_waits).
  assert (E2 : w2 = steps errnoText (waiting st v s true) [(t1, ERetryWakes); (t1, ERetryLooks); (t1, EStartTls true)]).
  { unfold w2. rewrite E1. unfold steps at 1. cbn [fold_left]. by rewrite !clock_asks by done. }
  destruct (retry_serves st v s t1 c k Hs Hr Hl) as (Sv & Dl & Tk). rewrite <- E2 in Sv, Dl, Tk. rewrite E1. split_and!; try done. intros now.
  unfold httpsRedirectActive, needed, serving. rewrite Sv, Dl. cbn [bool_decide negb]. destruct (info_ready st t1 v Hr) as (nb & na & Hna & Hnb & Hall).
  destruct (Hall t1) as [-> _]. rewrite bool_decide_eq_false_2 by done. cbn [negb]. destruct (Z.leb_spec na 0); [lia|]. apply Z.ltb_lt.
Qed.

End Laws.
End WebServerSafety.

(** ** Pages *)

Section Pages.
Import PosixFileOperations WebServer CertStore.
Context {S : Type} `{PosixLaws S}.

Lemma sendChunks_part fuel c path (v : S) sendOk : file v path = Some c → ∀ k n, ∃ k', (sendChunks fuel n sendOk path (take k c) v).1 = take k' c.
Proof.
  intros Hf. induction fuel as [|fuel IH]; intros k n; cbn [sendChunks]; [by exists k|].
  destruct (read_law path (length (take k c)) kStaticFileChunkBytes v c Hf) as (m & Hm & Hgot & _).
  destruct (px_read path (length (take k c)) kStaticFileChunkBytes v) as [got e]. cbn [fst] in Hgot. destruct (length got =? 0)%nat; [by exists k|].
  destruct (sendOk n); [|by exists k]. rewrite Hgot, length_take.
  replace (take k c) with (take (k `min` length c) c) by (destruct (Nat.le_ge_cases k (length c)); [by rewrite Nat.min_l by lia|rewrite Nat.min_r, !take_ge by lia; done]).
  rewrite take_take_drop. apply IH.
Qed.

Lemma sendChunks_whole fuel c path (v : S) : file v path = Some c → CertSafety.readable v path → ∀ k n, (length c < fuel + k)%nat → (k <= length c)%nat →
  sendChunks fuel n (λ _, true) path (take k c) v = (c, true).
Proof.
  intros Hf [_ Hr]. induction fuel as [|fuel IH]; intros k n Hn Hk; cbn [sendChunks]; [lia|].
  destruct (read_law path (length (take k c)) kStaticFileChunkBytes v c Hf) as (m & Hm & Hgot & Herr). specialize (Hr (length (take k c)) kStaticFileChunkBytes).
  destruct (px_read path (length (take k c)) kStaticFileChunkBytes v) as [got e]. cbn [fst snd] in *. subst e. specialize (Herr eq_refl). subst m.
  rewrite length_take in *. replace (k `min` length c)%nat with k in Hgot by lia. assert (Hg : length got = (kStaticFileChunkBytes `min` (length c - k))%nat) by (by rewrite Hgot, length_take, length_drop).
  unfold kStaticFileChunkBytes in *. destruct (Nat.eqb_spec (length got) 0) as [El|Hl]; [f_equal; apply take_ge; lia|].
  assert (E : take k c ++ got = take (k + length got) c).
  { rewrite Hgot at 1. rewrite take_take_drop, Hg. destruct (Nat.le_ge_cases 512 (length c - k)); [by rewrite Nat.min_l by lia|]. rewrite !take_ge by lia. done. }
  rewrite E. apply IH; lia.
Qed.

(** What a page sends is a beginning of its file, and is all of it, marked as complete,
    when the file is read without errors and the client takes every piece. *)
Theorem page_whole uri (v : S) c : file v (lit "/spiffs" ++ pagePath uri) = Some c →
  (∀ sendOk type body complete, staticFile sendOk uri v = PageSent type body complete → type = contentType (pagePath uri) ∧ ∃ k, body = take k c) ∧
  (CertSafety.readable v (lit "/spiffs" ++ pagePath uri) → staticFile (λ _, true) uri v = PageSent (contentType (pagePath uri)) c true).
Proof.
  intros Hf. unfold staticFile. split.
  - intros sendOk type body complete. destruct (px_open_rb _ v); [done|].
    destruct (sendChunks_part (readRounds v) c _ v sendOk Hf 0 0) as [k Hk]. rewrite take_0 in Hk.
    destruct (sendChunks _ 0 sendOk _ [] v) as [b co]. intros [= <- <- <-]. split; [done|by exists k].
  - intros Hr. rewrite (proj1 Hr). pose proof (sendChunks_whole (readRounds v) c _ v Hf Hr 0 0) as Hw. rewrite take_0 in Hw.
    rewrite Hw; [done| |lia]. pose proof (capacity_law v _ c Hf). unfold readRounds. lia.
Qed.

End Pages.

(** ** A device *)

Import PosixFileOperations RedirectPolicy RouteTable CertStore WebServer Settings.Config(Internal, CSecurity, set).
#[local] Existing Instances both_mounted plain_crypto plain_crypto_laws Settings.Config.flash RouteTable.first_match RouteTable.first_match_laws.

Definition device : World Volume Settings.Config.Flash := boot (Some Internal) generated.2 Settings.Config.erased.
Definition run (es : list (Z * Event)) : World Volume Settings.Config.Flash := steps (K := bytes) noText device es.
Definition issued : Z := 1709208000.
Definition switchedOn : list (Z * Event (S := Volume) (N := Settings.Config.Flash)) := [(issued, EStart true true); (issued, ESwitchOn); (issued, EStartTls true)].

Lemma redirect_honest_witness : httpsRedirectActive (issued + 86400) (run switchedOn) = true ∧
  ∃ p, served (run switchedOn) = Some p ∧ certStatus (info (K := bytes) noText Internal (issued + 86400) generated.2) = Ready.
Proof.
  assert (Ha : httpsRedirectActive (issued + 86400) (run switchedOn) = true) by (vm_compute; reflexivity). split; [exact Ha|].
  destruct (WebServerSafety.redirect_honest (K := bytes) noText (Some Internal) generated.2 Settings.Config.erased switchedOn) as [_ Hh].
  assert (Hq : Forall (λ e : Z * Event, WebServerSafety.quiet e.2) switchedOn) by (repeat constructor).
  destruct (Hh (issued + 86400) Hq Ha) as (_ & st & p & [= <-] & Hp & _ & _ & _ & Hr). exists p. split; [exact Hp|].
  apply Hr. repeat constructor; cbn; lia.
Defined.

(** A clock that is set back behind the day the pair begins: the redirect looks at its end
    only, and goes on to a pair that is not valid yet. *)
Example redirect_before_the_pair : let w := run (switchedOn ++ [(0, EClockSet true)]) in
  (httpsRedirectActive 0 w, certStatus (info (K := bytes) noText Internal 0 (fs w))) = (true, NotYetValid).
Proof. vm_compute. reflexivity. Qed.

(** The mark of a retry is cleared before its work. A clock that is set once more starts a
    second one; both find no server, and the one that starts last, refused by the port,
    drops the handle of the first: the TLS server runs on and nothing can stop it. *)
Example second_retry :
  let on := Settings.Config.set (CSecurity (with_https true (Settings.Config.Security.getSecurity Settings.Config.erased))) Settings.Config.erased in
  let w := steps (K := bytes) noText (boot (Some Internal) generated.2 on.2)
    [(0, EStart true true); (issued, EClockSet true); (issued, ERetryWakes); (issued, EClockSet true); (issued, ERetryWakes); (issued, ERetryLooks); (issued, ERetryLooks); (issued, EStartTls true)] in
  (serving w, starting w, serving (step (K := bytes) noText w (issued, EStartTls false))) = (true, 1%nat, false).
Proof. vm_compute. reflexivity. Qed.

Lemma plain_request_answered_witness :
  (∃ path link, plainRequest (issued + 1) Post (mkRequest (lit "POST") (lit "/api/dns/settings?a=1") (lit "/api/dns/settings") (lit "dns.lo:80")) (run switchedOn) =
    Redirected (lit "308 Permanent Redirect") (lit "https://" ++ lit "dns.lo" ++ path) link ∧ path = lit "/api/dns/settings?a=1") ∧
  plainRequest (issued + 1) Get (mkRequest (lit "GET") (lit "/upnp/device.xml") (lit "/upnp/device.xml") (lit "dns.lo")) (run switchedOn) = Handled getUpnpDeviceHandler.
Proof.
  set (r1 := mkRequest (lit "POST") (lit "/api/dns/settings?a=1") (lit "/api/dns/settings") (lit "dns.lo:80")).
  set (r2 := mkRequest (lit "GET") (lit "/upnp/device.xml") (lit "/upnp/device.xml") (lit "dns.lo")).
  destruct (WebServerSafety.plain_request_answered (issued + 1) Post r1 (run switchedOn)) as (_ & _ & Hr).
  destruct (WebServerSafety.plain_request_answered (issued + 1) Get r2 (run switchedOn)) as (_ & Hh & _). split.
  - assert (Hn : names (hostText r1) (lit "dns.lo")).
    { unfold names. split; [apply (bool_decide_unpack _); vm_compute; exact I|]. split; [|done]. right. split; [apply (bool_decide_unpack _); vm_compute; exact I|].
      left. exists (lit "80"). split; [vm_compute; reflexivity|apply (bool_decide_unpack _); vm_compute; exact I]. }
    destruct (Hr ltac:(vm_compute; reflexivity) ltac:(vm_compute; reflexivity) _ Hn) as (path & E & _ & Hu & _).
    exists path, (htmlEscaped (lit "https://" ++ lit "dns.lo" ++ path)). split; [exact E|]. apply Hu; [apply (bool_decide_unpack _); vm_compute; exact I|done].
  - rewrite Hh by (right; left; vm_compute; reflexivity). vm_compute. reflexivity.
Defined.

Example sent_to_the_name :
  plainRequest (issued + 1) Post (mkRequest (lit "POST") (lit "/api/dns/settings?a=1") (lit "/api/dns/settings") (lit "dns.lo:80")) (run switchedOn) =
    Redirected (lit "308 Permanent Redirect") (lit "https://dns.lo/api/dns/settings?a=1") (lit "https://dns.lo/api/dns/settings?a=1").
Proof. vm_compute. reflexivity. Qed.

(** A pair that is made while HTTPS runs is not picked up: the running server is asked to
    start and is running already. It goes on with the old pair while the end that decides
    the redirect is the new one's, so that browsers are sent to a certificate that has
    expired. *)
Example new_pair_not_served :
  let renewed := CertStore.generate (K := bytes) noText Internal (lit "dhcpserver.local") (lit "192.168.1.201") 10 (issued + 86400) (replicate 8 1) generated.2 in
  let w := run (switchedOn ++ [(issued + 86400, EVolumes renewed.2); (issued + 86400, ESwitchOn)]) in
  let later := issued + 6 * 366 * 86400 in
  (renewed.1, served w, httpsRedirectActive later w, certStatus (info (K := bytes) noText Internal later (fs w))) =
  (None, served (run switchedOn), true, Ready) ∧
  certStatus (info (K := bytes) noText Internal later generated.2) = Expired.
Proof. vm_compute. split; reflexivity. Qed.

(** A page that is asked for with a query is looked for under a name with the query in it. *)
Example query_hides_the_page :
  let v := onVolume [(lit "/spiffs/index.html", Some (lit "page"))] in
  (staticFile (λ _, true) (lit "/index.html") v, staticFile (λ _, true) (lit "/index.html?v=2") v) =
  (PageSent (lit "text/html; charset=utf-8") (lit "page") true, PageNotFound).
Proof. vm_compute. reflexivity. Qed.
