(* ===== verification/CertificateApi.v ===== *)
(** * The pages of the certificate and of the access settings

    src/web/RestApi.cpp: the handlers of /api/security/settings and
    /api/security/certificates, the task a certificate is made in and the task that
    switches HTTPS afterwards. A client of [Certificates] and [HttpsServer]. *)
From S2P Require Import Prelude Text LogFile Json Settings PosixFiles Certificates HttpsServer.
From stdpp Require Import gmap.
#[local] Open Scope Z_scope.

Module CertificateApi.
Import Settings.Config(CertStorage, Internal, SdCard, set, Change, CSecurity, CSecurity, kDefaultCommonName).
Import Settings.Config.Security(SecurityConfig, getSecurity).
Import JsonRead CertRules CertStore WebServer.
Module Security := Settings.Config.Security.

(** [addJsonString], [addJsonBool] and [addJsonInt]: a member after those there are. *)
Definition addJson (key value : bytes) (addComma : bool) (json : bytes) : bytes :=
  json ++ (if addComma then [44] else []) ++ [34] ++ key ++ [34; 58] ++ value.
Definition addJsonString (key val : bytes) : bool → bytes → bytes := addJson key ([34] ++ JsonWriter.escape val ++ [34]).
Definition addJsonBool (key : bytes) (val : bool) : bool → bytes → bytes := addJson key (if val then lit "true" else lit "false").
Definition addJsonInt (key : bytes) (val : Z) : bool → bytes → bytes := addJson key (JsonWriter.decInt val).

Inductive Reply := Unauthorized | EmptyBody | Refused (json : bytes) | Answered (json : bytes).

Definition answerCertificateError (message : bytes) : Reply :=
  Refused (addJsonString (lit "message") message true (addJsonString (lit "status") (lit "error") false (lit "{")) ++ lit "}").

Section Handlers.
Context {S N K : Type} `{Posix S} `{Volumes S} `{Crypto K} `{Nvs N} (errnoText : Errno → bytes).
Abbreviation World := (WebServer.World S N).

(** The settings of access, next to what listens. *)
Definition handleGetSecuritySettings (authorized : bool) (now : Z) (w : World) : Reply * World :=
  if negb authorized then (Unauthorized, w)
  else
    let cfg := getSecurity (nvs w) in
    let '(httpsAvailable, httpsStatus, w) := httpsAvailable errnoText now w in
    let json := addJsonString (lit "username") (Security.username cfg) false (lit "{") in
    let json := addJsonInt (lit "max_attempts") (Security.maxAttempts cfg) true json in
    let json := addJsonInt (lit "lockout_period") (Security.lockoutPeriodSec cfg) true json in
    let json := addJsonBool (lit "log_file") (Security.logAuth cfg) true json in
    let json := addJsonInt (lit "log_file_size") (Security.logFileSize cfg) true json in
    let json := addJsonBool (lit "https_enabled") (serving w) true json in
    let json := addJsonBool (lit "https_available") httpsAvailable true json in
    let json := addJsonString (lit "https_status") httpsStatus true json in
    (Answered (json ++ lit "}"), w).

Definition orElse (def text : bytes) : bytes := if bool_decide (text = []) then def else text.

(** What the body asks for; the fields of the certificates page are carried over. *)
Definition postedSecurity (body : bytes) (current : SecurityConfig) : SecurityConfig :=
  Security.mk
    (orElse (lit "admin") (jsonGetStr body (lit "username")))
    (orElse (Security.password current) (jsonGetStr body (lit "password")))
    (u32 (jsonGetInt body (lit "max_attempts") 5))
    (u32 (jsonGetInt body (lit "lockout_period") 300))
    (jsonGetBool body (lit "log_file") false)
    (u32 (LogFileSizes.logFileSizeOrDefault (jsonGetInt body (lit "log_file_size") 0)))
    (Security.httpsEnabled current) (Security.certStorage current) (Security.certName current).

Definition storeSecurity (c : SecurityConfig) (w : World) : World := set_nvs (set (CSecurity c) (nvs w)).2 w.

(** HTTPS is switched before anything is stored. *)
Definition handlePostSecuritySettings (authorized : bool) (body : bytes) (sslOk : bool) (now : Z) (w : World) : Reply * World :=
  if negb authorized then (Unauthorized, w)
  else if bool_decide (body = []) then (EmptyBody, w)
  else
    let current := getSecurity (nvs w) in
    let cfg := postedSecurity body current in
    let httpsRequested := jsonGetBool body (lit "https_enabled") (Security.httpsEnabled current) in
    let ok := Answered (lit "{" ++ [34] ++ lit "status" ++ [34; 58; 34] ++ lit "ok" ++ [34] ++ lit "}") in
    if Bool.eqb httpsRequested (serving w) then (ok, storeSecurity cfg w)
    else match setHttpsEnabled errnoText httpsRequested sslOk now w with
    | (Some reason, w) =>
        (Refused (lit "{" ++ [34] ++ lit "status" ++ [34; 58; 34] ++ lit "error" ++ [34; 44; 34] ++ lit "message" ++ [34; 58; 34] ++ reason ++ [34] ++ lit "}"), w)
    | (None, w) => (ok, storeSecurity (with_https httpsRequested cfg) w)
    end.

(** Both volumes, for the picker. *)
Definition volumeJson (storage current : CertStorage) (v : S) : bytes :=
  addJsonBool (lit "present") (pairPresentIn storage v) true
    (addJsonBool (lit "current") (bool_decide (storage = current)) true
      (addJson (lit "mount") ([34] ++ certMountPoint storage ++ [34]) true
        (addJson (lit "id") ([34] ++ certStorageName storage ++ [34]) false (lit "{")))) ++ lit "}".

Definition certificatesJson (serverIp : bytes) (now : Z) (w : World) : bytes * World :=
  match certs w with
  | None =>
      let json := addJsonString (lit "storage") (lit "none") false (lit "{") in
      let json := addJsonString (lit "state") (certStatusName NoStore) true json in
      let json := addJsonBool (lit "available") false true json in
      let json := addJsonBool (lit "https_enabled") (serving w) true json in
      (json ++ [44; 34] ++ lit "volumes" ++ [34; 58] ++ lit "[]," ++ [34] ++ lit "cert" ++ [34; 58] ++ lit "{}}", w)
  | Some storage =>
      let i := info errnoText storage now (fs w) in
      let '(httpsAvailable, _, w) := httpsAvailable errnoText now w in
      let json := addJsonString (lit "storage") (certStorageName storage) false (lit "{") in
      let json := addJsonString (lit "state") (certStatusName (certStatus i)) true json in
      let json := addJsonBool (lit "available") (available i) true json in
      let json := addJsonBool (lit "https_enabled") (serving w) true json in
      let json := addJsonBool (lit "https_available") httpsAvailable true json in
      let json := addJson (lit "volumes") (lit "[" ++ volumeJson Internal storage (fs w) ++ lit "," ++ volumeJson SdCard storage (fs w) ++ lit "]") true json in
      let cert := addJsonBool (lit "present") (present i) false (lit "{") in
      let cert := addJsonBool (lit "valid") (valid i) true cert in
      let cert := addJsonBool (lit "expired") (expired i) true cert in
      let cert := addJsonBool (lit "not_yet_valid") (notYetValid i) true cert in
      let cert := addJsonBool (lit "expiring_soon") (expiringSoon i) true cert in
      let cert := addJsonInt (lit "days_left") (if valid i then certDaysLeft (notAfterEpoch i) now else 0) true cert in
      let cert := addJsonInt (lit "not_before") (notBeforeEpoch i) true cert in
      let cert := addJsonInt (lit "not_after") (notAfterEpoch i) true cert in
      let cert := addJsonString (lit "subject") (subject i) true cert in
      let cert := addJsonString (lit "sans") (sans i) true cert in
      let cert := addJsonInt (lit "cert_bytes") (certBytes i) true cert in
      let cert := addJsonInt (lit "key_bytes") (keyBytes i) true cert in
      let cert := addJsonString (lit "path") (path i) true cert in
      let cert := addJsonInt (lit "validity_years") kValidityYears true cert in
      let cert := addJson (lit "validity_options") (lit "[" ++ Text.join 44 (dec <$> kValidityYearChoices) ++ lit "]") true cert in
      let cert := addJsonInt (lit "warning_days") kDaysWarningWindow true cert in
      let cert := addJsonString (lit "name") (Security.certName (getSecurity (nvs w))) true cert in
      let cert := addJsonString (lit "default_name") kDefaultCommonName true cert in
      let cert := addJsonString (lit "ip") serverIp true cert in
      let cert := addJsonString (lit "error") (error i) true cert in
      (addJson (lit "cert") (cert ++ lit "}") true json ++ lit "}", w)
  end.

Definition set_fs (v : S) (w : World) : World :=
  mkWorld (running w) (instance w) (served w) (pairDeadline w) (retryPending w) (certPem w) (keyPem w) (certs w) v (nvs w) (tasks w) (awake w) (starting w).
Definition set_storage (storage : CertStorage) (w : World) : World :=
  mkWorld (running w) (instance w) (served w) (pairDeadline w) (retryPending w) (certPem w) (keyPem w) (Some storage) (fs w) (nvs w) (tasks w) (awake w) (starting w).
Definition with_name (name : bytes) (c : SecurityConfig) : SecurityConfig :=
  Security.mk (Security.username c) (Security.password c) (Security.maxAttempts c) (Security.lockoutPeriodSec c) (Security.logAuth c)
    (Security.logFileSize c) (Security.httpsEnabled c) (Security.certStorage c) name.
Definition with_storage (storage : CertStorage) (c : SecurityConfig) : SecurityConfig :=
  Security.mk (Security.username c) (Security.password c) (Security.maxAttempts c) (Security.lockoutPeriodSec c) (Security.logAuth c)
    (Security.logFileSize c) (Security.httpsEnabled c) storage (Security.certName c).

(** The three actions: why it was refused, if it was. [runner]: why the task of a
    generation gave no answer of its own - one is running, it could not be started - if
    it did not. *)
Definition postGenerate (runner : option bytes) (rnd body serverIp : bytes) (now : Z) (storage : CertStorage) (w : World) : option bytes * World :=
  let security := getSecurity (nvs w) in
  let name := orElse (Security.certName security) (jsonGetStr body (lit "name")) in
  match runner with
  | Some detail => (Some detail, w)
  | None =>
      let '(detail, v) := generate errnoText storage name serverIp (jsonGetInt body (lit "years") kValidityYears) now rnd (fs w) in
      let w := set_fs v w in
      match detail with
      | Some detail => (Some detail, w)
      | None => (None, if bytes_eqb name (Security.certName security) then w else storeSecurity (with_name name security) w)
      end
  end.

Definition postDelete (storage : CertStorage) (w : World) : option bytes * World :=
  let '(detail, v) := erase errnoText storage (fs w) in (detail, set_fs v w).

Definition postStorage (body : bytes) (from : CertStorage) (w : World) : option bytes * World :=
  match certStorageFromName (jsonGetStr body (lit "storage")) with
  | None => (Some (lit "unknown storage volume"), w)
  | Some target =>
      if bool_decide (target = from) then (None, w)
      else
        let copy := jsonGetBool body (lit "copy") false in
        let '(detail, v) := if copy && pairPresentIn from (fs w) && negb (pairPresentIn target (fs w))
                            then copyTo errnoText from target (fs w) else (None, fs w) in
        let w := set_fs v w in
        match detail with
        | Some detail => (Some detail, w)
        | None => let w := set_storage target w in (None, storeSecurity (with_storage target (getSecurity (nvs w))) w)
        end
  end.

Definition certAction (runner : option bytes) (rnd body serverIp : bytes) (now : Z) (storage : CertStorage) (w : World) : option bytes * World :=
  let action := jsonGetStr body (lit "action") in
  if bytes_eqb action (lit "generate") then postGenerate runner rnd body serverIp now storage w
  else if bytes_eqb action (lit "delete") then postDelete storage w
  else if bytes_eqb action (lit "storage") then postStorage body storage w
  else (Some (lit "unknown action"), w).

(** Afterwards: the reply, and the switch of HTTPS that was put into a task. [taskOk]:
    that task could be started. *)
Definition handlePostCertificates (authorized taskOk : bool) (runner : option bytes) (rnd body serverIp : bytes) (now : Z) (w : World) : Reply * option bool * World :=
  if negb authorized then (Unauthorized, None, w)
  else if bool_decide (jsonGetStr body (lit "action") = []) then (answerCertificateError (lit "no action given"), None, w)
  else match certs w with
  | None => (answerCertificateError (lit "this build has no volume for certificates"), None, w)
  | Some storage =>
      let httpsWasOn := serving w in
      match certAction runner rnd body serverIp now storage w with
      | (Some detail, w) => (answerCertificateError detail, None, w)
      | (None, w) =>
          let canServe := certUsable (certStatus (info errnoText (default storage (certs w)) now (fs w))) in
          (Answered (addJsonBool (lit "https_restart") httpsWasOn true (addJsonString (lit "status") (lit "ok") false (lit "{")) ++ lit "}"),
           if httpsWasOn && taskOk then Some canServe else None, w)
      end
  end.

(** The task, after its wait. *)
Definition httpsSwitchTask (enable sslOk : bool) (now : Z) (w : World) : World := (setHttpsEnabled errnoText enable sslOk now w).2.

(** The certificate file and nothing else. *)
Definition handleGetCertificateDownload (authorized : bool) (w : World) : Reply + bytes :=
  if negb authorized then inl Unauthorized
  else match certs w with
  | None => inl (answerCertificateError (lit "this build has no volume for certificates"))
  | Some storage =>
      match readCertificate errnoText storage (fs w) with
      | inl detail => inl (answerCertificateError detail)
      | inr certPem => inr certPem
      end
  end.

End Handlers.

(** ** The task a certificate is made in *)

(** The one slot of both servers, its two semaphores, and what is known of the task: [None]
    when there is none, otherwise whether it has already told its result. *)
Record Slot := mkSlot { gate : bool; doneGiven : bool; jobOk : bool; jobDetail : bytes; task : option bool }.

Inductive Client := NotAsked | Waiting | Called | Got (result : option bytes).
Definition firstSlot : Slot := mkSlot true false false [] None.

(** The steps of [runCertificateGeneration] in a client - taking the gate and starting the
    task, the signal, giving up, reading the slot - and of the task: telling the result
    and leaving. *)
Inductive GenEvent := GAsk (client : nat) (taskOk : bool) | GSignal (client : nat) | GGiveUp (client : nat) | GRead (client : nat)
  | GResult (result : option bytes) | GLeave.

Definition GenState : Type := Slot * (nat → Client).
Definition answers (c : nat) (a : Client) (cs : nat → Client) : nat → Client := λ i, if (i =? c)%nat then a else cs i.

Definition genStep (st : GenState) (e : GenEvent) : GenState :=
  let '(s, cs) := st in
  match e with
  | GAsk c taskOk =>
      match cs c with
      | Waiting | Called => st
      | _ =>
          if negb (gate s) then (s, answers c (Got (Some (lit "a certificate generation is already running"))) cs)
          else if taskOk then (mkSlot false false false [] (Some false), answers c Waiting cs)
          else (mkSlot true false false [] (task s), answers c (Got (Some (lit "cannot start the certificate generator"))) cs)
      end
  | GSignal c => match cs c with Waiting => if doneGiven s then (mkSlot (gate s) false (jobOk s) (jobDetail s) (task s), answers c Called cs) else st | _ => st end
  | GGiveUp c => match cs c with Waiting => (s, answers c (Got (Some (lit "the certificate generation did not finish"))) cs) | _ => st end
  | GRead c => match cs c with Called => (s, answers c (Got (if jobOk s then None else Some (jobDetail s))) cs) | _ => st end
  | GResult result =>
      match task s with
      | Some false => (mkSlot (gate s) true (bool_decide (result = None)) (default [] result) (Some true), cs)
      | _ => st
      end
  | GLeave => match task s with Some true => (mkSlot true (doneGiven s) (jobOk s) (jobDetail s) None, cs) | _ => st end
  end.
Definition genSteps (es : list GenEvent) : GenState := fold_left genStep es (firstSlot, λ _, NotAsked).

(** The gate is free exactly while no task is in the slot, so that no two certificates are
    made at a time, whatever the clients do. *)
Theorem one_generation es : gate (genSteps es).1 = bool_decide (task (genSteps es).1 = None).
Proof.
  unfold genSteps. assert (H : ∀ st : GenState, gate st.1 = bool_decide (task st.1 = None) → gate (fold_left genStep es st).1 = bool_decide (task (fold_left genStep es st).1 = None)); [|by apply H].
  induction es as [|e es IH]; intros [s cs] Hs; [done|]. apply IH. destruct e as [c taskOk|c|c|c|result|]; cbn in *.
  - destruct (cs c); try done; (destruct (gate s) eqn:Eg; [|cbn; by rewrite Eg]); cbn; by destruct taskOk.
  - destruct (cs c); try done. by destruct (doneGiven s).
  - by destruct (cs c).
  - by destruct (cs c).
  - destruct (task s) as [[]|] eqn:Et; cbn; rewrite ?Et; done.
  - destruct (task s) as [[]|] eqn:Et; cbn; rewrite ?Et; done.
Qed.

(** The slot is read after the gate was given back: a client of the other server can ask
    in between, and the one whose certificate was made is told that it failed, for no
    reason. *)
Example answer_of_another :
  (genSteps [GAsk 0 true; GResult None; GLeave; GSignal 0; GAsk 1 true; GRead 0]).2 0%nat = Got (Some []).
Proof. reflexivity. Qed.

(** The signal can also go to the wrong client: the second one drains it. *)
Example signal_drained :
  let st := genSteps [GAsk 0 true; GResult None; GLeave; GAsk 1 true] in (st.2 0%nat, doneGiven st.1) = (Waiting, false).
Proof. reflexivity. Qed.

(** ** What an action changes *)

Section Outcome.
Context {S N K : Type} `{Posix S} `{Volumes S} `{Crypto K} `{Nvs N} (errnoText : Errno → bytes).
Abbreviation World := (WebServer.World S N).

(** A request that was refused has left the settings, the chosen volume and both servers
    as they were; one that went through leaves the servers to the task that follows it,
    which is asked for exactly while HTTPS runs. *)
Theorem certificates_post_outcome authorized taskOk runner rnd body serverIp now (w : World) :
  let '(reply, switch, w') := handlePostCertificates errnoText authorized taskOk runner rnd body serverIp now w in
  served w' = served w ∧ pairDeadline w' = pairDeadline w ∧ running w' = running w ∧ tasks w' = tasks w ∧
  match reply with
  | Answered _ => ∃ st, certs w' = Some st ∧ (serving w = true → taskOk = true → switch = Some (certUsable (certStatus (info errnoText st now (fs w')))))
  | _ => nvs w' = nvs w ∧ certs w' = certs w ∧ switch = None
  end.
Proof.
  unfold handlePostCertificates. destruct authorized; cbn [negb]; [|by split_and!]. case_bool_decide; [by split_and!|]. destruct (certs w) as [storage|] eqn:Ec; [|by split_and!].
  assert (Hact : let '(detail, w') := certAction errnoText runner rnd body serverIp now storage w in
    served w' = served w ∧ pairDeadline w' = pairDeadline w ∧ running w' = running w ∧ tasks w' = tasks w ∧
    match detail with Some _ => nvs w' = nvs w ∧ certs w' = Some storage | None => is_Some (certs w') end).
  { unfold certAction. destruct (bytes_eqb _ (lit "generate")); [|destruct (bytes_eqb _ (lit "delete")); [|destruct (bytes_eqb _ (lit "storage"))]].
    - unfold postGenerate. destruct runner; [by split_and!|]. destruct (generate _ _ _ _ _ _ _ _) as [[d|] v]; [by split_and!|].
      destruct (bytes_eqb _ _); split_and!; try done; cbn; by rewrite ?Ec.
    - unfold postDelete. destruct (erase _ _ _) as [[d|] v]; split_and!; try done; cbn; by rewrite ?Ec.
    - unfold postStorage. destruct (certStorageFromName _) as [target|]; [|by split_and!]. case_bool_decide; [split_and!; try done; by rewrite Ec|].
      destruct (if _ : bool then _ else _) as [[d|] v]; split_and!; try done; by eexists.
    - by split_and!. }
  destruct (certAction _ _ _ _ _ _ _ w) as [[d|] w']; destruct Hact as (A1 & A2 & A3 & A4 & A5); split_and!; try done; [cbn; destruct A5; by split_and!|].
  destruct A5 as [st Hst]. rewrite Hst. exists st. split; [done|]. by intros -> ->.
Qed.

End Outcome.

End CertificateApi.

(** ** A device whose HTTPS waits for the clock *)

Import PosixFileOperations CertificateApi WebServer Settings.Config(Internal, CSecurity, set).
#[local] Existing Instances both_mounted plain_crypto Settings.Config.flash.

Definition wishing : Settings.Config.Flash := (set (CSecurity (with_https true (Security.getSecurity Settings.Config.erased))) Settings.Config.erased).2.
Definition waitingDevice : World Volume Settings.Config.Flash := steps (K := bytes) noText (boot (Some Internal) generated.2 wishing) [(1000, EStart true true)].
Definition clockThenRetry : list (Z * Event (S := Volume) (N := Settings.Config.Flash)) := [(issued, EClockSet true); (issued, ERetryWakes); (issued, ERetryLooks); (issued, EStartTls true)].
Definition post (body : bytes) : Reply * World Volume Settings.Config.Flash := handlePostSecuritySettings (K := bytes) noText true body true 2000 waitingDevice.

(** The page shows HTTPS as off while it waits, but saving it off cancels nothing: only a
    change of what listens is stored, and the clock switches HTTPS on. *)
Example wish_not_cancelled :
  let off := post (lit "{" ++ JsonRead.quoted (lit "https_enabled") ++ lit ":false}") in
  (Security.httpsEnabled (Security.getSecurity (nvs off.2)), serving (steps (K := bytes) noText off.2 clockThenRetry)) = (true, true).
Proof. vm_compute. reflexivity. Qed.

(** A body that does not name the switch asks for the stored wish, so that nothing of it is
    saved while the wish waits. *)
Example save_refused_while_waiting :
  let r := post (lit "{" ++ JsonRead.quoted (lit "username") ++ lit ":" ++ JsonRead.quoted (lit "boss") ++ lit "}") in
  (match r.1 with Refused _ => true | _ => false end, Security.username (Security.getSecurity (nvs r.2))) = (true, lit "admin").
Proof. vm_compute. reflexivity. Qed.
