(* ===== verification/JsonScan.v ===== *)
(** * Reading a long document with scanners that look for quoted names

    The pages of the settings and the backup are written with [addJsonString] and its
    companions and read back with the scanners of [Json.JsonRead], which take the first
    place where a name stands between quotes.  Such a text is seen here as a sequence of
    atoms - a quoted token with what follows it, or text without quotes - and a look-up of
    a name as the first token that is that name.  Nothing here is code of the program. *)
From S2P Require Import Prelude Json CertificateApi.
#[local] Open Scope Z_scope.

Module JsonScan.
Import JsonWriter JsonRead CertificateApi(addJson, addJsonString, addJsonBool, addJsonInt).

(** ** Texts made with [addJsonString], [addJsonBool] and [addJsonInt] *)

Definition addValue (m : bytes * Value) : bool → bytes → bytes :=
  match m.2 with VStr v => addJsonString m.1 v | VNum z => addJsonInt m.1 z | VBool b => addJsonBool m.1 b end.

(** An object whose first member has no comma before it. *)
Definition openObject (ms : list (bytes * Value)) : bytes :=
  match ms with
  | [] => lit "{"
  | m :: ms => foldl (λ json m, addValue m true json) (addValue m false (lit "{")) ms
  end.
Definition objectJson (ms : list (bytes * Value)) : bytes := openObject ms ++ lit "}".

(** ** Atoms *)

Inductive Atom := Txt (t : bytes) | Tok (w t : bytes).

Definition atomText (a : Atom) : bytes := match a with Txt t => t | Tok w t => quoted w ++ t end.
Definition flat (l : list Atom) : bytes := concat (atomText <$> l).

(** Printable text without a quote. *)
Definition printable (u : bytes) : Prop := Forall (λ c, 32 <= c < 256 ∧ c ≠ cQuote) u.

#[export] Instance printable_dec u : Decision (printable u).
Proof. unfold printable. apply _. Defined.

Definition sep (c : Z) : Prop := c = 58 ∨ c = 44 ∨ c = 125.

Definition fine (a : Atom) : Prop :=
  match a with
  | Txt t => cQuote ∉ t
  | Tok w t => cQuote ∉ t ∧ (∃ x r, t = x :: r ∧ sep x) ∧ ∃ u, printable u ∧ w = escape u
  end.

(** No bracket of an array outside the tokens. *)
Definition unbracketed (a : Atom) : Prop := match a with Txt t | Tok _ t => 91 ∉ t ∧ 93 ∉ t end.

(** What follows the first token that is the key. *)
Fixpoint after (key : bytes) (l : list Atom) : option (bytes * list Atom) :=
  match l with
  | [] => None
  | Txt _ :: l => after key l
  | Tok w t :: l => if bool_decide (w = key) then Some (t, l) else after key l
  end.

(** The texts for which a look-up of a key can be skipped. *)
Definition skips (key t : bytes) : Prop :=
  ∀ r, find_sub (quoted key) (t ++ r) = (λ n, (length t + n)%nat) <$> find_sub (quoted key) r.

Lemma flat_app l l' : flat (l ++ l') = flat l ++ flat l'.
Proof. unfold flat. by rewrite fmap_app, concat_app. Qed.

Lemma flat_cons a l : flat (a :: l) = atomText a ++ flat l.
Proof. done. Qed.

Lemma printable_wf u : printable u → wf_bytes u.
Proof. intros H. eapply Forall_impl; [exact H|]. intros c [Hc _]. unfold is_u8. lia. Qed.

Lemma printable_kept u : printable u → kept u = u.
Proof. intros H. apply kept_id. eapply Forall_impl; [exact H|]. intros c [Hc _]. unfold kAsciiPrintableMin. lia. Qed.

Lemma printable_quote u : printable u → cQuote ∉ u.
Proof. unfold printable. rewrite Forall_forall. intros H Hq. by destruct (H _ Hq). Qed.

Lemma printable_back u : printable u → unescape (escape u) = u.
Proof. intros H. by rewrite unescape_escape, printable_kept by auto using printable_wf. Qed.

Lemma fine_quote w t : fine (Tok w t) → cQuote ∉ w.
Proof. intros (_ & _ & u & Hu & ->). by apply escape_no_quote, printable_quote. Qed.

Lemma find_nil key : find_sub (quoted key) [] = None.
Proof. done. Qed.

Lemma skips_app key t t' : skips key t → skips key t' → skips key (t ++ t').
Proof.
  intros H H' r. rewrite <- app_assoc, H, H'. destruct (find_sub _ r); [|done]. cbn. f_equal. rewrite length_app. lia.
Qed.

Lemma skips_text key t : cQuote ∉ t → skips key t.
Proof. intros H r. by apply find_skip_text. Qed.

Lemma skips_token key w t : plainKey key → w ≠ key → fine (Tok w t) → skips key (quoted w ++ t).
Proof.
  intros Hk Hw Hf r. pose proof (fine_quote w t Hf) as Hq. destruct Hf as (Ht & (x & r' & -> & Hx) & _).
  rewrite <- app_assoc. cbn [app]. rewrite find_skip_token by done.
  change (x :: r' ++ r) with ((x :: r') ++ r). rewrite find_skip_text by done.
  destruct (find_sub _ r); [|done]. cbn [fmap option_fmap option_map]. f_equal. unfold quoted. app_lengths.
Qed.

Lemma find_here key s : find_sub (quoted key) (quoted key ++ s) = Some 0%nat.
Proof. pose proof (quoted_prefix key s) as Hp. destruct (quoted key ++ s); cbn [find_sub]; by rewrite Hp. Qed.

(** The first token that is the key is where the scanner stops. *)
Lemma find_flat key l r : plainKey key → Forall fine l →
  match after key l with
  | Some (t, l') => ∃ n, find_sub (quoted key) (flat l ++ r) = Some n ∧ drop n (flat l ++ r) = quoted key ++ t ++ flat l' ++ r
  | None => find_sub (quoted key) (flat l ++ r) = (λ n, (length (flat l) + n)%nat) <$> find_sub (quoted key) r
  end.
Proof.
  intros Hk. induction 1 as [|a l Ha Hl IH]; [cbn [after]; change (flat [] ++ r) with r; by destruct (find_sub _ r)|].
  rewrite flat_cons, <- app_assoc. destruct a as [t|w t]; cbn [after].
  - assert (Hs : skips key t) by (apply skips_text, Ha). cbn [atomText].
    destruct (after key l) as [[t' l']|].
    + destruct IH as (n & E & D). exists (length t + n)%nat. rewrite Hs, E. split; [done|]. by rewrite <- drop_drop, drop_app_length.
    + rewrite Hs, IH. destruct (find_sub _ r); [|done]. cbn. f_equal. rewrite length_app. lia.
  - case_bool_decide as Ew.
    + subst w. exists 0%nat. cbn [atomText]. rewrite <- !app_assoc. split; [|done].
      apply find_here.
    + assert (Hs : skips key (quoted w ++ t)) by by apply skips_token. cbn [atomText].
      destruct (after key l) as [[t' l']|].
      * destruct IH as (n & E & D). exists (length (quoted w ++ t) + n)%nat. rewrite Hs, E. split; [done|].
        by rewrite <- drop_drop, drop_app_length.
      * rewrite Hs, IH. destruct (find_sub _ r); [|done]. cbn [fmap option_fmap option_map]. f_equal. rewrite (length_app (quoted w ++ t)). lia.
Qed.

Lemma find_quoted_colon key s : plainKey key → find_char 58 (quoted key ++ 58 :: s) = Some (length (quoted key)).
Proof.
  intros (_ & _ & H & _). apply find_char_app. unfold quoted. rewrite !not_elem_of_app, !list_elem_of_singleton.
  split_and!; done.
Qed.

Lemma valueAt_flat key l r t l' : plainKey key → Forall fine l → after key l = Some (58 :: t, l') →
  valueAt (flat l ++ r) key = Some (drop_while (λ c, c =? 32) (t ++ flat l' ++ r)).
Proof.
  intros Hk Hl E. pose proof (find_flat key l r Hk Hl) as H. rewrite E in H. destruct H as (n & Ef & Ed).
  unfold valueAt, afterChar. rewrite Ef, Ed. cbn [app]. rewrite find_quoted_colon by done. by rewrite drop_S_app.
Qed.

(** ** Objects *)

Definition memberAtoms (m : bytes * Value) (s : Z) : list Atom :=
  match m.2 with
  | VStr v => [Tok m.1 [58]; Tok (escape v) [s]]
  | v => [Tok m.1 (58 :: valueText v ++ [s])]
  end.

Fixpoint membersAtoms (ms : list (bytes * Value)) : list Atom :=
  match ms with
  | [] => [Txt [125]]
  | [m] => memberAtoms m 125
  | m :: ms => memberAtoms m 44 ++ membersAtoms ms
  end.

Definition objAtoms (ms : list (bytes * Value)) : list Atom := Txt [123] :: membersAtoms ms.

Lemma flat_member m s : escape m.1 = m.1 → flat (memberAtoms m s) = field m ++ [s].
Proof.
  intros E. unfold memberAtoms, field. rewrite E. destruct m.2 as [v|z|b]; unfold flat; cbn [fmap list_fmap concat atomText];
    rewrite app_nil_r, <- ?app_assoc; cbn [app]; rewrite <- ?app_assoc; done.
Qed.

Lemma flat_members ms : Forall (λ m, escape m.1 = m.1) ms → flat (membersAtoms ms) =
  match ms with [] => [125] | m :: ms => field m ++ tailText ms end.
Proof.
  induction 1 as [|m ms Hm Hms IH]; [done|]. cbn [membersAtoms]. destruct ms as [|m' ms]; [by apply flat_member|].
  rewrite flat_app, flat_member, IH by done. unfold tailText. cbn [fmap list_fmap concat]. rewrite <- !app_assoc. cbn [app].
  by rewrite <- ?app_assoc.
Qed.

(** Both ways of writing an object give its atoms. *)
Lemma flat_object ms : Forall (λ m, escape m.1 = m.1) ms → flat (objAtoms ms) = document ms.
Proof.
  intros H. unfold objAtoms. rewrite flat_cons, flat_members by done. destruct ms as [|m ms]; [done|].
  pose proof (document_split [] m ms) as E. cbn [app] in E. by rewrite E.
Qed.

Lemma addValue_field m c json : escape m.1 = m.1 → addValue m c json = json ++ (if c then [44] else []) ++ field m.
Proof.
  intros E. unfold addValue, field. rewrite E.
  destruct m as [k [v|z|b]]; unfold addJsonString, addJsonInt, addJsonBool, addJson, quoted; cbn [fst snd valueText app];
    by rewrite <- ?app_assoc.
Qed.

Lemma objectJson_document ms : Forall (λ m, escape m.1 = m.1) ms → objectJson ms = document ms.
Proof.
  intros H. rewrite <- flat_object by done. unfold objAtoms. rewrite flat_cons, flat_members by done. unfold objectJson, openObject.
  destruct H as [|m ms Hm Hms]; [done|]. rewrite addValue_field by done. cbn [app atomText].
  assert (G : ∀ json, foldl (λ json m, addValue m true json) json ms = json ++ concat ((λ m, 44 :: field m) <$> ms)).
  { clear m Hm. induction Hms as [|m ms Hm _ IH]; intros json; [by rewrite app_nil_r|].
    cbn [foldl fmap list_fmap concat]. rewrite addValue_field, IH by done. by rewrite <- !app_assoc. }
  rewrite G. unfold tailText. cbn. by rewrite <- !app_assoc.
Qed.

(** ** Reading members *)

Section Keys.
Context (keys : list bytes).

(** A text that cannot be taken for a key; an [int]. *)
Definition tame (u : bytes) : Prop := printable u ∧ u ∉ keys.
Definition tameValue (v : Value) : Prop :=
  match v with VStr u => tame u | VNum z => - 2 ^ 31 <= z < 2 ^ 31 | VBool _ => True end.
Definition tameMembers (ms : list (bytes * Value)) : Prop :=
  NoDup ms.*1 ∧ Forall (λ m, m.1 ∈ keys ∧ tameValue m.2) ms.

Hypothesis keys_plain : Forall (λ k, plainKey k ∧ printable k) keys.

Lemma key_plain k : k ∈ keys → plainKey k.
Proof. intros Hk. rewrite Forall_forall in keys_plain. by apply keys_plain. Qed.

Lemma key_escape k : k ∈ keys → escape k = k.
Proof. intros Hk. by apply key_plain. Qed.

Lemma tame_apart key u : key ∈ keys → tame u → escape u ≠ key.
Proof.
  intros Hk [Hp Hu] E. apply Hu. assert (Hkp : printable key) by (rewrite Forall_forall in keys_plain; by apply keys_plain).
  rewrite <- (printable_back u Hp), E, <- (key_escape key Hk), printable_back by done. done.
Qed.

Lemma dec_digits z : 0 <= z → Forall (λ c, 48 <= c <= 57) (dec z).
Proof.
  intros Hz. unfold dec. assert (Hgo : ∀ fuel y acc, 0 <= y → Forall (λ c, 48 <= c <= 57) acc → Forall (λ c, 48 <= c <= 57) (dec_loop fuel y acc)).
  { induction fuel as [|f IH]; intros y acc Hy Ha; cbn [dec_loop]; [done|].
    assert (Forall (λ c, 48 <= c <= 57) ((48 + y mod 10) :: acc)) as H by (constructor; [zdm|done]).
    destruct (y / 10 =? 0); [done|]. apply IH; [zdm|done]. }
  by apply Hgo.
Qed.

(** The texts of numbers and switches: digits, a sign, small letters. *)
Lemma value_chars v : match v with VStr _ => True | _ => Forall (λ c, c = 45 ∨ 48 <= c <= 57 ∨ 97 <= c <= 122) (valueText v) end.
Proof.
  destruct v as [u|z|b]; [done| |]; cbn [valueText].
  - unfold decInt. destruct (Z.ltb_spec z 0); [constructor; [by left|]|]; (eapply Forall_impl; [apply dec_digits; lia|]); naive_solver.
  - destruct b; vm_compute lit; repeat (apply List.Forall_cons; [lia|]); apply List.Forall_nil.
Qed.

Definition inside (a : Atom) : Prop := fine a ∧ unbracketed a.

Lemma value_fine k v s : sep s → printable k → escape k = k → match v with VStr _ => False | _ => True end → inside (Tok k (58 :: valueText v ++ [s])).
Proof.
  intros Hs Hp He Hv. pose proof (value_chars v) as Hc. assert (Hf : Forall (λ c, c = 45 ∨ 48 <= c <= 57 ∨ 97 <= c <= 122) (valueText v)) by by destruct v.
  unfold inside. cbn [fine unbracketed]. rewrite Forall_forall in Hf. unfold sep in Hs. rewrite !not_elem_of_cons, !not_elem_of_app, !list_elem_of_singleton.
  split_and!; try lia; try (intros Hin; apply Hf in Hin; lia); [by eexists _, _; split; [reflexivity|left]|by exists k].
Qed.

Lemma text_inside k s : sep s → printable k → inside (Tok (escape k) [s]).
Proof.
  intros Hs Hp. unfold inside. cbn [fine unbracketed]. unfold sep in Hs. rewrite !list_elem_of_singleton.
  split_and!; [lia|by eexists _, _|by exists k|lia|lia].
Qed.

Lemma member_inside m s : m.1 ∈ keys → tameValue m.2 → sep s → Forall inside (memberAtoms m s).
Proof.
  destruct m as [k v]. cbn [fst snd]. intros Hk Hv Hs.
  assert (Hkp : printable k) by (rewrite Forall_forall in keys_plain; by apply keys_plain).
  pose proof (key_escape k Hk) as He. unfold memberAtoms. cbn [fst snd]. destruct v as [u|z|b].
  - repeat apply List.Forall_cons; [| |constructor].
    + rewrite <- He. apply text_inside; [by left|done].
    + apply text_inside; [done|by apply Hv].
  - constructor; [|constructor]. by apply value_fine.
  - constructor; [|constructor]. by apply value_fine.
Qed.

Lemma members_inside ms : tameMembers ms → Forall inside (membersAtoms ms).
Proof.
  intros [_ H]. induction H as [|m ms [Hk Hv] Hms IH]; [constructor; [|constructor]; split; cbn; rewrite ?list_elem_of_singleton; done|]. cbn [membersAtoms].
  destruct ms as [|m' ms]; [apply member_inside; [done..|by right; right]|]. apply Forall_app. split; [apply member_inside; [done..|by right; left]|done].
Qed.

Lemma inside_fine l : Forall inside l → Forall fine l.
Proof. intros H. eapply Forall_impl; [exact H|]. by intros a []. Qed.

Lemma object_inside ms : tameMembers ms → Forall inside (objAtoms ms).
Proof. intros H. constructor; [split; cbn; rewrite ?list_elem_of_singleton; done|by apply members_inside]. Qed.

Lemma after_app key l l' : after key (l ++ l') = match after key l with Some (t, r) => Some (t, r ++ l') | None => after key l' end.
Proof. induction l as [|[t|w t] l IH]; cbn [app after]; [done|done|]. by case_bool_decide. Qed.

(** A name that no member has is not found. *)
Lemma after_member_none key m s : key ∈ keys → tameValue m.2 → m.1 ≠ key → after key (memberAtoms m s) = None.
Proof.
  destruct m as [k v]. cbn [fst snd]. intros Hk Hv Hne. unfold memberAtoms. cbn [fst snd].
  destruct v as [u|z|b]; cbn [after]; rewrite bool_decide_false by done; [|done..]. by rewrite bool_decide_false by by apply tame_apart.
Qed.

Lemma after_members_none key ms : key ∈ keys → tameMembers ms → key ∉ ms.*1 → after key (membersAtoms ms) = None.
Proof.
  intros Hk [_ H] Hn. induction H as [|m ms [_ Hm] _ IH]; [done|]. cbn [fmap list_fmap] in Hn. apply not_elem_of_cons in Hn as [Hne Hn].
  cbn [membersAtoms]. destruct ms as [|m' ms]; [by apply after_member_none|]. rewrite after_app, after_member_none by done. by apply IH.
Qed.

(** A member is found where it stands. *)
Lemma after_members key v ms : tameMembers ms → (key, v) ∈ ms → ∃ s l', sep s ∧ s ≠ 58 ∧
  after key (membersAtoms ms) = Some (match v with VStr u => ([58], Tok (escape u) [s] :: l') | _ => (58 :: valueText v ++ [s], l') end).
Proof.
  intros [Hd H] Hin. assert (G : ∀ s, after key (memberAtoms (key, v) s) =
    Some (match v with VStr u => ([58], [Tok (escape u) [s]]) | _ => (58 :: valueText v ++ [s], []) end)).
  { intros s. unfold memberAtoms. destruct v; cbn [fst snd after]; by rewrite bool_decide_true. }
  induction H as [|m ms [Hmk Hm] Hms IH]; [by apply elem_of_nil in Hin|]. cbn [fmap list_fmap] in Hd. apply NoDup_cons in Hd as [Hn Hd].
  cbn [membersAtoms]. apply elem_of_cons in Hin as [<-|Hin].
  - destruct ms as [|m' ms].
    + exists 125, []. split_and!; [by right; right|done|]. rewrite G. by destruct v.
    + exists 44, (membersAtoms (m' :: ms)). split_and!; [by right; left|done|]. rewrite after_app, G. by destruct v.
  - destruct ms as [|m' ms]; [by apply elem_of_nil in Hin|].
    destruct (IH Hd Hin) as (s & l' & Hs & Hs' & E). exists s, l'. split_and!; [done..|]. rewrite after_app.
    assert (Hne : m.1 ≠ key). { intros <-. apply Hn. apply list_elem_of_fmap. by exists (m.1, v). }
    assert (key ∈ keys) as Hkk. { rewrite Forall_forall in Hms. by apply (Hms (key, v)). }
    by rewrite (after_member_none key m) by done.
Qed.

(** *** The scanners *)

Lemma members_fine ms : tameMembers ms → Forall fine (membersAtoms ms).
Proof. intros H. by apply inside_fine, members_inside. Qed.

Lemma in_keys key v ms : tameMembers ms → (key, v) ∈ ms → key ∈ keys ∧ tameValue v.
Proof. intros [_ H] Hin. rewrite Forall_forall in H. apply (H _ Hin). Qed.

(** [p]: what stands before the members, [l] and [r]: what follows them. *)
Section Reads.
Context (p : list Atom) (ms : list (bytes * Value)) (l : list Atom) (r : bytes).
Hypothesis p_fine : Forall fine p.
Hypothesis p_none : Forall (λ a, match a with Txt _ => True | Tok _ _ => False end) p.
Hypothesis ms_tame : tameMembers ms.
Hypothesis l_fine : Forall fine l.

Lemma p_skip key l0 : after key (p ++ l0) = after key l0.
Proof. clear p_fine. revert p_none. induction p as [|[t|w t] q IH]; [done| |]; intros [Ha Hq]%Forall_cons; [by apply IH|done]. Qed.

Lemma all_fine : Forall fine (p ++ membersAtoms ms ++ l).
Proof. apply Forall_app. split; [done|]. apply Forall_app. split; [by apply members_fine|done]. Qed.

Lemma member_after key v : (key, v) ∈ ms → ∃ s l', sep s ∧ s ≠ 58 ∧
  after key (p ++ membersAtoms ms ++ l) = Some (match v with VStr u => ([58], Tok (escape u) [s] :: l') | _ => (58 :: valueText v ++ [s], l') end).
Proof.
  intros Hin. destruct (after_members key v ms ms_tame Hin) as (s & l' & Hs & Hs' & E). exists s, (l' ++ l).
  split_and!; [done..|]. rewrite p_skip, after_app, E. by destruct v.
Qed.

Lemma member_found key v : (key, v) ∈ ms → is_Some (find_sub (quoted key) (flat (p ++ membersAtoms ms ++ l) ++ r)).
Proof.
  intros Hin. destruct (member_after key v Hin) as (s & l' & _ & _ & E). destruct (in_keys key v ms ms_tame Hin) as [Hk _].
  pose proof (find_flat key _ r (key_plain key Hk) all_fine) as H. rewrite E in H. destruct v; destruct H as (n & -> & _); by eexists.
Qed.

Lemma read_str key u : (key, VStr u) ∈ ms → jsonGetStr (flat (p ++ membersAtoms ms ++ l) ++ r) key = u.
Proof.
  intros Hin. destruct (member_after key _ Hin) as (s & l' & _ & _ & E). destruct (in_keys _ _ _ ms_tame Hin) as [Hk [Hu _]].
  unfold jsonGetStr. rewrite (valueAt_flat key _ r [] _ (key_plain key Hk) all_fine E). rewrite flat_cons. cbn [atomText]. unfold quoted.
  rewrite <- !app_assoc. cbn [app drop_while Z.eqb Pos.eqb negb]. rewrite untilQuote_escape by by apply printable_wf. by apply printable_back.
Qed.

Lemma read_bool key b d : (key, VBool b) ∈ ms → jsonGetBool (flat (p ++ membersAtoms ms ++ l) ++ r) key d = b.
Proof.
  intros Hin. destruct (member_after key _ Hin) as (s & l' & _ & _ & E). destruct (in_keys _ _ _ ms_tame Hin) as [Hk _].
  unfold jsonGetBool. rewrite (valueAt_flat key _ r _ _ (key_plain key Hk) all_fine E). by destruct b.
Qed.

Lemma read_num key z d : (key, VNum z) ∈ ms → jsonGetInt (flat (p ++ membersAtoms ms ++ l) ++ r) key d = z.
Proof.
  intros Hin. destruct (member_after key _ Hin) as (s & l' & Hs & Hs' & E). destruct (in_keys _ _ _ ms_tame Hin) as [Hk _].
  unfold jsonGetInt. rewrite (valueAt_flat key _ r _ _ (key_plain key Hk) all_fine E). cbn [valueText].
  assert (Hd : isDigit s = false) by (unfold sep in Hs; unfold isDigit; destruct Hs as [-> | [-> | ->]]; done || lia).
  rewrite <- app_assoc. cbn [app]. rewrite drop_while_id.
  - pose proof (atoi_number z s (flat l' ++ r) Hd) as Ha. destruct (decInt z ++ s :: flat l' ++ r) eqn:En; [|exact Ha].
    apply app_eq_nil in En as [_ ?]. done.
  - intros c t. unfold decInt. destruct (Z.ltb_spec z 0); [by intros [= <-]|].
    destruct (dec_head z ltac:(lia)) as (c' & u & -> & Hc). intros [= -> _]. apply Z.eqb_neq. intros ->. done.
Qed.

End Reads.

End Keys.

(** ** Arrays *)

Lemma arrayEnd_text t r d : cQuote ∉ t → 91 ∉ t → 93 ∉ t → arrayEnd (t ++ r) d false = (length t + arrayEnd r d false)%nat.
Proof.
  induction t as [|c t IH]; intros H1 H2 H3; [done|]. apply not_elem_of_cons in H1 as [H1 H1'], H2 as [H2 H2'], H3 as [H3 H3'].
  cbn [app arrayEnd length]. by rewrite (proj2 (Z.eqb_neq c cQuote)), (proj2 (Z.eqb_neq c 91)), (proj2 (Z.eqb_neq c 93)), IH by done.
Qed.

Lemma arrayEnd_escape u r d : wf_bytes u → arrayEnd (escape u ++ cQuote :: r) d true = (length (escape u) + S (arrayEnd r d false))%nat.
Proof.
  induction u as [|c u IH]; intros Hw; [done|]. apply Forall_cons in Hw as [Hc Hw]. specialize (IH Hw).
  rewrite escape_cons, <- app_assoc, length_app. destruct (escapeChar_cases c Hc) as [[_ ->]|[_ [(-> & H1 & H2)|(x & -> & _)]]].
  - exact IH.
  - cbn [app arrayEnd length]. rewrite (proj2 (Z.eqb_neq c cQuote)), (proj2 (Z.eqb_neq c cBackslash)) by done. cbn [negb]. by rewrite IH.
  - cbn [app arrayEnd length]. rewrite Z.eqb_refl, IH. lia.
Qed.

Lemma arrayEnd_flat l r d : Forall inside l → arrayEnd (flat l ++ r) d false = (length (flat l) + arrayEnd r d false)%nat.
Proof.
  induction 1 as [|a l [Ha Hb] _ IH]; [done|]. rewrite flat_cons, <- app_assoc. destruct a as [t|w t]; cbn [atomText fine unbracketed] in *.
  - destruct Hb as [Hb1 Hb2]. rewrite arrayEnd_text, IH, length_app by done. lia.
  - destruct Ha as (Ht & _ & u & Hu & ->), Hb as [Hb1 Hb2]. unfold quoted. rewrite <- !app_assoc. cbn [app arrayEnd Z.eqb Pos.eqb].
    rewrite arrayEnd_escape by by apply printable_wf. rewrite arrayEnd_text, IH by done. app_lengths.
Qed.

Fixpoint itemsAtoms (mss : list (list (bytes * Value))) : list Atom :=
  match mss with
  | [] => []
  | [ms] => objAtoms ms
  | ms :: mss => objAtoms ms ++ Txt [44] :: itemsAtoms mss
  end.

(** The span of an array of objects is its text. *)
Lemma array_span l r : Forall inside l → jsonFindArrayEnd (91 :: flat l ++ 93 :: r) 0 = S (length (flat l)).
Proof.
  intros H. unfold jsonFindArrayEnd. cbn [drop arrayEnd Z.eqb Pos.eqb Z.add]. rewrite arrayEnd_flat by done.
  cbn [arrayEnd Z.eqb Pos.eqb]. change (0 + 1 - 1 =? 0) with true. rewrite length_cons, length_app. cbn [length]. lia.
Qed.

End JsonScan.
