(* ===== verification/SettingsApi.v ===== *)
(** * The settings pages of the REST interface ([src/web/RestApi.cpp])

    The handlers that show a section of the settings, take it back, and bring the running
    services in line: DHCP with its two lists, DNS, time, general, SSH, files, and the
    reset of all of them.  What they store goes to [Settings] and [ConfigBlobs]; what they
    ask of the services is the list of calls they make. *)
From stdpp Require Import gmap.
From S2P Require Import Prelude Text AllowedList DnsServer Autosave LogFile LogTask NtpWire Json Settings ConfigBlobs.
From S2P Require Import HostsApi PosixFiles Md5 CacheJob Certificates HttpsServer CertificateApi JsonScan.
Import AutosavePeriod AutoUpdatePlan.
#[local] Open Scope Z_scope.
#[local] Abbreviation run := Prelude.run.

#[local] Existing Instances StaticBindings.bindingBlob StaticBindings.bindingBlobLaws LocalHosts.hostBlob LocalHosts.hostBlobLaws.

(** ** The lists among the settings *)

Module Lists.
Import Config ConfigKeys.

Definition kMaxAllowedBytes : nat := 1024.

Section Ops.
Context {S : Type} `{Nvs S}.

Definition getStaticBindings (s : S) : list StaticBindings.StaticBinding := StaticBindings.getStaticBindings (readBlob KEY_DHCP_BINDINGS s).
Definition getLocalHosts (s : S) : list DnsServer.HostEntry := LocalHosts.getLocalHosts (readBlob KEY_DNS_HOSTS s).
Definition getAllowedComputers (s : S) : bytes := default [] (readBlob KEY_DHCP_ALLOWED s).

(** An empty list has no key; a list over its limit is refused. *)
Definition setListBlob {A} `{BlobEntry A} (key : bytes) (max : nat) (l : list A) (s : S) : bool * S :=
  if bool_decide (l = []) then eraseKey key s
  else let text := blobText l in if (max <? length text)%nat then (false, s) else writeBlob key text s.

Definition setStaticBindings : list StaticBindings.StaticBinding → S → bool * S := setListBlob KEY_DHCP_BINDINGS StaticBindings.kMaxBindingsBytes.
Definition setLocalHosts : list DnsServer.HostEntry → S → bool * S := setListBlob KEY_DNS_HOSTS LocalHosts.kMaxLocalHostsBytes.
Definition setAllowedComputers (text : bytes) (s : S) : bool * S :=
  if bool_decide (text = []) then eraseKey KEY_DHCP_ALLOWED s
  else if (kMaxAllowedBytes <? length text)%nat then (false, s) else writeBlob KEY_DHCP_ALLOWED text s.

End Ops.

End Lists.

Module SettingsApi.
Import JsonRead JsonScan CertificateApi(orElse) Lists ConfigKeys.
Module Dhcp := Config.Dhcp.
Module Dns := Config.Dns.
Module Time := Config.Time.
Module Files := Config.Files.
Module Ssh := Config.Ssh.
Module DeviceLog := Config.DeviceLog.
Module Security := Config.Security.

(** ** The services *)

(** What the handlers hold pointers to, and what can be running. *)
Inductive Part := PDhcp | PDns | PTime | PSsh | PMdns | PSsdp | PFiles | PWifi | PAuth | PWeb.
Inductive Service := SDhcp | SDns | SNtp | SSync | SSsh | SMdns | SSsdp.
#[export] Instance service_eq : EqDecision Service.
Proof. solve_decision. Defined.

Inductive Call :=
  | DhcpSetLogTerminal (on : bool) | DhcpSetFileLogSize (size : Z) | DhcpSetLogFile (on : bool)
  | DhcpSetRestLogging (on : bool) (url : bytes) (auth : bool) (user password : bytes)
  | DhcpApplyLeaseLimit | DhcpReloadAllowedComputers | DhcpReloadStaticBindings | DhcpSetDnsServerRunning (on : bool) | DhcpStart | DhcpStop
  | DnsSetLogTerminal (on : bool) | DnsLogForwarded (on : bool) | DnsLogLocal (on : bool) | DnsLogCache (on : bool) | DnsLogRestSent (on : bool)
  | DnsLogRest (on : bool) | DnsLogUrl (url : bytes) | DnsLogAuth (on : bool) (user password : bytes)
  | DnsLogFileForwarded (on : bool) | DnsFileLogSize (size : Z) | DnsLogFile (on : bool)
  | DnsCacheEnabled (on : bool) | DnsCacheReadEnabled (on : bool) | DnsCacheWriteEnabled (on : bool) | DnsCacheUrl (url : bytes)
  | DnsCacheAuth (on : bool) (user password : bytes)
  | DnsApplyInternalCache (on : bool) (sizeMb : Z) (ignoreTtl : bool) | DnsApplyCacheAutosave (on : bool) (p : Period) (interval : Z)
  | DnsApplyStatsAutosave (on : bool) (p : Period) (interval : Z) | DnsApplyCacheAutoUpdate (on : bool) (p : Period) (interval batch pause : Z)
  | DnsSetBlockForwardNonAA (on : bool) | DnsApplySubnetFilter | DnsStart | DnsStop | DnsSetLocalName (on : bool) (name ip4 ip6 : bytes)
  | DnsClearLocalHosts | DnsAddLocalHost (name ip : bytes) | DnsSyncLoggerLocalHosts | DnsDeleteStatsFile
  | TimeSetServers (servers : list bytes) | TimeSetSyncIntervalSec (sec : Z) | TimeSetUtcOffsetHours (hours : Z) | TimeSetTimezoneName (name : bytes)
  | TimeApplyTimezone | TimeApplyAccessFilter | TimeLogTerminal (on : bool) | TimeLogRest (on : bool) | TimeLogFile (on : bool) | TimeFileLogSize (size : Z)
  | TimeLogUrl (url : bytes) | TimeLogAuth (on : bool) (user password : bytes) | TimeStartSync | TimeRestartSync | TimeStopSync | TimeStart | TimeStop
  | FilesApplyAccessFilter | WifiSetHostName (name : bytes) | AuthReloadConfig | AuthLogSize (size : Z) | AuthLogFile (on : bool)
  | SshRefreshFilter | SshStart (port : Z) | SshStop | SshLogFile (on : bool) | SshLogTerminal (on : bool) | SshLogSize (size : Z)
  | MdnsStart (name : bytes) | MdnsSetHostName (name : bytes) | MdnsStop | SsdpStart (ip : bytes) | SsdpStop
  | DeviceLogFile (on : bool) | DeviceLogSize (size : Z) | NoteSettingsImported | NoteFactoryReset | Restart.

(** The outcome of what is asked of the services. *)
Record Env := mkEnv {
  wired : Part → bool;
  starts : Service → bool;
  takesHostName : bytes → bool;
  mdnsTakesName : bytes → bool;
  isConnected : bool;
  mdnsAvailable : bool;
  sshAvailable : bool;
  clientAllowed : bool;
}.

Record Device (S N : Type) := mkDevice { web : WebServer.World S N; on : Service → bool; calls : list Call }.
Arguments mkDevice {S N}. Arguments web {S N}. Arguments on {S N}. Arguments calls {S N}.

Definition kDefaultServerIp6 : bytes := lit "fd12:3456:789a:0001:021b:21ff:fe6b:8c4d".
Definition kMinUtcOffsetHours : Z := -12.
Definition kMaxUtcOffsetHours : Z := 14.
Definition kMinSyncIntervalSec : Z := 15.
Definition kMaxSyncIntervalSec : Z := 7 * 86400.

Inductive Reply := Unauthorized | EmptyBody | Sent (status json : bytes).
Definition ok200 : bytes := lit "200 OK".
Definition bad400 : bytes := lit "400 Bad Request".
Definition error500 : bytes := lit "500 Internal Server Error".
Definition statusOk : Reply := Sent ok200 (lit "{" ++ quoted (lit "status") ++ [58] ++ quoted (lit "ok") ++ lit "}").
(** The message stands in the answer as it is. *)
Definition errorReply (status message : bytes) : Reply :=
  Sent status (lit "{" ++ quoted (lit "status") ++ [58] ++ quoted (lit "error") ++ [44] ++ quoted (lit "message") ++ [58] ++ quoted message ++ lit "}").

Inductive SwitchOutcome := Unchanged | Started | Stopped | NeedsNetwork | StartFailed.

Section Handlers.
Context {S N : Type} `{Nvs N} (env : Env).
Abbreviation Device := (Device S N).

Definition store (d : Device) : N := WebServer.nvs (web d).
Definition with_web (w : WebServer.World S N) (d : Device) : Device := mkDevice w (on d) (calls d).
Definition with_store (s : N) (d : Device) : Device := with_web (WebServer.set_nvs s (web d)) d.
Definition save (ch : Config.Change) (d : Device) : Device := with_store (Config.set ch (store d)).2 d.
Definition ask (cs : list Call) (d : Device) : Device := mkDevice (web d) (on d) (calls d ++ cs).
Definition switch (s : Service) (b : bool) (d : Device) : Device := mkDevice (web d) (λ x, if decide (x = s) then b else on d x) (calls d).
Definition when (p : Part) (f : Device → Device) (d : Device) : Device := if wired env p then f d else d.

(** A start that may fail, and a stop. *)
Definition startService (s : Service) (c : Call) (d : Device) : bool * Device := (starts env s, switch s (starts env s) (ask [c] d)).
Definition stopService (s : Service) (c : Call) (d : Device) : Device := switch s false (ask [c] d).

(** ** The running half of each section *)

Definition applyDhcpSettingsLive (cfg : Dhcp.DhcpConfig) : Device → Device :=
  when PDhcp (ask [DhcpSetLogTerminal (Dhcp.logTerminal cfg); DhcpSetFileLogSize (Dhcp.logFileSize cfg); DhcpSetLogFile (Dhcp.logFile cfg);
    DhcpSetRestLogging (Dhcp.logRest cfg) (Dhcp.logUrl cfg) (Dhcp.logAuthEnabled cfg) (Dhcp.logAuthUser cfg) (Dhcp.logAuthPassword cfg);
    DhcpApplyLeaseLimit; DhcpReloadAllowedComputers]).

Definition applyDnsSettingsLive (cfg : Dns.DnsConfig) (d : Device) : Device :=
  when PDns (λ d,
    when PDhcp (ask [DhcpSetDnsServerRunning (on d SDns)])
      (ask [DnsSetLogTerminal (Dns.logTerminal cfg); DnsLogForwarded (Dns.logForwarded cfg); DnsLogLocal (Dns.logLocal cfg); DnsLogCache (Dns.logCache cfg);
        DnsLogRestSent (Dns.logRestSent cfg); DnsLogRest (Dns.logRest cfg); DnsLogUrl (Dns.logUrl cfg);
        DnsLogAuth (Dns.logAuthEnabled cfg) (Dns.logAuthUser cfg) (Dns.logAuthPassword cfg);
        DnsLogFileForwarded (Dns.logFileForwarded cfg); DnsFileLogSize (Dns.logFileSize cfg); DnsLogFile (Dns.logFile cfg);
        DnsCacheEnabled (Dns.cacheRest cfg); DnsCacheReadEnabled (Dns.cacheRestRead cfg); DnsCacheWriteEnabled (Dns.cacheRestWrite cfg);
        DnsCacheUrl (Dns.cacheUrl cfg); DnsCacheAuth (Dns.cacheAuthEnabled cfg) (Dns.cacheAuthUser cfg) (Dns.cacheAuthPassword cfg);
        DnsApplyInternalCache (Dns.cacheInternal cfg) (Dns.cacheInternalSizeMb cfg) (Dns.cacheInternalIgnoreTtl cfg);
        DnsApplyCacheAutosave (Dns.cacheInternalAutosave cfg) (Dns.cacheInternalAutosavePeriod cfg) (Dns.cacheInternalAutosaveInterval cfg);
        DnsApplyStatsAutosave (Dns.statsAutosave cfg) (Dns.statsAutosavePeriod cfg) (Dns.statsAutosaveInterval cfg);
        DnsApplyCacheAutoUpdate (Dns.cacheInternalAutoUpdate cfg) (Dns.cacheInternalAutoUpdatePeriod cfg) (Dns.cacheInternalAutoUpdateInterval cfg)
          (Dns.cacheInternalAutoUpdateBatch cfg) (Dns.cacheInternalAutoUpdatePause cfg);
        DnsSetBlockForwardNonAA (Dns.blockForwardNonAA cfg); DnsApplySubnetFilter] d)) d.

Definition applyTimeSettingsLive (cfg : Time.TimeConfig) : Device → Device :=
  when PTime (ask [TimeSetServers (NtpServers.ntpServersSplit (Time.externalNtp cfg)); TimeSetSyncIntervalSec (Time.syncIntervalSec cfg);
    TimeSetUtcOffsetHours (Time.utcOffsetHours cfg); TimeSetTimezoneName (Time.timezone cfg); TimeApplyTimezone; TimeApplyAccessFilter;
    TimeLogTerminal (Time.logTerminal cfg); TimeLogRest (Time.logRest cfg); TimeLogFile (Time.logFile cfg); TimeFileLogSize (Time.logFileSize cfg);
    TimeLogUrl (Time.logUrl cfg); TimeLogAuth (Time.logAuthEnabled cfg) (Time.logAuthUser cfg) (Time.logAuthPassword cfg)]).

Definition applyDhcpRunning (cfg : Dhcp.DhcpConfig) (networkReady reloadLists : bool) (d : Device) : SwitchOutcome * Device :=
  if negb (wired env PDhcp) then (Unchanged, d)
  else if Dhcp.enabled cfg && negb (on d SDhcp) then
    if negb networkReady then (NeedsNetwork, d)
    else let '(ok, d) := startService SDhcp DhcpStart d in (if ok : bool then Started else StartFailed, d)
  else if negb (Dhcp.enabled cfg) && on d SDhcp then (Stopped, stopService SDhcp DhcpStop d)
  else (Unchanged, if reloadLists then ask [DhcpReloadStaticBindings; DhcpReloadAllowedComputers] d else d).

Definition applyDnsRunning (cfg : Dns.DnsConfig) : Device → Device :=
  when PDns (λ d,
    if Dns.enabled cfg && negb (on d SDns) then (startService SDns DnsStart d).2
    else if negb (Dns.enabled cfg) && on d SDns then stopService SDns DnsStop d else d).

Definition applyTimeRunning (cfg : Time.TimeConfig) : Device → Device :=
  when PTime (λ d,
    let d := if Time.syncEnabled cfg then
               if negb (on d SSync) then switch SSync (starts env SSync) (ask [TimeStartSync] d) else ask [TimeRestartSync] d
             else if on d SSync then stopService SSync TimeStopSync d else d in
    if Time.enabled cfg && negb (on d SNtp) then (startService SNtp TimeStart d).2
    else if negb (Time.enabled cfg) && on d SNtp then stopService SNtp TimeStop d else d).

Inductive SshState := Unavailable | StoppedState | ErrorState | RunningState.
Definition sshStateText (s : SshState) : bytes :=
  match s with Unavailable => lit "unavailable" | StoppedState => lit "stopped" | ErrorState => lit "error" | RunningState => lit "running" end.

Definition applySshLive (d : Device) : SshState * Device :=
  let cfg := Ssh.getSsh (store d) in
  if negb (wired env PSsh) then (Unavailable, d)
  else
    let d := stopService SSsh SshStop d in
    if negb (Ssh.enabled cfg) then (StoppedState, d)
    else let '(ok, d) := startService SSsh (SshStart (Ssh.port cfg)) d in (if ok : bool then RunningState else ErrorState, d).

Definition applyLocalNameLive (d : Device) : bool * Device :=
  let dhcpCfg := Dhcp.getDhcp (store d) in
  let enabled := Config.getLocalNameEnabled (store d) in
  let hostName := Config.getHostName (store d) in
  let d := when PDns (ask [DnsSetLocalName enabled hostName (Dhcp.serverIp dhcpCfg) kDefaultServerIp6]) d in
  let '(mdnsOk, d) :=
    if negb (wired env PMdns) then (true, d)
    else if negb enabled then (true, stopService SMdns MdnsStop d)
    else if on d SMdns then (mdnsTakesName env hostName, ask [MdnsSetHostName hostName] d)
    else startService SMdns (MdnsStart hostName) d in
  let '(ssdpOk, d) :=
    if negb (wired env PSsdp) then (true, d)
    else if negb enabled then (true, stopService SSsdp SsdpStop d)
    else if negb (on d SSsdp) then startService SSsdp (SsdpStart (Dhcp.serverIp dhcpCfg)) d
    else (true, d) in
  (mdnsOk && ssdpOk, d).

(** ** DHCP *)

(** What the running server tells of itself. *)
Record DhcpStatus := mkDhcpStatus {
  dhcpState : bytes; leaseCount : Z; maxLeaseEntriesEffective : Z; leaseLimitRejects : Z; allowedListAvailable : bool; allowedListCount : Z;
}.
Definition noDhcpServer : DhcpStatus := mkDhcpStatus (lit "unknown") 0 0 0 false 0.

Definition dhcpPage (st : DhcpStatus) (dnsRunning : bool) (cfg : Dhcp.DhcpConfig) : list (bytes * Value) :=
  [(lit "enabled", VBool (Dhcp.enabled cfg)); (lit "server_state", VStr (dhcpState st)); (lit "start_ip", VStr (Dhcp.startIp cfg));
   (lit "end_ip", VStr (Dhcp.endIp cfg)); (lit "subnet", VStr (Dhcp.subnet cfg)); (lit "gateway", VStr (Dhcp.gateway cfg));
   (lit "server_ip", VStr (Dhcp.serverIp cfg)); (lit "log_terminal", VBool (Dhcp.logTerminal cfg)); (lit "log_file", VBool (Dhcp.logFile cfg));
   (lit "log_file_size", VNum (Dhcp.logFileSize cfg)); (lit "log_rest", VBool (Dhcp.logRest cfg)); (lit "log_url", VStr (Dhcp.logUrl cfg));
   (lit "log_auth", VBool (Dhcp.logAuthEnabled cfg)); (lit "log_auth_user", VStr (Dhcp.logAuthUser cfg));
   (lit "log_auth_password", VStr (Dhcp.logAuthPassword cfg)); (lit "dns_mode", VStr (Dhcp.dnsMode cfg)); (lit "dns_address", VStr (Dhcp.dnsAddress cfg));
   (lit "dns_running", VBool dnsRunning); (lit "lease_time", VNum (Dhcp.leaseTimeSec cfg)); (lit "max_lease_entries", VNum (Dhcp.maxLeaseEntries cfg));
   (lit "lease_count", VNum (leaseCount st)); (lit "max_lease_entries_effective", VNum (maxLeaseEntriesEffective st));
   (lit "lease_limit_rejects", VNum (leaseLimitRejects st)); (lit "allow_only", VBool (Dhcp.allowOnly cfg));
   (lit "allowed_list_available", VBool (allowedListAvailable st)); (lit "allowed_list_count", VNum (allowedListCount st))].

Definition handleGetDhcpSettings (authorized : bool) (st : DhcpStatus) (d : Device) : Reply :=
  if negb authorized then Unauthorized
  else Sent ok200 (objectJson (dhcpPage (if wired env PDhcp then st else noDhcpServer) (wired env PDns && on d SDns) (Dhcp.getDhcp (store d)))).

(** The bounds of the number of leases: 0 is none. *)
Definition postedMaxEntries (n : Z) : Z :=
  u32 (if n =? 0 then 0
       else let n := if n <? Config.kMinLeaseEntries then Config.kMinLeaseEntries else n in
            if Config.kMaxLeaseEntries <? n then Config.kMaxLeaseEntries else n).

Definition postedDhcp (body : bytes) : Dhcp.DhcpConfig :=
  let dnsMode := jsonGetStr body (lit "dns_mode") in
  Dhcp.mk (jsonGetBool body (lit "enabled") false)
    (orElse Config.kDefaultServerIp (jsonGetStr body (lit "server_ip"))) (orElse Config.kDefaultPoolStart (jsonGetStr body (lit "start_ip")))
    (orElse Config.kDefaultPoolEnd (jsonGetStr body (lit "end_ip"))) (orElse Config.kDefaultSubnetMask (jsonGetStr body (lit "subnet")))
    (orElse Config.kDefaultGateway (jsonGetStr body (lit "gateway")))
    (u32 (jsonGetInt body (lit "lease_time") Config.kDefaultLeaseSec)) (postedMaxEntries (jsonGetInt body (lit "max_lease_entries") 0))
    (jsonGetBool body (lit "allow_only") false) (jsonGetBool body (lit "log_terminal") false) (jsonGetBool body (lit "log_file") false)
    (u32 (LogFileSizes.logFileSizeOrDefault (jsonGetInt body (lit "log_file_size") 0)))
    (if bytes_eqb dnsMode (lit "manual") then dnsMode else lit "auto") (jsonGetStr body (lit "dns_address"))
    (jsonGetBool body (lit "log_rest") false) (jsonGetStr body (lit "log_url")) (jsonGetBool body (lit "log_auth") false)
    (jsonGetStr body (lit "log_auth_user")) (jsonGetStr body (lit "log_auth_password")).

(** The filters of the other services follow the subnet. *)
Definition refreshFilters (d : Device) : Device :=
  when PSsh (ask [SshRefreshFilter]) (when PFiles (ask [FilesApplyAccessFilter])
    (when PTime (ask [TimeApplyAccessFilter]) (when PDns (ask [DnsApplySubnetFilter]) d))).

Definition handlePostDhcpSettings (authorized : bool) (arrived : bytes) (d : Device) : Reply * Device :=
  if negb authorized then (Unauthorized, d)
  else
  let body := HostsApi.readBody HostsApi.kMaxBody arrived in
  if bool_decide (body = []) then (EmptyBody, d)
  else
    let cfg := postedDhcp body in
    let d := applyDhcpSettingsLive cfg (save (Config.CDhcp cfg) d) in
    match applyDhcpRunning cfg (wired env PWifi && isConnected env) false d with
    | (NeedsNetwork, d) => (errorReply ok200 (lit "WiFi not connected"), d)
    | (StartFailed, d) => (errorReply ok200 (lit "Failed to start DHCP server"), d)
    | (_, d) => (statusOk, refreshFilters d)
    end.

(** *** Its two lists *)

(** The page of the bindings writes the fields as they are. *)
Definition rawStr (key v : bytes) : bytes := quoted key ++ [58] ++ quoted v.
Definition rawBool (key : bytes) (b : bool) : bytes := quoted key ++ [58] ++ (if b then lit "true" else lit "false").
Definition rawObject (fields : list bytes) : bytes := lit "{" ++ Text.join 44 fields ++ lit "}".

Definition handleGetStaticBindings (authorized : bool) (d : Device) : Reply :=
  if negb authorized then Unauthorized
  else Sent ok200 (lit "{" ++ quoted (lit "bindings") ++ lit ":[" ++
    Text.join 44 ((λ b, rawObject [rawStr (lit "mac") (StaticBindings.mac b); rawStr (lit "ip") (StaticBindings.ip b);
      rawStr (lit "name") (StaticBindings.name b); rawStr (lit "gateway") (StaticBindings.gateway b);
      rawBool (lit "use_gateway") (StaticBindings.useGateway b); rawBool (lit "enabled") (StaticBindings.enabled b);
      rawBool (lit "use_dns") (StaticBindings.useDns b)]) <$> getStaticBindings (store d)) ++ lit "]}").

(** A binding from the text that starts at its ["mac"]. *)
Definition bindingAt (seg : bytes) : StaticBindings.StaticBinding :=
  StaticBindings.mkBinding (jsonGetStr seg (lit "mac")) (jsonGetStr seg (lit "ip")) (jsonGetStr seg (lit "name")) (jsonGetStr seg (lit "gateway"))
    (jsonGetBool seg (lit "use_gateway") true) (jsonGetBool seg (lit "enabled") true) (jsonGetBool seg (lit "use_dns") true).
Definition bindingRead (seg : bytes) : option StaticBindings.StaticBinding :=
  let b := bindingAt seg in if StaticBindings.bound b then Some b else None.

(** Entries from the places before offset [n] of [s] where the key stands: each is read
    from there to the offset. *)
Fixpoint entriesOf {A} (key : bytes) (read : bytes → option A) (fuel n : nat) (s : bytes) : run (list A) :=
  match fuel with
  | O => OutOfFuel
  | Datatypes.S fuel' =>
      if (n =? 0)%nat then mret []
      else
        match find_sub (quoted key) s with
        | None => mret []
        | Some i =>
            if (n <=? i)%nat then mret []
            else
              let s' := drop i s in
              let n' := (n - i)%nat in
              l ← entriesOf key read fuel' (n' - 1) (drop 1 s');
              mret (match read (take n' s') with Some a => a :: l | None => l end)
        end
  end.

Definition handlePostStaticBindings (authorized : bool) (arrived : bytes) (d : Device) : run (Reply * Device) :=
  if negb authorized then mret (Unauthorized, d)
  else
  let body := HostsApi.readBody HostsApi.kMaxBody arrived in
  if bool_decide (body = []) then mret (EmptyBody, d)
  else
    l ← entriesOf (lit "mac") bindingRead (Datatypes.S (length body)) (length body) body;
    let d := with_store (setStaticBindings l (store d)).2 d in
    mret (statusOk, when PDhcp (ask [DhcpReloadStaticBindings]) d).

Definition computerAt (seg : bytes) : AllowedList.AllowedComputer :=
  AllowedList.mkComputer (jsonGetStr seg (lit "mac")) (jsonGetStr seg (lit "name")) (jsonGetBool seg (lit "enabled") true).

Definition handleGetAllowedComputers (authorized : bool) (st : DhcpStatus) (d : Device) : Reply :=
  if negb authorized then Unauthorized
  else
    let text := getAllowedComputers (store d) in
    let l := AllowedList.parse text in
    let json := openObject [(lit "allow_only", VBool (Dhcp.allowOnly (Dhcp.getDhcp (store d)))); (lit "available", VBool (wired env PDhcp && allowedListAvailable st));
      (lit "count", VNum (Z.of_nat (length l))); (lit "max_entries", VNum (Z.of_nat AllowedList.kMaxEntries)); (lit "used_bytes", VNum (Z.of_nat (length text)));
      (lit "max_bytes", VNum (Z.of_nat kMaxAllowedBytes))] in
    Sent ok200 (json ++ lit "," ++ quoted (lit "list") ++ lit ":[" ++
      Text.join 44 ((λ e, rawObject [rawStr (lit "mac") (AllowedList.mac e); rawStr (lit "name") (AllowedList.name e);
        rawBool (lit "enabled") (AllowedList.enabled e)]) <$> l) ++ lit "]}").

Definition kMaxAllowedBody : nat := 8 * 1024.
Definition kParseCap : nat := 64.

(** An entry without both texts is passed over; one whose address is none ends the scan
    with it. *)
Fixpoint postedAllowed (fuel : nat) (body : bytes) (l : list AllowedList.AllowedComputer) : run (bytes + list AllowedList.AllowedComputer) :=
  match fuel with
  | O => OutOfFuel
  | Datatypes.S fuel' =>
      match find_sub (quoted (lit "mac")) body with
      | None => mret (inr l)
      | Some pos =>
          if (length l <? kParseCap)%nat then
            let seg := drop pos body in
            let e := computerAt seg in
            if bool_decide (AllowedList.mac e = []) && bool_decide (AllowedList.name e = []) then postedAllowed fuel' (drop 1 seg) l
            else if bool_decide (AllowedList.normalizeMac (AllowedList.mac e) = []) then mret (inl (AllowedList.mac e))
            else postedAllowed fuel' (drop 1 seg) (l ++ [e])
          else mret (inr l)
      end
  end.

Definition with_allowOnly (b : bool) (c : Dhcp.DhcpConfig) : Dhcp.DhcpConfig :=
  Dhcp.mk (Dhcp.enabled c) (Dhcp.serverIp c) (Dhcp.startIp c) (Dhcp.endIp c) (Dhcp.subnet c) (Dhcp.gateway c) (Dhcp.leaseTimeSec c)
    (Dhcp.maxLeaseEntries c) b (Dhcp.logTerminal c) (Dhcp.logFile c) (Dhcp.logFileSize c) (Dhcp.dnsMode c) (Dhcp.dnsAddress c) (Dhcp.logRest c)
    (Dhcp.logUrl c) (Dhcp.logAuthEnabled c) (Dhcp.logAuthUser c) (Dhcp.logAuthPassword c).

Definition handlePostAllowedComputers (authorized : bool) (arrived : bytes) (d : Device) : run (Reply * Device) :=
  if negb authorized then mret (Unauthorized, d)
  else
  let body := HostsApi.readBody kMaxAllowedBody arrived in
  if bool_decide (body = []) then mret (EmptyBody, d)
  else
    posted ← postedAllowed (Datatypes.S (length body)) body [];
    match posted with
    | inl mac => mret (errorReply ok200 (lit "invalid MAC: " ++ mac), d)
    | inr l =>
        if (AllowedList.kMaxEntries <? length l)%nat then mret (errorReply ok200 (lit "too many entries (max " ++ dec (Z.of_nat AllowedList.kMaxEntries) ++ lit ")"), d)
        else
          let text := AllowedList.serialize l in
          if (kMaxAllowedBytes <? length text)%nat then
            mret (errorReply ok200 (lit "list too large for NVS (max " ++ dec (Z.of_nat kMaxAllowedBytes) ++ lit " bytes)"), d)
          else
            let '(stored, s) := setAllowedComputers text (store d) in
            let d := with_store s d in
            if negb stored then mret (errorReply ok200 (lit "could not store the list"), d)
            else
              let dhcpCfg := Dhcp.getDhcp (store d) in
              let allowOnly := jsonGetBool body (lit "allow_only") (Dhcp.allowOnly dhcpCfg) in
              let d := if Bool.eqb allowOnly (Dhcp.allowOnly dhcpCfg) then d else save (Config.CDhcp (with_allowOnly allowOnly dhcpCfg)) d in
              let d := when PDhcp (ask [DhcpReloadAllowedComputers]) d in
              mret (Sent ok200 (lit "{" ++ quoted (lit "status") ++ [58] ++ quoted (lit "ok") ++ lit "," ++ quoted (lit "count") ++ [58] ++
                dec (Z.of_nat (length l)) ++ lit "," ++ rawBool (lit "allow_only") allowOnly ++ lit "}"), d)
    end.

(** ** DNS *)

Record DnsStatus := mkDnsStatus { dnsState : bytes; queryCount : Z }.
Definition noDnsServer : DnsStatus := mkDnsStatus (lit "unknown") 0.

(** [psram]: whether the board has the memory of the internal cache. *)
Definition dnsPage (st : DnsStatus) (psram : bool) (cfg : Dns.DnsConfig) : list (bytes * Value) :=
  [(lit "enabled", VBool (Dns.enabled cfg)); (lit "server_state", VStr (dnsState st)); (lit "query_count", VNum (queryCount st));
   (lit "external_dns", VStr (Dns.externalDns cfg)); (lit "log_terminal", VBool (Dns.logTerminal cfg)); (lit "log_forwarded", VBool (Dns.logForwarded cfg));
   (lit "log_local", VBool (Dns.logLocal cfg)); (lit "log_cache", VBool (Dns.logCache cfg)); (lit "log_rest_sent", VBool (Dns.logRestSent cfg));
   (lit "log_rest", VBool (Dns.logRest cfg)); (lit "log_url", VStr (Dns.logUrl cfg)); (lit "log_auth", VBool (Dns.logAuthEnabled cfg));
   (lit "log_auth_user", VStr (Dns.logAuthUser cfg)); (lit "log_auth_password", VStr (Dns.logAuthPassword cfg)); (lit "log_file", VBool (Dns.logFile cfg));
   (lit "log_file_forwarded", VBool (Dns.logFileForwarded cfg)); (lit "log_file_size", VNum (Dns.logFileSize cfg)); (lit "cache_url", VStr (Dns.cacheUrl cfg));
   (lit "cache_rest", VBool (Dns.cacheRest cfg)); (lit "cache_rest_read", VBool (Dns.cacheRestRead cfg)); (lit "cache_rest_write", VBool (Dns.cacheRestWrite cfg));
   (lit "cache_auth", VBool (Dns.cacheAuthEnabled cfg)); (lit "cache_auth_user", VStr (Dns.cacheAuthUser cfg));
   (lit "cache_auth_password", VStr (Dns.cacheAuthPassword cfg)); (lit "cache_internal", VBool (Dns.cacheInternal cfg));
   (lit "cache_internal_size_mb", VNum (Dns.cacheInternalSizeMb cfg)); (lit "cache_internal_ignore_ttl", VBool (Dns.cacheInternalIgnoreTtl cfg));
   (lit "cache_internal_save_stats", VBool (Dns.cacheInternalSaveStats cfg)); (lit "cache_internal_save_cache", VBool (Dns.cacheInternalSaveCache cfg));
   (lit "cache_internal_autosave", VBool (Dns.cacheInternalAutosave cfg));
   (lit "cache_internal_autosave_period", VNum (Config.periodIndex (Dns.cacheInternalAutosavePeriod cfg)));
   (lit "cache_internal_autosave_interval", VNum (Dns.cacheInternalAutosaveInterval cfg)); (lit "stats_autosave", VBool (Dns.statsAutosave cfg));
   (lit "stats_autosave_period", VNum (Config.periodIndex (Dns.statsAutosavePeriod cfg))); (lit "stats_autosave_interval", VNum (Dns.statsAutosaveInterval cfg));
   (lit "cache_internal_autoupdate", VBool (Dns.cacheInternalAutoUpdate cfg));
   (lit "cache_internal_autoupdate_period", VNum (Config.periodIndex (Dns.cacheInternalAutoUpdatePeriod cfg)));
   (lit "cache_internal_autoupdate_interval", VNum (Dns.cacheInternalAutoUpdateInterval cfg));
   (lit "cache_internal_autoupdate_batch", VNum (Dns.cacheInternalAutoUpdateBatch cfg));
   (lit "cache_internal_autoupdate_pause", VNum (Dns.cacheInternalAutoUpdatePause cfg)); (lit "block_forward_non_aa", VBool (Dns.blockForwardNonAA cfg));
   (lit "allow_own_subnet", VBool (Dns.allowOwnSubnet cfg)); (lit "cache_internal_available", VBool psram)].

Definition handleGetDnsSettings (authorized : bool) (st : DnsStatus) (psram : bool) (d : Device) : Reply :=
  if negb authorized then Unauthorized
  else Sent ok200 (objectJson (dnsPage (if wired env PDns then st else noDnsServer) psram (Dns.getDns (store d)))).

(** An index and an interval as the body gives them. *)
Definition postedPeriod (body key : bytes) (def : Period) : Period := autosavePeriodFromIndex (u8 (jsonGetInt body key (Config.periodIndex def))).
Definition postedInterval (body key : bytes) (p : Period) (def : Z) : Z := autosaveClampInterval p (u16 (jsonGetInt body key def)) 0.

(** What the page does not send has the value of a new structure, not the stored one. *)
Definition postedDns (body : bytes) : Dns.DnsConfig :=
  let autosavePeriod := postedPeriod body (lit "cache_internal_autosave_period") Day in
  let statsPeriod := postedPeriod body (lit "stats_autosave_period") Day in
  let updatePeriod := postedPeriod body (lit "cache_internal_autoupdate_period") Hour in
  Dns.mk (jsonGetBool body (lit "enabled") true) (orElse Config.kDefaultExternalDns (jsonGetStr body (lit "external_dns")))
    (jsonGetBool body (lit "log_terminal") false) (jsonGetBool body (lit "log_forwarded") true) (jsonGetBool body (lit "log_local") true)
    (jsonGetBool body (lit "log_cache") true) (jsonGetBool body (lit "log_rest_sent") false) (jsonGetBool body (lit "log_rest") false)
    (jsonGetStr body (lit "log_url")) (jsonGetBool body (lit "log_file") false) (jsonGetBool body (lit "log_file_forwarded") true)
    (u32 (LogFileSizes.logFileSizeOrDefault (jsonGetInt body (lit "log_file_size") 0)))
    (jsonGetBool body (lit "log_auth") false) (jsonGetStr body (lit "log_auth_user")) (jsonGetStr body (lit "log_auth_password"))
    (jsonGetBool body (lit "cache_rest") false) (jsonGetBool body (lit "cache_rest_read") true) (jsonGetBool body (lit "cache_rest_write") true)
    (jsonGetStr body (lit "cache_url")) (jsonGetBool body (lit "cache_auth") false) (jsonGetStr body (lit "cache_auth_user"))
    (jsonGetStr body (lit "cache_auth_password")) (jsonGetBool body (lit "cache_internal") false)
    (Config.clampSizeMb (u32 (jsonGetInt body (lit "cache_internal_size_mb") 20))) (jsonGetBool body (lit "cache_internal_ignore_ttl") false)
    (jsonGetBool body (lit "cache_internal_save_stats") true) (jsonGetBool body (lit "cache_internal_save_cache") true)
    (jsonGetBool body (lit "cache_internal_autosave") false) autosavePeriod (postedInterval body (lit "cache_internal_autosave_interval") autosavePeriod 1)
    (jsonGetBool body (lit "stats_autosave") false) statsPeriod (postedInterval body (lit "stats_autosave_interval") statsPeriod 1)
    (jsonGetBool body (lit "cache_internal_autoupdate") false) updatePeriod
    (autoUpdateClampInterval updatePeriod (u16 (jsonGetInt body (lit "cache_internal_autoupdate_interval") 1)))
    (autoUpdateClampBatch (jsonGetInt body (lit "cache_internal_autoupdate_batch") 50))
    (autoUpdateClampPause (jsonGetInt body (lit "cache_internal_autoupdate_pause") 60))
    [] (jsonGetBool body (lit "block_forward_non_aa") false) (jsonGetBool body (lit "allow_own_subnet") true).

Definition with_fileMd5 (md5 : bytes) (c : Dns.DnsConfig) : Dns.DnsConfig :=
  Dns.mk (Dns.enabled c) (Dns.externalDns c) (Dns.logTerminal c) (Dns.logForwarded c) (Dns.logLocal c) (Dns.logCache c) (Dns.logRestSent c) (Dns.logRest c)
    (Dns.logUrl c) (Dns.logFile c) (Dns.logFileForwarded c) (Dns.logFileSize c) (Dns.logAuthEnabled c) (Dns.logAuthUser c) (Dns.logAuthPassword c)
    (Dns.cacheRest c) (Dns.cacheRestRead c) (Dns.cacheRestWrite c) (Dns.cacheUrl c) (Dns.cacheAuthEnabled c) (Dns.cacheAuthUser c) (Dns.cacheAuthPassword c)
    (Dns.cacheInternal c) (Dns.cacheInternalSizeMb c) (Dns.cacheInternalIgnoreTtl c) (Dns.cacheInternalSaveStats c) (Dns.cacheInternalSaveCache c)
    (Dns.cacheInternalAutosave c) (Dns.cacheInternalAutosavePeriod c) (Dns.cacheInternalAutosaveInterval c) (Dns.statsAutosave c) (Dns.statsAutosavePeriod c)
    (Dns.statsAutosaveInterval c) (Dns.cacheInternalAutoUpdate c) (Dns.cacheInternalAutoUpdatePeriod c) (Dns.cacheInternalAutoUpdateInterval c)
    (Dns.cacheInternalAutoUpdateBatch c) (Dns.cacheInternalAutoUpdatePause c) md5 (Dns.blockForwardNonAA c) (Dns.allowOwnSubnet c).

Definition with_logUrl (url : bytes) (c : Dns.DnsConfig) : Dns.DnsConfig :=
  Dns.mk (Dns.enabled c) (Dns.externalDns c) (Dns.logTerminal c) (Dns.logForwarded c) (Dns.logLocal c) (Dns.logCache c) (Dns.logRestSent c) (Dns.logRest c)
    url (Dns.logFile c) (Dns.logFileForwarded c) (Dns.logFileSize c) (Dns.logAuthEnabled c) (Dns.logAuthUser c) (Dns.logAuthPassword c)
    (Dns.cacheRest c) (Dns.cacheRestRead c) (Dns.cacheRestWrite c) (Dns.cacheUrl c) (Dns.cacheAuthEnabled c) (Dns.cacheAuthUser c) (Dns.cacheAuthPassword c)
    (Dns.cacheInternal c) (Dns.cacheInternalSizeMb c) (Dns.cacheInternalIgnoreTtl c) (Dns.cacheInternalSaveStats c) (Dns.cacheInternalSaveCache c)
    (Dns.cacheInternalAutosave c) (Dns.cacheInternalAutosavePeriod c) (Dns.cacheInternalAutosaveInterval c) (Dns.statsAutosave c) (Dns.statsAutosavePeriod c)
    (Dns.statsAutosaveInterval c) (Dns.cacheInternalAutoUpdate c) (Dns.cacheInternalAutoUpdatePeriod c) (Dns.cacheInternalAutoUpdateInterval c)
    (Dns.cacheInternalAutoUpdateBatch c) (Dns.cacheInternalAutoUpdatePause c) (Dns.cacheInternalFileMd5 c) (Dns.blockForwardNonAA c) (Dns.allowOwnSubnet c).

Definition handlePostDnsSettings (authorized : bool) (arrived : bytes) (d : Device) : Reply * Device :=
  if negb authorized then (Unauthorized, d)
  else
  let body := HostsApi.readBody HostsApi.kMaxBody arrived in
  if bool_decide (body = []) then (EmptyBody, d)
  else
    let cfg := postedDns body in
    (statusOk, applyDnsSettingsLive cfg (applyDnsRunning cfg (save (Config.CDns cfg) d))).

(** ** Time *)

Record TimeStatus := mkTimeStatus {
  timeState : bytes; synced : bool; nowUtc : bytes; nowLocal : bytes; uptimeSec : Z; counting : bool; remainingSec : Z; periodSec : Z;
}.
Definition noTimeServer : TimeStatus := mkTimeStatus (lit "unknown") false [] [] 0 false 0 0.

(** TimeDefaults.h: the settings the page owns, and their values in a new structure. *)
Definition resetTimePageToDefaults (c : Time.TimeConfig) : Time.TimeConfig :=
  Time.mk false true Config.kNtpDefaultServers (lit "Europe/Moscow") 3 86400 true 5 false
    (Time.logTerminal c) (Time.logRest c) (Time.logFile c) (Time.logFileSize c) (Time.logUrl c) (Time.logAuthEnabled c) (Time.logAuthUser c)
    (Time.logAuthPassword c).
Definition timePageIsDefault (c : Time.TimeConfig) : bool :=
  Bool.eqb (Time.enabled c) false && Bool.eqb (Time.syncEnabled c) true && bytes_eqb (Time.externalNtp c) Config.kNtpDefaultServers &&
  bytes_eqb (Time.timezone c) (lit "Europe/Moscow") && (Time.utcOffsetHours c =? 3) && (Time.syncIntervalSec c =? 86400) &&
  Bool.eqb (Time.allowOwnSubnet c) true && Bool.eqb (Time.onlyAllowedComputers c) false && (Time.rateLimitPerSec c =? 5).

Definition timePage (st : TimeStatus) (minDateTime : bytes) (cfg : Time.TimeConfig) : list (bytes * Value) :=
  [(lit "enabled", VBool (Time.enabled cfg)); (lit "sync_enabled", VBool (Time.syncEnabled cfg)); (lit "server_state", VStr (timeState st));
   (lit "synced", VBool (synced st)); (lit "now_utc", VStr (nowUtc st)); (lit "now_local", VStr (nowLocal st)); (lit "uptime_sec", VNum (uptimeSec st));
   (lit "external_ntp", VStr (Time.externalNtp cfg)); (lit "timezone", VStr (Time.timezone cfg)); (lit "utc_offset_hours", VNum (Time.utcOffsetHours cfg));
   (lit "sync_interval_sec", VNum (Time.syncIntervalSec cfg)); (lit "next_sync_counting", VBool (counting st));
   (lit "next_sync_sec", VNum (remainingSec st)); (lit "next_sync_period_sec", VNum (periodSec st)); (lit "allow_own_subnet", VBool (Time.allowOwnSubnet cfg));
   (lit "only_allowed_computers", VBool (Time.onlyAllowedComputers cfg)); (lit "rate_limit_per_sec", VNum (Time.rateLimitPerSec cfg));
   (lit "is_default", VBool (timePageIsDefault cfg)); (lit "min_datetime", VStr minDateTime); (lit "log_terminal", VBool (Time.logTerminal cfg));
   (lit "log_rest", VBool (Time.logRest cfg)); (lit "log_file", VBool (Time.logFile cfg)); (lit "log_file_size", VNum (Time.logFileSize cfg));
   (lit "log_url", VStr (Time.logUrl cfg)); (lit "log_auth", VBool (Time.logAuthEnabled cfg)); (lit "log_auth_user", VStr (Time.logAuthUser cfg));
   (lit "log_auth_password", VStr (Time.logAuthPassword cfg))].

Definition handleGetTimeSettings (authorized : bool) (st : TimeStatus) (minDateTime : bytes) (d : Device) : Reply :=
  if negb authorized then Unauthorized
  else Sent ok200 (objectJson (timePage (if wired env PTime then st else noTimeServer) minDateTime (Time.getTime (store d)))).

Definition clampTo (low high z : Z) : Z := let z := if z <? low then low else z in if high <? z then high else z.
Definition kMaxTimezoneLen : nat := 40.
Definition timezoneChar (c : Z) : bool :=
  ((65 <=? c) && (c <=? 90)) || ((97 <=? c) && (c <=? 122)) || ((48 <=? c) && (c <=? 57)) || (c =? 47) || (c =? 95) || (c =? 43) || (c =? 45) || (c =? 32).

Definition postedTime (body : bytes) : Time.TimeConfig :=
  Time.mk (jsonGetBool body (lit "enabled") false) (jsonGetBool body (lit "sync_enabled") true)
    (orElse Config.kNtpDefaultServers (NtpServers.ntpServersText (NtpServers.ntpServersSplit (jsonGetStr body (lit "external_ntp")))))
    (List.filter timezoneChar (take kMaxTimezoneLen (jsonGetStr body (lit "timezone"))))
    (clampTo kMinUtcOffsetHours kMaxUtcOffsetHours (jsonGetInt body (lit "utc_offset_hours") 3))
    (u32 (clampTo kMinSyncIntervalSec kMaxSyncIntervalSec (jsonGetInt body (lit "sync_interval_sec") 86400)))
    (jsonGetBool body (lit "allow_own_subnet") true) (u32 (clampTo 1 100 (jsonGetInt body (lit "rate_limit_per_sec") 5)))
    (jsonGetBool body (lit "only_allowed_computers") false) (jsonGetBool body (lit "log_terminal") false) (jsonGetBool body (lit "log_rest") false)
    (jsonGetBool body (lit "log_file") false) (u32 (LogFileSizes.logFileSizeOrDefault (jsonGetInt body (lit "log_file_size") 0)))
    (jsonGetStr body (lit "log_url")) (jsonGetBool body (lit "log_auth") false) (jsonGetStr body (lit "log_auth_user"))
    (jsonGetStr body (lit "log_auth_password")).

Definition applyTime (cfg : Time.TimeConfig) (d : Device) : Device := applyTimeRunning cfg (applyTimeSettingsLive cfg d).

Definition handlePostTimeSettings (authorized : bool) (arrived : bytes) (d : Device) : Reply * Device :=
  if negb authorized then (Unauthorized, d)
  else
  let body := HostsApi.readBody HostsApi.kMaxBody arrived in
  if bool_decide (body = []) then (EmptyBody, d)
  else let cfg := postedTime body in (statusOk, applyTime cfg (save (Config.CTime cfg) d)).

Definition handlePostTimeSettingsReset (authorized : bool) (d : Device) : Reply * Device :=
  if negb authorized then (Unauthorized, d)
  else let cfg := resetTimePageToDefaults (Time.getTime (store d)) in (statusOk, applyTime cfg (save (Config.CTime cfg) d)).

(** ** General *)

Definition generalPage (hostName : bytes) (localName : bool) (log : DeviceLog.DeviceLogConfig) : list (bytes * Value) :=
  [(lit "hostname", VStr hostName); (lit "default_hostname", VStr Config.kDefaultDeviceHostName); (lit "local_name", VBool localName);
   (lit "local_name_available", VBool (mdnsAvailable env)); (lit "device_log", VBool (DeviceLog.logFile log));
   (lit "device_log_size", VNum (DeviceLog.logFileSize log))].

Definition handleGetSettingsGeneral (authorized : bool) (d : Device) : Reply :=
  if negb authorized then Unauthorized
  else Sent ok200 (objectJson (generalPage (Config.getHostName (store d)) (Config.getLocalNameEnabled (store d)) (DeviceLog.getDeviceLog (store d)))).

Definition has (body key : bytes) : bool := negb (bool_decide (find_sub (quoted key) body = None)).

(** A host name is given to the interface before it is stored. *)
Definition postHostName (body : bytes) (d : Device) : (Reply + bytes) * Device :=
  if negb (has body (lit "hostname")) then (inr (Config.getHostName (store d)), d)
  else
    let hostName := Config.trimmedDeviceHostName (jsonGetStr body (lit "hostname")) in
    if negb (Config.isValidDeviceHostName hostName) then
      (inl (errorReply bad400 (lit "A host name is 1 to 63 letters, digits or hyphens, and neither starts nor ends with a hyphen")), d)
    else if negb (wired env PWifi) then (inl (errorReply error500 (lit "The network interface refused the host name")), d)
    else
      let d := ask [WifiSetHostName hostName] d in
      if negb (takesHostName env hostName) then (inl (errorReply error500 (lit "The network interface refused the host name")), d)
      else (inr hostName, save (Config.CHostName hostName) d).

(** The switch goes back to off when it cannot be honoured. *)
Definition postLocalName (body : bytes) (d : Device) : option Reply * Device :=
  if has body (lit "local_name") then
    let want := jsonGetBool body (lit "local_name") (Config.getLocalNameEnabled (store d)) in
    if want && negb (mdnsAvailable env) then (Some (errorReply error500 (lit "mDNS is not part of this build")), d)
    else
      let '(ok, d) := applyLocalNameLive (save (Config.CLocalName want) d) in
      if negb ok && want then
        (Some (errorReply error500 (lit "the local name could not be published")), (applyLocalNameLive (save (Config.CLocalName false) d)).2)
      else (None, d)
  else if has body (lit "hostname") then (None, (applyLocalNameLive d).2)
  else (None, d).

Definition postDeviceLog (body : bytes) (d : Device) : Device :=
  if has body (lit "device_log") || has body (lit "device_log_size") then
    let cfg := DeviceLog.getDeviceLog (store d) in
    let cfg := DeviceLog.mk (jsonGetBool body (lit "device_log") (DeviceLog.logFile cfg))
      (if has body (lit "device_log_size") then u32 (LogFileSizes.logFileSizeOrDefault (jsonGetInt body (lit "device_log_size") 0))
       else DeviceLog.logFileSize cfg) in
    ask [DeviceLogFile (DeviceLog.logFile cfg); DeviceLogSize (DeviceLog.logFileSize cfg)] (save (Config.CDeviceLog cfg) d)
  else d.

(** The answer to a post: a status before the members. *)
Definition okWith (ms : list (bytes * Value)) : Reply := Sent ok200 (objectJson ((lit "status", VStr (lit "ok")) :: ms)).

Definition handlePostSettingsGeneral (authorized : bool) (arrived : bytes) (d : Device) : Reply * Device :=
  if negb authorized then (Unauthorized, d)
  else
  let body := HostsApi.readBody HostsApi.kMaxBody arrived in
  if bool_decide (body = []) then (EmptyBody, d)
  else match postHostName body d with
  | (inl refusal, d) => (refusal, d)
  | (inr hostName, d) =>
      match postLocalName body d with
      | (Some refusal, d) => (refusal, d)
      | (None, d) =>
          let d := postDeviceLog body d in
          let log := DeviceLog.getDeviceLog (store d) in
          (okWith [(lit "hostname", VStr hostName); (lit "local_name", VBool (Config.getLocalNameEnabled (store d)));
                   (lit "device_log", VBool (DeviceLog.logFile log)); (lit "device_log_size", VNum (DeviceLog.logFileSize log))], d)
      end
  end.

(** ** SSH *)

Definition handleGetSshSettings (authorized : bool) (sessions : Z) (target : bytes) (d : Device) : Reply :=
  if negb authorized then Unauthorized
  else
    let cfg := Ssh.getSsh (store d) in
    let running := wired env PSsh && on d SSsh in
    Sent ok200 (objectJson [(lit "enabled", VBool (Ssh.enabled cfg)); (lit "port", VNum (Ssh.port cfg));
      (lit "allow_own_subnet", VBool (Ssh.allowOwnSubnet cfg)); (lit "state", VStr (if running then lit "running" else lit "stopped"));
      (lit "sessions", VNum (if wired env PSsh then sessions else 0)); (lit "available", VBool (sshAvailable env)); (lit "log_file", VBool (Ssh.logFile cfg));
      (lit "log_terminal", VBool (Ssh.logTerminal cfg)); (lit "log_file_size", VNum (Ssh.logFileSize cfg)); (lit "log_target", VStr target)]).

(** A size the firmware does not offer leaves the one there is. *)
Definition takeSize (text : bytes) (current : Z) : Z :=
  let size := jsonGetInt text (lit "log_file_size") 0 in
  if (0 <? size) && LogFileSizes.logFileSizeValid size then u32 size else current.

(** Fields that are not sent keep their values; the switch and the port may be refused. *)
Definition postedSsh (body : bytes) (c : Ssh.SshConfig) : Reply + Ssh.SshConfig :=
  let port := jsonGetInt body (lit "port") (Ssh.port c) in
  if has body (lit "port") && negb (Config.sshPortValid port) then inl (errorReply bad400 (lit "A port is 1 to 65535"))
  else
    let want := jsonGetBool body (lit "enabled") (Ssh.enabled c) in
    if has body (lit "enabled") && want && negb (sshAvailable env) then inl (errorReply error500 (lit "SSH is not part of this build"))
    else inr (Ssh.mk (if has body (lit "enabled") then want else Ssh.enabled c) (if has body (lit "port") then u16 port else Ssh.port c)
      (if has body (lit "allow_own_subnet") then jsonGetBool body (lit "allow_own_subnet") (Ssh.allowOwnSubnet c) else Ssh.allowOwnSubnet c)
      (if has body (lit "log_file") then jsonGetBool body (lit "log_file") (Ssh.logFile c) else Ssh.logFile c)
      (if has body (lit "log_terminal") then jsonGetBool body (lit "log_terminal") (Ssh.logTerminal c) else Ssh.logTerminal c)
      (if has body (lit "log_file_size") then takeSize body (Ssh.logFileSize c) else Ssh.logFileSize c)).

Definition sshLogCalls (c : Ssh.SshConfig) : list Call := [SshLogFile (Ssh.logFile c); SshLogTerminal (Ssh.logTerminal c); SshLogSize (Ssh.logFileSize c)].

(** The listener is restarted only when its switch or its port changed. *)
Definition handlePostSshSettings (authorized : bool) (arrived : bytes) (d : Device) : Reply * Device :=
  if negb authorized then (Unauthorized, d)
  else
  let body := HostsApi.readBody HostsApi.kMaxBody arrived in
  if bool_decide (body = []) then (EmptyBody, d)
  else
    let previous := Ssh.getSsh (store d) in
    match postedSsh body previous with
    | inl refusal => (refusal, d)
    | inr cfg =>
        let d := ask (sshLogCalls cfg) (when PSsh (ask [SshRefreshFilter]) (save (Config.CSsh cfg) d)) in
        let state := if wired env PSsh && on d SSsh then RunningState else StoppedState in
        let '(state, d) :=
          if negb (Bool.eqb (Ssh.enabled cfg) (Ssh.enabled previous)) || negb (Ssh.port cfg =? Ssh.port previous) then applySshLive d else (state, d) in
        match state with
        | ErrorState => (errorReply error500 (lit "The SSH server could not start on that port"), d)
        | _ => (okWith [(lit "enabled", VBool (Ssh.enabled cfg)); (lit "port", VNum (Ssh.port cfg)); (lit "allow_own_subnet", VBool (Ssh.allowOwnSubnet cfg));
                  (lit "log_file", VBool (Ssh.logFile cfg)); (lit "log_terminal", VBool (Ssh.logTerminal cfg)); (lit "log_file_size", VNum (Ssh.logFileSize cfg));
                  (lit "state", VStr (sshStateText state))], d)
        end
    end.

(** ** Files, and the reset *)

Definition handlePostFileSettings (authorized : bool) (arrived : bytes) (d : Device) : Reply * Device :=
  if negb authorized then (Unauthorized, d)
  else if wired env PFiles && negb (clientAllowed env) then (errorReply (lit "403 Forbidden") (lit "forbidden (client is outside the allowed subnet)"), d)
  else
  let body := HostsApi.readBody HostsApi.kMaxBody arrived in
  if bool_decide (body = []) then (EmptyBody, d)
  else
    let cfg := Files.mk (jsonGetBool body (lit "allow_own_subnet") (Files.allowOwnSubnet (Files.getFiles (store d)))) in
    (statusOk, when PFiles (ask [FilesApplyAccessFilter]) (save (Config.CFiles cfg) d)).

Definition handlePostSettingsReset (authorized : bool) (d : Device) : Reply * Device :=
  if negb authorized then (Unauthorized, d)
  else
    let '(erased, s) := Config.resetAll (store d) in
    if negb erased then (errorReply error500 (lit "NVS erase failed"), with_store s d)
    else
      let d := ask [NoteFactoryReset] (when PDns (ask [DnsDeleteStatsFile]) (with_store s d)) in
      (Sent ok200 (lit "{" ++ quoted (lit "status") ++ [58] ++ quoted (lit "ok") ++ lit "," ++ quoted (lit "message") ++ [58] ++
        quoted (lit "Settings reset to factory defaults. Rebooting...") ++ lit "," ++ quoted (lit "reboot") ++ lit ":true}"), ask [Restart] d).

End Handlers.

(** ** What a page shows, sent back *)

Ltac written := repeat first [left; reflexivity | right].

(** The reads of a document replaced by the members they find. *)
Ltac read_members RS RB RN :=
  repeat match goal with
  | |- context [jsonGetStr ?b ?k] => erewrite (RS k) by written
  | |- context [jsonGetBool ?b ?k ?d] => erewrite (RB k _ d) by written
  | |- context [jsonGetInt ?b ?k ?d] => erewrite (RN k _ d) by written
  end.

Definition tameValues (ms : list (bytes * Value)) : Prop := Forall (λ m, tameValue ms.*1 m.2) ms.

Lemma tame_all ms : NoDup ms.*1 → tameValues ms → tameMembers ms.*1 ms.
Proof.
  intros Hd H. split; [done|]. unfold tameValues in H. rewrite Forall_forall in *. intros m Hm. split; [|by apply H].
  apply list_elem_of_fmap. by exists m.
Qed.

(** A document of the writer gives back its members. *)
Lemma object_reads ms : NoDup ms.*1 → Forall (λ k, plainKey k ∧ printable k) ms.*1 → tameValues ms →
  (∀ key u, (key, VStr u) ∈ ms → jsonGetStr (objectJson ms) key = u) ∧
  (∀ key b d, (key, VBool b) ∈ ms → jsonGetBool (objectJson ms) key d = b) ∧
  (∀ key z d, (key, VNum z) ∈ ms → jsonGetInt (objectJson ms) key d = z) ∧
  (∀ key v, (key, v) ∈ ms → has (objectJson ms) key = true).
Proof.
  intros Hd Hk Hv. pose proof (tame_all ms Hd Hv) as Ht.
  assert (He : Forall (λ m, JsonWriter.escape m.1 = m.1) ms).
  { apply List.Forall_map in Hk. eapply Forall_impl; [exact Hk|]. intros m [Hp _]. by apply Hp. }
  rewrite objectJson_document, <- flat_object by done.
  assert (Hp : Forall fine [Txt [123]]) by (constructor; [|constructor]; cbn; by rewrite list_elem_of_singleton).
  assert (Hq : Forall (λ a, match a with Txt _ => True | Tok _ _ => False end) [Txt [123]]) by (constructor; [done|constructor]).
  assert (E : flat (objAtoms ms) = flat ([Txt [123]] ++ membersAtoms ms ++ []) ++ []) by (rewrite !app_nil_r; reflexivity).
  rewrite E. split_and!; intros key v.
  - by apply (read_str ms.*1 Hk).
  - intros d. by apply (read_bool ms.*1 Hk).
  - intros d. by apply (read_num ms.*1 Hk).
  - intros Hin. unfold has. destruct (member_found ms.*1 Hk [Txt [123]] ms [] [] Hp Hq Ht (List.Forall_nil _) key v Hin) as [n Hn].
    by rewrite Hn.
Qed.

(** *** What was read from the store is as [Settings] writes it *)

Section Normal.
Context {N : Type} `{Nvs N}.

Lemma read_text key def (s : N) : FreeRtosErrorQueue.cText def = def → FreeRtosErrorQueue.cText (Config.readStr key def s) = Config.readStr key def s.
Proof.
  intros Hd. unfold Config.readStr. destruct (negb (nvs_open s)); [done|]. destruct (nvs_get_str key s); [|done]. apply Config.cText_twice.
Qed.

Lemma size_cases z : LogFileSizes.logFileSizeOrDefault z ∈ LogFileSizes.kLogFileSizes.
Proof.
  unfold LogFileSizes.logFileSizeOrDefault, LogFileSizes.kLogFileSizes. cbn [List.find].
  repeat case_match; cbn [default from_option id]; written.
Qed.

Lemma size_normal key (s : N) : u32 (LogFileSizes.logFileSizeOrDefault (Config.i32 (Config.readSize key s))) = Config.readSize key s.
Proof.
  unfold Config.readSize. pose proof (size_cases (Config.readI32 key 0 s)) as H0. revert H0. generalize (LogFileSizes.logFileSizeOrDefault (Config.readI32 key 0 s)).
  intros z Hz. unfold LogFileSizes.kLogFileSizes in Hz. repeat (apply elem_of_cons in Hz as [-> | Hz]; [reflexivity|]). by apply elem_of_nil in Hz.
Qed.

Lemma size_taken z : u32 (LogFileSizes.logFileSizeOrDefault (Config.i32 z)) = z → u32 (LogFileSizes.logFileSizeOrDefault z) = z ∧ LogFileSizes.logFileSizeValid z = true.
Proof.
  pose proof (size_cases (Config.i32 z)) as Hz. unfold LogFileSizes.kLogFileSizes in Hz. intros <-. revert Hz. generalize (LogFileSizes.logFileSizeOrDefault (Config.i32 z)).
  intros x Hx. repeat (apply elem_of_cons in Hx as [-> | Hx]; [split; reflexivity|]). by apply elem_of_nil in Hx.
Qed.

Lemma entries_cases z : Config.clampEntries z = 0 ∨ 8 <= Config.clampEntries z <= 512.
Proof.
  unfold Config.clampEntries, Config.kMinLeaseEntries, Config.kMaxLeaseEntries. destruct (z =? 0); [by left|right].
  repeat case_match; rewrite ?Z.ltb_lt, ?Z.ltb_ge in *; word_lia.
Qed.

Lemma entries_normal z : Config.clampEntries (Config.i32 (Config.clampEntries z)) = Config.clampEntries z ∧
  postedMaxEntries (Config.clampEntries z) = Config.clampEntries z.
Proof.
  pose proof (entries_cases z) as Hz. revert Hz. generalize (Config.clampEntries z). intros n [-> | Hn]; [by split|].
  assert (En : Config.i32 n = n) by (unfold Config.i32; word_lia). rewrite En.
  unfold postedMaxEntries, Config.clampEntries, Config.kMinLeaseEntries, Config.kMaxLeaseEntries.
  rewrite (u32_small n) by word_lia. rewrite (proj2 (Z.eqb_neq n 0)), (proj2 (Z.ltb_ge n 8)) by lia. cbv zeta.
  rewrite (proj2 (Z.ltb_ge 512 n)), ?(u32_small n) by word_lia. rewrite ?(proj2 (Z.ltb_ge 512 n)) by lia. rewrite ?(u32_small n) by word_lia. done.
Qed.

Lemma dhcp_normal (s : N) : Dhcp.dnsMode (Dhcp.getDhcp s) ≠ [] → Dhcp.norm (Dhcp.getDhcp s) = Dhcp.getDhcp s.
Proof.
  intros Hm. unfold Dhcp.norm. rewrite (bool_decide_false _ Hm). unfold Dhcp.getDhcp. cbv zeta.
  cbn [Dhcp.enabled Dhcp.serverIp Dhcp.startIp Dhcp.endIp Dhcp.subnet Dhcp.gateway Dhcp.leaseTimeSec Dhcp.maxLeaseEntries Dhcp.allowOnly
    Dhcp.logTerminal Dhcp.logFile Dhcp.logFileSize Dhcp.dnsMode Dhcp.dnsAddress Dhcp.logRest Dhcp.logUrl Dhcp.logAuthEnabled Dhcp.logAuthUser Dhcp.logAuthPassword].
  rewrite size_normal, (proj1 (entries_normal _)), !read_text by done. f_equal. word_lia.
Qed.

Lemma interval_normal p z : autosaveClampInterval p (u16 (autosaveClampInterval p z 0)) 0 = autosaveClampInterval p z 0.
Proof.
  pose proof (clamp_range p z 0) as Hz. revert Hz. generalize (autosaveClampInterval p z 0). intros n Hn.
  assert (Hm : autosaveIntervalMax p 0 <= 60) by (destruct p; vm_compute; discriminate).
  rewrite u16_small by word_lia. unfold autosaveClampInterval, kAutosaveIntervalMin.
  by rewrite (proj2 (Z.ltb_ge n 1)), (proj2 (Z.ltb_ge _ n)) by lia.
Qed.

Lemma update_cases p z : 1 <= autoUpdateClampInterval p z <= autoUpdateIntervalMax p.
Proof.
  unfold autoUpdateClampInterval, kAutosaveIntervalMin. assert (Hm : 1 <= autoUpdateIntervalMax p) by (destruct p; vm_compute; discriminate).
  repeat case_match; rewrite ?Z.ltb_lt, ?Z.ltb_ge in *; lia.
Qed.

Lemma update_normal p z : autoUpdateClampInterval p (u16 (autoUpdateClampInterval p z)) = autoUpdateClampInterval p z.
Proof.
  pose proof (update_cases p z) as Hz. revert Hz. generalize (autoUpdateClampInterval p z). intros n Hn.
  assert (Hm : autoUpdateIntervalMax p <= 30) by (destruct p; vm_compute; discriminate).
  rewrite u16_small by word_lia. unfold autoUpdateClampInterval, kAutosaveIntervalMin.
  by rewrite (proj2 (Z.ltb_ge n 1)), (proj2 (Z.ltb_ge _ n)) by lia.
Qed.

Lemma batch_cases z : 1 <= autoUpdateClampBatch z <= 1000.
Proof.
  unfold autoUpdateClampBatch, kAutoUpdateBatchMin, kAutoUpdateBatchMax. repeat case_match; rewrite ?Z.ltb_lt, ?Z.ltb_ge in *; try lia. rewrite u16_small by word_lia. lia.
Qed.
Lemma pause_cases z : 1 <= autoUpdateClampPause z <= 3600.
Proof.
  unfold autoUpdateClampPause, kAutoUpdatePauseMinSec, kAutoUpdatePauseMaxSec. repeat case_match; rewrite ?Z.ltb_lt, ?Z.ltb_ge in *; try lia. rewrite u16_small by word_lia. lia.
Qed.
Lemma batch_fixed n : 1 <= n <= 1000 → autoUpdateClampBatch n = n.
Proof.
  intros Hn. unfold autoUpdateClampBatch, kAutoUpdateBatchMin, kAutoUpdateBatchMax.
  rewrite (proj2 (Z.ltb_ge n 1)), (proj2 (Z.ltb_ge _ n)) by lia. apply u16_small. word_lia.
Qed.
Lemma pause_fixed n : 1 <= n <= 3600 → autoUpdateClampPause n = n.
Proof.
  intros Hn. unfold autoUpdateClampPause, kAutoUpdatePauseMinSec, kAutoUpdatePauseMaxSec.
  rewrite (proj2 (Z.ltb_ge n 1)), (proj2 (Z.ltb_ge _ n)) by lia. apply u16_small. word_lia.
Qed.
Lemma i32_fixed n : - 2 ^ 31 <= n < 2 ^ 31 → Config.i32 n = n.
Proof. intros Hn. unfold Config.i32. word_lia. Qed.
Lemma mb_cases z : 1 <= Config.clampSizeMb z <= 20.
Proof. unfold Config.clampSizeMb. repeat case_match; rewrite ?Z.ltb_lt, ?Z.ltb_ge in *; lia. Qed.
Lemma mb_fixed n : 1 <= n <= 20 → Config.clampSizeMb n = n.
Proof. intros Hn. unfold Config.clampSizeMb. by rewrite (proj2 (Z.ltb_ge n 1)), (proj2 (Z.ltb_ge _ n)) by lia. Qed.
Lemma rate_cases z : 1 <= Config.clampRate z <= 100.
Proof. unfold Config.clampRate. repeat case_match; rewrite ?Z.ltb_lt, ?Z.ltb_ge in *; word_lia. Qed.
Lemma rate_fixed n : 1 <= n <= 100 → Config.clampRate n = n.
Proof. intros Hn. unfold Config.clampRate. rewrite (proj2 (Z.ltb_ge n 1)), (proj2 (Z.ltb_ge _ n)) by lia. apply u32_small. word_lia. Qed.
Lemma clampTo_fixed low high n : low <= n <= high → clampTo low high n = n.
Proof. intros Hn. unfold clampTo. by rewrite (proj2 (Z.ltb_ge n low)), (proj2 (Z.ltb_ge high n)) by lia. Qed.

Lemma dns_normal (s : N) : Dns.norm (Dns.getDns s) = Dns.getDns s.
Proof.
  unfold Dns.norm, Dns.getDns. cbv zeta.
  cbn [Dns.enabled Dns.externalDns Dns.logTerminal Dns.logForwarded Dns.logLocal Dns.logCache Dns.logRestSent Dns.logRest Dns.logUrl Dns.logFile
    Dns.logFileForwarded Dns.logFileSize Dns.logAuthEnabled Dns.logAuthUser Dns.logAuthPassword Dns.cacheRest Dns.cacheRestRead Dns.cacheRestWrite
    Dns.cacheUrl Dns.cacheAuthEnabled Dns.cacheAuthUser Dns.cacheAuthPassword Dns.cacheInternal Dns.cacheInternalSizeMb Dns.cacheInternalIgnoreTtl
    Dns.cacheInternalSaveStats Dns.cacheInternalSaveCache Dns.cacheInternalAutosave Dns.cacheInternalAutosavePeriod Dns.cacheInternalAutosaveInterval
    Dns.statsAutosave Dns.statsAutosavePeriod Dns.statsAutosaveInterval Dns.cacheInternalAutoUpdate Dns.cacheInternalAutoUpdatePeriod
    Dns.cacheInternalAutoUpdateInterval Dns.cacheInternalAutoUpdateBatch Dns.cacheInternalAutoUpdatePause Dns.cacheInternalFileMd5
    Dns.blockForwardNonAA Dns.allowOwnSubnet].
  pose proof (batch_cases (Config.readI32 KEY_DNS_IC_AUTOUPDATE_BATCH 50 s)) as Hb. pose proof (pause_cases (Config.readI32 KEY_DNS_IC_AUTOUPDATE_PAUSE 60 s)) as Hp.
  pose proof (mb_cases (u32 (Config.readI32 KEY_DNS_IC_SIZE_MB 20 s))) as Hs.
  rewrite size_normal, !interval_normal, update_normal, !read_text by done.
  by rewrite !i32_fixed, batch_fixed, pause_fixed, u32_small, (mb_fixed (Config.clampSizeMb _)) by (lia || word_lia).
Qed.

Lemma time_normal (s : N) : Time.norm (Time.getTime s) = Time.getTime s.
Proof.
  unfold Time.norm, Time.getTime. cbv zeta.
  cbn [Time.enabled Time.syncEnabled Time.externalNtp Time.timezone Time.utcOffsetHours Time.syncIntervalSec Time.allowOwnSubnet Time.rateLimitPerSec
    Time.onlyAllowedComputers Time.logTerminal Time.logRest Time.logFile Time.logFileSize Time.logUrl Time.logAuthEnabled Time.logAuthUser Time.logAuthPassword].
  pose proof (rate_cases (Config.readI32 KEY_TIME_RATE 5 s)) as Hr.
  rewrite size_normal, !read_text by done. rewrite i32_fixed, rate_fixed by lia. f_equal. word_lia.
Qed.

End Normal.

Ltac page_reads page :=
  let RS := fresh "RS" in let RB := fresh "RB" in let RN := fresh "RN" in let RH := fresh "RH" in
  destruct (object_reads page) as (RS & RB & RN & RH);
    [apply (bool_decide_unpack _); vm_compute; exact I
    |repeat (apply List.Forall_cons; [split; [split_and!; try discriminate; try reflexivity; apply (bool_decide_unpack _); vm_compute; exact I|apply (bool_decide_unpack _); vm_compute; exact I]|]); apply List.Forall_nil
    |assumption
    |read_members RS RB RN].

Lemma orElse_given def t : t ≠ [] → orElse def t = t.
Proof. intros Ht. unfold orElse. by rewrite bool_decide_false. Qed.

(** A section that is complete: what the page would fill in is there. *)
Definition dhcpComplete (c : Dhcp.DhcpConfig) : Prop :=
  Dhcp.serverIp c ≠ [] ∧ Dhcp.startIp c ≠ [] ∧ Dhcp.endIp c ≠ [] ∧ Dhcp.subnet c ≠ [] ∧ Dhcp.gateway c ≠ [] ∧
  (Dhcp.dnsMode c = lit "auto" ∨ Dhcp.dnsMode c = lit "manual").
Definition timeComplete (c : Time.TimeConfig) : Prop :=
  Time.externalNtp c ≠ [] ∧ NtpServers.ntpServersText (NtpServers.ntpServersSplit (Time.externalNtp c)) = Time.externalNtp c ∧
  (length (Time.timezone c) <= kMaxTimezoneLen)%nat ∧ Forall (λ ch, timezoneChar ch = true) (Time.timezone c) ∧
  kMinUtcOffsetHours <= Time.utcOffsetHours c <= kMaxUtcOffsetHours ∧ kMinSyncIntervalSec <= Time.syncIntervalSec c <= kMaxSyncIntervalSec.

Lemma dhcp_posted st r cfg : Dhcp.norm cfg = cfg → tameValues (dhcpPage st r cfg) → dhcpComplete cfg → postedDhcp (objectJson (dhcpPage st r cfg)) = cfg.
Proof.
  intros Hn Ht (H1 & H2 & H3 & H4 & H5 & Hm). unfold postedDhcp. cbv zeta. page_reads (dhcpPage st r cfg). rewrite !orElse_given by done.
  pose proof (f_equal Dhcp.leaseTimeSec Hn) as El. pose proof (f_equal Dhcp.maxLeaseEntries Hn) as Ee. pose proof (f_equal Dhcp.logFileSize Hn) as Es.
  cbn [Dhcp.norm Dhcp.leaseTimeSec Dhcp.maxLeaseEntries Dhcp.logFileSize] in El, Ee, Es.
  assert (Ep : postedMaxEntries (Dhcp.maxLeaseEntries cfg) = Dhcp.maxLeaseEntries cfg) by (rewrite <- Ee; apply entries_normal).
  rewrite El, Ep, (proj1 (size_taken _ Es)).
  assert (Eb : (if bytes_eqb (Dhcp.dnsMode cfg) (lit "manual") then Dhcp.dnsMode cfg else lit "auto") = Dhcp.dnsMode cfg) by by destruct Hm as [-> | ->].
  rewrite Eb. by destruct cfg.
Qed.

Lemma dns_posted st r cfg : Dns.norm cfg = cfg → tameValues (dnsPage st r cfg) → Dns.externalDns cfg ≠ [] →
  postedDns (objectJson (dnsPage st r cfg)) = with_fileMd5 [] cfg.
Proof.
  intros Hn Ht H1. unfold postedDns, postedPeriod, postedInterval. cbv zeta. page_reads (dnsPage st r cfg). rewrite !orElse_given by done.
  pose proof (f_equal Dns.logFileSize Hn) as Es. pose proof (f_equal Dns.cacheInternalSizeMb Hn) as Em.
  pose proof (f_equal Dns.cacheInternalAutosaveInterval Hn) as Ea. pose proof (f_equal Dns.statsAutosaveInterval Hn) as Et.
  pose proof (f_equal Dns.cacheInternalAutoUpdateInterval Hn) as Eu. pose proof (f_equal Dns.cacheInternalAutoUpdateBatch Hn) as Eb.
  pose proof (f_equal Dns.cacheInternalAutoUpdatePause Hn) as Ep.
  cbn [Dns.norm Dns.logFileSize Dns.cacheInternalSizeMb Dns.cacheInternalAutosaveInterval Dns.statsAutosaveInterval Dns.cacheInternalAutoUpdateInterval
    Dns.cacheInternalAutoUpdateBatch Dns.cacheInternalAutoUpdatePause] in Es, Em, Ea, Et, Eu, Eb, Ep.
  assert (Eb' : autoUpdateClampBatch (Dns.cacheInternalAutoUpdateBatch cfg) = Dns.cacheInternalAutoUpdateBatch cfg).
  { apply batch_fixed. rewrite <- Eb. apply batch_cases. }
  assert (Ep' : autoUpdateClampPause (Dns.cacheInternalAutoUpdatePause cfg) = Dns.cacheInternalAutoUpdatePause cfg).
  { apply pause_fixed. rewrite <- Ep. apply pause_cases. }
  by rewrite !Config.period_back, Ea, Et, Eu, Eb', Ep', Em, (proj1 (size_taken _ Es)).
Qed.

Lemma filter_all (p : Z → bool) l : Forall (λ c, p c = true) l → List.filter p l = l.
Proof. induction 1 as [|c l Hc _ IH]; [done|]. cbn [List.filter]. by rewrite Hc, IH. Qed.

Lemma time_posted st m cfg : Time.norm cfg = cfg → tameValues (timePage st m cfg) → timeComplete cfg → postedTime (objectJson (timePage st m cfg)) = cfg.
Proof.
  intros Hn Ht (H1 & H2 & H3 & H4 & H5 & H6). unfold postedTime. page_reads (timePage st m cfg).
  pose proof (f_equal Time.logFileSize Hn) as Es. pose proof (f_equal Time.syncIntervalSec Hn) as Ei. pose proof (f_equal Time.rateLimitPerSec Hn) as Er.
  cbn [Time.norm Time.logFileSize Time.syncIntervalSec Time.rateLimitPerSec] in Es, Ei, Er.
  assert (Hr : 1 <= Time.rateLimitPerSec cfg <= 100) by (rewrite <- Er; apply rate_cases).
  rewrite H2, orElse_given, take_ge, filter_all, !clampTo_fixed, Ei, (u32_small (Time.rateLimitPerSec cfg)), (proj1 (size_taken _ Es)) by (done || word_lia).
  by destruct cfg.
Qed.

(** *** The store after the services were asked *)

Section Pages.
Context {S N : Type} `{Config.NvsLaws N} (env : Env).
Abbreviation Device := (Device S N).

Lemma store_when p f (d : Device) : store (f d) = store d → store (when env p f d) = store d.
Proof. unfold when. by destruct (wired env p). Qed.
Lemma store_ask cs (d : Device) : store (ask cs d) = store d.
Proof. done. Qed.

Lemma dhcp_live_store c (d : Device) : store (applyDhcpSettingsLive env c d) = store d.
Proof. by apply store_when. Qed.
Lemma dhcp_running_store c ready reload (d : Device) : store (applyDhcpRunning env c ready reload d).2 = store d.
Proof. unfold applyDhcpRunning, startService. by destruct (wired env PDhcp), (Dhcp.enabled c), (on d SDhcp), ready, reload. Qed.
Lemma dns_live_store c (d : Device) : store (applyDnsSettingsLive env c d) = store d.
Proof. apply store_when. by rewrite store_when. Qed.
Lemma dns_running_store c (d : Device) : store (applyDnsRunning env c d) = store d.
Proof. apply store_when. repeat case_match; done. Qed.
Lemma time_store c (d : Device) : store (applyTime env c d) = store d.
Proof.
  unfold applyTime, applyTimeRunning, applyTimeSettingsLive. rewrite store_when; [by apply store_when|]. repeat case_match; done.
Qed.
Lemma filters_store (d : Device) : store (refreshFilters env d) = store d.
Proof. unfold refreshFilters. by rewrite !store_when. Qed.

Lemma object_nonempty ms : objectJson ms ≠ [].
Proof. unfold objectJson. intros E. by apply app_eq_nil in E as [_ ?]. Qed.

Lemma body_whole max body : (length body <= max)%nat → HostsApi.readBody max body = body.
Proof. intros Hl. unfold HostsApi.readBody. by apply take_ge. Qed.

Lemma dhcp_post_store body (d : Device) : body ≠ [] → (length body <= HostsApi.kMaxBody)%nat →
  store (handlePostDhcpSettings env true body d).2 = (Config.set (Config.CDhcp (postedDhcp body)) (store d)).2.
Proof.
  intros Hb Hl. unfold handlePostDhcpSettings. cbn [negb]. rewrite body_whole, bool_decide_false by done. cbv zeta.
  pose proof (dhcp_running_store (postedDhcp body) (wired env PWifi && isConnected env) false
    (applyDhcpSettingsLive env (postedDhcp body) (save (Config.CDhcp (postedDhcp body)) d))) as E. rewrite dhcp_live_store in E.
  destruct (applyDhcpRunning _ _ _ _ _) as [[] d']; cbn [snd] in *; rewrite ?filters_store; exact E.
Qed.

(** A section that the store took, read. *)
Lemma dhcp_set c (s : N) : (Config.set (Config.CDhcp c) s).1 = true → Dhcp.getDhcp (Config.set (Config.CDhcp c) s).2 = Dhcp.norm c.
Proof. intros Hs. pose proof (Config.set_back _ s Hs) as E. cbn [Config.get Config.norm] in E. congruence. Qed.
Lemma dns_set c (s : N) : (Config.set (Config.CDns c) s).1 = true → Dns.getDns (Config.set (Config.CDns c) s).2 = Dns.norm c.
Proof. intros Hs. pose proof (Config.set_back _ s Hs) as E. cbn [Config.get Config.norm] in E. congruence. Qed.
Lemma time_set c (s : N) : (Config.set (Config.CTime c) s).1 = true → Time.getTime (Config.set (Config.CTime c) s).2 = Time.norm c.
Proof. intros Hs. pose proof (Config.set_back _ s Hs) as E. cbn [Config.get Config.norm] in E. congruence. Qed.

(** C34: sending back what the page of a section showed leaves the section as it is - but for
    the checksum of the cache file, which is no part of the page of the DNS server - as
    long as the section is complete, no text of it is one of the names on the page or holds
    a quote or a control character, the numbers are ints, the page fits a body of 4096
    bytes, and the store takes what is written. *)
Theorem page_saved_back (d : Device) dhcpSt dnsSt timeSt psram minDateTime :
  (let cfg := Dhcp.getDhcp (store d) in
   let ms := dhcpPage (if wired env PDhcp then dhcpSt else noDhcpServer) (wired env PDns && on d SDns) cfg in
   dhcpComplete cfg → tameValues ms → (length (objectJson ms) <= HostsApi.kMaxBody)%nat → (Config.set (Config.CDhcp cfg) (store d)).1 = true →
   ∃ page, handleGetDhcpSettings env true dhcpSt d = Sent ok200 page ∧ Dhcp.getDhcp (store (handlePostDhcpSettings env true page d).2) = cfg) ∧
  (let cfg := Dns.getDns (store d) in
   let ms := dnsPage (if wired env PDns then dnsSt else noDnsServer) psram cfg in
   Dns.externalDns cfg ≠ [] → tameValues ms → (length (objectJson ms) <= HostsApi.kMaxBody)%nat →
   (Config.set (Config.CDns (with_fileMd5 [] cfg)) (store d)).1 = true →
   ∃ page, handleGetDnsSettings env true dnsSt psram d = Sent ok200 page ∧
     Dns.getDns (store (handlePostDnsSettings env true page d).2) = with_fileMd5 [] cfg) ∧
  (let cfg := Time.getTime (store d) in
   let ms := timePage (if wired env PTime then timeSt else noTimeServer) minDateTime cfg in
   timeComplete cfg → tameValues ms → (length (objectJson ms) <= HostsApi.kMaxBody)%nat → (Config.set (Config.CTime cfg) (store d)).1 = true →
   ∃ page, handleGetTimeSettings env true timeSt minDateTime d = Sent ok200 page ∧ Time.getTime (store (handlePostTimeSettings env true page d).2) = cfg).
Proof.
  split_and!; cbv zeta.
  - intros Hc Ht Hl Hs. eexists. split; [reflexivity|]. pose proof Hc as (_ & _ & _ & _ & _ & Hm).
    assert (Hn : Dhcp.norm (Dhcp.getDhcp (store d)) = Dhcp.getDhcp (store d)) by (apply dhcp_normal; by destruct Hm as [-> | ->]).
    rewrite dhcp_post_store, dhcp_posted by (done || apply object_nonempty).
    by rewrite dhcp_set.
  - intros Hc Ht Hl Hs. eexists. split; [reflexivity|]. pose proof (dns_normal (store d)) as Hn.
    unfold handlePostDnsSettings. cbn [negb]. rewrite body_whole, bool_decide_false by (done || apply object_nonempty). cbn [snd].
    rewrite dns_live_store, dns_running_store, dns_posted by done.
    change (store (save ?c d)) with (Config.set c (store d)).2. rewrite dns_set by done.
    transitivity (with_fileMd5 [] (Dns.norm (Dns.getDns (store d)))); [reflexivity|by rewrite Hn].
  - intros Hc Ht Hl Hs. eexists. split; [reflexivity|]. pose proof (time_normal (store d)) as Hn.
    unfold handlePostTimeSettings. cbn [negb]. rewrite body_whole, bool_decide_false by (done || apply object_nonempty). cbn [snd].
    rewrite time_store, time_posted by done.
    change (store (save ?c d)) with (Config.set c (store d)).2. by rewrite time_set.
Qed.

(** Without a checksum no file is the right one. *)
Lemma no_checksum_no_match {readError dev m} : CacheJob.storedMd5 dev = [] → CacheJob.checkCacheFileMd5 readError dev = Done m → CacheJob.match_ m = false.
Proof.
  intros Hs. unfold CacheJob.checkCacheFileMd5. rewrite Hs. destruct (negb _); [by intros [= <-]|].
  destruct (Md5.file _ _ _) as [h| |]; rewrite ?run_bind_done; [|done..]. by destruct (bool_decide _); intros [= <-].
Qed.

(** Saving the page of the DNS server, whatever it says, forgets the checksum of the cache
    file: no cache file there is, the one just saved included, is loaded by the next start. *)
Theorem dns_page_forgets_checksum body (d : Device) : let cfg := postedDns (HostsApi.readBody HostsApi.kMaxBody body) in
  HostsApi.readBody HostsApi.kMaxBody body ≠ [] → (Config.set (Config.CDns cfg) (store d)).1 = true →
  let stored := Dns.cacheInternalFileMd5 (Dns.getDns (store (handlePostDnsSettings env true body d).2)) in
  stored = [] ∧ ∀ readError dev m, CacheJob.storedMd5 dev = stored → CacheJob.checkCacheFileMd5 readError dev = Done m → CacheJob.match_ m = false.
Proof.
  intros cfg Hb Hs stored. assert (E : stored = []).
  { unfold stored, handlePostDnsSettings. cbn [negb]. cbv zeta. rewrite bool_decide_false by done. cbn [snd].
    rewrite dns_live_store, dns_running_store. change (store (save ?c d)) with (Config.set c (store d)).2. by rewrite dns_set. }
  split; [exact E|]. intros re dev m Hd. rewrite E in Hd. by apply no_checksum_no_match.
Qed.

Lemma filters_on (d : Device) s : on (refreshFilters env d) s = on d s.
Proof. unfold refreshFilters, when. by destruct (wired env PSsh), (wired env PFiles), (wired env PTime), (wired env PDns). Qed.
Lemma dhcp_live_on c (d : Device) s : on (applyDhcpSettingsLive env c d) s = on d s.
Proof. unfold applyDhcpSettingsLive, when. by destruct (wired env PDhcp). Qed.

Lemma ssh_set c (s : N) : (Config.set (Config.CSsh c) s).1 = true → Ssh.getSsh (Config.set (Config.CSsh c) s).2 = Ssh.norm c.
Proof. intros Hs. pose proof (Config.set_back _ s Hs) as E. cbn [Config.get Config.norm] in E. congruence. Qed.

(** When the DHCP page answers ok the server runs exactly if its switch is on; when the
    SSH page answers 200 after its switch or its port changed, the listener does. *)
Theorem ok_means_running body (d : Device) :
  (wired env PDhcp = true → (handlePostDhcpSettings env true body d).1 = statusOk →
   on (handlePostDhcpSettings env true body d).2 SDhcp = Dhcp.enabled (postedDhcp (HostsApi.readBody HostsApi.kMaxBody body))) ∧
  (∀ cfg json, wired env PSsh = true → postedSsh env (HostsApi.readBody HostsApi.kMaxBody body) (Ssh.getSsh (store d)) = inr cfg →
   (Config.set (Config.CSsh cfg) (store d)).1 = true →
   Ssh.enabled cfg ≠ Ssh.enabled (Ssh.getSsh (store d)) ∨ Ssh.port cfg ≠ Ssh.port (Ssh.getSsh (store d)) →
   (handlePostSshSettings env true body d).1 = Sent ok200 json → on (handlePostSshSettings env true body d).2 SSsh = Ssh.enabled cfg).
Proof.
  split.
  - intros Hw. unfold handlePostDhcpSettings. cbn [negb]. cbv zeta. set (b := HostsApi.readBody HostsApi.kMaxBody body).
    case_bool_decide; [done|]. unfold applyDhcpRunning, startService. rewrite Hw, dhcp_live_on. change (on (save ?c d) SDhcp) with (on d SDhcp). cbn [negb].
    destruct (Dhcp.enabled (postedDhcp b)) eqn:Ee, (on d SDhcp) eqn:Eo; cbn [andb negb].
    + intros _; cbn [snd]; by rewrite filters_on, dhcp_live_on.
    + destruct (negb (wired env PWifi && isConnected env)); [done|]. destruct (starts env SDhcp) eqn:Es; [|done]. intros _; cbn [snd]; rewrite filters_on. cbn. by rewrite decide_True.
    + intros _; cbn [snd]; rewrite filters_on. cbn. by rewrite decide_True.
    + intros _; cbn [snd]; by rewrite filters_on, dhcp_live_on.
  - intros cfg json Hw Hp Hs Hc. unfold handlePostSshSettings. cbn [negb]. cbv zeta. case_bool_decide; [done|]. rewrite Hp.
    assert (Hch : negb (Bool.eqb (Ssh.enabled cfg) (Ssh.enabled (Ssh.getSsh (store d)))) || negb (Ssh.port cfg =? Ssh.port (Ssh.getSsh (store d))) = true).
    { destruct Hc as [Hc|Hc]; [|rewrite (proj2 (Z.eqb_neq _ _) Hc); by destruct (negb _)].
      destruct (Ssh.enabled cfg), (Ssh.enabled (Ssh.getSsh (store d))); done. }
    rewrite Hch. unfold applySshLive, startService. cbv zeta.
    assert (Es : store (ask (sshLogCalls cfg) (when env PSsh (ask [SshRefreshFilter]) (save (Config.CSsh cfg) d))) = (Config.set (Config.CSsh cfg) (store d)).2)
      by (rewrite store_ask, store_when; done).
    rewrite Es, ssh_set, Hw by done. cbn [negb Ssh.norm Ssh.enabled].
    destruct (Ssh.enabled cfg); cbn [negb]; [|intros _; cbn; by rewrite decide_True].
    destruct (starts env SSsh); [intros _; cbn; by rewrite decide_True|done].
Qed.

End Pages.

(** ** A device in memory *)

#[export] Instance tameValue_dec keys v : Decision (tameValue keys v).
Proof. destruct v; unfold tameValue, tame; apply _. Defined.
#[export] Instance tameValues_dec ms : Decision (tameValues ms).
Proof. unfold tameValues. apply _. Defined.

#[local] Existing Instances Config.flash Config.flash_laws.

Definition allThere : Env := mkEnv (λ _, true) (λ _, true) (λ _, true) (λ _, true) true true true true.
Definition deviceOf (s : Config.Flash) : Device unit Config.Flash :=
  mkDevice (WebServer.mkWorld false false None 0 false [] [] None tt s 0 0 0) (λ _, false) [].
Definition someDhcp : DhcpStatus := mkDhcpStatus (lit "running") 3 202 0 true 0.
Definition someDns : DnsStatus := mkDnsStatus (lit "running") 1000.
Definition someTime : TimeStatus := mkTimeStatus (lit "stopped") true (lit "2026-10-20 12:00:00") (lit "2026-10-20 15:00:00") 5000 true 100 86400.
Definition settings : Config.Flash :=
  (Config.set (Config.CDns (with_fileMd5 (lit "0123456789abcdef0123456789abcdef") (Dns.getDns Config.erased))) Config.erased).2.

Lemma page_saved_back_witness :
  let d := deviceOf settings in
  (∃ page, handleGetDhcpSettings allThere true someDhcp d = Sent ok200 page ∧
     Dhcp.getDhcp (store (handlePostDhcpSettings allThere true page d).2) = Dhcp.getDhcp settings) ∧
  (∃ page, handleGetDnsSettings allThere true someDns true d = Sent ok200 page ∧
     Dns.getDns (store (handlePostDnsSettings allThere true page d).2) = with_fileMd5 [] (Dns.getDns settings)) ∧
  (∃ page, handleGetTimeSettings allThere true someTime (lit "2026-10-01 00:00:00") d = Sent ok200 page ∧
     Time.getTime (store (handlePostTimeSettings allThere true page d).2) = Time.getTime settings).
Proof.
  intros d. destruct (page_saved_back allThere d someDhcp someDns someTime true (lit "2026-10-01 00:00:00")) as (H1 & H2 & H3).
  split_and!.
  - apply H1; [|apply (bool_decide_unpack _); vm_compute; exact I|vm_compute; lia|vm_compute; reflexivity].
    split_and!; try (vm_compute; discriminate). by left.
  - apply H2; [vm_compute; discriminate|apply (bool_decide_unpack _); vm_compute; exact I|vm_compute; lia|vm_compute; reflexivity].
  - apply H3; [|apply (bool_decide_unpack _); vm_compute; exact I|vm_compute; lia|vm_compute; reflexivity].
    split_and!; try (vm_compute; discriminate); try (vm_compute; reflexivity); try (vm_compute; lia).
    apply (bool_decide_unpack _); vm_compute; exact I.
Defined.

Lemma dns_page_forgets_checksum_witness : let body := lit "{}" in
  Dns.cacheInternalFileMd5 (Dns.getDns settings) ≠ [] ∧
  Dns.cacheInternalFileMd5 (Dns.getDns (store (handlePostDnsSettings allThere true body (deviceOf settings)).2)) = [].
Proof.
  split; [vm_compute; discriminate|].
  refine (proj1 (dns_page_forgets_checksum allThere (lit "{}") (deviceOf settings) _ _)); [vm_compute; discriminate|vm_compute; reflexivity].
Defined.

(** What a body of the DNS page does not name is not kept: it gets the value of a new
    device, so that the counters are kept again and the autosave ends. *)
Example absent_is_not_kept :
  let c := Dns.getDns settings in
  let s := (handlePostDnsSettings allThere true (objectJson [(lit "cache_internal_save_stats", VBool false); (lit "cache_internal_autosave", VBool true)]) (deviceOf settings)).2 in
  let t := (handlePostDnsSettings allThere true (objectJson [(lit "enabled", VBool true)]) s).2 in
  (Dns.cacheInternalSaveStats (Dns.getDns (store s)), Dns.cacheInternalAutosave (Dns.getDns (store s)),
   Dns.cacheInternalSaveStats (Dns.getDns (store t)), Dns.cacheInternalAutosave (Dns.getDns (store t))) = (false, true, true, false).
Proof. vm_compute. reflexivity. Qed.

(** A body of more than 4096 bytes is cut, and what stood after the cut is taken for
    absent: here the switch of the internal cache. *)
Example long_page_cut :
  let s := (handlePostDnsSettings allThere true (objectJson [(lit "cache_internal", VBool true)]) (deviceOf settings)).2 in
  let c := Dns.getDns (store s) in
  let page := objectJson (dnsPage someDns true (with_logUrl (replicate 3900 97) c)) in
  (jsonGetBool page (lit "cache_internal") false, Dns.cacheInternal c,
   Dns.cacheInternal (Dns.getDns (store (handlePostDnsSettings allThere true page s).2))) = (true, true, false).
Proof. vm_compute. reflexivity. Qed.

Lemma ok_means_running_witness :
  let dhcpOn := objectJson [(lit "enabled", VBool true)] in let sshOn := objectJson [(lit "enabled", VBool true); (lit "port", VNum 2222)] in
  let d := deviceOf settings in
  on (handlePostDhcpSettings allThere true dhcpOn d).2 SDhcp = true ∧ on (handlePostSshSettings allThere true sshOn d).2 SSsh = true.
Proof.
  intros dhcpOn sshOn d. split.
  - rewrite (proj1 (ok_means_running allThere dhcpOn d) eq_refl) by (vm_compute; reflexivity). vm_compute. reflexivity.
  - refine (proj2 (ok_means_running allThere sshOn d) (Ssh.mk true 2222 true true false 65536) _ eq_refl _ _ _ _).
    + vm_compute. reflexivity.
    + vm_compute. reflexivity.
    + left. vm_compute. discriminate.
    + vm_compute. reflexivity.
Defined.

(** The page of the DNS server answers ok although the server did not start. *)
Example dns_failure_reported_ok :
  let env := mkEnv (λ _, true) (λ _, false) (λ _, true) (λ _, true) true true true true in
  let r := handlePostDnsSettings env true (objectJson [(lit "enabled", VBool true)]) (deviceOf settings) in
  (r.1, on r.2 SDns) = (statusOk, false).
Proof. vm_compute. reflexivity. Qed.

(** The page of the bindings does not escape what it writes: a name with a quote in it
    gives a text in which the name ends early. *)
Example quote_in_a_name :
  let b := StaticBindings.mkBinding (lit "24:0A:C4:00:00:01") (lit "192.168.1.50") (lit "5" ++ [34] ++ lit " disk") [] true true true in
  let d := deviceOf (setStaticBindings [b] settings).2 in
  (match handleGetStaticBindings true d with Sent _ page => jsonGetStr page (lit "name") | _ => [] end, StaticBindings.name <$> getStaticBindings (store d))
  = (lit "5", [lit "5" ++ [34] ++ lit " disk"]).
Proof. vm_compute. reflexivity. Qed.

(** A request that names both is refused for the one and has stored the other. *)
Example refused_name_stored :
  let body := objectJson [(lit "hostname", VStr (lit "attic")); (lit "local_name", VBool true)] in
  let env := mkEnv (λ _, true) (λ _, true) (λ _, true) (λ _, true) true false true true in
  let r := handlePostSettingsGeneral env true body (deviceOf settings) in
  (match r.1 with Sent status _ => status | _ => [] end, Config.getHostName (store r.2)) = (error500, lit "attic").
Proof. vm_compute. reflexivity. Qed.

End SettingsApi.
