(* ===== verification/Backup.v ===== *)
(** * The backup of the settings ([src/web/RestApi.cpp])

    GET /api/settings/export writes every section into one document, without passwords;
    POST /api/settings/import reads such a document section by section.  A client of
    [SettingsApi], [Settings], [ConfigBlobs], [HttpsServer] and of the scan of [Json] for
    names the firmware does not know.  BackupSafety.v has what a restore gives. *)
From stdpp Require Import gmap.
From S2P Require Import Prelude Text AllowedList DnsServer Autosave LogFile LogTask NtpWire Json Settings ConfigBlobs HostsApi.
From S2P Require Import PosixFiles Certificates HttpsServer CertificateApi JsonScan SettingsApi.
Import AutosavePeriod AutoUpdatePlan.
#[local] Open Scope Z_scope.
#[local] Abbreviation run := Prelude.run.

(** ** The version of the firmware (src/core/Version.cpp) *)

Module Version.

Record Version := mkVersion { global : Z; device : Z; release : Z; subRelease : Z; year : Z; month : Z; regionSetting : bytes }.

(** The region has two characters. *)
Definition region (v : Version) : bytes :=
  let r := regionSetting v in
  if (2 <? length r)%nat then take 2 r
  else if (length r <? 2)%nat then if bool_decide (r = []) then lit "??" else r ++ lit "?"
  else r.

Definition padded (width : nat) (z : Z) : bytes := replicate (width - length (dec z)) 48 ++ dec z.
Definition kVersionChars : nat := 31.
Definition toString (v : Version) : bytes :=
  take kVersionChars (Text.join 46 [padded 2 (global v); padded 2 (device v); padded 3 (release v); padded 2 (subRelease v); padded 2 (year v);
    padded 2 (month v); region v]).

(** One [%d] of [sscanf]: the number and the text after it. *)
Definition scanInt (s : bytes) : option (Z * bytes) :=
  let s := drop_while isspace s in
  let '(negative, s) := match s with c :: s' => if c =? 45 then (true, s') else if c =? 43 then (false, s') else (false, s) | [] => (false, []) end in
  match s with
  | c :: _ => if JsonRead.isDigit c then let n := JsonRead.digits s 0 in Some (if negative then - n else n, drop_while JsonRead.isDigit s) else None
  | [] => None
  end.
Definition scanDot (s : bytes) : option bytes := match s with c :: s => if c =? 46 then Some s else None | [] => None end.

(** The third number of ["%d.%d.%d"], when there are three. *)
Definition scanRelease (s : bytes) : option Z :=
  a ← scanInt s; s ← scanDot a.2; b ← scanInt s; s ← scanDot b.2; c ← scanInt s; Some c.1.

End Version.

Module Backup.
Import JsonRead JsonScan CertificateApi(orElse, set_storage) Lists SettingsApi.
Import Settings.Config(Internal, SdCard).
Import CertRules CertStore JsonRead(quoted).

(** ** The sections of the document *)

Definition dhcpSection (c : Dhcp.DhcpConfig) : list (bytes * Value) :=
  [(lit "enabled", VBool (Dhcp.enabled c)); (lit "server_ip", VStr (Dhcp.serverIp c)); (lit "start_ip", VStr (Dhcp.startIp c));
   (lit "end_ip", VStr (Dhcp.endIp c)); (lit "subnet", VStr (Dhcp.subnet c)); (lit "gateway", VStr (Dhcp.gateway c));
   (lit "lease_time", VNum (Dhcp.leaseTimeSec c)); (lit "max_lease_entries", VNum (Dhcp.maxLeaseEntries c));
   (lit "log_terminal", VBool (Dhcp.logTerminal c)); (lit "log_file", VBool (Dhcp.logFile c)); (lit "log_file_size", VNum (Dhcp.logFileSize c));
   (lit "log_rest", VBool (Dhcp.logRest c)); (lit "log_url", VStr (Dhcp.logUrl c)); (lit "log_auth", VBool (Dhcp.logAuthEnabled c));
   (lit "log_auth_user", VStr (Dhcp.logAuthUser c)); (lit "dns_mode", VStr (Dhcp.dnsMode c)); (lit "dns_address", VStr (Dhcp.dnsAddress c));
   (lit "allow_only", VBool (Dhcp.allowOnly c))].

Definition bindingMembers (b : StaticBindings.StaticBinding) : list (bytes * Value) :=
  [(lit "mac", VStr (StaticBindings.mac b)); (lit "ip", VStr (StaticBindings.ip b)); (lit "name", VStr (StaticBindings.name b));
   (lit "gateway", VStr (StaticBindings.gateway b)); (lit "use_gateway", VBool (StaticBindings.useGateway b));
   (lit "enabled", VBool (StaticBindings.enabled b)); (lit "use_dns", VBool (StaticBindings.useDns b))].
Definition computerMembers (e : AllowedList.AllowedComputer) : list (bytes * Value) :=
  [(lit "mac", VStr (AllowedList.mac e)); (lit "name", VStr (AllowedList.name e)); (lit "enabled", VBool (AllowedList.enabled e))].
Definition hostMembers (h : DnsServer.HostEntry) : list (bytes * Value) :=
  [(lit "name", VStr (DnsServer.hName h)); (lit "ip4", VStr (DnsServer.hIp4 h)); (lit "ip6", VStr (DnsServer.hIp6 h));
   (lit "enabled", VBool (DnsServer.hEnabled h))].

Definition dnsSection (c : Dns.DnsConfig) : list (bytes * Value) :=
  [(lit "enabled", VBool (Dns.enabled c)); (lit "external_dns", VStr (Dns.externalDns c)); (lit "log_terminal", VBool (Dns.logTerminal c));
   (lit "log_forwarded", VBool (Dns.logForwarded c)); (lit "log_local", VBool (Dns.logLocal c)); (lit "log_cache", VBool (Dns.logCache c));
   (lit "log_rest_sent", VBool (Dns.logRestSent c)); (lit "log_rest", VBool (Dns.logRest c)); (lit "log_url", VStr (Dns.logUrl c));
   (lit "log_auth", VBool (Dns.logAuthEnabled c)); (lit "log_auth_user", VStr (Dns.logAuthUser c)); (lit "log_file", VBool (Dns.logFile c));
   (lit "log_file_forwarded", VBool (Dns.logFileForwarded c)); (lit "log_file_size", VNum (Dns.logFileSize c)); (lit "cache_rest", VBool (Dns.cacheRest c));
   (lit "cache_rest_read", VBool (Dns.cacheRestRead c)); (lit "cache_rest_write", VBool (Dns.cacheRestWrite c)); (lit "cache_url", VStr (Dns.cacheUrl c));
   (lit "cache_auth", VBool (Dns.cacheAuthEnabled c)); (lit "cache_auth_user", VStr (Dns.cacheAuthUser c)); (lit "cache_internal", VBool (Dns.cacheInternal c));
   (lit "cache_internal_size_mb", VNum (Dns.cacheInternalSizeMb c)); (lit "cache_internal_ignore_ttl", VBool (Dns.cacheInternalIgnoreTtl c));
   (lit "cache_internal_save_stats", VBool (Dns.cacheInternalSaveStats c)); (lit "cache_internal_save_cache", VBool (Dns.cacheInternalSaveCache c));
   (lit "cache_internal_autosave", VBool (Dns.cacheInternalAutosave c));
   (lit "cache_internal_autosave_period", VNum (Config.periodIndex (Dns.cacheInternalAutosavePeriod c)));
   (lit "cache_internal_autosave_interval", VNum (Dns.cacheInternalAutosaveInterval c)); (lit "stats_autosave", VBool (Dns.statsAutosave c));
   (lit "stats_autosave_period", VNum (Config.periodIndex (Dns.statsAutosavePeriod c))); (lit "stats_autosave_interval", VNum (Dns.statsAutosaveInterval c));
   (lit "cache_internal_autoupdate", VBool (Dns.cacheInternalAutoUpdate c));
   (lit "cache_internal_autoupdate_period", VNum (Config.periodIndex (Dns.cacheInternalAutoUpdatePeriod c)));
   (lit "cache_internal_autoupdate_interval", VNum (Dns.cacheInternalAutoUpdateInterval c));
   (lit "cache_internal_autoupdate_batch", VNum (Dns.cacheInternalAutoUpdateBatch c));
   (lit "cache_internal_autoupdate_pause", VNum (Dns.cacheInternalAutoUpdatePause c)); (lit "block_forward_non_aa", VBool (Dns.blockForwardNonAA c));
   (lit "allow_own_subnet", VBool (Dns.allowOwnSubnet c))].

Definition timeSection (c : Time.TimeConfig) : list (bytes * Value) :=
  [(lit "enabled", VBool (Time.enabled c)); (lit "sync_enabled", VBool (Time.syncEnabled c)); (lit "external_ntp", VStr (Time.externalNtp c));
   (lit "timezone", VStr (Time.timezone c)); (lit "utc_offset_hours", VNum (Time.utcOffsetHours c)); (lit "sync_interval_sec", VNum (Time.syncIntervalSec c));
   (lit "allow_own_subnet", VBool (Time.allowOwnSubnet c)); (lit "only_allowed_computers", VBool (Time.onlyAllowedComputers c));
   (lit "rate_limit_per_sec", VNum (Time.rateLimitPerSec c)); (lit "log_terminal", VBool (Time.logTerminal c)); (lit "log_rest", VBool (Time.logRest c));
   (lit "log_file", VBool (Time.logFile c)); (lit "log_file_size", VNum (Time.logFileSize c)); (lit "log_url", VStr (Time.logUrl c));
   (lit "log_auth", VBool (Time.logAuthEnabled c)); (lit "log_auth_user", VStr (Time.logAuthUser c))].

Definition securitySection (c : Security.SecurityConfig) : list (bytes * Value) :=
  [(lit "username", VStr (Security.username c)); (lit "max_attempts", VNum (Security.maxAttempts c)); (lit "lockout_period", VNum (Security.lockoutPeriodSec c));
   (lit "log_file", VBool (Security.logAuth c)); (lit "log_file_size", VNum (Security.logFileSize c)); (lit "https_enabled", VBool (Security.httpsEnabled c));
   (lit "cert_storage", VStr (certStorageName (Security.certStorage c))); (lit "cert_name", VStr (Security.certName c))].

Definition sshSection (c : Ssh.SshConfig) : list (bytes * Value) :=
  [(lit "enabled", VBool (Ssh.enabled c)); (lit "port", VNum (Ssh.port c)); (lit "allow_own_subnet", VBool (Ssh.allowOwnSubnet c));
   (lit "log_file", VBool (Ssh.logFile c)); (lit "log_terminal", VBool (Ssh.logTerminal c)); (lit "log_file_size", VNum (Ssh.logFileSize c))].

(** A section is an object or an array of objects. *)
Inductive DocSection := SecObject (name : bytes) (ms : list (bytes * Value)) | SecArray (name : bytes) (items : list (list (bytes * Value))).

Definition sectionJson (s : DocSection) : bytes :=
  match s with
  | SecObject name ms => quoted name ++ [58] ++ objectJson ms
  | SecArray name items => quoted name ++ [58] ++ lit "[" ++ Text.join 44 (objectJson <$> items) ++ lit "]"
  end.

Section Export.
Context {N : Type} `{Nvs N}.

Definition sections (s : N) : list DocSection :=
  [SecObject (lit "dhcp") (dhcpSection (Dhcp.getDhcp s));
   SecArray (lit "static_bindings") (bindingMembers <$> getStaticBindings s);
   SecArray (lit "allowed_computers") (computerMembers <$> AllowedList.parse (getAllowedComputers s));
   SecObject (lit "dns") (dnsSection (Dns.getDns s));
   SecObject (lit "time") (timeSection (Time.getTime s));
   SecArray (lit "local_hosts") (hostMembers <$> getLocalHosts s);
   SecObject (lit "security") (securitySection (Security.getSecurity s));
   SecObject (lit "files") [(lit "allow_own_subnet", VBool (Files.allowOwnSubnet (Files.getFiles s)))];
   SecObject (lit "device") [(lit "hostname", VStr (Config.getHostName s)); (lit "local_name", VBool (Config.getLocalNameEnabled s))];
   SecObject (lit "ssh") (sshSection (Ssh.getSsh s));
   SecObject (lit "device_log") [(lit "log_file", VBool (DeviceLog.logFile (DeviceLog.getDeviceLog s)));
     (lit "log_file_size", VNum (DeviceLog.logFileSize (DeviceLog.getDeviceLog s)))]].

Definition header (version : bytes) : list (bytes * Value) :=
  [(lit "format", VStr (lit "dhcpserver-settings")); (lit "schema", VNum 1); (lit "firmware_version", VStr version)].

Definition exportText (version : bytes) (s : N) : bytes :=
  openObject (header version) ++ concat ((λ sec, lit "," ++ sectionJson sec) <$> sections s) ++ lit "}".

Definition handleGetSettingsExport (authorized : bool) (version : bytes) (s : N) : Reply :=
  if negb authorized then Unauthorized else Sent ok200 (exportText version s).

End Export.

(** ** The import *)

Definition kKnownSettingsKeys : list bytes := lit <$>
  ["format"; "schema"; "firmware_version"; "dhcp"; "static_bindings"; "allowed_computers"; "dns"; "time"; "local_hosts"; "security"; "files"; "device";
   "ssh"; "device_log"; "enabled"; "server_ip"; "start_ip"; "end_ip"; "subnet"; "gateway"; "lease_time"; "max_lease_entries"; "log_terminal"; "log_rest";
   "log_url"; "log_file"; "log_auth"; "log_auth_user"; "dns_mode"; "dns_address"; "allow_only"; "mac"; "ip"; "name"; "use_gateway"; "use_dns"; "ip4"; "ip6";
   "external_dns"; "log_forwarded"; "log_local"; "log_cache"; "log_rest_sent"; "log_file"; "log_file_forwarded"; "log_file_size"; "cache_rest";
   "cache_rest_read"; "cache_rest_write"; "cache_url"; "cache_auth"; "cache_auth_user"; "cache_internal"; "cache_internal_size_mb";
   "cache_internal_ignore_ttl"; "cache_internal_save_stats"; "cache_internal_save_cache"; "cache_internal_autosave"; "cache_internal_autosave_period";
   "cache_internal_autosave_interval"; "stats_autosave"; "stats_autosave_period"; "stats_autosave_interval"; "cache_internal_autoupdate";
   "cache_internal_autoupdate_period"; "cache_internal_autoupdate_interval"; "cache_internal_autoupdate_batch"; "cache_internal_autoupdate_pause";
   "block_forward_non_aa"; "allow_own_subnet"; "sync_enabled"; "external_ntp"; "timezone"; "utc_offset_hours"; "sync_interval_sec"; "rate_limit_per_sec";
   "only_allowed_computers"; "username"; "max_attempts"; "lockout_period"; "log_file_size"; "https_enabled"; "cert_storage"; "cert_name"; "hostname";
   "local_name"; "device_log"; "device_log_size"; "port"; "log_file_size"; "log_terminal"]%string.

Definition importSkippedFields (body : bytes) : run bytes :=
  unknown ← SettingsImportScan.unknownSettingsKeys body kKnownSettingsKeys;
  mret (Text.join 44 ((λ key, quoted (JsonWriter.escape key)) <$> unknown)).

(** The text from the first [open] after the first place where the name stands between
    quotes: to the end of the document. *)
Definition sectionAt (open : Z) (name body : bytes) : option bytes :=
  match find_sub (quoted name) body with
  | None => None
  | Some s => let rest := drop s body in match find_char open rest with None => None | Some o => Some (drop o rest) end
  end.

Definition importDhcp (seg : bytes) (c : Dhcp.DhcpConfig) : Dhcp.DhcpConfig :=
  let mode := jsonGetStr seg (lit "dns_mode") in
  Dhcp.mk (jsonGetBool seg (lit "enabled") (Dhcp.enabled c)) (orElse (Dhcp.serverIp c) (jsonGetStr seg (lit "server_ip")))
    (orElse (Dhcp.startIp c) (jsonGetStr seg (lit "start_ip"))) (orElse (Dhcp.endIp c) (jsonGetStr seg (lit "end_ip")))
    (orElse (Dhcp.subnet c) (jsonGetStr seg (lit "subnet"))) (orElse (Dhcp.gateway c) (jsonGetStr seg (lit "gateway")))
    (u32 (jsonGetInt seg (lit "lease_time") (Config.i32 (Dhcp.leaseTimeSec c))))
    (postedMaxEntries (jsonGetInt seg (lit "max_lease_entries") (Config.i32 (Dhcp.maxLeaseEntries c))))
    (jsonGetBool seg (lit "allow_only") (Dhcp.allowOnly c)) (jsonGetBool seg (lit "log_terminal") (Dhcp.logTerminal c))
    (jsonGetBool seg (lit "log_file") (Dhcp.logFile c)) (takeSize seg (Dhcp.logFileSize c))
    (if bytes_eqb mode (lit "manual") || bytes_eqb mode (lit "auto") then mode else Dhcp.dnsMode c) (jsonGetStr seg (lit "dns_address"))
    (jsonGetBool seg (lit "log_rest") (Dhcp.logRest c)) (jsonGetStr seg (lit "log_url")) (jsonGetBool seg (lit "log_auth") (Dhcp.logAuthEnabled c))
    (jsonGetStr seg (lit "log_auth_user")) (Dhcp.logAuthPassword c).

Definition importDns (seg : bytes) (c : Dns.DnsConfig) : Dns.DnsConfig :=
  let autosavePeriod := postedPeriod seg (lit "cache_internal_autosave_period") (Dns.cacheInternalAutosavePeriod c) in
  let statsPeriod := postedPeriod seg (lit "stats_autosave_period") (Dns.statsAutosavePeriod c) in
  let updatePeriod := postedPeriod seg (lit "cache_internal_autoupdate_period") (Dns.cacheInternalAutoUpdatePeriod c) in
  Dns.mk (jsonGetBool seg (lit "enabled") (Dns.enabled c)) (orElse (Dns.externalDns c) (jsonGetStr seg (lit "external_dns")))
    (jsonGetBool seg (lit "log_terminal") (Dns.logTerminal c)) (jsonGetBool seg (lit "log_forwarded") (Dns.logForwarded c))
    (jsonGetBool seg (lit "log_local") (Dns.logLocal c)) (jsonGetBool seg (lit "log_cache") (Dns.logCache c))
    (jsonGetBool seg (lit "log_rest_sent") (Dns.logRestSent c)) (jsonGetBool seg (lit "log_rest") (Dns.logRest c)) (jsonGetStr seg (lit "log_url"))
    (jsonGetBool seg (lit "log_file") (Dns.logFile c)) (jsonGetBool seg (lit "log_file_forwarded") (Dns.logFileForwarded c))
    (takeSize seg (Dns.logFileSize c)) (jsonGetBool seg (lit "log_auth") (Dns.logAuthEnabled c)) (jsonGetStr seg (lit "log_auth_user")) (Dns.logAuthPassword c)
    (jsonGetBool seg (lit "cache_rest") (Dns.cacheRest c)) (jsonGetBool seg (lit "cache_rest_read") (Dns.cacheRestRead c))
    (jsonGetBool seg (lit "cache_rest_write") (Dns.cacheRestWrite c)) (jsonGetStr seg (lit "cache_url")) (jsonGetBool seg (lit "cache_auth") (Dns.cacheAuthEnabled c))
    (jsonGetStr seg (lit "cache_auth_user")) (Dns.cacheAuthPassword c) (jsonGetBool seg (lit "cache_internal") (Dns.cacheInternal c))
    (u32 (Config.clampSizeMb (jsonGetInt seg (lit "cache_internal_size_mb") (Config.i32 (Dns.cacheInternalSizeMb c)))))
    (jsonGetBool seg (lit "cache_internal_ignore_ttl") (Dns.cacheInternalIgnoreTtl c))
    (jsonGetBool seg (lit "cache_internal_save_stats") (Dns.cacheInternalSaveStats c))
    (jsonGetBool seg (lit "cache_internal_save_cache") (Dns.cacheInternalSaveCache c))
    (jsonGetBool seg (lit "cache_internal_autosave") (Dns.cacheInternalAutosave c)) autosavePeriod
    (postedInterval seg (lit "cache_internal_autosave_interval") autosavePeriod (Dns.cacheInternalAutosaveInterval c))
    (jsonGetBool seg (lit "stats_autosave") (Dns.statsAutosave c)) statsPeriod
    (postedInterval seg (lit "stats_autosave_interval") statsPeriod (Dns.statsAutosaveInterval c))
    (jsonGetBool seg (lit "cache_internal_autoupdate") (Dns.cacheInternalAutoUpdate c)) updatePeriod
    (autoUpdateClampInterval updatePeriod (u16 (jsonGetInt seg (lit "cache_internal_autoupdate_interval") (Dns.cacheInternalAutoUpdateInterval c))))
    (autoUpdateClampBatch (jsonGetInt seg (lit "cache_internal_autoupdate_batch") (Dns.cacheInternalAutoUpdateBatch c)))
    (autoUpdateClampPause (jsonGetInt seg (lit "cache_internal_autoupdate_pause") (Dns.cacheInternalAutoUpdatePause c)))
    (Dns.cacheInternalFileMd5 c) (jsonGetBool seg (lit "block_forward_non_aa") (Dns.blockForwardNonAA c))
    (jsonGetBool seg (lit "allow_own_subnet") (Dns.allowOwnSubnet c)).

Definition importTime (seg : bytes) (c : Time.TimeConfig) : Time.TimeConfig :=
  Time.mk (jsonGetBool seg (lit "enabled") (Time.enabled c)) (jsonGetBool seg (lit "sync_enabled") (Time.syncEnabled c))
    (orElse (Time.externalNtp c) (NtpServers.ntpServersText (NtpServers.ntpServersSplit (jsonGetStr seg (lit "external_ntp")))))
    (take kMaxTimezoneLen (jsonGetStr seg (lit "timezone")))
    (clampTo kMinUtcOffsetHours kMaxUtcOffsetHours (jsonGetInt seg (lit "utc_offset_hours") (Time.utcOffsetHours c)))
    (u32 (clampTo kMinSyncIntervalSec kMaxSyncIntervalSec (jsonGetInt seg (lit "sync_interval_sec") (Config.i32 (Time.syncIntervalSec c)))))
    (jsonGetBool seg (lit "allow_own_subnet") (Time.allowOwnSubnet c))
    (u32 (clampTo 1 100 (jsonGetInt seg (lit "rate_limit_per_sec") (Time.rateLimitPerSec c))))
    (jsonGetBool seg (lit "only_allowed_computers") (Time.onlyAllowedComputers c)) (jsonGetBool seg (lit "log_terminal") (Time.logTerminal c))
    (jsonGetBool seg (lit "log_rest") (Time.logRest c)) (jsonGetBool seg (lit "log_file") (Time.logFile c)) (takeSize seg (Time.logFileSize c))
    (jsonGetStr seg (lit "log_url")) (jsonGetBool seg (lit "log_auth") (Time.logAuthEnabled c)) (jsonGetStr seg (lit "log_auth_user")) (Time.logAuthPassword c).

(** A port that is none leaves the one there is, with a warning. *)
Definition importSsh (seg : bytes) (c : Ssh.SshConfig) : Ssh.SshConfig * list bytes :=
  let port := jsonGetInt seg (lit "port") (Ssh.port c) in
  let '(newPort, warnings) := if Config.sshPortValid port then (u16 port, [])
    else (Ssh.port c, [lit "ssh: port " ++ JsonWriter.decInt port ++ lit " is not 1 to 65535"]) in
  (Ssh.mk (jsonGetBool seg (lit "enabled") (Ssh.enabled c)) newPort (jsonGetBool seg (lit "allow_own_subnet") (Ssh.allowOwnSubnet c))
     (jsonGetBool seg (lit "log_file") (Ssh.logFile c)) (jsonGetBool seg (lit "log_terminal") (Ssh.logTerminal c)) (takeSize seg (Ssh.logFileSize c)), warnings).

Definition importDeviceLog (seg : bytes) (c : DeviceLog.DeviceLogConfig) : DeviceLog.DeviceLogConfig :=
  DeviceLog.mk (jsonGetBool seg (lit "log_file") (DeviceLog.logFile c)) (takeSize seg (DeviceLog.logFileSize c)).

(** The fields of the access settings but HTTPS and the volume of the pair. *)
Definition importSecurity (seg : bytes) (c : Security.SecurityConfig) : Security.SecurityConfig * list bytes :=
  let name := jsonGetStr seg (lit "cert_name") in
  let '(certName, warnings) :=
    if bool_decide (name = []) then (Security.certName c, [])
    else if Config.isValidHostName name then (name, []) else (Security.certName c, [lit "cert_name: not a valid host name"]) in
  (Security.mk (orElse (Security.username c) (jsonGetStr seg (lit "username"))) (Security.password c)
     (u32 (jsonGetInt seg (lit "max_attempts") (Config.i32 (Security.maxAttempts c))))
     (u32 (jsonGetInt seg (lit "lockout_period") (Config.i32 (Security.lockoutPeriodSec c))))
     (jsonGetBool seg (lit "log_file") (Security.logAuth c)) (takeSize seg (Security.logFileSize c))
     (Security.httpsEnabled c) (Security.certStorage c) certName, warnings).

(** *** The handler *)

(** The device, the sections that were taken, and what the file asked for and the device
    could not do. *)
Record Progress (S N : Type) := mkProgress { dev : Device S N; imported : list bytes; warnings : list bytes }.
Arguments mkProgress {S N}. Arguments dev {S N}. Arguments imported {S N}. Arguments warnings {S N}.

Section Import.
Context {S N K : Type} `{Posix S} `{Volumes S} `{Crypto K} `{Nvs N} (errnoText : Errno → bytes) (env : Env).
Abbreviation Device := (Device S N).
Abbreviation Progress := (Progress S N).

Definition onDev (f : Device → Device) (p : Progress) : Progress := mkProgress (f (dev p)) (imported p) (warnings p).
Definition mark (name : bytes) (p : Progress) : Progress := mkProgress (dev p) (imported p ++ [name]) (warnings p).
Definition warn (ws : list bytes) (p : Progress) : Progress := mkProgress (dev p) (imported p) (warnings p ++ ws).

(** A section that is there goes through [f]. *)
Definition withObject (name body : bytes) (f : bytes → Progress → Progress) (p : Progress) : Progress :=
  match sectionAt 123 name body with None => p | Some seg => f seg p end.

(** The entries of a list, read inside its brackets. *)
Definition withArray {A} (name key body : bytes) (read : bytes → option A) (f : list A → Progress → Progress) (p : Progress) : run Progress :=
  match sectionAt 91 name body with
  | None => mret p
  | Some arr => l ← entriesOf key read (Datatypes.S (length arr)) (jsonFindArrayEnd arr 0) arr; mret (f l p)
  end.

Definition importDhcpSection (body : bytes) : Progress → Progress :=
  withObject (lit "dhcp") body (λ seg p,
    let cur := importDhcp seg (Dhcp.getDhcp (store (dev p))) in
    mark (lit "dhcp") (onDev (λ d, when env PSsh (ask [SshRefreshFilter]) (applyDhcpSettingsLive env cur (save (Config.CDhcp cur) d))) p)).

(** A list that was refused is a warning, one that was taken is loaded. *)
Definition importList (name warning : bytes) (set : N → bool * N) (reload : Device → Device) (p : Progress) : Progress :=
  let '(ok, s) := set (store (dev p)) in
  let p := onDev (with_store s) p in
  if ok then mark name (onDev reload p) else warn [warning] p.

Definition importBindings (body : bytes) : Progress → run Progress :=
  withArray (lit "static_bindings") (lit "mac") body bindingRead (λ l,
    importList (lit "static_bindings") (lit "static_bindings: too large for the NVS budget") (setStaticBindings l)
      (when env PDhcp (ask [DhcpReloadStaticBindings]))).

Definition computerRead (seg : bytes) : option AllowedList.AllowedComputer :=
  let e := computerAt seg in if bool_decide (AllowedList.normalizeMac (AllowedList.mac e) = []) then None else Some e.

Definition importAllowed (body : bytes) : Progress → run Progress :=
  withArray (lit "allowed_computers") (lit "mac") body computerRead (λ l p,
    let text := AllowedList.serialize l in
    if (kMaxAllowedBytes <? length text)%nat then warn [lit "allowed_computers: too large for the NVS budget"] p
    else importList (lit "allowed_computers") (lit "allowed_computers: refused by the NVS budget") (setAllowedComputers text)
      (when env PDhcp (ask [DhcpReloadAllowedComputers])) p).

Definition importDnsSection (body : bytes) : Progress → Progress :=
  withObject (lit "dns") body (λ seg p, mark (lit "dns") (onDev (save (Config.CDns (importDns seg (Dns.getDns (store (dev p)))))) p)).

Definition importTimeSection (body : bytes) : Progress → Progress :=
  withObject (lit "time") body (λ seg p,
    let cur := importTime seg (Time.getTime (store (dev p))) in
    mark (lit "time") (onDev (λ d, applyTimeSettingsLive env cur (save (Config.CTime cur) d)) p)).

Definition hostRead (seg : bytes) : option DnsServer.HostEntry :=
  let h := DnsServer.mkHost (jsonGetStr seg (lit "name")) (jsonGetStr seg (lit "ip4")) (jsonGetStr seg (lit "ip6")) (jsonGetBool seg (lit "enabled") true) in
  if LocalHosts.named h then Some h else None.

Definition hostCalls (h : DnsServer.HostEntry) : list Call :=
  if negb (DnsServer.hEnabled h) then []
  else (if bool_decide (DnsServer.hIp4 h = []) then [] else [DnsAddLocalHost (DnsServer.hName h) (DnsServer.hIp4 h)]) ++
       (if bool_decide (DnsServer.hIp6 h = []) then [] else [DnsAddLocalHost (DnsServer.hName h) (DnsServer.hIp6 h)]).

Definition importHosts (body : bytes) : Progress → run Progress :=
  withArray (lit "local_hosts") (lit "name") body hostRead (λ l,
    importList (lit "local_hosts") (lit "local_hosts: too large for the NVS budget") (setLocalHosts l)
      (when env PDns (ask ([DnsClearLocalHosts] ++ concat (hostCalls <$> l) ++ [DnsSyncLoggerLocalHosts])))).

Definition with_https (b : bool) (c : Security.SecurityConfig) : Security.SecurityConfig :=
  Security.mk (Security.username c) (Security.password c) (Security.maxAttempts c) (Security.lockoutPeriodSec c) (Security.logAuth c)
    (Security.logFileSize c) b (Security.certStorage c) (Security.certName c).
Definition with_storage (st : Config.CertStorage) (c : Security.SecurityConfig) : Security.SecurityConfig :=
  Security.mk (Security.username c) (Security.password c) (Security.maxAttempts c) (Security.lockoutPeriodSec c) (Security.logAuth c)
    (Security.logFileSize c) (Security.httpsEnabled c) st (Security.certName c).

(** HTTPS is switched when what listens is not what the file asks for. *)
Definition importHttps (want sslOk : bool) (now : Z) (c : Security.SecurityConfig) (w : WebServer.World S N)
  : Security.SecurityConfig * list bytes * WebServer.World S N :=
  if wired env PWeb && negb (Bool.eqb want (WebServer.serving w)) then
    match WebServer.setHttpsEnabled errnoText want sslOk now w with
    | (None, w) => (with_https want c, [], w)
    | (Some reason, w) => (c, [lit "https_enabled: " ++ reason], w)
    end
  else (with_https want c, [], w).

(** The volume is changed only to one that has a pair. *)
Definition importVolume (name : bytes) (c : Security.SecurityConfig) (w : WebServer.World S N)
  : Security.SecurityConfig * list bytes * WebServer.World S N :=
  if bool_decide (name = []) then (c, [], w)
  else match certStorageFromName name with
  | None => (c, [lit "cert_storage: unknown volume '" ++ name ++ lit "'"], w)
  | Some target =>
      if bool_decide (target = Security.certStorage c) then (c, [], w)
      else match WebServer.certs w with
      | None => (c, [lit "cert_storage: no volume for the pair"], w)
      | Some _ =>
          if negb (pairPresentIn target (WebServer.fs w)) then (c, [lit "cert_storage: no certificate on " ++ certStorageName target], w)
          else (with_storage target c, [], set_storage target w)
      end
  end.

Definition importSecuritySection (body : bytes) (sslOk : bool) (now : Z) : Progress → Progress :=
  withObject (lit "security") body (λ seg p,
    let '(c, ws1) := importSecurity seg (Security.getSecurity (store (dev p))) in
    let '(c, ws2, w) := importHttps (jsonGetBool seg (lit "https_enabled") (Security.httpsEnabled c)) sslOk now c (web (dev p)) in
    let '(c, ws3, w) := importVolume (jsonGetStr seg (lit "cert_storage")) c w in
    warn (ws1 ++ ws2 ++ ws3) (mark (lit "security") (onDev (λ d,
      ask [AuthLogSize (Security.logFileSize c); AuthLogFile (Security.logAuth c)]
        (when env PAuth (ask [AuthReloadConfig]) (save (Config.CSecurity c) (with_web w d)))) p))).

Definition importFilesSection (body : bytes) : Progress → Progress :=
  withObject (lit "files") body (λ seg p,
    let cur := Files.mk (jsonGetBool seg (lit "allow_own_subnet") (Files.allowOwnSubnet (Files.getFiles (store (dev p))))) in
    mark (lit "files") (onDev (λ d, when env PFiles (ask [FilesApplyAccessFilter]) (save (Config.CFiles cur) d)) p)).

(** The interface takes the name first, and only a name it accepts is stored. *)
Definition importHostName (name : bytes) (p : Progress) : Progress :=
  if bool_decide (name = []) then p
  else if negb (Config.isValidDeviceHostName name) then warn [lit "device: " ++ quoted name ++ lit " is not a valid host name"] p
  else if wired env PWifi && takesHostName env name then
    mark (lit "device") (onDev (λ d, save (Config.CHostName name) (ask [WifiSetHostName name] d)) p)
  else warn [lit "device: the network interface refused the host name"] (onDev (when env PWifi (ask [WifiSetHostName name])) p).

Definition importDeviceSection (body : bytes) : Progress → Progress :=
  withObject (lit "device") body (λ seg p,
    let p := importHostName (Config.trimmedDeviceHostName (jsonGetStr seg (lit "hostname"))) p in
    if has seg (lit "local_name") then
      mark (lit "device") (onDev (λ d, save (Config.CLocalName (jsonGetBool seg (lit "local_name") (Config.getLocalNameEnabled (store d)))) d) p)
    else p).

Definition importDeviceLogSection (body : bytes) : Progress → Progress :=
  withObject (lit "device_log") body (λ seg p,
    let cur := importDeviceLog seg (DeviceLog.getDeviceLog (store (dev p))) in
    mark (lit "device_log") (onDev (λ d, ask [DeviceLogFile (DeviceLog.logFile cur); DeviceLogSize (DeviceLog.logFileSize cur)] (save (Config.CDeviceLog cur) d)) p)).

Definition importSshSection (body : bytes) : Progress → Progress :=
  withObject (lit "ssh") body (λ seg p,
    let '(cur, ws) := importSsh seg (Ssh.getSsh (store (dev p))) in
    warn ws (mark (lit "ssh") (onDev (λ d, when env PSsh (ask [SshRefreshFilter]) (save (Config.CSsh cur) d)) p))).

(** All the sections, in the order of the handler. *)
Definition importSections (body : bytes) (sslOk : bool) (now : Z) (d : Device) : run Progress :=
  p ← importBindings body (importDhcpSection body (mkProgress d [] []));
  p ← importAllowed body p;
  p ← importHosts body (importTimeSection body (importDnsSection body p));
  mret (importSshSection body (importDeviceLogSection body (importDeviceSection body (importFilesSection body (importSecuritySection body sslOk now p))))).

(** The services, after everything is stored. *)
Definition startServices (p : Progress) : Progress :=
  let p := onDev (λ d, (applyDhcpRunning env (Dhcp.getDhcp (store d)) (wired env PWifi && isConnected env) true d).2) p in
  let p := onDev (λ d, when env PDns (λ d, applyDnsSettingsLive env (Dns.getDns (store d)) (applyDnsRunning env (Dns.getDns (store d)) d)) d) p in
  let p := onDev (λ d, applyTimeRunning env (Time.getTime (store d)) d) p in
  let p := if bool_decide (lit "device" ∈ imported p) then
             let '(ok, d) := applyLocalNameLive env (dev p) in
             let p := onDev (λ _, d) p in if ok : bool then p else warn [lit "device: the local name could not be published"] p
           else p in
  if bool_decide (lit "ssh" ∈ imported p) then
    let '(state, d) := applySshLive env (ask (sshLogCalls (Ssh.getSsh (store (dev p)))) (dev p)) in
    let p := onDev (λ _, d) p in
    match state with ErrorState => warn [lit "ssh: the SSH server could not start on that port"] p | _ => p end
  else p.

Definition sectionNames : list bytes := lit <$>
  ["dhcp"; "static_bindings"; "allowed_computers"; "dns"; "time"; "local_hosts"; "security"; "files"; "device"; "ssh"; "device_log"]%string.

Definition importReply (version fileVersion skipped : bytes) (mismatch newer reboot : bool) (p : Progress) : Reply :=
  Sent ok200 (openObject ([(lit "status", VStr (lit "ok")); (lit "firmware_version", VStr version)] ++
      (if bool_decide (fileVersion = []) then [] else [(lit "file_version", VStr fileVersion)]) ++
      [(lit "version_mismatch", VBool mismatch); (lit "file_newer", VBool newer); (lit "reboot_required", VBool reboot)]) ++
    lit "," ++ quoted (lit "imported") ++ lit ":" ++ objectJson ((λ n, (n, VBool (bool_decide (n ∈ imported p)))) <$> sectionNames) ++
    (if bool_decide (skipped = []) then [] else lit "," ++ quoted (lit "skipped_fields") ++ lit ":[" ++ skipped ++ lit "]") ++
    lit "," ++ quoted (lit "warnings") ++ lit ":[" ++ Text.join 44 ((λ w, quoted (JsonWriter.escape w)) <$> warnings p) ++ lit "]}").

Definition kMaxImportBodyBytes : nat := 16 * 1024.

(** [declared]: the length the request announces. *)
Definition handlePostSettingsImport (authorized : bool) (declared : nat) (arrived : bytes) (version : Version.Version) (sslOk : bool) (now : Z) (d : Device)
  : run (Reply * Device) :=
  if negb authorized then mret (Unauthorized, d)
  else if (kMaxImportBodyBytes <? declared)%nat then
    mret (errorReply (lit "413 Payload Too Large") (lit "Settings file too large (" ++ dec (Z.of_nat declared) ++ lit " bytes, limit 16384)"), d)
  else
    let body := HostsApi.readBody (Nat.min declared kMaxImportBodyBytes) arrived in
    if bool_decide (body = []) then mret (EmptyBody, d)
    else if negb (bytes_eqb (jsonGetStr body (lit "format")) (lit "dhcpserver-settings")) then
      mret (errorReply ok200 (lit "Invalid format marker"), d)
    else
      let fileVersion := jsonGetStr body (lit "firmware_version") in
      let '(mismatch, newer) := match Version.scanRelease fileVersion with
        | Some rel => (negb (rel =? Version.release version), Version.release version <? rel)
        | None => (false, false) end in
      skipped ← importSkippedFields body;
      let oldDhcp := Dhcp.getDhcp (store d) in
      p ← importSections body sslOk now d;
      let cur := Dhcp.getDhcp (store (dev p)) in
      let reboot := negb (bytes_eqb (Dhcp.serverIp cur) (Dhcp.serverIp oldDhcp)) || negb (bytes_eqb (Dhcp.subnet cur) (Dhcp.subnet oldDhcp)) ||
        negb (bytes_eqb (Dhcp.gateway cur) (Dhcp.gateway oldDhcp)) in
      let p := onDev (ask [NoteSettingsImported]) (startServices p) in
      mret (importReply (Version.toString version) fileVersion skipped mismatch newer reboot p, dev p).

End Import.

End Backup.

(** ** Documents that do not restore what they hold *)

Import PosixFileOperations JsonRead Lists JsonScan SettingsApi Backup.
#[local] Existing Instances both_mounted plain_crypto Config.flash Config.flash_laws.

Definition thisVersion : Version.Version := Version.mkVersion 1 2 310 0 26 10 (lit "EU").
Definition boxOf (s : Config.Flash) : Device Volume Config.Flash :=
  mkDevice (WebServer.mkWorld true true None 0 false [] [] (Some Config.Internal) generated.2 s 0 0 0) (λ _, false) [].
Definition restore (doc : bytes) (s : Config.Flash) : Prelude.run (Device Volume Config.Flash) :=
  r ← handlePostSettingsImport (K := bytes) noText allThere true (length doc) doc thisVersion true 2000 (boxOf s); mret r.2.

(** A binding for a computer called dns, and one allowed computer that is switched off:
    restoring this backup on the device it was made on turns the DNS server off.  The name
    is taken for the section, and what follows it is the entry of the computer. *)
Definition withDnsComputer : Config.Flash :=
  (setAllowedComputers (AllowedList.serialize [AllowedList.mkComputer (lit "24:0a:c4:00:00:02") (lit "tv") false])
    (setStaticBindings [StaticBindings.mkBinding (lit "24:0a:c4:00:00:01") (lit "192.168.1.50") (lit "dns") [] true true true] Config.erased).2).2.

Example name_taken_for_section :
  (Dns.enabled (Dns.getDns withDnsComputer),
   d ← restore (exportText (Version.toString thisVersion) withDnsComputer) withDnsComputer; mret (Dns.enabled (Dns.getDns (store d)))) = (true, Done false).
Proof. vm_compute. reflexivity. Qed.

(** A member that a section does not have is read from a later one: here the size of the
    DHCP log from the section of the DNS server. *)
Example missing_member_borrowed :
  let doc := openObject (header (lit "01.02.100.00.25.01.EU")) ++ lit "," ++ sectionJson (SecObject (lit "dhcp") [(lit "enabled", VBool false)]) ++ lit "," ++
             sectionJson (SecObject (lit "dns") [(lit "enabled", VBool true); (lit "log_file_size", VNum 262144)]) ++ lit "}" in
  (Dhcp.logFileSize (Dhcp.getDhcp Config.erased), d ← restore doc Config.erased; mret (Dhcp.logFileSize (Dhcp.getDhcp (store d)))) = (65536, Done 262144).
Proof. vm_compute. reflexivity. Qed.

(** Four requests that the pages accept, each with a long text or a long list, make a
    device whose backup no device takes back. *)
Definition longUrl : bytes := objectJson [(lit "log_url", VStr (replicate 3990 97))].
Definition manyBindings : bytes :=
  Text.join 44 (replicate 38 (objectJson [(lit "mac", VStr (lit "a")); (lit "ip", VStr (lit "b")); (lit "use_gateway", VBool true); (lit "enabled", VBool true); (lit "use_dns", VBool true)])).
Definition longDevice : Prelude.run (Device Volume Config.Flash) :=
  let d := (handlePostDhcpSettings allThere true longUrl (boxOf Config.erased)).2 in
  let d := (handlePostDnsSettings allThere true longUrl d).2 in
  let d := (handlePostTimeSettings allThere true longUrl d).2 in
  r ← handlePostStaticBindings allThere true manyBindings d; mret r.2.

Example backup_too_large :
  (d ← longDevice;
   let doc := exportText (Version.toString thisVersion) (store d) in
   r ← handlePostSettingsImport (K := bytes) noText allThere true (length doc) doc thisVersion true 2000 d;
   mret (length (getStaticBindings (store d)), match r.1 with Sent status _ => status | _ => [] end)) = Done (38%nat, lit "413 Payload Too Large").
Proof. vm_compute. reflexivity. Qed.
