(* ===== verification/BackupScan.v ===== *)
(** * What the import finds in a document of the export

    The document of [Backup] as a list of tokens and the text between them: the section
    scan and the readers of values find in it what the writer put there, as long as no
    text in it is one of the names the firmware knows.  BackupSafety.v uses these for what
    a restore gives. *)
From stdpp Require Import gmap.
From S2P Require Import Prelude Text AllowedList DnsServer Autosave LogFile LogTask NtpWire Json Settings ConfigBlobs HostsApi.
From S2P Require Import PosixFiles Certificates HttpsServer CertificateApi JsonScan SettingsApi Backup.
#[local] Open Scope Z_scope.

(** ** The document *)

Module Scanned.
Import JsonWriter JsonRead JsonScan SettingsApi Backup.

Section Keys.
Context (keys : list bytes).
Hypothesis keys_plain : Forall (λ k, plainKey k ∧ printable k) keys.

(** *** The entries of an array *)

Lemma skips_rest key w t x r : plainKey key → cQuote ∉ w → cQuote ∉ t → t = x :: r → sep x → skips key (w ++ cQuote :: t).
Proof.
  intros Hk Hw Ht -> Hx s. destruct Hk as (Hne & Hq & H1 & H2 & H3 & _). rewrite <- app_assoc. cbn [app].
  rewrite find_skip_text by done. rewrite find_skip_char.
  - change (x :: r ++ s) with ((x :: r) ++ s). rewrite find_skip_text by done.
    destruct (find_sub _ s); [|done]. cbn [fmap option_fmap option_map]. f_equal. rewrite length_app. cbn [length]. lia.
  - rewrite prefix_quote, Z.eqb_refl. destruct key as [|k key]; [done|]. cbn [app is_prefix andb].
    apply andb_false_iff. left. apply Z.eqb_neq. unfold sep in Hx.
    apply not_elem_of_cons in H1 as [? _]. apply not_elem_of_cons in H2 as [? _]. apply not_elem_of_cons in H3 as [? _]. naive_solver.
Qed.

Lemma find_at key junk pre s : plainKey key → skips key junk → Forall fine pre → after key pre = None →
  find_sub (quoted key) (junk ++ flat pre ++ quoted key ++ s) = Some (length junk + length (flat pre))%nat.
Proof.
  intros Hk Hj Hp Ha. rewrite Hj. pose proof (find_flat key pre (quoted key ++ s) Hk Hp) as E. rewrite Ha in E. rewrite E, find_here.
  cbn. f_equal. lia.
Qed.

Section Entries.
Context {A : Type} (key : bytes) (read : bytes → option A) (mem : A → list (bytes * Value)).
Hypothesis key_in : key ∈ keys.

(** An entry whose first member is the key, and what stands before it. *)
Definition entryOk (e : A) : Prop := tameMembers keys (mem e) ∧ ∃ v ms, mem e = (key, v) :: ms.
Definition leadOk (p : list Atom) : Prop := Forall inside p ∧ after key p = None.
Definition groups (gs : list (list Atom * A)) : list Atom := concat ((λ g, g.1 ++ membersAtoms (mem g.2)) <$> gs).

Lemma entry_head e : entryOk e → ∃ t l, membersAtoms (mem e) = Tok key t :: l ∧ after key l = None ∧ Forall inside (Tok key t :: l).
Proof.
  intros [Ht (v & ms & E)]. pose proof (members_inside keys keys_plain _ Ht) as Hin. rewrite E in *.
  assert (Hms : ms ≠ [] → after key (membersAtoms ms) = None).
  { intros _. apply (after_members_none keys keys_plain); [done| |].
    - destruct Ht as [Hd Hf]. split; [by apply NoDup_cons in Hd as [_ ?]|by apply Forall_cons in Hf as [_ ?]].
    - destruct Ht as [Hd _]. by apply NoDup_cons in Hd as [? _]. }
  assert (Hv : ∀ s, ∃ t l, memberAtoms (key, v) s = Tok key t :: l ∧ after key l = None).
  { intros s. unfold memberAtoms. cbn [fst snd]. destruct v as [u|z|b]; eexists _, _; (split; [reflexivity|]); [|done..].
    cbn [after]. rewrite bool_decide_false; [done|]. apply (tame_apart keys keys_plain); [done|].
    destruct Ht as [_ Hf]. by apply Forall_cons in Hf as [[_ ?] _]. }
  destruct ms as [|m ms].
  - destruct (Hv 125) as (t & l & Em & Ea). exists t, l. cbn [membersAtoms] in *. rewrite Em in *. done.
  - destruct (Hv 44) as (t & l & Em & Ea). exists t, (l ++ membersAtoms (m :: ms)).
    change (membersAtoms ((key, v) :: m :: ms)) with (memberAtoms (key, v) 44 ++ membersAtoms (m :: ms)) in *.
    rewrite Em in *. cbn [app] in *. split_and!; [done| |done]. rewrite after_app, Ea. by apply Hms.
Qed.

Lemma groups_inside gs : Forall (λ g, leadOk g.1 ∧ entryOk g.2) gs → Forall inside (groups gs).
Proof.
  induction 1 as [|[p e] gs [[Hp _] [He _]] _ IH]; [constructor|]. unfold groups. cbn [fmap list_fmap concat fst snd].
  rewrite !Forall_app. split_and!; [done|by apply (members_inside keys keys_plain)|done].
Qed.

Lemma entries_groups r : ∀ gs f junk l0, skips key junk → Forall inside l0 → after key l0 = None →
  Forall (λ g, leadOk g.1 ∧ entryOk g.2) gs →
  Forall (λ g, ∀ rest, Forall inside rest → read (flat (membersAtoms (mem g.2) ++ rest)) = Some g.2) gs →
  (length (junk ++ flat (l0 ++ groups gs)) < f)%nat →
  entriesOf key read f (length (junk ++ flat (l0 ++ groups gs))) (junk ++ flat (l0 ++ groups gs) ++ 93 :: r) = Done gs.*2.
Proof.
  induction gs as [|[p e] gs IH]; intros f junk l0 Hj Hl Ha Hg Hr Hf; destruct f as [|f]; try lia; cbn [entriesOf].
  - unfold groups in *. cbn [fmap list_fmap concat] in *. rewrite app_nil_r in *.
    destruct (Nat.eqb_spec (length (junk ++ flat l0)) 0); [done|]. rewrite Hj.
    pose proof (find_flat key l0 (93 :: r) (key_plain keys keys_plain key key_in) (inside_fine l0 Hl)) as E. rewrite Ha in E. rewrite E.
    destruct (find_sub (quoted key) (93 :: r)); [|done]. cbn [fmap option_fmap option_map].
    destruct (Nat.leb_spec (length (junk ++ flat l0)) (length junk + (length (flat l0) + n0))); [done|]. pose proof (length_app junk (flat l0)). lia.
  - apply Forall_cons in Hg as [[[Hp Hpa] He] Hg]. apply Forall_cons in Hr as [Hr0 Hr]. cbn [fst snd] in *.
    destruct (entry_head e He) as (t & l & Em & Eal & Hil). pose proof (groups_inside gs Hg) as Hgi.
    assert (Et : junk ++ flat (l0 ++ groups ((p, e) :: gs)) = junk ++ flat (l0 ++ p) ++ quoted key ++ t ++ flat (l ++ groups gs)).
    { unfold groups. cbn [fmap list_fmap concat fst snd]. rewrite Em. rewrite !flat_app, flat_cons. cbn [atomText]. by rewrite <- !app_assoc. }
    assert (Et' : junk ++ flat (l0 ++ groups ((p, e) :: gs)) ++ 93 :: r = junk ++ flat (l0 ++ p) ++ quoted key ++ (t ++ flat (l ++ groups gs) ++ 93 :: r)).
    { rewrite app_assoc, Et, <- !app_assoc. done. }
    rewrite Et'. rewrite Et in Hf |- *. set (n := length (junk ++ _)) in *.
    assert (Hn : n = (length junk + length (flat (l0 ++ p)) + (S (S (length key)) + length (t ++ flat (l ++ groups gs))))%nat).
    { unfold n, quoted. app_lengths. }
    destruct (Nat.eqb_spec n 0); [lia|]. rewrite find_at.
    2: by apply (key_plain keys keys_plain). 2: done.
    2: { apply Forall_app. split; by apply inside_fine. }
    2: { by rewrite after_app, Ha. }
    destruct (Nat.leb_spec n (length junk + length (flat (l0 ++ p)))); [lia|].
    rewrite <- length_app, app_assoc, drop_app_length.
    assert (Hn' : (n - length (junk ++ flat (l0 ++ p)))%nat = S (length ((key ++ cQuote :: t) ++ flat (l ++ groups gs)))).
    { rewrite Hn, length_app. repeat (rewrite length_app || (progress (cbn [length]))). lia. }
    rewrite Hn'. cbn [Nat.sub]. rewrite Nat.sub_0_r.
    assert (Ed : drop 1 (quoted key ++ t ++ flat (l ++ groups gs) ++ 93 :: r) = (key ++ cQuote :: t) ++ flat (l ++ groups gs) ++ 93 :: r).
    { unfold quoted. rewrite <- !app_assoc. reflexivity. }
    assert (Ek : take (S (length ((key ++ cQuote :: t) ++ flat (l ++ groups gs)))) (quoted key ++ t ++ flat (l ++ groups gs) ++ 93 :: r) =
      flat (membersAtoms (mem e) ++ groups gs)).
    { set (F := flat (l ++ groups gs)).
      assert (Es : quoted key ++ t ++ F ++ 93 :: r = cQuote :: ((key ++ cQuote :: t) ++ F) ++ 93 :: r) by (unfold quoted; rewrite <- !app_assoc; reflexivity).
      rewrite Es. change (take (S ?n) (?c :: ?s)) with (c :: take n s). rewrite take_app_length. rewrite Em. cbn [app]. rewrite flat_cons. fold F.
      cbn [atomText]. unfold quoted. rewrite <- !app_assoc. reflexivity. }
    rewrite Ed, Ek, Hr0 by done. apply Forall_cons in Hil as [[Ht _] Hil]. destruct Ht as (Htq & (x & t' & Ex & Hx) & _).
    assert (Hkp : plainKey key) by by apply (key_plain keys keys_plain).
    rewrite IH; [by rewrite run_bind_done|..|done|done|].
    + apply (skips_rest key key t x t'); try done. by destruct Hkp as (_ & ? & _).
    + done.
    + done.
    + rewrite Hn, length_app in Hf. repeat (rewrite length_app in * || (progress (cbn [length] in *))). lia.
Qed.

End Entries.

(** The entries of an array, as the handlers read them. *)
Lemma entries_items {A} key (read : bytes → option A) (mem : A → list (bytes * Value)) es r : key ∈ keys →
  Forall (λ e, entryOk key mem e ∧ ∀ rest, Forall inside rest → read (flat (membersAtoms (mem e) ++ rest)) = Some e) es →
  let arr := 91 :: flat (itemsAtoms (mem <$> es)) ++ 93 :: r in
  entriesOf key read (S (length arr)) (jsonFindArrayEnd arr 0) arr = Done es.
Proof.
  intros Hk Hes arr.
  set (gs := match es with [] => [] | e :: es => ([Txt [123]], e) :: ((λ e, ([Txt [44]; Txt [123]], e)) <$> es) end).
  assert (Eg : itemsAtoms (mem <$> es) = groups mem gs).
  { unfold gs. destruct es as [|e es]; [done|]. cbn [fmap list_fmap]. unfold groups. cbn [fmap list_fmap concat fst snd].
    clear Hes gs arr. revert e. induction es as [|e' es IH]; intros e; [cbn; by rewrite app_nil_r|].
    change (itemsAtoms (mem e :: (mem <$> e' :: es))) with (objAtoms (mem e) ++ Txt [44] :: itemsAtoms (mem e' :: (mem <$> es))).
    rewrite IH. cbn [fmap list_fmap concat fst snd app]. unfold objAtoms. reflexivity. }
  assert (Es : gs.*2 = es).
  { unfold gs. destruct es as [|e es]; [done|]. cbn. f_equal. clear. induction es as [|e es IH]; [done|]. cbn. by f_equal. }
  assert (Hlead : ∀ p, p = [Txt [123]] ∨ p = [Txt [44]; Txt [123]] → leadOk key p).
  { intros p Hp. split; [|by destruct Hp as [-> | ->]].
    assert (Hi : ∀ c, c ≠ 34 → c ≠ 91 → c ≠ 93 → inside (Txt [c])) by (intros c H1 H2 H3; split; cbn; rewrite ?list_elem_of_singleton; auto).
    destruct Hp as [-> | ->]; repeat (apply List.Forall_cons; [by apply Hi|]); apply List.Forall_nil. }
  assert (Hgs : Forall (λ g, leadOk key g.1 ∧ entryOk key mem g.2) gs ∧
    Forall (λ g, ∀ rest, Forall inside rest → read (flat (membersAtoms (mem g.2) ++ rest)) = Some g.2) gs).
  { unfold gs. destruct Hes as [|e es [He Hr] Hes]; [by split|]. split; constructor; cbn [fst snd]; auto; apply Forall_fmap;
      (eapply Forall_impl; [exact Hes|]); intros x [Hx Hx']; unfold compose; cbn [fst snd]; auto. }
  destruct Hgs as [Hg Hr]. unfold arr. rewrite Eg. rewrite array_span by by apply (groups_inside key mem).
  pose proof (entries_groups key read mem Hk r gs (S (length (91 :: flat (groups mem gs) ++ 93 :: r))) [91] []) as H.
  cbn [app] in H. rewrite Es in H. apply H; [|constructor|done|done|done|].
  - apply skips_text. by rewrite list_elem_of_singleton.
  - cbn [length]. rewrite length_app. lia.
Qed.

(** *** The sections of a document *)

Definition sectionAtoms (s : DocSection) : list Atom :=
  match s with
  | SecObject name ms => Tok name [58] :: objAtoms ms
  | SecArray name items => Tok name [58] :: Txt [91] :: itemsAtoms items ++ [Txt [93]]
  end.
Definition sectionName (s : DocSection) : bytes := match s with SecObject name _ | SecArray name _ => name end.
Definition sectionItems (s : DocSection) : list (list (bytes * Value)) := match s with SecObject _ ms => [ms] | SecArray _ items => items end.
Definition sectionOk (s : DocSection) : Prop := sectionName s ∈ keys ∧ Forall (tameMembers keys) (sectionItems s).

Definition headAtoms (ms : list (bytes * Value)) : list Atom := Txt [123] :: concat ((λ m, memberAtoms m 44) <$> ms).
Definition documentAtoms (head : list (bytes * Value)) (secs : list DocSection) : list Atom :=
  headAtoms head ++ match secs with [] => [] | s :: secs => sectionAtoms s ++ concat ((λ s, Txt [44] :: sectionAtoms s) <$> secs) end ++ [Txt [125]].

Lemma tame_escape ms : tameMembers keys ms → Forall (λ m, escape m.1 = m.1) ms.
Proof.
  intros [_ H]. eapply Forall_impl; [exact H|]. intros m [Hm _]. by apply (key_escape keys keys_plain).
Qed.

Lemma flat_items items : Forall (tameMembers keys) items → flat (itemsAtoms items) = Text.join 44 (objectJson <$> items).
Proof.
  intros H. assert (Hj : ∀ ms, tameMembers keys ms → flat (objAtoms ms) = objectJson ms).
  { intros ms Hms. rewrite objectJson_document by by apply tame_escape. apply flat_object. by apply tame_escape. }
  destruct H as [|ms items Hms H]; [done|]. revert ms Hms. induction H as [|ms' items Hms' H IH]; intros ms Hms.
  - cbn [itemsAtoms fmap list_fmap]. rewrite Hj by done. unfold Text.join. cbn. by rewrite app_nil_r.
  - change (itemsAtoms (ms :: ms' :: items)) with (objAtoms ms ++ Txt [44] :: itemsAtoms (ms' :: items)).
    rewrite flat_app, flat_cons, IH, Hj by done. unfold Text.join. cbn [fmap list_fmap concat atomText app]. done.
Qed.

Lemma flat_section s : sectionOk s → flat (sectionAtoms s) = sectionJson s.
Proof.
  intros [Hn H]. destruct s as [name ms|name items]; cbn [sectionAtoms sectionItems sectionJson] in *.
  - apply Forall_cons in H as [H _]. rewrite flat_cons. cbn [atomText]. rewrite objectJson_document, <- flat_object by by apply tame_escape.
    by rewrite <- app_assoc.
  - rewrite !flat_cons, flat_app, flat_items by done. cbn [atomText]. rewrite <- !app_assoc. cbn [app]. unfold flat. cbn [fmap list_fmap concat atomText].
    by rewrite app_nil_r.
Qed.

Lemma flat_head m ms : tameMembers keys (m :: ms) → flat (headAtoms (m :: ms)) = openObject (m :: ms) ++ [44].
Proof.
  intros H. pose proof (tame_escape _ H) as He. unfold headAtoms, openObject. rewrite flat_cons. cbn [atomText].
  apply Forall_cons in He as [Hm He]. rewrite addValue_field by done. clear H.
  assert (G : ∀ ms json, Forall (λ m, escape m.1 = m.1) ms → flat (concat ((λ m, memberAtoms m 44) <$> ms)) = concat ((λ m, field m ++ [44]) <$> ms) ∧
    foldl (λ json m, addValue m true json) json ms ++ [44] = json ++ [44] ++ concat ((λ m, field m ++ [44]) <$> ms)).
  { clear. intros ms json H. revert json. induction H as [|m ms Hm H IH]; intros json; [done|]. cbn [fmap list_fmap concat foldl].
    rewrite flat_app, flat_member by done. destruct (IH (addValue m true json)) as [-> ->]. split; [done|].
    rewrite addValue_field by done. by rewrite <- !app_assoc. }
  cbn [fmap list_fmap concat]. rewrite flat_app, flat_member by done.
  destruct (G ms (lit "{" ++ [] ++ field m) He) as [-> ->]. by rewrite <- !app_assoc.
Qed.

Lemma flat_document m ms s secs : tameMembers keys (m :: ms) → Forall sectionOk (s :: secs) →
  flat (documentAtoms (m :: ms) (s :: secs)) = openObject (m :: ms) ++ concat ((λ s, lit "," ++ sectionJson s) <$> (s :: secs)) ++ lit "}".
Proof.
  intros Hm Hs. apply Forall_cons in Hs as [H1 Hs]. unfold documentAtoms. rewrite !flat_app, flat_head, flat_section by done.
  assert (G : flat (concat ((λ s, Txt [44] :: sectionAtoms s) <$> secs)) = concat ((λ s, lit "," ++ sectionJson s) <$> secs)).
  { clear s H1 Hm. induction Hs as [|s secs H1 Hs IH]; [done|]. cbn [fmap list_fmap concat]. rewrite flat_app, flat_cons, flat_section, IH by done.
    cbn [atomText]. by rewrite <- app_assoc. }
  rewrite G. cbn [fmap list_fmap concat]. rewrite <- !app_assoc. done.
Qed.

(** *** Finding a section *)

Lemma sectionAt_flat open name l t l' : plainKey name → open ∉ quoted name → open ≠ 58 → Forall fine l →
  after name l = Some ([58], Txt (open :: t) :: l') → sectionAt open name (flat l) = Some (flat (Txt (open :: t) :: l')).
Proof.
  intros Hk Ho H58 Hl Ha. pose proof (find_flat name l [] Hk Hl) as E. rewrite Ha in E. destruct E as (n & Ef & Ed). rewrite app_nil_r in Ef. rewrite !app_nil_r in Ed.
  unfold sectionAt. rewrite Ef. cbv zeta. rewrite Ed, flat_cons. cbn [atomText]. cbn [app].
  replace (quoted name ++ 58 :: open :: t ++ flat l') with ((quoted name ++ [58]) ++ open :: t ++ flat l') by (rewrite <- app_assoc; reflexivity).
  rewrite find_char_app, drop_app_length; [done|]. rewrite not_elem_of_app, list_elem_of_singleton. by split.
Qed.

Lemma after_items_none key items : key ∈ keys → Forall (tameMembers keys) items → Forall (λ ms, key ∉ ms.*1) items → after key (itemsAtoms items) = None.
Proof.
  intros Hk H. induction H as [|ms items Hms H IH]; intros Hn; [done|]. apply Forall_cons in Hn as [H1 Hn].
  assert (E : after key (objAtoms ms) = None) by by apply (after_members_none keys keys_plain).
  cbn [itemsAtoms]. destruct items as [|ms' items]; [exact E|]. rewrite after_app, E. by apply IH.
Qed.

Lemma after_section_none key s : key ∈ keys → sectionOk s → key ≠ sectionName s → Forall (λ ms, key ∉ ms.*1) (sectionItems s) → after key (sectionAtoms s) = None.
Proof.
  intros Hk [_ Hs] Hne Hn. destruct s as [name ms|name items]; cbn [sectionAtoms sectionName sectionItems after] in *; rewrite bool_decide_false by done.
  - apply Forall_cons in Hs as [Hs _], Hn as [Hn _]. by apply (after_members_none keys keys_plain).
  - by rewrite after_app, after_items_none.
Qed.

Lemma items_inside items : Forall (tameMembers keys) items → Forall inside (itemsAtoms items).
Proof.
  intros H. induction H as [|ms items Hms H IH]; [constructor|]. cbn [itemsAtoms].
  assert (Ho : Forall inside (objAtoms ms)) by by apply (object_inside keys keys_plain).
  destruct items as [|ms' items]; [exact Ho|]. apply Forall_app. split; [exact Ho|]. constructor; [|exact IH].
  split; cbn; rewrite ?list_elem_of_singleton; done.
Qed.

Lemma text_fine c : c ≠ 34 → fine (Txt [c]).
Proof. intros Hc. cbn. by rewrite list_elem_of_singleton. Qed.

Lemma name_fine name : name ∈ keys → fine (Tok name [58]).
Proof.
  intros Hn. assert (Hp : printable name) by (rewrite Forall_forall in keys_plain; by apply keys_plain).
  rewrite <- (key_escape keys keys_plain name Hn). apply text_inside; [by left|done].
Qed.

Lemma section_fine s : sectionOk s → Forall fine (sectionAtoms s).
Proof.
  intros [Hn Hs]. destruct s as [name ms|name items]; cbn [sectionAtoms sectionName sectionItems] in *; (constructor; [by apply name_fine|]).
  - apply Forall_cons in Hs as [Hs _]. by apply inside_fine, (object_inside keys keys_plain).
  - constructor; [by apply text_fine|]. apply Forall_app. split; [by apply inside_fine, items_inside|]. constructor; [by apply text_fine|constructor].
Qed.

Lemma head_fine ms : tameMembers keys ms → Forall fine (headAtoms ms) ∧ ∀ key, key ∈ keys → key ∉ ms.*1 → after key (headAtoms ms) = None.
Proof.
  intros [_ H]. unfold headAtoms. split.
  - constructor; [by apply text_fine|]. induction H as [|m ms [Hm Hv] H IH]; [constructor|]. cbn [fmap list_fmap concat]. apply Forall_app. split; [|done].
    apply inside_fine, (member_inside keys keys_plain); [done..|by right; left].
  - intros key Hk. cbn [after]. induction H as [|m ms [Hm Hv] H IH]; [done|]. cbn [fmap list_fmap concat]. intros [Hne Hn]%not_elem_of_cons.
    rewrite after_app, (after_member_none keys keys_plain) by done. by apply IH.
Qed.

Definition tailAtoms (secs : list DocSection) : list Atom := concat ((λ s, Txt [44] :: sectionAtoms s) <$> secs).

Lemma tailAtoms_fine secs : Forall sectionOk secs → Forall fine (tailAtoms secs).
Proof.
  intros H. unfold tailAtoms. induction H as [|s l Hs H IH]; [constructor|]. cbn [fmap list_fmap concat app]. constructor; [by apply text_fine|].
  apply Forall_app. split; [by apply section_fine|exact IH].
Qed.

Lemma document_around head l1 s l2 : ∃ lead, documentAtoms head (l1 ++ s :: l2) = headAtoms head ++ lead ++ sectionAtoms s ++ tailAtoms l2 ++ [Txt [125]] ∧
  (Forall sectionOk l1 → Forall fine lead) ∧
  (∀ key, key ∈ keys → Forall sectionOk l1 → Forall (λ s, key ≠ sectionName s ∧ Forall (λ ms, key ∉ ms.*1) (sectionItems s)) l1 → after key lead = None).
Proof.
  unfold documentAtoms. destruct l1 as [|s1 l1]; cbn [app].
  - exists []. split; [by rewrite <- !app_assoc|]. split; [constructor|done].
  - exists (sectionAtoms s1 ++ tailAtoms l1 ++ [Txt [44]]). split.
    + rewrite fmap_app, concat_app. cbn [fmap list_fmap concat]. unfold tailAtoms. rewrite <- !app_assoc. reflexivity.
    + assert (Ht : Forall fine [Txt [44]]) by (constructor; [by apply text_fine|constructor]).
      split.
      * intros [H1 H]%Forall_cons. apply Forall_app. split; [by apply section_fine|]. apply Forall_app. split; [by apply tailAtoms_fine|done].
      * intros key Hk [H1 H]%Forall_cons [[Hn1 Hn1'] Hn]%Forall_cons. rewrite after_app, after_section_none, after_app by done. unfold tailAtoms.
        assert (after key (concat ((λ s, Txt [44] :: sectionAtoms s) <$> l1)) = None) as ->; [|done].
        induction H as [|s' l H' H IH]; [done|]. apply Forall_cons in Hn as [[Hn2 Hn2'] Hn]. cbn [fmap list_fmap concat app after]. rewrite after_app, after_section_none by done. by apply IH.
Qed.

(** What the readers give for members that stand in a text. *)
Definition reads (seg : bytes) (ms : list (bytes * Value)) : Prop :=
  (∀ key u, (key, VStr u) ∈ ms → jsonGetStr seg key = u) ∧ (∀ key b d, (key, VBool b) ∈ ms → jsonGetBool seg key d = b) ∧
  (∀ key z d, (key, VNum z) ∈ ms → jsonGetInt seg key d = z) ∧ (∀ key v, (key, v) ∈ ms → has seg key = true).

Lemma reads_members p ms l r : Forall fine p → Forall (λ a, match a with Txt _ => True | Tok _ _ => False end) p → tameMembers keys ms → Forall fine l →
  reads (flat (p ++ membersAtoms ms ++ l) ++ r) ms.
Proof.
  intros Hp Hn Hm Hl. split_and!; intros key v.
  - by apply (read_str keys keys_plain).
  - intros d. by apply (read_bool keys keys_plain).
  - intros d. by apply (read_num keys keys_plain).
  - intros Hin. unfold has. destruct (member_found keys keys_plain p ms l r Hp Hn Hm Hl key v Hin) as [n ->]. done.
Qed.

Section Find.
Context (head : list (bytes * Value)) (l1 l2 : list DocSection).
Hypothesis head_tame : tameMembers keys head.
Hypothesis l1_ok : Forall sectionOk l1.
Hypothesis l2_ok : Forall sectionOk l2.

Definition apartFrom (name : bytes) : Prop :=
  name ∉ head.*1 ∧ Forall (λ s, name ≠ sectionName s ∧ Forall (λ ms, name ∉ ms.*1) (sectionItems s)) l1.

Lemma tail_fine : Forall fine (tailAtoms l2 ++ [Txt [125]]).
Proof. apply Forall_app. split; [by apply tailAtoms_fine|]. constructor; [by apply text_fine|constructor]. Qed.

Lemma document_fine s : sectionOk s → Forall fine (documentAtoms head (l1 ++ s :: l2)).
Proof.
  intros Hs. destruct (document_around head l1 s l2) as (lead & -> & Hl & _). rewrite !Forall_app.
  split_and!; [by apply head_fine|by apply Hl|by apply section_fine|..]; pose proof tail_fine as Ht; by apply Forall_app in Ht as [? ?].
Qed.

Lemma find_section s : sectionOk s → apartFrom (sectionName s) →
  after (sectionName s) (documentAtoms head (l1 ++ s :: l2)) = after (sectionName s) (sectionAtoms s ++ tailAtoms l2 ++ [Txt [125]]).
Proof.
  intros Hs [Hh Hn]. destruct (document_around head l1 s l2) as (lead & -> & _ & Ha). destruct Hs as [Hs _].
  rewrite after_app, (proj2 (head_fine head head_tame)) by done. by rewrite after_app, Ha by done.
Qed.

Lemma quoted_bracket name c : c ∈ [91; 123] → forallb (λ x, negb ((x =? 91) || (x =? 123))) name = true → c ∉ quoted name.
Proof.
  intros Hc H. unfold quoted. rewrite !not_elem_of_app, !list_elem_of_singleton.
  assert (c = 91 ∨ c = 123) as Hc' by (apply elem_of_cons in Hc as [->|Hc]; [by left|]; right; by apply list_elem_of_singleton in Hc).
  split_and!; try lia. rewrite forallb_forall in H. intros Hin%list_elem_of_In%H. destruct Hc' as [-> | ->]; done.
Qed.

(** An object is found with everything that follows it. *)
Lemma object_found name ms : sectionOk (SecObject name ms) → apartFrom name → forallb (λ x, negb ((x =? 91) || (x =? 123))) name = true →
  ∃ rest, Forall fine rest ∧ sectionAt 123 name (flat (documentAtoms head (l1 ++ SecObject name ms :: l2))) = Some (flat ([Txt [123]] ++ membersAtoms ms ++ rest)).
Proof.
  intros Hs Ha Hb. exists (tailAtoms l2 ++ [Txt [125]]). split; [apply tail_fine|].
  pose proof (find_section _ Hs Ha) as E. cbn [sectionName sectionAtoms app after] in E. rewrite bool_decide_true in E by done.
  unfold objAtoms in E. cbn [app] in E. apply (sectionAt_flat 123 name _ [] _) in E; [exact E|..].
  - apply (key_plain keys keys_plain), Hs.
  - apply quoted_bracket; [written|done].
  - done.
  - by apply document_fine.
Qed.

(** An array with its brackets. *)
Lemma array_found name items : sectionOk (SecArray name items) → apartFrom name → forallb (λ x, negb ((x =? 91) || (x =? 123))) name = true →
  ∃ r, sectionAt 91 name (flat (documentAtoms head (l1 ++ SecArray name items :: l2))) = Some (91 :: flat (itemsAtoms items) ++ 93 :: r).
Proof.
  intros Hs Ha Hb. exists (flat (tailAtoms l2 ++ [Txt [125]])).
  pose proof (find_section _ Hs Ha) as E. cbn [sectionName sectionAtoms app after] in E. rewrite bool_decide_true in E by done.
  rewrite <- app_assoc in E. apply (sectionAt_flat 91 name _ [] _) in E; [rewrite E|..].
  - f_equal. rewrite flat_cons, flat_app. reflexivity.
  - apply (key_plain keys keys_plain), Hs.
  - apply quoted_bracket; [written|done].
  - done.
  - by apply document_fine.
Qed.

(** Its members, read. *)
Lemma section_reads name ms : sectionOk (SecObject name ms) → apartFrom name → forallb (λ x, negb ((x =? 91) || (x =? 123))) name = true →
  ∃ seg, sectionAt 123 name (flat (documentAtoms head (l1 ++ SecObject name ms :: l2))) = Some seg ∧ reads seg ms.
Proof.
  intros Hs Ha Hb. destruct (object_found name ms Hs Ha Hb) as (rest & Hr & E). eexists. split; [exact E|].
  rewrite <- (app_nil_r (flat _)). destruct Hs as [_ Hs]. apply Forall_cons in Hs as [Hs _].
  apply (reads_members [Txt [123]]); [constructor; [by apply text_fine|constructor]|by constructor|done|done].
Qed.

(** The entries of a list, read. *)
Lemma list_reads {A} name key (read : bytes → option A) (mem : A → list (bytes * Value)) es : let arr := SecArray name (mem <$> es) in
  sectionOk arr → apartFrom name → forallb (λ x, negb ((x =? 91) || (x =? 123))) name = true → key ∈ keys →
  Forall (λ e, (∃ v ms, mem e = (key, v) :: ms) ∧ ∀ seg, reads seg (mem e) → read seg = Some e) es →
  ∃ seg, sectionAt 91 name (flat (documentAtoms head (l1 ++ arr :: l2))) = Some seg ∧
    entriesOf key read (S (length seg)) (jsonFindArrayEnd seg 0) seg = Done es.
Proof.
  intros arr Hs Ha Hb Hk He. destruct (array_found name (mem <$> es) Hs Ha Hb) as (r & E). eexists. split; [exact E|].
  destruct Hs as [_ Hs]. unfold arr in Hs. cbn [sectionItems] in Hs. rewrite Forall_fmap in Hs. apply entries_items; [done|]. apply Forall_forall. intros e Hin.
  rewrite Forall_forall in He, Hs. destruct (He e Hin) as [Hm Hr]. specialize (Hs e Hin). split; [by split|]. intros rest Hrest. apply Hr.
  rewrite <- (app_nil_r (flat _)). apply (reads_members []); [constructor|constructor|done|by apply inside_fine].
Qed.

End Find.

End Keys.

End Scanned.
