(* ===== verification/BackupSafety.v ===== *)
(** * What restoring a backup gives

    A backup of a device whose texts cannot be taken for the names in the document,
    restored on another device, gives its sections and its lists there, with the other
    device's passwords: [backup_restores].  Before it: what the store holds after the
    writes of a restore, and what each step of the import does to the store. *)
From stdpp Require Import gmap.
From S2P Require Import Prelude Text AllowedList DnsServer Autosave LogFile LogTask NtpWire Json Settings ConfigBlobs HostsApi.
From S2P Require Import PosixFiles Certificates HttpsServer CertificateApi JsonScan SettingsApi Backup BackupScan.
Import AutosavePeriod AutoUpdatePlan.
#[local] Open Scope Z_scope.

(** ** The store *)

(** A key keeps a blob apart from the texts and the numbers of other keys. *)
Class NvsBlobLaws (S : Type) `{Config.NvsLaws S} := {
  open_blob k v s : nvs_open (nvs_set_blob k v s).2 = nvs_open s;
  open_erase k s : nvs_open (nvs_erase_key k s) = nvs_open s;
  blob_blob k v q s : nvs_get_blob q (nvs_set_blob k v s).2 = if (nvs_set_blob k v s).1 && bytes_eqb q k then Some v else nvs_get_blob q s;
  blob_str k v q s : q ≠ k → nvs_get_blob q (nvs_set_str k v s).2 = nvs_get_blob q s;
  blob_i32 k v q s : q ≠ k → nvs_get_blob q (nvs_set_i32 k v s).2 = nvs_get_blob q s;
  str_blob k v q s : q ≠ k → nvs_get_str q (nvs_set_blob k v s).2 = nvs_get_str q s;
  i32_blob k v q s : q ≠ k → nvs_get_i32 q (nvs_set_blob k v s).2 = nvs_get_i32 q s;
  erased_blob k s : nvs_get_blob k (nvs_erase_key k s) = None;
  other_erase k q s : q ≠ k → nvs_get_str q (nvs_erase_key k s) = nvs_get_str q s ∧ nvs_get_i32 q (nvs_erase_key k s) = nvs_get_i32 q s ∧
    nvs_get_blob q (nvs_erase_key k s) = nvs_get_blob q s;
}.

Module Restore.
Import ConfigKeys Lists StaticBindings(StaticBinding) DnsServer(HostEntry).

(** What a restore writes. *)
Inductive Op := OSet (ch : Config.Change) | OBindings (l : list StaticBinding) | OAllowed (text : bytes) | OHosts (l : list HostEntry).
Definition kind (op : Op) : nat := match op with OSet ch => Config.sectionOf ch | OBindings _ => 11 | OAllowed _ => 12 | OHosts _ => 13 end.
Definition keysOf (op : Op) : list bytes :=
  match op with OSet ch => Config.keysOf ch | OBindings _ => [KEY_DHCP_BINDINGS] | OAllowed _ => [KEY_DHCP_ALLOWED] | OHosts _ => [KEY_DNS_HOSTS] end.

Lemma ops_apart a b : kind a ≠ kind b → Forall (λ k, k ∉ keysOf b) (keysOf a).
Proof.
  destruct a as [c| | |], b as [c'| | |]; cbn [kind keysOf]; try done; [apply Config.keys_apart| ..]; intros _;
    (try destruct c); (try destruct c'); (apply (bool_decide_unpack _); vm_compute; exact I).
Qed.

Section Ops.
Context {N : Type} `{NvsBlobLaws N}.

Definition opRun (op : Op) (s : N) : bool * N :=
  match op with OSet ch => Config.set ch s | OBindings l => setStaticBindings l s | OAllowed text => setAllowedComputers text s | OHosts l => setLocalHosts l s end.
Definition opsRun (ops : list Op) (s : N) : bool * N := foldl (λ r op, ((r.1 && (opRun op r.2).1), (opRun op r.2).2)) (true, s) ops.

(** Two stores that agree on some keys, the blobs included. *)
Definition sameKeys (ks : list bytes) (s t : N) : Prop := Config.agree ks s t ∧ Forall (λ k, nvs_get_blob k s = nvs_get_blob k t) ks.

Lemma sameKeys_refl ks s : sameKeys ks s s.
Proof. split; [split; [done|]|]; by apply Forall_forall. Qed.
Lemma sameKeys_trans ks s t u : sameKeys ks s t → sameKeys ks t u → sameKeys ks s u.
Proof.
  intros [[Ho Ha] Hb] [[Ho' Ha'] Hb']. split; [split; [congruence|]|]; rewrite !Forall_forall in *; intros k Hk.
  - destruct (Ha k Hk), (Ha' k Hk). split; congruence.
  - rewrite Hb by done. by apply Hb'.
Qed.

Lemma writes_blob ws q (s : N) : q ∉ fst <$> ws → nvs_get_blob q (Config.run ws s).2 = nvs_get_blob q s.
Proof.
  revert s. induction ws as [|kv ws IH]; intros s Hq; cbn [Config.run]; [done|]. cbn [fmap list_fmap] in Hq. apply not_elem_of_cons in Hq as [Hk Hq].
  assert (E : nvs_get_blob q (Config.write1 kv s).2 = nvs_get_blob q s).
  { destruct kv as [k [z|v]]; unfold Config.write1, Config.writeI32, Config.writeStr; cbn [fst snd] in *; destruct (negb (nvs_open s)); try done; [by apply blob_i32|by apply blob_str]. }
  destruct (Config.write1 kv s) as [ok s1]. specialize (IH s1 Hq). destruct (Config.run ws s1) as [oks s2]. cbn in *. congruence.
Qed.

Lemma blob_other key v q (s : N) : q ≠ key → sameKeys [q] (Config.writeBlob key v s).2 s ∧ sameKeys [q] (Config.eraseKey key s).2 s.
Proof.
  intros Hq. unfold Config.writeBlob, Config.eraseKey. destruct (negb (nvs_open s)); [split; apply sameKeys_refl|]. cbn [snd].
  destruct (other_erase key q s Hq) as (E1 & E2 & E3). split; (split; [split|]); rewrite ?Forall_singleton, ?open_blob, ?open_erase, ?blob_blob, ?str_blob, ?i32_blob by done;
    rewrite ?(proj2 (bytes_eqb_neq q key)), ?andb_false_r by done; auto.
Qed.

Lemma list_other {A} `{BlobEntry A} key max (l : list A) q (s : N) : q ≠ key → sameKeys [q] (setListBlob key max l s).2 s.
Proof.
  intros Hq. unfold setListBlob. case_bool_decide; [by apply (blob_other key [] q s)|]. cbv zeta. destruct (Nat.ltb _ _); [apply sameKeys_refl|by apply blob_other].
Qed.

(** What is not written stays. *)
Lemma op_other op q (s : N) : q ∉ keysOf op → sameKeys [q] (opRun op s).2 s.
Proof.
  intros Hq. destruct op as [ch|l|text|l]; cbn [opRun keysOf] in *; [|rewrite list_elem_of_singleton in Hq..].
  - unfold Config.set, Config.keysOf in *. destruct (Config.run_other (Config.writesOf ch) q s Hq). split; [split|]; rewrite ?Forall_singleton; auto using Config.run_open, writes_blob.
  - by apply list_other.
  - unfold setAllowedComputers. case_bool_decide; [by apply (blob_other KEY_DHCP_ALLOWED [] q s)|]. destruct (Nat.ltb _ _); [apply sameKeys_refl|by apply blob_other].
  - by apply list_other.
Qed.

Lemma sameKeys_all ks s t : nvs_open s = nvs_open t → Forall (λ k, sameKeys [k] s t) ks → sameKeys ks s t.
Proof.
  intros Ho Hk. rewrite Forall_forall in Hk. split; [split; [done|]|]; apply Forall_forall; intros k Hin; destruct (Hk k Hin) as [[_ Ha] Hb];
    rewrite Forall_singleton in Ha, Hb; [exact Ha|exact Hb].
Qed.

Lemma op_open op (s : N) : nvs_open (opRun op s).2 = nvs_open s.
Proof. by destruct (op_other op (lit "none") s) as [[Ho _] _]; [destruct op as [c| | |]; [destruct c|..]; apply (bool_decide_unpack _); vm_compute; exact I|]. Qed.

Lemma op_apart op ks (s : N) : Forall (λ k, k ∉ keysOf op) ks → sameKeys ks (opRun op s).2 s.
Proof. intros Hk. apply sameKeys_all; [apply op_open|]. eapply Forall_impl; [exact Hk|]. intros k. apply op_other. Qed.

Lemma opsRun_snoc ops op (s : N) : opsRun (ops ++ [op]) s = ((opsRun ops s).1 && (opRun op (opsRun ops s).2).1, (opRun op (opsRun ops s).2).2).
Proof. unfold opsRun. by rewrite foldl_app. Qed.

(** Operations of other kinds leave the keys of one alone. *)
Lemma ops_other ops op (s : N) : kind op ∉ kind <$> ops → sameKeys (keysOf op) (opsRun ops s).2 s.
Proof.
  induction ops as [|a ops IH] using rev_ind; [intros _; apply sameKeys_refl|]. rewrite fmap_app, not_elem_of_app. intros [Hn Ha].
  rewrite opsRun_snoc. cbn [snd]. eapply sameKeys_trans; [|by apply IH]. apply op_apart, ops_apart. by intros E; apply Ha, list_elem_of_singleton.
Qed.

(** Where an operation was taken, the store reads as it left it. *)
Lemma ops_at ops op (t : N) : NoDup (kind <$> ops) → op ∈ ops → (opsRun ops t).1 = true →
  ∃ s, (opRun op s).1 = true ∧ sameKeys (keysOf op) (opsRun ops t).2 (opRun op s).2.
Proof.
  induction ops as [|a ops IH] using rev_ind; [by intros _ ?%elem_of_nil|]. rewrite fmap_app. intros [Hd [Hn _]]%NoDup_app Hin. rewrite opsRun_snoc. cbn [fst snd].
  intros [Hok Ha]%andb_true_iff. apply elem_of_app in Hin as [Hin|Hin].
  - destruct (IH Hd Hin Hok) as (s & Hs & E). exists s. split; [done|]. eapply sameKeys_trans; [|exact E]. apply op_apart, ops_apart.
    intros Ek. apply (Hn (kind op)); [by apply list_elem_of_fmap_2|by apply list_elem_of_singleton].
  - apply list_elem_of_singleton in Hin as ->. exists (opsRun ops t).2. split; [done|apply sameKeys_refl].
Qed.

(** A list that was taken is read back as its entries are kept. *)
Lemma readBlob_same key s t : sameKeys [key] s t → Config.readBlob key s = Config.readBlob key t.
Proof. intros [[Ho _] Hb]. rewrite Forall_singleton in Hb. unfold Config.readBlob. by rewrite Ho, Hb. Qed.

Lemma blob_back key v (s : N) : v ≠ [] → (Config.writeBlob key v s).1 = true → Config.readBlob key (Config.writeBlob key v s).2 = Some v.
Proof.
  intros Hv. unfold Config.writeBlob, Config.readBlob. destruct (negb (nvs_open s)) eqn:Ho; [done|]. intros Hok.
  rewrite open_blob, Ho, blob_blob, Hok, bytes_eqb_refl. cbn [andb]. by rewrite bool_decide_false.
Qed.

Lemma erase_back key (s : N) : (Config.eraseKey key s).1 = true → Config.readBlob key (Config.eraseKey key s).2 = None.
Proof.
  unfold Config.eraseKey, Config.readBlob. destruct (negb (nvs_open s)) eqn:Ho; [done|]. intros _. cbn [snd]. by rewrite open_erase, Ho, erased_blob.
Qed.

Lemma list_back {A} `{BlobEntryLaws A} key max (l : list A) (s : N) : (setListBlob key max l s).1 = true →
  getList (Config.readBlob key (setListBlob key max l s).2) = clean <$> List.filter valid l.
Proof.
  unfold setListBlob. case_bool_decide as Hl; [subst l; intros Hok; by rewrite erase_back|]. cbv zeta. destruct (Nat.ltb _ _); [done|]. intros Hok.
  assert (Ht : blobText l ≠ []).
  { rewrite blobText_join. destruct l as [|a l]; [done|]. cbn. intros [E _]%app_eq_nil. by apply rowText_nonempty in E. }
  rewrite blob_back by done. unfold getList. rewrite bool_decide_false by done. apply read_blobText.
Qed.

Lemma allowed_back text (s : N) : (setAllowedComputers text s).1 = true → getAllowedComputers (setAllowedComputers text s).2 = text.
Proof.
  unfold setAllowedComputers, getAllowedComputers. case_bool_decide as Ht; [subst; intros Hok; by rewrite erase_back|]. destruct (Nat.ltb _ _); [done|].
  intros Hok. by rewrite blob_back.
Qed.

End Ops.

End Restore.

(** ** The document of a device *)

Module Restored.
Import JsonRead JsonScan CertificateApi(orElse) Lists SettingsApi Backup Scanned Restore.
Import AllowedList(AllowedComputer).
#[local] Existing Instances StaticBindings.bindingBlob StaticBindings.bindingBlobLaws LocalHosts.hostBlob LocalHosts.hostBlobLaws.

Lemma names_plain : Forall (λ k, plainKey k ∧ printable k) kKnownSettingsKeys.
Proof.
  unfold kKnownSettingsKeys. cbn [fmap list_fmap].
  repeat (apply List.Forall_cons; [split; [split_and!; try discriminate; try reflexivity; apply (bool_decide_unpack _); vm_compute; exact I|apply (bool_decide_unpack _); vm_compute; exact I]|]); apply List.Forall_nil.
Qed.

(** The names of the sections and of their members, whatever is in them. *)
Definition shapes : list (bytes * list bytes) :=
  let s := Config.erased in
  [(lit "dhcp", (dhcpSection (Dhcp.getDhcp (H := Config.flash) s)).*1);
   (lit "static_bindings", (bindingMembers (StaticBindings.mkBinding [] [] [] [] true true true)).*1);
   (lit "allowed_computers", (computerMembers (AllowedList.mkComputer [] [] true)).*1);
   (lit "dns", (dnsSection (Dns.getDns (H := Config.flash) s)).*1); (lit "time", (timeSection (Time.getTime (H := Config.flash) s)).*1);
   (lit "local_hosts", (hostMembers (DnsServer.mkHost [] [] [] true)).*1);
   (lit "security", (securitySection (Security.getSecurity (H := Config.flash) s)).*1); (lit "files", [lit "allow_own_subnet"]);
   (lit "device", [lit "hostname"; lit "local_name"]); (lit "ssh", (sshSection (Ssh.getSsh (H := Config.flash) s)).*1);
   (lit "device_log", [lit "log_file"; lit "log_file_size"])].

Definition hasShape (sec : DocSection) (sh : bytes * list bytes) : Prop := sectionName sec = sh.1 ∧ Forall (λ ms, ms.*1 = sh.2) (sectionItems sec).

Definition headNames : list bytes := lit <$> ["format"; "schema"; "firmware_version"]%string.
Lemma shapes_known : Forall (λ sh, sh.1 ∈ kKnownSettingsKeys ∧ NoDup sh.2 ∧ Forall (λ k, k ∈ kKnownSettingsKeys) sh.2) shapes ∧
  NoDup headNames ∧ Forall (λ k, k ∈ kKnownSettingsKeys) headNames ∧ Forall (λ sh, forallb (λ x, negb ((x =? 91) || (x =? 123))) sh.1 = true) shapes.
Proof. split_and!; (apply (bool_decide_unpack _); vm_compute; exact I). Qed.

(** No name of a section stands before it. *)
Fixpoint apartBefore (before : list bytes) (l : list (bytes * list bytes)) : bool :=
  match l with [] => true | (name, ks) :: l => bool_decide (name ∉ before) && apartBefore (before ++ name :: ks) l end.
Lemma shapes_apart : apartBefore headNames shapes = true.
Proof. vm_compute. reflexivity. Qed.

Lemma apart_at l : ∀ before i name ks, apartBefore before l = true → l !! i = Some (name, ks) →
  name ∉ before ∧ Forall (λ sh, name ≠ sh.1 ∧ name ∉ sh.2) (take i l).
Proof.
  induction l as [|[n k] l IH]; intros before i name ks Ha Hi; [done|]. cbn [apartBefore] in Ha. apply andb_true_iff in Ha as [Hn%bool_decide_eq_true Ha].
  destruct i as [|i]; cbn in Hi; [injection Hi as <- <-; by split|]. destruct (IH _ i name ks Ha Hi) as [Hb Hf].
  rewrite not_elem_of_app, not_elem_of_cons in Hb. destruct Hb as (Hb & Hne & Hk). split; [done|]. cbn [take]. constructor; done.
Qed.

Lemma shapes_names name secs shs : Forall2 hasShape secs shs → Forall (λ sh, name ≠ sh.1 ∧ name ∉ sh.2) shs →
  Forall (λ sec, name ≠ sectionName sec ∧ Forall (λ ms, name ∉ ms.*1) (sectionItems sec)) secs.
Proof.
  induction 1 as [|sec sh secs shs [Hn Hm] _ IH]; [constructor|]. intros [[H1 H2] H3]%Forall_cons. constructor; [|exact (IH H3)].
  split; [by rewrite Hn|]. eapply Forall_impl; [exact Hm|]. by intros ms ->.
Qed.

Section Document.
Context {N : Type} `{Nvs N} (version : bytes) (s : N).

Lemma sections_shapes : Forall2 hasShape (sections s) shapes.
Proof.
  unfold sections, shapes. repeat (apply Forall2_cons; split; [split; [reflexivity|]|]); try exact (List.Forall2_nil _); cbn [sectionItems];
    try (apply Forall_singleton; reflexivity); rewrite Forall_fmap; apply Forall_true; intros x; reflexivity.
Qed.

(** No text is one of the names the firmware knows or holds a quote or a control
    character, and every number is an int. *)
Definition plainTexts : Prop :=
  Forall (λ m, tameValue kKnownSettingsKeys m.2) (header version) ∧ Forall (λ sec, Forall (Forall (λ m, tameValue kKnownSettingsKeys m.2)) (sectionItems sec)) (sections s).
Hypothesis texts_plain : plainTexts.

Lemma members_tame (ms : list (bytes * Value)) ks : ms.*1 = ks → NoDup ks → Forall (λ k, k ∈ kKnownSettingsKeys) ks →
  Forall (λ m, tameValue kKnownSettingsKeys m.2) ms → tameMembers kKnownSettingsKeys ms.
Proof.
  intros <- Hd Hk Hv. split; [done|]. rewrite Forall_fmap in Hk. rewrite Forall_forall in *. intros m Hm. split; [by apply (Hk m)|by apply Hv].
Qed.

Lemma header_tame : tameMembers kKnownSettingsKeys (header version).
Proof. destruct texts_plain as [Hh _]. destruct shapes_known as (_ & Hd & Hk & _). by apply (members_tame _ headNames). Qed.

Lemma section_ok sec : sec ∈ sections s → sectionOk kKnownSettingsKeys sec.
Proof.
  intros Hin. destruct texts_plain as [_ Ht]. rewrite Forall_forall in Ht. specialize (Ht sec Hin).
  apply list_elem_of_lookup in Hin as [i Hi]. destruct (Forall2_lookup_l _ _ _ _ _ sections_shapes Hi) as (sh & Hsh & Hn & Hm).
  destruct shapes_known as (Hk & _). rewrite Forall_forall in Hk. destruct (Hk sh (list_elem_of_lookup_2 _ _ _ Hsh)) as (K1 & K2 & K3).
  split; [by rewrite Hn|]. rewrite Forall_forall in *. intros ms Hms. apply (members_tame ms sh.2); auto.
Qed.

Lemma sections_ok l : l ⊆ sections s → Forall (sectionOk kKnownSettingsKeys) l.
Proof. intros Hl. apply Forall_forall. intros sec Hin. by apply section_ok, Hl. Qed.

Lemma document_text : exportText version s = flat (documentAtoms (header version) (sections s)).
Proof.
  unfold exportText. destruct (sections s) as [|s1 l] eqn:E; [done|]. pose proof header_tame as Hh. unfold header in *.
  rewrite flat_document with (keys := kKnownSettingsKeys); [done|exact names_plain|exact Hh|]. rewrite <- E. by apply sections_ok.
Qed.

(** A section at its place in the document. *)
Lemma section_split i sec : sections s !! i = Some sec → ∃ l1 l2, sections s = l1 ++ sec :: l2 ∧
  Forall (sectionOk kKnownSettingsKeys) l1 ∧ Forall (sectionOk kKnownSettingsKeys) l2 ∧ sectionOk kKnownSettingsKeys sec ∧
  apartFrom (header version) l1 (sectionName sec) ∧ forallb (λ x, negb ((x =? 91) || (x =? 123))) (sectionName sec) = true.
Proof.
  intros Hi. pose proof (take_drop_middle _ _ _ Hi) as E. exists (take i (sections s)), (drop (S i) (sections s)). split; [by rewrite E|].
  destruct (Forall2_lookup_l _ _ _ _ _ sections_shapes Hi) as ([name ks] & Hsh & Hn & _).
  split_and!.
  - apply sections_ok, subseteq_take.
  - apply sections_ok, subseteq_drop.
  - apply section_ok. by eapply list_elem_of_lookup_2.
  - destruct (apart_at shapes headNames i name ks shapes_apart Hsh) as [Hh Hb]. cbn [fst] in Hn. rewrite Hn. split; [exact Hh|].
    exact (shapes_names name _ _ (Forall2_take _ _ _ i sections_shapes) Hb).
  - destruct shapes_known as (_ & _ & _ & Hb). rewrite Forall_forall in Hb. rewrite Hn. apply (Hb (name, ks)). by eapply list_elem_of_lookup_2.
Qed.

Lemma object_in_document i name ms : sections s !! i = Some (SecObject name ms) →
  ∃ seg, sectionAt 123 name (exportText version s) = Some seg ∧ reads seg ms.
Proof.
  intros Hi. destruct (section_split i _ Hi) as (l1 & l2 & E & H1 & H2 & H3 & H4 & H5). rewrite document_text, E.
  apply (section_reads kKnownSettingsKeys names_plain); [exact header_tame|done..].
Qed.

Lemma list_in_document {A} i name key (read : bytes → option A) (mem : A → list (bytes * Value)) es : sections s !! i = Some (SecArray name (mem <$> es)) →
  key ∈ kKnownSettingsKeys → Forall (λ e, (∃ v ms, mem e = (key, v) :: ms) ∧ ∀ seg, reads seg (mem e) → read seg = Some e) es →
  ∃ seg, sectionAt 91 name (exportText version s) = Some seg ∧ entriesOf key read (S (length seg)) (jsonFindArrayEnd seg 0) seg = Done es.
Proof.
  intros Hi Hk He. destruct (section_split i _ Hi) as (l1 & l2 & E & H1 & H2 & H3 & H4 & H5). rewrite document_text, E.
  apply (list_reads kKnownSettingsKeys names_plain); [exact header_tame|done..].
Qed.

(** The marker at the head. *)
Lemma format_in_document : jsonGetStr (exportText version s) (lit "format") = lit "dhcpserver-settings".
Proof.
  rewrite document_text. unfold jsonGetStr. set (l := documentAtoms _ _). rewrite <- (app_nil_r (flat l)).
  assert (Hl : Forall fine l).
  { unfold l, documentAtoms. rewrite !Forall_app. split; [by apply (head_fine kKnownSettingsKeys names_plain), header_tame|].
    pose proof (sections_ok (sections s) (reflexivity _)) as Hs. split; [|constructor; [by apply text_fine|constructor]].
    destruct Hs as [|sec secs Hsec Hs]; [constructor|]. apply Forall_app. split; [by apply (section_fine kKnownSettingsKeys names_plain)|].
    by apply (tailAtoms_fine kKnownSettingsKeys names_plain). }
  assert (Ek : plainKey (lit "format")) by (apply (key_plain kKnownSettingsKeys names_plain); apply (bool_decide_unpack _); vm_compute; exact I).
  erewrite (valueAt_flat (lit "format") l [] []) by (exact Ek || exact Hl || reflexivity).
  reflexivity.
Qed.

End Document.

(** ** The sections, read *)

(** What a section is after the restore: [c] from the backup, [t] on the device. *)
Definition restoredDhcp (c t : Dhcp.DhcpConfig) : Dhcp.DhcpConfig :=
  Dhcp.mk (Dhcp.enabled c) (Dhcp.serverIp c) (Dhcp.startIp c) (Dhcp.endIp c) (Dhcp.subnet c) (Dhcp.gateway c) (Dhcp.leaseTimeSec c)
    (Dhcp.maxLeaseEntries c) (Dhcp.allowOnly c) (Dhcp.logTerminal c) (Dhcp.logFile c) (Dhcp.logFileSize c) (Dhcp.dnsMode c) (Dhcp.dnsAddress c)
    (Dhcp.logRest c) (Dhcp.logUrl c) (Dhcp.logAuthEnabled c) (Dhcp.logAuthUser c) (Dhcp.logAuthPassword t).
Definition restoredDns (c t : Dns.DnsConfig) : Dns.DnsConfig :=
  Dns.mk (Dns.enabled c) (Dns.externalDns c) (Dns.logTerminal c) (Dns.logForwarded c) (Dns.logLocal c) (Dns.logCache c) (Dns.logRestSent c) (Dns.logRest c)
    (Dns.logUrl c) (Dns.logFile c) (Dns.logFileForwarded c) (Dns.logFileSize c) (Dns.logAuthEnabled c) (Dns.logAuthUser c) (Dns.logAuthPassword t)
    (Dns.cacheRest c) (Dns.cacheRestRead c) (Dns.cacheRestWrite c) (Dns.cacheUrl c) (Dns.cacheAuthEnabled c) (Dns.cacheAuthUser c) (Dns.cacheAuthPassword t)
    (Dns.cacheInternal c) (Dns.cacheInternalSizeMb c) (Dns.cacheInternalIgnoreTtl c) (Dns.cacheInternalSaveStats c) (Dns.cacheInternalSaveCache c)
    (Dns.cacheInternalAutosave c) (Dns.cacheInternalAutosavePeriod c) (Dns.cacheInternalAutosaveInterval c) (Dns.statsAutosave c) (Dns.statsAutosavePeriod c)
    (Dns.statsAutosaveInterval c) (Dns.cacheInternalAutoUpdate c) (Dns.cacheInternalAutoUpdatePeriod c) (Dns.cacheInternalAutoUpdateInterval c)
    (Dns.cacheInternalAutoUpdateBatch c) (Dns.cacheInternalAutoUpdatePause c) (Dns.cacheInternalFileMd5 t) (Dns.blockForwardNonAA c) (Dns.allowOwnSubnet c).
Definition restoredTime (c t : Time.TimeConfig) : Time.TimeConfig :=
  Time.mk (Time.enabled c) (Time.syncEnabled c) (Time.externalNtp c) (Time.timezone c) (Time.utcOffsetHours c) (Time.syncIntervalSec c) (Time.allowOwnSubnet c)
    (Time.rateLimitPerSec c) (Time.onlyAllowedComputers c) (Time.logTerminal c) (Time.logRest c) (Time.logFile c) (Time.logFileSize c) (Time.logUrl c)
    (Time.logAuthEnabled c) (Time.logAuthUser c) (Time.logAuthPassword t).
Definition restoredSecurity (c t : Security.SecurityConfig) : Security.SecurityConfig :=
  Security.mk (Security.username c) (Security.password t) (Security.maxAttempts c) (Security.lockoutPeriodSec c) (Security.logAuth c) (Security.logFileSize c)
    (Security.httpsEnabled c) (Security.certStorage c) (Security.certName c).

Lemma takeSize_normal seg z cur : jsonGetInt seg (lit "log_file_size") 0 = z → u32 (LogFileSizes.logFileSizeOrDefault (Config.i32 z)) = z → takeSize seg cur = z.
Proof.
  intros E Hn. unfold takeSize. rewrite E. destruct (size_taken z Hn) as [_ Hv]. rewrite Hv.
  pose proof (size_cases (Config.i32 z)) as Hz. rewrite <- Hn. revert Hz. generalize (LogFileSizes.logFileSizeOrDefault (Config.i32 z)).
  intros x Hx. unfold LogFileSizes.kLogFileSizes in Hx. repeat (apply elem_of_cons in Hx as [-> | Hx]; [reflexivity|]). by apply elem_of_nil in Hx.
Qed.

Ltac section_read Hr := destruct Hr as (RS & RB & RN & RH); cbv zeta; read_members RS RB RN; rewrite ?orElse_given by done.

Lemma dhcp_imported seg c t : reads seg (dhcpSection c) → Dhcp.norm c = c → dhcpComplete c → importDhcp seg t = restoredDhcp c t.
Proof.
  intros Hr Hn (H1 & H2 & H3 & H4 & H5 & Hm). unfold importDhcp.
  pose proof (f_equal Dhcp.leaseTimeSec Hn) as El. pose proof (f_equal Dhcp.maxLeaseEntries Hn) as Ee. pose proof (f_equal Dhcp.logFileSize Hn) as Es.
  cbn [Dhcp.norm Dhcp.leaseTimeSec Dhcp.maxLeaseEntries Dhcp.logFileSize] in El, Ee, Es.
  assert (Ep : postedMaxEntries (Dhcp.maxLeaseEntries c) = Dhcp.maxLeaseEntries c) by (rewrite <- Ee; apply entries_normal).
  section_read Hr. rewrite (takeSize_normal seg (Dhcp.logFileSize c)) by (first [exact Es|apply RN; written]). rewrite El, Ep.
  assert (Eb : (if bytes_eqb (Dhcp.dnsMode c) (lit "manual") || bytes_eqb (Dhcp.dnsMode c) (lit "auto") then Dhcp.dnsMode c else Dhcp.dnsMode t) = Dhcp.dnsMode c)
    by by destruct Hm as [-> | ->].
  by rewrite Eb.
Qed.

Lemma dns_imported seg c t : reads seg (dnsSection c) → Dns.norm c = c → Dns.externalDns c ≠ [] → importDns seg t = restoredDns c t.
Proof.
  intros Hr Hn H1. unfold importDns, postedPeriod, postedInterval. section_read Hr.
  pose proof (f_equal Dns.logFileSize Hn) as Es. pose proof (f_equal Dns.cacheInternalSizeMb Hn) as Em.
  pose proof (f_equal Dns.cacheInternalAutosaveInterval Hn) as Ea. pose proof (f_equal Dns.statsAutosaveInterval Hn) as Et.
  pose proof (f_equal Dns.cacheInternalAutoUpdateInterval Hn) as Eu. pose proof (f_equal Dns.cacheInternalAutoUpdateBatch Hn) as Eb.
  pose proof (f_equal Dns.cacheInternalAutoUpdatePause Hn) as Ep.
  cbn [Dns.norm Dns.logFileSize Dns.cacheInternalSizeMb Dns.cacheInternalAutosaveInterval Dns.statsAutosaveInterval Dns.cacheInternalAutoUpdateInterval
    Dns.cacheInternalAutoUpdateBatch Dns.cacheInternalAutoUpdatePause] in Es, Em, Ea, Et, Eu, Eb, Ep.
  assert (Hm : 1 <= Dns.cacheInternalSizeMb c <= 20) by (rewrite <- Em; apply mb_cases).
  rewrite (takeSize_normal seg (Dns.logFileSize c)) by (first [exact Es|apply RN; written]).
  rewrite !Config.period_back, Ea, Et, Eu, mb_fixed, (u32_small (Dns.cacheInternalSizeMb c)) by (lia || word_lia).
  rewrite batch_fixed by (rewrite <- Eb; apply batch_cases). rewrite pause_fixed by (rewrite <- Ep; apply pause_cases). reflexivity.
Qed.

Lemma time_imported seg c t : reads seg (timeSection c) → Time.norm c = c → timeComplete c → importTime seg t = restoredTime c t.
Proof.
  intros Hr Hn (H1 & H2 & H3 & H4 & H5 & H6). unfold importTime. section_read Hr.
  pose proof (f_equal Time.logFileSize Hn) as Es. pose proof (f_equal Time.rateLimitPerSec Hn) as Er.
  cbn [Time.norm Time.logFileSize Time.rateLimitPerSec] in Es, Er.
  assert (Hr' : 1 <= Time.rateLimitPerSec c <= 100) by (rewrite <- Er; apply rate_cases).
  assert (H6' : 0 <= Time.syncIntervalSec c < 2 ^ 31) by (unfold kMinSyncIntervalSec, kMaxSyncIntervalSec in H6; lia).
  rewrite (takeSize_normal seg (Time.logFileSize c)) by (first [exact Es|apply RN; written]).
  rewrite H2, orElse_given, take_ge by done. rewrite !clampTo_fixed by (done || lia). rewrite (u32_small (Time.rateLimitPerSec c)), (u32_small (Time.syncIntervalSec c)) by word_lia. reflexivity.
Qed.

Lemma ssh_imported seg c t : reads seg (sshSection c) → Ssh.norm c = c → importSsh seg t = (c, []).
Proof.
  intros Hr Hn. unfold importSsh. section_read Hr.
  pose proof (f_equal Ssh.logFileSize Hn) as Es. pose proof (f_equal Ssh.port Hn) as Ep. cbn [Ssh.norm Ssh.logFileSize Ssh.port] in Es, Ep.
  rewrite (takeSize_normal seg (Ssh.logFileSize c)) by (first [exact Es|apply RN; written]).
  assert (Hv : Config.sshPortValid (Ssh.port c) = true ∧ u16 (Ssh.port c) = Ssh.port c).
  { unfold Config.sshPortOrDefault in Ep. destruct (Config.sshPortValid (Ssh.port c)) eqn:E; [by split|]. by rewrite <- Ep in E. }
  destruct Hv as [-> ->]. by destruct c.
Qed.

Lemma device_log_imported seg c t : reads seg [(lit "log_file", VBool (DeviceLog.logFile c)); (lit "log_file_size", VNum (DeviceLog.logFileSize c))] →
  DeviceLog.norm c = c → importDeviceLog seg t = c.
Proof.
  intros Hr Hn. unfold importDeviceLog. section_read Hr. pose proof (f_equal DeviceLog.logFileSize Hn) as Es. cbn [DeviceLog.norm DeviceLog.logFileSize] in Es.
  rewrite (takeSize_normal seg (DeviceLog.logFileSize c)) by (first [exact Es|apply RN; written]). by destruct c.
Qed.

Lemma security_imported seg c t : reads seg (securitySection c) → Security.norm c = c → Security.username c ≠ [] → Config.isValidHostName (Security.certName c) = true →
  importSecurity seg t = (with_storage (Security.certStorage t) (with_https (Security.httpsEnabled t) (restoredSecurity c t)), []).
Proof.
  intros Hr Hn H1 H2. unfold importSecurity. section_read Hr.
  pose proof (f_equal Security.logFileSize Hn) as Es. pose proof (f_equal Security.maxAttempts Hn) as Ea. pose proof (f_equal Security.lockoutPeriodSec Hn) as El.
  cbn [Security.norm Security.logFileSize Security.maxAttempts Security.lockoutPeriodSec] in Es, Ea, El.
  rewrite (takeSize_normal seg (Security.logFileSize c)) by (first [exact Es|apply RN; written]). rewrite Ea, El, H2.
  rewrite bool_decide_false by by intros E; rewrite E in H2. reflexivity.
Qed.

(** What was read from the store is as the store gives it. *)
Section Normal.
Context {N : Type} `{Nvs N}.

Lemma ssh_normal (s : N) : Ssh.norm (Ssh.getSsh s) = Ssh.getSsh s.
Proof.
  unfold Ssh.norm, Ssh.getSsh. cbv zeta. cbn [Ssh.enabled Ssh.port Ssh.allowOwnSubnet Ssh.logFile Ssh.logTerminal Ssh.logFileSize].
  by rewrite size_normal, Config.port_back.
Qed.
Lemma device_log_normal (s : N) : DeviceLog.norm (DeviceLog.getDeviceLog s) = DeviceLog.getDeviceLog s.
Proof. unfold DeviceLog.norm, DeviceLog.getDeviceLog. cbv zeta. cbn [DeviceLog.logFile DeviceLog.logFileSize]. by rewrite size_normal. Qed.

Lemma cert_name_valid (s : N) : Config.isValidHostName (Security.certName (Security.getSecurity s)) = true.
Proof. unfold Security.getSecurity. cbv zeta. cbn [Security.certName]. by destruct (Config.isValidHostName (Config.readStr _ _ s)) eqn:E. Qed.

Lemma security_normal (s : N) : Security.norm (Security.getSecurity s) = Security.getSecurity s.
Proof.
  assert (En : FreeRtosErrorQueue.cText (Security.certName (Security.getSecurity s)) = Security.certName (Security.getSecurity s)).
  { unfold Security.getSecurity. cbv zeta. cbn [Security.certName]. destruct (Config.isValidHostName _); [by apply read_text|reflexivity]. }
  unfold Security.norm. rewrite En, cert_name_valid. unfold Security.getSecurity. cbv zeta.
  cbn [Security.username Security.password Security.maxAttempts Security.lockoutPeriodSec Security.logAuth Security.logFileSize Security.httpsEnabled
    Security.certStorage Security.certName].
  rewrite size_normal, !read_text by done. f_equal; word_lia.
Qed.

(** A host name of the store is one: no blank, no NUL. *)
Lemma host_name_chars name : Config.isValidDeviceHostName name = true → name ≠ [] ∧ Forall (λ c, Config.isBlank c = false ∧ (c =? 0) = false) name.
Proof.
  unfold Config.isValidDeviceHostName. case_bool_decide as Hn; [done|]. cbn [orb]. destruct (Nat.ltb _ _); [done|]. destruct (_ || _); [done|].
  intros Hc. split; [done|]. apply Forall_forall. intros c Hin%list_elem_of_In. rewrite forallb_forall in Hc. apply Hc in Hin. revert Hin.
  unfold Config.isLetter, Config.isDigit, Config.isBlank. destruct (Z.eqb_spec c 32), (Z.eqb_spec c 9), (Z.eqb_spec c 13), (Z.eqb_spec c 10), (Z.eqb_spec c 0); subst; try done.
Qed.

Lemma host_name_plain name : Config.isValidDeviceHostName name = true → Config.trimmedDeviceHostName name = name ∧ FreeRtosErrorQueue.cText name = name.
Proof.
  intros [_ Hc]%host_name_chars. split.
  - unfold Config.trimmedDeviceHostName. apply trim_by_id; [intros c t ->|intros c t ->]; rewrite ?Forall_app, Forall_cons in Hc; naive_solver.
  - induction Hc as [|c name [_ Hz] _ IH]; [done|]. cbn. by rewrite Hz, IH.
Qed.

Lemma host_name_valid (s : N) : Config.isValidDeviceHostName (Config.getHostName s) = true.
Proof. unfold Config.getHostName, Config.deviceHostNameOrDefault. by destruct (Config.isValidDeviceHostName (Config.readStr _ _ s)) eqn:E. Qed.

End Normal.

Lemma dhcp_mixed c t : Dhcp.norm c = c → FreeRtosErrorQueue.cText (Dhcp.logAuthPassword t) = Dhcp.logAuthPassword t →
  Dhcp.norm (restoredDhcp c t) = restoredDhcp c t.
Proof.
  intros Hc Ht. transitivity (restoredDhcp (Dhcp.norm c) (Dhcp.norm t)); [reflexivity|]. rewrite Hc. unfold restoredDhcp. cbn [Dhcp.norm Dhcp.logAuthPassword]. by rewrite Ht.
Qed.
Lemma dns_mixed c t : Dns.norm c = c → Dns.norm t = t → Dns.norm (restoredDns c t) = restoredDns c t.
Proof. intros Hc Ht. transitivity (restoredDns (Dns.norm c) (Dns.norm t)); [reflexivity|by rewrite Hc, Ht]. Qed.
Lemma time_mixed c t : Time.norm c = c → Time.norm t = t → Time.norm (restoredTime c t) = restoredTime c t.
Proof. intros Hc Ht. transitivity (restoredTime (Time.norm c) (Time.norm t)); [reflexivity|by rewrite Hc, Ht]. Qed.
Lemma security_mixed c t : Security.norm c = c → Security.norm t = t → Security.norm (restoredSecurity c t) = restoredSecurity c t.
Proof. intros Hc Ht. transitivity (restoredSecurity (Security.norm c) (Security.norm t)); [reflexivity|by rewrite Hc, Ht]. Qed.

(** ** The steps of the import *)

(** A device whose backup can be restored: its texts are plain, what the pages require is
    there, its lists are as the store keeps them, and the document fits the request. *)
Definition restorable {N} `{Nvs N} (version : bytes) (s : N) : Prop :=
  plainTexts version s ∧ dhcpComplete (Dhcp.getDhcp s) ∧ Dns.externalDns (Dns.getDns s) ≠ [] ∧ timeComplete (Time.getTime s) ∧
  Security.username (Security.getSecurity s) ≠ [] ∧
  Forall (λ b, StaticBindings.bound b = true ∧ StaticBindings.cleanBinding b = b) (getStaticBindings s) ∧
  Forall (λ e, AllowedList.normalizeMac (AllowedList.mac e) ≠ []) (AllowedList.parse (getAllowedComputers s)) ∧
  Forall (λ h, LocalHosts.named h = true ∧ LocalHosts.cleanHost h = h) (getLocalHosts s) ∧
  (length (exportText version s) <= kMaxImportBodyBytes)%nat.

Definition restoreOps {N} `{Nvs N} (s t : N) : list Op :=
  [OSet (Config.CDhcp (restoredDhcp (Dhcp.getDhcp s) (Dhcp.getDhcp t))); OBindings (getStaticBindings s);
   OAllowed (AllowedList.serialize (AllowedList.parse (getAllowedComputers s)));
   OSet (Config.CDns (restoredDns (Dns.getDns s) (Dns.getDns t))); OSet (Config.CTime (restoredTime (Time.getTime s) (Time.getTime t)));
   OHosts (getLocalHosts s); OSet (Config.CSecurity (restoredSecurity (Security.getSecurity s) (Security.getSecurity t)));
   OSet (Config.CFiles (Files.getFiles s)); OSet (Config.CHostName (Config.getHostName s)); OSet (Config.CLocalName (Config.getLocalNameEnabled s));
   OSet (Config.CDeviceLog (DeviceLog.getDeviceLog s)); OSet (Config.CSsh (Ssh.getSsh s))].

(** The store [u] after a restore of the backup of [s] on [t]. *)
Definition restored {N} `{Nvs N} (s t u : N) : Prop :=
  Dhcp.getDhcp u = restoredDhcp (Dhcp.getDhcp s) (Dhcp.getDhcp t) ∧ Dns.getDns u = restoredDns (Dns.getDns s) (Dns.getDns t) ∧
  Time.getTime u = restoredTime (Time.getTime s) (Time.getTime t) ∧ Security.getSecurity u = restoredSecurity (Security.getSecurity s) (Security.getSecurity t) ∧
  Files.getFiles u = Files.getFiles s ∧ Ssh.getSsh u = Ssh.getSsh s ∧ DeviceLog.getDeviceLog u = DeviceLog.getDeviceLog s ∧
  Config.getHostName u = Config.getHostName s ∧ Config.getLocalNameEnabled u = Config.getLocalNameEnabled s ∧
  getStaticBindings u = getStaticBindings s ∧ getLocalHosts u = getLocalHosts s ∧
  getAllowedComputers u = AllowedList.serialize (AllowedList.parse (getAllowedComputers s)).

Lemma kept_list {A} (p : A → bool) (f : A → A) l : Forall (λ a, p a = true ∧ f a = a) l → f <$> List.filter (λ a, p (f a)) l = l.
Proof. induction 1 as [|a l [Hp Hf] _ IH]; [done|]. cbn [List.filter]. rewrite Hf, Hp. cbn [fmap list_fmap]. by rewrite Hf, IH. Qed.

Ltac section_is G ch := let E := fresh "E" in pose proof (G ch ltac:(written)) as E; cbn [Config.get Config.norm] in E; congruence.

Lemma ops_restored {N} `{NvsBlobLaws N} version (s t : N) : restorable version s → (opsRun (restoreOps s t) t).1 = true → restored s t (opsRun (restoreOps s t) t).2.
Proof.
  intros (_ & Hd & _ & Ht & _ & Hb & _ & Hh & _) Hok. set (ops := restoreOps s t) in *.
  assert (Hn : NoDup (kind <$> ops)) by (apply (bool_decide_unpack _); vm_compute; exact I).
  assert (G : ∀ ch, OSet ch ∈ ops → Config.get ch (opsRun ops t).2 = Config.norm ch).
  { intros ch Hin. destruct (ops_at ops (OSet ch) t Hn Hin Hok) as (s1 & Hs & [Ha _]). rewrite (Config.get_agree ch _ _ Ha). by apply Config.set_back. }
  assert (At : ∀ op, op ∈ ops → ∃ s1, (opRun op s1).1 = true ∧ sameKeys (keysOf op) (opsRun ops t).2 (opRun op s1).2) by (intros op Hin; by apply ops_at).
  assert (Hdm : Dhcp.dnsMode (Dhcp.getDhcp s) ≠ []) by (destruct Hd as (_ & _ & _ & _ & _ & [-> | ->]); done).
  assert (Hpw : FreeRtosErrorQueue.cText (Dhcp.logAuthPassword (Dhcp.getDhcp t)) = Dhcp.logAuthPassword (Dhcp.getDhcp t)) by by apply read_text.
  destruct (host_name_plain _ (host_name_valid s)) as [Ht1 Ht2].
  split_and!.
  - rewrite <- (dhcp_mixed _ _ (dhcp_normal s Hdm) Hpw). section_is G (Config.CDhcp (restoredDhcp (Dhcp.getDhcp s) (Dhcp.getDhcp t))).
  - rewrite <- (dns_mixed _ _ (dns_normal s) (dns_normal t)). section_is G (Config.CDns (restoredDns (Dns.getDns s) (Dns.getDns t))).
  - rewrite <- (time_mixed _ _ (time_normal s) (time_normal t)). section_is G (Config.CTime (restoredTime (Time.getTime s) (Time.getTime t))).
  - rewrite <- (security_mixed _ _ (security_normal s) (security_normal t)).
    section_is G (Config.CSecurity (restoredSecurity (Security.getSecurity s) (Security.getSecurity t))).
  - transitivity (Files.norm (Files.getFiles s)); [section_is G (Config.CFiles (Files.getFiles s))|by destruct (Files.getFiles s)].
  - rewrite <- (ssh_normal s). section_is G (Config.CSsh (Ssh.getSsh s)).
  - rewrite <- (device_log_normal s). section_is G (Config.CDeviceLog (DeviceLog.getDeviceLog s)).
  - transitivity (Config.deviceHostNameOrDefault (FreeRtosErrorQueue.cText (Config.trimmedDeviceHostName (Config.getHostName s))));
      [section_is G (Config.CHostName (Config.getHostName s))|]. rewrite Ht1, Ht2. unfold Config.deviceHostNameOrDefault. by rewrite host_name_valid.
  - section_is G (Config.CLocalName (Config.getLocalNameEnabled s)).
  - destruct (At (OBindings (getStaticBindings s)) ltac:(written)) as (s1 & Hs & E). unfold getStaticBindings at 1. rewrite (readBlob_same _ _ _ E).
    rewrite <- (kept_list StaticBindings.bound StaticBindings.cleanBinding (getStaticBindings s) Hb) at 2. exact (list_back _ _ _ s1 Hs).
  - destruct (At (OHosts (getLocalHosts s)) ltac:(written)) as (s1 & Hs & E). unfold getLocalHosts at 1. rewrite (readBlob_same _ _ _ E).
    rewrite <- (kept_list LocalHosts.named LocalHosts.cleanHost (getLocalHosts s) Hh) at 2. exact (list_back _ _ _ s1 Hs).
  - destruct (At (OAllowed (AllowedList.serialize (AllowedList.parse (getAllowedComputers s)))) ltac:(written)) as (s1 & Hs & E).
    unfold getAllowedComputers at 1. rewrite (readBlob_same _ _ _ E). exact (allowed_back _ s1 Hs).
Qed.

Section Steps.
Context {S N K : Type} `{Posix S} `{Volumes S} `{Crypto K} `{NvsBlobLaws N} (errnoText : Errno → bytes) (env : Env) (version : bytes) (s : N) (d : Device S N).
Abbreviation Progress := (Progress S N).
Abbreviation t := (store d).
Abbreviation doc := (exportText version s).
Hypothesis can : restorable version s.

(** The device differs from [d] by what the operations wrote. *)
Definition after (ops : list Op) (p : Progress) : Prop := web (dev p) = WebServer.set_nvs (opsRun ops t).2 (web d).

Lemma after_store ops p : after ops p → store (dev p) = (opsRun ops t).2.
Proof. unfold after, store. by intros ->. Qed.

Lemma after_op ops op p p' : after ops p → web (dev p') = WebServer.set_nvs (opRun op (store (dev p))).2 (web (dev p)) → after (ops ++ [op]) p'.
Proof. intros Ha E. unfold after. rewrite opsRun_snoc, E, (after_store ops p Ha), Ha. reflexivity. Qed.

Lemma after_get ops ch p : after ops p → Config.sectionOf ch ∉ kind <$> ops → Config.get ch (store (dev p)) = Config.get ch t.
Proof. intros Ha Hk. rewrite (after_store ops p Ha). apply Config.get_agree. by apply (ops_other ops (OSet ch)). Qed.

Lemma web_when part f (b : Device S N) : web (f b) = web b → web (when env part f b) = web b.
Proof. unfold when. by destruct (wired env part). Qed.

Lemma web_dhcp_live c (b : Device S N) : web (applyDhcpSettingsLive env c b) = web b.
Proof. by apply web_when. Qed.
Lemma web_dhcp_running c ready reload (b : Device S N) : web (applyDhcpRunning env c ready reload b).2 = web b.
Proof. unfold applyDhcpRunning, startService. by destruct (wired env PDhcp), (Dhcp.enabled c), (on b SDhcp), ready, reload. Qed.
Lemma web_dns_live c (b : Device S N) : web (applyDnsSettingsLive env c b) = web b.
Proof. apply web_when. by rewrite web_when. Qed.
Lemma web_dns_running c (b : Device S N) : web (applyDnsRunning env c b) = web b.
Proof. apply web_when. repeat case_match; done. Qed.
Lemma web_time_live c (b : Device S N) : web (applyTimeSettingsLive env c b) = web b.
Proof. by apply web_when. Qed.
Lemma web_time_running c (b : Device S N) : web (applyTimeRunning env c b) = web b.
Proof. apply web_when. cbv beta zeta. unfold startService, stopService. destruct (Time.syncEnabled c), (Time.enabled c), (on b SSync); cbn [negb andb]; repeat case_match; reflexivity. Qed.
Lemma web_ssh_live (b : Device S N) : web (applySshLive env b).2 = web b.
Proof. unfold applySshLive, startService. repeat case_match; done. Qed.
Lemma web_local_name (b : Device S N) : web (applyLocalNameLive env b).2 = web b.
Proof.
  unfold applyLocalNameLive, startService, when. cbv zeta. destruct (wired env PDns), (wired env PMdns), (wired env PSsdp), (Config.getLocalNameEnabled (store b)); cbn;
    repeat case_match; by simplify_eq.
Qed.

(** The services are started from the store and leave it alone. *)
Lemma web_services (p : Progress) : web (dev (startServices env p)) = web (dev p).
Proof.
  unfold startServices. cbv zeta.
  set (p1 := onDev _ p). assert (E1 : web (dev p1) = web (dev p)) by apply web_dhcp_running.
  set (p2 := onDev _ p1). assert (E2 : web (dev p2) = web (dev p)).
  { rewrite <- E1. cbn [p2 onDev dev]. etransitivity; [apply web_when|reflexivity]. cbv beta. rewrite web_dns_live. apply web_dns_running. }
  set (p3 := onDev _ p2). assert (E3 : web (dev p3) = web (dev p)) by (rewrite <- E2; apply web_time_running).
  set (p4 := if bool_decide (lit "device" ∈ imported p3) then _ else p3).
  assert (E4 : web (dev p4) = web (dev p)).
  { unfold p4. case_bool_decide; [|exact E3]. rewrite <- E3. pose proof (web_local_name (dev p3)) as El.
    destruct (applyLocalNameLive env (dev p3)) as [[] d']; exact El. }
  case_bool_decide; [|exact E4]. rewrite <- E4. pose proof (web_ssh_live (ask (sshLogCalls (Ssh.getSsh (store (dev p4)))) (dev p4))) as E5.
  destruct (applySshLive env _) as [[] d']; exact E5.
Qed.

Lemma importList_web name warning set reload (p : Progress) : (∀ b, web (reload b) = web b) →
  web (dev (importList name warning set reload p)) = WebServer.set_nvs (set (store (dev p))).2 (web (dev p)).
Proof. intros Hr. unfold importList. destruct (set (store (dev p))) as [[] s1]; cbn; [by rewrite Hr|done]. Qed.

Lemma array_step {A} i name key read (mem : A → list (bytes * Value)) es (f : list A → Progress → Progress) p :
  sections s !! i = Some (SecArray name (mem <$> es)) → key ∈ kKnownSettingsKeys →
  Forall (λ e, (∃ v ms, mem e = (key, v) :: ms) ∧ ∀ seg, reads seg (mem e) → read seg = Some e) es → withArray name key doc read f p = Done (f es p).
Proof.
  intros Hi Hk He. destruct (list_in_document version s (proj1 can) i name key read mem es Hi Hk He) as (seg & E & El). unfold withArray. by rewrite E, El.
Qed.

Lemma step_bindings ops p : after ops p → ∃ p', importBindings env doc p = Done p' ∧ after (ops ++ [OBindings (getStaticBindings s)]) p'.
Proof.
  intros Ha. eexists. split; [apply (array_step 1 _ _ _ bindingMembers (getStaticBindings s)); [reflexivity|apply (bool_decide_unpack _); vm_compute; exact I|]|].
  - pose proof can as (_ & _ & _ & _ & _ & Hb & _). eapply Forall_impl; [exact Hb|]. intros b [Hbd _]. split; [by eexists _, _|]. intros seg Hr.
    unfold bindingRead, bindingAt. section_read Hr. destruct b.
    cbn [StaticBindings.mac StaticBindings.ip StaticBindings.name StaticBindings.gateway StaticBindings.useGateway StaticBindings.enabled StaticBindings.useDns]. by rewrite Hbd.
  - eapply after_op; [exact Ha|]. apply importList_web. intros b. by apply web_when.
Qed.

Lemma step_hosts ops p : after ops p → ∃ p', importHosts env doc p = Done p' ∧ after (ops ++ [OHosts (getLocalHosts s)]) p'.
Proof.
  intros Ha. eexists. split; [apply (array_step 5 _ _ _ hostMembers (getLocalHosts s)); [reflexivity|apply (bool_decide_unpack _); vm_compute; exact I|]|].
  - pose proof can as (_ & _ & _ & _ & _ & _ & _ & Hh & _). eapply Forall_impl; [exact Hh|]. intros h [Hn _]. split; [by eexists _, _|]. intros seg Hr.
    unfold hostRead. section_read Hr. destruct h. cbn [DnsServer.hName DnsServer.hIp4 DnsServer.hIp6 DnsServer.hEnabled]. by rewrite Hn.
  - eapply after_op; [exact Ha|]. apply importList_web. intros b. by apply web_when.
Qed.

Lemma step_allowed ops p : after ops p →
  ∃ p', importAllowed env doc p = Done p' ∧ after (ops ++ [OAllowed (AllowedList.serialize (AllowedList.parse (getAllowedComputers s)))]) p'.
Proof.
  intros Ha. eexists.
  split; [apply (array_step 2 _ _ _ computerMembers (AllowedList.parse (getAllowedComputers s))); [reflexivity|apply (bool_decide_unpack _); vm_compute; exact I|]|].
  - pose proof can as (_ & _ & _ & _ & _ & _ & Hc & _). eapply Forall_impl; [exact Hc|]. intros e Hm. split; [by eexists _, _|]. intros seg Hr.
    unfold computerRead, computerAt. section_read Hr. destruct e. cbn [AllowedList.mac AllowedList.name AllowedList.enabled] in *. by rewrite bool_decide_false.
  - eapply after_op; [exact Ha|]. cbn [opRun]. set (text := AllowedList.serialize _). destruct (Nat.ltb_spec kMaxAllowedBytes (length text)) as [Hl|Hl].
    + unfold setAllowedComputers. rewrite bool_decide_false by (intros E; rewrite E in Hl; cbn in Hl; unfold kMaxAllowedBytes in Hl; lia).
      rewrite (proj2 (Nat.ltb_lt _ _) Hl). cbn [warn dev snd]. unfold store. by destruct (web (dev p)).
    + apply importList_web. intros b. by apply web_when.
Qed.

(** One section that is an object: what it saves is an operation. *)
Lemma object_step i name ms f ops op (p : Progress) : sections s !! i = Some (SecObject name ms) → after ops p →
  (∀ seg, reads seg ms → web (dev (f seg p)) = WebServer.set_nvs (opRun op (store (dev p))).2 (web (dev p))) →
  after (ops ++ [op]) (withObject name doc f p).
Proof.
  intros Hi Ha Hf. destruct (object_in_document version s (proj1 can) i name ms Hi) as (seg & E & Hr). unfold withObject. rewrite E.
  apply (after_op ops op p); [exact Ha|by apply Hf].
Qed.

Lemma step_dhcp ops p : after ops p → 3%nat ∉ kind <$> ops →
  after (ops ++ [OSet (Config.CDhcp (restoredDhcp (Dhcp.getDhcp s) (Dhcp.getDhcp t)))]) (importDhcpSection env doc p).
Proof.
  intros Ha Hk. pose proof can as (_ & Hc & _). pose proof (after_get ops (Config.CDhcp (Dhcp.getDhcp s)) p Ha Hk) as Eg. cbn [Config.get] in Eg.
  assert (Hm : Dhcp.dnsMode (Dhcp.getDhcp s) ≠ []) by (destruct Hc as (_ & _ & _ & _ & _ & [-> | ->]); done).
  eapply (object_step 0); [reflexivity|exact Ha|]. intros seg Hr. rewrite (dhcp_imported seg _ _ Hr (dhcp_normal s Hm) Hc).
  assert (Dhcp.getDhcp (store (dev p)) = Dhcp.getDhcp t) as -> by congruence. cbn [mark onDev dev]. rewrite web_when, web_dhcp_live by done. reflexivity.
Qed.

Lemma step_dns ops p : after ops p → 4%nat ∉ kind <$> ops →
  after (ops ++ [OSet (Config.CDns (restoredDns (Dns.getDns s) (Dns.getDns t)))]) (importDnsSection doc p).
Proof.
  intros Ha Hk. pose proof can as (_ & _ & Hc & _). pose proof (after_get ops (Config.CDns (Dns.getDns s)) p Ha Hk) as Eg. cbn [Config.get] in Eg.
  eapply (object_step 3); [reflexivity|exact Ha|]. intros seg Hr. rewrite (dns_imported seg _ _ Hr (dns_normal s) Hc).
  assert (Dns.getDns (store (dev p)) = Dns.getDns t) as -> by congruence. reflexivity.
Qed.

Lemma step_time ops p : after ops p → 6%nat ∉ kind <$> ops →
  after (ops ++ [OSet (Config.CTime (restoredTime (Time.getTime s) (Time.getTime t)))]) (importTimeSection env doc p).
Proof.
  intros Ha Hk. pose proof can as (_ & _ & _ & Hc & _). pose proof (after_get ops (Config.CTime (Time.getTime s)) p Ha Hk) as Eg. cbn [Config.get] in Eg.
  eapply (object_step 4); [reflexivity|exact Ha|]. intros seg Hr. rewrite (time_imported seg _ _ Hr (time_normal s) Hc).
  assert (Time.getTime (store (dev p)) = Time.getTime t) as -> by congruence. cbn [mark onDev dev]. rewrite web_time_live. reflexivity.
Qed.

(** The web server already serves what the backup asks for, and the pair is on the volume
    it names; the network interface takes the host name. *)
Definition fitsDevice : Prop :=
  (wired env PWeb = true → WebServer.serving (web d) = Security.httpsEnabled (Security.getSecurity s)) ∧
  Security.certStorage (Security.getSecurity t) = Security.certStorage (Security.getSecurity s) ∧
  wired env PWifi = true ∧ takesHostName env (Config.getHostName s) = true.
Hypothesis fit : fitsDevice.

Lemma volume_same st c (w : WebServer.World S N) : Security.certStorage c = st → importVolume (CertStore.certStorageName st) c w = (c, [], w).
Proof.
  intros Hc. unfold importVolume. rewrite bool_decide_false by by destruct st.
  assert (CertStore.certStorageFromName (CertStore.certStorageName st) = Some st) as -> by by destruct st. by rewrite bool_decide_true.
Qed.

Lemma step_security sslOk now ops p : after ops p → 5%nat ∉ kind <$> ops →
  after (ops ++ [OSet (Config.CSecurity (restoredSecurity (Security.getSecurity s) (Security.getSecurity t)))]) (importSecuritySection errnoText env doc sslOk now p).
Proof.
  intros Ha Hk. pose proof can as (_ & _ & _ & _ & Hu & _). destruct fit as (Hw & Hv & _).
  pose proof (after_get ops (Config.CSecurity (Security.getSecurity s)) p Ha Hk) as Eg. cbn [Config.get] in Eg.
  eapply (object_step 6); [reflexivity|exact Ha|]. intros seg Hr.
  rewrite (security_imported seg _ _ Hr (security_normal s) Hu (cert_name_valid s)). destruct Hr as (RS & RB & RN & RH). cbn iota beta. read_members RS RB RN.
  assert (Security.getSecurity (store (dev p)) = Security.getSecurity t) as -> by congruence.
  assert (Hs : wired env PWeb && negb (Bool.eqb (Security.httpsEnabled (Security.getSecurity s)) (WebServer.serving (web (dev p)))) = false).
  { destruct (wired env PWeb) eqn:Ew; [|done]. rewrite Ha. change (WebServer.serving (WebServer.set_nvs ?n ?w)) with (WebServer.serving w).
    rewrite Hw by done. by destruct (Security.httpsEnabled _). }
  unfold importHttps. rewrite Hs. cbn iota beta. rewrite volume_same by exact Hv. cbn iota beta.
  assert (Ec : with_https (Security.httpsEnabled (Security.getSecurity s)) (with_storage (Security.certStorage (Security.getSecurity t))
      (with_https (Security.httpsEnabled (Security.getSecurity t)) (restoredSecurity (Security.getSecurity s) (Security.getSecurity t)))) =
    restoredSecurity (Security.getSecurity s) (Security.getSecurity t)) by (rewrite Hv; reflexivity).
  rewrite Ec. cbn [mark warn onDev dev]. change (web (ask ?c ?b)) with (web b). rewrite web_when by done. unfold save, store, with_web, with_store. by destruct (web (dev p)).
Qed.

Lemma step_files ops p : after ops p → after (ops ++ [OSet (Config.CFiles (Files.getFiles s))]) (importFilesSection env doc p).
Proof.
  intros Ha. eapply (object_step 7); [reflexivity|exact Ha|]. intros seg (RS & RB & RN & RH). cbv zeta. read_members RS RB RN.
  cbn [mark onDev dev]. rewrite web_when by done. by destruct (Files.getFiles s).
Qed.

Lemma step_device ops p : after ops p →
  after (ops ++ [OSet (Config.CHostName (Config.getHostName s)); OSet (Config.CLocalName (Config.getLocalNameEnabled s))]) (importDeviceSection env doc p).
Proof.
  intros Ha. destruct fit as (_ & _ & Hw & Hn). destruct (host_name_plain _ (host_name_valid s)) as [Ht _]. pose proof (host_name_valid s) as Hv.
  destruct (host_name_chars _ Hv) as [Hne _].
  assert (Hh : after (ops ++ [OSet (Config.CHostName (Config.getHostName s))]) (importHostName env (Config.getHostName s) p)).
  { unfold importHostName. rewrite bool_decide_false, Hv, Hw, Hn by done. cbn [negb andb]. eapply after_op; [exact Ha|reflexivity]. }
  change [?a; ?b] with ([a] ++ [b]). rewrite app_assoc. unfold importDeviceSection, withObject.
  destruct (object_in_document version s (proj1 can) 8 _ _ eq_refl) as (seg & E & RS & RB & RN & RH). rewrite E. cbv zeta.
  erewrite (RH (lit "local_name")) by written. erewrite (RS (lit "hostname")) by written. rewrite Ht.
  eapply after_op; [exact Hh|]. cbn [mark onDev dev]. by erewrite (RB (lit "local_name")) by written.
Qed.

Lemma step_device_log ops p : after ops p → after (ops ++ [OSet (Config.CDeviceLog (DeviceLog.getDeviceLog s))]) (importDeviceLogSection doc p).
Proof.
  intros Ha. eapply (object_step 10); [reflexivity|exact Ha|]. intros seg Hr. by rewrite (device_log_imported seg _ _ Hr (device_log_normal s)).
Qed.

Lemma step_ssh ops p : after ops p → after (ops ++ [OSet (Config.CSsh (Ssh.getSsh s))]) (importSshSection env doc p).
Proof.
  intros Ha. eapply (object_step 9); [reflexivity|exact Ha|]. intros seg Hr. rewrite (ssh_imported seg _ _ Hr (ssh_normal s)).
  cbn [mark warn onDev dev]. by rewrite web_when.
Qed.

(** The whole import makes the writes of [restoreOps]. *)
Lemma sections_imported sslOk now : ∃ p, importSections errnoText env doc sslOk now d = Done p ∧ after (restoreOps s t) p.
Proof.
  assert (A0 : after [] (mkProgress d [] [])) by (unfold after, store; cbn; by destruct (web d)).
  pose proof (step_dhcp _ _ A0 ltac:(apply not_elem_of_nil)) as A1.
  destruct (step_bindings _ _ A1) as (p2 & E2 & A2). destruct (step_allowed _ _ A2) as (p3 & E3 & A3).
  assert (K4 : 4%nat ∉ [3; 11; 12]%nat ∧ 6%nat ∉ [3; 11; 12; 4]%nat ∧ 5%nat ∉ [3; 11; 12; 4; 6; 13]%nat) by (split_and!; (apply (bool_decide_unpack _); vm_compute; exact I)).
  destruct K4 as (K4 & K6 & K5).
  pose proof (step_dns _ _ A3 K4) as A4. pose proof (step_time _ _ A4 K6) as A5. destruct (step_hosts _ _ A5) as (p6 & E6 & A6).
  pose proof (step_security sslOk now _ _ A6 K5) as A7.
  pose proof (step_ssh _ _ (step_device_log _ _ (step_device _ _ (step_files _ _ A7)))) as A12.
  eexists. split; [|exact A12]. unfold importSections. by rewrite E2, run_bind_done, E3, run_bind_done, E6, run_bind_done.
Qed.

End Steps.

(** C33: the backup of a device comes back on another: if the sections are complete, the lists
    are as the pages store them, no text is also a name of the document or holds a quote or a
    control character, and the document has at most the 16 KB of a body; and if the device it
    is sent to serves HTTPS as the backup has it, keeps its pair on the same volume, has its
    WiFi and takes the name of the host.  Then the import makes exactly the writes of
    [restoreOps], and when the store takes them every section and every list is that of the
    backup - but for the passwords and the checksum of the cache file, which stay those of
    the device.  The sections that are in no backup stay as they were. *)
Theorem backup_restores {S N K : Type} `{Posix S} `{Volumes S} `{Crypto K} `{NvsBlobLaws N} (errnoText : Errno → bytes) (env : Env)
    (fileVersion : bytes) (s : N) (d : Device S N) (version : Version.Version) (sslOk : bool) (now : Z) (doc : bytes) :
  restorable fileVersion s → fitsDevice env s d → handleGetSettingsExport true fileVersion s = Sent ok200 doc →
  let ops := restoreOps s (store d) in
  ∃ json d', handlePostSettingsImport (K := K) errnoText env true (length doc) doc version sslOk now d = Done (Sent ok200 json, d') ∧
    store d' = (opsRun ops (store d)).2 ∧ ((opsRun ops (store d)).1 = true → restored s (store d) (store d')) ∧
    ∀ ch, Config.sectionOf ch ∉ kind <$> ops → Config.get ch (store d') = Config.get ch (store d).
Proof.
  intros Hr Hf [= <-] ops. destruct (sections_imported errnoText env fileVersion s d Hr Hf sslOk now) as (p & Ep & Ha).
  pose proof Hr as (Hp & _ & _ & _ & _ & _ & _ & _ & Hl).
  destruct (SettingsImportScan.scan_total (Datatypes.S (length (exportText fileVersion s))) kKnownSettingsKeys [] (exportText fileVersion s) [] ltac:(lia)) as (skipped & Es).
  assert (Hn : exportText fileVersion s ≠ []) by by intros [? _]%app_eq_nil.
  unfold handlePostSettingsImport. cbn [negb]. rewrite (proj2 (Nat.ltb_ge _ _) Hl), body_whole by lia. cbv zeta.
  rewrite bool_decide_false, (format_in_document fileVersion s Hp), bytes_eqb_refl by done. cbn [negb].
  destruct (match Version.scanRelease _ with Some _ => _ | None => _ end) as [mismatch newer].
  unfold importSkippedFields, SettingsImportScan.unknownSettingsKeys. rewrite Es, !run_bind_done, Ep, run_bind_done. eexists _, _. split; [reflexivity|].
  match goal with |- store ?b = _ ∧ _ => assert (E : store b = (opsRun ops (store d)).2) end.
  { cbn [onDev dev]. change (store (ask ?c ?b)) with (store b). unfold store. rewrite web_services, Ha. reflexivity. }
  rewrite E. split_and!; [done|by apply (ops_restored fileVersion)|]. intros ch Hk. apply Config.get_agree. by apply (ops_other ops (OSet ch)).
Qed.

(** ** A device in memory *)

#[local] Existing Instances Config.flash Config.flash_laws PosixFileOperations.MemoryVolume both_mounted plain_crypto.

#[local] Instance flash_blob_laws : NvsBlobLaws Config.Flash.
Proof.
  split; try done; try (intros k v q s Hq; cbn; by destruct (Config.fits _ _)).
  - intros k v q s. cbn. destruct (Config.fits k v); [|done]. unfold bytes_eqb. cbn. case_bool_decide as E; [subst; apply lookup_insert_eq|by apply lookup_insert_ne].
  - intros k s. apply lookup_delete_eq.
  - intros k q s Hq. cbn. rewrite !lookup_delete_ne by done. done.
Defined.

#[local] Instance binding_eq : EqDecision StaticBindings.StaticBinding.
Proof. solve_decision. Defined.
#[local] Instance host_eq : EqDecision DnsServer.HostEntry.
Proof. solve_decision. Defined.

(** A device with an entry in each list and settings that are not those of a new one. *)
Definition oldDevice : Config.Flash :=
  let s := (setStaticBindings [StaticBindings.mkBinding (lit "24:0a:c4:00:00:01") (lit "192.168.1.50") (lit "printer") [] true true true] Config.erased).2 in
  let s := (setLocalHosts [DnsServer.mkHost (lit "nas.lan") (lit "192.168.1.9") [] true; DnsServer.mkHost (lit "tv.lan") [] (lit "fd00::9") false] s).2 in
  let s := (setAllowedComputers (AllowedList.serialize [AllowedList.mkComputer (lit "24:0a:c4:00:00:02") (lit "laptop") true]) s).2 in
  let s := (Config.set (Config.CHostName (lit "attic")) s).2 in
  (Config.set (Config.CTime (restoredTime (Time.mk true true (lit "pool.ntp.org") (lit "CET") 1 3600 true 7 false true false true 131072 [] false [] [])
    (Time.getTime s))) s).2.
Definition newDevice : Device PosixFileOperations.Volume Config.Flash := boxOf (Config.set (Config.CFiles (Files.mk false)) Config.erased).2.

Lemma backup_restores_witness : let doc := exportText (lit "01.02.310.00.26.10.EU") oldDevice in
  ∃ json d', handlePostSettingsImport (K := bytes) noText allThere true (length doc) doc thisVersion true 2000 newDevice = Done (Sent ok200 json, d') ∧
    restored oldDevice (store newDevice) (store d').
Proof.
  intros doc. destruct (backup_restores (K := bytes) noText allThere (lit "01.02.310.00.26.10.EU") oldDevice newDevice thisVersion true 2000 doc) as (json & d' & E & _ & Hd & _).
  - split; [split; (apply (bool_decide_unpack _); vm_compute; exact I)|].
    split; [split_and!; try (vm_compute; discriminate); left; vm_compute; reflexivity|]. split; [vm_compute; discriminate|].
    split; [split_and!; try (vm_compute; discriminate); try (vm_compute; reflexivity); [vm_compute; lia|apply (bool_decide_unpack _); vm_compute; exact I]|].
    split; [vm_compute; discriminate|]. split_and!; try (apply (bool_decide_unpack _); vm_compute; exact I).
  - split_and!; [intros _|..]; vm_compute; reflexivity.
  - reflexivity.
  - exists json, d'. split; [exact E|]. apply Hd. vm_compute. reflexivity.
Defined.

End Restored.
